(* ===== verification/_CoqProject ===== *)
-Q . S2P
Prelude.v
Types.v
Errors.v
Transaction.v
Opcode.v
ScriptEngine.v
ScriptLogic.v
ScriptProps.v
SamplePrimitives.v
Merkle.v
OxideHash.v
F64.v
AdaptiveBlockSize.v
PosSelection.v
Params.v
U256.v
Pow.v
PowProps.v
ScriptTheorems.v
StandardScripts.v
UtxoSet.v
UtxoProps.v
TxValidation.v
Masternodes.v
LiveTickets.v
GovernanceState.v
ChainState.v
Trie.v
Mempool.v
Blockchain.v
BlockchainProps.v
BlockchainChecks.v
TicketPool.v
ConsensusStore.v
ConsensusValidation.v
ConsensusProps.v
ParameterManager.v
GovernanceVoting.v
GovernanceActivation.v
SidechainTypes.v
Federation.v
TwoWayPeg.v
CrossChain.v
CrossChainProcessor.v
InterSidechain.v
FraudProofs.v
ProofValidation.v
SidechainConsensus.v
Dkg.v
ThresholdAlgebra.v
DkgProtocol.v
Quorum.v
MasternodeDkg.v
ProofOfService.v
MasternodeTx.v
MasternodeSync.v
Wallet.v
Signatures.v
OxideSend.v
FerrousShield.v
Reputation.v
ThresholdRequests.v
StateProofs.v
LightClient.v
Snapshots.v
StateManager.v
PeerSelection.v
PeerManager.v
SyncParts.v
NetworkSync.v
NetworkSyncProps.v
RpcAuth.v
