(* ===== verification/Prelude.v ===== *)
(** * Rusty Coin: a verification of the consensus code

    Rusty Coin is a cryptocurrency node written in Rust as a workspace of
    crates.  This library models the code that decides what is valid money and
    what is a valid block, and proves what that code guarantees.  Every
    definition is a translation of the Rust function it is named after; it is
    executable, and the examples and witnesses run it.

    ** How the program is put together

    - rusty-shared-types holds the data every crate exchanges: transactions,
      outputs, blocks, tickets, votes, proposals, masternodes.
    - rusty-core holds the script engine, the UTXO set, the ticket pool, the
      proposals, the mempool, the state trie and the block chain that drives
      them: a transaction is checked against the UTXO set for existence,
      maturity and value, its scripts are run, and applying the block updates
      the set, the tickets, the masternode list and the proposals.
    - rusty-consensus holds proof of work, the proof-of-stake lottery, the
      adaptive block size limit, and a second implementation of block
      validation, ticket pool and UTXO set on RocksDB; rusty-core has a second
      proof-of-work module.
    - rusty-crypto wraps hash and signature libraries, and holds OxideHash, a
      Merkle tree, multi-signatures and distributed key generation.
    - rusty-masternode is what masternodes do beside validation: they prove
      their service to each other, keep a list of themselves on the network,
      form quorums that generate keys, lock inputs for instant payments and
      coordinate the mixing of coins.
    - rusty-governance holds parameters, proposals and votes; rusty-wallet
      keys, coin selection and signing.
    - rusty-p2p, rusty-network, rusty-rpc, rusty-jsonrpc and rusty-node build
      on these.

    ** Files

    - [Prelude]: outcomes of Rust code ([Ok], [Err], [Panic], and [OutOfFuel]
      for a loop of the model), the state-and-error monad [stM] in which methods
      that take [&mut self] are written, [for] loops, machine integers, byte
      strings with the slices that panic out of range, little-endian numbers,
      and the tactics and hints the other files share.
    - [Types], [Transaction], [Errors]: rusty-shared-types/src/lib.rs,
      governance.rs and masternode.rs; the error enums of
      rusty-core/src/consensus/error.rs and rusty-consensus/src/error.rs.
    - [Opcode], [ScriptEngine]: the FerrisScript interpreter of
      rusty-core/src/script/ (opcode.rs, script_engine.rs), with every opcode,
      the limits of constants.rs and the entry points [verify_script] and
      [verify_script_with_sig_op_count].  [ScriptLogic] is a program logic for
      engine computations, [ScriptProps] the lemmas about opcodes and scripts
      proved with it, [ScriptTheorems] the claims.
    - [StandardScripts]: P2PKH and P2SH outputs and the signature hash
      (script_engine/standard_scripts.rs).
    - [UtxoSet], [UtxoProps]: rusty-core/src/consensus/utxo_set.rs.
    - [TxValidation]: [ScriptEngine::validate_transaction], which joins the
      script engine and the UTXO set.
    - [Merkle]: the three Merkle root implementations (rusty-shared-types,
      rusty-crypto, rusty-consensus).
    - [OxideHash]: the two proof-of-work hash functions
      (rusty-crypto/src/hash.rs, rusty-core/src/consensus/pow.rs).
    - [U256], [Pow], [PowProps]: 256-bit integers as an interface; targets,
      difficulty adjustment and block checks of both pow.rs files.
    - [F64]: Rust's [f64] on the Standard Library's [spec_float].
    - [AdaptiveBlockSize], [PosSelection]: adaptive_block_size.rs and
      pos_selection.rs of rusty-consensus.
    - [Params]: [ConsensusParams] of rusty-shared-types with its networks, and
      the change of a parameter by name (blockchain.rs).
    - [Masternodes]: the masternode list (rusty-shared-types/src/masternode.rs).
    - [LiveTickets], [GovernanceState], [ChainState]: pos.rs,
      governance_state.rs and state.rs of rusty-core/src/consensus.
    - [Trie]: rusty-core/src/state/merkle_patricia_trie.rs and the state root;
      [StateProofs]: its batch and range proofs, and proof_manager.rs;
      [Snapshots]: snapshot_manager.rs and fast_sync.rs; [StateManager]:
      state_manager.rs of the same directory; [LightClient]:
      rusty-core/src/light_client.rs, which checks such proofs.
    - [Mempool]: rusty-core/src/mempool.rs.
    - [Blockchain], with the theorems in [BlockchainProps] and
      [BlockchainChecks]: the node's state machine
      (rusty-core/src/consensus/blockchain.rs), which composes all of these.
    - [TicketPool]: pos.rs, pos_slashing.rs and validation_simple.rs of
      rusty-consensus; [ConsensusStore]: its utxo_set.rs and state.rs;
      [ConsensusValidation] and [ConsensusProps]: its validation.rs.
    - [ParameterManager]: rusty-governance/src/parameter_manager.rs;
      [GovernanceVoting]: its proposal_validation.rs, vote_validation.rs,
      stake_burning.rs and voting_coordinator.rs; [GovernanceActivation]: its
      proposal_activation.rs and governance_coordinator.rs.
    - Sidechains (rusty-core/src/sidechain/): [SidechainTypes]: types.rs;
      [Federation]: federation_manager.rs and federation_integrator.rs;
      [TwoWayPeg]: two_way_peg.rs; [CrossChain]: cross_chain_communication.rs
      and mainchain_validator.rs; [CrossChainProcessor]:
      cross_chain_processor.rs; [InterSidechain]: inter_sidechain_transfer.rs;
      [FraudProofs]: fraud_proofs.rs; [ProofValidation]: proof_validation.rs;
      [SidechainConsensus]: sidechain_consensus.rs, whose mutexes are part of
      its state, and the sidechain methods of blockchain.rs.
    - Key generation: [Dkg]: dkg.rs and dkg_messages.rs of rusty-shared-types;
      [ThresholdRequests]: rusty-core/src/consensus/threshold_signatures.rs;
      [DkgProtocol]: dkg.rs and dkg_manager.rs of rusty-crypto, whose
      polynomial and Lagrange arithmetic is [ThresholdAlgebra], over an
      arbitrary field of MathComp; [Quorum]: quorum_formation.rs and
      [MasternodeDkg]: dkg_manager.rs of rusty-masternode.
    - The rest of rusty-masternode: [ProofOfService]: pose.rs and
      pose_coordinator.rs; [MasternodeTx]: slashing.rs and the registration
      functions of lib.rs; [MasternodeSync]: mn_list.rs,
      mn_list_propagation.rs and network_coordinator.rs; [OxideSend]:
      oxidesend.rs; [FerrousShield] and [Reputation]: ferrous_shield.rs.
    - [Wallet]: keys.rs and tx_builder.rs of rusty-wallet and
      transaction_builder.rs of rusty-core; [Signatures]: signature.rs and
      keypair.rs of rusty-crypto.
    - Peers: [PeerSelection]: peer_selection.rs and [PeerManager]:
      peer_manager.rs of rusty-p2p; [SyncParts] and [NetworkSync], with the
      theorems in [NetworkSyncProps]: rusty-core/src/network/sync.rs, which
      downloads headers and blocks and adds them to the chain of [Blockchain].
    - [RpcAuth]: the API keys, permissions and rate limits of rusty-rpc
      (auth.rs, middleware.rs, the guards and the submission of transactions of
      server.rs) and of rusty-jsonrpc (auth.rs, rate_limiter.rs).
    - [SamplePrimitives]: a concrete instance of the third-party primitives,
      for examples and witnesses only.

    ** Correspondence with the code

    Integers are [Z] with the wrap-around of the release profile written out
    ([wrap32], [wrap64] and the like), since that profile has no overflow
    checks; an index out of range, a failed [unwrap] and a slice with bad bounds
    are [Panic].  A method that mutates its struct is an [stM] computation: the
    state it leaves behind on an error is part of the model.  A [HashMap] used
    as a map is a [gmap]; where the code iterates over one, the order is a list
    and the theorems say whether it matters.

    Code outside the repository is an interface: [Primitives] (BLAKE3,
    SHA-256, RIPEMD-160, Ed25519, bincode) with [HashLaws] for the lengths of
    digests, [U256] with [U256Laws] for the primitive-types crate, [RocksDB]
    with [RocksLaws] for the store (a get reads the last put or delete of a
    written batch, column families are separate), [EntryCodec] with its laws
    for the encoding of stored entries, [VoteCodec] and [HexCodec] for the
    bytes of votes and hexadecimal text, [BLS] for the signatures of
    federations, [SidechainCodec] and [MessageCodec] for the encodings of
    sidechain data, [AuthKeys] and [Bls12] with [AuthLaws] for the keys of key
    generation, [ChaCha8], [ChaCha8Index] and [StdRand] with their laws for
    random generators, [WalletCrypto] for mnemonics and curves,
    [ThresholdScheme] with [ThresholdSchemeLaws] for threshold signatures,
    [LightCodec], [SnapshotCodec] with [SnapshotCodecLaws] and [ProofSizes] for
    what light clients, snapshots and proofs encode, and one class
    of encodings for each part of rusty-masternode ([DkgCodec], [PoseCodec],
    [MnCodec], [SyncCodec], [SendCodec], [ShieldCodec]).  Time is an argument.
    No theorem assumes that a hash is injective: the Merkle and sighash theorems
    exhibit the colliding pair or speak of preimages.

    ** What the theorems show

    - Money: applying an accepted transaction creates none, as long as sums fit
      in 64 bits ([value_conservation]; [output_overflow_accepted] shows why the
      bound is needed); exactly which transactions are accepted
      ([validate_iff]); when applying a block is applying its transactions one
      after another ([apply_block_sequential]), what it does otherwise
      ([apply_block_refines], [intra_block_spend_survives]) and what reverting
      it loses ([revert_after_apply]).
    - Scripts: every script comes to an end, within the limits if it succeeds, and
      with a panic only if it contains one of three opcodes; what acceptance
      means; the two ways in which
      an output can be spent without its script being run ([skip_bypass],
      [pushdata_swallow]); what a signature hash commits to.
    - Proof of work: compact encoding round trip and precision, the adjustment
      as exact arithmetic with its panics, agreement of the three checks, the
      structure of OxideHash.
    - Proof of stake and block size: the lottery of rusty-consensus picks the
      live tickets of lowest score, that of rusty-core those of highest score,
      whatever the map order; the limit stays within its bounds.
    - The node's state machine: by induction over all reachable states, the
      stored height stays zero, governance takes no effect and no vote is
      accepted; what an integrity check establishes; which blocks [add_block]
      and [process_block] let through; how rewards are split.
    - Components of the node: invariants of the masternode list, the ticket
      pool and the mempool under every sequence of operations; the life of a
      ticket; voters, quorums and block templates as specifications; ballots
      and proposals; the block store as a map; the cap on the supply; what the
      trie commits to and what its proofs prove.
    - State proofs and clients: a range query returns exactly the keys of its
      range; which proofs a light client accepts and which honest ones it
      refuses, how often it asks, that its caches hold what was checked;
      which snapshots survive a cleanup, and that none is ever loaded; that one
      peer decides a fast synchronisation; the invariant of the state manager.
    - rusty-consensus: its UTXO store refines a map, the documented one for
      blocks without OP_RETURN outputs; an accepted transaction that is not a
      coinbase pays for what it creates; the ticket state machine; which checks
      contradict each other, so that no block is accepted.
    - rusty-governance: parameters stay in their ranges, and under which
      conditions a rollback restores them; a change by name sets exactly the
      named parameter; tallies are the stored votes; what a treasury spend and an
      activation do; which parameters can be governed at all.
    - Sidechains: federations keep a history of epochs whose thresholds can be
      met; a completed peg was requested and confirmed, and signed as far as the
      code checks it; messages are
      delivered in order and once; a cross-chain transaction is executed once;
      what is minted was burned, up to 64-bit sums; every fraud challenge is accounted for; what a
      valid block has passed.  And why none of it works in the engine: its
      messages are refused, its locks are taken twice, its validators disagree.
    - Key generation: the phases of a session and when it completes; the
      manager's sessions under every sequence of operations; what an aggregated
      signature is worth as algebra; that a signing request completed with a key
      carries a verifying signature, and that a new coordinator completes none; which
      shares and messages are accepted
      only with a forged signature; whom a quorum consists of.
    - Masternodes: who challenges whom and what a response is worth; slashing
      transactions keep the collateral and pass the slashing check of the
      consensus crate, though not its check of fees; the shared list under every sequence of updates; two conflicting
      locks blame a masternode, and a slash for a double spend is justified;
      rounds of mixing balance, sessions are not lost, reputations follow
      their histories, fees are conserved.
    - Wallet: what a built transaction spends and pays, that two built in a row
      spend different coins, that the greedy selection takes the largest coins
      and no more than it needs, which scripts
      are recognised.
    - Peers and synchronisation: connections, rates and reputations stay within
      their limits under every sequence of operations, and which peers are
      blacklisted; every strategy selects different known peers, the best by its
      score; the header phase ends, keeps everything but the index of the chain
      and the invariants of the node; which blocks pass verification; what is
      reported when peers answer nothing.
    - RPC access: which key authorizes which method; a revoked key stays out;
      how many requests pass; what is known of a submitted transaction; that
      the server as it is started refuses every call.
    - Merkle roots: binding up to a collision, agreement of implementations,
      the duplicate-last ambiguity.

    ** Fuel

    Few loops are not structural.  [exec_loop] runs a script with its length as
    fuel, enough since each step consumes at least one byte
    ([execute_terminates]); [merkle_loop] runs with the length of the level,
    which each round at least halves ([merkle_loop_runs]).  Walks down the trie
    carry one more than the nibbles of the key ([insert_no_fuel_error]), the
    collection of a range one unit for each node on a path.  The load of an
    incremental snapshot calls itself on the same snapshot and returns for no
    amount of fuel.  The loops of a synchronisation need one unit for each batch
    and each of five retries ([header_phase_terminates]); the walk of a block
    locator ends within 65 rounds ([locator_spec]).
    [draw_loop] of proof of service returns exactly when enough different
    positions are drawn ([select_challengers_draws]); [handle_dkg_message] of a
    masternode never returns for five kinds of messages, whatever the fuel
    ([protocol_messages_never_return]).  The scratchpad size
    and iteration count of OxideHash are arguments, so that the model can be run
    on small values; the theorems hold for the source's constants.

    ** Not modelled

    The sockets and message loops of the network, the second synchronisation
    manager (sync_manager.rs), the RPC methods with fixed answers, the thread-racing miner, byte
    layouts produced by bincode, the texts of
    formatted error messages, logging, and elliptic-curve code, which is
    third-party. *)

From Stdlib Require Import ZArith Lia List.
From stdpp Require Import base option list list_numbers numbers sorting gmap.

#[local] Open Scope Z_scope.

(** * Outcomes of Rust code

    A fallible Rust computation either returns a value, returns an error of
    its error type, or panics (an out-of-range index, a failed [unwrap]).
    [OutOfFuel] is the extra outcome of a modelled loop whose fuel ran out;
    the files that use fuel prove that it never happens. *)

Inductive outcome (E A : Type) : Type :=
| Ok (a : A)
| Err (e : E)
| Panic
| OutOfFuel.
Arguments Ok {E A} a.
Arguments Err {E A} e.
Arguments Panic {E A}.
Arguments OutOfFuel {E A}.

#[export] Instance outcome_ret (E : Type) : MRet (outcome E) := fun A a => Ok a.

#[export] Instance outcome_bind (E : Type) : MBind (outcome E) := fun A B f m =>
  match m with
  | Ok a => f a
  | Err e => Err e
  | Panic => Panic
  | OutOfFuel => OutOfFuel
  end.

Lemma outcome_bind_ok {E A B} (a : A) (f : A -> outcome E B) : (Ok a ≫= f) = f a.
Proof. reflexivity. Qed.

Lemma outcome_bind_inv {E A B} (m : outcome E A) (f : A -> outcome E B) b :
  (m ≫= f) = Ok b -> exists a, m = Ok a /\ f a = Ok b.
Proof. destruct m as [a|e| |]; try done. eauto. Qed.

Definition is_ok {E A} (o : outcome E A) : bool :=
  match o with Ok _ => true | _ => false end.

(** [Option::ok_or] and [Option::unwrap]. *)
Definition ok_or {E A} (o : option A) (e : E) : outcome E A :=
  match o with Some a => Ok a | None => Err e end.

Definition unwrap {E A} (o : option A) : outcome E A :=
  match o with Some a => Ok a | None => Panic end.

(** [Result::map_err]. *)
Definition map_err {E F A} (f : E -> F) (o : outcome E A) : outcome F A :=
  match o with
  | Ok a => Ok a
  | Err e => Err (f e)
  | Panic => Panic
  | OutOfFuel => OutOfFuel
  end.

#[export] Instance outcome_eq_dec {E A} `{EqDecision E, EqDecision A} :
  EqDecision (outcome E A).
Proof. solve_decision. Defined.

(** * Code that mutates [self]

    A method taking [&mut self] over a struct [S] is a function from the
    struct to the struct after the call and the outcome.  The struct after the
    call is kept on an error as well, since the caller still owns it. *)

Definition stM (S E A : Type) : Type := S -> S * outcome E A.

#[export] Instance stM_ret (S E : Type) : MRet (stM S E) := fun A a s => (s, Ok a).

#[export] Instance stM_bind (S E : Type) : MBind (stM S E) := fun A B f m s =>
  match m s with
  | (s', Ok a) => f a s'
  | (s', Err e) => (s', Err e)
  | (s', Panic) => (s', Panic)
  | (s', OutOfFuel) => (s', OutOfFuel)
  end.

Definition throw {S E A} (e : E) : stM S E A := fun s => (s, Err e).
Definition panic {S E A} : stM S E A := fun s => (s, Panic).
Definition gets {S E A} (f : S -> A) : stM S E A := fun s => (s, Ok (f s)).
Definition modify {S E} (f : S -> S) : stM S E unit := fun s => (f s, Ok tt).

(** Run a computation that does not touch the struct. *)
Definition lift {S E A} (o : outcome E A) : stM S E A := fun s => (s, o).

Lemma stM_bind_run {S E A B} (m : stM S E A) (f : A -> stM S E B) (s : S) :
  (m ≫= f) s =
  match m s with
  | (s', Ok a) => f a s'
  | (s', Err e) => (s', Err e)
  | (s', Panic) => (s', Panic)
  | (s', OutOfFuel) => (s', OutOfFuel)
  end.
Proof. reflexivity. Qed.

Lemma stM_bind_ok {S E A B} (m : stM S E A) (f : A -> stM S E B) s s2 b :
  (m ≫= f) s = (s2, Ok b) ->
  exists s1 a, m s = (s1, Ok a) /\ f a s1 = (s2, Ok b).
Proof.
  rewrite stM_bind_run. destruct (m s) as [s1 [a|e| |]]; intros H; try discriminate.
  eauto.
Qed.

(** [for x in l { .. }] over a body that mutates the struct. *)
Fixpoint for_each {S E A} (l : list A) (body : A -> stM S E unit) : stM S E unit :=
  match l with
  | [] => mret tt
  | x :: l => body x;; for_each l body
  end.

Lemma for_each_pure {S E A} (l : list A) (body : A -> stM S E unit) (g : S -> A -> S) s :
  Forall (fun x => forall s, body x s = (g s x, Ok tt)) l ->
  for_each l body s = (foldl g s l, Ok tt).
Proof.
  intros Hl. revert s. induction Hl as [|x l Hx Hl IH]; intros s; [done|].
  cbn [for_each foldl]. rewrite stM_bind_run, Hx. apply IH.
Qed.

Lemma for_each_app {S E A} (l1 l2 : list A) (body : A -> stM S E unit) s :
  for_each (l1 ++ l2) body s = (for_each l1 body;; for_each l2 body) s.
Proof.
  revert s. induction l1 as [|x l1 IH]; intros s; [done|].
  cbn [for_each app]. rewrite !stM_bind_run.
  destruct (body x s) as [s1 [a|e| |]]; done || apply IH.
Qed.

(** A loop whose body keeps an invariant and returns. *)
Lemma for_each_inv {S E A} (I : S -> Prop) (l : list A) (body : A -> stM S E unit) s :
  Forall (fun x => forall s, I s -> exists s', body x s = (s', Ok tt) /\ I s') l ->
  I s -> exists s', for_each l body s = (s', Ok tt) /\ I s'.
Proof.
  intros Hl. revert s. induction Hl as [|x l Hx Hl IH]; intros s Hs; [by exists s|].
  cbn [for_each]. destruct (Hx s Hs) as (s1 & Hb & Hs1). rewrite stM_bind_run, Hb. auto.
Qed.

(** ** Triples

    [triple P m Q R]: from a struct with [P], a normal return of [a] leaves one
    with [Q a], and an error or a panic one with [R].  An invariant [I] of a
    method is [preserves I m]. *)

Definition triple {S E A} (P : S -> Prop) (m : stM S E A) (Q : A -> S -> Prop) (R : S -> Prop) :
    Prop :=
  forall s, P s -> match m s with
                   | (s', Ok a) => Q a s'
                   | (s', _) => R s'
                   end.

Abbreviation preserves J m := (triple J m (fun _ => J) J).

Section Triples.
  Context {S E : Type}.
  Implicit Types (P R I : S -> Prop).

Lemma triple_bind {A B} P Q R (Q' : B -> S -> Prop) (m : stM S E A) (f : A -> stM S E B) :
  triple P m Q R -> (forall a, triple (Q a) (f a) Q' R) -> triple P (m ≫= f) Q' R.
Proof.
  intros Hm Hf s Hs. rewrite stM_bind_run. specialize (Hm s Hs).
  destruct (m s) as [s' [a|e| |]]; try done. by apply Hf.
Qed.

Lemma triple_conseq {A} P P' Q Q' R R' (m : stM S E A) :
  triple P m Q R -> (forall s, P' s -> P s) -> (forall a s, Q a s -> Q' a s) ->
  (forall s, R s -> R' s) -> triple P' m Q' R'.
Proof.
  intros Hm HP HQ HR s Hs. specialize (Hm s (HP s Hs)). destruct (m s) as [s' [a|e| |]]; auto.
Qed.

Lemma triple_pure {A} P (F : Prop) (Q : A -> S -> Prop) R (m : stM S E A) :
  (F -> triple P m Q R) -> triple (fun s => P s /\ F) m Q R.
Proof. intros Hm s [Hs HF]. by apply Hm. Qed.

Lemma preserves_ret {A} I (a : A) : preserves I (mret a : stM S E A).
Proof. by intros s Hs. Qed.

Lemma preserves_lift {A} I (o : outcome E A) : preserves I (lift o).
Proof. intros s Hs. cbn. by destruct o. Qed.

Lemma preserves_gets {A} I (f : S -> A) : preserves I (gets f : stM S E A).
Proof. by intros s Hs. Qed.

Lemma preserves_throw {A} I (e : E) : preserves I (throw e : stM S E A).
Proof. by intros s Hs. Qed.

Lemma preserves_panic {A} I : preserves I (panic : stM S E A).
Proof. by intros s Hs. Qed.

Lemma preserves_modify I (f : S -> S) : (forall s, I s -> I (f s)) -> preserves I (modify f : stM S E unit).
Proof. intros Hf s Hs. cbn. auto. Qed.

Lemma preserves_bind {A B} I (m : stM S E A) (f : A -> stM S E B) :
  preserves I m -> (forall a, preserves I (f a)) -> preserves I (m ≫= f).
Proof. apply triple_bind. Qed.

Lemma preserves_for_each {A} I (l : list A) (body : A -> stM S E unit) :
  (forall x, x ∈ l -> preserves I (body x)) -> preserves I (for_each l body).
Proof.
  induction l as [|x l IH]; intros Hl; [apply preserves_ret|]. cbn [for_each].
  apply preserves_bind; [apply Hl; left|]. intros _. apply IH. intros y Hy. apply Hl. by right.
Qed.

(** One round that always fails makes the loop fail. *)
Lemma for_each_fails {A} I (l : list A) (body : A -> stM S E unit) x s :
  (forall y, y ∈ l -> preserves I (body y)) -> x ∈ l ->
  (forall s, I s -> is_ok (snd (body x s)) = false) -> I s ->
  is_ok (snd (for_each l body s)) = false.
Proof.
  intros Hl Hx Hf. revert s. induction l as [|y l IH]; [by apply not_elem_of_nil in Hx|].
  intros s Hs. cbn [for_each]. rewrite stM_bind_run. apply elem_of_cons in Hx as [->|Hx].
  - specialize (Hf s Hs). destruct (body y s) as [s1 [a|e| |]]; done.
  - pose proof (Hl y ltac:(by left) s Hs) as Hy. destruct (body y s) as [s1 [a|e| |]]; try done.
    apply IH; try done. intros z Hz. apply Hl. by right.
Qed.

(** The struct after the call, whatever the outcome. *)
Lemma preserves_fst {A} I (m : stM S E A) s : preserves I m -> I s -> I (fst (m s)).
Proof. intros Hm Hs. specialize (Hm s Hs). by destruct (m s) as [s' [a|e| |]]. Qed.

End Triples.

(** What holds at the start and is kept by every step holds at the end. *)
Lemma foldl_inv {A B} (I : A -> Prop) (f : A -> B -> A) (l : list B) (a : A) :
  I a -> (forall a x, I a -> I (f a x)) -> I (foldl f a l).
Proof. intros Ha Hf. revert a Ha. induction l as [|x l IH]; cbn; auto. Qed.

(** A filter that keeps everything and one that keeps nothing. *)
Lemma filter_keeps {B} (Q : B -> Prop) `{forall x, Decision (Q x)} (l : list B) : Forall Q l -> filter Q l = l.
Proof. induction 1 as [|x l Hx Hl IH]; [done|]. rewrite filter_cons_True by done. by f_equal. Qed.

Lemma filter_drops {B} (Q : B -> Prop) `{forall x, Decision (Q x)} (l : list B) :
  Forall (fun x => ~ Q x) l -> filter Q l = [].
Proof. induction 1 as [|x l Hx Hl IH]; [done|]. by rewrite filter_cons_False. Qed.

(** Removing keys one by one. *)
Lemma deletes_lookup {K V} `{Countable K} (ids : list K) (m : gmap K V) i :
  foldl (fun m id => delete id m) m ids !! i = if bool_decide (i ∈ ids) then None else m !! i.
Proof.
  revert m. induction ids as [|j ids IH]; intros m; cbn [foldl]; [done|]. rewrite IH.
  destruct (decide (i = j)) as [->|Hne].
  - rewrite lookup_delete_eq, (bool_decide_eq_true_2 (j ∈ j :: ids)) by left. by case_bool_decide.
  - rewrite lookup_delete_ne by done.
    by rewrite (bool_decide_ext (i ∈ j :: ids) (i ∈ ids)) by (rewrite elem_of_cons; naive_solver).
Qed.

(** * Machine integers

    [u8], [u32], [u64] and [usize] (64-bit targets) are integers of [Z] kept
    below their bound.  Arithmetic follows the release profile of the
    workspace's Cargo.toml, which leaves overflow checks off: it wraps. *)

Definition u8_max : Z := 255.
Definition u32_max : Z := 4294967295.
Definition u64_max : Z := 18446744073709551615.

Definition is_u8 (z : Z) : Prop := 0 <= z <= u8_max.
Definition is_u32 (z : Z) : Prop := 0 <= z <= u32_max.
Definition is_u64 (z : Z) : Prop := 0 <= z <= u64_max.

Definition wrap8 (z : Z) : Z := z mod 256.
Definition wrap32 (z : Z) : Z := z mod 4294967296.
Definition wrap64 (z : Z) : Z := z mod 18446744073709551616.

Definition u64_add (a b : Z) : Z := wrap64 (a + b).
Definition u64_mul (a b : Z) : Z := wrap64 (a * b).
Definition u64_saturating_sub (a b : Z) : Z := Z.max 0 (a - b).
Definition u64_saturating_add (a b : Z) : Z := Z.min u64_max (a + b).

Lemma wrap64_small z : 0 <= z <= u64_max -> wrap64 z = z.
Proof. intros H. apply Z.mod_small. unfold u64_max in H. lia. Qed.

Lemma wrap64_range z : is_u64 (wrap64 z).
Proof.
  unfold is_u64, wrap64, u64_max.
  pose proof (Z.mod_pos_bound z 18446744073709551616 ltac:(lia)). lia.
Qed.

Lemma wrap32_small z : 0 <= z <= u32_max -> wrap32 z = z.
Proof. intros H. apply Z.mod_small. unfold u32_max in H. lia. Qed.

(** * Byte strings *)

Abbreviation bytes := (list Z).

Definition is_byte (z : Z) : Prop := 0 <= z < 256.
Definition is_bytes (l : bytes) : Prop := Forall is_byte l.

(** [to_le_bytes] of an [n]-byte integer and [from_le_bytes]. *)
Fixpoint to_le_bytes (n : nat) (z : Z) : bytes :=
  match n with
  | O => []
  | S n => z mod 256 :: to_le_bytes n (z / 256)
  end.

Fixpoint from_le_bytes (l : bytes) : Z :=
  match l with
  | [] => 0
  | b :: l => b + 256 * from_le_bytes l
  end.

Lemma length_to_le_bytes n z : length (to_le_bytes n z) = n.
Proof. revert z. induction n; intros z; simpl; auto. Qed.

Lemma to_le_bytes_bytes n z : is_bytes (to_le_bytes n z).
Proof.
  revert z. induction n as [|n IH]; intros z; simpl; constructor; [|apply IH].
  apply Z.mod_pos_bound. lia.
Qed.

Lemma from_le_bytes_bound l :
  is_bytes l -> 0 <= from_le_bytes l < 256 ^ Z.of_nat (length l).
Proof.
  induction 1 as [|b l Hb Hl IH]; simpl length; [simpl; lia|].
  rewrite Nat2Z.inj_succ, Z.pow_succ_r by lia. cbn [from_le_bytes].
  unfold is_byte in Hb. lia.
Qed.

Lemma from_to_le_bytes n z :
  0 <= z < 256 ^ Z.of_nat n -> from_le_bytes (to_le_bytes n z) = z.
Proof.
  revert z. induction n as [|n IH]; intros z Hz.
  - simpl in *. lia.
  - rewrite Nat2Z.inj_succ, Z.pow_succ_r in Hz by lia. cbn [to_le_bytes from_le_bytes].
    rewrite IH; [pose proof (Z.div_mod z 256); lia|].
    split; [apply Z.div_pos; lia|apply Z.div_lt_upper_bound; lia].
Qed.

Lemma to_from_le_bytes l : is_bytes l -> to_le_bytes (length l) (from_le_bytes l) = l.
Proof.
  induction 1 as [|b l Hb Hl IH]; cbn [length to_le_bytes from_le_bytes]; [done|].
  unfold is_byte in Hb.
  rewrite (Z.mul_comm 256).
  rewrite Z.mod_add, Z.div_add, Z.mod_small, Z.div_small by lia.
  by rewrite Z.add_0_l, IH.
Qed.

Lemma from_le_bytes_app_zeros v k : from_le_bytes (v ++ replicate k 0) = from_le_bytes v.
Proof.
  induction v as [|b v IH]; cbn [app from_le_bytes]; [|by rewrite IH].
  induction k as [|k IHk]; simpl in *; lia.
Qed.

(** A number below [256 ^ k] has zeros from the byte [k] on. *)
Lemma from_le_bytes_small_zeros k l i b :
  is_bytes l -> from_le_bytes l < 256 ^ Z.of_nat k -> (k <= i)%nat -> l !! i = Some b -> b = 0.
Proof.
  intros Hl. revert k i. induction Hl as [|x l Hx Hl IH]; intros k i Hk Hi Hb; [done|].
  cbn [from_le_bytes] in Hk. pose proof (from_le_bytes_bound l Hl) as Hn. unfold is_byte in Hx.
  destruct k as [|k].
  - change (256 ^ Z.of_nat 0) with 1 in Hk. destruct i as [|i]; [injection Hb as <-; lia|].
    apply (IH 0%nat i); [change (256 ^ Z.of_nat 0) with 1|..]; done || lia.
  - rewrite Nat2Z.inj_succ, Z.pow_succ_r in Hk by lia. destruct i as [|i]; [lia|].
    apply (IH k i); done || lia.
Qed.

(** Bitwise complement, as [!b] on a [u8]. *)
Definition u8_not (b : Z) : Z := 255 - b.

Lemma u8_not_byte b : is_byte b -> is_byte (u8_not b).
Proof. unfold is_byte, u8_not. lia. Qed.

Lemma log2_byte a : is_byte a -> Z.log2 a < 8.
Proof.
  unfold is_byte. intros Ha. destruct (Z.eq_dec a 0) as [->|]; [done|].
  apply Z.log2_lt_pow2; lia.
Qed.

Lemma land_byte a b : is_byte a -> is_byte b -> is_byte (Z.land a b).
Proof.
  intros Ha Hb. pose proof (log2_byte _ Ha). unfold is_byte in *.
  assert (0 <= Z.land a b) by (apply Z.land_nonneg; lia).
  split; [done|].
  destruct (Z.eq_dec (Z.land a b) 0) as [->|Hn]; [lia|].
  apply Z.log2_lt_pow2 with (b := 8); [lia|].
  pose proof (Z.log2_land a b ltac:(lia) ltac:(lia)). lia.
Qed.

Lemma lor_byte a b : is_byte a -> is_byte b -> is_byte (Z.lor a b).
Proof.
  intros Ha Hb. pose proof (log2_byte _ Ha). pose proof (log2_byte _ Hb).
  unfold is_byte in *. split; [apply Z.lor_nonneg; lia|].
  destruct (Z.eq_dec (Z.lor a b) 0) as [->|Hn]; [lia|].
  assert (0 <= Z.lor a b) by (apply Z.lor_nonneg; lia).
  apply Z.log2_lt_pow2 with (b := 8); [lia|]. rewrite Z.log2_lor by lia. lia.
Qed.

Lemma lxor_byte a b : is_byte a -> is_byte b -> is_byte (Z.lxor a b).
Proof.
  intros Ha Hb. pose proof (log2_byte _ Ha). pose proof (log2_byte _ Hb).
  unfold is_byte in *.
  assert (0 <= Z.lxor a b) by (apply Z.lxor_nonneg; lia).
  split; [done|].
  destruct (Z.eq_dec (Z.lxor a b) 0) as [->|Hn]; [lia|].
  apply Z.log2_lt_pow2 with (b := 8); [lia|].
  pose proof (Z.log2_lxor a b ltac:(lia) ltac:(lia)). lia.
Qed.

(** [<=] on byte slices and arrays is lexicographic. *)
Fixpoint bytes_le (a b : bytes) : bool :=
  match a, b with
  | [], _ => true
  | _ :: _, [] => false
  | x :: a, y :: b => (x <? y) || ((x =? y) && bytes_le a b)
  end.

Lemma bytes_le_refl a : bytes_le a a = true.
Proof.
  induction a as [|x a IH]; [done|]. cbn. rewrite Z.ltb_irrefl, Z.eqb_refl. done.
Qed.

Lemma bytes_le_trans a b c : bytes_le a b = true -> bytes_le b c = true -> bytes_le a c = true.
Proof.
  revert b c. induction a as [|x a IH]; intros [|y b] [|z c]; cbn; try done.
  rewrite !orb_true_iff, !andb_true_iff, !Z.ltb_lt, !Z.eqb_eq.
  intros [?|[-> ?]] [?|[-> ?]]; eauto with lia.
Qed.

Lemma bytes_le_total a b : bytes_le a b = true \/ bytes_le b a = true.
Proof.
  revert b. induction a as [|x a IH]; intros [|y b]; cbn; auto.
  destruct (Z.ltb_spec x y), (Z.ltb_spec y x), (Z.eqb_spec x y), (Z.eqb_spec y x);
    cbn; auto; lia.
Qed.

Lemma bytes_le_antisym a b : bytes_le a b = true -> bytes_le b a = true -> a = b.
Proof.
  revert b. induction a as [|x a IH]; intros [|y b]; cbn; try done.
  rewrite !orb_true_iff, !andb_true_iff, !Z.ltb_lt, !Z.eqb_eq.
  intros [?|[-> ?]] [?|[? ?]]; try lia. f_equal. auto.
Qed.

(** * Slices

    [l[a..b]] panics (here: [None]) when [a > b] or [b > len]; [l[i]] when
    [i >= len].  Positions are [usize] values. *)

Definition len {A} (l : list A) : Z := Z.of_nat (length l).

Definition slice {A} (l : list A) (a b : Z) : option (list A) :=
  if (0 <=? a) && (a <=? b) && (b <=? len l)
  then Some (take (Z.to_nat (b - a)) (drop (Z.to_nat a) l))
  else None.

Definition index {A} (l : list A) (i : Z) : option A :=
  if 0 <=? i then l !! Z.to_nat i else None.

Lemma slice_spec {A} (l : list A) a b s :
  slice l a b = Some s ->
  0 <= a <= b /\ b <= len l /\ s = take (Z.to_nat (b - a)) (drop (Z.to_nat a) l) /\
  len s = b - a.
Proof.
  unfold slice. destruct (Z.leb_spec 0 a), (Z.leb_spec a b), (Z.leb_spec b (len l));
    simpl; try discriminate.
  intros [= <-]. unfold len in *. rewrite length_take, length_drop. split_and!; try done; lia.
Qed.

Lemma slice_some {A} (l : list A) a b :
  0 <= a <= b -> b <= len l ->
  slice l a b = Some (take (Z.to_nat (b - a)) (drop (Z.to_nat a) l)).
Proof.
  intros. unfold slice.
  destruct (Z.leb_spec 0 a), (Z.leb_spec a b), (Z.leb_spec b (len l));
    simpl; done || lia.
Qed.

Lemma slice_none {A} (l : list A) a b : b < a -> slice l a b = None.
Proof.
  intros. unfold slice. destruct (Z.leb_spec 0 a), (Z.leb_spec a b); done || lia.
Qed.

Lemma slice_bytes l a b s : is_bytes l -> slice l a b = Some s -> is_bytes s.
Proof.
  intros Hl Hs. apply slice_spec in Hs as (_ & _ & -> & _).
  apply Forall_take, Forall_drop, Hl.
Qed.

Lemma len_nonneg {A} (l : list A) : 0 <= len l.
Proof. unfold len. lia. Qed.

Lemma len_nil {A} : len (@nil A) = 0.
Proof. done. Qed.

Lemma len_cons {A} (x : A) l : len (x :: l) = len l + 1.
Proof. unfold len. simpl length. lia. Qed.

Lemma len_app {A} (l1 l2 : list A) : len (l1 ++ l2) = len l1 + len l2.
Proof. unfold len. rewrite length_app. lia. Qed.

Lemma len_rev {A} (l : list A) : len (reverse l) = len l.
Proof. unfold len. by rewrite length_reverse. Qed.

Lemma len_to_le_bytes k z : len (to_le_bytes k z) = Z.of_nat k.
Proof. unfold len. by rewrite length_to_le_bytes. Qed.

Lemma imap_imap {A B C} (f : nat -> B -> C) (g : nat -> A -> B) (l : list A) :
  imap f (imap g l) = imap (fun i x => f i (g i x)) l.
Proof.
  apply list_eq. intros i. rewrite !list_lookup_imap. by destruct (l !! i).
Qed.

(** * Sorting *)

(** [Vec::sort_by], which is stable, with the comparator's "not greater" as
    [le]. *)
Fixpoint insert_by {A} (le : A -> A -> bool) (x : A) (l : list A) : list A :=
  match l with
  | [] => [x]
  | y :: l => if le x y then x :: y :: l else y :: insert_by le x l
  end.

Definition sort_by {A} (le : A -> A -> bool) (l : list A) : list A := foldr (insert_by le) [] l.

Definition not_greater (c : comparison) : bool := match c with Gt => false | _ => true end.

(** [Ordering::then_with] *)
Definition then_with (c d : comparison) : comparison := match c with Eq => d | _ => c end.

Fixpoint bytes_cmp (a b : bytes) : comparison :=
  match a, b with
  | [], [] => Eq
  | [], _ :: _ => Lt
  | _ :: _, [] => Gt
  | x :: a, y :: b => then_with (x ?= y) (bytes_cmp a b)
  end.

Section SortBy.
  Context {A : Type} (le : A -> A -> bool).

Lemma insert_by_perm x l : insert_by le x l ≡ₚ x :: l.
Proof.
  induction l as [|y l IH]; cbn; [done|]. destruct (le x y); [done|]. rewrite IH. constructor.
Qed.

Lemma sort_by_perm l : sort_by le l ≡ₚ l.
Proof.
  induction l as [|x l IH]; [done|]. cbn. rewrite insert_by_perm. by constructor.
Qed.

(** The result is ordered by any transitive relation the comparator implies. *)
Context (R : A -> A -> Prop) {Htrans : Transitive R}.
Hypothesis le_R : forall x y, le x y = true -> R x y.
Hypothesis not_le_R : forall x y, le x y = false -> R y x.

Lemma insert_by_sorted x l : Sorted R l -> Sorted R (insert_by le x l).
Proof using le_R not_le_R.
  induction 1 as [|y l Hs IH Hy]; cbn; [repeat constructor|].
  destruct (le x y) eqn:Hxy.
  - repeat constructor; auto.
  - constructor; [done|]. destruct l as [|z l]; cbn.
    + constructor. auto.
    + apply HdRel_inv in Hy. destruct (le x z); constructor; auto.
Qed.

Lemma sort_by_sorted l : StronglySorted R (sort_by le l).
Proof using le_R not_le_R Htrans.
  apply Sorted_StronglySorted; [exact Htrans|].
  induction l as [|x l IH]; [constructor|]. by apply insert_by_sorted.
Qed.

(** Everything after the first [n] comes later in the order. *)
Lemma take_sorted_best n l x y :
  StronglySorted R l -> x ∈ take n l -> y ∈ drop n l -> R x y.
Proof.
  intros Hs Hx Hy. rewrite <- (take_drop n l) in Hs.
  by apply (StronglySorted_app_1_elem_of _ _ _ x y Hs).
Qed.

End SortBy.

(** With an order that is total and antisymmetric the result does not depend on
    the order of the input. *)
Lemma sort_by_unique {A} (le : A -> A -> bool) l1 l2 :
  (forall x y z, le x y = true -> le y z = true -> le x z = true) ->
  (forall x y, le x y = true \/ le y x = true) ->
  (forall x y, le x y = true -> le y x = true -> x = y) ->
  l1 ≡ₚ l2 -> sort_by le l1 = sort_by le l2.
Proof.
  intros Htr Htot Hanti Hp. set (R := fun x y => le x y = true).
  assert (Transitive R) by (intros x y z; apply Htr).
  assert (AntiSymm (=) R) by (intros x y; apply Hanti).
  apply (StronglySorted_unique R).
  - apply (sort_by_sorted le R); [by unfold R|]. intros x y Hxy. destruct (Htot x y); [congruence|done].
  - apply (sort_by_sorted le R); [by unfold R|]. intros x y Hxy. destruct (Htot x y); [congruence|done].
  - by rewrite !sort_by_perm.
Qed.

Create HintDb rusty.
Create HintDb keep.
#[export] Hint Resolve preserves_ret preserves_lift preserves_gets preserves_throw preserves_panic : keep.

(** Split a [preserves] goal at its binds, loops and updates. *)
Ltac keep_step :=
  match goal with
  | |- triple _ (_ ≫= _) _ _ => apply preserves_bind; [|intros ?]
  | |- triple _ (for_each _ _) _ _ => apply preserves_for_each; intros ? ?
  | |- triple _ (modify _) _ _ => apply preserves_modify; intros ? ?
  | |- triple _ (if ?b then _ else _) _ _ => destruct b
  | |- triple _ (match ?x with _ => _ end) _ _ => destruct x
  | |- triple _ _ _ _ => solve [auto with keep]
  end.
Ltac keep := repeat keep_step.
#[export] Hint Rewrite @len_nil @len_cons @len_app @len_rev len_to_le_bytes : rusty.
#[export] Hint Resolve wrap64_range len_nonneg : rusty.

#[global] Arguments to_le_bytes : simpl never.
#[global] Arguments from_le_bytes : simpl never.
#[global] Arguments wrap64 : simpl never.
