(* ===== verification/Types.v ===== *)
(** Shared data types: transactions, outputs, blocks, votes
    (src/rusty-shared-types/src/lib.rs, governance.rs, masternode.rs).

    Fixed-size byte arrays ([u8; 32], [u8; 64]) and [Vec<u8>] are both [bytes];
    integers are [Z] at the width the Rust field has. *)

From Stdlib Require Import ZArith Lia List.
From stdpp Require Import base option list numbers strings countable gmap.
From S2P Require Import Prelude.

#[local] Open Scope Z_scope.

Abbreviation Hash := bytes.
Abbreviation PublicKey := bytes.

(** * Tickets *)

Inductive TicketStatus : Type := Pending | Live | Voted | Expired | Revoked.

#[export] Instance TicketStatus_eq_dec : EqDecision TicketStatus.
Proof. solve_decision. Defined.

Record Ticket : Type := mkTicket {
  ticket_id : bytes;
  ticket_pubkey : bytes;
  ticket_height : Z;
  ticket_value : Z;
  ticket_status : TicketStatus;
}.

Record TicketVote : Type := mkTicketVote {
  vote_ticket_id : bytes;
  vote_block_hash : Hash;
  vote_choice_u8 : Z;
  vote_signature : bytes;
}.

Inductive VoteType : Type := VoteYes | VoteNo | VoteAbstain.

Definition VoteType_from_u8 (value : Z) : option VoteType :=
  match value with
  | 0 => Some VoteYes
  | 1 => Some VoteNo
  | 2 => Some VoteAbstain
  | _ => None
  end.

Definition VoteType_to_u8 (v : VoteType) : Z :=
  match v with VoteYes => 0 | VoteNo => 1 | VoteAbstain => 2 end.

(** * Inputs and outputs *)

Record OutPoint : Type := mkOutPoint {
  txid : Hash;
  vout : Z;
}.

#[export] Instance OutPoint_eq_dec : EqDecision OutPoint.
Proof. solve_decision. Defined.

#[export] Program Instance OutPoint_countable : Countable OutPoint :=
  inj_countable' (fun o => (txid o, vout o)) (fun p => mkOutPoint p.1 p.2) _.
Next Obligation. by intros []. Qed.

Record TxInput : Type := mkTxInput {
  prev_out_hash : Hash;
  prev_out_index : Z;
  previous_output : OutPoint;
  script_sig : bytes;
  sequence : Z;
  input_witness : list bytes;
}.

Definition TxInput_new (prev_out_hash : Hash) (prev_out_index : Z) (script_sig : bytes)
    (sequence : Z) (witness : list bytes) : TxInput :=
  let previous_output := mkOutPoint prev_out_hash prev_out_index in
  mkTxInput prev_out_hash prev_out_index previous_output script_sig sequence witness.

Definition TxInput_from_outpoint (outpoint : OutPoint) (script_sig : bytes)
    (sequence : Z) (witness : list bytes) : TxInput :=
  TxInput_new (txid outpoint) (vout outpoint) script_sig sequence witness.

Definition TxInput_outpoint (i : TxInput) : OutPoint := previous_output i.

Definition TxInput_set_outpoint (i : TxInput) (outpoint : OutPoint) : TxInput :=
  mkTxInput (txid outpoint) (vout outpoint) outpoint (script_sig i) (sequence i)
    (input_witness i).

Record TxOutput : Type := mkTxOutput {
  value : Z;
  script_pubkey : bytes;
  memo : option bytes;
}.

#[export] Instance TxOutput_eq_dec : EqDecision TxOutput.
Proof. solve_decision. Defined.

Definition TxOutput_new (value : Z) (script_pubkey : bytes) : TxOutput :=
  mkTxOutput value script_pubkey None.

Definition TxOutput_new_with_memo (value : Z) (script_pubkey : bytes)
    (memo : option bytes) : TxOutput :=
  mkTxOutput value script_pubkey memo.

(** [extract_public_key_hash]: the 20-byte hash of a P2PKH script. *)
Definition extract_public_key_hash (o : TxOutput) : option bytes :=
  let s := script_pubkey o in
  if (len s =? 25)
     && bool_decide (index s 0 = Some 0x76)
     && bool_decide (index s 1 = Some 0xA9)
     && bool_decide (index s 2 = Some 0x14)
     && bool_decide (index s 23 = Some 0x88)
     && bool_decide (index s 24 = Some 0xAC)
  then slice s 3 23
  else None.

Record Utxo : Type := mkUtxo {
  output : TxOutput;
  is_coinbase_utxo : bool;
  creation_height : Z;
}.

#[export] Instance Utxo_eq_dec : EqDecision Utxo.
Proof. solve_decision. Defined.

(** * Masternode identities and slashing proofs carried by transactions *)

Record MasternodeID : Type := mkMasternodeID { mn_outpoint : OutPoint }.

#[export] Instance MasternodeID_eq_dec : EqDecision MasternodeID.
Proof. solve_decision. Defined.

#[export] Program Instance MasternodeID_countable : Countable MasternodeID :=
  inj_countable' mn_outpoint mkMasternodeID _.
Next Obligation. by intros []. Qed.

Record MasternodeIdentity : Type := mkMasternodeIdentity {
  collateral_outpoint : OutPoint;
  operator_public_key : bytes;
  network_address : string;
  collateral_ownership_public_key : bytes;
  dkg_public_key : option bytes;
  supported_dkg_versions : list Z;
}.

Record WitnessSignature : Type := mkWitnessSignature {
  ws_masternode_id : MasternodeID;
  ws_signature : bytes;
}.

Inductive SlashingReason : Type :=
| MasternodeNonResponse
| DoubleSigning
| InvalidBlockProposal
| InvalidTransaction
| GovernanceViolation.

Inductive TicketMaliciousActionType : Type := DoubleVoting | InvalidVote | InvalidSignature.

Record TicketNonParticipationProof : Type := mkTicketNonParticipationProof {
  tnp_ticket_id : bytes;
  tnp_detection_block_height : Z;
  tnp_target_block_hash : Hash;
  tnp_selection_block_height : Z;
  tnp_selection_proof : bytes;
  tnp_witness_signatures : list WitnessSignature;
}.

Record TicketMaliciousProof : Type := mkTicketMaliciousProof {
  tm_ticket_id : bytes;
  tm_detection_block_height : Z;
  tm_malicious_action_type : TicketMaliciousActionType;
  tm_proof_data : bytes;
  tm_witness_signatures : list WitnessSignature;
}.

Record MasternodeSlash : Type := mkMasternodeSlash {
  slash_version : Z;
  slash_inputs : list TxInput;
  slash_outputs : list TxOutput;
  slash_masternode_id : MasternodeID;
  slash_reason : SlashingReason;
  slash_proof : bytes;
  slash_lock_time : Z;
  slash_fee : Z;
  slash_witness : list bytes;
}.

(** * Governance payloads *)

Inductive ProposalType : Type :=
| ProtocolUpgrade | ParameterChange | TreasurySpend | BugFix | CommunityFund.

#[export] Instance ProposalType_eq_dec : EqDecision ProposalType.
Proof. solve_decision. Defined.

Inductive VoterType : Type := PosTicket | Masternode.

#[export] Instance VoterType_eq_dec : EqDecision VoterType.
Proof. solve_decision. Defined.

Inductive VoteChoice : Type := Yes | No | Abstain.

#[export] Instance VoteChoice_eq_dec : EqDecision VoteChoice.
Proof. solve_decision. Defined.

Record Proposal : Type := mkProposal {
  proposal_id : Hash;
  proposer_address : PublicKey;
  proposal_type : ProposalType;
  start_block_height : Z;
  end_block_height : Z;
  title : string;
  description_hash : Hash;
  code_change_hash : option Hash;
  target_parameter : option string;
  new_value : option string;
  bug_description : option string;
  recipient_address : option PublicKey;
  proposal_amount : option Z;
  project_description : option string;
  proposer_signature : bytes;
  proposal_inputs : list TxInput;
  proposal_outputs : list TxOutput;
  proposal_lock_time : Z;
  proposal_witness : list bytes;
  proposal_fee : Z;
}.

Record Vote : Type := mkVote {
  vote_proposal_id : Hash;
  voter_type : VoterType;
  voter_id : PublicKey;
  vote_choice : VoteChoice;
  voter_signature : bytes;
  vote_inputs : list TxInput;
  vote_outputs : list TxOutput;
  vote_lock_time : Z;
  vote_witness : list bytes;
  vote_fee : Z;
}.

Record ApprovalProof : Type := mkApprovalProof {
  total_voting_power : Z;
  yes_votes : Z;
  no_votes : Z;
  abstain_votes : Z;
  approval_percentage_bp : Z;
  required_threshold_bp : Z;
  voting_end_height : Z;
  voting_state_hash : Hash;
}.
