(* ===== verification/Errors.v ===== *)
(** The error types of the consensus code: [CE] is the enum of
    src/rusty-core/src/consensus/error.rs, [CCE] the one of
    src/rusty-consensus/src/error.rs.

    The variants live in a module of their own: several share a name with
    constructors of other enums.  A [String] payload is kept where the model
    carries the text; the formatted parts of a message are not modelled. *)

From Stdlib Require Import ZArith.
From stdpp Require Import base strings.
From S2P Require Import Prelude Types.

Module CE.

Inductive ConsensusError : Type :=
| BlockValidation (a0 : string)
| TransactionValidation (a0 : string)
| UtxoSetError (a0 : string)
| StateError (a0 : string)
| ProofOfWorkError (a0 : string)
| ScriptError (a0 : string)
| CoinbaseError (a0 : string)
| MasternodeError (a0 : string)
| CoinbaseMaturity (a0 : string)
| DustLimit (a0 : string)
| NegativeFee (a0 : string)
| TrieError (a0 : string)
| SerializationError (a0 : string)
| MissingPreviousOutput (a0 : OutPoint)
| EmptyBlock
| ThresholdSignatureError (a0 : string)
| DKGError (a0 : string)
| Other (a0 : string)
| Internal (a0 : string)
| InvalidBlock (a0 : string)
| StateRootNotFound (a0 : Z)
| InvalidProofOfWork
| ProposalAlreadyExists (a0 : Hash)
| ProposalNotFound (a0 : Hash)
| VoteNotFound (a0 : Hash) (a1 : Hash)
| RuleViolation (a0 : string)
| InvalidScript (a0 : string)
| InvalidCoinbase (a0 : string)
| InsufficientFee (a0 : Z) (a1 : Z)
| InvalidLockTime (a0 : string)
| InvalidTicket (a0 : string)
| InvalidTicketID
| InvalidTicketStatus
| InvalidVoteType
| DuplicateTicketVote (a0 : string)
| DuplicateGovernanceVote (a0 : Hash) (a1 : Hash)
| ImmatureTicket (a0 : string)
| ExpiredTicket (a0 : string)
| DatabaseError (a0 : string)
| FailedToFindHistoricalUTXO (a0 : OutPoint)
| InvalidSignature (a0 : string)
| NoTicketVotes
| InvalidTicketVote (a0 : string)
| InsufficientTicketVotes
| InvalidPoSeResponse (a0 : string)
| PoSeChallengeExpired (a0 : string)
| NetworkError (a0 : string).

#[export] Instance ConsensusError_eq_dec : EqDecision ConsensusError.
Proof. solve_decision. Defined.

(** A bincode failure, converted by [From] or [map_err]; its text is
    [ErrorKind]'s. *)
Definition bincode_failure : ConsensusError := SerializationError "".

End CE.

Module CCE.

Inductive ConsensusCrateError : Type :=
| BlockTooLarge (a0 : Z) (a1 : Z)
| SerializationError (a0 : string)
| InvalidProof (a0 : string)
| InvalidProofOfWork
| EmptyBlock
| TransactionLocked
| TransactionLocktimeNotMet
| InvalidSequence
| NegativeFee
| DustOutput (a0 : Z)
| InvalidScript (a0 : string)
| MasternodeError (a0 : string)
| DatabaseError (a0 : string)
| NoTicketVotes
| DuplicateTicketVote
| InvalidTicketID
| InvalidTicketStatus
| ExpiredTicket
| InvalidVoteType
| InvalidSignature
| InsufficientTicketVotes
| InvalidBlockHash
| GovernanceError (a0 : string)
| InvalidTicketVote
| UtxoSetInconsistent (a0 : Z)
| EmptyTransaction
| CoinbaseHasInputs
| NonCoinbaseHasNoInputs
| DuplicateInput
| MissingTxInput
| CoinbaseNotMature
| InvalidScriptSig
| InvalidTransactionType (a0 : string)
| InvalidMasternodeDeregistration (a0 : string)
| UnsupportedVersion (a0 : Z)
| InvalidPreviousBlockHash
| InvalidMerkleRoot
| TimestampTooFarInFuture
| TimestampTooOld
| MissingPreviousBlock
| MasternodeNotFound
| MasternodeInactive
| InvalidProofOfService
| DuplicateTransaction
| NoOutputs
| OutputValueZero (a0 : Z)
| InvalidCoinbase (a0 : string)
| SpendingMoreThanInputs
| InvalidLockTime (a0 : string)
| TransactionTooLarge (a0 : Z) (a1 : Z)
| InsufficientFee (a0 : Z) (a1 : Z)
| NoCoinbaseTransaction
| InvalidCoinbaseInput
| InvalidSlashingTransaction (a0 : string)
| MerkleRootMismatch (expected found : Hash)
| InvalidStateRoot (expected found : Hash).

#[export] Instance ConsensusCrateError_eq_dec : EqDecision ConsensusCrateError.
Proof. solve_decision. Defined.

End CCE.

(** [str::contains] *)
Definition contains (pattern s : string) : bool :=
  match String.index 0 pattern s with Some _ => true | None => false end.
