(* ===== verification/Transaction.v ===== *)
(** The transaction enum and its accessors
    (src/rusty-shared-types/src/lib.rs, [Transaction], [BlockHeader], [Block]). *)

From Stdlib Require Import ZArith Lia List.
From stdpp Require Import base option list numbers strings.
From S2P Require Import Prelude Types.

#[local] Open Scope Z_scope.

Inductive Transaction : Type :=
| Standard (version : Z) (inputs : list TxInput) (outputs : list TxOutput)
    (lock_time fee : Z) (witness : list bytes)
| Coinbase (version : Z) (inputs : list TxInput) (outputs : list TxOutput)
    (lock_time : Z) (witness : list bytes)
| MasternodeRegister (masternode_identity : MasternodeIdentity) (signature : bytes)
    (lock_time : Z) (inputs : list TxInput) (outputs : list TxOutput)
    (witness : list bytes)
| MasternodeCollateral (version : Z) (inputs : list TxInput) (outputs : list TxOutput)
    (masternode_identity : MasternodeIdentity) (collateral_amount lock_time : Z)
    (witness : list bytes)
| GovernanceProposal (proposal : Proposal)
| GovernanceVote (vote : Vote)
| ActivateProposal (version : Z) (proposal_id : Hash) (activation_block_height : Z)
    (approval_proof : ApprovalProof) (activator_signature : bytes)
    (inputs : list TxInput) (outputs : list TxOutput) (lock_time : Z)
    (witness : list bytes)
| TicketPurchase (version : Z) (inputs : list TxInput) (outputs : list TxOutput)
    (ticket_id : bytes) (locked_amount lock_time fee : Z) (ticket_address : bytes)
    (witness : list bytes)
| TicketRedemption (version : Z) (inputs : list TxInput) (outputs : list TxOutput)
    (ticket_id : bytes) (lock_time fee : Z) (witness : list bytes)
| MasternodeSlashTx (tx : MasternodeSlash)
| TicketSlashNonParticipation (version : Z) (inputs : list TxInput)
    (outputs : list TxOutput) (ticket_id : bytes) (proof : TicketNonParticipationProof)
    (lock_time fee : Z) (witness : list bytes)
| TicketSlashMalicious (version : Z) (inputs : list TxInput) (outputs : list TxOutput)
    (ticket_id : bytes) (proof : TicketMaliciousProof) (lock_time fee : Z)
    (witness : list bytes).

Definition get_inputs (tx : Transaction) : list TxInput :=
  match tx with
  | Standard _ inputs _ _ _ _ => inputs
  | Coinbase _ inputs _ _ _ => inputs
  | MasternodeRegister _ _ _ inputs _ _ => inputs
  | MasternodeCollateral _ inputs _ _ _ _ _ => inputs
  | ActivateProposal _ _ _ _ _ inputs _ _ _ => inputs
  | TicketPurchase _ inputs _ _ _ _ _ _ _ => inputs
  | TicketRedemption _ inputs _ _ _ _ _ => inputs
  | TicketSlashNonParticipation _ inputs _ _ _ _ _ _ => inputs
  | TicketSlashMalicious _ inputs _ _ _ _ _ _ => inputs
  | GovernanceProposal proposal => proposal_inputs proposal
  | GovernanceVote vote => vote_inputs vote
  | MasternodeSlashTx tx => slash_inputs tx
  end.

Definition get_outputs (tx : Transaction) : list TxOutput :=
  match tx with
  | Standard _ _ outputs _ _ _ => outputs
  | Coinbase _ _ outputs _ _ => outputs
  | MasternodeRegister _ _ _ _ outputs _ => outputs
  | MasternodeCollateral _ _ outputs _ _ _ _ => outputs
  | ActivateProposal _ _ _ _ _ _ outputs _ _ => outputs
  | TicketPurchase _ _ outputs _ _ _ _ _ _ => outputs
  | TicketRedemption _ _ outputs _ _ _ _ => outputs
  | TicketSlashNonParticipation _ _ outputs _ _ _ _ _ => outputs
  | TicketSlashMalicious _ _ outputs _ _ _ _ _ => outputs
  | GovernanceProposal proposal => proposal_outputs proposal
  | GovernanceVote vote => vote_outputs vote
  | MasternodeSlashTx tx => slash_outputs tx
  end.

Definition get_lock_time (tx : Transaction) : Z :=
  match tx with
  | Standard _ _ _ lock_time _ _ => lock_time
  | Coinbase _ _ _ lock_time _ => lock_time
  | MasternodeRegister _ _ lock_time _ _ _ => lock_time
  | MasternodeCollateral _ _ _ _ _ lock_time _ => lock_time
  | ActivateProposal _ _ _ _ _ _ _ lock_time _ => lock_time
  | TicketPurchase _ _ _ _ _ lock_time _ _ _ => lock_time
  | TicketRedemption _ _ _ _ lock_time _ _ => lock_time
  | TicketSlashNonParticipation _ _ _ _ _ lock_time _ _ => lock_time
  | TicketSlashMalicious _ _ _ _ _ lock_time _ _ => lock_time
  | GovernanceProposal proposal => proposal_lock_time proposal
  | GovernanceVote vote => vote_lock_time vote
  | MasternodeSlashTx tx => slash_lock_time tx
  end.

Definition get_fee (tx : Transaction) : Z :=
  match tx with
  | Standard _ _ _ _ fee _ => fee
  | TicketPurchase _ _ _ _ _ _ fee _ _ => fee
  | TicketRedemption _ _ _ _ _ fee _ => fee
  | GovernanceProposal proposal => proposal_fee proposal
  | GovernanceVote vote => vote_fee vote
  | ActivateProposal _ _ _ _ _ _ _ _ _ => 0
  | MasternodeSlashTx tx => slash_fee tx
  | TicketSlashNonParticipation _ _ _ _ _ _ fee _ => fee
  | TicketSlashMalicious _ _ _ _ _ _ fee _ => fee
  | _ => 0
  end.

Definition is_coinbase (tx : Transaction) : bool :=
  match tx with Coinbase _ _ _ _ _ => true | _ => false end.

Definition get_witnesses (tx : Transaction) : list bytes :=
  match tx with
  | Standard _ _ _ _ _ witness => witness
  | Coinbase _ _ _ _ witness => witness
  | MasternodeRegister _ _ _ _ _ witness => witness
  | MasternodeCollateral _ _ _ _ _ _ witness => witness
  | ActivateProposal _ _ _ _ _ _ _ _ witness => witness
  | TicketPurchase _ _ _ _ _ _ _ _ witness => witness
  | TicketRedemption _ _ _ _ _ _ witness => witness
  | GovernanceProposal _ => []
  | GovernanceVote _ => []
  | MasternodeSlashTx tx => slash_witness tx
  | TicketSlashNonParticipation _ _ _ _ _ _ _ witness => witness
  | TicketSlashMalicious _ _ _ _ _ _ _ witness => witness
  end.

Definition set_witnesses (tx : Transaction) (witnesses : list bytes) : Transaction :=
  match tx with
  | Standard v i o l f _ => Standard v i o l f witnesses
  | Coinbase v i o l _ => Coinbase v i o l witnesses
  | MasternodeRegister m s l i o _ => MasternodeRegister m s l i o witnesses
  | MasternodeCollateral v i o m c l _ => MasternodeCollateral v i o m c l witnesses
  | GovernanceProposal p => GovernanceProposal p
  | GovernanceVote w => GovernanceVote w
  | ActivateProposal v p h a s i o l _ => ActivateProposal v p h a s i o l witnesses
  | TicketPurchase v i o t k l f a _ => TicketPurchase v i o t k l f a witnesses
  | TicketRedemption v i o t l f _ => TicketRedemption v i o t l f witnesses
  | MasternodeSlashTx s => MasternodeSlashTx s
  | TicketSlashNonParticipation v i o t p l f _ =>
      TicketSlashNonParticipation v i o t p l f witnesses
  | TicketSlashMalicious v i o t p l f _ => TicketSlashMalicious v i o t p l f witnesses
  end.

(** [TransactionError::UnsupportedWitnessOperation] is the only error of
    [get_witnesses_mut]; its message names the variant. *)
Inductive TransactionError : Type := UnsupportedWitnessOperation (msg : string).

(** [get_witnesses_mut] hands out the witness vector for in-place update; the
    model returns the transaction with that vector replaced by [f] of it. *)
Definition with_witnesses_mut (tx : Transaction) (f : list bytes -> list bytes) :
    outcome TransactionError Transaction :=
  match tx with
  | Standard v i o l fe w => Ok (Standard v i o l fe (f w))
  | Coinbase v i o l w => Ok (Coinbase v i o l (f w))
  | MasternodeRegister m s l i o w => Ok (MasternodeRegister m s l i o (f w))
  | MasternodeCollateral v i o m c l w => Ok (MasternodeCollateral v i o m c l (f w))
  | ActivateProposal v p h a s i o l w => Ok (ActivateProposal v p h a s i o l (f w))
  | TicketPurchase v i o t k l fe a w => Ok (TicketPurchase v i o t k l fe a (f w))
  | TicketRedemption v i o t l fe w => Ok (TicketRedemption v i o t l fe (f w))
  | GovernanceProposal _ =>
      Err (UnsupportedWitnessOperation
             "Cannot get mutable witnesses for GovernanceProposal")
  | GovernanceVote _ =>
      Err (UnsupportedWitnessOperation "Cannot get mutable witnesses for GovernanceVote")
  | MasternodeSlashTx s =>
      Ok (MasternodeSlashTx
        (mkMasternodeSlash (slash_version s) (slash_inputs s) (slash_outputs s)
           (slash_masternode_id s) (slash_reason s) (slash_proof s) (slash_lock_time s)
           (slash_fee s) (f (slash_witness s))))
  | TicketSlashNonParticipation v i o t p l fe w =>
      Ok (TicketSlashNonParticipation v i o t p l fe (f w))
  | TicketSlashMalicious v i o t p l fe w => Ok (TicketSlashMalicious v i o t p l fe (f w))
  end.

Definition input_count (tx : Transaction) : Z := len (get_inputs tx).
Definition output_count (tx : Transaction) : Z := len (get_outputs tx).

(** * Blocks *)

Record BlockHeader : Type := mkBlockHeader {
  header_version : Z;
  header_height : Z;
  previous_block_hash : Hash;
  merkle_root : Hash;
  state_root : Hash;
  timestamp : Z;
  difficulty_target : Z;
  nonce : Z;
}.

Definition is_proof_of_stake (h : BlockHeader) : bool := header_version h =? 2.

Record Block : Type := mkBlock {
  header : BlockHeader;
  ticket_votes : list TicketVote;
  transactions : list Transaction;
}.

Definition block_height (b : Block) : Z := header_height (header b).

(** * Third-party primitives

    BLAKE3, SHA-1, SHA-256, RIPEMD-160, Ed25519 (ed25519-dalek) and bincode are
    libraries the workspace calls; the development takes them as operations of
    this class and states what it relies on as hypotheses of the theorems that
    need it.  [from_bytes] of the Dalek types and bincode may fail ([None]). *)

Class Primitives : Type := {
  blake3 : bytes -> Hash;
  sha1 : bytes -> bytes;
  sha256 : bytes -> bytes;
  ripemd160 : bytes -> bytes;
  DalekPublicKey : Type;
  DalekSignature : Type;
  public_key_from_bytes : bytes -> option DalekPublicKey;
  signature_from_bytes : bytes -> option DalekSignature;
  ed25519_verify : DalekPublicKey -> bytes -> DalekSignature -> bool;
  bincode_transaction : Transaction -> option bytes;
  bincode_header : BlockHeader -> option bytes;
  bincode_block : Block -> option bytes;
}.

(** Documented output sizes of the hash functions. *)
Class HashLaws `(Primitives) : Prop := {
  blake3_out : forall m, is_bytes (blake3 m) /\ length (blake3 m) = 32%nat;
  sha1_out : forall m, is_bytes (sha1 m) /\ length (sha1 m) = 20%nat;
  sha256_out : forall m, is_bytes (sha256 m) /\ length (sha256 m) = 32%nat;
  ripemd160_out : forall m, is_bytes (ripemd160 m) /\ length (ripemd160 m) = 20%nat;
}.

Section WithPrimitives.
  Context `{Primitives}.

(** [Transaction::txid]: panics when bincode fails ([unwrap]). *)
Definition tx_txid {E} (tx : Transaction) : outcome E Hash :=
  bytes ← unwrap (bincode_transaction tx);
  mret (blake3 bytes).

(** [Transaction::hash]: the zero hash when bincode fails. *)
Definition tx_hash (tx : Transaction) : Hash :=
  match bincode_transaction tx with
  | Some bytes => blake3 bytes
  | None => replicate 32 0
  end.

Definition header_hash {E} (h : BlockHeader) : outcome E Hash :=
  bytes ← unwrap (bincode_header h);
  mret (blake3 bytes).

Definition block_hash {E} (b : Block) : outcome E Hash :=
  bytes ← unwrap (bincode_block b);
  mret (blake3 bytes).

End WithPrimitives.
