(* ===== verification/Opcode.v ===== *)
(** The FerrisScript opcode table (src/rusty-core/src/script/opcode.rs). *)

From Stdlib Require Import ZArith Lia List.
From stdpp Require Import base option list list_numbers numbers.
From S2P Require Import Prelude.

#[local] Open Scope Z_scope.

Inductive Opcode : Type :=
| Op0
| OpPushdata1
| OpPushdata2
| OpPushdata4
| Op1
| Op2
| Op3
| Op4
| Op5
| Op6
| Op7
| Op8
| Op9
| Op10
| Op11
| Op12
| Op13
| Op14
| Op15
| Op16
| OpNop
| OpIf
| OpNotIf
| OpElse
| OpEndIf
| OpVerify
| OpReturn
| OpToAltStack
| OpFromAltStack
| OpIfDup
| OpDepth
| OpDrop
| OpDup
| OpNip
| OpOver
| OpPick
| OpRoll
| OpRot
| OpSwap
| OpTuck
| Op2Drop
| Op2Dup
| Op3Dup
| Op2Over
| Op2Rot
| Op2Swap
| OpCat
| OpSubStr
| OpLeft
| OpRight
| OpSize
| OpInvert
| OpAnd
| OpOr
| OpXor
| OpEqual
| OpEqualverify
| Op1Add
| Op1Sub
| Op2Mul
| Op2Div
| OpNegate
| OpAbs
| OpNot
| Op0NotEqual
| OpAdd
| OpSub
| OpMul
| OpDiv
| OpMod
| OpLShift
| OpRShift
| OpBoolAnd
| OpBoolOr
| OpNumEqual
| OpNumEqualVerify
| OpNumNotEqual
| OpLessThan
| OpGreaterThan
| OpLessThanOrEqual
| OpGreaterThanOrEqual
| OpMin
| OpMax
| OpWithin
| OpRipemd160
| OpSha1
| OpSha256
| OpHash160
| OpHash256
| OpCodeSeparator
| OpCheckSig
| OpCheckSigVerify
| OpCheckMultiSig
| OpCheckMultiSigVerify
| OpCheckLockTimeVerify
| OpCheckSequenceVerify
| OpInvalidOpcode.

(** [opcode as u8]: the enum's discriminants. *)
Definition Opcode_to_u8 (opcode : Opcode) : Z :=
  match opcode with
  | Op0 => 0x00
  | OpPushdata1 => 0x4C
  | OpPushdata2 => 0x4D
  | OpPushdata4 => 0x4E
  | Op1 => 0x51
  | Op2 => 0x52
  | Op3 => 0x53
  | Op4 => 0x54
  | Op5 => 0x55
  | Op6 => 0x56
  | Op7 => 0x57
  | Op8 => 0x58
  | Op9 => 0x59
  | Op10 => 0x5A
  | Op11 => 0x5B
  | Op12 => 0x5c
  | Op13 => 0x5D
  | Op14 => 0x5E
  | Op15 => 0x5F
  | Op16 => 0x60
  | OpNop => 0x61
  | OpIf => 0x63
  | OpNotIf => 0x64
  | OpElse => 0x67
  | OpEndIf => 0x68
  | OpVerify => 0x69
  | OpReturn => 0x6A
  | OpToAltStack => 0x6B
  | OpFromAltStack => 0x6C
  | OpIfDup => 0x73
  | OpDepth => 0x74
  | OpDrop => 0x75
  | OpDup => 0x76
  | OpNip => 0x77
  | OpOver => 0x78
  | OpPick => 0x79
  | OpRoll => 0x7A
  | OpRot => 0x7B
  | OpSwap => 0x7C
  | OpTuck => 0x7D
  | Op2Drop => 0x6D
  | Op2Dup => 0x6E
  | Op3Dup => 0x6F
  | Op2Over => 0x70
  | Op2Rot => 0x71
  | Op2Swap => 0x72
  | OpCat => 0x7E
  | OpSubStr => 0x7F
  | OpLeft => 0x80
  | OpRight => 0x81
  | OpSize => 0x82
  | OpInvert => 0x83
  | OpAnd => 0x84
  | OpOr => 0x85
  | OpXor => 0x86
  | OpEqual => 0x87
  | OpEqualverify => 0x88
  | Op1Add => 0x8B
  | Op1Sub => 0x8C
  | Op2Mul => 0x8D
  | Op2Div => 0x8E
  | OpNegate => 0x8F
  | OpAbs => 0x90
  | OpNot => 0x91
  | Op0NotEqual => 0x92
  | OpAdd => 0x93
  | OpSub => 0x94
  | OpMul => 0x95
  | OpDiv => 0x96
  | OpMod => 0x97
  | OpLShift => 0x98
  | OpRShift => 0x99
  | OpBoolAnd => 0x9A
  | OpBoolOr => 0x9B
  | OpNumEqual => 0x9C
  | OpNumEqualVerify => 0x9D
  | OpNumNotEqual => 0x9E
  | OpLessThan => 0x9F
  | OpGreaterThan => 0xA0
  | OpLessThanOrEqual => 0xA1
  | OpGreaterThanOrEqual => 0xA2
  | OpMin => 0xA3
  | OpMax => 0xA4
  | OpWithin => 0xA5
  | OpRipemd160 => 0xA6
  | OpSha1 => 0xA7
  | OpSha256 => 0xA8
  | OpHash160 => 0xA9
  | OpHash256 => 0xAA
  | OpCodeSeparator => 0xAB
  | OpCheckSig => 0xAC
  | OpCheckSigVerify => 0xAD
  | OpCheckMultiSig => 0xAE
  | OpCheckMultiSigVerify => 0xAF
  | OpCheckLockTimeVerify => 0xB1
  | OpCheckSequenceVerify => 0xB2
  | OpInvalidOpcode => 0xFF
  end.

(** [impl From<u8> for Opcode]. *)
Definition Opcode_from_u8 (byte : Z) : Opcode :=
  match byte with
  | 0x00 => Op0
  | 0x4C => OpPushdata1
  | 0x4D => OpPushdata2
  | 0x4E => OpPushdata4
  | 0x51 => Op1
  | 0x52 => Op2
  | 0x53 => Op3
  | 0x54 => Op4
  | 0x55 => Op5
  | 0x56 => Op6
  | 0x57 => Op7
  | 0x58 => Op8
  | 0x59 => Op9
  | 0x5A => Op10
  | 0x5B => Op11
  | 0x5c => Op12
  | 0x5D => Op13
  | 0x5E => Op14
  | 0x5F => Op15
  | 0x60 => Op16
  | 0x61 => OpNop
  | 0x63 => OpIf
  | 0x64 => OpNotIf
  | 0x67 => OpElse
  | 0x68 => OpEndIf
  | 0x69 => OpVerify
  | 0x6A => OpReturn
  | 0x6B => OpToAltStack
  | 0x6C => OpFromAltStack
  | 0x73 => OpIfDup
  | 0x74 => OpDepth
  | 0x75 => OpDrop
  | 0x76 => OpDup
  | 0x77 => OpNip
  | 0x78 => OpOver
  | 0x79 => OpPick
  | 0x7A => OpRoll
  | 0x7B => OpRot
  | 0x7C => OpSwap
  | 0x7D => OpTuck
  | 0x6D => Op2Drop
  | 0x6E => Op2Dup
  | 0x6F => Op3Dup
  | 0x70 => Op2Over
  | 0x71 => Op2Rot
  | 0x72 => Op2Swap
  | 0x7E => OpCat
  | 0x7F => OpSubStr
  | 0x80 => OpLeft
  | 0x81 => OpRight
  | 0x82 => OpSize
  | 0x83 => OpInvert
  | 0x84 => OpAnd
  | 0x85 => OpOr
  | 0x86 => OpXor
  | 0x87 => OpEqual
  | 0x88 => OpEqualverify
  | 0x8B => Op1Add
  | 0x8C => Op1Sub
  | 0x8D => Op2Mul
  | 0x8E => Op2Div
  | 0x8F => OpNegate
  | 0x90 => OpAbs
  | 0x91 => OpNot
  | 0x92 => Op0NotEqual
  | 0x93 => OpAdd
  | 0x94 => OpSub
  | 0x95 => OpMul
  | 0x96 => OpDiv
  | 0x97 => OpMod
  | 0x98 => OpLShift
  | 0x99 => OpRShift
  | 0x9A => OpBoolAnd
  | 0x9B => OpBoolOr
  | 0x9C => OpNumEqual
  | 0x9D => OpNumEqualVerify
  | 0x9E => OpNumNotEqual
  | 0x9F => OpLessThan
  | 0xA0 => OpGreaterThan
  | 0xA1 => OpLessThanOrEqual
  | 0xA2 => OpGreaterThanOrEqual
  | 0xA3 => OpMin
  | 0xA4 => OpMax
  | 0xA5 => OpWithin
  | 0xA6 => OpRipemd160
  | 0xA7 => OpSha1
  | 0xA8 => OpSha256
  | 0xA9 => OpHash160
  | 0xAA => OpHash256
  | 0xAB => OpCodeSeparator
  | 0xAC => OpCheckSig
  | 0xAD => OpCheckSigVerify
  | 0xAE => OpCheckMultiSig
  | 0xAF => OpCheckMultiSigVerify
  | 0xB1 => OpCheckLockTimeVerify
  | 0xB2 => OpCheckSequenceVerify
  | _ => OpInvalidOpcode
  end.

Lemma Opcode_from_to op : Opcode_from_u8 (Opcode_to_u8 op) = op.
Proof. destruct op; reflexivity. Qed.

#[export] Instance Opcode_to_u8_inj : Inj (=) (=) Opcode_to_u8.
Proof. intros a b H. by rewrite <- (Opcode_from_to a), H, Opcode_from_to. Qed.

#[export] Instance Opcode_eq_dec : EqDecision Opcode.
Proof.
  refine (fun a b => cast_if (decide (Opcode_to_u8 a = Opcode_to_u8 b)));
    abstract naive_solver.
Defined.

(** A byte that decodes to a real opcode is that opcode's own byte. *)
Definition decode_consistent (b : Z) : bool :=
  let op := Opcode_from_u8 b in
  bool_decide (op = OpInvalidOpcode) || (Opcode_to_u8 op =? b).

Lemma decode_consistent_all b : is_byte b -> decode_consistent b = true.
Proof.
  intros Hb. assert (Hin : b ∈ seqZ 0 256) by (apply elem_of_seqZ; unfold is_byte in Hb; lia).
  assert (Hall : forallb decode_consistent (seqZ 0 256) = true) by (vm_compute; reflexivity).
  rewrite forallb_forall in Hall. apply Hall. by apply list_elem_of_In.
Qed.

Lemma opcode_byte_unique b :
  is_byte b -> Opcode_from_u8 b <> OpInvalidOpcode -> Opcode_to_u8 (Opcode_from_u8 b) = b.
Proof.
  intros Hb Hop. pose proof (decode_consistent_all b Hb) as H.
  unfold decode_consistent in H. apply orb_prop in H as [H|H]; [|lia].
  by apply bool_decide_eq_true in H.
Qed.

(** The two directions of the opcode table agree: decoding the byte
    of an opcode gives the opcode back, and a byte that decodes to a real
    opcode (not the catch-all invalid opcode) is that opcode's own byte. *)
Theorem opcode_table :
  (forall op, Opcode_from_u8 (Opcode_to_u8 op) = op) /\
  (forall b, is_byte b -> Opcode_from_u8 b <> OpInvalidOpcode ->
     Opcode_to_u8 (Opcode_from_u8 b) = b).
Proof. split; [apply Opcode_from_to|apply opcode_byte_unique]. Qed.
