(* ===== verification/ScriptEngine.v ===== *)
(** The FerrisScript stack machine
    (src/rusty-core/src/script/script_engine.rs, limits from
    src/rusty-core/src/constants.rs).

    The Rust [Vec] stacks push and pop at their end; the lists here keep the
    top of the stack at their head, so [stack[len - n - 1]] is position [n].
    Every method is a computation of [engM], the [stM] of Prelude over the
    engine's struct. *)

From Stdlib Require Import ZArith Lia List.
From stdpp Require Import base option list numbers.
From S2P Require Import Prelude Types Transaction Opcode.

#[local] Open Scope Z_scope.

(** * Constants *)

Definition MAX_SCRIPT_BYTES : Z := 10000.
Definition MAX_OPCODE_COUNT : Z := 200.
Definition MAX_STACK_DEPTH : Z := 100.
Definition MAX_SIG_OPS : Z := 20.
Definition LOCKTIME_THRESHOLD : Z := 500000000.

Inductive ScriptError : Type :=
| InvalidOpcode
| StackUnderflow
| StackOverflow
| InvalidStackState
| ScriptTooLarge
| TooManyOpcodes
| TooManySigOps
| TooManyOperations
| VerificationFailed
| ErrOpReturn
| NotImplemented.

#[export] Instance ScriptError_eq_dec : EqDecision ScriptError.
Proof. solve_decision. Defined.

Record ScriptEngine : Type := mkEngine {
  stack : list bytes;
  alt_stack : list bytes;
  opcode_count : Z;
  sig_op_count : Z;
  control_stack : list bool;
  skip_depth : Z;
}.

Definition ScriptEngine_new : ScriptEngine := mkEngine [] [] 0 0 [] 0.

Abbreviation engM := (stM ScriptEngine ScriptError).

(** Field updates. *)
Definition set_stack (f : list bytes -> list bytes) (e : ScriptEngine) : ScriptEngine :=
  mkEngine (f (stack e)) (alt_stack e) (opcode_count e) (sig_op_count e)
    (control_stack e) (skip_depth e).
Definition set_alt_stack (f : list bytes -> list bytes) (e : ScriptEngine) : ScriptEngine :=
  mkEngine (stack e) (f (alt_stack e)) (opcode_count e) (sig_op_count e)
    (control_stack e) (skip_depth e).
Definition set_opcode_count (f : Z -> Z) (e : ScriptEngine) : ScriptEngine :=
  mkEngine (stack e) (alt_stack e) (f (opcode_count e)) (sig_op_count e)
    (control_stack e) (skip_depth e).
Definition upd_sig_op_count (f : Z -> Z) (e : ScriptEngine) : ScriptEngine :=
  mkEngine (stack e) (alt_stack e) (opcode_count e) (f (sig_op_count e))
    (control_stack e) (skip_depth e).
Definition set_control_stack (f : list bool -> list bool) (e : ScriptEngine) : ScriptEngine :=
  mkEngine (stack e) (alt_stack e) (opcode_count e) (sig_op_count e)
    (f (control_stack e)) (skip_depth e).
Definition set_skip_depth (f : Z -> Z) (e : ScriptEngine) : ScriptEngine :=
  mkEngine (stack e) (alt_stack e) (opcode_count e) (sig_op_count e)
    (control_stack e) (f (skip_depth e)).

Definition get_sig_op_count (e : ScriptEngine) : Z := sig_op_count e.
Definition set_sig_op_count (count : Z) (e : ScriptEngine) : ScriptEngine :=
  upd_sig_op_count (fun _ => count) e.

(** * Stack primitives and operand decoding *)

Definition push_data (data : bytes) : engM unit :=
  modify (set_stack (cons data)).

Definition pop_data : engM bytes := fun e =>
  match stack e with
  | [] => (e, Err StackUnderflow)
  | x :: rest => (set_stack (fun _ => rest) e, Ok x)
  end.

(** [read_bytes] returns the bytes and the advanced instruction pointer. *)
Definition read_bytes (script : bytes) (ip num_bytes : Z) : engM (bytes * Z) :=
  if wrap64 (ip + num_bytes) >? len script then throw ScriptTooLarge
  else
    data ← lift (unwrap (slice script ip (wrap64 (ip + num_bytes))));
    mret (data, wrap64 (ip + num_bytes)).

Definition is_false (v : bytes) : bool :=
  (len v =? 0) || ((len v =? 1) && bool_decide (index v 0 = Some 0)).

(** [buf[..v.len()].copy_from_slice(v)] on a zeroed buffer of [n] bytes. *)
Definition pad_le (n : nat) (v : bytes) : bytes := v ++ replicate (n - length v) 0.

Definition as_usize (v : bytes) : outcome ScriptError Z :=
  if len v =? 0 then Ok 0
  else if len v <=? 8 then Ok (from_le_bytes (pad_le 8 v))
  else Err InvalidStackState.

Definition as_u32 (v : bytes) : outcome ScriptError Z :=
  if len v >? 4 then Err InvalidStackState
  else Ok (from_le_bytes (pad_le 4 v)).

Definition push_data_n (script : bytes) (ip len_bytes : Z) : engM Z :=
  '(len_data, ip) ← read_bytes script ip len_bytes;
  len ← lift (as_usize len_data);
  '(data, ip) ← read_bytes script ip len;
  push_data data;;
  mret ip.

(** * Stack opcodes *)

Definition op_dup : engM unit :=
  a ← pop_data;
  push_data a;;
  push_data a.

Definition op_equal : engM unit :=
  b ← pop_data;
  a ← pop_data;
  push_data (if bool_decide (a = b) then [0x01] else []).

Definition op_verify : engM unit :=
  top ← pop_data;
  if is_false top then throw VerificationFailed else mret tt.

Definition op_equal_verify : engM unit :=
  op_equal;;
  op_verify.

Definition op_toaltstack : engM unit :=
  val ← pop_data;
  modify (set_alt_stack (cons val)).

Definition op_fromaltstack : engM unit := fun e =>
  match alt_stack e with
  | [] => (e, Err StackUnderflow)
  | val :: rest => push_data val (set_alt_stack (fun _ => rest) e)
  end.

Definition op_drop : engM unit :=
  pop_data;;
  mret tt.

Definition op_nip : engM unit :=
  x2 ← pop_data;
  _x1 ← pop_data;
  push_data x2.

Definition op_over : engM unit :=
  x2 ← pop_data;
  x1 ← pop_data;
  push_data x1;; push_data x2;; push_data x1.

Definition op_pick : engM unit :=
  top ← pop_data;
  n ← lift (as_usize top);
  depth ← gets (fun e => len (stack e));
  if n >=? depth then throw StackUnderflow
  else
    val ← gets (fun e => index (stack e) n) ≫= fun v => lift (unwrap v);
    push_data val.

(** [Vec::remove] at depth [n] from the top. *)
Definition remove_at (n : Z) (l : list bytes) : list bytes :=
  take (Z.to_nat n) l ++ drop (S (Z.to_nat n)) l.

Definition op_roll : engM unit :=
  top ← pop_data;
  n ← lift (as_usize top);
  depth ← gets (fun e => len (stack e));
  if n >=? depth then throw StackUnderflow
  else
    val ← gets (fun e => index (stack e) n) ≫= fun v => lift (unwrap v);
    modify (set_stack (remove_at n));;
    push_data val.

Definition op_rot : engM unit :=
  x3 ← pop_data;
  x2 ← pop_data;
  x1 ← pop_data;
  push_data x2;; push_data x3;; push_data x1.

Definition op_swap : engM unit :=
  x2 ← pop_data;
  x1 ← pop_data;
  push_data x2;; push_data x1.

Definition op_tuck : engM unit :=
  x2 ← pop_data;
  x1 ← pop_data;
  push_data x2;; push_data x1;; push_data x2.

Definition op_2drop : engM unit :=
  pop_data;;
  pop_data;;
  mret tt.

Definition op_2dup : engM unit :=
  x2 ← pop_data;
  x1 ← pop_data;
  push_data x1;; push_data x2;; push_data x1;; push_data x2.

Definition op_3dup : engM unit :=
  x3 ← pop_data;
  x2 ← pop_data;
  x1 ← pop_data;
  push_data x1;; push_data x2;; push_data x3;;
  push_data x1;; push_data x2;; push_data x3.

Definition op_2over : engM unit :=
  x4 ← pop_data;
  x3 ← pop_data;
  x2 ← pop_data;
  x1 ← pop_data;
  push_data x1;; push_data x2;; push_data x3;; push_data x4;;
  push_data x1;; push_data x2.

Definition op_2rot : engM unit :=
  x6 ← pop_data;
  x5 ← pop_data;
  x4 ← pop_data;
  x3 ← pop_data;
  x2 ← pop_data;
  x1 ← pop_data;
  push_data x3;; push_data x4;; push_data x5;; push_data x6;;
  push_data x1;; push_data x2.

Definition op_2swap : engM unit :=
  x4 ← pop_data;
  x3 ← pop_data;
  x2 ← pop_data;
  x1 ← pop_data;
  push_data x3;; push_data x4;; push_data x1;; push_data x2.

(** * Byte-string opcodes *)

Definition op_cat : engM unit :=
  b ← pop_data;
  a ← pop_data;
  push_data (a ++ b).

Definition op_substr : engM unit :=
  size_bytes ← pop_data;
  size ← lift (as_usize size_bytes);
  offset_bytes ← pop_data;
  offset ← lift (as_usize offset_bytes);
  data ← pop_data;
  if wrap64 (offset + size) >? len data then throw InvalidStackState
  else
    sub ← lift (unwrap (slice data offset (wrap64 (offset + size))));
    push_data sub.

Definition op_left : engM unit :=
  size_bytes ← pop_data;
  size ← lift (as_usize size_bytes);
  data ← pop_data;
  if size >? len data then throw InvalidStackState
  else
    sub ← lift (unwrap (slice data 0 size));
    push_data sub.

Definition op_right : engM unit :=
  size_bytes ← pop_data;
  size ← lift (as_usize size_bytes);
  data ← pop_data;
  if size >? len data then throw InvalidStackState
  else
    sub ← lift (unwrap (slice data (len data - size) (len data)));
    push_data sub.

Definition op_size : engM unit :=
  data ← pop_data;
  push_data data;;
  push_data (to_le_bytes 8 (len data)).

Definition op_invert : engM unit :=
  data ← pop_data;
  push_data (u8_not <$> data).

Definition op_bitwise (f : Z -> Z -> Z) : engM unit :=
  b ← pop_data;
  a ← pop_data;
  if negb (len a =? len b) then throw InvalidStackState
  else push_data (zip_with f a b).

Definition op_and : engM unit := op_bitwise Z.land.
Definition op_or : engM unit := op_bitwise Z.lor.
Definition op_xor : engM unit := op_bitwise Z.lxor.

(** * Flow control *)

Definition should_skip (e : ScriptEngine) : bool := skip_depth e >? 0.

(** [if let Ok(val) = self.pop_data() { f(val) } else { false }] *)
Definition pop_condition (f : bytes -> bool) : engM bool := fun e =>
  match pop_data e with
  | (e', Ok val) => (e', Ok (f val))
  | (e', _) => (e', Ok false)
  end.

Definition enter_branch (condition : bool) : engM unit :=
  modify (set_control_stack (cons condition));;
  if negb condition then modify (set_skip_depth (fun _ => 1)) else mret tt.

Definition op_if : engM unit :=
  skipping ← gets should_skip;
  if skipping : bool then modify (set_skip_depth (fun d => wrap64 (d + 1)))
  else
    condition ← pop_condition (fun v => negb (is_false v));
    enter_branch condition.

Definition op_notif : engM unit :=
  skipping ← gets should_skip;
  if skipping : bool then modify (set_skip_depth (fun d => wrap64 (d + 1)))
  else
    condition ← pop_condition is_false;
    enter_branch condition.

Definition op_else : engM unit := fun e =>
  if skip_depth e >? 0 then
    if skip_depth e =? 1 then (set_skip_depth (fun _ => 0) e, Ok tt) else (e, Ok tt)
  else
    match control_stack e with
    | condition :: rest =>
        let e' := set_control_stack (fun _ => negb condition :: rest) e in
        if negb (negb condition) then (set_skip_depth (fun _ => 1) e', Ok tt)
        else (e', Ok tt)
    | [] => (e, Err InvalidStackState)
    end.

Definition op_endif : engM unit := fun e =>
  if skip_depth e >? 0 then (set_skip_depth (fun d => d - 1) e, Ok tt)
  else
    match control_stack e with
    | _ :: rest => (set_control_stack (fun _ => rest) e, Ok tt)
    | [] => (e, Err InvalidStackState)
    end.

Definition op_codeseparator : engM unit := mret tt.

(** * Lock-time opcodes *)

Definition op_checklocktimeverify (tx : Transaction) (current_block_height : Z) :
    engM unit :=
  lock_time_bytes ← pop_data;
  lock_time ← lift (as_u32 lock_time_bytes);
  let tx_lock_time := get_lock_time tx in
  if tx_lock_time =? 0 then throw VerificationFailed
  else if lock_time >? tx_lock_time then throw VerificationFailed
  else if lock_time <? LOCKTIME_THRESHOLD then
    if current_block_height <? lock_time then throw VerificationFailed else mret tt
  else
    let estimated_timestamp := wrap64 (current_block_height * 60) in
    if estimated_timestamp <? lock_time then throw VerificationFailed else mret tt.

Definition op_checksequenceverify (tx : Transaction) (current_block_height : Z)
    (input_index : Z) : engM unit :=
  relative_sequence_bytes ← pop_data;
  relative_sequence ← lift (as_u32 relative_sequence_bytes);
  let tx_inputs := get_inputs tx in
  if input_index >=? len tx_inputs then throw VerificationFailed
  else
    input ← lift (unwrap (index tx_inputs input_index));
    let tx_input_sequence := sequence input in
    if negb (Z.land tx_input_sequence (Z.shiftl 1 31) =? 0) then mret tt
    else
      let locktime_is_seconds := negb (Z.land relative_sequence (Z.shiftl 1 22) =? 0) in
      let sequence_is_relative := Z.land relative_sequence (Z.shiftl 1 31) =? 0 in
      if negb sequence_is_relative then mret tt
      else
        let masked_sequence := Z.land relative_sequence 0x0000FFFF in
        let masked_input_sequence := Z.land tx_input_sequence 0x0000FFFF in
        if masked_input_sequence <? masked_sequence then throw VerificationFailed
        else if locktime_is_seconds then
          let _current_time := wrap64 (current_block_height * 60) in
          if masked_input_sequence <? masked_sequence then throw VerificationFailed
          else mret tt
        else
          if masked_input_sequence <? masked_sequence then throw VerificationFailed
          else mret tt.

(** * Hashing and signature opcodes *)

Section WithPrimitives.
  Context `{Primitives}.

Definition op_hash160 : engM unit :=
  data ← pop_data;
  push_data (ripemd160 (sha256 data)).

Definition op_ripemd160 : engM unit :=
  data ← pop_data;
  push_data (ripemd160 data).

Definition op_sha1 : engM unit :=
  data ← pop_data;
  push_data (sha1 data).

Definition op_sha256 : engM unit :=
  data ← pop_data;
  push_data (sha256 data).

Definition op_hash256 : engM unit :=
  data ← pop_data;
  push_data (sha256 (sha256 data)).

(** The inputs of the transaction that is hashed for a signature: the signed
    input carries the output's script, every other input an empty script. *)
Definition sighash_input (input_index : Z) (script_pubkey : bytes) (i : nat)
    (input : TxInput) : TxInput :=
  if Z.of_nat i =? input_index then
    TxInput_from_outpoint (previous_output input) script_pubkey (sequence input)
      (input_witness input)
  else
    TxInput_from_outpoint (previous_output input) [] (sequence input)
      (input_witness input).

(** The temporary transaction of [calculate_sighash]. *)
Definition sighash_transaction (tx : Transaction) (sighash_inputs : list TxInput) :
    Transaction :=
  match tx with
  | Standard version _ outputs lock_time _ _ =>
      Standard version sighash_inputs outputs lock_time 0 []
  | Coinbase version _ outputs lock_time _ =>
      Coinbase version sighash_inputs outputs lock_time []
  | _ => Standard 1 sighash_inputs (get_outputs tx) 0 0 []
  end.

Definition calculate_sighash (tx : Transaction) (input_index : Z)
    (script_pubkey : bytes) : outcome ScriptError Hash :=
  let inputs := get_inputs tx in
  if input_index >=? len inputs then Err VerificationFailed
  else
    let sighash_inputs := imap (sighash_input input_index script_pubkey) inputs in
    let sighash_tx := sighash_transaction tx sighash_inputs in
    let sighash_type := 0x01 in
    sighash_data ← ok_or (bincode_transaction sighash_tx) VerificationFailed;
    mret (blake3 (sighash_data ++ to_le_bytes 4 sighash_type)).

Definition op_checksig (tx : Transaction) (input_index : Z) (script_pubkey : bytes) :
    engM unit :=
  modify (upd_sig_op_count (fun c => wrap64 (c + 1)));;
  public_key_bytes ← pop_data;
  signature_bytes ← pop_data;
  public_key ← lift (ok_or (public_key_from_bytes public_key_bytes) VerificationFailed);
  signature ← lift (ok_or (signature_from_bytes signature_bytes) VerificationFailed);
  sighash ← lift (calculate_sighash tx input_index script_pubkey);
  if ed25519_verify public_key sighash signature then push_data [0x01] else push_data [].

(** [for _ in 0..n { v.push(self.pop_data()?) }] *)
Fixpoint pop_n (n : nat) : engM (list bytes) :=
  match n with
  | O => mret []
  | S n =>
      x ← pop_data;
      rest ← pop_n n;
      mret (x :: rest)
  end.

(** Inner loop of [op_checkmultisig]: does one signature match one of the keys?
    Both are parsed in every iteration; a parse failure aborts the opcode. *)
Fixpoint matches_any (message signature_bytes : bytes) (public_keys : list bytes) :
    outcome ScriptError bool :=
  match public_keys with
  | [] => Ok false
  | public_key_bytes :: rest =>
      signature ← ok_or (signature_from_bytes signature_bytes) VerificationFailed;
      public_key ← ok_or (public_key_from_bytes public_key_bytes) VerificationFailed;
      if ed25519_verify public_key message signature then Ok true
      else matches_any message signature_bytes rest
  end.

(** Outer loop: the number of signatures that match some key. *)
Fixpoint count_verified (message : bytes) (signatures public_keys : list bytes) :
    outcome ScriptError Z :=
  match signatures with
  | [] => Ok 0
  | signature_bytes :: rest =>
      matched ← matches_any message signature_bytes public_keys;
      verified ← count_verified message rest public_keys;
      mret ((if matched : bool then 1 else 0) + verified)
  end.

(** [self.pop_data()?[0] as usize]: panics on an empty element. *)
Definition pop_first_byte : engM Z :=
  v ← pop_data;
  lift (unwrap (index v 0)).

Definition op_checkmultisig (tx : Transaction) (input_index : Z)
    (script_pubkey : bytes) : engM unit :=
  modify (upd_sig_op_count (fun c => wrap64 (c + 1)));;
  num_public_keys ← pop_first_byte;
  depth ← gets (fun e => len (stack e));
  if num_public_keys >? depth then throw StackUnderflow else
  public_keys ← pop_n (Z.to_nat num_public_keys);
  num_signatures ← pop_first_byte;
  depth ← gets (fun e => len (stack e));
  if num_signatures >? depth then throw StackUnderflow else
  signatures ← pop_n (Z.to_nat num_signatures);
  _dummy ← pop_data;
  message ← lift (calculate_sighash tx input_index script_pubkey);
  verified_signatures ← lift (count_verified message signatures public_keys);
  if verified_signatures >=? num_signatures then push_data [0x01] else push_data [].

Definition op_checksigverify (tx : Transaction) (input_index : Z)
    (script_pubkey : bytes) : engM unit :=
  op_checksig tx input_index script_pubkey;;
  op_verify.

Definition op_checkmultisigverify (tx : Transaction) (input_index : Z)
    (script_pubkey : bytes) : engM unit :=
  op_checkmultisig tx input_index script_pubkey;;
  op_verify.

(** * The interpreter loop *)

(** The [match opcode] of [execute], outside a skipped branch: returns the
    instruction pointer after the opcode and its immediate data. *)
Definition exec_opcode (script : bytes) (tx : Transaction)
    (current_block_height input_index : Z) (script_pubkey : bytes) (opcode : Opcode)
    (ip : Z) : engM Z :=
  match opcode with
  | Op0 => push_data [];; mret ip
  | OpPushdata1 => push_data_n script ip 1
  | OpPushdata2 => push_data_n script ip 2
  | OpPushdata4 => push_data_n script ip 4
  | Op1 => push_data [0x01];; mret ip
  | Op2 => push_data [0x02];; mret ip
  | Op3 => push_data [0x03];; mret ip
  | Op4 => push_data [0x04];; mret ip
  | Op5 => push_data [0x05];; mret ip
  | Op6 => push_data [0x06];; mret ip
  | Op7 => push_data [0x07];; mret ip
  | Op8 => push_data [0x08];; mret ip
  | Op9 => push_data [0x09];; mret ip
  | Op10 => push_data [0x0A];; mret ip
  | Op11 => push_data [0x0B];; mret ip
  | Op12 => push_data [0x0C];; mret ip
  | Op13 => push_data [0x0D];; mret ip
  | Op14 => push_data [0x0E];; mret ip
  | Op15 => push_data [0x0F];; mret ip
  | Op16 => push_data [0x10];; mret ip
  | OpDup => op_dup;; mret ip
  | OpHash160 => op_hash160;; mret ip
  | OpEqual => op_equal;; mret ip
  | OpEqualverify => op_equal_verify;; mret ip
  | OpVerify => op_verify;; mret ip
  | OpCheckSig => op_checksig tx input_index script_pubkey;; mret ip
  | OpCheckMultiSig => op_checkmultisig tx input_index script_pubkey;; mret ip
  | OpCheckLockTimeVerify => op_checklocktimeverify tx current_block_height;; mret ip
  | OpCheckSequenceVerify =>
      op_checksequenceverify tx current_block_height input_index;; mret ip
  | OpReturn => throw ErrOpReturn
  | OpNop => mret ip
  | OpInvalidOpcode => throw InvalidOpcode
  | OpRipemd160 => op_ripemd160;; mret ip
  | OpSha1 => op_sha1;; mret ip
  | OpSha256 => op_sha256;; mret ip
  | OpHash256 => op_hash256;; mret ip
  | OpCodeSeparator => op_codeseparator;; mret ip
  | OpCheckSigVerify => op_checksigverify tx input_index script_pubkey;; mret ip
  | OpCheckMultiSigVerify => op_checkmultisigverify tx input_index script_pubkey;; mret ip
  | OpIf => op_if;; mret ip
  | OpNotIf => op_notif;; mret ip
  | OpElse => op_else;; mret ip
  | OpEndIf => op_endif;; mret ip
  | OpToAltStack => op_toaltstack;; mret ip
  | OpFromAltStack => op_fromaltstack;; mret ip
  | OpDrop => op_drop;; mret ip
  | OpNip => op_nip;; mret ip
  | OpOver => op_over;; mret ip
  | OpPick => op_pick;; mret ip
  | OpRoll => op_roll;; mret ip
  | OpRot => op_rot;; mret ip
  | OpSwap => op_swap;; mret ip
  | OpTuck => op_tuck;; mret ip
  | Op2Drop => op_2drop;; mret ip
  | Op2Dup => op_2dup;; mret ip
  | Op3Dup => op_3dup;; mret ip
  | Op2Over => op_2over;; mret ip
  | Op2Rot => op_2rot;; mret ip
  | Op2Swap => op_2swap;; mret ip
  | OpCat => op_cat;; mret ip
  | OpSubStr => op_substr;; mret ip
  | OpLeft => op_left;; mret ip
  | OpRight => op_right;; mret ip
  | OpSize => op_size;; mret ip
  | OpInvert => op_invert;; mret ip
  | OpAnd => op_and;; mret ip
  | OpOr => op_or;; mret ip
  | OpXor => op_xor;; mret ip
  | _ => throw InvalidOpcode
  end.

(** The [match opcode] of a skipped branch. *)
Definition skip_opcode (opcode : Opcode) : engM unit := fun e =>
  match opcode with
  | OpIf | OpNotIf => (set_skip_depth (fun d => wrap64 (d + 1)) e, Ok tt)
  | OpElse => if skip_depth e =? 1 then (set_skip_depth (fun _ => 0) e, Ok tt) else (e, Ok tt)
  | OpEndIf => (set_skip_depth (fun d => d - 1) e, Ok tt)
  | _ => (e, Ok tt)
  end.

(** One iteration of the [while ip < script.len()] loop. *)
Definition exec_step (script : bytes) (tx : Transaction)
    (current_block_height input_index : Z) (script_pubkey : bytes) (ip : Z) : engM Z :=
  count ← gets opcode_count;
  if count >=? MAX_OPCODE_COUNT then throw TooManyOpcodes else
  opcode_byte ← lift (unwrap (index script ip));
  let ip := ip + 1 in
  modify (set_opcode_count (fun c => c + 1));;
  let opcode := Opcode_from_u8 opcode_byte in
  skipping ← gets should_skip;
  if skipping : bool then skip_opcode opcode;; mret ip
  else
    ip ← exec_opcode script tx current_block_height input_index script_pubkey opcode ip;
    depth ← gets (fun e => len (stack e));
    if depth >? MAX_STACK_DEPTH then throw StackOverflow else mret ip.

Fixpoint exec_loop (fuel : nat) (script : bytes) (tx : Transaction)
    (current_block_height input_index : Z) (script_pubkey : bytes) (ip : Z) : engM unit :=
  if ip <? len script then
    match fuel with
    | O => fun e => (e, OutOfFuel)
    | S fuel =>
        ip' ← exec_step script tx current_block_height input_index script_pubkey ip;
        exec_loop fuel script tx current_block_height input_index script_pubkey ip'
    end
  else mret tt.

(** Every iteration consumes at least the opcode byte, so the script's length is
    enough fuel ([execute_terminates]). *)
Definition execute (script : bytes) (tx : Transaction)
    (current_block_height input_index : Z) (script_pubkey : bytes) : engM unit :=
  if len script >? MAX_SCRIPT_BYTES then throw ScriptTooLarge
  else exec_loop (length script) script tx current_block_height input_index script_pubkey 0.

(** * Verification entry points *)

(** The per-script reset of [validate_transaction] and its siblings: everything
    but [sig_op_count]. *)
Definition reset_engine (e : ScriptEngine) : ScriptEngine :=
  mkEngine [] [] 0 (sig_op_count e) [] 0.

(** The final check of both [verify_script] functions. *)
Definition final_stack_check : engM unit :=
  result ← pop_data;
  empty ← gets (fun e => len (stack e) =? 0);
  if is_false result || negb empty then throw VerificationFailed else mret tt.

Definition verify_script (script_sig script_pubkey : bytes) (tx : Transaction)
    (input_index : Z) : outcome ScriptError unit :=
  if len script_sig >? MAX_SCRIPT_BYTES then Err ScriptTooLarge
  else if len script_pubkey >? MAX_SCRIPT_BYTES then Err ScriptTooLarge
  else
    snd ((execute script_sig tx 0 input_index script_pubkey;;
          execute script_pubkey tx 0 input_index script_pubkey;;
          final_stack_check) ScriptEngine_new).

(** Returns the engine, the transaction-level counter after the call and the
    result. *)
Definition verify_script_with_sig_op_count (script_sig script_pubkey : bytes)
    (tx : Transaction) (input_index : Z) (e : ScriptEngine)
    (transaction_sig_op_count : Z) : ScriptEngine * Z * outcome ScriptError unit :=
  if len script_sig >? MAX_SCRIPT_BYTES then (e, transaction_sig_op_count, Err ScriptTooLarge)
  else if len script_pubkey >? MAX_SCRIPT_BYTES
  then (e, transaction_sig_op_count, Err ScriptTooLarge)
  else
    let e := reset_engine (set_sig_op_count transaction_sig_op_count e) in
    match (execute script_sig tx 0 input_index script_pubkey;;
           execute script_pubkey tx 0 input_index script_pubkey) e with
    | (e, Ok _) =>
        let transaction_sig_op_count := get_sig_op_count e in
        if transaction_sig_op_count >? MAX_SIG_OPS
        then (e, transaction_sig_op_count, Err TooManySigOps)
        else
          let '(e, r) := final_stack_check e in (e, transaction_sig_op_count, r)
    | (e, r) => (e, transaction_sig_op_count, r)
    end.

End WithPrimitives.
