(* ===== verification/ScriptLogic.v ===== *)
(** A small program logic for the script engine: what an engine computation
    preserves, when it may panic, and rules for sequencing, used by ScriptProps
    to lift properties of opcodes to whole scripts. *)

From Stdlib Require Import ZArith Lia List.
From stdpp Require Import base option list numbers.
From S2P Require Import Prelude Types Transaction Opcode ScriptEngine.

#[local] Open Scope Z_scope.

(** One more opcode counted. *)
Abbreviation count_opcode := (set_opcode_count (fun c => c + 1)).

(** Both stacks hold byte strings. *)
Definition stacks_ok (e : ScriptEngine) : Prop :=
  Forall is_bytes (stack e) /\ Forall is_bytes (alt_stack e).

(** The counters and the control state are untouched. *)
Definition same_frame (e e' : ScriptEngine) : Prop :=
  opcode_count e' = opcode_count e /\ sig_op_count e' = sig_op_count e /\
  control_stack e' = control_stack e /\ skip_depth e' = skip_depth e.

#[export] Instance same_frame_preorder : PreOrder same_frame.
Proof.
  split; unfold same_frame; [intros e; done|].
  intros e1 e2 e3 (?&?&?&?) (?&?&?&?). by split_and!; etransitivity.
Qed.

(** [stack_spec pn m Q]: run on engines whose stacks hold bytes, [m] keeps that
    and the frame, returns a value satisfying [Q], and panics only if [pn]. *)
Definition stack_spec {A} (pn : Prop) (m : engM A) (Q : A -> Prop) : Prop :=
  forall e, stacks_ok e ->
    match m e with
    | (e', Ok a) => stacks_ok e' /\ same_frame e e' /\ Q a
    | (_, Err _) => True
    | (_, Panic) => pn
    | (_, OutOfFuel) => False
    end.

(** [outcome_spec pn o Q]: the same for a pure result. *)
Definition outcome_spec {E A} (pn : Prop) (o : outcome E A) (Q : A -> Prop) : Prop :=
  match o with
  | Ok a => Q a
  | Err _ => True
  | Panic => pn
  | OutOfFuel => False
  end.

Section Rules.
  Context (pn : Prop).

Lemma spec_bind {A B} (m : engM A) (f : A -> engM B) Q R :
  stack_spec pn m Q -> (forall a, Q a -> stack_spec pn (f a) R) ->
  stack_spec pn (m ≫= f) R.
Proof.
  intros Hm Hf e He. rewrite stM_bind_run. specialize (Hm e He).
  destruct (m e) as [e1 [a|?| |]]; try done.
  destruct Hm as (He1 & Hframe & Ha). specialize (Hf a Ha e1 He1).
  destruct (f a e1) as [e2 [b|?| |]]; try done.
  destruct Hf as (? & ? & ?). split_and!; try done. by etrans.
Qed.

Lemma spec_conseq {A} (m : engM A) (Q R : A -> Prop) :
  stack_spec pn m Q -> (forall a, Q a -> R a) -> stack_spec pn m R.
Proof.
  intros Hm HQR e He. specialize (Hm e He).
  destruct (m e) as [e1 [a|?| |]]; naive_solver.
Qed.

Lemma spec_ret {A} (a : A) (Q : A -> Prop) : Q a -> stack_spec pn (mret a) Q.
Proof. intros Ha e He. simpl. by split_and!. Qed.

Lemma spec_throw {A} err (Q : A -> Prop) : stack_spec pn (throw err) Q.
Proof. intros e He. done. Qed.

Lemma spec_gets {A} (f : ScriptEngine -> A) : stack_spec pn (gets f) (fun _ => True).
Proof. intros e He. simpl. by split_and!. Qed.

Lemma spec_lift {A} (o : outcome ScriptError A) (Q : A -> Prop) :
  outcome_spec pn o Q -> stack_spec pn (lift o) Q.
Proof. intros Ho e He. unfold lift. destruct o; simpl in *; by split_and?. Qed.

Lemma spec_pop : stack_spec pn pop_data is_bytes.
Proof.
  intros e [Hs Ha]. unfold pop_data. destruct (stack e) as [|x s] eqn:Es; [done|].
  inversion_clear Hs as [|? ? Hx Hs'].
  split_and!; [split; simpl; done|done|done].
Qed.

Lemma spec_push data : is_bytes data -> stack_spec pn (push_data data) (fun _ => True).
Proof.
  intros Hd e [Hs Ha]. simpl. split_and!; [split; simpl; [by constructor|done]|done|done].
Qed.

Lemma spec_if {A} (b : bool) (m1 m2 : engM A) Q :
  (b = true -> stack_spec pn m1 Q) -> (b = false -> stack_spec pn m2 Q) ->
  stack_spec pn (if b then m1 else m2) Q.
Proof. destruct b; auto. Qed.

Lemma outcome_spec_ok_or {E A} (o : option A) (err : E) :
  outcome_spec pn (ok_or o err) (fun a => o = Some a).
Proof. by destruct o. Qed.

End Rules.

(** A specification without panics holds under any panic condition. *)
Lemma spec_no_panic {A} pn (m : engM A) Q : stack_spec False m Q -> stack_spec pn m Q.
Proof.
  intros Hm e He. specialize (Hm e He). destruct (m e) as [e1 [a|?| |]]; naive_solver.
Qed.

(** * Operand decoding *)

Lemma pad_le_bytes n v : is_bytes v -> is_bytes (pad_le n v).
Proof.
  intros Hv. apply Forall_app. split; [done|]. apply Forall_replicate. unfold is_byte. lia.
Qed.

Lemma length_pad_le n v : (length v <= n)%nat -> length (pad_le n v) = n.
Proof. intros. unfold pad_le. rewrite length_app, length_replicate. lia. Qed.

Lemma from_le_bytes_pad n v : from_le_bytes (pad_le n v) = from_le_bytes v.
Proof. apply from_le_bytes_app_zeros. Qed.

Lemma as_usize_spec pn v :
  is_bytes v ->
  outcome_spec pn (as_usize v) (fun n => 0 <= n < 256 ^ len v /\ n <= u64_max).
Proof.
  intros Hv. unfold as_usize. pose proof (from_le_bytes_bound v Hv) as Hb.
  destruct (Z.eqb_spec (len v) 0) as [H0|H0].
  { simpl. rewrite H0. unfold u64_max. simpl. lia. }
  destruct (Z.leb_spec (len v) 8); [|done]. cbn [outcome_spec].
  rewrite from_le_bytes_pad. unfold len in *. split; [done|].
  assert (256 ^ Z.of_nat (length v) <= 256 ^ 8) by (apply Z.pow_le_mono_r; lia).
  unfold u64_max. lia.
Qed.

Lemma as_u32_spec pn v :
  is_bytes v -> outcome_spec pn (as_u32 v) (fun n => is_u32 n /\ n = from_le_bytes v).
Proof.
  intros Hv. unfold as_u32. pose proof (from_le_bytes_bound v Hv) as Hb.
  rewrite Z.gtb_ltb. destruct (Z.ltb_spec 4 (len v)); [done|]. cbn [outcome_spec].
  rewrite from_le_bytes_pad. unfold len, is_u32, u32_max in *.
  assert (256 ^ Z.of_nat (length v) <= 256 ^ 4) by (apply Z.pow_le_mono_r; lia).
  split; [lia|done].
Qed.

(** * Automation: walk over a straight-line opcode *)

Ltac spec_step :=
  match goal with
  | |- stack_spec _ (throw _) _ => apply spec_throw
  | |- stack_spec _ (if _ then _ else _) _ => apply spec_if; intros
  | |- stack_spec _ (mret _) _ => apply spec_ret
  | |- stack_spec _ (pop_data ≫= _) _ => eapply spec_bind; [apply spec_pop|intros]
  | |- stack_spec _ (push_data _ ≫= _) _ => eapply spec_bind; [apply spec_push|intros]
  | |- stack_spec _ (push_data _) _ => eapply spec_conseq; [apply spec_push|intros; done]
  | |- stack_spec _ (gets _ ≫= _) _ => eapply spec_bind; [apply spec_gets|intros]
  | |- stack_spec _ (lift (as_usize _) ≫= _) _ =>
      eapply spec_bind; [apply spec_lift, as_usize_spec; assumption|intros ? [? ?]]
  | |- stack_spec _ (lift (as_u32 _) ≫= _) _ =>
      eapply spec_bind; [apply spec_lift, as_u32_spec; assumption|intros ? [? ->]]
  | |- stack_spec _ (let _ := _ in _) _ => cbv zeta
  end.

Ltac spec_walk := repeat spec_step; try done.
