(* ===== verification/ScriptProps.v ===== *)
(** What the script engine guarantees: termination, resource limits, the
    stack discipline of the opcodes, which opcodes can panic, and what the
    verification entry points accept. *)

From Stdlib Require Import ZArith Lia List.
From stdpp Require Import base option list numbers sets.
From S2P Require Import Prelude Types Transaction Opcode ScriptEngine ScriptLogic.

#[local] Open Scope Z_scope.

(** * Single opcodes *)

Section Ops.
  Context `{HashLaws}.

(** The opcodes that can panic: [OP_SUBSTR] (the wrapped end position) and
    [OP_CHECKMULTISIG(VERIFY)] (indexing an empty element). *)
Definition may_panic (op : Opcode) : bool :=
  match op with
  | OpSubStr | OpCheckMultiSig | OpCheckMultiSigVerify => true
  | _ => false
  end.

Lemma spec_slice pn (l : bytes) a b :
  is_bytes l -> (slice l a b = None -> pn) ->
  outcome_spec pn (unwrap (E := ScriptError) (slice l a b)) is_bytes.
Proof.
  intros Hl Hn. destruct (slice l a b) as [s|] eqn:Hs; simpl; [|by apply Hn].
  by eapply slice_bytes.
Qed.

Lemma spec_bool_push pn (b : bool) :
  stack_spec pn (push_data (if b then [1] else [])) (fun _ => True).
Proof. apply spec_push. destruct b; repeat constructor; done || (unfold is_byte; lia). Qed.

Lemma spec_dup : stack_spec False op_dup (fun _ => True).
Proof. unfold op_dup. spec_walk. Qed.

Lemma spec_drop : stack_spec False op_drop (fun _ => True).
Proof. unfold op_drop. spec_walk. Qed.

Lemma spec_nip : stack_spec False op_nip (fun _ => True).
Proof. unfold op_nip. spec_walk. Qed.

Lemma spec_over : stack_spec False op_over (fun _ => True).
Proof. unfold op_over. spec_walk. Qed.

Lemma spec_rot : stack_spec False op_rot (fun _ => True).
Proof. unfold op_rot. spec_walk. Qed.

Lemma spec_swap : stack_spec False op_swap (fun _ => True).
Proof. unfold op_swap. spec_walk. Qed.

Lemma spec_tuck : stack_spec False op_tuck (fun _ => True).
Proof. unfold op_tuck. spec_walk. Qed.

Lemma spec_2drop : stack_spec False op_2drop (fun _ => True).
Proof. unfold op_2drop. spec_walk. Qed.

Lemma spec_2dup : stack_spec False op_2dup (fun _ => True).
Proof. unfold op_2dup. spec_walk. Qed.

Lemma spec_3dup : stack_spec False op_3dup (fun _ => True).
Proof. unfold op_3dup. spec_walk. Qed.

Lemma spec_2over : stack_spec False op_2over (fun _ => True).
Proof. unfold op_2over. spec_walk. Qed.

Lemma spec_2rot : stack_spec False op_2rot (fun _ => True).
Proof. unfold op_2rot. spec_walk. Qed.

Lemma spec_2swap : stack_spec False op_2swap (fun _ => True).
Proof. unfold op_2swap. spec_walk. Qed.

Lemma spec_cat : stack_spec False op_cat (fun _ => True).
Proof. unfold op_cat. repeat spec_step. by apply Forall_app. Qed.

Lemma spec_codeseparator : stack_spec False op_codeseparator (fun _ => True).
Proof. by apply spec_ret. Qed.

Lemma spec_equal : stack_spec False op_equal (fun _ => True).
Proof.
  unfold op_equal. do 2 spec_step.
  destruct (bool_decide _); apply spec_push; repeat constructor; done || (unfold is_byte; lia).
Qed.

Lemma spec_verify : stack_spec False op_verify (fun _ => True).
Proof. unfold op_verify. spec_walk. Qed.

Lemma spec_equal_verify : stack_spec False op_equal_verify (fun _ => True).
Proof. eapply spec_bind; [apply spec_equal|intros; apply spec_verify]. Qed.

Lemma spec_toaltstack : stack_spec False op_toaltstack (fun _ => True).
Proof.
  unfold op_toaltstack. spec_step. intros e [Hs Ha].
  split_and!; [split; simpl; [done|by constructor]|done|done].
Qed.

Lemma spec_fromaltstack : stack_spec False op_fromaltstack (fun _ => True).
Proof.
  intros e [Hs Ha]. unfold op_fromaltstack. destruct (alt_stack e) as [|v r]; [done|].
  inversion_clear Ha. split_and!; [split; simpl; [by constructor|done]|done|done].
Qed.

(** Looking up a position below the depth read just before. *)
Lemma spec_pick_at n (k : bytes -> engM unit) :
  0 <= n -> (forall v, is_bytes v -> stack_spec False (k v) (fun _ => True)) ->
  stack_spec False
    (depth ← gets (fun e => len (stack e));
     if n >=? depth then throw StackUnderflow
     else val ← gets (fun e => index (stack e) n) ≫= (fun v => lift (unwrap v)); k val)
    (fun _ => True).
Proof.
  intros Hn Hk e He. rewrite stM_bind_run. simpl.
  rewrite Z.geb_leb. destruct (Z.leb_spec (len (stack e)) n) as [|Hlt]; [done|].
  rewrite !stM_bind_run. simpl. unfold index.
  destruct (Z.leb_spec 0 n); [|lia].
  destruct (stack e !! Z.to_nat n) as [v|] eqn:Hv.
  - simpl. apply (Hk v); [|done].
    destruct He as [Hs _]. by eapply Forall_lookup_1 in Hv.
  - apply lookup_ge_None in Hv. unfold len in Hlt. lia.
Qed.

Lemma spec_pick : stack_spec False op_pick (fun _ => True).
Proof.
  unfold op_pick. do 2 spec_step. apply spec_pick_at; [lia|].
  intros. by apply spec_push.
Qed.

Lemma spec_roll : stack_spec False op_roll (fun _ => True).
Proof.
  unfold op_roll. do 2 spec_step. apply spec_pick_at; [lia|]. intros v Hv.
  eapply spec_bind; [|intros; by apply spec_push].
  intros e [Hs Ha]. split_and!; [split; simpl; [|done]|done|instantiate (1 := fun _ => True); done].
  apply Forall_app. split; [by apply Forall_take|by apply Forall_drop].
Qed.

Lemma spec_substr : stack_spec True op_substr (fun _ => True).
Proof.
  unfold op_substr. repeat spec_step.
  eapply spec_bind; [apply spec_lift, spec_slice; done|]. intros. spec_walk.
Qed.

Lemma spec_left : stack_spec False op_left (fun _ => True).
Proof.
  unfold op_left. repeat spec_step.
  eapply spec_bind; [apply spec_lift, spec_slice; [done|]|intros; spec_walk].
  intros Hn. rewrite slice_some in Hn; [done|lia|lia].
Qed.

Lemma spec_right : stack_spec False op_right (fun _ => True).
Proof.
  unfold op_right. repeat spec_step.
  eapply spec_bind; [apply spec_lift, spec_slice; [done|]|intros; spec_walk].
  intros Hn. rewrite slice_some in Hn; [done|lia|lia].
Qed.

Lemma spec_size : stack_spec False op_size (fun _ => True).
Proof. unfold op_size. repeat spec_step; [done|apply to_le_bytes_bytes]. Qed.

Lemma spec_invert : stack_spec False op_invert (fun _ => True).
Proof.
  unfold op_invert. repeat spec_step. apply Forall_fmap.
  eapply Forall_impl; [eassumption|exact u8_not_byte].
Qed.

Lemma zip_with_bytes f a b :
  (forall x y, is_byte x -> is_byte y -> is_byte (f x y)) ->
  is_bytes a -> is_bytes b -> is_bytes (zip_with f a b).
Proof.
  intros Hf Ha. revert b. induction Ha as [|x a Hx Ha IH]; intros b Hb; [constructor|].
  destruct Hb as [|y b Hy Hb]; [constructor|]. constructor; [by apply Hf|by apply IH].
Qed.

Lemma spec_bitwise f :
  (forall x y, is_byte x -> is_byte y -> is_byte (f x y)) ->
  stack_spec False (op_bitwise f) (fun _ => True).
Proof. intros Hf. unfold op_bitwise. repeat spec_step. by apply zip_with_bytes. Qed.

Lemma spec_and : stack_spec False op_and (fun _ => True).
Proof. apply spec_bitwise, land_byte. Qed.

Lemma spec_or : stack_spec False op_or (fun _ => True).
Proof. apply spec_bitwise, lor_byte. Qed.

Lemma spec_xor : stack_spec False op_xor (fun _ => True).
Proof. apply spec_bitwise, lxor_byte. Qed.

Lemma spec_hash h :
  (forall m, is_bytes (h m)) ->
  stack_spec False (data ← pop_data; push_data (h data)) (fun _ => True).
Proof. intros Hh. repeat spec_step. apply Hh. Qed.

Lemma spec_hash160 : stack_spec False op_hash160 (fun _ => True).
Proof. apply (spec_hash (fun d => ripemd160 (sha256 d))). intros. apply ripemd160_out. Qed.

Lemma spec_ripemd160 : stack_spec False op_ripemd160 (fun _ => True).
Proof. apply spec_hash. intros. apply ripemd160_out. Qed.

Lemma spec_sha1 : stack_spec False op_sha1 (fun _ => True).
Proof. apply spec_hash. intros. apply sha1_out. Qed.

Lemma spec_sha256 : stack_spec False op_sha256 (fun _ => True).
Proof. apply spec_hash. intros. apply sha256_out. Qed.

Lemma spec_hash256 : stack_spec False op_hash256 (fun _ => True).
Proof. apply (spec_hash (fun d => sha256 (sha256 d))). intros. apply sha256_out. Qed.

Lemma spec_cltv tx height :
  stack_spec False (op_checklocktimeverify tx height) (fun _ => True).
Proof. unfold op_checklocktimeverify. spec_walk. Qed.

Lemma spec_csv tx height i :
  0 <= i -> stack_spec False (op_checksequenceverify tx height i) (fun _ => True).
Proof.
  intros Hi. unfold op_checksequenceverify. do 2 spec_step. cbv zeta.
  apply spec_if; intros Hlt; [apply spec_throw|].
  eapply spec_bind.
  { apply spec_lift. instantiate (1 := fun _ => True). unfold index, unwrap.
    destruct (Z.leb_spec 0 i); [|lia].
    destruct (get_inputs tx !! Z.to_nat i) eqn:Hlk; [done|].
    apply lookup_ge_None in Hlk. unfold len in Hlt. lia. }
  intros. spec_walk.
Qed.

Lemma spec_read_bytes script ip n :
  is_bytes script -> len script <= MAX_SCRIPT_BYTES -> 0 <= ip <= len script ->
  0 <= n < 256 ^ 4 ->
  stack_spec False (read_bytes script ip n)
    (fun p => is_bytes p.1 /\ p.2 = ip + n /\ p.2 <= len script /\ len p.1 = n).
Proof.
  intros Hs Hl Hip Hn. unfold read_bytes, MAX_SCRIPT_BYTES in *.
  rewrite wrap64_small by (unfold u64_max; lia).
  apply spec_if; intros Hc; [apply spec_throw|].
  rewrite slice_some by lia. simpl unwrap.
  eapply spec_bind.
  { apply spec_lift. cbn. instantiate (1 := fun d => is_bytes d /\ len d = n). cbn.
    split; [by apply Forall_take, Forall_drop|].
    unfold len in *. rewrite length_take, length_drop. lia. }
  intros d [? ?]. apply spec_ret. simpl. split_and!; try done. lia.
Qed.

Lemma spec_push_data_n script ip k :
  is_bytes script -> len script <= MAX_SCRIPT_BYTES -> 0 <= ip <= len script -> 0 <= k <= 4 ->
  stack_spec False (push_data_n script ip k) (fun ip' => ip <= ip' <= len script).
Proof.
  intros Hs Hl Hip Hk. unfold push_data_n.
  eapply spec_bind; [apply spec_read_bytes; try done; lia|].
  intros [d ip1] (Hd & Heq & Hle & Hlen). simpl in *.
  eapply spec_bind; [by apply spec_lift, as_usize_spec|]. intros n [Hn _].
  assert (256 ^ len d <= 256 ^ 4) by (apply Z.pow_le_mono_r; lia).
  eapply spec_bind; [apply spec_read_bytes; try done; lia|].
  intros [d2 ip2] (Hd2 & Heq2 & Hle2 & Hlen2). simpl in *.
  eapply spec_bind; [by apply spec_push|]. intros. apply spec_ret. lia.
Qed.

(** * Signature opcodes: the signature counter moves by at most one *)

Definition sig_frame (e e' : ScriptEngine) : Prop :=
  opcode_count e' = opcode_count e /\ skip_depth e' = skip_depth e /\
  sig_op_count e <= sig_op_count e' <= sig_op_count e + 1.

Definition sig_spec (pn : Prop) (m : engM unit) : Prop :=
  forall e, stacks_ok e -> 0 <= sig_op_count e < u64_max ->
    match m e with
    | (e', Ok _) => stacks_ok e' /\ sig_frame e e'
    | (_, Err _) => True
    | (_, Panic) => pn
    | (_, OutOfFuel) => False
    end.

Lemma sig_spec_of_stack pn m Q : stack_spec pn m Q -> sig_spec pn m.
Proof.
  intros Hm e He Hs. specialize (Hm e He). destruct (m e) as [e' [a|?| |]]; try done.
  destruct Hm as (? & (? & ? & ? & ?) & ?). split; [done|]. unfold sig_frame. lia.
Qed.

Lemma sig_spec_count pn m Q :
  stack_spec pn m Q ->
  sig_spec pn (modify (upd_sig_op_count (fun c => wrap64 (c + 1)));; m).
Proof.
  intros Hm e [Hs Ha] Hc. rewrite stM_bind_run. cbn [modify].
  specialize (Hm (upd_sig_op_count (fun c => wrap64 (c + 1)) e) (conj Hs Ha)).
  destruct (m _) as [e' [a|?| |]]; try done.
  destruct Hm as (? & (Ho & Hg & _ & Hk) & ?). split; [done|].
  cbn in Ho, Hg, Hk. rewrite wrap64_small in Hg by (unfold u64_max in *; lia).
  unfold sig_frame. lia.
Qed.

Lemma sig_spec_verify pn m : sig_spec pn m -> sig_spec pn (m;; op_verify).
Proof.
  intros Hm e He Hs. rewrite stM_bind_run. specialize (Hm e He Hs).
  destruct (m e) as [e1 [a|?| |]]; try done. destruct Hm as (He1 & Ho & Hk & Hg).
  pose proof (spec_verify e1 He1) as Hv.
  destruct (op_verify e1) as [e2 [b|?| |]]; try done.
  destruct Hv as (? & (? & ? & ? & ?) & ?). split; [done|]. unfold sig_frame. lia.
Qed.

Lemma spec_sighash tx i spk pn :
  outcome_spec pn (calculate_sighash tx i spk) (fun _ => True).
Proof.
  unfold calculate_sighash. destruct (i >=? _); [done|].
  destruct (bincode_transaction _); done.
Qed.

Lemma sig_spec_checksig tx i spk : sig_spec False (op_checksig tx i spk).
Proof.
  unfold op_checksig. apply sig_spec_count with (Q := fun _ => True).
  do 2 spec_step.
  do 2 (eapply spec_bind; [apply spec_lift, outcome_spec_ok_or|intros]).
  eapply spec_bind; [apply spec_lift, spec_sighash|intros].
  destruct (ed25519_verify _ _ _); [apply (spec_bool_push _ true)|apply (spec_bool_push _ false)].
Qed.

Lemma spec_pop_n n : stack_spec False (pop_n n) (fun _ => True).
Proof.
  induction n as [|n IH]; simpl; [by apply spec_ret|].
  spec_step. eapply spec_bind; [apply IH|]. intros. by apply spec_ret.
Qed.

Lemma spec_count_verified message sigs keys :
  outcome_spec False (count_verified message sigs keys) (fun _ => True).
Proof.
  induction sigs as [|s sigs IH]; simpl; [done|].
  assert (Hm : outcome_spec False (matches_any message s keys) (fun _ => True)).
  { clear IH. induction keys as [|k keys IHk]; simpl; [done|].
    destruct (signature_from_bytes s); simpl; [|done].
    destruct (public_key_from_bytes k); simpl; [|done].
    by destruct (ed25519_verify _ _ _). }
  destruct (matches_any _ _ _); try done. simpl.
  by destruct (count_verified _ _ _).
Qed.

Lemma sig_spec_checkmultisig tx i spk : sig_spec True (op_checkmultisig tx i spk).
Proof.
  assert (Hb : stack_spec True pop_first_byte (fun _ => True)).
  { unfold pop_first_byte. spec_step. apply spec_lift. by destruct (index _ _). }
  unfold op_checkmultisig. apply sig_spec_count with (Q := fun _ => True).
  do 2 (eapply spec_bind; [apply Hb|intros]; spec_step; apply spec_if; intros;
        [apply spec_throw|];
        eapply spec_bind; [apply spec_no_panic, spec_pop_n|intros]).
  spec_step. eapply spec_bind; [apply spec_lift, spec_sighash|intros].
  eapply spec_bind; [apply spec_no_panic, spec_lift, spec_count_verified|intros].
  destruct (_ >=? _); [apply (spec_bool_push _ true)|apply (spec_bool_push _ false)].
Qed.

Lemma sig_spec_checksigverify tx i spk : sig_spec False (op_checksigverify tx i spk).
Proof. apply sig_spec_verify, sig_spec_checksig. Qed.

Lemma sig_spec_checkmultisigverify tx i spk : sig_spec True (op_checkmultisigverify tx i spk).
Proof. apply sig_spec_verify, sig_spec_checkmultisig. Qed.

Lemma spec_push_empty : stack_spec False (push_data []) (fun _ => True).
Proof. apply spec_push. constructor. Qed.

Lemma spec_const_push b : is_byte b -> stack_spec False (push_data [b]) (fun _ => True).
Proof. intros. apply spec_push. by apply Forall_singleton. Qed.

End Ops.

Create HintDb script.
#[local] Hint Resolve sig_spec_of_stack sig_spec_checksig sig_spec_checkmultisig
  sig_spec_checksigverify sig_spec_checkmultisigverify spec_push_empty spec_dup spec_equal
  spec_verify spec_equal_verify spec_toaltstack spec_fromaltstack spec_pick spec_roll
  spec_substr spec_left spec_right spec_size spec_invert spec_and spec_or spec_xor
  spec_hash160 spec_ripemd160 spec_sha1 spec_sha256 spec_hash256 spec_cltv spec_csv
  spec_cat spec_codeseparator spec_drop spec_nip spec_over spec_rot spec_swap spec_tuck spec_2drop spec_2dup spec_3dup spec_2over spec_2rot spec_2swap : script.

(** * The interpreter loop *)

Section Loop.
  Context `{HashLaws}.

(** What one executed opcode does to the engine and the instruction pointer. *)
Definition step_post (script : bytes) (pn : Prop) (ip : Z) (e : ScriptEngine)
    (r : ScriptEngine * outcome ScriptError Z) : Prop :=
  match r with
  | (e', Ok ip') =>
      stacks_ok e' /\ opcode_count e' = opcode_count e /\
      sig_op_count e <= sig_op_count e' <= sig_op_count e + 1 /\
      0 <= skip_depth e' <= skip_depth e + 1 /\ ip <= ip' <= len script
  | (_, Err _) => True
  | (_, Panic) => pn
  | (_, OutOfFuel) => False
  end.

Lemma post_of_sig script pn ip e (m : engM unit) :
  stacks_ok e -> 0 <= sig_op_count e < u64_max -> 0 <= skip_depth e ->
  0 <= ip <= len script ->
  sig_spec pn m -> step_post script pn ip e ((m;; mret ip) e).
Proof.
  intros He Hc Hk Hip Hm. rewrite stM_bind_run. specialize (Hm e He Hc).
  destruct (m e) as [e' [a|?| |]]; try done. destruct Hm as (? & ? & ? & ?).
  cbn. split_and!; try done; lia.
Qed.

Lemma post_of_stack script pn ip e (m : engM unit) Q :
  stacks_ok e -> 0 <= sig_op_count e < u64_max -> 0 <= skip_depth e ->
  0 <= ip <= len script ->
  stack_spec pn m Q -> step_post script pn ip e ((m;; mret ip) e).
Proof. intros. apply post_of_sig; try done. by eapply sig_spec_of_stack. Qed.

Lemma post_of_push script ip e k :
  is_bytes script -> len script <= MAX_SCRIPT_BYTES -> stacks_ok e -> 0 <= skip_depth e ->
  0 <= ip <= len script -> 0 <= k <= 4 ->
  step_post script False ip e (push_data_n script ip k e).
Proof.
  intros Hs Hl He Hk Hip H4. pose proof (spec_push_data_n script ip k Hs Hl Hip H4 e He) as Hp.
  destruct (push_data_n script ip k e) as [e' [a|?| |]]; try done.
  destruct Hp as (? & (? & ? & ? & ?) & ?). cbn. split_and!; try done; lia.
Qed.

(** The flow-control opcodes only touch the control state and the stack top. *)
Lemma post_of_flow script ip e (m : engM unit) :
  m ∈ [op_if; op_notif; op_else; op_endif] ->
  stacks_ok e -> skip_depth e = 0 -> 0 <= ip <= len script ->
  step_post script False ip e ((m;; mret ip) e).
Proof.
  intros Hm He Hk Hip. pose proof He as [Hs Ha].
  assert (Hskip : should_skip e = false) by (unfold should_skip; lia).
  assert (Hpop : forall f, exists b e1, pop_condition f e = (e1, Ok b) /\
    stacks_ok e1 /\ same_frame e e1).
  { intros f. unfold pop_condition. pose proof (spec_pop False e He) as Hp.
    destruct (pop_data e) as [e1 [v|?| |]] eqn:Hpd; try done.
    - destruct Hp as (? & ? & ?). by eexists _, _.
    - unfold pop_data in Hpd. destruct (stack e); [|done]. injection Hpd as <- _.
      by eexists _, _. }
  assert (Henter : forall (c : bool) e1, stacks_ok e1 -> same_frame e e1 ->
    step_post script False ip e ((enter_branch c;; mret ip) e1)).
  { intros c e1 [? ?] (Ho & Hg & Hc & Hd). unfold enter_branch. rewrite stM_bind_run.
    destruct c; cbn; rewrite ?Ho, ?Hg, ?Hd, ?Hk; (split_and!; try done; try (by split); simpl; lia). }
  repeat (apply elem_of_cons in Hm as [->|Hm]); [| | | |by apply elem_of_nil in Hm].
  - destruct (Hpop (fun v => negb (is_false v))) as (b & e1 & Hp & ? & ?).
    unfold op_if. rewrite stM_bind_run, stM_bind_run. cbn [gets]. rewrite Hskip.
    rewrite stM_bind_run, Hp. specialize (Henter b e1). rewrite stM_bind_run in Henter.
    by apply Henter.
  - destruct (Hpop is_false) as (b & e1 & Hp & ? & ?).
    unfold op_notif. rewrite stM_bind_run, stM_bind_run. cbn [gets]. rewrite Hskip.
    rewrite stM_bind_run, Hp. specialize (Henter b e1). rewrite stM_bind_run in Henter.
    by apply Henter.
  - rewrite stM_bind_run. unfold op_else. rewrite Hk. simpl.
    destruct (control_stack e) as [|[] r]; cbn; rewrite ?Hk;
      (done || (split_and!; try done; try (by split); simpl; lia)).
  - rewrite stM_bind_run. unfold op_endif. rewrite Hk. simpl.
    destruct (control_stack e) as [|[] r]; cbn; rewrite ?Hk;
      (done || (split_and!; try done; try (by split); simpl; lia)).
Qed.

Lemma step_post_mono script (pn pn' : Prop) ip e r :
  (pn -> pn') -> step_post script pn ip e r -> step_post script pn' ip e r.
Proof. intros Hpn. destruct r as [e' [a|?| |]]; cbn; auto. Qed.

(** Every opcode, executed outside a skipped branch. *)
Lemma exec_opcode_post script tx height i spk op ip e :
  is_bytes script -> len script <= MAX_SCRIPT_BYTES -> stacks_ok e ->
  0 <= sig_op_count e < u64_max -> skip_depth e = 0 -> 0 <= i -> 0 <= ip <= len script ->
  step_post script (may_panic op = true) ip e
    (exec_opcode script tx height i spk op ip e).
Proof.
  intros Hs Hl He Hc Hk Hi Hip.
  assert (Hk0 : 0 <= skip_depth e) by lia.
  destruct op; cbn [exec_opcode may_panic];
    lazymatch goal with
    | |- step_post _ (true = true) _ _ _ => apply (step_post_mono _ True); [done|]
    | |- _ => apply (step_post_mono _ False); [done|]
    end;
    lazymatch goal with
    | |- step_post _ _ _ _ (throw _ _) => done
    | |- step_post _ _ _ _ (mret _ _) => cbn; split_and!; done || lia
    | |- step_post _ _ _ _ (push_data_n _ _ _ _) => apply post_of_push; try done; lia
    | |- step_post _ _ _ _ ((push_data [_] ;; _) _) =>
        eapply post_of_stack; try done; apply spec_const_push; unfold is_byte; lia
    | |- step_post _ _ _ _ ((?m ;; _) _) =>
        first [ apply post_of_flow; try done; set_solver
              | apply post_of_sig; try done; eauto 3 with script ]
    end.
Qed.

(** The invariant of the interpreter loop; [s0] is the signature count the
    engine started with. *)
Record engine_ok (s0 : Z) (e : ScriptEngine) : Prop := {
  ok_stacks : stacks_ok e;
  ok_depth : len (stack e) <= MAX_STACK_DEPTH;
  ok_opcodes : 0 <= opcode_count e <= MAX_OPCODE_COUNT;
  ok_skip : 0 <= skip_depth e <= opcode_count e;
  ok_sigs : s0 <= sig_op_count e <= s0 + opcode_count e;
}.

(** Signature counts that leave room for a script's opcodes. *)
Definition sig_base_ok (s0 : Z) : Prop := 0 <= s0 < u64_max - MAX_OPCODE_COUNT.

Lemma sig_base_ok_0 : sig_base_ok 0.
Proof. unfold sig_base_ok, u64_max, MAX_OPCODE_COUNT. lia. Qed.

Definition can_panic (script : bytes) : Prop :=
  exists b, b ∈ script /\ may_panic (Opcode_from_u8 b) = true.

(** Skipping an opcode keeps everything but the skip depth. *)
Lemma skip_opcode_spec op e :
  0 < skip_depth e < u64_max ->
  exists d, skip_opcode op e = (set_skip_depth (fun _ => d) e, Ok tt) /\
    0 <= d <= skip_depth e + 1.
Proof.
  intros Hd.
  assert (Hid : forall A (a : A), (e, a) = (set_skip_depth (fun _ => skip_depth e) e, a))
    by (destruct e; done).
  assert (Hw : wrap64 (skip_depth e + 1) = skip_depth e + 1)
    by (apply wrap64_small; unfold u64_max in *; lia).
  destruct op; cbn [skip_opcode]; try (eexists; split; [apply Hid|lia]).
  1,2: eexists; split; [done|]; rewrite Hw; lia.
  - destruct (Z.eqb_spec (skip_depth e) 1); eexists; (split; [done || apply Hid|lia]).
  - eexists; split; [done|lia].
Qed.

(** One iteration of the loop keeps the invariant, counts one opcode and moves
    the instruction pointer forward. *)
Lemma exec_step_post s0 script tx height i spk ip e :
  is_bytes script -> len script <= MAX_SCRIPT_BYTES -> 0 <= i -> sig_base_ok s0 ->
  engine_ok s0 e -> 0 <= ip < len script ->
  match exec_step script tx height i spk ip e with
  | (e', Ok ip') =>
      engine_ok s0 e' /\ opcode_count e' = opcode_count e + 1 /\ ip < ip' <= len script
  | (_, Err _) => True
  | (_, Panic) => can_panic script
  | (_, OutOfFuel) => False
  end.
Proof.
  intros Hs Hl Hi Hs0 [Hst Hdep Hop Hsk Hsg] Hip.
  unfold exec_step. rewrite stM_bind_run. cbn [gets].
  rewrite Z.geb_leb. destruct (Z.leb_spec MAX_OPCODE_COUNT (opcode_count e)); [done|].
  unfold index. destruct (Z.leb_spec 0 ip); [|lia].
  destruct (script !! Z.to_nat ip) as [b|] eqn:Hb;
    [|apply lookup_ge_None in Hb; unfold len in *; lia].
  rewrite stM_bind_run. cbn [lift unwrap]. cbv zeta.
  rewrite stM_bind_run. cbn [modify]. rewrite stM_bind_run. cbn [gets].
  unfold sig_base_ok, MAX_OPCODE_COUNT, u64_max in *.
  destruct (should_skip _) eqn:Hskp; unfold should_skip in Hskp; simpl in Hskp.
  - rewrite stM_bind_run.
    edestruct (skip_opcode_spec (Opcode_from_u8 b)) as (d & -> & Hd);
      [|simpl in Hd; cbn; split_and!; [split; simpl; unfold MAX_OPCODE_COUNT; done || lia|done|lia|lia]].
    unfold u64_max. simpl. lia.
  - rewrite stM_bind_run.
    pose proof (exec_opcode_post script tx height i spk (Opcode_from_u8 b) (ip + 1)
      (set_opcode_count (fun c => c + 1) e)) as Hpost.
    destruct (exec_opcode _ _ _ _ _ _ _ _) as [e' [ip'|?| |]]; try done.
    + destruct Hpost as (? & ? & ? & ? & ?); try done; unfold u64_max; simpl in *; try lia.
      rewrite stM_bind_run. cbn [gets]. rewrite Z.gtb_ltb.
      destruct (Z.ltb_spec MAX_STACK_DEPTH (len (stack e'))); [done|].
      cbn. split_and!; try lia. split; try done; simpl in *; unfold MAX_OPCODE_COUNT; lia.
    + exists b. split; [by eapply list_elem_of_lookup_2|].
      apply Hpost; try done; unfold u64_max; simpl; lia.
    + apply Hpost; try done; unfold u64_max; simpl; lia.
Qed.

Lemma exec_loop_post s0 fuel script tx height i spk ip e :
  is_bytes script -> len script <= MAX_SCRIPT_BYTES -> 0 <= i -> sig_base_ok s0 ->
  engine_ok s0 e -> 0 <= ip <= len script -> len script - ip <= Z.of_nat fuel ->
  match exec_loop fuel script tx height i spk ip e with
  | (e', Ok _) => engine_ok s0 e' /\ opcode_count e <= opcode_count e'
  | (_, Err _) => True
  | (_, Panic) => can_panic script
  | (_, OutOfFuel) => False
  end.
Proof.
  intros Hs Hl Hi Hs0. revert ip e. induction fuel as [|fuel IH]; intros ip e He Hip Hf;
    cbn [exec_loop]; destruct (Z.ltb_spec ip (len script)); try (cbn; split; done || lia); [lia|].
  rewrite stM_bind_run.
  pose proof (exec_step_post s0 script tx height i spk ip e Hs Hl Hi Hs0 He ltac:(lia)) as Hst.
  destruct (exec_step _ _ _ _ _ _ _) as [e1 [ip1|?| |]]; try done.
  destruct Hst as (He1 & Hc & Hip1). specialize (IH ip1 e1 He1 ltac:(lia) ltac:(lia)).
  destruct (exec_loop _ _ _ _ _ _ _ _) as [e2 [?|?| |]]; try done.
  destruct IH. split; [done|lia].
Qed.

Lemma execute_post s0 script tx height i spk e :
  is_bytes script -> 0 <= i -> sig_base_ok s0 -> engine_ok s0 e ->
  match execute script tx height i spk e with
  | (e', Ok _) => engine_ok s0 e' /\ opcode_count e <= opcode_count e'
  | (_, Err _) => True
  | (_, Panic) => can_panic script
  | (_, OutOfFuel) => False
  end.
Proof.
  intros Hs Hi Hs0 He. unfold execute. rewrite Z.gtb_ltb.
  destruct (Z.ltb_spec MAX_SCRIPT_BYTES (len script)); [done|].
  apply (exec_loop_post s0); try done; unfold len; lia.
Qed.

Lemma engine_ok_new : engine_ok 0 ScriptEngine_new.
Proof. split; simpl; try done; by split. Qed.

Lemma engine_ok_reset e : 0 <= sig_op_count e -> engine_ok (sig_op_count e) (reset_engine e).
Proof. intros. split; simpl; try done; try lia; by split. Qed.

(** * Running concrete opcodes *)

(** The body of [exec_step] once the byte at [ip] and the opcode budget are known. *)
Lemma exec_step_unfold script tx height i spk ip b e :
  0 <= ip -> script !! Z.to_nat ip = Some b -> opcode_count e < MAX_OPCODE_COUNT ->
  exec_step script tx height i spk ip e =
  if should_skip e then (skip_opcode (Opcode_from_u8 b);; mret (ip + 1)) (count_opcode e)
  else
    (ip' ← exec_opcode script tx height i spk (Opcode_from_u8 b) (ip + 1);
     depth ← gets (fun e => len (stack e));
     if depth >? MAX_STACK_DEPTH then throw StackOverflow else mret ip') (count_opcode e).
Proof.
  intros Hip Hb Hc. unfold exec_step. rewrite stM_bind_run. cbn [gets].
  rewrite Z.geb_leb. destruct (Z.leb_spec MAX_OPCODE_COUNT (opcode_count e)); [lia|].
  unfold index. destruct (Z.leb_spec 0 ip); [|lia]. rewrite Hb.
  rewrite stM_bind_run. cbn [lift unwrap]. cbv zeta.
  rewrite stM_bind_run. cbn [modify]. rewrite stM_bind_run. cbn [gets].
  unfold should_skip. cbn [skip_depth set_opcode_count]. by destruct (skip_depth e >? 0).
Qed.

Lemma exec_step_ok script tx height i spk ip b e e' ip' :
  0 <= ip -> script !! Z.to_nat ip = Some b -> opcode_count e < MAX_OPCODE_COUNT ->
  skip_depth e = 0 ->
  exec_opcode script tx height i spk (Opcode_from_u8 b) (ip + 1) (count_opcode e) = (e', Ok ip') ->
  len (stack e') <= MAX_STACK_DEPTH ->
  exec_step script tx height i spk ip e = (e', Ok ip').
Proof.
  intros Hip Hb Hc Hk Hx Hd. rewrite (exec_step_unfold _ _ _ _ _ _ b) by done.
  unfold should_skip. rewrite Hk. cbn [Z.gtb Z.compare]. rewrite stM_bind_run, Hx.
  rewrite stM_bind_run. cbn [gets]. rewrite Z.gtb_ltb.
  by destruct (Z.ltb_spec MAX_STACK_DEPTH (len (stack e'))); [lia|].
Qed.

Lemma exec_step_panic script tx height i spk ip b e e' :
  0 <= ip -> script !! Z.to_nat ip = Some b -> opcode_count e < MAX_OPCODE_COUNT ->
  skip_depth e = 0 ->
  exec_opcode script tx height i spk (Opcode_from_u8 b) (ip + 1) (count_opcode e) = (e', Panic) ->
  exec_step script tx height i spk ip e = (e', Panic).
Proof.
  intros Hip Hb Hc Hk Hx. rewrite (exec_step_unfold _ _ _ _ _ _ b) by done.
  unfold should_skip. rewrite Hk. cbn [Z.gtb Z.compare]. by rewrite stM_bind_run, Hx.
Qed.

Lemma exec_step_ok_inv script tx height i spk ip b e e' ip' :
  0 <= ip -> script !! Z.to_nat ip = Some b -> skip_depth e = 0 ->
  exec_step script tx height i spk ip e = (e', Ok ip') ->
  exec_opcode script tx height i spk (Opcode_from_u8 b) (ip + 1) (count_opcode e) = (e', Ok ip').
Proof.
  intros Hip Hb Hk Hx.
  destruct (Z.leb_spec MAX_OPCODE_COUNT (opcode_count e)) as [Hc|Hc].
  { unfold exec_step in Hx. rewrite stM_bind_run in Hx. cbn [gets] in Hx.
    rewrite Z.geb_leb in Hx. by destruct (Z.leb_spec MAX_OPCODE_COUNT (opcode_count e)); [|lia]. }
  rewrite (exec_step_unfold _ _ _ _ _ _ b) in Hx by done.
  unfold should_skip in Hx. rewrite Hk in Hx. cbn [Z.gtb Z.compare] in Hx.
  apply stM_bind_ok in Hx as (e1 & ip1 & Hx & Hd). rewrite Hx.
  rewrite stM_bind_run in Hd. cbn [gets] in Hd. by destruct (_ >? _); simplify_eq/=.
Qed.

Lemma exec_loop_step fuel script tx height i spk ip e :
  ip < len script ->
  exec_loop (S fuel) script tx height i spk ip e =
  (ip' ← exec_step script tx height i spk ip;
   exec_loop fuel script tx height i spk ip') e.
Proof. intros. cbn [exec_loop]. by destruct (Z.ltb_spec ip (len script)); [|lia]. Qed.

Lemma exec_loop_done fuel script tx height i spk ip e :
  len script <= ip -> exec_loop fuel script tx height i spk ip e = (e, Ok tt).
Proof.
  intros. destruct fuel; cbn [exec_loop]; by destruct (Z.ltb_spec ip (len script)); [lia|].
Qed.

Lemma execute_unfold script tx height i spk e :
  len script <= MAX_SCRIPT_BYTES ->
  execute script tx height i spk e =
  exec_loop (length script) script tx height i spk 0 e.
Proof.
  intros. unfold execute. rewrite Z.gtb_ltb.
  by destruct (Z.ltb_spec MAX_SCRIPT_BYTES (len script)); [lia|].
Qed.

(** In a skipped branch, bytes that are not flow control only consume the
    opcode budget. *)
Definition is_flow_control (b : Z) : bool :=
  match Opcode_from_u8 b with OpIf | OpNotIf | OpElse | OpEndIf => true | _ => false end.

Lemma exec_loop_skips fuel script tx height i spk ip e :
  Forall (fun b => is_flow_control b = false) script ->
  0 < skip_depth e -> 0 <= ip <= len script -> len script - ip <= Z.of_nat fuel ->
  opcode_count e + (len script - ip) <= MAX_OPCODE_COUNT ->
  exec_loop fuel script tx height i spk ip e =
  (set_opcode_count (fun c => c + (len script - ip)) e, Ok tt).
Proof.
  intros Hf. revert ip e. induction fuel as [|fuel IH]; intros ip e Hk Hip Hfu Hc;
    (destruct (Z.eq_dec ip (len script)) as [->|Hne];
     [rewrite exec_loop_done by lia; rewrite Z.sub_diag;
      destruct e; unfold set_opcode_count; simpl; by rewrite Z.add_0_r|]); [lia|].
  rewrite exec_loop_step by lia. rewrite stM_bind_run.
  destruct (lookup_lt_is_Some_2 script (Z.to_nat ip)) as [b Hb]; [unfold len in *; lia|].
  rewrite (exec_step_unfold _ _ _ _ _ _ b) by (done || lia).
  unfold should_skip. rewrite Z.gtb_ltb. destruct (Z.ltb_spec 0 (skip_depth e)); [|lia].
  assert (Hs : skip_opcode (Opcode_from_u8 b) (count_opcode e) = (count_opcode e, Ok tt)).
  { rewrite Forall_lookup in Hf. specialize (Hf _ _ Hb). unfold is_flow_control in Hf.
    by destruct (Opcode_from_u8 b). }
  rewrite stM_bind_run, Hs. cbn -[exec_loop]. rewrite IH; simpl; try lia.
  destruct e; unfold set_opcode_count; simpl. do 2 f_equal. lia.
Qed.

End Loop.
