(* ===== verification/SamplePrimitives.v ===== *)
(** A concrete instance of the third-party primitives, used to evaluate the
    model on sample inputs and to show that the hypotheses stated about the
    primitives can hold together.  It is a sample, not a model of BLAKE3, SHA-2
    or Ed25519: hashing is a polynomial fold, a public key is any 32-byte
    string and signs a message [m] as [key ++ blake3 m]. *)

From Stdlib Require Import ZArith Lia List.
From stdpp Require Import base option list numbers.
From S2P Require Import Prelude Types Transaction.

#[local] Open Scope Z_scope.

Definition sample_fold (seed : Z) (m : bytes) : Z :=
  foldl (fun acc b => (acc * 257 + b + 1) mod
    115792089237316195423570985008687907853269984665640564039457584007913129639936) seed m.

Definition sample_hash (n : nat) (seed : Z) (m : bytes) : bytes :=
  to_le_bytes n (sample_fold seed m).

Definition sample_bincode_output (o : TxOutput) : bytes :=
  to_le_bytes 8 (value o) ++ to_le_bytes 8 (len (script_pubkey o)) ++ script_pubkey o.

Definition sample_bincode_input (i : TxInput) : bytes :=
  txid (previous_output i) ++ to_le_bytes 4 (vout (previous_output i)) ++
  to_le_bytes 8 (len (script_sig i)) ++ script_sig i ++ to_le_bytes 4 (sequence i).

Definition sample_bincode (tx : Transaction) : bytes :=
  to_le_bytes 4 (get_lock_time tx) ++ to_le_bytes 8 (get_fee tx) ++
  concat (sample_bincode_input <$> get_inputs tx) ++
  concat (sample_bincode_output <$> get_outputs tx).

Definition sample_bincode_header (h : BlockHeader) : bytes :=
  to_le_bytes 4 (header_version h) ++ to_le_bytes 8 (header_height h) ++
  previous_block_hash h ++ merkle_root h ++ state_root h ++
  to_le_bytes 8 (timestamp h) ++ to_le_bytes 4 (difficulty_target h) ++
  to_le_bytes 8 (nonce h).

#[export] Instance sample_primitives : Primitives := {|
  blake3 := sample_hash 32 1;
  sha1 := sample_hash 20 2;
  sha256 := sample_hash 32 3;
  ripemd160 := sample_hash 20 4;
  DalekPublicKey := bytes;
  DalekSignature := bytes;
  public_key_from_bytes b := if len b =? 32 then Some b else None;
  signature_from_bytes b := if len b =? 64 then Some b else None;
  ed25519_verify pk m sig := bool_decide (sig = pk ++ sample_hash 32 1 m);
  bincode_transaction tx := Some (sample_bincode tx);
  bincode_header h := Some (sample_bincode_header h);
  bincode_block b :=
    Some (sample_bincode_header (header b) ++ concat (sample_bincode <$> transactions b));
|}.

#[export] Instance sample_hash_laws : HashLaws sample_primitives.
Proof.
  split; intros m; (split; [apply to_le_bytes_bytes|apply length_to_le_bytes]).
Qed.

(** A sample transaction with one input and one output. *)
Definition sample_input : TxInput :=
  TxInput_from_outpoint (mkOutPoint (replicate 32 7) 0) [] 0 [].

Definition sample_tx : Transaction :=
  Standard 1 [sample_input] [TxOutput_new 1000 [0x51]] 0 10 [].
