(* ===== verification/Merkle.v ===== *)
(** Merkle roots: [Block::calculate_merkle_root*] of
    src/rusty-shared-types/src/lib.rs, [MerkleTree] of
    src/rusty-crypto/src/hash.rs, and [calculate_merkle_root] / [hash_pair] /
    [block_merkle_root] of src/rusty-consensus/src/pow.rs.

    The three implementations are modelled as they are written: the first and
    the third walk [chunks(2)], the second an index that advances by two.  The
    [while level.len() > 1] loops carry the length of the level as fuel; each
    round at least halves it ([merkle_loop_runs]). *)

From Stdlib Require Import ZArith Lia List.
From stdpp Require Import base option list numbers strings sets.
From S2P Require Import Prelude Types Errors Transaction SamplePrimitives.

#[local] Open Scope Z_scope.

(** [for chunk in level.chunks(2)]: a chunk of one element is paired with itself. *)
Fixpoint next_level (pair_hash : Hash -> Hash -> Hash) (level : list Hash) : list Hash :=
  match level with
  | l :: r :: rest => pair_hash l r :: next_level pair_hash rest
  | [l] => [pair_hash l l]
  | [] => []
  end.

Fixpoint merkle_loop {E} (fuel : nat) (step : list Hash -> list Hash) (level : list Hash) :
    outcome E (list Hash) :=
  if len level >? 1 then
    match fuel with
    | O => OutOfFuel
    | S fuel => merkle_loop fuel step (step level)
    end
  else Ok level.

(** ** MerkleTree of rusty-crypto: [while i < current_level.len()] with [i += 2] *)

Fixpoint pair_from (pair_hash : Hash -> Hash -> Hash) (fuel : nat) (level : list Hash) (i : nat) :
    list Hash :=
  match fuel with
  | O => []
  | S fuel =>
      match level !! i with
      | None => []
      | Some l =>
          let r := match level !! (i + 1)%nat with Some r => r | None => l end in
          pair_hash l r :: pair_from pair_hash fuel level (i + 2)
      end
  end.

Definition pair_level (pair_hash : Hash -> Hash -> Hash) (level : list Hash) : list Hash :=
  pair_from pair_hash (length level) level 0.

(** The loop of [MerkleTree::new], which also records every node. *)
Fixpoint merkle_nodes {E} (fuel : nat) (step : list Hash -> list Hash)
    (nodes current_level : list Hash) : outcome E (list Hash) :=
  if len current_level >? 1 then
    match fuel with
    | O => OutOfFuel
    | S fuel =>
        let next := step current_level in
        merkle_nodes fuel step (nodes ++ next) next
    end
  else Ok nodes.

Section WithPrimitives.
  Context `{Primitives}.

Definition combined_hash (l r : Hash) : Hash := blake3 (l ++ r).

Definition calculate_merkle_root_from_hashes {E} (hashes : list Hash) : outcome E Hash :=
  match hashes with
  | [] => Ok (replicate 32 0)
  | [h] => Ok h
  | _ =>
      level ← merkle_loop (length hashes) (next_level combined_hash) hashes;
      unwrap (level !! 0%nat)
  end.

Definition calculate_merkle_root_from_transactions {E} (txs : list Transaction) :
    outcome E Hash :=
  match txs with
  | [] => Ok (replicate 32 0)
  | _ => calculate_merkle_root_from_hashes (tx_hash <$> txs)
  end.

Definition Block_calculate_merkle_root {E} (b : Block) : outcome E Hash :=
  calculate_merkle_root_from_transactions (transactions b).

(** [MerkleTree { nodes }]. *)
Definition MerkleTree_new {E} (data_blocks : list bytes) : outcome E (list Hash) :=
  match data_blocks with
  | [] => Ok []
  | _ =>
      let leaves := blake3 <$> data_blocks in
      merkle_nodes (length leaves) (pair_level combined_hash) leaves leaves
  end.

Definition MerkleTree_root (nodes : list Hash) : option Hash := last nodes.

Definition MerkleTree_calculate_merkle_root {E} (data_blocks : list bytes) :
    outcome E (option Hash) :=
  match data_blocks with
  | [] => Ok None
  | _ =>
      let leaves := blake3 <$> data_blocks in
      level ← merkle_loop (length leaves) (pair_level combined_hash) leaves;
      Ok (head level)
  end.

(** [hash_pair] of the consensus crate hashes twice. *)
Definition hash_pair (l r : Hash) : Hash := blake3 (blake3 (l ++ r)).

Definition pow_calculate_merkle_root {E} (hashes : list Hash) : outcome E Hash :=
  level ← merkle_loop (length hashes) (next_level hash_pair) hashes;
  unwrap (level !! 0%nat).

Definition block_merkle_root (b : Block) : outcome CCE.ConsensusCrateError Hash :=
  tx_hashes ← mapM tx_txid (transactions b);
  if len tx_hashes =? 0 then Err CCE.EmptyBlock
  else pow_calculate_merkle_root tx_hashes.

End WithPrimitives.

(** * The loops terminate *)

(** Two elements at a time. *)
Lemma list_ind_pairs {A} (P : list A -> Prop) :
  P [] -> (forall a, P [a]) -> (forall a b l, P l -> P (a :: b :: l)) -> forall l, P l.
Proof.
  intros H0 H1 H2 l. enough (P l /\ forall a, P (a :: l)) by tauto.
  induction l as [|b l [IH1 IH2]]; [auto|]. split; auto.
Qed.

Lemma next_level_length h l :
  Z.of_nat (length (next_level h l)) = (len l + 1) / 2.
Proof.
  unfold len. induction l as [| |a b l IH] using list_ind_pairs; [done|done|].
  cbn [next_level length]. rewrite !Nat2Z.inj_succ, IH.
  replace (Z.succ (Z.succ (Z.of_nat (length l))) + 1) with (Z.of_nat (length l) + 1 + 1 * 2) by lia.
  rewrite Z.div_add by lia. lia.
Qed.

Lemma next_level_shrinks h l :
  (1 < length l)%nat -> (0 < length (next_level h l) < length l)%nat.
Proof.
  intros Hl. pose proof (next_level_length h l) as H. unfold len in H.
  pose proof (Z.div_lt_upper_bound (Z.of_nat (length l) + 1) 2 (Z.of_nat (length l))).
  pose proof (Z.div_str_pos (Z.of_nat (length l) + 1) 2). lia.
Qed.

(** Every round at least halves the level, so its length is enough fuel and the
    loop ends with a single hash. *)
Lemma merkle_loop_runs {E} h fuel l :
  (length l <= fuel)%nat -> l <> [] ->
  exists r, merkle_loop (E := E) fuel (next_level h) l = Ok [r].
Proof.
  revert l. induction fuel as [|fuel IH]; intros l Hf Hn.
  - destruct l; [done|]. simpl in Hf. lia.
  - destruct l as [|a [|b l]]; [done|by exists a|].
    cbn [merkle_loop]. destruct (Z.gtb_spec (len (a :: b :: l)) 1) as [_|Hc];
      [|unfold len in Hc; simpl in Hc; lia].
    pose proof (next_level_shrinks h (a :: b :: l) ltac:(simpl; lia)). apply IH; [simpl in *; lia|done].
Qed.

Lemma merkle_loop_step {E} h fuel l :
  (1 < length l)%nat ->
  merkle_loop (E := E) (S fuel) (next_level h) l = merkle_loop fuel (next_level h) (next_level h l).
Proof.
  intros Hl. cbn [merkle_loop].
  by destruct (Z.gtb_spec (len l) 1) as [_|Hc]; [|unfold len in Hc; lia].
Qed.

(** More fuel than the length does not change the result. *)
Lemma merkle_loop_fuel {E} h fuel fuel' l :
  (length l <= fuel)%nat -> (length l <= fuel')%nat ->
  merkle_loop (E := E) fuel (next_level h) l = merkle_loop fuel' (next_level h) l.
Proof.
  revert fuel' l. induction fuel as [|fuel IH]; intros fuel' l Hf Hf'.
  - destruct l; [|simpl in Hf; lia]. by destruct fuel'.
  - destruct (decide (1 < length l)%nat) as [Hl|Hl].
    + destruct fuel' as [|fuel']; [lia|]. rewrite !merkle_loop_step by done.
      pose proof (next_level_shrinks h l Hl). apply IH; lia.
    + destruct l as [|a [|b l]]; [by destruct fuel'|by destruct fuel'|simpl in Hl; lia].
Qed.

(** * The index loop computes the same level *)

Lemma pair_from_spec h fuel pre l :
  (length l <= fuel)%nat -> pair_from h fuel (pre ++ l) (length pre) = next_level h l.
Proof.
  revert fuel pre. induction l as [|a|a b l IH] using list_ind_pairs; intros fuel pre Hf.
  - destruct fuel; [done|]. cbn [pair_from].
    by rewrite (proj2 (lookup_ge_None (pre ++ []) (length pre))) by (rewrite length_app; simpl; lia).
  - destruct fuel; [simpl in Hf; lia|]. cbn [pair_from].
    rewrite lookup_app_r, Nat.sub_diag by lia. cbn [lookup list_lookup].
    rewrite (proj2 (lookup_ge_None (pre ++ [a]) (length pre + 1)))
      by (rewrite length_app; simpl; lia).
    destruct fuel; [done|]. cbn [pair_from].
    by rewrite (proj2 (lookup_ge_None (pre ++ [a]) (length pre + 2)))
      by (rewrite length_app; simpl; lia).
  - destruct fuel as [|[|fuel]]; [simpl in Hf; lia|simpl in Hf; lia|].
    cbn [pair_from].
    rewrite lookup_app_r, Nat.sub_diag by lia. cbn [lookup list_lookup].
    rewrite lookup_app_r by lia. replace (length pre + 1 - length pre)%nat with 1%nat by lia.
    cbn [lookup list_lookup next_level]. f_equal.
    specialize (IH (S fuel) (pre ++ [a; b])). rewrite length_app in IH. cbn [length] in IH.
    rewrite <- app_assoc in IH. apply IH. simpl in Hf. lia.
Qed.

Lemma pair_level_next h l : pair_level h l = next_level h l.
Proof. apply (pair_from_spec h (length l) []). done. Qed.

(** * The hashes a root depends on *)

(** The pairs hashed while reducing a level, and on the way to the root. *)
Fixpoint level_pairs (l : list Hash) : list (Hash * Hash) :=
  match l with
  | a :: b :: rest => (a, b) :: level_pairs rest
  | [a] => [(a, a)]
  | [] => []
  end.

Fixpoint tree_pairs (fuel : nat) (h : Hash -> Hash -> Hash) (l : list Hash) : list (Hash * Hash) :=
  match fuel with
  | O => []
  | S fuel =>
      if len l >? 1 then level_pairs l ++ tree_pairs fuel h (next_level h l) else []
  end.

(** The pair hash has no collision among the given pairs. *)
Definition collision_free (h : Hash -> Hash -> Hash) (ps : list (Hash * Hash)) : Prop :=
  forall p q, p ∈ ps -> q ∈ ps -> h p.1 p.2 = h q.1 q.2 -> p = q.

Lemma collision_free_incl h ps qs :
  (forall p, p ∈ qs -> p ∈ ps) -> collision_free h ps -> collision_free h qs.
Proof. intros Hi Hc p q Hp Hq. apply Hc; auto. Qed.

Lemma next_level_inj h l1 l2 :
  length l1 = length l2 -> collision_free h (level_pairs l1 ++ level_pairs l2) ->
  next_level h l1 = next_level h l2 -> l1 = l2.
Proof.
  revert l2. induction l1 as [|a|a b l1 IH] using list_ind_pairs; intros l2 Hlen Hc Heq.
  - by destruct l2.
  - destruct l2 as [|c [|]]; try done. injection Heq as Heq.
    assert ((a, a) = (c, c)) as [=]; [|by subst]. apply Hc; cbn; set_solver.
  - destruct l2 as [|c [|d l2]]; try done. injection Heq as Hh Heq.
    assert ((a, b) = (c, d)) as [=]; [apply Hc; cbn; set_solver|]. subst. do 2 f_equal.
    apply IH; [by injection Hlen| |done].
    eapply collision_free_incl; [|exact Hc]. cbn. set_solver.
Qed.

Lemma merkle_loop_inj {E} h fuel l1 l2 r :
  length l1 = length l2 ->
  collision_free h (tree_pairs fuel h l1 ++ tree_pairs fuel h l2) ->
  merkle_loop (E := E) fuel (next_level h) l1 = Ok [r] ->
  merkle_loop (E := E) fuel (next_level h) l2 = Ok [r] -> l1 = l2.
Proof.
  revert l1 l2. induction fuel as [|fuel IH]; intros l1 l2 Hlen Hc; cbn [merkle_loop];
    assert (Hl : len l1 = len l2) by (unfold len; by rewrite Hlen).
  - rewrite Hl. destruct (len l2 >? 1); [done|]. congruence.
  - cbn [tree_pairs] in Hc. rewrite Hl in *. destruct (len l2 >? 1); [|congruence].
    intros H1 H2. apply (next_level_inj h); [done| |].
    + eapply collision_free_incl; [|exact Hc]. set_solver.
    + apply IH; [|eapply collision_free_incl; [|exact Hc]; set_solver|done|done].
      apply Nat2Z.inj. by rewrite !next_level_length, Hl.
Qed.

(** The loop that also records the nodes ends with the root as last node. *)
Lemma merkle_nodes_last {E} h fuel pre l r :
  merkle_loop (E := E) fuel (next_level h) l = Ok [r] ->
  exists nodes, merkle_nodes (E := E) fuel (pair_level h) (pre ++ l) l = Ok nodes /\
                last nodes = Some r.
Proof.
  revert pre l. induction fuel as [|fuel IH]; intros pre l; cbn [merkle_loop merkle_nodes];
    destruct (len l >? 1); try done.
  - intros [= ->]. eexists. split; [done|]. by rewrite last_snoc.
  - rewrite pair_level_next. intros Hr. by apply IH.
  - intros [= ->]. eexists. split; [done|]. by rewrite last_snoc.
Qed.

Lemma pair_loop_next {E} h fuel l :
  merkle_loop (E := E) fuel (pair_level h) l = merkle_loop fuel (next_level h) l.
Proof.
  revert l. induction fuel as [|fuel IH]; intros l; [done|]. cbn [merkle_loop].
  destruct (len l >? 1); [|done]. by rewrite pair_level_next.
Qed.

Section Theorems.
  Context `{Primitives}.

Lemma from_hashes_loop {E} l :
  l <> [] ->
  calculate_merkle_root_from_hashes (E := E) l =
  (level ← merkle_loop (length l) (next_level combined_hash) l; unwrap (level !! 0%nat)).
Proof. by destruct l as [|a [|b l]]. Qed.

(** The implementations agree: for every non-empty list of data blocks,
    the root of the tree [MerkleTree::new] builds, the root
    [MerkleTree::calculate_merkle_root] computes without a tree, and
    [Block::calculate_merkle_root_from_hashes] of the leaf hashes all succeed
    with the same hash. *)
Theorem merkle_implementations_agree (E : Type) (blocks : list bytes) :
  blocks <> [] ->
  exists r nodes,
    MerkleTree_new (E := E) blocks = Ok nodes /\ MerkleTree_root nodes = Some r /\
    MerkleTree_calculate_merkle_root (E := E) blocks = Ok (Some r) /\
    calculate_merkle_root_from_hashes (E := E) (blake3 <$> blocks) = Ok r.
Proof.
  intros Hb. assert (Hn : blake3 <$> blocks <> []) by (by destruct blocks).
  destruct (merkle_loop_runs (E := E) combined_hash (length (blake3 <$> blocks)) _ (le_n _) Hn)
    as [r Hr].
  destruct (merkle_nodes_last combined_hash _ [] _ r Hr) as (nodes & Hnodes & Hlast).
  exists r, nodes. split_and!.
  - by destruct blocks.
  - done.
  - unfold MerkleTree_calculate_merkle_root. destruct blocks; [done|].
    rewrite pair_loop_next, Hr. done.
  - rewrite from_hashes_loop by done. by rewrite Hr.
Qed.

(** C21. The root binds the transactions of a block: two lists of the
    same length with the same root are equal, unless the pair hash collides on
    two of the pairs hashed for them.  Holds for the single hash of
    rusty-shared-types and for the double hash of rusty-consensus. *)
Theorem merkle_root_binding (E : Type) (l1 l2 : list Hash) (r : Hash) :
  length l1 = length l2 -> l1 <> [] ->
  (collision_free combined_hash
     (tree_pairs (length l1) combined_hash l1 ++ tree_pairs (length l1) combined_hash l2) ->
   calculate_merkle_root_from_hashes (E := E) l1 = Ok r ->
   calculate_merkle_root_from_hashes (E := E) l2 = Ok r -> l1 = l2) /\
  (collision_free hash_pair
     (tree_pairs (length l1) hash_pair l1 ++ tree_pairs (length l1) hash_pair l2) ->
   pow_calculate_merkle_root (E := E) l1 = Ok r ->
   pow_calculate_merkle_root (E := E) l2 = Ok r -> l1 = l2).
Proof.
  intros Hlen Hn. assert (Hn2 : l2 <> []) by (by destruct l1, l2).
  assert (Hg : forall h, collision_free h (tree_pairs (length l1) h l1 ++ tree_pairs (length l1) h l2) ->
    (level ← merkle_loop (E := E) (length l1) (next_level h) l1; unwrap (level !! 0%nat)) = Ok r ->
    (level ← merkle_loop (E := E) (length l1) (next_level h) l2; unwrap (level !! 0%nat)) = Ok r ->
    l1 = l2).
  { intros h Hc.
    destruct (merkle_loop_runs (E := E) h (length l1) l1 (le_n _) Hn) as [r1 Hr1].
    destruct (merkle_loop_runs (E := E) h (length l1) l2 ltac:(lia) Hn2) as [r2 Hr2].
    rewrite Hr1, Hr2. intros [= ->] [= ->]. by eapply merkle_loop_inj. }
  rewrite !from_hashes_loop by done. unfold pow_calculate_merkle_root. rewrite <- Hlen.
  split; apply Hg.
Qed.

Lemma next_level_dup h l x :
  Nat.Even (length l) -> next_level h (l ++ [x]) = next_level h (l ++ [x; x]).
Proof.
  induction l as [|a|a b l IH] using list_ind_pairs; intros Hev; [done| |].
  - destruct Hev as [k Hk]. simpl in Hk. lia.
  - cbn [app next_level]. f_equal. apply IH. destruct Hev as [k Hk]. exists (k - 1)%nat.
    simpl in Hk. lia.
Qed.

(** The root does not bind the number of transactions: repeating the last
    of an odd number of at least three hashes leaves the root unchanged, in
    all implementations, so a block and its mutated copy share a merkle root. *)
Theorem merkle_duplicate_last (E : Type) (l : list Hash) (x : Hash) :
  l <> [] -> Nat.Even (length l) ->
  calculate_merkle_root_from_hashes (E := E) (l ++ [x; x]) =
    calculate_merkle_root_from_hashes (E := E) (l ++ [x]) /\
  pow_calculate_merkle_root (E := E) (l ++ [x; x]) = pow_calculate_merkle_root (E := E) (l ++ [x]).
Proof.
  intros Hl Hev.
  assert (Hg : forall h, merkle_loop (E := E) (length (l ++ [x; x])) (next_level h) (l ++ [x; x]) =
    merkle_loop (E := E) (length (l ++ [x])) (next_level h) (l ++ [x])).
  { intros h. rewrite (merkle_loop_fuel h (length (l ++ [x])) (length (l ++ [x; x])));
      [|done|rewrite !length_app; simpl; lia].
    assert (0 < length l)%nat by (destruct l; [done|simpl; lia]).
    rewrite !length_app. cbn [length]. rewrite !Nat.add_succ_r.
    rewrite (merkle_loop_step h _ (l ++ [x])), (merkle_loop_step h _ (l ++ [x; x]))
      by (rewrite length_app; simpl; lia). by rewrite next_level_dup. }
  rewrite !from_hashes_loop by (by destruct l). unfold pow_calculate_merkle_root.
  by rewrite !Hg.
Qed.

(** The two crates compute different roots: rusty-consensus hashes each pair
    twice, rusty-shared-types once. *)
Lemma roots_of_two_hashes (E : Type) (a b : Hash) :
  calculate_merkle_root_from_hashes (E := E) [a; b] = Ok (blake3 (a ++ b)) /\
  pow_calculate_merkle_root (E := E) [a; b] = Ok (blake3 (blake3 (a ++ b))).
Proof. done. Qed.

End Theorems.

(** * Witnesses *)

Lemma merkle_implementations_agree_witness :
  exists r nodes,
    MerkleTree_new (E := unit) [[1]; [2]; [3]] = Ok nodes /\ MerkleTree_root nodes = Some r /\
    MerkleTree_calculate_merkle_root (E := unit) [[1]; [2]; [3]] = Ok (Some r) /\
    calculate_merkle_root_from_hashes (E := unit) (blake3 <$> [[1]; [2]; [3]]) = Ok r.
Proof. apply (merkle_implementations_agree unit [[1]; [2]; [3]]). discriminate. Defined.

Lemma merkle_root_binding_witness :
  collision_free combined_hash
    (tree_pairs 2 combined_hash [[1]; [2]] ++ tree_pairs 2 combined_hash [[1]; [2]]) /\
  ([[1]; [2]] : list Hash) = [[1]; [2]].
Proof.
  assert (Hc : collision_free combined_hash
    (tree_pairs 2 combined_hash [[1]; [2]] ++ tree_pairs 2 combined_hash [[1]; [2]])).
  { intros p q Hp Hq _. revert p q Hp Hq.
    change (tree_pairs 2 combined_hash [[1]; [2]]) with [([1], [2]) : Hash * Hash].
    set_solver. }
  split; [exact Hc|].
  assert (Hr : calculate_merkle_root_from_hashes (E := unit) [[1]; [2]] = Ok (combined_hash [1] [2]))
    by (vm_compute; reflexivity).
  destruct (merkle_root_binding unit [[1]; [2]] [[1]; [2]] (combined_hash [1] [2]))
    as [Hb _]; [reflexivity|discriminate|]. exact (Hb Hc Hr Hr).
Defined.

Lemma merkle_duplicate_last_witness :
  calculate_merkle_root_from_hashes (E := unit) [[1]; [2]; [3]; [3]] =
    calculate_merkle_root_from_hashes (E := unit) [[1]; [2]; [3]].
Proof.
  apply (merkle_duplicate_last unit [[1]; [2]] [3]); [discriminate|]. by exists 1%nat.
Defined.
