(* ===== verification/OxideHash.v ===== *)
(** The OxideHash proof-of-work functions: [OxideHasher::calculate_oxide_hash] of
    src/rusty-crypto/src/hash.rs and [calculate_hash] of
    src/rusty-core/src/consensus/pow.rs.

    The scratchpad is the mutable state.  Both functions are parameterised by
    the scratchpad size and the iteration count, so that they can be run on
    small values; the source's constants are [SCRATCHPAD_SIZE] and
    [ITERATIONS_PER_HASH].  Slices out of range and [copy_from_slice] of unequal
    lengths panic. *)

From Stdlib Require Import ZArith Lia List.
From stdpp Require Import base option list numbers strings.
From S2P Require Import Prelude Types Transaction SamplePrimitives.

#[local] Open Scope Z_scope.

Definition SCRATCHPAD_SIZE : Z := 1073741824.
Definition ITERATIONS_PER_HASH : Z := 1048576.

(** [dst[a..a + src.len()].copy_from_slice(src)] *)
Definition copy_from_slice (dst : bytes) (a : Z) (src : bytes) : option bytes :=
  if (0 <=? a) && (a + len src <=? len dst)
  then Some (take (Z.to_nat a) dst ++ src ++ drop (Z.to_nat (a + len src)) dst)
  else None.

(** The scratchpad and [current_state_hash] (or the running seed). *)
Abbreviation padM := (stM (bytes * Hash) Empty_set).

Definition write_pad (a : Z) (src : bytes) : padM unit := fun '(pad, cur) =>
  match copy_from_slice pad a src with
  | Some pad => ((pad, cur), Ok tt)
  | None => ((pad, cur), Panic)
  end.

Definition set_cur (h : Hash) : padM unit := modify (fun '(pad, _) => (pad, h)).

Definition xor_bytes (a b : bytes) : bytes := zip_with Z.lxor a b.

(** The offsets of [(0..size).step_by(32)]. *)
Definition offsets (size : Z) : list Z :=
  (fun j => 32 * Z.of_nat j) <$> seq 0 (Z.to_nat (size / 32)).

Definition iterations (n : Z) : list Z := Z.of_nat <$> seq 0 (Z.to_nat n).

Section WithPrimitives.
  Context `{Primitives}.

(** The address derived from a hash: its first eight bytes modulo [size - 32].
    A [size] of 32 would divide by zero. *)
Definition pad_address (size : Z) (seed : Hash) : outcome Empty_set Z :=
  first ← unwrap (slice seed 0 8);
  if size - 32 =? 0 then Panic else mret (from_le_bytes first mod (size - 32)).

(** One read/compute/write round; [read_index] and [write_index] are the two
    encodings of the round number that are hashed into the addresses. *)
Definition oxide_round (size : Z) (read_index write_index : bytes) : padM unit :=
  cur ← gets snd;
  read_address ← lift (pad_address size (blake3 (cur ++ read_index)));
  pad ← gets fst;
  read_data ← lift (unwrap (slice pad read_address (read_address + 32)));
  let cur := blake3 (xor_bytes cur read_data) in
  set_cur cur;;
  write_address ← lift (pad_address size (blake3 (cur ++ write_index)));
  write_pad write_address cur.

(** ** rusty-crypto *)

Definition init_scratchpad (size : Z) (initial_seed : Hash) : padM unit :=
  for_each (offsets size) (fun i =>
    write_pad i (blake3 (initial_seed ++ to_le_bytes 4 (wrap32 i)))).

Definition oxide_iterations (size iters : Z) : padM unit :=
  for_each (iterations iters) (fun i =>
    oxide_round size (to_le_bytes 4 i) (to_le_bytes 4 (u32_max - i))).

Definition oxide_hash (size iters : Z) (header_bytes : bytes) (nonce : Z) : padM Hash :=
  let initial_seed := blake3 header_bytes in
  init_scratchpad size initial_seed;;
  set_cur initial_seed;;
  oxide_iterations size iters;;
  pad ← gets fst;
  cur ← gets snd;
  first ← lift (unwrap (slice pad 0 32));
  rest ← lift (unwrap (slice pad 32 size));
  mret (blake3 (first ++ cur ++ rest ++ to_le_bytes 8 nonce)).

(** [calculate_oxide_hash(&mut self, ..)]: the struct is its scratchpad. *)
Definition calculate_oxide_hash (pad : bytes) (header_bytes : bytes) (nonce : Z) :
    bytes * outcome Empty_set Hash :=
  let '((pad, _), r) := oxide_hash SCRATCHPAD_SIZE ITERATIONS_PER_HASH header_bytes nonce (pad, []) in
  (pad, r).

(** [OxideHasher::new]. *)
Definition OxideHasher_new : bytes := replicate (Z.to_nat SCRATCHPAD_SIZE) 0.

(** ** rusty-core *)

(** The seed of each block of the scratchpad is the previous block. *)
Definition core_init_scratchpad (size : Z) : padM unit :=
  for_each (offsets size) (fun i =>
    seed ← gets snd;
    let hash_output := blake3 (seed ++ to_le_bytes 8 i) in
    write_pad i hash_output;;
    set_cur hash_output).

Definition core_iterations (size iters : Z) : padM unit :=
  for_each (iterations iters) (fun i =>
    oxide_round size (to_le_bytes 8 i) (to_le_bytes 4 (Z.lxor (wrap32 i) 0xFFFFFFFF))).

Definition core_hash (size iters : Z) (initial_seed : Hash) : padM Hash :=
  set_cur initial_seed;;
  core_init_scratchpad size;;
  set_cur initial_seed;;
  core_iterations size iters;;
  pad ← gets fst;
  cur ← gets snd;
  first ← lift (unwrap (slice pad 0 32));
  last ← lift (unwrap (slice pad (size - 32) size));
  mret (blake3 (first ++ cur ++ last)).

Definition calculate_hash (header : BlockHeader) : outcome Empty_set Hash :=
  initial_seed ← header_hash header;
  snd (core_hash SCRATCHPAD_SIZE ITERATIONS_PER_HASH initial_seed
         (replicate (Z.to_nat SCRATCHPAD_SIZE) 0, [])).

End WithPrimitives.

(** * The scratchpad accesses are in range *)

Section Safety.
  Context `{HashLaws}.
  Variable size : Z.
  Hypothesis Hsize : 32 < size.

(** The scratchpad keeps its size and the state hash its 32 bytes. *)
Definition pad_inv (s : bytes * Hash) : Prop := len s.1 = size /\ len s.2 = 32.

Lemma len_blake3 m : len (blake3 m) = 32.
Proof. unfold len. by rewrite (proj2 (blake3_out m)). Qed.

Lemma copy_from_slice_some dst a src :
  0 <= a -> a + len src <= len dst ->
  exists dst', copy_from_slice dst a src = Some dst' /\ len dst' = len dst /\
    dst' = take (Z.to_nat a) dst ++ src ++ drop (Z.to_nat (a + len src)) dst.
Proof.
  intros Ha Hl. unfold copy_from_slice.
  destruct (Z.leb_spec 0 a), (Z.leb_spec (a + len src) (len dst)); try lia.
  eexists. split_and!; [done| |done]. rewrite !len_app. unfold len in *.
  rewrite length_take, length_drop. lia.
Qed.

Lemma pad_address_range seed :
  len seed = 32 -> exists a, pad_address size seed = Ok a /\ 0 <= a < size - 32.
Proof.
  intros Hs. unfold pad_address. rewrite slice_some by lia. cbn [unwrap mbind outcome_bind].
  destruct (Z.eqb_spec (size - 32) 0); [lia|]. eexists. split; [done|].
  apply Z.mod_pos_bound. lia.
Qed.

Lemma write_pad_ok a src s :
  pad_inv s -> 0 <= a -> a + len src <= size ->
  exists s', write_pad a src s = (s', Ok tt) /\ pad_inv s' /\ s'.2 = s.2 /\
    s'.1 = take (Z.to_nat a) s.1 ++ src ++ drop (Z.to_nat (a + len src)) s.1.
Proof.
  destruct s as [pad cur]. intros [Hp Hc] Ha Hl. cbn in *. unfold write_pad.
  destruct (copy_from_slice_some pad a src) as (pad' & -> & Hlen & ->); [done|lia|].
  eexists. split; [done|]. cbn. split_and!; try done. split; cbn; [lia|done].
Qed.

Lemma oxide_round_ok ri wi s :
  pad_inv s -> exists s', oxide_round size ri wi s = (s', Ok tt) /\ pad_inv s'.
Proof.
  destruct s as [pad cur]. intros [Hp Hc]. cbn in Hp, Hc. unfold oxide_round.
  rewrite stM_bind_run. cbn [gets snd]. rewrite stM_bind_run. cbn [lift].
  destruct (pad_address_range (blake3 (cur ++ ri))) as (a & -> & Ha); [apply len_blake3|].
  rewrite stM_bind_run. cbn [gets fst]. rewrite stM_bind_run. cbn [lift].
  rewrite slice_some by lia. cbn [unwrap]. rewrite stM_bind_run. cbn [set_cur modify].
  rewrite stM_bind_run. cbn [lift].
  edestruct pad_address_range as (b & -> & Hb); [apply len_blake3|].
  edestruct (write_pad_ok b) as (s' & Hs' & Hi & _); [| | |eexists; split; [exact Hs'|exact Hi]].
  - split; [done|apply len_blake3].
  - lia.
  - rewrite len_blake3. lia.
Qed.

Lemma rounds_ok iters (ri wi : Z -> bytes) s :
  pad_inv s ->
  exists s', for_each (iterations iters) (fun i => oxide_round size (ri i) (wi i)) s = (s', Ok tt) /\
             pad_inv s'.
Proof.
  intros Hs. apply for_each_inv; [|done]. apply Forall_forall. intros i _ s1 Hs1.
  by apply oxide_round_ok.
Qed.

Lemma offsets_range i : i ∈ offsets size -> 0 <= i /\ i + 32 <= size.
Proof.
  unfold offsets. intros (j & -> & Hj%elem_of_seq)%list_elem_of_fmap.
  pose proof (Z.mul_div_le size 32 ltac:(lia)). lia.
Qed.

(** ** The initial fill overwrites the whole scratchpad *)

Lemma fill_prefix (block : Z -> bytes) (n : nat) pad cur :
  (forall i, len (block i) = 32) -> len pad = size -> 32 * Z.of_nat n <= size ->
  for_each ((fun j => 32 * Z.of_nat j) <$> seq 0 n) (fun i => write_pad i (block i)) (pad, cur) =
  ((concat ((fun j => block (32 * Z.of_nat j)) <$> seq 0 n) ++ drop (32 * n) pad, cur), Ok tt).
Proof.
  intros Hb Hp. induction n as [|n IH]; intros Hn; [done|].
  rewrite seq_S, !fmap_app, for_each_app, stM_bind_run, IH by lia. cbn [fmap list_fmap for_each].
  rewrite Nat.add_0_l, stM_bind_run. unfold write_pad.
  set (filled := concat _).
  assert (Hf : length filled = (32 * n)%nat).
  { unfold filled. clear IH filled. induction n as [|n IH]; [done|].
    rewrite seq_S, fmap_app, concat_app, length_app, IH by lia. cbn [fmap list_fmap concat].
    rewrite app_nil_r. specialize (Hb (32 * Z.of_nat (0 + n))). unfold len in Hb. lia. }
  unfold copy_from_slice. rewrite Hb, len_app.
  destruct (Z.leb_spec 0 (32 * Z.of_nat n)); [|lia].
  destruct (Z.leb_spec (32 * Z.of_nat n + 32) (len filled + len (drop (32 * n) pad))) as [_|Hc];
    [|unfold len in *; rewrite length_drop in Hc; lia].
  cbn [andb]. unfold mret, stM_ret. do 2 f_equal. rewrite concat_app. cbn [concat].
  rewrite app_nil_r, take_app_length', drop_app_ge, drop_drop by lia.
  rewrite <- app_assoc. do 3 f_equal. lia.
Qed.

Lemma init_scratchpad_run seed pad cur :
  size mod 32 = 0 -> len pad = size ->
  init_scratchpad size seed (pad, cur) =
  ((concat ((fun j => blake3 (seed ++ to_le_bytes 4 (wrap32 (32 * Z.of_nat j))))
              <$> seq 0 (Z.to_nat (size / 32))), cur), Ok tt).
Proof.
  intros Hm Hp. unfold init_scratchpad, offsets.
  pose proof (Z.div_mod size 32 ltac:(lia)). pose proof (Z.div_pos size 32 ltac:(lia) ltac:(lia)).
  rewrite (fill_prefix (fun i => blake3 (seed ++ to_le_bytes 4 (wrap32 i))));
    [|intros; apply len_blake3|done|lia].
  rewrite drop_ge by (unfold len in Hp; lia). by rewrite app_nil_r.
Qed.

End Safety.

Section Theorems.
  Context `{HashLaws}.

(** The nonce-independent part of [oxide_hash]. *)
Lemma oxide_hash_prefix size iters header_bytes :
  32 < size -> size mod 32 = 0 ->
  exists prefix, len prefix = size + 32 /\
  forall pad cur nonce, len pad = size ->
  exists s', oxide_hash size iters header_bytes nonce (pad, cur) =
    (s', Ok (blake3 (prefix ++ to_le_bytes 8 nonce))) /\ len s'.1 = size.
Proof.
  intros Hs Hm. unfold oxide_hash. set (seed := blake3 header_bytes).
  set (filled := concat ((fun j => blake3 (seed ++ to_le_bytes 4 (wrap32 (32 * Z.of_nat j))))
              <$> seq 0 (Z.to_nat (size / 32)))).
  assert (Hfl : len filled = size).
  { pose proof (for_each_inv (pad_inv size) (offsets size)
      (fun i => write_pad i (blake3 (seed ++ to_le_bytes 4 (wrap32 i))))
      (replicate (Z.to_nat size) 0, blake3 [])) as Hi.
    destruct Hi as ([pad1 cur1] & Hr & Hp1).
    - apply Forall_forall. intros i Hin s1 Hs1.
      pose proof (offsets_range size Hs i Hin).
      destruct (write_pad_ok size i (blake3 (seed ++ to_le_bytes 4 (wrap32 i))) s1 Hs1)
        as (s2 & ? & ? & _); [lia|rewrite len_blake3; lia|]. eauto.
    - split; cbn [fst snd]; [unfold len; rewrite length_replicate; lia|apply len_blake3].
    - fold (init_scratchpad size seed) in Hr.
      rewrite (init_scratchpad_run size Hs) in Hr; [|done|unfold len; rewrite length_replicate; lia].
      injection Hr as <- _. apply Hp1. }
  destruct (rounds_ok size Hs iters (to_le_bytes 4) (fun i => to_le_bytes 4 (u32_max - i))
    (filled, seed)) as ([pad1 cur1] & Hr & Hp1 & Hc1); [split; [done|apply len_blake3]|].
  cbn [fst snd] in Hp1, Hc1.
  exists (take 32 pad1 ++ cur1 ++ drop 32 pad1). split.
  { rewrite !len_app. unfold len in *. rewrite length_take, length_drop. lia. }
  intros pad cur nonce Hp. exists (pad1, cur1). split; [|done].
  rewrite stM_bind_run, (init_scratchpad_run size Hs) by done.
  rewrite stM_bind_run. cbn [set_cur modify]. rewrite stM_bind_run.
  unfold oxide_iterations. fold filled seed. rewrite Hr.
  rewrite !stM_bind_run. cbn [gets fst snd]. rewrite !stM_bind_run. cbn [gets fst snd lift].
  rewrite !stM_bind_run. cbn [lift]. rewrite slice_some by lia. cbn [unwrap].
  rewrite stM_bind_run. cbn [lift]. rewrite slice_some by lia. cbn [unwrap mret stM_ret].
  rewrite !drop_0, <- !app_assoc. change (Z.to_nat (32 - 0)) with 32%nat.
  change (Z.to_nat 32) with 32%nat.
  rewrite (take_ge (drop 32 pad1)) by (rewrite length_drop; unfold len in Hp1; lia). done.
Qed.

(** OxideHash terminates without a panic on every header, leaves the hasher
    reusable whatever was in its scratchpad, and its memory-hard part does not
    depend on the nonce: for each header there is one string of 1 GiB + 32
    bytes such that the hash of every nonce is the BLAKE3 hash of that string
    followed by the nonce. *)
Theorem oxide_hash_nonce_factors (header_bytes : bytes) :
  exists prefix, len prefix = SCRATCHPAD_SIZE + 32 /\
  forall pad nonce, len pad = SCRATCHPAD_SIZE ->
  exists pad', calculate_oxide_hash pad header_bytes nonce =
    (pad', Ok (blake3 (prefix ++ to_le_bytes 8 nonce))) /\ len pad' = SCRATCHPAD_SIZE.
Proof.
  destruct (oxide_hash_prefix SCRATCHPAD_SIZE ITERATIONS_PER_HASH header_bytes)
    as (prefix & Hl & Hp); [unfold SCRATCHPAD_SIZE; lia|vm_compute; reflexivity|].
  exists prefix. split; [exact Hl|]. intros pad nonce Hpad.
  destruct (Hp pad [] nonce Hpad) as ([pad' cur'] & Hr & Hl').
  exists pad'. unfold calculate_oxide_hash. rewrite Hr. split; [reflexivity|exact Hl'].
Qed.

Lemma core_init_ok size s :
  32 < size -> pad_inv size s ->
  exists s', core_init_scratchpad size s = (s', Ok tt) /\ pad_inv size s'.
Proof.
  intros Hs Hi. apply for_each_inv; [|done]. apply Forall_forall. intros i Hin s1 Hs1.
  pose proof (offsets_range size Hs i Hin). rewrite stM_bind_run. cbn [gets].
  rewrite stM_bind_run.
  destruct (write_pad_ok size i (blake3 (s1.2 ++ to_le_bytes 8 i)) s1 Hs1)
    as ([pad2 cur2] & -> & [Hp2 _] & _); [lia|rewrite len_blake3; lia|].
  eexists. split; [reflexivity|]. split; [exact Hp2|apply len_blake3].
Qed.

(** The result is always a BLAKE3 hash. *)
Lemma core_calculate_hash_ok (header : BlockHeader) :
  is_Some (bincode_header header) -> exists m, calculate_hash header = Ok (blake3 m).
Proof.
  intros [b Hb]. unfold calculate_hash, header_hash. rewrite Hb. cbn [unwrap mbind outcome_bind mret outcome_ret].
  assert (Hs : 32 < SCRATCHPAD_SIZE) by (unfold SCRATCHPAD_SIZE; lia).
  generalize dependent SCRATCHPAD_SIZE. intros size Hs. unfold core_hash.
  rewrite stM_bind_run. cbn [set_cur modify]. rewrite stM_bind_run.
  destruct (core_init_ok size (replicate (Z.to_nat size) 0, blake3 b)) as ([pad1 cur1] & -> & [Hp1 _]);
    [done|split; [cbn [fst]; unfold len; rewrite length_replicate; lia|apply len_blake3]|].
  rewrite stM_bind_run. cbn [set_cur modify]. rewrite stM_bind_run. unfold core_iterations.
  destruct (rounds_ok size Hs ITERATIONS_PER_HASH (to_le_bytes 8)
    (fun i => to_le_bytes 4 (Z.lxor (wrap32 i) 0xFFFFFFFF)) (pad1, blake3 b))
    as ([pad2 cur2] & -> & [Hp2 _]); [split; [done|apply len_blake3]|]. cbn [fst] in Hp2.
  rewrite !stM_bind_run. cbn [gets fst snd]. rewrite !stM_bind_run. cbn [gets fst snd lift].
  rewrite !stM_bind_run. cbn [lift]. rewrite slice_some by lia. cbn [unwrap].
  rewrite stM_bind_run. cbn [lift]. rewrite slice_some by lia. cbn [unwrap mret stM_ret snd].
  eexists. reflexivity.
Qed.

(** The proof-of-work hash of rusty-core never panics on a header that
    serializes: every read and write of the scratchpad is in range and the
    result is a 32-byte hash. *)
Theorem core_calculate_hash_safe (header : BlockHeader) :
  is_Some (bincode_header header) ->
  exists h, calculate_hash header = Ok h /\ len h = 32.
Proof.
  intros [m Hm]%core_calculate_hash_ok. exists (blake3 m). split; [done|apply len_blake3].
Qed.

End Theorems.

Lemma core_calculate_hash_safe_witness :
  exists h, calculate_hash (mkBlockHeader 1 0 [] [] [] 0 0 0) = Ok h /\ len h = 32.
Proof. apply core_calculate_hash_safe. by eexists. Defined.

Lemma oxide_hash_nonce_factors_witness :
  exists prefix, len prefix = SCRATCHPAD_SIZE + 32 /\
  exists pad', calculate_oxide_hash OxideHasher_new [1; 2] 7 =
    (pad', Ok (blake3 (prefix ++ to_le_bytes 8 7))) /\ len pad' = SCRATCHPAD_SIZE.
Proof.
  destruct (oxide_hash_nonce_factors [1; 2]) as (prefix & Hl & Hp).
  exists prefix. split; [exact Hl|]. apply (Hp OxideHasher_new 7).
  unfold OxideHasher_new, len. rewrite length_replicate.
  rewrite Z2Nat.id; [reflexivity|unfold SCRATCHPAD_SIZE; lia].
Defined.
