(* ===== verification/F64.v ===== *)
(** IEEE 754 binary64 arithmetic (Rust's [f64]), on the Standard Library's
    [spec_float] with 53 bits of precision: executable and without axioms.

    [f64_of_Z] is [x as f64] of an integer, [f64_lit n d] the literal nearest to
    n/d, and [f64_to_u64] the saturating, truncating cast [x as u64]. *)

From Stdlib Require Import ZArith Lia List SpecFloat.
From stdpp Require Import base option list numbers.
From S2P Require Import Prelude.

#[local] Open Scope Z_scope.

Abbreviation f64 := spec_float.

Definition f64_of_Z (z : Z) : f64 := binary_normalize 53 1024 z 0 false.
Definition f64_add : f64 -> f64 -> f64 := SFadd 53 1024.
Definition f64_sub : f64 -> f64 -> f64 := SFsub 53 1024.
Definition f64_mul : f64 -> f64 -> f64 := SFmul 53 1024.
Definition f64_div : f64 -> f64 -> f64 := SFdiv 53 1024.
Definition f64_lt (a b : f64) : bool := SFltb a b.
Definition f64_gt (a b : f64) : bool := SFltb b a.
Definition f64_ge (a b : f64) : bool := SFleb b a.

Definition f64_is_nan (a : f64) : bool := match a with S754_nan => true | _ => false end.

(** [f64::min] and [f64::max]: a NaN operand is ignored. *)
Definition f64_min (a b : f64) : f64 :=
  if f64_is_nan a then b else if f64_is_nan b then a else if f64_lt b a then b else a.
Definition f64_max (a b : f64) : f64 :=
  if f64_is_nan a then b else if f64_is_nan b then a else if f64_lt a b then b else a.

Definition f64_lit (n d : Z) : f64 := f64_div (f64_of_Z n) (f64_of_Z d).

(** Toward zero; [None] for NaN. *)
Definition f64_trunc (x : f64) : option Z :=
  match x with
  | S754_finite s m e =>
      let a := if 0 <=? e then Zpos m * 2 ^ e else Zpos m / 2 ^ (- e) in
      Some (if s then - a else a)
  | S754_zero _ => Some 0
  | S754_infinity s => Some (if s then - 2 ^ 1024 else 2 ^ 1024)
  | S754_nan => None
  end.

Definition f64_to_u64 (x : f64) : Z :=
  match f64_trunc x with
  | None => 0
  | Some z => Z.max 0 (Z.min u64_max z)
  end.

(** [x.round() as u64]: half away from zero, then the saturating cast. *)
Definition f64_round_to_u64 (x : f64) : Z :=
  match x with
  | S754_finite s m e =>
      let a := if 0 <=? e then Zpos m * 2 ^ e
               else (2 * Zpos m + 2 ^ (- e)) / (2 * 2 ^ (- e)) in
      Z.max 0 (Z.min u64_max (if s then - a else a))
  | _ => f64_to_u64 x
  end.

(** [x.ceil() as u64] *)
Definition f64_ceil_to_u64 (x : f64) : Z :=
  match x with
  | S754_finite s m e =>
      let a := if 0 <=? e then Zpos m * 2 ^ e
               else if s then Zpos m / 2 ^ (- e) else (Zpos m + 2 ^ (- e) - 1) / 2 ^ (- e) in
      Z.max 0 (Z.min u64_max (if s then - a else a))
  | _ => f64_to_u64 x
  end.

Lemma f64_round_to_u64_range x : is_u64 (f64_round_to_u64 x).
Proof.
  destruct x as [| | |s m e]; try done;
    cbv [f64_round_to_u64 f64_to_u64 f64_trunc is_u64]; unfold u64_max; lia.
Qed.

Lemma f64_to_u64_range x : is_u64 (f64_to_u64 x).
Proof. unfold f64_to_u64, is_u64. destruct (f64_trunc x); unfold u64_max; lia. Qed.

(** Literals and casts as the hardware computes them. *)
Example lit_005 : f64_lit 5 100 = S754_finite false 7205759403792794 (-57).
Proof. reflexivity. Qed.

Example mul_price : f64_to_u64 (f64_mul (f64_of_Z 100000000) (f64_lit 105 100)) = 105000000.
Proof. reflexivity. Qed.

(** * Rounding moves a product by less than one unit in the last place *)

Lemma digits2_pos_log2 p : Zpos (digits2_pos p) = Z.log2 (Zpos p) + 1.
Proof.
  induction p as [p IH|p IH|]; [..|done]; cbn [digits2_pos]; rewrite Pos2Z.inj_succ, IH.
  - rewrite (Pos2Z.inj_xI p), Z.log2_succ_double by lia. lia.
  - rewrite (Pos2Z.inj_xO p), Z.log2_double by lia. lia.
Qed.

Lemma digits_unique p d : 2 ^ (d - 1) <= Zpos p < 2 ^ d -> 0 < d -> Zpos (digits2_pos p) = d.
Proof.
  intros Hp Hd. rewrite digits2_pos_log2. rewrite (Z.log2_unique (Zpos p) (d - 1)); [lia|lia|].
  by rewrite Z.sub_1_r, Z.succ_pred, <- Z.sub_1_r.
Qed.

Lemma iter_pos_add {A} (f : A -> A) n x : @SpecFloat.iter_pos A f n x = Nat.iter (Pos.to_nat n) f x.
Proof.
  revert x. induction n as [n IH|n IH|]; intros x; cbn [SpecFloat.iter_pos]; [..|done].
  - rewrite !IH, <- Nat.iter_add. replace (Pos.to_nat n~1) with (Pos.to_nat n + Pos.to_nat n + 1)%nat by lia.
    by rewrite (Nat.iter_add (_ + _) 1).
  - rewrite !IH, <- Nat.iter_add. f_equal. lia.
Qed.

Lemma shr_1_m r : 0 <= shr_m r -> shr_m (shr_1 r) = shr_m r / 2.
Proof.
  destruct r as [[|[p|p|]|p] b s]; cbn; intros H; try done; try lia.
  - rewrite (Pos2Z.inj_xI p), Z.mul_comm. rewrite Z.div_add_l by lia. change (1 / 2) with 0. lia.
  - rewrite (Pos2Z.inj_xO p), Z.mul_comm. by rewrite Z.div_mul by lia.
Qed.

Lemma shr_iter_m n r : 0 <= shr_m r -> shr_m (Nat.iter n shr_1 r) = shr_m r / 2 ^ Z.of_nat n.
Proof.
  intros Hr. induction n as [|n IH]; [cbn; by rewrite Z.div_1_r|].
  change (Nat.iter (S n) shr_1 r) with (shr_1 (Nat.iter n shr_1 r)).
  rewrite shr_1_m; [|rewrite IH; apply Z.div_pos; [done|apply Z.pow_pos_nonneg; lia]].
  rewrite IH, Z.div_div by (try apply Z.pow_nonzero; lia).
  rewrite Nat2Z.inj_succ, Z.pow_succ_r by lia. f_equal. lia.
Qed.

(** Shifting right by [n] divides by [2 ^ n], rounding down. *)
Lemma shr_spec m e l n :
  0 <= m -> 0 <= n ->
  shr_m (fst (shr (shr_record_of_loc m l) e n)) = m / 2 ^ n /\
  snd (shr (shr_record_of_loc m l) e n) = e + n.
Proof.
  intros Hm Hn. assert (Hl : shr_m (shr_record_of_loc m l) = m) by (destruct l as [|[]]; done).
  destruct n as [|p|p]; [cbn|..|lia].
  - rewrite Hl. cbn. rewrite Z.div_1_r. lia.
  - unfold shr. cbn [fst snd]. rewrite iter_pos_add, shr_iter_m by lia.
    by rewrite Hl, positive_nat_Z.
Qed.

Lemma round_nearest_even_bound m l : m <= round_nearest_even m l <= m + 1.
Proof. destruct l as [|[]]; cbn; try lia. destruct (Z.even m); lia. Qed.

(** The exponent [binary_round_aux] shifts to, away from the subnormal range. *)
Lemma fexp_normal d e : -1000 <= d + e -> fexp 53 1024 (d + e) = d + e - 53.
Proof. intros H. unfold fexp, emin. lia. Qed.

Lemma shr_fexp_spec p e d l :
  2 ^ (d - 1) <= Zpos p < 2 ^ d -> 53 <= d -> -1000 <= d + e ->
  shr_m (fst (shr_fexp 53 1024 (Zpos p) e l)) = Zpos p / 2 ^ (d - 53) /\
  snd (shr_fexp 53 1024 (Zpos p) e l) = e + (d - 53).
Proof.
  intros Hp Hd He. unfold shr_fexp. cbn [Zdigits2].
  rewrite (digits_unique p d Hp) by lia. rewrite fexp_normal by lia.
  replace (d + e - 53 - e) with (d - 53) by lia. apply shr_spec; lia.
Qed.

(** A mantissa of [d] bits rounds to within one unit of its 53 leading bits. *)
Lemma round_aux_bound p e d l :
  2 ^ (d - 1) <= Zpos p < 2 ^ d -> 53 <= d -> -900 <= d + e <= 900 ->
  exists r E, binary_round_aux 53 1024 false (Zpos p) e l = S754_finite false r E /\
    (e <= E <= e + d - 52 /\ 2 ^ 52 <= Zpos r < 2 ^ 53) /\
    Zpos p - 2 ^ (d - 53) < Zpos r * 2 ^ (E - e) <= Zpos p + 2 ^ (d - 53).
Proof.
  intros Hp Hd He. destruct (shr_fexp_spec p e d l) as [Hm1 He1]; [done..|lia|].
  unfold binary_round_aux.
  destruct (shr_fexp 53 1024 (Zpos p) e l) as [mrs e1]. cbn [fst snd] in *. subst e1.
  remember (d - 53) as n eqn:Hnd. assert (Hpn : 0 < 2 ^ n) by (apply Z.pow_pos_nonneg; lia).
  pose proof (round_nearest_even_bound (shr_m mrs) (loc_of_shr_record mrs)) as Hr.
  set (r1 := round_nearest_even _ _) in *. rewrite Hm1 in Hr.
  assert (Hm : 2 ^ 52 <= Zpos p / 2 ^ n < 2 ^ 53).
  { split; [apply Z.div_le_lower_bound|apply Z.div_lt_upper_bound]; try done;
      rewrite <- Z.pow_add_r by lia.
    - replace (n + 52) with (d - 1) by lia. lia.
    - replace (n + 53) with d by lia. lia. }
  pose proof (Z.div_mod (Zpos p) (2 ^ n) ltac:(lia)) as Hdm.
  pose proof (Z.mod_pos_bound (Zpos p) (2 ^ n) ltac:(lia)) as Hmb.
  assert (Hval : Zpos p - 2 ^ n < r1 * 2 ^ n <= Zpos p + 2 ^ n) by nia.
  destruct r1 as [|q|q]; [lia| |lia].
  destruct (Z_lt_le_dec (Zpos q) (2 ^ 53)) as [Hq|Hq].
  - destruct (shr_fexp_spec q (e + n) 53 loc_Exact) as [Hm2 He2]; [change (53 - 1) with 52; lia|lia|lia|].
    destruct (shr_fexp 53 1024 (Zpos q) (e + n) loc_Exact) as [mrs2 e2]. cbn [fst snd] in *.
    change (2 ^ (53 - 53)) with 1 in Hm2. rewrite Z.div_1_r in Hm2. rewrite Hm2, He2.
    destruct (Z.leb_spec (e + n + (53 - 53)) (1024 - 53)); [|lia].
    exists q, (e + n + (53 - 53)). split; [done|]. split; [lia|].
    replace (e + n + (53 - 53) - e) with n by lia. done.
  - assert (Zpos q = 2 ^ 53) as Hq53 by lia.
    destruct (shr_fexp_spec q (e + n) 54 loc_Exact) as [Hm2 He2]; [change (54 - 1) with 53; lia|lia|lia|].
    destruct (shr_fexp 53 1024 (Zpos q) (e + n) loc_Exact) as [mrs2 e2]. cbn [fst snd] in *.
    rewrite Hq53 in Hm2. change (2 ^ 53 / 2 ^ (54 - 53)) with (Zpos 4503599627370496) in Hm2.
    rewrite Hm2, He2. destruct (Z.leb_spec (e + n + (54 - 53)) (1024 - 53)); [|lia].
    exists 4503599627370496%positive, (e + n + (54 - 53)). split; [done|]. split; [lia|].
    replace (e + n + (54 - 53) - e) with (n + 1) by lia. rewrite Z.pow_add_r by lia.
    rewrite Hq53 in Hval. lia.
Qed.

Lemma iter_xO_val p k : Zpos (Pos.iter xO p k) = Zpos p * 2 ^ Zpos k.
Proof.
  rewrite Pos2Nat.inj_iter, <- (positive_nat_Z k). induction (Pos.to_nat k) as [|n IH]; [symmetry; apply Z.mul_1_r|].
  transitivity (2 * Zpos (nat_rect (fun _ => positive) p (fun _ => xO) n)); [done|].
  rewrite IH, Nat2Z.inj_succ, Z.pow_succ_r by lia. lia.
Qed.

(** Integers below 2^53 convert exactly. *)
Lemma f64_of_Z_exact n :
  0 < n < 2 ^ 53 ->
  exists m, f64_of_Z n = S754_finite false m (Z.log2 n - 52) /\
    Zpos m = n * 2 ^ (52 - Z.log2 n) /\ 2 ^ 52 <= Zpos m < 2 ^ 53.
Proof.
  intros [Hn Hu]. destruct n as [|p|p]; try lia.
  pose proof (Z.log2_spec (Zpos p) Hn) as Hl. pose proof (Z.log2_nonneg (Zpos p)).
  assert (Hlog : Z.log2 (Zpos p) < 53) by (apply Z.log2_lt_pow2; lia).
  rewrite Z.pow_succ_r in Hl by lia.
  unfold f64_of_Z, binary_normalize, binary_round.
  rewrite digits2_pos_log2, fexp_normal by lia.
  replace (Z.log2 (Zpos p) + 1 + 0 - 53) with (Z.log2 (Zpos p) - 52) by lia.
  assert (Hal : exists m, shl_align p 0 (Z.log2 (Zpos p) - 52) = (m, Z.log2 (Zpos p) - 52) /\
    Zpos m = Zpos p * 2 ^ (52 - Z.log2 (Zpos p))).
  { unfold shl_align. rewrite Z.sub_0_r.
    destruct (Z.log2 (Zpos p) - 52) as [|k|k] eqn:Ek; [|lia|].
    - exists p. split; [f_equal; lia|]. replace (52 - Z.log2 (Zpos p)) with 0 by lia. lia.
    - eexists. split; [done|]. rewrite iter_xO_val. do 2 f_equal. lia. }
  destruct Hal as (m & -> & Hm). exists m.
  assert (Hmb : 2 ^ 52 <= Zpos m < 2 ^ 53).
  { rewrite Hm. set (l := Z.log2 (Zpos p)) in *.
    assert (0 < 2 ^ (52 - l)) by (apply Z.pow_pos_nonneg; lia).
    replace (2 ^ 52) with (2 ^ l * 2 ^ (52 - l)) by (rewrite <- Z.pow_add_r by lia; f_equal; lia).
    replace (2 ^ 53) with (2 * 2 ^ l * 2 ^ (52 - l))
      by (rewrite <- Z.mul_assoc, <- Z.pow_add_r by lia;
          replace (l + (52 - l)) with 52 by lia; done). nia. }
  split; [|done]. unfold binary_round_aux.
  destruct (shr_fexp_spec m (Z.log2 (Zpos p) - 52) 53 loc_Exact) as [Hm1 He1];
    [change (53 - 1) with 52; lia|lia|lia|].
  unfold shr_fexp. cbn [Zdigits2]. rewrite (digits_unique m 53) by (change (53 - 1) with 52; lia).
  rewrite fexp_normal by lia.
  replace (53 + (Z.log2 (Zpos p) - 52) - 53 - (Z.log2 (Zpos p) - 52)) with 0 by lia.
  cbn [shr shr_record_of_loc loc_of_shr_record round_nearest_even shr_m Zdigits2].
  rewrite (digits_unique m 53) by (change (53 - 1) with 52; lia). rewrite fexp_normal by lia.
  replace (53 + (Z.log2 (Zpos p) - 52) - 53 - (Z.log2 (Zpos p) - 52)) with 0 by lia.
  cbn [shr shr_record_of_loc shr_m]. by destruct (Z.leb_spec (Z.log2 (Zpos p) - 52) (1024 - 53)); [|lia].
Qed.

Lemma f64_of_Z_finite n : 0 < n <= u64_max -> exists m e, f64_of_Z n = S754_finite false m e.
Proof.
  unfold u64_max. intros Hn. destruct (Z_lt_le_dec n (2 ^ 53)) as [Hs|Hs].
  - destruct (f64_of_Z_exact n) as (m & E & _); [lia|]. eauto.
  - destruct n as [|p|p]; try lia. pose proof (Z.log2_spec (Zpos p) ltac:(lia)) as Hl.
    assert (53 <= Z.log2 (Zpos p)) by (apply Z.log2_le_pow2; lia).
    assert (Z.log2 (Zpos p) < 64) by (apply Z.log2_lt_pow2; lia).
    destruct (round_aux_bound p 0 (Z.log2 (Zpos p) + 1) loc_Exact) as (r & E & He & _); [|lia|lia|].
    { rewrite Z.add_simpl_r. by rewrite <- Z.add_1_r in Hl. }
    exists r, E. rewrite <- He. unfold f64_of_Z, binary_normalize, binary_round, shl_align.
    rewrite digits2_pos_log2, fexp_normal by lia.
    by destruct (Z.log2 (Zpos p) + 1 + 0 - 53 - 0) eqn:E0; [|..]; try lia.
Qed.

(** A number divided by itself is 1. *)
Lemma f64_div_self m e :
  f64_div (S754_finite false m e) (S754_finite false m e) = S754_finite false 4503599627370496 (-52).
Proof.
  unfold f64_div, SFdiv, SFdiv_core_binary. cbn [xorb]. rewrite !Z.sub_diag.
  change (Z.min (fexp 53 1024 0) 0) with (-53). change (0 - -53) with 53. cbv beta iota zeta.
  assert (E : Z.div_eucl (Z.shiftl (Zpos m) 53) (Zpos m) = (2 ^ 53, 0)).
  { rewrite Z.shiftl_mul_pow2 by lia.
    pose proof (Z.div_mul (2 ^ 53) (Zpos m) ltac:(lia)) as Hd.
    pose proof (Z.mod_mul (2 ^ 53) (Zpos m) ltac:(lia)) as Hm.
    rewrite Z.mul_comm in Hd, Hm. unfold Z.div in Hd. unfold Z.modulo in Hm.
    destruct (Z.div_eucl _ _) as [q r]. congruence. }
  rewrite E. unfold new_location. by destruct (Z.even (Zpos m)).
Qed.

(** The quotient of two positive integers is positive and normal. *)
Lemma f64_div_pos a b :
  0 < a < 2 ^ 53 -> 0 < b < 2 ^ 53 ->
  exists r E, f64_div (f64_of_Z a) (f64_of_Z b) = S754_finite false r E /\
    2 ^ 52 <= Zpos r < 2 ^ 53 /\ -200 <= E <= 100.
Proof.
  intros Ha Hb. destruct (f64_of_Z_exact a Ha) as (m1 & -> & _ & H1).
  destruct (f64_of_Z_exact b Hb) as (m2 & -> & _ & H2).
  assert (La : 0 <= Z.log2 a < 53) by (split; [apply Z.log2_nonneg|apply Z.log2_lt_pow2; lia]).
  assert (Lb : 0 <= Z.log2 b < 53) by (split; [apply Z.log2_nonneg|apply Z.log2_lt_pow2; lia]).
  set (e1 := Z.log2 a - 52) in *. set (e2 := Z.log2 b - 52) in *.
  unfold f64_div, SFdiv, SFdiv_core_binary. cbn [xorb Zdigits2].
  rewrite (digits_unique m1 53), (digits_unique m2 53) by (change (53 - 1) with 52; lia).
  replace (53 + e1 - (53 + e2)) with (e1 - e2) by lia.
  replace (Z.min (fexp 53 1024 (e1 - e2)) (e1 - e2)) with (e1 - e2 - 53) by (unfold fexp, emin; lia).
  replace (e1 - e2 - (e1 - e2 - 53)) with 53 by lia. cbv beta iota zeta.
  rewrite Z.shiftl_mul_pow2 by lia.
  pose proof (Z_div_mod (Zpos m1 * 2 ^ 53) (Zpos m2) ltac:(lia)) as Hdm.
  destruct (Z.div_eucl _ _) as [q r]. destruct Hdm as [Hq Hr].
  assert (Hqb : 2 ^ 52 <= q < 2 ^ 54) by nia. destruct q as [|q|q]; try lia.
  assert (exists d, 2 ^ (d - 1) <= Zpos q < 2 ^ d /\ 53 <= d <= 54) as (d & Hd & Hd').
  { destruct (Z_lt_le_dec (Zpos q) (2 ^ 53)); [exists 53|exists 54]; cbn -[Z.pow]; lia. }
  destruct (round_aux_bound q (e1 - e2 - 53) d (new_location (Zpos m2) r))
    as (x & E & -> & [HE Hx] & _); [done|lia..|]. exists x, E. split_and!; done || lia.
Qed.

(** A positive ratio of integers times a positive integer rounds up to at least
    one. *)
Lemma f64_ceil_ratio_pos a b c :
  0 < a < 2 ^ 53 -> 0 < b < 2 ^ 53 -> 0 < c < 2 ^ 53 ->
  1 <= f64_ceil_to_u64 (f64_mul (f64_div (f64_of_Z a) (f64_of_Z b)) (f64_of_Z c)).
Proof.
  intros Ha Hb Hc. destruct (f64_div_pos a b Ha Hb) as (r & E & -> & Hr & HE).
  destruct (f64_of_Z_exact c Hc) as (m & -> & _ & Hm).
  assert (Lc : 0 <= Z.log2 c < 53) by (split; [apply Z.log2_nonneg|apply Z.log2_lt_pow2; lia]).
  unfold f64_mul, SFmul. cbn [xorb].
  assert (exists d, 2 ^ (d - 1) <= Zpos (r * m) < 2 ^ d /\ 105 <= d <= 106) as (d & Hd & Hd').
  { rewrite Pos2Z.inj_mul. destruct (Z_lt_le_dec (Zpos r * Zpos m) (2 ^ 105)).
    - exists 105. change (2 ^ (105 - 1)) with (2 ^ 52 * 2 ^ 52). split; [nia|lia].
    - exists 106. change (106 - 1) with 105. change (2 ^ 106) with (2 ^ 53 * 2 ^ 53). split; [nia|lia]. }
  destruct (round_aux_bound (r * m) (E + (Z.log2 c - 52)) d loc_Exact) as (x & E' & -> & _); [done|lia..|].
  unfold f64_ceil_to_u64. destruct (Z.leb_spec 0 E') as [H0|H0].
  - assert (0 < 2 ^ E') by (apply Z.pow_pos_nonneg; lia). unfold u64_max. nia.
  - assert (0 < 2 ^ (- E')) by (apply Z.pow_pos_nonneg; lia).
    assert (1 <= (Zpos x + 2 ^ (- E') - 1) / 2 ^ (- E')) by (apply Z.div_le_lower_bound; lia).
    unfold u64_max. lia.
Qed.

(** The product of an integer and a constant of [1/2, 1), as an exact fraction:
    scaled by [2 ^ (53 + k)] it is the exact product to within [2 ^ 53]. *)
Lemma f64_mul_value n mc :
  0 < n < 2 ^ 53 -> 2 ^ 52 <= Zpos mc <= 2 ^ 53 - 2 ->
  exists r E k, f64_mul (f64_of_Z n) (S754_finite false mc (-53)) = S754_finite false r E /\
    0 <= k <= 52 /\ 2 ^ 52 <= n * 2 ^ k < 2 ^ 53 /\ - (53 + k) <= E <= 1 /\
    n * 2 ^ k * Zpos mc - 2 ^ 53 < Zpos r * 2 ^ (E + (53 + k)) <= n * 2 ^ k * Zpos mc + 2 ^ 53.
Proof.
  intros Hn Hc. destruct (f64_of_Z_exact n) as (m & -> & Hm & Hmb); [lia|].
  assert (Hl : 0 <= Z.log2 n < 53)
    by (split; [apply Z.log2_nonneg|apply Z.log2_lt_pow2; lia]).
  unfold f64_mul, SFmul. cbn [xorb].
  assert (Hd : exists d, 2 ^ (d - 1) <= Zpos (m * mc) < 2 ^ d /\ 105 <= d <= 106).
  { rewrite Pos2Z.inj_mul. destruct (Z_lt_le_dec (Zpos m * Zpos mc) (2 ^ 105)).
    - exists 105. change (2 ^ (105 - 1)) with (2 ^ 52 * 2 ^ 52). split; [nia|lia].
    - exists 106. change (106 - 1) with 105. change (2 ^ 106) with (2 ^ 53 * 2 ^ 53). split; [nia|lia]. }
  destruct Hd as (d & Hd & Hd106).
  destruct (round_aux_bound (m * mc) (Z.log2 n - 52 + -53) d loc_Exact) as (r & E & -> & [HE _] & Hr);
    [done|lia|lia|].
  exists r, E, (52 - Z.log2 n). rewrite Pos2Z.inj_mul, Hm in Hr. rewrite Hm in Hmb.
  replace (E - (Z.log2 n - 52 + -53)) with (E + (53 + (52 - Z.log2 n))) in Hr by lia.
  assert (2 ^ (d - 53) <= 2 ^ 53) by (apply Z.pow_le_mono_r; lia).
  split_and!; done || lia.
Qed.

(** The value of the product is at most the integer. *)
Lemma f64_mul_at_most n mc r E :
  0 < n < 2 ^ 53 -> 2 ^ 52 <= Zpos mc <= 2 ^ 53 - 2 ->
  f64_mul (f64_of_Z n) (S754_finite false mc (-53)) = S754_finite false r E ->
  if 0 <=? E then Zpos r * 2 ^ E <= n else Zpos r <= n * 2 ^ (- E).
Proof.
  intros Hn Hc He. destruct (f64_mul_value n mc Hn Hc) as (r' & E' & k & He' & Hk & Hnk & HE & _ & Hr).
  rewrite He in He'. injection He' as <- <-.
  assert (Hup : Zpos r * 2 ^ (E + (53 + k)) <= n * 2 ^ (53 + k))
    by (rewrite (Z.pow_add_r 2 53 k) by lia; nia).
  destruct (Z.leb_spec 0 E) as [H0|H0].
  - rewrite Z.pow_add_r in Hup by lia.
    assert (0 < 2 ^ (53 + k)) by (apply Z.pow_pos_nonneg; lia). nia.
  - replace (2 ^ (53 + k)) with (2 ^ (E + (53 + k)) * 2 ^ (- E)) in Hup
      by (rewrite <- Z.pow_add_r by lia; f_equal; lia).
    assert (0 < 2 ^ (E + (53 + k))) by (apply Z.pow_pos_nonneg; lia). nia.
Qed.

(** Multiplying an integer by a constant of [1/2, 1) never makes it larger. *)
Lemma f64_mul_shrinks n mc :
  0 <= n < 2 ^ 53 -> 2 ^ 52 <= Zpos mc <= 2 ^ 53 - 2 ->
  f64_to_u64 (f64_mul (f64_of_Z n) (S754_finite false mc (-53))) <= n.
Proof.
  intros Hn Hc. destruct (Z.eq_dec n 0) as [->|Hnz]; [done|].
  destruct (f64_mul_value n mc) as (r & E & _ & He & _); [lia|done|].
  pose proof (f64_mul_at_most n mc r E ltac:(lia) Hc He) as Ha. rewrite He.
  unfold f64_to_u64, f64_trunc. destruct (0 <=? E) eqn:HE; [lia|].
  enough (Zpos r / 2 ^ (- E) <= n) by lia. apply Z.leb_gt in HE.
  apply Z.div_le_upper_bound; [apply Z.pow_pos_nonneg; lia|lia].
Qed.

(** Rounding the product to the nearest integer: at most the integer, and within
    two of the exact product. *)
Lemma f64_mul_round n mc :
  0 <= n < 2 ^ 53 -> 2 ^ 52 <= Zpos mc <= 2 ^ 53 - 2 ->
  let x := f64_round_to_u64 (f64_mul (f64_of_Z n) (S754_finite false mc (-53))) in
  0 <= x <= n /\ n * Zpos mc - 2 * 2 ^ 53 < x * 2 ^ 53 < n * Zpos mc + 2 * 2 ^ 53.
Proof.
  intros Hn Hc x. destruct (Z.eq_dec n 0) as [->|Hnz]; [unfold x; cbn; lia|].
  destruct (f64_mul_value n mc) as (r & E & k & He & Hk & Hnk & HE & Hlo & Hhi); [lia|done|].
  pose proof (f64_mul_at_most n mc r E ltac:(lia) Hc He) as Ha.
  subst x. rewrite He. unfold f64_round_to_u64.
  assert (HD : 0 < 2 ^ k) by (apply Z.pow_pos_nonneg; lia).
  assert (H2k : 1 <= 2 ^ k) by lia.
  assert (Hs : 2 ^ (53 + k) = 2 ^ 53 * 2 ^ k) by (apply Z.pow_add_r; lia).
  assert (Hfin : forall a, 0 <= a <= n ->
    2 * (n * 2 ^ k * Zpos mc) - 3 * 2 ^ (53 + k) < 2 * (a * 2 ^ (53 + k)) <=
      2 * (n * 2 ^ k * Zpos mc) + 3 * 2 ^ (53 + k) ->
    0 <= Z.max 0 (Z.min u64_max a) <= n /\
    n * Zpos mc - 2 * 2 ^ 53 < Z.max 0 (Z.min u64_max a) * 2 ^ 53 < n * Zpos mc + 2 * 2 ^ 53).
  { intros a Han Hb. replace (Z.max 0 (Z.min u64_max a)) with a by (unfold u64_max; lia).
    split; [done|]. rewrite Hs in Hb. split; nia. }
  destruct (0 <=? E) eqn:HE0.
  - apply Z.leb_le in HE0. apply Hfin; [split; [|done]; apply Z.mul_nonneg_nonneg; lia|].
    replace (Zpos r * 2 ^ E * 2 ^ (53 + k)) with (Zpos r * 2 ^ (E + (53 + k)))
      by (rewrite (Z.pow_add_r 2 E) by lia; ring). nia.
  - apply Z.leb_gt in HE0. set (Q := 2 ^ (- E)) in *.
    assert (HQ : 0 < Q) by (apply Z.pow_pos_nonneg; lia).
    set (X := 2 ^ (E + (53 + k))) in *.
    assert (HX : 0 < X) by (apply Z.pow_pos_nonneg; lia).
    assert (HQX : 2 ^ (53 + k) = Q * X) by (unfold Q, X; rewrite <- Z.pow_add_r by lia; f_equal; lia).
    pose proof (Z.div_mod (2 * Zpos r + Q) (2 * Q) ltac:(lia)) as Hdm.
    pose proof (Z.mod_pos_bound (2 * Zpos r + Q) (2 * Q) ltac:(lia)) as Hmb.
    set (a := (2 * Zpos r + Q) / (2 * Q)) in *. apply Hfin.
    + split; [apply Z.div_pos; lia|]. apply Z.lt_succ_r, Z.div_lt_upper_bound; nia.
    + assert (HX53 : 2 ^ 53 <= Q * X) by (rewrite <- HQX, Hs; nia).
      rewrite HQX. assert (HrX : 2 * Zpos r * X = 2 * Q * a * X + (2 * Zpos r + Q) mod (2 * Q) * X - Q * X)
        by (rewrite <- Z.mul_add_distr_r, <- Hdm; ring).
      split; nia.
Qed.
