(* ===== verification/AdaptiveBlockSize.v ===== *)
(** The adaptive block size limit (src/rusty-consensus/src/adaptive_block_size.rs):
    a window of recent block sizes, the limit recomputed from their median once
    per period, and the check of a block against the limit. *)

From Stdlib Require Import ZArith Lia List SpecFloat.
From stdpp Require Import base option list numbers strings sorting relations.
From S2P Require Import Prelude Types Errors Transaction SamplePrimitives F64.

#[local] Open Scope Z_scope.

Record AdaptiveBlockSizeParams : Type := mkParams {
  initial_max_block_size_bytes : Z;
  median_calculation_period_blocks : Z;
  block_size_growth_factor_percentage : f64;
  block_size_shrink_factor_percentage : f64;
  absolute_hard_max_block_size_bytes : Z;
  min_max_block_size_bytes : Z;
  sig_ops_byte_cost : Z;
}.

Definition AdaptiveBlockSizeParams_default : AdaptiveBlockSizeParams :=
  mkParams 2000000 2016 (f64_lit 10 100) (f64_lit 5 100) 64000000 1000000 20.

Record AdaptiveBlockSizeCalculator : Type := mkCalculator {
  params : AdaptiveBlockSizeParams;
  block_sizes : list Z;
  current_adaptive_max_size : Z;
}.

Abbreviation Calculator := AdaptiveBlockSizeCalculator.
Abbreviation calcM := (stM Calculator CCE.ConsensusCrateError).

Definition Calculator_new (params : AdaptiveBlockSizeParams) : Calculator :=
  mkCalculator params [] (initial_max_block_size_bytes params).

(** [while self.block_sizes.len() > cap { self.block_sizes.pop_front() }] *)
Fixpoint trim_front (cap : Z) (sizes : list Z) : list Z :=
  match sizes with
  | [] => []
  | _ :: rest => if len sizes >? cap then trim_front cap rest else sizes
  end.

Definition add_block_size (block_size : Z) (c : Calculator) : Calculator :=
  mkCalculator (params c)
    (trim_front (median_calculation_period_blocks (params c)) (block_sizes c ++ [block_size]))
    (current_adaptive_max_size c).

Definition calculate_median_block_size {E} (c : Calculator) : outcome E Z :=
  if len (block_sizes c) =? 0 then Ok (initial_max_block_size_bytes (params c)) else
  let sorted_sizes := merge_sort (≤) (block_sizes c) in
  let n := len sorted_sizes in
  if n mod 2 =? 0 then
    a ← unwrap (index sorted_sizes (n / 2 - 1));
    b ← unwrap (index sorted_sizes (n / 2));
    mret (u64_add a b / 2)
  else unwrap (index sorted_sizes (n / 2)).

Definition calculate_potential_limit (c : Calculator) (median_actual_size : Z) : Z :=
  let current_max := current_adaptive_max_size c in
  let one := f64_of_Z 1 in
  if median_actual_size >? current_max then
    let growth_factor := f64_add one (block_size_growth_factor_percentage (params c)) in
    f64_to_u64 (f64_mul (f64_of_Z median_actual_size) growth_factor)
  else if median_actual_size <? current_max then
    let shrink_factor := f64_sub one (block_size_shrink_factor_percentage (params c)) in
    f64_to_u64 (f64_mul (f64_of_Z median_actual_size) shrink_factor)
  else current_max.

Definition apply_hard_limits (c : Calculator) (potential_limit : Z) : Z :=
  Z.min (Z.max potential_limit (min_max_block_size_bytes (params c)))
    (absolute_hard_max_block_size_bytes (params c)).

Definition set_current (limit : Z) (c : Calculator) : Calculator :=
  mkCalculator (params c) (block_sizes c) limit.

(** [%] by a zero period panics. *)
Definition calculate_adaptive_max_block_size (block_height : Z) : calcM Z := fun c =>
  if block_height =? 0 then (c, Ok (initial_max_block_size_bytes (params c))) else
  if median_calculation_period_blocks (params c) =? 0 then (c, Panic) else
  if negb (block_height mod median_calculation_period_blocks (params c) =? 0)
  then (c, Ok (current_adaptive_max_size c)) else
  (median_actual_size ← lift (calculate_median_block_size c);
   let potential_limit := calculate_potential_limit c median_actual_size in
   let new_adaptive_max_size := apply_hard_limits c potential_limit in
   modify (set_current new_adaptive_max_size);;
   mret new_adaptive_max_size) c.

Definition get_current_adaptive_max_size (c : Calculator) : Z := current_adaptive_max_size c.

Definition calculate_max_sig_ops_per_block {E} (c : Calculator) : outcome E Z :=
  if sig_ops_byte_cost (params c) =? 0 then Panic
  else Ok (current_adaptive_max_size c / sig_ops_byte_cost (params c)).

Definition reset_calculator (c : Calculator) : Calculator :=
  mkCalculator (params c) [] (initial_max_block_size_bytes (params c)).

Record AdaptiveBlockSizeStats : Type := mkStats {
  stats_current_adaptive_max_size : Z;
  stats_median_block_size : Z;
  stats_average_block_size : Z;
  stats_blocks_collected : Z;
  stats_max_sig_ops_per_block : Z;
}.

Definition get_statistics {E} (c : Calculator) : outcome E AdaptiveBlockSizeStats :=
  median ← (if negb (len (block_sizes c) =? 0) then calculate_median_block_size c else Ok 0);
  let average :=
    if negb (len (block_sizes c) =? 0)
    then foldl u64_add 0 (block_sizes c) / len (block_sizes c) else 0 in
  sig_ops ← calculate_max_sig_ops_per_block c;
  mret (mkStats (current_adaptive_max_size c) median average (len (block_sizes c)) sig_ops).

Section WithPrimitives.
  Context `{Primitives}.

Definition calculate_block_size (block : Block) : outcome CCE.ConsensusCrateError Z :=
  match bincode_block block with
  | Some bytes => Ok (len bytes)
  | None => Err (CCE.SerializationError "")
  end.

Definition validate_block_size (c : Calculator) (block : Block) :
    outcome CCE.ConsensusCrateError unit :=
  block_size ← calculate_block_size block;
  if block_size >? current_adaptive_max_size c
  then Err (CCE.BlockTooLarge block_size (current_adaptive_max_size c))
  else Ok tt.

Definition update_with_block (block : Block) (block_height : Z) : calcM unit :=
  block_size ← lift (calculate_block_size block);
  modify (add_block_size block_size);;
  calculate_adaptive_max_block_size block_height;;
  mret tt.

(** The first block that fails to serialize ends the construction. *)
Definition from_block_history (params : AdaptiveBlockSizeParams) (blocks : list Block)
    (current_height : Z) : outcome CCE.ConsensusCrateError Calculator :=
  match for_each (imap pair blocks) (fun '(i, block) =>
          let block_height :=
            u64_saturating_sub current_height (len blocks - 1 - Z.of_nat i) in
          update_with_block block block_height) (Calculator_new params) with
  | (c, Ok _) => Ok c
  | (_, Err e) => Err e
  | (_, Panic) => Panic
  | (_, OutOfFuel) => OutOfFuel
  end.

End WithPrimitives.

(** * The window and its median *)

Lemma trim_front_spec cap l :
  0 <= cap -> trim_front cap l = drop (length l - Z.to_nat cap) l.
Proof.
  intros Hc. induction l as [|x l IH]; [done|]. cbn [trim_front].
  destruct (Z.gtb_spec (len (x :: l)) cap) as [Hg|Hg]; unfold len in Hg; cbn [length] in *.
  - rewrite IH. replace (S (length l) - Z.to_nat cap)%nat with (S (length l - Z.to_nat cap)) by lia.
    done.
  - replace (S (length l) - Z.to_nat cap)%nat with 0%nat by lia. done.
Qed.

Lemma sorted_in_range (l : list Z) a b :
  Forall (fun x => a <= x <= b) l -> Forall (fun x => a <= x <= b) (merge_sort (≤) l).
Proof. intros Hl. by rewrite (merge_sort_Permutation (≤) l). Qed.

Lemma index_in_range (l : list Z) a b i :
  Forall (fun x => a <= x <= b) l -> 0 <= i < len l ->
  exists x, index l i = Some x /\ a <= x <= b.
Proof.
  intros Hl Hi. unfold index. destruct (Z.leb_spec 0 i); [|lia].
  destruct (l !! Z.to_nat i) as [x|] eqn:Hx.
  - exists x. split; [done|]. by eapply Forall_lookup_1 in Hl.
  - apply lookup_ge_None in Hx. unfold len in Hi. lia.
Qed.

(** The median never panics and lies between any bounds of the window. *)
Lemma median_in_range E c a b :
  block_sizes c <> [] -> 0 <= a -> b <= 2 ^ 62 ->
  Forall (fun x => a <= x <= b) (block_sizes c) ->
  exists m, calculate_median_block_size (E := E) c = Ok m /\ a <= m <= b.
Proof.
  intros Hne Ha Hb Hl. unfold calculate_median_block_size.
  pose proof (sorted_in_range _ _ _ Hl) as Hs.
  assert (Hlen : len (merge_sort (≤) (block_sizes c)) = len (block_sizes c))
    by (unfold len; by rewrite (merge_sort_Permutation (≤))).
  assert (Hpos : 0 < len (block_sizes c))
    by (destruct (block_sizes c); [done|unfold len; simpl; lia]).
  destruct (Z.eqb_spec (len (block_sizes c)) 0); [lia|]. rewrite Hlen.
  set (k := len (block_sizes c)) in *.
  pose proof (Z.div_mod k 2 ltac:(lia)) as Hdm. pose proof (Z.mod_pos_bound k 2 ltac:(lia)) as Hmb.
  destruct (Z.eqb_spec (k mod 2) 0).
  - destruct (index_in_range _ _ _ (k / 2 - 1) Hs) as (x & -> & Hx); [lia|].
    destruct (index_in_range _ _ _ (k / 2) Hs) as (y & -> & Hy); [lia|].
    cbn [unwrap mbind outcome_bind mret outcome_ret]. eexists. split; [done|].
    unfold u64_add. rewrite wrap64_small by (unfold u64_max; lia).
    split; [apply Z.div_le_lower_bound; lia|apply Z.div_le_upper_bound; lia].
  - destruct (index_in_range _ _ _ (k / 2) Hs) as (x & -> & Hx); [lia|]. by exists x.
Qed.

(** * Reachable calculators *)

Section Theorems.
  Context `{Primitives}.

(** Every way the calculator's methods change it. *)
Inductive calculator_step : Calculator -> Calculator -> Prop :=
| step_add size c : 0 <= size <= 2 ^ 62 -> calculator_step c (add_block_size size c)
| step_recalculate h c c' r :
    calculate_adaptive_max_block_size h c = (c', r) -> calculator_step c c'
| step_update block h c c' r :
    (forall size, calculate_block_size block = Ok size -> size <= 2 ^ 62) ->
    update_with_block block h c = (c', r) -> calculator_step c c'
| step_reset c : calculator_step c (reset_calculator c).

Record params_ok (p : AdaptiveBlockSizeParams) : Prop := {
  period_pos : 0 < median_calculation_period_blocks p;
  limits_ordered :
    0 <= min_max_block_size_bytes p <= absolute_hard_max_block_size_bytes p;
  initial_in_limits :
    min_max_block_size_bytes p <= initial_max_block_size_bytes p
      <= absolute_hard_max_block_size_bytes p;
}.

Record calculator_ok (p : AdaptiveBlockSizeParams) (c : Calculator) : Prop := {
  params_fixed : params c = p;
  window_bounded : len (block_sizes c) <= median_calculation_period_blocks p;
  window_sizes : Forall (fun x => 0 <= x <= 2 ^ 62) (block_sizes c);
  limit_in_range :
    min_max_block_size_bytes p <= current_adaptive_max_size c
      <= absolute_hard_max_block_size_bytes p;
}.

Lemma calculator_new_ok p : params_ok p -> calculator_ok p (Calculator_new p).
Proof. intros [? ? ?]. split; cbn; try done. unfold len. simpl. lia. Qed.

Lemma add_block_size_ok p c size :
  params_ok p -> calculator_ok p c -> 0 <= size <= 2 ^ 62 -> calculator_ok p (add_block_size size c).
Proof.
  intros [Hp ? ?] [Hpar Hw Hs Hl] Hsize. unfold add_block_size. rewrite Hpar.
  split; cbn; try done; rewrite trim_front_spec by lia.
  - unfold len. rewrite length_drop. lia.
  - apply Forall_drop, Forall_app. split; [done|]. by apply Forall_singleton.
Qed.

(** Recomputing the limit: no panic, only the limit changes. *)
Lemma recalculate_run p c h :
  params_ok p -> calculator_ok p c ->
  exists limit r, calculate_adaptive_max_block_size h c = (set_current limit c, Ok r) /\
    calculator_ok p (set_current limit c).
Proof.
  intros [Hp Hlo Hin] [Hpar Hw Hs Hl]. unfold calculate_adaptive_max_block_size.
  assert (Hid : c = set_current (current_adaptive_max_size c) c) by (by destruct c).
  destruct (h =? 0).
  { exists (current_adaptive_max_size c). eexists. rewrite <- Hid. split; [done|]. by split. }
  rewrite Hpar. destruct (Z.eqb_spec (median_calculation_period_blocks p) 0); [lia|].
  destruct (negb _).
  { exists (current_adaptive_max_size c). eexists. rewrite <- Hid. split; [done|]. by split. }
  rewrite stM_bind_run. cbn [lift].
  assert (Hm : exists m, calculate_median_block_size (E := CCE.ConsensusCrateError) c = Ok m).
  { destruct (decide (block_sizes c = [])) as [He|He].
    - unfold calculate_median_block_size. rewrite He. cbn. eauto.
    - destruct (median_in_range CCE.ConsensusCrateError c 0 (2 ^ 62)) as (m & ? & _); eauto; lia. }
  destruct Hm as [m ->]. rewrite stM_bind_run. cbn [modify].
  eexists _, _. split; [reflexivity|]. split; cbn; try done.
  unfold apply_hard_limits. rewrite Hpar. lia.
Qed.

Lemma calculator_step_ok p c c' :
  params_ok p -> calculator_ok p c -> calculator_step c c' -> calculator_ok p c'.
Proof.
  intros Hp Hc Hs. destruct Hs as [size c Hsz|h c c' r Hr|block h c c' r Hsz Hr|c].
  - by apply add_block_size_ok.
  - destruct (recalculate_run p c h Hp Hc) as (l & r' & He & Hok). rewrite He in Hr.
    by injection Hr as <- _.
  - unfold update_with_block in Hr. rewrite stM_bind_run in Hr. cbn [lift] in Hr.
    destruct (calculate_block_size block) as [size| | |] eqn:Hb; try (by injection Hr as <- _).
    rewrite stM_bind_run in Hr. cbn [modify] in Hr. rewrite stM_bind_run in Hr.
    assert (0 <= size) by (unfold calculate_block_size in Hb; destruct (bincode_block block);
      [injection Hb as <-; apply len_nonneg|done]).
    destruct (recalculate_run p (add_block_size size c) h Hp) as (l & r' & He & Hok).
    { apply add_block_size_ok; auto. }
    rewrite He in Hr. by injection Hr as <- _.
  - destruct Hc as [Hpar ? ? ?], Hp as [? ? ?]. unfold reset_calculator.
    split; cbn; rewrite ?Hpar; try done; try lia. unfold len. simpl. lia.
Qed.

(** C20. For parameters with a positive period, the minimum not above the hard
    maximum and the initial size between them (conditions that the constructor
    does not check), and blocks of at most 2^62 bytes: whatever sequence of
    blocks, recalculations and resets a new calculator goes through, its window
    never holds more sizes than the period and its limit stays between the
    configured minimum and the hard maximum. *)
Theorem adaptive_limit_invariant (p : AdaptiveBlockSizeParams) (c : Calculator) :
  params_ok p -> rtc calculator_step (Calculator_new p) c ->
  len (block_sizes c) <= median_calculation_period_blocks p /\
  min_max_block_size_bytes p <= get_current_adaptive_max_size c
    <= absolute_hard_max_block_size_bytes p.
Proof.
  intros Hp Hr.
  assert (Hok : calculator_ok p c).
  { remember (Calculator_new p) as c0 eqn:E0.
    assert (calculator_ok p c0) by (subst; by apply calculator_new_ok). clear E0.
    induction Hr; eauto using calculator_step_ok. }
  destruct Hok as [_ Hw _ Hl]. done.
Qed.

(** ** Validated growth *)

(** One block accepted at the next height: it passes [validate_block_size] and
    is then recorded. *)
Definition accept_step (s s' : Z * Calculator) : Prop :=
  exists block, validate_block_size s.2 block = Ok tt /\
    s'.1 = s.1 + 1 /\ update_with_block block s'.1 s.2 = (s'.2, Ok tt).

Abbreviation default_params := AdaptiveBlockSizeParams_default.

(** The sizes recorded since the last adjustment are within the limit. *)
Record window_fits (s : Z * Calculator) : Prop := {
  fits_height : 0 <= s.1;
  fits_ok : calculator_ok default_params s.2;
  fits_recent :
    Forall (fun x => x <= current_adaptive_max_size s.2)
      (drop (length (block_sizes s.2) - Z.to_nat (s.1 mod 2016)) (block_sizes s.2));
}.

Lemma default_params_ok : params_ok default_params.
Proof. split; cbn; lia. Qed.

Lemma default_shrink_factor :
  f64_sub (f64_of_Z 1) (block_size_shrink_factor_percentage default_params) =
  S754_finite false 8556839292003942 (-53).
Proof. reflexivity. Qed.

(** A median within the limit does not raise it. *)
Lemma limit_from_median c m :
  calculator_ok default_params c -> 0 <= m <= current_adaptive_max_size c ->
  apply_hard_limits c (calculate_potential_limit c m) <= current_adaptive_max_size c.
Proof.
  intros [Hpar _ _ Hl] Hm. cbn in Hl. unfold apply_hard_limits, calculate_potential_limit.
  rewrite Hpar. rewrite Z.gtb_ltb.
  destruct (Z.ltb_spec (current_adaptive_max_size c) m); [lia|].
  destruct (Z.ltb_spec m (current_adaptive_max_size c)).
  - rewrite default_shrink_factor.
    pose proof (f64_mul_shrinks m 8556839292003942 ltac:(lia) ltac:(lia)). cbn in *. lia.
  - cbn. lia.
Qed.

Lemma recent_after_add (l : list Z) size j cap :
  (j < cap)%nat ->
  drop (length (drop (length (l ++ [size]) - cap) (l ++ [size])) - S j)
       (drop (length (l ++ [size]) - cap) (l ++ [size])) =
  drop (length l - j) l ++ [size].
Proof.
  intros Hj. rewrite drop_drop, length_drop, !length_app. cbn [length].
  rewrite drop_app_le by lia. f_equal. f_equal. lia.
Qed.

(** The next height within a period of 2016 blocks. *)
Lemma next_in_period h :
  0 <= h ->
  ((h + 1) mod 2016 = 0 /\ h mod 2016 = 2015) \/
  ((h + 1) mod 2016 <> 0 /\ (h + 1) mod 2016 = h mod 2016 + 1 /\ h mod 2016 < 2015).
Proof. intros Hh. Z.to_euclidean_division_equations. lia. Qed.

Lemma accept_step_fits s s' :
  window_fits s -> accept_step s s' ->
  window_fits s' /\ current_adaptive_max_size s'.2 <= current_adaptive_max_size s.2.
Proof.
  destruct s as [h c], s' as [h' c']. intros [Hh Hok Hrec] (block & Hv & Hh' & Hu).
  cbn [fst snd] in *. subst h'.
  unfold validate_block_size in Hv. unfold update_with_block in Hu. rewrite stM_bind_run in Hu.
  cbn [lift] in Hu. destruct (calculate_block_size block) as [size| | |] eqn:Hb; try done.
  cbn [mbind outcome_bind] in Hv. rewrite Z.gtb_ltb in Hv.
  destruct (Z.ltb_spec (current_adaptive_max_size c) size); [done|]. clear Hv.
  assert (Hs0 : 0 <= size) by (unfold calculate_block_size in Hb; destruct (bincode_block block);
    [injection Hb as <-; apply len_nonneg|done]).
  rewrite stM_bind_run in Hu. cbn [modify] in Hu. rewrite stM_bind_run in Hu.
  pose proof default_params_ok as Hp. pose proof (limit_in_range _ _ Hok) as Hlim. cbn in Hlim.
  pose proof (add_block_size_ok _ c size Hp Hok ltac:(lia)) as Hok1.
  set (c1 := add_block_size size c) in *.
  assert (Hcur1 : current_adaptive_max_size c1 = current_adaptive_max_size c) by done.
  assert (Hwin1 : block_sizes c1 = drop (length (block_sizes c ++ [size]) - 2016) (block_sizes c ++ [size])).
  { unfold c1, add_block_size. cbn [block_sizes]. rewrite (params_fixed _ _ Hok).
    rewrite trim_front_spec by (cbn; lia). done. }
  destruct (recalculate_run _ c1 (h + 1) Hp Hok1) as (limit & r & He & Hok').
  pose proof He as He'. rewrite He in Hu. injection Hu as <-.
  unfold calculate_adaptive_max_block_size in He'. rewrite (params_fixed _ _ Hok1) in He'.
  destruct (Z.eqb_spec (h + 1) 0); [lia|]. cbn [median_calculation_period_blocks default_params] in He'.
  change (2016 =? 0) with false in He'. cbn [negb] in He'.
  destruct (next_in_period h Hh) as [[Hm Hm']|(Hm & Hm' & Hlt)].
  - (* an adjustment: the whole window was accepted under the current limit *)
    rewrite (proj2 (Z.eqb_eq _ _) Hm) in He'. cbn [negb] in He'.
    assert (Hsplit : block_sizes c1 = drop (length (block_sizes c) - 2015) (block_sizes c) ++ [size]).
    { rewrite Hwin1, length_app. cbn [length]. rewrite drop_app_le by lia. do 2 f_equal. lia. }
    rewrite Hm' in Hrec. change (Z.to_nat 2015) with 2015%nat in Hrec.
    assert (Hall : Forall (fun x => 0 <= x <= current_adaptive_max_size c) (block_sizes c1)).
    { apply Forall_and. split; [eapply Forall_impl; [apply (window_sizes _ _ Hok1)|]; cbn; lia|].
      rewrite Hsplit. apply Forall_app. split; [done|]. by apply Forall_singleton. }
    destruct (median_in_range CCE.ConsensusCrateError c1 0 (current_adaptive_max_size c))
      as (m & Hmed & Hmb); [rewrite Hsplit; by destruct (drop _ _)|lia|lia|done|].
    rewrite stM_bind_run in He'. cbn [lift] in He'. rewrite Hmed, stM_bind_run in He'.
    cbn [modify] in He'. injection He' as Hl _.
    assert (Hle : limit <= current_adaptive_max_size c).
    { rewrite <- Hl. apply (limit_from_median c1); [done|]. rewrite Hcur1. lia. }
    split; [|done]. split; cbn [fst snd]; [lia|done|].
    rewrite Hm. change (Z.to_nat 0) with 0%nat. rewrite Nat.sub_0_r, drop_ge by done. constructor.
  - rewrite (proj2 (Z.eqb_neq _ _) Hm) in He'. cbn [negb] in He'. injection He' as Hlimit _.
    assert (Hle : limit = current_adaptive_max_size c) by congruence.
    split; [|cbn; lia]. split; cbn [fst snd]; [lia|done|].
    cbn [set_current block_sizes current_adaptive_max_size]. rewrite Hle, Hm'.
    replace (Z.to_nat (h mod 2016 + 1)) with (S (Z.to_nat (h mod 2016)))
      by (pose proof (Z.mod_pos_bound h 2016); lia).
    rewrite Hwin1, recent_after_add by (pose proof (Z.mod_pos_bound h 2016); lia).
    apply Forall_app. split; [done|]. by apply Forall_singleton.
Qed.

(** With the default parameters the limit can only shrink: along every
    chain of blocks that each pass [validate_block_size], the limit never rises
    and so never exceeds the 2 MB it starts from, because a median of sizes
    within the limit is never above the limit.  The growth branch is dead. *)
Theorem adaptive_limit_never_grows (h : Z) (s s' : Z * Calculator) :
  0 <= h ->
  rtc accept_step (h, Calculator_new default_params) s -> rtc accept_step s s' ->
  get_current_adaptive_max_size s'.2 <= get_current_adaptive_max_size s.2 <= 2000000.
Proof.
  intros Hh Hr Hr'.
  assert (Hgo : forall a b, rtc accept_step a b -> window_fits a ->
    window_fits b /\ current_adaptive_max_size b.2 <= current_adaptive_max_size a.2).
  { intros a b Hab. induction Hab as [a|a b c Hab Hbc IH]; intros Hf; [split; [done|lia]|].
    destruct (accept_step_fits a b Hf Hab) as [Hfb Hle]. destruct (IH Hfb). split; [done|lia]. }
  assert (Hinit : window_fits (h, Calculator_new default_params)).
  { split; cbn; [done|apply calculator_new_ok, default_params_ok|constructor]. }
  destruct (Hgo _ _ Hr Hinit) as [Hfs Hs]. destruct (Hgo _ _ Hr' Hfs) as [_ Hs'].
  cbn in Hs. unfold get_current_adaptive_max_size. lia.
Qed.

End Theorems.

(** The other direction is fast: after one period of empty blocks the limit
    drops from its maximum to the minimum at once. *)
Example limit_collapses :
  snd (calculate_adaptive_max_block_size 2016
         (mkCalculator AdaptiveBlockSizeParams_default [0; 0; 0] 64000000)) = Ok 1000000.
Proof. reflexivity. Qed.

(** * Witnesses *)

Lemma adaptive_limit_invariant_witness :
  len (block_sizes (add_block_size 500 (Calculator_new AdaptiveBlockSizeParams_default))) <= 2016.
Proof.
  apply (adaptive_limit_invariant AdaptiveBlockSizeParams_default).
  - apply default_params_ok.
  - eapply rtc_l; [|apply rtc_refl]. apply step_add. lia.
Defined.

Definition small_block : Block := mkBlock (mkBlockHeader 1 1 [] [] [] 0 0 0) [] [].

Definition after_small_block : Z * Calculator :=
  (1, fst (update_with_block small_block 1 (Calculator_new AdaptiveBlockSizeParams_default))).

Lemma adaptive_limit_never_grows_witness :
  get_current_adaptive_max_size after_small_block.2 <= 2000000.
Proof.
  apply (adaptive_limit_never_grows 0 after_small_block after_small_block).
  - lia.
  - eapply rtc_l; [|apply rtc_refl]. exists small_block. split_and!; vm_compute; reflexivity.
  - apply rtc_refl.
Defined.
