(* ===== verification/PosSelection.v ===== *)
(** The proof-of-stake lottery (src/rusty-consensus/src/pos_selection.rs):
    selection of voting tickets, ticket price adjustment, vote-based finality.

    A [HashMap<TicketId, Ticket>] is the list of its entries in iteration order,
    which Rust leaves unspecified; [selection_order_independent] shows that the
    selection does not depend on it. *)

From Stdlib Require Import ZArith Lia List SpecFloat.
From stdpp Require Import base option list numbers strings sets sorting.
From S2P Require Import Prelude Types Transaction SamplePrimitives F64.

#[local] Open Scope Z_scope.

Definition TICKET_MATURITY_BLOCKS : Z := 256.
Definition TICKET_EXPIRATION_BLOCKS : Z := 40960.
Definition DEFAULT_TARGET_POOL_SIZE : Z := 40960.
Definition DEFAULT_MIN_TICKETS_REQUIRED : Z := 3.
Definition DEFAULT_MAX_PRICE_ADJUSTMENT_PERCENT : Z := 5.

Abbreviation TicketId := bytes.

(** The comparator of [sort_by], as the order "not greater". *)
Definition score_le (a b : TicketId * bytes) : bool :=
  if bool_decide (a.2 = b.2) then bytes_le a.1 b.1 else bytes_le a.2 b.2.

Definition adjust_ticket_price (current_price current_pool_size target_pool_size
    max_adjustment_percent : Z) : Z :=
  if (current_pool_size =? 0) || (target_pool_size =? 0) then current_price else
  let one := f64_of_Z 1 in
  let ratio := f64_div (f64_of_Z current_pool_size) (f64_of_Z target_pool_size) in
  let percent := f64_div (f64_of_Z max_adjustment_percent) (f64_of_Z 100) in
  let adjustment_factor :=
    if f64_gt ratio one then f64_min (f64_add one percent) ratio
    else f64_max (f64_sub one percent) ratio in
  let new_price := f64_to_u64 (f64_mul (f64_of_Z current_price) adjustment_factor) in
  let min_price := 100000000 in
  Z.max new_price min_price.

Definition is_block_final (block_hash : Hash) (votes : list TicketVote)
    (selected_tickets : list TicketId) : bool :=
  if len selected_tickets =? 0 then false else
  let valid_votes := len (filter (fun v => vote_block_hash v = block_hash) votes) in
  let threshold := wrap64 (len selected_tickets * 2) / 3 in
  valid_votes >=? threshold.

Section WithPrimitives.
  Context `{Primitives}.

Definition dprf (seed : bytes) (ticket_id : TicketId) : bytes := blake3 (seed ++ ticket_id).

Definition select_tickets_for_voting (live_tickets : list (TicketId * Ticket))
    (previous_block_hash : Hash) (num_tickets_required : nat) : list TicketId :=
  if len live_tickets =? 0 then [] else
  let live_tickets := filter (fun p => ticket_status p.2 = Live) live_tickets in
  if len live_tickets =? 0 then [] else
  let seed := blake3 previous_block_hash in
  let ticket_scores := (fun id => (id, dprf seed id)) <$> live_tickets.*1 in
  let ticket_scores := merge_sort score_le ticket_scores in
  fst <$> take num_tickets_required ticket_scores.

End WithPrimitives.

(** * The lottery order *)

Lemma score_le_total a b : score_le a b \/ score_le b a.
Proof.
  unfold score_le. rewrite (bool_decide_ext (b.2 = a.2) (a.2 = b.2)) by done.
  case_bool_decide; rewrite !Is_true_true; apply bytes_le_total.
Qed.

Lemma score_le_trans a b c : score_le a b -> score_le b c -> score_le a c.
Proof.
  destruct a as [i1 s1], b as [i2 s2], c as [i3 s3]. unfold score_le. cbn [fst snd].
  rewrite !Is_true_true.
  destruct (decide (s1 = s2)) as [->|H12], (decide (s2 = s3)) as [->|H23];
    repeat first [rewrite bool_decide_true by done | rewrite bool_decide_false by done];
    try apply bytes_le_trans; try done.
  intros L1 L2. case_bool_decide as H13; [|by eapply bytes_le_trans].
  subst. exfalso. apply H12. by apply bytes_le_antisym.
Qed.

Lemma score_le_antisym a b : score_le a b -> score_le b a -> a = b.
Proof.
  unfold score_le. rewrite (bool_decide_ext (b.2 = a.2) (a.2 = b.2)) by done.
  case_bool_decide as He; rewrite !Is_true_true; intros H1 H2; destruct a, b; cbn in *.
  - f_equal; [by apply bytes_le_antisym|done].
  - exfalso. apply He. by apply bytes_le_antisym.
Qed.

#[local] Instance score_le_total_inst : Total (fun a b => Is_true (score_le a b)).
Proof. intros a b. apply score_le_total. Qed.

#[local] Instance score_le_trans_inst : Transitive (fun a b => Is_true (score_le a b)).
Proof. intros a b c. apply score_le_trans. Qed.

#[local] Instance score_le_antisym_inst : AntiSymm (=) (fun a b => Is_true (score_le a b)).
Proof. intros a b. apply score_le_antisym. Qed.

Section Theorems.
  Context `{Primitives}.

(** The tickets the lottery is run over, with their scores. *)
Definition candidates (live : list (TicketId * Ticket)) : list TicketId :=
  (filter (fun p => ticket_status p.2 = Live) live).*1.

Definition scored (hash : Hash) (id : TicketId) : TicketId * bytes :=
  (id, dprf (blake3 hash) id).

(** Both early returns are the empty selection. *)
Lemma select_unfold live hash n :
  select_tickets_for_voting live hash n =
  fst <$> take n (merge_sort score_le (scored hash <$> candidates live)).
Proof.
  unfold select_tickets_for_voting, candidates.
  destruct (Z.eqb_spec (len live) 0) as [Hl|Hl].
  { destruct live; [by destruct n|unfold len in Hl; simpl in Hl; lia]. }
  destruct (Z.eqb_spec (len (filter (fun p => ticket_status p.2 = Live) live)) 0) as [Hf|Hf].
  { destruct (filter _ live); [by destruct n|unfold len in Hf; simpl in Hf; lia]. }
  done.
Qed.

Lemma scored_fst hash (l : list TicketId) : (scored hash <$> l).*1 = l.
Proof. rewrite <- list_fmap_compose. apply list_fmap_id. Qed.

Lemma sorted_scored hash l :
  StronglySorted (fun a b => Is_true (score_le a b)) (merge_sort score_le (scored hash <$> l)).
Proof. apply (StronglySorted_merge_sort (fun a b => Is_true (score_le a b))). Qed.

(** The selection does not depend on the iteration order of the ticket map:
    any two enumerations of the same tickets give the same voters in the same
    order, so all nodes agree. *)
Theorem selection_order_independent live1 live2 hash n :
  live1 ≡ₚ live2 ->
  select_tickets_for_voting live1 hash n = select_tickets_for_voting live2 hash n.
Proof.
  intros Hp. rewrite !select_unfold. do 2 f_equal.
  apply (StronglySorted_unique (fun a b => Is_true (score_le a b))); try apply sorted_scored.
  rewrite !merge_sort_Permutation. unfold candidates. by rewrite Hp.
Qed.

Lemma sorted_take_le {A} (R : A -> A -> Prop) (l : list A) n x y :
  StronglySorted R l -> x ∈ take n l -> y ∈ drop n l -> R x y.
Proof.
  intros Hs. revert n. induction Hs as [|z l Hs IH Hz]; intros [|n]; cbn; try set_solver.
  rewrite elem_of_cons. intros [->|Hx] Hy; [|by eapply IH].
  rewrite Forall_forall in Hz. apply Hz. eapply subseteq_drop. exact Hy.
Qed.

(** C19. The lottery selects what the specification says: distinct tickets of the
    pool whose status is Live, as many as were asked for if the pool has
    them, and no live ticket left out has a lower score (ties going to the
    lower id) than a selected one. *)
Theorem selection_spec live hash n :
  NoDup live.*1 ->
  let selected := select_tickets_for_voting live hash n in
  NoDup selected /\
  (forall id, id ∈ selected -> exists t, (id, t) ∈ live /\ ticket_status t = Live) /\
  length selected = (n `min` length (candidates live))%nat /\
  (forall id id', id ∈ selected -> id' ∈ candidates live -> id' ∉ selected ->
     score_le (scored hash id) (scored hash id')).
Proof.
  intros Hnd selected.
  set (sorted := merge_sort score_le (scored hash <$> candidates live)).
  assert (Hperm : sorted ≡ₚ scored hash <$> candidates live) by apply merge_sort_Permutation.
  assert (Hsel : selected = fst <$> take n sorted) by apply select_unfold.
  assert (Hfst : sorted.*1 ≡ₚ candidates live) by (rewrite Hperm, scored_fst; done).
  assert (Hin : forall p, p ∈ sorted -> p = scored hash p.1).
  { intros p. rewrite Hperm. intros (id & -> & _)%list_elem_of_fmap. done. }
  assert (Hsub : forall id, id ∈ selected -> id ∈ candidates live).
  { intros id. rewrite Hsel, <- Hfst, fmap_take. apply subseteq_take. }
  split_and!.
  - assert (Hndc : NoDup sorted.*1).
    { rewrite Hfst. eapply sublist_NoDup; [exact Hnd|]. apply fmap_sublist, sublist_filter. }
    rewrite Hsel, fmap_take. eapply sublist_NoDup; [exact Hndc|apply sublist_take].
  - intros id Hid%Hsub. unfold candidates in Hid.
    apply list_elem_of_fmap in Hid as ([id' t] & -> & Ht). apply list_elem_of_filter in Ht as [Hl Ht].
    eauto.
  - rewrite Hsel, length_fmap, length_take. f_equal.
    rewrite <- (length_fmap fst sorted). by rewrite Hfst.
  - intros id id' Hid Hc Hn.
    assert (Hs1 : scored hash id ∈ take n sorted).
    { rewrite Hsel in Hid. apply list_elem_of_fmap in Hid as (p & -> & Hp).
      rewrite <- Hin; [done|]. by eapply subseteq_take. }
    assert (Hs2 : scored hash id' ∈ drop n sorted).
    { assert (Hall : scored hash id' ∈ sorted) by (rewrite Hperm; by apply list_elem_of_fmap_2).
      rewrite <- (take_drop n sorted) in Hall. apply elem_of_app in Hall as [Ht|Hd]; [|done].
      exfalso. apply Hn. rewrite Hsel. apply list_elem_of_fmap. eexists. split; [|exact Ht]. done. }
    by eapply (sorted_take_le (fun a b => Is_true (score_le a b)) sorted n);
      [apply sorted_scored| |].
Qed.

End Theorems.

(** * Finality *)

Definition votes_for (block_hash : Hash) (votes : list TicketVote) : Z :=
  len (filter (fun v => vote_block_hash v = block_hash) votes).

(** [is_block_final] is a rounded-down two-thirds count of votes for the
    block and nothing else: with at least one selected ticket, a block is
    final exactly when 3 * votes + 2 >= 2 * selected.  So it is not the
    two-thirds quorum of the comment, a single selected ticket needs no vote
    at all, and a vote counts whoever cast it and however often it is repeated. *)
Theorem finality_threshold (block_hash : Hash) (votes : list TicketVote)
    (selected : list TicketId) :
  len selected <= 2 ^ 62 ->
  (is_block_final block_hash votes selected = true <->
     selected <> [] /\ 2 * len selected <= 3 * votes_for block_hash votes + 2) /\
  (forall t, is_block_final block_hash [] [t] = true) /\
  (forall v, vote_block_hash v = block_hash -> selected <> [] ->
     is_block_final block_hash (replicate (length selected) v) selected = true).
Proof.
  intros Hlen. pose proof (len_nonneg selected).
  assert (Hmain : forall vs, is_block_final block_hash vs selected = true <->
     selected <> [] /\ 2 * len selected <= 3 * votes_for block_hash vs + 2).
  { intros vs. unfold is_block_final, votes_for.
    destruct (Z.eqb_spec (len selected) 0) as [Hz|Hz].
    - destruct selected; [|unfold len in Hz; simpl in Hz; lia]. split; [done|]. by intros [? _].
    - rewrite wrap64_small by (unfold u64_max; lia). rewrite Z.geb_le.
      assert (selected <> []) by (intros ->; apply Hz; done).
      split; [intros Hle; split; [done|]|intros [_ Hle]]; Z.to_euclidean_division_equations; lia. }
  split_and!; [apply Hmain|done|].
  intros v Hv Hne. apply Hmain. split; [done|]. unfold votes_for.
  assert (Hf : filter (fun v => vote_block_hash v = block_hash) (replicate (length selected) v)
               = replicate (length selected) v).
  { induction (length selected) as [|k IH]; [done|]. cbn [replicate].
    rewrite filter_cons_True by done. by f_equal. }
  rewrite Hf. unfold len in *. rewrite length_replicate. lia.
Qed.

(** Prices as the floating-point code computes them. *)
Example price_rises : adjust_ticket_price 1000000000 50000 40000 5 = 1050000000.
Proof. reflexivity. Qed.

Example price_falls : adjust_ticket_price 1000000000 30000 40000 5 = 950000000.
Proof. reflexivity. Qed.

(** The price never falls below one coin once the pool sizes are known. *)
Lemma price_floor price pool target percent :
  pool <> 0 -> target <> 0 -> 100000000 <= adjust_ticket_price price pool target percent.
Proof.
  intros Hp Ht. unfold adjust_ticket_price.
  destruct (Z.eqb_spec pool 0), (Z.eqb_spec target 0); try done. cbn [orb]. lia.
Qed.

(** * Witnesses *)

Definition sample_tickets : list (TicketId * Ticket) :=
  (fun i => ([i], mkTicket [i] [] 0 100 Live)) <$> [1; 2; 3; 4; 5].

Lemma selection_order_independent_witness :
  select_tickets_for_voting sample_tickets [7] 3 =
  select_tickets_for_voting (reverse sample_tickets) [7] 3.
Proof. apply (selection_order_independent sample_tickets). by rewrite reverse_Permutation. Defined.

Lemma selection_spec_witness :
  NoDup (select_tickets_for_voting sample_tickets [7] 3) /\
  length (select_tickets_for_voting sample_tickets [7] 3) = 3%nat.
Proof.
  destruct (selection_spec sample_tickets [7] 3) as (Hnd & _ & Hl & _).
  - apply (bool_decide_unpack _). vm_compute. exact I.
  - split; [exact Hnd|]. rewrite Hl. reflexivity.
Defined.

Lemma finality_threshold_witness : is_block_final [1] [] [[2]] = true.
Proof.
  destruct (finality_threshold [1] [] [[2]]) as (_ & Hs & _); [vm_compute; discriminate|].
  apply Hs.
Defined.
