(* ===== verification/Params.v ===== *)
(** Consensus parameters: [ConsensusParams] of src/rusty-shared-types/src/lib.rs
    with its three configurations, and [apply_parameter_change] of
    src/rusty-core/src/consensus/blockchain.rs, which sets a parameter from the
    text of a governance proposal.

    [str::parse] of the integer types and of [f64] is written out: an optional
    sign, decimal digits, and for [f64] a fraction, an exponent or one of the
    special names; the value is rounded once. *)

From Stdlib Require Import ZArith Lia List Ascii String SpecFloat.
From stdpp Require Import base option list numbers strings.
From coqutil Require Import Datatypes.RecordSetters.
From S2P Require Import Prelude Types Errors F64.

Import TriangleBracketNotations.
#[local] Open Scope Z_scope.

Record ConsensusParams : Type := mkConsensusParams {
  min_stake : Z;
  max_tickets_per_stake : Z;
  ticket_price : Z;
  ticket_maturity : Z;
  ticket_expiry : Z;
  tickets_per_round : Z;
  min_block_time : Z;
  reward_amount : Z;
  target_live_tickets : Z;
  price_adjustment_factor : f64;
  difficulty_adjustment_window : Z;
  halving_interval : Z;
  initial_block_reward : Z;
  pos_reward_ratio : f64;
  miner_address : bytes;
  ticket_price_adjustment_period : Z;
  max_ticket_price : Z;
  min_ticket_price : Z;
  proposal_stake_amount : Z;
  voting_period_blocks : Z;
  pos_voting_quorum_percentage : f64;
  mn_voting_quorum_percentage : f64;
  pos_approval_percentage : f64;
  mn_approval_percentage : f64;
  activation_delay_blocks : Z;
  grace_period_blocks : Z;
  slash_forgiveness_period : Z;
  malicious_behavior_slash_percentage : f64;
  pose_challenge_period_blocks : Z;
  num_pose_challengers : Z;
  num_pose_targets_per_period : Z;
  pose_response_timeout_seconds : Z;
  max_pose_failures : Z;
  reset_failures_period : Z;
  min_witness_signatures : Z;
  pos_finality_depth : Z;
  max_block_size : Z;
  max_tx_size : Z;
  block_reward : Z;
  coinbase_maturity : Z;
  dust_limit : Z;
  min_relay_tx_fee : Z;
  masternode_collateral_amount : Z;
  max_inactivity_blocks : Z;
  protocol_upgrade_approval_percentage : f64;
  parameter_change_approval_percentage : f64;
  treasury_spend_approval_percentage : f64;
  bug_fix_approval_percentage : f64;
  community_fund_approval_percentage : f64;
}.

Definition ConsensusParams_default : ConsensusParams := {|
  min_stake := 100000000;
  max_tickets_per_stake := 1;
  ticket_price := 10000000000;
  ticket_maturity := 10;
  ticket_expiry := 4096;
  tickets_per_round := 5;
  min_block_time := 150;
  reward_amount := 1000000;
  target_live_tickets := 20000;
  price_adjustment_factor := f64_lit 5 100;
  difficulty_adjustment_window := 144;
  halving_interval := 210000;
  initial_block_reward := 50000000000;
  pos_reward_ratio := f64_lit 6 10;
  miner_address := replicate 20 0;
  ticket_price_adjustment_period := 2016;
  max_ticket_price := 1000000000000;
  min_ticket_price := 100000000;
  proposal_stake_amount := 100000000000;
  voting_period_blocks := 20160;
  pos_voting_quorum_percentage := f64_lit 2 10;
  mn_voting_quorum_percentage := f64_lit 5 10;
  pos_approval_percentage := f64_lit 75 100;
  mn_approval_percentage := f64_lit 66 100;
  activation_delay_blocks := 100;
  grace_period_blocks := 10;
  slash_forgiveness_period := 100;
  malicious_behavior_slash_percentage := f64_of_Z 1;
  pose_challenge_period_blocks := 60;
  num_pose_challengers := 3;
  num_pose_targets_per_period := 5;
  pose_response_timeout_seconds := 60;
  max_pose_failures := 3;
  reset_failures_period := 100;
  min_witness_signatures := 3;
  pos_finality_depth := 1;
  max_block_size := 4000000;
  max_tx_size := 100000;
  block_reward := 50000000000;
  coinbase_maturity := 100;
  dust_limit := 500;
  min_relay_tx_fee := 1;
  masternode_collateral_amount := 2600000000000;
  max_inactivity_blocks := 1000;
  protocol_upgrade_approval_percentage := f64_lit 8 10;
  parameter_change_approval_percentage := f64_lit 75 100;
  treasury_spend_approval_percentage := f64_lit 6 10;
  bug_fix_approval_percentage := f64_lit 6 10;
  community_fund_approval_percentage := f64_lit 65 100;
|}.

Definition testnet : ConsensusParams :=
  ConsensusParams_default
  <| min_stake := 1000000 |>
  <| ticket_price := 10000000 |>
  <| ticket_maturity := 2 |>
  <| ticket_expiry := 144 |>
  <| tickets_per_round := 2 |>
  <| min_block_time := 10 |>
  <| reward_amount := 100000 |>
  <| target_live_tickets := 100 |>
  <| difficulty_adjustment_window := 10 |>
  <| halving_interval := 1000 |>
  <| initial_block_reward := 1000000000 |>
  <| pos_reward_ratio := f64_lit 8 10 |>
  <| ticket_price_adjustment_period := 10 |>
  <| max_ticket_price := 1000000 |>
  <| min_ticket_price := 1000 |>
  <| proposal_stake_amount := 10000000 |>
  <| voting_period_blocks := 100 |>
  <| activation_delay_blocks := 10 |>
  <| grace_period_blocks := 2 |>
  <| slash_forgiveness_period := 10 |>
  <| malicious_behavior_slash_percentage := f64_lit 75 100 |>
  <| pose_challenge_period_blocks := 5 |>
  <| num_pose_challengers := 1 |>
  <| num_pose_targets_per_period := 2 |>
  <| pose_response_timeout_seconds := 60 |>
  <| max_pose_failures := 2 |>
  <| reset_failures_period := 100 |>
  <| min_witness_signatures := 1 |>
  <| pos_finality_depth := 3 |>
  <| max_block_size := 1000000 |>
  <| min_relay_tx_fee := 100 |>
  <| masternode_collateral_amount := 1000000000 |>
  <| max_inactivity_blocks := 1000 |>.

Definition regtest : ConsensusParams :=
  ConsensusParams_default
  <| min_stake := 100 |>
  <| max_tickets_per_stake := 1 |>
  <| ticket_price := 10 |>
  <| ticket_maturity := 1 |>
  <| ticket_expiry := 10 |>
  <| tickets_per_round := 1 |>
  <| min_block_time := 1 |>
  <| reward_amount := 1 |>
  <| target_live_tickets := 10 |>
  <| price_adjustment_factor := f64_lit 1 10 |>
  <| difficulty_adjustment_window := 5 |>
  <| halving_interval := 100 |>
  <| initial_block_reward := 100 |>
  <| pos_reward_ratio := f64_lit 9 10 |>
  <| ticket_price_adjustment_period := 5 |>
  <| max_ticket_price := 100 |>
  <| min_ticket_price := 1 |>
  <| proposal_stake_amount := 1000 |>
  <| voting_period_blocks := 10 |>
  <| activation_delay_blocks := 5 |>
  <| grace_period_blocks := 1 |>
  <| slash_forgiveness_period := 5 |>
  <| malicious_behavior_slash_percentage := f64_lit 5 10 |>
  <| pose_challenge_period_blocks := 2 |>
  <| num_pose_challengers := 1 |>
  <| num_pose_targets_per_period := 1 |>
  <| pose_response_timeout_seconds := 10 |>
  <| max_pose_failures := 1 |>
  <| reset_failures_period := 10 |>
  <| min_witness_signatures := 1 |>
  <| pos_finality_depth := 2 |>
  <| max_block_size := 100000 |>
  <| min_relay_tx_fee := 10 |>
  <| masternode_collateral_amount := 100000 |>
  <| max_inactivity_blocks := 1000 |>.

(** * [str::parse] *)

Definition digit_val (c : ascii) : option Z :=
  let n := Z.of_N (N_of_ascii c) in
  if (48 <=? n) && (n <=? 57) then Some (n - 48) else None.

(** Leading digits: their value after [acc], how many there are, and the rest. *)
Fixpoint take_digits (acc count : Z) (s : string) : Z * Z * string :=
  match s with
  | EmptyString => (acc, count, s)
  | String c rest =>
      match digit_val c with
      | Some d => take_digits (10 * acc + d) (count + 1) rest
      | None => (acc, count, s)
      end
  end.

(** An unsigned integer of at most [max]: a leading [+] is allowed. *)
Definition parse_uint (max : Z) (s : string) : option Z :=
  let s := match s with String "+" rest => rest | _ => s end in
  let '(v, count, rest) := take_digits 0 0 s in
  if (0 <? count) && bool_decide (rest = ""%string) && (v <=? max) then Some v else None.

(** The nearest [f64] to [m * 10 ^ k]. *)
Definition f64_of_decimal (m k : Z) : f64 :=
  match m with
  | Zpos p =>
      if 0 <=? k then f64_of_Z (m * 10 ^ k)
      else f64_div (S754_finite false p 0) (S754_finite false (Z.to_pos (10 ^ (- k))) 0)
  | _ => S754_zero false
  end.

Definition parse_exponent (s : string) : option Z :=
  let '(negative, s) :=
    match s with
    | String "+" rest => (false, rest)
    | String "-" rest => (true, rest)
    | _ => (false, s)
    end in
  let '(v, count, rest) := take_digits 0 0 s in
  if (0 <? count) && bool_decide (rest = ""%string)
  then Some (if negative : bool then - v else v) else None.

Definition parse_decimal (s : string) : option f64 :=
  let '(int, int_digits, s) := take_digits 0 0 s in
  let '(m, frac_digits, s) :=
    match s with
    | String "." rest => take_digits int 0 rest
    | _ => (int, 0, s)
    end in
  if int_digits + frac_digits =? 0 then None else
  match s with
  | EmptyString => Some (f64_of_decimal m (- frac_digits))
  | String c rest =>
      if bool_decide (c = "e"%char) || bool_decide (c = "E"%char) then
        e ← parse_exponent rest;
        Some (f64_of_decimal m (e - frac_digits))
      else None
  end.

Definition lower (c : ascii) : ascii :=
  let n := N_of_ascii c in
  if ((65 <=? n) && (n <=? 90))%N then ascii_of_N (n + 32) else c.

Fixpoint to_lower (s : string) : string :=
  match s with
  | EmptyString => EmptyString
  | String c rest => String (lower c) (to_lower rest)
  end.

Definition parse_f64 (s : string) : option f64 :=
  let '(negative, s) :=
    match s with
    | String "+" rest => (false, rest)
    | String "-" rest => (true, rest)
    | _ => (false, s)
    end in
  let magnitude :=
    if bool_decide (to_lower s = "inf"%string) || bool_decide (to_lower s = "infinity"%string)
    then Some (S754_infinity false)
    else if bool_decide (to_lower s = "nan"%string) then Some S754_nan
    else parse_decimal s in
  x ← magnitude;
  Some (if negative : bool then SFopp x else x).

Example parse_u32 : parse_uint u32_max "+4294967295" = Some 4294967295.
Proof. reflexivity. Qed.

Example parse_u32_overflow : parse_uint u32_max "4294967296" = None.
Proof. reflexivity. Qed.

Example parse_negative : parse_uint u32_max "-1" = None.
Proof. reflexivity. Qed.

Example parse_066 : parse_f64 "0.66" = Some (f64_lit 66 100).
Proof. reflexivity. Qed.

Example parse_scientific : parse_f64 "-2.5E-1" = Some (SFopp (f64_lit 1 4)).
Proof. reflexivity. Qed.

(** * Parameter changes *)

Definition setter : Type :=
  string -> string -> ConsensusParams -> outcome CE.ConsensusError ConsensusParams.

(** One arm of the [match]: parse the value, or fail without touching the
    parameters. *)
Definition set_param {A} (type_name : string) (parse : string -> option A)
    (set : A -> ConsensusParams -> ConsensusParams) : setter :=
  fun param_name new_value_str params =>
  match parse new_value_str with
  | Some v => Ok (set v params)
  | None =>
      Err (CE.RuleViolation ("Invalid " +:+ type_name +:+ " value for " +:+ param_name
             +:+ ": " +:+ new_value_str))
  end.

(** The arms of the integer parameters, in the order of the source. *)
Definition integer_parameters : list (string * setter) := [
  ("min_stake", set_param "u64" (parse_uint u64_max) (fun v p => p <| min_stake := v |>));
  ("max_tickets_per_stake", set_param "u32" (parse_uint u32_max)
    (fun v p => p <| max_tickets_per_stake := v |>));
  ("ticket_price", set_param "u64" (parse_uint u64_max) (fun v p => p <| ticket_price := v |>));
  ("ticket_maturity", set_param "u32" (parse_uint u32_max)
    (fun v p => p <| ticket_maturity := v |>));
  ("ticket_expiry", set_param "u32" (parse_uint u32_max) (fun v p => p <| ticket_expiry := v |>));
  ("min_block_time", set_param "u64" (parse_uint u64_max)
    (fun v p => p <| min_block_time := v |>));
  ("reward_amount", set_param "u64" (parse_uint u64_max) (fun v p => p <| reward_amount := v |>));
  ("target_live_tickets", set_param "u64" (parse_uint u64_max)
    (fun v p => p <| target_live_tickets := v |>));
  ("difficulty_adjustment_window", set_param "u32" (parse_uint u32_max)
    (fun v p => p <| difficulty_adjustment_window := v |>));
  ("halving_interval", set_param "u64" (parse_uint u64_max)
    (fun v p => p <| halving_interval := v |>));
  ("initial_block_reward", set_param "u64" (parse_uint u64_max)
    (fun v p => p <| initial_block_reward := v |>));
  ("ticket_price_adjustment_period", set_param "u64" (parse_uint u64_max)
    (fun v p => p <| ticket_price_adjustment_period := v |>));
  ("max_ticket_price", set_param "u64" (parse_uint u64_max)
    (fun v p => p <| max_ticket_price := v |>));
  ("min_ticket_price", set_param "u64" (parse_uint u64_max)
    (fun v p => p <| min_ticket_price := v |>));
  ("proposal_stake_amount", set_param "u64" (parse_uint u64_max)
    (fun v p => p <| proposal_stake_amount := v |>));
  ("voting_period_blocks", set_param "u64" (parse_uint u64_max)
    (fun v p => p <| voting_period_blocks := v |>));
  ("activation_delay_blocks", set_param "u64" (parse_uint u64_max)
    (fun v p => p <| activation_delay_blocks := v |>));
  ("grace_period_blocks", set_param "u64" (parse_uint u64_max)
    (fun v p => p <| grace_period_blocks := v |>));
  ("slash_forgiveness_period", set_param "u64" (parse_uint u64_max)
    (fun v p => p <| slash_forgiveness_period := v |>));
  ("pose_challenge_period_blocks", set_param "u64" (parse_uint u64_max)
    (fun v p => p <| pose_challenge_period_blocks := v |>));
  ("num_pose_challengers", set_param "u32" (parse_uint u32_max)
    (fun v p => p <| num_pose_challengers := v |>));
  ("num_pose_targets_per_period", set_param "u32" (parse_uint u32_max)
    (fun v p => p <| num_pose_targets_per_period := v |>));
  ("pose_response_timeout_seconds", set_param "u64" (parse_uint u64_max)
    (fun v p => p <| pose_response_timeout_seconds := v |>));
  ("max_pose_failures", set_param "u32" (parse_uint u32_max)
    (fun v p => p <| max_pose_failures := v |>));
  ("reset_failures_period", set_param "u32" (parse_uint u32_max)
    (fun v p => p <| reset_failures_period := v |>));
  ("min_witness_signatures", set_param "u32" (parse_uint u32_max)
    (fun v p => p <| min_witness_signatures := v |>));
  ("pos_finality_depth", set_param "u32" (parse_uint u32_max)
    (fun v p => p <| pos_finality_depth := v |>));
  ("max_block_size", set_param "u64" (parse_uint u64_max)
    (fun v p => p <| max_block_size := v |>));
  ("max_tx_size", set_param "usize" (parse_uint u64_max) (fun v p => p <| max_tx_size := v |>));
  ("block_reward", set_param "u64" (parse_uint u64_max) (fun v p => p <| block_reward := v |>));
  ("coinbase_maturity", set_param "u32" (parse_uint u32_max)
    (fun v p => p <| coinbase_maturity := v |>));
  ("dust_limit", set_param "u64" (parse_uint u64_max) (fun v p => p <| dust_limit := v |>));
  ("min_relay_tx_fee", set_param "u64" (parse_uint u64_max)
    (fun v p => p <| min_relay_tx_fee := v |>));
  ("masternode_collateral_amount", set_param "u64" (parse_uint u64_max)
    (fun v p => p <| masternode_collateral_amount := v |>));
  ("max_inactivity_blocks", set_param "u32" (parse_uint u32_max)
    (fun v p => p <| max_inactivity_blocks := v |>))
].

(** The arms of the [f64] parameters, and the last one. *)
Definition ratio_parameters : list (string * setter) := [
  ("price_adjustment_factor", set_param "f64" parse_f64
    (fun v p => p <| price_adjustment_factor := v |>));
  ("pos_reward_ratio", set_param "f64" parse_f64 (fun v p => p <| pos_reward_ratio := v |>));
  ("pos_voting_quorum_percentage", set_param "f64" parse_f64
    (fun v p => p <| pos_voting_quorum_percentage := v |>));
  ("mn_voting_quorum_percentage", set_param "f64" parse_f64
    (fun v p => p <| mn_voting_quorum_percentage := v |>));
  ("pos_approval_percentage", set_param "f64" parse_f64
    (fun v p => p <| pos_approval_percentage := v |>));
  ("mn_approval_percentage", set_param "f64" parse_f64
    (fun v p => p <| mn_approval_percentage := v |>));
  ("malicious_behavior_slash_percentage", set_param "f64" parse_f64
    (fun v p => p <| malicious_behavior_slash_percentage := v |>));
  ("protocol_upgrade_approval_percentage", set_param "f64" parse_f64
    (fun v p => p <| protocol_upgrade_approval_percentage := v |>));
  ("parameter_change_approval_percentage", set_param "f64" parse_f64
    (fun v p => p <| parameter_change_approval_percentage := v |>));
  ("treasury_spend_approval_percentage", set_param "f64" parse_f64
    (fun v p => p <| treasury_spend_approval_percentage := v |>));
  ("bug_fix_approval_percentage", set_param "f64" parse_f64
    (fun v p => p <| bug_fix_approval_percentage := v |>));
  ("community_fund_approval_percentage", set_param "f64" parse_f64
    (fun v p => p <| community_fund_approval_percentage := v |>));
  ("tickets_per_round", set_param "usize" (parse_uint u64_max)
    (fun v p => p <| tickets_per_round := v |>))
].

Definition parameter_table : list (string * setter) := integer_parameters ++ ratio_parameters.

Fixpoint find_setter (table : list (string * setter)) (param_name : string) : option setter :=
  match table with
  | [] => None
  | (name, set) :: table =>
      if bool_decide (name = param_name) then Some set else find_setter table param_name
  end.

(** Unknown names are ignored. *)
Definition apply_parameter_change (param_name new_value_str : string)
    (params : ConsensusParams) : outcome CE.ConsensusError ConsensusParams :=
  match find_setter parameter_table param_name with
  | Some set => set param_name new_value_str params
  | None => Ok params
  end.

Example change_block_size :
  apply_parameter_change "max_block_size" "8000000" ConsensusParams_default =
  Ok (ConsensusParams_default <| max_block_size := 8000000 |>).
Proof. reflexivity. Qed.

(** The price of a ticket on the test network is above its own maximum. *)
Example testnet_price_above_maximum : max_ticket_price testnet < ticket_price testnet.
Proof. reflexivity. Qed.

(** * Types of parameters *)

Definition u64_parameters (p : ConsensusParams) : list Z := [
  min_stake p; ticket_price p; tickets_per_round p; min_block_time p; reward_amount p;
  target_live_tickets p; halving_interval p; initial_block_reward p;
  ticket_price_adjustment_period p; max_ticket_price p; min_ticket_price p;
  proposal_stake_amount p; voting_period_blocks p; activation_delay_blocks p;
  grace_period_blocks p; slash_forgiveness_period p; pose_challenge_period_blocks p;
  pose_response_timeout_seconds p; max_block_size p; max_tx_size p; block_reward p; dust_limit p;
  min_relay_tx_fee p; masternode_collateral_amount p].

Definition u32_parameters (p : ConsensusParams) : list Z := [
  max_tickets_per_stake p; ticket_maturity p; ticket_expiry p; difficulty_adjustment_window p;
  num_pose_challengers p; num_pose_targets_per_period p; max_pose_failures p;
  reset_failures_period p; min_witness_signatures p; pos_finality_depth p; coinbase_maturity p;
  max_inactivity_blocks p].

(** Every integer parameter has a value of its Rust type. *)
Definition params_typed (p : ConsensusParams) : Prop :=
  Forall (fun v => 0 <= v <= u64_max) (u64_parameters p) /\
  Forall (fun v => 0 <= v <= u32_max) (u32_parameters p).

Definition keeps_typed (set : setter) : Prop :=
  forall name text p p', set name text p = Ok p' -> params_typed p -> params_typed p'.

Lemma take_digits_nonneg acc count s :
  0 <= acc -> 0 <= fst (fst (take_digits acc count s)).
Proof.
  revert acc count. induction s as [|c s IH]; intros acc count Ha; [done|]. cbn.
  destruct (digit_val c) as [d|] eqn:Ed; [|done].
  apply IH. unfold digit_val in Ed. repeat case_match; simplify_eq. lia.
Qed.

Lemma parse_uint_range max s v : parse_uint max s = Some v -> 0 <= v <= max.
Proof.
  unfold parse_uint. intros E.
  pose proof (take_digits_nonneg 0 0 (match s with String "+" rest => rest | _ => s end)) as Hn.
  destruct (take_digits 0 0 _) as [[v' count] rest]. cbn in Hn.
  case_match; simplify_eq. lia.
Qed.

Lemma set_u64_typed type_name set (i : nat) :
  (forall v p, u64_parameters (set v p) = <[i := v]> (u64_parameters p)) ->
  (forall v p, u32_parameters (set v p) = u32_parameters p) ->
  keeps_typed (set_param type_name (parse_uint u64_max) set).
Proof.
  intros H64 H32 name text p p' E [Hp Hq]. unfold set_param in E.
  destruct (parse_uint u64_max text) as [v|] eqn:Ev; simplify_eq.
  unfold params_typed. rewrite H64, H32.
  split; [apply Forall_insert|]; eauto using parse_uint_range.
Qed.

Lemma set_u32_typed type_name set (i : nat) :
  (forall v p, u64_parameters (set v p) = u64_parameters p) ->
  (forall v p, u32_parameters (set v p) = <[i := v]> (u32_parameters p)) ->
  keeps_typed (set_param type_name (parse_uint u32_max) set).
Proof.
  intros H64 H32 name text p p' E [Hp Hq]. unfold set_param in E.
  destruct (parse_uint u32_max text) as [v|] eqn:Ev; simplify_eq.
  unfold params_typed. rewrite H64, H32.
  split; [|apply Forall_insert]; eauto using parse_uint_range.
Qed.

Lemma set_f64_typed type_name set :
  (forall v p, u64_parameters (set v p) = u64_parameters p) ->
  (forall v p, u32_parameters (set v p) = u32_parameters p) ->
  keeps_typed (set_param type_name parse_f64 set).
Proof.
  intros H64 H32 name text p p' E Hp. unfold set_param in E.
  destruct (parse_f64 text) as [v|]; simplify_eq.
  unfold params_typed. by rewrite H64, H32.
Qed.

(** Finds the position a setter writes to. *)
Ltac typed_setter lemma i :=
  first [solve [apply (lemma _ _ i); intros; reflexivity] | typed_setter lemma (S i)].

Lemma parameter_table_typed : Forall (fun e => keeps_typed (snd e)) parameter_table.
Proof.
  unfold parameter_table, integer_parameters, ratio_parameters. cbn [app].
  repeat apply Forall_cons_2; [..|by apply Forall_nil_2]; cbn [snd];
  lazymatch goal with
  | |- keeps_typed (set_param _ (parse_uint u64_max) _) => typed_setter set_u64_typed 0%nat
  | |- keeps_typed (set_param _ (parse_uint u32_max) _) => typed_setter set_u32_typed 0%nat
  | |- _ => apply set_f64_typed; intros; reflexivity
  end.
Qed.

Lemma find_setter_in table name set :
  find_setter table name = Some set -> exists n, (n, set) ∈ table.
Proof.
  induction table as [|[n s] table IH]; cbn; [done|].
  case_bool_decide; intros E; simplify_eq.
  - eexists. left.
  - destruct (IH E) as [n' Hn]. exists n'. by right.
Qed.

(** ** What a change does *)

(** The fields of the struct: name, declared type and value. *)
Inductive FieldType : Type := U64Field | U32Field | UsizeField | F64Field | BytesField.
Inductive FieldValue : Type := IntValue (v : Z) | FloatValue (x : f64) | BytesValue (b : bytes).

Definition params_schema : list (string * FieldType * (ConsensusParams -> FieldValue)) := [
  ("min_stake", U64Field, fun p => IntValue (min_stake p));
  ("max_tickets_per_stake", U32Field, fun p => IntValue (max_tickets_per_stake p));
  ("ticket_price", U64Field, fun p => IntValue (ticket_price p));
  ("ticket_maturity", U32Field, fun p => IntValue (ticket_maturity p));
  ("ticket_expiry", U32Field, fun p => IntValue (ticket_expiry p));
  ("tickets_per_round", UsizeField, fun p => IntValue (tickets_per_round p));
  ("min_block_time", U64Field, fun p => IntValue (min_block_time p));
  ("reward_amount", U64Field, fun p => IntValue (reward_amount p));
  ("target_live_tickets", U64Field, fun p => IntValue (target_live_tickets p));
  ("price_adjustment_factor", F64Field, fun p => FloatValue (price_adjustment_factor p));
  ("difficulty_adjustment_window", U32Field, fun p => IntValue (difficulty_adjustment_window p));
  ("halving_interval", U64Field, fun p => IntValue (halving_interval p));
  ("initial_block_reward", U64Field, fun p => IntValue (initial_block_reward p));
  ("pos_reward_ratio", F64Field, fun p => FloatValue (pos_reward_ratio p));
  ("miner_address", BytesField, fun p => BytesValue (miner_address p));
  ("ticket_price_adjustment_period", U64Field, fun p => IntValue (ticket_price_adjustment_period p));
  ("max_ticket_price", U64Field, fun p => IntValue (max_ticket_price p));
  ("min_ticket_price", U64Field, fun p => IntValue (min_ticket_price p));
  ("proposal_stake_amount", U64Field, fun p => IntValue (proposal_stake_amount p));
  ("voting_period_blocks", U64Field, fun p => IntValue (voting_period_blocks p));
  ("pos_voting_quorum_percentage", F64Field, fun p => FloatValue (pos_voting_quorum_percentage p));
  ("mn_voting_quorum_percentage", F64Field, fun p => FloatValue (mn_voting_quorum_percentage p));
  ("pos_approval_percentage", F64Field, fun p => FloatValue (pos_approval_percentage p));
  ("mn_approval_percentage", F64Field, fun p => FloatValue (mn_approval_percentage p));
  ("activation_delay_blocks", U64Field, fun p => IntValue (activation_delay_blocks p));
  ("grace_period_blocks", U64Field, fun p => IntValue (grace_period_blocks p));
  ("slash_forgiveness_period", U64Field, fun p => IntValue (slash_forgiveness_period p));
  ("malicious_behavior_slash_percentage", F64Field, fun p => FloatValue (malicious_behavior_slash_percentage p));
  ("pose_challenge_period_blocks", U64Field, fun p => IntValue (pose_challenge_period_blocks p));
  ("num_pose_challengers", U32Field, fun p => IntValue (num_pose_challengers p));
  ("num_pose_targets_per_period", U32Field, fun p => IntValue (num_pose_targets_per_period p));
  ("pose_response_timeout_seconds", U64Field, fun p => IntValue (pose_response_timeout_seconds p));
  ("max_pose_failures", U32Field, fun p => IntValue (max_pose_failures p));
  ("reset_failures_period", U32Field, fun p => IntValue (reset_failures_period p));
  ("min_witness_signatures", U32Field, fun p => IntValue (min_witness_signatures p));
  ("pos_finality_depth", U32Field, fun p => IntValue (pos_finality_depth p));
  ("max_block_size", U64Field, fun p => IntValue (max_block_size p));
  ("max_tx_size", UsizeField, fun p => IntValue (max_tx_size p));
  ("block_reward", U64Field, fun p => IntValue (block_reward p));
  ("coinbase_maturity", U32Field, fun p => IntValue (coinbase_maturity p));
  ("dust_limit", U64Field, fun p => IntValue (dust_limit p));
  ("min_relay_tx_fee", U64Field, fun p => IntValue (min_relay_tx_fee p));
  ("masternode_collateral_amount", U64Field, fun p => IntValue (masternode_collateral_amount p));
  ("max_inactivity_blocks", U32Field, fun p => IntValue (max_inactivity_blocks p));
  ("protocol_upgrade_approval_percentage", F64Field, fun p => FloatValue (protocol_upgrade_approval_percentage p));
  ("parameter_change_approval_percentage", F64Field, fun p => FloatValue (parameter_change_approval_percentage p));
  ("treasury_spend_approval_percentage", F64Field, fun p => FloatValue (treasury_spend_approval_percentage p));
  ("bug_fix_approval_percentage", F64Field, fun p => FloatValue (bug_fix_approval_percentage p));
  ("community_fund_approval_percentage", F64Field, fun p => FloatValue (community_fund_approval_percentage p))
]%string.

Definition read_fields (p : ConsensusParams) : list (string * FieldValue) :=
  (fun '(name, _, get) => (name, get p)) <$> params_schema.

Definition write_field (name : string) (v : FieldValue) (fields : list (string * FieldValue)) : list (string * FieldValue) :=
  (fun e => if bool_decide (fst e = name) then (fst e, v) else e) <$> fields.

(** [str::parse] at the type of a field; no text is read as bytes. *)
Definition parse_field (t : FieldType) (text : string) : option FieldValue :=
  match t with
  | U64Field | UsizeField => IntValue <$> parse_uint u64_max text
  | U32Field => IntValue <$> parse_uint u32_max text
  | F64Field => FloatValue <$> parse_f64 text
  | BytesField => None
  end.

Definition field_type (name : string) : option FieldType :=
  foldr (fun '(n, t, _) r => if bool_decide (n = name) then Some t else r) None params_schema.

Definition settable (t : FieldType) : bool := match t with BytesField => false | _ => true end.

(** An arm writes the field of its name and no other. *)
Definition setter_exact (name : string) (set : setter) : Prop :=
  exists t, field_type name = Some t /\ settable t = true /\ forall label text p,
    match parse_field t text with
    | Some v => exists p', set label text p = Ok p' /\ read_fields p' = write_field name v (read_fields p)
    | None => exists reason, set label text p = Err (CE.RuleViolation reason)
    end.

Lemma parameter_table_exact : Forall (fun e => setter_exact (fst e) (snd e)) parameter_table.
Proof.
  unfold parameter_table, integer_parameters, ratio_parameters. cbn [app].
  repeat apply Forall_cons_2; [..|by apply Forall_nil_2]; cbn [fst snd];
  (eexists; split; [reflexivity|]; split; [reflexivity|]; intros label text p; unfold set_param; cbn [parse_field];
   match goal with |- context [?f <$> ?parse] => destruct parse as [v|]; cbn [fmap option_fmap option_map] end;
   [eexists; split; [reflexivity|by destruct p]|eauto]).
Qed.

Lemma find_setter_exact name : 
  match find_setter parameter_table name with
  | Some set => (name, set) ∈ parameter_table
  | None => name ∉ parameter_table.*1
  end.
Proof.
  induction parameter_table as [|[n s] table IH]; cbn [find_setter fmap list_fmap fst]; [by apply not_elem_of_nil|].
  case_bool_decide as Hn; [subst; by left|]. destruct (find_setter table name); [by right|].
  apply not_elem_of_cons. split; [congruence|done].
Qed.

(** Every field but the address has an arm. *)
Lemma unknown_name name : name ∉ parameter_table.*1 ->
  field_type name = None \/ field_type name = Some BytesField.
Proof.
  assert (Hall : Forall (fun '(n, t, _) => settable t = false \/ n ∈ parameter_table.*1) params_schema).
  { unfold params_schema. repeat apply Forall_cons_2; [..|by apply Forall_nil_2];
      first [left; reflexivity | right; by apply (bool_decide_unpack _); vm_compute]. }
  intros Hn. unfold field_type. revert Hall. generalize params_schema. intros schema Hall.
  induction Hall as [|[[n t] get] schema Ht _ IH]; [by left|]. cbn [foldr]. case_bool_decide as E; [|done].
  subst n. destruct Ht as [Ht|Ht]; [|done]. right. by destruct t.
Qed.

(** C29. A parameter change sets the field of the struct that has the name given,
    if the text parses at the declared type of that field, and leaves every
    other field as it was; if the text does not parse it fails with a rule
    violation; a name that is no field, or the miner address, is ignored. *)
Theorem parameter_change_exact name text p :
  match field_type name with
  | None | Some BytesField => apply_parameter_change name text p = Ok p
  | Some t =>
      match parse_field t text with
      | Some v => exists p', apply_parameter_change name text p = Ok p' /\ read_fields p' = write_field name v (read_fields p)
      | None => exists reason, apply_parameter_change name text p = Err (CE.RuleViolation reason)
      end
  end.
Proof.
  unfold apply_parameter_change. pose proof (find_setter_exact name) as Hf.
  destruct (find_setter parameter_table name) as [set|].
  - pose proof (proj1 (Forall_forall _ _) parameter_table_exact _ Hf) as (t & Ht & Hs & Hx). cbn [fst snd] in *. rewrite Ht.
    specialize (Hx name text p). by destruct t.
  - by destruct (unknown_name name Hf) as [-> | ->].
Qed.

(** Integer parameters keep values of their types [u64], [usize] and [u32]. *)
Theorem parameter_change_typed name text p p' :
  params_typed p -> apply_parameter_change name text p = Ok p' -> params_typed p'.
Proof.
  unfold apply_parameter_change. intros Hp E.
  destruct (find_setter parameter_table name) as [set|] eqn:Ef; [|by simplify_eq].
  apply find_setter_in in Ef as [n Hn].
  pose proof (proj1 (Forall_forall _ _) parameter_table_typed _ Hn) as Hk.
  exact (Hk name text p p' E Hp).
Qed.

Lemma default_params_typed : params_typed ConsensusParams_default.
Proof. split; apply (bool_decide_unpack _); vm_compute; exact I. Qed.

Lemma parameter_change_typed_witness :
  exists p', apply_parameter_change "coinbase_maturity" "4294967295" ConsensusParams_default = Ok p' /\
    params_typed p'.
Proof.
  eexists. split; [reflexivity|].
  apply (parameter_change_typed "coinbase_maturity" "4294967295" ConsensusParams_default);
    [exact default_params_typed | reflexivity].
Defined.

(** The text [nan] is a value of every [f64] parameter: a quorum set to it can
    never be reached again. *)
Example nan_accepted :
  apply_parameter_change "pos_voting_quorum_percentage" "nan" ConsensusParams_default =
  Ok (ConsensusParams_default <| pos_voting_quorum_percentage := S754_nan |>).
Proof. reflexivity. Qed.
