(* ===== verification/U256.v ===== *)
(** 256-bit unsigned integers (the [U256] of the primitive-types crate).

    The crate is not part of the workspace, so the type is an interface: the
    operations the proof-of-work code calls, and as laws what their
    documentation promises: operators [*] and [/] panic on overflow and on a
    zero divisor, shifts drop the bits that leave the 256-bit range. *)

From Stdlib Require Import ZArith Lia List.
From stdpp Require Import base option list numbers.
From S2P Require Import Prelude.

#[local] Open Scope Z_scope.

Abbreviation two256 := (2 ^ 256).

Class U256 : Type := {
  u256 : Type;
  u256_val : u256 -> Z;
  u256_from : Z -> u256;
  u256_mul : u256 -> u256 -> option u256;
  u256_div : u256 -> u256 -> option u256;
  u256_shl : u256 -> Z -> u256;
  u256_shr : u256 -> Z -> u256;
  u256_bits : u256 -> Z;
  u256_leading_zeros : u256 -> Z;
  u256_low_u64 : u256 -> Z;
  u256_low_u32 : u256 -> Z;
  u256_from_big_endian : bytes -> u256;
  u256_from_little_endian : bytes -> u256;
  u256_to_big_endian : u256 -> bytes;
}.

Class U256Laws `(U256) : Prop := {
  u256_range : forall a, 0 <= u256_val a < two256;
  u256_from_val : forall n, is_u64 n -> u256_val (u256_from n) = n;
  u256_mul_val : forall a b, u256_val a * u256_val b < two256 ->
    exists c, u256_mul a b = Some c /\ u256_val c = u256_val a * u256_val b;
  u256_mul_overflow : forall a b, two256 <= u256_val a * u256_val b -> u256_mul a b = None;
  u256_div_val : forall a b, u256_val b <> 0 ->
    exists c, u256_div a b = Some c /\ u256_val c = u256_val a / u256_val b;
  u256_div_zero : forall a b, u256_val b = 0 -> u256_div a b = None;
  u256_shl_val : forall a n, 0 <= n -> u256_val (u256_shl a n) = (u256_val a * 2 ^ n) mod two256;
  u256_shr_val : forall a n, 0 <= n -> u256_val (u256_shr a n) = u256_val a / 2 ^ n;
  u256_bits_val : forall a, u256_val a <> 0 -> u256_bits a = Z.log2 (u256_val a) + 1;
  u256_lz_val : forall a, u256_val a <> 0 ->
    u256_leading_zeros a = 255 - Z.log2 (u256_val a);
  u256_lz_zero : forall a, u256_val a = 0 -> u256_leading_zeros a = 256;
  u256_low_u64_val : forall a, u256_low_u64 a = u256_val a mod 2 ^ 64;
  u256_low_u32_val : forall a, u256_low_u32 a = u256_val a mod 2 ^ 32;
  u256_be_val : forall l, is_bytes l -> length l = 32%nat ->
    u256_val (u256_from_big_endian l) = from_le_bytes (rev l);
  u256_le_val : forall l, is_bytes l -> length l = 32%nat ->
    u256_val (u256_from_little_endian l) = from_le_bytes l;
  u256_to_be : forall a, u256_to_big_endian a = rev (to_le_bytes 32 (u256_val a));
}.

(** Comparisons are comparisons of the numbers. *)
Section Order.
  Context `{U256}.

Definition u256_gt (a b : u256) : bool := u256_val a >? u256_val b.
Definition u256_le (a b : u256) : bool := u256_val a <=? u256_val b.
Definition u256_is_zero (a : u256) : bool := u256_val a =? 0.

(** [Ord::min] and [Ord::max]. *)
Definition u256_min (a b : u256) : u256 := if u256_val b <? u256_val a then b else a.
Definition u256_max (a b : u256) : u256 := if u256_val b <? u256_val a then a else b.

Lemma u256_min_val a b : u256_val (u256_min a b) = Z.min (u256_val a) (u256_val b).
Proof. unfold u256_min. destruct (Z.ltb_spec (u256_val b) (u256_val a)); lia. Qed.

Lemma u256_max_val a b : u256_val (u256_max a b) = Z.max (u256_val a) (u256_val b).
Proof. unfold u256_max. destruct (Z.ltb_spec (u256_val b) (u256_val a)); lia. Qed.

End Order.

(** * An instance: integers modulo 2^256 *)

#[export] Instance z_u256 : U256 := {|
  u256 := Z;
  u256_val z := z mod two256;
  u256_from n := n;
  u256_mul a b :=
    let c := (a mod two256) * (b mod two256) in if c <? two256 then Some c else None;
  u256_div a b := if b mod two256 =? 0 then None else Some ((a mod two256) / (b mod two256));
  u256_shl a n := (a mod two256) * 2 ^ n;
  u256_shr a n := (a mod two256) / 2 ^ n;
  u256_bits a := if a mod two256 =? 0 then 0 else Z.log2 (a mod two256) + 1;
  u256_leading_zeros a := if a mod two256 =? 0 then 256 else 255 - Z.log2 (a mod two256);
  u256_low_u64 a := a mod two256 mod 2 ^ 64;
  u256_low_u32 a := a mod two256 mod 2 ^ 32;
  u256_from_big_endian l := from_le_bytes (rev l);
  u256_from_little_endian l := from_le_bytes l;
  u256_to_big_endian a := rev (to_le_bytes 32 (a mod two256));
|}.

#[export] Instance z_u256_laws : U256Laws z_u256.
Proof.
  assert (Hr : forall a, 0 <= a mod two256 < two256) by (intros; apply Z.mod_pos_bound; lia).
  assert (Hd : forall a b, 0 <= (a mod two256) / b <= a mod two256 \/ b < 0).
  { intros a b. pose proof (Hr a). destruct (Z_lt_le_dec b 0); [by right|left].
    destruct (Z.eq_dec b 0) as [->|]; [rewrite Zdiv_0_r; lia|].
    split; [apply Z.div_pos; lia|apply Z.div_le_upper_bound; nia]. }
  split; cbn [u256 u256_val u256_from u256_mul u256_div u256_shl u256_shr u256_bits
    u256_leading_zeros u256_low_u64 u256_low_u32 u256_from_big_endian u256_from_little_endian
    u256_to_big_endian z_u256]; intros.
  - done.
  - apply Z.mod_small. unfold is_u64, u64_max in *. lia.
  - rewrite (proj2 (Z.ltb_lt _ _)) by done. eexists. split; [done|]. apply Z.mod_small.
    pose proof (Hr a). pose proof (Hr b). nia.
  - by rewrite (proj2 (Z.ltb_ge _ _)).
  - rewrite (proj2 (Z.eqb_neq _ _)) by done. eexists. split; [done|]. apply Z.mod_small.
    pose proof (Hr a). pose proof (Hr b). destruct (Hd a (b mod two256)); lia.
  - by rewrite (proj2 (Z.eqb_eq _ _)).
  - done.
  - apply Z.mod_small. pose proof (Hr a). pose proof (Z.pow_pos_nonneg 2 n ltac:(lia) ltac:(lia)).
    destruct (Hd a (2 ^ n)); lia.
  - by rewrite (proj2 (Z.eqb_neq _ _)).
  - by rewrite (proj2 (Z.eqb_neq _ _)).
  - by rewrite (proj2 (Z.eqb_eq _ _)).
  - done.
  - done.
  - apply Z.mod_small. pose proof (from_le_bytes_bound (rev l)) as Hb.
    rewrite length_rev in Hb. assert (is_bytes (rev l)) by (by apply Forall_rev).
    replace (length l) with 32%nat in Hb by done.
    change (256 ^ Z.of_nat 32) with two256 in Hb. auto.
  - apply Z.mod_small. pose proof (from_le_bytes_bound l) as Hb.
    replace (length l) with 32%nat in Hb by done.
    change (256 ^ Z.of_nat 32) with two256 in Hb. auto.
  - done.
Qed.
