(* ===== verification/Pow.v ===== *)
(** Proof of work: compact targets, difficulty adjustment and block checks of
    src/rusty-consensus/src/pow.rs and src/rusty-core/src/consensus/pow.rs.

    The two crates each have their own version of the compact encoding, of the
    adjustment and of the check; the names of rusty-core's carry the prefix
    [core_].
    [mine_block], which races threads over a shared nonce counter, is not
    modelled. *)

From Stdlib Require Import ZArith Lia List.
From stdpp Require Import base option list numbers strings.
From S2P Require Import Prelude Types Errors Transaction SamplePrimitives U256 OxideHash.

#[local] Open Scope Z_scope.

Section Compact.
  Context `{U256}.

(** The fields of a compact target. *)
Definition compact_exponent (compact : Z) : Z := wrap8 (Z.shiftr compact 24).
Definition compact_mantissa (compact : Z) : Z := Z.land compact 0x007FFFFF.
Definition compact_negative (compact : Z) : bool := negb (Z.land compact 0x00800000 =? 0).

(** The last steps of both [target_to_compact]: move a set sign bit into the
    exponent, then pack. *)
Definition pack_compact (size compact : Z) : Z :=
  let '(size, compact) :=
    if negb (Z.land compact 0x00800000 =? 0) then (size + 1, Z.shiftr compact 8)
    else (size, compact) in
  Z.lor (Z.land compact 0x007FFFFF) (wrap32 (Z.shiftl (wrap32 size) 24)).

End Compact.

(** * src/rusty-consensus/src/pow.rs *)

Section Consensus.
  Context `{U256}.

(** The shift amounts are [u8] products: they wrap. *)
Definition compact_to_target (compact_difficulty : Z) : u256 :=
  let exponent := compact_exponent compact_difficulty in
  let mantissa := compact_mantissa compact_difficulty in
  let negative := compact_negative compact_difficulty in
  if mantissa =? 0 then u256_from 0 else
  let target :=
    if exponent <=? 3 then u256_shr (u256_from mantissa) (wrap8 (8 * (3 - exponent)))
    else u256_shl (u256_from mantissa) (wrap8 (8 * (exponent - 3))) in
  if negative then u256_from 0 else target.

Definition target_to_compact (target : u256) : Z :=
  if u256_is_zero target then 0 else
  let size := (u256_bits target + 7) / 8 in
  let compact :=
    if size <=? 3 then wrap32 (Z.shiftl (wrap32 (u256_low_u64 target)) (8 * (3 - size)))
    else wrap32 (u256_low_u64 (u256_shr target (8 * (size - 3)))) in
  pack_compact size compact.

Definition compact_to_target_bytes (compact_difficulty : Z) : bytes :=
  u256_to_big_endian (compact_to_target compact_difficulty).

Definition target_bytes_to_compact (target_bytes : bytes) : Z :=
  target_to_compact (u256_from_big_endian target_bytes).

Definition calculate_target_from_difficulty (compact_difficulty : Z) : bytes :=
  compact_to_target_bytes compact_difficulty.

Definition PRECISION_FACTOR : Z := 1000000000.

Definition calculate_new_target {E} (previous_target : u256)
    (actual_time_span expected_time_span max_difficulty_adjustment_factor : Z)
    (min_difficulty_target max_target : u256) : outcome E u256 :=
  let actual_time_u256 := u256_from actual_time_span in
  let expected_time_u256 := u256_from expected_time_span in
  time_ratio_numerator ← unwrap (u256_mul actual_time_u256 (u256_from PRECISION_FACTOR));
  time_ratio ← unwrap (u256_div time_ratio_numerator expected_time_u256);
  min_ratio ← unwrap (u256_div (u256_from PRECISION_FACTOR)
                        (u256_from max_difficulty_adjustment_factor));
  max_ratio ← unwrap (u256_mul (u256_from PRECISION_FACTOR)
                        (u256_from max_difficulty_adjustment_factor));
  let clamped_time_ratio := u256_max (u256_min time_ratio max_ratio) min_ratio in
  product ← unwrap (u256_mul previous_target clamped_time_ratio);
  new_target ← unwrap (u256_div product (u256_from PRECISION_FACTOR));
  let new_target :=
    if u256_gt new_target min_difficulty_target && negb (u256_is_zero min_difficulty_target)
    then min_difficulty_target else new_target in
  mret (if u256_gt new_target max_target then max_target else new_target).

Context `{Primitives}.

(** The header with its nonce zeroed, as it is serialized for hashing. *)
Definition without_nonce (h : BlockHeader) : BlockHeader :=
  mkBlockHeader (header_version h) (header_height h) (previous_block_hash h) (merkle_root h)
    (state_root h) (timestamp h) (difficulty_target h) 0.

(** A call of [calculate_oxide_hash] on a new hasher. *)
Definition fresh_oxide_hash {E} (header_bytes : bytes) (nonce : Z) : outcome E Hash :=
  match snd (calculate_oxide_hash OxideHasher_new header_bytes nonce) with
  | Ok h => Ok h
  | Err e => match e with end
  | Panic => Panic
  | OutOfFuel => OutOfFuel
  end.

Definition verify_pow (h : BlockHeader) (compact_difficulty_bits : Z) :
    outcome CCE.ConsensusCrateError unit :=
  let target_hash := compact_to_target compact_difficulty_bits in
  header_bytes ← ok_or (bincode_header (without_nonce h)) (CCE.SerializationError "");
  hash ← fresh_oxide_hash header_bytes (nonce h);
  if u256_le (u256_from_big_endian hash) target_hash then Ok tt
  else Err CCE.InvalidProofOfWork.

Definition validate_pow (block : Block) (target : Z) : outcome CCE.ConsensusCrateError unit :=
  let target_hash := compact_to_target_bytes target in
  header_bytes ← unwrap (bincode_header (without_nonce (header block)));
  hash ← fresh_oxide_hash header_bytes (nonce (header block));
  if bytes_le hash target_hash then Ok tt else Err CCE.InvalidProofOfWork.

(** [OxideHasher { target }] of the consensus crate. *)
Definition OxideHasher_verify (target : bytes) (block : Block) :
    outcome CCE.ConsensusCrateError unit :=
  header_bytes ← unwrap (bincode_header (without_nonce (header block)));
  hash ← fresh_oxide_hash header_bytes (nonce (header block));
  if u256_gt (u256_from_big_endian hash) (u256_from_big_endian target)
  then Err (CCE.InvalidProof "block hash doesn't meet target difficulty")
  else Ok tt.

Definition OxideHasher_calculate_hash (block : Block) : outcome CCE.ConsensusCrateError Hash :=
  header_bytes ← unwrap (bincode_header (without_nonce (header block)));
  fresh_oxide_hash header_bytes (nonce (header block)).

Definition is_block_hash_valid (target : bytes) (block_hash : Hash) : bool :=
  u256_le (u256_from_big_endian block_hash) (u256_from_big_endian target).

End Consensus.

(** * src/rusty-core/src/consensus/pow.rs *)

Section Core.
  Context `{U256}.

Definition core_compact_to_target (compact : Z) : u256 :=
  let exponent := compact_exponent compact in
  let value := u256_from (compact_mantissa compact) in
  if exponent <=? 3 then u256_shr value (8 * (3 - exponent))
  else u256_shl value (8 * (exponent - 3)).

Definition core_target_to_compact (target : u256) : Z :=
  let size := wrap32 (32 - u256_leading_zeros target / 8) in
  let compact :=
    if size <=? 3 then wrap32 (Z.shiftl (u256_low_u32 target) (8 * (3 - size)))
    else u256_low_u32 (u256_shr target (8 * (size - 3))) in
  pack_compact size compact.

Definition TARGET_BLOCK_TIME_SECS : Z := 150.
Definition DIFFICULTY_ADJUSTMENT_INTERVAL : Z := 2016.

(** [U256([0x00000000FFFF0000, 0, 0, 0])]: the limbs are least significant first. *)
Definition CORE_MAX_TARGET : u256 := u256_from 0x00000000FFFF0000.

Definition calculate_next_difficulty {E} (last_block_time first_block_time : Z)
    (current_target : u256) : outcome E u256 :=
  let actual_time_taken := wrap64 (last_block_time - first_block_time) in
  let expected_time_taken := u64_mul TARGET_BLOCK_TIME_SECS DIFFICULTY_ADJUSTMENT_INTERVAL in
  let scale :=
    product ← unwrap (u256_mul current_target (u256_from actual_time_taken));
    unwrap (u256_div product (u256_from expected_time_taken)) in
  new_target ←
    (if actual_time_taken >? u64_mul expected_time_taken 4 then
       unwrap (u256_mul current_target (u256_from 4))
     else if actual_time_taken >? expected_time_taken then scale
     else if actual_time_taken <? expected_time_taken / 4 then
       unwrap (u256_div current_target (u256_from 4))
     else if actual_time_taken <? expected_time_taken then scale
     else mret current_target);
  mret (if u256_gt new_target CORE_MAX_TARGET then CORE_MAX_TARGET else new_target).

(** The adjustment window and the maximal timespan of the source are unused
    parameters. *)
Definition core_calculate_new_target {E} (current_target : u256)
    (actual_timespan target_timespan : Z) (max_target : u256) : outcome E u256 :=
  let clamped_timespan :=
    Z.min (Z.max actual_timespan (target_timespan / 4)) (u64_mul target_timespan 4) in
  product ← unwrap (u256_mul current_target (u256_from clamped_timespan));
  new_target ← unwrap (u256_div product (u256_from target_timespan));
  mret (if u256_gt new_target max_target then max_target else new_target).

Context `{Primitives}.

Definition core_verify_pow (h : BlockHeader) (target : u256) : outcome Empty_set bool :=
  hash ← calculate_hash h;
  mret (u256_le (u256_from_little_endian hash) target).

End Core.
