(* ===== verification/PowProps.v ===== *)
(** Properties of the proof-of-work code: the compact encoding of targets, the
    bounds of the difficulty adjustment, and what a successful check means. *)

From Stdlib Require Import ZArith Lia List.
From stdpp Require Import base option list numbers strings.
From S2P Require Import Prelude Types Errors Transaction SamplePrimitives U256 OxideHash Pow.

#[local] Open Scope Z_scope.

(** * Bit fields *)

Lemma land_above a b n : 0 <= n -> 0 <= a < 2 ^ n -> Z.land a (b * 2 ^ n) = 0.
Proof.
  intros Hn Ha. apply Z.bits_inj'. intros i Hi. rewrite Z.land_spec, Z.bits_0.
  destruct (Z_lt_le_dec i n).
  - rewrite Z.mul_pow2_bits_low by lia. apply andb_false_r.
  - rewrite <- (Z.mod_small a (2 ^ n)) by lia. by rewrite Z.mod_pow2_bits_high by lia.
Qed.

Lemma lor_above a b n : 0 <= n -> 0 <= a < 2 ^ n -> Z.lor a (b * 2 ^ n) = a + b * 2 ^ n.
Proof. intros Hn Ha. symmetry. apply Z.add_nocarry_lor. by apply land_above. Qed.

(** The sign bit of a 24-bit mantissa. *)
Lemma sign_bit_spec x : 0 <= x < 2 ^ 24 -> (Z.land x 0x00800000 =? 0) = (x <? 2 ^ 23).
Proof.
  intros Hx. change 0x00800000 with (1 * 2 ^ 23).
  destruct (Z.ltb_spec x (2 ^ 23)) as [Hl|Hl].
  - rewrite land_above by lia. done.
  - apply Z.eqb_neq. intros H0.
    assert (Hb : Z.testbit (Z.land x (1 * 2 ^ 23)) 23 = false) by (by rewrite H0, Z.bits_0).
    rewrite Z.land_spec in Hb. replace (1 * 2 ^ 23) with (2 ^ 23) in Hb by lia.
    rewrite Z.pow2_bits_true, andb_true_r in Hb by lia.
    assert (Ht : Z.testbit x 23 = true).
    { rewrite Z.testbit_true by lia.
      rewrite <- (Z.div_unique x (2 ^ 23) 1 (x - 2 ^ 23)); [done|lia|lia]. }
    congruence.
Qed.

(** A compact target with exponent [e] and mantissa [m]. *)
Definition compact (e m : Z) : Z := m + e * 2 ^ 24.

Lemma compact_exponent_spec e m :
  0 <= m < 2 ^ 24 -> 0 <= e < 256 -> compact_exponent (compact e m) = e.
Proof.
  intros Hm He. unfold compact_exponent, compact. rewrite Z.shiftr_div_pow2 by lia.
  rewrite Z.div_add, Z.div_small by lia. unfold wrap8. rewrite Z.mod_small; lia.
Qed.

Lemma compact_mantissa_spec e m :
  0 <= m < 2 ^ 23 -> 0 <= e -> compact_mantissa (compact e m) = m.
Proof.
  intros Hm He. unfold compact_mantissa, compact. change 0x007FFFFF with (Z.ones 23).
  rewrite Z.land_ones by lia. replace (e * 2 ^ 24) with (2 * e * 2 ^ 23) by lia.
  rewrite Z.mod_add, Z.mod_small; lia.
Qed.

Lemma compact_negative_spec e m :
  0 <= m < 2 ^ 23 -> 0 <= e -> compact_negative (compact e m) = false.
Proof.
  intros Hm He. unfold compact_negative, compact.
  change 0x00800000 with (Z.shiftl 1 23).
  assert (Hl : Z.land (m + e * 2 ^ 24) (Z.shiftl 1 23) = 0).
  { rewrite <- (lor_above m e 24) by lia. rewrite Z.land_lor_distr_l.
    rewrite Z.shiftl_mul_pow2 by lia. rewrite land_above by lia. rewrite Z.lor_0_l.
    rewrite Z.land_comm. apply land_above; lia. }
  by rewrite Hl.
Qed.

Lemma pack_compact_spec size x :
  0 <= x < 2 ^ 24 -> 0 <= size <= 200 ->
  pack_compact size x =
    if x <? 2 ^ 23 then compact size x else compact (size + 1) (x / 2 ^ 8).
Proof.
  intros Hx Hs. unfold pack_compact. rewrite sign_bit_spec by done.
  assert (Hg : forall s y, 0 <= y < 2 ^ 23 -> 0 <= s <= 201 ->
    Z.lor (Z.land y 0x007FFFFF) (wrap32 (Z.shiftl (wrap32 s) 24)) = compact s y).
  { intros s y Hy Hs'. change 0x007FFFFF with (Z.ones 23).
    rewrite Z.land_ones, Z.mod_small by lia.
    rewrite (wrap32_small s) by (unfold u32_max; lia).
    rewrite Z.shiftl_mul_pow2 by lia. rewrite wrap32_small by (unfold u32_max; lia).
    apply lor_above; lia. }
  destruct (Z.ltb_spec x (2 ^ 23)); cbn [negb].
  - apply Hg; lia.
  - rewrite Z.shiftr_div_pow2 by lia. apply Hg; [|lia].
    split; [apply Z.div_pos; lia|apply Z.div_lt_upper_bound; lia].
Qed.

(** * The two encoders are the same function *)

(** The size in bytes and the leading three bytes of a target. *)
Definition target_size (t : Z) : Z := Z.log2 t / 8 + 1.
Definition target_lead (t : Z) : Z :=
  if target_size t <=? 3 then t * 2 ^ (8 * (3 - target_size t))
  else t / 2 ^ (8 * (target_size t - 3)).

Lemma target_size_bounds t :
  0 < t -> 2 ^ (8 * (target_size t - 1)) <= t < 2 ^ (8 * target_size t) /\ 1 <= target_size t.
Proof.
  intros Ht. unfold target_size. pose proof (Z.log2_spec t Ht) as [Hl Hu].
  pose proof (Z.log2_nonneg t). pose proof (Z.div_mod (Z.log2 t) 8 ltac:(lia)) as Hd.
  pose proof (Z.mod_pos_bound (Z.log2 t) 8 ltac:(lia)).
  pose proof (Z.div_pos (Z.log2 t) 8 ltac:(lia) ltac:(lia)).
  split_and!; [|eapply Z.lt_le_trans; [exact Hu|]|lia].
  - etransitivity; [|exact Hl]. apply Z.pow_le_mono_r; lia.
  - apply Z.pow_le_mono_r; lia.
Qed.

Lemma target_size_le_32 t : 0 < t < two256 -> target_size t <= 32.
Proof.
  intros [Ht Hu]. unfold target_size. apply Z.log2_lt_pow2 in Hu; [|done].
  pose proof (Z.div_lt_upper_bound (Z.log2 t) 8 32). lia.
Qed.

Lemma target_lead_bounds t : 0 < t -> 2 ^ 16 <= target_lead t < 2 ^ 24.
Proof.
  intros Ht. destruct (target_size_bounds t Ht) as [[Hl Hu] Hs]. unfold target_lead.
  destruct (Z.leb_spec (target_size t) 3).
  - assert (Hp : 0 < 2 ^ (8 * (3 - target_size t))) by (apply Z.pow_pos_nonneg; lia).
    replace (2 ^ 16) with (2 ^ (8 * (target_size t - 1)) * 2 ^ (8 * (3 - target_size t)))
      by (rewrite <- Z.pow_add_r by lia; f_equal; lia).
    replace (2 ^ 24) with (2 ^ (8 * target_size t) * 2 ^ (8 * (3 - target_size t)))
      by (rewrite <- Z.pow_add_r by lia; f_equal; lia). nia.
  - assert (Hp : 0 < 2 ^ (8 * (target_size t - 3))) by (apply Z.pow_pos_nonneg; lia).
    split.
    + apply Z.div_le_lower_bound; [done|]. rewrite <- Z.pow_add_r by lia.
      etransitivity; [|exact Hl]. apply Z.pow_le_mono_r; lia.
    + apply Z.div_lt_upper_bound; [done|]. rewrite <- Z.pow_add_r by lia.
      eapply Z.lt_le_trans; [exact Hu|]. apply Z.pow_le_mono_r; lia.
Qed.

(** The value of a compact target whose fields are in range. *)
Definition compact_value (e m : Z) : Z :=
  if e <=? 3 then m / 2 ^ (8 * (3 - e)) else m * 2 ^ (8 * (e - 3)).

(** Packing the leading bytes of a number keeps its leading 15 bits at least. *)
Lemma packed_fields v :
  0 < v < two256 ->
  exists e m, pack_compact (target_size v) (target_lead v) = compact e m /\
    2 ^ 15 <= m < 2 ^ 23 /\ 0 <= e <= 34 /\
    (e <= 3 -> compact_value e m = v) /\ (3 < e -> m = v / 2 ^ (8 * (e - 3))).
Proof.
  intros [Hv Hv256]. pose proof (target_lead_bounds v Hv) as Hlead.
  pose proof (target_size_bounds v Hv) as [_ Hs]. pose proof (target_size_le_32 v (conj Hv Hv256)).
  rewrite pack_compact_spec by lia. unfold compact_value, target_lead in *.
  generalize dependent (target_size v). intros s Hlead Hs Hs32.
  destruct (Z.ltb_spec (if s <=? 3 then v * 2 ^ (8 * (3 - s)) else v / 2 ^ (8 * (s - 3))) (2 ^ 23))
    as [Hsm|Hbg]; destruct (Z.leb_spec s 3) as [H3|H3].
  - exists s, (v * 2 ^ (8 * (3 - s))). split_and!; try done; try lia. intros _.
    destruct (Z.leb_spec s 3); [|lia]. apply Z.div_mul, Z.pow_nonzero; lia.
  - exists s, (v / 2 ^ (8 * (s - 3))). split_and!; try done; lia.
  - exists (s + 1), (v * 2 ^ (8 * (3 - s)) / 2 ^ 8). split_and!; try done; try lia.
    + apply Z.div_le_lower_bound; lia.
    + apply Z.div_lt_upper_bound; lia.
    + intros Hs1. destruct (Z.leb_spec (s + 1) 3); [|lia].
      rewrite Z.div_div, <- Z.pow_add_r by lia.
      replace (8 + 8 * (3 - (s + 1))) with (8 * (3 - s)) by lia.
      apply Z.div_mul, Z.pow_nonzero; lia.
    + intros. replace s with 3 by lia. by rewrite Z.mul_1_r.
  - exists (s + 1), (v / 2 ^ (8 * (s - 3)) / 2 ^ 8). split_and!; try done; try lia.
    + apply Z.div_le_lower_bound; lia.
    + apply Z.div_lt_upper_bound; lia.
    + intros. rewrite Z.div_div, <- Z.pow_add_r by (try apply Z.pow_nonzero; lia).
      do 2 f_equal. lia.
Qed.

Section Encoding.
  Context `{U256Laws}.

Lemma target_to_compact_spec t :
  u256_val t <> 0 ->
  target_to_compact t = pack_compact (target_size (u256_val t)) (target_lead (u256_val t)).
Proof.
  intros Hnz. pose proof (u256_range t) as Hr. assert (Ht : 0 < u256_val t) by lia.
  pose proof (target_lead_bounds _ Ht). pose proof (target_size_bounds _ Ht) as [[Hl Hu] Hs].
  unfold target_to_compact, u256_is_zero.
  destruct (Z.eqb_spec (u256_val t) 0); [done|]. rewrite u256_bits_val by done.
  assert (Hsz : (Z.log2 (u256_val t) + 1 + 7) / 8 = target_size (u256_val t)).
  { unfold target_size. rewrite <- Z.add_assoc. change (1 + 7) with (1 * 8).
    by rewrite Z.div_add by lia. }
  rewrite Hsz. f_equal. unfold target_lead in *.
  destruct (Z.leb_spec (target_size (u256_val t)) 3).
  - rewrite u256_low_u64_val, (Z.mod_small _ (2 ^ 64)).
    + rewrite (wrap32_small (u256_val t)), Z.shiftl_mul_pow2, wrap32_small; try lia.
      * unfold u32_max. lia.
      * unfold u32_max. enough (u256_val t < 2 ^ 24) by lia.
        eapply Z.lt_le_trans; [exact Hu|]. apply Z.pow_le_mono_r; lia.
    + split; [lia|]. eapply Z.lt_le_trans; [exact Hu|]. apply Z.pow_le_mono_r; lia.
  - rewrite u256_low_u64_val, u256_shr_val by lia. rewrite (Z.mod_small _ (2 ^ 64)) by lia.
    apply wrap32_small. unfold u32_max. lia.
Qed.

Lemma core_target_to_compact_eq t : core_target_to_compact t = target_to_compact t.
Proof.
  destruct (Z.eq_dec (u256_val t) 0) as [Hz|Hnz].
  - unfold core_target_to_compact, target_to_compact, u256_is_zero.
    rewrite u256_lz_zero, u256_low_u32_val, Hz by done. done.
  - rewrite target_to_compact_spec by done. unfold core_target_to_compact.
    pose proof (u256_range t) as Hr. assert (Ht : 0 < u256_val t) by lia.
    pose proof (target_lead_bounds _ Ht). pose proof (target_size_bounds _ Ht) as [[Hl Hu] Hs].
    pose proof (target_size_le_32 _ (conj Ht (proj2 Hr))).
    assert (Hsz : 32 - u256_leading_zeros t / 8 = target_size (u256_val t)).
    { rewrite u256_lz_val by done. unfold target_size.
      pose proof (Z.div_mod (Z.log2 (u256_val t)) 8 ltac:(lia)).
      pose proof (Z.mod_pos_bound (Z.log2 (u256_val t)) 8 ltac:(lia)).
      enough ((255 - Z.log2 (u256_val t)) / 8 = 31 - Z.log2 (u256_val t) / 8) by lia.
      symmetry. apply (Z.div_unique _ _ _ (7 - Z.log2 (u256_val t) mod 8)); lia. }
    rewrite Hsz, wrap32_small by (unfold u32_max; lia). f_equal. unfold target_lead in *.
    destruct (Z.leb_spec (target_size (u256_val t)) 3).
    + rewrite u256_low_u32_val, Z.mod_small.
      * rewrite Z.shiftl_mul_pow2, wrap32_small; unfold u32_max; lia.
      * split; [lia|]. eapply Z.lt_le_trans; [exact Hu|]. apply Z.pow_le_mono_r; lia.
    + rewrite u256_low_u32_val, u256_shr_val by lia. apply Z.mod_small. lia.
Qed.

Lemma compact_to_target_val e m :
  0 <= m < 2 ^ 23 -> 0 <= e <= 34 -> compact_value e m < two256 ->
  u256_val (compact_to_target (compact e m)) = compact_value e m /\
  u256_val (core_compact_to_target (compact e m)) = compact_value e m.
Proof.
  intros Hm He Hv. unfold compact_to_target, core_compact_to_target, compact_value in *.
  rewrite compact_exponent_spec, compact_mantissa_spec, compact_negative_spec by lia.
  assert (Hfrom : u256_val (u256_from m) = m)
    by (apply u256_from_val; unfold is_u64, u64_max; lia).
  assert (Hz0 : u256_val (u256_from 0) = 0)
    by (apply u256_from_val; unfold is_u64, u64_max; lia).
  destruct (Z.leb_spec e 3).
  - rewrite u256_shr_val, Hfrom by lia. split; [|done].
    destruct (Z.eqb_spec m 0) as [->|]; [by rewrite Hz0, Zdiv_0_l|].
    unfold wrap8. rewrite Z.mod_small by lia. rewrite u256_shr_val, Hfrom by lia. done.
  - assert (Hp : 0 < 2 ^ (8 * (e - 3))) by (apply Z.pow_pos_nonneg; lia).
    rewrite u256_shl_val, Hfrom, Z.mod_small by nia. split; [|done].
    destruct (Z.eqb_spec m 0) as [->|]; [by rewrite Hz0|].
    unfold wrap8. rewrite (Z.mod_small (8 * (e - 3))) by lia.
    rewrite u256_shl_val, Hfrom, Z.mod_small by nia. done.
Qed.

(** Canonical mantissas have their highest byte or the bit below it in use. *)
Lemma canonical_lead e m :
  2 ^ 15 <= m < 2 ^ 23 -> 3 <= e <= 32 ->
  let t := m * 2 ^ (8 * (e - 3)) in
  0 < t < two256 /\
  (if m <? 2 ^ 16 then target_size t = e - 1 /\ target_lead t = m * 2 ^ 8
   else target_size t = e /\ target_lead t = m).
Proof.
  intros Hm He t. assert (Hp : 0 < 2 ^ (8 * (e - 3))) by (apply Z.pow_pos_nonneg; lia).
  assert (Ht : 0 < t < two256).
  { split; [unfold t; nia|]. unfold t. eapply Z.lt_le_trans with (2 ^ 23 * 2 ^ (8 * (e - 3))); [nia|].
    rewrite <- Z.pow_add_r by lia. apply Z.pow_le_mono_r; lia. }
  split; [done|].
  assert (Hlog : Z.log2 t = Z.log2 m + 8 * (e - 3)) by (unfold t; rewrite Z.log2_mul_pow2; lia).
  assert (Hsz : target_size t = Z.log2 m / 8 + e - 2).
  { unfold target_size. rewrite Hlog.
    replace (Z.log2 m + 8 * (e - 3)) with (Z.log2 m + (e - 3) * 8) by lia.
    rewrite Z.div_add by lia. lia. }
  destruct (Z.ltb_spec m (2 ^ 16)).
  - assert (Hlm : Z.log2 m = 15) by (apply Z.log2_unique; lia).
    rewrite Hlm in Hsz. change (15 / 8) with 1 in Hsz. split; [lia|].
    unfold target_lead. replace (target_size t) with (e - 1) by lia. unfold t.
    destruct (Z.leb_spec (e - 1) 3).
    + rewrite <- Z.mul_assoc, <- Z.pow_add_r by lia. do 2 f_equal. lia.
    + replace (2 ^ (8 * (e - 3))) with (2 ^ 8 * 2 ^ (8 * (e - 1 - 3)))
        by (rewrite <- Z.pow_add_r by lia; f_equal; lia).
      rewrite Z.mul_assoc. apply Z.div_mul. apply Z.pow_nonzero; lia.
  - assert (Hlm : Z.log2 m / 8 = 2).
    { assert (16 <= Z.log2 m) by (change 16 with (Z.log2 (2 ^ 16)); apply Z.log2_le_mono; lia).
      assert (Z.log2 m < 23) by (apply Z.log2_lt_pow2; lia).
      symmetry. apply (Z.div_unique _ _ _ (Z.log2 m - 16)); lia. }
    split; [lia|]. unfold target_lead. replace (target_size t) with e by lia. unfold t.
    destruct (Z.leb_spec e 3).
    + replace e with 3 by lia. change (8 * (3 - 3)) with 0. lia.
    + apply Z.div_mul. lia.
Qed.

(** C22. Compact targets round-trip: in both crates, decoding a canonical
    compact target (mantissa of 16 to 23 bits, exponent 3 to 32) and encoding
    the result gives the same 32-bit word back. *)
Theorem compact_roundtrip e m :
  2 ^ 15 <= m < 2 ^ 23 -> 3 <= e <= 32 ->
  target_to_compact (compact_to_target (compact e m)) = compact e m /\
  core_target_to_compact (core_compact_to_target (compact e m)) = compact e m.
Proof.
  intros Hm He. destruct (canonical_lead e m Hm He) as [Ht Hlead].
  assert (Hcv : compact_value e m = m * 2 ^ (8 * (e - 3))).
  { unfold compact_value. destruct (Z.leb_spec e 3); [|done].
    replace e with 3 by lia. cbn. by rewrite Z.div_1_r, Z.mul_1_r. }
  destruct (compact_to_target_val e m) as [Hv1 Hv2]; [lia|lia|lia|].
  rewrite Hcv in Hv1, Hv2. rewrite core_target_to_compact_eq.
  assert (Hg : forall t, u256_val t = m * 2 ^ (8 * (e - 3)) -> target_to_compact t = compact e m).
  { intros t Hv. rewrite target_to_compact_spec by lia. rewrite Hv.
    destruct (Z.ltb_spec m (2 ^ 16)) as [Hs|Hs]; destruct Hlead as [-> ->];
      rewrite pack_compact_spec by lia.
    - destruct (Z.ltb_spec (m * 2 ^ 8) (2 ^ 23)); [lia|].
      rewrite Z.div_mul by lia. f_equal. lia.
    - destruct (Z.ltb_spec m (2 ^ 23)); [done|lia]. }
  split; by apply Hg.
Qed.

(** Encoding a target loses less than one part in 2^15 and never makes it
    easier: the target decoded from the compact form is at most the original
    and differs from it by less than 1/32768 of it. *)
Theorem compact_precision t :
  u256_val t <> 0 ->
  let t' := u256_val (compact_to_target (target_to_compact t)) in
  t' <= u256_val t /\ (u256_val t - t') * 2 ^ 15 < u256_val t.
Proof.
  intros Hnz t'. pose proof (u256_range t) as Hr. assert (Ht : 0 < u256_val t) by lia.
  destruct (packed_fields (u256_val t)) as (e & m & Hp & Hm & He & Hsmall & Hbig); [lia|].
  unfold t'. rewrite target_to_compact_spec, Hp by done.
  assert (Hle : compact_value e m <= u256_val t).
  { destruct (Z_le_gt_dec e 3); [rewrite Hsmall; lia|]. unfold compact_value.
    destruct (Z.leb_spec e 3); [lia|]. rewrite Hbig, Z.mul_comm by lia. apply Z.mul_div_le.
    apply Z.pow_pos_nonneg; lia. }
  destruct (compact_to_target_val e m) as [-> _]; [lia|lia|lia|]. split; [done|].
  destruct (Z_le_gt_dec e 3); [rewrite Hsmall; lia|]. unfold compact_value in *.
  destruct (Z.leb_spec e 3); [lia|].
  pose proof (Z.pow_pos_nonneg 2 (8 * (e - 3)) ltac:(lia) ltac:(lia)).
  pose proof (Z.mul_succ_div_gt (u256_val t) (2 ^ (8 * (e - 3))) ltac:(lia)) as Hgt.
  rewrite <- Hbig in Hgt by lia. nia.
Qed.

End Encoding.

(** * Difficulty adjustment *)

Section Adjustment.
  Context `{U256Laws}.

Lemma u256_from_u64 n : 0 <= n <= u64_max -> u256_val (u256_from n) = n.
Proof. apply u256_from_val. Qed.

(** The time ratio, in billionths, after clamping. *)
Definition clamped_ratio (actual expected factor : Z) : Z :=
  Z.max (Z.min (actual * PRECISION_FACTOR / expected) (PRECISION_FACTOR * factor))
    (PRECISION_FACTOR / factor).

(** The caps applied to the scaled target; a zero [min_difficulty] is no cap. *)
Definition capped_target (min_difficulty max_target raw : Z) : Z :=
  Z.min (if min_difficulty =? 0 then raw else Z.min raw min_difficulty) max_target.

(** Everything before the multiplication by the previous target goes through. *)
Lemma new_target_run (E : Type) prev actual expected factor mind maxt :
  is_u64 actual -> 0 < expected <= u64_max -> 0 < factor <= u64_max ->
  exists ratio, u256_val ratio = clamped_ratio actual expected factor /\
  calculate_new_target (E := E) prev actual expected factor mind maxt =
  (product ← unwrap (u256_mul prev ratio);
   new_target ← unwrap (u256_div product (u256_from PRECISION_FACTOR));
   let new_target :=
     if u256_gt new_target mind && negb (u256_is_zero mind) then mind else new_target in
   mret (if u256_gt new_target maxt then maxt else new_target)).
Proof.
  intros Ha He Hf. unfold calculate_new_target. unfold is_u64 in Ha.
  assert (HP : u256_val (u256_from PRECISION_FACTOR) = PRECISION_FACTOR)
    by (apply u256_from_u64; unfold PRECISION_FACTOR, u64_max; lia).
  assert (Hva : u256_val (u256_from actual) = actual) by (by apply u256_from_u64).
  assert (Hve : u256_val (u256_from expected) = expected) by (apply u256_from_u64; lia).
  assert (Hvf : u256_val (u256_from factor) = factor) by (apply u256_from_u64; lia).
  assert (Hsmall : u64_max * PRECISION_FACTOR < two256) by (vm_compute; reflexivity).
  destruct (u256_mul_val (u256_from actual) (u256_from PRECISION_FACTOR)) as (num & Hn & Hnv).
  { rewrite Hva, HP. unfold PRECISION_FACTOR in *. lia. }
  destruct (u256_div_val num (u256_from expected)) as (ratio & Hr & Hrv); [lia|].
  destruct (u256_div_val (u256_from PRECISION_FACTOR) (u256_from factor)) as (minr & Hm & Hmv); [lia|].
  destruct (u256_mul_val (u256_from PRECISION_FACTOR) (u256_from factor)) as (maxr & Hx & Hxv).
  { rewrite HP, Hvf. unfold PRECISION_FACTOR in *. lia. }
  exists (u256_max (u256_min ratio maxr) minr). split.
  - rewrite u256_max_val, u256_min_val, Hrv, Hnv, Hmv, Hxv, HP, Hva, Hve, Hvf. done.
  - by rewrite Hn, Hm, Hx; cbn [unwrap mbind outcome_bind]; rewrite Hr.
Qed.

Lemma clamped_ratio_bounds actual expected factor :
  0 <= actual -> 0 < expected -> 0 < factor ->
  PRECISION_FACTOR / factor <= clamped_ratio actual expected factor <= PRECISION_FACTOR * factor.
Proof.
  intros Ha He Hf. unfold clamped_ratio.
  assert (PRECISION_FACTOR / factor <= PRECISION_FACTOR * factor).
  { etransitivity; [apply Z.div_le_upper_bound with (q := PRECISION_FACTOR)|];
      unfold PRECISION_FACTOR; lia. }
  lia.
Qed.

(** C23. As long as the previous target times a billion times the factor is
    below 2^256, and the expected time and the factor are not zero, the
    difficulty adjustment of rusty-consensus does not panic; it multiplies the
    previous target by the time ratio clamped to the factor in both directions
    (in billionths, rounding down) and then applies the two caps.  Before the
    caps the target moves by no more than the factor in either direction; the
    caps only lower it, so that the result never exceeds the previous target
    times the factor, and is lower than the clamped value only if it equals a
    cap. *)
Theorem new_target_exact (E : Type) prev actual expected factor mind maxt :
  is_u64 actual -> 0 < expected <= u64_max -> 0 < factor <= u64_max ->
  u256_val prev * (PRECISION_FACTOR * factor) < two256 ->
  exists t, calculate_new_target (E := E) prev actual expected factor mind maxt = Ok t /\
  let raw := u256_val prev * clamped_ratio actual expected factor / PRECISION_FACTOR in
  u256_val t = capped_target (u256_val mind) (u256_val maxt) raw /\
  u256_val prev * (PRECISION_FACTOR / factor) / PRECISION_FACTOR <= raw
    <= u256_val prev * factor /\
  u256_val t <= u256_val prev * factor /\
  (u256_val t < raw -> u256_val t = u256_val mind \/ u256_val t = u256_val maxt).
Proof.
  intros Ha He Hf Hfit. pose proof (u256_range prev) as Hp. unfold is_u64 in Ha.
  pose proof (clamped_ratio_bounds actual expected factor ltac:(lia) ltac:(lia) ltac:(lia)) as Hc.
  assert (HP : u256_val (u256_from PRECISION_FACTOR) = PRECISION_FACTOR)
    by (apply u256_from_u64; unfold PRECISION_FACTOR, u64_max; lia).
  assert (HPpos : 0 < PRECISION_FACTOR) by (unfold PRECISION_FACTOR; lia).
  destruct (new_target_run E prev actual expected factor mind maxt) as (ratio & Hrv & ->); try done.
  destruct (u256_mul_val prev ratio) as (prod & -> & Hpv); [rewrite Hrv; nia|].
  destruct (u256_div_val prod (u256_from PRECISION_FACTOR)) as (raw & Hd & Hraw); [lia|].
  cbn [unwrap mbind outcome_bind]. rewrite Hd. cbn [unwrap mbind outcome_bind mret outcome_ret].
  rewrite Hpv, Hrv, HP in Hraw. eexists. split; [done|]. cbv zeta. rewrite <- Hraw.
  match goal with |- u256_val ?x = _ /\ _ => assert (Hcap : u256_val x = capped_target (u256_val mind) (u256_val maxt) (u256_val raw)) end.
  { unfold capped_target, u256_gt, u256_is_zero. rewrite !Z.gtb_ltb.
    pose proof (u256_range mind). pose proof (u256_range maxt).
    destruct (Z.eqb_spec (u256_val mind) 0), (Z.ltb_spec (u256_val mind) (u256_val raw));
      cbn [andb negb]; destruct (Z.ltb_spec (u256_val maxt) (u256_val mind)),
        (Z.ltb_spec (u256_val maxt) (u256_val raw)); lia. }
  assert (Hb : u256_val prev * (PRECISION_FACTOR / factor) / PRECISION_FACTOR <= u256_val raw <= u256_val prev * factor).
  { rewrite Hraw. split; [apply Z.div_le_mono; [done|]; nia|]. apply Z.div_le_upper_bound; nia. }
  split; [done|]. split; [done|]. rewrite Hcap. unfold capped_target. destruct (Z.eqb_spec (u256_val mind) 0); lia.
Qed.

(** The adjustment aborts the node on easy targets: with the protocol's
    factor of 4, a previous target of at least 2^229 makes the 256-bit product
    overflow, and the [U256] multiplication panics, whatever the timestamps. *)
Theorem new_target_easy_panics (E : Type) prev actual expected mind maxt :
  is_u64 actual -> 0 < expected <= u64_max -> 2 ^ 229 <= u256_val prev ->
  calculate_new_target (E := E) prev actual expected 4 mind maxt = Panic.
Proof.
  intros Ha He Hp. unfold is_u64 in Ha.
  destruct (new_target_run E prev actual expected 4 mind maxt) as (ratio & Hrv & ->);
    [done|done|unfold u64_max; lia|].
  rewrite u256_mul_overflow; [done|]. rewrite Hrv.
  pose proof (clamped_ratio_bounds actual expected 4 ltac:(lia) ltac:(lia) ltac:(lia)) as [Hc _].
  change (PRECISION_FACTOR / 4) with 250000000 in Hc.
  change two256 with (2 ^ 229 * 2 ^ 27). nia.
Qed.

(** [add_block] computes the reference target of every adjustment block
    with a target timespan of 0 (src/rusty-core/src/consensus/blockchain.rs,
    line 222): the adjustment then divides by zero and panics, so the node
    aborts at each multiple of the adjustment window. *)
Theorem core_new_target_zero_timespan (E : Type) (current maxt : u256) :
  core_calculate_new_target (E := E) current 0 0 maxt = Panic.
Proof.
  unfold core_calculate_new_target.
  assert (Hz : u256_val (u256_from 0) = 0) by (apply u256_from_u64; unfold u64_max; lia).
  change (Z.min (Z.max 0 (0 / 4)) (u64_mul 0 4)) with 0.
  destruct (u256_mul current (u256_from 0)); [|done]. cbn [unwrap mbind outcome_bind].
  by rewrite u256_div_zero.
Qed.

(** The maximal target of rusty-core is the number 0xFFFF0000: the non-zero limb
    is the least significant one. *)
Lemma next_difficulty_max (E : Type) last first current t :
  calculate_next_difficulty (E := E) last first current = Ok t -> u256_val t <= 0xFFFF0000.
Proof.
  assert (Hm : u256_val CORE_MAX_TARGET = 0xFFFF0000)
    by (apply u256_from_u64; unfold u64_max; lia).
  unfold calculate_next_difficulty. cbv zeta.
  match goal with |- (?m ≫= _) = _ -> _ => destruct m as [x| | |]; try done end.
  cbn [mbind outcome_bind mret outcome_ret]. unfold u256_gt.
  destruct (Z.gtb_spec (u256_val x) (u256_val CORE_MAX_TARGET)); intros [= <-]; lia.
Qed.

(** The two decoders disagree on exponents above 34, where rusty-consensus
    shifts by the product modulo 256, and on the sign bit. *)
Lemma compact_decoders_disagree m :
  0 < m < 2 ^ 23 ->
  u256_val (compact_to_target (compact 35 m)) = m /\
  u256_val (core_compact_to_target (compact 35 m)) = 0.
Proof.
  intros Hm. unfold compact_to_target, core_compact_to_target.
  rewrite compact_exponent_spec, compact_mantissa_spec, compact_negative_spec by lia.
  assert (Hf : u256_val (u256_from m) = m) by (apply u256_from_u64; unfold u64_max; lia).
  destruct (Z.eqb_spec m 0); [lia|]. cbn [Z.leb Z.compare Pos.compare Pos.compare_cont].
  change (wrap8 (8 * (35 - 3))) with 0. change (8 * (35 - 3)) with 256.
  rewrite !u256_shl_val, Hf by lia. split; [rewrite Z.mod_small; lia|apply Z.mod_mul; lia].
Qed.

End Adjustment.

(** * Checking a block *)

Section Checks.
  Context `{U256Laws, HashLaws}.

Definition be_val (l : bytes) : Z := from_le_bytes (rev l).

Lemma from_le_bytes_app a b :
  from_le_bytes (a ++ b) = from_le_bytes a + 256 ^ Z.of_nat (length a) * from_le_bytes b.
Proof.
  induction a as [|x a IH].
  - change (from_le_bytes []) with 0. simpl. lia.
  - cbn [app length]. change (from_le_bytes (x :: a ++ b)) with (x + 256 * from_le_bytes (a ++ b)).
    change (from_le_bytes (x :: a)) with (x + 256 * from_le_bytes a).
    rewrite IH, Nat2Z.inj_succ, Z.pow_succ_r by lia. lia.
Qed.

Lemma be_val_cons x l : be_val (x :: l) = be_val l + 256 ^ Z.of_nat (length l) * x.
Proof.
  unfold be_val. cbn [rev]. rewrite from_le_bytes_app, length_rev.
  change (from_le_bytes [x]) with (x + 256 * 0). lia.
Qed.

Lemma be_val_bound l : is_bytes l -> 0 <= be_val l < 256 ^ Z.of_nat (length l).
Proof.
  intros Hl. rewrite <- length_rev. apply from_le_bytes_bound. by apply Forall_rev.
Qed.

Lemma bytes_le_be a b :
  is_bytes a -> is_bytes b -> length a = length b -> bytes_le a b = (be_val a <=? be_val b).
Proof.
  intros Ha. revert b. induction Ha as [|x a Hx Ha IH]; intros b Hb Hlen; destruct b as [|y b]; try done.
  apply Forall_cons in Hb as [Hy Hb]. injection Hlen as Hlen. cbn [bytes_le].
  rewrite IH, !be_val_cons, Hlen by done.
  pose proof (be_val_bound a Ha) as Ba. pose proof (be_val_bound b Hb). rewrite Hlen in Ba.
  assert (Hp : 0 < 256 ^ Z.of_nat (length b)) by (apply Z.pow_pos_nonneg; lia).
  destruct (Z.ltb_spec x y), (Z.eqb_spec x y); cbn [orb andb]; subst; try lia;
    symmetry; try (apply Z.leb_le; nia).
  apply Z.leb_gt. nia.
Qed.

Lemma fresh_oxide_hash_ok header_bytes n :
  exists h, (forall E : Type, fresh_oxide_hash (E := E) header_bytes n = Ok h) /\
            is_bytes h /\ length h = 32%nat.
Proof.
  destruct (oxide_hash_prefix SCRATCHPAD_SIZE ITERATIONS_PER_HASH header_bytes)
    as (prefix & _ & Hp); [unfold SCRATCHPAD_SIZE; lia|vm_compute; reflexivity|].
  destruct (Hp OxideHasher_new [] n) as ([pad' cur'] & Hr & _).
  { unfold len, OxideHasher_new. rewrite length_replicate. unfold SCRATCHPAD_SIZE. lia. }
  exists (blake3 (prefix ++ to_le_bytes 8 n)). split; [intros E|apply blake3_out].
  unfold fresh_oxide_hash, calculate_oxide_hash. rewrite Hr. reflexivity.
Qed.

Lemma target_bytes_spec bits :
  is_bytes (compact_to_target_bytes bits) /\ length (compact_to_target_bytes bits) = 32%nat /\
  be_val (compact_to_target_bytes bits) = u256_val (compact_to_target bits).
Proof.
  unfold compact_to_target_bytes. rewrite u256_to_be. split_and!.
  - apply Forall_rev, to_le_bytes_bytes.
  - by rewrite length_rev, length_to_le_bytes.
  - unfold be_val. rewrite rev_involutive. apply from_to_le_bytes.
    change (256 ^ Z.of_nat 32) with two256. apply u256_range.
Qed.

(** The checks once the header is serialized and hashed. *)
Lemma pow_checks_run b bits hb h :
  bincode_header (without_nonce (header b)) = Some hb ->
  (forall E : Type, fresh_oxide_hash (E := E) hb (nonce (header b)) = Ok h) ->
  OxideHasher_calculate_hash b = Ok h /\
  validate_pow b bits =
    (if bytes_le h (compact_to_target_bytes bits) then Ok tt else Err CCE.InvalidProofOfWork) /\
  verify_pow (header b) bits =
    (if u256_le (u256_from_big_endian h) (compact_to_target bits) then Ok tt
     else Err CCE.InvalidProofOfWork) /\
  OxideHasher_verify (compact_to_target_bytes bits) b =
    (if u256_gt (u256_from_big_endian h) (u256_from_big_endian (compact_to_target_bytes bits))
     then Err (CCE.InvalidProof "block hash doesn't meet target difficulty") else Ok tt).
Proof.
  intros Hb Hh. unfold OxideHasher_calculate_hash, validate_pow, verify_pow, OxideHasher_verify.
  rewrite Hb. unfold unwrap, ok_or. rewrite !outcome_bind_ok, Hh, !outcome_bind_ok.
  split_and!; reflexivity.
Qed.

(** The three proof-of-work checks of rusty-consensus are one: on a header
    that serializes, each returns (no panic), and [validate_pow], which compares
    byte strings, [verify_pow], which compares 256-bit numbers, and
    [OxideHasher::verify] with the decoded target accept the same blocks: those
    whose hash, read as a big-endian number, is at most the target. *)
Theorem pow_checks_agree (b : Block) (bits : Z) :
  is_Some (bincode_header (without_nonce (header b))) ->
  exists h, OxideHasher_calculate_hash b = Ok h /\
  (validate_pow b bits = Ok tt <-> be_val h <= u256_val (compact_to_target bits)) /\
  (verify_pow (header b) bits = Ok tt <-> be_val h <= u256_val (compact_to_target bits)) /\
  (OxideHasher_verify (compact_to_target_bytes bits) b = Ok tt <->
     be_val h <= u256_val (compact_to_target bits)).
Proof.
  intros [hb Hhb]. destruct (fresh_oxide_hash_ok hb (nonce (header b))) as (h & Hh & Hby & Hlen).
  destruct (target_bytes_spec bits) as (Htby & Htlen & Htval).
  destruct (pow_checks_run b bits hb h Hhb Hh) as (Hr & -> & -> & ->).
  exists h. split; [exact Hr|]. rewrite bytes_le_be, Htval by (done || congruence).
  unfold u256_le, u256_gt. rewrite !u256_be_val by done. fold (be_val h).
  fold (be_val (compact_to_target_bytes bits)). rewrite Htval, Z.gtb_ltb.
  destruct (Z.leb_spec (be_val h) (u256_val (compact_to_target bits))),
    (Z.ltb_spec (u256_val (compact_to_target bits)) (be_val h)); try lia;
    split_and!; split; done || lia.
Qed.

End Checks.

(** * Witnesses *)

Lemma compact_roundtrip_witness :
  compact 29 0xffff = 0x1d00ffff /\
  target_to_compact (compact_to_target (compact 29 0xffff)) = compact 29 0xffff.
Proof.
  split; [reflexivity|].
  destruct (compact_roundtrip 29 0xffff) as [Hr _]; [lia|lia|]. exact Hr.
Defined.

Lemma compact_precision_witness :
  u256_val (compact_to_target (target_to_compact (u256_from 123456789)))
    <= u256_val (u256_from 123456789).
Proof.
  assert (Hnz : u256_val (u256_from 123456789) <> 0) by (vm_compute; discriminate).
  destruct (compact_precision (u256_from 123456789) Hnz) as [Hle _]. exact Hle.
Defined.

Lemma new_target_exact_witness :
  exists t, calculate_new_target (E := unit) (u256_from 1000) 604800 302400 4 (u256_from 0)
              (u256_from u64_max) = Ok t /\ u256_val t = 2000.
Proof.
  destruct (new_target_exact unit (u256_from 1000) 604800 302400 4 (u256_from 0) (u256_from u64_max))
    as (t & Ht & Hv & _);
    [unfold is_u64, u64_max; lia|unfold u64_max; lia|unfold u64_max; lia|vm_compute; reflexivity|].
  exists t. split; [exact Ht|]. rewrite Hv. vm_compute. reflexivity.
Defined.

Lemma new_target_easy_panics_witness :
  calculate_new_target (E := unit) (compact_to_target 0x207fffff) 300000 302400 4
    (u256_from 0) (u256_from u64_max) = Panic.
Proof.
  apply (new_target_easy_panics unit); [unfold is_u64, u64_max; lia|unfold u64_max; lia|].
  vm_compute. discriminate.
Defined.

Lemma pow_checks_agree_witness :
  exists h, OxideHasher_calculate_hash (mkBlock (mkBlockHeader 1 0 [] [] [] 0 0 7) [] []) = Ok h /\
  (validate_pow (mkBlock (mkBlockHeader 1 0 [] [] [] 0 0 7) [] []) 0x207fffff = Ok tt <->
   be_val h <= u256_val (compact_to_target 0x207fffff)).
Proof.
  destruct (pow_checks_agree (mkBlock (mkBlockHeader 1 0 [] [] [] 0 0 7) [] []) 0x207fffff)
    as (h & Hh & Hv & _); [by eexists|]. exists h. split; [exact Hh|exact Hv].
Defined.

Lemma core_new_target_zero_timespan_witness :
  core_calculate_new_target (E := unit) (u256_from 1000) 0 0 (u256_from u64_max) = Panic.
Proof. apply core_new_target_zero_timespan. Defined.
