(* ===== verification/ScriptTheorems.v ===== *)
(** The script engine's claims. *)

From Stdlib Require Import ZArith Lia List.
From stdpp Require Import base option list numbers sets.
From S2P Require Import Prelude Types Transaction Opcode ScriptEngine ScriptLogic ScriptProps.
From S2P Require Import SamplePrimitives.

#[local] Open Scope Z_scope.

Section Claims.
  Context `{HashLaws}.

(** * Termination, safety, limits *)

(** C5. Running any byte script on a fresh engine, for any input index, comes to
    an end: it succeeds or fails with an error, or it panics, which it can only
    do if the script contains an OP_SUBSTR or OP_CHECKMULTISIG(VERIFY) byte; the
    interpreter's fuel, the length of the script, is always enough.  After
    success at most MAX_STACK_DEPTH elements are on the stack and at most
    MAX_OPCODE_COUNT opcodes were counted. *)
Theorem execute_terminates script tx height i spk :
  is_bytes script -> 0 <= i ->
  match execute script tx height i spk ScriptEngine_new with
  | (e, Ok _) => len (stack e) <= MAX_STACK_DEPTH /\ 0 <= opcode_count e <= MAX_OPCODE_COUNT
  | (_, Err _) => True
  | (_, Panic) => exists b, b ∈ script /\
      (Opcode_from_u8 b = OpSubStr \/ Opcode_from_u8 b = OpCheckMultiSig \/ Opcode_from_u8 b = OpCheckMultiSigVerify)
  | (_, OutOfFuel) => False
  end.
Proof.
  intros Hs Hi. pose proof (execute_post 0 script tx height i spk _ Hs Hi sig_base_ok_0 engine_ok_new) as Hx.
  destruct (execute _ _ _ _ _ _) as [e' [?|?| |]]; try done.
  - by destruct Hx as [[] _].
  - destruct Hx as (b & Hb & Hm). exists b. split; [done|]. destruct (Opcode_from_u8 b); try discriminate Hm; tauto.
Qed.

(** A script without OP_SUBSTR and OP_CHECKMULTISIG(VERIFY) bytes
    never makes the interpreter panic: every index, slice and subtraction of
    the other opcodes is in range. *)
Theorem execute_no_panic s0 script tx height i spk e :
  is_bytes script -> 0 <= i -> sig_base_ok s0 -> engine_ok s0 e ->
  Forall (fun b => may_panic (Opcode_from_u8 b) = false) script ->
  snd (execute script tx height i spk e) <> Panic.
Proof.
  intros Hs Hi Hs0 He Hp. pose proof (execute_post s0 script tx height i spk e Hs Hi Hs0 He) as Hx.
  destruct (execute _ _ _ _ _ _) as [e' [?|?| |]]; try done.
  destruct Hx as (b & Hb & Hm). rewrite Forall_forall in Hp. by rewrite (Hp b Hb) in Hm.
Qed.

(** A script that runs to completion leaves the engine within its
    limits: at most MAX_STACK_DEPTH stack items, at most MAX_OPCODE_COUNT
    opcodes counted, byte strings on both stacks, and a signature count that
    did not decrease and grew by at most one per opcode. *)
Theorem execute_limits s0 script tx height i spk e e' :
  is_bytes script -> 0 <= i -> sig_base_ok s0 -> engine_ok s0 e ->
  execute script tx height i spk e = (e', Ok tt) ->
  engine_ok s0 e' /\ opcode_count e <= opcode_count e'.
Proof.
  intros Hs Hi Hs0 He Hx. pose proof (execute_post s0 script tx height i spk e Hs Hi Hs0 He) as Hp.
  by rewrite Hx in Hp.
Qed.

(** * Transaction-level signature limit *)

(** When [verify_script_with_sig_op_count] accepts an input, the
    transaction's signature-operation counter has not decreased, is within
    MAX_SIG_OPS, and nothing is left on the stack. *)
Theorem verify_sig_op_limit script_sig spk tx i e e' n n' :
  is_bytes script_sig -> is_bytes spk -> 0 <= i -> 0 <= n <= MAX_SIG_OPS ->
  verify_script_with_sig_op_count script_sig spk tx i e n = (e', n', Ok tt) ->
  n <= n' <= MAX_SIG_OPS /\ stack e' = [].
Proof.
  intros Hss Hspk Hi Hn. unfold verify_script_with_sig_op_count.
  destruct (len script_sig >? _); [done|]. destruct (len spk >? _); [done|].
  set (e0 := reset_engine _).
  assert (He0 : engine_ok n e0) by (apply (engine_ok_reset (set_sig_op_count n e)); simpl; lia).
  assert (Hb : sig_base_ok n)
    by (unfold sig_base_ok, u64_max, MAX_OPCODE_COUNT, MAX_SIG_OPS in *; lia).
  rewrite stM_bind_run.
  pose proof (execute_post n script_sig tx 0 i spk e0 Hss Hi Hb He0) as H1.
  destruct (execute script_sig _ _ _ _ _) as [e1 [?|?| |]]; try done. destruct H1 as [He1 _].
  pose proof (execute_post n spk tx 0 i spk e1 Hspk Hi Hb He1) as H2.
  destruct (execute spk _ _ _ _ _) as [e2 [?|?| |]]; try done. destruct H2 as [He2 _].
  rewrite Z.gtb_ltb. unfold get_sig_op_count.
  destruct (Z.ltb_spec MAX_SIG_OPS (sig_op_count e2)); [done|].
  unfold final_stack_check. rewrite stM_bind_run. unfold pop_data.
  destruct (stack e2) as [|x s] eqn:Es; [done|].
  rewrite stM_bind_run. cbn -[len is_false Z.eqb].
  destruct (is_false x || _) eqn:Hc; [done|]. intros [= <- <-].
  apply orb_false_iff in Hc as [_ Hc]. destruct He2. split; [lia|].
  simpl. destruct s; [done|]. unfold len in Hc. simpl in Hc. lia.
Qed.

(** * Opcodes that abort the node *)

(** [OP_0 OP_CHECKMULTISIG] panics on every engine that is not
    skipping and still has two opcodes in its budget: the key count is read
    with [pop_data()?[0]], and OP_0 pushes an empty element. *)
Theorem checkmultisig_empty_panics tx height i spk e :
  skip_depth e = 0 -> 0 <= opcode_count e < MAX_OPCODE_COUNT - 1 ->
  len (stack e) < MAX_STACK_DEPTH ->
  snd (execute [0x00; 0xAE] tx height i spk e) = Panic.
Proof.
  intros Hk Hc Hd. rewrite execute_unfold by done. cbn [length].
  rewrite exec_loop_step by done. rewrite stM_bind_run.
  erewrite (exec_step_ok _ _ _ _ _ 0 0x00) by
    (done || lia || (simpl; autorewrite with rusty; lia)).
  rewrite exec_loop_step by done. rewrite stM_bind_run.
  by erewrite (exec_step_panic _ _ _ _ _ 1 0xAE) by (done || (simpl; lia)).
Qed.

(** OP_SUBSTR panics whenever offset + size overflows 64 bits and the
    wrapped end position falls inside the data: the bounds test compares the
    wrapped sum, and the slice then starts after its end. *)
Theorem substr_overflow_panics e size_bytes offset_bytes data rest size offset :
  stack e = size_bytes :: offset_bytes :: data :: rest ->
  as_usize size_bytes = Ok size -> as_usize offset_bytes = Ok offset ->
  0 <= size <= u64_max -> 0 <= offset <= u64_max ->
  u64_max < offset + size <= u64_max + 1 + len data ->
  snd (op_substr e) = Panic.
Proof.
  intros Hs Hsz Hof Hsr Hor Hov. unfold op_substr.
  rewrite stM_bind_run. unfold pop_data at 1. rewrite Hs.
  rewrite stM_bind_run. cbn [lift]. rewrite Hsz.
  rewrite stM_bind_run. cbn [pop_data stack set_stack].
  rewrite stM_bind_run. cbn [lift]. rewrite Hof.
  rewrite stM_bind_run. cbn [pop_data stack set_stack].
  assert (Hw : wrap64 (offset + size) = offset + size - (u64_max + 1)).
  { unfold wrap64, u64_max in *. symmetry.
    apply (Z.mod_unique_pos _ _ 1); lia. }
  rewrite Hw, Z.gtb_ltb. destruct (Z.ltb_spec (len data) (offset + size - (u64_max + 1))); [lia|].
  rewrite slice_none by (unfold u64_max in *; lia). done.
Qed.

(** * A script signature that disables the output script *)

(** The script signature [OP_1 OP_0 OP_IF] satisfies every output script of
    at most 197 bytes that contains no flow-control byte, through both
    verification entry points: the unterminated OP_IF leaves the engine
    skipping, the engine is not reset between the two scripts, and a skipped
    output script succeeds with the signature's own OP_1 on the stack. *)
Theorem skip_bypass spk tx i e n :
  Forall (fun b => is_flow_control b = false) spk -> len spk <= 197 ->
  0 <= n <= MAX_SIG_OPS ->
  verify_script [0x51; 0x00; 0x63] spk tx i = Ok tt /\
  snd (verify_script_with_sig_op_count [0x51; 0x00; 0x63] spk tx i e n) = Ok tt.
Proof.
  intros Hf Hl Hn.
  assert (Hsig : forall s0, execute [0x51; 0x00; 0x63] tx 0 i spk (mkEngine [] [] 0 s0 [] 0) =
    (mkEngine [[1]] [] 3 s0 [false] 1, Ok tt)) by reflexivity.
  assert (Hspk : forall s0, execute spk tx 0 i spk (mkEngine [[1]] [] 3 s0 [false] 1) =
    (mkEngine [[1]] [] (3 + len spk) s0 [false] 1, Ok tt)).
  { intros s0. pose proof (len_nonneg spk).
    rewrite execute_unfold by (unfold MAX_SCRIPT_BYTES; lia).
    rewrite exec_loop_skips; simpl; try done; try (unfold len in *; lia);
      [|unfold MAX_OPCODE_COUNT; lia].
    unfold set_opcode_count. simpl. by rewrite Z.sub_0_r. }
  assert (Hbig : (len spk >? MAX_SCRIPT_BYTES) = false) by (unfold MAX_SCRIPT_BYTES; lia).
  split.
  - unfold verify_script. rewrite Hbig. cbn [len length Z.of_nat].
    rewrite stM_bind_run. unfold ScriptEngine_new. rewrite Hsig.
    by rewrite stM_bind_run, Hspk.
  - unfold verify_script_with_sig_op_count. rewrite Hbig. cbn [len length Z.of_nat].
    unfold reset_engine, set_sig_op_count, upd_sig_op_count. cbn [sig_op_count].
    rewrite stM_bind_run, Hsig, Hspk. cbn [get_sig_op_count sig_op_count].
    replace (n >? MAX_SIG_OPS) with false by lia. reflexivity.
Qed.

(** * Multisignature *)

Lemma matches_any_one message sig keys k s :
  signature_from_bytes sig = Some s ->
  Forall (fun kb => is_Some (public_key_from_bytes kb)) keys ->
  (exists kb, kb ∈ keys /\ public_key_from_bytes kb = Some k /\
     ed25519_verify k message s = true) ->
  matches_any message sig keys = Ok true.
Proof.
  intros Hs Hk (kb & Hin & Hkb & Hv). induction keys as [|k0 keys IH].
  { by apply elem_of_nil in Hin. }
  inversion_clear Hk as [|? ? [p0 Hp0] Hk']. cbn [matches_any]. rewrite Hs, Hp0. cbn.
  destruct (ed25519_verify p0 message s) eqn:Hv0; [done|].
  apply elem_of_cons in Hin as [->|Hin]; [congruence|by apply IH].
Qed.

(** One valid signature under one of the N keys, repeated, counts as any
    number of matching signatures: a matched key is not removed, so M-of-N
    verification is met by a single key holder. *)
Theorem multisig_one_signature message sig keys k s m :
  signature_from_bytes sig = Some s ->
  Forall (fun kb => is_Some (public_key_from_bytes kb)) keys ->
  (exists kb, kb ∈ keys /\ public_key_from_bytes kb = Some k /\
     ed25519_verify k message s = true) ->
  count_verified message (replicate m sig) keys = Ok (Z.of_nat m).
Proof.
  intros Hs Hk Hv. induction m as [|m IH]; [done|].
  cbn [replicate count_verified]. rewrite (matches_any_one _ _ _ k s) by done.
  cbn. rewrite IH. cbn. f_equal. lia.
Qed.

(** * Pushing data *)

(** The script that pushes [data] with the shortest of the PUSHDATA opcodes. *)
Definition push_script (data : bytes) : bytes :=
  if len data <=? 255 then 0x4C :: to_le_bytes 1 (len data) ++ data
  else 0x4D :: to_le_bytes 2 (len data) ++ data.

Lemma slice_app_mid (pre mid post : bytes) :
  slice (pre ++ mid ++ post) (len pre) (len pre + len mid) = Some mid.
Proof.
  rewrite slice_some by (rewrite ?len_app; pose proof (len_nonneg pre);
    pose proof (len_nonneg mid); pose proof (len_nonneg post); lia).
  f_equal. unfold len.
  rewrite drop_app_length', take_app_length' by lia. done.
Qed.

Lemma push_data_n_run op k data e :
  len data < 256 ^ Z.of_nat k -> (k <= 4)%nat -> len data <= 9990 ->
  push_data_n (op :: to_le_bytes k (len data) ++ data) 1 (Z.of_nat k) e =
  (set_stack (cons data) e, Ok (1 + Z.of_nat k + len data)).
Proof.
  intros Hd Hk Hl. pose proof (len_nonneg data) as Hnn.
  set (script := op :: to_le_bytes k (len data) ++ data).
  assert (Hlen : len script = 1 + Z.of_nat k + len data).
  { unfold script. autorewrite with rusty. lia. }
  assert (Hslice1 : slice script 1 (1 + Z.of_nat k) = Some (to_le_bytes k (len data))).
  { pose proof (slice_app_mid [op] (to_le_bytes k (len data)) data) as Hs.
    by autorewrite with rusty in Hs. }
  assert (Hslice2 : slice script (1 + Z.of_nat k) (1 + Z.of_nat k + len data) = Some data).
  { pose proof (slice_app_mid (op :: to_le_bytes k (len data)) data []) as Hs.
    rewrite app_nil_r in Hs. autorewrite with rusty in Hs.
    by rewrite (Z.add_comm _ 1) in Hs. }
  assert (Hus : as_usize (to_le_bytes k (len data)) = Ok (len data)).
  { unfold as_usize. rewrite len_to_le_bytes.
    destruct (Z.eqb_spec (Z.of_nat k) 0) as [Hk0|_].
    - destruct k; [|lia]. simpl in *. f_equal. lia.
    - destruct (Z.leb_spec (Z.of_nat k) 8); [|lia].
      by rewrite from_le_bytes_pad, from_to_le_bytes. }
  unfold push_data_n, read_bytes. rewrite !wrap64_small by (unfold u64_max; lia).
  rewrite stM_bind_run, Hlen.
  replace (1 + Z.of_nat k >? 1 + Z.of_nat k + len data) with false by lia.
  rewrite stM_bind_run, Hslice1. cbn [lift unwrap mret stM_ret].
  rewrite stM_bind_run. cbn [lift]. rewrite Hus.
  rewrite stM_bind_run, !wrap64_small by (unfold u64_max; lia).
  replace (1 + Z.of_nat k + len data >? 1 + Z.of_nat k + len data) with false by lia.
  rewrite stM_bind_run, Hslice2. done.
Qed.

Lemma push_script_run data tx height i spk e :
  len data <= 9990 -> skip_depth e = 0 -> 0 <= opcode_count e < MAX_OPCODE_COUNT ->
  len (stack e) < MAX_STACK_DEPTH ->
  execute (push_script data) tx height i spk e =
  (set_stack (cons data) (count_opcode e), Ok tt).
Proof.
  intros Hl Hk Hc Hd. pose proof (len_nonneg data).
  assert (Hrun : forall op k, (k <= 4)%nat -> len data < 256 ^ Z.of_nat k ->
    (forall s, exec_opcode s tx height i spk (Opcode_from_u8 op) 1 = push_data_n s 1 (Z.of_nat k)) ->
    execute (op :: to_le_bytes k (len data) ++ data) tx height i spk e =
    (set_stack (cons data) (count_opcode e), Ok tt)).
  { intros op k Hk4 Hkd Hop.
    assert (Hlen : len (op :: to_le_bytes k (len data) ++ data) = 1 + Z.of_nat k + len data).
    { autorewrite with rusty. lia. }
    rewrite execute_unfold by (unfold MAX_SCRIPT_BYTES; lia). cbn [length].
    rewrite exec_loop_step by lia. rewrite stM_bind_run.
    rewrite (exec_step_ok _ _ _ _ _ 0 op _ (set_stack (cons data) (count_opcode e))
      (1 + Z.of_nat k + len data)); try done; try lia.
    - rewrite exec_loop_done by lia. done.
    - change (0 + 1) with 1. rewrite Hop. by apply push_data_n_run.
    - simpl. autorewrite with rusty. lia. }
  unfold push_script. destruct (Z.leb_spec (len data) 255).
  - apply (Hrun 0x4C 1%nat); [lia|simpl; lia|done].
  - apply (Hrun 0x4D 2%nat); [lia|change (256 ^ Z.of_nat 2) with 65536; lia|done].
Qed.

(** Pushing data and reading it back: executing the PUSHDATA script of any
    byte string of at most 9990 bytes puts exactly that string on top of the
    stack, counts one opcode and changes nothing else. *)
Theorem push_roundtrip data tx height i spk e :
  len data <= 9990 -> skip_depth e = 0 -> 0 <= opcode_count e < MAX_OPCODE_COUNT ->
  len (stack e) < MAX_STACK_DEPTH ->
  execute (push_script data) tx height i spk e =
  (set_stack (cons data) (count_opcode e), Ok tt).
Proof. apply push_script_run. Qed.

(** * Stack discipline *)

(** Items taken from and put on the main stack by the opcodes of fixed arity. *)
Definition stack_effect (op : Opcode) : option (nat * nat) :=
  match op with
  | Op0 | Op1 | Op2 | Op3 | Op4 | Op5 | Op6 | Op7 | Op8 | Op9 | Op10 | Op11 | Op12
  | Op13 | Op14 | Op15 | Op16 => Some (0, 1)%nat
  | OpNop | OpCodeSeparator => Some (0, 0)%nat
  | OpDup | OpSize => Some (1, 2)%nat
  | OpDrop | OpToAltStack => Some (1, 0)%nat
  | OpNip | OpCat | OpEqual => Some (2, 1)%nat
  | OpOver | OpTuck => Some (2, 3)%nat
  | OpRot => Some (3, 3)%nat
  | OpSwap => Some (2, 2)%nat
  | Op2Drop => Some (2, 0)%nat
  | Op2Dup => Some (2, 4)%nat
  | Op3Dup => Some (3, 6)%nat
  | Op2Over => Some (4, 6)%nat
  | Op2Rot => Some (6, 6)%nat
  | Op2Swap => Some (4, 4)%nat
  | OpInvert | OpRipemd160 | OpSha1 | OpSha256 | OpHash160 | OpHash256 => Some (1, 1)%nat
  | _ => None
  end.

(** An opcode of fixed arity succeeds exactly when the stack is deep enough;
    it then takes and leaves the documented number of items and the items
    below are untouched, and otherwise it reports StackUnderflow. *)
Theorem stack_discipline script tx height i spk op ip e taken put :
  stack_effect op = Some (taken, put) ->
  if decide (taken <= length (stack e))%nat then
    exists e', exec_opcode script tx height i spk op ip e = (e', Ok ip) /\
      length (stack e') = (length (stack e) - taken + put)%nat /\
      drop put (stack e') = drop taken (stack e)
  else snd (exec_opcode script tx height i spk op ip e) = Err StackUnderflow.
Proof.
  intros Heff. destruct e as [st a o g c k]; cbn [stack].
  destruct op; cbn in Heff; inversion Heff; subst; clear Heff;
    (destruct st as [|x1 [|x2 [|x3 [|x4 [|x5 [|x6 st]]]]]]; cbn [length];
     case_decide; try lia; try reflexivity;
     (eexists; split; [reflexivity|split; [cbn; lia|reflexivity]])).
Qed.

(** PICK and ROLL at a depth [n] inside the stack. *)
Lemma pick_run e n_bytes n rest v :
  stack e = n_bytes :: rest -> as_usize n_bytes = Ok n -> 0 <= n ->
  rest !! Z.to_nat n = Some v ->
  op_pick e = (set_stack (fun _ => v :: rest) e, Ok tt).
Proof.
  intros Hs Hn Hpos Hv. pose proof (lookup_lt_Some _ _ _ Hv).
  unfold op_pick. rewrite stM_bind_run. unfold pop_data. rewrite Hs.
  rewrite stM_bind_run. cbn [lift]. rewrite Hn. rewrite stM_bind_run. cbn [gets stack set_stack].
  replace (n >=? len rest) with false by (unfold len; lia).
  rewrite !stM_bind_run. cbn [gets stack set_stack]. unfold index.
  replace (0 <=? n) with true by lia. by rewrite Hv.
Qed.

Lemma roll_run e n_bytes n rest v :
  stack e = n_bytes :: rest -> as_usize n_bytes = Ok n -> 0 <= n ->
  rest !! Z.to_nat n = Some v ->
  op_roll e = (set_stack (fun _ => v :: remove_at n rest) e, Ok tt).
Proof.
  intros Hs Hn Hpos Hv. pose proof (lookup_lt_Some _ _ _ Hv).
  unfold op_roll. rewrite stM_bind_run. unfold pop_data. rewrite Hs.
  rewrite stM_bind_run. cbn [lift]. rewrite Hn. rewrite stM_bind_run. cbn [gets stack set_stack].
  replace (n >=? len rest) with false by (unfold len; lia).
  rewrite !stM_bind_run. cbn [gets stack set_stack]. unfold index.
  replace (0 <=? n) with true by lia. by rewrite Hv.
Qed.

(** The rearranging opcodes agree with one another: SWAP, 2SWAP undo
    themselves, ROT and 2ROT have order three, moving to the alternate stack
    and back is the identity, and TUCK, NIP, 2DUP, and PICK / ROLL at depths 0
    and 1 are compositions of, or equal to, the other opcodes. *)
Theorem stack_identities :
  (forall e, (2 <= length (stack e))%nat -> (op_swap;; op_swap) e = (e, Ok tt)) /\
  (forall e, (4 <= length (stack e))%nat -> (op_2swap;; op_2swap) e = (e, Ok tt)) /\
  (forall e, (3 <= length (stack e))%nat -> (op_rot;; op_rot;; op_rot) e = (e, Ok tt)) /\
  (forall e, (6 <= length (stack e))%nat -> (op_2rot;; op_2rot;; op_2rot) e = (e, Ok tt)) /\
  (forall e, (1 <= length (stack e))%nat -> (op_toaltstack;; op_fromaltstack) e = (e, Ok tt)) /\
  (forall e, op_tuck e = (op_swap;; op_over) e) /\
  (forall e, op_nip e = (op_swap;; op_drop) e) /\
  (forall e, op_2dup e = (op_over;; op_over) e) /\
  (forall e, (push_data [];; op_pick) e = op_dup e) /\
  (forall e, (2 <= length (stack e))%nat -> (push_data [1];; op_pick) e = op_over e) /\
  (forall e, (1 <= length (stack e))%nat -> (push_data [];; op_roll) e = (e, Ok tt)) /\
  (forall e, (2 <= length (stack e))%nat -> (push_data [1];; op_roll) e = op_swap e).
Proof.
  split_and!; intros [st a o g c k]; cbn [stack]; try intros Hlen;
    destruct st as [|x1 [|x2 [|x3 [|x4 [|x5 [|x6 st]]]]]]; cbn [length] in *; try lia;
    rewrite ?stM_bind_run; try reflexivity; cbn [push_data modify];
    first [ erewrite (pick_run _ [] 0 _ x1) by (reflexivity || done)
          | erewrite (pick_run _ [1] 1 _ x2) by (reflexivity || done)
          | erewrite (roll_run _ [] 0 _ x1) by (reflexivity || done)
          | erewrite (roll_run _ [1] 1 _ x2) by (reflexivity || done) ]; reflexivity.
Qed.

(** * Time locks *)

(** Both [verify_script] functions run scripts at block height 0, where
    OP_CHECKLOCKTIMEVERIFY accepts only a zero lock time: every output locked
    to a positive height or time is unspendable through them. *)
Theorem cltv_at_height_zero tx e e' lock_bytes rest lock_time :
  stack e = lock_bytes :: rest -> as_u32 lock_bytes = Ok lock_time -> 0 <= lock_time ->
  op_checklocktimeverify tx 0 e = (e', Ok tt) -> lock_time = 0.
Proof.
  intros Hs Hl Hpos. unfold op_checklocktimeverify. rewrite stM_bind_run.
  unfold pop_data. rewrite Hs. rewrite stM_bind_run. cbn [lift]. rewrite Hl.
  destruct (get_lock_time tx =? 0); [done|].
  destruct (lock_time >? get_lock_time tx); [done|].
  change (wrap64 (0 * 60)) with 0.
  destruct (lock_time <? LOCKTIME_THRESHOLD), (Z.ltb_spec 0 lock_time); done || lia.
Qed.

(** OP_CHECKLOCKTIMEVERIFY accepts exactly the lock times that the
    transaction's own non-zero lock time covers and that have been reached: as
    a block height below LOCKTIME_THRESHOLD, as 60 seconds per block above. *)
Theorem cltv_accepts_iff tx height e lock_bytes rest lock_time :
  stack e = lock_bytes :: rest -> as_u32 lock_bytes = Ok lock_time ->
  0 <= height -> height * 60 <= u64_max ->
  op_checklocktimeverify tx height e = (set_stack (fun _ => rest) e, Ok tt) <->
  get_lock_time tx <> 0 /\ lock_time <= get_lock_time tx /\
  (if lock_time <? LOCKTIME_THRESHOLD then lock_time <= height else lock_time <= height * 60).
Proof.
  intros Hs Hl Hh Hh2. unfold op_checklocktimeverify. rewrite stM_bind_run.
  unfold pop_data. rewrite Hs. rewrite stM_bind_run. cbn [lift]. rewrite Hl.
  rewrite wrap64_small by lia. rewrite Z.gtb_ltb.
  destruct (Z.eqb_spec (get_lock_time tx) 0); [split; [done|lia]|].
  destruct (Z.ltb_spec (get_lock_time tx) lock_time); [split; [done|lia]|].
  destruct (lock_time <? LOCKTIME_THRESHOLD).
  - destruct (Z.ltb_spec height lock_time); split; done || lia.
  - destruct (Z.ltb_spec (height * 60) lock_time); split; done || lia.
Qed.

(** * Signature hashes *)

(** The same transaction with every input's script signature replaced. *)
Definition map_script_sigs (f : nat -> TxInput -> bytes) (inputs : list TxInput) :
    list TxInput :=
  imap (fun i inp => mkTxInput (prev_out_hash inp) (prev_out_index inp)
    (previous_output inp) (f i inp) (sequence inp) (input_witness inp)) inputs.

(** The hash a signature commits to does not depend on the script
    signatures, the fee field or the witness of the transaction, so signing an
    input does not change the hash of any input. *)
Theorem sighash_ignores_signatures version inputs outputs lock_time fee fee' witness witness' f i spk :
  calculate_sighash (Standard version inputs outputs lock_time fee witness) i spk =
  calculate_sighash
    (Standard version (map_script_sigs f inputs) outputs lock_time fee' witness') i spk.
Proof.
  unfold calculate_sighash, map_script_sigs. cbn [get_inputs sighash_transaction].
  assert (Hlen : len (imap (fun i inp => mkTxInput (prev_out_hash inp) (prev_out_index inp)
    (previous_output inp) (f i inp) (sequence inp) (input_witness inp)) inputs) = len inputs)
    by (unfold len; by rewrite length_imap).
  rewrite Hlen. destruct (i >=? len inputs); [done|]. by rewrite imap_imap.
Qed.

End Claims.

(** * Witnesses: the claims at concrete scripts *)

Lemma sample_script_bytes : is_bytes [0x51; 0x76; 0x87].
Proof. repeat constructor; unfold is_byte; lia. Qed.

Lemma execute_terminates_witness :
  match execute [0x51; 0x76; 0x87] sample_tx 5 0 [] ScriptEngine_new with
  | (e, Ok _) => len (stack e) <= MAX_STACK_DEPTH /\ 0 <= opcode_count e <= MAX_OPCODE_COUNT
  | _ => False
  end.
Proof. apply (execute_terminates [0x51; 0x76; 0x87] sample_tx 5 0 []); [exact sample_script_bytes|lia]. Defined.

Lemma execute_no_panic_witness :
  snd (execute [0x51; 0x76; 0x87] sample_tx 5 0 [] ScriptEngine_new) <> Panic.
Proof.
  apply (execute_no_panic 0); [exact sample_script_bytes|lia|exact sig_base_ok_0|
    exact engine_ok_new|repeat constructor].
Defined.

Lemma execute_limits_witness :
  engine_ok 0 (mkEngine [[1]] [] 3 0 [] 0) /\ 0 <= 3.
Proof.
  apply (execute_limits 0 [0x51; 0x76; 0x87] sample_tx 5 0 [] ScriptEngine_new);
    [exact sample_script_bytes|lia|exact sig_base_ok_0|exact engine_ok_new|
     vm_compute; reflexivity].
Defined.

Lemma verify_sig_op_limit_witness :
  4 <= 4 <= MAX_SIG_OPS /\ stack (mkEngine [] [] 3 4 [] 0) = [].
Proof.
  apply (verify_sig_op_limit [0x51] [0x76; 0x87] sample_tx 0 ScriptEngine_new
    (mkEngine [] [] 3 4 [] 0) 4 4);
    [repeat constructor; unfold is_byte; lia|repeat constructor; unfold is_byte; lia|lia|
     unfold MAX_SIG_OPS; lia|vm_compute; reflexivity].
Defined.

Lemma checkmultisig_empty_panics_witness :
  snd (execute [0x00; 0xAE] sample_tx 0 0 [] ScriptEngine_new) = Panic.
Proof.
  apply checkmultisig_empty_panics; simpl; unfold MAX_OPCODE_COUNT, MAX_STACK_DEPTH, len;
    simpl; lia.
Defined.

Lemma substr_overflow_panics_witness :
  snd (op_substr (mkEngine [[2]; replicate 8 255; [9; 9; 9]] [] 0 0 [] 0)) = Panic.
Proof.
  apply (substr_overflow_panics _ [2] (replicate 8 255) [9; 9; 9] [] 2 u64_max);
    [reflexivity|reflexivity|vm_compute; reflexivity| | |]; unfold u64_max, len; simpl; lia.
Defined.

(** A P2PKH output script (zero hash). *)
Definition sample_p2pkh : bytes := [0x76; 0xA9; 0x14] ++ replicate 20 0 ++ [0x88; 0xAC].

Lemma skip_bypass_witness :
  verify_script [0x51; 0x00; 0x63] sample_p2pkh sample_tx 0 = Ok tt /\
  snd (verify_script_with_sig_op_count [0x51; 0x00; 0x63] sample_p2pkh sample_tx 0
    ScriptEngine_new 0) = Ok tt.
Proof.
  apply skip_bypass; [repeat constructor|unfold len; simpl; lia|unfold MAX_SIG_OPS; lia].
Defined.

(** A key and its signature of the message [[1; 2; 3]] under the sample scheme. *)
Definition sample_key : bytes := replicate 32 5.
Definition sample_signature : bytes := sample_key ++ sample_hash 32 1 [1; 2; 3].

Lemma multisig_one_signature_witness :
  count_verified [1; 2; 3] (replicate 3 sample_signature)
    [replicate 32 8; sample_key; replicate 32 9] = Ok 3.
Proof.
  apply (@multisig_one_signature sample_primitives [1; 2; 3] sample_signature _ sample_key sample_signature 3).
  - vm_compute. reflexivity.
  - repeat constructor; eexists; vm_compute; reflexivity.
  - exists sample_key. split; [set_solver|]. split; vm_compute; reflexivity.
Defined.

Lemma push_roundtrip_witness :
  execute (push_script (replicate 300 7)) sample_tx 0 0 [] ScriptEngine_new =
  (mkEngine [replicate 300 7] [] 1 0 [] 0, Ok tt).
Proof.
  apply (push_roundtrip (replicate 300 7)); unfold len, MAX_OPCODE_COUNT, MAX_STACK_DEPTH;
    simpl; lia.
Defined.

Lemma stack_discipline_witness :
  exists e', exec_opcode [] sample_tx 0 0 [] OpRot 0 (mkEngine [[1]; [2]; [3]; [4]] [] 0 0 [] 0)
    = (e', Ok 0) /\ length (stack e') = 4%nat /\ drop 3 (stack e') = [[4]].
Proof.
  exact (stack_discipline [] sample_tx 0 0 [] OpRot 0
    (mkEngine [[1]; [2]; [3]; [4]] [] 0 0 [] 0) 3 3 eq_refl).
Defined.

Definition locked_tx : Transaction := Standard 1 [sample_input] [] 700 0 [].

Lemma cltv_at_height_zero_witness : 0 = 0.
Proof.
  apply (cltv_at_height_zero locked_tx (mkEngine [[]] [] 0 0 [] 0)
    (mkEngine [] [] 0 0 [] 0) [] [] 0); [reflexivity|reflexivity|lia|reflexivity].
Defined.

Lemma cltv_accepts_iff_witness :
  op_checklocktimeverify locked_tx 700 (mkEngine [[188; 2]] [] 0 0 [] 0) =
    (mkEngine [] [] 0 0 [] 0, Ok tt).
Proof.
  apply (cltv_accepts_iff locked_tx 700 (mkEngine [[188; 2]] [] 0 0 [] 0) [188; 2] [] 700);
    [reflexivity|reflexivity|lia|unfold u64_max; lia|simpl; lia].
Defined.
