(* ===== verification/StandardScripts.v ===== *)
(** Standard output scripts: P2PKH and P2SH
    (src/rusty-core/src/script/script_engine/standard_scripts.rs and
    [execute_standard_script] of script_engine.rs). *)

From Stdlib Require Import ZArith Lia List.
From stdpp Require Import base option list numbers sets.
From S2P Require Import Prelude Types Transaction Opcode ScriptEngine ScriptLogic ScriptProps.
From S2P Require Import SamplePrimitives.

#[local] Open Scope Z_scope.

(** * Building and recognising the scripts *)

(** [bytes[i] == b], with the length already known to cover [i]. *)
Definition byte_at (s : bytes) (i b : Z) : bool := bool_decide (index s i = Some b).

Definition is_p2pkh (script : bytes) : bool :=
  (len script =? 25) && byte_at script 0 0x76 && byte_at script 1 0xa9 &&
  byte_at script 2 0x14 && byte_at script 23 0x88 && byte_at script 24 0xac.

Definition is_p2sh (script : bytes) : bool :=
  (len script =? 23) && byte_at script 0 0xa9 && byte_at script 1 0x14 &&
  byte_at script 22 0x87.

Definition create_p2pkh (hash : bytes) : bytes :=
  [0x76; 0xa9; 0x14] ++ hash ++ [0x88] ++ [0xac].

Definition create_p2sh (hash : bytes) : bytes :=
  [0xa9; 0x14] ++ hash ++ [0x87].

(** * Variable-length integers *)

Definition encode_varint (v : Z) : bytes :=
  if v <? 0xfd then [wrap8 v]
  else if v <=? 0xffff then 0xfd :: to_le_bytes 2 v
  else if v <=? 0xffffffff then 0xfe :: to_le_bytes 4 v
  else 0xff :: to_le_bytes 8 v.

(** * The canonical signature hash *)

Section WithPrimitives.
  Context `{Primitives}.

(** The [match tx] that selects the version; [MasternodeRegister],
    [GovernanceProposal] and [GovernanceVote] carry none and use 1. *)
Definition sighash_version (tx : Transaction) : Z :=
  match tx with
  | Standard version _ _ _ _ _ => version
  | Coinbase version _ _ _ _ => version
  | MasternodeRegister _ _ _ _ _ _ => 1
  | MasternodeCollateral version _ _ _ _ _ _ => version
  | ActivateProposal version _ _ _ _ _ _ _ _ => version
  | TicketPurchase version _ _ _ _ _ _ _ _ => version
  | TicketRedemption version _ _ _ _ _ _ => version
  | TicketSlashNonParticipation version _ _ _ _ _ _ _ => version
  | TicketSlashMalicious version _ _ _ _ _ _ _ => version
  | GovernanceProposal _ => 1
  | GovernanceVote _ => 1
  | MasternodeSlashTx tx => slash_version tx
  end.

(** One serialized input; [i] is its position. *)
Definition sighash_input_bytes (input_index : Z) (script_pubkey : bytes) (i : nat)
    (input : TxInput) : bytes :=
  let input := TxInput_from_outpoint (previous_output input) [] (sequence input)
    (input_witness input) in
  let script_sig := if Z.of_nat i =? input_index then script_pubkey else [] in
  prev_out_hash input ++ to_le_bytes 4 (prev_out_index input) ++
  encode_varint (len script_sig) ++ script_sig ++ to_le_bytes 4 (sequence input).

Definition sighash_output_bytes (output : TxOutput) : bytes :=
  to_le_bytes 8 (value output) ++
  encode_varint (len (script_pubkey output)) ++ script_pubkey output.

(** [sighash_data] of [calculate_sighash], the bytes that are hashed. *)
Definition sighash_preimage (tx : Transaction) (input_index : Z) (script_pubkey : bytes) :
    bytes :=
  to_le_bytes 4 (sighash_version tx) ++
  encode_varint (len (get_inputs tx)) ++
  concat (imap (sighash_input_bytes input_index script_pubkey) (get_inputs tx)) ++
  encode_varint (len (get_outputs tx)) ++
  concat (sighash_output_bytes <$> get_outputs tx) ++
  to_le_bytes 4 (get_lock_time tx) ++
  to_le_bytes 4 0x00000001.

Definition standard_sighash (tx : Transaction) (input_index : Z) (script_pubkey : bytes) :
    outcome ScriptError Hash :=
  if input_index >=? len (get_inputs tx) then Err VerificationFailed
  else Ok (blake3 (sighash_preimage tx input_index script_pubkey)).

(** * Verification *)

Definition verify_p2pkh_script (script_sig script_pubkey : bytes) (tx : Transaction)
    (input_index : Z) : outcome ScriptError unit :=
  if len script_sig <? 96 then Err VerificationFailed else
  signature_bytes ← unwrap (slice script_sig 0 64);
  pubkey_bytes ← unwrap (slice script_sig (len script_sig - 32) (len script_sig));
  if negb (len script_pubkey =? 25) || negb (byte_at script_pubkey 0 0x76) ||
     negb (byte_at script_pubkey 1 0xa9)
  then Err VerificationFailed else
  expected_hash ← unwrap (slice script_pubkey 3 23);
  let pubkey_hash := ripemd160 (sha256 pubkey_bytes) in
  if negb (bool_decide (pubkey_hash = expected_hash)) then Err VerificationFailed else
  pubkey ← ok_or (public_key_from_bytes pubkey_bytes) VerificationFailed;
  signature ← ok_or (signature_from_bytes signature_bytes) VerificationFailed;
  sighash ← standard_sighash tx input_index script_pubkey;
  if ed25519_verify pubkey sighash signature then Ok tt else Err VerificationFailed.

Definition verify_p2sh_script (script_sig script_pubkey : bytes) (tx : Transaction) :
    engM unit :=
  if negb (len script_pubkey =? 23) || negb (byte_at script_pubkey 0 0xa9) ||
     negb (byte_at script_pubkey 22 0x87)
  then throw VerificationFailed else
  expected_script_hash ← lift (unwrap (slice script_pubkey 2 22));
  if len script_sig =? 0 then throw VerificationFailed else
  if len script_sig <? 1 then throw VerificationFailed else
  let redeem_script_start := if len script_sig >=? 32 then len script_sig - 32 else 0 in
  redeem_script ← lift (unwrap (slice script_sig redeem_script_start (len script_sig)));
  let script_hash := ripemd160 (sha256 redeem_script) in
  if negb (bool_decide (script_hash = expected_script_hash)) then throw VerificationFailed else
  fun e =>
    let '(e, r) := execute redeem_script tx 0 0 script_pubkey e in
    (e, map_err (fun _ => VerificationFailed) r).

Definition execute_standard_script (script_sig script_pubkey : bytes) (tx : Transaction)
    (input_index : Z) : engM unit :=
  if is_p2pkh script_pubkey then
    lift (verify_p2pkh_script script_sig script_pubkey tx input_index)
  else if is_p2sh script_pubkey then verify_p2sh_script script_sig script_pubkey tx
  else
    let combined_script := script_sig ++ script_pubkey in
    modify reset_engine;;
    _tx_hash ← lift (tx_txid tx);
    execute combined_script tx 0 input_index script_pubkey.

End WithPrimitives.

(** * Recognition *)

Lemma index_lookup (s : bytes) (n : nat) : index s (Z.of_nat n) = s !! n.
Proof. unfold index. rewrite Nat2Z.id. by destruct (Z.leb_spec 0 (Z.of_nat n)); [|lia]. Qed.

Lemma byte_at_spec s (n : nat) b : byte_at s (Z.of_nat n) b = true <-> s !! n = Some b.
Proof. unfold byte_at. rewrite index_lookup. apply bool_decide_eq_true. Qed.

Lemma split_at (s : bytes) (n : nat) b :
  s !! n = Some b -> s = take n s ++ b :: drop (S n) s.
Proof. intros Hb. symmetry. by apply take_drop_middle. Qed.

Lemma extract_is_p2pkh o :
  extract_public_key_hash o =
  if is_p2pkh (script_pubkey o) then slice (script_pubkey o) 3 23 else None.
Proof. done. Qed.

(** The P2PKH recogniser accepts exactly the scripts that [create_p2pkh]
    builds from a 20-byte hash, and [extract_public_key_hash] reads that hash
    back from the output. *)
Theorem p2pkh_recognition script v :
  (is_p2pkh script = true <-> exists hash, length hash = 20%nat /\ script = create_p2pkh hash) /\
  (forall hash, length hash = 20%nat ->
     extract_public_key_hash (TxOutput_new v (create_p2pkh hash)) = Some hash).
Proof.
  assert (Hc : forall hash, length hash = 20%nat ->
    is_p2pkh (create_p2pkh hash) = true /\ slice (create_p2pkh hash) 3 23 = Some hash).
  { intros hash Hl. do 20 (destruct hash as [|? hash]; [done|]).
    destruct hash; [|done]. split; reflexivity. }
  split.
  - split.
    + intros Hp. unfold is_p2pkh in Hp. rewrite !andb_true_iff in Hp.
      destruct Hp as (((((Hl & H0) & H1) & H2) & H23) & H24).
      apply (byte_at_spec _ 0) in H0. apply (byte_at_spec _ 1) in H1.
      apply (byte_at_spec _ 2) in H2. apply (byte_at_spec _ 23) in H23.
      apply (byte_at_spec _ 24) in H24.
      assert (Hlen : length script = 25%nat) by (unfold len in Hl; lia). clear Hl.
      destruct script as [|b0 [|b1 [|b2 script]]]; try done. simpl in *. simplify_eq.
      exists (take 20 script). split; [rewrite length_take; lia|]. unfold create_p2pkh. simpl.
      do 3 f_equal. apply split_at in H23. rewrite H23 at 1. f_equal. simpl. f_equal.
      apply list_eq. intros [|k]; rewrite lookup_drop; [done|].
      apply lookup_ge_None. lia.
    + intros (hash & Hl & ->). by apply Hc.
  - intros hash Hl. rewrite extract_is_p2pkh. simpl script_pubkey.
    destruct (Hc hash Hl) as [-> ->]. done.
Qed.

(** * Variable-length integers *)

(** The reader of the format [encode_varint] writes. *)
Definition decode_varint (s : bytes) : option (Z * bytes) :=
  match s with
  | [] => None
  | tag :: s =>
      let read k := if (k <=? length s)%nat
        then Some (from_le_bytes (take k s), drop k s) else None in
      if tag =? 0xfd then read 2%nat
      else if tag =? 0xfe then read 4%nat
      else if tag =? 0xff then read 8%nat
      else Some (tag, s)
  end.

Lemma read_le k v (rest : bytes) :
  0 <= v < 256 ^ Z.of_nat k ->
  (if (k <=? length (to_le_bytes k v ++ rest))%nat
   then Some (from_le_bytes (take k (to_le_bytes k v ++ rest)), drop k (to_le_bytes k v ++ rest))
   else None) = Some (v, rest).
Proof.
  intros Hv. rewrite length_app, length_to_le_bytes.
  destruct (Nat.leb_spec k (k + length rest)); [|lia].
  rewrite take_app_length', drop_app_length' by (by rewrite length_to_le_bytes).
  by rewrite from_to_le_bytes.
Qed.

Lemma decode_encode_varint v rest :
  is_u64 v -> decode_varint (encode_varint v ++ rest) = Some (v, rest).
Proof.
  unfold is_u64, u64_max. intros Hv. unfold encode_varint.
  destruct (Z.ltb_spec v 0xfd) as [H1|H1].
  { unfold wrap8. rewrite Z.mod_small by lia. cbn [decode_varint app].
    destruct (Z.eqb_spec v 0xfd), (Z.eqb_spec v 0xfe), (Z.eqb_spec v 0xff); done || lia. }
  destruct (Z.leb_spec v 0xffff); [|destruct (Z.leb_spec v 0xffffffff)];
    cbn [decode_varint app Z.eqb Pos.eqb]; apply read_le.
  - change (256 ^ Z.of_nat 2) with 65536. lia.
  - change (256 ^ Z.of_nat 4) with 4294967296. lia.
  - change (256 ^ Z.of_nat 8) with 18446744073709551616. lia.
Qed.

(** The variable-length integers of the signature hash are uniquely
    decodable for every 64-bit value: whatever follows, the reader gets back the
    value and the rest of the data. *)
Theorem varint_roundtrip v rest :
  is_u64 v -> decode_varint (encode_varint v ++ rest) = Some (v, rest).
Proof. apply decode_encode_varint. Qed.

Lemma varint_inj v1 v2 r1 r2 :
  is_u64 v1 -> is_u64 v2 -> encode_varint v1 ++ r1 = encode_varint v2 ++ r2 ->
  v1 = v2 /\ r1 = r2.
Proof.
  intros H1 H2 Heq. apply (f_equal decode_varint) in Heq.
  rewrite !decode_encode_varint in Heq by done. by simplify_eq.
Qed.

Lemma le_bytes_inj k v1 v2 (r1 r2 : bytes) :
  0 <= v1 < 256 ^ Z.of_nat k -> 0 <= v2 < 256 ^ Z.of_nat k ->
  to_le_bytes k v1 ++ r1 = to_le_bytes k v2 ++ r2 -> v1 = v2 /\ r1 = r2.
Proof.
  intros H1 H2 Heq. apply app_inj_1 in Heq as [Heq ->]; [|by rewrite !length_to_le_bytes].
  split; [|done]. by rewrite <- (from_to_le_bytes k v1), Heq, from_to_le_bytes.
Qed.

Lemma counted_inj (s1 s2 r1 r2 : bytes) :
  len s1 <= u64_max -> len s2 <= u64_max ->
  encode_varint (len s1) ++ s1 ++ r1 = encode_varint (len s2) ++ s2 ++ r2 ->
  s1 = s2 /\ r1 = r2.
Proof.
  intros H1 H2 Heq. pose proof (len_nonneg s1). pose proof (len_nonneg s2).
  apply varint_inj in Heq as [Hl Heq]; [|by split..].
  apply app_inj_1 in Heq; [done|]. unfold len in Hl. lia.
Qed.

(** * What the canonical signature hash commits to *)

Section Commitment.
  Context (input_index : Z) (spk : bytes).

(** Widths of the fields that are written at fixed size. *)
Definition input_wf (i : TxInput) : Prop :=
  length (txid (previous_output i)) = 32%nat /\ is_u32 (vout (previous_output i)) /\
  is_u32 (sequence i).
Definition output_wf (o : TxOutput) : Prop :=
  is_u64 (value o) /\ len (script_pubkey o) <= u64_max.

Lemma u32_width v : is_u32 v -> 0 <= v < 256 ^ Z.of_nat 4.
Proof. unfold is_u32, u32_max. change (256 ^ Z.of_nat 4) with 4294967296. lia. Qed.

Lemma u64_width v : is_u64 v -> 0 <= v < 256 ^ Z.of_nat 8.
Proof. unfold is_u64, u64_max. change (256 ^ Z.of_nat 8) with 18446744073709551616. lia. Qed.

Lemma input_bytes_inj k i1 i2 (r1 r2 : bytes) :
  len spk <= u64_max -> input_wf i1 -> input_wf i2 ->
  sighash_input_bytes input_index spk k i1 ++ r1 =
  sighash_input_bytes input_index spk k i2 ++ r2 ->
  previous_output i1 = previous_output i2 /\ sequence i1 = sequence i2 /\ r1 = r2.
Proof.
  intros Hs (Ht1 & Hv1 & Hq1) (Ht2 & Hv2 & Hq2) Heq. 
  unfold sighash_input_bytes, TxInput_from_outpoint, TxInput_new in Heq.
  cbn [prev_out_hash prev_out_index sequence] in Heq. rewrite <- !app_assoc in Heq.
  apply app_inj_1 in Heq as [Htx Heq]; [|congruence].
  apply le_bytes_inj in Heq as [Hvo Heq]; [|by apply u32_width..].
  apply counted_inj in Heq as [_ Heq]; [|destruct (_ =? _); done..].
  apply le_bytes_inj in Heq as [Hsq ->]; [|by apply u32_width..].
  destruct i1 as [? ? [] ? ? ?], i2 as [? ? [] ? ? ?]. simpl in *. by subst.
Qed.

Lemma inputs_bytes_inj k l1 l2 (r1 r2 : bytes) :
  len spk <= u64_max -> Forall input_wf l1 -> Forall input_wf l2 -> length l1 = length l2 ->
  concat (imap (fun i => sighash_input_bytes input_index spk (k + i)) l1) ++ r1 =
  concat (imap (fun i => sighash_input_bytes input_index spk (k + i)) l2) ++ r2 ->
  (previous_output <$> l1) = (previous_output <$> l2) /\
  (sequence <$> l1) = (sequence <$> l2) /\ r1 = r2.
Proof.
  intros Hs H1. revert k l2. induction H1 as [|i1 l1 Hi1 H1 IH];
    intros k [|i2 l2] H2 Hl Heq; try done.
  inversion_clear H2 as [|? ? Hi2 H2']. cbn [imap concat] in Heq.
  rewrite <- !app_assoc in Heq.
  apply input_bytes_inj in Heq as (Hp & Hq & Heq); [|done..].
  assert (Hshift : forall l, imap ((fun i => sighash_input_bytes input_index spk (k + i)) ∘ S) l =
    imap (fun i => sighash_input_bytes input_index spk (S k + i)) l).
  { intros l. apply imap_ext. intros. simpl. by rewrite Nat.add_succ_r. }
  rewrite !Hshift in Heq. apply IH in Heq as (Hps & Hqs & ->); [|done|by injection Hl].
  split_and!; [| |done]; rewrite !fmap_cons; congruence.
Qed.

Lemma outputs_bytes_inj l1 l2 (r1 r2 : bytes) :
  Forall output_wf l1 -> Forall output_wf l2 -> length l1 = length l2 ->
  concat (sighash_output_bytes <$> l1) ++ r1 = concat (sighash_output_bytes <$> l2) ++ r2 ->
  (value <$> l1) = (value <$> l2) /\
  (script_pubkey <$> l1) = (script_pubkey <$> l2) /\ r1 = r2.
Proof.
  intros H1. revert l2. induction H1 as [|o1 l1 [Hv1 Hs1] H1 IH];
    intros [|o2 l2] H2 Hl Heq; try done.
  inversion_clear H2 as [|? ? [Hv2 Hs2] H2']. rewrite !fmap_cons in Heq.
  cbn [concat] in Heq. unfold sighash_output_bytes at 1 3 in Heq.
  rewrite <- !app_assoc in Heq.
  apply le_bytes_inj in Heq as [Hv Heq]; [|by apply u64_width..].
  apply counted_inj in Heq as [Hs Heq]; [|done..].
  apply IH in Heq as (Hvs & Hss & ->); [|done|by injection Hl].
  split_and!; [| |done]; rewrite !fmap_cons; congruence.
Qed.

(** Transactions whose fields have their Rust widths. *)
Definition tx_wf (tx : Transaction) : Prop :=
  is_u32 (sighash_version tx) /\ is_u32 (get_lock_time tx) /\
  Forall input_wf (get_inputs tx) /\ Forall output_wf (get_outputs tx) /\
  len (get_inputs tx) <= u64_max /\ len (get_outputs tx) <= u64_max.

(** C24. The bytes hashed for a P2PKH signature determine the transaction's
    version, the outpoints and sequence numbers of all inputs, the values and
    scripts of all outputs and the lock time: two transactions that differ in
    one of them never share a preimage. *)
Theorem sighash_commitment tx1 tx2 :
  len spk <= u64_max -> tx_wf tx1 -> tx_wf tx2 ->
  sighash_preimage tx1 input_index spk = sighash_preimage tx2 input_index spk ->
  sighash_version tx1 = sighash_version tx2 /\ get_lock_time tx1 = get_lock_time tx2 /\
  (previous_output <$> get_inputs tx1) = (previous_output <$> get_inputs tx2) /\
  (sequence <$> get_inputs tx1) = (sequence <$> get_inputs tx2) /\
  (value <$> get_outputs tx1) = (value <$> get_outputs tx2) /\
  (script_pubkey <$> get_outputs tx1) = (script_pubkey <$> get_outputs tx2).
Proof.
  intros Hs (Hv1 & Hl1 & Hi1 & Ho1 & Hni1 & Hno1) (Hv2 & Hl2 & Hi2 & Ho2 & Hni2 & Hno2) Heq.
  unfold sighash_preimage in Heq.
  apply le_bytes_inj in Heq as [Hv Heq]; [|by apply u32_width..].
  apply varint_inj in Heq as [Hni Heq]; [|by split; auto with rusty..].
  apply (inputs_bytes_inj 0) in Heq as (Hp & Hq & Heq); [|done..|unfold len in Hni; lia].
  apply varint_inj in Heq as [Hno Heq]; [|by split; auto with rusty..].
  apply outputs_bytes_inj in Heq as (Hva & Hsp & Heq); [|done..|unfold len in Hno; lia].
  apply le_bytes_inj in Heq as [Hl _]; [|by apply u32_width..].
  by split_and!.
Qed.

End Commitment.

(** * Spending standard outputs *)

Section Spending.
  Context `{HashLaws}.

(** [verify_p2pkh_script] accepts a P2PKH input exactly when the last 32
    bytes of the script signature hash to the output's key hash, parse as a
    public key, and that key verifies the first 64 bytes as a signature of the
    input's signature hash. *)
Theorem p2pkh_accepts script_sig hash tx i :
  length hash = 20%nat -> 96 <= len script_sig -> i < len (get_inputs tx) ->
  verify_p2pkh_script script_sig (create_p2pkh hash) tx i = Ok tt <->
  exists pk sig,
    let pk_bytes := drop (length script_sig - 32) script_sig in
    ripemd160 (sha256 pk_bytes) = hash /\
    public_key_from_bytes pk_bytes = Some pk /\
    signature_from_bytes (take 64 script_sig) = Some sig /\
    ed25519_verify pk (blake3 (sighash_preimage tx i (create_p2pkh hash))) sig = true.
Proof.
  intros Hh Hl Hi. unfold verify_p2pkh_script, standard_sighash.
  replace (len script_sig <? 96) with false by lia.
  replace (i >=? len (get_inputs tx)) with false by lia.
  rewrite (slice_some script_sig 0), (slice_some script_sig (_ - _)) by lia. cbn [unwrap].
  replace (Z.to_nat (64 - 0)) with 64%nat by done. change (Z.to_nat 0) with 0%nat.
  replace (Z.to_nat (len script_sig - (len script_sig - 32))) with 32%nat by lia.
  replace (Z.to_nat (len script_sig - 32)) with (length script_sig - 32)%nat by (unfold len; lia).
  rewrite drop_0. rewrite (take_ge (drop _ _)) by (rewrite length_drop; lia).
  assert (Hp : len (create_p2pkh hash) = 25 /\ byte_at (create_p2pkh hash) 0 0x76 = true /\
    byte_at (create_p2pkh hash) 1 0xa9 = true /\ slice (create_p2pkh hash) 3 23 = Some hash).
  { do 20 (destruct hash as [|? hash]; [done|]). by destruct hash. }
  destruct Hp as (-> & -> & -> & ->). cbn -[take drop blake3 sighash_preimage].
  case_bool_decide; cbn -[take drop blake3 sighash_preimage]; [|naive_solver].
  destruct (public_key_from_bytes _) as [pk|]; cbn -[take blake3 sighash_preimage]; [|naive_solver].
  destruct (signature_from_bytes _) as [sig|]; cbn -[blake3 sighash_preimage]; [|naive_solver].
  split.
  - destruct (ed25519_verify _ _ _) eqn:Hv; [|done]. intros _. by exists pk, sig.
  - intros (pk' & sig' & _ & Hpk & Hsig & Hv). simplify_eq. by rewrite Hv.
Qed.

(** The interpreter itself never completes a P2PKH output script: outside
    a skipped branch, [OP_DUP OP_HASH160] is followed by the direct push byte
    0x14, which the opcode table decodes as the invalid opcode. *)
Theorem p2pkh_not_executable hash tx height i spk e :
  skip_depth e = 0 -> is_ok (snd (execute (create_p2pkh hash) tx height i spk e)) = false.
Proof.
  intros Hk. unfold execute. destruct (len _ >? MAX_SCRIPT_BYTES); [done|].
  destruct (exec_loop _ _ _ _ _ _ _ _) as [e3 [[]|?| |]] eqn:Hx; try done. exfalso.
  set (s := create_p2pkh hash) in *.
  assert (Hlen : 5 <= len s) by (unfold s, create_p2pkh; autorewrite with rusty;
    pose proof (len_nonneg hash); lia).
  assert (Hfuel : exists f, length s = S (S (S f))) by (unfold len in Hlen;
    destruct (length s) as [|[|[|f]]]; [lia..|by exists f]).
  destruct Hfuel as [f Hf]. rewrite Hf in Hx.
  rewrite exec_loop_step in Hx by lia.
  apply stM_bind_ok in Hx as (e1 & ip1 & Hs1 & Hx).
  apply (exec_step_ok_inv _ _ _ _ _ 0 0x76) in Hs1; [|done..].
  assert (ip1 = 1 /\ skip_depth e1 = 0) as [-> Hk1].
  { change (Opcode_from_u8 0x76) with OpDup in Hs1. cbn [exec_opcode] in Hs1.
    unfold op_dup in Hs1. rewrite !stM_bind_run in Hs1. unfold pop_data in Hs1. simpl in Hs1.
    destruct (stack e); [done|]. cbv [mret stM_ret] in Hs1. by injection Hs1 as <- <-. }
  rewrite exec_loop_step in Hx by lia.
  apply stM_bind_ok in Hx as (e2 & ip2 & Hs2 & Hx).
  apply (exec_step_ok_inv _ _ _ _ _ 1 0xa9) in Hs2; [|done..].
  assert (ip2 = 2 /\ skip_depth e2 = 0) as [-> Hk2].
  { change (Opcode_from_u8 0xa9) with OpHash160 in Hs2. cbn [exec_opcode] in Hs2.
    unfold op_hash160 in Hs2. rewrite !stM_bind_run in Hs2. unfold pop_data in Hs2. simpl in Hs2.
    destruct (stack e1); [done|]. cbv [mret stM_ret] in Hs2. by injection Hs2 as <- <-. }
  rewrite exec_loop_step in Hx by lia.
  apply stM_bind_ok in Hx as (e3' & ip3 & Hs3 & Hx).
  by apply (exec_step_ok_inv _ _ _ _ _ 2 0x14) in Hs3.
Qed.

(** [execute_standard_script] accepts a non-standard script that leaves
    FALSE on the stack, which the verification entry points reject: it reports
    only whether the script ran without error. *)
Theorem standard_script_no_final_check tx i e :
  is_Some (bincode_transaction tx) ->
  snd (execute_standard_script [] [0x00] tx i e) = Ok tt /\
  verify_script [] [0x00] tx i = Err VerificationFailed.
Proof.
  intros [b Hb]. split; [|done].
  unfold execute_standard_script. cbn [is_p2pkh is_p2sh len length Z.of_nat].
  change (is_p2pkh [0]) with false. change (is_p2sh [0]) with false. cbv iota.
  rewrite !stM_bind_run. cbn [modify]. unfold tx_txid. rewrite Hb. done.
Qed.

End Spending.

(** * Witnesses *)

Lemma varint_roundtrip_witness :
  decode_varint (encode_varint 70000 ++ [1; 2]) = Some (70000, [1; 2]).
Proof. apply varint_roundtrip. unfold is_u64, u64_max. lia. Defined.

Definition spending_tx : Transaction :=
  Standard 1 [sample_input] [TxOutput_new 900 [0x51]] 0 0 [].

Lemma sighash_commitment_witness : sighash_version spending_tx = sighash_version sample_tx.
Proof.
  assert (Hwf : forall fee v, 0 <= v <= 5000 -> tx_wf (Standard 1 [sample_input] [TxOutput_new v [0x51]] 0 fee [])).
  { intros. unfold tx_wf, input_wf, output_wf, is_u32, is_u64, u32_max, u64_max, len. simpl.
    split_and!; repeat constructor; simpl; lia. }
  apply (sighash_commitment 0 [0x51] (Standard 1 [sample_input] [TxOutput_new 900 [0x51]] 0 0 [])
    (Standard 1 [sample_input] [TxOutput_new 900 [0x51]] 0 7 []));
    [unfold len, u64_max; simpl; lia|apply Hwf; lia|apply Hwf; lia|vm_compute; reflexivity].
Defined.

(** A P2PKH output for [sample_owner] and its owner's script signature. *)
Definition sample_owner : bytes := replicate 32 5.
Definition sample_owner_hash : bytes := sample_hash 20 4 (sample_hash 32 3 sample_owner).
Definition sample_script_sig : bytes :=
  (sample_owner ++ sample_hash 32 1 (sample_hash 32 1
     (sighash_preimage spending_tx 0 (create_p2pkh sample_owner_hash)))) ++ sample_owner.

Lemma p2pkh_accepts_witness :
  verify_p2pkh_script sample_script_sig (create_p2pkh sample_owner_hash) spending_tx 0 = Ok tt.
Proof.
  apply (@p2pkh_accepts sample_primitives); [vm_compute; reflexivity|vm_compute; discriminate|
    vm_compute; reflexivity|].
  exists sample_owner, (take 64 sample_script_sig). vm_compute. split_and!; reflexivity.
Defined.

Lemma p2pkh_not_executable_witness :
  is_ok (snd (execute (create_p2pkh sample_owner_hash) spending_tx 0 0 []
    (mkEngine [sample_owner] [] 0 0 [] 0))) = false.
Proof. apply p2pkh_not_executable. reflexivity. Defined.

Lemma standard_script_no_final_check_witness :
  snd (execute_standard_script [] [0x00] spending_tx 0 ScriptEngine_new) = Ok tt /\
  verify_script [] [0x00] spending_tx 0 = Err VerificationFailed.
Proof. apply standard_script_no_final_check. eexists. reflexivity. Defined.
