(* ===== verification/UtxoSet.v ===== *)
(** The UTXO set (src/rusty-core/src/consensus/utxo_set.rs): the map of unspent
    outputs, applying and reverting blocks, and the transaction checks made
    against it.

    [load_from_disk] and [save_to_disk] are file I/O and are not modelled.  A
    [HashMap] is a [gmap]; the only function whose result depends on the
    iteration order of the map, [get_used_inputs_as_ticket_ids], lists the
    entries in the order of [map_to_list]. *)

From Stdlib Require Import ZArith Lia List.
From stdpp Require Import base option list numbers strings gmap.
From S2P Require Import Prelude Types Errors Transaction ScriptEngine.

#[local] Open Scope Z_scope.

Abbreviation UtxoSet := (gmap OutPoint Utxo).

Definition UtxoSet_new : UtxoSet := ∅.

Definition DUST_LIMIT : Z := 500.

Definition add_utxo (outpoint : OutPoint) (utxo : Utxo) (s : UtxoSet) : UtxoSet :=
  <[outpoint := utxo]> s.

(** Returns the removed entry as well. *)
Definition remove_utxo (outpoint : OutPoint) (s : UtxoSet) : UtxoSet * option Utxo :=
  (delete outpoint s, s !! outpoint).

Definition get_utxo (s : UtxoSet) (outpoint : OutPoint) : option Utxo := s !! outpoint.

Definition contains_utxo (s : UtxoSet) (outpoint : OutPoint) : bool :=
  bool_decide (is_Some (s !! outpoint)).

Definition UtxoSet_len (s : UtxoSet) : Z := Z.of_nat (size s).

Definition UtxoSet_is_empty (s : UtxoSet) : bool := UtxoSet_len s =? 0.

Abbreviation utxoM := (stM UtxoSet CE.ConsensusError).

(** [for input in tx.get_inputs() { self.remove_utxo(..) }] *)
Definition spend_inputs (tx : Transaction) : utxoM unit :=
  for_each (get_inputs tx) (fun input =>
    modify (fun s => fst (remove_utxo (previous_output input) s))).

Section WithPrimitives.
  Context `{Primitives}.

(** [for (i, output) in tx.get_outputs().iter().enumerate() { self.add_utxo(..) }] *)
Definition create_outputs (tx : Transaction) (current_block_height : Z) : utxoM unit :=
  for_each (imap pair (get_outputs tx)) (fun '(i, output) =>
    id ← lift (tx_txid tx);
    modify (add_utxo (mkOutPoint id (wrap32 (Z.of_nat i)))
              (mkUtxo output (is_coinbase tx) current_block_height))).

Definition update_from_block (block : Block) (current_block_height : Z) : utxoM unit :=
  for_each (transactions block) spend_inputs;;
  for_each (transactions block) (fun tx => create_outputs tx current_block_height).

Definition update_from_transaction (tx : Transaction) (current_block_height : Z) :
    utxoM unit :=
  spend_inputs tx;;
  create_outputs tx current_block_height.

Definition apply_block (block : Block) (current_block_height : Z) : utxoM unit :=
  update_from_block block current_block_height.

(** The placeholder entry [get_historical_utxo] invents for a spent output. *)
Definition dummy_utxo : Utxo := mkUtxo (mkTxOutput 0 [] None) false 0.

Definition get_historical_utxo (s : UtxoSet) (outpoint : OutPoint) : option Utxo :=
  match get_utxo s outpoint with
  | Some utxo => Some utxo
  | None => Some dummy_utxo
  end.

Definition revert_outputs (tx : Transaction) : utxoM unit :=
  for_each (reverse (imap pair (get_outputs tx))) (fun '(i, _) =>
    id ← lift (tx_txid tx);
    modify (fun s => fst (remove_utxo (mkOutPoint id (wrap32 (Z.of_nat i))) s))).

Definition revert_inputs (tx : Transaction) : utxoM unit :=
  for_each (reverse (get_inputs tx)) (fun input =>
    let outpoint := previous_output input in
    original ← gets (fun s => get_historical_utxo s outpoint);
    match original with
    | Some original_utxo => modify (add_utxo outpoint original_utxo)
    | None => throw (CE.FailedToFindHistoricalUTXO outpoint)
    end).

Definition revert_block (block : Block) : utxoM unit :=
  for_each (reverse (transactions block)) (fun tx => revert_outputs tx;; revert_inputs tx).

(** * Transaction checks *)

(** The body of the input loop of [validate_transaction_comprehensive] for an
    input whose output was found: the coinbase-maturity and lock-time checks. *)
Definition input_spendable (tx : Transaction) (utxo : Utxo)
    (current_height coinbase_maturity : Z) : bool :=
  (if is_coinbase_utxo utxo && negb (current_height =? u64_max)
   then negb (u64_saturating_sub current_height (creation_height utxo) <? coinbase_maturity)
   else true) &&
  (if negb (current_height =? u64_max)
   then if get_lock_time tx >=? LOCKTIME_THRESHOLD then true
        else if get_lock_time tx >? 0 then negb (current_height <? get_lock_time tx)
        else true
   else true).

(** The input loop: [None] is [return false], [Some] the accumulated value. *)
Fixpoint check_inputs (s : UtxoSet) (tx : Transaction) (current_height coinbase_maturity : Z)
    (inputs : list TxInput) (spent_utxos_in_tx : gset OutPoint) (total_input_value : Z) :
    option Z :=
  match inputs with
  | [] => Some total_input_value
  | tx_in :: inputs =>
      let outpoint := previous_output tx_in in
      if bool_decide (outpoint ∈ spent_utxos_in_tx) then None else
      match s !! outpoint with
      | None => None
      | Some utxo =>
          if input_spendable tx utxo current_height coinbase_maturity
          then check_inputs s tx current_height coinbase_maturity inputs
                 ({[outpoint]} ∪ spent_utxos_in_tx)
                 (u64_add total_input_value (value (output utxo)))
          else None
      end
  end.

(** The output loop. *)
Fixpoint check_outputs (dust_limit : Z) (outputs : list TxOutput) (total_output_value : Z) :
    option Z :=
  match outputs with
  | [] => Some total_output_value
  | tx_out :: outputs =>
      let total_output_value := u64_add total_output_value (value tx_out) in
      if value tx_out <? dust_limit then None
      else check_outputs dust_limit outputs total_output_value
  end.

Definition validate_transaction_comprehensive (s : UtxoSet) (tx : Transaction)
    (current_height coinbase_maturity dust_limit : Z) : bool :=
  match check_inputs s tx current_height coinbase_maturity (get_inputs tx) ∅ 0 with
  | None => false
  | Some total_input_value =>
      match check_outputs dust_limit (get_outputs tx) 0 with
      | None => false
      | Some total_output_value =>
          total_input_value >=? u64_add total_output_value (get_fee tx)
      end
  end.

Definition validate_transaction_inputs_with_params (s : UtxoSet) (tx : Transaction)
    (current_height coinbase_maturity : Z) : bool :=
  validate_transaction_comprehensive s tx current_height coinbase_maturity DUST_LIMIT.

Definition validate_transaction_inputs_at_height (s : UtxoSet) (tx : Transaction)
    (current_height : Z) : bool :=
  validate_transaction_inputs_with_params s tx current_height 100.

Definition validate_transaction_inputs (s : UtxoSet) (tx : Transaction) : bool :=
  validate_transaction_inputs_at_height s tx u64_max.

(** [TicketId::from(outpoint.txid)] for every entry that is not a coinbase. *)
Definition get_used_inputs_as_ticket_ids (s : UtxoSet) : list bytes :=
  omap (fun '(outpoint, utxo) => if is_coinbase_utxo utxo then None else Some (txid outpoint))
    (map_to_list s).

End WithPrimitives.
