(* ===== verification/UtxoProps.v ===== *)
(** Properties of the UTXO set: what applying and reverting a block does, when
    block application agrees with applying the transactions one after another,
    exactly which transactions are accepted, and conservation of value. *)

From Stdlib Require Import ZArith Lia List.
From stdpp Require Import base option list numbers strings gmap.
From S2P Require Import Prelude Types Errors Transaction ScriptEngine SamplePrimitives UtxoSet.

#[local] Open Scope Z_scope.

(** * The abstract effect of a transaction on the set *)

(** The outputs a transaction consumes. *)
Definition spent (tx : Transaction) : list OutPoint := previous_output <$> get_inputs tx.

(** Total value of an unspent-output map. *)
Definition supply (s : UtxoSet) : Z := map_fold (fun _ u acc => value (output u) + acc) 0 s.

Definition sum_values (l : list TxOutput) : Z := foldr (fun o acc => value o + acc) 0 l.

Section Effect.
  Context `{Primitives}.

Definition serializable (tx : Transaction) : Prop := is_Some (bincode_transaction tx).

(** The entries a transaction adds. *)
Definition created (h : Z) (tx : Transaction) : list (OutPoint * Utxo) :=
  imap (fun i o => (mkOutPoint (tx_hash tx) (wrap32 (Z.of_nat i)), mkUtxo o (is_coinbase tx) h))
    (get_outputs tx).

Definition creates (tx : Transaction) : list OutPoint :=
  imap (fun i _ => mkOutPoint (tx_hash tx) (wrap32 (Z.of_nat i))) (get_outputs tx).

(** Later insertions win, as in a sequence of [HashMap::insert]. *)
Definition entries (l : list (OutPoint * Utxo)) : UtxoSet := list_to_map (reverse l).

Definition without (l : list OutPoint) (s : UtxoSet) : UtxoSet :=
  filter (fun kv => kv.1 ∉ l) s.

(** The contract of applying a list of transactions as one block. *)
Definition block_effect (h : Z) (txs : list Transaction) (s : UtxoSet) : UtxoSet :=
  entries (txs ≫= created h) ∪ without (txs ≫= spent) s.

(** One transaction: what it names goes, what it creates comes. *)
Definition tx_effect (h : Z) (s : UtxoSet) (tx : Transaction) : UtxoSet :=
  entries (created h tx) ∪ without (spent tx) s.

(** Applying the transactions one after another. *)
Definition update_sequentially (txs : list Transaction) (h : Z) : utxoM unit :=
  for_each txs (fun tx => update_from_transaction tx h).

(** No transaction of the list spends an output the list creates. *)
Definition no_internal_spend (txs : list Transaction) : Prop :=
  forall o, o ∈ (txs ≫= spent) -> o ∉ (txs ≫= creates).

Lemma creates_keys h tx : (created h tx).*1 = creates tx.
Proof. unfold created, creates. by rewrite fmap_imap. Qed.

Lemma creates_keys_bind h txs : (txs ≫= created h).*1 = txs ≫= creates.
Proof.
  induction txs as [|tx txs IH]; [done|]. cbn [mbind list_bind].
  rewrite fmap_app, creates_keys. by f_equal.
Qed.

Lemma entries_app l1 l2 : entries (l1 ++ l2) = entries l2 ∪ entries l1.
Proof. unfold entries. by rewrite reverse_app, list_to_map_app. Qed.

Lemma entries_lookup_is_Some l o : is_Some (entries l !! o) <-> o ∈ l.*1.
Proof.
  rewrite <- not_eq_None_Some. unfold entries. rewrite <- not_elem_of_list_to_map.
  rewrite fmap_reverse, elem_of_reverse.
  destruct (decide (o ∈ l.*1)); tauto.
Qed.

Lemma entries_lookup_None l o : o ∉ l.*1 -> entries l !! o = None.
Proof. intros Ho. apply eq_None_not_Some. by rewrite entries_lookup_is_Some. Qed.

Lemma without_lookup l s o :
  without l s !! o = if bool_decide (o ∈ l) then None else s !! o.
Proof.
  unfold without. case_bool_decide as Ho.
  - apply map_lookup_filter_None. right. intros u _ Hn. by apply Hn.
  - destruct (s !! o) as [u|] eqn:E.
    + by apply map_lookup_filter_Some.
    + apply map_lookup_filter_None. by left.
Qed.

Lemma without_nil s : without [] s = s.
Proof. apply map_eq. intros o. by rewrite without_lookup. Qed.

Lemma without_app l1 l2 s : without (l1 ++ l2) s = without l2 (without l1 s).
Proof.
  apply map_eq. intros o. rewrite !without_lookup.
  repeat case_bool_decide; set_solver.
Qed.

Lemma foldl_insert_entries l s :
  foldl (fun s p => <[p.1 := p.2]> s) s l = entries l ∪ s.
Proof.
  induction l as [|p l IH] using rev_ind.
  - unfold entries. simpl. by rewrite (left_id_L ∅ (∪)).
  - rewrite foldl_snoc, IH, entries_app. unfold entries at 2. simpl.
    destruct p as [k v]. simpl. by rewrite insert_empty, <- (assoc_L (∪)), insert_union_singleton_l.
Qed.

Lemma foldl_delete_without l (s : UtxoSet) :
  foldl (fun s o => delete o s) s l = without l s.
Proof.
  apply map_eq. intros o. by rewrite without_lookup, deletes_lookup.
Qed.

(** ** The loops of the code compute these effects *)

Lemma spend_inputs_run tx s : spend_inputs tx s = (without (spent tx) s, Ok tt).
Proof.
  unfold spend_inputs, spent.
  rewrite (for_each_pure _ _ (fun s i => delete (previous_output i) s));
    [|by apply Forall_forall].
  f_equal. by rewrite <- foldl_delete_without, foldl_fmap.
Qed.

Lemma tx_txid_ok {E} tx : serializable tx -> tx_txid (E := E) tx = Ok (tx_hash tx).
Proof. intros [b Hb]. unfold tx_txid, tx_hash. by rewrite Hb. Qed.

Lemma created_fmap h tx :
  (fun p => (mkOutPoint (tx_hash tx) (wrap32 (Z.of_nat p.1)), mkUtxo p.2 (is_coinbase tx) h))
    <$> imap pair (get_outputs tx) = created h tx.
Proof. by rewrite fmap_imap. Qed.

Lemma creates_fmap tx :
  (fun p => mkOutPoint (tx_hash tx) (wrap32 (Z.of_nat p.1))) <$> imap pair (get_outputs tx)
  = creates tx.
Proof. by rewrite fmap_imap. Qed.

Lemma create_outputs_run tx h s :
  serializable tx -> create_outputs tx h s = (entries (created h tx) ∪ s, Ok tt).
Proof.
  intros Hs. unfold create_outputs.
  rewrite (for_each_pure _ _ (fun s p =>
    <[mkOutPoint (tx_hash tx) (wrap32 (Z.of_nat p.1)) := mkUtxo p.2 (is_coinbase tx) h]> s)).
  - f_equal. rewrite <- foldl_insert_entries, <- created_fmap, foldl_fmap. done.
  - apply Forall_forall. intros [i o] _ s'. cbn beta iota.
    rewrite stM_bind_run. unfold lift. by rewrite tx_txid_ok.
Qed.

Lemma spend_all_run txs s : for_each txs spend_inputs s = (without (txs ≫= spent) s, Ok tt).
Proof.
  revert s. induction txs as [|tx txs IH]; intros s.
  - cbn [for_each mbind list_bind]. by rewrite without_nil.
  - cbn [for_each mbind list_bind]. rewrite stM_bind_run, spend_inputs_run, IH.
    by rewrite without_app.
Qed.

Lemma create_all_run txs h s :
  Forall serializable txs ->
  for_each txs (fun tx => create_outputs tx h) s = (entries (txs ≫= created h) ∪ s, Ok tt).
Proof.
  intros Hs. revert s. induction Hs as [|tx txs Hx Hs IH]; intros s.
  - cbn [for_each mbind list_bind]. unfold entries. cbn. by rewrite (left_id_L ∅ (∪)).
  - cbn [for_each mbind list_bind]. rewrite stM_bind_run, create_outputs_run, IH by done.
    by rewrite entries_app, (assoc_L (∪)).
Qed.

Lemma update_from_block_run b h s :
  Forall serializable (transactions b) ->
  update_from_block b h s = (block_effect h (transactions b) s, Ok tt).
Proof.
  intros Hs. unfold update_from_block. rewrite stM_bind_run, spend_all_run.
  by apply create_all_run.
Qed.

Lemma update_from_transaction_run tx h s :
  serializable tx ->
  update_from_transaction tx h s = (entries (created h tx) ∪ without (spent tx) s, Ok tt).
Proof.
  intros Hs. unfold update_from_transaction.
  rewrite stM_bind_run, spend_inputs_run. by apply create_outputs_run.
Qed.

Lemma update_sequentially_fold txs h s :
  Forall serializable txs -> update_sequentially txs h s = (foldl (tx_effect h) s txs, Ok tt).
Proof.
  intros Hs. revert s. unfold update_sequentially. induction Hs as [|tx txs Hx _ IH]; intros s; [done|].
  cbn [for_each foldl]. rewrite stM_bind_run, update_from_transaction_run by done. apply IH.
Qed.

Lemma without_union_disjoint l (s1 s2 : UtxoSet) :
  (forall o, o ∈ l -> s1 !! o = None) -> without l (s1 ∪ s2) = s1 ∪ without l s2.
Proof.
  intros Hd. apply map_eq. intros o.
  rewrite without_lookup, !lookup_union, without_lookup.
  case_bool_decide; [by rewrite Hd|done].
Qed.

Lemma update_sequentially_run txs h s :
  Forall serializable txs -> no_internal_spend txs ->
  update_sequentially txs h s = (block_effect h txs s, Ok tt).
Proof.
  unfold update_sequentially, block_effect. revert s.
  induction txs as [|tx txs IH] using rev_ind; intros s Hs Hn.
  - cbn [for_each mbind list_bind]. unfold entries. cbn.
    by rewrite without_nil, (left_id_L ∅ (∪)).
  - apply Forall_app in Hs as [Hs [Hx _]%Forall_cons].
    rewrite for_each_app, stM_bind_run, IH; [|done|intros o Ho Hc; apply (Hn o);
      rewrite bind_app; set_solver].
    cbn [for_each]. rewrite stM_bind_run, update_from_transaction_run by done.
    unfold mret, stM_ret. f_equal.
    rewrite !bind_app. cbn [mbind list_bind]. rewrite !app_nil_r, entries_app, without_app.
    rewrite without_union_disjoint; [by rewrite (assoc_L (∪))|].
    intros o Ho. apply entries_lookup_None. rewrite creates_keys_bind.
    intros Hc. apply (Hn o); rewrite bind_app; cbn [mbind list_bind]; set_solver.
Qed.

(** ** Reverting *)

Lemma revert_outputs_run tx s :
  serializable tx -> revert_outputs tx s = (without (creates tx) s, Ok tt).
Proof.
  intros Hs. unfold revert_outputs.
  rewrite (for_each_pure _ _ (fun s p =>
    delete (mkOutPoint (tx_hash tx) (wrap32 (Z.of_nat p.1))) s)).
  - f_equal. transitivity (without (reverse (creates tx)) s).
    + by rewrite <- foldl_delete_without, <- creates_fmap, <- fmap_reverse, foldl_fmap.
    + apply map_eq. intros o. rewrite !without_lookup.
      repeat case_bool_decide; set_solver.
  - apply Forall_forall. intros [i o] _ s'. cbn beta iota.
    rewrite stM_bind_run. unfold lift. by rewrite tx_txid_ok.
Qed.

(** Re-adding a list of outpoints the way [revert_block] does. *)
Definition resurrect (l : list OutPoint) (s : UtxoSet) : UtxoSet :=
  foldl (fun s o => <[o := default dummy_utxo (s !! o)]> s) s l.

Lemma resurrect_lookup l s o :
  resurrect l s !! o = if bool_decide (o ∈ l) then Some (default dummy_utxo (s !! o)) else s !! o.
Proof.
  unfold resurrect. revert s. induction l as [|k l IH]; intros s; [done|].
  cbn [foldl]. rewrite IH. destruct (decide (o = k)) as [->|Hk].
  - rewrite lookup_insert_eq. repeat case_bool_decide; set_solver.
  - rewrite lookup_insert_ne by done. repeat case_bool_decide; set_solver.
Qed.

Lemma revert_inputs_run tx s :
  revert_inputs tx s = (resurrect (reverse (spent tx)) s, Ok tt).
Proof.
  unfold revert_inputs, spent, resurrect.
  rewrite <- fmap_reverse, foldl_fmap.
  apply for_each_pure, Forall_forall. intros i _ s'.
  rewrite stM_bind_run. unfold gets, get_historical_utxo, get_utxo, modify, add_utxo.
  by destruct (s' !! previous_output i).
Qed.

Lemma revert_txs_lookup txs s o :
  Forall serializable txs -> no_internal_spend txs ->
  exists s', for_each txs (fun tx => revert_outputs tx;; revert_inputs tx) s = (s', Ok tt) /\
  s' !! o = if bool_decide (o ∈ txs ≫= spent) then Some (default dummy_utxo (s !! o))
            else if bool_decide (o ∈ txs ≫= creates) then None else s !! o.
Proof.
  intros Hs. revert s. induction Hs as [|tx txs Hx Hs IH]; intros s Hn; [by exists s|].
  cbn [for_each mbind list_bind]. rewrite stM_bind_run, stM_bind_run.
  rewrite revert_outputs_run, revert_inputs_run by done.
  destruct (IH (resurrect (reverse (spent tx)) (without (creates tx) s))) as (s' & -> & Hl).
  { intros k Hk Hc. apply (Hn k); cbn [mbind list_bind]; set_solver. }
  exists s'. split; [done|]. rewrite Hl, resurrect_lookup, without_lookup.
  specialize (Hn o). cbn [mbind list_bind] in Hn.
  repeat case_bool_decide; rewrite ?elem_of_app, ?elem_of_reverse in *; done || tauto.
Qed.

End Effect.

(** * Exactly which transactions are accepted *)

Definition input_value (s : UtxoSet) (i : TxInput) : Z :=
  match s !! previous_output i with Some u => value (output u) | None => 0 end.

Definition inputs_value (s : UtxoSet) (l : list TxInput) : Z :=
  foldr (fun i acc => input_value s i + acc) 0 l.

Lemma input_value_some s i u : s !! previous_output i = Some u -> input_value s i = value (output u).
Proof. unfold input_value. by intros ->. Qed.

(** The coinbase-maturity and lock-time rules; [u64_max] disables both. *)
Definition spendable_at (tx : Transaction) (u : Utxo) (h maturity : Z) : Prop :=
  h = u64_max \/
  ((is_coinbase_utxo u = true -> maturity <= u64_saturating_sub h (creation_height u)) /\
   (0 < get_lock_time tx < LOCKTIME_THRESHOLD -> get_lock_time tx <= h)).

Lemma input_spendable_spec tx u h maturity :
  input_spendable tx u h maturity = true <-> spendable_at tx u h maturity.
Proof.
  unfold input_spendable, spendable_at.
  destruct (Z.eqb_spec h u64_max); simpl; [destruct (is_coinbase_utxo u); naive_solver|].
  rewrite andb_true_iff, andb_true_r.
  destruct (is_coinbase_utxo u), (Z.ltb_spec (u64_saturating_sub h (creation_height u)) maturity),
    (Z.geb_spec (get_lock_time tx) LOCKTIME_THRESHOLD), (Z.gtb_spec (get_lock_time tx) 0),
    (Z.ltb_spec h (get_lock_time tx)); simpl; naive_solver lia.
Qed.

Lemma check_inputs_spec s tx h maturity ins seen acc r :
  is_u64 acc ->
  check_inputs s tx h maturity ins seen acc = Some r <->
  NoDup (previous_output <$> ins) /\
  Forall (fun i => previous_output i ∉ seen /\
            exists u, s !! previous_output i = Some u /\ spendable_at tx u h maturity) ins /\
  r = wrap64 (acc + inputs_value s ins).
Proof.
  revert seen acc. induction ins as [|i ins IH]; intros seen acc Hacc.
  - cbn. rewrite Z.add_0_r, wrap64_small by done. split; [intros [= <-]|intros (_ & _ & ->)];
      [|done]. split_and!; [constructor|constructor|done].
  - cbn [check_inputs fmap list_fmap]. rewrite NoDup_cons, Forall_cons.
    case_bool_decide as Hin; [naive_solver|].
    destruct (s !! previous_output i) as [u|] eqn:Hu; [|naive_solver].
    destruct (input_spendable tx u h maturity) eqn:Hsp.
    + rewrite input_spendable_spec in Hsp. unfold u64_add.
      rewrite IH by apply wrap64_range. cbn [inputs_value foldr].
      rewrite (input_value_some _ _ _ Hu), Z.add_assoc.
      assert (Hw : forall x y, wrap64 (wrap64 x + y) = wrap64 (x + y)).
      { intros. unfold wrap64. by rewrite Zplus_mod_idemp_l. }
      rewrite Hw. fold (inputs_value s ins).
      split.
      * intros (Hnd & Hall & ->). split_and!; try done.
        -- intros Hi. apply list_elem_of_fmap in Hi as (j & Hj & Hji).
           rewrite Forall_forall in Hall. apply Hall in Hji as [Hn _]. set_solver.
        -- eauto.
        -- eapply Forall_impl; [apply Hall|]. cbn. set_solver.
      * intros ((Hni & Hnd) & (_ & Hall) & ->). split_and!; try done.
        rewrite Forall_forall in *. intros j Hj. destruct (Hall j Hj) as [Hs Hx].
        split; [|done]. apply not_elem_of_union. split; [|done].
        rewrite elem_of_singleton. intros He. apply Hni. rewrite <- He.
        apply list_elem_of_fmap. eauto.
    + split; [done|]. intros (_ & ((_ & u' & [= <-] & Hs) & _) & _).
      apply input_spendable_spec in Hs. congruence.
Qed.

Lemma check_outputs_spec dust outs acc r :
  is_u64 acc ->
  check_outputs dust outs acc = Some r <->
  Forall (fun o => dust <= value o) outs /\ r = wrap64 (acc + sum_values outs).
Proof.
  revert acc. induction outs as [|o outs IH]; intros acc Hacc.
  - cbn. rewrite Z.add_0_r, wrap64_small by done.
    split; [intros [= <-]; auto|intros [_ ->]; done].
  - cbn [check_outputs]. rewrite Forall_cons. unfold u64_add.
    destruct (Z.ltb_spec (value o) dust); [split; [done|lia]|].
    rewrite IH by apply wrap64_range. cbn [sum_values foldr].
    unfold wrap64. rewrite Zplus_mod_idemp_l, <- Z.add_assoc. fold (sum_values outs). tauto.
Qed.

Lemma validate_wrapped s tx h maturity dust :
  validate_transaction_comprehensive s tx h maturity dust = true <->
  NoDup (spent tx) /\
  Forall (fun i => exists u, s !! previous_output i = Some u /\ spendable_at tx u h maturity)
    (get_inputs tx) /\
  Forall (fun o => dust <= value o) (get_outputs tx) /\
  wrap64 (sum_values (get_outputs tx) + get_fee tx) <= wrap64 (inputs_value s (get_inputs tx)).
Proof.
  assert (H0 : is_u64 0) by (unfold is_u64, u64_max; lia).
  unfold validate_transaction_comprehensive, spent.
  destruct (check_inputs _ _ _ _ _ _ _) as [ti|] eqn:Hi.
  - apply check_inputs_spec in Hi as (Hnd & Hall & ->); [|done].
    destruct (check_outputs _ _ _) as [to|] eqn:Ho.
    + apply check_outputs_spec in Ho as (Hd & ->); [|done].
      rewrite !Z.add_0_l. unfold u64_add, wrap64. rewrite Zplus_mod_idemp_l.
      rewrite Z.geb_le. split; [|tauto]. intros. split_and!; try done.
      eapply Forall_impl; [apply Hall|]. cbn. tauto.
    + split; [done|]. intros (_ & _ & Hd & _).
      edestruct (check_outputs_spec dust (get_outputs tx) 0) as [_ Hx]; [done|].
      rewrite Hx in Ho; [done|]. split; [done|reflexivity].
  - split; [done|]. intros (Hnd & Hall & _).
    edestruct (check_inputs_spec s tx h maturity (get_inputs tx) ∅ 0) as [_ Hx]; [done|].
    rewrite Hx in Hi; [done|]. split_and!; [done| |reflexivity].
    eapply Forall_impl; [apply Hall|]. cbn. set_solver.
Qed.

(** * Total value *)

Lemma supply_insert s o u :
  s !! o = None -> supply (<[o := u]> s) = value (output u) + supply s.
Proof.
  intros Ho. unfold supply. rewrite map_fold_insert_L; [done|intros; lia|done].
Qed.

Lemma supply_delete s o u :
  s !! o = Some u -> supply (delete o s) = supply s - value (output u).
Proof.
  intros Ho. rewrite <- (insert_delete_id _ _ _ Ho) at 2.
  rewrite supply_insert by apply lookup_delete_eq. lia.
Qed.

(** Deleting distinct present inputs removes exactly their value. *)
Lemma supply_without s ins :
  NoDup (previous_output <$> ins) ->
  Forall (fun i => is_Some (s !! previous_output i)) ins ->
  supply (without (previous_output <$> ins) s) = supply s - inputs_value s ins.
Proof.
  rewrite <- foldl_delete_without.
  revert s. induction ins as [|i ins IH]; intros s Hnd Hall; [cbn; lia|].
  cbn [fmap list_fmap] in *. apply NoDup_cons in Hnd as [Hni Hnd].
  apply Forall_cons in Hall as [[u Hu] Hall]. cbn [foldl].
  change (inputs_value s (i :: ins)) with (input_value s i + inputs_value s ins).
  assert (Hne : forall j, j ∈ ins -> previous_output i <> previous_output j).
  { intros j Hj He. apply Hni. rewrite He. apply list_elem_of_fmap. eauto. }
  rewrite IH; [|done|].
  - rewrite (supply_delete _ _ _ Hu), (input_value_some _ _ _ Hu).
    assert (inputs_value (delete (previous_output i) s) ins = inputs_value s ins) as ->.
    { clear IH Hni Hnd Hall. induction ins as [|j ins IH]; [done|].
      cbn [inputs_value foldr]. fold (inputs_value s ins).
      fold (inputs_value (delete (previous_output i) s) ins).
      rewrite IH by (intros; apply Hne; set_solver). f_equal. unfold input_value.
      rewrite lookup_delete_ne; [done|]. apply Hne. set_solver. }
    lia.
  - rewrite Forall_forall in *. intros j Hj. rewrite lookup_delete_ne by auto. auto.
Qed.

Lemma supply_entries l s :
  NoDup l.*1 -> Forall (fun o => s !! o = None) l.*1 ->
  supply (entries l ∪ s) = sum_values ((output ∘ snd) <$> l) + supply s.
Proof.
  rewrite <- foldl_insert_entries.
  revert s. induction l as [|[o u] l IH]; intros s Hnd Hall; [cbn; lia|].
  cbn [fmap list_fmap fst] in *. apply NoDup_cons in Hnd as [Hno Hnd].
  apply Forall_cons in Hall as [Ho Hall]. cbn [foldl fst snd].
  rewrite IH; [|done|].
  - rewrite supply_insert by done. cbn. fold (sum_values ((output ∘ snd) <$> l)). lia.
  - rewrite Forall_forall in *. intros k Hk. rewrite lookup_insert_ne by set_solver. auto.
Qed.

Lemma creates_NoDup `{Primitives} tx :
  len (get_outputs tx) <= u32_max + 1 -> NoDup (creates tx).
Proof.
  intros Hl. unfold creates. apply NoDup_alt. intros i j o Hi Hj.
  rewrite list_lookup_imap in Hi, Hj.
  destruct (get_outputs tx !! i) eqn:Ei, (get_outputs tx !! j) eqn:Ej; try done.
  apply lookup_lt_Some in Ei, Ej. unfold len, u32_max in Hl.
  cbn in Hi, Hj. injection Hi as <-. injection Hj as Hj.
  rewrite !wrap32_small in Hj by (unfold u32_max; lia). lia.
Qed.

Lemma created_outputs `{Primitives} h tx : (output ∘ snd) <$> created h tx = get_outputs tx.
Proof.
  unfold created. rewrite fmap_imap. apply list_eq. intros i.
  rewrite list_lookup_imap. by destruct (get_outputs tx !! i).
Qed.

(** * Theorems *)

Section Theorems.
  Context `{Primitives}.

(** The effect of a block in one step: whenever the transactions serialize,
    [apply_block] succeeds and the set afterwards is the previous one without
    every output the block spends, overridden by the outputs the block creates
    (the later output winning when two share an outpoint). *)
Theorem apply_block_refines (b : Block) (h : Z) (s : UtxoSet) :
  Forall serializable (transactions b) ->
  apply_block b h s = (block_effect h (transactions b) s, Ok tt).
Proof. apply update_from_block_run. Qed.

(** C3. Applying a block is applying its transactions one after another in the
    order of the block, each removing the outputs it names and then adding its
    own outputs at the height of the block, provided every transaction
    serializes and no transaction of the block spends an output the block
    itself creates.  Removing an output that is not there is no error, and every
    output is added, OP_RETURN outputs included. *)
Theorem apply_block_sequential (b : Block) (h : Z) (s : UtxoSet) :
  Forall serializable (transactions b) ->
  no_internal_spend (transactions b) ->
  apply_block b h s = (foldl (tx_effect h) s (transactions b), Ok tt) /\
  apply_block b h s = update_sequentially (transactions b) h s.
Proof.
  intros Hs Hn. assert (Hr : apply_block b h s = update_sequentially (transactions b) h s)
    by (rewrite update_sequentially_run by done; by apply update_from_block_run).
  split; [|done]. rewrite Hr. by apply update_sequentially_fold.
Qed.

(** An output created and spent inside one block survives the block:
    [update_from_block] removes all inputs before it adds any output, so the
    output stays in the set, where one-by-one application removes it.  The
    output can then be spent a second time. *)
Theorem intra_block_spend_survives (b : Block) (h : Z) (s : UtxoSet)
    (txs : list Transaction) (tx : Transaction) (o : OutPoint) :
  transactions b = txs ++ [tx] ->
  Forall serializable (transactions b) ->
  o ∈ (txs ≫= creates) -> o ∈ spent tx -> o ∉ creates tx ->
  is_Some (get_utxo (fst (apply_block b h s)) o) /\
  (no_internal_spend txs ->
   get_utxo (fst (update_sequentially (transactions b) h s)) o = None).
Proof.
  intros Hb Hs Hc Hsp Hnc. unfold apply_block, get_utxo.
  rewrite update_from_block_run by done. rewrite Hb in *. split.
  - cbn. unfold block_effect. apply lookup_union_is_Some. left.
    apply entries_lookup_is_Some. rewrite creates_keys_bind, bind_app. set_solver.
  - intros Hn. apply Forall_app in Hs as [Hs [Hx _]%Forall_cons].
    pose proof (update_sequentially_run txs h s Hs Hn) as Hr. unfold update_sequentially in *.
    rewrite for_each_app, stM_bind_run, Hr. cbn [for_each].
    rewrite stM_bind_run, update_from_transaction_run by done. cbn [fst mret stM_ret].
    rewrite lookup_union_None, without_lookup, bool_decide_true by done.
    split; [|done]. apply entries_lookup_None. by rewrite creates_keys.
Qed.

(** Reverting the block that was just applied never fails, and restores
    the previous entry of exactly those outpoints the block did not spend:
    outputs the block created disappear and untouched ones are as before, but
    every spent output comes back as an empty placeholder of value 0. *)
Theorem revert_after_apply (b : Block) (h : Z) (s : UtxoSet) (o : OutPoint) :
  Forall serializable (transactions b) ->
  no_internal_spend (transactions b) ->
  exists s', (apply_block b h;; revert_block b) s = (s', Ok tt) /\
  get_utxo s' o =
    if bool_decide (o ∈ transactions b ≫= spent) then Some dummy_utxo
    else if bool_decide (o ∈ transactions b ≫= creates) then None
    else get_utxo s o.
Proof.
  intros Hs Hn. rewrite stM_bind_run. unfold apply_block, revert_block, get_utxo.
  rewrite update_from_block_run by done.
  assert (Hsr : forall k, k ∈ reverse (transactions b) ≫= spent <-> k ∈ transactions b ≫= spent).
  { intros k. rewrite !list_elem_of_bind. by setoid_rewrite elem_of_reverse. }
  assert (Hcr : forall k, k ∈ reverse (transactions b) ≫= creates <-> k ∈ transactions b ≫= creates).
  { intros k. rewrite !list_elem_of_bind. by setoid_rewrite elem_of_reverse. }
  destruct (revert_txs_lookup (reverse (transactions b))
              (block_effect h (transactions b) s) o) as (s' & Hr & Hl).
  - by apply Forall_reverse.
  - intros k. rewrite Hsr, Hcr. apply Hn.
  - exists s'. split; [done|]. rewrite Hl.
    rewrite (bool_decide_ext _ _ (Hsr o)), (bool_decide_ext _ _ (Hcr o)).
    unfold block_effect. rewrite lookup_union, without_lookup.
    specialize (Hn o). repeat case_bool_decide; try done;
      rewrite entries_lookup_None by (rewrite creates_keys_bind; auto);
      by destruct (s !! o).
Qed.

(** C2. [validate_transaction_comprehensive] accepts a transaction exactly when
    it names no output twice, every input is in the set, a coinbase output it
    spends has reached the maturity and a lock time that is a height has been
    reached (both rules are off at the height [u64::MAX]), no output of whatever
    script is below the dust limit, and the outputs plus the declared fee are
    covered by the inputs, as long as neither sum exceeds [u64::MAX].  Lock times
    that are timestamps and sequence numbers play no part. *)
Theorem validate_iff (s : UtxoSet) (tx : Transaction) (h maturity dust : Z) :
  0 <= inputs_value s (get_inputs tx) <= u64_max ->
  0 <= sum_values (get_outputs tx) + get_fee tx <= u64_max ->
  validate_transaction_comprehensive s tx h maturity dust = true <->
  NoDup (spent tx) /\
  Forall (fun i => exists u, get_utxo s (previous_output i) = Some u /\
                             spendable_at tx u h maturity) (get_inputs tx) /\
  Forall (fun o => dust <= value o) (get_outputs tx) /\
  sum_values (get_outputs tx) + get_fee tx <= inputs_value s (get_inputs tx).
Proof. intros Hi Ho. rewrite validate_wrapped, !wrap64_small by done. done. Qed.

(** C1. Applying an accepted transaction never creates money: the total value
    of the set afterwards plus the fee is at most the total before, when the
    amounts fit in [u64] and the transaction's outpoints are new. *)
Theorem value_conservation (s : UtxoSet) (tx : Transaction) (h maturity dust : Z) :
  validate_transaction_comprehensive s tx h maturity dust = true ->
  0 <= inputs_value s (get_inputs tx) <= u64_max ->
  0 <= sum_values (get_outputs tx) + get_fee tx <= u64_max ->
  serializable tx ->
  len (get_outputs tx) <= u32_max + 1 ->
  Forall (fun o => get_utxo s o = None) (creates tx) ->
  exists s', update_from_transaction tx h s = (s', Ok tt) /\
             supply s' + get_fee tx <= supply s.
Proof.
  intros Hv Hi Ho Hs Hl Hf. rewrite update_from_transaction_run by done.
  eexists. split; [done|].
  apply validate_wrapped in Hv as (Hnd & Hall & _ & Hle).
  rewrite !wrap64_small in Hle by done.
  rewrite supply_entries.
  - unfold spent. rewrite supply_without; [|done|].
    + rewrite created_outputs. lia.
    + eapply Forall_impl; [apply Hall|]. cbn. intros i (u & -> & _). eauto.
  - rewrite creates_keys. by apply creates_NoDup.
  - rewrite creates_keys. eapply Forall_impl; [apply Hf|]. unfold get_utxo. cbn.
    intros o Hn. rewrite without_lookup, Hn. by case_bool_decide.
Qed.

(** The two outputs whose values add up to 2^64. *)
Definition overflowing_outputs (script : bytes) : list TxOutput :=
  [TxOutput_new 9223372036854775808 script; TxOutput_new 9223372036854775808 script].

(** The sums wrap: whoever can spend any non-coinbase output, however
    small, passes validation with two outputs of 2^63 each, which are worth
    2^64 more than nothing; the dust limit and the fee rule do not stop it. *)
Theorem output_overflow_accepted (s : UtxoSet) (o : OutPoint) (u : Utxo)
    (h maturity : Z) (script_sig script : bytes) :
  get_utxo s o = Some u -> is_coinbase_utxo u = false ->
  let tx := Standard 1 [TxInput_from_outpoint o script_sig u32_max []]
              (overflowing_outputs script) 0 0 [] in
  validate_transaction_inputs_with_params s tx h maturity = true /\
  sum_values (get_outputs tx) = u64_max + 1.
Proof.
  intros Hu Hc tx. split; [|done].
  assert (Ho : previous_output (TxInput_from_outpoint o script_sig u32_max []) = o)
    by (by destruct o).
  apply validate_wrapped. unfold spent. cbn [get_inputs tx fmap list_fmap get_outputs get_fee].
  rewrite Ho. split_and!.
  - apply NoDup_singleton.
  - apply Forall_singleton. rewrite Ho. exists u. split; [done|]. right.
    rewrite Hc. cbn. split; [done|lia].
  - repeat constructor; cbn; unfold DUST_LIMIT; lia.
  - apply (wrap64_range (inputs_value s _)).
Qed.

End Theorems.

(** * Witnesses *)

Definition sample_header : BlockHeader :=
  mkBlockHeader 1 0 (replicate 32 0) (replicate 32 0) (replicate 32 0) 0 0 0.

Definition sample_set : UtxoSet :=
  {[ previous_output sample_input := mkUtxo (TxOutput_new 2000 [0x51]) false 0 ]}.

(** A second transaction spending the first output of [sample_tx]. *)
Definition sample_child : Transaction :=
  Standard 1 [TxInput_from_outpoint (mkOutPoint (tx_hash sample_tx) 0) [] 0 []]
    [TxOutput_new 600 [0x51]] 0 10 [].

Definition sample_block : Block := mkBlock sample_header [] [sample_tx].
Definition chained_block : Block := mkBlock sample_header [] [sample_tx; sample_child].

Lemma sample_serializable (l : list Transaction) : Forall serializable l.
Proof. apply Forall_forall. intros tx _. by eexists. Qed.

Lemma sample_no_internal_spend : no_internal_spend [sample_tx].
Proof.
  intros o. cbn [mbind list_bind]. rewrite !app_nil_r.
  intros Ho%list_elem_of_singleton Hc%list_elem_of_singleton.
  rewrite Ho in Hc. apply (f_equal (fun x => bool_decide (x = previous_output sample_input))) in Hc.
  vm_compute in Hc. discriminate.
Qed.

Lemma apply_block_refines_witness :
  apply_block chained_block 5 sample_set =
    (block_effect 5 (transactions chained_block) sample_set, Ok tt).
Proof. apply (apply_block_refines chained_block 5 sample_set). apply sample_serializable. Defined.

Lemma apply_block_sequential_witness :
  apply_block sample_block 5 sample_set = (foldl (tx_effect 5) sample_set (transactions sample_block), Ok tt) /\
  apply_block sample_block 5 sample_set = update_sequentially (transactions sample_block) 5 sample_set.
Proof.
  apply (apply_block_sequential sample_block 5 sample_set).
  - apply sample_serializable.
  - apply sample_no_internal_spend.
Defined.

Lemma intra_block_spend_survives_witness :
  is_Some (get_utxo (fst (apply_block chained_block 5 sample_set)) (mkOutPoint (tx_hash sample_tx) 0)) /\
  (no_internal_spend [sample_tx] ->
   get_utxo (fst (update_sequentially (transactions chained_block) 5 sample_set))
     (mkOutPoint (tx_hash sample_tx) 0) = None).
Proof.
  apply (intra_block_spend_survives chained_block 5 sample_set [sample_tx] sample_child).
  - reflexivity.
  - apply sample_serializable.
  - apply list_elem_of_singleton. reflexivity.
  - apply list_elem_of_singleton. reflexivity.
  - intros Hc%list_elem_of_singleton.
    apply (f_equal (fun x => bool_decide (x = mkOutPoint (tx_hash sample_child) 0))) in Hc.
    vm_compute in Hc. discriminate.
Defined.

Lemma revert_after_apply_witness :
  exists s', (apply_block sample_block 5;; revert_block sample_block) sample_set = (s', Ok tt) /\
  get_utxo s' (previous_output sample_input) = Some dummy_utxo.
Proof.
  destruct (revert_after_apply sample_block 5 sample_set (previous_output sample_input))
    as (s' & Hr & Hl).
  - apply sample_serializable.
  - apply sample_no_internal_spend.
  - exists s'. split; [exact Hr|]. rewrite Hl. rewrite bool_decide_true; [done|].
    apply list_elem_of_singleton. reflexivity.
Defined.

Lemma validate_iff_witness :
  validate_transaction_comprehensive sample_set sample_tx 5 100 500 = true /\
  sum_values (get_outputs sample_tx) + get_fee sample_tx
    <= inputs_value sample_set (get_inputs sample_tx).
Proof.
  assert (Hv : validate_transaction_comprehensive sample_set sample_tx 5 100 500 = true)
    by (vm_compute; reflexivity).
  split; [exact Hv|].
  apply (validate_iff sample_set sample_tx 5 100 500) in Hv.
  - apply Hv.
  - vm_compute; split; discriminate.
  - vm_compute; split; discriminate.
Defined.

Lemma value_conservation_witness :
  exists s', update_from_transaction sample_tx 5 sample_set = (s', Ok tt) /\
             supply s' + get_fee sample_tx <= supply sample_set.
Proof.
  apply (value_conservation sample_set sample_tx 5 100 500).
  - vm_compute; reflexivity.
  - vm_compute; split; discriminate.
  - vm_compute; split; discriminate.
  - by eexists.
  - vm_compute; discriminate.
  - repeat constructor; vm_compute; reflexivity.
Defined.

Lemma output_overflow_accepted_witness :
  validate_transaction_inputs_with_params sample_set
    (Standard 1 [TxInput_from_outpoint (previous_output sample_input) [] u32_max []]
       (overflowing_outputs [0x51]) 0 0 []) 5 100 = true.
Proof.
  apply (output_overflow_accepted sample_set (previous_output sample_input)
           (mkUtxo (TxOutput_new 2000 [0x51]) false 0) 5 100 [] [0x51]).
  - vm_compute; reflexivity.
  - reflexivity.
Defined.
