(* ===== verification/TxValidation.v ===== *)
(** Script validation of a whole transaction against the UTXO set
    ([ScriptEngine::validate_transaction] of
    src/rusty-core/src/script/script_engine.rs), the check behind block
    validation, the mempool and the RPC server. *)

From Stdlib Require Import ZArith Lia List.
From stdpp Require Import base option list numbers strings gmap.
From S2P Require Import Prelude Types Errors Transaction Opcode ScriptEngine ScriptLogic.
From S2P Require Import ScriptProps SamplePrimitives ScriptTheorems UtxoSet UtxoProps.

#[local] Open Scope Z_scope.

(** [.is_ok()] of a call: the error is dropped, the mutated struct stays. *)
Definition succeeds {S E A} (m : stM S E A) : stM S E bool := fun s =>
  match m s with
  | (s', Ok _) => (s', Ok true)
  | (s', Err _) => (s', Ok false)
  | (s', Panic) => (s', Panic)
  | (s', OutOfFuel) => (s', OutOfFuel)
  end.

Section WithPrimitives.
  Context `{Primitives}.

(** The final [match self.pop_data()]. *)
Definition final_result : engM bool := fun e =>
  match pop_data e with
  | (e, Ok result) => (e, Ok (negb (is_false result) && (len (stack e) =? 0)))
  | (e, _) => (e, Ok false)
  end.

(** The loop body for one input; [false] is [return false]. *)
Definition validate_input (tx : Transaction) (utxo_set : UtxoSet)
    (current_block_height input_index : Z) (input : TxInput) : engM bool :=
  if is_coinbase tx then mret true else
  match get_utxo utxo_set (previous_output input) with
  | None => mret false
  | Some prev_output =>
      let script := script_sig input ++ script_pubkey (output prev_output) in
      modify reset_engine;;
      _ ← lift (tx_txid tx);
      ok ← succeeds (execute script tx current_block_height input_index
                       (script_pubkey (output prev_output)));
      if ok : bool then final_result else mret false
  end.

Fixpoint validate_inputs (tx : Transaction) (utxo_set : UtxoSet) (current_block_height : Z)
    (input_index : Z) (inputs : list TxInput) : engM bool :=
  match inputs with
  | [] => mret true
  | input :: inputs =>
      ok ← validate_input tx utxo_set current_block_height input_index input;
      if ok : bool
      then validate_inputs tx utxo_set current_block_height (input_index + 1) inputs
      else mret false
  end.

Definition validate_transaction (tx : Transaction) (utxo_set : UtxoSet)
    (current_block_height : Z) : engM bool :=
  modify (set_sig_op_count 0);;
  validate_inputs tx utxo_set current_block_height 0 (get_inputs tx).

(** ** Running a script in two parts

    A script that succeeds on its own reads nothing of what follows it, so that
    running it in front of another is running the one and then the other on the
    engine it leaves. *)

Section Concatenation.
  Context (a b : bytes) (tx : Transaction) (h i : Z) (spk : bytes).

Lemma read_bytes_prefix ip n e e' r :
  read_bytes a ip n e = (e', Ok r) -> read_bytes (a ++ b) ip n e = (e', Ok r) /\ 0 <= ip <= snd r /\ snd r <= len a.
Proof.
  unfold read_bytes. rewrite !Z.gtb_ltb. assert (Hl : len a <= len (a ++ b)) by (unfold len; rewrite length_app; lia).
  destruct (Z.ltb_spec (len a) (wrap64 (ip + n))); [done|]. rewrite !stM_bind_run. cbn [lift].
  destruct (slice a ip (wrap64 (ip + n))) as [d|] eqn:Hs; [|done]. intros [= <- <-]. cbn [snd].
  apply slice_spec in Hs as (H1 & H2 & -> & _).
  destruct (Z.ltb_spec (len (a ++ b)) (wrap64 (ip + n))); [lia|]. rewrite stM_bind_run. cbn [lift].
  rewrite slice_some by lia. cbn [unwrap mret stM_ret]. split; [|lia]. do 3 f_equal.
  unfold len in *. rewrite drop_app_le by lia. rewrite take_app_le; [done|]. rewrite length_drop. lia.
Qed.

Lemma read_bytes_suffix ip n e e' r :
  len (a ++ b) <= u64_max -> len a <= ip ->
  read_bytes (a ++ b) ip n e = (e', Ok r) ->
  read_bytes b (ip - len a) n e = (e', Ok (fst r, snd r - len a)) /\ ip <= snd r <= len (a ++ b).
Proof.
  intros Hmax Hip. unfold read_bytes. rewrite !Z.gtb_ltb.
  assert (Hl : len (a ++ b) = len a + len b) by (unfold len; rewrite length_app; lia).
  destruct (Z.ltb_spec (len (a ++ b)) (wrap64 (ip + n))); [done|]. rewrite stM_bind_run. cbn [lift].
  destruct (slice (a ++ b) ip (wrap64 (ip + n))) as [d|] eqn:Hs; [|done]. intros [= <- <-]. cbn [fst snd].
  apply slice_spec in Hs as (H1 & H2 & -> & _). split; [|lia].
  assert (Hw : wrap64 (ip - len a + n) = wrap64 (ip + n) - len a).
  { replace (ip - len a + n) with (ip + n - len a) by lia.
    assert (E : wrap64 (ip + n - len a) = wrap64 (wrap64 (ip + n) - len a)) by (unfold wrap64; by rewrite Zminus_mod_idemp_l).
    rewrite E. apply wrap64_small. pose proof (len_nonneg a). lia. }
  rewrite Hw. destruct (Z.ltb_spec (len b) (wrap64 (ip + n) - len a)); [lia|]. rewrite stM_bind_run. cbn [lift].
  rewrite slice_some by lia. cbn [unwrap mret stM_ret]. do 3 f_equal.
  replace (wrap64 (ip + n) - len a - (ip - len a)) with (wrap64 (ip + n) - ip) by lia. f_equal.
  unfold len in *. rewrite drop_app_ge by lia. replace (Z.to_nat ip - length a)%nat with (Z.to_nat (ip - Z.of_nat (length a))) by lia. done.
Qed.

Lemma push_prefix ip n e e' ip' :
  push_data_n a ip n e = (e', Ok ip') -> push_data_n (a ++ b) ip n e = (e', Ok ip') /\ ip <= ip' <= len a.
Proof.
  unfold push_data_n. intros Hp. apply stM_bind_ok in Hp as (e1 & [d ip1] & H1 & Hp).
  apply stM_bind_ok in Hp as (e2 & n2 & H2 & Hp). apply stM_bind_ok in Hp as (e3 & [d3 ip3] & H3 & Hp).
  apply stM_bind_ok in Hp as (e4 & [] & H4 & Hp). injection Hp as <- <-.
  apply read_bytes_prefix in H1 as (H1 & ? & ?), H3 as (H3 & ? & ?). cbn [snd] in *. split; [|lia].
  rewrite stM_bind_run, H1, stM_bind_run, H2, stM_bind_run, H3, stM_bind_run, H4. done.
Qed.

Lemma push_suffix ip n e e' ip' :
  len (a ++ b) <= u64_max -> len a <= ip -> push_data_n (a ++ b) ip n e = (e', Ok ip') ->
  push_data_n b (ip - len a) n e = (e', Ok (ip' - len a)) /\ ip <= ip' <= len (a ++ b).
Proof.
  intros Hmax Hip. unfold push_data_n. intros Hp. apply stM_bind_ok in Hp as (e1 & [d ip1] & H1 & Hp).
  apply stM_bind_ok in Hp as (e2 & n2 & H2 & Hp). apply stM_bind_ok in Hp as (e3 & [d3 ip3] & H3 & Hp).
  apply stM_bind_ok in Hp as (e4 & [] & H4 & Hp). injection Hp as <- <-.
  apply read_bytes_suffix in H1 as (H1 & ?); [|done|done]. cbn [fst snd] in *.
  apply read_bytes_suffix in H3 as (H3 & ?); [|done|lia]. cbn [fst snd] in *. split; [|lia].
  rewrite stM_bind_run, H1, stM_bind_run, H2, stM_bind_run, H3, stM_bind_run, H4. done.
Qed.

Lemma opcode_prefix op ip e e' ip' :
  exec_opcode a tx h i spk op ip e = (e', Ok ip') -> ip <= len a ->
  exec_opcode (a ++ b) tx h i spk op ip e = (e', Ok ip') /\ ip <= ip' <= len a.
Proof.
  destruct op; cbn [exec_opcode]; try apply push_prefix; try (by intros; apply push_prefix);
    try discriminate; intros Hx Hip; (split; [exact Hx|]);
    first [by injection Hx as _ <- | apply stM_bind_ok in Hx as (e1 & [] & _ & Hx); by injection Hx as _ <-].
Qed.

Lemma opcode_suffix op ip e e' ip' :
  len (a ++ b) <= u64_max -> len a <= ip <= len (a ++ b) ->
  exec_opcode (a ++ b) tx h i spk op ip e = (e', Ok ip') ->
  exec_opcode b tx h i spk op (ip - len a) e = (e', Ok (ip' - len a)) /\ ip <= ip' <= len (a ++ b).
Proof.
  intros Hmax Hip. destruct op; cbn [exec_opcode]; try (apply push_suffix; [done|lia]); try discriminate; intros Hx;
    first [injection Hx as <- <-; split; [done|lia]
          |apply stM_bind_ok in Hx as (e1 & [] & Hm & Hx); injection Hx as <- <-; split; [|lia];
           rewrite stM_bind_run, Hm; done].
Qed.

Lemma step_prefix ip e e' ip' :
  0 <= ip < len a -> exec_step a tx h i spk ip e = (e', Ok ip') ->
  exec_step (a ++ b) tx h i spk ip e = (e', Ok ip') /\ ip < ip' <= len a.
Proof.
  intros Hip. unfold exec_step. rewrite !stM_bind_run. cbn [gets]. destruct (opcode_count e >=? _); [done|].
  assert (Hi : index (a ++ b) ip = index a ip).
  { unfold index, len in *. destruct (Z.leb_spec 0 ip); [|lia]. apply lookup_app_l. lia. }
  rewrite !stM_bind_run. cbn [lift]. rewrite Hi. destruct (index a ip) as [byte|]; [|done]. cbn [unwrap].
  rewrite !stM_bind_run. cbn [modify]. rewrite !stM_bind_run. cbn [gets]. set (e1 := set_opcode_count _ e).
  destruct (should_skip e1).
  - intros Hs. split; [done|]. apply stM_bind_ok in Hs as (e2 & [] & _ & Hs). injection Hs as _ <-. lia.
  - intros Hs. apply stM_bind_ok in Hs as (e2 & ip2 & Hx & Hs). apply opcode_prefix in Hx as [Hx Hr]; [|lia].
    rewrite stM_bind_run, Hx. split; [done|]. apply stM_bind_ok in Hs as (e3 & d & _ & Hs).
    destruct (d >? _); [done|]. injection Hs as _ <-. lia.
Qed.

Lemma step_suffix ip e e' ip' :
  len (a ++ b) <= u64_max -> len a <= ip < len (a ++ b) -> exec_step (a ++ b) tx h i spk ip e = (e', Ok ip') ->
  exec_step b tx h i spk (ip - len a) e = (e', Ok (ip' - len a)) /\ ip < ip' <= len (a ++ b).
Proof.
  intros Hmax Hip. pose proof (len_nonneg a) as Ha. unfold exec_step. rewrite !stM_bind_run. cbn [gets].
  destruct (opcode_count e >=? _); [done|].
  assert (Hi : index (a ++ b) ip = index b (ip - len a)).
  { unfold index, len in *. destruct (Z.leb_spec 0 ip), (Z.leb_spec 0 (ip - Z.of_nat (length a))); try lia.
    rewrite lookup_app_r by lia. f_equal. lia. }
  rewrite !stM_bind_run. cbn [lift]. rewrite Hi. destruct (index b _) as [byte|]; [|done]. cbn [unwrap].
  rewrite !stM_bind_run. cbn [modify]. rewrite !stM_bind_run. cbn [gets]. set (e1 := set_opcode_count _ e).
  replace (ip - len a + 1) with (ip + 1 - len a) by lia. destruct (should_skip e1).
  - intros Hs. apply stM_bind_ok in Hs as (e2 & [] & Hk & Hs). injection Hs as <- <-.
    rewrite stM_bind_run, Hk. split; [done|lia].
  - intros Hs. apply stM_bind_ok in Hs as (e2 & ip2 & Hx & Hs). apply opcode_suffix in Hx as [Hx Hr]; [|done|lia].
    rewrite stM_bind_run, Hx. apply stM_bind_ok in Hs as (e3 & d & Hd & Hs). injection Hd as <- <-.
    rewrite stM_bind_run. cbn [gets]. destruct (_ >? _); [done|]. injection Hs as <- <-. split; [done|lia].
Qed.

(** The first part, and what fuel is left after it. *)
Lemma loop_prefix n k ip e e' :
  0 <= ip <= len a -> exec_loop n a tx h i spk ip e = (e', Ok tt) ->
  exists m, (k <= m)%nat /\ exec_loop (n + k) (a ++ b) tx h i spk ip e = exec_loop m (a ++ b) tx h i spk (len a) e'.
Proof.
  assert (Hl : len a <= len (a ++ b)) by (unfold len; rewrite length_app; lia).
  revert ip e. induction n as [|n IH]; intros ip e Hip; cbn [exec_loop]; destruct (Z.ltb_spec ip (len a)) as [Hlt|Hge].
  - done.
  - intros [= <-]. exists k. split; [lia|]. by replace ip with (len a) by lia.
  - intros Hx. apply stM_bind_ok in Hx as (e1 & ip1 & Hs & Hx). apply step_prefix in Hs as [Hs Hr]; [|lia].
    destruct (IH ip1 e1 ltac:(lia) Hx) as (m & Hm & E). exists m. split; [done|].
    rewrite <- E. cbn [Nat.add exec_loop]. destruct (Z.ltb_spec ip (len (a ++ b))); [|lia]. by rewrite stM_bind_run, Hs.
  - intros [= <-]. exists (S n + k)%nat. split; [lia|]. by replace ip with (len a) by lia.
Qed.

(** The second part, with just enough fuel. *)
Lemma loop_suffix m n ip e e' :
  len (a ++ b) <= u64_max -> len a <= ip -> len (a ++ b) - ip <= Z.of_nat n ->
  exec_loop m (a ++ b) tx h i spk ip e = (e', Ok tt) -> exec_loop n b tx h i spk (ip - len a) e = (e', Ok tt).
Proof.
  intros Hmax. assert (Hl : len (a ++ b) = len a + len b) by (unfold len; rewrite length_app; lia).
  revert n ip e. induction m as [|m IH]; intros n ip e Hip Hn; cbn [exec_loop];
    destruct (Z.ltb_spec ip (len (a ++ b))) as [Hlt|Hge]; [done| | |].
  - intros [= <-]. destruct n; cbn [exec_loop]; by destruct (Z.ltb_spec (ip - len a) (len b)); [lia|].
  - intros Hx. apply stM_bind_ok in Hx as (e1 & ip1 & Hs & Hx). apply step_suffix in Hs as [Hs Hr]; [|done|lia].
    destruct n as [|n]; [lia|]. cbn [exec_loop]. destruct (Z.ltb_spec (ip - len a) (len b)); [|lia].
    rewrite stM_bind_run, Hs. apply IH; [lia|lia|done].
  - intros [= <-]. destruct n; cbn [exec_loop]; by destruct (Z.ltb_spec (ip - len a) (len b)); [lia|].
Qed.

Lemma execute_app e e1 e2 :
  execute a tx h i spk e = (e1, Ok tt) -> execute (a ++ b) tx h i spk e = (e2, Ok tt) ->
  execute b tx h i spk e1 = (e2, Ok tt).
Proof.
  assert (Hl : len (a ++ b) = len a + len b) by (unfold len; rewrite length_app; lia).
  pose proof (len_nonneg a). pose proof (len_nonneg b). unfold execute. rewrite !Z.gtb_ltb.
  destruct (Z.ltb_spec MAX_SCRIPT_BYTES (len a)), (Z.ltb_spec MAX_SCRIPT_BYTES (len (a ++ b))); try done. intros Hx1 Hx2.
  destruct (Z.ltb_spec MAX_SCRIPT_BYTES (len b)); [lia|].
  destruct (loop_prefix (length a) (length b) 0 e e1 ltac:(lia) Hx1) as (m & _ & E). rewrite length_app, E in Hx2.
  replace 0 with (len a - len a) by lia. eapply loop_suffix; [|lia| |exact Hx2]; unfold MAX_SCRIPT_BYTES, u64_max, len in *; lia.
Qed.

End Concatenation.

End WithPrimitives.

Section Theorems.
  Context `{HashLaws}.

(** The script of an input in front of the script of its output ran to a single
    true element, on an engine that was empty but for the signature counter; and
    if the script of the input succeeds on its own, the script of the output ran
    to that element on the engine it leaves. *)
Definition input_script_ok (tx : Transaction) (s : UtxoSet) (h i : Z) (input : TxInput) : Prop :=
  exists u e0 e1 v,
    get_utxo s (previous_output input) = Some u /\
    execute (script_sig input ++ script_pubkey (output u)) tx h i (script_pubkey (output u))
      (reset_engine e0) = (e1, Ok tt) /\
    stack e1 = [v] /\ is_false v = false /\
    forall e, execute (script_sig input) tx h i (script_pubkey (output u)) (reset_engine e0) = (e, Ok tt) ->
      execute (script_pubkey (output u)) tx h i (script_pubkey (output u)) e = (e1, Ok tt).

Lemma validate_input_sound tx s h i input e e' :
  is_coinbase tx = false ->
  validate_input tx s h i input e = (e', Ok true) -> input_script_ok tx s h i input.
Proof.
  intros Hc. unfold validate_input, input_script_ok. rewrite Hc.
  destruct (get_utxo s (previous_output input)) as [u|]; [|done].
  rewrite stM_bind_run. cbn [modify]. rewrite stM_bind_run. unfold lift.
  destruct (tx_txid tx); [|done..]. rewrite stM_bind_run. unfold succeeds.
  destruct (execute _ _ _ _ _ _) as [e1 [[]|?| |]] eqn:Hx; try done.
  unfold final_result, pop_data.
  destruct (stack e1) as [|v st] eqn:Hst; [done|].
  intros [= _ [Hf Hl]%andb_true_iff]. exists u, e, e1, v. split_and!; try done.
  - rewrite Hst. by destruct st.
  - by destruct (is_false v).
  - intros e2 He2. eapply execute_app; [exact He2|exact Hx].
Qed.

(** C35. A transaction that is not a coinbase and that [validate_transaction]
    accepts has, for every input, an unspent output in the set; the script of
    the input followed by the script of the output, run as one script on a reset
    engine, ends with exactly one, true, element.  If the script of the input
    succeeds on its own, this means that the script of the output was run on
    what it left and ended with that element; if not (it may end inside a push
    that takes the output's script as data, [pushdata_swallow]), the output's
    script need not have been run. *)
Theorem validate_transaction_sound tx s h e e' (i : nat) input :
  is_coinbase tx = false ->
  validate_transaction tx s h e = (e', Ok true) ->
  get_inputs tx !! i = Some input ->
  input_script_ok tx s h (Z.of_nat i) input.
Proof.
  intros Hc. unfold validate_transaction. rewrite stM_bind_run. cbn [modify].
  generalize (set_sig_op_count 0 e). clear e. intros e.
  assert (Hg : forall inputs k e, validate_inputs tx s h k inputs e = (e', Ok true) ->
    inputs !! i = Some input -> input_script_ok tx s h (k + Z.of_nat i) input).
  { clear e. induction i as [|i IH]; intros [|inp inputs] k e; try done; cbn [validate_inputs lookup];
      rewrite stM_bind_run;
      destruct (validate_input tx s h k inp e) as [e1 [[]|?| |]] eqn:Hv; try done.
    - intros _ [= <-]. rewrite Z.add_0_r. by eapply validate_input_sound.
    - intros Hr Hi. replace (k + Z.of_nat (S i)) with (k + 1 + Z.of_nat i) by lia.
      by eapply IH. }
  intros Hv Hi. by apply (Hg (get_inputs tx) 0 e).
Qed.

(** The script signature that makes the interpreter read a script of at most 255
    bytes as the operand of OP_PUSHDATA1. *)
Definition swallow (spk : bytes) : bytes := [0x4C; len spk].

(** Any output script of 2 to 255 bytes can be spent by anyone through
    [validate_transaction]: the engine runs the concatenation of the two
    scripts, so a script signature of OP_PUSHDATA1 and the length turns the
    output script into pushed data, and the pushed data is the true element the
    final check asks for. *)
Theorem pushdata_swallow tx s h e :
  is_coinbase tx = false -> serializable tx ->
  Forall (fun input => exists u, get_utxo s (previous_output input) = Some u /\
            2 <= len (script_pubkey (output u)) <= 255 /\
            script_sig input = swallow (script_pubkey (output u))) (get_inputs tx) ->
  snd (validate_transaction tx s h e) = Ok true.
Proof.
  intros Hc Hs Hall. unfold validate_transaction. rewrite stM_bind_run. cbn [modify].
  enough (Hg : forall k e, snd (validate_inputs tx s h k (get_inputs tx) e) = Ok true) by apply Hg.
  clear e. induction Hall as [|input inputs (u & Hu & Hl & Hsig) Hall IH]; intros k e; [done|].
  cbn [validate_inputs]. rewrite stM_bind_run. unfold validate_input.
  rewrite Hc, Hu, stM_bind_run. cbn [modify]. rewrite stM_bind_run. unfold lift.
  rewrite tx_txid_ok by done. rewrite stM_bind_run. unfold succeeds.
  assert (Hp : script_sig input ++ script_pubkey (output u) = push_script (script_pubkey (output u))).
  { rewrite Hsig. unfold swallow, push_script.
    destruct (Z.leb_spec (len (script_pubkey (output u))) 255); [|lia].
    unfold to_le_bytes. by rewrite Z.mod_small by lia. }
  rewrite Hp, push_script_run; cbn [reset_engine skip_depth opcode_count stack]; try done;
    try (rewrite ?len_nil; unfold MAX_OPCODE_COUNT, MAX_STACK_DEPTH; lia).
  unfold final_result, pop_data. cbn [set_stack stack count_opcode].
  assert (is_false (script_pubkey (output u)) = false) as Hf.
  { unfold is_false. destruct (Z.eqb_spec (len (script_pubkey (output u))) 0),
      (Z.eqb_spec (len (script_pubkey (output u))) 1); done || lia. }
  cbn. rewrite Hf. apply IH.
Qed.

(** [validate_transaction] always returns an answer: on byte scripts
    without OP_SUBSTR and OP_CHECKMULTISIG(VERIFY) it neither loops nor panics. *)
Theorem validate_transaction_total tx s h e :
  serializable tx ->
  len (get_inputs tx) <= u32_max ->
  Forall (fun input => forall u, get_utxo s (previous_output input) = Some u ->
            Forall (fun b => is_byte b /\ may_panic (Opcode_from_u8 b) = false)
              (script_sig input ++ script_pubkey (output u))) (get_inputs tx) ->
  exists b, snd (validate_transaction tx s h e) = Ok b.
Proof.
  intros Hs Hn Hall. unfold validate_transaction. rewrite stM_bind_run. cbn [modify].
  assert (Hg : forall inputs k e,
    Forall (fun input => forall u, get_utxo s (previous_output input) = Some u ->
            Forall (fun b => is_byte b /\ may_panic (Opcode_from_u8 b) = false)
              (script_sig input ++ script_pubkey (output u))) inputs ->
    0 <= k -> 0 <= sig_op_count e ->
    sig_op_count e + len inputs * MAX_OPCODE_COUNT < u64_max - MAX_OPCODE_COUNT ->
    exists b, snd (validate_inputs tx s h k inputs e) = Ok b); [|apply Hg; try done; try lia].
  - clear e Hall Hn. induction inputs as [|input inputs IH]; intros k e Hall Hk He Hb; [by exists true|].
    apply Forall_cons in Hall as [Hin Hall]. rewrite len_cons in Hb.
    pose proof (len_nonneg inputs). unfold MAX_OPCODE_COUNT in Hb.
    cbn [validate_inputs]. rewrite stM_bind_run. unfold validate_input.
    destruct (is_coinbase tx).
    { apply IH; try done; unfold MAX_OPCODE_COUNT; lia. }
    destruct (get_utxo s (previous_output input)) as [u|]; [|by exists false].
    specialize (Hin u eq_refl). apply Forall_and in Hin as [Hby Hmp].
    rewrite stM_bind_run. cbn [modify]. rewrite stM_bind_run. unfold lift.
    rewrite tx_txid_ok by done. rewrite stM_bind_run. unfold succeeds.
    pose proof (execute_post (sig_op_count e) (script_sig input ++ script_pubkey (output u)) tx h k
      (script_pubkey (output u)) (reset_engine e) Hby Hk
      ltac:(unfold sig_base_ok, MAX_OPCODE_COUNT; lia) (engine_ok_reset e He)) as Hx.
    destruct (execute _ _ _ _ _ _) as [e1 [?|?| |]]; [|by exists false| |done].
    + destruct Hx as [[_ _ Hops _ Hsigs] _]. unfold MAX_OPCODE_COUNT in Hops.
      unfold final_result, pop_data. destruct (stack e1) as [|v st]; [by exists false|].
      destruct (negb (is_false v) && _); [|by exists false].
      apply IH; try done; unfold MAX_OPCODE_COUNT; cbn [set_stack sig_op_count]; lia.
    + exfalso. destruct Hx as (b & Hb' & Hm). rewrite Forall_forall in Hmp.
      by rewrite (Hmp b Hb') in Hm.
  - cbn. unfold u64_max, MAX_OPCODE_COUNT, u32_max in *. lia.
Qed.

End Theorems.

(** * Witnesses *)

(** An output that only the owner of a key should be able to spend, and a
    transaction that spends it with no signature at all. *)
Definition locked_utxo : Utxo := mkUtxo (TxOutput_new 2000 [0x76; 0xA9; 0xAC]) false 0.

Definition locked_set : UtxoSet := {[ previous_output sample_input := locked_utxo ]}.

Definition thief_tx : Transaction :=
  Standard 1 [TxInput_from_outpoint (previous_output sample_input) [0x4C; 3] 0 []]
    [TxOutput_new 1000 [0x51]] 0 10 [].

Lemma pushdata_swallow_witness :
  snd (validate_transaction thief_tx locked_set 5 ScriptEngine_new) = Ok true.
Proof.
  apply (pushdata_swallow thief_tx locked_set 5 ScriptEngine_new); [reflexivity|by eexists|].
  apply Forall_singleton. exists locked_utxo. split_and!; vm_compute; reflexivity || discriminate.
Defined.

Lemma validate_transaction_total_witness :
  exists b, snd (validate_transaction thief_tx locked_set 5 ScriptEngine_new) = Ok b.
Proof.
  apply (validate_transaction_total thief_tx locked_set 5 ScriptEngine_new);
    [by eexists|vm_compute; discriminate|].
  apply Forall_singleton. intros u Hu. vm_compute in Hu. injection Hu as <-.
  repeat constructor; unfold is_byte; cbn; lia.
Defined.

(** An output that asks for the number 7, and a transaction that gives it. *)
Definition puzzle_set : UtxoSet :=
  {[ previous_output sample_input := mkUtxo (TxOutput_new 2000 [0x57; 0x87]) false 0 ]}.

Definition solver_input : TxInput := TxInput_from_outpoint (previous_output sample_input) [0x4C; 1; 7] 0 [].
Definition solver_tx : Transaction := Standard 1 [solver_input] [TxOutput_new 1000 [0x51]] 0 10 [].

Lemma validate_transaction_sound_witness : input_script_ok solver_tx puzzle_set 5 0 solver_input.
Proof.
  apply (validate_transaction_sound solver_tx puzzle_set 5 ScriptEngine_new
    (fst (validate_transaction solver_tx puzzle_set 5 ScriptEngine_new)) 0).
  - reflexivity.
  - vm_compute; reflexivity.
  - reflexivity.
Defined.

(** A script signature with 21 signature operations: OP_1, then 21 times a 0-of-0
    multisignature.  [validate_transaction] accepts it although MAX_SIG_OPS is
    20; [verify_script_with_sig_op_count] rejects it. *)
Definition many_sig_ops : bytes :=
  0x51 :: concat (replicate 21 [0x4C; 1; 0; 0x4C; 1; 0; 0xAE]).

Definition sig_op_set : UtxoSet :=
  {[ previous_output sample_input := mkUtxo (TxOutput_new 2000 [0x61]) false 0 ]}.

Definition sig_op_tx : Transaction :=
  Standard 1 [TxInput_from_outpoint (previous_output sample_input) many_sig_ops 0 []]
    [] 0 10 [].

Example sig_op_limit_not_enforced :
  snd (validate_transaction sig_op_tx sig_op_set 5 ScriptEngine_new) = Ok true /\
  snd (verify_script_with_sig_op_count many_sig_ops [0x61] sig_op_tx 0 ScriptEngine_new 0) =
    Err TooManySigOps.
Proof. vm_compute. split; reflexivity. Qed.
