(* ===== verification/Masternodes.v ===== *)
(** The masternode list ([MasternodeList] of
    src/rusty-shared-types/src/masternode.rs): registration, proof-of-service
    bookkeeping, DKG statistics and quorum selection.

    [distribute_rewards] only prints and has no effect on the list. *)

From Stdlib Require Import ZArith Lia List SpecFloat.
From stdpp Require Import base option list numbers strings gmap sorting.
From coqutil Require Import Datatypes.RecordSetters.
From S2P Require Import Prelude Types Transaction SamplePrimitives.

Import TriangleBracketNotations.
#[local] Open Scope Z_scope.

(** * [f32]: binary32 *)

Abbreviation f32 := spec_float.
Definition f32_of_Z (z : Z) : f32 := binary_normalize 24 128 z 0 false.
Definition f32_add : f32 -> f32 -> f32 := SFadd 24 128.
Definition f32_sub : f32 -> f32 -> f32 := SFsub 24 128.
Definition f32_mul : f32 -> f32 -> f32 := SFmul 24 128.
Definition f32_lit (n d : Z) : f32 := SFdiv 24 128 (f32_of_Z n) (f32_of_Z d).

#[global] Arguments f32_of_Z : simpl never.
#[global] Arguments f32_add : simpl never.
#[global] Arguments f32_sub : simpl never.
#[global] Arguments f32_mul : simpl never.
#[global] Arguments f32_lit : simpl never.

(** [partial_cmp(..).unwrap_or(Equal)] *)
Definition f32_cmp (a b : f32) : comparison := default Eq (SFcompare a b).

(** * Entries *)

Inductive MasternodeStatus : Type := Registered | Active | Offline | Probation | Banned.

#[export] Instance MasternodeStatus_eq_dec : EqDecision MasternodeStatus.
Proof. solve_decision. Defined.

Record MasternodeRegistration : Type := mkMasternodeRegistration {
  registration_identity : MasternodeIdentity;
  registration_signature : bytes;
}.

Record MasternodeEntry : Type := mkMasternodeEntry {
  identity : MasternodeIdentity;
  status : MasternodeStatus;
  last_successful_pose_height : Z;
  pose_failure_count : Z;
  last_slashed_height : option Z;
  dkg_participation_count : Z;
  dkg_success_rate : f32;
  active_dkg_sessions : list Hash;
  collateral_amount : Z;
}.

Definition get_collateral_amount (e : MasternodeEntry) : option Z := Some (collateral_amount e).

Abbreviation MasternodeList := (gmap MasternodeID MasternodeEntry).
Abbreviation mnM := (stM MasternodeList string).

Definition MasternodeList_new : MasternodeList := ∅.

(** * Operations *)

Definition register_masternode (registration : MasternodeRegistration) (current_height : Z) :
    mnM unit := fun m =>
  let mn_id := mkMasternodeID (collateral_outpoint (registration_identity registration)) in
  match m !! mn_id with
  | Some _ => (m, Err "Masternode already registered"%string)
  | None =>
      let entry := mkMasternodeEntry (registration_identity registration) Registered
        current_height 0 None 0 (f32_of_Z 0) [] 0 in
      (<[mn_id := entry]> m, Ok tt)
  end.

(** [if let Some(entry) = self.map.get_mut(id) { .. Ok(()) } else { Err(..) }] *)
Definition with_entry (mn_id : MasternodeID) (f : MasternodeEntry -> MasternodeEntry)
    (err : string) : mnM unit := fun m =>
  match m !! mn_id with
  | Some entry => (<[mn_id := f entry]> m, Ok tt)
  | None => (m, Err err)
  end.

Definition update_masternode_status (mn_id : MasternodeID) (new_status : MasternodeStatus) :
    mnM unit :=
  with_entry mn_id (fun entry => entry <| status := new_status |>) "Masternode not found".

Definition get_masternode (m : MasternodeList) (mn_id : MasternodeID) :
    option MasternodeEntry := m !! mn_id.

Definition find_by_operator_key (m : MasternodeList) (operator_key : bytes) :
    option (MasternodeID * MasternodeEntry) :=
  snd <$> list_find (fun p => operator_public_key (identity p.2) = operator_key) (map_to_list m).

Definition remove_masternode (mn_id : MasternodeID) (m : MasternodeList) :
    MasternodeList * option MasternodeEntry := (delete mn_id m, m !! mn_id).

Definition is_active (e : MasternodeEntry) : bool := bool_decide (status e = Active).

(** [self.map.values()] *)
Definition entries (m : MasternodeList) : list MasternodeEntry := (map_to_list m).*2.

Definition count_active_masternodes (m : MasternodeList) : Z :=
  len (filter (fun e => is_active e) (entries m)).

Definition mn_total_voting_power (m : MasternodeList) : Z := count_active_masternodes m.

Definition reset_pose_failure_count (mn_id : MasternodeID) : mnM unit :=
  with_entry mn_id (fun entry => entry <| pose_failure_count := 0 |>)
    "Masternode not found for resetting PoSe failure count.".

(** The body of [increment_pose_failure_count]; reaching [MAX_POSE_FAILURES]
    changes nothing. *)
Definition record_failure (entry : MasternodeEntry) : MasternodeEntry :=
  let entry := entry <| pose_failure_count ::= (fun n => wrap32 (n + 1)) |> in
  if bool_decide (status entry = Active) then entry <| status := Probation |> else entry.

Definition increment_pose_failure_count (mn_id : MasternodeID) : mnM unit :=
  with_entry mn_id record_failure "Masternode not found for incrementing PoSe failure count.".

(** The body of [update_successful_pose]. *)
Definition record_success (current_height : Z) (entry : MasternodeEntry) : MasternodeEntry :=
  let entry := entry <| last_successful_pose_height := current_height |>
    <| pose_failure_count := 0 |> in
  if bool_decide (status entry = Probation) then entry <| status := Active |> else entry.

Definition update_successful_pose (mn_id : MasternodeID) (current_height : Z) : mnM unit :=
  with_entry mn_id (record_success current_height)
    "Masternode not found for updating successful PoSe".

Definition deregister_masternode (mn_id : MasternodeID) : mnM unit :=
  with_entry mn_id (fun entry => entry <| status := Banned |>)
    "Masternode not found for deregistration".

(** ** DKG statistics *)

(** The body of [update_dkg_participation]: an exponential moving average. *)
Definition record_dkg (success : bool) (entry : MasternodeEntry) : MasternodeEntry :=
  let entry := entry <| dkg_participation_count ::= (fun n => wrap32 (n + 1)) |> in
  let alpha := f32_lit 1 10 in
  let decayed := f32_mul (dkg_success_rate entry) (f32_sub (f32_of_Z 1) alpha) in
  entry <| dkg_success_rate := if success then f32_add decayed alpha else decayed |>.

Definition update_dkg_participation (mn_id : MasternodeID) (success : bool) : mnM unit :=
  with_entry mn_id (record_dkg success) "Masternode not found".

Definition add_session (session_id : Hash) (entry : MasternodeEntry) : MasternodeEntry :=
  if bool_decide (session_id ∈ active_dkg_sessions entry) then entry
  else entry <| active_dkg_sessions ::= (fun l => l ++ [session_id]) |>.

Definition add_active_dkg_session (mn_id : MasternodeID) (session_id : Hash) : mnM unit :=
  with_entry mn_id (add_session session_id) "Masternode not found".

Definition remove_active_dkg_session (mn_id : MasternodeID) (session_id : Hash) : mnM unit :=
  with_entry mn_id (fun entry =>
    entry <| active_dkg_sessions ::= filter (fun id => id <> session_id) |>)
    "Masternode not found".

Definition get_masternodes_by_dkg_version (m : MasternodeList) (version : Z) :
    list MasternodeEntry :=
  filter (fun e => is_active e && bool_decide (version ∈ supported_dkg_versions (identity e)))
    (entries m).

(** ** Selection *)

Section Selection.
  Context `{Primitives}.

(** The comparator of [select_masternodes_for_quorum]; [now] is the system time
    in seconds, so the tie-break differs between two calls. *)
Definition quorum_cmp (now : Z) (a b : MasternodeEntry) : comparison :=
  then_with (last_successful_pose_height b ?= last_successful_pose_height a)
    (then_with (f32_cmp (dkg_success_rate b) (dkg_success_rate a))
       (bytes_cmp (blake3 (operator_public_key (identity a) ++ to_le_bytes 8 now))
          (blake3 (operator_public_key (identity b) ++ to_le_bytes 8 now)))).

Definition select_masternodes_for_quorum (m : MasternodeList) (now : Z) (count : nat) :
    list MasternodeEntry :=
  let candidates := filter (fun e => is_active e) (entries m) in
  take count (sort_by (fun a b => not_greater (quorum_cmp now a b)) candidates).

End Selection.

Definition dkg_cmp (a b : MasternodeEntry) : comparison :=
  then_with (f32_cmp (dkg_success_rate b) (dkg_success_rate a))
    (dkg_participation_count a ?= dkg_participation_count b).

Definition select_masternodes_for_dkg (m : MasternodeList) (count : nat)
    (min_success_rate : f32) : list MasternodeEntry :=
  let candidates := filter (fun e =>
    is_active e && SFleb min_success_rate (dkg_success_rate e) &&
    bool_decide (is_Some (dkg_public_key (identity e))) &&
    negb (len (supported_dkg_versions (identity e)) =? 0)) (entries m) in
  take count (sort_by (fun a b => not_greater (dkg_cmp a b)) candidates).

(** * The list as a state machine *)

(** Every method that mutates the list. *)
Inductive mn_op : Type :=
| OpRegister (registration : MasternodeRegistration) (current_height : Z)
| OpSetStatus (mn_id : MasternodeID) (new_status : MasternodeStatus)
| OpRemove (mn_id : MasternodeID)
| OpResetFailures (mn_id : MasternodeID)
| OpFailure (mn_id : MasternodeID)
| OpSuccess (mn_id : MasternodeID) (current_height : Z)
| OpDeregister (mn_id : MasternodeID)
| OpDkg (mn_id : MasternodeID) (success : bool)
| OpAddSession (mn_id : MasternodeID) (session_id : Hash)
| OpRemoveSession (mn_id : MasternodeID) (session_id : Hash).

Definition mn_exec (op : mn_op) (m : MasternodeList) : MasternodeList :=
  match op with
  | OpRegister r h => fst (register_masternode r h m)
  | OpSetStatus i s => fst (update_masternode_status i s m)
  | OpRemove i => fst (remove_masternode i m)
  | OpResetFailures i => fst (reset_pose_failure_count i m)
  | OpFailure i => fst (increment_pose_failure_count i m)
  | OpSuccess i h => fst (update_successful_pose i h m)
  | OpDeregister i => fst (deregister_masternode i m)
  | OpDkg i b => fst (update_dkg_participation i b m)
  | OpAddSession i s => fst (add_active_dkg_session i s m)
  | OpRemoveSession i s => fst (remove_active_dkg_session i s m)
  end.

Definition mn_run (m : MasternodeList) (ops : list mn_op) : MasternodeList :=
  foldl (fun m op => mn_exec op m) m ops.

(** [update_masternode_status] can set any status; the other operations follow
    the proof-of-service automaton. *)
Definition is_set_status (op : mn_op) : bool :=
  match op with OpSetStatus _ _ => true | _ => false end.

(** The automaton: the status of one entry before and after an operation. *)
Definition status_step (s s' : MasternodeStatus) : bool :=
  bool_decide (s = s') ||
  match s, s' with
  | Active, Probation | Probation, Active | _, Banned => true
  | _, _ => false
  end.

(** An entry is stored under its own collateral outpoint, its counters are
    [u32] values, and an active one has no recorded failure. *)
Definition entry_wf (i : MasternodeID) (e : MasternodeEntry) : Prop :=
  collateral_outpoint (identity e) = mn_outpoint i /\
  is_u32 (pose_failure_count e) /\
  (status e = Active -> pose_failure_count e = 0).

Definition mn_wf (m : MasternodeList) : Prop := map_Forall entry_wf m.

Lemma wrap32_range z : is_u32 (wrap32 z).
Proof.
  unfold is_u32, wrap32, u32_max. pose proof (Z.mod_pos_bound z 4294967296 ltac:(lia)). lia.
Qed.

(** What an operation does to the entry of [i]: it appears by registration, is
    removed, or is updated in place. *)
Lemma with_entry_lookup i f err m j :
  fst (with_entry i f err m) !! j = if bool_decide (i = j) then f <$> m !! j else m !! j.
Proof.
  unfold with_entry. case_bool_decide as Hij; [subst|].
  - destruct (m !! j) as [e|] eqn:He; cbn; [by rewrite lookup_insert_eq|done].
  - destruct (m !! i) as [e|] eqn:He; cbn; [by rewrite lookup_insert_ne|done].
Qed.

(** The update an operation other than registration and removal makes to the
    entry it names. *)
Definition entry_update (op : mn_op) : option (MasternodeID * (MasternodeEntry -> MasternodeEntry)) :=
  match op with
  | OpRegister _ _ | OpRemove _ => None
  | OpSetStatus i s => Some (i, fun e => e <| status := s |>)
  | OpResetFailures i => Some (i, fun e => e <| pose_failure_count := 0 |>)
  | OpFailure i => Some (i, record_failure)
  | OpSuccess i h => Some (i, record_success h)
  | OpDeregister i => Some (i, fun e => e <| status := Banned |>)
  | OpDkg i success => Some (i, record_dkg success)
  | OpAddSession i s => Some (i, add_session s)
  | OpRemoveSession i s => Some (i, fun e =>
      e <| active_dkg_sessions ::= filter (fun id => id <> s) |>)
  end.

Lemma mn_exec_update op i f m j :
  entry_update op = Some (i, f) ->
  mn_exec op m !! j = if bool_decide (i = j) then f <$> m !! j else m !! j.
Proof. destruct op; intros [= <- <-]; exact (with_entry_lookup _ _ _ _ _). Qed.

Lemma mn_exec_register r h m j :
  mn_exec (OpRegister r h) m !! j =
  if bool_decide (mkMasternodeID (collateral_outpoint (registration_identity r)) = j) &&
     bool_decide (m !! j = None)
  then Some (mkMasternodeEntry (registration_identity r) Registered h 0 None 0 (f32_of_Z 0) [] 0)
  else m !! j.
Proof.
  cbn [mn_exec]. unfold register_masternode.
  set (i := mkMasternodeID _). case_bool_decide as Hij; [subst j|].
  - destruct (m !! i) eqn:Hi; cbn; [done|]. by rewrite lookup_insert_eq.
  - destruct (m !! i) eqn:Hi; cbn; [done|]. by rewrite lookup_insert_ne.
Qed.

(** The fields an in-place update may change. *)
Lemma entry_update_fields op i f e :
  entry_update op = Some (i, f) ->
  identity (f e) = identity e /\
  (is_u32 (pose_failure_count e) -> is_u32 (pose_failure_count (f e))) /\
  (is_set_status op = false -> status_step (status e) (status (f e)) = true /\
   (status (f e) = Active ->
    pose_failure_count (f e) = 0 \/ status e = Active /\ pose_failure_count (f e) = pose_failure_count e)).
Proof.
  destruct e as [? st ? ? ? ? ? ? ?].
  destruct op; intros [= <- <-];
    unfold record_failure, record_success, record_dkg, add_session; cbn; destruct st; repeat case_bool_decide; try done; cbn;
    (split_and!; [done|try done; intros _; try apply wrap32_range; unfold is_u32, u32_max; lia|]);
    intros; try done; split; naive_solver.
Qed.

(** One operation, seen from one entry. *)
Lemma mn_exec_cases op m j e' :
  mn_exec op m !! j = Some e' ->
  (exists e, m !! j = Some e /\ e' = e) \/
  (exists i f e, entry_update op = Some (i, f) /\ i = j /\ m !! j = Some e /\ e' = f e) \/
  (exists r h, op = OpRegister r h /\ m !! j = None /\
     e' = mkMasternodeEntry (registration_identity r) Registered h 0 None 0 (f32_of_Z 0) [] 0 /\
     j = mkMasternodeID (collateral_outpoint (registration_identity r))).
Proof.
  destruct (entry_update op) as [[i f]|] eqn:Hu.
  - rewrite (mn_exec_update _ _ _ _ _ Hu). case_bool_decide as Hij; [|eauto].
    destruct (m !! j) as [e|] eqn:He; cbn; [intros [= <-]|done].
    right. left. exists i, f, e. done.
  - destruct op as [r h| |i| | | | | | |]; try discriminate Hu.
    + rewrite mn_exec_register. case_bool_decide as Hij; cbn; [|eauto].
      case_bool_decide as Hn; [intros [= <-]|eauto]. right. right. eauto 10.
    + cbn. destruct (decide (i = j)) as [->|]; [by rewrite lookup_delete_eq|].
      rewrite lookup_delete_ne by done. eauto.
Qed.

Lemma mn_exec_some op m j e :
  m !! j = Some e -> (forall i, op = OpRemove i -> i <> j) -> is_Some (mn_exec op m !! j).
Proof.
  intros He Hr. destruct (entry_update op) as [[i f]|] eqn:Hu.
  - rewrite (mn_exec_update _ _ _ _ _ Hu), He. case_bool_decide; eauto.
  - destruct op as [r h| |i| | | | | | |]; try discriminate Hu.
    + rewrite mn_exec_register, He. rewrite (bool_decide_eq_false_2 (Some e = None)) by done.
      rewrite andb_false_r. eauto.
    + cbn. rewrite lookup_delete_ne by (by apply Hr). eauto.
Qed.

Lemma mn_exec_wf op m :
  (forall i, op <> OpSetStatus i Active) -> mn_wf m -> mn_wf (mn_exec op m).
Proof.
  intros Hop Hm j e' He'. apply mn_exec_cases in He' as
    [(e & He & ->)|[(i & f & e & Hu & -> & He & ->)|(r & h & -> & _ & -> & ->)]].
  - by apply Hm.
  - destruct (Hm _ _ He) as (Hc & Hw & Ha).
    destruct (entry_update_fields _ _ _ e Hu) as (Hid & Hw' & Hst).
    split_and!; [by rewrite Hid|auto|]. intros Hact.
    destruct (is_set_status op) eqn:Hset.
    + destruct op; try discriminate Hset. injection Hu as <- <-. cbn in Hact |- *.
      destruct (Hop mn_id). by f_equal.
    + destruct (Hst eq_refl) as [_ [?|[? ->]]]; auto.
  - split_and!; [done| |done]. cbn. unfold is_u32, u32_max. lia.
Qed.

(** C9. The list stays well formed: an entry keeps its collateral outpoint as its
    key, its failure counter stays a [u32], and every active masternode has a
    clean failure record, unless the status is set to Active by hand. *)
Theorem masternode_list_invariant m ops :
  Forall (fun op => forall i, op <> OpSetStatus i Active) ops ->
  mn_wf m -> mn_wf (mn_run m ops).
Proof.
  intros Hops. revert m. induction Hops as [|op ops Hop _ IH]; intros m Hm; [done|].
  apply IH. by apply mn_exec_wf.
Qed.

Lemma mn_exec_banned op m j e :
  is_set_status op = false -> (forall i, op = OpRemove i -> i <> j) ->
  m !! j = Some e -> status e = Banned ->
  exists e', mn_exec op m !! j = Some e' /\ status e' = Banned.
Proof.
  intros Hset Hr He Hb. destruct (mn_exec_some op m j e He Hr) as [e' He'].
  exists e'. split; [done|]. apply mn_exec_cases in He' as
    [(e0 & He0 & ->)|[(i & f & e0 & Hu & -> & He0 & ->)|(r & h & -> & Hn & _)]].
  - congruence.
  - replace e0 with e by congruence.
    destruct (entry_update_fields _ _ _ e Hu) as (_ & _ & Hst).
    destruct (Hst Hset) as [Hs _]. rewrite Hb in Hs. by destruct (status (f e)).
  - congruence.
Qed.

(** A ban ends only by removal: no sequence of proof-of-service, registration
    and DKG operations brings a banned masternode back, but once the entry is
    removed from the list its collateral can be registered again, with a clean
    record. *)
Theorem ban_ends_by_removal m i e ops r h :
  m !! i = Some e -> status e = Banned ->
  Forall (fun op => is_set_status op = false /\ (forall j, op = OpRemove j -> j <> i)) ops ->
  collateral_outpoint (registration_identity r) = mn_outpoint i ->
  (exists e', mn_run m ops !! i = Some e' /\ status e' = Banned) /\
  snd (register_masternode r h (mn_run m ops)) = Err "Masternode already registered"%string /\
  snd (register_masternode r h (fst (remove_masternode i (mn_run m ops)))) = Ok tt.
Proof.
  intros He Hb Hops Hr.
  assert (Hrun : exists e', mn_run m ops !! i = Some e' /\ status e' = Banned).
  { clear Hr. revert m e He Hb.
    induction Hops as [|op ops [Hset Hrm] _ IH]; intros m e He Hb; [eauto|].
    destruct (mn_exec_banned op m i e Hset Hrm He Hb) as (e' & He' & Hb').
    by apply (IH (mn_exec op m) e'). }
  split; [done|]. destruct Hrun as (e' & He' & _). unfold register_masternode.
  rewrite Hr. replace (mkMasternodeID (mn_outpoint i)) with i by (by destruct i).
  split; [by rewrite He'|]. cbn. by rewrite lookup_delete_eq.
Qed.

(** No entry is active or on its way back to being active. *)
Definition never_active (m : MasternodeList) : Prop :=
  map_Forall (fun _ e => status e <> Active /\ status e <> Probation) m.

Lemma mn_exec_never_active op m :
  (forall i s, op = OpSetStatus i s -> s <> Active /\ s <> Probation) ->
  never_active m -> never_active (mn_exec op m).
Proof.
  intros Hop Hm j e' He'. apply mn_exec_cases in He' as
    [(e & He & ->)|[(i & f & e & Hu & -> & He & ->)|(r & h & -> & _ & -> & _)]].
  - by apply (Hm j).
  - destruct (Hm _ _ He) as [Ha Hp]. destruct (is_set_status op) eqn:Hset.
    + destruct op; try discriminate Hset. injection Hu as <- <-. cbn. by eapply Hop.
    + destruct (entry_update_fields _ _ _ e Hu) as (_ & _ & Hst). destruct (Hst Hset) as [Hs _].
      destruct (status e), (status (f e)); done.
  - done.
Qed.

Lemma count_active_zero m : never_active m -> count_active_masternodes m = 0.
Proof.
  intros Hm. unfold count_active_masternodes, entries.
  replace (filter _ _) with (@nil MasternodeEntry); [done|]. symmetry.
  destruct (filter _ _) as [|e l] eqn:Hf; [done|].
  assert (He : e ∈ filter (fun e => is_active e) (map_to_list m).*2) by (rewrite Hf; left).
  apply list_elem_of_filter in He as [Ha He].
  apply list_elem_of_fmap in He as ([i e0] & -> & Hin).
  apply elem_of_map_to_list in Hin. destruct (Hm _ _ Hin) as [Hna _].
  by apply bool_decide_unpack in Ha.
Qed.

(** * Quorum selection *)

Section Quorum.
  Context `{Primitives}.

(** A quorum consists of active masternodes of the list, as many as asked for
    if there are enough, and no active masternode left out answered a
    proof-of-service challenge more recently than one that is in. *)
Theorem quorum_selection m now count :
  let q := select_masternodes_for_quorum m now count in
  (forall e, e ∈ q -> e ∈ entries m /\ status e = Active) /\
  len q = Z.min (Z.of_nat count) (count_active_masternodes m) /\
  exists rest, q ++ rest ≡ₚ filter (fun e => is_active e) (entries m) /\
    forall e e', e ∈ q -> e' ∈ rest ->
      last_successful_pose_height e' <= last_successful_pose_height e.
Proof.
  cbv zeta. unfold select_masternodes_for_quorum, count_active_masternodes.
  set (le := fun a b => not_greater (quorum_cmp now a b)).
  set (c := filter (fun e => is_active e) (entries m)).
  pose proof (sort_by_perm le c) as Hp. split_and!.
  - intros e He.
    assert (e ∈ sort_by le c) as Hs by (rewrite <- (take_drop count); set_solver).
    rewrite Hp in Hs. apply list_elem_of_filter in Hs as [Ha Hin].
    split; [done|]. by apply bool_decide_unpack in Ha.
  - unfold len. rewrite length_take, (Permutation_length Hp). lia.
  - exists (drop count (sort_by le c)). split; [by rewrite take_drop|].
    intros e e' He He'.
    set (R := fun a b : MasternodeEntry =>
      last_successful_pose_height b <= last_successful_pose_height a).
    assert (Transitive R) by (intros ???; unfold R; lia).
    apply (take_sorted_best R count (sort_by le c) e e'); [|done..].
    apply (sort_by_sorted le R); intros x y; unfold R, le, quorum_cmp;
      destruct (Z.compare_spec (last_successful_pose_height y) (last_successful_pose_height x));
      cbn; try lia; done.
Qed.

End Quorum.

(** * Witnesses *)

Definition sample_identity : MasternodeIdentity :=
  mkMasternodeIdentity (mkOutPoint [1] 0) [9] "10.0.0.1:9999" [8] None [].

Definition sample_registration : MasternodeRegistration :=
  mkMasternodeRegistration sample_identity [].

Definition sample_mn : MasternodeID := mkMasternodeID (mkOutPoint [1] 0).

Definition sample_list : MasternodeList :=
  mn_run ∅ [OpRegister sample_registration 5; OpDeregister sample_mn].

Lemma masternode_list_invariant_witness :
  mn_wf (mn_run ∅ [OpRegister sample_registration 5; OpFailure sample_mn; OpSuccess sample_mn 9]).
Proof.
  apply masternode_list_invariant; [repeat constructor; discriminate|apply map_Forall_empty].
Defined.

Lemma ban_ends_by_removal_witness :
  snd (register_masternode sample_registration 9
    (fst (remove_masternode sample_mn (mn_run sample_list [OpSuccess sample_mn 9])))) = Ok tt.
Proof.
  destruct (ban_ends_by_removal sample_list sample_mn
    (mkMasternodeEntry sample_identity Banned 5 0 None 0 (f32_of_Z 0) [] 0)
    [OpSuccess sample_mn 9] sample_registration 9) as (_ & _ & Hr);
    [reflexivity|reflexivity|repeat constructor; discriminate|reflexivity|exact Hr].
Defined.
