(* ===== verification/LiveTickets.v ===== *)
(** The pool of live tickets (src/rusty-core/src/consensus/pos.rs): purchases,
    finality, voter selection and the ticket price.

    The pool is a [HashMap]; [map_to_list] stands for its iteration order, and
    the theorems show where that order does not matter. *)

From Stdlib Require Import ZArith Lia List SpecFloat.
From stdpp Require Import base option list numbers strings gmap sorting.
From coqutil Require Import Datatypes.RecordSetters.
From S2P Require Import Prelude Types Errors Transaction SamplePrimitives F64 Masternodes.

Import TriangleBracketNotations.
#[local] Open Scope Z_scope.

(** bincode of a ticket and of a ticket id. *)
Class TicketCodec : Type := {
  bincode_ticket : Ticket -> option bytes;
  bincode_ticket_id : bytes -> option bytes;
}.

Abbreviation TicketId := bytes.
Abbreviation LiveTicketsPool := (gmap TicketId Ticket).
Abbreviation poolM := (stM LiveTicketsPool CE.ConsensusError).

Definition POS_FINALITY_DEPTH : Z := 1.
Definition INITIAL_TICKET_PRICE : Z := 100000000.
Definition TARGET_LIVE_TICKETS : Z := 20000.
Definition TICKET_PRICE_ADJUSTMENT_PERIOD : Z := 2016.
Definition MAX_TICKET_PRICE : Z := 1000000000.
Definition MIN_TICKET_PRICE : Z := 10000000.
Definition VOTERS_PER_BLOCK : nat := 5.

Definition LiveTicketsPool_new : LiveTicketsPool := ∅.

(** * Queries *)

Definition get_ticket (pool : LiveTicketsPool) (id : TicketId) : option Ticket := pool !! id.

Definition get_all_tickets (pool : LiveTicketsPool) : list Ticket := (map_to_list pool).*2.

Definition get_ticket_by_pubkey (pool : LiveTicketsPool) (pubkey : bytes) : option Ticket :=
  snd <$> list_find (fun t => ticket_pubkey t = pubkey) (get_all_tickets pool).

(** [get_live_ticket_count] and [count_live_tickets]: every ticket counts,
    whatever its status. *)
Definition count_live_tickets (pool : LiveTicketsPool) : Z := Z.of_nat (size pool).

Definition get_ticket_ids_sorted (pool : LiveTicketsPool) : list TicketId :=
  sort_by bytes_le (map_to_list pool).*1.

(** * Updates *)

Definition remove_ticket (id : TicketId) : poolM Ticket := fun pool =>
  match pool !! id with
  | Some t => (delete id pool, Ok t)
  | None => (pool, Err (CE.InvalidTicket "Ticket not found in live pool."))
  end.

Definition set_live (t : Ticket) : Ticket := t <| ticket_status := Live |>.

(** The body of the loop of [process_ticket_finality]. *)
Definition finalize_ticket (current_height : Z) (t : Ticket) : Ticket :=
  if bool_decide (ticket_status t = Pending) &&
     (current_height >=? u64_add (ticket_height t) POS_FINALITY_DEPTH)
  then set_live t else t.

Definition process_ticket_finality (current_height : Z) (pool : LiveTicketsPool) :
    LiveTicketsPool := finalize_ticket current_height <$> pool.

Section WithPrimitives.
  Context `{Primitives, TicketCodec}.

Definition add_ticket (ticket : Ticket) : poolM unit := fun pool =>
  match bincode_ticket ticket with
  | None => (pool, Err CE.bincode_failure)
  | Some _ => (<[ticket_id ticket := ticket]> pool, Ok tt)
  end.

(** The arm of [update_for_new_block] for a purchase: the address must be a
    32-byte key, whose hash is the id of the new ticket. *)
Definition purchase_ticket (tx : Transaction) (outputs : list TxOutput)
    (ticket_address : bytes) (height : Z) : poolM unit :=
  first ← lift (ok_or (outputs !! 0%nat)
    (CE.InvalidTicket "Ticket purchase transaction has no output for ticket."));
  _ ← lift (tx_txid tx);
  if negb (len ticket_address =? 32)
  then throw (CE.InvalidTicket "Invalid public key length in ticket address.")
  else
    let ticket := mkTicket (blake3 ticket_address) ticket_address height (value first) Pending in
    fun pool =>
    match add_ticket ticket pool with
    | (pool, Err _) => (pool, Panic)
    | r => r
    end.

Definition apply_purchase (height : Z) (tx : Transaction) : poolM unit :=
  match tx with
  | TicketPurchase _ _ outputs _ _ _ _ ticket_address _ =>
      purchase_ticket tx outputs ticket_address height
  | _ => mret tt
  end.

Definition update_for_new_block (block : Block) (used_ticket_ids : list TicketId) :
    poolM unit :=
  modify (fun pool => foldl (fun pool id => delete id pool) pool used_ticket_ids);;
  for_each (transactions block) (apply_purchase (block_height block));;
  modify (process_ticket_finality (block_height block)).

(** Tickets redeemed in the reverted block are not restored. *)
Definition update_for_revert_block (block : Block) (used_ticket_ids : list TicketId)
    (pool : LiveTicketsPool) : LiveTicketsPool :=
  foldl (fun pool tx =>
    match tx with
    | TicketPurchase _ _ _ ticket_id _ _ _ _ _ => delete ticket_id pool
    | _ => pool
    end) pool (transactions block).

(** Both proof checks only ask whether the masternode is in the list. *)
Definition validate_non_participation_proof (proof_masternode_id : MasternodeID)
    (masternode_list : MasternodeList) : outcome CE.ConsensusError unit :=
  match get_masternode masternode_list proof_masternode_id with
  | None => Err (CE.MasternodeError "Masternode not found for non-participation proof.")
  | Some _ => Ok tt
  end.

Definition validate_malicious_proof (proof_masternode_id : MasternodeID)
    (masternode_list : MasternodeList) : outcome CE.ConsensusError unit :=
  match get_masternode masternode_list proof_masternode_id with
  | None => Err (CE.MasternodeError "Masternode not found for malicious proof.")
  | Some _ => Ok tt
  end.

(** [None]: the key or the signature does not parse. *)
Definition validate_ticket_signature (public_key_bytes message signature_bytes : bytes) :
    option bool :=
  pk ← public_key_from_bytes public_key_bytes;
  sig ← signature_from_bytes signature_bytes;
  Some (ed25519_verify pk message sig).

(** * Voter selection *)

Definition lottery_score (prev_block_hash : Hash) (id : TicketId) : outcome CE.ConsensusError Z :=
  id_bytes ← unwrap (bincode_ticket_id id);
  first ← unwrap (slice (blake3 (prev_block_hash ++ id_bytes)) 0 8);
  mret (from_le_bytes first).

(** [a.0.cmp(&b.0).then_with(|| a.1.cmp(b.1))], as "not greater". *)
Definition vote_le (a b : Z * TicketId) : bool :=
  (a.1 <? b.1) || ((a.1 =? b.1) && bytes_le a.2 b.2).

Fixpoint score_tickets (prev_block_hash : Hash) (tickets : list (TicketId * Ticket)) :
    outcome CE.ConsensusError (list (Z * TicketId)) :=
  match tickets with
  | [] => mret []
  | (id, t) :: tickets =>
      if bool_decide (ticket_status t = Live) then
        score ← lottery_score prev_block_hash id;
        rest ← score_tickets prev_block_hash tickets;
        mret ((score, id) :: rest)
      else score_tickets prev_block_hash tickets
  end.

(** [tickets] is the iteration order of the pool. *)
Definition select_voters_from (prev_block_hash : Hash) (tickets : list (TicketId * Ticket)) :
    outcome CE.ConsensusError (list TicketId) :=
  scored ← score_tickets prev_block_hash tickets;
  mret (snd <$> take VOTERS_PER_BLOCK (reverse (sort_by vote_le scored))).

Definition select_voters (prev_block_hash : Hash) (pool : LiveTicketsPool) :
    outcome CE.ConsensusError (list TicketId) :=
  select_voters_from prev_block_hash (map_to_list pool).

(** The vote count is a constant zero: no block passes. *)
Definition validate_pos_block (prev_block_hash : Hash) (pool : LiveTicketsPool) :
    outcome CE.ConsensusError bool :=
  _ ← select_voters prev_block_hash pool;
  let valid_votes_count := 0 in
  mret (negb (valid_votes_count <? 3)).

End WithPrimitives.

(** * Price and reward *)

Definition calculate_new_ticket_price (current_block_height last_ticket_price
    avg_live_tickets_count : Z) : Z :=
  if current_block_height =? 0 then INITIAL_TICKET_PRICE
  else if negb (current_block_height mod TICKET_PRICE_ADJUSTMENT_PERIOD =? 0)
  then last_ticket_price
  else
    let n_l := f64_of_Z avg_live_tickets_count in
    let t_g := f64_of_Z TARGET_LIVE_TICKETS in
    let factor := f64_add (f64_of_Z 1)
      (f64_div (f64_mul (f64_lit 5 100) (f64_sub n_l t_g)) t_g) in
    let p_new := f64_round_to_u64 (f64_mul (f64_of_Z last_ticket_price) factor) in
    if p_new >? MAX_TICKET_PRICE then MAX_TICKET_PRICE
    else if p_new <? MIN_TICKET_PRICE then MIN_TICKET_PRICE
    else p_new.

Definition calculate_pos_reward (block_height : Z) : Z := 100000000.

Example price_up : calculate_new_ticket_price 2016 100000000 30000 = 102500000.
Proof. reflexivity. Qed.

Example price_down : calculate_new_ticket_price 4032 100000000 10000 = 97500000.
Proof. reflexivity. Qed.

(** * The lottery *)

Lemma vote_le_total a b : vote_le a b = true \/ vote_le b a = true.
Proof.
  unfold vote_le. destruct (bytes_le_total a.2 b.2) as [H|H]; rewrite H;
    destruct (Z.ltb_spec a.1 b.1), (Z.ltb_spec b.1 a.1), (Z.eqb_spec a.1 b.1),
      (Z.eqb_spec b.1 a.1); cbn; auto; lia.
Qed.

Lemma vote_le_trans a b c : vote_le a b = true -> vote_le b c = true -> vote_le a c = true.
Proof.
  unfold vote_le. rewrite !orb_true_iff, !andb_true_iff, !Z.ltb_lt, !Z.eqb_eq.
  intros [?|[? ?]] [?|[? ?]]; try (left; lia). right. split; [lia|by eapply bytes_le_trans].
Qed.

Lemma vote_le_antisym a b : vote_le a b = true -> vote_le b a = true -> a = b.
Proof.
  unfold vote_le. rewrite !orb_true_iff, !andb_true_iff, !Z.ltb_lt, !Z.eqb_eq.
  intros [?|[? ?]] [?|[? ?]]; try lia. destruct a, b; cbn in *. f_equal; [done|].
  by apply bytes_le_antisym.
Qed.

Section Lottery.
  Context `{HL : HashLaws, TC : TicketCodec}.
  Hypothesis codec_total : forall id, is_Some (bincode_ticket_id id).
  Variable hash : Hash.

(** The score of a ticket, when its id serializes. *)
Definition score_of (id : TicketId) : Z :=
  from_le_bytes (take 8 (blake3 (hash ++ default [] (bincode_ticket_id id)))).

Definition live_ids (tickets : list (TicketId * Ticket)) : list TicketId :=
  (filter (fun p => ticket_status p.2 = Live) tickets).*1.

Lemma lottery_score_ok id : lottery_score hash id = Ok (score_of id).
Proof using HL codec_total.
  unfold lottery_score, score_of. destruct (codec_total id) as [b ->]. cbn [default unwrap mbind outcome_bind].
  pose proof (proj2 (blake3_out (hash ++ b))) as Hl.
  rewrite slice_some by (unfold len; rewrite ?Hl; lia). done.
Qed.

Lemma score_tickets_ok tickets :
  score_tickets hash tickets = Ok ((fun id => (score_of id, id)) <$> live_ids tickets).
Proof using HL codec_total.
  unfold live_ids. induction tickets as [|[id t] tickets IH]; [done|]. cbn [score_tickets].
  rewrite filter_cons. cbn [snd]. destruct (decide (ticket_status t = Live)) as [Hl|Hl].
  - rewrite bool_decide_eq_true_2 by done. rewrite lottery_score_ok. cbn [mbind outcome_bind].
    by rewrite IH.
  - by rewrite bool_decide_eq_false_2 by done.
Qed.

(** The candidates in the order in which they are selected. *)
Definition ranking (tickets : list (TicketId * Ticket)) : list (Z * TicketId) :=
  reverse (sort_by vote_le ((fun id => (score_of id, id)) <$> live_ids tickets)).

Lemma ranking_perm t1 t2 : t1 ≡ₚ t2 -> ranking t1 = ranking t2.
Proof.
  intros Hp. unfold ranking. f_equal.
  apply sort_by_unique; [apply vote_le_trans|apply vote_le_total|apply vote_le_antisym|].
  unfold live_ids. by rewrite Hp.
Qed.

Lemma ranking_snd t : (ranking t).*2 ≡ₚ live_ids t.
Proof.
  unfold ranking. rewrite reverse_Permutation, sort_by_perm, <- list_fmap_compose.
  by rewrite list_fmap_id.
Qed.

Lemma ranking_sorted t : StronglySorted (fun a b => vote_le b a = true) (ranking t).
Proof.
  assert (Hs : forall l, StronglySorted (fun a b => vote_le a b = true) (sort_by vote_le l)).
  { intros l. set (R := fun a b => vote_le a b = true).
    assert (Transitive R) by (intros ???; apply vote_le_trans).
    apply (sort_by_sorted vote_le R); [done|].
    intros x y Hxy. destruct (vote_le_total x y); [congruence|done]. }
  unfold ranking. specialize (Hs ((fun id => (score_of id, id)) <$> live_ids t)).
  induction Hs as [|x l Hs IH Hx]; [constructor|]. rewrite reverse_cons.
  apply StronglySorted_app. split_and!; [|done|repeat constructor].
  intros y z Hy Hz. apply list_elem_of_singleton in Hz as ->.
  rewrite Forall_forall in Hx. apply Hx. by rewrite elem_of_reverse in Hy.
Qed.

(** C10. The voters of a block, for every pool and every order in which its map
    is walked: the selection succeeds with the same voters in the same order;
    they are distinct live tickets, five of them or all if there are fewer; and
    no live ticket left out has a HIGHER score than a selected one, ties going
    to the higher id.  Section 3.4 of docs/specs/03_oxidesync_pos_spec.md asks
    for the numerically lowest scores; the code sorts the other way round. *)
Theorem voters_spec pool tickets :
  tickets ≡ₚ map_to_list pool ->
  exists voters,
    select_voters hash pool = Ok voters /\ select_voters_from hash tickets = Ok voters /\
    NoDup voters /\
    length voters = (5 `min` length (live_ids tickets))%nat /\
    (forall id, id ∈ voters -> exists t, pool !! id = Some t /\ ticket_status t = Live) /\
    (forall id id' t, id ∈ voters -> pool !! id' = Some t -> ticket_status t = Live ->
       id' ∉ voters -> vote_le (score_of id', id') (score_of id, id) = true).
Proof using HL codec_total.
  intros Hp. exists (snd <$> take 5 (ranking (map_to_list pool))).
  assert (Hin : forall p, p ∈ ranking (map_to_list pool) -> p = (score_of p.2, p.2)).
  { intros p. unfold ranking. rewrite elem_of_reverse, sort_by_perm.
    intros (id & -> & _)%list_elem_of_fmap. done. }
  pose proof (ranking_snd (map_to_list pool)) as Hsnd.
  assert (Hlive : forall id, id ∈ live_ids (map_to_list pool) <->
    exists t, pool !! id = Some t /\ ticket_status t = Live).
  { intros id. unfold live_ids. rewrite list_elem_of_fmap. split.
    - intros ([id' t] & -> & Ht). apply list_elem_of_filter in Ht as [Hl Ht].
      apply elem_of_map_to_list in Ht. eauto.
    - intros (t & Ht & Hl). exists (id, t). split; [done|].
      apply list_elem_of_filter. split; [done|]. by apply elem_of_map_to_list. }
  split_and!.
  - unfold select_voters, select_voters_from. by rewrite score_tickets_ok.
  - unfold select_voters_from. rewrite score_tickets_ok. cbn [mbind outcome_bind mret outcome_ret].
    change (reverse _) with (ranking tickets). by rewrite (ranking_perm _ _ Hp).
  - rewrite fmap_take. eapply sublist_NoDup; [|apply sublist_take]. rewrite Hsnd.
    eapply sublist_NoDup; [apply (NoDup_fst_map_to_list pool)|].
    apply fmap_sublist, sublist_filter.
  - rewrite length_fmap, length_take. f_equal.
    rewrite <- (length_fmap snd), (Permutation_length Hsnd). unfold live_ids.
    rewrite !length_fmap. apply Permutation_length. by rewrite Hp.
  - intros id Hid. apply Hlive. rewrite <- Hsnd. rewrite fmap_take in Hid.
    by apply subseteq_take in Hid.
  - intros id id' t Hid Ht Hl Hn.
    apply list_elem_of_fmap in Hid as (p & -> & Hp1).
    assert (Hr : (score_of id', id') ∈ ranking (map_to_list pool)).
    { assert (Hc : id' ∈ (ranking (map_to_list pool)).*2) by (rewrite Hsnd; apply Hlive; eauto).
      apply list_elem_of_fmap in Hc as (q & -> & Hq). by rewrite <- Hin. }
    rewrite <- (take_drop 5 (ranking _)) in Hr. apply elem_of_app in Hr as [Hr|Hr].
    { exfalso. apply Hn. apply list_elem_of_fmap. by eexists (_, _). }
    rewrite <- (Hin p) by (by apply subseteq_take in Hp1).
    by apply (take_sorted_best (fun a b => vote_le b a = true) 5 (ranking (map_to_list pool)) p _
      (ranking_sorted _)).
Qed.

End Lottery.

(** * The pool *)

Section Pool.
  Context `{Primitives, TicketCodec}.

(** A ticket is stored under the hash of its 32-byte key. *)
Definition ticket_wf (id : TicketId) (t : Ticket) : Prop :=
  ticket_id t = id /\ blake3 (ticket_pubkey t) = id /\ len (ticket_pubkey t) = 32.

Definition pool_wf (pool : LiveTicketsPool) : Prop := map_Forall ticket_wf pool.

Lemma pool_wf_delete id pool : pool_wf pool -> pool_wf (delete id pool).
Proof. apply map_Forall_delete. Qed.

Lemma pool_wf_finality h pool : pool_wf pool -> pool_wf (process_ticket_finality h pool).
Proof.
  intros Hp id t Ht. unfold process_ticket_finality in Ht. rewrite lookup_fmap in Ht.
  destruct (pool !! id) as [t0|] eqn:Hid; [|done]. injection Ht as <-.
  destruct (Hp _ _ Hid) as (? & ? & ?). unfold finalize_ticket.
  destruct (bool_decide _ && _); done.
Qed.

(** A purchase adds one pending ticket or leaves the pool alone. *)
Lemma apply_purchase_cases h tx pool pool' r :
  apply_purchase h tx pool = (pool', r) ->
  pool' = pool \/
  exists addr v, len addr = 32 /\
    pool' = <[blake3 addr := mkTicket (blake3 addr) addr h v Pending]> pool.
Proof.
  destruct tx as [| | | | | | |v i outputs tid k l f addr w| | | |];
    try (intros [= <- <-]; by left).
  cbn [apply_purchase]. unfold purchase_ticket. rewrite stM_bind_run. cbn [lift].
  destruct (outputs !! 0%nat) as [o|]; cbn [ok_or]; [|intros [= <- <-]; by left].
  rewrite stM_bind_run. cbn [lift]. destruct (tx_txid _) as [x|e| |];
    try (intros [= <- <-]; by left).
  destruct (Z.eqb_spec (len addr) 32) as [Ha|Ha]; cbn [negb]; [|intros [= <- <-]; by left].
  unfold add_ticket. destruct (bincode_ticket _); intros [= <- <-]; [|by left].
  right. by exists addr, (value o).
Qed.

Lemma purchases_wf h txs pool :
  pool_wf pool -> pool_wf (fst (for_each txs (apply_purchase h) pool)).
Proof.
  revert pool. induction txs as [|tx txs IH]; intros pool Hp; [done|]. cbn [for_each].
  rewrite stM_bind_run. destruct (apply_purchase h tx pool) as [p' r] eqn:Ha.
  assert (Hp' : pool_wf p').
  { destruct (apply_purchase_cases _ _ _ _ _ Ha) as [->|(a & v & Hl & ->)]; [done|].
    apply map_Forall_insert_2; [done|done]. }
  destruct r; [by apply IH|done..].
Qed.

(** The pool stays keyed by the hash of the ticket's key through blocks that are
    applied, rejected half way or reverted, so that looking a ticket up by its
    public key does not depend on the iteration order of the map. *)
Theorem pool_invariant pool :
  pool_wf pool ->
  (forall block used, pool_wf (fst (update_for_new_block block used pool))) /\
  (forall block used, pool_wf (update_for_revert_block block used pool)) /\
  (forall id, pool_wf (fst (remove_ticket id pool))) /\
  (forall pubkey, get_ticket_by_pubkey pool pubkey =
     match pool !! blake3 pubkey with
     | Some t => if bool_decide (ticket_pubkey t = pubkey) then Some t else None
     | None => None
     end).
Proof.
  intros Hp. split_and!.
  - intros block used. unfold update_for_new_block. rewrite stM_bind_run. cbn [modify].
    rewrite stM_bind_run.
    set (p1 := foldl _ pool used).
    assert (Hp1 : pool_wf p1).
    { intros id t. unfold p1. rewrite deletes_lookup. case_bool_decide; [done|]. apply Hp. }
    pose proof (purchases_wf (block_height block) (transactions block) p1 Hp1) as Hp2.
    destruct (for_each _ _ p1) as [p2 r]. destruct r; try done. by apply pool_wf_finality.
  - intros block used. unfold update_for_revert_block. clear used.
    revert pool Hp. induction (transactions block) as [|tx txs IH]; intros pool Hp; [done|].
    cbn [foldl]. apply IH. destruct tx; try done. by apply pool_wf_delete.
  - intros id. unfold remove_ticket. destruct (pool !! id); [by apply pool_wf_delete|done].
  - intros pubkey. unfold get_ticket_by_pubkey, get_all_tickets.
    destruct (list_find _ _) as [[n t]|] eqn:Hf; cbn.
    + apply list_find_Some in Hf as (Hn & Hk & _).
      apply list_elem_of_lookup_2, list_elem_of_fmap in Hn as ([id t0] & -> & Hin).
      apply elem_of_map_to_list in Hin. destruct (Hp _ _ Hin) as (Hi & Hb & _).
      cbn in Hk. rewrite <- Hk, Hb, Hin. cbn. by rewrite bool_decide_eq_true_2.
    + apply list_find_None in Hf. destruct (pool !! blake3 pubkey) as [t|] eqn:Ht; [|done].
      rewrite bool_decide_eq_false_2; [done|]. intros Hk.
      rewrite Forall_forall in Hf. apply (Hf t); [|done].
      apply list_elem_of_fmap. exists (blake3 pubkey, t). split; [done|].
      by apply elem_of_map_to_list.
Qed.

(** The id of the ticket a transaction buys. *)
Definition purchase_id (tx : Transaction) : option TicketId :=
  match tx with
  | TicketPurchase _ _ _ _ _ _ _ ticket_address _ => Some (blake3 ticket_address)
  | _ => None
  end.

Lemma apply_purchase_ok h tx pool pool' :
  apply_purchase h tx pool = (pool', Ok tt) ->
  match purchase_id tx with
  | None => pool' = pool
  | Some id => exists t, pool' = <[id := t]> pool /\ ticket_id t = id /\
      ticket_height t = h /\ ticket_status t = Pending
  end.
Proof.
  destruct tx as [| | | | | | |v i outputs tid k l f addr w| | | |];
    try (intros [= <-]; done).
  cbn [apply_purchase purchase_id]. unfold purchase_ticket. rewrite stM_bind_run. cbn [lift].
  destruct (outputs !! 0%nat) as [o|]; cbn [ok_or]; [|done].
  rewrite stM_bind_run. cbn [lift]. destruct (tx_txid _) as [x|e| |]; try done.
  destruct (negb _); [done|]. unfold add_ticket. destruct (bincode_ticket _); [|done].
  intros [= <-]. by eexists.
Qed.

(** The purchases of a block, seen from one id. *)
Lemma purchases_lookup h txs pool pool' id :
  for_each txs (apply_purchase h) pool = (pool', Ok tt) ->
  (Forall (fun tx => purchase_id tx <> Some id) txs -> pool' !! id = pool !! id) /\
  (Exists (fun tx => purchase_id tx = Some id) txs ->
   exists t, pool' !! id = Some t /\ ticket_id t = id /\ ticket_height t = h /\
     ticket_status t = Pending).
Proof.
  set (bought := fun p : LiveTicketsPool => exists t, p !! id = Some t /\ ticket_id t = id /\
    ticket_height t = h /\ ticket_status t = Pending).
  assert (Hgen : forall txs pool, for_each txs (apply_purchase h) pool = (pool', Ok tt) ->
    (Forall (fun tx => purchase_id tx <> Some id) txs -> pool' !! id = pool !! id) /\
    (bought pool \/ Exists (fun tx => purchase_id tx = Some id) txs -> bought pool')).
  { clear. induction txs as [|tx txs IH]; intros pool.
    - intros [= <-]. split; [done|]. intros [?|Hx]; [done|by apply Exists_nil in Hx].
    - cbn [for_each]. intros (p1 & [] & H1 & H2)%stM_bind_ok. apply IH in H2 as [Ha Hb].
      apply apply_purchase_ok in H1. destruct (purchase_id tx) as [i|] eqn:Hi.
      + destruct H1 as (t & -> & Ht1 & Ht2 & Ht3). destruct (decide (i = id)) as [->|Hne].
        * split; [intros Hf; by apply Forall_cons in Hf as [Hf _]|]. intros _. apply Hb. left.
          exists t. by rewrite lookup_insert_eq.
        * rewrite lookup_insert_ne in Ha by done. split.
          -- intros Hf. apply Ha. by apply Forall_cons in Hf as [_ Hf].
          -- intros [(t0 & Ht0)|Hx]; apply Hb.
             ++ left. exists t0. by rewrite lookup_insert_ne.
             ++ right. apply Exists_cons in Hx as [Hx|Hx]; [congruence|done].
      + subst p1. split.
        * intros Hf. apply Ha. by apply Forall_cons in Hf as [_ Hf].
        * intros [?|Hx]; apply Hb; [by left|]. right.
          apply Exists_cons in Hx as [Hx|Hx]; [congruence|done]. }
  intros Hrun. destruct (Hgen _ _ Hrun) as [Ha Hb]. split; [done|]. intros Hx. apply Hb. by right.
Qed.

(** The life of a ticket.  A purchase in an accepted block leaves a pending
    ticket of the block's height in the pool; a later block makes it live once
    its height is larger; and no block removes it, not even one that redeems
    it, unless its id is the transaction id of an unspent output. *)
Theorem ticket_lifecycle block used pool pool' id :
  update_for_new_block block used pool = (pool', Ok tt) ->
  is_u64 (block_height block) -> block_height block <> u64_max ->
  (Exists (fun tx => purchase_id tx = Some id) (transactions block) ->
   exists t, pool' !! id = Some t /\ ticket_id t = id /\
     ticket_height t = block_height block /\ ticket_status t = Pending) /\
  (forall t, pool !! id = Some t -> id ∉ used ->
   Forall (fun tx => purchase_id tx <> Some id) (transactions block) ->
   is_u64 (ticket_height t) -> ticket_height t < block_height block ->
   exists t', pool' !! id = Some t' /\ ticket_pubkey t' = ticket_pubkey t /\
     ticket_status t' = match ticket_status t with Pending => Live | s => s end).
Proof.
  unfold update_for_new_block. intros Hrun Hh Hmax.
  apply stM_bind_ok in Hrun as (p1 & [] & [= <-] & Hrun).
  apply stM_bind_ok in Hrun as (p2 & [] & Hpur & [= <-]).
  set (h := block_height block) in *.
  destruct (purchases_lookup h (transactions block) _ _ id Hpur) as [Hkeep Hbuy].
  unfold process_ticket_finality. rewrite lookup_fmap. split.
  - intros Hx. destruct (Hbuy Hx) as (t & -> & Hi & Hth & Hs). exists t. cbn. split; [|done].
    f_equal. unfold finalize_ticket. rewrite Hth, Hs. unfold u64_add, POS_FINALITY_DEPTH.
    rewrite wrap64_small by (unfold is_u64 in Hh; lia).
    replace (h >=? h + 1) with false by lia. by rewrite andb_false_r.
  - intros t Ht Hu Hf Htw Hlt. rewrite (Hkeep Hf), deletes_lookup.
    rewrite bool_decide_eq_false_2 by done. rewrite Ht. cbn. eexists. split; [done|].
    unfold finalize_ticket, u64_add, POS_FINALITY_DEPTH.
    rewrite wrap64_small by (unfold is_u64, u64_max in *; lia).
    replace (h >=? ticket_height t + 1) with true by lia. rewrite andb_true_r.
    case_bool_decide as Hs; [by rewrite Hs|]. split; [done|]. by destruct (ticket_status t).
Qed.

(** Reverting a block deletes the tickets stored under the ids its purchases
    declare; the pool stores them under the hash of their address. *)
Lemma revert_lookup block used pool id :
  Forall (fun tx => match tx with TicketPurchase _ _ _ i _ _ _ _ _ => i <> id | _ => True end)
    (transactions block) ->
  update_for_revert_block block used pool !! id = pool !! id.
Proof.
  unfold update_for_revert_block. intros Hf. revert pool.
  induction Hf as [|tx txs Htx _ IH]; intros pool; [done|]. cbn [foldl]. rewrite IH.
  destruct tx; try done. by rewrite lookup_delete_ne.
Qed.

Lemma revert_deletes block used pool v ins outs id locked lock fee addr w :
  TicketPurchase v ins outs id locked lock fee addr w ∈ transactions block ->
  update_for_revert_block block used pool !! id = None.
Proof.
  unfold update_for_revert_block. intros Hin. revert pool.
  induction (transactions block) as [|tx txs IH]; [by apply not_elem_of_nil in Hin|].
  intros pool. cbn [foldl]. apply elem_of_cons in Hin as [<-|Hin]; [|by apply IH].
  apply (foldl_inv (fun p : LiveTicketsPool => p !! id = None)); [apply lookup_delete_eq|].
  intros p x Hp. destruct x; try done. rewrite lookup_delete_None. by right.
Qed.

End Pool.

(** The ticket price changes only every 2016 blocks and then stays between the
    minimum and the maximum price. *)
Theorem ticket_price_bounds height price count :
  0 < height ->
  let new := calculate_new_ticket_price height price count in
  (height mod 2016 <> 0 -> new = price) /\
  (height mod 2016 = 0 -> MIN_TICKET_PRICE <= new <= MAX_TICKET_PRICE).
Proof.
  intros Hh new. subst new. unfold calculate_new_ticket_price, TICKET_PRICE_ADJUSTMENT_PERIOD.
  destruct (Z.eqb_spec height 0); [lia|]. split; intros Hm.
  - destruct (Z.eqb_spec (height mod 2016) 0); done.
  - destruct (Z.eqb_spec (height mod 2016) 0); [|done]. cbn [negb].
    generalize (f64_round_to_u64 (f64_mul (f64_of_Z price) (f64_add (f64_of_Z 1)
      (f64_div (f64_mul (f64_lit 5 100)
         (f64_sub (f64_of_Z count) (f64_of_Z TARGET_LIVE_TICKETS))) (f64_of_Z TARGET_LIVE_TICKETS))))).
    intros p. unfold MIN_TICKET_PRICE, MAX_TICKET_PRICE.
    rewrite Z.gtb_ltb. destruct (Z.ltb_spec 1000000000 p); [lia|].
    destruct (Z.ltb_spec p 10000000); lia.
Qed.

(** * Witnesses *)

#[export] Instance sample_ticket_codec : TicketCodec := {|
  bincode_ticket t := Some (ticket_id t ++ ticket_pubkey t);
  bincode_ticket_id id := Some id;
|}.

Definition sample_key : bytes := replicate 32 3.

Definition sample_purchase : Transaction :=
  TicketPurchase 1 [sample_input] [TxOutput_new 100 sample_key] (replicate 32 1) 100 0 1 sample_key [].

Definition sample_ticket (h : Z) (s : TicketStatus) : Ticket :=
  mkTicket (blake3 sample_key) sample_key h 100 s.

Definition ticket_block (h : Z) (txs : list Transaction) : Block :=
  mkBlock (mkBlockHeader 1 h [] [] [] 0 0 0) [] txs.

Definition sample_pool : LiveTicketsPool := {[ blake3 sample_key := sample_ticket 7 Live ]}.

Lemma voters_spec_witness : exists voters, select_voters [1] sample_pool = Ok voters.
Proof.
  destruct (voters_spec (fun id => ltac:(by eexists)) [1] sample_pool (map_to_list sample_pool))
    as (voters & Hv & _); [done|]. by exists voters.
Defined.

Lemma pool_invariant_witness :
  pool_wf (fst (update_for_new_block (ticket_block 9 [sample_purchase]) [] ∅)).
Proof.
  destruct (pool_invariant ∅) as (Hb & _); [apply map_Forall_empty|]. apply Hb.
Defined.

Lemma ticket_lifecycle_witness :
  exists t, fst (update_for_new_block (ticket_block 9 [sample_purchase]) [] ∅) !! blake3 sample_key
    = Some t /\ ticket_status t = Pending.
Proof.
  destruct (ticket_lifecycle (ticket_block 9 [sample_purchase]) [] ∅
    (fst (update_for_new_block (ticket_block 9 [sample_purchase]) [] ∅)) (blake3 sample_key))
    as [(t & Ht & _ & _ & Hs) _];
    [vm_compute; reflexivity|unfold is_u64, u64_max; cbn; lia|cbn; unfold u64_max; lia
    |by constructor|eauto].
Defined.

Lemma ticket_price_bounds_witness :
  MIN_TICKET_PRICE <= calculate_new_ticket_price 2016 5 0 <= MAX_TICKET_PRICE.
Proof. apply ticket_price_bounds; [lia|reflexivity]. Defined.
