(* ===== verification/GovernanceState.v ===== *)
(** Active governance proposals and their votes
    (src/rusty-core/src/consensus/governance_state.rs). *)

From Stdlib Require Import ZArith Lia List SpecFloat.
From stdpp Require Import base option list numbers strings gmap.
From S2P Require Import Prelude Types Errors Transaction F64.

#[local] Open Scope Z_scope.

(** [VoterType] of this file, not the one carried by a vote. *)
Inductive GovernanceVoterType : Type := PoS | MasternodeVoter.

#[export] Instance GovernanceVoterType_eq_dec : EqDecision GovernanceVoterType.
Proof. solve_decision. Defined.

Inductive ProposalOutcome : Type :=
| Passed
| Rejected (reason : string)
| InProgress
| ProposalExpired.

#[export] Instance ProposalOutcome_eq_dec : EqDecision ProposalOutcome.
Proof. solve_decision. Defined.

Abbreviation Votes := (gmap Hash Vote).
Abbreviation ActiveProposals := (gmap Hash (Proposal * Votes)).
Abbreviation govM := (stM ActiveProposals CE.ConsensusError).

Definition ActiveProposals_new : ActiveProposals := ∅.

Definition add_proposal (proposal : Proposal) : govM unit := fun s =>
  match s !! proposal_id proposal with
  | Some _ => (s, Err (CE.ProposalAlreadyExists (proposal_id proposal)))
  | None => (<[proposal_id proposal := (proposal, ∅)]> s, Ok tt)
  end.

Definition record_vote (vote : Vote) : govM unit := fun s =>
  match s !! vote_proposal_id vote with
  | None => (s, Err (CE.ProposalNotFound (vote_proposal_id vote)))
  | Some (proposal, votes) =>
      match votes !! voter_id vote with
      | Some _ => (s, Err (CE.DuplicateGovernanceVote (vote_proposal_id vote) (voter_id vote)))
      | None => (<[vote_proposal_id vote := (proposal, <[voter_id vote := vote]> votes)]> s, Ok tt)
      end
  end.

Definition get_proposal (s : ActiveProposals) (id : Hash) : option Proposal := fst <$> s !! id.

Definition get_votes_for_proposal (s : ActiveProposals) (id : Hash) : option Votes := snd <$> s !! id.

Definition remove_proposal (id : Hash) : govM unit := fun s =>
  match s !! id with
  | None => (s, Err (CE.ProposalNotFound id))
  | Some _ => (delete id s, Ok tt)
  end.

Definition remove_vote (id voter : Hash) : govM unit := fun s =>
  match s !! id with
  | None => (s, Err (CE.ProposalNotFound id))
  | Some (proposal, votes) =>
      match votes !! voter with
      | None => (s, Err (CE.VoteNotFound id voter))
      | Some _ => (<[id := (proposal, delete voter votes)]> s, Ok tt)
      end
  end.

(** * Evaluation *)

Record Tally : Type := mkTally { pos_yes : Z; pos_no : Z; mn_yes : Z; mn_no : Z }.

(** One vote of the loop of [evaluate_proposal_at_height]; abstentions are
    counted in variables that are not used. *)
Definition count_vote (voter_types : gmap Hash GovernanceVoterType) (t : Tally)
    (entry : Hash * Vote) : Tally :=
  match voter_types !! entry.1, vote_choice entry.2 with
  | Some PoS, Yes => mkTally (u64_add (pos_yes t) 1) (pos_no t) (mn_yes t) (mn_no t)
  | Some PoS, No => mkTally (pos_yes t) (u64_add (pos_no t) 1) (mn_yes t) (mn_no t)
  | Some MasternodeVoter, Yes => mkTally (pos_yes t) (pos_no t) (u64_add (mn_yes t) 1) (mn_no t)
  | Some MasternodeVoter, No => mkTally (pos_yes t) (pos_no t) (mn_yes t) (u64_add (mn_no t) 1)
  | _, _ => t
  end.

Definition tally_votes (voter_types : gmap Hash GovernanceVoterType)
    (votes : list (Hash * Vote)) : Tally :=
  foldl (count_vote voter_types) (mkTally 0 0 0 0) votes.

(** [if total > 0 { part as f64 / total as f64 >= threshold } else { false }] *)
Definition share_reached (part total : Z) (threshold : f64) : bool :=
  if total >? 0 then f64_ge (f64_div (f64_of_Z part) (f64_of_Z total)) threshold else false.

Definition check_quorum_and_supermajority (t : Tally)
    (live_tickets_count active_masternode_count : Z)
    (pos_quorum mn_quorum pos_approval mn_approval : f64) : ProposalOutcome :=
  let pos_total_cast := u64_add (pos_yes t) (pos_no t) in
  let mn_total_cast := u64_add (mn_yes t) (mn_no t) in
  let pos_quorum_met := share_reached pos_total_cast live_tickets_count pos_quorum in
  let mn_quorum_met := share_reached mn_total_cast active_masternode_count mn_quorum in
  if negb pos_quorum_met || negb mn_quorum_met then Rejected "Quorum not met" else
  let pos_approval_met := share_reached (pos_yes t) pos_total_cast pos_approval in
  let mn_approval_met := share_reached (mn_yes t) mn_total_cast mn_approval in
  if pos_approval_met && mn_approval_met then Passed else Rejected "Supermajority not met".

(** The votes are visited in the map's iteration order. *)
Definition evaluate_proposal_at_height (s : ActiveProposals) (id : Hash) (current_height : Z)
    (live_tickets_count active_masternode_count : Z)
    (pos_quorum mn_quorum pos_approval mn_approval : f64)
    (voter_types : gmap Hash GovernanceVoterType) : outcome CE.ConsensusError ProposalOutcome :=
  proposal ← ok_or (get_proposal s id) (CE.Internal "Proposal not found for evaluation.");
  if current_height <? start_block_height proposal then Ok InProgress
  else if current_height >? end_block_height proposal then Ok ProposalExpired
  else
    votes ← ok_or (get_votes_for_proposal s id) (CE.Internal "Votes not found for proposal.");
    mret (check_quorum_and_supermajority (tally_votes voter_types (map_to_list votes))
            live_tickets_count active_masternode_count
            pos_quorum mn_quorum pos_approval mn_approval).

(** * Votes *)

(** Every vote is stored under its voter and its proposal, and the proposal
    under its id. *)
Definition gov_wf (s : ActiveProposals) : Prop :=
  map_Forall (fun id pv => proposal_id pv.1 = id /\
    map_Forall (fun voter v => voter_id v = voter /\ vote_proposal_id v = id) pv.2) s.

(** C11. The vote book behaves like a ballot box: a vote is taken exactly when its
    proposal is active and its voter has not voted on it; then that one vote is
    added and nothing else changes, and a rejected vote changes nothing.
    Proposals cannot be overwritten, and the book stays consistent. *)
Theorem ballot_box s vote :
  gov_wf s ->
  (snd (record_vote vote s) = Ok tt <->
   exists p votes, s !! vote_proposal_id vote = Some (p, votes) /\ votes !! voter_id vote = None) /\
  (forall id voter,
    (v ← get_votes_for_proposal (fst (record_vote vote s)) id; v !! voter) =
    if bool_decide (id = vote_proposal_id vote /\ voter = voter_id vote) &&
       is_ok (snd (record_vote vote s))
    then Some vote else (v ← get_votes_for_proposal s id; v !! voter)) /\
  (forall id, get_proposal (fst (record_vote vote s)) id = get_proposal s id) /\
  gov_wf (fst (record_vote vote s)) /\
  (forall proposal, is_Some (s !! proposal_id proposal) -> fst (add_proposal proposal s) = s).
Proof.
  intros Hwf. unfold record_vote, get_votes_for_proposal, get_proposal, add_proposal.
  destruct (s !! vote_proposal_id vote) as [[p votes]|] eqn:Hs.
  2:{ split_and!; try done.
      - split; [done|]. intros (p & votes & Hp & _). congruence.
      - intros id voter. cbn. by rewrite andb_false_r.
      - intros proposal [pv Hpv]. by rewrite Hpv. }
  destruct (votes !! voter_id vote) as [old|] eqn:Hv.
  { split_and!; try done.
    - split; [done|]. intros (p' & votes' & Hp & Hn). congruence.
    - intros id voter. cbn. by rewrite andb_false_r.
    - intros proposal [pv Hpv]. by rewrite Hpv. }
  cbn [fst snd is_ok]. split_and!.
  - split; [|done]. intros _. by exists p, votes.
  - intros id voter. rewrite andb_true_r.
    destruct (decide (id = vote_proposal_id vote)) as [->|Hid].
    + rewrite lookup_insert_eq, Hs. cbn. destruct (decide (voter = voter_id vote)) as [->|Hvo].
      * by rewrite lookup_insert_eq, bool_decide_eq_true_2.
      * rewrite lookup_insert_ne by done. by rewrite bool_decide_eq_false_2 by naive_solver.
    + rewrite lookup_insert_ne by done. by rewrite bool_decide_eq_false_2 by naive_solver.
  - intros id. destruct (decide (id = vote_proposal_id vote)) as [->|Hid].
    + by rewrite lookup_insert_eq, Hs.
    + by rewrite lookup_insert_ne.
  - destruct (Hwf _ _ Hs) as [Hp Hvs]. cbn in Hp, Hvs.
    apply map_Forall_insert_2; [|done]. split; [done|]. cbn.
    by apply map_Forall_insert_2.
  - intros proposal [pv Hpv]. by rewrite Hpv.
Qed.

(** * Tallies *)

Definition votes_of (voter_types : gmap Hash GovernanceVoterType) (k : GovernanceVoterType)
    (c : VoteChoice) (votes : list (Hash * Vote)) : Z :=
  len (filter (fun e => voter_types !! e.1 = Some k /\ vote_choice e.2 = c) votes).

Definition tally_plus (t : Tally) (voter_types : gmap Hash GovernanceVoterType)
    (votes : list (Hash * Vote)) : Tally :=
  mkTally (pos_yes t + votes_of voter_types PoS Yes votes)
    (pos_no t + votes_of voter_types PoS No votes)
    (mn_yes t + votes_of voter_types MasternodeVoter Yes votes)
    (mn_no t + votes_of voter_types MasternodeVoter No votes).

Lemma votes_of_cons vt k c e votes :
  votes_of vt k c (e :: votes) =
  (if decide (vt !! e.1 = Some k /\ vote_choice e.2 = c) then 1 else 0) + votes_of vt k c votes.
Proof.
  unfold votes_of. rewrite filter_cons. destruct (decide _); [rewrite len_cons|]; lia.
Qed.

Lemma votes_of_nonneg vt k c votes : 0 <= votes_of vt k c votes <= len votes.
Proof.
  induction votes as [|e votes IH]; [done|]. rewrite votes_of_cons, len_cons.
  destruct (decide _); lia.
Qed.

(** A tally with room for [n] more votes. *)
Definition tally_room (t : Tally) (n : Z) : Prop :=
  0 <= pos_yes t /\ pos_yes t + n <= u64_max /\ 0 <= pos_no t /\ pos_no t + n <= u64_max /\
  0 <= mn_yes t /\ mn_yes t + n <= u64_max /\ 0 <= mn_no t /\ mn_no t + n <= u64_max.

Lemma count_vote_step vt t e :
  tally_room t 1 -> count_vote vt t e = tally_plus t vt [e].
Proof.
  intros Hr. unfold tally_room in Hr. destruct t as [a b c d].
  unfold tally_plus. rewrite !votes_of_cons. cbn in *.
  unfold count_vote, u64_add. change (votes_of vt _ _ []) with 0. cbn.
  destruct (vt !! e.1) as [[]|], (vote_choice e.2);
    rewrite ?wrap64_small by lia; f_equal; repeat destruct (decide _) as [[? ?]|?];
    try discriminate; try lia; naive_solver.
Qed.

Lemma tally_from vt votes t :
  tally_room t (len votes) -> foldl (count_vote vt) t votes = tally_plus t vt votes.
Proof.
  revert t. induction votes as [|e votes IH]; intros t Hr.
  - destruct t. unfold tally_plus. change (votes_of vt _ _ []) with 0. cbn. f_equal; lia.
  - rewrite len_cons in Hr. pose proof (len_nonneg votes). cbn [foldl].
    rewrite count_vote_step by (unfold tally_room in *; lia).
    assert (Hb : forall k c, 0 <= votes_of vt k c [e] <= 1) by (intros; apply (votes_of_nonneg vt k c [e])).
    rewrite IH.
    + unfold tally_plus. cbn. f_equal; rewrite !votes_of_cons;
        change (votes_of vt _ _ []) with 0; lia.
    + unfold tally_room in *. cbn.
      pose proof (Hb PoS Yes). pose proof (Hb PoS No). pose proof (Hb MasternodeVoter Yes).
      pose proof (Hb MasternodeVoter No). lia.
Qed.

Lemma votes_of_perm vt k c l1 l2 : l1 ≡ₚ l2 -> votes_of vt k c l1 = votes_of vt k c l2.
Proof. intros Hp. unfold votes_of, len. by rewrite Hp. Qed.

(** A proposal is accepted exactly inside its voting window, when the yes and no
    votes of ticket holders and of masternodes each reach their quorum and the
    yes votes among them each reach their approval share; abstentions and
    voters of unknown type count for nothing, and the order in which the votes
    are visited does not matter. *)
Theorem proposal_passes_iff s id p votes order h live mns pq mq pa ma vt :
  s !! id = Some (p, votes) -> order ≡ₚ map_to_list votes ->
  len (map_to_list votes) <= u64_max / 2 ->
  let py := votes_of vt PoS Yes order in
  let pn := votes_of vt PoS No order in
  let my := votes_of vt MasternodeVoter Yes order in
  let mn := votes_of vt MasternodeVoter No order in
  evaluate_proposal_at_height s id h live mns pq mq pa ma vt = Ok Passed <->
  start_block_height p <= h <= end_block_height p /\
  share_reached (py + pn) live pq = true /\ share_reached (my + mn) mns mq = true /\
  share_reached py (py + pn) pa = true /\ share_reached my (my + mn) ma = true.
Proof.
  intros Hs Hord Hlen py pn my mn. unfold evaluate_proposal_at_height, get_proposal,
    get_votes_for_proposal. rewrite Hs. cbn [fmap option_fmap option_map fst snd ok_or mbind outcome_bind].
  destruct (Z.ltb_spec h (start_block_height p)); [split; [done|lia]|].
  rewrite Z.gtb_ltb. destruct (Z.ltb_spec (end_block_height p) h); [split; [done|lia]|].
  assert (Hlen' : len (map_to_list votes) <= 9223372036854775807) by exact Hlen.
  unfold tally_votes. rewrite tally_from by (unfold tally_room, u64_max; cbn; lia).
  unfold check_quorum_and_supermajority, tally_plus, mret, outcome_ret.
  cbn [pos_yes pos_no mn_yes mn_no]. rewrite !Z.add_0_l.
  rewrite <- !(votes_of_perm vt _ _ _ _ Hord). fold py pn my mn.
  assert (Hw : forall k c, 0 <= votes_of vt k c order <= 9223372036854775807).
  { intros k c. pose proof (votes_of_nonneg vt k c order) as Hn.
    assert (Hl : len order = len (map_to_list votes)) by (unfold len; by rewrite Hord). lia. }
  unfold u64_add. rewrite !wrap64_small by (unfold py, pn, my, mn, u64_max;
    pose proof (Hw PoS Yes); pose proof (Hw PoS No); pose proof (Hw MasternodeVoter Yes);
    pose proof (Hw MasternodeVoter No); lia).
  destruct (share_reached (py + pn) live pq), (share_reached (my + mn) mns mq); cbn;
    try (by split; [|intros (_ & ? & ? & _)]).
  destruct (share_reached py (py + pn) pa), (share_reached my (my + mn) ma); cbn;
    first [split; [intros _; split_and!; done || lia|done] | split; [done|by intros (_ & _ & _ & ? & ?)]].
Qed.

(** * Witnesses *)

Definition sample_proposal (start stop : Z) : Proposal :=
  mkProposal [1] [2] ParameterChange start stop "p" [] None (Some "max_block_size"%string)
    (Some "8000000"%string) None None None None [] [] [] 0 [] 0.

Definition sample_vote (voter : Hash) (k : VoterType) (c : VoteChoice) : Vote :=
  mkVote [1] k voter c [] [] [] 0 [] 0.

Definition sample_book : ActiveProposals :=
  {[ [1] := (sample_proposal 10 20, {[ [5] := sample_vote [5] PosTicket Yes;
                                       [6] := sample_vote [6] Masternode Yes ]}) ]}.

Lemma ballot_box_witness : snd (record_vote (sample_vote [7] PosTicket No) sample_book) = Ok tt.
Proof.
  destruct (ballot_box sample_book (sample_vote [7] PosTicket No)) as [Hiff _].
  - unfold gov_wf, sample_book. apply map_Forall_singleton. split; [done|].
    apply map_Forall_insert_2; [done|]. by apply map_Forall_singleton.
  - apply Hiff. do 2 eexists. split; [apply lookup_singleton_eq|reflexivity].
Defined.

Lemma proposal_passes_iff_witness :
  evaluate_proposal_at_height sample_book [1] 15 1 1 (f64_lit 2 10) (f64_lit 5 10)
    (f64_lit 75 100) (f64_lit 66 100) {[ [5] := PoS; [6] := MasternodeVoter ]} = Ok Passed.
Proof.
  apply (proposal_passes_iff sample_book [1] (sample_proposal 10 20)
    {[ [5] := sample_vote [5] PosTicket Yes; [6] := sample_vote [6] Masternode Yes ]}
    (map_to_list {[ [5] := sample_vote [5] PosTicket Yes; [6] := sample_vote [6] Masternode Yes ]}));
    [reflexivity|reflexivity|vm_compute; discriminate|].
  split; [cbn; lia|]. split_and!; vm_compute; reflexivity.
Defined.
