(* ===== verification/ChainState.v ===== *)
(** The stored chain state ([BlockchainState] of
    src/rusty-core/src/consensus/state.rs): an in-memory key-value store of
    blocks, block hashes by height and protocol flags, and the block subsidy.

    [load_from_disk] and [save_to_disk] are file I/O and are not modelled;
    [validate_transaction] of this struct returns [Ok] for everything. *)

From Stdlib Require Import ZArith Lia List Ascii String.
From stdpp Require Import base option list numbers strings pretty gmap.
From coqutil Require Import Datatypes.RecordSetters.
From S2P Require Import Prelude Types Errors Transaction SamplePrimitives UtxoSet LiveTickets.
From S2P Require Import GovernanceState.

Import TriangleBracketNotations.
#[local] Open Scope Z_scope.

(** bincode of the values the store holds. *)
Class StoreCodec : Type := {
  bincode_hash : Hash -> option bytes;
  decode_hash : bytes -> option Hash;
  decode_block : bytes -> option Block;
  bincode_u64 : Z -> option bytes;
  decode_u64 : bytes -> option Z;
  decode_u32 : bytes -> option Z;
  bincode_outpoint : OutPoint -> option bytes;
  decode_utxo : bytes -> option Utxo;
  bincode_utxo_entry : TxOutput * Z * bool -> option bytes;
  bincode_pool : LiveTicketsPool -> option bytes;
  bincode_utxo_set : UtxoSet -> option bytes;
  bincode_proposals : ActiveProposals -> option bytes;
}.

(** What is relied on: decoding inverts encoding, and the fixed-width
    little-endian encoding of integers. *)
Class StoreCodecLaws (P : Primitives) (C : StoreCodec) : Prop := {
  decode_bincode_hash : forall h b, bincode_hash h = Some b -> decode_hash b = Some h;
  decode_bincode_block : forall x b, bincode_block x = Some b -> decode_block b = Some x;
  decode_u64_le : forall v, is_u64 v -> decode_u64 (to_le_bytes 8 v) = Some v;
  bincode_hash_total : forall h, length h = 32%nat -> is_Some (bincode_hash h);
  decode_hash_length : forall b h, decode_hash b = Some h -> length h = 32%nat;
}.

Record BlockchainState : Type := mkBlockchainState {
  current_height : Z;
  state_tip : Hash;
  state_live_tickets : LiveTicketsPool;
  state_utxo_set : UtxoSet;
  state_active_proposals : ActiveProposals;
  db : gmap bytes bytes;
}.

Definition BlockchainState_new : BlockchainState :=
  mkBlockchainState 0 (replicate 32 0) ∅ ∅ ∅ ∅.

Abbreviation stateM := (stM BlockchainState CE.ConsensusError).

(** [String::into_bytes] and byte string literals. *)
Definition string_bytes (s : string) : bytes :=
  (fun c => Z.of_N (N_of_ascii c)) <$> list_ascii_of_string s.

(** [format!("block_hash_{}", height).into_bytes()] *)
Definition height_key (height : Z) : bytes :=
  string_bytes ("block_hash_" +:+ pretty (Z.to_N height)).

Definition starts_with (k prefix : bytes) : bool := bool_decide (prefix `prefix_of` k).

Definition update_tip (new_tip_hash : Hash) (new_height : Z) (s : BlockchainState) :
    BlockchainState := s <| state_tip := new_tip_hash |> <| current_height := new_height |>.

Definition db_insert (k v : bytes) (s : BlockchainState) : BlockchainState :=
  s <| db ::= <[k := v]> |>.

Definition db_remove (k : bytes) (s : BlockchainState) : BlockchainState :=
  s <| db ::= delete k |>.

(** Halvings of the initial reward; panics when [halving_interval] is zero. *)
Definition get_block_subsidy {E} (height halving_interval initial_block_reward : Z) :
    outcome E Z :=
  if halving_interval =? 0 then Panic else
  let halvings := height / halving_interval in
  if halvings >=? 64 then Ok 0 else Ok (Z.shiftr initial_block_reward halvings).

(** ** Flags *)

Definition set_current_block_height (height : Z) (s : BlockchainState) : BlockchainState :=
  db_insert (string_bytes "current_height") (to_le_bytes 8 height) s.

Definition set_protocol_flag (key : string) (value : bytes) (s : BlockchainState) :
    BlockchainState := db_insert (string_bytes key) value s.

Definition get_protocol_flag (s : BlockchainState) (key : string) : option bytes :=
  db s !! string_bytes key.

Definition set_protocol_version (version : Z) (s : BlockchainState) : BlockchainState :=
  db_insert (string_bytes "protocol_version") (to_le_bytes 4 version) s.

Definition set_hard_fork_height (height : Z) (s : BlockchainState) : BlockchainState :=
  db_insert (string_bytes "hard_fork_height") (to_le_bytes 8 height) s.

Definition is_output_spent (s : BlockchainState) (outpoint : OutPoint) : bool :=
  bool_decide (get_utxo (state_utxo_set s) outpoint = None).

(** The outpoints in the map's iteration order. *)
Definition get_critical_utxos (s : BlockchainState) : list OutPoint :=
  fst <$> filter (fun p => is_coinbase_utxo p.2 || (value (output p.2) >? 100000000000))
    (map_to_list (state_utxo_set s)).

Section WithCodec.
  Context `{Primitives, StoreCodec, TicketCodec}.

Definition get_protocol_version (s : BlockchainState) : option Z :=
  db s !! string_bytes "protocol_version" ≫= decode_u32.

Definition get_hard_fork_height (s : BlockchainState) : option Z :=
  db s !! string_bytes "hard_fork_height" ≫= decode_u64.

Definition get_current_block_height (s : BlockchainState) : outcome CE.ConsensusError Z :=
  match db s !! string_bytes "current_height" with
  | Some height_bytes => ok_or (decode_u64 height_bytes) CE.bincode_failure
  | None => Ok 0
  end.

(** ** Blocks *)

Definition get_block_hash (s : BlockchainState) (height : Z) :
    outcome CE.ConsensusError (option Hash) :=
  match db s !! height_key height with
  | Some value =>
      hash ← ok_or (decode_hash value) CE.bincode_failure;
      mret (Some hash)
  | None => mret None
  end.

Definition get_block (s : BlockchainState) (height : Z) :
    outcome CE.ConsensusError (option Block) :=
  hash ← get_block_hash s height;
  match hash with
  | None => mret None
  | Some hash =>
      match db s !! hash with
      | None => mret None
      | Some data =>
          block ← ok_or (decode_block data) CE.bincode_failure;
          mret (Some block)
      end
  end.

Definition put_block_hash (height : Z) (hash : Hash) : stateM unit :=
  value_encoded ← lift (ok_or (bincode_hash hash) CE.bincode_failure);
  modify (db_insert (height_key height) value_encoded).

Definition put_block (block : Block) : stateM unit :=
  hash ← lift (block_hash block);
  block_data ← lift (ok_or (bincode_block block) CE.bincode_failure);
  modify (db_insert hash block_data);;
  put_block_hash (block_height block) hash.

(** The height entries that point to the block. *)
Definition is_height_entry (block_hash : Hash) (e : bytes * bytes) : bool :=
  starts_with e.1 (string_bytes "block_hash_") &&
  bool_decide (decode_hash e.2 = Some block_hash).

Definition remove_block_by_hash (block_hash : Hash) (s : BlockchainState) : BlockchainState :=
  let s := db_remove block_hash s in
  s <| db ::= filter (fun e => negb (is_height_entry block_hash e)) |>.

Definition remove_block_by_height (height : Z) : stateM unit := fun s =>
  match get_block_hash s height with
  | Ok (Some hash) => (db_remove (height_key height) (remove_block_by_hash hash s), Ok tt)
  | Ok None => (s, Ok tt)
  | Err e => (s, Err e)
  | Panic => (s, Panic)
  | OutOfFuel => (s, OutOfFuel)
  end.

(** ** The per-output entries of the store *)

Definition state_get_utxo (s : BlockchainState) (outpoint : OutPoint) :
    outcome CE.ConsensusError (option (TxOutput * Z * bool)) :=
  key ← ok_or (bincode_outpoint outpoint) CE.bincode_failure;
  match db s !! key with
  | Some value =>
      decoded ← ok_or (decode_utxo value) (CE.UtxoSetError "Failed to decode UTXO: ");
      mret (Some (output decoded, creation_height decoded, is_coinbase_utxo decoded))
  | None => mret None
  end.

Definition update_utxo_set (outpoint : OutPoint) (output : option TxOutput) (height : Z)
    (is_coinbase : bool) : stateM (option (TxOutput * Z * bool)) :=
  key ← lift (ok_or (bincode_outpoint outpoint) CE.bincode_failure);
  match output with
  | Some output =>
      value ← lift (ok_or (bincode_utxo_entry (output, height, is_coinbase)) CE.bincode_failure);
      modify (db_insert key value);;
      mret (Some (output, height, is_coinbase))
  | None =>
      modify (db_remove key);;
      mret None
  end.

(** ** [BlockchainState::apply_block]; the results of [add_ticket] and
    [remove_ticket] are dropped. *)

Definition state_apply_tx (height : Z) (tx : Transaction) : stateM unit :=
  match tx with
  | TicketPurchase _ _ _ _ locked_amount _ _ ticket_address _ =>
      if negb (len ticket_address =? 32)
      then throw (CE.InvalidTicket "Invalid public key length in ticket address.")
      else
        let new_ticket :=
          mkTicket (blake3 ticket_address) ticket_address height locked_amount Pending in
        modify (fun s => s <| state_live_tickets ::= fun pool => fst (add_ticket new_ticket pool) |>)
  | TicketRedemption _ _ _ ticket_id _ _ _ =>
      modify (fun s => s <| state_live_tickets ::= fun pool => fst (remove_ticket ticket_id pool) |>)
  | _ => mret tt
  end.

(** Run a computation on the UTXO set field, dropping its result. *)
Definition on_utxo_set (m : utxoM unit) : stateM unit := fun s =>
  match m (state_utxo_set s) with
  | (u, Panic) => (s <| state_utxo_set := u |>, Panic)
  | (u, OutOfFuel) => (s <| state_utxo_set := u |>, OutOfFuel)
  | (u, _) => (s <| state_utxo_set := u |>, Ok tt)
  end.

Definition persist (key : string) (encode : BlockchainState -> option bytes) : stateM unit :=
  fun s =>
  match encode s with
  | Some v => (db_insert (string_bytes key) v s, Ok tt)
  | None => (s, Err CE.bincode_failure)
  end.

Definition state_apply_block (block : Block) : stateM unit :=
  modify (fun s => s <| current_height := block_height block |>);;
  hash ← lift (block_hash block);
  modify (fun s => s <| state_tip := hash |>);;
  for_each (transactions block) (state_apply_tx (block_height block));;
  on_utxo_set (apply_block block (block_height block));;
  persist "current_height" (fun s => bincode_u64 (current_height s));;
  persist "tip" (fun s => bincode_hash (state_tip s));;
  persist "live_tickets" (fun s => bincode_pool (state_live_tickets s));;
  persist "utxo_set" (fun s => bincode_utxo_set (state_utxo_set s));;
  persist "active_proposals" (fun s => bincode_proposals (state_active_proposals s)).

End WithCodec.

(** * Keys of the store do not collide *)

Lemma string_bytes_inj a b : string_bytes a = string_bytes b -> a = b.
Proof.
  unfold string_bytes. intros Hm.
  rewrite <- (string_of_list_ascii_of_string a), <- (string_of_list_ascii_of_string b). f_equal.
  assert (Hi : Inj (=) (=) (fun c : ascii => Z.of_N (N_of_ascii c))).
  { intros x y Hxy%N2Z.inj. rewrite <- (ascii_N_embedding x), <- (ascii_N_embedding y). by f_equal. }
  exact (inj (fmap (fun c : ascii => Z.of_N (N_of_ascii c))) _ _ Hm).
Qed.

Lemma string_bytes_length s : length (string_bytes s) = String.length s.
Proof. unfold string_bytes. rewrite length_fmap. induction s; cbn; auto. Qed.

Lemma string_bytes_app a b : string_bytes (a +:+ b) = string_bytes a ++ string_bytes b.
Proof. induction a as [|c a IH]; [done|]. exact (f_equal (cons _) IH). Qed.

Lemma height_key_inj h1 h2 : 0 <= h1 -> 0 <= h2 -> height_key h1 = height_key h2 -> h1 = h2.
Proof.
  intros H1 H2 He. apply string_bytes_inj in He. simplify_eq. apply Z2N.inj; done.
Qed.

(** A number below [10 ^ k] prints with at most [k] digits. *)
Lemma pretty_go_length k : forall x s, (x < 10 ^ N.of_nat k)%N ->
  (String.length (pretty_N_go x s) <= k + String.length s)%nat.
Proof.
  induction k as [|k IH]; intros x s Hx.
  - assert (x = 0%N) as -> by (cbn in Hx; lia). by rewrite pretty_N_go_0.
  - destruct (decide (x = 0%N)) as [->|Hn]; [rewrite pretty_N_go_0; lia|].
    rewrite pretty_N_go_step by lia.
    assert (Hd : (x `div` 10 < 10 ^ N.of_nat k)%N).
    { rewrite Nat2N.inj_succ, N.pow_succ_r' in Hx. apply N.Div0.div_lt_upper_bound. lia. }
    pose proof (IH (x `div` 10)%N (String (pretty_N_char (x `mod` 10)) s) Hd) as Hl.
    cbn [String.length] in Hl. lia.
Qed.

Lemma height_key_length h : is_u64 h -> (12 <= length (height_key h) <= 31)%nat.
Proof.
  intros Hh. unfold height_key. rewrite string_bytes_length.
  change ("block_hash_" +:+ pretty (Z.to_N h))
    with ("block_hash_" ++ pretty (Z.to_N h))%string.
  assert (Hl : forall a b, String.length (a ++ b)%string = (String.length a + String.length b)%nat)
    by (intros a b; induction a as [|c a IH]; [done|exact (f_equal S IH)]).
  rewrite Hl. change (String.length "block_hash_") with 11%nat.
  unfold pretty, pretty_N. case_decide as Hz; [cbn; lia|].
  assert (Hb : (Z.to_N h < 10 ^ N.of_nat 20)%N).
  { unfold is_u64, u64_max in Hh. change (10 ^ N.of_nat 20)%N with 100000000000000000000%N. lia. }
  pose proof (pretty_go_length 20 (Z.to_N h) "" Hb) as Hp. cbn [String.length] in Hp.
  assert (Hpos : (1 <= String.length (pretty_N_go (Z.to_N h) ""))%nat).
  { rewrite pretty_N_go_step by lia.
    assert (Hge : forall y s, (String.length s <= String.length (pretty_N_go y s))%nat).
    { intros y. induction (N.lt_wf_0 y) as [y _ IH]. intros s.
      destruct (decide (y = 0%N)) as [->|]; [by rewrite pretty_N_go_0|].
      rewrite pretty_N_go_step by lia.
      assert (Hd : (y `div` 10 < y)%N) by (apply N.div_lt; lia).
      pose proof (IH _ Hd (String (pretty_N_char (y `mod` 10)) s)) as Hs.
      cbn [String.length] in Hs. lia. }
    pose proof (Hge (Z.to_N h `div` 10)%N (String (pretty_N_char (Z.to_N h `mod` 10)) "")) as Hs.
    cbn [String.length] in Hs. lia. }
  lia.
Qed.

Lemma height_key_not_hash h (hash : Hash) : is_u64 h -> length hash = 32%nat -> height_key h <> hash.
Proof. intros Hh Hl He. pose proof (height_key_length h Hh). rewrite He in *. lia. Qed.

Lemma current_height_not_hash (hash : Hash) :
  length hash = 32%nat -> string_bytes "current_height" <> hash.
Proof. intros Hl <-. discriminate Hl. Qed.

Lemma current_height_not_key h : string_bytes "current_height" <> height_key h.
Proof. intros He. apply string_bytes_inj in He. discriminate He. Qed.

(** * Storing and removing blocks *)

Section Store.
  Context `{HL : HashLaws, TicketCodec, C : StoreCodec, !StoreCodecLaws _ C}.

Lemma block_hash_length {E} b h : block_hash (E := E) b = Ok h -> length h = 32%nat.
Proof.
  unfold block_hash. destruct (bincode_block b) as [d|]; [|done]. intros [= <-].
  apply blake3_out.
Qed.

(** What [put_block] does to the store when it succeeds. *)
Lemma put_block_ok b s s' :
  put_block b s = (s', Ok tt) ->
  exists h d v, block_hash (E := CE.ConsensusError) b = Ok h /\ bincode_block b = Some d /\
    bincode_hash h = Some v /\
    db s' = <[height_key (block_height b) := v]> (<[h := d]> (db s)) /\
    current_height s' = current_height s /\ state_tip s' = state_tip s.
Proof.
  unfold put_block, put_block_hash. intros Hp.
  apply stM_bind_ok in Hp as (s1 & h & [= <- Hh] & Hp).
  apply stM_bind_ok in Hp as (s2 & d & [= <- Hd] & Hp).
  apply stM_bind_ok in Hp as (s3 & [] & [= <-] & Hp).
  apply stM_bind_ok in Hp as (s4 & v & [= <- Hv] & [= <-]).
  destruct (bincode_block b) as [d'|] eqn:Hb; [|done]. injection Hd as ->.
  destruct (bincode_hash h) as [v'|] eqn:Hvv; [|done]. injection Hv as ->.
  exists h, d, v. done.
Qed.

Lemma get_block_hash_put b s s' hash h :
  put_block b s = (s', Ok tt) -> block_hash (E := CE.ConsensusError) b = Ok hash ->
  is_u64 (block_height b) -> is_u64 h ->
  get_block_hash s' h =
  if bool_decide (h = block_height b) then Ok (Some hash) else get_block_hash s h.
Proof.
  intros Hp Hbh Hb Hh. apply put_block_ok in Hp as (hash' & d & v & Hhash & Hd & Hv & Hdb & _).
  replace hash' with hash in * by congruence.
  unfold get_block_hash. rewrite Hdb. case_bool_decide as He.
  - subst h. rewrite lookup_insert_eq. by rewrite (decode_bincode_hash _ _ Hv).
  - rewrite lookup_insert_ne.
    + rewrite lookup_insert_ne; [done|]. apply not_eq_sym, height_key_not_hash; [done|].
      by eapply (block_hash_length (E := CE.ConsensusError)).
    + intros Hk. apply He. symmetry. unfold is_u64 in *. apply height_key_inj; [lia|lia|done].
Qed.

(** Blocks are stored faithfully.  After [put_block] the block is found at its
    height; every other height that does not point to the same block hash finds
    what it found before; and removing the block by hash and by height makes
    its height empty again.  The recorded current height is not touched: a
    stored block never changes what [get_current_block_height] returns. *)
Theorem block_store b s s' hash :
  put_block b s = (s', Ok tt) -> is_u64 (block_height b) ->
  block_hash (E := CE.ConsensusError) b = Ok hash ->
  get_block s' (block_height b) = Ok (Some b) /\
  (forall h, is_u64 h -> h <> block_height b ->
   get_block_hash s h <> Ok (Some hash) -> get_block s' h = get_block s h) /\
  get_current_block_height s' = get_current_block_height s /\
  get_block (remove_block_by_hash hash s') (block_height b) = Ok None.
Proof.
  intros Hput Hb Hhash0.
  pose proof (put_block_ok _ _ _ Hput) as (hash' & d & v & Hhash & Hd & Hv & Hdb & _).
  replace hash' with hash in * by congruence. clear Hhash0.
  assert (Hl : length hash = 32%nat) by by eapply (block_hash_length (E := CE.ConsensusError)).
  split_and!.
  - unfold get_block. rewrite (get_block_hash_put b s s' hash) by done.
    rewrite bool_decide_eq_true_2 by done. cbn. rewrite Hdb.
    rewrite lookup_insert_ne by (by apply height_key_not_hash).
    rewrite lookup_insert_eq, (decode_bincode_block _ _ Hd). done.
  - intros h Hh Hne Hother. unfold get_block. rewrite (get_block_hash_put b s s' hash) by done.
    rewrite bool_decide_eq_false_2 by done.
    unfold get_block_hash in *. destruct (db s !! height_key h) as [w|]; [|done].
    destruct (decode_hash w) as [h'|] eqn:Hw; [|done]. cbn in *.
    rewrite Hdb, lookup_insert_ne, lookup_insert_ne; [done|intros ->; by apply Hother|].
    apply height_key_not_hash; [done|]. by eapply decode_hash_length.
  - unfold get_current_block_height. rewrite Hdb, lookup_insert_ne, lookup_insert_ne; [done| |].
    + apply not_eq_sym. by apply current_height_not_hash.
    + apply not_eq_sym, current_height_not_key.
  - unfold get_block, get_block_hash, remove_block_by_hash.
    change (db _) with (filter (fun e => negb (is_height_entry hash e)) (delete hash (db s'))).
    rewrite (map_lookup_filter_None_2 _ _ (height_key (block_height b))); [done|].
    right. intros w Hw. rewrite lookup_delete_ne in Hw by (by apply not_eq_sym, height_key_not_hash).
    rewrite Hdb, lookup_insert_eq in Hw. injection Hw as <-.
    unfold is_height_entry, starts_with. cbn [fst snd].
    rewrite (decode_bincode_hash _ _ Hv), (bool_decide_eq_true_2 (Some hash = Some hash)) by done.
    rewrite bool_decide_eq_true_2; [by intros []|].
    exists (string_bytes (pretty (Z.to_N (block_height b)))). apply string_bytes_app.
Qed.

End Store.

(** * The coin supply *)

Lemma subsidy_at h interval reward :
  0 <= h -> 0 < interval -> 0 <= reward ->
  get_block_subsidy (E := Empty_set) h interval reward =
  Ok (if h / interval <? 64 then reward / 2 ^ (h / interval) else 0).
Proof.
  intros Hh Hi Hr. unfold get_block_subsidy. destruct (Z.eqb_spec interval 0); [lia|].
  assert (0 <= h / interval) by (apply Z.div_pos; lia).
  destruct (Z.ltb_spec (h / interval) 64); destruct (Z.geb_spec (h / interval) 64); try lia; [|done].
  by rewrite Z.shiftr_div_pow2.
Qed.

(** The coins created by the first [n] blocks. *)
Fixpoint supply (interval reward : Z) (n : nat) : Z :=
  match n with
  | O => 0
  | S n =>
      supply interval reward n +
      match get_block_subsidy (E := Empty_set) (Z.of_nat n) interval reward with
      | Ok v => v
      | _ => 0
      end
  end.

(** The budget left at height [n]: the rest of the current halving period at
    the current reward, and as much again for all later periods. *)
Lemma supply_potential interval reward n :
  0 < interval -> 0 <= reward ->
  0 <= supply interval reward n /\
  supply interval reward n +
    (interval - Z.of_nat n mod interval + interval) * (reward / 2 ^ (Z.of_nat n / interval))
  <= 2 * interval * reward.
Proof.
  intros Hi Hr. induction n as [|n IH].
  - cbn [supply]. change (Z.of_nat 0) with 0. rewrite Z.mod_0_l, Z.div_0_l, Z.pow_0_r, Z.div_1_r by lia.
    nia.
  - cbn [supply]. rewrite subsidy_at by lia. set (m := Z.of_nat n) in *.
    replace (Z.of_nat (S n)) with (m + 1) by lia.
    assert (Hq : 0 <= m / interval) by (apply Z.div_pos; lia).
    assert (Hf : 0 <= reward / 2 ^ (m / interval)) by (apply Z.div_pos; [lia|apply Z.pow_pos_nonneg; lia]).
    set (f := reward / 2 ^ (m / interval)) in *.
    assert (Hs : 0 <= (if m / interval <? 64 then f else 0) <= f) by (destruct (_ <? _); lia).
    set (sub := if m / interval <? 64 then f else 0) in *.
    pose proof (Z.div_mod m interval ltac:(lia)) as Hdm.
    pose proof (Z.mod_pos_bound m interval Hi) as Hmb.
    destruct (Z.eq_dec (m mod interval + 1) interval) as [Hlast|Hin].
    + assert (Hd : (m + 1) / interval = m / interval + 1).
      { symmetry. apply (Z.div_unique _ _ _ 0); lia. }
      assert (Hm : (m + 1) mod interval = 0).
      { symmetry. apply (Z.mod_unique _ _ (m / interval + 1)); lia. }
      rewrite Hd, Hm. rewrite Z.pow_add_r, Z.pow_1_r by lia. rewrite <- Z.div_div
        by (try apply Z.pow_nonzero; lia). fold f.
      assert (2 * (f / 2) <= f) by (apply Z.mul_div_le; lia).
      assert (0 <= f / 2) by (apply Z.div_pos; lia). split; [lia|]. nia.
    + assert (Hd : (m + 1) / interval = m / interval).
      { symmetry. apply (Z.div_unique _ _ _ (m mod interval + 1)); lia. }
      assert (Hm : (m + 1) mod interval = m mod interval + 1).
      { symmetry. apply (Z.mod_unique _ _ (m / interval)); lia. }
      rewrite Hd, Hm. fold f. split; [lia|]. nia.
Qed.

(** C28. The coin supply is capped: however long the chain, block subsidies add up to
    at most twice the initial reward times the halving interval, and after 64
    halvings no block creates coins.  A zero halving interval panics. *)
Theorem supply_capped interval reward n :
  0 < interval -> 0 <= reward ->
  0 <= supply interval reward n <= 2 * interval * reward /\
  (64 * interval <= Z.of_nat n ->
   get_block_subsidy (E := Empty_set) (Z.of_nat n) interval reward = Ok 0) /\
  get_block_subsidy (E := Empty_set) (Z.of_nat n) 0 reward = Panic.
Proof.
  intros Hi Hr. destruct (supply_potential interval reward n Hi Hr) as [H0 Hb]. split_and!; [done| |..].
  - assert (Hq : 0 <= Z.of_nat n / interval) by (apply Z.div_pos; lia).
    assert (0 <= reward / 2 ^ (Z.of_nat n / interval))
      by (apply Z.div_pos; [lia|apply Z.pow_pos_nonneg; lia]).
    pose proof (Z.mod_pos_bound (Z.of_nat n) interval Hi). nia.
  - intros Hn. rewrite subsidy_at by lia.
    assert (64 <= Z.of_nat n / interval) by (apply Z.div_le_lower_bound; lia).
    destruct (Z.ltb_spec (Z.of_nat n / interval) 64); [lia|done].
  - done.
Qed.

(** * Witnesses *)

Lemma supply_capped_witness : supply 210000 50000000000 3 <= 2 * 210000 * 50000000000.
Proof. apply supply_capped; lia. Defined.

(** Sample primitives whose block encoding can be inverted: it covers blocks
    without votes and transactions and fails on all others. *)
Definition header_bytes (h : BlockHeader) : bytes :=
  [header_version h; header_height h; timestamp h; difficulty_target h; nonce h;
   len (previous_block_hash h); len (merkle_root h)] ++
  previous_block_hash h ++ merkle_root h ++ state_root h.

Definition header_of_bytes (b : bytes) : option BlockHeader :=
  match b with
  | v :: h :: ts :: dt :: n :: lp :: lm :: rest =>
      Some (mkBlockHeader v h (take (Z.to_nat lp) rest)
        (take (Z.to_nat lm) (drop (Z.to_nat lp) rest))
        (drop (Z.to_nat lm) (drop (Z.to_nat lp) rest)) ts dt n)
  | _ => None
  end.

Lemma header_of_header_bytes h : header_of_bytes (header_bytes h) = Some h.
Proof.
  destruct h as [v h p m s ts dt n]. unfold header_of_bytes, header_bytes, len. cbn [app].
  cbn -[take drop]. rewrite !Nat2Z.id, take_app_length, drop_app_length.
  by rewrite take_app_length, drop_app_length.
Qed.

Definition store_primitives : Primitives := {|
  blake3 := sample_hash 32 1;
  sha1 := sample_hash 20 2;
  sha256 := sample_hash 32 3;
  ripemd160 := sample_hash 20 4;
  DalekPublicKey := bytes;
  DalekSignature := bytes;
  public_key_from_bytes b := Some b;
  signature_from_bytes b := Some b;
  ed25519_verify pk m sig := true;
  bincode_transaction tx := Some [];
  bincode_header h := Some (header_bytes h);
  bincode_block b :=
    match b with mkBlock h [] [] => Some (header_bytes h) | _ => None end;
|}.

#[export] Instance sample_store_codec : StoreCodec := {|
  bincode_hash h := if bool_decide (length h = 32%nat) then Some h else None;
  decode_hash b := if bool_decide (length b = 32%nat) then Some b else None;
  decode_block b := (fun h => mkBlock h [] []) <$> header_of_bytes b;
  bincode_u64 v := Some (to_le_bytes 8 v);
  decode_u64 b := Some (from_le_bytes b);
  decode_u32 b := Some (from_le_bytes b);
  bincode_outpoint o := Some (txid o ++ to_le_bytes 4 (vout o));
  decode_utxo _ := None;
  bincode_utxo_entry _ := None;
  bincode_pool _ := Some [];
  bincode_utxo_set _ := Some [];
  bincode_proposals _ := Some [];
|}.

Lemma store_hash_laws : HashLaws store_primitives.
Proof. split; intros m; (split; [apply to_le_bytes_bytes|apply length_to_le_bytes]). Qed.

Lemma store_codec_laws : StoreCodecLaws store_primitives sample_store_codec.
Proof.
  split.
  - intros h b. cbn. case_bool_decide as Hl; [|done]. intros [= <-]. by rewrite bool_decide_eq_true_2.
  - intros [h [] []] b; cbn; try done. intros [= <-].
    change (header_of_bytes _) with (header_of_bytes (header_bytes h)).
    by rewrite header_of_header_bytes.
  - intros v Hv. cbn [decode_u64 sample_store_codec]. f_equal. apply from_to_le_bytes.
    unfold is_u64, u64_max in Hv. change (256 ^ Z.of_nat 8) with 18446744073709551616. lia.
  - intros h Hl. cbn. rewrite bool_decide_eq_true_2 by done. by eexists.
  - intros b h. cbn. case_bool_decide; [|done]. by intros [= <-].
Qed.

Definition stored_block : Block := mkBlock (mkBlockHeader 1 9 [1] [2] [3] 4 5 6) [] [].

Lemma block_store_witness :
  get_block (fst (put_block (H := store_primitives) stored_block BlockchainState_new)) 9 =
  Ok (Some stored_block).
Proof.
  destruct (block_store (H := store_primitives) (HL := store_hash_laws)
    (StoreCodecLaws0 := store_codec_laws) stored_block BlockchainState_new
    (fst (put_block (H := store_primitives) stored_block BlockchainState_new))
    (blake3 (Primitives := store_primitives) (header_bytes (header stored_block)))) as [Hg _];
    [vm_compute; reflexivity|unfold is_u64, u64_max; cbn; lia|vm_compute; reflexivity|exact Hg].
Defined.
