(* ===== verification/Trie.v ===== *)
(** The Merkle Patricia trie behind state roots
    (src/rusty-core/src/state/merkle_patricia_trie.rs).

    Nodes live in a map from hash to node; a path through the trie follows
    hashes.  The recursive functions carry fuel: every call below an extension
    or a branch drops at least one nibble of the key as long as no extension has
    an empty prefix, so one more than the number of nibbles is enough
    ([insert_no_fuel_error]).  Indexing and slicing out of range panic. *)

From Stdlib Require Import ZArith Lia List String.
From stdpp Require Import base option list numbers strings pretty gmap.
From coqutil Require Import Datatypes.RecordSetters.
From S2P Require Import Prelude Types Errors Transaction SamplePrimitives UtxoSet Masternodes.
From S2P Require Import LiveTickets GovernanceState ChainState.

Import TriangleBracketNotations.
#[local] Arguments constant {E} newValue _ /.
#[local] Open Scope Z_scope.

Inductive TrieNode : Type :=
| Empty
| Leaf (key_end value : bytes)
| Extension (common_prefix : bytes) (next_hash : Hash)
| Branch (children : list (option Hash)) (value : option bytes).

#[export] Instance TrieNode_eq_dec : EqDecision TrieNode.
Proof. solve_decision. Defined.

Record MerklePatriciaTrie : Type := mkTrie {
  trie_root_hash : Hash;
  nodes : gmap Hash TrieNode;
  root_node : option TrieNode;
}.

Record TicketData : Type := mkTicketData {
  td_owner : bytes;
  td_value : Z;
  td_expiration_height : Z;
  td_creation_height : Z;
}.

Record MerkleProof : Type := mkMerkleProof {
  proof_key : bytes;
  proof_value : option bytes;
  proof_nodes : list TrieNode;
  proof_root_hash : Hash;
}.

(** bincode of nodes and of the values stored in the trie. *)
Class TrieCodec : Type := {
  bincode_node : TrieNode -> option bytes;
  bincode_utxo : Utxo -> option bytes;
  bincode_ticket_data : TicketData -> option bytes;
  bincode_mn_id : MasternodeID -> option bytes;
  bincode_proposal_entry : Proposal * list (Hash * Vote) -> option bytes;
  bincode_votes : list (Hash * Vote) -> option bytes;
}.

Abbreviation trieM := (stM MerklePatriciaTrie CE.ConsensusError).

Definition node_not_found : CE.ConsensusError := CE.TrieError "Node not found".

(** * Nibbles *)

Definition bytes_to_nibbles (b : bytes) : bytes :=
  b ≫= (fun byte => [Z.shiftr byte 4; Z.land byte 0x0F]).

Fixpoint nibbles_to_bytes (nibbles : bytes) : bytes :=
  match nibbles with
  | hi :: lo :: rest => Z.lor (wrap8 (Z.shiftl hi 4)) lo :: nibbles_to_bytes rest
  | [hi] => [wrap8 (Z.shiftl hi 4)]
  | [] => []
  end.

Fixpoint common_prefix (a b : bytes) : bytes :=
  match a, b with
  | x :: a, y :: b => if x =? y then x :: common_prefix a b else []
  | _, _ => []
  end.

(** * Keys *)

Definition encode_utxo_key (o : OutPoint) : bytes :=
  string_bytes "utxo:" ++ txid o ++ to_le_bytes 4 (vout o).
Definition encode_ticket_key (id : TicketId) : bytes := string_bytes "ticket:" ++ id.
Definition encode_masternode_key (k : bytes) : bytes := string_bytes "masternode:" ++ k.
Definition encode_proposal_key (k : bytes) : bytes := string_bytes "proposal:" ++ k.

Section WithCodec.
  Context `{Primitives, TrieCodec}.

(** A node that does not serialize hashes like the empty string. *)
Definition node_hash (n : TrieNode) : Hash := blake3 (default [] (bincode_node n)).

Definition empty_children : list (option Hash) := replicate 16 None.

Definition Trie_new : MerklePatriciaTrie :=
  mkTrie (node_hash Empty) {[ node_hash Empty := Empty ]} (Some Empty).

(** [let h = node.hash(); self.nodes.insert(h, node); h] *)
Definition put_node (n : TrieNode) : trieM Hash :=
  modify (fun t => t <| nodes ::= <[node_hash n := n]> |>);;
  mret (node_hash n).

Definition remove_node (h : Hash) : trieM unit := modify (fun t => t <| nodes ::= delete h |>).

(** [self.nodes.remove(&node_hash); self.nodes.insert(new_hash, new_node)] *)
Definition replace_node (old : Hash) (n : TrieNode) : trieM Hash :=
  remove_node old;;
  put_node n.

Definition find_node (h : Hash) : trieM TrieNode :=
  found ← gets (fun t => nodes t !! h);
  lift (ok_or found node_not_found).

(** * Insertion *)

(** The two leaves below a new branch; [key[1..]] panics on an empty key. *)
Definition split_here (existing_key existing_value new_key new_value : bytes) :
    trieM TrieNode :=
  match existing_key with
  | [] => panic
  | existing_nibble :: existing_remaining =>
      existing_hash ← put_node (Leaf existing_remaining existing_value);
      let children := <[Z.to_nat existing_nibble := Some existing_hash]> empty_children in
      match new_key with
      | [] => panic
      | new_nibble :: new_remaining =>
          new_hash ← put_node (Leaf new_remaining new_value);
          let children := <[Z.to_nat new_nibble := Some new_hash]> children in
          mret (Branch children None)
      end
  end.

(** [split_leaf] calls itself once on the keys behind their common prefix,
    where the prefix is empty. *)
Definition split_leaf (existing_key existing_value new_key new_value : bytes) :
    trieM TrieNode :=
  let prefix := common_prefix existing_key new_key in
  match prefix with
  | [] => split_here existing_key existing_value new_key new_value
  | _ =>
      branch ← split_here (drop (length prefix) existing_key) existing_value
                 (drop (length prefix) new_key) new_value;
      branch_hash ← put_node branch;
      mret (Extension prefix branch_hash)
  end.

(** Splitting an extension gives the extension back: the new key is dropped. *)
Definition split_extension (prefix : bytes) (next_hash : Hash) : TrieNode :=
  Extension prefix next_hash.

Fixpoint insert_recursive (fuel : nat) (node_hash : Hash) (key value : bytes) : trieM Hash :=
  match fuel with
  | O => fun t => (t, OutOfFuel)
  | S fuel =>
      node ← find_node node_hash;
      match node with
      | Empty => put_node (Leaf key value)
      | Leaf existing_key existing_value =>
          if bool_decide (existing_key = key) then replace_node node_hash (Leaf existing_key value)
          else
            new_node ← split_leaf existing_key existing_value key value;
            replace_node node_hash new_node
      | Extension prefix next_hash =>
          let common := common_prefix prefix key in
          if (length common =? length prefix)%nat then
            new_next_hash ← insert_recursive fuel next_hash (drop (length prefix) key) value;
            replace_node node_hash (Extension prefix new_next_hash)
          else replace_node node_hash (split_extension prefix next_hash)
      | Branch children branch_value =>
          match key with
          | [] => replace_node node_hash (Branch children (Some value))
          | nibble :: remaining =>
              child ← lift (unwrap (index children nibble));
              child_hash ← match child with
                           | Some child_hash => insert_recursive fuel child_hash remaining value
                           | None => put_node (Leaf remaining value)
                           end;
              replace_node node_hash
                (Branch (<[Z.to_nat nibble := Some child_hash]> children) branch_value)
          end
      end
  end.

Definition set_root (h : Hash) : trieM unit :=
  modify (fun t => t <| trie_root_hash := h |> <| root_node := nodes t !! h |>).

Definition trie_insert (key value : bytes) : trieM unit :=
  let nibbles := bytes_to_nibbles key in
  root ← gets trie_root_hash;
  new_root ← insert_recursive (S (length nibbles)) root nibbles value;
  set_root new_root.

(** * Lookup *)

Fixpoint get_recursive (fuel : nat) (t : MerklePatriciaTrie) (node_hash : Hash) (key : bytes) :
    outcome CE.ConsensusError (option bytes) :=
  match fuel with
  | O => OutOfFuel
  | S fuel =>
      node ← ok_or (nodes t !! node_hash) node_not_found;
      match node with
      | Empty => mret None
      | Leaf key_end value => mret (if bool_decide (key_end = key) then Some value else None)
      | Extension prefix next_hash =>
          if bool_decide (prefix `prefix_of` key)
          then get_recursive fuel t next_hash (drop (length prefix) key)
          else mret None
      | Branch children value =>
          match key with
          | [] => mret value
          | nibble :: remaining =>
              child ← unwrap (index children nibble);
              match child with
              | Some child_hash => get_recursive fuel t child_hash remaining
              | None => mret None
              end
          end
      end
  end.

Definition trie_get (t : MerklePatriciaTrie) (key : bytes) :
    outcome CE.ConsensusError (option bytes) :=
  let nibbles := bytes_to_nibbles key in
  get_recursive (S (length nibbles)) t (trie_root_hash t) nibbles.

(** * Deletion *)

(** The hash that stands for a removed node. *)
Definition removed_hash : Hash := blake3 [].

Definition child_missing : CE.ConsensusError :=
  CE.StateError "Child node with hash not found during branch simplification".

(** A branch with one child left becomes that child, with [nibble] put in front
    of its key; a child that is itself a branch keeps its own key. *)
Definition simplify_branch (nibble : Z) (children : list (option Hash)) : trieM TrieNode :=
  child_hash ← lift (unwrap (head (omap id children)));
  found ← gets (fun t => nodes t !! child_hash);
  remove_node child_hash;;
  child ← lift (ok_or found child_missing);
  mret (match child with
        | Leaf key_end value => Leaf (nibble :: key_end) value
        | Extension prefix next_hash => Extension (nibble :: prefix) next_hash
        | Branch child_children child_value => Branch child_children child_value
        | Empty => Empty
        end).

Definition count_children (children : list (option Hash)) : nat := length (omap id children).

(** The end of [delete_recursive]: store what the node became and move the root
    to it when something changed.  The root is moved at every level. *)
Definition finish_delete (node_hash0 : Hash) (new_node : option TrieNode) (was_deleted : bool) :
    trieM (Hash * bool) :=
  final_hash ← match new_node with
               | Some n => put_node n
               | None => mret removed_hash
               end;
  (if was_deleted || negb (bool_decide (final_hash = node_hash0))
   then set_root final_hash else mret tt);;
  mret (final_hash, was_deleted).

Fixpoint delete_recursive (fuel : nat) (node_hash0 : Hash) (key : bytes) : trieM (Hash * bool) :=
  match fuel with
  | O => fun t => (t, OutOfFuel)
  | S fuel =>
      node ← find_node node_hash0;
      remove_node node_hash0;;
      match node with
      | Empty => finish_delete node_hash0 (Some Empty) false
      | Leaf key_end value =>
          if bool_decide (key_end = key) then finish_delete node_hash0 None true
          else finish_delete node_hash0 (Some (Leaf key_end value)) false
      | Extension prefix next_hash =>
          if bool_decide (prefix `prefix_of` key) then
            r ← delete_recursive fuel next_hash (drop (length prefix) key);
            let '(new_child_hash, child_deleted) := r in
            if child_deleted : bool then
              finish_delete node_hash0
                (if bool_decide (new_child_hash = removed_hash) then None
                 else Some (Extension prefix new_child_hash)) true
            else finish_delete node_hash0 (Some (Extension prefix next_hash)) false
          else finish_delete node_hash0 (Some (Extension prefix next_hash)) false
      | Branch children value =>
          match key with
          | [] =>
              let was_deleted := bool_decide (is_Some value) in
              match count_children children with
              | 0%nat => finish_delete node_hash0 None was_deleted
              | 1%nat =>
                  n ← simplify_branch 0 children;
                  finish_delete node_hash0 (Some n) was_deleted
              | _ => finish_delete node_hash0 (Some (Branch children None)) was_deleted
              end
          | nibble :: remaining =>
              child ← lift (unwrap (index children nibble));
              match child with
              | None => finish_delete node_hash0 (Some (Branch children value)) false
              | Some child_hash =>
                  r ← delete_recursive fuel child_hash remaining;
                  let '(_, child_deleted) := r in
                  if child_deleted : bool then
                    let children := <[Z.to_nat nibble := None]> children in
                    match count_children children, value with
                    | 0%nat, None => finish_delete node_hash0 None true
                    | 1%nat, None =>
                        n ← simplify_branch nibble children;
                        finish_delete node_hash0 (Some n) true
                    | _, _ => finish_delete node_hash0 (Some (Branch children value)) true
                    end
                  else finish_delete node_hash0 (Some (Branch children value)) false
              end
          end
      end
  end.

Definition trie_delete (key : bytes) : trieM bool :=
  let nibbles := bytes_to_nibbles key in
  root ← gets trie_root_hash;
  r ← delete_recursive (S (length nibbles)) root nibbles;
  let '(new_root, deleted) := r in
  (if deleted : bool then set_root new_root else mret tt);;
  mret deleted.

(** * Proofs *)

Fixpoint collect_proof_nodes (fuel : nat) (t : MerklePatriciaTrie) (node_hash : Hash)
    (key : bytes) : outcome CE.ConsensusError (option bytes * list TrieNode) :=
  match fuel with
  | O => OutOfFuel
  | S fuel =>
      node ← ok_or (nodes t !! node_hash) node_not_found;
      match node with
      | Empty => mret (None, [node])
      | Leaf key_end value =>
          mret (if bool_decide (key_end = key) then Some value else None, [node])
      | Extension prefix next_hash =>
          if bool_decide (prefix `prefix_of` key) then
            r ← collect_proof_nodes fuel t next_hash (drop (length prefix) key);
            mret (r.1, node :: r.2)
          else mret (None, [node])
      | Branch children value =>
          match key with
          | [] => mret (value, [node])
          | nibble :: remaining =>
              child ← unwrap (index children nibble);
              match child with
              | Some child_hash =>
                  r ← collect_proof_nodes fuel t child_hash remaining;
                  mret (r.1, node :: r.2)
              | None => mret (None, [node])
              end
          end
      end
  end.

Definition generate_proof (t : MerklePatriciaTrie) (key : bytes) :
    outcome CE.ConsensusError MerkleProof :=
  let nibbles := bytes_to_nibbles key in
  r ← collect_proof_nodes (S (length nibbles)) t (trie_root_hash t) nibbles;
  mret (mkMerkleProof key r.1 r.2 (trie_root_hash t)).

(** The upward walk of [compute_root_from_proof]: the key is consumed from its
    front while the nodes are visited from the leaf to the root. *)
Fixpoint climb (expected_value : option bytes) (up : list TrieNode) (current_hash : Hash)
    (remaining_key : bytes) : outcome CE.ConsensusError Hash :=
  match up with
  | [] => mret current_hash
  | node :: up =>
      match node with
      | Extension prefix next_hash =>
          if negb (bool_decide (prefix `prefix_of` remaining_key))
          then Err (CE.TrieError "Extension key mismatch")
          else if negb (bool_decide (next_hash = current_hash))
          then Err (CE.TrieError "Extension hash mismatch")
          else climb expected_value up (node_hash node) (drop (length prefix) remaining_key)
      | Branch children value =>
          match remaining_key with
          | [] =>
              if bool_decide (value = None) && bool_decide (is_Some expected_value)
              then Err (CE.TrieError "Branch value mismatch")
              else climb expected_value up (node_hash node) []
          | nibble :: rest =>
              child ← unwrap (index children nibble);
              if bool_decide (child <> Some current_hash)
              then Err (CE.TrieError "Branch child mismatch")
              else climb expected_value up (node_hash node) rest
          end
      | _ => Err (CE.TrieError "Unexpected node type in proof")
      end
  end.

Definition compute_root_from_proof (key : bytes) (expected_value : option bytes)
    (proof_nodes : list TrieNode) : outcome CE.ConsensusError Hash :=
  match reverse proof_nodes with
  | [] => Err (CE.TrieError "Empty proof")
  | last :: up =>
      _ ← match last with
          | Leaf key_end value =>
              if bool_decide (key_end <> key) then Err (CE.TrieError "Key mismatch in leaf")
              else if bool_decide (expected_value <> Some value)
              then Err (CE.TrieError "Value mismatch in leaf")
              else mret tt
          | _ => mret tt
          end;
      climb expected_value up (node_hash last) key
  end.

Definition verify_proof (proof : MerkleProof) (expected_value : option bytes) :
    outcome CE.ConsensusError bool :=
  let nibbles := bytes_to_nibbles (proof_key proof) in
  computed_root ← compute_root_from_proof nibbles expected_value (proof_nodes proof);
  mret (bool_decide (computed_root = proof_root_hash proof) &&
        bool_decide (proof_value proof = expected_value)).

Fixpoint verify_all (proofs : list MerkleProof) (expected : list (option bytes)) :
    outcome CE.ConsensusError bool :=
  match proofs, expected with
  | p :: proofs, e :: expected =>
      ok ← verify_proof p e;
      if negb ok then mret false else verify_all proofs expected
  | _, _ => mret true
  end.

(** The proofs of a [BatchMerkleProof]; its shared nodes are not looked at. *)
Definition verify_batch_proof (proofs : list MerkleProof) (expected_values : list (option bytes)) :
    outcome CE.ConsensusError bool :=
  if negb (len proofs =? len expected_values) then mret false
  else verify_all proofs expected_values.

(** * The trie of a state *)

Fixpoint insert_all (entries : list (bytes * option bytes)) : trieM unit :=
  match entries with
  | [] => mret tt
  | (key, value) :: entries =>
      value ← lift (ok_or value CE.bincode_failure);
      trie_insert key value;;
      insert_all entries
  end.

(** The maps are given as lists in their iteration order. *)
Definition from_state_data (utxo_set : list (OutPoint * Utxo))
    (live_tickets : list (TicketId * TicketData))
    (masternode_list active_proposals : list (bytes * bytes)) :
    outcome CE.ConsensusError MerklePatriciaTrie :=
  let '(t, r) :=
    (insert_all ((fun '(o, u) => (encode_utxo_key o, bincode_utxo u)) <$> utxo_set);;
     insert_all ((fun '(i, d) => (encode_ticket_key i, bincode_ticket_data d)) <$> live_tickets);;
     insert_all ((fun '(k, v) => (encode_masternode_key k, Some v)) <$> masternode_list);;
     insert_all ((fun '(k, v) => (encode_proposal_key k, Some v)) <$> active_proposals)) Trie_new in
  _ ← r;
  mret t.

End WithCodec.

(** * State roots *)

Definition hex_digit (n : Z) : Ascii.ascii :=
  Ascii.ascii_of_N (Z.to_N (if n <? 10 then 48 + n else 87 + n)).

(** [hex::encode] *)
Fixpoint hex_encode (b : bytes) : string :=
  match b with
  | [] => EmptyString
  | x :: b => String (hex_digit (Z.shiftr x 4)) (String (hex_digit (Z.land x 0x0F)) (hex_encode b))
  end.

Section StateRoot.
  Context `{Primitives, TrieCodec}.

Definition ticket_entry (e : TicketId * Ticket) : TicketId * TicketData :=
  (e.1, mkTicketData (ticket_pubkey e.2) (ticket_value e.2) (ticket_height e.2) (ticket_height e.2)).

(** Masternodes are keyed by their position in the iteration of the list. *)
Definition masternode_entry (i : nat) (e : MasternodeID * MasternodeEntry) : bytes * bytes :=
  (string_bytes ("mn_" +:+ pretty i), default [] (bincode_mn_id e.1)).

Definition proposal_entry (e : Hash * (Proposal * Votes)) : bytes * bytes :=
  (string_bytes ("prop_" +:+ hex_encode e.1),
   default [] (bincode_proposal_entry (e.2.1, map_to_list e.2.2)) ++
   default [] (bincode_votes (map_to_list e.2.2))).

(** [calculate_state_root_from_masternode_list]; [map_to_list] stands for the
    iteration orders of the maps. *)
Definition calculate_state_root (utxo_set : UtxoSet) (live_tickets : LiveTicketsPool)
    (masternode_list : MasternodeList) (active_proposals : ActiveProposals) :
    outcome CE.ConsensusError Hash :=
  t ← from_state_data (map_to_list utxo_set) (ticket_entry <$> map_to_list live_tickets)
        (imap masternode_entry (map_to_list masternode_list))
        (proposal_entry <$> map_to_list active_proposals);
  mret (trie_root_hash t).

End StateRoot.

(** * Common prefixes *)

Lemma common_prefix_cons x y a b :
  common_prefix (x :: a) (y :: b) = if x =? y then x :: common_prefix a b else [].
Proof. done. Qed.

Lemma common_prefix_app p a b : common_prefix (p ++ a) (p ++ b) = p ++ common_prefix a b.
Proof. induction p as [|x p IH]; [done|]. cbn. by rewrite Z.eqb_refl, IH. Qed.

Lemma common_prefix_spec a b :
  exists a' b', a = common_prefix a b ++ a' /\ b = common_prefix a b ++ b' /\
    match a', b' with x :: _, y :: _ => x <> y | _, _ => True end.
Proof.
  revert b. induction a as [|x a IH]; intros b; [by exists [], b|].
  destruct b as [|y b]; [by exists (x :: a), []|]. cbn.
  destruct (Z.eqb_spec x y) as [->|Hne]; cbn; [|by exists (x :: a), (y :: b)].
  destruct (IH b) as (a' & b' & Ha & Hb & Hm). exists a', b'. by rewrite <- Ha, <- Hb.
Qed.

Lemma common_prefix_full p k :
  length (common_prefix p k) = length p -> common_prefix p k = p /\ k = p ++ drop (length p) k.
Proof.
  intros Hl. destruct (common_prefix_spec p k) as (p' & k' & Hp & Hk & _).
  assert (p' = []) as ->.
  { destruct p'; [done|]. apply (f_equal length) in Hp. rewrite length_app in Hp. cbn in Hp. lia. }
  rewrite app_nil_r in Hp. split; [done|]. rewrite Hk at 1. rewrite <- Hp at 1.
  f_equal. rewrite Hk, <- Hp at 1. by rewrite drop_app_length.
Qed.

Lemma length_common_prefix_le a b : (length (common_prefix a b) <= length a)%nat.
Proof.
  destruct (common_prefix_spec a b) as (a' & b' & Ha & _). rewrite Ha at 2.
  rewrite length_app. lia.
Qed.

(** Different keys of the same length part before either ends. *)
Lemma common_prefix_parts a b :
  length a = length b -> a <> b ->
  exists x y a' b', drop (length (common_prefix a b)) a = x :: a' /\
    drop (length (common_prefix a b)) b = y :: b' /\ x <> y.
Proof.
  intros Hl Hne. destruct (common_prefix_spec a b) as (a' & b' & Ha & Hb & Hm).
  set (p := common_prefix a b) in *. clearbody p.
  assert (Hda : drop (length p) a = a') by (rewrite Ha; apply drop_app_length).
  assert (Hdb : drop (length p) b = b') by (rewrite Hb; apply drop_app_length).
  rewrite Hda, Hdb. subst a b. rewrite !length_app in Hl.
  destruct a' as [|x a'].
  { destruct b' as [|y b']; [by destruct Hne|cbn in Hl; lia]. }
  destruct b' as [|y b']; [cbn in Hl; lia|]. by exists x, y, a', b'.
Qed.

Lemma bytes_to_nibbles_app a b :
  bytes_to_nibbles (a ++ b) = bytes_to_nibbles a ++ bytes_to_nibbles b.
Proof. apply bind_app. Qed.

Lemma length_bytes_to_nibbles a : length (bytes_to_nibbles a) = (2 * length a)%nat.
Proof.
  induction a as [|x a IH]; [done|].
  change (bytes_to_nibbles (x :: a)) with (Z.shiftr x 4 :: Z.land x 0x0F :: bytes_to_nibbles a).
  cbn [length]. rewrite IH. lia.
Qed.

Lemma bytes_to_nibbles_inj a b : bytes_to_nibbles a = bytes_to_nibbles b -> a = b.
Proof.
  revert b. induction a as [|x a IH]; intros [|y b]; cbn; try done.
  intros [= Hhi Hlo Hr]. f_equal; [|by apply IH]. clear IH Hr.
  rewrite (Z.div_mod x 16), (Z.div_mod y 16) by lia.
  rewrite !Z.shiftr_div_pow2 in Hhi by lia. change (2 ^ 4) with 16 in Hhi.
  change 15 with (Z.ones 4) in Hlo. rewrite !Z.land_ones in Hlo by lia.
  change (2 ^ 4) with 16 in Hlo. lia.
Qed.

(** * Invariant of the node store *)

Section Store.
  Context `{Primitives, TrieCodec}.

Definition node_ok (n : TrieNode) : Prop :=
  match n with Extension prefix _ => prefix <> [] | _ => True end.

(** Every node is stored under its own hash, and no extension is empty. *)
Definition trie_wf (t : MerklePatriciaTrie) : Prop :=
  map_Forall (fun h n => node_hash n = h /\ node_ok n) (nodes t).

(** A computation that keeps the invariant, whatever its outcome, and whose
    result satisfies [Q]. *)
Definition keeps {A} (m : trieM A) (Q : A -> Prop) : Prop :=
  forall t, trie_wf t -> trie_wf (fst (m t)) /\ forall a, snd (m t) = Ok a -> Q a.

Lemma keeps_bind {A B} (m : trieM A) (f : A -> trieM B) P Q :
  keeps m P -> (forall a, P a -> keeps (f a) Q) -> keeps (m ≫= f) Q.
Proof.
  intros Hm Hf t Ht. rewrite stM_bind_run. destruct (Hm t Ht) as [Hw HP].
  destruct (m t) as [t1 [a|e| |]]; cbn in *; [|by split..]. apply (Hf a); auto.
Qed.

Lemma keeps_id {A} (o : outcome CE.ConsensusError A) (Q : A -> Prop) :
  (forall a, o = Ok a -> Q a) -> keeps (lift o) Q.
Proof. intros HQ t Ht. by split. Qed.

Lemma keeps_ret {A} (a : A) (Q : A -> Prop) : Q a -> keeps (mret a) Q.
Proof. intros HQ t Ht. split; [done|]. by intros b [= <-]. Qed.

Lemma keeps_gets {A} (f : MerklePatriciaTrie -> A) : keeps (gets f) (fun _ => True).
Proof. by intros t Ht. Qed.

Lemma keeps_panic {A} (Q : A -> Prop) : keeps panic Q.
Proof. intros t Ht. by split. Qed.

Lemma keeps_put_node n : node_ok n -> keeps (put_node n) (fun h => h = node_hash n).
Proof.
  intros Hn t Ht. split; [|by intros h [= <-]]. cbn. by apply map_Forall_insert_2.
Qed.

Lemma keeps_remove_node h : keeps (remove_node h) (fun _ => True).
Proof. intros t Ht. split; [|done]. by apply map_Forall_delete. Qed.

Lemma keeps_replace_node h n : node_ok n -> keeps (replace_node h n) (fun h => h = node_hash n).
Proof.
  intros Hn. eapply keeps_bind; [apply keeps_remove_node|]. intros _ _. by apply keeps_put_node.
Qed.

Lemma keeps_find_node h : keeps (find_node h) node_ok.
Proof.
  intros t Ht. unfold find_node. rewrite stM_bind_run. cbn. split; [done|].
  destruct (nodes t !! h) as [n|] eqn:Hn; cbn; [|done]. intros a [= <-]. by apply (Ht h n).
Qed.

Lemma keeps_split_here a v b w : keeps (split_here a v b w) node_ok.
Proof.
  unfold split_here. destruct a as [|x a]; [apply keeps_panic|].
  eapply keeps_bind; [by apply keeps_put_node|]. intros h _.
  destruct b as [|y b]; [apply keeps_panic|].
  eapply keeps_bind; [by apply keeps_put_node|]. intros h' _. by apply keeps_ret.
Qed.

Lemma keeps_split_leaf a v b w : keeps (split_leaf a v b w) node_ok.
Proof.
  unfold split_leaf. destruct (common_prefix a b) as [|x p] eqn:Hp; [apply keeps_split_here|].
  eapply keeps_bind; [apply keeps_split_here|]. intros n Hn.
  eapply keeps_bind; [by apply keeps_put_node|]. intros h _. by apply keeps_ret.
Qed.

Lemma keeps_insert fuel h key value : keeps (insert_recursive fuel h key value) (fun _ => True).
Proof.
  revert h key. induction fuel as [|fuel IH]; intros h key; [by intros t Ht|].
  cbn [insert_recursive]. eapply keeps_bind; [apply keeps_find_node|].
  assert (Hweak : forall A (m : trieM A) Q, keeps m Q -> keeps m (fun _ => True)).
  { intros A m Q Hm t Ht. split; [apply (Hm t Ht)|done]. }
  intros [|k v|p nh|cs v] Hok.
  - eapply Hweak. by apply keeps_put_node.
  - case_bool_decide; [eapply Hweak; by apply keeps_replace_node|].
    eapply keeps_bind; [apply keeps_split_leaf|]. intros n Hn.
    eapply Hweak. by apply keeps_replace_node.
  - destruct (_ =? _)%nat; [|eapply Hweak; by apply keeps_replace_node].
    eapply keeps_bind; [apply IH|]. intros h' _. eapply Hweak. by apply keeps_replace_node.
  - destruct key as [|x key]; [eapply Hweak; by apply keeps_replace_node|].
    eapply keeps_bind; [by apply (keeps_id _ (fun _ => True))|]. intros [c|] _;
      (eapply keeps_bind; [first [apply IH|eapply Hweak; by apply keeps_put_node]|]);
      intros h' _; eapply Hweak; by apply keeps_replace_node.
Qed.

Lemma trie_wf_new : trie_wf Trie_new.
Proof. by apply map_Forall_singleton. Qed.

Lemma trie_wf_insert key value t : trie_wf t -> trie_wf (fst (trie_insert key value t)).
Proof.
  intros Ht. unfold trie_insert. rewrite stM_bind_run. cbn [gets]. rewrite stM_bind_run.
  pose proof (keeps_insert (S (length (bytes_to_nibbles key))) (trie_root_hash t)
    (bytes_to_nibbles key) value t Ht) as [Hw _].
  by destruct (insert_recursive _ _ _ _ t) as [t1 []].
Qed.

(** Insertion never runs out of fuel. *)
Lemma insert_no_fuel_error fuel h key value t :
  trie_wf t -> (length key < fuel)%nat -> snd (insert_recursive fuel h key value t) <> OutOfFuel.
Proof.
  revert h key t. induction fuel as [|fuel IH]; intros h key t Ht Hf; [lia|].
  cbn [insert_recursive]. rewrite stM_bind_run. unfold find_node. rewrite stM_bind_run. cbn [gets lift].
  destruct (nodes t !! h) as [n|] eqn:Hn; cbn [ok_or]; [|done].
  destruct (Ht _ _ Hn) as [_ Hok]. destruct n as [|k v|p nh|cs v].
  - done.
  - case_bool_decide; [done|]. rewrite stM_bind_run. unfold split_leaf, split_here.
    destruct (common_prefix k key) as [|z l]; [by destruct k, key|]. rewrite stM_bind_run.
    by destruct (drop (length (z :: l)) k), (drop (length (z :: l)) key).
  - destruct (Nat.eqb_spec (length (common_prefix p key)) (length p)) as [Hc|Hc]; [|done].
    rewrite stM_bind_run. destruct (common_prefix_full p key Hc) as [_ Hk].
    assert (Hd : (length (drop (length p) key) < fuel)%nat).
    { rewrite length_drop. destruct p; [done|]. cbn in *.
      apply (f_equal length) in Hk. cbn in Hk. lia. }
    specialize (IH nh (drop (length p) key) t Ht Hd).
    by destruct (insert_recursive _ _ _ _ t) as [t1 []].
  - destruct key as [|x key]; [done|]. rewrite stM_bind_run. cbn [lift].
    destruct (index cs x) as [[c|]|]; cbn [unwrap]; [|done..]. rewrite stM_bind_run.
    cbn in Hf. specialize (IH c key t Ht ltac:(lia)).
    by destruct (insert_recursive _ _ _ _ t) as [t1 []].
Qed.

(** * What a state root commits to *)

(** The root is an extension with prefix [p]. *)
Definition rooted (p : bytes) (t : MerklePatriciaTrie) : Prop :=
  exists next_hash, nodes t !! trie_root_hash t = Some (Extension p next_hash).

Lemma replace_node_run old n t :
  replace_node old n t =
  (t <| nodes := <[node_hash n := n]> (delete old (nodes t)) |>, Ok (node_hash n)).
Proof. by destruct t. Qed.

Lemma put_node_run n r ns rn :
  put_node n (mkTrie r ns rn) = (mkTrie r (<[node_hash n := n]> ns) rn, Ok (node_hash n)).
Proof. done. Qed.

Lemma set_root_run h r ns rn : set_root h (mkTrie r ns rn) = (mkTrie h ns (ns !! h), Ok tt).
Proof. done. Qed.

(** Below a root extension, a key with a different start changes nothing. *)
Lemma insert_ignored p key value t :
  trie_wf t -> rooted p t -> length (common_prefix p (bytes_to_nibbles key)) <> length p ->
  trie_insert key value t = (t <| root_node := nodes t !! trie_root_hash t |>, Ok tt).
Proof.
  intros Ht [nh Hr] Hc. unfold trie_insert. rewrite stM_bind_run. cbn [gets]. rewrite stM_bind_run.
  cbn [insert_recursive]. rewrite stM_bind_run. unfold find_node. rewrite stM_bind_run.
  cbn [gets lift]. rewrite Hr. cbn [ok_or].
  destruct (Nat.eqb_spec (length (common_prefix p (bytes_to_nibbles key))) (length p)); [done|].
  unfold split_extension. rewrite replace_node_run. destruct (Ht _ _ Hr) as [-> _].
  rewrite insert_delete_eq, insert_id by done. unfold set_root, modify.
  rewrite <- Hr. by destruct t.
Qed.

Lemma insert_rooted p key value t t' :
  rooted p t -> trie_insert key value t = (t', Ok tt) -> rooted p t'.
Proof.
  intros [nh Hr]. unfold trie_insert. rewrite stM_bind_run. cbn [gets]. rewrite stM_bind_run.
  cbn [insert_recursive]. rewrite stM_bind_run. unfold find_node. rewrite stM_bind_run.
  cbn [gets lift]. rewrite Hr. cbn [ok_or].
  destruct (_ =? _)%nat.
  - rewrite stM_bind_run. destruct (insert_recursive _ _ _ _ t) as [t1 [h1|e| |]]; try done.
    rewrite replace_node_run. intros [= <-]. exists h1. cbn. by rewrite lookup_insert_eq.
  - rewrite replace_node_run. intros [= <-]. exists nh. cbn. by rewrite lookup_insert_eq.
Qed.

Lemma insert_all_app l1 l2 t : insert_all (l1 ++ l2) t = (insert_all l1;; insert_all l2) t.
Proof.
  revert t. induction l1 as [|[k [v|]] l1 IH]; intros t; [done| |done]. cbn [insert_all app].
  rewrite !stM_bind_run. cbn [lift ok_or]. rewrite !stM_bind_run.
  destruct (trie_insert k v t) as [t1 [[]|e| |]]; [apply IH|done..].
Qed.

Lemma insert_all_wf l t t' :
  trie_wf t -> insert_all l t = (t', Ok tt) -> trie_wf t'.
Proof.
  revert t. induction l as [|[k v] l IH]; intros t Ht; [by intros [= <-]|]. cbn [insert_all].
  intros (t1 & w & [= <- _] & Hi)%stM_bind_ok. apply stM_bind_ok in Hi as (t2 & [] & Hi & Hr).
  pose proof (trie_wf_insert k w t Ht) as Hw. rewrite Hi in Hw. by apply (IH t2).
Qed.

Lemma insert_all_rooted p l t t' :
  rooted p t -> insert_all l t = (t', Ok tt) -> rooted p t'.
Proof.
  revert t. induction l as [|[k v] l IH]; intros t Ht; [by intros [= <-]|]. cbn [insert_all].
  intros (t1 & w & [= <- _] & Hi)%stM_bind_ok. apply stM_bind_ok in Hi as (t2 & [] & Hi & Hr).
  apply (IH t2); [|done]. by eapply insert_rooted.
Qed.

Lemma insert_all_ignored p l t :
  trie_wf t -> rooted p t ->
  Forall (fun e => is_Some e.2 /\ length (common_prefix p (bytes_to_nibbles e.1)) <> length p) l ->
  exists t', insert_all l t = (t', Ok tt) /\ trie_root_hash t' = trie_root_hash t.
Proof.
  intros Ht Hr Hl. revert t Ht Hr. induction Hl as [|[k v] l [[w Hv] Hc] _ IH]; intros t Ht Hr.
  { by exists t. }
  cbn in Hv, Hc. subst v. cbn [insert_all]. rewrite stM_bind_run. cbn [lift ok_or].
  rewrite stM_bind_run, (insert_ignored p) by done.
  destruct (IH (t <| root_node := nodes t !! trie_root_hash t |>)) as (t' & -> & Hroot).
  - exact Ht.
  - exact Hr.
  - by exists t'.
Qed.

Lemma first_insert k v :
  trie_insert k v Trie_new =
  (mkTrie (node_hash (Leaf (bytes_to_nibbles k) v))
     (<[node_hash (Leaf (bytes_to_nibbles k) v) := Leaf (bytes_to_nibbles k) v]> (nodes Trie_new))
     (Some (Leaf (bytes_to_nibbles k) v)), Ok tt).
Proof.
  unfold trie_insert. rewrite stM_bind_run. cbn [gets]. rewrite stM_bind_run.
  cbn [insert_recursive]. rewrite stM_bind_run. unfold find_node. rewrite stM_bind_run.
  cbn [gets lift].
  rewrite (lookup_singleton_eq (node_hash Empty) Empty : nodes Trie_new !! trie_root_hash Trie_new = _).
  cbn [ok_or]. unfold Trie_new. rewrite put_node_run, set_root_run. by rewrite lookup_insert_eq.
Qed.

Lemma from_state_data_wf utxos tickets mns props t :
  from_state_data utxos tickets mns props = Ok t -> trie_wf t.
Proof.
  unfold from_state_data. destruct ((insert_all _;; insert_all _;; insert_all _;; insert_all _) Trie_new)
    as [t0 r] eqn:Hr. destruct r as [[]|e| |]; [|done..]. rewrite outcome_bind_ok. intros [= <-].
  apply stM_bind_ok in Hr as (t1 & [] & H1 & Hr). apply stM_bind_ok in Hr as (t2 & [] & H2 & Hr).
  apply stM_bind_ok in Hr as (t3 & [] & H3 & H4).
  repeat (eapply insert_all_wf; [|eassumption]). apply trie_wf_new.
Qed.

(** The first two keys fix the root. *)
Lemma first_two_rooted k1 v1 k2 v2 t :
  length k1 = length k2 -> k1 <> k2 ->
  common_prefix (bytes_to_nibbles k1) (bytes_to_nibbles k2) <> [] ->
  insert_all [(k1, Some v1); (k2, Some v2)] Trie_new = (t, Ok tt) ->
  rooted (common_prefix (bytes_to_nibbles k1) (bytes_to_nibbles k2)) t.
Proof.
  intros Hl Hne Hp. cbn [insert_all].
  set (n1 := bytes_to_nibbles k1) in *. set (n2 := bytes_to_nibbles k2) in *.
  assert (Hn : n1 <> n2) by (intros He; by apply Hne, bytes_to_nibbles_inj).
  assert (Hln : length n1 = length n2) by (unfold n1, n2; rewrite !length_bytes_to_nibbles; lia).
  rewrite stM_bind_run. cbn [lift ok_or]. rewrite stM_bind_run.
  rewrite first_insert. fold n1. set (t1 := mkTrie _ _ _). rewrite stM_bind_run. cbn [lift ok_or].
  rewrite stM_bind_run. unfold trie_insert at 1. fold n2. rewrite stM_bind_run. cbn [gets].
  rewrite stM_bind_run. cbn [insert_recursive]. rewrite stM_bind_run. unfold find_node.
  rewrite stM_bind_run. cbn [gets lift]. unfold t1 at 2. cbn [nodes trie_root_hash].
  rewrite lookup_insert_eq. cbn [ok_or]. rewrite bool_decide_eq_false_2 by done.
  rewrite stM_bind_run. unfold split_leaf.
  destruct (common_prefix_parts n1 n2 Hln Hn) as (x & y & a & b & Ha & Hb & _).
  destruct (common_prefix n1 n2) as [|z p] eqn:Hcp; [done|]. rewrite Ha, Hb.
  rewrite stM_bind_run. unfold split_here, t1. rewrite stM_bind_run, put_node_run.
  rewrite stM_bind_run, put_node_run. cbn [mret stM_ret]. rewrite stM_bind_run, put_node_run.
  cbn [mret stM_ret]. rewrite replace_node_run.
  match goal with |- context [set_root ?h ?t] =>
    change (set_root h t) with (t <| trie_root_hash := h |> <| root_node := nodes t !! h |>, 
      @Ok CE.ConsensusError unit tt) end.
  intros [= <-]. eexists. cbn -[node_hash]. by rewrite lookup_insert_eq.
Qed.

(** Two unspent outputs are enough to shut everything else out of the state
    root: the root of a state with two or more outputs is the same whatever its
    tickets, masternodes and proposals are, because the trie drops every key
    that would split its root extension. *)
Theorem state_root_ignores_the_rest o1 u1 o2 u2 utxos t :
  length (txid o1) = 32%nat -> length (txid o2) = 32%nat ->
  encode_utxo_key o1 <> encode_utxo_key o2 ->
  from_state_data ((o1, u1) :: (o2, u2) :: utxos) [] [] [] = Ok t ->
  forall tickets masternodes proposals,
  Forall (fun e => is_Some (bincode_ticket_data e.2)) tickets ->
  exists t', from_state_data ((o1, u1) :: (o2, u2) :: utxos) tickets masternodes proposals = Ok t' /\
    trie_root_hash t' = trie_root_hash t.
Proof.
  intros Hl1 Hl2 Hne Hbase tickets mns props Htk.
  set (us := (fun '(o, u) => (encode_utxo_key o, bincode_utxo u)) <$> (o1, u1) :: (o2, u2) :: utxos).
  assert (Hu : insert_all us Trie_new = (t, Ok tt)).
  { unfold from_state_data in Hbase. fold us in Hbase. rewrite stM_bind_run in Hbase.
    destruct (insert_all us Trie_new) as [t0 [[]|e| |]]; [|done..].
    cbn [fmap list_fmap insert_all] in Hbase. rewrite !stM_bind_run in Hbase.
    by injection Hbase as ->. }
  assert (Hw : trie_wf t) by (eapply insert_all_wf; [apply trie_wf_new|exact Hu]).
  set (n1 := bytes_to_nibbles (encode_utxo_key o1)).
  set (n2 := bytes_to_nibbles (encode_utxo_key o2)).
  set (q := bytes_to_nibbles (string_bytes "utxo:")).
  assert (Hcp : exists r, common_prefix n1 n2 = q ++ r).
  { unfold n1, n2, encode_utxo_key. rewrite !bytes_to_nibbles_app, common_prefix_app. by eexists. }
  destruct Hcp as [r Hcp].
  assert (Hroot : rooted (q ++ r) t).
  { rewrite <- Hcp. unfold us in Hu. cbn [fmap list_fmap] in Hu.
    change (?a :: ?b :: ?c) with ([a; b] ++ c) in Hu. rewrite insert_all_app in Hu.
    apply stM_bind_ok in Hu as (t2 & [] & H2 & Hrest).
    eapply insert_all_rooted; [|exact Hrest].
    cbn [insert_all] in H2. apply stM_bind_ok in H2 as (? & v1 & [= <- Hv1] & H2).
    destruct (bincode_utxo u1) as [v1'|] eqn:Hb1; [|done]. injection Hv1 as ->.
    apply stM_bind_ok in H2 as (t1 & [] & H1 & H2).
    apply stM_bind_ok in H2 as (? & v2 & [= <- Hv2] & H2).
    destruct (bincode_utxo u2) as [v2'|] eqn:Hb2; [|done]. injection Hv2 as ->.
    apply (first_two_rooted _ v1 _ v2); [|done|by fold n1 n2; rewrite Hcp|].
    - unfold encode_utxo_key. rewrite !length_app, Hl1, Hl2, !length_to_le_bytes. done.
    - cbn [insert_all]. rewrite stM_bind_run. cbn [lift ok_or]. rewrite stM_bind_run, H1.
      rewrite stM_bind_run. cbn [lift ok_or]. exact H2. }
  assert (Hskip : forall k x y rest, bytes_to_nibbles k = x :: y :: rest -> (x, y) <> (7, 5) ->
    length (common_prefix (q ++ r) (bytes_to_nibbles k)) <> length (q ++ r)).
  { intros k x y rest Hk Hxy Heq. apply common_prefix_full in Heq as [_ Heq].
    rewrite Hk, <- app_assoc in Heq. apply Hxy. by injection Heq as -> ->. }
  set (tk := (fun '(i, d) => (encode_ticket_key i, bincode_ticket_data d)) <$> tickets).
  set (mn := (fun '(k, v) => (encode_masternode_key k, Some v)) <$> mns).
  set (pr := (fun '(k, v) => (encode_proposal_key k, Some v)) <$> props).
  destruct (insert_all_ignored (q ++ r) (tk ++ mn ++ pr) t Hw Hroot) as (t' & Ht' & Hrh).
  { rewrite !Forall_app. split_and!.
    - unfold tk. apply Forall_fmap. apply (Forall_impl _ _ _ Htk). intros [i d] Hs. split; [done|].
      by eapply Hskip.
    - unfold mn. apply Forall_fmap, Forall_true. intros [k v]. split; [by eexists|]. by eapply Hskip.
    - unfold pr. apply Forall_fmap, Forall_true. intros [k v]. split; [by eexists|]. by eapply Hskip. }
  exists t'. split; [|done]. unfold from_state_data. fold us tk mn pr.
  rewrite stM_bind_run, Hu. rewrite insert_all_app in Ht'.
  apply stM_bind_ok in Ht' as (ta & [] & Ha & Hb). rewrite insert_all_app in Hb.
  apply stM_bind_ok in Hb as (tb & [] & Hb & Hc).
  by rewrite stM_bind_run, Ha, stM_bind_run, Hb, Hc.
Qed.

(** * Keys that are prefixes of one another *)

Lemma split_here_panic a v b w t : a = [] \/ b = [] -> snd (split_here a v b w t) = Panic.
Proof.
  intros [->| ->]; [done|]. destruct a as [|x a]; [done|]. unfold split_here.
  by rewrite stM_bind_run.
Qed.

(** The trie cannot hold two keys one of which starts with the other: inserting
    the second one panics, in either order. *)
Theorem prefix_keys_panic k1 k2 v1 v2 :
  k1 <> k2 -> (k1 `prefix_of` k2 \/ k2 `prefix_of` k1) ->
  snd ((trie_insert k1 v1;; trie_insert k2 v2) Trie_new) = Panic.
Proof.
  intros Hne Hp. set (n1 := bytes_to_nibbles k1). set (n2 := bytes_to_nibbles k2).
  assert (Hn : n1 <> n2) by (intros He; by apply Hne, bytes_to_nibbles_inj).
  rewrite stM_bind_run.
  rewrite first_insert. fold n1. unfold trie_insert. fold n2. rewrite stM_bind_run. cbn [gets].
  rewrite stM_bind_run. cbn [insert_recursive]. rewrite stM_bind_run. unfold find_node.
  rewrite stM_bind_run. cbn [gets lift nodes trie_root_hash]. rewrite lookup_insert_eq.
  cbn [ok_or]. rewrite bool_decide_eq_false_2 by done. rewrite stM_bind_run. unfold split_leaf.
  destruct (common_prefix_spec n1 n2) as (a & b & Ha & Hb & _).
  assert (Hcase : a = [] \/ b = []).
  { destruct Hp as [[r Hr]|[r Hr]]; [left|right].
    - assert (Hn2 : n2 = n1 ++ bytes_to_nibbles r) by (unfold n1, n2; by rewrite Hr, bytes_to_nibbles_app).
      rewrite Hn2 in Ha. rewrite <- (app_nil_r n1) in Ha at 2. rewrite common_prefix_app in Ha.
      rewrite <- app_assoc in Ha. rewrite <- (app_nil_r n1) in Ha at 1.
      apply app_inv_head in Ha. symmetry in Ha. by apply app_eq_nil in Ha as [_ ?].
    - assert (Hn1 : n1 = n2 ++ bytes_to_nibbles r) by (unfold n1, n2; by rewrite Hr, bytes_to_nibbles_app).
      rewrite Hn1 in Hb. rewrite <- (app_nil_r n2) in Hb at 3. rewrite common_prefix_app in Hb.
      rewrite <- app_assoc in Hb. rewrite <- (app_nil_r n2) in Hb at 1.
      apply app_inv_head in Hb. symmetry in Hb. by apply app_eq_nil in Hb as [_ ?]. }
  assert (Hda : drop (length (common_prefix n1 n2)) n1 = a) by (rewrite Ha at 2; apply drop_app_length).
  assert (Hdb : drop (length (common_prefix n1 n2)) n2 = b) by (rewrite Hb at 2; apply drop_app_length).
  set (t1 := mkTrie _ _ _). clearbody t1.
  destruct (common_prefix n1 n2) as [|z p] eqn:Hcp.
  - cbn in Ha, Hb. subst a b. pose proof (split_here_panic n1 v1 n2 v2 t1 Hcase) as Hs.
    destruct (split_here n1 v1 n2 v2 t1) as [t2 r]. cbn in Hs. by subst r.
  - rewrite Hda, Hdb, stM_bind_run. pose proof (split_here_panic a v1 b v2 t1 Hcase) as Hs.
    destruct (split_here a v1 b v2 t1) as [t2 r]. cbn in Hs. by subst r.
Qed.

(** * Proofs of membership *)

(** Anything can be proved: for every trie whose root is not a leaf, the root
    node alone is accepted as a proof that any key has any value. *)
Theorem proof_forgery t n key v :
  trie_wf t -> nodes t !! trie_root_hash t = Some n ->
  (forall k w, n <> Leaf k w) ->
  verify_proof (mkMerkleProof key (Some v) [n] (trie_root_hash t)) (Some v) = Ok true.
Proof.
  intros Ht Hr Hn. unfold verify_proof, compute_root_from_proof.
  cbn [proof_nodes proof_key proof_value proof_root_hash]. change (reverse [n]) with [n].
  destruct (Ht _ _ Hr) as [Hh _].
  destruct n as [|k w|p nh|cs w]; [|by destruct (Hn k w)|..]; cbn [mbind outcome_bind mret outcome_ret climb];
    rewrite Hh, !bool_decide_eq_true_2; done.
Qed.

Lemma collect_leaf fuel t h key v ns :
  trie_wf t -> collect_proof_nodes fuel t h key = Ok (Some v, ns) ->
  forall k w, last ns = Some (Leaf k w) -> (length k + length ns <= length key + 1)%nat.
Proof.
  intros Ht. revert h key ns. induction fuel as [|fuel IH]; intros h key ns; [done|].
  cbn [collect_proof_nodes]. destruct (nodes t !! h) as [n|] eqn:Hn; cbn [ok_or]; [|done].
  rewrite outcome_bind_ok. destruct (Ht _ _ Hn) as [_ Hok]. destruct n as [|k0 w0|p nh|cs w0].
  - done.
  - case_bool_decide as Hk; [|done]. intros [= _ <-] k w [= <- _]. subst. cbn. lia.
  - case_bool_decide as Hp; [|done].
    destruct (collect_proof_nodes fuel t nh _) as [[o ns']|e| |] eqn:Hc; [|done..].
    rewrite outcome_bind_ok. cbn [fst snd]. intros [= -> <-] k w Hl.
    assert (Hl' : last ns' = Some (Leaf k w)) by (destruct ns'; [done|exact Hl]).
    pose proof (IH _ _ _ Hc k w Hl') as Hle. rewrite length_drop in Hle. cbn [length].
    destruct p as [|x p]; [done|]. apply prefix_length in Hp. cbn in *. lia.
  - destruct key as [|x key]; [by intros [= _ <-]|].
    destruct (index cs x) as [[c|]|]; cbn [unwrap]; rewrite ?outcome_bind_ok; [|done..].
    destruct (collect_proof_nodes fuel t c key) as [[o ns']|e| |] eqn:Hc; [|done..].
    rewrite outcome_bind_ok. cbn [fst snd]. intros [= -> <-] k w Hl.
    assert (Hl' : last ns' = Some (Leaf k w)) by (destruct ns'; [done|exact Hl]).
    pose proof (IH _ _ _ Hc k w Hl'). cbn [length]. lia.
Qed.

(** Honest proofs are rejected: a proof generated for a key that is present and
    whose path has more than one node and ends in a leaf does not verify, since
    the verifier compares the leaf's remainder with the whole key. *)
Theorem honest_proof_rejected t key pf v k w :
  trie_wf t -> generate_proof t key = Ok pf -> proof_value pf = Some v ->
  last (proof_nodes pf) = Some (Leaf k w) -> (2 <= length (proof_nodes pf))%nat ->
  verify_proof pf (Some v) = Err (CE.TrieError "Key mismatch in leaf").
Proof.
  intros Ht Hg Hv Hl H2. unfold generate_proof in Hg.
  destruct (collect_proof_nodes _ t _ _) as [[o ns]|e| |] eqn:Hc; [|done..].
  rewrite outcome_bind_ok in Hg. injection Hg as <-. cbn in Hv, Hl, H2. subst o.
  pose proof (collect_leaf _ _ _ _ _ _ Ht Hc k w Hl) as Hle.
  unfold verify_proof, compute_root_from_proof. cbn [proof_nodes proof_key].
  apply last_Some in Hl as [init ->]. rewrite reverse_app.
  change (reverse [Leaf k w]) with [Leaf k w]. cbn [app].
  rewrite (bool_decide_eq_true_2 (k <> bytes_to_nibbles key)); [done|].
  intros ->. rewrite length_app in Hle, H2.
  cbn in Hle, H2. lia.
Qed.

End Store.

(** * Witnesses and examples *)

Definition sample_bincode_node (n : TrieNode) : bytes :=
  match n with
  | Empty => [0]
  | Leaf k v => 1 :: len k :: k ++ v
  | Extension p h => 2 :: len p :: p ++ h
  | Branch cs v =>
      3 :: concat ((fun c => match c with Some h => 1 :: h | None => [0] end) <$> cs) ++
      match v with Some v => 1 :: v | None => [0] end
  end.

#[export] Instance sample_trie_codec : TrieCodec := {|
  bincode_node n := Some (sample_bincode_node n);
  bincode_utxo u := Some (sample_bincode_output (output u));
  bincode_ticket_data d := Some (td_owner d);
  bincode_mn_id i := Some (txid (mn_outpoint i));
  bincode_proposal_entry p := Some (proposal_id p.1);
  bincode_votes l := Some [len l];
|}.

Definition sample_outpoint (n : Z) : OutPoint := mkOutPoint (replicate 32 n) 0.
Definition small_utxo : Utxo := mkUtxo (TxOutput_new 5 [0x51]) false 1.

Definition two_utxos : outcome CE.ConsensusError MerklePatriciaTrie :=
  from_state_data [(sample_outpoint 1, small_utxo); (sample_outpoint 2, small_utxo)] [] [] [].

Definition trie_of (r : outcome CE.ConsensusError MerklePatriciaTrie) : MerklePatriciaTrie :=
  match r with Ok t => t | _ => Trie_new end.

Definition two_utxo_trie : MerklePatriciaTrie := trie_of two_utxos.

Lemma two_utxos_ok : two_utxos = Ok two_utxo_trie.
Proof. vm_cast_no_check (eq_refl two_utxos). Qed.

Lemma state_root_ignores_the_rest_witness :
  exists t', from_state_data [(sample_outpoint 1, small_utxo); (sample_outpoint 2, small_utxo)]
    [([9], mkTicketData [1] 2 3 4)] [([7], [8])] [] = Ok t' /\
  trie_root_hash t' = trie_root_hash two_utxo_trie.
Proof.
  exact (state_root_ignores_the_rest (sample_outpoint 1) small_utxo (sample_outpoint 2) small_utxo
    [] two_utxo_trie eq_refl eq_refl (fun He => ltac:(discriminate He)) two_utxos_ok
    [([9], mkTicketData [1] 2 3 4)] [([7], [8])] []
    ltac:(repeat constructor; by eexists)).
Defined.

Lemma prefix_keys_panic_witness :
  snd ((trie_insert (string_bytes "masternode:mn_1") [1];;
        trie_insert (string_bytes "masternode:mn_10") [2]) Trie_new) = Panic.
Proof.
  apply prefix_keys_panic; [vm_compute; discriminate|left].
  exists (string_bytes "0"). reflexivity.
Defined.

(** The keys of masternodes 1 and 10 are such a pair: a state of eleven
    masternodes has no state root. *)
Example eleven_masternodes :
  from_state_data [] [] ((fun i : nat => (string_bytes ("mn_" +:+ pretty i), [])) <$> seq 0 11) [] =
  Panic.
Proof. vm_cast_no_check (@eq_refl (outcome CE.ConsensusError MerklePatriciaTrie) Panic). Qed.

Lemma two_utxo_trie_wf : trie_wf two_utxo_trie.
Proof. exact (from_state_data_wf _ [] [] [] _ two_utxos_ok). Qed.

Definition two_utxo_root : TrieNode := default Empty (root_node two_utxo_trie).

Lemma two_utxo_root_stored :
  nodes two_utxo_trie !! trie_root_hash two_utxo_trie = Some two_utxo_root.
Proof. vm_cast_no_check (eq_refl (Some two_utxo_root)). Qed.

Definition is_leaf (n : TrieNode) : bool := match n with Leaf _ _ => true | _ => false end.

Lemma two_utxo_root_not_leaf : is_leaf two_utxo_root = false.
Proof. vm_cast_no_check (eq_refl false). Qed.

Lemma proof_forgery_witness :
  verify_proof (mkMerkleProof [1; 2; 3] (Some [99]) [two_utxo_root] (trie_root_hash two_utxo_trie))
    (Some [99]) = Ok true.
Proof.
  apply (proof_forgery two_utxo_trie two_utxo_root [1; 2; 3] [99] two_utxo_trie_wf
    two_utxo_root_stored).
  intros k w He. pose proof two_utxo_root_not_leaf as Hl. rewrite He in Hl. discriminate Hl.
Defined.

Definition sample_value : bytes := sample_bincode_output (TxOutput_new 5 [0x51]).

Definition honest_proof : outcome CE.ConsensusError MerkleProof :=
  generate_proof two_utxo_trie (encode_utxo_key (sample_outpoint 1)).

Definition nodes_of (r : outcome CE.ConsensusError MerkleProof) : list TrieNode :=
  match r with Ok pf => proof_nodes pf | _ => [] end.

Definition honest_nodes : list TrieNode := nodes_of honest_proof.

Definition proof_of_first : MerkleProof :=
  mkMerkleProof (encode_utxo_key (sample_outpoint 1)) (Some sample_value) honest_nodes
    (trie_root_hash two_utxo_trie).

Definition leaf_key (n : option TrieNode) : bytes :=
  match n with Some (Leaf k _) => k | _ => [] end.

Definition last_key : bytes := leaf_key (last honest_nodes).

Lemma honest_proof_ok : honest_proof = Ok proof_of_first.
Proof. vm_cast_no_check (eq_refl honest_proof). Qed.

Lemma honest_last : last honest_nodes = Some (Leaf last_key sample_value).
Proof. vm_cast_no_check (eq_refl (last honest_nodes)). Qed.

Lemma honest_length : (2 <=? length honest_nodes)%nat = true.
Proof. vm_cast_no_check (eq_refl true). Qed.

Lemma honest_proof_rejected_witness :
  verify_proof proof_of_first (Some sample_value) = Err (CE.TrieError "Key mismatch in leaf").
Proof.
  exact (honest_proof_rejected two_utxo_trie (encode_utxo_key (sample_outpoint 1)) proof_of_first
    sample_value last_key sample_value two_utxo_trie_wf honest_proof_ok eq_refl honest_last
    (proj1 (Nat.leb_le _ _) honest_length)).
Defined.

(** Two keys whose leaves have the same remainder and value share one node;
    updating one key loses the other. *)
Example shared_leaf_lost :
  let t := fst ((trie_insert [0x11; 0x22] [5];; trie_insert [0x31; 0x22] [5];;
                 trie_insert [0x11; 0x22] [6]) Trie_new) in
  trie_get t [0x11; 0x22] = Ok (Some [6]) /\ trie_get t [0x31; 0x22] = Err node_not_found.
Proof. vm_compute. done. Qed.

(** Deleting one of two keys below a branch of the root keeps the other under a
    wrong nibble: neither can be found. *)
Example delete_loses_sibling :
  let t := fst ((trie_insert [0x11] [5];; trie_insert [0x31] [6];; trie_delete [0x11]) Trie_new) in
  trie_get t [0x11] = Ok (Some [6]) /\ trie_get t [0x31] = Ok None.
Proof. vm_compute. done. Qed.
