(* ===== verification/Mempool.v ===== *)
(** The transaction pool (src/rusty-core/src/mempool.rs): admission of
    transactions and the choice of transactions for a block.

    The checks read the UTXO set and the stored state of the blockchain they are
    given.  [HashMap] iteration is [map_to_list]; log calls are not modelled. *)

From Stdlib Require Import ZArith Lia List SpecFloat.
From stdpp Require Import base option list numbers strings gmap sorting.
From S2P Require Import Prelude Types Errors Transaction ScriptEngine SamplePrimitives F64.
From S2P Require Import StandardScripts UtxoSet TxValidation LiveTickets ChainState.

#[local] Open Scope Z_scope.

Abbreviation Mempool := (gmap Hash Transaction).
Abbreviation memM := (stM Mempool CE.ConsensusError).

Definition Mempool_new : Mempool := ∅.

Definition remove_transaction (txid : Hash) (m : Mempool) : Mempool * option Transaction :=
  (delete txid m, m !! txid).

Definition get_transaction (m : Mempool) (txid : Hash) : option Transaction := m !! txid.

Definition Mempool_len (m : Mempool) : Z := Z.of_nat (size m).

Definition Mempool_is_empty (m : Mempool) : bool := Mempool_len m =? 0.

Definition contains_transaction (m : Mempool) (txid : Hash) : bool :=
  bool_decide (is_Some (m !! txid)).

Definition get_transactions (m : Mempool) : list Transaction := (map_to_list m).*2.

Definition Mempool_clear (m : Mempool) : Mempool := ∅.

(** [mempool_input.previous_output == input.previous_output] for some input of
    some transaction of the pool. *)
Definition spends (tx : Transaction) (outpoint : OutPoint) : bool :=
  existsb (fun i => bool_decide (previous_output i = outpoint)) (get_inputs tx).

Definition spent_in_pool (m : Mempool) (outpoint : OutPoint) : bool :=
  existsb (fun e => spends e.2 outpoint) (map_to_list m).

(** [iter().map(|o| o.value).sum::<u64>()] *)
Definition output_sum (outputs : list TxOutput) : Z :=
  foldl (fun acc o => u64_add acc (value o)) 0 outputs.

Section WithPrimitives.
  Context `{Primitives, StoreCodec}.

Definition add_transaction (tx : Transaction) : memM bool :=
  txid ← lift (tx_txid tx);
  known ← gets (fun m => contains_transaction m txid);
  if known : bool then mret false
  else
    modify (<[txid := tx]>);;
    mret true.

(** * Block templates *)

(** [bincode::serialize(tx).unwrap_or(vec![]).len() as u64] *)
Definition tx_size (tx : Transaction) : Z := len (default [] (bincode_transaction tx)).

(** The id used to break ties; a transaction that does not serialize never got
    into the pool. *)
Definition tie_id (tx : Transaction) : Hash := tx_hash tx.

Definition fee_per_byte (tx : Transaction) : f64 :=
  f64_div (f64_of_Z (get_fee tx)) (f64_of_Z (tx_size tx)).

Definition per_byte_cmp (a b : Transaction) : comparison :=
  then_with (default Eq (SFcompare (fee_per_byte b) (fee_per_byte a)))
    (bytes_cmp (tie_id a) (tie_id b)).

Definition get_all_transactions (m : Mempool) : list Transaction :=
  sort_by (fun a b => not_greater (per_byte_cmp a b)) (get_transactions m).

Definition fee_rate (tx : Transaction) : Z :=
  if tx_size tx >? 0 then u64_mul (get_fee tx) 1000 / tx_size tx else 0.

Definition rate_cmp (a b : Transaction) : comparison :=
  then_with (fee_rate b ?= fee_rate a) (bytes_cmp (tie_id a) (tie_id b)).

(** The selection loop stops at the first transaction that does not fit. *)
Fixpoint select_while_fits (max_block_size current_size : Z) (txs : list Transaction) :
    list Transaction :=
  match txs with
  | [] => []
  | tx :: txs =>
      if u64_add current_size (tx_size tx) <=? max_block_size
      then tx :: select_while_fits max_block_size (u64_add current_size (tx_size tx)) txs
      else []
  end.

Definition get_transactions_for_block_template (m : Mempool) (max_block_size : Z) :
    list Transaction :=
  select_while_fits max_block_size 0
    (sort_by (fun a b => not_greater (rate_cmp a b)) (get_transactions m)).

(** * Admission checks *)

Definition validate_transaction_structure (tx : Transaction) : outcome CE.ConsensusError bool :=
  if is_coinbase tx then mret false
  else if len (get_inputs tx) =? 0 then mret false
  else if len (get_outputs tx) =? 0 then mret false
  else
    data ← ok_or (bincode_transaction tx) CE.bincode_failure;
    if len data >? 100000 then mret false
    else mret (forallb (fun o => negb (value o =? 0) && negb (value o <? 546)) (get_outputs tx)).

Definition get_utxo_for_input (input : TxInput) (utxo_set : UtxoSet) : option TxOutput :=
  output <$> get_utxo utxo_set (previous_output input).

(** The loop of [validate_transaction_signatures]: a new engine per input. *)
Fixpoint check_signatures (tx : Transaction) (utxo_set : UtxoSet) (input_index : Z)
    (inputs : list TxInput) : outcome CE.ConsensusError bool :=
  match inputs with
  | [] => mret true
  | input :: inputs =>
      if len (script_sig input) =? 0 then check_signatures tx utxo_set (input_index + 1) inputs
      else
        match get_utxo_for_input input utxo_set with
        | None => mret false
        | Some prev_output =>
            match snd (execute_standard_script (script_sig input) (script_pubkey prev_output) tx
                         input_index ScriptEngine_new) with
            | Ok _ => check_signatures tx utxo_set (input_index + 1) inputs
            | Err _ => mret false
            | Panic => Panic
            | OutOfFuel => OutOfFuel
            end
        end
  end.

Definition validate_transaction_signatures (tx : Transaction) (utxo_set : UtxoSet) :
    outcome CE.ConsensusError bool := check_signatures tx utxo_set 0 (get_inputs tx).

Definition pool_validate_inputs (m : Mempool) (tx : Transaction) (utxo_set : UtxoSet) : bool :=
  forallb (fun input =>
    bool_decide (is_Some (get_utxo utxo_set (previous_output input))) &&
    negb (spent_in_pool m (previous_output input))) (get_inputs tx).

(** The value of the inputs; [None]: an output is missing. *)
Fixpoint saturating_input_value (utxo_set : UtxoSet) (inputs : list TxInput) (acc : Z) : option Z :=
  match inputs with
  | [] => Some acc
  | input :: inputs =>
      match get_utxo utxo_set (previous_output input) with
      | Some utxo =>
          saturating_input_value utxo_set inputs (u64_saturating_add acc (value (output utxo)))
      | None => None
      end
  end.

Definition MIN_FEE : Z := 1000.
Definition MAX_FEE_RATE : Z := 10000.

Definition validate_transaction_fees (tx : Transaction) (utxo_set : UtxoSet) :
    outcome CE.ConsensusError bool :=
  match saturating_input_value utxo_set (get_inputs tx) 0 with
  | None => mret false
  | Some input_value =>
      let output_value := output_sum (get_outputs tx) in
      if input_value <? output_value then mret false
      else
        let fee := input_value - output_value in
        if fee <? MIN_FEE then mret false
        else
          data ← ok_or (bincode_transaction tx) CE.bincode_failure;
          mret (negb (fee >? u64_mul (len data) MAX_FEE_RATE))
  end.

(** An error of the script engine is a [false]; only a panic escapes. *)
Definition validate_transaction_scripts (tx : Transaction) (utxo_set : UtxoSet)
    (state : BlockchainState) : outcome CE.ConsensusError bool :=
  current_height ← map_err (fun _ => CE.Internal "") (get_current_block_height state);
  map_err (fun _ => CE.Internal "")
    (snd (validate_transaction tx utxo_set current_height ScriptEngine_new)).

(** Lock times and sequence numbers are only logged. *)
Definition validate_transaction_policy (tx : Transaction) : bool :=
  forallb (fun o => negb (len (script_pubkey o) >? 10000)) (get_outputs tx).

Definition validate_no_conflicts (m : Mempool) (tx : Transaction) : bool :=
  forallb (fun input => negb (spent_in_pool m (previous_output input))) (get_inputs tx).

(** [if !check? { return Err(TransactionValidation(..)) }] *)
Definition require (check : outcome CE.ConsensusError bool) (msg : string) :
    outcome CE.ConsensusError unit :=
  ok ← check;
  if ok : bool then mret tt else Err (CE.TransactionValidation msg).

(** The seven checks, in order. *)
Definition admission_checks (m : Mempool) (tx : Transaction) (utxo_set : UtxoSet)
    (state : BlockchainState) : outcome CE.ConsensusError unit :=
  _ ← require (validate_transaction_structure tx) "Transaction structure validation failed";
  _ ← require (validate_transaction_signatures tx utxo_set)
        "Transaction signature validation failed";
  _ ← require (mret (pool_validate_inputs m tx utxo_set)) "Transaction input validation failed";
  _ ← require (validate_transaction_fees tx utxo_set) "Transaction fee validation failed";
  _ ← require (validate_transaction_scripts tx utxo_set state)
        "Transaction script validation failed";
  _ ← require (mret (validate_transaction_policy tx)) "Transaction policy validation failed";
  require (mret (validate_no_conflicts m tx))
    "Transaction conflicts with existing mempool transactions".

Definition validate_and_add_transaction (tx : Transaction) (utxo_set : UtxoSet)
    (state : BlockchainState) : memM bool :=
  txid ← lift (tx_txid tx);
  known ← gets (fun m => contains_transaction m txid);
  if known : bool then mret false
  else
    m ← gets (fun m => m);
    _ ← lift (admission_checks m tx utxo_set state);
    modify (<[txid := tx]>);;
    mret true.

End WithPrimitives.

(** * The pool stays free of conflicts *)

(** Entries are stored under their ids, and no output is spent by two of them. *)
Definition mempool_wf `{Primitives} (m : Mempool) : Prop :=
  map_Forall (fun id tx => tx_txid (E := Empty_set) tx = Ok id) m /\
  (forall i j a b o, m !! i = Some a -> m !! j = Some b ->
     spends a o = true -> spends b o = true -> i = j).

(** What the node does to the pool: offer a transaction against its UTXO set
    and state, drop a mined one, clear. *)
Inductive pool_op : Type :=
| PoolOffer (tx : Transaction) (utxo_set : UtxoSet) (state : BlockchainState)
| PoolRemove (id : Hash)
| PoolClear.

Section Pool.
  Context `{P : Primitives, C : StoreCodec}.

Definition pool_exec (op : pool_op) (m : Mempool) : Mempool :=
  match op with
  | PoolOffer tx u st => fst (validate_and_add_transaction tx u st m)
  | PoolRemove id => fst (remove_transaction id m)
  | PoolClear => Mempool_clear m
  end.

Definition pool_run (ops : list pool_op) : Mempool := foldl (fun m op => pool_exec op m) Mempool_new ops.

(** An offer either is admitted under its id, after all checks, or leaves the
    pool as it was. *)
Lemma offer_cases tx u st m :
  (exists id, tx_txid (E := CE.ConsensusError) tx = Ok id /\ m !! id = None /\
     admission_checks m tx u st = Ok tt /\
     validate_and_add_transaction tx u st m = (<[id := tx]> m, Ok true)) \/
  (fst (validate_and_add_transaction tx u st m) = m /\
   snd (validate_and_add_transaction tx u st m) <> Ok true).
Proof.
  unfold validate_and_add_transaction, contains_transaction. rewrite stM_bind_run. unfold lift.
  destruct (tx_txid tx) as [id|e| |]; try (right; done).
  rewrite stM_bind_run. cbn [gets]. case_bool_decide as Hk; [right; done|].
  rewrite stM_bind_run. cbn [gets]. rewrite stM_bind_run.
  destruct (admission_checks m tx u st) as [[]|e| |] eqn:Ha; try (right; done).
  left. exists id. split_and!; try done. by apply eq_None_not_Some.
Qed.

Lemma require_ok check msg : require check msg = Ok tt -> check = Ok true.
Proof. unfold require. destruct check as [[]| | |]; done. Qed.

(** All checks, each with the answer [true]. *)
Lemma admission_checks_ok m tx u st :
  admission_checks m tx u st = Ok tt ->
  validate_transaction_structure tx = Ok true /\ validate_transaction_signatures tx u = Ok true /\
  pool_validate_inputs m tx u = true /\ validate_transaction_fees tx u = Ok true /\
  validate_transaction_scripts tx u st = Ok true /\ validate_transaction_policy tx = true /\
  validate_no_conflicts m tx = true.
Proof.
  unfold admission_checks. intros Hc.
  repeat match type of Hc with
  | (_ ← _; _) = _ => apply outcome_bind_inv in Hc as ([] & ?%require_ok & Hc)
  end.
  apply require_ok in Hc. by repeat match goal with H : mret _ = Ok _ |- _ => injection H as H end.
Qed.

Lemma spent_in_pool_spec m o :
  spent_in_pool m o = true <-> exists i a, m !! i = Some a /\ spends a o = true.
Proof.
  unfold spent_in_pool. rewrite existsb_exists. split.
  - intros ([i a] & Hi & Hs). exists i, a. split; [|done].
    apply elem_of_map_to_list. by apply list_elem_of_In.
  - intros (i & a & Hi & Hs). exists (i, a). split; [|done].
    apply list_elem_of_In. by apply elem_of_map_to_list.
Qed.

Lemma spends_spec tx o : spends tx o = true <-> exists i, i ∈ get_inputs tx /\ previous_output i = o.
Proof.
  unfold spends. rewrite existsb_exists. split; intros (i & Hi & Ho); exists i.
  - split; [by apply list_elem_of_In|]. by apply bool_decide_eq_true in Ho.
  - split; [by apply list_elem_of_In|]. by apply bool_decide_eq_true.
Qed.

Lemma no_conflicts_spec m tx o :
  validate_no_conflicts m tx = true -> spends tx o = true -> spent_in_pool m o = false.
Proof.
  unfold validate_no_conflicts. rewrite forallb_forall. intros Hc (i & Hi & <-)%spends_spec.
  apply list_elem_of_In in Hi. specialize (Hc i Hi). by apply negb_true_iff in Hc.
Qed.

Lemma mempool_wf_empty : mempool_wf ∅.
Proof. split; [done|]. intros i j a b o Hi. by rewrite lookup_empty in Hi. Qed.

Lemma pool_exec_wf op m : mempool_wf m -> mempool_wf (pool_exec op m).
Proof.
  intros [Hid Hc]. destruct op as [tx u st|id|]; cbn [pool_exec].
  - destruct (offer_cases tx u st m) as [(id & Ht & Hn & Ha & ->)|[-> _]]; [|done]. cbn [fst].
    apply admission_checks_ok in Ha as (_ & _ & _ & _ & _ & _ & Hnc).
    assert (Hfree : forall i a o, m !! i = Some a -> spends tx o = true -> spends a o = true -> False).
    { intros i a o Hi Htx Ha. pose proof (no_conflicts_spec _ _ _ Hnc Htx) as Hf.
      assert (spent_in_pool m o = true) by (apply spent_in_pool_spec; eauto). congruence. }
    split.
    + apply map_Forall_insert_2; [|done]. unfold tx_txid in *.
      destruct (bincode_transaction tx); [|done]. by injection Ht as <-.
    + intros i j a b o. destruct (decide (i = id)) as [->|], (decide (j = id)) as [->|];
        rewrite ?lookup_insert_eq, ?lookup_insert_ne by done; intros; simplify_eq; eauto;
        exfalso; eauto.
  - unfold remove_transaction. cbn [fst]. split; [by apply map_Forall_delete|].
    intros i j a b o. rewrite !lookup_delete_Some. naive_solver.
  - apply mempool_wf_empty.
Qed.

(** C6. Whatever is offered, removed or cleared, the pool built by
    [validate_and_add_transaction] holds every transaction under its own id and
    never two transactions that spend the same output; a transaction that is
    not admitted leaves the pool as it was. *)
Theorem mempool_conflict_free ops tx u st :
  mempool_wf (pool_run ops) /\
  (snd (validate_and_add_transaction tx u st (pool_run ops)) <> Ok true ->
   fst (validate_and_add_transaction tx u st (pool_run ops)) = pool_run ops).
Proof.
  split.
  - unfold pool_run. apply (foldl_inv mempool_wf); [|intros m op; apply pool_exec_wf].
    apply mempool_wf_empty.
  - destruct (offer_cases tx u st (pool_run ops)) as [(id & _ & _ & _ & ->)|[-> _]]; done.
Qed.

Lemma structure_ok tx :
  validate_transaction_structure tx = Ok true ->
  exists data, is_coinbase tx = false /\ get_inputs tx <> [] /\ get_outputs tx <> [] /\
    bincode_transaction tx = Some data /\ len data <= 100000 /\
    Forall (fun o => 546 <= value o) (get_outputs tx).
Proof.
  unfold validate_transaction_structure. destruct (is_coinbase tx); [done|].
  destruct (Z.eqb_spec (len (get_inputs tx)) 0) as [|Hi]; [done|].
  destruct (Z.eqb_spec (len (get_outputs tx)) 0) as [|Ho]; [done|].
  destruct (bincode_transaction tx) as [data|]; [|done]. cbn [ok_or mbind outcome_bind].
  rewrite Z.gtb_ltb. destruct (Z.ltb_spec 100000 (len data)); [done|].
  intros [= Hf]. exists data. split_and!; try done; try (intros Hn; by rewrite Hn in *).
  rewrite forallb_forall in Hf. apply Forall_forall. intros o Hin%list_elem_of_In.
  apply Hf in Hin. apply andb_true_iff in Hin as [_ Hd]. destruct (Z.ltb_spec (value o) 546); [done|lia].
Qed.

Lemma fees_ok tx u data :
  validate_transaction_fees tx u = Ok true -> bincode_transaction tx = Some data ->
  len data <= 100000 ->
  exists v, saturating_input_value u (get_inputs tx) 0 = Some v /\
    1000 <= v - output_sum (get_outputs tx) <= 10000 * len data.
Proof.
  unfold validate_transaction_fees, MIN_FEE, MAX_FEE_RATE. intros Hf Hd Hl.
  destruct (saturating_input_value u (get_inputs tx) 0) as [v|]; [|done]. exists v. split; [done|].
  destruct (Z.ltb_spec v (output_sum (get_outputs tx))); [done|].
  destruct (Z.ltb_spec (v - output_sum (get_outputs tx)) 1000); [done|].
  rewrite Hd in Hf. cbn [ok_or mbind outcome_bind] in Hf. injection Hf as Hf%negb_true_iff.
  pose proof (len_nonneg data). unfold u64_mul in Hf. rewrite wrap64_small in Hf by (unfold u64_max; lia).
  rewrite Z.gtb_ltb in Hf. apply Z.ltb_ge in Hf. lia.
Qed.

Lemma policy_ok tx :
  validate_transaction_policy tx = true ->
  Forall (fun o => len (script_pubkey o) <= 10000) (get_outputs tx).
Proof.
  unfold validate_transaction_policy. rewrite forallb_forall, Forall_forall.
  intros Hf o Hin%list_elem_of_In. apply Hf in Hin.
  rewrite Z.gtb_ltb in Hin. by apply negb_true_iff, Z.ltb_ge in Hin.
Qed.

(** What an admitted transaction has passed: it is no coinbase, fits in 100000
    bytes, has inputs and outputs; its outputs are not dust and their scripts are
    not oversized; every input names an unspent output that nothing in the pool
    spends; it pays between 1000 and 10000 satoshis per byte; its scripts
    validated.  And then it is in the pool. *)
Theorem mempool_admits tx u st m m' :
  validate_and_add_transaction tx u st m = (m', Ok true) ->
  exists id data v,
    tx_txid (E := CE.ConsensusError) tx = Ok id /\ m !! id = None /\ m' = <[id := tx]> m /\
    is_coinbase tx = false /\ get_inputs tx <> [] /\ get_outputs tx <> [] /\
    bincode_transaction tx = Some data /\ len data <= 100000 /\
    Forall (fun o => 546 <= value o) (get_outputs tx) /\
    Forall (fun o => len (script_pubkey o) <= 10000) (get_outputs tx) /\
    Forall (fun i => is_Some (u !! previous_output i) /\
                     spent_in_pool m (previous_output i) = false) (get_inputs tx) /\
    saturating_input_value u (get_inputs tx) 0 = Some v /\
    1000 <= v - output_sum (get_outputs tx) <= 10000 * len data /\
    validate_transaction_scripts tx u st = Ok true.
Proof.
  intros Hv. destruct (offer_cases tx u st m) as [(id & Ht & Hn & Ha & Hr)|[_ Hr]];
    [|by rewrite Hv in Hr].
  rewrite Hr in Hv. injection Hv as <-.
  apply admission_checks_ok in Ha as (Hs & _ & Hi & Hf & Hsc & Hp & _).
  apply structure_ok in Hs as (data & Hc & Hin & Hout & Hd & Hl & Hdust).
  destruct (fees_ok _ _ _ Hf Hd Hl) as (v & Hsv & Hfee).
  exists id, data, v. split_and!; try done; try lia.
  - by apply policy_ok.
  - unfold pool_validate_inputs in Hi. rewrite forallb_forall in Hi. apply Forall_forall.
    intros i Hin'%list_elem_of_In. specialize (Hi i Hin').
    apply andb_true_iff in Hi as [Hu Hsp%negb_true_iff].
    split; [by apply bool_decide_eq_true in Hu|done].
Qed.

End Pool.

(** * Block templates *)

Section Template.
  Context `{P : Primitives}.

Definition total_size (txs : list Transaction) : Z := foldr (fun tx acc => tx_size tx + acc) 0 txs.

(** The candidates in the order in which they are considered. *)
Definition by_fee_rate (m : Mempool) : list Transaction :=
  sort_by (fun a b => not_greater (rate_cmp a b)) (get_transactions m).

Lemma total_size_nonneg txs : 0 <= total_size txs.
Proof.
  unfold total_size in *. induction txs as [|tx txs IH]; cbn [foldr]; [lia|]. unfold tx_size at 1.
  pose proof (len_nonneg (default [] (bincode_transaction tx))). lia.
Qed.

Lemma total_size_perm l1 l2 : l1 ≡ₚ l2 -> total_size l1 = total_size l2.
Proof. unfold total_size. induction 1; cbn [foldr] in *; lia. Qed.

(** The selection is the longest prefix that fits. *)
Lemma select_prefix max txs : forall cur,
  0 <= cur -> cur + total_size txs <= u64_max ->
  exists rest, txs = select_while_fits max cur txs ++ rest /\
    (cur <= max -> cur + total_size (select_while_fits max cur txs) <= max) /\
    match rest with
    | [] => True
    | tx :: _ => max < cur + total_size (select_while_fits max cur txs) + tx_size tx
    end.
Proof.
  induction txs as [|tx txs IH]; intros cur Hc Ht; [exists []; cbn; split_and!; [done|lia|done]|].
  cbn [total_size foldr] in Ht. fold (total_size txs) in Ht.
  pose proof (total_size_nonneg txs). pose proof (total_size_nonneg [tx]) as Hs.
  unfold total_size in Hs; cbn [foldr] in Hs.
  cbn [select_while_fits]. unfold u64_add. rewrite wrap64_small by lia.
  destruct (Z.leb_spec (cur + tx_size tx) max) as [Hle|Hgt].
  - destruct (IH (cur + tx_size tx)) as (rest & He & Hm & Hr); [lia..|]. exists rest.
    cbn [app total_size foldr]. fold (total_size (select_while_fits max (cur + tx_size tx) txs)).
    split_and!; [by f_equal|lia|]. destruct rest; [done|]. lia.
  - exists (tx :: txs). cbn. split_and!; [done|lia|lia].
Qed.

(** C31. A block template of a pool whose transactions have sizes adding up to a
    64-bit number: it takes the transactions of the pool in the order of
    falling fee rate (as the code computes it, fee times a thousand over size in
    64 bits) and stops at the first one that does not fit.  It never exceeds the
    block size, nothing left out pays a higher rate than something taken, and
    of what is left out one with the highest rate would not have fitted. *)
Theorem block_template_spec m max_block_size :
  0 <= max_block_size -> total_size (get_transactions m) <= u64_max ->
  let chosen := get_transactions_for_block_template m max_block_size in
  exists rest,
    get_transactions m ≡ₚ chosen ++ rest /\
    total_size chosen <= max_block_size /\
    StronglySorted (fun a b => fee_rate b <= fee_rate a) chosen /\
    (forall a b, a ∈ chosen -> b ∈ rest -> fee_rate b <= fee_rate a) /\
    match rest with
    | [] => True
    | tx :: others => max_block_size < total_size chosen + tx_size tx /\ Forall (fun b => fee_rate b <= fee_rate tx) others
    end.
Proof.
  intros Hm Ht chosen. set (R := fun a b => fee_rate b <= fee_rate a).
  assert (Hp : by_fee_rate m ≡ₚ get_transactions m) by apply sort_by_perm.
  assert (Hs : StronglySorted R (by_fee_rate m)).
  { assert (Transitive R) by (intros x y z; unfold R; lia).
    apply (sort_by_sorted _ R); intros a b; unfold rate_cmp, then_with, R;
      destruct (Z.compare_spec (fee_rate b) (fee_rate a)); cbn; done || lia. }
  destruct (select_prefix max_block_size (by_fee_rate m) 0) as (rest & He & Hmax & Hr);
    [done|rewrite (total_size_perm _ _ Hp); lia|].
  change (select_while_fits max_block_size 0 (by_fee_rate m)) with chosen in *.
  exists rest. split_and!.
  - rewrite <- Hp. by rewrite <- He.
  - lia.
  - rewrite He in Hs. by apply StronglySorted_app_1_l in Hs.
  - intros a b Ha Hb. rewrite He in Hs. by apply (StronglySorted_app_1_elem_of _ _ _ a b Hs).
  - destruct rest as [|tx others]; [done|]. split; [lia|].
    rewrite He in Hs. apply StronglySorted_app_1_r, StronglySorted_inv in Hs as [_ Hs]. exact Hs.
Qed.

End Template.

(** * Witnesses *)

(** An output worth 5000 that needs no signature, and a transaction that spends
    it. *)
Definition open_set : UtxoSet :=
  {[ previous_output sample_input := mkUtxo (TxOutput_new 5000 [0x51]) false 0 ]}.

Definition paying_tx : Transaction :=
  Standard 1 [sample_input] [TxOutput_new 1000 [0x51]] 0 4000 [].

Definition paying_pool : Mempool * outcome CE.ConsensusError bool :=
  validate_and_add_transaction paying_tx open_set BlockchainState_new Mempool_new.

Lemma mempool_admits_witness :
  exists id data v,
    tx_txid (E := CE.ConsensusError) paying_tx = Ok id /\ Mempool_new !! id = None /\
    fst paying_pool = <[id := paying_tx]> Mempool_new /\
    bincode_transaction paying_tx = Some data /\
    saturating_input_value open_set (get_inputs paying_tx) 0 = Some v /\
    1000 <= v - output_sum (get_outputs paying_tx) <= 10000 * len data.
Proof.
  destruct (mempool_admits paying_tx open_set BlockchainState_new Mempool_new (fst paying_pool))
    as (id & data & v & ? & ? & ? & _ & _ & _ & ? & _ & _ & _ & _ & ? & [? ?] & _).
  - vm_compute. reflexivity.
  - exists id, data, v. repeat apply conj; assumption.
Defined.

Definition two_pool : Mempool := {[ [1] := paying_tx; [2] := sample_tx ]}.

Lemma block_template_spec_witness :
  total_size (get_transactions_for_block_template two_pool 100) <= 100.
Proof.
  destruct (block_template_spec two_pool 100) as (rest & _ & Hs & _);
    [lia|vm_compute; discriminate|exact Hs].
Defined.

(** The same output listed twice counts twice towards the fee, so the pool
    admits a transaction that creates more than it spends. *)
Definition doubling_tx : Transaction :=
  Standard 1 [sample_input; sample_input] [TxOutput_new 8000 [0x51]] 0 2000 [].

Example doubled_input_admitted :
  snd (validate_and_add_transaction doubling_tx open_set BlockchainState_new Mempool_new) = Ok true.
Proof. vm_compute. reflexivity. Qed.
