(* ===== verification/Blockchain.v ===== *)
(** The blockchain state machine ([Blockchain] of
    src/rusty-core/src/consensus/blockchain.rs): adding, processing and reverting
    blocks, validating stored chains, governance and proof of service.

    The struct's [sync_manager], [p2p_network], [keypair] and the sidechain
    components are left out: the modelled operations do not read them, except
    for the signing key, which is an argument.  System time and random draws are
    arguments.  Log and audit calls have no effect.  Texts formatted from error
    values are left empty. *)

From Stdlib Require Import ZArith Lia List SpecFloat.
From stdpp Require Import base option list numbers strings gmap.
From coqutil Require Import Datatypes.RecordSetters.
From S2P Require Import Prelude Types Errors Transaction ScriptEngine F64 Merkle Params U256.
From S2P Require Import Pow UtxoSet TxValidation Masternodes LiveTickets GovernanceState.
From S2P Require Import ChainState Trie Mempool.

Import TriangleBracketNotations.
#[local] Open Scope Z_scope.

Record PoSeChallenge : Type := mkPoSeChallenge {
  challenge_nonce : Z;
  challenge_block_hash : Hash;
  challenger_masternode_id : MasternodeID;
  challenge_generation_block_height : Z;
  challenge_signature : bytes;
}.

Record PoSeResponse : Type := mkPoSeResponse {
  response_nonce : Z;
  signed_block_hash : bytes;
  target_masternode_id : MasternodeID;
}.

Record MasternodeNonParticipationProof : Type := mkNonParticipationProof {
  np_masternode_id : MasternodeID;
  np_detection_block_height : Z;
  np_challenge : PoSeChallenge;
  np_response : option PoSeResponse;
  np_witness_signatures : list WitnessSignature;
}.

Inductive MaliciousActionType : Type :=
| MaliciousDoubleSigning | InvalidServiceProvision | MaliciousGovernanceViolation.

Record MasternodeMaliciousProof : Type := mkMaliciousProof {
  mp_masternode_id : MasternodeID;
  mp_malicious_action_type : MaliciousActionType;
  mp_detection_block_height : Z;
  mp_proof_data : bytes;
}.

(** bincode of the signed payloads and of the slashing proofs. *)
Class ChainCodec : Type := {
  bincode_proposal_payload : Proposal -> option bytes;
  bincode_vote_payload : Vote -> option bytes;
  bincode_vec : bytes -> option bytes;
  decode_non_participation_proof : bytes -> option MasternodeNonParticipationProof;
  decode_malicious_proof : bytes -> option MasternodeMaliciousProof;
  bincode_challenge : PoSeChallenge -> option bytes;
}.

Record Blockchain : Type := mkBlockchain {
  tip : Hash;
  live_tickets : LiveTicketsPool;
  utxo_set : UtxoSet;
  masternode_list : MasternodeList;
  state : BlockchainState;
  params : ConsensusParams;
  active_proposals : ActiveProposals;
  mempool : Mempool;
}.

Definition Blockchain_new : Blockchain :=
  mkBlockchain (replicate 32 0) LiveTicketsPool_new UtxoSet_new MasternodeList_new
    BlockchainState_new ConsensusParams_default ActiveProposals_new Mempool_new.

Abbreviation bcM := (stM Blockchain CE.ConsensusError).

(** * Running a method of a field *)

Definition zoom {S E A} (get : Blockchain -> S) (put : S -> Blockchain -> Blockchain)
    (err : E -> CE.ConsensusError) (m : stM S E A) : bcM A := fun s =>
  match m (get s) with
  | (x, r) => (put x s, map_err err r)
  end.

Definition on_utxo {A} (m : utxoM A) : bcM A :=
  zoom utxo_set (fun x s => s <| utxo_set := x |>) (fun e => e) m.
Definition on_tickets {A} (m : poolM A) : bcM A :=
  zoom live_tickets (fun x s => s <| live_tickets := x |>) (fun e => e) m.
Definition on_masternodes {A} (err : string -> CE.ConsensusError) (m : mnM A) : bcM A :=
  zoom masternode_list (fun x s => s <| masternode_list := x |>) err m.
Definition on_state {A} (err : CE.ConsensusError -> CE.ConsensusError) (m : stateM A) : bcM A :=
  zoom state (fun x s => s <| state := x |>) err m.
Definition on_proposals {A} (m : govM A) : bcM A :=
  zoom active_proposals (fun x s => s <| active_proposals := x |>) (fun e => e) m.

(** A call whose [Result] is dropped or only logged; a panic still unwinds. *)
Definition ignore_error (m : bcM unit) : bcM unit := fun s =>
  match m s with
  | (s, Err _) => (s, Ok tt)
  | r => r
  end.

(** [map_err(|e| ConsensusError::Internal(e.to_string()))] *)
Definition internal {E} (e : E) : CE.ConsensusError := CE.Internal "".

(** A read of the struct that may fail. *)
Definition reads {A} (f : Blockchain -> outcome CE.ConsensusError A) : bcM A := fun s => (s, f s).

(** [sort_by_key(|tx| tx.get_fee()); reverse()] *)
Definition sort_by_fee_desc (txs : list Transaction) : list Transaction :=
  reverse (sort_by (fun a b => get_fee a <=? get_fee b) txs).

(** The assignment through [get_outputs_mut]. *)
Definition with_outputs (tx : Transaction) (o : list TxOutput) : Transaction :=
  match tx with
  | Standard v i _ l f w => Standard v i o l f w
  | Coinbase v i _ l w => Coinbase v i o l w
  | MasternodeRegister m s l i _ w => MasternodeRegister m s l i o w
  | MasternodeCollateral v i _ m c l w => MasternodeCollateral v i o m c l w
  | GovernanceProposal p => GovernanceProposal (p <| proposal_outputs := o |>)
  | GovernanceVote v => GovernanceVote (v <| vote_outputs := o |>)
  | ActivateProposal v p h a s i _ l w => ActivateProposal v p h a s i o l w
  | TicketPurchase v i _ t k l f a w => TicketPurchase v i o t k l f a w
  | TicketRedemption v i _ t l f w => TicketRedemption v i o t l f w
  | MasternodeSlashTx s => MasternodeSlashTx (s <| slash_outputs := o |>)
  | TicketSlashNonParticipation v i _ t p l f w => TicketSlashNonParticipation v i o t p l f w
  | TicketSlashMalicious v i _ t p l f w => TicketSlashMalicious v i o t p l f w
  end.

(** Sums of [u64] values wrap. *)
Definition u64_sum (l : list Z) : Z := foldl u64_add 0 l.

(** [filter_map(|input| utxo_set.get_utxo(..).map(|utxo| utxo.output.value)).sum()] *)
Definition spent_value (u : UtxoSet) (tx : Transaction) : Z :=
  u64_sum (omap (fun i => (fun utxo => value (output utxo)) <$> get_utxo u (previous_output i))
             (get_inputs tx)).

Definition created_value (tx : Transaction) : Z := u64_sum (value <$> get_outputs tx).

(** The fees of the transactions but the coinbase. *)
Definition total_fees (u : UtxoSet) (txs : list Transaction) : Z :=
  u64_sum ((fun tx => u64_saturating_sub (spent_value u tx) (created_value tx)) <$> txs).

(** [(total_reward as f64 * self.params.pos_reward_ratio).round() as u64] *)
Definition pos_share (p : ConsensusParams) (total_reward : Z) : Z :=
  f64_round_to_u64 (f64_mul (f64_of_Z total_reward) (pos_reward_ratio p)).

Definition COINBASE_MATURITY_PERIOD_BLOCKS : Z := 100.
Definition MIN_VALID_VOTES_REQUIRED : Z := 3.

Definition active_masternodes (s : Blockchain) : list MasternodeID :=
  (fun e => mkMasternodeID (collateral_outpoint (identity e))) <$>
    filter (fun e => is_active e) (entries (masternode_list s)).

Definition bc_get_utxo (s : Blockchain) (outpoint : OutPoint) :
    outcome CE.ConsensusError (option (TxOutput * Z * bool)) :=
  match get_utxo (utxo_set s) outpoint with
  | Some utxo => Ok (Some (output utxo, creation_height utxo, is_coinbase_utxo utxo))
  | None => Err (CE.MissingPreviousOutput outpoint)
  end.

Section WithCodecs.
  Context `{Primitives, TicketCodec, StoreCodec, TrieCodec, ChainCodec, U256}.

Definition U256_MAX : u256 := u256_from_big_endian (replicate 32 255).

Definition get_latest_block (s : Blockchain) : outcome CE.ConsensusError (option Block) :=
  current_height ← map_err internal (get_current_block_height (state s));
  if current_height =? 0 then mret None
  else map_err internal (get_block (state s) current_height).

(** * Transactions *)

Definition script_check (u : UtxoSet) (tx : Transaction) (height : Z) :
    outcome CE.ConsensusError bool :=
  map_err internal (snd (validate_transaction tx u height ScriptEngine_new)).

(** Used for the transactions of an added block. *)
Definition validate_transaction_inputs_and_scripts (s : Blockchain) (tx : Transaction)
    (current_height : Z) : outcome CE.ConsensusError unit :=
  if negb (validate_transaction_inputs_with_params (utxo_set s) tx current_height
             (coinbase_maturity (params s)))
  then Err (CE.TransactionValidation "Transaction input validation failed for tx: ")
  else
    ok ← script_check (utxo_set s) tx current_height;
    if ok : bool then mret tt
    else Err (CE.InvalidScript "Transaction script verification failed for tx: ").

(** The input loop of [validate_transaction]: the output exists and a coinbase
    output is old enough; the age is an unsigned difference and wraps. *)
Fixpoint check_inputs_mature (u : UtxoSet) (current_block_height : Z) (inputs : list TxInput) :
    outcome CE.ConsensusError unit :=
  match inputs with
  | [] => mret tt
  | input :: inputs =>
      let outpoint := previous_output input in
      utxo ← ok_or (get_utxo u outpoint) (CE.MissingPreviousOutput outpoint);
      if is_coinbase_utxo utxo &&
         (wrap64 (current_block_height - creation_height utxo) <? COINBASE_MATURITY_PERIOD_BLOCKS)
      then Err (CE.ImmatureTicket "Coinbase UTXO is not yet mature")
      else check_inputs_mature u current_block_height inputs
  end.

(** [now]: the system time in seconds, cast to [u32]. *)
Definition check_lock_time (tx : Transaction) (current_block_height now : Z) :
    outcome CE.ConsensusError unit :=
  if get_lock_time tx <? LOCKTIME_THRESHOLD then
    if get_lock_time tx >? wrap32 current_block_height
    then Err (CE.InvalidLockTime "Transaction locktime is in the future (height)") else mret tt
  else if get_lock_time tx >? wrap32 now
  then Err (CE.InvalidLockTime "Transaction locktime is in the future (timestamp)")
  else mret tt.

Definition check_ticket_purchase (s : Blockchain) (tx : Transaction) :
    outcome CE.ConsensusError unit :=
  match tx with
  | TicketPurchase _ _ outputs ticket_id locked_amount _ _ ticket_address _ =>
      ticket_output ← ok_or (outputs !! 0%nat)
        (CE.InvalidTicket "Ticket purchase transaction missing output");
      if negb (value ticket_output =? locked_amount)
      then Err (CE.InvalidTicket "Ticket purchase output value does not match locked amount")
      else if negb (bool_decide (script_pubkey ticket_output = ticket_address))
      then Err (CE.InvalidTicket
             "Ticket purchase output script_pubkey does not match ticket address")
      else if bool_decide (is_Some (get_ticket (live_tickets s) ticket_id))
      then Err (CE.DuplicateTicketVote "Ticket already exists in live pool")
      else mret tt
  | _ => mret tt
  end.

Definition check_ticket_redemption (s : Blockchain) (tx : Transaction)
    (current_block_height : Z) : outcome CE.ConsensusError unit :=
  match tx with
  | TicketRedemption _ _ _ ticket_id _ _ _ =>
      ticket ← ok_or (get_ticket (live_tickets s) ticket_id)
        (CE.InvalidTicket "Ticket not found in live pool");
      if u64_add (ticket_height ticket) (ticket_maturity (params s)) >? current_block_height
      then Err (CE.ImmatureTicket "Ticket is not yet mature")
      else if u64_add (ticket_height ticket) (ticket_expiry (params s)) <=? current_block_height
      then Err (CE.ExpiredTicket "Ticket has expired")
      else mret tt
  | _ => mret tt
  end.

Definition check_coinbase_shape (tx : Transaction) : outcome CE.ConsensusError unit :=
  if negb (len (get_inputs tx) =? 1) ||
     negb (forallb (fun i => forallb (fun x => x =? 0) (txid (previous_output i))) (get_inputs tx))
  then Err (CE.InvalidCoinbase "Coinbase transaction must have a single null input")
  else if len (get_outputs tx) =? 0
  then Err (CE.InvalidCoinbase "Coinbase transaction must have at least one output")
  else mret tt.

Definition bc_validate_transaction (s : Blockchain) (now : Z) (tx : Transaction)
    (current_block_height : Z) : outcome CE.ConsensusError unit :=
  if is_coinbase tx then check_coinbase_shape tx
  else
    _ ← check_inputs_mature (utxo_set s) current_block_height (get_inputs tx);
    ok ← script_check (utxo_set s) tx current_block_height;
    if negb ok
    then Err (CE.InvalidScript "FerrisScript validation failed for transaction")
    else
      let total_input_value := spent_value (utxo_set s) tx in
      let total_output_value := created_value tx in
      if total_input_value <? u64_add total_output_value (get_fee tx)
      then Err (CE.InsufficientFee (get_fee tx)
             (u64_saturating_sub total_input_value total_output_value))
      else
        _ ← check_lock_time tx current_block_height now;
        _ ← check_ticket_purchase s tx;
        check_ticket_redemption s tx current_block_height.

(** * Governance *)

(** Every field but the id and the signature. *)
Definition proposal_canonical_bytes (p : Proposal) : option bytes :=
  bincode_proposal_payload (p <| proposal_id := [] |> <| proposer_signature := [] |>).

Definition proposal_hash (p : Proposal) : Hash :=
  match proposal_canonical_bytes p with
  | Some b => blake3 b
  | None => replicate 32 0
  end.

Definition vote_canonical_bytes (v : Vote) : option bytes :=
  bincode_vote_payload (v <| voter_signature := [] |>).

(** [title.chars().count()]: the bytes of a UTF-8 string that do not continue a
    character. *)
Definition chars_count (t : string) : Z :=
  len (filter (fun b => negb ((0x80 <=? b) && (b <? 0xC0))) (string_bytes t)).

Definition rule (holds : bool) (msg : string) : outcome CE.ConsensusError unit :=
  if holds then mret tt else Err (CE.RuleViolation msg).

Definition check_proposal (p : ConsensusParams) (proposal : Proposal) (current_block_height : Z) :
    outcome CE.ConsensusError unit :=
  _ ← rule (negb (start_block_height proposal <=? current_block_height))
        "Governance proposal voting start height must be in the future.";
  _ ← rule (negb (end_block_height proposal <=? start_block_height proposal))
        "Governance proposal end height must be greater than start height.";
  let voting_window := u64_add (end_block_height proposal - start_block_height proposal) 1 in
  _ ← rule (voting_window =? voting_period_blocks p)
        "Governance proposal voting window must equal configured voting period.";
  _ ← rule (negb (chars_count (title proposal) >? 128))
        "Governance proposal title exceeds 128 characters.";
  _ ← rule (negb (len (proposal_inputs proposal) =? 0))
        "Governance proposal must include at least one input to lock stake.";
  _ ← rule (negb (len (proposal_outputs proposal) =? 0))
        "Governance proposal must include at least one output for stake escrow.";
  let total_stake_locked := u64_sum (value <$> proposal_outputs proposal) in
  _ ← rule (negb (total_stake_locked <? proposal_stake_amount p))
        "Governance proposal must lock enough stake.";
  _ ← rule (bool_decide (proposal_id proposal = proposal_hash proposal))
        "Governance proposal ID does not match canonical hash.";
  message ← ok_or (proposal_canonical_bytes proposal) CE.bincode_failure;
  public_key ← ok_or (public_key_from_bytes (proposer_address proposal))
    (CE.InvalidSignature "Invalid proposer public key for governance proposal.");
  signature ← ok_or (signature_from_bytes (proposer_signature proposal))
    (CE.InvalidSignature "Invalid proposer signature encoding for governance proposal.");
  if ed25519_verify public_key message signature then mret tt
  else Err (CE.InvalidSignature "Invalid proposer signature for governance proposal.").

Definition process_governance_proposal (proposal : Proposal) (current_block_height : Z) : bcM unit :=
  _ ← reads (fun s => check_proposal (params s) proposal current_block_height);
  on_proposals (add_proposal proposal).

(** The key that must have signed the vote. *)
Definition voting_key (s : Blockchain) (vote : Vote) : outcome CE.ConsensusError bytes :=
  match voter_type vote with
  | PosTicket =>
      ticket ← ok_or (get_ticket_by_pubkey (live_tickets s) (voter_id vote))
        (CE.InvalidTicketVote "Voting ticket not found in live pool.");
      if negb (bool_decide (ticket_status ticket = Live))
      then Err (CE.InvalidTicketVote "Voting ticket is not active.")
      else if negb (len (ticket_pubkey ticket) =? 32)
      then Err (CE.InvalidSignature "Invalid ticket public key length.")
      else mret (ticket_pubkey ticket)
  | Masternode =>
      found ← ok_or (find_by_operator_key (masternode_list s) (voter_id vote))
        (CE.MasternodeError "Voting masternode not found or not active.");
      if negb (bool_decide (status found.2 = Active))
      then Err (CE.MasternodeError "Masternode voter is not active.")
      else if negb (len (operator_public_key (identity found.2)) =? 32)
      then Err (CE.InvalidSignature "Invalid masternode operator public key length.")
      else mret (operator_public_key (identity found.2))
  end.

Definition check_vote (s : Blockchain) (vote : Vote) (current_block_height : Z) :
    outcome CE.ConsensusError unit :=
  proposal ← ok_or (get_proposal (active_proposals s) (vote_proposal_id vote))
    (CE.InvalidTicketVote "Vote for non-existent proposal.");
  if (current_block_height <? start_block_height proposal) ||
     (current_block_height >? end_block_height proposal)
  then Err (CE.InvalidTicketVote "Vote outside of proposal voting period.")
  else
    message ← ok_or (vote_canonical_bytes vote) CE.bincode_failure;
    signature ← ok_or (signature_from_bytes (voter_signature vote))
      (CE.InvalidSignature "Invalid voter signature encoding.");
    key ← voting_key s vote;
    public_key ← ok_or (public_key_from_bytes key)
      (CE.InvalidSignature "Invalid public key for vote.");
    if ed25519_verify public_key message signature then mret tt
    else Err (CE.InvalidSignature "Invalid signature for vote.").

Definition process_governance_vote (vote : Vote) (current_block_height : Z) : bcM unit :=
  _ ← reads (fun s => check_vote s vote current_block_height);
  on_proposals (record_vote vote).

(** The ids of the proposals whose activation delay is over, in the map's
    iteration order. *)
Definition proposals_to_remove (s : Blockchain) (current_block_height : Z) : list Hash :=
  fst <$> filter (fun e =>
    current_block_height >?
      u64_add (end_block_height e.2.1) (activation_delay_blocks (params s)))
    (map_to_list (active_proposals s)).

Definition governance_voter_type (v : VoterType) : GovernanceVoterType :=
  match v with PosTicket => PoS | Masternode => MasternodeVoter end.

Definition voter_types_map (s : Blockchain) (id : Hash) : gmap Hash GovernanceVoterType :=
  match get_votes_for_proposal (active_proposals s) id with
  | Some votes => (fun v => governance_voter_type (voter_type v)) <$> votes
  | None => ∅
  end.

(** The effect of a passed proposal: only parameter changes do something. *)
Definition apply_passed (proposal : Proposal) : bcM unit :=
  match proposal_type proposal, target_parameter proposal, new_value proposal with
  | ParameterChange, Some param_name, Some new_value_str =>
      p ← reads (fun s => apply_parameter_change param_name new_value_str (params s));
      modify (fun s => s <| params := p |>)
  | _, _, _ => mret tt
  end.

Definition evaluate_one (current_block_height : Z) (id : Hash) : bcM unit :=
  proposal ← reads (fun s => ok_or (get_proposal (active_proposals s) id)
    (CE.Internal "Proposal not found during removal."));
  outcome ← reads (fun s =>
    evaluate_proposal_at_height (active_proposals s) (proposal_id proposal) current_block_height
      (count_live_tickets (live_tickets s)) (count_active_masternodes (masternode_list s))
      (pos_voting_quorum_percentage (params s)) (mn_voting_quorum_percentage (params s))
      (pos_approval_percentage (params s)) (mn_approval_percentage (params s))
      (voter_types_map s (proposal_id proposal)));
  match outcome with
  | Passed => apply_passed proposal;; on_proposals (remove_proposal (proposal_id proposal))
  | Rejected _ => on_proposals (remove_proposal (proposal_id proposal))
  | InProgress => mret tt
  | ProposalExpired => on_proposals (remove_proposal (proposal_id proposal))
  end.

Definition evaluate_and_apply_governance (current_block_height : Z) : bcM unit :=
  ids ← gets (fun s => proposals_to_remove s current_block_height);
  for_each ids (evaluate_one current_block_height).

(** * Votes of tickets on a block *)

Fixpoint check_votes (s : Blockchain) (block : Block) (expected seen : list TicketId)
    (votes : list TicketVote) : outcome CE.ConsensusError unit :=
  match votes with
  | [] => mret tt
  | vote :: votes =>
      let ticket_id := vote_ticket_id vote in
      let prev := previous_block_hash (header block) in
      if bool_decide (ticket_id ∈ seen)
      then Err (CE.InvalidTicketVote "Duplicate ticket vote in block")
      else if negb (bool_decide (ticket_id ∈ expected))
      then Err (CE.InvalidTicketVote "Ticket was not selected for voting")
      else
        ticket ← ok_or (get_ticket (live_tickets s) ticket_id)
          (CE.InvalidTicket "Voted ticket not found in live pool");
        if negb (bool_decide (ticket_status ticket = Live))
        then Err (CE.InvalidTicket "Ticket is not live")
        else if block_height block >=? u64_add (ticket_height ticket) (ticket_expiry (params s))
        then Err (CE.ExpiredTicket "Ticket has expired")
        else if negb (bool_decide (vote_block_hash vote = prev))
        then Err (CE.InvalidTicketVote "Vote block_hash mismatch")
        else
          ok ← ok_or (validate_ticket_signature (ticket_pubkey ticket) (vote_block_hash vote)
                        (vote_signature vote))
            (CE.InvalidSignature "Signature validation error");
          if negb ok then Err (CE.InvalidSignature "Invalid signature for ticket")
          else if vote_choice_u8 vote >? 2
          then Err (CE.InvalidTicketVote "Invalid vote type")
          else check_votes s block expected (ticket_id :: seen) votes
  end.

(** When the loop ends, [valid_votes] is the number of votes.  The pass over
    the tickets that did not vote only logs. *)
Definition validate_proof_of_stake_and_rewards (s : Blockchain) (block : Block)
    (total_reward : Z) : outcome CE.ConsensusError unit :=
  let votes := ticket_votes block in
  if len votes =? 0 then mret tt
  else if negb (len votes =? Z.of_nat VOTERS_PER_BLOCK)
  then Err (CE.InvalidTicketVote "PoS block must contain exactly 5 ticket votes")
  else
    expected ← select_voters (previous_block_hash (header block)) (live_tickets s);
    _ ← check_votes s block expected [] votes;
    let valid_votes := len votes in
    if valid_votes <? MIN_VALID_VOTES_REQUIRED then Err CE.InsufficientTicketVotes
    else if (total_reward >? 0) && (valid_votes >? 0) && (total_reward / valid_votes =? 0)
    then Err (CE.RuleViolation "Reward per voter would be zero")
    else mret tt.

(** The outputs are built and dropped; the call only fails on a missing ticket. *)
Definition distribute_pos_rewards (s : Blockchain) (block : Block) : outcome CE.ConsensusError unit :=
  if forallb (fun v => bool_decide (is_Some (get_ticket (live_tickets s) (vote_ticket_id v))))
       (ticket_votes block)
  then mret tt
  else Err (CE.InvalidTicket "Voted ticket not found in live pool").

(** * Adding a block *)

(** The checks against the latest block, made when the stored height is not
    zero. *)
Definition check_previous_block (s : Blockchain) (block : Block) (current_height : Z) :
    outcome CE.ConsensusError unit :=
  if current_height >? 0 then
    latest ← map_err internal (get_latest_block s);
    last_block ← ok_or latest (CE.Internal "Last block not found for validation");
    last_hash ← header_hash (header last_block);
    if negb (bool_decide (previous_block_hash (header block) = last_hash))
    then Err (CE.InvalidBlock "Fork detected")
    else
      let window := difficulty_adjustment_window (params s) in
      let last_target := u256_from (difficulty_target (header last_block)) in
      if window =? 0 then Panic
      else if current_height mod window =? 0 then
        first ← get_block (state s) (current_height - window);
        first_block ← ok_or first (CE.Internal "First block in interval not found");
        new_difficulty ← core_calculate_new_target last_target
          (wrap64 (timestamp (header last_block) - timestamp (header first_block)))
          (min_block_time (params s)) U256_MAX;
        unscaled ← core_calculate_new_target last_target 0 0 U256_MAX;
        if negb (u256_val unscaled =? u256_val new_difficulty)
        then Err CE.InvalidProofOfWork else mret tt
      else if negb (u256_val (u256_from (difficulty_target (header block))) =? u256_val last_target)
      then Err CE.InvalidProofOfWork
      else mret tt
  else mret tt.

(** [core_verify_pow] has no error of its own. *)
Definition pow_check (h : BlockHeader) : outcome CE.ConsensusError bool :=
  map_err (fun e : Empty_set => match e with end)
    (core_verify_pow h (u256_from (difficulty_target h))).

Definition check_pow (h : BlockHeader) : outcome CE.ConsensusError unit :=
  ok ← pow_check h;
  if ok : bool then mret tt else Err CE.InvalidProofOfWork.

Definition validate_slash (s : Blockchain) (slash : MasternodeSlash) : outcome CE.ConsensusError unit :=
  proof_data ← ok_or (bincode_vec (slash_proof slash))
    (CE.SerializationError "Failed to encode proof data: ");
  match slash_reason slash with
  | MasternodeNonResponse =>
      proof ← ok_or (decode_non_participation_proof proof_data)
        (CE.SerializationError "Failed to deserialize non-participation proof: ");
      validate_non_participation_proof (np_masternode_id proof) (masternode_list s)
  | DoubleSigning =>
      proof ← ok_or (decode_malicious_proof proof_data)
        (CE.SerializationError "Failed to deserialize malicious proof: ");
      validate_malicious_proof (mp_masternode_id proof) (masternode_list s)
  | _ => Err (CE.RuleViolation "Unsupported slashing reason: ")
  end.

(** One round of the transaction loop; [Some]: the transaction is kept.
    Slashing transactions are checked and not kept. *)
Definition add_block_tx (current_height : Z) (tx : Transaction) : bcM (option Transaction) :=
  match tx with
  | GovernanceProposal proposal =>
      process_governance_proposal proposal current_height;;
      _ ← reads (fun s => validate_transaction_inputs_and_scripts s tx current_height);
      mret (Some tx)
  | GovernanceVote vote =>
      process_governance_vote vote current_height;;
      _ ← reads (fun s => validate_transaction_inputs_and_scripts s tx current_height);
      mret (Some tx)
  | MasternodeSlashTx slash =>
      _ ← reads (fun s => validate_slash s slash);
      mret None
  | _ =>
      _ ← reads (fun s => validate_transaction_inputs_and_scripts s tx current_height);
      mret (Some tx)
  end.

Fixpoint add_block_txs (current_height : Z) (txs : list Transaction) : bcM (list Transaction) :=
  match txs with
  | [] => mret []
  | tx :: txs =>
      kept ← add_block_tx current_height tx;
      rest ← add_block_txs current_height txs;
      mret (match kept with Some tx => tx :: rest | None => rest end)
  end.

(** The rewards of a block: the share of the miner and the share of the voters. *)
Definition block_rewards (s : Blockchain) (height : Z) (txs : list Transaction) :
    outcome CE.ConsensusError (Z * Z) :=
  block_subsidy ← get_block_subsidy height (halving_interval (params s))
    (initial_block_reward (params s));
  let total_reward := u64_add block_subsidy (total_fees (utxo_set s) txs) in
  let pos_reward := pos_share (params s) total_reward in
  mret (wrap64 (total_reward - pos_reward), pos_reward).

(** The first output of the coinbase is overwritten with the full reward. *)
Definition set_reward (coinbase : Transaction) (reward : Z) : outcome CE.ConsensusError Transaction :=
  match get_outputs coinbase with
  | o :: outputs => mret (with_outputs coinbase (mkTxOutput reward (script_pubkey o) None :: outputs))
  | [] => Err (CE.InvalidCoinbase "Coinbase transaction has no outputs to assign reward to.")
  end.

(** The coinbase is taken from the front of the sorted transactions. *)
Definition settle_coinbase (s : Blockchain) (height : Z) (txs : list Transaction) :
    outcome CE.ConsensusError (list Transaction * Z) :=
  match txs with
  | [] => Panic
  | coinbase_tx :: rest =>
      if negb (is_coinbase coinbase_tx)
      then Err (CE.InvalidCoinbase "First transaction in block is not a coinbase transaction")
      else
        rewards ← block_rewards s height rest;
        let '(pow_reward, pos_reward) := rewards in
        if created_value coinbase_tx >? pow_reward
        then Err (CE.InvalidCoinbase "Coinbase output value exceeds expected PoW reward.")
        else
          coinbase_tx ← set_reward coinbase_tx pow_reward;
          mret (coinbase_tx :: rest, pos_reward)
  end.

(** The registration built from the transaction's identity. *)
Definition registration_of (i : MasternodeIdentity) : MasternodeRegistration :=
  mkMasternodeRegistration
    (i <| dkg_public_key := None |> <| supported_dkg_versions := [] |>) [].

Definition add_block_masternodes (height : Z) (tx : Transaction) : bcM unit :=
  match tx with
  | MasternodeRegister masternode_identity _ _ _ _ _ =>
      on_masternodes CE.Internal
        (register_masternode (registration_of masternode_identity) (wrap32 height))
  | MasternodeSlashTx slash =>
      ignore_error (on_masternodes CE.Internal
        (update_masternode_status (slash_masternode_id slash) Banned));;
      match slash_reason slash with
      | MasternodeNonResponse => mret tt
      | _ => modify (fun s => s <| masternode_list ::=
               (fun l => fst (remove_masternode (slash_masternode_id slash) l)) |>)
      end
  | _ => mret tt
  end.

Definition drop_from_mempool (tx : Transaction) : bcM unit :=
  id ← lift (tx_txid tx);
  modify (fun s => s <| mempool ::= (fun m => fst (remove_transaction id m)) |>).

Definition update_tickets (block : Block) : bcM unit := fun s =>
  on_tickets (update_for_new_block block (get_used_inputs_as_ticket_ids (utxo_set s))) s.

Definition bc_calculate_state_root (s : Blockchain) : outcome CE.ConsensusError Hash :=
  calculate_state_root (utxo_set s) (live_tickets s) (masternode_list s) (active_proposals s).

Definition set_tip (block : Block) : bcM unit :=
  hash ← lift (block_hash block);
  on_state (fun e => e) (modify (update_tip hash (block_height block))).

(** The second half of [add_block]: the block is applied, then its state root
    is compared. *)
Definition apply_added_block (block : Block) : bcM unit :=
  ignore_error (on_utxo (apply_block block (block_height block)));;
  on_state internal (put_block block);;
  for_each (transactions block) drop_from_mempool;;
  for_each (transactions block) (add_block_masternodes (block_height block));;
  ignore_error (update_tickets block);;
  root ← reads bc_calculate_state_root;
  if negb (bool_decide (state_root (header block) = root))
  then throw (CE.StateError "State root mismatch")
  else set_tip block.

(** The part of [add_block] behind the header checks; [txs] is sorted. *)
Definition add_checked_block (block : Block) (current_height : Z) (txs : list Transaction) :
    bcM unit :=
  kept ← add_block_txs current_height txs;
  settled ← reads (fun s => settle_coinbase s (block_height block) (sort_by_fee_desc kept));
  let '(txs, pos_reward) := settled in
  let block := mkBlock (header block) (ticket_votes block) txs in
  (if is_proof_of_stake (header block) then
     _ ← reads (fun s => validate_proof_of_stake_and_rewards s block pos_reward);
     reads (fun s => distribute_pos_rewards s block)
   else mret tt);;
  apply_added_block block.

Definition add_block (block : Block) : bcM unit :=
  current_height ← reads (fun s => map_err internal (get_current_block_height (state s)));
  match transactions block with
  | [] => panic
  | first :: rest =>
      let txs := first :: sort_by_fee_desc rest in
      _ ← reads (fun s => check_previous_block s block current_height);
      _ ← lift (check_pow (header block));
      add_checked_block block current_height txs
  end.

(** * Processing a block *)

Fixpoint validate_all (s : Blockchain) (now height : Z) (txs : list Transaction) :
    outcome CE.ConsensusError unit :=
  match txs with
  | [] => mret tt
  | tx :: txs => _ ← bc_validate_transaction s now tx height; validate_all s now height txs
  end.

Definition process_block_masternodes (height : Z) (tx : Transaction) : bcM unit :=
  match tx with
  | MasternodeRegister masternode_identity _ _ _ _ _ =>
      on_masternodes CE.MasternodeError
        (register_masternode (registration_of masternode_identity) (wrap32 height))
  | MasternodeSlashTx slash =>
      modify (fun s => s <| masternode_list ::=
        (fun l => fst (remove_masternode (slash_masternode_id slash) l)) |>)
  | _ => mret tt
  end.

Definition process_block (now : Z) (block : Block) : bcM unit :=
  let height := block_height block in
  _ ← reads (fun s => validate_all s now height (transactions block));
  ignore_error (on_utxo (apply_block block height));;
  for_each (transactions block) (process_block_masternodes height);;
  update_tickets block;;
  modify (fun s => s <| live_tickets ::= process_ticket_finality height |>);;
  evaluate_and_apply_governance height;;
  on_state (fun _ => CE.DatabaseError "") (put_block block);;
  set_tip block.

(** * Reverting a block *)

Definition revert_masternodes (tx : Transaction) : bcM unit :=
  match tx with
  | MasternodeRegister masternode_identity _ _ _ _ _ =>
      modify (fun s => s <| masternode_list ::=
        (fun l => fst (remove_masternode (mkMasternodeID (collateral_outpoint masternode_identity)) l)) |>)
  | _ => mret tt
  end.

Definition revert_governance (tx : Transaction) : bcM unit :=
  match tx with
  | GovernanceProposal proposal => on_proposals (remove_proposal (proposal_id proposal))
  | GovernanceVote vote => on_proposals (remove_vote (vote_proposal_id vote) (voter_id vote))
  | TicketPurchase _ _ _ ticket_id _ _ _ _ _ => _ ← on_tickets (remove_ticket ticket_id); mret tt
  | _ => mret tt
  end.

Definition bc_revert_block (block : Block) : bcM unit :=
  on_utxo (revert_block block);;
  modify (fun s => s <| live_tickets ::=
    update_for_revert_block block (get_used_inputs_as_ticket_ids (utxo_set s)) |>);;
  for_each (reverse (transactions block)) revert_masternodes;;
  for_each (reverse (transactions block)) revert_governance;;
  on_state internal (modify (update_tip (previous_block_hash (header block))
    (wrap64 (block_height block - 1))));;
  hash ← lift (block_hash block);
  on_state internal (modify (remove_block_by_hash hash));;
  on_state internal (remove_block_by_height (block_height block)).

(** * Validating the stored chain *)

Definition invalid {A} (msg : string) : outcome CE.ConsensusError A := Err (CE.InvalidBlock msg).

(** [match self.state.get_block(height) { Ok(Some(block)) => .., _ => .. }] *)
Definition block_at (s : Blockchain) (height : Z) : option Block :=
  match get_block (state s) height with
  | Ok (Some b) => Some b
  | _ => None
  end.

Definition zero_hash : Hash := replicate 32 0.

Definition validate_genesis_block (s : Blockchain) : outcome CE.ConsensusError unit :=
  match block_at s 0 with
  | None => invalid "Genesis block not found"
  | Some genesis =>
      let h := header genesis in
      if negb (header_height h =? 0) then invalid "Genesis block height is not 0"
      else if negb (bool_decide (previous_block_hash h = zero_hash))
      then invalid "Genesis block has non-zero previous block hash"
      else if negb (header_version h =? 1) then invalid "Genesis block version is not 1"
      else if len (transactions genesis) =? 0 then invalid "Genesis block has no transactions"
      else
        _ ← check_pow h;
        if bool_decide (state_root h = zero_hash)
        then Err (CE.StateError "Genesis block has zero state root")
        else mret tt
  end.

Definition validate_block_header_at_height (s : Blockchain) (block : Block) (height : Z) :
    outcome CE.ConsensusError unit :=
  let h := header block in
  if negb (header_height h =? height) then invalid "Block height mismatch"
  else if negb (header_version h =? 1) then invalid "Invalid block version"
  else
    _ ← (if height >? 0 then
           match block_at s (height - 1) with
           | Some prev_block =>
               prev_hash ← block_hash prev_block;
               if negb (bool_decide (previous_block_hash h = prev_hash))
               then invalid "Previous block hash mismatch" else mret tt
           | None => invalid "Previous block not found"
           end
         else if negb (bool_decide (previous_block_hash h = zero_hash))
         then invalid "Genesis block must have zero previous block hash"
         else mret tt);
    root ← Block_calculate_merkle_root block;
    if negb (bool_decide (merkle_root h = root)) then invalid "Merkle root mismatch"
    else check_pow h.

Definition validate_coinbase_transaction (s : Blockchain) (coinbase : Transaction) (height : Z) :
    outcome CE.ConsensusError bool :=
  if negb (is_coinbase coinbase) then mret false
  else
    match get_inputs coinbase with
    | [input] =>
        if negb (bool_decide (txid (previous_output input) = zero_hash)) ||
           negb (vout (previous_output input) =? u32_max)
        then mret false
        else if len (get_outputs coinbase) =? 0 then mret false
        else
          total_reward ← get_block_subsidy height (halving_interval (params s))
            (initial_block_reward (params s));
          mret (negb (created_value coinbase >? u64_add total_reward (total_reward / 100)))
    | _ => mret false
    end.

(** [Err(_) => false] *)
Definition validate_non_coinbase_transaction (s : Blockchain) (now : Z) (tx : Transaction)
    (height : Z) : outcome CE.ConsensusError bool :=
  match bc_validate_transaction s now tx height with
  | Ok _ => Ok true
  | Err _ => Ok false
  | Panic => Panic
  | OutOfFuel => OutOfFuel
  end.

Fixpoint validate_non_coinbase (s : Blockchain) (now height : Z) (txs : list Transaction) :
    outcome CE.ConsensusError unit :=
  match txs with
  | [] => mret tt
  | tx :: txs =>
      if is_coinbase tx then invalid "Multiple coinbase transactions in block"
      else
        ok ← validate_non_coinbase_transaction s now tx height;
        if ok : bool then validate_non_coinbase s now height txs
        else Err (CE.TransactionValidation "Non-coinbase transaction validation failed")
  end.

Definition validate_block_transactions (s : Blockchain) (now : Z) (block : Block) (height : Z) :
    outcome CE.ConsensusError unit :=
  match transactions block with
  | [] => invalid "Block contains no transactions"
  | first :: rest =>
      if negb (is_coinbase first) then invalid "First transaction in block is not coinbase"
      else
        ok ← validate_coinbase_transaction s first height;
        if negb ok then Err (CE.InvalidCoinbase "Coinbase transaction validation failed")
        else validate_non_coinbase s now height rest
  end.

(** Called with [height > 0] only. *)
Definition validate_difficulty_adjustment (s : Blockchain) (block : Block) (height : Z) :
    outcome CE.ConsensusError unit :=
  let interval := 2016 in
  let block_time := 150 in
  let target := difficulty_target (header block) in
  if negb ((height - 1) mod interval =? 0) then
    match block_at s (height - 1) with
    | Some prev_block =>
        if negb (target =? difficulty_target (header prev_block))
        then Err CE.InvalidProofOfWork else mret tt
    | None => invalid "Previous block not found for difficulty validation"
    end
  else if height <? interval then
    if target =? 0 then Err CE.InvalidProofOfWork else mret tt
  else
    match block_at s (height - interval), block_at s (height - 1) with
    | Some first_block, Some last_block =>
        let actual_time := u64_saturating_sub (timestamp (header last_block))
          (timestamp (header first_block)) in
        let expected_time := interval * block_time in
        let prev_target := u256_from (difficulty_target (header last_block)) in
        new_target ← core_calculate_new_target prev_target actual_time expected_time U256_MAX;
        let expected_difficulty := core_target_to_compact new_target in
        if negb (target =? expected_difficulty) then Err CE.InvalidProofOfWork else mret tt
    | _, _ => invalid "Blocks not found for difficulty adjustment validation"
    end.

(** [now]: the system time in seconds. *)
Definition validate_block_timestamp (s : Blockchain) (now : Z) (block : Block) (height : Z) :
    outcome CE.ConsensusError unit :=
  if height >? 0 then
    match block_at s (height - 1) with
    | Some prev_block =>
        if timestamp (header block) <=? timestamp (header prev_block)
        then invalid "Block timestamp is not greater than previous block timestamp"
        else if timestamp (header block) >? u64_add now 7200
        then invalid "Block timestamp is more than 2 hours in the future"
        else mret tt
    | None => invalid "Previous block not found for timestamp validation"
    end
  else mret tt.

(** The root is not recomputed. *)
Definition validate_state_root (block : Block) (height : Z) : outcome CE.ConsensusError unit :=
  if bool_decide (state_root (header block) = zero_hash) && (height >? 0)
  then Err (CE.StateError "State root is zero for non-genesis block")
  else mret tt.

Fixpoint check_vote_shapes (votes : list TicketVote) : outcome CE.ConsensusError unit :=
  match votes with
  | [] => mret tt
  | vote :: votes =>
      if bool_decide (vote_ticket_id vote = zero_hash)
      then Err (CE.InvalidTicketVote "Ticket vote has zero ticket ID")
      else if negb (len (vote_signature vote) =? 64)
      then Err (CE.InvalidTicketVote "Ticket vote signature has invalid length")
      else check_vote_shapes votes
  end.

Definition validate_pos_components (block : Block) : outcome CE.ConsensusError unit :=
  if len (ticket_votes block) =? 0 then mret tt
  else if len (ticket_votes block) <? 3
  then Err (CE.InvalidTicketVote "PoS block must have at least 3 votes")
  else check_vote_shapes (ticket_votes block).

Definition validate_block_comprehensive (s : Blockchain) (now : Z) (block : Block) (height : Z) :
    outcome CE.ConsensusError unit :=
  _ ← validate_block_header_at_height s block height;
  _ ← validate_block_transactions s now block height;
  _ ← (if height >? 0 then validate_difficulty_adjustment s block height else mret tt);
  _ ← validate_block_timestamp s now block height;
  _ ← validate_state_root block height;
  if negb (len (ticket_votes block) =? 0) then validate_pos_components block else mret tt.

(** The same steps on the stored block. *)
Definition validate_block_at_height (s : Blockchain) (now height : Z) :
    outcome CE.ConsensusError unit :=
  match block_at s height with
  | None => invalid "Block at height not found"
  | Some block => validate_block_comprehensive s now block height
  end.

(** [for height in 0..=current_height]: [n] is the number of heights left. *)
Fixpoint validate_heights (s : Blockchain) (now height : Z) (n : nat) :
    outcome CE.ConsensusError unit :=
  match n with
  | O => mret tt
  | S n => _ ← validate_block_at_height s now height; validate_heights s now (height + 1) n
  end.

(** UTXO and ticket checks return [true] for every state. *)
Definition validate_utxo_consistency (s : Blockchain) : bool := true.
Definition validate_ticket_pool_consistency (s : Blockchain) : bool := true.

Definition validate_masternode_consistency (s : Blockchain) : bool :=
  forallb (fun mn_id =>
    match get_masternode (masternode_list s) mn_id with
    | Some mn_entry => is_ok (bc_get_utxo s (collateral_outpoint (identity mn_entry)))
    | None => true
    end) (active_masternodes s).

Definition validate_state_consistency (s : Blockchain) : bool :=
  validate_utxo_consistency s && validate_masternode_consistency s &&
  validate_ticket_pool_consistency s.

Definition validate_blockchain_integrity (s : Blockchain) (now : Z) :
    outcome CE.ConsensusError unit :=
  current_height ← map_err internal (get_current_block_height (state s));
  _ ← (if current_height =? 0 then validate_genesis_block s
       else validate_heights s now 0 (S (Z.to_nat current_height)));
  if negb (validate_state_consistency s) then invalid "State consistency validation failed"
  else mret tt.

(** [is_ok()] of each step; a panic unwinds. *)
Definition is_valid (s : Blockchain) (now : Z) : outcome Empty_set bool :=
  let accept (o : outcome CE.ConsensusError unit) (k : bool) : outcome Empty_set bool :=
    match o with
    | Ok _ => Ok k
    | Err _ => Ok false
    | Panic => Panic
    | OutOfFuel => OutOfFuel
    end in
  match get_current_block_height (state s) with
  | Ok current_height =>
      if current_height =? 0 then accept (validate_genesis_block s) true
      else accept (validate_heights s now 0 (S (Z.to_nat current_height)))
             (validate_state_consistency s)
  | Err _ => Ok false
  | Panic => Panic
  | OutOfFuel => OutOfFuel
  end.

Definition validate_block_size (s : Blockchain) (block : Block) : outcome CE.ConsensusError unit :=
  data ← ok_or (bincode_block block) CE.bincode_failure;
  if len data >? max_block_size (params s)
  then invalid "Block size exceeds maximum allowed size" else mret tt.

(** * Proof of service *)

(** [sign] is the node's key. *)
Definition generate_pose_challenge (sign : bytes -> bytes) (target : MasternodeID)
    (block_height : Z) (block_hash : Hash) : outcome CE.ConsensusError PoSeChallenge :=
  first ← unwrap (slice (blake3 (default [] (bincode_mn_id target) ++ to_le_bytes 8 block_height ++
                                 block_hash)) 0 8);
  mret (mkPoSeChallenge (from_le_bytes first) block_hash target block_height (sign block_hash)).

Definition verify_pose_response (challenge_message signed_block_hash operator_public_key : bytes) :
    bool :=
  match public_key_from_bytes operator_public_key, signature_from_bytes signed_block_hash with
  | Some pk, Some signature => ed25519_verify pk challenge_message signature
  | _, _ => false
  end.

Definition check_pose_response (s : Blockchain) (challenge : PoSeChallenge)
    (response : PoSeResponse) : outcome CE.ConsensusError unit :=
  challenge_message ← ok_or (bincode_challenge challenge) CE.bincode_failure;
  target_masternode ← ok_or (masternode_list s !! challenger_masternode_id challenge)
    (CE.MasternodeError "Target masternode not found.");
  let key := operator_public_key (identity target_masternode) in
  if negb (len key =? 32) then Err (CE.Internal "Invalid operator public key length")
  else if negb (verify_pose_response challenge_message (signed_block_hash response) key)
  then Err (CE.InvalidPoSeResponse "Invalid PoSe response signature")
  else
    current_height ← get_current_block_height (state s);
    if current_height >? u64_add (challenge_generation_block_height challenge)
                           (pose_challenge_period_blocks (params s))
    then Err (CE.PoSeChallengeExpired "Challenge expired")
    else if negb (bool_decide (signed_block_hash response = challenge_block_hash challenge))
    then Err (CE.InvalidPoSeResponse "Incorrect block hash in PoSe response")
    else mret tt.

Definition process_pose_response (challenge : PoSeChallenge) (response : PoSeResponse) :
    bcM (option Transaction) :=
  _ ← reads (fun s => check_pose_response s challenge response);
  current_height ← reads (fun s => get_current_block_height (state s));
  ignore_error (on_masternodes CE.Internal
    (update_successful_pose (target_masternode_id response) (wrap32 current_height)));;
  mret None.

(** [idx] is the index drawn from the active masternodes. *)
Definition generate_pose_challenge_tx (sign : bytes -> bytes) (idx : nat) (s : Blockchain) :
    outcome CE.ConsensusError (option Transaction) :=
  match active_masternodes s with
  | [] => mret None
  | active =>
      target ← unwrap (active !! idx);
      current_height ← get_current_block_height (state s);
      _ ← generate_pose_challenge sign (mkMasternodeID (mkOutPoint (txid (mn_outpoint target)) 0))
            current_height (tip s);
      mret (Some (Standard 1 [] [] 0 0 []))
  end.

End WithCodecs.
