(* ===== verification/BlockchainProps.v ===== *)
(** Theorems about the blockchain state machine of Blockchain.v: what every
    reachable state satisfies, and what an accepted block, vote, proposal or
    proof-of-service response has passed. *)

From Stdlib Require Import ZArith Lia List SpecFloat.
From stdpp Require Import base option list numbers strings gmap relations sorting.
From coqutil Require Import Datatypes.RecordSetters.
From S2P Require Import Prelude Types Errors Transaction ScriptEngine SamplePrimitives F64 Merkle.
From S2P Require Import Params U256 OxideHash Pow UtxoSet UtxoProps TxValidation Masternodes.
From S2P Require Import LiveTickets GovernanceState ChainState Trie Mempool Blockchain.

Import TriangleBracketNotations.
#[local] Arguments constant {E} newValue _ /.
#[local] Open Scope Z_scope.

(** * Preservation through fields *)

Lemma preserves_zoom {S E A} (I : Blockchain -> Prop) (get : Blockchain -> S) put
    (err : E -> CE.ConsensusError) (m : stM S E A) :
  (forall s, I s -> I (put (fst (m (get s))) s)) -> preserves I (zoom get put err m).
Proof.
  intros Hm s Hs. unfold zoom. specialize (Hm s Hs). destruct (m (get s)) as [x [a|e| |]]; done.
Qed.

Lemma preserves_reads {A} (I : Blockchain -> Prop) (f : Blockchain -> outcome CE.ConsensusError A) :
  preserves I (reads f).
Proof. intros s Hs. unfold reads. by destruct (f s). Qed.

Lemma preserves_ignore (I : Blockchain -> Prop) (m : bcM unit) :
  preserves I m -> preserves I (ignore_error m).
Proof.
  intros Hm s Hs. unfold ignore_error. specialize (Hm s Hs). by destruct (m s) as [s' [a|e| |]].
Qed.

#[export] Hint Resolve preserves_reads preserves_ignore : keep.

Lemma sort_by_fee_desc_perm l : sort_by_fee_desc l ≡ₚ l.
Proof. unfold sort_by_fee_desc. by rewrite reverse_Permutation, sort_by_perm. Qed.

(** * Reachable states *)

Section Reachable.
  Context `{HL : HashLaws, TicketCodec, StoreCodec, TrieCodec, ChainCodec, U256}.

(** The public entry points that change the chain.  A call counts as a step
    whatever it returns: the caller keeps the struct it leaves behind. *)
Inductive bc_step : Blockchain -> Blockchain -> Prop :=
| step_add block s : bc_step s (fst (add_block block s))
| step_process now block s : bc_step s (fst (process_block now block s))
| step_revert block s : bc_step s (fst (bc_revert_block block s))
| step_governance height s : bc_step s (fst (evaluate_and_apply_governance height s))
| step_pose challenge response s : bc_step s (fst (process_pose_response challenge response s))
| step_submit tx s :
    bc_step s (s <| mempool :=
      fst (validate_and_add_transaction tx (utxo_set s) (state s) (mempool s)) |>).

Definition reachable (s : Blockchain) : Prop := rtc bc_step Blockchain_new s.

(** Proposals start after height zero and have no votes. *)
Definition unvoted (p : ActiveProposals) : Prop :=
  map_Forall (fun _ pv => 0 < start_block_height pv.1 /\ pv.2 = ∅) p.

(** What never changes: no height is written to the store, the tip is the zero
    hash, the parameters are the defaults, no masternode becomes active, no vote
    is recorded. *)
Record chain_inv (s : Blockchain) : Prop := {
  inv_height : db (state s) !! string_bytes "current_height" = None;
  inv_tip : tip s = zero_hash;
  inv_params : params s = ConsensusParams_default;
  inv_masternodes : never_active (masternode_list s);
  inv_proposals : unvoted (active_proposals s);
}.

Lemma chain_inv_new : chain_inv Blockchain_new.
Proof. by split. Qed.

Lemma inv_on_utxo {A} (m : utxoM A) : preserves chain_inv (on_utxo m).
Proof. apply preserves_zoom. intros s []. by split. Qed.

Lemma inv_on_tickets {A} (m : poolM A) : preserves chain_inv (on_tickets m).
Proof. apply preserves_zoom. intros s []. by split. Qed.

Lemma inv_on_proposals {A} (m : govM A) :
  (forall p, unvoted p -> unvoted (fst (m p))) -> preserves chain_inv (on_proposals m).
Proof. intros Hm. apply preserves_zoom. intros s []. split; try done. by apply Hm. Qed.

Lemma inv_remove_proposal id : preserves chain_inv (on_proposals (remove_proposal id)).
Proof.
  apply inv_on_proposals. intros p Hp. unfold remove_proposal. destruct (p !! id); [|done].
  by apply map_Forall_delete.
Qed.

Lemma inv_remove_vote id voter : preserves chain_inv (on_proposals (remove_vote id voter)).
Proof.
  apply inv_on_proposals. intros p Hp. unfold remove_vote.
  destruct (p !! id) as [[pr votes]|] eqn:Hid; [|done]. destruct (Hp _ _ Hid) as [Hs Hv].
  cbn in Hs, Hv. subst votes. by rewrite lookup_empty.
Qed.

(** Methods of the list that [mn_exec] covers. *)
Lemma inv_on_masternodes err (m : mnM unit) op :
  (forall l, fst (m l) = mn_exec op l) ->
  (forall i st, op = OpSetStatus i st -> st <> Active /\ st <> Probation) ->
  preserves chain_inv (on_masternodes err m).
Proof.
  intros Hm Hop. apply preserves_zoom. intros s []. split; try done.
  change (never_active (fst (m (masternode_list s)))). rewrite Hm. by apply mn_exec_never_active.
Qed.

Lemma inv_on_state {A} err (m : stateM A) :
  preserves (fun st => db st !! string_bytes "current_height" = None) m ->
  preserves chain_inv (on_state err m).
Proof.
  intros Hm. apply preserves_zoom. intros s []. split; try done.
  exact (preserves_fst _ _ _ Hm inv_height0).
Qed.

#[local] Hint Resolve inv_on_utxo inv_on_tickets inv_remove_proposal inv_remove_vote : keep.

Lemma inv_put_block err block : preserves chain_inv (on_state err (put_block block)).
Proof using HL.
  apply inv_on_state. intros s Hs. unfold put_block, put_block_hash.
  rewrite stM_bind_run. unfold lift.
  destruct (block_hash block) as [h|e| |] eqn:Hh; try done.
  rewrite stM_bind_run. destruct (bincode_block block) as [d|]; try done. cbn [ok_or].
  assert (Hi : forall k v, k <> string_bytes "current_height" ->
    forall s, db s !! string_bytes "current_height" = None ->
    db (db_insert k v s) !! string_bytes "current_height" = None).
  { intros k v Hk s' Hs'. change (<[k := v]> (db s') !! string_bytes "current_height" = None).
    by rewrite lookup_insert_ne. }
  rewrite stM_bind_run. cbn [modify]. rewrite stM_bind_run.
  assert (Hn : h <> string_bytes "current_height").
  { pose proof (current_height_not_hash h (block_hash_length _ _ Hh)). congruence. }
  destruct (bincode_hash h); cbn [ok_or modify]; [|by apply Hi].
  apply Hi; [|by apply Hi]. pose proof (current_height_not_key (block_height block)). congruence.
Qed.

Lemma inv_set_tip block : preserves chain_inv (set_tip block).
Proof.
  unfold set_tip. keep. apply inv_on_state. by apply preserves_modify.
Qed.

#[local] Hint Resolve inv_put_block inv_set_tip : keep.

Lemma inv_register err r h : preserves chain_inv (on_masternodes err (register_masternode r h)).
Proof. by apply (inv_on_masternodes _ _ (OpRegister r h)). Qed.

Lemma inv_remove_masternode i :
  preserves chain_inv (modify (fun s => s <| masternode_list ::=
    (fun l => fst (remove_masternode i l)) |>) : bcM unit).
Proof.
  apply preserves_modify. intros s []. split; try done.
  by apply (mn_exec_never_active (OpRemove i)).
Qed.

#[local] Hint Resolve inv_register inv_remove_masternode : keep.

(** No proposal passes: the masternode quorum is a share of zero. *)
Lemma evaluate_never_passes s id h live pq mq pa ma vt :
  evaluate_proposal_at_height s id h live 0 pq mq pa ma vt <> Ok Passed.
Proof.
  unfold evaluate_proposal_at_height. destruct (get_proposal s id) as [p|]; [|done].
  cbn [ok_or mbind outcome_bind]. destruct (h <? start_block_height p); [done|].
  destruct (h >? end_block_height p); [done|].
  destruct (get_votes_for_proposal s id) as [votes|]; [|done]. cbn [ok_or mbind outcome_bind].
  unfold check_quorum_and_supermajority, share_reached at 2. cbn. by rewrite orb_true_r.
Qed.

Lemma inv_evaluate_one h id : preserves chain_inv (evaluate_one h id).
Proof.
  unfold evaluate_one. keep_step; [auto with keep|].
  apply (triple_bind _ (fun o s => chain_inv s /\ o <> Passed)).
  - intros s Hs. unfold reads. rewrite (count_active_zero _ (inv_masternodes s Hs)).
    pose proof (evaluate_never_passes (active_proposals s) (proposal_id a) h
      (count_live_tickets (live_tickets s)) (pos_voting_quorum_percentage (params s))
      (mn_voting_quorum_percentage (params s)) (pos_approval_percentage (params s))
      (mn_approval_percentage (params s)) (voter_types_map s (proposal_id a))) as Hn.
    destruct (evaluate_proposal_at_height _ _ _ _ _ _ _ _ _ _) as [o|e| |]; try done.
    split; [done|]. congruence.
  - intros [|reason| |]; intros s [Hs Ho]; [done|..]; by apply inv_remove_proposal || by apply preserves_ret.
Qed.

Lemma inv_governance h : preserves chain_inv (evaluate_and_apply_governance h).
Proof. unfold evaluate_and_apply_governance. keep. apply inv_evaluate_one. Qed.

#[local] Hint Resolve inv_governance : keep.

(** A proposal that was checked starts in the future. *)
Lemma check_proposal_start p proposal h :
  check_proposal p proposal h = Ok tt -> h < start_block_height proposal.
Proof.
  unfold check_proposal, rule. destruct (Z.leb_spec (start_block_height proposal) h); [done|]. lia.
Qed.

Lemma inv_process_proposal proposal h :
  0 <= h -> preserves chain_inv (process_governance_proposal proposal h).
Proof.
  intros Hh. apply (triple_bind _ (fun _ s => chain_inv s /\ 0 < start_block_height proposal)).
  - intros s Hs. unfold reads. destruct (check_proposal _ _ _) as [[]|e| |] eqn:Hc; try done.
    split; [done|]. apply check_proposal_start in Hc. lia.
  - intros []. apply triple_pure. intros Hst. apply inv_on_proposals. intros p Hp. unfold add_proposal.
    destruct (p !! proposal_id proposal); [done|]. by apply map_Forall_insert_2.
Qed.

(** No vote passes at height zero. *)
Lemma vote_rejected vote s :
  unvoted (active_proposals s) -> is_ok (check_vote s vote 0) = false.
Proof.
  intros Hs. unfold check_vote, get_proposal.
  destruct (active_proposals s !! vote_proposal_id vote) as [[p votes]|] eqn:Hp; [|done].
  destruct (Hs _ _ Hp) as [Hst _]. cbn in Hst. cbn [fmap option_fmap option_map ok_or mbind outcome_bind fst].
  by destruct (Z.ltb_spec 0 (start_block_height p)); [|lia].
Qed.

Lemma inv_process_vote vote : preserves chain_inv (process_governance_vote vote 0).
Proof.
  intros s Hs. unfold process_governance_vote. rewrite stM_bind_run. unfold reads.
  pose proof (vote_rejected vote s (inv_proposals s Hs)). by destruct (check_vote s vote 0).
Qed.

Lemma inv_add_block_tx tx : preserves chain_inv (add_block_tx 0 tx).
Proof.
  unfold add_block_tx. destruct tx; keep; [by apply inv_process_proposal|apply inv_process_vote].
Qed.

Lemma inv_add_block_txs txs : preserves chain_inv (add_block_txs 0 txs).
Proof.
  induction txs as [|tx txs IH]; cbn [add_block_txs]; keep; apply inv_add_block_tx.
Qed.

Lemma read_height_zero s :
  chain_inv s -> map_err internal (get_current_block_height (state s)) = Ok 0.
Proof. intros Hs. unfold get_current_block_height. by rewrite (inv_height s Hs). Qed.

Lemma inv_add_block_masternodes h tx : preserves chain_inv (add_block_masternodes h tx).
Proof.
  unfold add_block_masternodes. destruct tx; try solve [auto with keep]. apply preserves_bind.
  - apply preserves_ignore. apply (inv_on_masternodes _ _ (OpSetStatus (slash_masternode_id tx) Banned)); [done|].
    by intros i st [= _ <-].
  - intros _. destruct (slash_reason tx); auto with keep.
Qed.

Lemma inv_drop tx : preserves chain_inv (drop_from_mempool tx).
Proof. unfold drop_from_mempool. keep. destruct H5. by split. Qed.

Lemma inv_update_tickets block : preserves chain_inv (update_tickets block).
Proof. intros s Hs. by apply inv_on_tickets. Qed.

#[local] Hint Resolve inv_add_block_txs inv_add_block_masternodes inv_drop inv_update_tickets : keep.

Lemma inv_add_block block : preserves chain_inv (add_block block).
Proof using HL.
  apply (triple_bind _ (fun h s => chain_inv s /\ h = 0)).
  { intros s Hs. unfold reads. by rewrite read_height_zero. }
  intros h. apply triple_pure. intros ->. unfold add_checked_block, apply_added_block. keep.
Qed.

Lemma inv_process_block now block : preserves chain_inv (process_block now block).
Proof using HL.
  unfold process_block. keep.
  - unfold process_block_masternodes. destruct x; auto with keep.
  - destruct H5. by split.
Qed.

Lemma remove_by_hash_height hash st :
  db st !! string_bytes "current_height" = None ->
  db (remove_block_by_hash hash st) !! string_bytes "current_height" = None.
Proof.
  intros Hs. change (filter (fun e => negb (is_height_entry hash e)) (delete hash (db st))
    !! string_bytes "current_height" = None).
  rewrite map_lookup_filter_None. left. by rewrite lookup_delete_None; right.
Qed.

Lemma remove_by_height_height h st :
  db st !! string_bytes "current_height" = None ->
  db (fst (remove_block_by_height h st)) !! string_bytes "current_height" = None.
Proof.
  intros Hs. unfold remove_block_by_height. destruct (get_block_hash st h) as [[hash|]|e| |]; try done.
  cbn [fst]. change (delete (height_key h) (db (remove_block_by_hash hash st))
    !! string_bytes "current_height" = None).
  rewrite lookup_delete_None. right. by apply remove_by_hash_height.
Qed.

Lemma inv_revert_block block : preserves chain_inv (bc_revert_block block).
Proof.
  unfold bc_revert_block. keep.
  - destruct H5. by split.
  - unfold revert_masternodes. destruct x; auto with keep.
  - unfold revert_governance. destruct x; keep.
  - apply inv_on_state. by apply preserves_modify.
  - apply inv_on_state, preserves_modify. intros st. apply remove_by_hash_height.
  - apply inv_on_state. intros st Hst. pose proof (remove_by_height_height (block_height block) st Hst).
    by destruct (remove_block_by_height (block_height block) st) as [st' [x|e| |]].
Qed.

Lemma inv_pose challenge response : preserves chain_inv (process_pose_response challenge response).
Proof.
  unfold process_pose_response. keep. apply preserves_ignore.
  by apply (inv_on_masternodes _ _ (OpSuccess (target_masternode_id response) (wrap32 a0))).
Qed.

Lemma reachable_inv s : reachable s -> chain_inv s.
Proof using HL.
  intros Hr. unfold reachable in Hr. remember Blockchain_new as s0 eqn:Hs0.
  assert (Hs : chain_inv s0) by (subst; apply chain_inv_new). clear Hs0.
  induction Hr as [s|s s1 s2 Hstep _ IH]; [done|]. apply IH. destruct Hstep.
  - by apply (preserves_fst _ _ _ (inv_add_block block)).
  - by apply (preserves_fst _ _ _ (inv_process_block now block)).
  - by apply (preserves_fst _ _ _ (inv_revert_block block)).
  - by apply (preserves_fst _ _ _ (inv_governance height)).
  - by apply (preserves_fst _ _ _ (inv_pose challenge response)).
  - destruct Hs. by split.
Qed.

(** The node never learns its own height: no operation writes the stored height
    that [get_current_block_height] reads, so in every reachable state it is
    zero, there is no latest block, and the link and difficulty checks that
    [add_block] makes against the latest block are skipped. *)
Theorem height_never_recorded s :
  reachable s ->
  get_current_block_height (state s) = Ok 0 /\ get_latest_block s = Ok None /\
  (forall block, check_previous_block s block 0 = Ok tt) /\ tip s = zero_hash.
Proof using HL.
  intros Hr%reachable_inv. destruct Hr as [Hh Ht _ _ _].
  assert (Hz : get_current_block_height (state s) = Ok 0)
    by (unfold get_current_block_height; by rewrite Hh).
  split_and!; [done| |done|done]. unfold get_latest_block. by rewrite Hz.
Qed.

(** Governance has no effect: in every reachable state the parameters are the
    ones the node started with.  Proposals are evaluated after their voting
    window, and no registered masternode ever becomes active, so the masternode
    quorum is never met. *)
Theorem governance_never_takes_effect s :
  reachable s ->
  params s = ConsensusParams_default /\ active_masternodes s = [] /\
  count_active_masternodes (masternode_list s) = 0.
Proof using HL.
  intros Hr%reachable_inv. destruct Hr as [_ _ Hp Hm _]. split_and!; [done| |by apply count_active_zero].
  unfold active_masternodes. pose proof (count_active_zero _ Hm) as Hz.
  unfold count_active_masternodes, len in Hz. destruct (filter _ _); [done|cbn in Hz; lia].
Qed.

(** A block whose transactions include a failing one fails. *)
Lemma add_block_txs_fails I h txs tx s :
  (forall y, y ∈ txs -> preserves I (add_block_tx h y)) -> tx ∈ txs ->
  (forall s, I s -> is_ok (snd (add_block_tx h tx s)) = false) -> I s ->
  is_ok (snd (add_block_txs h txs s)) = false.
Proof.
  intros Hl Hx Hf. revert s. induction txs as [|y txs IH]; [by apply not_elem_of_nil in Hx|].
  intros s Hs. cbn [add_block_txs]. rewrite stM_bind_run. apply elem_of_cons in Hx as [->|Hx].
  - specialize (Hf s Hs). by destruct (add_block_tx h y s) as [s1 [a|e| |]].
  - pose proof (Hl y ltac:(by left) s Hs) as Hy.
    destruct (add_block_tx h y s) as [s1 [a|e| |]]; try done. rewrite stM_bind_run.
    assert (Hr : is_ok (snd (add_block_txs h txs s1)) = false).
    { apply IH; try done. intros z Hz. apply Hl. by right. }
    by destruct (add_block_txs h txs s1) as [s2 [r|e| |]].
Qed.

(** Nobody can vote: a vote is accepted only inside the voting window of a
    proposal, which starts after height zero, and [add_block] takes the height
    from the store, where it is always zero.  So in every reachable state the
    proposals have no votes, and a block with a vote is rejected. *)
Theorem no_vote_is_ever_accepted s vote block :
  reachable s -> GovernanceVote vote ∈ transactions block ->
  (forall id votes, get_votes_for_proposal (active_proposals s) id = Some votes -> votes = ∅) /\
  is_ok (snd (add_block block s)) = false.
Proof using HL.
  intros Hr%reachable_inv Hv. split.
  { intros id votes. unfold get_votes_for_proposal.
    destruct (active_proposals s !! id) as [[p v]|] eqn:Hp; [|done]. intros [= <-].
    by destruct (inv_proposals s Hr _ _ Hp). }
  unfold add_block, add_checked_block. rewrite stM_bind_run. unfold reads at 1.
  rewrite read_height_zero by done.
  destruct (transactions block) as [|first rest]; [done|].
  rewrite stM_bind_run. unfold reads at 1. destruct (check_previous_block s block 0); try done.
  rewrite stM_bind_run. unfold lift at 1. destruct (check_pow (header block)); try done.
  rewrite stM_bind_run.
  assert (Hf : is_ok (snd (add_block_txs 0 (first :: sort_by_fee_desc rest) s)) = false).
  { apply (add_block_txs_fails chain_inv _ _ (GovernanceVote vote)); try done.
    - intros y _. apply inv_add_block_tx.
    - by rewrite sort_by_fee_desc_perm.
    - intros s0 Hs0. cbn [add_block_tx]. rewrite stM_bind_run. unfold process_governance_vote.
      rewrite stM_bind_run. unfold reads. pose proof (vote_rejected vote s0 (inv_proposals s0 Hs0)).
      by destruct (check_vote s0 vote 0). }
  by destruct (add_block_txs 0 _ s) as [s1 [kept|e| |]].
Qed.

End Reachable.

(** * Adding a block *)

Definition is_slash (tx : Transaction) : bool :=
  match tx with MasternodeSlashTx _ => true | _ => false end.

(** Updates of other fields do not matter to an invariant of one field. *)
#[export] Hint Extern 2 (triple _ (on_utxo _) _ _) =>
  (apply preserves_zoom; intros ? ?; assumption) : keep.
#[export] Hint Extern 2 (triple _ (on_tickets _) _ _) =>
  (apply preserves_zoom; intros ? ?; assumption) : keep.
#[export] Hint Extern 2 (triple _ (on_proposals _) _ _) =>
  (apply preserves_zoom; intros ? ?; assumption) : keep.
#[export] Hint Extern 2 (triple _ (on_state _ _) _ _) =>
  (apply preserves_zoom; intros ? ?; assumption) : keep.

(** The first transaction pays the highest fee. *)
Lemma sort_by_fee_desc_head l x r :
  sort_by_fee_desc l = x :: r -> forall y, y ∈ l -> get_fee y <= get_fee x.
Proof.
  intros He y Hy. set (R := fun a b => get_fee a <= get_fee b).
  assert (Hs : StronglySorted R (sort_by (fun a b => get_fee a <=? get_fee b) l)).
  { assert (Transitive R) by (intros a b c; unfold R; lia).
    apply (sort_by_sorted _ R); intros a b; unfold R; [apply Z.leb_le|].
    intros Hf%Z.leb_gt. lia. }
  rewrite <- (sort_by_fee_desc_perm l), He in Hy. unfold sort_by_fee_desc in He.
  apply (f_equal reverse) in He. rewrite reverse_involutive, reverse_cons in He. rewrite He in Hs.
  apply elem_of_cons in Hy as [->|Hy]; [lia|].
  apply (StronglySorted_app_1_elem_of _ _ _ y x Hs); [by rewrite elem_of_reverse|by left].
Qed.

Section AddBlock.
  Context `{HL : HashLaws, TicketCodec, StoreCodec, TrieCodec, ChainCodec, U256}.

(** The transactions that stay in the block are all but the slashing ones. *)
Lemma add_block_tx_kept h tx s s' kept :
  add_block_tx h tx s = (s', Ok kept) -> kept = if is_slash tx then None else Some tx.
Proof.
  unfold add_block_tx. intros Ha.
  destruct tx; cbn [is_slash];
    repeat (apply stM_bind_ok in Ha as (? & ? & _ & Ha)); by injection Ha as _ <-.
Qed.

Lemma add_block_txs_kept h txs : forall s s' kept,
  add_block_txs h txs s = (s', Ok kept) -> kept = filter (fun tx => is_slash tx = false) txs.
Proof.
  induction txs as [|tx txs IH]; intros s s' kept Ha; cbn [add_block_txs] in Ha.
  { by injection Ha as _ <-. }
  apply stM_bind_ok in Ha as (s1 & k & Hk & Ha). apply stM_bind_ok in Ha as (s2 & r & Hr & Ha).
  injection Ha as _ <-. apply add_block_tx_kept in Hk as ->. apply IH in Hr as ->.
  rewrite filter_cons. by destruct (is_slash tx).
Qed.

Lemma set_reward_ok tx v tx' :
  set_reward tx v = Ok tx' ->
  exists o outs, get_outputs tx = o :: outs /\
    tx' = with_outputs tx (mkTxOutput v (script_pubkey o) None :: outs).
Proof.
  unfold set_reward. destruct (get_outputs tx) as [|o outs]; [done|]. intros [= <-]. eauto.
Qed.

(** What an accepted block went through. *)
Lemma add_block_stages block s s' :
  add_block block s = (s', Ok tt) ->
  exists first rest h s1 coinbase others pow_reward pos_reward coinbase',
    transactions block = first :: rest /\
    map_err internal (get_current_block_height (state s)) = Ok h /\
    check_pow (header block) = Ok tt /\
    add_block_txs h (first :: sort_by_fee_desc rest) s =
      (s1, Ok (filter (fun tx => is_slash tx = false) (first :: sort_by_fee_desc rest))) /\
    sort_by_fee_desc (filter (fun tx => is_slash tx = false) (first :: sort_by_fee_desc rest)) =
      coinbase :: others /\
    is_coinbase coinbase = true /\
    block_rewards s1 (block_height block) others = Ok (pow_reward, pos_reward) /\
    created_value coinbase <= pow_reward /\ set_reward coinbase pow_reward = Ok coinbase' /\
    apply_added_block (mkBlock (header block) (ticket_votes block) (coinbase' :: others)) s1 =
      (s', Ok tt).
Proof.
  unfold add_block, add_checked_block. intros Ha.
  apply stM_bind_ok in Ha as (s0 & h & [= <- Hh] & Ha).
  destruct (transactions block) as [|first rest]; [done|].
  apply stM_bind_ok in Ha as (s0 & [] & [= <- _] & Ha).
  apply stM_bind_ok in Ha as (s0 & [] & [= <- Hpow] & Ha).
  apply stM_bind_ok in Ha as (s1 & kept & Hk & Ha).
  apply stM_bind_ok in Ha as (s2 & [txs pos] & [= <- Hc] & Ha).
  apply stM_bind_ok in Ha as (s3 & [] & Hpos & Ha).
  assert (s3 = s1) as ->.
  { destruct (is_proof_of_stake _); [|by injection Hpos].
    apply stM_bind_ok in Hpos as (s4 & [] & [= <- _] & [= <- _]). done. }
  pose proof (add_block_txs_kept _ _ _ _ _ Hk) as ->.
  unfold settle_coinbase in Hc.
  destruct (sort_by_fee_desc (filter _ _)) as [|coinbase others] eqn:Hs; [done|].
  destruct (is_coinbase coinbase) eqn:Hcb; [|done]. cbn [negb] in Hc.
  destruct (block_rewards s1 _ others) as [[pow p]|e| |] eqn:Hr; try done.
  cbn [mbind outcome_bind] in Hc. rewrite Z.gtb_ltb in Hc.
  destruct (Z.ltb_spec pow (created_value coinbase)); [done|].
  destruct (set_reward coinbase pow) as [cb'|e| |] eqn:Hset; try done. injection Hc as <- <-.
  by exists first, rest, h, s1, coinbase, others, pow, p, cb'.
Qed.

(** [add_block] sorts the coinbase together with the other transactions, so a
    block is accepted only if nothing in it pays a fee: every transaction that
    is not a slashing one has fee zero. *)
Theorem add_block_rejects_fees block s s' :
  Forall (fun tx => 0 <= get_fee tx) (transactions block) ->
  add_block block s = (s', Ok tt) ->
  Forall (fun tx => is_slash tx = true \/ get_fee tx = 0) (transactions block).
Proof.
  intros Hfee Ha. apply add_block_stages in Ha as
    (first & rest & h & s1 & cb & others & pow & pos & cb' & Ht & _ & _ & _ & Hs & Hcb & _).
  rewrite Forall_forall in Hfee |- *. intros tx Htx.
  destruct (is_slash tx) eqn:Hsl; [by left|right].
  assert (Hz : get_fee cb = 0) by (by destruct cb).
  specialize (Hfee tx Htx).
  assert (Hin : tx ∈ filter (fun tx => is_slash tx = false) (first :: sort_by_fee_desc rest)).
  { apply list_elem_of_filter. split; [done|]. rewrite Ht in Htx.
    by rewrite sort_by_fee_desc_perm. }
  pose proof (sort_by_fee_desc_head _ _ _ Hs tx Hin). lia.
Qed.

(** A chain without a recorded height checks the proof of work and nothing else
    of the header. *)
Lemma add_block_from_zero block s first rest :
  transactions block = first :: rest -> get_current_block_height (state s) = Ok 0 ->
  check_pow (header block) = Ok tt ->
  add_block block s = add_checked_block block 0 (first :: sort_by_fee_desc rest) s.
Proof.
  intros Ht Hh Hp. unfold add_block. rewrite stM_bind_run. unfold reads at 1. rewrite Hh, Ht.
  cbn [map_err]. rewrite stM_bind_run. unfold reads at 1. cbn [check_previous_block].
  change (check_previous_block s block 0) with (Ok (E := CE.ConsensusError) tt).
  rewrite stM_bind_run. unfold lift. by rewrite Hp.
Qed.

(** ** Slashing *)

(** The entry of a masternode. *)
Definition has_entry (i : MasternodeID) (e : MasternodeEntry) (s : Blockchain) : Prop :=
  masternode_list s !! i = Some e.

Lemma entry_register i e err r h :
  preserves (has_entry i e) (on_masternodes err (register_masternode r h)).
Proof.
  apply preserves_zoom. intros s Hs. unfold has_entry in *. change (fst (register_masternode r h
    (masternode_list s)) !! i = Some e). unfold register_masternode.
  destruct (masternode_list s !! mkMasternodeID (collateral_outpoint (registration_identity r))) eqn:Hr;
    [done|]. cbn [fst]. rewrite lookup_insert_ne; [done|]. intros <-. congruence.
Qed.

Lemma entry_add_block_txs i e h txs : preserves (has_entry i e) (add_block_txs h txs).
Proof.
  induction txs as [|tx txs IH]; cbn [add_block_txs]; keep. unfold add_block_tx.
  destruct tx; unfold process_governance_proposal, process_governance_vote; keep.
Qed.

Lemma entry_apply_added i e block :
  Forall (fun tx => is_slash tx = false) (transactions block) ->
  preserves (has_entry i e) (apply_added_block block).
Proof.
  intros Hns. unfold apply_added_block, set_tip. keep.
  - unfold drop_from_mempool. keep. done.
  - rewrite Forall_forall in Hns. specialize (Hns x H5). unfold add_block_masternodes.
    destruct x; try done; keep. apply entry_register.
  - apply preserves_ignore. intros s Hs. unfold update_tickets.
    apply (preserves_zoom (has_entry i e)); [|done]. by intros ? ?.
Qed.

Lemma settle_no_slash s h txs r :
  Forall (fun tx => is_slash tx = false) txs -> settle_coinbase s h txs = Ok r ->
  Forall (fun tx => is_slash tx = false) r.1.
Proof.
  unfold settle_coinbase. destruct txs as [|cb rest]; [done|]. intros [Hcb Hrest]%Forall_cons.
  destruct (is_coinbase cb); [|done]. cbn [negb].
  destruct (block_rewards s h rest) as [[pow pos]|e| |]; try done. cbn [mbind outcome_bind].
  destruct (created_value cb >? pow); [done|].
  destruct (set_reward cb pow) as [cb'|e| |] eqn:Hs; try done. intros [= <-].
  apply set_reward_ok in Hs as (o & outs & _ & ->). constructor; [|done]. by destruct cb.
Qed.

(** Slashing a masternode has no effect through [add_block]: slashing
    transactions are taken out of the block before it is applied, so no entry
    of the masternode list is changed or removed, whether the block is accepted
    or not, and an accepted block is stored without them. *)
Theorem add_block_never_slashes block s i e :
  masternode_list s !! i = Some e ->
  masternode_list (fst (add_block block s)) !! i = Some e.
Proof using HL.
  apply (preserves_fst (has_entry i e)). unfold add_block, add_checked_block.
  keep_step; [auto with keep|]. destruct (transactions block) as [|first rest]; [auto with keep|].
  do 2 (keep_step; [auto with keep|]).
  apply (triple_bind _ (fun kept s => has_entry i e s /\ Forall (fun tx => is_slash tx = false) kept)).
  { intros s0 Hs0. pose proof (entry_add_block_txs i e a (first :: sort_by_fee_desc rest) s0 Hs0) as Hp.
    destruct (add_block_txs a _ s0) as [s1 [kept|er| |]] eqn:Hk; try done. split; [done|].
    apply add_block_txs_kept in Hk as ->. apply Forall_forall. intros tx Htx.
    by apply list_elem_of_filter in Htx as [? _]. }
  intros kept. apply (triple_bind _ (fun r s => has_entry i e s /\
    Forall (fun tx => is_slash tx = false) r.1)).
  { intros s1 [Hs1 Hk]. unfold reads. destruct (settle_coinbase _ _ _) as [r|er| |] eqn:Hc; try done.
    split; [done|]. eapply settle_no_slash; [|exact Hc]. by rewrite sort_by_fee_desc_perm. }
  intros [txs pos]. apply (triple_bind _ (fun _ s => has_entry i e s /\
    Forall (fun tx => is_slash tx = false) txs)).
  { intros s1 [Hs1 Hk]. destruct (is_proof_of_stake _); [|done]. rewrite stM_bind_run. unfold reads.
    destruct (validate_proof_of_stake_and_rewards _ _ _) as [[]|er| |]; try done.
    by destruct (distribute_pos_rewards _ _). }
  intros _ s1 [Hs1 Hns]. by apply entry_apply_added.
Qed.

End AddBlock.

(** * Processing a block *)

Section ProcessBlock.
  Context `{HL : HashLaws, TicketCodec, StoreCodec, TrieCodec, ChainCodec, U256}.

(** A coinbase that pays itself [v], and an unsigned, unproven slashing of [i]. *)
Definition minting_tx (v : Z) (spk : bytes) : Transaction :=
  Coinbase 1 [TxInput_from_outpoint (mkOutPoint zero_hash u32_max) [] 0 []] [TxOutput_new v spk] 0 [].

Definition unproven_slash (i : MasternodeID) (reason : SlashingReason) : Transaction :=
  MasternodeSlashTx (mkMasternodeSlash 1 [] [] i reason [] 0 0 []).

Definition rogue_block (h : BlockHeader) (votes : list TicketVote) (v : Z) (spk : bytes)
    (i : MasternodeID) (reason : SlashingReason) : Block :=
  mkBlock h votes [minting_tx v spk; unproven_slash i reason].

Lemma rogue_txs_valid now s h votes v spk i reason :
  validate_all s now (header_height h) (transactions (rogue_block h votes v spk i reason)) = Ok tt.
Proof.
  cbn [rogue_block transactions validate_all]. unfold bc_validate_transaction, minting_tx, unproven_slash.
  cbn -[wrap32 u64_add zero_hash]. unfold check_lock_time. cbn -[wrap32].
  pose proof (wrap32_range (header_height h)) as Hw. unfold is_u32 in Hw.
  rewrite Z.gtb_ltb. destruct (Z.ltb_spec (wrap32 (header_height h)) 0); [lia|done].
Qed.

Lemma rogue_utxos h votes v spk i reason u :
  Forall serializable (transactions (rogue_block h votes v spk i reason)) ->
  exists u', apply_block (rogue_block h votes v spk i reason) (header_height h) u = (u', Ok tt) /\
    u' !! mkOutPoint (tx_hash (minting_tx v spk)) 0 =
      Some (mkUtxo (TxOutput_new v spk) true (header_height h)).
Proof.
  intros Hs. unfold apply_block. rewrite update_from_block_run by done. eexists. split; [done|].
  apply lookup_union_Some_l. unfold UtxoProps.entries. cbn [rogue_block transactions mbind list_bind].
  change (created (header_height h) (unproven_slash i reason)) with (@nil (OutPoint * Utxo)).
  change (created (header_height h) (minting_tx v spk)) with
    [(mkOutPoint (tx_hash (minting_tx v spk)) 0, mkUtxo (TxOutput_new v spk) true (header_height h))].
  rewrite !app_nil_r. cbn [app]. rewrite reverse_singleton. cbn [list_to_map foldr]. apply lookup_insert_eq.
Qed.

(** Updates of the ticket pool from a block without purchases. *)
Lemma update_tickets_rogue h votes v spk i reason s :
  exists p, update_tickets (rogue_block h votes v spk i reason) s = (s <| live_tickets := p |>, Ok tt).
Proof. by eexists. Qed.

(** [process_block] takes a block without looking at its header: no proof of
    work, no link to the previous block.  Its coinbase may create any amount,
    and any masternode can be removed by a slashing transaction that carries no
    proof, no signature and no fee. *)
Theorem process_block_unchecked now s h votes v spk i reason data enc :
  Forall serializable (transactions (rogue_block h votes v spk i reason)) ->
  bincode_block (rogue_block h votes v spk i reason) = Some data ->
  bincode_hash (blake3 data) = Some enc ->
  active_proposals s = ∅ ->
  exists s', process_block now (rogue_block h votes v spk i reason) s = (s', Ok tt) /\
    utxo_set s' !! mkOutPoint (tx_hash (minting_tx v spk)) 0 =
      Some (mkUtxo (TxOutput_new v spk) true (header_height h)) /\
    masternode_list s' !! i = None.
Proof.
  intros Hser Hdata Henc Hprop.
  destruct (rogue_utxos h votes v spk i reason (utxo_set s) Hser) as (u' & Hu & Hm).
  unfold process_block, block_height. change (header (rogue_block _ _ _ _ _ _)) with h.
  rewrite stM_bind_run. unfold reads at 1. rewrite rogue_txs_valid.
  rewrite stM_bind_run. unfold ignore_error, on_utxo, zoom at 1. rewrite Hu. cbn [map_err].
  rewrite stM_bind_run. cbn [rogue_block transactions for_each].
  rewrite stM_bind_run. cbn [process_block_masternodes minting_tx unproven_slash mret stM_ret].
  rewrite stM_bind_run. cbn [modify mret stM_ret]. fold (minting_tx v spk). fold (unproven_slash i reason).
  fold (rogue_block h votes v spk i reason).
  rewrite stM_bind_run. edestruct update_tickets_rogue as [p Hp]. rewrite Hp. clear Hp.
  rewrite stM_bind_run. cbn [modify]. rewrite stM_bind_run.
  unfold evaluate_and_apply_governance at 1, proposals_to_remove. rewrite stM_bind_run. cbn [gets].
  change (active_proposals _) with (active_proposals s). rewrite Hprop, map_to_list_empty.
  cbn [filter list_filter fmap list_fmap for_each mret stM_ret].
  unfold set_tip, on_state, zoom, put_block, put_block_hash, lift, block_hash.
  rewrite !stM_bind_run. rewrite !Hdata. cbn -[tx_hash]. rewrite Henc. cbn -[tx_hash].
  eexists. split; [reflexivity|]. cbn -[tx_hash]. split; [done|]. apply lookup_delete_eq.
Qed.

End ProcessBlock.

(** * Reverting a block *)

Section Revert.
  Context `{HL : HashLaws, TicketCodec, StoreCodec, TrieCodec, ChainCodec, U256}.

Definition no_ticket (id : TicketId) (s : Blockchain) : Prop := live_tickets s !! id = None.

Lemma revert_governance_no_ticket id tx : preserves (no_ticket id) (revert_governance tx).
Proof.
  unfold revert_governance. destruct tx; keep; try done.
  apply preserves_zoom. intros s Hs. unfold no_ticket, remove_ticket in *. cbn.
  destruct (live_tickets s !! ticket_id) eqn:Ht; [|done]. cbn.
  destruct (decide (id = ticket_id)) as [->|]; [by rewrite lookup_delete_eq|by rewrite lookup_delete_ne].
Qed.

(** A block that buys a ticket cannot be reverted: the ticket is removed from the
    pool twice, and the second removal fails, after the UTXO set, the pool and
    the masternode list have already been rolled back. *)
Theorem revert_purchase_fails block s v ins outs id locked lock fee addr w :
  TicketPurchase v ins outs id locked lock fee addr w ∈ transactions block ->
  is_ok (snd (bc_revert_block block s)) = false.
Proof.
  intros Hin. unfold bc_revert_block. rewrite stM_bind_run.
  destruct (on_utxo (revert_block block) s) as [s1 [[]|e| |]]; try done.
  rewrite stM_bind_run. cbn [modify]. set (s2 := s1 <| live_tickets ::= _ |>).
  assert (Hs2 : no_ticket id s2).
  { exact (revert_deletes _ _ _ _ _ _ _ _ _ _ _ _ Hin). }
  clearbody s2. rewrite stM_bind_run.
  assert (Hm : preserves (no_ticket id) (for_each (reverse (transactions block)) revert_masternodes)).
  { keep. unfold revert_masternodes. destruct x; keep; done. }
  specialize (Hm s2 Hs2). destruct (for_each _ revert_masternodes s2) as [s3 [[]|e| |]]; try done.
  rewrite stM_bind_run.
  assert (Hg : is_ok (snd (for_each (reverse (transactions block)) revert_governance s3)) = false).
  { apply (for_each_fails (no_ticket id) _ _ (TicketPurchase v ins outs id locked lock fee addr w)); try done.
    - intros y _. apply revert_governance_no_ticket.
    - by rewrite elem_of_reverse.
    - intros s0 Hs0. unfold revert_governance. rewrite stM_bind_run. unfold on_tickets, zoom, remove_ticket.
      by rewrite Hs0. }
  by destruct (for_each _ revert_governance s3) as [s4 [[]|e| |]].
Qed.

End Revert.

(** * Witnesses *)

#[export] Instance sample_chain_codec : ChainCodec := {|
  bincode_proposal_payload p := Some (to_le_bytes 8 (start_block_height p) ++
    to_le_bytes 8 (end_block_height p) ++ proposer_address p);
  bincode_vote_payload v := Some (vote_proposal_id v ++ voter_id v);
  bincode_vec b := Some (to_le_bytes 8 (len b) ++ b);
  decode_non_participation_proof _ := None;
  decode_malicious_proof _ := None;
  bincode_challenge c := Some (challenge_block_hash c);
|}.

(** Sample primitives whose hashes are small numbers, so that every block with a
    large enough target has proof of work. *)
Definition tiny_hash (m : bytes) : Hash := to_le_bytes 32 (sample_fold 1 m mod 65536).

Definition tiny_primitives : Primitives := {|
  blake3 := tiny_hash;
  sha1 := sample_hash 20 2;
  sha256 := sample_hash 32 3;
  ripemd160 := sample_hash 20 4;
  DalekPublicKey := bytes;
  DalekSignature := bytes;
  public_key_from_bytes b := Some b;
  signature_from_bytes b := if len b =? 64 then Some b else None;
  ed25519_verify pk m sig := true;
  bincode_transaction tx := Some (sample_bincode tx);
  bincode_header h := Some (sample_bincode_header h);
  bincode_block b :=
    Some (sample_bincode_header (header b) ++ concat (sample_bincode <$> transactions b));
|}.

Lemma tiny_hash_laws : HashLaws tiny_primitives.
Proof. split; intros m; (split; [apply to_le_bytes_bytes|apply length_to_le_bytes]). Qed.

Lemma tiny_pow h :
  65536 <= difficulty_target h <= u32_max -> check_pow (H := tiny_primitives) h = Ok tt.
Proof.
  intros Hd. unfold check_pow, pow_check, core_verify_pow.
  destruct (core_calculate_hash_ok (H := tiny_primitives) (H0 := tiny_hash_laws) h) as [m ->]; [by eexists|].
  cbn [mbind outcome_bind map_err mret outcome_ret]. unfold u256_le, u32_max in *.
  rewrite (u256_from_val (U256Laws := z_u256_laws)) by (unfold is_u64, u64_max; lia).
  rewrite (u256_le_val (U256Laws := z_u256_laws))
    by (apply to_le_bytes_bytes || apply length_to_le_bytes).
  change (blake3 m) with (tiny_hash m). unfold tiny_hash.
  pose proof (Z.mod_pos_bound (sample_fold 1 m) 65536 ltac:(lia)).
  rewrite from_to_le_bytes by (split; [lia|]; apply (Z.lt_trans _ 65536); [lia|done]).
  destruct (Z.leb_spec (sample_fold 1 m mod 65536) (difficulty_target h)); [done|lia].
Qed.

(** A state one block away from the initial one. *)
Definition first_block : Block := rogue_block (mkBlockHeader 1 7 [9] [] [] 0 0 0) [] 1000 [0x51]
  (mkMasternodeID (mkOutPoint [4] 0)) DoubleSigning.

Definition after_first : Blockchain := fst (process_block 0 first_block Blockchain_new).

Lemma after_first_reachable : reachable after_first.
Proof. apply rtc_once. apply step_process. Qed.

Lemma height_never_recorded_witness : get_latest_block after_first = Ok None.
Proof. apply (height_never_recorded after_first). apply after_first_reachable. Defined.

Lemma governance_never_takes_effect_witness : params after_first = ConsensusParams_default.
Proof. apply (governance_never_takes_effect after_first). apply after_first_reachable. Defined.

Definition voting_block : Block :=
  mkBlock (mkBlockHeader 1 1 [] [] [] 0 0 0) [] [GovernanceVote (sample_vote [5] PosTicket Yes)].

Lemma no_vote_is_ever_accepted_witness : is_ok (snd (add_block voting_block after_first)) = false.
Proof.
  apply (no_vote_is_ever_accepted after_first (sample_vote [5] PosTicket Yes) voting_block).
  - apply after_first_reachable.
  - left.
Defined.

(** A block that [add_block] accepts: its coinbase spends an unspent output, so
    that it passes the input checks. *)
Definition funded_chain : Blockchain := Blockchain_new <| utxo_set := open_set |>.

Definition spending_coinbase : Transaction :=
  Coinbase 1 [sample_input] [TxOutput_new 1000 [0x51]] 0 [].

(** The state root that the chain has after the block. *)
Definition expected_root : Hash :=
  match bc_calculate_state_root (H := tiny_primitives)
    (Blockchain_new <| utxo_set :=
       block_effect (H := tiny_primitives) 0
         [with_outputs spending_coinbase [mkTxOutput 20000000000 [0x51] None]] open_set |>) with
  | Ok root => root
  | _ => []
  end.

Definition accepted_block : Block :=
  mkBlock (mkBlockHeader 1 0 [] [] expected_root 0 u32_max 0) [] [spending_coinbase].

Lemma accepted_block_pow : check_pow (H := tiny_primitives) (header accepted_block) = Ok tt.
Proof. apply tiny_pow. split; [discriminate|apply Z.le_refl]. Qed.

Lemma funded_chain_height : get_current_block_height (state funded_chain) = Ok 0.
Proof. reflexivity. Qed.

Lemma accepted_block_ok :
  snd (add_block (H := tiny_primitives) accepted_block funded_chain) = Ok tt.
Proof.
  pose proof (add_block_from_zero (H := tiny_primitives) accepted_block funded_chain
    spending_coinbase [] eq_refl funded_chain_height accepted_block_pow) as He.
  rewrite He. vm_compute. reflexivity.
Qed.

Lemma add_block_rejects_fees_witness :
  Forall (fun tx => is_slash tx = true \/ get_fee tx = 0) (transactions accepted_block).
Proof.
  apply (add_block_rejects_fees (H := tiny_primitives) accepted_block funded_chain
    (fst (add_block (H := tiny_primitives) accepted_block funded_chain))).
  - apply Forall_singleton. done.
  - pose proof accepted_block_ok as Hok.
    destruct (add_block (H := tiny_primitives) accepted_block funded_chain). by cbn in Hok; subst.
Defined.

Definition listed_chain : Blockchain :=
  Blockchain_new <| masternode_list := {[ mkMasternodeID (mkOutPoint [4] 0) :=
    mkMasternodeEntry (mkMasternodeIdentity (mkOutPoint [4] 0) [5] "" [] None []) Registered
      0 0 None 0 (f32_of_Z 0) [] 0 ]} |>.

Lemma add_block_never_slashes_witness :
  is_Some (masternode_list (fst (add_block first_block listed_chain)) !! mkMasternodeID (mkOutPoint [4] 0)).
Proof.
  eexists. apply (add_block_never_slashes first_block listed_chain). reflexivity.
Defined.

Lemma process_block_unchecked_witness :
  exists s', process_block 0 first_block listed_chain = (s', Ok tt) /\
    masternode_list s' !! mkMasternodeID (mkOutPoint [4] 0) = None.
Proof.
  destruct (process_block_unchecked 0 listed_chain (mkBlockHeader 1 7 [9] [] [] 0 0 0) [] 1000 [0x51]
    (mkMasternodeID (mkOutPoint [4] 0)) DoubleSigning
    (default [] (bincode_block first_block)) (blake3 (default [] (bincode_block first_block))))
    as (s' & Hs & _ & Hm).
  - repeat constructor; by eexists.
  - reflexivity.
  - vm_compute. reflexivity.
  - reflexivity.
  - exists s'. split; [exact Hs|exact Hm].
Defined.

Lemma revert_purchase_fails_witness :
  is_ok (snd (bc_revert_block (ticket_block 8 [sample_purchase]) Blockchain_new)) = false.
Proof.
  apply (revert_purchase_fails (ticket_block 8 [sample_purchase]) Blockchain_new 1 [sample_input]
    [TxOutput_new 100 sample_key] (replicate 32 1) 100 0 1 sample_key []). left.
Defined.
