(* ===== verification/BlockchainChecks.v ===== *)
(** What the checks of the blockchain establish (Blockchain.v): votes,
    proof-of-service responses, proof of work, the integrity check of the stored
    chain, and the split of the block reward. *)

From Stdlib Require Import ZArith Lia List SpecFloat.
From stdpp Require Import base option list numbers strings gmap relations sorting.
From coqutil Require Import Datatypes.RecordSetters.
From S2P Require Import Prelude Types Errors Transaction ScriptEngine SamplePrimitives F64 Merkle.
From S2P Require Import Params U256 OxideHash Pow UtxoSet UtxoProps TxValidation Masternodes.
From S2P Require Import LiveTickets GovernanceState ChainState Trie Mempool Blockchain.
From S2P Require Import BlockchainProps.

Import TriangleBracketNotations.
#[local] Arguments constant {E} newValue _ /.
#[local] Open Scope Z_scope.

(** * Proof of service, votes, proof of work *)

Section Checks.
  Context `{HL : HashLaws, TicketCodec, StoreCodec, TrieCodec, ChainCodec, U256}.

(** A proof-of-service response cannot be accepted: the same bytes must parse as
    a 64-byte signature and equal the 32-byte block hash of the challenge. *)
Theorem pose_response_never_accepted challenge response s :
  (forall b sig, signature_from_bytes b = Some sig -> length b = 64%nat) ->
  length (challenge_block_hash challenge) = 32%nat ->
  is_ok (snd (process_pose_response challenge response s)) = false /\
  fst (process_pose_response challenge response s) = s.
Proof.
  intros Hsig Hlen. unfold process_pose_response. rewrite stM_bind_run. unfold reads at 1 3.
  assert (Hc : is_ok (check_pose_response s challenge response) = false).
  { unfold check_pose_response, verify_pose_response.
    destruct (bincode_challenge challenge) as [msg|]; [|done].
    destruct (masternode_list s !! challenger_masternode_id challenge) as [e|]; [|done].
    cbn [ok_or mbind outcome_bind]. destruct (negb (len _ =? 32)); [done|].
    destruct (public_key_from_bytes _) as [pk|]; [|done].
    destruct (signature_from_bytes (signed_block_hash response)) as [sig|] eqn:Hs; [|done].
    destruct (ed25519_verify pk msg sig); [|done]. cbn [negb].
    destruct (get_current_block_height (state s)) as [h|er| |]; try done. cbn [mbind outcome_bind].
    destruct (h >? _); [done|]. case_bool_decide as He; [|done].
    apply Hsig in Hs. rewrite He, Hlen in Hs. discriminate. }
  by destruct (check_pose_response s challenge response).
Qed.

(** The key behind a counted vote is the voter's own: the public key of a live
    ticket or the operator key of an active masternode. *)
Lemma voting_key_is_voter s vote key :
  voting_key s vote = Ok key ->
  key = voter_id vote /\ len key = 32 /\
  match voter_type vote with
  | PosTicket => exists id t, live_tickets s !! id = Some t /\ ticket_pubkey t = key /\
                   ticket_status t = Live
  | Masternode => exists i e, masternode_list s !! i = Some e /\
                   operator_public_key (identity e) = key /\ status e = Active
  end.
Proof.
  unfold voting_key, get_ticket_by_pubkey, find_by_operator_key, get_all_tickets.
  destruct (voter_type vote).
  - destruct (list_find _ _) as [[n t]|] eqn:Hf; [|done]. cbn [fmap option_fmap option_map ok_or mbind outcome_bind snd].
    apply list_find_Some in Hf as (Hn & Hk & _). apply list_elem_of_lookup_2 in Hn.
    apply list_elem_of_fmap in Hn as ([id t'] & -> & Ht). apply elem_of_map_to_list in Ht.
    cbn [snd] in *. case_bool_decide; [|done]. cbn [negb]. destruct (Z.eqb_spec (len (ticket_pubkey t')) 32); [|done].
    intros [= <-]. split_and!; eauto.
  - destruct (list_find _ _) as [[n [i e]]|] eqn:Hf; [|done]. cbn [fmap option_fmap option_map ok_or mbind outcome_bind snd].
    apply list_find_Some in Hf as (Hn & Hk & _). apply list_elem_of_lookup_2 in Hn.
    apply elem_of_map_to_list in Hn. cbn [snd] in *. case_bool_decide; [|done]. cbn [negb].
    destruct (Z.eqb_spec (len (operator_public_key (identity e))) 32); [|done].
    intros [= <-]. split_and!; eauto.
Qed.

(** A vote is recorded only for an active proposal, inside its voting window, by
    a voter that has not voted on it yet, and with a valid signature of the
    voter's own key over the vote; nothing but that proposal's votes changes. *)
Theorem votes_are_signed vote h s s' :
  process_governance_vote vote h s = (s', Ok tt) ->
  exists p votes msg pk sig,
    active_proposals s !! vote_proposal_id vote = Some (p, votes) /\
    start_block_height p <= h <= end_block_height p /\
    votes !! voter_id vote = None /\
    voting_key s vote = Ok (voter_id vote) /\
    vote_canonical_bytes vote = Some msg /\ public_key_from_bytes (voter_id vote) = Some pk /\
    signature_from_bytes (voter_signature vote) = Some sig /\ ed25519_verify pk msg sig = true /\
    s' = s <| active_proposals := <[vote_proposal_id vote := (p, <[voter_id vote := vote]> votes)]>
                (active_proposals s) |>.
Proof.
  unfold process_governance_vote. intros Hp. apply stM_bind_ok in Hp as (s1 & [] & [= <- Hc] & Hr).
  unfold check_vote, get_proposal in Hc. unfold on_proposals, zoom, record_vote in Hr.
  destruct (active_proposals s !! vote_proposal_id vote) as [[p votes]|]; [|done].
  cbn [fmap option_fmap option_map ok_or mbind outcome_bind fst] in Hc.
  rewrite Z.gtb_ltb in Hc. destruct (Z.ltb_spec h (start_block_height p)); [done|].
  destruct (Z.ltb_spec (end_block_height p) h); [done|]. cbn [orb] in Hc.
  destruct (vote_canonical_bytes vote) as [msg|]; [|done].
  destruct (signature_from_bytes (voter_signature vote)) as [sig|]; [|done].
  cbn [ok_or mbind outcome_bind] in Hc.
  destruct (voting_key s vote) as [key|e| |] eqn:Hk; try done. cbn [mbind outcome_bind] in Hc.
  destruct (voting_key_is_voter _ _ _ Hk) as (-> & _ & _).
  destruct (public_key_from_bytes (voter_id vote)) as [pk|]; [|done]. cbn [ok_or mbind outcome_bind] in Hc.
  destruct (ed25519_verify pk msg sig) eqn:Hv; [|done].
  destruct (votes !! voter_id vote) eqn:Hn; [done|]. injection Hr as <-.
  exists p, votes, msg, pk, sig. split_and!; done || lia.
Qed.

(** The target of a header is not expanded from its compact form: a block passes
    the proof-of-work check only if its hash, read as a little-endian number, is
    at most the 32-bit field itself, so all but four of its bytes are zero. *)
Theorem pow_target_not_expanded `{!U256Laws H4} h :
  is_Some (bincode_header h) -> is_u32 (difficulty_target h) -> check_pow h = Ok tt ->
  exists hash, calculate_hash h = Ok hash /\ length hash = 32%nat /\
    from_le_bytes hash <= difficulty_target h /\
    forall i b, (4 <= i)%nat -> hash !! i = Some b -> b = 0.
Proof using HL.
  intros Hs Hu Hc. destruct (core_calculate_hash_ok h Hs) as [m Hm]. exists (blake3 m).
  destruct (blake3_out m) as [Hb Hl].
  assert (Hle : from_le_bytes (blake3 m) <= difficulty_target h).
  { unfold check_pow, pow_check, core_verify_pow in Hc. rewrite Hm in Hc.
    cbn [mbind outcome_bind map_err mret outcome_ret] in Hc. unfold u256_le in Hc.
    unfold is_u32, u32_max in Hu.
    rewrite u256_le_val, u256_from_val in Hc by (done || (unfold is_u64, u64_max; lia)).
    by destruct (Z.leb_spec (from_le_bytes (blake3 m)) (difficulty_target h)). }
  split_and!; try done. intros i b Hi Hib.
  apply (from_le_bytes_small_zeros 4 (blake3 m)) with (i := i); try done.
  unfold is_u32, u32_max in Hu. change (256 ^ Z.of_nat 4) with 4294967296. lia.
Qed.

End Checks.

(** * A validated chain is a chain *)

Section Integrity.
  Context `{HL : HashLaws, TicketCodec, StoreCodec, TrieCodec, ChainCodec, U256}.

(** The contract of a stored block at height [k]: it knows its height, commits to
    its transactions, carries proof of work, starts with its only coinbase, and
    points to the stored block below it, which is older. *)
Record linked (s : Blockchain) (now k : Z) (b : Block) : Prop := {
  linked_height : header_height (header b) = k;
  linked_version : header_version (header b) = 1;
  linked_merkle : Block_calculate_merkle_root (E := CE.ConsensusError) b = Ok (merkle_root (header b));
  linked_pow : check_pow (header b) = Ok tt;
  linked_coinbase : exists cb txs, transactions b = cb :: txs /\ is_coinbase cb = true /\
    Forall (fun tx => is_coinbase tx = false) txs;
  linked_genesis : k = 0 -> previous_block_hash (header b) = zero_hash;
  linked_previous : 0 < k -> exists p, block_at s (k - 1) = Some p /\
    block_hash (E := CE.ConsensusError) p = Ok (previous_block_hash (header b)) /\
    timestamp (header p) < timestamp (header b) <= u64_add now 7200;
}.

Lemma header_valid s b k :
  validate_block_header_at_height s b k = Ok tt -> 0 <= k ->
  header_height (header b) = k /\ header_version (header b) = 1 /\
  Block_calculate_merkle_root (E := CE.ConsensusError) b = Ok (merkle_root (header b)) /\
  check_pow (header b) = Ok tt /\
  (k = 0 -> previous_block_hash (header b) = zero_hash) /\
  (0 < k -> exists p, block_at s (k - 1) = Some p /\
    block_hash (E := CE.ConsensusError) p = Ok (previous_block_hash (header b))).
Proof.
  unfold validate_block_header_at_height, invalid. intros Hv Hk.
  destruct (Z.eqb_spec (header_height (header b)) k); [|done].
  destruct (Z.eqb_spec (header_version (header b)) 1); [|done]. cbn [negb] in Hv.
  apply outcome_bind_inv in Hv as ([] & Hprev & Hv).
  apply outcome_bind_inv in Hv as (root & Hroot & Hv).
  case_bool_decide as Hm; [|done]. cbn [negb] in Hv. rewrite Hm.
  split_and!; try done; intros Hk0; rewrite Z.gtb_ltb in Hprev.
  - subst k. rewrite Hk0 in Hprev. cbn in Hprev. case_bool_decide; done.
  - destruct (Z.ltb_spec 0 k); [|lia]. destruct (block_at s (k - 1)) as [p|]; [|done].
    exists p. split; [done|]. apply outcome_bind_inv in Hprev as (h & Hh & Hp).
    case_bool_decide as He; [by rewrite He|done].
Qed.

(** The header check in the other direction. *)
Lemma header_valid_conv s b k :
  header_height (header b) = k -> header_version (header b) = 1 ->
  Block_calculate_merkle_root (E := CE.ConsensusError) b = Ok (merkle_root (header b)) ->
  check_pow (header b) = Ok tt ->
  (k = 0 /\ previous_block_hash (header b) = zero_hash) \/
  (0 < k /\ exists p, block_at s (k - 1) = Some p /\
    block_hash (E := CE.ConsensusError) p = Ok (previous_block_hash (header b))) ->
  validate_block_header_at_height s b k = Ok tt.
Proof.
  intros Hh Hv Hm Hp Hprev. unfold validate_block_header_at_height. rewrite Hh, Hv, Z.eqb_refl. cbn [negb].
  rewrite Z.gtb_ltb. destruct Hprev as [[-> Hz]|(Hk & p & Hat & Hbh)].
  - cbn [Z.ltb]. rewrite Hz, bool_decide_eq_true_2 by done. cbn [negb Z.compare mbind outcome_bind mret outcome_ret].
    rewrite Hm. cbn [mbind outcome_bind]. by rewrite bool_decide_eq_true_2.
  - destruct (Z.ltb_spec 0 k); [|lia]. rewrite Hat, Hbh. cbn [mbind outcome_bind].
    rewrite bool_decide_eq_true_2 by done. cbn [negb mbind outcome_bind mret outcome_ret].
    rewrite Hm. cbn [mbind outcome_bind]. by rewrite bool_decide_eq_true_2.
Qed.

Lemma transactions_valid s now b k :
  validate_block_transactions s now b k = Ok tt ->
  exists cb txs, transactions b = cb :: txs /\ is_coinbase cb = true /\
    Forall (fun tx => is_coinbase tx = false) txs.
Proof.
  unfold validate_block_transactions, invalid. destruct (transactions b) as [|cb txs]; [done|].
  intros Hv. exists cb, txs. split; [done|]. destruct (is_coinbase cb); [|done]. cbn [negb] in Hv.
  split; [done|]. apply outcome_bind_inv in Hv as ([] & _ & Hv); [|done]. cbn [negb] in Hv.
  induction txs as [|tx txs IH]; [constructor|]. cbn [validate_non_coinbase] in Hv.
  destruct (is_coinbase tx) eqn:Ht; [done|]. apply outcome_bind_inv in Hv as ([] & _ & Hv); [|done].
  constructor; auto.
Qed.

Lemma timestamp_valid s now b k p :
  validate_block_timestamp s now b k = Ok tt -> 0 < k -> block_at s (k - 1) = Some p ->
  timestamp (header p) < timestamp (header b) <= u64_add now 7200.
Proof.
  unfold validate_block_timestamp, invalid. intros Hv Hk Hp. rewrite Z.gtb_ltb in Hv.
  destruct (Z.ltb_spec 0 k); [|lia]. rewrite Hp in Hv.
  destruct (Z.leb_spec (timestamp (header b)) (timestamp (header p))); [done|].
  rewrite Z.gtb_ltb in Hv. destruct (Z.ltb_spec (u64_add now 7200) (timestamp (header b))); [done|lia].
Qed.

Lemma block_valid s now b k :
  validate_block_comprehensive s now b k = Ok tt -> 0 <= k -> linked s now k b.
Proof.
  unfold validate_block_comprehensive. intros Hv Hk.
  apply outcome_bind_inv in Hv as ([] & Hh & Hv). apply outcome_bind_inv in Hv as ([] & Ht & Hv).
  apply outcome_bind_inv in Hv as ([] & _ & Hv). apply outcome_bind_inv in Hv as ([] & Hts & _).
  destruct (header_valid _ _ _ Hh Hk) as (? & ? & ? & ? & ? & Hprev). split; try done.
  - by apply (transactions_valid s now b k).
  - intros Hk0. destruct (Hprev Hk0) as (p & Hp & Hph). exists p.
    split; [done|]. split; [done|]. by apply (timestamp_valid s now b k).
Qed.

Lemma heights_valid s now n : forall k,
  validate_heights s now k n = Ok tt -> 0 <= k ->
  forall j, k <= j < k + Z.of_nat n -> exists b, block_at s j = Some b /\ linked s now j b.
Proof.
  induction n as [|n IH]; intros k Hv Hk j Hj; [lia|]. cbn [validate_heights] in Hv.
  apply outcome_bind_inv in Hv as ([] & Hb & Hv). destruct (Z.eq_dec j k) as [->|].
  - unfold validate_block_at_height in Hb. destruct (block_at s k) as [b|] eqn:He; [|done].
    exists b. split; [done|]. by apply block_valid.
  - apply (IH (k + 1)); done || lia.
Qed.

(** C13. What the integrity check establishes: when it succeeds on a chain of stored
    height [n > 0], there is a block at every height up to [n], and these blocks
    form a chain from a genesis block: each commits to its transactions, carries
    proof of work, has exactly one coinbase, in front, and names the hash of the
    block below, with strictly increasing timestamps. *)
Theorem integrity_means_chain s now n :
  get_current_block_height (state s) = Ok n -> 0 < n ->
  validate_blockchain_integrity s now = Ok tt ->
  forall k, 0 <= k <= n -> exists b, block_at s k = Some b /\ linked s now k b.
Proof.
  intros Hn Hpos Hv k Hk. unfold validate_blockchain_integrity in Hv. rewrite Hn in Hv.
  cbn [map_err mbind outcome_bind] in Hv. destruct (Z.eqb_spec n 0); [lia|].
  apply outcome_bind_inv in Hv as ([] & Hh & _).
  apply (heights_valid s now (S (Z.to_nat n)) 0); try done. lia.
Qed.

(** Putting a validation together from its parts. *)
Lemma comprehensive_conv s now b k :
  validate_block_header_at_height s b k = Ok tt ->
  validate_block_transactions s now b k = Ok tt ->
  (0 < k -> validate_difficulty_adjustment s b k = Ok tt) ->
  validate_block_timestamp s now b k = Ok tt -> validate_state_root b k = Ok tt ->
  validate_pos_components b = Ok tt ->
  validate_block_comprehensive s now b k = Ok tt.
Proof.
  intros Hh Ht Hd Hts Hr Hp. unfold validate_block_comprehensive. rewrite Hh, Ht.
  cbn [mbind outcome_bind]. rewrite Z.gtb_ltb, Hts, Hr, Hp.
  destruct (Z.ltb_spec 0 k); [rewrite Hd by done|]; cbn; by destruct (negb _).
Qed.

Lemma integrity_conv s now b0 b1 :
  get_current_block_height (state s) = Ok 1 -> block_at s 0 = Some b0 -> block_at s 1 = Some b1 ->
  validate_block_comprehensive s now b0 0 = Ok tt -> validate_block_comprehensive s now b1 1 = Ok tt ->
  validate_state_consistency s = true -> validate_blockchain_integrity s now = Ok tt.
Proof.
  intros Hh H0' H1' Hv0 Hv1 Hc. unfold validate_blockchain_integrity. rewrite Hh, Hc.
  cbn [map_err mbind outcome_bind Z.eqb]. change (Pos.to_nat 1) with 1%nat.
  change (S (Z.to_nat 1)) with 2%nat. cbn [validate_heights]. unfold validate_block_at_height.
  change (0 + 1) with 1. by rewrite H0', H1', Hv0, Hv1.
Qed.

End Integrity.

(** * The block reward *)

Section Rewards.
  Context `{HL : HashLaws, TicketCodec, StoreCodec, TrieCodec, ChainCodec, U256}.

(** With the default parameters the miner's and the voters' share add up to the
    subsidy and the fees, with nothing created or lost by the floating-point
    split, and the voters' share is 60 percent to within three satoshis; as long
    as the total is below 2^53. *)
Theorem reward_split s height txs subsidy pow pos :
  params s = ConsensusParams_default ->
  get_block_subsidy (E := CE.ConsensusError) height (halving_interval (params s))
    (initial_block_reward (params s)) = Ok subsidy ->
  block_rewards s height txs = Ok (pow, pos) ->
  let total := u64_add subsidy (total_fees (utxo_set s) txs) in
  total < 2 ^ 53 ->
  pow + pos = total /\ 0 <= pow /\ 0 <= pos /\ 6 * total - 30 < 10 * pos < 6 * total + 30.
Proof.
  intros Hp Hsub Hr total Ht. unfold block_rewards in Hr. rewrite Hsub in Hr.
  cbn [mbind outcome_bind] in Hr. fold total in Hr. injection Hr as <- <-.
  pose proof (wrap64_range (subsidy + total_fees (utxo_set s) txs)) as Hw.
  change (wrap64 _) with total in Hw. unfold is_u64 in Hw.
  unfold pos_share. rewrite Hp.
  change (pos_reward_ratio ConsensusParams_default) with (S754_finite false 5404319552844595 (-53)).
  destruct (f64_mul_round total 5404319552844595) as [Hx Hb]; [lia|lia|].
  set (x := f64_round_to_u64 _) in *. rewrite wrap64_small by (unfold u64_max in *; lia). lia.
Qed.

End Rewards.

(** * Witnesses *)

Definition sample_challenge : PoSeChallenge :=
  mkPoSeChallenge 1 (replicate 32 6) (mkMasternodeID (mkOutPoint [4] 0)) 0 [].

Definition sample_response : PoSeResponse :=
  mkPoSeResponse 1 (replicate 32 6) (mkMasternodeID (mkOutPoint [4] 0)).

Lemma pose_response_never_accepted_witness :
  is_ok (snd (process_pose_response sample_challenge sample_response listed_chain)) = false.
Proof.
  apply (pose_response_never_accepted sample_challenge sample_response listed_chain).
  - intros b sig. cbn [signature_from_bytes sample_primitives].
    destruct (Z.eqb_spec (len b) 64) as [Hl|]; [|discriminate]. intros _. unfold len in Hl. lia.
  - reflexivity.
Defined.

(** A live ticket that votes on an open proposal. *)
Definition signed_vote : Vote :=
  mkVote [1] PosTicket sample_key Yes (sample_key ++ sample_hash 32 1 ([1] ++ sample_key)) [] [] 0 [] 0.

Definition voting_chain : Blockchain :=
  Blockchain_new <| live_tickets := sample_pool |>
    <| active_proposals := {[ [1] := (sample_proposal 10 20, ∅) ]} |>.

Lemma votes_are_signed_witness :
  exists p votes, active_proposals voting_chain !! [1] = Some (p, votes) /\
    start_block_height p <= 15 <= end_block_height p /\ votes !! sample_key = None.
Proof.
  destruct (votes_are_signed signed_vote 15 voting_chain
    (fst (process_governance_vote signed_vote 15 voting_chain)))
    as (p & votes & _ & _ & _ & Hp & Hw & Hn & _).
  - vm_compute. reflexivity.
  - exists p, votes. split; [exact Hp|]. split; [exact Hw|exact Hn].
Defined.

Lemma pow_target_not_expanded_witness :
  exists hash, calculate_hash (H := tiny_primitives) (header accepted_block) = Ok hash /\
    from_le_bytes hash <= u32_max.
Proof.
  destruct (pow_target_not_expanded (H := tiny_primitives) (HL := tiny_hash_laws) (header accepted_block))
    as (hash & Hh & _ & Hle & _).
  - by eexists.
  - split; [discriminate|apply Z.le_refl].
  - apply accepted_block_pow.
  - exists hash. split; [exact Hh|exact Hle].
Defined.

Lemma reward_split_witness :
  let total := u64_add 50000000000 (total_fees (utxo_set Blockchain_new) []) in
  20000000000 + 30000000000 = total.
Proof.
  apply (reward_split Blockchain_new 0 [] 50000000000 20000000000 30000000000).
  - reflexivity.
  - reflexivity.
  - vm_compute. reflexivity.
  - reflexivity.
Defined.

(** A stored chain of two blocks that the integrity check accepts. *)
Definition null_coinbase : Transaction := minting_tx 1000 [0x51].

Definition chain_header (height : Z) (prev : Hash) : BlockHeader :=
  mkBlockHeader 1 height prev (tx_hash (H := tiny_primitives) null_coinbase) [1] (100 + height) u32_max 0.

Definition block_0 : Block := mkBlock (chain_header 0 zero_hash) [] [null_coinbase].

Definition hash_of (b : Block) : Hash :=
  tiny_hash (default [] (bincode_block (Primitives := tiny_primitives) b)).

Definition block_1 : Block := mkBlock (chain_header 1 (hash_of block_0)) [] [null_coinbase].

(** A codec that knows the two blocks. *)
Definition two_block_codec : StoreCodec := {|
  bincode_hash h := Some h;
  decode_hash b := Some b;
  decode_block b := if bool_decide (b = [0]) then Some block_0 else Some block_1;
  bincode_u64 v := Some (to_le_bytes 8 v);
  decode_u64 b := Some (from_le_bytes b);
  decode_u32 b := Some (from_le_bytes b);
  bincode_outpoint o := None;
  decode_utxo _ := None;
  bincode_utxo_entry _ := None;
  bincode_pool _ := None;
  bincode_utxo_set _ := None;
  bincode_proposals _ := None;
|}.

Definition two_block_chain : Blockchain :=
  Blockchain_new <| state := set_current_block_height 1 BlockchainState_new
    <| db ::= fun d => <[height_key 0 := hash_of block_0]> (<[hash_of block_0 := [0]]>
                        (<[height_key 1 := hash_of block_1]> (<[hash_of block_1 := [1]]> d))) |> |>.

Abbreviation tiny_block_at := (block_at (H1 := two_block_codec) two_block_chain).

Lemma at_0 : tiny_block_at 0 = Some block_0.
Proof. vm_compute. reflexivity. Qed.

Lemma at_1 : tiny_block_at 1 = Some block_1.
Proof. vm_compute. reflexivity. Qed.

Lemma chain_pow height prev :
  check_pow (H := tiny_primitives) (chain_header height prev) = Ok tt.
Proof. apply tiny_pow. split; [discriminate|apply Z.le_refl]. Qed.

Lemma header_0_ok :
  validate_block_header_at_height (H := tiny_primitives) (H1 := two_block_codec)
    two_block_chain block_0 0 = Ok tt.
Proof.
  apply header_valid_conv; [reflexivity..|vm_compute; reflexivity|apply chain_pow|].
  left. split; reflexivity.
Qed.

Lemma header_1_ok :
  validate_block_header_at_height (H := tiny_primitives) (H1 := two_block_codec)
    two_block_chain block_1 1 = Ok tt.
Proof.
  apply header_valid_conv; [reflexivity..|vm_compute; reflexivity|apply chain_pow|].
  right. split; [done|]. exists block_0. split; [exact at_0|]. vm_compute. reflexivity.
Qed.

Lemma two_block_chain_ok :
  validate_blockchain_integrity (H := tiny_primitives) (H1 := two_block_codec) two_block_chain 0 = Ok tt.
Proof.
  apply (integrity_conv (H := tiny_primitives) (H1 := two_block_codec) two_block_chain 0 block_0 block_1);
    [vm_compute; reflexivity|exact at_0|exact at_1|..|vm_compute; reflexivity].
  - apply comprehensive_conv; [exact header_0_ok|..]; try (intros ?); vm_compute; reflexivity.
  - apply comprehensive_conv; [exact header_1_ok|..]; try (intros ?); vm_compute; reflexivity.
Qed.

Lemma integrity_means_chain_witness :
  exists b, tiny_block_at 1 = Some b /\
    linked (H := tiny_primitives) (H1 := two_block_codec) two_block_chain 0 1 b.
Proof.
  apply (integrity_means_chain (H := tiny_primitives) (H1 := two_block_codec) two_block_chain 0 1).
  - vm_compute. reflexivity.
  - reflexivity.
  - apply two_block_chain_ok.
  - split; discriminate.
Defined.
