(* ===== verification/TicketPool.v ===== *)
(** The ticket pool of rusty-consensus and the slashing of tickets
    (src/rusty-consensus/src/pos.rs, pos_slashing.rs, validation_simple.rs).

    [LiveTicketsPool] of this crate is not the one of rusty-core: it keeps
    three maps, and tickets in every status.  Where the code walks a [HashMap]
    to collect ids, the order of the result is [map_to_list]'s. *)

From Stdlib Require Import ZArith Lia List SpecFloat.
From stdpp Require Import base option list numbers strings gmap relations.
From coqutil Require Import Datatypes.RecordSetters.
From S2P Require Import Prelude Types Errors Transaction SamplePrimitives F64 PosSelection.
From S2P Require Import Params LiveTickets.

Import TriangleBracketNotations.
#[local] Open Scope Z_scope.

Record TicketPool : Type := mkTicketPool {
  tickets : gmap TicketId Ticket;
  non_participation_counts : gmap TicketId Z;
  last_missed_vote_height : gmap TicketId Z;
}.

Abbreviation tpM A := (stM TicketPool string A).

Definition TicketPool_new : TicketPool := mkTicketPool ∅ ∅ ∅.

Definition tp_add_ticket (ticket : Ticket) (p : TicketPool) : TicketPool :=
  p <| tickets ::= <[ticket_id ticket := ticket]> |>.

Definition tp_remove_ticket (id : TicketId) (p : TicketPool) : TicketPool * option Ticket :=
  match tickets p !! id with
  | Some t =>
      (mkTicketPool (delete id (tickets p)) (delete id (non_participation_counts p))
         (delete id (last_missed_vote_height p)), Some t)
  | None => (p, None)
  end.

Definition tp_get_ticket (p : TicketPool) (id : TicketId) : option Ticket := tickets p !! id.

(** What the caller writes through the reference, when there is one: any
    ticket. *)
Definition tp_get_ticket_mut (id : TicketId) (written : Ticket) (p : TicketPool) : TicketPool :=
  match tickets p !! id with
  | Some _ => p <| tickets ::= <[id := written]> |>
  | None => p
  end.

Definition tp_count (p : TicketPool) : Z := Z.of_nat (size (tickets p)).

Definition tp_count_live (p : TicketPool) : Z :=
  len (filter (fun t => ticket_status t = Live) (map_to_list (tickets p)).*2).

Definition tp_is_empty (p : TicketPool) : bool := tp_count p =? 0.

(** Changes no status: every ticket counts as mature from the height
    [TICKET_MATURITY_BLOCKS] of the chain on. *)
Definition process_ticket_maturity (p : TicketPool) (current_height : Z) : list TicketId :=
  if TICKET_MATURITY_BLOCKS <=? current_height then (map_to_list (tickets p)).*1 else [].

(** A pass over the tickets that changes the status of those it selects and
    returns their ids. *)
Definition transition (due : Ticket -> bool) (s : TicketStatus) (p : TicketPool) :
    TicketPool * list TicketId :=
  (p <| tickets ::= fmap (fun t => if due t then t <| ticket_status := s |> else t) |>,
   (filter (fun e => due e.2 = true) (map_to_list (tickets p))).*1).

Definition expires (current_height : Z) (t : Ticket) : bool :=
  bool_decide (ticket_status t = Live) &&
  (u64_add (ticket_height t) TICKET_EXPIRATION_BLOCKS <=? current_height).

Definition process_ticket_expiration (current_height : Z) : TicketPool -> TicketPool * list TicketId :=
  transition (expires current_height) Expired.

Definition becomes_final (current_height : Z) (t : Ticket) : bool :=
  bool_decide (ticket_status t = Pending) &&
  (u64_add (ticket_height t) POS_FINALITY_DEPTH <=? current_height).

Definition tp_process_ticket_finality (current_height : Z) :
    TicketPool -> TicketPool * list TicketId :=
  transition (becomes_final current_height) Live.

(** Set the status of a ticket that has one of the statuses [from]; the error
    texts show the status or the id and are not modelled. *)
Definition set_status_from (from : list TicketStatus) (s : TicketStatus) (id : TicketId) : tpM unit :=
  fun p =>
  match tickets p !! id with
  | Some t =>
      if bool_decide (ticket_status t ∈ from)
      then (p <| tickets ::= <[id := t <| ticket_status := s |>]> |>, Ok tt)
      else (p, Err "invalid status")
  | None => (p, Err "not found")
  end.

Definition mark_ticket_voted : TicketId -> tpM unit := set_status_from [Live] Voted.

Definition revoke_ticket : TicketId -> tpM unit := set_status_from [Live; Expired] Revoked.

(** The ticket need not exist. *)
Definition mark_ticket_missed (id : TicketId) (height : Z) : tpM unit :=
  modify (fun p => p
    <| non_participation_counts ::= partial_alter
         (fun c => Some (match c with Some c => wrap32 (c + 1) | None => 1 end)) id |>
    <| last_missed_vote_height ::= <[id := height]> |>).

Definition get_non_participation_count (p : TicketPool) (id : TicketId) : Z :=
  default 0 (non_participation_counts p !! id).

Definition get_last_missed_height (p : TicketPool) (id : TicketId) : option Z :=
  last_missed_vote_height p !! id.

Definition get_live_tickets (p : TicketPool) : gmap TicketId Ticket :=
  filter (fun e => ticket_status e.2 = Live) (tickets p).

(** ** Votes of a block *)

Definition MIN_VOTES_REQUIRED : Z := 3.

(** The loop of [pos::validate_ticket_votes]; it counts every vote. *)
Fixpoint check_pool_votes (current_height : Z) (all_tickets : gmap TicketId Ticket)
    (seen : list TicketId) (votes : list TicketVote) : outcome CCE.ConsensusCrateError Z :=
  match votes with
  | [] => Ok 0
  | vote :: votes =>
      let id := vote_ticket_id vote in
      if bool_decide (id ∈ seen) then Err CCE.DuplicateTicketVote else
      match all_tickets !! id with
      | None => Err CCE.InvalidTicketID
      | Some ticket =>
          if bool_decide (ticket_status ticket ≠ Live) then Err CCE.InvalidTicketStatus else
          if u64_add (ticket_height ticket) TICKET_EXPIRATION_BLOCKS <=? current_height
          then Err CCE.ExpiredTicket else
          if 2 <? vote_choice_u8 vote then Err CCE.InvalidVoteType else
          n ← check_pool_votes current_height all_tickets (id :: seen) votes; mret (n + 1)
      end
  end.

Definition pos_validate_ticket_votes (votes : list TicketVote) (params : ConsensusParams)
    (current_height : Z) (all_tickets : gmap TicketId Ticket) :
    outcome CCE.ConsensusCrateError unit :=
  if len votes =? 0 then Err CCE.NoTicketVotes else
  valid_votes ← check_pool_votes current_height all_tickets [] votes;
  if valid_votes <? MIN_VOTES_REQUIRED then Err CCE.InsufficientTicketVotes else mret tt.

(** * Slashing transactions (pos_slashing.rs) *)

Inductive PosSlashingError : Type :=
| InvalidProof (msg : string)
| InsufficientTicketValue (msg : string)
| TicketNotFound (msg : string).

Definition MAX_POS_SLASHING_PROOF_SIZE : Z := 4096.
Definition POS_SLASHING_COOLDOWN_BLOCKS : Z := 10080.
Definition SLASH_GRACE_PERIOD_BLOCKS : Z := 10.
Definition SLASH_FORGIVENESS_PERIOD : Z := 100.

Abbreviation slashR A := (outcome PosSlashingError A).

Definition burn_script : bytes := [0x6a; 0x04; 0x72; 0x75; 0x73; 0x74].

Definition create_ticket_burn_output (amount : Z) : TxOutput := mkTxOutput amount burn_script None.

(** [bincode_proof] is bincode on the proof; only its failure matters. *)
Definition create_ticket_non_participation_slashing_transaction
    (bincode_proof : TicketNonParticipationProof -> option bytes) (id : TicketId)
    (proof : TicketNonParticipationProof) (ticket_input : TxInput) (ticket_value : Z)
    (script_pubkey : bytes) (block_height : Z) : slashR Transaction :=
  if MAX_POS_SLASHING_PROOF_SIZE <? len (tnp_witness_signatures proof)
  then Err (InvalidProof "Proof data too large") else
  let slashed_amount := f64_to_u64 (f64_mul (f64_of_Z ticket_value) (f64_lit 1 100)) in
  let remaining := u64_saturating_sub ticket_value slashed_amount in
  let outputs := create_ticket_burn_output slashed_amount ::
    (if 0 <? remaining then [mkTxOutput remaining script_pubkey None] else []) in
  _ ← ok_or (bincode_proof proof) (InvalidProof "Failed to serialize proof");
  mret (TicketSlashNonParticipation 1 [ticket_input] outputs id proof
          (wrap32 (u64_add block_height POS_SLASHING_COOLDOWN_BLOCKS)) 0 []).

Definition create_ticket_malicious_behavior_slashing_transaction (id : TicketId)
    (proof : TicketMaliciousProof) (ticket_input : TxInput) (ticket_value : Z)
    (script_pubkey : bytes) (block_height : Z) : slashR Transaction :=
  if MAX_POS_SLASHING_PROOF_SIZE <? len (tm_proof_data proof)
  then Err (InvalidProof "Proof data too large") else
  let slashed_amount := f64_to_u64 (f64_mul (f64_of_Z ticket_value) (f64_of_Z 1)) in
  mret (TicketSlashMalicious 1 [ticket_input] [create_ticket_burn_output slashed_amount] id proof
          (wrap32 (u64_add block_height POS_SLASHING_COOLDOWN_BLOCKS)) 0 []).

Definition validate_ticket_non_participation_slashing (id : TicketId)
    (proof : TicketNonParticipationProof) (current_height : Z) : slashR unit :=
  if current_height <? u64_add (tnp_detection_block_height proof) SLASH_GRACE_PERIOD_BLOCKS
  then Err (InvalidProof "Grace period not yet passed.") else
  if bool_decide (tnp_ticket_id proof ≠ id) then Err (InvalidProof "Ticket ID mismatch") else
  if len (tnp_selection_proof proof) =? 0 then Err (InvalidProof "Selection proof is empty") else
  if len (tnp_witness_signatures proof) =? 0
  then Err (InvalidProof "No witness signatures provided") else
  if bool_decide (tnp_target_block_hash proof = replicate 32 0)
  then Err (InvalidProof "Invalid target block hash") else
  mret tt.

(** The bytes an accusation needs, and the error text if there are fewer. *)
Definition required_proof_data (a : TicketMaliciousActionType) : Z * string :=
  match a with
  | DoubleVoting => (128, "Insufficient proof data for double voting")
  | InvalidVote => (64, "Insufficient proof data for invalid vote")
  | InvalidSignature => (64, "Insufficient proof data for invalid signature")
  end%string.

Definition validate_ticket_malicious_behavior_slashing (id : TicketId)
    (proof : TicketMaliciousProof) (current_height : Z) : slashR unit :=
  if bool_decide (tm_ticket_id proof ≠ id) then Err (InvalidProof "Ticket ID mismatch") else
  if len (tm_proof_data proof) =? 0 then Err (InvalidProof "Proof data is empty") else
  if len (tm_witness_signatures proof) =? 0
  then Err (InvalidProof "No witness signatures provided") else
  let '(min_len, msg) := required_proof_data (tm_malicious_action_type proof) in
  if len (tm_proof_data proof) <? min_len then Err (InvalidProof msg) else
  mret tt.

Definition create_double_voting_proof (id : TicketId) (vote1 vote2 : bytes * Hash)
    (detection_height : Z) (witness_signatures : list WitnessSignature) :
    slashR TicketMaliciousProof :=
  if bool_decide (vote1.2 = vote2.2) then Err (InvalidProof "Votes are not conflicting") else
  mret (mkTicketMaliciousProof id detection_height DoubleVoting
          (vote1.1 ++ vote1.2 ++ vote2.1 ++ vote2.2) witness_signatures).

Definition create_non_participation_proof (id : TicketId) (target_block_hash : Hash)
    (selection_height : Z) (selection_proof : bytes) (detection_height : Z)
    (witness_signatures : list WitnessSignature) : slashR TicketNonParticipationProof :=
  if len selection_proof =? 0 then Err (InvalidProof "Selection proof is empty") else
  if bool_decide (target_block_hash = replicate 32 0)
  then Err (InvalidProof "Invalid target block hash") else
  if detection_height <=? selection_height
  then Err (InvalidProof "Detection height must be after selection height") else
  mret (mkTicketNonParticipationProof id detection_height target_block_hash selection_height
          selection_proof witness_signatures).

Definition should_slash_for_repeated_non_participation (non_participation_count : Z)
    (last_slash_height : option Z) (current_height : Z) : bool :=
  match last_slash_height with
  | None => 3 <=? non_participation_count
  | Some last_slash =>
      if current_height <? u64_add last_slash SLASH_FORGIVENESS_PERIOD
      then 5 <=? non_participation_count
      else 3 <=? non_participation_count
  end.

(** * Simplified vote validation (validation_simple.rs) *)

Inductive SimpleTicketStatus : Type := SimplePending | SimpleLive | SimpleExpired | SimpleSpent.

#[export] Instance SimpleTicketStatus_eq_dec : EqDecision SimpleTicketStatus.
Proof. solve_decision. Defined.

Section WithPrimitives.
  Context `{Primitives}.

(** The purchase height is read off the first eight bytes of the ticket id;
    both branches of the last test give [Live]. *)
Definition validate_ticket_status (id : bytes) (current_height : Z) : SimpleTicketStatus :=
  if forallb (Z.eqb 0) id then SimpleSpent else
  let ticket_purchase_height := from_le_bytes (reverse (take 8 id)) in
  if current_height <? u64_add ticket_purchase_height 256 then SimplePending else
  if u64_add ticket_purchase_height 40320 <? current_height then SimpleExpired else
  let selection_hash := blake3 (id ++ to_le_bytes 8 current_height) in
  let selection_value := from_le_bytes (take 8 selection_hash) in
  if selection_value mod 100 <? 5 then SimpleLive else SimpleLive.

(** The shape of an Ed25519 signature: two halves that are not zero and have
    the top bit of their last byte clear. *)
Definition half_ok (h : bytes) : bool :=
  existsb (fun b => negb (b =? 0)) h &&
  match h !! 31%nat with Some b => b <? 0x80 | None => false end.

Definition simple_validate_ticket_signature (vote : TicketVote) (prev_block_hash : Hash) : bool :=
  let sig := vote_signature vote in
  if negb (len sig =? 64) then false else
  if forallb (Z.eqb 0) sig then false else
  if negb (half_ok (take 32 sig)) || negb (half_ok (drop 32 sig)) then false else
  let message := vote_ticket_id vote ++ prev_block_hash ++ [vote_choice_u8 vote] in
  existsb (fun p => negb (Z.lxor p.1 p.2 =? 0)) (zip (blake3 message) (blake3 sig)).

(** The loop: some defects are errors, others only leave the vote out. *)
Fixpoint check_simple_votes (current_height : Z) (prev_block_hash : Hash)
    (seen : list (bytes * Hash)) (votes : list TicketVote) : outcome CCE.ConsensusCrateError Z :=
  match votes with
  | [] => Ok 0
  | vote :: votes =>
      let key := (vote_ticket_id vote, vote_block_hash vote) in
      if bool_decide (key ∈ seen) then Err CCE.DuplicateTicketVote else
      if bool_decide (vote_ticket_id vote = replicate 32 0) then Err CCE.InvalidTicketID else
      if bool_decide (vote_block_hash vote = replicate 32 0) then Err CCE.InvalidBlockHash else
      if negb (len (vote_signature vote) =? 64) then Err CCE.InvalidSignature else
      if 2 <? vote_choice_u8 vote then Err CCE.InvalidSignature else
      let counts :=
        bool_decide (validate_ticket_status (vote_ticket_id vote) current_height = SimpleLive) &&
        simple_validate_ticket_signature vote prev_block_hash in
      n ← check_simple_votes current_height prev_block_hash (key :: seen) votes;
      mret (if counts then n + 1 else n)
  end.

Definition simple_validate_ticket_votes (votes : list TicketVote) (current_height : Z)
    (prev_block_hash : Hash) : outcome CCE.ConsensusCrateError unit :=
  if len votes =? 0 then Err CCE.NoTicketVotes else
  valid_vote_count ← check_simple_votes current_height prev_block_hash [] votes;
  if valid_vote_count <? MIN_VOTES_REQUIRED then Err CCE.InsufficientTicketVotes else mret tt.

End WithPrimitives.

(** * The life of a ticket *)

Inductive tp_op : Type :=
| TpAdd (t : Ticket)
| TpEdit (id : TicketId) (t : Ticket)
| TpRemove (id : TicketId)
| TpMaturity (height : Z)
| TpExpire (height : Z)
| TpFinality (height : Z)
| TpVoted (id : TicketId)
| TpMissed (id : TicketId) (height : Z)
| TpRevoke (id : TicketId).

Definition tp_exec (op : tp_op) (p : TicketPool) : TicketPool :=
  match op with
  | TpAdd t => tp_add_ticket t p
  | TpEdit id t => tp_get_ticket_mut id t p
  | TpRemove id => fst (tp_remove_ticket id p)
  | TpMaturity h => let _ := process_ticket_maturity p h in p
  | TpExpire h => fst (process_ticket_expiration h p)
  | TpFinality h => fst (tp_process_ticket_finality h p)
  | TpVoted id => fst (mark_ticket_voted id p)
  | TpMissed id h => fst (mark_ticket_missed id h p)
  | TpRevoke id => fst (revoke_ticket id p)
  end.

Definition tp_run (p : TicketPool) (ops : list tp_op) : TicketPool :=
  foldl (fun p op => tp_exec op p) p ops.

(** The transitions of the source: a ticket is bought [Pending]. *)
Inductive ticket_step : TicketStatus -> TicketStatus -> Prop :=
| step_final : ticket_step Pending Live
| step_expire : ticket_step Live Expired
| step_vote : ticket_step Live Voted
| step_revoke_live : ticket_step Live Revoked
| step_revoke_expired : ticket_step Expired Revoked.

(** The ticket an operation puts under [id] as a whole: a purchase, or what a
    caller writes through the reference of [get_ticket_mut]. *)
Definition written (id : TicketId) (op : tp_op) : option Ticket :=
  match op with
  | TpAdd t => if bool_decide (ticket_id t = id) then Some t else None
  | TpEdit i t => if bool_decide (i = id) then Some t else None
  | _ => None
  end.

Definition writes (id : TicketId) (op : tp_op) : bool :=
  match written id op with Some _ => true | None => false end.

(** The last ticket written as a whole under [id], starting from [t0]. *)
Definition last_written (id : TicketId) (t0 : option Ticket) (ops : list tp_op) : option Ticket :=
  foldl (fun t op => match written id op with Some t' => Some t' | None => t end) t0 ops.


(** What one operation may do to the ticket [id]. *)
Definition ticket_moves (id : TicketId) (p p' : TicketPool) : Prop :=
  match tickets p !! id, tickets p' !! id with
  | Some t, Some t' =>
      rtc ticket_step (ticket_status t) (ticket_status t') /\
      ticket_height t' = ticket_height t /\ ticket_value t' = ticket_value t /\
      ticket_pubkey t' = ticket_pubkey t
  | None, Some _ => False
  | _, None => True
  end.

Lemma transition_lookup due st p id :
  tickets (fst (transition due st p)) !! id =
  (fun t => if due t then t <| ticket_status := st |> else t) <$> tickets p !! id.
Proof. cbn. apply lookup_fmap. Qed.

Lemma transition_returns due st p id :
  id ∈ snd (transition due st p) <-> exists t, tickets p !! id = Some t /\ due t = true.
Proof.
  cbn. rewrite list_elem_of_fmap. split.
  - intros ([i t] & -> & Hit). apply list_elem_of_filter in Hit as [Hd Hin].
    apply elem_of_map_to_list in Hin. eauto.
  - intros (t & Ht & Hd). exists (id, t). split; [done|]. apply list_elem_of_filter.
    split; [done|]. by apply elem_of_map_to_list.
Qed.

Lemma ticket_moves_refl id p p' :
  tickets p' !! id = tickets p !! id -> ticket_moves id p p'.
Proof.
  intros E. unfold ticket_moves. rewrite E. destruct (tickets p !! id); [|done].
  repeat split. apply rtc_refl.
Qed.

Lemma transition_moves due st p id :
  (forall t, due t = true -> ticket_step (ticket_status t) st) ->
  ticket_moves id p (fst (transition due st p)).
Proof.
  intros Hd. unfold ticket_moves. rewrite transition_lookup.
  destruct (tickets p !! id) as [t|]; cbn; [|done].
  destruct (due t) eqn:E; cbn; repeat split; [by apply rtc_once, Hd|apply rtc_refl].
Qed.

Lemma set_status_moves from st id' id p :
  (forall s, s ∈ from -> ticket_step s st) ->
  ticket_moves id p (fst (set_status_from from st id' p)).
Proof.
  intros Hf. unfold set_status_from.
  destruct (tickets p !! id') as [t|] eqn:Et; [|by apply ticket_moves_refl].
  case_bool_decide as Hs; [|by apply ticket_moves_refl].
  destruct (decide (id' = id)) as [->|Hne].
  - unfold ticket_moves. cbn. rewrite Et, lookup_insert_eq. cbn. repeat split.
    by apply rtc_once, Hf.
  - apply ticket_moves_refl. cbn. by rewrite lookup_insert_ne.
Qed.

Lemma ticket_moves_trans id p1 p2 p3 :
  ticket_moves id p1 p2 -> ticket_moves id p2 p3 -> ticket_moves id p1 p3.
Proof.
  unfold ticket_moves.
  destruct (tickets p1 !! id), (tickets p2 !! id), (tickets p3 !! id); try done.
  intros (H1 & -> & -> & ->) (H2 & -> & -> & ->). repeat split. by etrans.
Qed.

Lemma tp_exec_moves id op p : writes id op = false -> ticket_moves id p (tp_exec op p).
Proof.
  destruct op as [t|i t|i|h|h|h|i|i h|i]; unfold writes; cbn [written tp_exec]; intros Ha.
  - case_bool_decide; [done|]. apply ticket_moves_refl. cbn. by rewrite lookup_insert_ne.
  - case_bool_decide; [done|]. apply ticket_moves_refl. unfold tp_get_ticket_mut.
    destruct (tickets p !! i); [cbn; by rewrite lookup_insert_ne|done].
  - unfold tp_remove_ticket. destruct (tickets p !! i) eqn:Ei; [|by apply ticket_moves_refl].
    destruct (decide (i = id)) as [->|Hne].
    + unfold ticket_moves. cbn. rewrite lookup_delete_eq. by destruct (tickets p !! id).
    + apply ticket_moves_refl. cbn. by rewrite lookup_delete_ne.
  - by apply ticket_moves_refl.
  - apply transition_moves. intros t Ht. unfold expires in Ht.
    apply andb_prop in Ht as [Hl _]. apply bool_decide_eq_true in Hl as ->. constructor.
  - apply transition_moves. intros t Ht. unfold becomes_final in Ht.
    apply andb_prop in Ht as [Hl _]. apply bool_decide_eq_true in Hl as ->. constructor.
  - apply set_status_moves. set_unfold. intros s Hs. naive_solver (constructor).
  - by apply ticket_moves_refl.
  - apply set_status_moves. set_unfold. intros s Hs. naive_solver (constructor).
Qed.

Lemma tp_run_moves id ops p :
  forallb (fun op => negb (writes id op)) ops = true -> ticket_moves id p (tp_run p ops).
Proof.
  revert p. induction ops as [|op ops IH]; intros p; cbn; [by intros; apply ticket_moves_refl|].
  rewrite andb_true_iff, negb_true_iff. intros [Ha Hops].
  eapply ticket_moves_trans; [by apply tp_exec_moves|by apply IH].
Qed.

Lemma voted_final s : rtc ticket_step Voted s -> s = Voted.
Proof. intros Hs. by inversion Hs as [|? ? ? Hst]; [|inversion Hst]. Qed.

(** The ticket in the pool after an operation that writes it. *)
Lemma tp_exec_written id op p t t' :
  written id op = Some t -> tickets (tp_exec op p) !! id = Some t' -> t' = t.
Proof.
  destruct op as [t1|i t1|i|h|h|h|i|i h|i]; cbn [written tp_exec]; try done; case_bool_decide as Hi; try done;
    intros [= ->]; subst; unfold tp_add_ticket, tp_get_ticket_mut.
  - cbn. rewrite lookup_insert_eq. by intros [= ->].
  - destruct (tickets p !! id) eqn:E; cbn; [rewrite lookup_insert_eq; by intros [= ->]|congruence].
Qed.

(** C12. Along every sequence of the operations of the pool, purchases that
    overwrite a ticket and arbitrary writes through [get_ticket_mut] included:
    a ticket in the pool comes from the last one written as a whole under its
    id, or from the one there at the start if there was none.  It has that
    ticket's owner, value and height; its status has only moved forward from
    pending through live to voted, expired or revoked; and it is voted if that
    ticket was. *)
Theorem ticket_status_machine id ops p t' :
  tickets (tp_run p ops) !! id = Some t' ->
  exists t, last_written id (tickets p !! id) ops = Some t /\
    rtc ticket_step (ticket_status t) (ticket_status t') /\
    ticket_value t' = ticket_value t /\ ticket_height t' = ticket_height t /\
    ticket_pubkey t' = ticket_pubkey t /\
    (ticket_status t = Voted -> ticket_status t' = Voted).
Proof.
  revert t'. induction ops as [|op ops IH] using rev_ind; intros t' Ht'.
  { exists t'. by repeat split. }
  unfold tp_run in *. rewrite foldl_snoc in Ht'. set (q := foldl _ p ops) in *.
  unfold last_written in *. rewrite foldl_snoc. destruct (written id op) as [t|] eqn:Ew.
  { rewrite (tp_exec_written _ _ _ _ _ Ew Ht'). exists t. by repeat split. }
  pose proof (tp_exec_moves id op q ltac:(unfold writes; by rewrite Ew)) as Hm.
  unfold ticket_moves in Hm. rewrite Ht' in Hm. destruct (tickets q !! id) as [t|]; [|done].
  destruct (IH t eq_refl) as (t0 & H0 & Hs0 & Hv0 & Hh0 & Hk0 & _). destruct Hm as (Hs & Hh & Hv & Hk).
  exists t0. split_and!; [done|by etrans|congruence|congruence|congruence|].
  intros Hvt. rewrite Hvt in Hs0. by rewrite (voted_final _ Hs0) in Hs; apply voted_final in Hs.
Qed.

Definition pool_ticket (s : TicketStatus) : Ticket := mkTicket [1] [2] 5 100 s.

Definition voted_pool : TicketPool :=
  tp_run TicketPool_new [TpAdd (pool_ticket Pending); TpFinality 6; TpVoted [1]].

Definition pool_ops : list tp_op :=
  [TpRevoke [1]; TpAdd (pool_ticket Pending); TpMaturity 9; TpFinality 6; TpVoted [1]; TpExpire 1000000;
   TpRevoke [1]; TpMissed [1] 7].

Lemma ticket_status_machine_witness :
  tickets (tp_run voted_pool pool_ops) !! [1] = Some (pool_ticket Voted) /\
  exists t, last_written [1] (tickets voted_pool !! [1]) pool_ops = Some t /\
    rtc ticket_step (ticket_status t) Voted.
Proof.
  split; [vm_compute; reflexivity|].
  destruct (ticket_status_machine [1] pool_ops voted_pool (pool_ticket Voted) ltac:(vm_compute; reflexivity))
    as (t & Ht & Hs & _).
  exists t. split; [exact Ht | exact Hs].
Defined.

(** * What the vote check demands *)

Definition votable (current_height : Z) (all_tickets : gmap TicketId Ticket) (v : TicketVote) :
    Prop :=
  exists t, all_tickets !! vote_ticket_id v = Some t /\ ticket_status t = Live /\
    current_height < u64_add (ticket_height t) TICKET_EXPIRATION_BLOCKS /\ vote_choice_u8 v <= 2.

Lemma check_pool_votes_iff h all seen votes n :
  check_pool_votes h all seen votes = Ok n <->
  NoDup (vote_ticket_id <$> votes) /\ Forall (fun v => vote_ticket_id v ∉ seen) votes /\
  Forall (votable h all) votes /\ n = len votes.
Proof.
  revert seen n. induction votes as [|v votes IH]; intros seen n; cbn [check_pool_votes].
  - split; [intros [= <-]; repeat split; constructor|]. intros (_ & _ & _ & ->). done.
  - rewrite fmap_cons, NoDup_cons, !Forall_cons.
    assert (Hlen : len (v :: votes) = len votes + 1) by apply len_cons. rewrite Hlen.
    unfold votable at 1. case_bool_decide as Hseen; [naive_solver|].
    destruct (all !! vote_ticket_id v) as [t|]; [|naive_solver].
    case_bool_decide as Hl; [naive_solver|].
    destruct (Z.leb_spec (u64_add (ticket_height t) TICKET_EXPIRATION_BLOCKS) h);
      [split; [done|]; intros (_ & _ & ((? & [= <-] & ? & ? & ?) & _) & _); lia|].
    destruct (Z.ltb_spec 2 (vote_choice_u8 v));
      [split; [done|]; intros (_ & _ & ((? & [= <-] & ? & ? & ?) & _) & _); lia|].
    transitivity (check_pool_votes h all (vote_ticket_id v :: seen) votes = Ok (n - 1)).
    { destruct (check_pool_votes h all (vote_ticket_id v :: seen) votes) as [k|e| |];
        [|done..]. split; intros E; injection E as E; rewrite ?outcome_bind_ok; unfold mret, outcome_ret;
        f_equal; lia. }
    rewrite IH.
    assert (Hsplit : Forall (fun w => vote_ticket_id w ∉ vote_ticket_id v :: seen) votes <->
      vote_ticket_id v ∉ vote_ticket_id <$> votes /\ Forall (fun w => vote_ticket_id w ∉ seen) votes).
    { rewrite !Forall_forall, list_elem_of_fmap. set_solver. }
    rewrite Hsplit. split.
    + intros (Hnd & (Hni & Hf) & Hv & Hn). repeat split; try done; [|lia]. exists t.
      repeat split; done || lia.
    + intros ((Hni & Hnd) & (_ & Hf) & (_ & Hv) & Hn). repeat split; try done; lia.
Qed.

(** A block's votes pass [pos::validate_ticket_votes] exactly when there are at
    least three, from distinct tickets, each live, not expired and with a
    choice of 0, 1 or 2.  Neither the signatures nor the block voted on nor the
    lottery is looked at. *)
Theorem pool_votes_iff votes params h all :
  pos_validate_ticket_votes votes params h all = Ok tt <->
  3 <= len votes /\ NoDup (vote_ticket_id <$> votes) /\ Forall (votable h all) votes.
Proof.
  unfold pos_validate_ticket_votes, MIN_VOTES_REQUIRED.
  destruct (Z.eqb_spec (len votes) 0) as [E0|E0]; [split; [done|lia]|].
  destruct (check_pool_votes h all [] votes) as [n|e| |] eqn:En.
  1: apply check_pool_votes_iff in En as (Hnd & _ & Hv & ->); cbn;
     destruct (Z.ltb_spec (len votes) 3); split; intros; try done; lia.
  all: split; [done|]; intros (_ & Hnd & Hv);
    assert (check_pool_votes h all [] votes = Ok (len votes)) as E
      by (apply check_pool_votes_iff; repeat split; try done;
          apply Forall_forall; intros v _; apply not_elem_of_nil);
    rewrite E in En; discriminate.
Qed.

(** * Slashing *)

Definition outputs_value (outputs : list TxOutput) : Z :=
  foldr (fun o acc => value o + acc) 0 outputs.

(** Slashing for non-participation burns part of the ticket and returns the
    rest: the two outputs are worth at least the ticket, so nothing is left for
    a fee. *)
Lemma non_participation_outputs bincode_proof id proof input v spk h tx :
  create_ticket_non_participation_slashing_transaction bincode_proof id proof input v spk h = Ok tx ->
  get_inputs tx = [input] /\ v <= outputs_value (get_outputs tx) /\
  is_coinbase tx = false /\ get_fee tx = 0.
Proof.
  unfold create_ticket_non_participation_slashing_transaction. intros E.
  case_match; [done|]. apply outcome_bind_inv in E as (b & _ & E). injection E as <-.
  cbn [get_inputs get_outputs is_coinbase get_fee]. repeat split.
  set (x := f64_to_u64 _). pose proof (f64_to_u64_range (f64_mul (f64_of_Z v) (f64_lit 1 100))) as Hx.
  fold x in Hx. unfold is_u64 in Hx. unfold u64_saturating_sub.
  destruct (Z.ltb_spec 0 (Z.max 0 (v - x))); cbn [outputs_value foldr value create_ticket_burn_output]; lia.
Qed.

(** Evidence of a double vote is accepted as soon as it has the length of two
    signatures and one witness entry: any bytes will do, and neither the
    signatures in them nor those of the witnesses are verified.  The honest
    proof [create_double_voting_proof] builds from two signed votes passes too,
    and the transaction made from it names the same ticket and proof. *)
Theorem double_vote_evidence id (data : bytes) (ws : list WitnessSignature) d h
    (v1 v2 : bytes * Hash) :
  ws <> [] -> 128 <= len data -> length v1.1 = 64%nat -> length v2.1 = 64%nat -> v1.2 <> v2.2 ->
  validate_ticket_malicious_behavior_slashing id (mkTicketMaliciousProof id d DoubleVoting data ws) h
    = Ok tt /\
  exists proof, create_double_voting_proof id v1 v2 d ws = Ok proof /\
    validate_ticket_malicious_behavior_slashing id proof h = Ok tt /\
    tm_proof_data proof = v1.1 ++ v1.2 ++ v2.1 ++ v2.2.
Proof.
  intros Hws Hdata H1 H2 Hne.
  assert (Hvalid : forall data, 128 <= len data ->
    validate_ticket_malicious_behavior_slashing id (mkTicketMaliciousProof id d DoubleVoting data ws) h
      = Ok tt).
  { intros dt Hdt. unfold validate_ticket_malicious_behavior_slashing. cbn.
    rewrite bool_decide_eq_false_2 by naive_solver.
    destruct (Z.eqb_spec (len dt) 0); [lia|].
    destruct (Z.eqb_spec (len ws) 0) as [E|_]; [unfold len in E; destruct ws; [done|cbn in E; lia]|].
    destruct (Z.ltb_spec (len dt) 128); [lia|done]. }
  split; [by apply Hvalid|]. eexists. unfold create_double_voting_proof.
  rewrite bool_decide_eq_false_2 by done. split; [reflexivity|]. split; [|reflexivity].
  apply Hvalid. rewrite !len_app. unfold len. lia.
Qed.

Definition witness_entry : WitnessSignature :=
  mkWitnessSignature (mkMasternodeID (mkOutPoint [] 0)) [].

Lemma double_vote_evidence_witness :
  validate_ticket_malicious_behavior_slashing [1]
    (mkTicketMaliciousProof [1] 0 DoubleVoting (replicate 128 0) [witness_entry]) 0 = Ok tt.
Proof.
  refine (proj1 (double_vote_evidence [1] (replicate 128 0) [witness_entry] 0 0
    (replicate 64 1, [1]) (replicate 64 2, [2]) _ _ _ _ _)); done.
Defined.

(** * Votes without keys *)

Section SimpleVotes.
  Context `{Primitives} `{!HashLaws _}.

Lemma xor_exists (a b : bytes) :
  length a = length b -> a <> b ->
  existsb (fun p => negb (Z.lxor p.1 p.2 =? 0)) (zip a b) = true.
Proof.
  revert b. induction a as [|x a IH]; intros [|y b] Hl Hne; try done. cbn.
  destruct (Z.eqb_spec (Z.lxor x y) 0) as [E|E]; cbn; [|done].
  apply Z.lxor_eq in E as ->. apply IH; [by injection Hl|]. intros ->. done.
Qed.

(** A string shaped like a signature, good for every vote of the list. *)
Definition shaped (sig : bytes) : bool :=
  (len sig =? 64) && negb (forallb (Z.eqb 0) sig) && half_ok (take 32 sig) && half_ok (drop 32 sig).

Definition vote_with (sig : bytes) (v : bytes * Hash * Z) : TicketVote :=
  mkTicketVote v.1.1 v.1.2 v.2 sig.

Definition ballot_ok (h : Z) (prev : Hash) (sig : bytes) (v : bytes * Hash * Z) : Prop :=
  v.1.1 <> replicate 32 0 /\ v.1.2 <> replicate 32 0 /\ v.2 <= 2 /\
  validate_ticket_status v.1.1 h = SimpleLive /\ blake3 (v.1.1 ++ prev ++ [v.2]) <> blake3 sig.

Lemma shaped_counts h prev sig v :
  shaped sig = true -> ballot_ok h prev sig v ->
  simple_validate_ticket_signature (vote_with sig v) prev = true.
Proof.
  unfold shaped. rewrite !andb_true_iff, negb_true_iff.
  intros [[[Hl Hz] Hr] Hs] (_ & _ & _ & _ & Hne). unfold simple_validate_ticket_signature.
  cbn [vote_with vote_signature vote_ticket_id vote_choice_u8].
  rewrite Hl, Hz, Hr, Hs. cbn [negb orb]. apply xor_exists; [|done].
  pose proof (blake3_out (v.1.1 ++ prev ++ [v.2])) as [_ ->].
  by pose proof (blake3_out sig) as [_ ->].
Qed.

Lemma check_simple_votes_all h prev sig seen l :
  shaped sig = true -> NoDup l.*1 -> Forall (fun v => v.1 ∉ seen) l -> Forall (ballot_ok h prev sig) l ->
  check_simple_votes h prev seen (vote_with sig <$> l) = Ok (len l).
Proof.
  intros Hsig. revert seen. induction l as [|v l IH]; intros seen Hnd Hs Hok; [done|].
  rewrite fmap_cons. change ((v :: l).*1) with (v.1 :: l.*1) in Hnd.
  apply NoDup_cons in Hnd as [Hni Hnd].
  apply Forall_cons in Hs as [Hv Hs]. apply Forall_cons in Hok as [Hb Hok].
  pose proof (shaped_counts h prev sig v Hsig Hb) as Hc. destruct Hb as (Hid & Hbh & Hch & Hst & _).
  cbn [check_simple_votes].
  cbn [vote_with vote_ticket_id vote_block_hash vote_choice_u8 vote_signature] in *.
  rewrite bool_decide_eq_false_2 by (by destruct v as [[] ?]).
  rewrite !bool_decide_eq_false_2 by done.
  unfold shaped in Hsig. rewrite !andb_true_iff in Hsig. destruct Hsig as [[[Hl _] _] _].
  rewrite Hl. cbn [negb]. destruct (Z.ltb_spec 2 v.2); [lia|].
  rewrite bool_decide_eq_true_2, Hc by done. cbn [andb].
  rewrite IH; [rewrite outcome_bind_ok, len_cons; reflexivity|done| |done].
  rewrite Forall_forall in Hs |- *. intros w Hw. apply not_elem_of_cons. split; [|by apply Hs].
  intros E. apply Hni. apply list_elem_of_fmap. exists w. split; [|done]. by destruct v as [[] ?], w as [[] ?].
Qed.

(** [validation_simple] accepts votes nobody signed: one string shaped like a
    signature, put on every vote, passes for any three or more distinct tickets
    whose id encodes a suitable height, unless its hash happens to equal the
    hash of a signed message. *)
Theorem simple_votes_need_no_key h prev sig l :
  shaped sig = true -> 3 <= len l -> NoDup l.*1 -> Forall (ballot_ok h prev sig) l ->
  simple_validate_ticket_votes (vote_with sig <$> l) h prev = Ok tt.
Proof.
  intros Hsig Hlen Hnd Hok. unfold simple_validate_ticket_votes, MIN_VOTES_REQUIRED.
  assert (Hl : len (vote_with sig <$> l) = len l) by (unfold len; by rewrite length_fmap).
  rewrite Hl. destruct (Z.eqb_spec (len l) 0); [lia|].
  rewrite (check_simple_votes_all h prev sig [] l); [|done..|apply Forall_true; intros; apply not_elem_of_nil|done].
  rewrite outcome_bind_ok. destruct (Z.ltb_spec (len l) 3); [lia|done].
Qed.

End SimpleVotes.

Definition forged_ballots : list (bytes * Hash * Z) :=
  (fun k => (replicate 8 0 ++ replicate 24 k, replicate 32 1, 0)) <$> [1; 2; 3].

Lemma simple_votes_need_no_key_witness :
  simple_validate_ticket_votes (vote_with (replicate 64 1) <$> forged_ballots) 1000 (replicate 32 9)
    = Ok tt.
Proof.
  refine (simple_votes_need_no_key 1000 (replicate 32 9) (replicate 64 1) forged_ballots _ _ _ _);
    [vm_compute; reflexivity | vm_compute; done | apply (bool_decide_unpack _); vm_compute; exact I |].
  repeat constructor; apply (bool_decide_unpack _); vm_compute; exact I.
Defined.

(** The votes of the unit test [test_validate_ticket_votes_success] are
    rejected: their ids encode heights far above 1000, and their signatures are
    zero. *)
Example unit_test_votes_rejected :
  simple_validate_ticket_votes
    [mkTicketVote (replicate 32 1) (replicate 32 2) 0 (replicate 64 0);
     mkTicketVote (replicate 32 3) (replicate 32 2) 1 (replicate 64 0);
     mkTicketVote (replicate 32 4) (replicate 32 2) 2 (replicate 64 0)] 1000 (replicate 32 0)
  = Err CCE.InsufficientTicketVotes.
Proof. vm_compute. reflexivity. Qed.
