(* ===== verification/ConsensusStore.v ===== *)
(** The stores of rusty-consensus: the UTXO set of
    src/rusty-consensus/src/utxo_set.rs and [BlockchainState] of
    src/rusty-consensus/src/state.rs.

    Both keep their data in RocksDB, a library outside the repository: it is
    the interface [RocksDB], whose laws [RocksLaws] say that a read returns what
    the store holds and that a batch of writes is applied in order, or fails and
    changes nothing.  [open] is not part of the model. *)

From Stdlib Require Import ZArith Lia List Ascii String.
From stdpp Require Import base option list numbers strings pretty gmap.
From coqutil Require Import Datatypes.RecordSetters.
From S2P Require Import Prelude Types Errors Transaction SamplePrimitives.
From S2P Require Import LiveTickets ChainState TicketPool.

Import TriangleBracketNotations.
#[local] Open Scope Z_scope.

(** * The database *)

Inductive batch_op : Type :=
| BatchPut (cf : string) (k v : bytes)
| BatchDelete (cf : string) (k : bytes).

Abbreviation WriteBatch := (list batch_op).

Class RocksDB (DB : Type) : Type := {
  cf_handle : DB -> string -> bool;
  db_get : DB -> string -> bytes -> outcome string (option bytes);
  db_write : WriteBatch -> DB -> outcome string DB;
}.

Abbreviation contents := (gmap (string * bytes) bytes).

Definition batch_apply (m : contents) (op : batch_op) : contents :=
  match op with
  | BatchPut cf k v => <[(cf, k) := v]> m
  | BatchDelete cf k => delete (cf, k) m
  end.

Class RocksLaws (DB : Type) `{RocksDB DB} : Type := {
  db_view : DB -> contents;
  db_get_view : forall d cf k r, db_get d cf k = Ok r -> r = db_view d !! (cf, k);
  db_write_view : forall ops d d', db_write ops d = Ok d' ->
    db_view d' = foldl batch_apply (db_view d) ops;
  db_write_handles : forall ops d d' cf, db_write ops d = Ok d' -> cf_handle d' cf = cf_handle d cf;
}.

(** bincode of the stored values. *)
Class EntryCodec : Type := {
  decode_utxo_entry : bytes -> option (TxOutput * Z * bool);
  bincode_utxo_entry32 : TxOutput * Z * bool -> option bytes;
  decode_utxo_entry32 : bytes -> option (TxOutput * Z * bool);
  bincode_ticket : Ticket -> option bytes;
  decode_ticket : bytes -> option Ticket;
}.

Class EntryCodecLaws (S : StoreCodec) (C : EntryCodec) : Prop := {
  decode_bincode_entry : forall e b, bincode_utxo_entry e = Some b -> decode_utxo_entry b = Some e;
  bincode_outpoint_inj : forall o1 o2 b,
    bincode_outpoint o1 = Some b -> bincode_outpoint o2 = Some b -> o1 = o2;
}.

Definition serialization : CCE.ConsensusCrateError := CCE.SerializationError "".
Definition database : string -> CCE.ConsensusCrateError := CCE.DatabaseError.

(** * The UTXO set *)

Record UtxoDb (DB : Type) : Type := mkUtxoDb {
  utxo_db : DB;
  utxo_tickets : gmap Hash Ticket;
}.
Arguments mkUtxoDb {DB}.
Arguments utxo_db {DB}.
Arguments utxo_tickets {DB}.

Abbreviation ccR A := (outcome CCE.ConsensusCrateError A).

Section Stores.
  Context `{Primitives} `{StoreCodec} `{EntryCodec} {DB : Type} `{RocksDB DB}.

Definition handle (u : UtxoDb DB) (cf : string) : ccR unit :=
  if cf_handle (utxo_db u) cf then mret tt
  else Err (CCE.DatabaseError (cf +:+ " column family not found")).

(** [.map(deserialize).transpose()] of a value read from the store. *)
Definition decode_stored {E A} (decode : bytes -> option A) (e : E) (data : option bytes) :
    outcome E (option A) :=
  match data with
  | Some data => a ← ok_or (decode data) e; mret (Some a)
  | None => mret None
  end.

Definition udb_get_utxo (u : UtxoDb DB) (outpoint : OutPoint) : ccR (option (TxOutput * Z * bool)) :=
  key ← ok_or (bincode_outpoint outpoint) serialization;
  handle u "utxos";;
  data ← map_err database (db_get (utxo_db u) "utxos" key);
  decode_stored decode_utxo_entry serialization data.

Definition apply_batch (batch : WriteBatch) (u : UtxoDb DB) : ccR (UtxoDb DB) :=
  d ← map_err database (db_write batch (utxo_db u));
  mret (mkUtxoDb d (utxo_tickets u)).

Definition create_batch : WriteBatch := [].

Definition put_utxo_in_batch (u : UtxoDb DB) (batch : WriteBatch) (outpoint : OutPoint)
    (output : TxOutput) (height : Z) (is_coinbase : bool) : ccR WriteBatch :=
  key ← ok_or (bincode_outpoint outpoint) serialization;
  value ← ok_or (bincode_utxo_entry (output, height, is_coinbase)) serialization;
  handle u "utxos";;
  mret (batch ++ [BatchPut "utxos" key value]).

Definition delete_utxo_in_batch (u : UtxoDb DB) (batch : WriteBatch) (outpoint : OutPoint) :
    ccR WriteBatch :=
  key ← ok_or (bincode_outpoint outpoint) serialization;
  handle u "utxos";;
  mret (batch ++ [BatchDelete "utxos" key]).

Definition put_ticket_in_batch (batch : WriteBatch) (cf : string) (id : bytes) (t : Ticket) :
    ccR WriteBatch :=
  value ← ok_or (bincode_ticket t) serialization;
  mret (batch ++ [BatchPut cf id value]).

Definition delete_ticket_in_batch (batch : WriteBatch) (cf : string) (id : bytes) : WriteBatch :=
  batch ++ [BatchDelete cf id].

Definition udb_get_ticket (u : UtxoDb DB) (id : bytes) : ccR (option Ticket) :=
  handle u "tickets";;
  data ← map_err database (db_get (utxo_db u) "tickets" id);
  decode_stored decode_ticket serialization data.

Definition put_block_metadata_in_batch (batch : WriteBatch) (cf : string) (block_hash : Hash)
    (h : BlockHeader) : ccR WriteBatch :=
  value ← ok_or (bincode_header h) serialization;
  mret (batch ++ [BatchPut cf block_hash value]).

End Stores.

(** * The chain state *)

Record GovernanceVoteTally : Type := mkVoteTally {
  pos_yes_votes : Z;
  pos_no_votes : Z;
  mn_yes_votes : Z;
  mn_no_votes : Z;
}.

Record GovernanceStore : Type := mkGovernanceStore {
  active_proposals : gmap Hash Proposal;
  proposal_votes : gmap Hash GovernanceVoteTally;
  parameter_change_history : option (gmap Z (list string));
}.

Record ConsensusState (DB : Type) : Type := mkConsensusState {
  cs_db : DB;
  governance_state : GovernanceStore;
  cs_tickets : gmap TicketId Ticket;
}.
Arguments mkConsensusState {DB}.
Arguments cs_db {DB}.
Arguments governance_state {DB}.
Arguments cs_tickets {DB}.

(** [format!("{:?}", bytes)] of a byte array. *)
Definition debug_bytes (b : bytes) : string :=
  "[" +:+ String.concat ", " ((fun z => pretty (Z.to_N z)) <$> b) +:+ "]".

Definition utxo_key (o : OutPoint) : bytes :=
  string_bytes ("UTXO " +:+ debug_bytes (txid o) +:+ ":" +:+ pretty (Z.to_N (vout o))).

(** The key [apply_block] deletes for a spent output. *)
Definition spent_key (o : OutPoint) : bytes :=
  string_bytes ("utxo_" +:+ debug_bytes (txid o) +:+ "_" +:+ pretty (Z.to_N (vout o))).

Definition block_key (hash : Hash) : bytes := string_bytes ("block_" +:+ debug_bytes hash).

Section State.
  Context `{Primitives} `{StoreCodec} `{EntryCodec} {DB : Type} `{RocksDB DB}.

Abbreviation CState := (ConsensusState DB).
Abbreviation csR A := (outcome string A).

(** Reads and writes go to the default column family. *)
Definition cs_get (s : CState) (k : bytes) : csR (option bytes) := db_get (cs_db s) "default" k.

Definition cs_write (batch : WriteBatch) : stM CState string unit := fun s =>
  match db_write batch (cs_db s) with
  | Ok d => (mkConsensusState d (governance_state s) (cs_tickets s), Ok tt)
  | Err e => (s, Err e)
  | Panic => (s, Panic)
  | OutOfFuel => (s, OutOfFuel)
  end.

Definition cs_put (k v : bytes) : stM CState string unit := cs_write [BatchPut "default" k v].

Definition cs_get_block_subsidy (height halving_interval initial_block_reward : Z) : csR Z :=
  if halving_interval =? 0 then Panic else
  let halvings := height / halving_interval in
  if 64 <=? halvings then mret 0 else mret (Z.shiftr initial_block_reward halvings).

Definition cs_get_utxo (s : CState) (outpoint : OutPoint) : csR (option (TxOutput * Z * bool)) :=
  data ← cs_get s (utxo_key outpoint);
  decode_stored decode_utxo_entry32 "Failed to deserialize UTXO"%string data.

Fixpoint utxo_puts (utxos : list (OutPoint * (TxOutput * Z * bool))) : csR WriteBatch :=
  match utxos with
  | [] => mret []
  | (o, data) :: utxos =>
      encoded ← ok_or (bincode_utxo_entry32 data) "Serialization error"%string;
      batch ← utxo_puts utxos;
      mret (BatchPut "default" (utxo_key o) encoded :: batch)
  end.

Definition cs_update_utxo_set (utxos : list (OutPoint * (TxOutput * Z * bool))) :
    stM CState string unit :=
  batch ← lift (utxo_puts utxos);
  cs_write batch.

(** The loop of [apply_block] works on the ticket pool and the batch. *)
Abbreviation applyM A := (stM (TicketPool * WriteBatch) string A).

Definition apply_tickets (current_height : Z) (tx : Transaction) : applyM unit :=
  match tx with
  | TicketPurchase _ _ outputs id _ _ _ _ _ =>
      out ← lift (ok_or (head outputs) "No output in ticket purchase"%string);
      pubkey ← lift (ok_or (extract_public_key_hash out)
        "Failed to extract public key hash from ticket purchase output"%string);
      modify (fun '(p, b) =>
        (tp_add_ticket (mkTicket id pubkey current_height (value out) Pending) p, b))
  | TicketRedemption _ _ _ id _ _ _ =>
      modify (fun '(p, b) => (fst (tp_remove_ticket id p), b))
  | _ => mret tt
  end.

Definition push_op (op : batch_op) : applyM unit := modify (fun '(p, b) => (p, b ++ [op])).

Definition apply_output (block : Block) (current_height : Z) (tx : Transaction)
    (e : nat * TxOutput) : applyM unit :=
  id ← lift (tx_txid tx);
  first_id ← lift (match head (transactions block) with
                   | Some first_tx => h ← tx_txid first_tx; mret (Some h)
                   | None => mret None
                   end);
  let is_coinbase := bool_decide (first_id = Some id) in
  encoded ← lift (ok_or (bincode_utxo_entry32 (e.2, current_height, is_coinbase))
                        "Serialization error"%string);
  push_op (BatchPut "default" (utxo_key (mkOutPoint id (wrap32 (Z.of_nat e.1)))) encoded).

Definition apply_tx (block : Block) (current_height : Z) (tx : Transaction) : applyM unit :=
  apply_tickets current_height tx;;
  for_each (get_inputs tx)
    (fun input => push_op (BatchDelete "default" (spent_key (previous_output input))));;
  for_each (imap pair (get_outputs tx)) (apply_output block current_height tx).

(** Returns the state, the ticket pool of the caller and the result. *)
Definition cs_apply_block (block : Block) (current_height : Z) (s : CState) (pool : TicketPool) :
    CState * TicketPool * csR unit :=
  match for_each (transactions block) (apply_tx block current_height) (pool, []) with
  | ((pool, batch), Ok _) => let '(s, r) := cs_write batch s in (s, pool, r)
  | ((pool, _), r) => (s, pool, r)
  end.

Definition cs_put_block (block : Block) : stM CState string unit :=
  h ← lift (header_hash (header block));
  encoded ← lift (ok_or (bincode_block block) "Serialization error"%string);
  cs_put (block_key h) encoded.

Definition cs_get_block_hash (s : CState) (height : Z) : csR (option Hash) :=
  data ← cs_get s (height_key height);
  decode_stored decode_hash "Failed to deserialize block hash"%string data.

Definition cs_get_block (s : CState) (height : Z) : csR (option Block) :=
  h ← cs_get_block_hash s height;
  match h with
  | None => mret None
  | Some h =>
      data ← cs_get s (block_key h);
      decode_stored decode_block "Failed to deserialize block"%string data
  end.

Definition cs_get_current_block_height (s : CState) : csR Z :=
  data ← cs_get s (string_bytes "current_block_height");
  h ← decode_stored decode_u64 "Failed to deserialize current block height"%string data;
  mret (default 0 h).

Definition cs_set_current_block_height (height : Z) : stM CState string unit :=
  encoded ← lift (ok_or (bincode_u64 height) "Failed to serialize current block height"%string);
  cs_put (string_bytes "current_block_height") encoded.

Definition cs_get_current_block_hash (s : CState) : csR (option Hash) :=
  data ← cs_get s (string_bytes "current_block_hash");
  decode_stored decode_hash "Failed to deserialize current block hash"%string data.

Definition cs_put_block_hash (height : Z) (hash : Hash) : stM CState string unit :=
  encoded ← lift (ok_or (bincode_hash hash) "Failed to serialize block hash"%string);
  cs_put (height_key height) encoded.

Definition cs_get_ticket (s : CState) (id : TicketId) : option Ticket := cs_tickets s !! id.

Definition cs_add_ticket (t : Ticket) (s : CState) : CState :=
  mkConsensusState (cs_db s) (governance_state s) (<[ticket_id t := t]> (cs_tickets s)).

Definition cs_remove_ticket (id : TicketId) (s : CState) : CState * option Ticket :=
  (mkConsensusState (cs_db s) (governance_state s) (delete id (cs_tickets s)), cs_tickets s !! id).

Definition cs_ticket_count (s : CState) : Z := Z.of_nat (size (cs_tickets s)).

Definition cs_set_protocol_flag (key : string) (v : bytes) : stM CState string unit :=
  cs_put (string_bytes key) v.

Definition cs_get_protocol_flag (s : CState) (key : string) : csR (option bytes) :=
  cs_get s (string_bytes key).

Definition cs_set_protocol_version (version : Z) : stM CState string unit :=
  cs_put (string_bytes "protocol_version") (to_le_bytes 4 version).

(** A value that does not decode counts as absent. *)
Definition cs_get_protocol_version (s : CState) : csR (option Z) :=
  data ← cs_get s (string_bytes "protocol_version");
  mret (data ≫= decode_u32).

Definition cs_set_hard_fork_height (height : Z) : stM CState string unit :=
  cs_put (string_bytes "hard_fork_height") (to_le_bytes 8 height).

Definition cs_get_hard_fork_height (s : CState) : csR (option Z) :=
  data ← cs_get s (string_bytes "hard_fork_height");
  mret (data ≫= decode_u64).

(** Placeholders of the source. *)
Definition cs_is_output_spent (s : CState) (outpoint : OutPoint) : bool := false.
Definition cs_get_critical_utxos (s : CState) : list OutPoint := [].

End State.

(** * Applying a block to the UTXO set

    [apply_block_to_utxo_set] of src/rusty-consensus/src/validation.rs. *)

(** A loop that threads an accumulator and stops at the first error. *)
Fixpoint try_fold {E A B} (f : A -> B -> outcome E A) (a : A) (l : list B) : outcome E A :=
  match l with
  | [] => mret a
  | x :: l => a ← f a x; try_fold f a l
  end.

Section ApplyBlock.
  Context `{Primitives} `{StoreCodec} `{EntryCodec} {DB : Type} `{RocksDB DB}.

Definition batch_outputs (u : UtxoDb DB) (height : Z) (tx : Transaction) (batch : WriteBatch) :
    ccR WriteBatch :=
  try_fold (fun batch e =>
    id ← tx_txid tx;
    put_utxo_in_batch u batch (mkOutPoint id (wrap32 (Z.of_nat e.1))) e.2 height (is_coinbase tx))
    batch (imap pair (get_outputs tx)).

Definition batch_inputs (u : UtxoDb DB) (tx : Transaction) (batch : WriteBatch) : ccR WriteBatch :=
  if is_coinbase tx then mret batch else
  try_fold (fun batch input => delete_utxo_in_batch u batch (previous_output input))
    batch (get_inputs tx).

Definition batch_tx (u : UtxoDb DB) (height : Z) (batch : WriteBatch) (tx : Transaction) :
    ccR WriteBatch :=
  batch ← batch_inputs u tx batch;
  batch_outputs u height tx batch.

(** Masternode registrations are left to a comment in the source. *)
Definition apply_block_to_utxo_set (block : Block) (u : UtxoDb DB) (height coinbase_maturity : Z) :
    ccR (UtxoDb DB) :=
  batch ← try_fold (batch_tx u height) create_batch (transactions block);
  apply_batch batch u.

End ApplyBlock.

(** ** The map the store stands for, updated transaction by transaction *)

Abbreviation utxo_map := (gmap OutPoint (TxOutput * Z * bool)).

Section Contract.
  Context `{Primitives}.

Definition spend_all (tx : Transaction) (m : utxo_map) : utxo_map :=
  if is_coinbase tx then m else foldl (fun m i => delete (previous_output i) m) m (get_inputs tx).

Definition create_all (height : Z) (tx : Transaction) (m : utxo_map) : utxo_map :=
  match tx_txid (E := unit) tx with
  | Ok id =>
      foldl (fun m e => <[mkOutPoint id (wrap32 (Z.of_nat e.1)) := (e.2, height, is_coinbase tx)]> m) m
        (imap pair (get_outputs tx))
  | _ => m
  end.

Definition apply_tx_map (height : Z) (m : utxo_map) (tx : Transaction) : utxo_map :=
  create_all height tx (spend_all tx m).

(** The set of section 5.4 of docs/specs/05_utxo_model_spec.md: an output whose
    script starts with OP_RETURN does not enter it. *)
Definition unspendable (o : TxOutput) : bool :=
  match script_pubkey o with b :: _ => b =? 0x6a | [] => false end.

Definition documented_tx_map (height : Z) (m : utxo_map) (tx : Transaction) : utxo_map :=
  match tx_txid (E := unit) tx with
  | Ok id =>
      foldl (fun m e => if unspendable e.2 then m
               else <[mkOutPoint id (wrap32 (Z.of_nat e.1)) := (e.2, height, is_coinbase tx)]> m)
        (spend_all tx m) (imap pair (get_outputs tx))
  | _ => spend_all tx m
  end.

Definition creates_unspendable (tx : Transaction) : bool := existsb unspendable (get_outputs tx).

Lemma documented_tx_map_eq height m tx :
  creates_unspendable tx = false -> documented_tx_map height m tx = apply_tx_map height m tx.
Proof.
  unfold documented_tx_map, apply_tx_map, create_all, creates_unspendable. intros Hn.
  destruct (tx_txid tx) as [id|e| |]; try done.
  assert (Hl : forall l (m' : utxo_map), Forall (fun e => unspendable e.2 = false) l ->
    foldl (fun (m : utxo_map) e => if unspendable e.2 then m
       else <[mkOutPoint id (wrap32 (Z.of_nat e.1)) := (e.2, height, is_coinbase tx)]> m) m' l =
    foldl (fun (m : utxo_map) e => <[mkOutPoint id (wrap32 (Z.of_nat e.1)) := (e.2, height, is_coinbase tx)]> m) m' l).
  { induction l as [|e l IH]; intros m' Hf; [done|]. apply Forall_cons in Hf as [He Hf].
    cbn [foldl]. rewrite He. by apply IH. }
  apply Hl, Forall_forall. intros [i o] (j & o' & Hio & Ho)%elem_of_lookup_imap. injection Hio as -> ->. cbn.
  apply list_elem_of_lookup_2 in Ho. apply not_true_iff_false. intros Hu. apply not_true_iff_false in Hn. apply Hn.
  apply existsb_exists. exists o'. split; [by apply list_elem_of_In|done].
Qed.

Lemma documented_map_eq height m txs :
  forallb (fun tx => negb (creates_unspendable tx)) txs = true ->
  foldl (documented_tx_map height) m txs = foldl (apply_tx_map height) m txs.
Proof.
  revert m. induction txs as [|tx txs IH]; intros m; [done|]. cbn [forallb foldl].
  rewrite andb_true_iff, negb_true_iff. intros [Ht Hts]. rewrite documented_tx_map_eq by done. by apply IH.
Qed.

End Contract.

Section Refinement.
  Context `{Primitives} `{StoreCodec} `{EntryCodec} {DB : Type} `{RocksDB DB}.
  Context `{!EntryCodecLaws _ _} `{!RocksLaws DB}.

(** The contents of the store stand for the map [m]. *)
Definition represents (c : contents) (m : utxo_map) : Prop :=
  forall o k, bincode_outpoint o = Some k -> c !! ("utxos"%string, k) ≫= decode_utxo_entry = m !! o.

Lemma represents_put c m o k e v :
  bincode_outpoint o = Some k -> bincode_utxo_entry e = Some v -> represents c m ->
  represents (batch_apply c (BatchPut "utxos" k v)) (<[o := e]> m).
Proof.
  intros Hk Hv Hr o' k' Hk'. cbn. destruct (decide (o = o')) as [<-|Hne].
  - rewrite Hk in Hk'. injection Hk' as <-. rewrite !lookup_insert_eq. cbn.
    by apply decode_bincode_entry.
  - rewrite lookup_insert_ne; [rewrite lookup_insert_ne by done; by apply Hr|].
    intros E. apply Hne. injection E as <-. by eapply bincode_outpoint_inj.
Qed.

Lemma represents_delete c m o k :
  bincode_outpoint o = Some k -> represents c m ->
  represents (batch_apply c (BatchDelete "utxos" k)) (delete o m).
Proof.
  intros Hk Hr o' k' Hk'. cbn. destruct (decide (o = o')) as [<-|Hne].
  - rewrite Hk in Hk'. injection Hk' as <-. by rewrite !lookup_delete_eq.
  - rewrite lookup_delete_ne; [rewrite lookup_delete_ne by done; by apply Hr|].
    intros E. apply Hne. injection E as <-. by eapply bincode_outpoint_inj.
Qed.

(** A loop that extends the batch simulates a loop over the map. *)
Lemma try_fold_represents {B} (f : WriteBatch -> B -> ccR WriteBatch) (g : utxo_map -> B -> utxo_map)
    (l : list B) c0 batch batch' m :
  (forall batch batch' x m, x ∈ l -> f batch x = Ok batch' ->
     represents (foldl batch_apply c0 batch) m -> represents (foldl batch_apply c0 batch') (g m x)) ->
  try_fold f batch l = Ok batch' -> represents (foldl batch_apply c0 batch) m ->
  represents (foldl batch_apply c0 batch') (foldl g m l).
Proof.
  revert batch m. induction l as [|x l IH]; intros batch m Hf E Hr; cbn in E |- *.
  - by injection E as <-.
  - apply outcome_bind_inv in E as (b & Hb & E). eapply IH; [|exact E|].
    + intros b1 b2 y m1 Hy. apply Hf. by right.
    + eapply Hf; [left|exact Hb|exact Hr].
Qed.

Lemma batch_inputs_represents u tx c0 batch batch' m :
  batch_inputs u tx batch = Ok batch' -> represents (foldl batch_apply c0 batch) m ->
  represents (foldl batch_apply c0 batch') (spend_all tx m).
Proof.
  unfold batch_inputs, spend_all. destruct (is_coinbase tx); [by intros [= <-]|].
  apply try_fold_represents. intros b b' i m1 _ Hb Hr. unfold delete_utxo_in_batch in Hb.
  apply outcome_bind_inv in Hb as (k & Hk & Hb). apply outcome_bind_inv in Hb as (_ & _ & Hb).
  injection Hb as <-. rewrite foldl_app. cbn [foldl]. apply represents_delete; [|done].
  by destruct (bincode_outpoint _); cbn in Hk; [injection Hk as <-|].
Qed.

Lemma tx_txid_any {E F} tx id : tx_txid (E := E) tx = Ok id -> tx_txid (E := F) tx = Ok id.
Proof.
  unfold tx_txid. destruct (bincode_transaction tx); cbn; [|done]. by intros [= <-].
Qed.

Lemma batch_outputs_represents u height tx c0 batch batch' m :
  batch_outputs u height tx batch = Ok batch' -> represents (foldl batch_apply c0 batch) m ->
  represents (foldl batch_apply c0 batch') (create_all height tx m).
Proof.
  unfold batch_outputs, create_all.
  destruct (tx_txid (E := unit) tx) as [id|e| |] eqn:Eid.
  - apply try_fold_represents. intros b b' e m1 _ Hb Hr.
    rewrite (tx_txid_any _ _ Eid), outcome_bind_ok in Hb. unfold put_utxo_in_batch in Hb.
    apply outcome_bind_inv in Hb as (k & Hk & Hb). apply outcome_bind_inv in Hb as (v & Hv & Hb).
    apply outcome_bind_inv in Hb as (_ & _ & Hb). injection Hb as <-.
    rewrite foldl_app. cbn [foldl]. apply represents_put; [..|done].
    + by destruct (bincode_outpoint _); cbn in Hk; [injection Hk as <-|].
    + by destruct (bincode_utxo_entry _); cbn in Hv; [injection Hv as <-|].
  - unfold tx_txid in Eid. by destruct (bincode_transaction tx).
  - destruct (imap pair (get_outputs tx)) as [|x l]; cbn; [by intros [= <-]|].
    unfold tx_txid in Eid |- *. by destruct (bincode_transaction tx).
  - unfold tx_txid in Eid. by destruct (bincode_transaction tx).
Qed.

Lemma batch_tx_represents u height tx c0 batch batch' m :
  batch_tx u height batch tx = Ok batch' -> represents (foldl batch_apply c0 batch) m ->
  represents (foldl batch_apply c0 batch') (apply_tx_map height m tx).
Proof.
  intros E Hr. apply outcome_bind_inv in E as (b & Hi & Ho).
  eapply batch_outputs_represents; [exact Ho|]. by eapply batch_inputs_represents.
Qed.

Lemma utxo_store_represents block u u' height maturity m :
  represents (db_view (utxo_db u)) m ->
  apply_block_to_utxo_set block u height maturity = Ok u' ->
  represents (db_view (utxo_db u')) (foldl (apply_tx_map height) m (transactions block)).
Proof.
  intros Hr E. apply outcome_bind_inv in E as (batch & Hb & E). unfold apply_batch in E.
  apply outcome_bind_inv in E as (d & Hd & E). injection E as <-. cbn [utxo_db].
  destruct (db_write batch (utxo_db u)) as [d'|e| |] eqn:Ew; cbn in Hd; try done.
  injection Hd as <-. rewrite (db_write_view _ _ _ Ew).
  eapply try_fold_represents; [|exact Hb|exact Hr].
  intros b b' tx m1 _. apply batch_tx_represents.
Qed.

(** A read of the store is a lookup in the map it stands for. *)
Lemma udb_get_represents u m o r :
  represents (db_view (utxo_db u)) m -> udb_get_utxo u o = Ok r -> r = m !! o.
Proof.
  intros Hr Hget. unfold udb_get_utxo in Hget.
  apply outcome_bind_inv in Hget as (k & Hk & Hget).
  apply outcome_bind_inv in Hget as (_ & _ & Hget).
  apply outcome_bind_inv in Hget as (data & Hd & Hget).
  destruct (bincode_outpoint o) as [k'|] eqn:Ek; cbn in Hk; [injection Hk as <-|done].
  destruct (db_get (utxo_db u) "utxos" k') as [data'|e| |] eqn:Eg; cbn in Hd; try done.
  injection Hd as <-. apply db_get_view in Eg as ->. rewrite <- (Hr o k' Ek).
  destruct (db_view (utxo_db u) !! _) as [v|]; cbn in Hget |- *; [|by injection Hget as <-].
  destruct (decode_utxo_entry v); cbn in Hget; [by injection Hget as <-|done].
Qed.

(** C4. Applying a block to the stored UTXO set, when that returns no error and
    the store stood for a map before: the store stands for the map in which
    the transactions were applied one after another, each removing what it
    spends (a coinbase removes nothing) before it adds every output it creates,
    OP_RETURN outputs included; and [get_utxo], where it returns without an
    error, reads that map.  For a block that creates no OP_RETURN output that
    is the set of section 5.4 of the UTXO specification, which keeps such
    outputs out. *)
Theorem utxo_store_refines block u u' height maturity m :
  represents (db_view (utxo_db u)) m ->
  apply_block_to_utxo_set block u height maturity = Ok u' ->
  represents (db_view (utxo_db u')) (foldl (apply_tx_map height) m (transactions block)) /\
  (forall o r, udb_get_utxo u' o = Ok r -> r = foldl (apply_tx_map height) m (transactions block) !! o) /\
  (forallb (fun tx => negb (creates_unspendable tx)) (transactions block) = true ->
   represents (db_view (utxo_db u')) (foldl (documented_tx_map height) m (transactions block))).
Proof.
  intros Hr E. pose proof (utxo_store_represents _ _ _ _ _ _ Hr E) as Hr'.
  split; [exact Hr'|]. split; [intros o r; by apply udb_get_represents|].
  intros Hn. by rewrite documented_map_eq.
Qed.

End Refinement.

(** * Outputs the chain state never forgets *)

Section Forgotten.
  Context `{Primitives} `{StoreCodec} `{EntryCodec} {DB : Type} `{RocksDB DB} `{!RocksLaws DB}.

(** An operation that cannot remove an entry under a [utxo_key]. *)
Definition harmless (op : batch_op) : Prop :=
  match op with
  | BatchPut _ _ _ => True
  | BatchDelete _ k => exists o, k = spent_key o
  end.

Lemma keys_differ o o' : utxo_key o <> spent_key o'.
Proof. unfold utxo_key, spent_key. discriminate. Qed.

Lemma harmless_keeps ops c o :
  Forall harmless ops -> is_Some (c !! ("default"%string, utxo_key o)) ->
  is_Some (foldl batch_apply c ops !! ("default"%string, utxo_key o)).
Proof.
  intros Hops. revert c. induction Hops as [|op ops Hop Hops IH]; intros c Hc; [done|].
  cbn [foldl]. apply IH. destruct op as [cf k v|cf k]; cbn.
  - destruct (decide ((cf, k) = ("default"%string, utxo_key o))) as [->|Hne].
    + rewrite lookup_insert_eq. eauto.
    + by rewrite lookup_insert_ne.
  - destruct Hop as [o' ->]. rewrite lookup_delete_ne; [done|].
    intros E. apply (f_equal snd) in E. by apply (keys_differ o o').
Qed.

Abbreviation batch_harmless := (fun pb : TicketPool * WriteBatch => Forall harmless pb.2).

Lemma push_harmless op : harmless op -> preserves batch_harmless (push_op op).
Proof. intros Hop [p b] Hb. cbn in *. apply Forall_app. by split; [|constructor]. Qed.

Lemma apply_tx_harmless block h tx : preserves batch_harmless (apply_tx block h tx).
Proof.
  unfold apply_tx. apply preserves_bind; [|intros _; apply preserves_bind; [|intros _]].
  - destruct tx; cbn [apply_tickets]; try apply preserves_ret.
    + apply preserves_bind; [apply preserves_lift|intros out].
      apply preserves_bind; [apply preserves_lift|intros pk].
      apply preserves_modify. by intros [].
    + apply preserves_modify. by intros [].
  - apply preserves_for_each. intros i _. apply push_harmless. by eexists.
  - apply preserves_for_each. intros e _. unfold apply_output.
    apply preserves_bind; [apply preserves_lift|intros id].
    apply preserves_bind; [apply preserves_lift|intros fid].
    apply preserves_bind; [apply preserves_lift|intros enc]. by apply push_harmless.
Qed.

(** Applying a block to the chain state of rusty-consensus never removes an
    output: spent outputs are deleted under the key [utxo_...] while outputs
    are stored and read under [UTXO ...], so every output once recorded, spent
    by this block or not, is still recorded afterwards. *)
Theorem spent_outputs_stay block h (s s' : ConsensusState DB) pool pool' o :
  cs_apply_block block h s pool = (s', pool', Ok tt) ->
  is_Some (db_view (cs_db s) !! ("default"%string, utxo_key o)) ->
  is_Some (db_view (cs_db s') !! ("default"%string, utxo_key o)).
Proof.
  unfold cs_apply_block. intros E Ho.
  assert (Hb : batch_harmless (fst (for_each (transactions block) (apply_tx block h) (pool, [])))).
  { apply preserves_fst; [|by constructor]. apply preserves_for_each. intros tx _.
    apply apply_tx_harmless. }
  destruct (for_each (transactions block) (apply_tx block h) (pool, [])) as [[p b] [[]|e| |]];
    try discriminate.
  unfold cs_write in E. destruct (db_write b (cs_db s)) as [d|e| |] eqn:Ew; try discriminate.
  injection E as <- _. cbn [cs_db]. rewrite (db_write_view _ _ _ Ew). by apply harmless_keeps.
Qed.

End Forgotten.

(** * Witnesses *)

(** A database that never fails. *)
#[export] Instance map_rocks : RocksDB contents := {|
  cf_handle _ _ := true;
  db_get d cf k := Ok (d !! (cf, k));
  db_write ops d := Ok (foldl batch_apply d ops);
|}.

#[export] Instance map_rocks_laws : RocksLaws contents.
Proof.
  refine {| db_view := fun d => d |}; cbn; intros; congruence.
Defined.

(** A codec for outputs without a memo, of small values and scripts. *)
Definition entry_bytes (e : TxOutput * Z * bool) : option bytes :=
  match e with
  | (mkTxOutput v spk None, h, cb) => Some ([v; h; if cb : bool then 1 else 0] ++ spk)
  | _ => None
  end.

Definition entry_of_bytes (b : bytes) : option (TxOutput * Z * bool) :=
  match b with
  | v :: h :: cb :: spk => Some (mkTxOutput v spk None, h, cb =? 1)
  | _ => None
  end.

Lemma entry_of_entry_bytes e b : entry_bytes e = Some b -> entry_of_bytes b = Some e.
Proof. destruct e as [[[v spk [m|]] h] []]; intros [= <-]; done. Qed.

#[export] Instance sample_entry_codec : EntryCodec := {|
  decode_utxo_entry := entry_of_bytes;
  bincode_utxo_entry32 := entry_bytes;
  decode_utxo_entry32 := entry_of_bytes;
  bincode_ticket _ := Some [];
  decode_ticket _ := None;
|}.

Definition entry_store_codec : StoreCodec := {|
  bincode_hash := Some;
  decode_hash := Some;
  decode_block _ := None;
  bincode_u64 v := Some (to_le_bytes 8 v);
  decode_u64 b := Some (from_le_bytes b);
  decode_u32 b := Some (from_le_bytes b);
  bincode_outpoint o := Some (vout o :: txid o);
  decode_utxo _ := None;
  bincode_utxo_entry := entry_bytes;
  bincode_pool _ := Some [];
  bincode_utxo_set _ := Some [];
  bincode_proposals _ := Some [];
|}.

Lemma entry_codec_laws : EntryCodecLaws entry_store_codec sample_entry_codec.
Proof.
  split; [exact entry_of_entry_bytes|].
  intros [t1 v1] [t2 v2] b. cbn. intros [= <-] [= -> ->]. done.
Qed.

(** A block whose second transaction spends an output of its first. *)
Definition first_tx : Transaction := Standard 1 [sample_input] [TxOutput_new 900 [0x51]] 0 100 [].
Definition second_tx : Transaction :=
  Standard 1 [TxInput_from_outpoint (mkOutPoint (tx_hash first_tx) 0) [] 0 []]
    [TxOutput_new 800 [0x51]] 0 100 [].
Definition chained_block : Block :=
  mkBlock (mkBlockHeader 1 5 [] [] [] 0 0 0) [] [first_tx; second_tx].

Definition one_output : utxo_map := {[ mkOutPoint (replicate 32 7) 0 := (TxOutput_new 1000 [0x51], 1, false) ]}.

Definition one_output_db : UtxoDb contents :=
  mkUtxoDb {[ ("utxos"%string, 0 :: replicate 32 7) := [1000; 1; 0; 0x51] ]} ∅.

Lemma one_output_represents :
  represents (H0 := entry_store_codec) (db_view (utxo_db one_output_db)) one_output.
Proof.
  intros [t v] k. cbn [bincode_outpoint entry_store_codec txid vout]. intros [= <-].
  cbn [db_view map_rocks_laws utxo_db one_output_db]. unfold one_output.
  destruct (decide (t = replicate 32 7 /\ v = 0)) as [[-> ->]|Hne].
  - rewrite !lookup_singleton_eq. reflexivity.
  - rewrite !lookup_singleton_ne; [done|..]; intros E; apply Hne; injection E; intros; subst; split; done.
Qed.

Definition applied_db : UtxoDb contents :=
  match apply_block_to_utxo_set (H0 := entry_store_codec) chained_block one_output_db 5 100 with
  | Ok u => u
  | _ => one_output_db
  end.

Lemma chained_applies :
  apply_block_to_utxo_set (H0 := entry_store_codec) chained_block one_output_db 5 100 = Ok applied_db.
Proof. reflexivity. Qed.

Lemma utxo_store_refines_witness :
  represents (H0 := entry_store_codec) (db_view (utxo_db applied_db))
    (foldl (documented_tx_map 5) one_output (transactions chained_block)).
Proof.
  apply (utxo_store_refines (H0 := entry_store_codec) (EntryCodecLaws0 := entry_codec_laws)
    chained_block one_output_db applied_db 5 100 one_output one_output_represents chained_applies).
  reflexivity.
Defined.

(** A block with an OP_RETURN output leaves it in the set. *)
Definition data_tx : Transaction :=
  Standard 1 [TxInput_from_outpoint (mkOutPoint (replicate 32 7) 0) [] 0 []] [TxOutput_new 0 [0x6a; 1; 7]] 0 0 [].

Example op_return_output_stored :
  match apply_block_to_utxo_set (H0 := entry_store_codec) (mkBlock (mkBlockHeader 1 5 [] [] [] 0 0 0) [] [data_tx])
    one_output_db 5 100 with
  | Ok u => udb_get_utxo (H0 := entry_store_codec) u (mkOutPoint (tx_hash data_tx) 0) =
      Ok (Some (TxOutput_new 0 [0x6a; 1; 7], 5, false))
  | _ => False
  end.
Proof. vm_compute. reflexivity. Qed.

Definition spent_outpoint : OutPoint := mkOutPoint (replicate 32 7) 0.

Definition recorded : ConsensusState contents :=
  mkConsensusState {[ ("default"%string, utxo_key spent_outpoint) := [1000; 1; 0; 0x51] ]}
    (mkGovernanceStore ∅ ∅ None) ∅.

Definition after_spend : ConsensusState contents * TicketPool * outcome string unit :=
  cs_apply_block chained_block 5 recorded TicketPool_new.

Lemma triple_eta {A B C} (x : A * B * C) c : snd x = c -> x = (fst (fst x), snd (fst x), c).
Proof. by destruct x as [[a b] c']; intros <-. Qed.

Lemma after_spend_ok : snd after_spend = Ok tt.
Proof. vm_compute. reflexivity. Qed.

Lemma spent_outputs_stay_witness :
  spent_outpoint ∈ previous_output <$> get_inputs first_tx /\
  is_Some (db_view (cs_db (fst (fst after_spend))) !! ("default"%string, utxo_key spent_outpoint)).
Proof.
  split; [left|].
  refine (spent_outputs_stay chained_block 5 recorded
    (fst (fst after_spend)) TicketPool_new (snd (fst after_spend)) spent_outpoint
    (triple_eta after_spend (Ok tt) after_spend_ok) _).
  eexists. exact (lookup_singleton_eq _ _).
Defined.
