(* ===== verification/ConsensusValidation.v ===== *)
(** Block and transaction validation of rusty-consensus
    (src/rusty-consensus/src/validation.rs).

    The context the source borrows is the record [ValidationContext]; only the
    heartbeat check changes a part of it, the masternode list, and is written as
    a state computation.  The masternode list of this crate is the one of
    lib.rs, which has the fields of [MasternodeEntry].  Formatted error texts
    and log calls are not modelled. *)

From Stdlib Require Import ZArith Lia List SpecFloat Ascii String.
From stdpp Require Import base option list numbers strings pretty gmap.
From coqutil Require Import Datatypes.RecordSetters.
From S2P Require Import Prelude Types Errors Transaction ScriptEngine SamplePrimitives Merkle.
From S2P Require Import F64 Params U256 Pow Masternodes LiveTickets ChainState TicketPool.
From S2P Require Import ConsensusStore.

Import TriangleBracketNotations.
#[local] Open Scope Z_scope.

(** * Constants of rusty-core *)

Definition MIN_RELAY_FEE_PER_BYTE : Z := 1.
Definition MASTERNODE_COLLATERAL_AMOUNT : Z := 10000.
Definition PROTOCOL_COLLATERAL_AMOUNT : Z := 2600000000000.
Definition MAX_POSE_FAILURES : Z := 3.
Definition NON_PARTICIPATION_SLASH_PERCENTAGE : f64 := f64_lit 5 100.
Definition MALICIOUS_BEHAVIOR_SLASH_PERCENTAGE : f64 := f64_of_Z 1.
Definition MAX_SLASHING_PROOF_SIZE : Z := 4096.

(** * Scripts, lock times, amounts *)

(** [u64::checked_add] with the error of the caller. *)
Definition checked_add (msg : string) (a b : Z) : ccR Z :=
  if a + b <=? u64_max then mret (a + b) else Err (CCE.InvalidProof msg).

Definition is_op_return_output (script_pubkey : bytes) : bool :=
  bool_decide (head script_pubkey = Some 0x6a).

(** [script[i] == b]; the guards that use it fix the length of the script. *)
Definition byte_at (s : bytes) (i b : Z) : bool := bool_decide (index s i = Some b).

Definition p2pkh_pattern (s : bytes) : bool :=
  (len s =? 25) && byte_at s 0 0x76 && byte_at s 1 0xa9 && byte_at s 2 0x14 &&
  byte_at s 23 0x88 && byte_at s 24 0xac.

Definition p2sh_pattern (s : bytes) : bool :=
  (len s =? 23) && byte_at s 0 0xa9 && byte_at s 1 0x14 && byte_at s 22 0x87.

Definition p2pk_pattern (s : bytes) : bool :=
  ((len s =? 35) && byte_at s 0 0x21 && byte_at s 34 0xac) ||
  ((len s =? 67) && byte_at s 0 0x41 && byte_at s 66 0xac).

Definition has_invalid_opcode (s : bytes) : bool := existsb (Z.eqb 0xff) s.

Definition validate_script_pubkey (s : bytes) : ccR unit :=
  if 520 <? len s then Err (CCE.InvalidScript "Script too large") else
  if len s =? 0 then Err (CCE.InvalidScript "Empty script") else
  if p2pkh_pattern s || p2sh_pattern s || p2pk_pattern s then mret tt else
  if byte_at s 0 0x6a then
    (if len s <=? 82 then mret tt else Err (CCE.InvalidScript "OP_RETURN script too large"))
  else
    (if has_invalid_opcode s then Err (CCE.InvalidScript "Invalid opcode") else mret tt).

Definition validate_masternode_collateral_script (s : bytes) : ccR unit :=
  if len s =? 0 then Err (CCE.InvalidScript "Empty masternode collateral script") else
  if 1000 <? len s then Err (CCE.InvalidScript "Masternode collateral script too large") else
  if has_invalid_opcode s
  then Err (CCE.InvalidScript "Invalid opcode in masternode collateral script") else
  if p2pkh_pattern s || p2sh_pattern s then mret tt else
  if len s <? 1000 then mret tt
  else Err (CCE.InvalidScript "Unrecognized masternode collateral script pattern").

(** The lock time of a transaction against a height and a time. *)
Definition lock_time_met (lock_time height time : Z) : bool :=
  if lock_time <? LOCKTIME_THRESHOLD then lock_time <=? height else lock_time <=? time.

(** The relative lock times of the inputs are decoded and not checked. *)
Definition validate_locktime_and_sequence (tx : Transaction) (current_height median_time_past : Z) :
    ccR unit :=
  if is_coinbase tx then mret tt else
  if negb (existsb (fun i => sequence i <? 0xfffffffe) (get_inputs tx)) then mret tt else
  if (0 <? get_lock_time tx) && negb (lock_time_met (get_lock_time tx) current_height median_time_past)
  then Err CCE.TransactionLocktimeNotMet else mret tt.

(** [title.trim().is_empty()]: only characters with the Unicode property
    White_Space, read off the UTF-8 bytes. *)
Fixpoint blank (s : list Z) : bool :=
  match s with
  | [] => true
  | 0xC2 :: b :: s => ((b =? 0x85) || (b =? 0xA0)) && blank s
  | 0xE1 :: 0x9A :: 0x80 :: s => blank s
  | 0xE2 :: 0x80 :: b :: s =>
      ((b <=? 0x8A) || (b =? 0xA8) || (b =? 0xA9) || (b =? 0xAF)) && blank s
  | 0xE2 :: 0x81 :: 0x9F :: s => blank s
  | 0xE3 :: 0x80 :: 0x80 :: s => blank s
  | b :: s => (((9 <=? b) && (b <=? 13)) || (b =? 32)) && blank s
  end.

Definition trim_is_empty (s : string) : bool := blank (string_bytes s).

(** * The context *)

Record ValidationContext (DB : Type) : Type := mkValidationContext {
  ctx_utxo_set : UtxoDb DB;
  ctx_params : ConsensusParams;
  ctx_ticket_voting : TicketPool;
  ctx_masternode_list : MasternodeList;
  ctx_blockchain_state : ConsensusState DB;
}.
Arguments mkValidationContext {DB}.
Arguments ctx_utxo_set {DB}.
Arguments ctx_params {DB}.
Arguments ctx_ticket_voting {DB}.
Arguments ctx_masternode_list {DB}.
Arguments ctx_blockchain_state {DB}.

Section Validation.
  Context `{Primitives} `{StoreCodec} `{EntryCodec} {DB : Type} `{RocksDB DB} `{U256}.

Abbreviation Ctx := (ValidationContext DB).

Definition serialized_size (tx : Transaction) : ccR Z :=
  b ← ok_or (bincode_transaction tx) serialization;
  mret (len b).

(** [get_utxo(..)?.ok_or(MissingTxInput)?] *)
Definition spendable (ctx : Ctx) (outpoint : OutPoint) : ccR (TxOutput * Z * bool) :=
  utxo ← udb_get_utxo (ctx_utxo_set ctx) outpoint;
  ok_or utxo CCE.MissingTxInput.

(** One call of [verify_script_with_sig_op_count] on a new engine: the counter
    after the call, or the script error turned into [e]. *)
Definition run_scripts (e : CCE.ConsensusCrateError) (tx : Transaction) (i : nat) (input : TxInput)
    (prev : TxOutput) (count : Z) : ccR Z :=
  match verify_script_with_sig_op_count (script_sig input) (script_pubkey prev) tx (Z.of_nat i)
          ScriptEngine_new count with
  | (_, count, Ok _) => Ok count
  | (_, _, Err _) => Err e
  | (_, _, Panic) => Panic
  | (_, _, OutOfFuel) => OutOfFuel
  end.

Definition sum_outputs (outputs : list TxOutput) : ccR Z :=
  try_fold (fun acc o => checked_add "Output value too large" acc (value o)) 0 outputs.

(** ** [validate_transaction] *)

Fixpoint vt_inputs (ctx : Ctx) (tx : Transaction) (current_height : Z) (i : nat)
    (seen : list OutPoint) (count total : Z) (inputs : list TxInput) : ccR Z :=
  match inputs with
  | [] => mret total
  | input :: inputs =>
      let o := previous_output input in
      if bool_decide (o ∈ seen) then Err CCE.DuplicateInput else
      '(prev_output, height, cb) ← spendable ctx o;
      if (cb : bool) && (current_height <? wrap32 (wrap32 height + coinbase_maturity (ctx_params ctx)))
      then Err CCE.CoinbaseNotMature else
      count ← run_scripts CCE.InvalidScriptSig tx i input prev_output count;
      total ← checked_add "Input value too large" total (value prev_output);
      vt_inputs ctx tx current_height (S i) (o :: seen) count total inputs
  end.

Definition vt_check_output (ctx : Ctx) (o : TxOutput) : ccR unit :=
  if negb (is_op_return_output (script_pubkey o)) && (value o <? dust_limit (ctx_params ctx))
  then Err (CCE.DustOutput (value o)) else
  validate_script_pubkey (script_pubkey o).

Definition check_all {A} (f : A -> ccR unit) (l : list A) : ccR unit := try_fold (fun _ => f) tt l.

Definition cv_validate_transaction (ctx : Ctx) (tx : Transaction) (current_height median_time_past : Z) :
    ccR unit :=
  if (len (get_inputs tx) =? 0) && (len (get_outputs tx) =? 0) then Err CCE.EmptyTransaction else
  tx_size ← serialized_size tx;
  if max_tx_size (ctx_params ctx) <? tx_size
  then Err (CCE.TransactionTooLarge tx_size (max_tx_size (ctx_params ctx))) else
  (if is_coinbase tx then
     if negb (len (get_inputs tx) =? 0) then Err CCE.CoinbaseHasInputs else mret tt
   else
     if len (get_inputs tx) =? 0 then Err CCE.NonCoinbaseHasNoInputs else
     total_input_value ← vt_inputs ctx tx current_height 0 [] 0 0 (get_inputs tx);
     total_output_value ← sum_outputs (get_outputs tx);
     if total_input_value <? total_output_value then Err CCE.NegativeFee else
     let calculated_fee := total_input_value - total_output_value in
     let min_fee := u64_mul MIN_RELAY_FEE_PER_BYTE tx_size in
     if calculated_fee <? min_fee then Err (CCE.InsufficientFee calculated_fee min_fee) else
     validate_locktime_and_sequence tx current_height median_time_past);;
  check_all (vt_check_output ctx) (get_outputs tx).

(** ** Masternodes *)

Definition with_signature (tx : Transaction) (sig : bytes) : Transaction :=
  match tx with
  | MasternodeRegister m _ l i o w => MasternodeRegister m sig l i o w
  | _ => tx
  end.

Definition validate_masternode_deregistration (ctx : Ctx) (tx : Transaction) : ccR unit :=
  match tx with
  | MasternodeRegister masternode_identity signature _ _ _ _ =>
      let id := mkMasternodeID (collateral_outpoint masternode_identity) in
      masternode ← ok_or (get_masternode (ctx_masternode_list ctx) id) CCE.MasternodeNotFound;
      message ← ok_or (bincode_transaction (with_signature tx (replicate 64 0))) serialization;
      public_key ← ok_or (public_key_from_bytes (operator_public_key (identity masternode)))
        (CCE.InvalidMasternodeDeregistration "Invalid public key bytes");
      signature ← ok_or (signature_from_bytes signature)
        (CCE.InvalidMasternodeDeregistration "Invalid signature bytes");
      if ed25519_verify public_key message signature then mret tt
      else Err (CCE.InvalidMasternodeDeregistration "Invalid signature")
  | _ => Err (CCE.InvalidTransactionType "Expected MasternodeRegister transaction for deregistration")
  end.

(** [format!("{}{:?}", block_height, masternode_id)] *)
Definition heartbeat_message (block_height : Z) (id : MasternodeID) : bytes :=
  string_bytes (pretty (Z.to_N block_height) +:+ "MasternodeID(OutPoint { txid: " +:+
    debug_bytes (txid (mn_outpoint id)) +:+ ", vout: " +:+
    pretty (Z.to_N (vout (mn_outpoint id))) +:+ " })").

Definition verify_masternode_signature (id : MasternodeID) (block_height : Z) (signature : bytes)
    (l : MasternodeList) : bool :=
  match get_masternode l id with
  | None => false
  | Some masternode =>
      match public_key_from_bytes (operator_public_key (identity masternode)),
            signature_from_bytes signature with
      | Some public_key, Some signature =>
          ed25519_verify public_key (heartbeat_message block_height id) signature
      | _, _ => false
      end
  end.

Definition validate_masternode_heartbeat (p : ConsensusParams) (id : MasternodeID)
    (block_height : Z) (signature : bytes) : stM MasternodeList CCE.ConsensusCrateError unit :=
  fun l =>
  match get_masternode l id with
  | None => (l, Err CCE.MasternodeNotFound)
  | Some masternode =>
      if last_successful_pose_height masternode + max_inactivity_blocks p <? block_height
      then (l, Err CCE.MasternodeInactive) else
      if negb (verify_masternode_signature id block_height signature l)
      then (l, Err CCE.InvalidProofOfService) else
      (<[id := masternode <| last_successful_pose_height := wrap32 block_height |>]> l, Ok tt)
  end.

Definition registration_outputs (p : ConsensusParams) (acc : bool * Z) (o : TxOutput) : ccR (bool * Z) :=
  let '(found, total) := acc in
  found ← (if value o =? masternode_collateral_amount p
           then validate_masternode_collateral_script (script_pubkey o);; mret true
           else mret found);
  total ← checked_add "Output value too large" total (value o);
  mret (found, total).

(** The signature of the owner of the collateral is not checked. *)
Definition validate_masternode_registration (ctx : Ctx) (tx : Transaction) : ccR unit :=
  match tx with
  | MasternodeRegister _ _ _ _ _ _ =>
      if len (get_inputs tx) =? 0
      then Err (CCE.MasternodeError "Masternode registration transaction must have inputs") else
      '(found, _) ← try_fold (registration_outputs (ctx_params ctx)) (false, 0) (get_outputs tx);
      if found : bool then mret tt
      else Err (CCE.MasternodeError
                  "Masternode registration transaction must have a collateral output")
  | _ => Err (CCE.InvalidTransactionType "Expected MasternodeRegister transaction")
  end.

(** ** [validate_transaction_structure] *)

Fixpoint vts_scripts (ctx : Ctx) (tx : Transaction) (i : nat) (count : Z) (inputs : list TxInput) :
    ccR unit :=
  match inputs with
  | [] => mret tt
  | input :: inputs =>
      '(prev_output, _, _) ← spendable ctx (previous_output input);
      count ← run_scripts (CCE.InvalidScript "script validation failed") tx i input prev_output count;
      vts_scripts ctx tx (S i) count inputs
  end.

Definition vts_output (ctx : Ctx) (total : Z) (e : nat * TxOutput) : ccR Z :=
  let o := e.2 in
  if value o =? 0 then Err (CCE.OutputValueZero (Z.of_nat e.1)) else
  total ← checked_add "Output value too large" total (value o);
  if negb (is_op_return_output (script_pubkey o)) && (value o <? dust_limit (ctx_params ctx))
  then Err (CCE.DustOutput (value o)) else mret total.

Definition null_outpoint : OutPoint := mkOutPoint (replicate 32 0) u32_max.

Definition vts_coinbase (tx : Transaction) : ccR unit :=
  match get_inputs tx with
  | [input] =>
      if bool_decide (previous_output input = null_outpoint) then mret tt
      else Err (CCE.InvalidCoinbase "coinbase input must be null")
  | _ => Err (CCE.InvalidCoinbase "coinbase transaction must have exactly one input")
  end.

Definition vts_input (ctx : Ctx) (tx : Transaction) (total : Z) (input : TxInput) : ccR Z :=
  '(prev_output, _, _) ← spendable ctx (previous_output input);
  total ← checked_add "Input value too large" total (value prev_output);
  if negb (get_lock_time tx =? 0) && (sequence input =? u32_max) then Err CCE.InvalidSequence
  else mret total.

Definition cv_validate_transaction_structure (ctx : Ctx) (tx : Transaction) (height : Z) : ccR unit :=
  tx_size ← serialized_size tx;
  if max_tx_size (ctx_params ctx) <? tx_size
  then Err (CCE.TransactionTooLarge tx_size (max_tx_size (ctx_params ctx))) else
  if negb (is_coinbase tx) && (len (get_inputs tx) =? 0) then Err CCE.EmptyTransaction else
  (if is_coinbase tx then mret tt else vts_scripts ctx tx 0 0 (get_inputs tx));;
  if len (get_outputs tx) =? 0 then Err CCE.NoOutputs else
  total_output_value ← try_fold (vts_output ctx) 0 (imap pair (get_outputs tx));
  if is_coinbase tx then vts_coinbase tx else
  total_input_value ← try_fold (vts_input ctx tx) 0 (get_inputs tx);
  if total_input_value <? total_output_value then Err CCE.SpendingMoreThanInputs else
  let fee := total_input_value - total_output_value in
  let min_fee := u64_mul MIN_RELAY_FEE_PER_BYTE tx_size in
  if fee <? min_fee then Err (CCE.InsufficientFee fee min_fee) else
  if negb (get_lock_time tx =? 0) && existsb (fun i => sequence i =? u32_max) (get_inputs tx)
  then Err (CCE.InvalidLockTime "all inputs must have sequence < MAX_UINT if lock_time is set")
  else mret tt.

(** ** [validate_transactions]: the rules of each transaction type *)

Definition check_collateral (tx : Transaction) (collateral_amount : Z) : ccR unit :=
  if negb (collateral_amount =? MASTERNODE_COLLATERAL_AMOUNT)
  then Err (CCE.InvalidTransactionType "Masternode collateral amount") else
  match get_outputs tx with
  | [o] =>
      if value o =? collateral_amount then mret tt
      else Err (CCE.InvalidTransactionType
                  "Masternode collateral output value does not match collateral amount")
  | _ => Err (CCE.InvalidTransactionType
                "Masternode collateral transaction must have exactly one output")
  end.

Definition check_purchase (ctx : Ctx) (outputs : list TxOutput) (id : TicketId) (locked_amount : Z)
    (ticket_address : bytes) : ccR unit :=
  o ← ok_or (head outputs) CCE.InvalidTicketID;
  if negb (value o =? locked_amount)
  then Err (CCE.InvalidTransactionType "Ticket purchase output value does not match locked amount") else
  if bool_decide (script_pubkey o ≠ ticket_address)
  then Err (CCE.InvalidTransactionType
              "Ticket purchase output script_pubkey does not match ticket address") else
  match tp_get_ticket (ctx_ticket_voting ctx) id with
  | Some _ => Err CCE.DuplicateTicketVote
  | None => mret tt
  end.

Definition check_redemption (ctx : Ctx) (id : TicketId) : ccR unit :=
  ticket ← ok_or (tp_get_ticket (ctx_ticket_voting ctx) id) CCE.InvalidTicketID;
  match ticket_status ticket with
  | Expired | Revoked => mret tt
  | Live | Voted | Pending => Err CCE.InvalidTicketStatus
  end.

Definition gov_rule (holds : bool) (msg : string) : ccR unit :=
  if holds then mret tt else Err (CCE.GovernanceError msg).

Definition check_proposal_tx (proposal : Proposal) (height : Z) : ccR unit :=
  gov_rule (negb (trim_is_empty (title proposal)))
    "Governance proposal must have a non-empty title";;
  gov_rule (bool_decide (description_hash proposal ≠ replicate 32 0))
    "Governance proposal must have a valid description hash";;
  gov_rule (start_block_height proposal <=? end_block_height proposal)
    "Governance proposal end_block_height must be >= start_block_height";;
  gov_rule (height <=? start_block_height proposal)
    "Governance proposal start_block_height must be >= current block height".

Definition slash_rule (holds : bool) (msg : string) : ccR unit :=
  if holds then mret tt else Err (CCE.InvalidSlashingTransaction msg).

Definition slash_percentage (r : SlashingReason) : f64 :=
  match r with
  | MasternodeNonResponse => NON_PARTICIPATION_SLASH_PERCENTAGE
  | _ => MALICIOUS_BEHAVIOR_SLASH_PERCENTAGE
  end.

Definition expected_slash (masternode : MasternodeEntry) (r : SlashingReason) : Z :=
  let collateral_value :=
    if 0 <? collateral_amount masternode then collateral_amount masternode
    else PROTOCOL_COLLATERAL_AMOUNT in
  f64_to_u64 (f64_mul (f64_of_Z collateral_value) (slash_percentage r)).

Definition check_slash (ctx : Ctx) (s : MasternodeSlash) : ccR unit :=
  slash_rule (len (slash_proof s) <=? MAX_SLASHING_PROOF_SIZE) "Proof data too large";;
  slash_rule (len (slash_inputs s) =? 1) "Slashing transaction must have exactly one input";;
  slash_rule (negb (len (slash_outputs s) =? 0))
    "Slashing transaction must have at least one output";;
  match slash_outputs s, slash_inputs s with
  | burn :: _, input :: _ =>
      slash_rule (bool_decide (script_pubkey burn = burn_script)) "First output must be a burn output";;
      masternode ← ok_or (get_masternode (ctx_masternode_list ctx) (slash_masternode_id s))
        CCE.MasternodeNotFound;
      slash_rule (bool_decide (previous_output input = collateral_outpoint (identity masternode)))
        "Slashing transaction input does not match masternode collateral";;
      (match slash_reason s with
       | MasternodeNonResponse =>
           slash_rule (MAX_POSE_FAILURES <=? pose_failure_count masternode)
             "Masternode failure count is below threshold"
       | _ =>
           slash_rule (negb (len (slash_proof s) =? 0))
             "Malicious behavior slashing requires proof data"
       end);;
      slash_rule (Z.abs (value burn - expected_slash masternode (slash_reason s)) <=? 1)
        "Slashing amount mismatch"
  | _, _ => Panic
  end.

(** Errors of the slashing module are wrapped with their text. *)
Definition slashing_result (r : slashR unit) : ccR unit :=
  map_err (fun e => CCE.InvalidSlashingTransaction
    match e with
    | InvalidProof m => "Invalid proof data: " +:+ m
    | InsufficientTicketValue m => "Insufficient ticket value: " +:+ m
    | TicketNotFound m => "Ticket not found: " +:+ m
    end%string) r.

Definition check_type (ctx : Ctx) (height : Z) (tx : Transaction) : ccR unit :=
  match tx with
  | MasternodeRegister _ _ _ _ _ _ => validate_masternode_registration ctx tx
  | MasternodeCollateral _ _ _ _ collateral_amount _ _ => check_collateral tx collateral_amount
  | TicketPurchase _ _ outputs id locked_amount _ _ ticket_address _ =>
      check_purchase ctx outputs id locked_amount ticket_address
  | TicketRedemption _ _ _ id _ _ _ => check_redemption ctx id
  | GovernanceProposal proposal => check_proposal_tx proposal height
  | GovernanceVote _ => mret tt
  | ActivateProposal _ _ activation_block_height _ _ _ _ _ _ =>
      gov_rule (height <? activation_block_height)
        "Proposal activation block height must be > current block height"
  | TicketSlashNonParticipation _ _ _ id proof _ _ _ =>
      slashing_result (validate_ticket_non_participation_slashing id proof height)
  | TicketSlashMalicious _ _ _ id proof _ _ _ =>
      slashing_result (validate_ticket_malicious_behavior_slashing id proof height)
  | MasternodeSlashTx slash => check_slash ctx slash
  | Standard _ _ _ _ _ _ | Coinbase _ _ _ _ _ => mret tt
  end.

(** The inputs of one transaction: the outpoints spent so far in the block and
    the sum. *)
Definition block_input (ctx : Ctx) (height : Z) (acc : list OutPoint * Z) (input : TxInput) :
    ccR (list OutPoint * Z) :=
  let '(spent, total) := acc in
  '(prev_output, prev_height, cb) ← spendable ctx (previous_output input);
  if (cb : bool) && (height <? u64_add prev_height (coinbase_maturity (ctx_params ctx)))
  then Err CCE.CoinbaseNotMature else
  if bool_decide (previous_output input ∈ spent)
  then Err (CCE.InvalidProof "Duplicate transaction detected") else
  total ← checked_add "Input value too large" total (value prev_output);
  mret (previous_output input :: spent, total).

Definition block_fee (tx : Transaction) (inputs outputs total_fees : Z) : ccR Z :=
  if is_coinbase tx then mret total_fees else
  if inputs <? outputs then Err (CCE.InvalidProof "Spending more than inputs") else
  let fee := inputs - outputs in
  tx_size ← serialized_size tx;
  let min_fee := u64_mul MIN_RELAY_FEE_PER_BYTE tx_size in
  if fee <? min_fee then Err (CCE.InsufficientFee fee min_fee) else
  checked_add "Fee overflow" total_fees fee.

Definition block_tx (ctx : Ctx) (height current_time : Z) (acc : list OutPoint * Z)
    (e : nat * Transaction) : ccR (list OutPoint * Z) :=
  let '(spent, total_fees) := acc in
  let tx := e.2 in
  if (0 <? Z.of_nat e.1) && is_coinbase tx then Err CCE.InvalidCoinbaseInput else
  cv_validate_transaction_structure ctx tx height;;
  check_type ctx height tx;;
  '(spent, inputs) ← try_fold (block_input ctx height) (spent, 0) (get_inputs tx);
  outputs ← sum_outputs (get_outputs tx);
  total_fees ← block_fee tx inputs outputs total_fees;
  if negb (get_lock_time tx =? 0) && negb (lock_time_met (get_lock_time tx) height current_time)
  then Err (CCE.InvalidProof "Invalid lock time") else
  mret (spent, total_fees).

Definition validate_transactions (ctx : Ctx) (transactions : list Transaction)
    (height current_time : Z) : ccR unit :=
  match transactions with
  | [] => Err CCE.EmptyTransaction
  | coinbase :: _ =>
      if negb (is_coinbase coinbase) then Err CCE.NoCoinbaseTransaction else
      _ ← try_fold (block_tx ctx height current_time) ([], 0) (imap pair transactions);
      mret tt
  end.

(** ** Blocks *)

Definition DIFFICULTY_INTERVAL : Z := 2016.

Definition is_adjustment_block (height : Z) : bool := wrap64 (height - 1) mod DIFFICULTY_INTERVAL =? 0.

Definition validate_block_header (h : BlockHeader) (previous_block : Block) (current_time : Z) :
    ccR unit :=
  if negb (header_version h =? 1) then Err (CCE.UnsupportedVersion (wrap32 (header_version h))) else
  prev_hash ← block_hash previous_block;
  if bool_decide (previous_block_hash h ≠ prev_hash) then Err CCE.InvalidPreviousBlockHash else
  prev_root ← Block_calculate_merkle_root previous_block;
  if bool_decide (merkle_root h ≠ prev_root) then Err CCE.InvalidMerkleRoot else
  let current_height := u64_add (block_height previous_block) 1 in
  if negb (is_adjustment_block current_height) &&
     negb (difficulty_target h =? difficulty_target (header previous_block))
  then Err (CCE.InvalidProof "Difficulty target mismatch") else
  if u64_add current_time 7200 <? timestamp h then Err CCE.TimestampTooFarInFuture else
  if timestamp h <=? timestamp (header previous_block) then Err CCE.TimestampTooOld else
  verify_pow h (difficulty_target h).

Definition validate_block (block : Block) (previous_blocks : list Block) (current_time : Z) : ccR unit :=
  match previous_blocks with
  | [] => Err CCE.MissingPreviousBlock
  | prev_block :: _ =>
      prev_hash ← header_hash (header prev_block);
      if bool_decide (previous_block_hash (header block) ≠ prev_hash)
      then Err CCE.InvalidPreviousBlockHash else
      if negb (block_height block =? u64_add (block_height prev_block) 1)
      then Err (CCE.InvalidProof "Block height mismatch") else
      root ← Block_calculate_merkle_root block;
      if bool_decide (merkle_root (header block) ≠ root) then Err CCE.InvalidMerkleRoot else
      validate_block_header (header block) prev_block current_time
  end.

(** The second pass over the transactions: no id twice, each transaction but
    the coinbase validated again, fees summed. *)
Definition fee_input (ctx : Ctx) (height total : Z) (input : TxInput) : ccR Z :=
  '(prev_output, prev_height, cb) ← spendable ctx (previous_output input);
  if (cb : bool) && (height <? u64_add prev_height (coinbase_maturity (ctx_params ctx)))
  then Err CCE.CoinbaseNotMature else
  checked_add "Input value too large" total (value prev_output).

Definition fee_tx (ctx : Ctx) (height current_time : Z) (acc : list Hash * Z)
    (e : nat * Transaction) : ccR (list Hash * Z) :=
  let '(txids, total_tx_fees) := acc in
  let tx := e.2 in
  let id := tx_hash tx in
  if bool_decide (id ∈ txids) then Err CCE.DuplicateTransaction else
  if (0 <? e.1)%nat then
    cv_validate_transaction ctx tx (wrap32 height) current_time;;
    inputs ← try_fold (fee_input ctx height) 0 (get_inputs tx);
    outputs ← sum_outputs (get_outputs tx);
    total_tx_fees ← checked_add "Fee overflow" total_tx_fees (wrap64 (inputs - outputs));
    mret (id :: txids, total_tx_fees)
  else mret (id :: txids, total_tx_fees).

Definition check_difficulty (block : Block) (previous_blocks : list Block) : ccR unit :=
  let current_height := block_height block in
  let bits := difficulty_target (header block) in
  if is_adjustment_block current_height && (1 <? current_height) then
    match previous_blocks !! 2015%nat, head previous_blocks with
    | Some first_block, Some last_block =>
        let actual_timespan :=
          u64_saturating_sub (timestamp (header last_block)) (timestamp (header first_block)) in
        let previous_target := compact_to_target (difficulty_target (header last_block)) in
        new_target ← calculate_new_target previous_target actual_timespan
          (DIFFICULTY_INTERVAL * 150) 4 (u256_from 0) (u256_from_big_endian (replicate 32 255));
        if bits =? target_to_compact new_target then mret tt
        else Err (CCE.InvalidProof "Difficulty target mismatch at adjustment block")
    | _, _ =>
        if (current_height <=? DIFFICULTY_INTERVAL) && (bits =? 0)
        then Err (CCE.InvalidProof "Difficulty target cannot be zero") else mret tt
    end
  else if current_height =? 0 then
    (if bits =? 0 then Err (CCE.InvalidProof "Genesis block difficulty target cannot be zero")
     else mret tt)
  else
    match previous_blocks with
    | previous_block :: _ =>
        if bits =? difficulty_target (header previous_block) then mret tt
        else Err (CCE.InvalidProof "Difficulty target should match previous block")
    | [] => mret tt
    end.

Definition check_coinbase_of (block : Block) : ccR Transaction :=
  match transactions block with
  | coinbase :: _ =>
      if negb (is_coinbase coinbase) then Err CCE.NoCoinbaseTransaction else
      if len (get_inputs coinbase) =? 1 then mret coinbase else Err CCE.InvalidCoinbaseInput
  | [] => Err CCE.NoCoinbaseTransaction
  end.

Definition cv_validate_block_comprehensive (ctx : Ctx) (block : Block) (previous_blocks : list Block)
    (current_time : Z) : ccR unit :=
  match previous_blocks with
  | [] => Err CCE.MissingPreviousBlock
  | prev_block :: _ =>
      validate_block_header (header block) prev_block current_time;;
      encoded ← ok_or (bincode_block block) serialization;
      if max_block_size (ctx_params ctx) <? len encoded
      then Err (CCE.BlockTooLarge (len encoded) (max_block_size (ctx_params ctx))) else
      validate_transactions ctx (transactions block) (block_height block) current_time;;
      coinbase ← check_coinbase_of block;
      root ← Block_calculate_merkle_root block;
      if bool_decide (root ≠ merkle_root (header block))
      then Err (CCE.MerkleRootMismatch (merkle_root (header block)) root) else
      '(_, total_tx_fees) ← try_fold (fee_tx ctx (block_height block) current_time) ([], 0)
                              (imap pair (transactions block));
      let expected_reward := u64_add (block_reward (ctx_params ctx)) total_tx_fees in
      let actual_reward := foldl u64_add 0 (value <$> get_outputs coinbase) in
      if expected_reward <? actual_reward then Err (CCE.InvalidProof "Block reward invalid") else
      (if len (ticket_votes block) =? 0 then mret tt else
         pos_validate_ticket_votes (ticket_votes block) (ctx_params ctx) (block_height block)
           (tickets (ctx_ticket_voting ctx)));;
      (if bool_decide (state_root (header block) = replicate 32 0) && (0 <? block_height block)
       then Err (CCE.InvalidStateRoot (replicate 32 0) (state_root (header block))) else mret tt);;
      check_difficulty block previous_blocks
  end.

(** ** Votes *)

Fixpoint check_vote_list (seen : list (bytes * Hash)) (votes : list TicketVote) : ccR Z :=
  match votes with
  | [] => mret 0
  | vote :: votes =>
      let key := (vote_ticket_id vote, vote_block_hash vote) in
      if bool_decide (key ∈ seen) then Err CCE.DuplicateTicketVote else
      if bool_decide (vote_ticket_id vote = replicate 32 0) then Err CCE.InvalidTicketID else
      if bool_decide (vote_block_hash vote = replicate 32 0) then Err CCE.InvalidBlockHash else
      if negb (len (vote_signature vote) =? 64) then Err CCE.InvalidSignature else
      n ← check_vote_list (key :: seen) votes; mret (n + 1)
  end.

Definition cv_validate_ticket_votes (votes : list TicketVote) : ccR unit :=
  if len votes =? 0 then Err CCE.NoTicketVotes else
  n ← check_vote_list [] votes;
  if n <? MIN_VOTES_REQUIRED then Err CCE.InsufficientTicketVotes else mret tt.

(** ** Consistency checks *)

(** [.ok().flatten()] of a read. *)
Definition ok_flatten {E A} (o : outcome E (option A)) : option A :=
  match o with Ok r => r | _ => None end.

Definition utxo_of (u : UtxoDb DB) (o : OutPoint) : option (TxOutput * Z * bool) :=
  ok_flatten (udb_get_utxo u o).

(** Counters of the scan: inconsistencies and outpoints seen. *)
Definition scan_output (u : UtxoDb DB) (s : ConsensusState DB) (tx : Transaction)
    (acc : Z * list OutPoint) (vout : nat) : ccR (Z * list OutPoint) :=
  let '(bad, seen) := acc in
  id ← tx_txid tx;
  let o := mkOutPoint id (wrap32 (Z.of_nat vout)) in
  let present := bool_decide (is_Some (utxo_of u o)) in
  let bad := if Bool.eqb present (cs_is_output_spent s o) then bad + 1 else bad in
  let bad := if bool_decide (o ∈ seen) then bad + 1 else bad in
  mret (bad, o :: seen).

Definition scan_input (u : UtxoDb DB) (bad : Z) (input : TxInput) : Z :=
  if bool_decide (is_Some (utxo_of u (previous_output input))) then bad + 1 else bad.

Definition scan_tx (u : UtxoDb DB) (s : ConsensusState DB) (acc : Z * list OutPoint)
    (tx : Transaction) : ccR (Z * list OutPoint) :=
  '(bad, seen) ← try_fold (scan_output u s tx) acc (seq 0 (length (get_outputs tx)));
  mret (foldl (scan_input u) bad (get_inputs tx), seen).

Definition scan_height (u : UtxoDb DB) (s : ConsensusState DB) (acc : Z * list OutPoint)
    (height : Z) : ccR (Z * list OutPoint) :=
  match ok_flatten (cs_get_block s (wrap32 height)) with
  | Some block => try_fold (scan_tx u s) acc (transactions block)
  | None => mret acc
  end.

Definition validate_utxo_set_consistency (u : UtxoDb DB) (s : ConsensusState DB)
    (current_height : Z) : ccR unit :=
  let validation_window := Z.min current_height 1000 in
  let start_height := u64_saturating_sub current_height validation_window in
  '(bad, _) ← try_fold (scan_height u s) (0, [])
                ((fun k => start_height + Z.of_nat k) <$>
                   seq 0 (Z.to_nat (current_height - start_height + 1)));
  let bad := foldl (fun bad o => if bool_decide (utxo_of u o = None) then bad + 1 else bad) bad
               (cs_get_critical_utxos s) in
  if 0 <? bad then Err (CCE.UtxoSetInconsistent bad) else mret tt.

Definition check_masternode_collateral (s : ConsensusState DB) (e : MasternodeID * MasternodeEntry) :
    ccR unit :=
  match cs_get_utxo s (collateral_outpoint (identity e.2)) with
  | Ok (Some (o, _, _)) =>
      if value o <? PROTOCOL_COLLATERAL_AMOUNT
      then Err (CCE.MasternodeError "Masternode has insufficient collateral")
      else validate_masternode_collateral_script (script_pubkey o)
  | Ok None => Err (CCE.MasternodeError "Masternode collateral UTXO not found")
  | Err e => Err (CCE.DatabaseError e)
  | Panic => Panic
  | OutOfFuel => OutOfFuel
  end.

Definition validate_masternode_list_consistency (l : MasternodeList) (s : ConsensusState DB) :
    ccR unit :=
  check_all (check_masternode_collateral s) (map_to_list l).

Definition check_active_proposal (current_height : Z) (p : Proposal) : ccR unit :=
  if (start_block_height p <=? current_height) && (current_height <=? end_block_height p) then
    gov_rule (negb (trim_is_empty (title p))) "empty title";;
    gov_rule (bool_decide (description_hash p ≠ replicate 32 0)) "empty or invalid description_hash";;
    gov_rule (20 <=? len (proposer_address p)) "proposer address too short";;
    gov_rule (start_block_height p <=? end_block_height p) "end_block_height < start_block_height"
  else mret tt.

Definition validate_active_proposals (s : ConsensusState DB) (current_height : Z) : ccR unit :=
  check_all (fun e => check_active_proposal current_height e.2)
    (map_to_list (active_proposals (governance_state s))).

(** The outcome is only logged. *)
Definition validate_proposal_resolution (t : GovernanceVoteTally) : ccR unit :=
  let total_pos_votes := pos_yes_votes t + pos_no_votes t in
  let total_mn_votes := mn_yes_votes t + mn_no_votes t in
  if negb (0 <? total_pos_votes) || negb (0 <? total_mn_votes) then mret tt else
  let pos_approval_rate := f64_div (f64_of_Z (pos_yes_votes t)) (f64_of_Z total_pos_votes) in
  let mn_approval_rate := f64_div (f64_of_Z (mn_yes_votes t)) (f64_of_Z total_mn_votes) in
  let passed := f64_ge pos_approval_rate (f64_lit 75 100) && f64_ge mn_approval_rate (f64_lit 66 100) in
  mret tt.

Definition check_tally (s : ConsensusState DB) (current_height : Z) (e : Hash * Proposal) : ccR unit :=
  match proposal_votes (governance_state s) !! e.1 with
  | None => mret tt
  | Some t =>
      gov_rule (negb ((pos_yes_votes t <? 0) || (pos_no_votes t <? 0) || (mn_yes_votes t <? 0) ||
                      (mn_no_votes t <? 0))) "Negative vote counts detected";;
      if end_block_height e.2 <? current_height then validate_proposal_resolution t else mret tt
  end.

Definition validate_vote_tallies (s : ConsensusState DB) (current_height : Z) : ccR unit :=
  check_all (check_tally s current_height) (map_to_list (active_proposals (governance_state s))).

(** Only logs. *)
Definition validate_proposal_outcomes (s : ConsensusState DB) (current_height : Z) : ccR unit := mret tt.

Definition validate_parameter_changes (s : ConsensusState DB) (current_height : Z) : ccR unit :=
  match parameter_change_history (governance_state s) with
  | Some param_history =>
      check_all (fun e => gov_rule (e.1 <=? current_height)
                  "Parameter change scheduled for future height") (map_to_list param_history)
  | None => mret tt
  end.

Definition validate_governance_state_consistency (s : ConsensusState DB) (current_height : Z) :
    ccR unit :=
  validate_active_proposals s current_height;;
  validate_vote_tallies s current_height;;
  validate_proposal_outcomes s current_height;;
  validate_parameter_changes s current_height.

End Validation.
