(* ===== verification/ConsensusProps.v ===== *)
(** What the validation rules of rusty-consensus guarantee, and where they
    contradict each other. *)

From Stdlib Require Import ZArith Lia List SpecFloat String.
From stdpp Require Import base option list numbers strings gmap relations.
From S2P Require Import Prelude Types Errors Transaction ScriptEngine SamplePrimitives Merkle OxideHash.
From S2P Require Import F64 Params U256 Pow Masternodes LiveTickets ChainState TicketPool.
From S2P Require Import ConsensusStore ConsensusValidation.

#[local] Open Scope Z_scope.

(** * Loops that stop at the first error *)

Lemma try_fold_ok_each {E A B} (f : A -> B -> outcome E A) l a b :
  try_fold f a l = Ok b -> forall x, x ∈ l -> exists a1 a2, f a1 x = Ok a2.
Proof.
  revert a. induction l as [|y l IH]; intros a E1 x Hx; [by apply not_elem_of_nil in Hx|].
  apply outcome_bind_inv in E1 as (a1 & Ha & E1).
  apply elem_of_cons in Hx as [->|Hx]; [eauto|]. by eapply IH.
Qed.

Lemma check_all_ok {A} (f : A -> ccR unit) l : check_all f l = Ok tt -> Forall (fun x => f x = Ok tt) l.
Proof.
  unfold check_all. induction l as [|x l IH]; [constructor|]. cbn. intros E.
  apply outcome_bind_inv in E as ([] & Hx & E). constructor; auto.
Qed.

Lemma checked_add_ok msg a b c : checked_add msg a b = Ok c -> c = a + b /\ c <= u64_max.
Proof. unfold checked_add. destruct (Z.leb_spec (a + b) u64_max); [|done]. by intros [= <-]. Qed.

(** The exact value of outputs. *)
Lemma sum_outputs_ok outputs a total :
  try_fold (fun acc o => checked_add "Output value too large" acc (value o)) a outputs = Ok total ->
  total = a + outputs_value outputs.
Proof.
  revert a. induction outputs as [|o outputs IH]; intros a E; cbn [try_fold] in E;
    unfold outputs_value in *; cbn [foldr].
  - injection E as <-. lia.
  - apply outcome_bind_inv in E as (b & Hb & E). apply checked_add_ok in Hb as [-> _].
    apply IH in E as ->. lia.
Qed.

Section Props.
  Context `{Primitives} `{StoreCodec} `{EntryCodec} {DB : Type} `{RocksDB DB}.
  Implicit Types (ctx : ValidationContext DB) (tx : Transaction).

(** * No block is ever accepted *)

Lemma spendable_missing ctx o :
  (forall r, udb_get_utxo (ctx_utxo_set ctx) o = Ok r -> r = None) ->
  is_ok (spendable ctx o) = false.
Proof.
  intros Hn. unfold spendable. destruct (udb_get_utxo (ctx_utxo_set ctx) o) as [r|e| |]; try done.
  by rewrite (Hn r eq_refl).
Qed.

(** A coinbase with the right structure has the null outpoint as its only
    input. *)
Lemma structure_coinbase ctx tx h :
  is_coinbase tx = true -> cv_validate_transaction_structure ctx tx h = Ok tt ->
  exists input, get_inputs tx = [input] /\ previous_output input = null_outpoint.
Proof.
  intros Hc E. unfold cv_validate_transaction_structure in E. rewrite Hc in E. cbn [negb andb] in E.
  apply outcome_bind_inv in E as (size & _ & E). case_match; [done|].
  apply outcome_bind_inv in E as ([] & _ & E). case_match; [done|].
  apply outcome_bind_inv in E as (total & _ & E). unfold vts_coinbase in E.
  destruct (get_inputs tx) as [|input [|]]; try done. case_bool_decide; [eauto|done].
Qed.

Lemma transactions_need_null ctx txs h t :
  (forall r, udb_get_utxo (ctx_utxo_set ctx) null_outpoint = Ok r -> r = None) ->
  is_ok (validate_transactions ctx txs h t) = false.
Proof.
  intros Hn. destruct (validate_transactions ctx txs h t) as [[]|e| |] eqn:E; try done. exfalso.
  unfold validate_transactions in E. destruct txs as [|cb txs]; [done|].
  destruct (is_coinbase cb) eqn:Hcb; [|done]. cbn [negb] in E.
  apply outcome_bind_inv in E as (a & E & _). cbn [imap try_fold] in E.
  apply outcome_bind_inv in E as (a1 & E & _). unfold block_tx in E. cbn [fst snd] in E.
  apply outcome_bind_inv in E as ([] & Hs & E). apply outcome_bind_inv in E as ([] & _ & E).
  destruct (structure_coinbase _ _ _ Hcb Hs) as (input & Hin & Ho). rewrite Hin in E.
  apply outcome_bind_inv in E as (a2 & E & _). cbn [try_fold] in E.
  apply outcome_bind_inv in E as (a3 & E & _). unfold block_input in E. rewrite Ho in E.
  apply outcome_bind_inv in E as (x & E & _).
  pose proof (spendable_missing ctx null_outpoint Hn) as Hm. rewrite E in Hm. done.
Qed.

Context `{!EntryCodecLaws _ _} `{!RocksLaws DB}.

(** The stores block application can produce from an empty one. *)
Inductive stored_from_blocks : UtxoDb DB -> Prop :=
| stored_empty u : represents (db_view (utxo_db u)) ∅ -> stored_from_blocks u
| stored_block u u' block height maturity :
    stored_from_blocks u ->
    Forall (fun tx => len (get_outputs tx) < u32_max) (transactions block) ->
    apply_block_to_utxo_set block u height maturity = Ok u' -> stored_from_blocks u'.

Lemma create_all_no_null height tx (m : utxo_map) :
  len (get_outputs tx) < u32_max -> m !! null_outpoint = None ->
  create_all height tx m !! null_outpoint = None.
Proof.
  intros Hlen Hm. unfold create_all. destruct (tx_txid (E := unit) tx) as [id|e| |]; try done.
  assert (Hidx : forall e, e ∈ imap pair (get_outputs tx) -> Z.of_nat e.1 < u32_max).
  { intros [i o] Hi. apply elem_of_lookup_imap in Hi as (j & o' & [= -> ->] & Hj).
    apply lookup_lt_Some in Hj. cbn. unfold len in Hlen. lia. }
  revert m Hm. induction (imap pair (get_outputs tx)) as [|e l IH]; intros m Hm; [done|]. cbn [foldl].
  apply IH; [intros e' He'; apply Hidx; by right|]. rewrite lookup_insert_ne; [done|].
  intros E. injection E as _ E. pose proof (Hidx e ltac:(by left)) as He.
  rewrite wrap32_small in E; unfold u32_max in *; lia.
Qed.

Lemma spend_all_no_null tx (m : utxo_map) :
  m !! null_outpoint = None -> spend_all tx m !! null_outpoint = None.
Proof.
  unfold spend_all. destruct (is_coinbase tx); [done|]. revert m.
  induction (get_inputs tx) as [|i l IH]; intros m Hm; [done|]. cbn [foldl]. apply IH.
  by rewrite lookup_delete_None; right.
Qed.

Lemma stored_has_no_null u :
  stored_from_blocks u ->
  exists m : utxo_map, represents (db_view (utxo_db u)) m /\ m !! null_outpoint = None.
Proof.
  induction 1 as [u Hr|u u' block height maturity Hs (m & Hr & Hm) Hlen E].
  - exists ∅. split; [done|]. apply lookup_empty.
  - exists (foldl (apply_tx_map height) m (transactions block)).
    split; [by eapply utxo_store_represents|]. clear E Hr. revert m Hm.
    induction Hlen as [|tx txs Htx Htxs IH]; intros m Hm; [done|]. cbn [foldl]. apply IH.
    unfold apply_tx_map. by apply create_all_no_null; [|apply spend_all_no_null].
Qed.

Lemma stored_never_null u o :
  stored_from_blocks u -> o = null_outpoint -> forall r, udb_get_utxo u o = Ok r -> r = None.
Proof.
  intros Hs -> r Hr. destruct (stored_has_no_null u Hs) as (m & Hrep & Hm).
  by rewrite (udb_get_represents u m _ r Hrep Hr).
Qed.

Context `{U256}.

Lemma comprehensive_transactions ctx block prevs t :
  cv_validate_block_comprehensive ctx block prevs t = Ok tt ->
  validate_transactions ctx (transactions block) (block_height block) t = Ok tt.
Proof.
  unfold cv_validate_block_comprehensive. destruct prevs as [|prev prevs]; [done|]. intros E.
  apply outcome_bind_inv in E as ([] & _ & E). apply outcome_bind_inv in E as (enc & _ & E).
  case_match; [done|]. by apply outcome_bind_inv in E as ([] & Ht & _).
Qed.

(** Whatever blocks were applied before, rusty-consensus accepts no further
    one: the coinbase must spend the null outpoint to have the right structure,
    and then [validate_transactions] looks that outpoint up in the UTXO set,
    where no block can put it (an output index would have to be the largest
    [u32]). *)
Theorem no_block_is_accepted ctx block prevs t :
  stored_from_blocks (ctx_utxo_set ctx) ->
  is_ok (validate_transactions ctx (transactions block) (block_height block) t) = false /\
  is_ok (cv_validate_block_comprehensive ctx block prevs t) = false.
Proof.
  intros Hs.
  pose proof (transactions_need_null ctx (transactions block) (block_height block) t
    (stored_never_null _ _ Hs eq_refl)) as Hn.
  split; [done|].
  destruct (cv_validate_block_comprehensive ctx block prevs t) as [[]|e| |] eqn:E; try done.
  by rewrite (comprehensive_transactions _ _ _ _ E) in Hn.
Qed.

(** * Rules that contradict each other *)

(** [validate_block] accepts a block only if the header of the previous block
    and the whole previous block have the same hash, and the two blocks have
    the same Merkle root: it compares [previous_block_hash] with both hashes,
    and [validate_block_header] compares the Merkle root with the one of the
    previous block. *)
Theorem validate_block_needs_collision block prev prevs t :
  validate_block block (prev :: prevs) t = Ok tt ->
  exists hb bb, bincode_header (header prev) = Some hb /\ bincode_block prev = Some bb /\
    blake3 hb = blake3 bb /\
    Block_calculate_merkle_root (E := CCE.ConsensusCrateError) prev = Ok (merkle_root (header block)) /\
    Block_calculate_merkle_root (E := CCE.ConsensusCrateError) block = Ok (merkle_root (header block)).
Proof.
  unfold validate_block. intros E. apply outcome_bind_inv in E as (h1 & Hh1 & E).
  case_bool_decide as Hp1; [done|]. case_match; [done|].
  apply outcome_bind_inv in E as (r1 & Hr1 & E). case_bool_decide as Hm1; [done|].
  unfold validate_block_header in E. case_match; [done|].
  apply outcome_bind_inv in E as (h2 & Hh2 & E). case_bool_decide as Hp2; [done|].
  apply outcome_bind_inv in E as (r2 & Hr2 & E). case_bool_decide as Hm2; [done|].
  unfold header_hash in Hh1. unfold block_hash in Hh2.
  destruct (bincode_header (header prev)) as [hb|]; cbn in Hh1; [injection Hh1 as <-|done].
  destruct (bincode_block prev) as [bb|]; cbn in Hh2; [injection Hh2 as <-|done].
  exists hb, bb. repeat split; try done; congruence.
Qed.

(** The two transaction checks disagree about coinbases: one wants no input,
    the other exactly one, so no coinbase passes both. *)
Theorem coinbase_rules_conflict ctx tx h h' mtp :
  is_coinbase tx = true -> cv_validate_transaction ctx tx h mtp = Ok tt ->
  is_ok (cv_validate_transaction_structure ctx tx h') = false.
Proof.
  intros Hc E. destruct (cv_validate_transaction_structure ctx tx h') as [[]|e| |] eqn:Es; try done.
  destruct (structure_coinbase _ _ _ Hc Es) as (input & Hin & _).
  unfold cv_validate_transaction in E. rewrite Hc, Hin in E. cbn in E.
  apply outcome_bind_inv in E as (size & _ & E). case_match; done.
Qed.

End Props.

(** * What acceptance of a transaction means *)

Section Acceptance.
  Context `{Primitives} `{StoreCodec} `{EntryCodec} {DB : Type} `{RocksDB DB}.
  Implicit Types (ctx : ValidationContext DB) (tx : Transaction).

Definition entry_value (e : TxOutput * Z * bool) : Z := value (fst (fst e)).

Definition mature (ctx : ValidationContext DB) (h : Z) (e : TxOutput * Z * bool) : Prop :=
  snd e = true -> wrap32 (wrap32 (snd (fst e)) + coinbase_maturity (ctx_params ctx)) <= h.

Lemma mature_exact ctx h e :
  params_typed (ctx_params ctx) -> mature ctx h e ->
  let '(_, height, cb) := e in cb = true -> 0 <= height ->
    height + coinbase_maturity (ctx_params ctx) <= u32_max -> height + coinbase_maturity (ctx_params ctx) <= h.
Proof.
  intros Hp Hm. destruct e as [[o height] cb]. intros -> Hpos Hf. specialize (Hm eq_refl). cbn [fst snd] in Hm.
  assert (Hc : 0 <= coinbase_maturity (ctx_params ctx)).
  { destruct Hp as (_ & H32). unfold u32_parameters in H32. rewrite Forall_forall in H32.
    pose proof (H32 (coinbase_maturity (ctx_params ctx)) ltac:(set_solver)). lia. }
  rewrite (wrap32_small height), wrap32_small in Hm by lia. done.
Qed.

Lemma vt_inputs_ok ctx tx h inputs i seen count total r :
  vt_inputs ctx tx h i seen count total inputs = Ok r ->
  NoDup (previous_output <$> inputs) /\ Forall (fun input => previous_output input ∉ seen) inputs /\
  exists spent, Forall2 (fun input e => spendable ctx (previous_output input) = Ok e) inputs spent /\
    Forall (mature ctx h) spent /\ r = total + foldr (fun e acc => entry_value e + acc) 0 spent /\
    (inputs <> [] -> r <= u64_max).
Proof.
  revert i seen count total. induction inputs as [|input inputs IH]; intros i seen count total E.
  - injection E as <-. repeat split; [constructor..|]. exists []. repeat split; [constructor..|cbn; lia|done].
  - cbn [vt_inputs] in E. case_bool_decide as Hs; [done|].
    apply outcome_bind_inv in E as ([[prev height] cb] & He & E).
    case_match eqn:Hm; [done|]. apply outcome_bind_inv in E as (count' & _ & E).
    apply outcome_bind_inv in E as (total' & Ht & E). apply checked_add_ok in Ht as [-> Hle].
    apply IH in E as (Hnd & Hf & spent & Hsp & Hmat & -> & Hmax).
    assert (Hni : previous_output input ∉ previous_output <$> inputs).
    { rewrite list_elem_of_fmap. intros (x & Hx & Hin). rewrite Forall_forall in Hf.
      apply (Hf x Hin). rewrite <- Hx. left. }
    repeat split; [by constructor|..].
    + constructor; [done|]. rewrite Forall_forall in Hf |- *. intros x Hx Hx'.
      apply (Hf x Hx). by right.
    + exists ((prev, height, cb) :: spent). repeat split; [by constructor| |cbn; unfold entry_value; cbn; lia|].
      * constructor; [|done]. unfold mature. cbn. intros ->. cbn in Hm. apply Z.ltb_ge in Hm. lia.
      * intros _. destruct inputs; [|by apply Hmax].
        inversion Hsp; subst. cbn. lia.
Qed.

(** C7. A transaction that [validate_transaction] accepts and that is not a
    coinbase, under parameters with values of their types, spends distinct
    existing outputs; a coinbase among them is at least the maturity old, if its
    height plus the maturity fits in 32 bits; its outputs plus one satoshi per
    byte of its encoding are covered by what it spends, counted as integers: no
    sum can wrap around; and only OP_RETURN outputs are below the dust limit. *)
Theorem accepted_transaction_pays ctx tx h mtp :
  params_typed (ctx_params ctx) -> is_coinbase tx = false ->
  cv_validate_transaction ctx tx h mtp = Ok tt ->
  NoDup (previous_output <$> get_inputs tx) /\
  exists enc spent, bincode_transaction tx = Some enc /\
    Forall2 (fun input e => spendable ctx (previous_output input) = Ok e) (get_inputs tx) spent /\
    Forall (fun '(_, height, cb) => cb = true -> 0 <= height ->
      height + coinbase_maturity (ctx_params ctx) <= u32_max -> height + coinbase_maturity (ctx_params ctx) <= h) spent /\
    outputs_value (get_outputs tx) + len enc <= foldr (fun e acc => entry_value e + acc) 0 spent <= u64_max /\
    Forall (fun o => is_op_return_output (script_pubkey o) = false -> dust_limit (ctx_params ctx) <= value o) (get_outputs tx).
Proof.
  intros Hp Hc E. unfold cv_validate_transaction in E. rewrite Hc in E.
  case_match; [done|]. apply outcome_bind_inv in E as (size & Hsize & E).
  unfold serialized_size in Hsize. destruct (bincode_transaction tx) as [enc|]; [|done]. injection Hsize as <-.
  destruct (Z.ltb_spec (max_tx_size (ctx_params ctx)) (len enc)) as [|Hmax]; [done|].
  apply outcome_bind_inv in E as ([] & E & Hout). apply check_all_ok in Hout.
  destruct (Z.eqb_spec (len (get_inputs tx)) 0) as [|Hne]; [done|].
  apply outcome_bind_inv in E as (tin & Hin & E). apply outcome_bind_inv in E as (tout & Ho & E).
  apply vt_inputs_ok in Hin as (Hnd & _ & spent & Hsp & Hmat & Htin & Hle).
  unfold sum_outputs in Ho. apply sum_outputs_ok in Ho as ->.
  destruct (Z.ltb_spec tin (0 + outputs_value (get_outputs tx))) as [|Hge]; [done|].
  unfold u64_mul, MIN_RELAY_FEE_PER_BYTE in E. rewrite Z.mul_1_l in E.
  assert (Hsz : 0 <= len enc <= u64_max).
  { split; [apply len_nonneg|]. destruct Hp as [H64 _]. unfold u64_parameters in H64.
    rewrite Forall_forall in H64. pose proof (H64 (max_tx_size (ctx_params ctx)) ltac:(set_solver)). lia. }
  rewrite wrap64_small in E by done.
  destruct (Z.ltb_spec (tin - (0 + outputs_value (get_outputs tx))) (len enc)); [done|].
  split; [done|]. exists enc, spent. split; [done|]. split; [done|]. split; [|split].
  - apply (Forall_impl _ _ _ Hmat). intros e. by apply mature_exact.
  - split; [lia|]. rewrite Z.add_0_l in Htin. rewrite <- Htin. apply Hle. intros Hnil. rewrite Hnil in Hne. done.
  - apply (Forall_impl _ _ _ Hout). intros o. unfold vt_check_output. intros Ho Hr. rewrite Hr in Ho. cbn [negb andb] in Ho.
    by destruct (Z.ltb_spec (value o) (dust_limit (ctx_params ctx))).
Qed.

End Acceptance.

(** * Slashing, redemption, consistency *)

Section Slashing.
  Context `{Primitives} `{StoreCodec} `{EntryCodec} {DB : Type} `{RocksDB DB}.
  Implicit Types (ctx : ValidationContext DB).

Lemma vts_outputs_total ctx outputs k a total :
  try_fold (vts_output ctx) a (imap (fun i o => (k + i, o)%nat) outputs) = Ok total ->
  total = a + outputs_value outputs.
Proof.
  revert k a. induction outputs as [|o outputs IH]; intros k a E; cbn [imap try_fold] in E;
    unfold outputs_value in *; cbn [foldr].
  - injection E as <-. lia.
  - apply outcome_bind_inv in E as (b & Hb & E). unfold vts_output in Hb. cbn in Hb.
    case_match; [done|]. apply outcome_bind_inv in Hb as (c & Hc & Hb).
    apply checked_add_ok in Hc as [-> _]. case_match; [done|]. injection Hb as <-.
    rewrite (imap_ext _ (fun i o => (S k + i, o)%nat)) in E
      by (intros; cbn; do 2 f_equal; lia).
    apply IH in E as ->. lia.
Qed.

(** The transaction that slashes a ticket for missing a vote can never be in a
    valid block: it pays out at least the value of the ticket and so leaves no
    fee, and the structure check demands one satoshi per byte. *)
Theorem slashing_transaction_rejected ctx bincode_proof id proof input v spk h tx enc e height :
  create_ticket_non_participation_slashing_transaction bincode_proof id proof input v spk h = Ok tx ->
  spendable ctx (previous_output input) = Ok e -> entry_value e = v ->
  bincode_transaction tx = Some enc -> 0 < len enc <= u64_max ->
  is_ok (cv_validate_transaction_structure ctx tx height) = false.
Proof.
  intros Hcreate He Hv Henc Hlen.
  destruct (non_participation_outputs _ _ _ _ _ _ _ _ Hcreate) as (Hin & Hout & Hc & _).
  destruct (cv_validate_transaction_structure ctx tx height) as [[]|er| |] eqn:E; try done. exfalso.
  unfold cv_validate_transaction_structure in E. rewrite Hc, Hin in E. cbn [negb andb] in E.
  apply outcome_bind_inv in E as (size & Hsize & E). unfold serialized_size in Hsize.
  rewrite Henc in Hsize. injection Hsize as <-. case_match; [done|].
  change (len [input] =? 0) with false in E. cbn iota in E.
  apply outcome_bind_inv in E as ([] & _ & E). case_match; [done|].
  apply outcome_bind_inv in E as (tout & Hto & E). apply outcome_bind_inv in E as (tin & Hti & E).
  apply (vts_outputs_total ctx (get_outputs tx) 0 0) in Hto.
  apply outcome_bind_inv in Hti as (t1 & Ht1 & Hti). injection Hti as <-. unfold vts_input in Ht1.
  rewrite He in Ht1. destruct e as [[prev eh] cb]. cbn in Ht1.
  apply outcome_bind_inv in Ht1 as (t2 & Ht2 & Ht1). apply checked_add_ok in Ht2 as [-> _].
  destruct (negb (get_lock_time tx =? 0) && (sequence input =? u32_max)); [done|].
  injection Ht1 as <-. unfold entry_value in Hv. cbn in Hv.
  destruct (Z.ltb_spec (0 + value prev) tout); [done|].
  unfold u64_mul, MIN_RELAY_FEE_PER_BYTE in E. rewrite Z.mul_1_l, wrap64_small in E by lia.
  destruct (Z.ltb_spec (0 + value prev - tout) (len enc)); [done|lia].
Qed.

(** A ticket that has voted can never be redeemed: redemption asks for an
    expired or revoked ticket, and a voted ticket stays voted or is gone under
    every operation of the pool that does not write it anew. *)
Theorem voted_ticket_locked ctx id t ops :
  tickets (ctx_ticket_voting ctx) !! id = Some t -> ticket_status t = Voted ->
  forallb (fun op => negb (writes id op)) ops = true ->
  is_ok (check_redemption
    (mkValidationContext (ctx_utxo_set ctx) (ctx_params ctx) (tp_run (ctx_ticket_voting ctx) ops)
       (ctx_masternode_list ctx) (ctx_blockchain_state ctx)) id) = false.
Proof.
  intros Ht Hv Hops. pose proof (tp_run_moves id ops (ctx_ticket_voting ctx) Hops) as Hm.
  unfold check_redemption, tp_get_ticket. cbn [ctx_ticket_voting].
  unfold ticket_moves in Hm. rewrite Ht in Hm.
  destruct (tickets (tp_run (ctx_ticket_voting ctx) ops) !! id) as [t'|]; [|done]. cbn.
  destruct Hm as [Hs _]. rewrite Hv in Hs. by rewrite (voted_final _ Hs).
Qed.

(** ** The consistency scan *)

Lemma scan_output_grows u (s : ConsensusState DB) tx acc k acc' :
  scan_output u s tx acc k = Ok acc' -> acc.1 <= acc'.1.
Proof.
  destruct acc as [bad seen]. unfold scan_output. intros E.
  apply outcome_bind_inv in E as (id & _ & E). injection E as <-. cbn. repeat case_match; lia.
Qed.

Lemma try_fold_grows {B} (f : Z * list OutPoint -> B -> ccR (Z * list OutPoint)) l acc acc' :
  (forall x acc acc', f acc x = Ok acc' -> acc.1 <= acc'.1) ->
  try_fold f acc l = Ok acc' -> acc.1 <= acc'.1.
Proof.
  intros Hf. revert acc. induction l as [|x l IH]; intros acc E; cbn in E.
  - injection E as <-. lia.
  - apply outcome_bind_inv in E as (b & Hb & E). apply Hf in Hb. apply IH in E. lia.
Qed.

(** One round that finds something makes the loop find something. *)
Lemma try_fold_finds {B} (f : Z * list OutPoint -> B -> ccR (Z * list OutPoint)) l acc acc' x :
  (forall x acc acc', f acc x = Ok acc' -> acc.1 <= acc'.1) ->
  (forall acc acc', 0 <= acc.1 -> f acc x = Ok acc' -> 0 < acc'.1) ->
  x ∈ l -> 0 <= acc.1 -> try_fold f acc l = Ok acc' -> 0 < acc'.1.
Proof.
  intros Hf Hx. revert acc. induction l as [|y l IH]; intros acc Hin Ha E;
    [by apply not_elem_of_nil in Hin|].
  apply outcome_bind_inv in E as (b & Hb & E). apply elem_of_cons in Hin as [->|Hin].
  - apply Hx in Hb; [|done]. pose proof (try_fold_grows f l b acc' Hf E). lia.
  - pose proof (Hf _ _ _ Hb). apply (IH b); try done. lia.
Qed.

Lemma scan_inputs_grow u bad inputs : bad <= foldl (scan_input u) bad inputs.
Proof.
  revert bad. induction inputs as [|i l IH]; intros bad; cbn; [lia|].
  specialize (IH (scan_input u bad i)). unfold scan_input in IH at 1 |- * at 2.
  unfold scan_input in *. repeat case_match; lia.
Qed.

Lemma scan_tx_grows u (s : ConsensusState DB) tx acc acc' : scan_tx u s acc tx = Ok acc' -> acc.1 <= acc'.1.
Proof.
  unfold scan_tx. intros E. apply outcome_bind_inv in E as ([bad seen] & Ho & E). injection E as <-.
  apply try_fold_grows in Ho; [|intros x a a'; apply scan_output_grows]. cbn in *.
  pose proof (scan_inputs_grow u bad (get_inputs tx)). lia.
Qed.

Lemma scan_height_grows u (s : ConsensusState DB) h acc acc' :
  scan_height u s acc h = Ok acc' -> acc.1 <= acc'.1.
Proof.
  unfold scan_height. case_match; [|intros [= <-]; lia].
  apply try_fold_grows. intros x a a'. apply scan_tx_grows.
Qed.

(** The consistency check calls every output spent within its window of 1000
    blocks an inconsistency, because [is_output_spent] always answers no: if
    some recent stored block has an output that is not in the UTXO set, the
    check fails. *)
Theorem spent_output_is_inconsistent u (s : ConsensusState DB) current_height height block tx id (k : nat) :
  0 <= current_height - Z.min current_height 1000 <= height -> height <= current_height ->
  ok_flatten (cs_get_block s (wrap32 height)) = Some block -> tx ∈ transactions block ->
  tx_txid (E := CCE.ConsensusCrateError) tx = Ok id -> (k < length (get_outputs tx))%nat ->
  utxo_of u (mkOutPoint id (wrap32 (Z.of_nat k))) = None ->
  is_ok (validate_utxo_set_consistency u s current_height) = false.
Proof.
  intros Hlo Hhi Hblock Htx Hid Hk Hnone.
  destruct (validate_utxo_set_consistency u s current_height) as [[]|e| |] eqn:E; try done. exfalso.
  unfold validate_utxo_set_consistency in E. apply outcome_bind_inv in E as ([bad seen] & Hf & E).
  cbn [cs_get_critical_utxos foldl] in E. destruct (Z.ltb_spec 0 bad) as [|Hbad]; [done|].
  enough (0 < (bad, seen).1) by (cbn in *; lia). revert Hf.
  set (start := u64_saturating_sub current_height (Z.min current_height 1000)).
  assert (Hstart : 0 <= start <= height) by (unfold start, u64_saturating_sub; lia).
  apply (try_fold_finds _ _ _ _ height); [intros x a a'; apply scan_height_grows| |
    apply list_elem_of_fmap; exists (Z.to_nat (height - start)); split; [lia|];
      apply elem_of_seq; lia | done].
  intros acc acc' Ha. unfold scan_height. rewrite Hblock.
  apply (try_fold_finds _ _ _ _ tx); [intros x a a'; apply scan_tx_grows| |done|done].
  clear Ha acc acc'. intros acc acc' Ha E1. unfold scan_tx in E1.
  apply outcome_bind_inv in E1 as ([bad1 seen1] & Ho & E1). injection E1 as <-. cbn.
  enough (0 < (bad1, seen1).1) by (pose proof (scan_inputs_grow u bad1 (get_inputs tx)); cbn in *; lia).
  revert Ho. apply (try_fold_finds _ _ _ _ k); [intros x a a'; apply scan_output_grows| | |done].
  - intros [b sn] a' Hb. unfold scan_output. rewrite Hid, outcome_bind_ok, Hnone.
    assert (bool_decide (is_Some (@None (TxOutput * Z * bool))) = false) as -> by done.
    cbn in *.
    case_bool_decide; intros [= <-]; cbn; lia.
  - apply elem_of_seq. lia.
Qed.

(** A heartbeat is accepted exactly from a listed masternode that has not been
    silent for too long and whose operator key signed the height and the id;
    it records the height and changes nothing else. *)
Theorem heartbeat_iff p id h sig (l l' : MasternodeList) :
  validate_masternode_heartbeat p id h sig l = (l', Ok tt) <->
  exists e pk s, l !! id = Some e /\ h <= last_successful_pose_height e + max_inactivity_blocks p /\
    public_key_from_bytes (operator_public_key (identity e)) = Some pk /\
    signature_from_bytes sig = Some s /\ ed25519_verify pk (heartbeat_message h id) s = true /\
    l' = <[id := mkMasternodeEntry (identity e) (status e) (wrap32 h) (pose_failure_count e)
             (last_slashed_height e) (dkg_participation_count e) (dkg_success_rate e)
             (active_dkg_sessions e) (collateral_amount e)]> l.
Proof.
  unfold validate_masternode_heartbeat, verify_masternode_signature, get_masternode.
  destruct (l !! id) as [e|]; [|naive_solver].
  destruct (Z.ltb_spec (last_successful_pose_height e + max_inactivity_blocks p) h) as [Hlt|Hge];
    [split; [done|]; intros (? & ? & ? & [= <-] & ? & _); lia|].
  destruct (public_key_from_bytes (operator_public_key (identity e))) as [pk|] eqn:Epk;
    [|split; [done|]; intros (? & ? & ? & [= <-] & _ & ? & _); congruence].
  destruct (signature_from_bytes sig) as [s|];
    [|split; [done|]; intros (? & ? & ? & _ & _ & _ & ? & _); done].
  destruct (ed25519_verify pk (heartbeat_message h id) s) eqn:Ev; cbn [negb];
    [|split; [done|]; intros (? & ? & ? & [= <-] & _ & ? & [= <-] & ? & _); congruence].
  split.
  - intros [= <-]. exists e, pk, s. repeat split; done.
  - intros (e' & pk' & s' & [= <-] & _ & _ & _ & _ & ->). reflexivity.
Qed.

End Slashing.

(** * Witnesses *)

(** Sample primitives whose hashes are small as big-endian numbers. *)
Definition small_hash (m : bytes) : Hash := rev (to_le_bytes 32 (sample_fold 1 m mod 256)).

Definition small_primitives : Primitives := {|
  blake3 := small_hash;
  sha1 := sample_hash 20 2;
  sha256 := sample_hash 32 3;
  ripemd160 := sample_hash 20 4;
  DalekPublicKey := bytes;
  DalekSignature := bytes;
  public_key_from_bytes b := Some b;
  signature_from_bytes b := Some b;
  ed25519_verify pk m sig := true;
  bincode_transaction tx := Some (sample_bincode tx);
  bincode_header h := Some (sample_bincode_header h);
  bincode_block b :=
    Some (sample_bincode_header (header b) ++ concat (sample_bincode <$> transactions b));
|}.

Lemma rev_bytes l : is_bytes l -> is_bytes (rev l).
Proof. rewrite rev_alt. change (rev_append l []) with (reverse l). apply Forall_reverse. Qed.

Lemma small_hash_laws : HashLaws small_primitives.
Proof.
  split; intros m; (split; [|try apply length_to_le_bytes]); try apply to_le_bytes_bytes.
  - apply rev_bytes, to_le_bytes_bytes.
  - cbn. unfold small_hash. by rewrite length_rev, length_to_le_bytes.
Qed.

Lemma fresh_hash_blake3 `{Primitives} `{!HashLaws _} hb n :
  exists msg, fresh_oxide_hash (E := CCE.ConsensusCrateError) hb n = Ok (blake3 msg).
Proof.
  destruct (oxide_hash_prefix SCRATCHPAD_SIZE ITERATIONS_PER_HASH hb) as (prefix & _ & Hp); [done|done|].
  exists (prefix ++ to_le_bytes 8 n). unfold fresh_oxide_hash, calculate_oxide_hash.
  destruct (Hp OxideHasher_new [] n) as ([pad cur] & -> & _); [|reflexivity].
  unfold OxideHasher_new, len. rewrite length_replicate. unfold SCRATCHPAD_SIZE. lia.
Qed.

Lemma ok_or_some {E A} (a : A) (e : E) : ok_or (Some a) e = Ok a.
Proof. reflexivity. Qed.

Lemma easy_pow `{Primitives} `{!HashLaws _} `{U256} h bits :
  is_Some (bincode_header (without_nonce h)) ->
  (forall msg, u256_val (u256_from_big_endian (blake3 msg)) <= u256_val (compact_to_target bits)) ->
  verify_pow h bits = Ok tt.
Proof.
  intros [hb Hhb] Hle. destruct (fresh_hash_blake3 hb (nonce h)) as [msg Hf].
  unfold verify_pow. rewrite Hhb, ok_or_some, outcome_bind_ok, Hf, outcome_bind_ok. unfold u256_le.
  specialize (Hle msg). apply Z.leb_le in Hle. rewrite Hle. reflexivity.
Qed.

Lemma small_pow h bits :
  256 <= u256_val (compact_to_target bits) -> verify_pow (H0 := small_primitives) h bits = Ok tt.
Proof.
  intros Hb. refine (easy_pow (HashLaws0 := small_hash_laws) h bits (mk_is_Some _ _ eq_refl) _).
  intros msg. change (blake3 msg) with (small_hash msg). unfold small_hash.
  set (x := sample_fold 1 msg mod 256).
  assert (Hx : 0 <= x < 256) by (apply Z.mod_pos_bound; lia).
  rewrite (u256_be_val (U256Laws := z_u256_laws));
    [|apply rev_bytes, to_le_bytes_bytes|by rewrite length_rev, length_to_le_bytes].
  rewrite rev_involutive, from_to_le_bytes by (split; [lia|]; apply (Z.lt_trans _ 256); [lia|done]).
  lia.
Qed.

(** Two empty blocks, the second on top of the first. *)
Definition parent_block : Block := mkBlock (mkBlockHeader 1 1 [] [] [] 1 0x1f00ffff 0) [] [].

Definition hash_or_nil (o : outcome CCE.ConsensusCrateError Hash) : Hash :=
  match o with Ok h => h | _ => [] end.

Definition child_block : Block :=
  mkBlock (mkBlockHeader 1 2
    (hash_or_nil (block_hash (H := small_primitives) parent_block))
    (hash_or_nil (Block_calculate_merkle_root (H := small_primitives) parent_block)) [] 2 0x1f00ffff 0)
    [] [].

Lemma child_accepted :
  validate_block (H := small_primitives) child_block [parent_block] 10 = Ok tt.
Proof.
  unfold validate_block.
  assert (header_hash (E := CCE.ConsensusCrateError) (H := small_primitives) (header parent_block) =
    Ok (previous_block_hash (header child_block))) as -> by (vm_compute; reflexivity).
  rewrite outcome_bind_ok, bool_decide_eq_false_2 by (intros Hne; by apply Hne).
  change (block_height child_block =? u64_add (block_height parent_block) 1) with true. cbn [negb].
  assert (Block_calculate_merkle_root (E := CCE.ConsensusCrateError) (H := small_primitives) child_block =
    Ok (merkle_root (header child_block))) as -> by (vm_compute; reflexivity).
  rewrite outcome_bind_ok, bool_decide_eq_false_2 by (intros Hne; by apply Hne).
  unfold validate_block_header. change (header_version (header child_block) =? 1) with true. cbn [negb].
  assert (block_hash (E := CCE.ConsensusCrateError) (H := small_primitives) parent_block =
    Ok (previous_block_hash (header child_block))) as -> by (vm_compute; reflexivity).
  rewrite outcome_bind_ok, bool_decide_eq_false_2 by (intros Hne; by apply Hne).
  assert (Block_calculate_merkle_root (E := CCE.ConsensusCrateError) (H := small_primitives) parent_block =
    Ok (merkle_root (header child_block))) as -> by (vm_compute; reflexivity).
  rewrite outcome_bind_ok, bool_decide_eq_false_2 by (intros Hne; by apply Hne).
  change (negb (is_adjustment_block (u64_add (block_height parent_block) 1)) &&
    negb (difficulty_target (header child_block) =? difficulty_target (header parent_block))) with false.
  change (u64_add 10 7200 <? timestamp (header child_block)) with false.
  change (timestamp (header child_block) <=? timestamp (header parent_block)) with false. cbn iota.
  apply small_pow. vm_compute. discriminate.
Qed.

Lemma validate_block_needs_collision_witness :
  exists hb bb, bincode_header (Primitives := small_primitives) (header parent_block) = Some hb /\
    bincode_block (Primitives := small_primitives) parent_block = Some bb /\
    blake3 (Primitives := small_primitives) hb = blake3 (Primitives := small_primitives) bb.
Proof.
  destruct (validate_block_needs_collision (H := small_primitives) child_block parent_block [] 10
    child_accepted) as (hb & bb & Hh & Hb & Heq & _).
  exists hb, bb. split; [exact Hh|]. split; [exact Hb|exact Heq].
Defined.

Definition empty_db : UtxoDb contents := mkUtxoDb ∅ ∅.

Lemma empty_represents : represents (H0 := entry_store_codec) (db_view (utxo_db empty_db)) ∅.
Proof. intros o k Hk. cbn [db_view map_rocks_laws utxo_db empty_db]. by rewrite !lookup_empty. Qed.

Definition coinbase_input : TxInput := TxInput_from_outpoint null_outpoint [] 0 [].

Definition coinbase_block : Block :=
  mkBlock (mkBlockHeader 1 5 [] [] [] 0 0 0) [] [Coinbase 1 [coinbase_input] [TxOutput_new 1000 [0x51]] 0 []].

Definition one_block_db : UtxoDb contents :=
  match apply_block_to_utxo_set (H0 := entry_store_codec) coinbase_block empty_db 5 100 with
  | Ok u => u
  | _ => empty_db
  end.

Lemma one_block_stored : stored_from_blocks (H0 := entry_store_codec) one_block_db.
Proof.
  apply (stored_block empty_db one_block_db coinbase_block 5 100).
  - apply stored_empty, empty_represents.
  - apply (bool_decide_unpack _). vm_compute. exact I.
  - reflexivity.
Qed.

Definition no_state : ConsensusState contents := mkConsensusState ∅ (mkGovernanceStore ∅ ∅ None) ∅.

Definition context_of (u : UtxoDb contents) (p : TicketPool) : ValidationContext contents :=
  mkValidationContext u ConsensusParams_default p ∅ no_state.

Lemma no_block_is_accepted_witness :
  is_ok (cv_validate_block_comprehensive (H0 := entry_store_codec)
    (context_of one_block_db TicketPool_new) coinbase_block [coinbase_block] 0) = false.
Proof.
  exact (proj2 (no_block_is_accepted (H0 := entry_store_codec) (EntryCodecLaws0 := entry_codec_laws)
    (context_of one_block_db TicketPool_new) coinbase_block [coinbase_block] 0 one_block_stored)).
Defined.

Definition bare_coinbase : Transaction := Coinbase 1 [] [TxOutput_new 1000 [0x51]] 0 [].

Lemma coinbase_rules_conflict_witness :
  cv_validate_transaction (H0 := entry_store_codec) (context_of empty_db TicketPool_new) bare_coinbase 0 0
    = Ok tt /\
  is_ok (cv_validate_transaction_structure (H0 := entry_store_codec)
    (context_of empty_db TicketPool_new) bare_coinbase 0) = false.
Proof.
  split; [vm_compute; reflexivity|].
  apply (coinbase_rules_conflict (H0 := entry_store_codec) (context_of empty_db TicketPool_new)
    bare_coinbase 0 0 0); vm_compute; reflexivity.
Defined.

(** A transaction that spends the output of [one_output_db]. *)
Definition modest_tx : Transaction := Standard 1 [sample_input] [TxOutput_new 800 [0x51]] 0 200 [].

Lemma accepted_transaction_pays_witness :
  NoDup (previous_output <$> get_inputs modest_tx).
Proof.
  refine (proj1 (accepted_transaction_pays (H0 := entry_store_codec)
    (context_of one_output_db TicketPool_new) modest_tx 5 0 _ _ _));
    [exact default_params_typed | reflexivity | vm_compute; reflexivity].
Defined.

Definition missed_vote : TicketNonParticipationProof :=
  mkTicketNonParticipationProof [1] 0 (replicate 32 1) 0 [1] [witness_entry].

Definition slashing_tx : Transaction :=
  match create_ticket_non_participation_slashing_transaction (fun _ => Some []) [1] missed_vote
          sample_input 1000 [0x51] 0 with
  | Ok tx => tx
  | _ => bare_coinbase
  end.

Lemma slashing_transaction_rejected_witness :
  is_ok (cv_validate_transaction_structure (H0 := entry_store_codec)
    (context_of one_output_db TicketPool_new) slashing_tx 5) = false.
Proof.
  apply (slashing_transaction_rejected (H0 := entry_store_codec)
    (context_of one_output_db TicketPool_new) (fun _ => Some []) [1] missed_vote sample_input 1000
    [0x51] 0 slashing_tx (sample_bincode slashing_tx) (TxOutput_new 1000 [0x51], 1, false));
    vm_compute; (reflexivity || (split; [reflexivity|discriminate])).
Defined.

Lemma voted_ticket_locked_witness :
  is_ok (check_redemption (mkValidationContext empty_db ConsensusParams_default
    (tp_run voted_pool [TpExpire 1000000; TpRevoke [1]]) ∅ no_state) [1]) = false.
Proof.
  apply (voted_ticket_locked (context_of empty_db voted_pool) [1] (pool_ticket Voted)
    [TpExpire 1000000; TpRevoke [1]]); vm_compute; reflexivity.
Defined.

(** A store whose block of height 5 is [chained_block]. *)
Definition chained_codec : StoreCodec := {|
  bincode_hash := Some;
  decode_hash := Some;
  decode_block _ := Some chained_block;
  bincode_u64 v := Some (to_le_bytes 8 v);
  decode_u64 b := Some (from_le_bytes b);
  decode_u32 b := Some (from_le_bytes b);
  bincode_outpoint o := Some (vout o :: txid o);
  decode_utxo _ := None;
  bincode_utxo_entry := entry_bytes;
  bincode_pool _ := Some [];
  bincode_utxo_set _ := Some [];
  bincode_proposals _ := Some [];
|}.

Definition chained_state : ConsensusState contents :=
  mkConsensusState {[ ("default"%string, height_key 5) := [7]; ("default"%string, block_key [7]) := [] ]}
    (mkGovernanceStore ∅ ∅ None) ∅.

Lemma spent_output_is_inconsistent_witness :
  utxo_of (H0 := chained_codec) applied_db (mkOutPoint (tx_hash first_tx) 0) = None /\
  is_ok (validate_utxo_set_consistency (H0 := chained_codec) applied_db chained_state 5) = false.
Proof.
  split; [vm_compute; reflexivity|].
  apply (spent_output_is_inconsistent (H0 := chained_codec) applied_db chained_state 5 5 chained_block
    first_tx (tx_hash first_tx) 0%nat);
    [done | done | vm_compute; reflexivity | left | reflexivity | cbn; lia | vm_compute; reflexivity].
Defined.
