(* ===== verification/ParameterManager.v ===== *)
(** Runtime parameter changes of the governance crate
    (src/rusty-governance/src/parameter_manager.rs).

    The manager knows the type and the range of every parameter, schedules the
    changes that passed a vote, applies them to the consensus parameters when
    their height comes, and undoes them when blocks are reverted.  Error strings
    are a type with one constructor per message.  The order in which a
    [HashMap] is visited is the order of [map_to_list]. *)

From Stdlib Require Import ZArith Lia List SpecFloat String Ascii.
From stdpp Require Import base option list numbers strings gmap.
From coqutil Require Import Datatypes.RecordSetters.
From S2P Require Import Prelude Types Errors Transaction F64 Params ChainState.

Import TriangleBracketNotations.

#[local] Open Scope Z_scope.

(** [hex::decode], a third-party function. *)
Class HexCodec : Type := { hex_decode : string -> option bytes; hex_encode : bytes -> string }.

(** * Data *)

Inductive ParameterValue : Type :=
| VU64 (v : Z)
| VU32 (v : Z)
| VF64 (v : f64)
| VBool (v : bool)
| VString (v : string)
| VBytes (v : bytes).

Inductive ParameterType : Type := TU64 | TU32 | TF64 | TBool | TString | TBytes.

Inductive ParameterCategory : Type :=
| Consensus | Economic | Network | Governance | Security | Performance.

#[export] Instance ParameterCategory_eq_dec : EqDecision ParameterCategory.
Proof. solve_decision. Defined.

Record ParameterChange : Type := mkParameterChange {
  parameter_name : string;
  old_value : ParameterValue;
  change_value : ParameterValue;
  change_proposal : Hash;
  activation_height : Z;
}.

Record ParameterMetadata : Type := mkParameterMetadata {
  metadata_name : string;
  param_type : ParameterType;
  description : string;
  min_value : option ParameterValue;
  max_value : option ParameterValue;
  requires_restart : bool;
  category : ParameterCategory;
}.

Inductive ParameterError : Type :=
| InvalidText (t : ParameterType) (text : string)
| NotAParameterChange
| MissingTargetParameter
| MissingNewValue
| UnknownParameter (name : string)
| BelowMinimum (v min : ParameterValue)
| AboveMaximum (v max : ParameterValue)
| ConflictingChange (name : string) (height : Z)
| InvalidValueType (name : string)
| NotConnected (name : string).

(** A handle of a shared allocation: handles with the same [arc_id] share it. *)
Record Arc (A : Type) : Type := mkArc { arc_id : Z; arc_value : A }.
Arguments mkArc {_} _ _.
Arguments arc_id {_} _.
Arguments arc_value {_} _.

Record ParameterManager : Type := mkParameterManager {
  parameter_registry : gmap string ParameterMetadata;
  pending_changes : gmap Hash ParameterChange;
  change_history : list ParameterChange;
  changes_by_height : gmap Z (list ParameterChange);
  pm_blockchain_state : option (Arc BlockchainState);
  pm_consensus_params : option (Arc ConsensusParams);
}.

Abbreviation pmR := (outcome ParameterError).

(** [str::parse::<bool>] *)
Definition parse_bool (s : string) : option bool :=
  if bool_decide (s = "true") then Some true
  else if bool_decide (s = "false") then Some false else None.

Definition parse_from_string `{HexCodec} (text : string) (t : ParameterType) : pmR ParameterValue :=
  ok_or
    match t with
    | TU64 => VU64 <$> parse_uint u64_max text
    | TU32 => VU32 <$> parse_uint u32_max text
    | TF64 => VF64 <$> parse_f64 text
    | TBool => VBool <$> parse_bool text
    | TString => Some (VString text)
    | TBytes => VBytes <$> hex_decode text
    end (InvalidText t text).

(** * The registry *)

Definition bounded (name : string) (t : ParameterType) (description : string)
    (min max : ParameterValue) (requires_restart : bool) (category : ParameterCategory) :
    ParameterMetadata :=
  mkParameterMetadata name t description (Some min) (Some max) requires_restart category.

Definition register_consensus_parameters : list ParameterMetadata := [
  bounded "min_block_time" TU64
    "Minimum time between blocks in seconds"
    (VU64 30) (VU64 3600) false Consensus;
  bounded "difficulty_adjustment_window" TU32
    "Number of blocks for difficulty adjustment"
    (VU32 10) (VU32 10000) false Consensus;
  bounded "halving_interval" TU64
    "Block interval for reward halving"
    (VU64 50000) (VU64 1000000) false Economic;
  bounded "max_block_size" TU64
    "Maximum block size in bytes"
    (VU64 1000000) (VU64 100000000) false Network;
  bounded "max_tx_size" TU64
    "Maximum transaction size in bytes"
    (VU64 1000) (VU64 10000000) false Network;
  bounded "coinbase_maturity" TU32
    "Coinbase maturity period in blocks"
    (VU32 1) (VU32 1000) false Consensus;
  bounded "dust_limit" TU64
    "Minimum value for transaction outputs in satoshis"
    (VU64 1) (VU64 100000) false Economic;
  bounded "grace_period_blocks" TU64
    "Grace period before non-participating tickets can be slashed"
    (VU64 10) (VU64 10000) false Consensus;
  bounded "slash_forgiveness_period" TU64
    "Period for repeated non-participation penalties"
    (VU64 100) (VU64 100000) false Consensus;
  bounded "malicious_behavior_slash_percentage" TF64
    "Percentage of ticket value burned for malicious behavior"
    (VF64 (f64_lit 1 10)) (VF64 (f64_lit 1 1)) false Security
].

Definition register_economic_parameters : list ParameterMetadata := [
  bounded "ticket_price" TU64
    "Base ticket price for PoS voting"
    (VU64 100000) (VU64 1000000000000) false Economic;
  bounded "min_stake" TU64
    "Required collateral for masternode registration"
    (VU64 100000000) (VU64 100000000000) false Economic;
  bounded "pos_reward_ratio" TF64
    "Percentage of block reward for PoS stakers"
    (VF64 (f64_lit 1 10)) (VF64 (f64_lit 9 10)) false Economic;
  bounded "initial_block_reward" TU64
    "Initial block reward in satoshis"
    (VU64 1000000) (VU64 100000000000) false Economic;
  bounded "ticket_maturity" TU32
    "Ticket maturity period in blocks"
    (VU32 1) (VU32 1000) false Economic;
  bounded "ticket_expiry" TU32
    "Ticket expiry period in blocks"
    (VU32 1000) (VU32 100000) false Economic;
  bounded "max_ticket_price" TU64
    "Maximum allowed ticket price"
    (VU64 1000000) (VU64 10000000000000) false Economic;
  bounded "min_ticket_price" TU64
    "Minimum allowed ticket price"
    (VU64 1000) (VU64 1000000000) false Economic
].

Definition register_network_parameters : list ParameterMetadata := [
  bounded "max_connections" TU32
    "Maximum number of peer connections"
    (VU32 8) (VU32 1000) true Network
].

Definition register_governance_parameters : list ParameterMetadata := [
  bounded "proposal_stake_amount" TU64
    "Required stake for governance proposals"
    (VU64 1000000000) (VU64 100000000000) false Governance;
  bounded "voting_period_blocks" TU64
    "Duration of governance voting period in blocks"
    (VU64 1000) (VU64 100000) false Governance;
  bounded "activation_delay_blocks" TU64
    "Delay between approval and activation"
    (VU64 100) (VU64 10000) false Governance;
  bounded "pos_voting_quorum_percentage" TF64
    "Required PoS voting quorum percentage"
    (VF64 (f64_lit 1 10)) (VF64 (f64_lit 1 1)) false Governance;
  bounded "mn_voting_quorum_percentage" TF64
    "Required masternode voting quorum percentage"
    (VF64 (f64_lit 1 10)) (VF64 (f64_lit 1 1)) false Governance;
  bounded "pos_approval_percentage" TF64
    "Required PoS approval percentage"
    (VF64 (f64_lit 5 10)) (VF64 (f64_lit 1 1)) false Governance;
  bounded "mn_approval_percentage" TF64
    "Required masternode approval percentage"
    (VF64 (f64_lit 5 10)) (VF64 (f64_lit 1 1)) false Governance
].

Definition register_security_parameters : list ParameterMetadata := [
  bounded "pose_challenge_period_blocks" TU64
    "Period between PoSe challenges"
    (VU64 10) (VU64 1000) false Security;
  bounded "max_pose_failures" TU32
    "Maximum PoSe failures before slashing"
    (VU32 1) (VU32 10) false Security
].

Definition register_parameter (metadata : ParameterMetadata) (m : ParameterManager) :
    ParameterManager :=
  m <| parameter_registry ::= <[metadata_name metadata := metadata]> |>.

Definition ParameterManager_new : ParameterManager :=
  foldl (fun m metadata => register_parameter metadata m)
    (mkParameterManager ∅ ∅ [] ∅ None None)
    (register_consensus_parameters ++ register_economic_parameters ++ register_network_parameters ++
     register_governance_parameters ++ register_security_parameters).

Definition connect_to_blockchain_state (state : Arc BlockchainState) (params : Arc ConsensusParams)
    (m : ParameterManager) : ParameterManager :=
  m <| pm_blockchain_state := Some state |> <| pm_consensus_params := Some params |>.

Definition new_with_blockchain_state (state : Arc BlockchainState) (params : Arc ConsensusParams) :
    ParameterManager :=
  connect_to_blockchain_state state params ParameterManager_new.

Definition update_consensus_params (params : Arc ConsensusParams) (m : ParameterManager) :
    ParameterManager :=
  m <| pm_consensus_params := Some params |>.

(** * Reading and writing one parameter *)

(** One arm of the [match] of [apply_parameter_change]: the type it expects and
    the field it writes. *)
Inductive arm : Type :=
| SetU64 (set : Z -> ConsensusParams -> ConsensusParams)
| SetU32 (set : Z -> ConsensusParams -> ConsensusParams)
| SetF64 (set : f64 -> ConsensusParams -> ConsensusParams).

Definition apply_arms : list (string * arm) := [
  ("min_block_time", SetU64 (fun v p => p <| min_block_time := v |>));
  ("difficulty_adjustment_window", SetU32 (fun v p => p <| difficulty_adjustment_window := v |>));
  ("halving_interval", SetU64 (fun v p => p <| halving_interval := v |>));
  ("max_block_size", SetU64 (fun v p => p <| max_block_size := v |>));
  ("max_tx_size", SetU64 (fun v p => p <| max_tx_size := v |>));
  ("coinbase_maturity", SetU32 (fun v p => p <| coinbase_maturity := v |>));
  ("dust_limit", SetU64 (fun v p => p <| dust_limit := v |>));
  ("grace_period_blocks", SetU64 (fun v p => p <| grace_period_blocks := v |>));
  ("slash_forgiveness_period", SetU64 (fun v p => p <| slash_forgiveness_period := v |>));
  ("malicious_behavior_slash_percentage", SetF64 (fun v p => p <| malicious_behavior_slash_percentage := v |>));
  ("ticket_price", SetU64 (fun v p => p <| ticket_price := v |>));
  ("min_stake", SetU64 (fun v p => p <| min_stake := v |>));
  ("pos_reward_ratio", SetF64 (fun v p => p <| pos_reward_ratio := v |>));
  ("initial_block_reward", SetU64 (fun v p => p <| initial_block_reward := v |>));
  ("ticket_maturity", SetU32 (fun v p => p <| ticket_maturity := v |>));
  ("ticket_expiry", SetU32 (fun v p => p <| ticket_expiry := v |>));
  ("max_ticket_price", SetU64 (fun v p => p <| max_ticket_price := v |>));
  ("min_ticket_price", SetU64 (fun v p => p <| min_ticket_price := v |>));
  ("proposal_stake_amount", SetU64 (fun v p => p <| proposal_stake_amount := v |>));
  ("voting_period_blocks", SetU64 (fun v p => p <| voting_period_blocks := v |>));
  ("activation_delay_blocks", SetU64 (fun v p => p <| activation_delay_blocks := v |>));
  ("pos_voting_quorum_percentage", SetF64 (fun v p => p <| pos_voting_quorum_percentage := v |>));
  ("mn_voting_quorum_percentage", SetF64 (fun v p => p <| mn_voting_quorum_percentage := v |>));
  ("pos_approval_percentage", SetF64 (fun v p => p <| pos_approval_percentage := v |>));
  ("mn_approval_percentage", SetF64 (fun v p => p <| mn_approval_percentage := v |>));
  ("pose_challenge_period_blocks", SetU64 (fun v p => p <| pose_challenge_period_blocks := v |>));
  ("max_pose_failures", SetU32 (fun v p => p <| max_pose_failures := v |>))
].

(** The arms of [get_current_parameter_value_from_live_consensus]. *)
Definition live_arms : list (string * (ConsensusParams -> ParameterValue)) := [
  ("min_block_time", fun p => VU64 (min_block_time p));
  ("difficulty_adjustment_window", fun p => VU32 (difficulty_adjustment_window p));
  ("halving_interval", fun p => VU64 (halving_interval p));
  ("max_block_size", fun p => VU64 (max_block_size p));
  ("max_tx_size", fun p => VU64 (max_tx_size p));
  ("coinbase_maturity", fun p => VU32 (coinbase_maturity p));
  ("dust_limit", fun p => VU64 (dust_limit p));
  ("grace_period_blocks", fun p => VU64 (grace_period_blocks p));
  ("slash_forgiveness_period", fun p => VU64 (slash_forgiveness_period p));
  ("malicious_behavior_slash_percentage", fun p => VF64 (malicious_behavior_slash_percentage p));
  ("ticket_price", fun p => VU64 (ticket_price p));
  ("min_stake", fun p => VU64 (min_stake p));
  ("pos_reward_ratio", fun p => VF64 (pos_reward_ratio p));
  ("initial_block_reward", fun p => VU64 (initial_block_reward p));
  ("ticket_maturity", fun p => VU32 (ticket_maturity p));
  ("ticket_expiry", fun p => VU32 (ticket_expiry p));
  ("max_ticket_price", fun p => VU64 (max_ticket_price p));
  ("min_ticket_price", fun p => VU64 (min_ticket_price p));
  ("proposal_stake_amount", fun p => VU64 (proposal_stake_amount p));
  ("voting_period_blocks", fun p => VU64 (voting_period_blocks p));
  ("activation_delay_blocks", fun p => VU64 (activation_delay_blocks p));
  ("pos_voting_quorum_percentage", fun p => VF64 (pos_voting_quorum_percentage p));
  ("mn_voting_quorum_percentage", fun p => VF64 (mn_voting_quorum_percentage p));
  ("pos_approval_percentage", fun p => VF64 (pos_approval_percentage p));
  ("mn_approval_percentage", fun p => VF64 (mn_approval_percentage p));
  ("pose_challenge_period_blocks", fun p => VU64 (pose_challenge_period_blocks p));
  ("max_pose_failures", fun p => VU32 (max_pose_failures p))
].

Definition assoc {A} (table : list (string * A)) (name : string) : option A :=
  snd <$> List.find (fun e => bool_decide (e.1 = name)) table.

Definition run_arm (a : arm) (v : ParameterValue) (p : ConsensusParams) : option ConsensusParams :=
  match a, v with
  | SetU64 set, VU64 v => Some (set v p)
  | SetU32 set, VU32 v => Some (set v p)
  | SetF64 set, VF64 v => Some (set v p)
  | _, _ => None
  end.

Definition pm_apply_parameter_change (change : ParameterChange) (p : ConsensusParams) :
    pmR ConsensusParams :=
  a ← ok_or (assoc apply_arms (parameter_name change)) (UnknownParameter (parameter_name change));
  ok_or (run_arm a (change_value change) p) (InvalidValueType (parameter_name change)).

Definition get_current_parameter_value_from_live_consensus (name : string) (p : ConsensusParams) :
    pmR ParameterValue :=
  get ← ok_or (assoc live_arms name) (UnknownParameter name);
  mret (get p).

Definition get_current_parameter_value_from_consensus (name : string) (p : ConsensusParams) :
    pmR ParameterValue :=
  get_current_parameter_value_from_live_consensus name p.

Definition get_current_parameter_value (m : ParameterManager) (name : string) : pmR ParameterValue :=
  match pm_consensus_params m with
  | Some p => get_current_parameter_value_from_live_consensus name (arc_value p)
  | None => Err (NotConnected name)
  end.

Definition f64_le (a b : f64) : bool := SFleb a b.

Definition is_value_greater_or_equal (value min : ParameterValue) : bool :=
  match value, min with
  | VU64 v, VU64 m | VU32 v, VU32 m => m <=? v
  | VF64 v, VF64 m => f64_ge v m
  | _, _ => false
  end.

Definition is_value_less_or_equal (value max : ParameterValue) : bool :=
  match value, max with
  | VU64 v, VU64 m | VU32 v, VU32 m => v <=? m
  | VF64 v, VF64 m => f64_le v m
  | _, _ => false
  end.

(** * Validating, scheduling, applying and undoing changes *)

Definition validate_parameter_change `{HexCodec} (m : ParameterManager) (proposal : Proposal)
    (p : ConsensusParams) : pmR ParameterChange :=
  if negb (bool_decide (proposal_type proposal = Types.ParameterChange))
  then Err NotAParameterChange else
  name ← ok_or (target_parameter proposal) MissingTargetParameter;
  text ← ok_or (new_value proposal) MissingNewValue;
  metadata ← ok_or (parameter_registry m !! name) (UnknownParameter name);
  v ← parse_from_string text (param_type metadata);
  _ ← match min_value metadata with
      | Some min => if negb (is_value_greater_or_equal v min) then Err (BelowMinimum v min) else mret tt
      | None => mret tt
      end;
  _ ← match max_value metadata with
      | Some max => if negb (is_value_less_or_equal v max) then Err (AboveMaximum v max) else mret tt
      | None => mret tt
      end;
  old ← get_current_parameter_value_from_consensus name p;
  mret (mkParameterChange name old v (proposal_id proposal) 0).

Definition conflicts (change : ParameterChange) (height : Z) (pending : ParameterChange) : bool :=
  bool_decide (parameter_name pending = parameter_name change) && (activation_height pending =? height).

Definition schedule_parameter_change (change : ParameterChange) (height : Z) :
    stM ParameterManager ParameterError unit := fun m =>
  let change := change <| activation_height := height |> in
  if existsb (fun e => conflicts change height e.2) (map_to_list (pending_changes m))
  then (m, Err (ConflictingChange (parameter_name change) height))
  else (m <| pending_changes ::= <[change_proposal change := change]> |>, Ok tt).

(** The manager and the consensus parameters, both borrowed mutably. *)
Abbreviation pmM := (stM (ParameterManager * ConsensusParams) ParameterError).

Definition ready (height : Z) (e : Hash * ParameterChange) : bool :=
  activation_height e.2 <=? height.

(** The body of the loop: the change leaves the pending ones before it is
    applied. *)
Definition apply_ready (height : Z) (applied : list ParameterChange) (id : Hash) :
    pmM (list ParameterChange) := fun '(m, p) =>
  match pending_changes m !! id with
  | None => ((m, p), Ok applied)
  | Some change =>
      let m := m <| pending_changes ::= delete id |> in
      match pm_apply_parameter_change change p with
      | Ok p =>
          (m <| change_history ::= (fun h => h ++ [change]) |>
             <| changes_by_height ::= partial_alter (fun l => Some (default [] l ++ [change])) height |>,
           p, Ok (applied ++ [change]))
      | Err e => ((m, p), Err e)
      | Panic => ((m, p), Panic)
      | OutOfFuel => ((m, p), OutOfFuel)
      end
  end.

Fixpoint apply_ready_list (height : Z) (applied : list ParameterChange) (ids : list Hash) :
    pmM (list ParameterChange) :=
  match ids with
  | [] => mret applied
  | id :: ids => applied ← apply_ready height applied id; apply_ready_list height applied ids
  end.

Definition apply_pending_changes (height : Z) : pmM (list ParameterChange) := fun s =>
  apply_ready_list height []
    (fst <$> List.filter (ready height) (map_to_list (pending_changes (fst s)))) s.

Definition revert (change : ParameterChange) (height : Z) : ParameterChange :=
  mkParameterChange (parameter_name change) (change_value change) (old_value change)
    (change_proposal change) height.

Definition undo_change (height : Z) (change : ParameterChange) : pmM unit := fun '(m, p) =>
  match pm_apply_parameter_change (revert change height) p with
  | Ok p => ((m, p), Ok tt)
  | Err e => ((m, p), Err e)
  | Panic => ((m, p), Panic)
  | OutOfFuel => ((m, p), OutOfFuel)
  end.

(** The entries of [changes_by_height] in iteration order. *)
Definition entries_from (from_height : Z) (m : ParameterManager) : list (Z * list ParameterChange) :=
  List.filter (fun e => from_height <=? e.1) (map_to_list (changes_by_height m)).

Definition rollback_changes_from_height (from_height : Z) : pmM (list ParameterChange) := fun s =>
  let found := entries_from from_height (fst s) in
  (for_each found (fun e => for_each e.2 (undo_change e.1));;
   modify (fun '(m, p) =>
     (m <| changes_by_height ::= (fun c => foldl (fun c e => delete e.1 c) c found) |>
        <| change_history ::= List.filter (fun c => activation_height c <? from_height) |>, p));;
   mret (List.concat (snd <$> found))) s.

Definition cancel_pending_change (id : Hash) (m : ParameterManager) :
    ParameterManager * option ParameterChange :=
  (m <| pending_changes ::= delete id |>, pending_changes m !! id).

(** * Queries *)

Definition get_parameter_metadata (m : ParameterManager) (name : string) : option ParameterMetadata :=
  parameter_registry m !! name.

Definition get_all_parameters (m : ParameterManager) : list ParameterMetadata :=
  snd <$> map_to_list (parameter_registry m).

Definition get_parameters_by_category (m : ParameterManager) (c : ParameterCategory) :
    list ParameterMetadata :=
  List.filter (fun meta => bool_decide (category meta = c)) (get_all_parameters m).

Definition get_changes_at_height (m : ParameterManager) (height : Z) : option (list ParameterChange) :=
  changes_by_height m !! height.

Definition get_changes_from_height (m : ParameterManager) (from_height : Z) : list ParameterChange :=
  List.concat (snd <$> entries_from from_height m).

(** [iter().min()] and [iter().max()] *)
Definition minimum (l : list Z) : option Z :=
  match l with [] => None | x :: l => Some (foldl Z.min x l) end.
Definition maximum (l : list Z) : option Z :=
  match l with [] => None | x :: l => Some (foldl Z.max x l) end.

Definition change_heights (m : ParameterManager) : list Z := fst <$> map_to_list (changes_by_height m).

Definition get_change_height_range (m : ParameterManager) : option (Z * Z) :=
  lo ← minimum (change_heights m); hi ← maximum (change_heights m); Some (lo, hi).

Definition pm_is_connected (m : ParameterManager) : bool :=
  bool_decide (is_Some (pm_blockchain_state m)) && bool_decide (is_Some (pm_consensus_params m)).

Definition pm_get_current_block_height `{StoreCodec} (m : ParameterManager) : option Z :=
  state ← pm_blockchain_state m;
  match get_current_block_height (arc_value state) with Ok h => Some h | _ => None end.

Record ParameterManagerStats : Type := mkParameterManagerStats {
  total_parameters : Z;
  stats_pending_changes : Z;
  applied_changes : Z;
  changes_by_height_count : Z;
  earliest_change_height : option Z;
  latest_change_height : option Z;
  parameters_by_category : ParameterCategory -> Z;
  is_connected : bool;
}.

Definition pm_get_stats (m : ParameterManager) : ParameterManagerStats :=
  mkParameterManagerStats (len (get_all_parameters m)) (len (map_to_list (pending_changes m)))
    (len (change_history m)) (len (map_to_list (changes_by_height m)))
    (minimum (change_heights m)) (maximum (change_heights m))
    (fun c => len (get_parameters_by_category m c)) (pm_is_connected m).

(** * Every parameter is a lens *)

Definition values (p : ConsensusParams) : list ParameterValue := (fun e => e.2 p) <$> live_arms.

(** The fields no parameter change reaches. *)
Definition fixed_part (p : ConsensusParams) :=
  (max_tickets_per_stake p, tickets_per_round p, reward_amount p, target_live_tickets p,
   price_adjustment_factor p, miner_address p, ticket_price_adjustment_period p,
   num_pose_challengers p, num_pose_targets_per_period p, pose_response_timeout_seconds p,
   reset_failures_period p, min_witness_signatures p, pos_finality_depth p, block_reward p,
   min_relay_tx_fee p, masternode_collateral_amount p, max_inactivity_blocks p,
   (protocol_upgrade_approval_percentage p, parameter_change_approval_percentage p,
    treasury_spend_approval_percentage p, bug_fix_approval_percentage p,
    community_fund_approval_percentage p)).

(** The arm writes the parameter that the reading arm of the same name reads,
    and nothing else. *)
Definition arm_lens (name : string) (a : arm) : Prop :=
  exists i get, live_arms !! i = Some (name, get) /\
  forall v p p', run_arm a v p = Some p' ->
    values p' = <[i := v]> (values p) /\ fixed_part p' = fixed_part p.

Ltac find_lens i :=
  first [ solve [exists i; eexists; split; [reflexivity|];
                 intros [] p p' E; try discriminate E; injection E as <-; split; reflexivity]
        | find_lens (S i) ].

Lemma apply_arms_lens : Forall (fun e => arm_lens e.1 e.2) apply_arms.
Proof. repeat apply Forall_cons_2; [..|by apply Forall_nil_2]; cbn [fst snd]; find_lens 0%nat. Qed.

Lemma values_ext p q : values p = values q -> fixed_part p = fixed_part q -> p = q.
Proof.
  destruct p, q. unfold values, fixed_part. cbn. intros E1 E2.
  injection E1 as; injection E2 as; subst; reflexivity.
Qed.

Lemma assoc_in {A} (table : list (string * A)) name a :
  assoc table name = Some a -> (name, a) ∈ table.
Proof.
  unfold assoc. destruct (List.find _ table) as [[n b]|] eqn:E; [|done]. cbn. intros [= <-].
  apply find_some in E as [Hin Hn]. apply bool_decide_eq_true in Hn. cbn in Hn. subst.
  by apply list_elem_of_In.
Qed.

Lemma assoc_lookup {A} (table : list (string * A)) i name a :
  NoDup table.*1 -> table !! i = Some (name, a) -> assoc table name = Some a.
Proof.
  revert i. induction table as [|[n b] table IH]; intros i Hnd Hi; [done|].
  unfold assoc. cbn. destruct i as [|i].
  - cbn in Hi. simplify_eq. by rewrite bool_decide_eq_true_2.
  - cbn in Hi. apply NoDup_cons in Hnd as [Hn Hnd]. rewrite bool_decide_eq_false_2.
    + exact (IH i Hnd Hi).
    + cbn. intros ->. apply Hn. apply list_elem_of_fmap. exists (name, a). split; [done|].
      by eapply list_elem_of_lookup_2.
Qed.

Lemma live_arms_nodup : NoDup live_arms.*1.
Proof. apply (bool_decide_unpack _). vm_compute. exact I. Qed.

Abbreviation read := get_current_parameter_value_from_live_consensus.

Lemma read_lookup i name get p : live_arms !! i = Some (name, get) -> read name p = Ok (get p).
Proof.
  intros Hi. unfold get_current_parameter_value_from_live_consensus.
  by rewrite (assoc_lookup _ _ _ _ live_arms_nodup Hi).
Qed.

Lemma read_inv name p v :
  read name p = Ok v -> exists i get, live_arms !! i = Some (name, get) /\ v = get p.
Proof.
  unfold get_current_parameter_value_from_live_consensus. intros E.
  destruct (assoc live_arms name) as [get|] eqn:Ea; [|done]. cbn in E. injection E as <-.
  apply assoc_in, list_elem_of_lookup_1 in Ea as [i Hi]. by exists i, get.
Qed.

Lemma apply_change_inv c p p' :
  pm_apply_parameter_change c p = Ok p' ->
  exists a, assoc apply_arms (parameter_name c) = Some a /\ run_arm a (change_value c) p = Some p'.
Proof.
  unfold pm_apply_parameter_change. intros E.
  destruct (assoc apply_arms _) as [a|]; [|done]. cbn in E.
  destruct (run_arm a (change_value c) p) as [q|] eqn:Er; [|done]. cbn in E. simplify_eq. eauto.
Qed.

(** Applying a change sets its parameter and nothing else. *)
Lemma apply_change_spec c p p' :
  pm_apply_parameter_change c p = Ok p' ->
  read (parameter_name c) p' = Ok (change_value c) /\
  (forall name, name <> parameter_name c -> read name p' = read name p) /\
  fixed_part p' = fixed_part p.
Proof.
  intros (a & Ha & Hr)%apply_change_inv. apply assoc_in in Ha.
  destruct (proj1 (Forall_forall _ _) apply_arms_lens _ Ha) as (i & get & Hi & Hlens).
  destruct (Hlens _ _ _ Hr) as [Hv Hf]. cbn in Hi.
  assert (Hval : forall j n g q, live_arms !! j = Some (n, g) -> values q !! j = Some (g q)).
  { intros j n g q Hj. unfold values. by rewrite list_lookup_fmap, Hj. }
  split_and!; [| |done].
  - rewrite (read_lookup _ _ _ _ Hi). f_equal.
    pose proof (Hval _ _ _ p' Hi) as E. rewrite Hv, list_lookup_insert_eq in E; [congruence|].
    by eapply lookup_lt_Some, Hval.
  - intros name Hn. unfold get_current_parameter_value_from_live_consensus.
    destruct (assoc live_arms name) as [g|] eqn:Eg; [|done]. cbn.
    apply assoc_in, list_elem_of_lookup_1 in Eg as [j Hj].
    pose proof (Hval _ _ _ p' Hj) as E. rewrite Hv, list_lookup_insert_ne in E by congruence.
    rewrite (Hval _ _ _ p Hj) in E. congruence.
Qed.

(** Two parameter sets that read the same are the same. *)
Lemma read_ext p q :
  (forall name, read name p = read name q) -> fixed_part p = fixed_part q -> p = q.
Proof.
  intros Hr Hf. apply values_ext; [|done]. apply list_eq. intros i. unfold values.
  rewrite !list_lookup_fmap. destruct (live_arms !! i) as [[name get]|] eqn:Hi; [|done]. cbn.
  pose proof (Hr name) as E. rewrite !(read_lookup _ _ _ _ Hi) in E. congruence.
Qed.

(** * Ranges *)

Definition in_range (meta : ParameterMetadata) (v : ParameterValue) : bool :=
  match min_value meta with Some min => is_value_greater_or_equal v min | None => true end &&
  match max_value meta with Some max => is_value_less_or_equal v max | None => true end.

Definition registry : gmap string ParameterMetadata := parameter_registry ParameterManager_new.

(** The value is allowed for the parameter of this name. *)
Definition allowed (name : string) (v : ParameterValue) : bool :=
  match registry !! name with Some meta => in_range meta v | None => false end.

Definition params_in_range (p : ConsensusParams) : Prop :=
  forall name v, read name p = Ok v -> allowed name v = true.

Definition arm_type (a : arm) : ParameterType :=
  match a with SetU64 _ => TU64 | SetU32 _ => TU32 | SetF64 _ => TF64 end.

Definition value_type (v : ParameterValue) : ParameterType :=
  match v with
  | VU64 _ => TU64 | VU32 _ => TU32 | VF64 _ => TF64
  | VBool _ => TBool | VString _ => TString | VBytes _ => TBytes
  end.

#[export] Instance ParameterType_eq_dec : EqDecision ParameterType.
Proof. solve_decision. Defined.

(** The registry, the reading arms and the writing arms agree on types. *)
Definition tables_agree (e : string * (ConsensusParams -> ParameterValue)) : bool :=
  match registry !! e.1, assoc apply_arms e.1 with
  | Some meta, Some a =>
      match min_value meta with
      | Some min =>
          bool_decide (arm_type a = value_type min) &&
          bool_decide (arm_type a = value_type (e.2 ConsensusParams_default))
      | None => false
      end
  | _, _ => false
  end.

Lemma all_tables_agree : forallb tables_agree live_arms = true.
Proof. vm_compute. reflexivity. Qed.

Lemma run_arm_typed a v p : arm_type a = value_type v -> is_Some (run_arm a v p).
Proof. destruct a, v; cbn; intros; simplify_eq; eauto. Qed.

Lemma in_range_typed v min : is_value_greater_or_equal v min = true -> value_type v = value_type min.
Proof. by destruct v, min. Qed.

Lemma live_arm_type : Forall (fun e => forall p q, value_type (e.2 p) = value_type (e.2 q)) live_arms.
Proof. repeat apply Forall_cons_2; [..|by apply Forall_nil_2]; reflexivity. Qed.

(** A parameter that can be read can be written, with a value of the same type
    or any allowed value. *)
Lemma readable_applies c p w q :
  read (parameter_name c) q = Ok w ->
  value_type (change_value c) = value_type w \/ allowed (parameter_name c) (change_value c) = true ->
  exists p', pm_apply_parameter_change c p = Ok p'.
Proof.
  intros (i & get & Hi & ->)%read_inv Hc.
  assert (Hel : (parameter_name c, get) ∈ live_arms) by (by eapply list_elem_of_lookup_2).
  pose proof (proj1 (Forall_forall _ _) live_arm_type _ Hel) as Hq. cbn in Hq.
  pose proof (proj1 (forallb_forall _ _) all_tables_agree _ (proj1 (list_elem_of_In _ _) Hel)) as Ht.
  unfold tables_agree in Ht. cbn [fst snd] in Ht. unfold allowed in Hc. unfold pm_apply_parameter_change.
  destruct (registry !! parameter_name c) as [meta|]; [|done].
  destruct (assoc apply_arms (parameter_name c)) as [a|]; [|done]. unfold in_range in Hc.
  destruct (min_value meta) as [min|]; [|done]. apply andb_prop in Ht as [Hmin Hdef].
  apply bool_decide_eq_true in Hmin, Hdef.
  assert (Ht : arm_type a = value_type (change_value c)).
  { destruct Hc as [Hc|Hc].
    - rewrite Hc, Hdef. apply Hq.
    - apply andb_prop in Hc as [Hlo _]. apply in_range_typed in Hlo. congruence. }
  destruct (run_arm_typed a (change_value c) p Ht) as [p' Hp']. exists p'. cbn. by rewrite Hp'.
Qed.

Lemma revert_restores c p p' h :
  read (parameter_name c) p = Ok (old_value c) -> pm_apply_parameter_change c p = Ok p' ->
  pm_apply_parameter_change (revert c h) p' = Ok p.
Proof.
  intros Hold Happ. destruct (apply_change_spec _ _ _ Happ) as (Hv & Ho & Hf).
  destruct (readable_applies (revert c h) p' _ _ Hold (or_introl eq_refl)) as [q Hq].
  rewrite Hq. f_equal. destruct (apply_change_spec _ _ _ Hq) as (Hv' & Ho' & Hf'). cbn in Hv', Ho'.
  apply read_ext; [|congruence]. intros name.
  destruct (decide (name = parameter_name c)) as [->|Hn]; [congruence|].
  by rewrite Ho', Ho.
Qed.

(** What [validate_parameter_change] lets through can be applied, and does what
    the proposal says: the new value lies in the registered range, the named
    parameter gets it, no other parameter changes, and applying the change with
    the recorded old value restores the parameters. *)
Theorem validated_change_applies `{HexCodec} m proposal p c :
  parameter_registry m = registry -> validate_parameter_change m proposal p = Ok c ->
  target_parameter proposal = Some (parameter_name c) /\
  allowed (parameter_name c) (change_value c) = true /\
  exists p', pm_apply_parameter_change c p = Ok p' /\
    read (parameter_name c) p' = Ok (change_value c) /\
    (forall name, name <> parameter_name c -> read name p' = read name p) /\
    fixed_part p' = fixed_part p /\
    forall h, pm_apply_parameter_change (revert c h) p' = Ok p.
Proof.
  intros Hreg. unfold validate_parameter_change. destruct (negb _); [done|].
  destruct (target_parameter proposal) as [name|]; [|done]. cbn.
  destruct (new_value proposal) as [text|]; [|done]. cbn. rewrite Hreg.
  destruct (registry !! name) as [meta|] eqn:Em; [|done]. cbn.
  intros (v & Hv & E)%outcome_bind_inv.
  apply outcome_bind_inv in E as ([] & Hmin & E). apply outcome_bind_inv in E as ([] & Hmax & E).
  apply outcome_bind_inv in E as (old & Hold & E). injection E as <-. cbn.
  assert (Hal : allowed name v = true).
  { unfold allowed. rewrite Em. unfold in_range.
    destruct (min_value meta); [destruct (is_value_greater_or_equal v _); [|done]|];
      (destruct (max_value meta); [destruct (is_value_less_or_equal v _); [|done]|]); done. }
  split_and!; [done..|]. unfold get_current_parameter_value_from_consensus in Hold.
  set (c := mkParameterChange name old v (proposal_id proposal) 0).
  destruct (readable_applies c p old p Hold (or_intror Hal)) as [p' Hp'].
  destruct (apply_change_spec _ _ _ Hp') as (? & ? & ?).
  exists p'. split_and!; [done..|]. intros h. exact (revert_restores c p p' h Hold Hp').
Qed.

(** * Every reachable parameter set is in range *)

(** A change that [validate_parameter_change] can have produced from parameters
    in range. *)
Definition good_change (c : ParameterChange) : Prop :=
  (exists q w, read (parameter_name c) q = Ok w) /\
  allowed (parameter_name c) (change_value c) = true /\
  allowed (parameter_name c) (old_value c) = true.

Definition pm_inv (s : ParameterManager * ConsensusParams) : Prop :=
  parameter_registry (fst s) = registry /\
  map_Forall (fun _ c => good_change c) (pending_changes (fst s)) /\
  map_Forall (fun _ l => Forall good_change l) (changes_by_height (fst s)) /\
  params_in_range (snd s).

Inductive pm_op : Type :=
| OpPropose (proposal : Proposal) (height : Z)
| OpApply (height : Z)
| OpRollback (from_height : Z)
| OpCancel (id : Hash).

(** A proposal that passed is validated against the current parameters and then
    scheduled, as [process_ended_proposals] does. *)
Definition pm_step `{HexCodec} (s : ParameterManager * ConsensusParams) (op : pm_op) :
    ParameterManager * ConsensusParams :=
  match op with
  | OpPropose proposal height =>
      match validate_parameter_change (fst s) proposal (snd s) with
      | Ok c => (fst (schedule_parameter_change c height (fst s)), snd s)
      | _ => s
      end
  | OpApply height => fst (apply_pending_changes height s)
  | OpRollback from_height => fst (rollback_changes_from_height from_height s)
  | OpCancel id => (fst (cancel_pending_change id (fst s)), snd s)
  end.

Definition pm_run `{HexCodec} : ParameterManager * ConsensusParams -> list pm_op ->
    ParameterManager * ConsensusParams := foldl pm_step.

Lemma good_apply c p :
  good_change c -> params_in_range p ->
  exists p', pm_apply_parameter_change c p = Ok p' /\ params_in_range p'.
Proof.
  intros ((q & w & Hq) & Hal & _) Hp.
  destruct (readable_applies c p w q Hq (or_intror Hal)) as [p' Hp'].
  exists p'. split; [done|]. destruct (apply_change_spec _ _ _ Hp') as (Hv & Ho & _).
  intros name v Hr. destruct (decide (name = parameter_name c)) as [->|Hn]; [congruence|].
  rewrite Ho in Hr by done. by apply Hp.
Qed.

Lemma good_revert c h : good_change c -> good_change (revert c h).
Proof. intros (Hq & Hn & Ho). exact (conj Hq (conj Ho Hn)). Qed.

Lemma apply_ready_inv height applied id s :
  pm_inv s -> pm_inv (fst (apply_ready height applied id s)) /\
  is_ok (snd (apply_ready height applied id s)) = true.
Proof.
  destruct s as [m p]. intros (Hreg & Hpend & Hby & Hp). unfold apply_ready. cbn [fst snd] in *.
  destruct (pending_changes m !! id) as [c|] eqn:Ec; [|by split].
  pose proof (Hpend _ _ Ec) as Hc. destruct (good_apply c p Hc Hp) as (p' & -> & Hp').
  cbn [fst snd]. split; [|done]. split_and!; [done|by apply map_Forall_delete| |done].
  cbn. intros h l Hl. destruct (decide (h = height)) as [->|Hh].
  - rewrite lookup_partial_alter_eq in Hl. injection Hl as <-.
    assert (Hl : Forall good_change (default [] (changes_by_height m !! height))).
    { destruct (changes_by_height m !! height) as [l'|] eqn:El; [exact (Hby _ _ El)|constructor]. }
    apply Forall_app. split; [exact Hl|by constructor].
  - rewrite lookup_partial_alter_ne in Hl by done. exact (Hby _ _ Hl).
Qed.

Lemma apply_list_inv height ids applied s :
  pm_inv s -> pm_inv (fst (apply_ready_list height applied ids s)) /\
  is_ok (snd (apply_ready_list height applied ids s)) = true.
Proof.
  revert applied s. induction ids as [|id ids IH]; intros applied s Hs; [by split|].
  cbn [apply_ready_list]. rewrite stM_bind_run.
  destruct (apply_ready_inv height applied id s Hs) as [Hi Ho].
  destruct (apply_ready height applied id s) as [s' [l| | |]]; try discriminate Ho. by apply IH.
Qed.

Lemma undo_inv height c s :
  good_change c -> pm_inv s ->
  pm_inv (fst (undo_change height c s)) /\ snd (undo_change height c s) = Ok tt /\
  fst (fst (undo_change height c s)) = fst s.
Proof.
  destruct s as [m p]. intros Hc (Hreg & Hpend & Hby & Hp). unfold undo_change.
  destruct (good_apply _ p (good_revert c height Hc) Hp) as (p' & -> & Hp'). by split_and!.
Qed.

Lemma undo_list_inv height l s :
  Forall good_change l -> pm_inv s ->
  pm_inv (fst (for_each l (undo_change height) s)) /\
  snd (for_each l (undo_change height) s) = Ok tt /\
  fst (fst (for_each l (undo_change height) s)) = fst s.
Proof.
  revert s. induction l as [|c l IH]; intros s Hl Hs; [by split_and!|].
  apply Forall_cons in Hl as [Hc Hl]. cbn [for_each]. rewrite stM_bind_run.
  destruct (undo_inv height c s Hc Hs) as (Hi & Ho & Hm).
  destruct (undo_change height c s) as [s' r]. cbn in Hi, Ho, Hm. subst r.
  destruct (IH s' Hl Hi) as (? & ? & ?). split_and!; [done..|congruence].
Qed.

Lemma undo_entries_inv es s :
  Forall (fun e => Forall good_change e.2) es -> pm_inv s ->
  let r := for_each es (fun e : Z * list ParameterChange => for_each e.2 (undo_change e.1)) s in
  pm_inv (fst r) /\ snd r = Ok tt /\ fst (fst r) = fst s.
Proof.
  revert s. induction es as [|[h l] es IH]; intros s Hes Hs; [by split_and!|].
  apply Forall_cons in Hes as [Hl Hes]. cbn [for_each fst snd]. rewrite stM_bind_run.
  destruct (undo_list_inv h l s Hl Hs) as (Hi & Ho & Hm).
  destruct (for_each l (undo_change h) s) as [s' r]. cbn in Hi, Ho, Hm. subst r.
  destruct (IH s' Hes Hi) as (? & ? & ?). split_and!; [done..|congruence].
Qed.

Lemma entries_from_good h m :
  map_Forall (fun _ l => Forall good_change l) (changes_by_height m) ->
  Forall (fun e => Forall good_change e.2) (entries_from h m).
Proof.
  intros Hm. apply Forall_forall. intros [k l] Hel.
  apply list_elem_of_In, filter_In in Hel as [Hel _].
  apply list_elem_of_In, elem_of_map_to_list in Hel. exact (Hm _ _ Hel).
Qed.

Lemma foldl_delete_lookup {A} (es : list (Z * A)) (c : gmap Z A) k v :
  foldl (fun c e => delete e.1 c) c es !! k = Some v -> c !! k = Some v.
Proof.
  revert c. induction es as [|[h w] es IH]; intros c E; [done|]. cbn in E.
  apply IH in E. by apply lookup_delete_Some in E as [_ E].
Qed.

Lemma rollback_inv h s :
  pm_inv s -> pm_inv (fst (rollback_changes_from_height h s)) /\
  is_ok (snd (rollback_changes_from_height h s)) = true.
Proof.
  intros Hs. unfold rollback_changes_from_height.
  assert (Hes := entries_from_good h (fst s) (proj1 (proj2 (proj2 Hs)))).
  destruct (undo_entries_inv _ _ Hes Hs) as (Hi & Ho & Hm). rewrite stM_bind_run.
  destruct (for_each (entries_from h (fst s)) _ s) as [[m p] r]. cbn in Hi, Ho, Hm. subst r.
  split; [|done]. destruct Hi as (Hreg & Hpend & Hby & Hp). split_and!; [done..| |done].
  cbn. intros k l Hl. apply foldl_delete_lookup in Hl. exact (Hby _ _ Hl).
Qed.

Lemma schedule_inv c h m p :
  good_change c -> pm_inv (m, p) -> pm_inv (fst (schedule_parameter_change c h m), p).
Proof.
  intros Hc (Hreg & Hpend & Hby & Hp). unfold schedule_parameter_change.
  destruct (existsb _ _); [done|]. split_and!; [done| |done..]. by apply map_Forall_insert_2.
Qed.

Lemma pm_step_inv `{HexCodec} s op : pm_inv s -> pm_inv (pm_step s op).
Proof.
  intros Hs. destruct op as [proposal h|h|h|id]; cbn [pm_step].
  - destruct (validate_parameter_change (fst s) proposal (snd s)) as [c| | |] eqn:Ev; try done.
    destruct (validated_change_applies _ _ _ _ (proj1 Hs) Ev) as (_ & Hal & p' & Hp' & Hv & Ho & Hf & Hr).
    destruct s as [m p]. apply schedule_inv; [|done]. split_and!; [eauto|done|].
    pose proof (apply_change_spec _ _ _ (Hr 0)) as (Hold & _). apply (proj2 (proj2 (proj2 Hs))).
    exact Hold.
  - by apply apply_list_inv.
  - by apply rollback_inv.
  - destruct s as [m p], Hs as (Hreg & Hpend & Hby & Hp).
    split_and!; [done|by apply map_Forall_delete|done..].
Qed.

(** The parameters never leave their ranges: along every sequence of passed
    proposals, applications, rollbacks and cancellations, starting from
    parameters in range, every readable parameter stays in its registered range,
    and applying or rolling back never fails. *)
Theorem parameters_stay_in_range `{HexCodec} p ops :
  params_in_range p ->
  params_in_range (snd (pm_run (ParameterManager_new, p) ops)) /\
  (forall h, is_ok (snd (apply_pending_changes h (pm_run (ParameterManager_new, p) ops))) = true) /\
  (forall h, is_ok (snd (rollback_changes_from_height h (pm_run (ParameterManager_new, p) ops))) = true).
Proof.
  intros Hp.
  assert (Hinv : pm_inv (pm_run (ParameterManager_new, p) ops)).
  { unfold pm_run. apply foldl_inv; [|intros; by apply pm_step_inv]. split_and!; [done|apply map_Forall_empty..|done]. }
  split_and!; [apply Hinv| |]; intros h; [by apply apply_list_inv|by apply rollback_inv].
Qed.

(** * Rolling back what was just applied *)

Fixpoint apply_all (cs : list ParameterChange) (p : ConsensusParams) : pmR ConsensusParams :=
  match cs with
  | [] => Ok p
  | c :: cs => p ← pm_apply_parameter_change c p; apply_all cs p
  end.

Lemma apply_all_spec cs p p' :
  NoDup (parameter_name <$> cs) -> apply_all cs p = Ok p' ->
  (forall c, c ∈ cs -> read (parameter_name c) p' = Ok (change_value c)) /\
  (forall name, name ∉ parameter_name <$> cs -> read name p' = read name p) /\
  fixed_part p' = fixed_part p.
Proof.
  revert p. induction cs as [|c cs IH]; intros p Hnd E; cbn in E.
  { injection E as <-. split_and!; [|done..]. by intros c ?%elem_of_nil. }
  apply NoDup_cons in Hnd as [Hc Hnd]. apply outcome_bind_inv in E as (q & Hq & E).
  destruct (IH q Hnd E) as (Hin & Hout & Hf). destruct (apply_change_spec _ _ _ Hq) as (Hv & Ho & Hfq).
  split_and!; [| |congruence].
  - intros d [->|Hd]%elem_of_cons; [|by apply Hin]. by rewrite Hout, Hv.
  - intros name [Hn1 Hn2]%not_elem_of_cons. rewrite Hout, Ho; done.
Qed.

Lemma apply_all_total cs p :
  Forall (fun c => exists q w, read (parameter_name c) q = Ok w /\
                               value_type (change_value c) = value_type w) cs ->
  exists p', apply_all cs p = Ok p'.
Proof.
  revert p. induction cs as [|c cs IH]; intros p Hcs; [by eexists|].
  apply Forall_cons in Hcs as [(q & w & Hq & Ht) Hcs].
  destruct (readable_applies c p w q Hq (or_introl Ht)) as [p1 Hp1]. cbn. rewrite Hp1.
  exact (IH p1 Hcs).
Qed.

Lemma apply_list_spec height es applied m p s r :
  NoDup es.*1 -> Forall (fun e => pending_changes m !! e.1 = Some e.2) es ->
  apply_ready_list height applied es.*1 (m, p) = (s, Ok r) ->
  r = applied ++ es.*2 /\ apply_all es.*2 p = Ok (snd s) /\
  changes_by_height (fst s) =
    match es with
    | [] => changes_by_height m
    | _ => <[height := default [] (changes_by_height m !! height) ++ es.*2]> (changes_by_height m)
    end /\
  pending_changes (fst s) = foldl (fun c e => delete e.1 c) (pending_changes m) es /\
  change_history (fst s) = change_history m ++ es.*2.
Proof.
  revert applied m p. induction es as [|[id c] es IH]; intros applied m p Hnd Hes E.
  { cbn in E. injection E as <- <-. cbn. by rewrite !app_nil_r. }
  apply NoDup_cons in Hnd as [Hid Hnd]. apply Forall_cons in Hes as [Hc Hes]. cbn in Hid, Hc.
  cbn [apply_ready_list fmap list_fmap fst] in E. rewrite stM_bind_run in E.
  unfold apply_ready at 1 in E. rewrite Hc in E.
  destruct (pm_apply_parameter_change c p) as [q| | |] eqn:Hq; try discriminate E.
  set (m1 := _ <| changes_by_height ::= _ |>) in E.
  assert (Hes1 : Forall (fun e => pending_changes m1 !! e.1 = Some e.2) es).
  { apply Forall_forall. intros e Hel. cbn. rewrite lookup_delete_ne.
    - exact (proj1 (Forall_forall _ _) Hes e Hel).
    - intros ->. apply Hid. apply list_elem_of_fmap. by exists e. }
  destruct (IH _ m1 q Hnd Hes1 E) as (-> & Hp & Hby & Hpend & Hhist).
  split_and!; [by rewrite <- app_assoc|cbn; by rewrite Hq| |exact Hpend|rewrite Hhist; unfold m1; cbn; by rewrite <- app_assoc].
  rewrite Hby. unfold m1. cbn. apply map_eq. intros k. destruct es as [|e es].
  - destruct (decide (k = height)) as [->|Hk].
    + by rewrite lookup_partial_alter_eq, lookup_insert_eq.
    + by rewrite lookup_partial_alter_ne, lookup_insert_ne.
  - rewrite lookup_partial_alter_eq. cbn. destruct (decide (k = height)) as [->|Hk].
    + rewrite !lookup_insert_eq. by rewrite <- app_assoc.
    + by rewrite !lookup_insert_ne, lookup_partial_alter_ne.
Qed.

Lemma undo_list_run height cs m p q :
  apply_all ((fun c => revert c height) <$> cs) p = Ok q ->
  for_each cs (undo_change height) (m, p) = ((m, q), Ok tt).
Proof.
  revert p. induction cs as [|c cs IH]; intros p E; cbn in E; [by injection E as <-|].
  apply outcome_bind_inv in E as (p1 & Hp1 & E). cbn [for_each]. rewrite stM_bind_run.
  unfold undo_change at 1. rewrite Hp1. exact (IH p1 E).
Qed.

(** Undoing distinct changes, in whatever order they were made, restores the
    parameters. *)
Lemma undo_all cs p p' height :
  NoDup (parameter_name <$> cs) ->
  Forall (fun c => read (parameter_name c) p = Ok (old_value c)) cs ->
  apply_all cs p = Ok p' -> apply_all ((fun c => revert c height) <$> cs) p' = Ok p.
Proof.
  intros Hnd Hold E. destruct (apply_all_spec _ _ _ Hnd E) as (Hin & Hout & Hf).
  assert (Hn : parameter_name <$> ((fun c => revert c height) <$> cs) = parameter_name <$> cs).
  { rewrite <- list_fmap_compose. done. }
  destruct (apply_all_total ((fun c => revert c height) <$> cs) p') as [q Hq].
  { apply Forall_fmap. eapply Forall_impl; [exact Hold|]. intros c Hc. exists p, (old_value c). done. }
  rewrite Hq. f_equal.
  rewrite <- Hn in Hnd. destruct (apply_all_spec _ _ _ Hnd Hq) as (Hin' & Hout' & Hf').
  rewrite Hn in Hout'. apply read_ext; [|congruence]. intros name.
  destruct (decide (name ∈ parameter_name <$> cs)) as [Hel|Hel]; [|by rewrite Hout', Hout].
  apply list_elem_of_fmap in Hel as (c & -> & Hc).
  rewrite (proj1 (Forall_forall _ _) Hold _ Hc).
  apply (Hin' (revert c height)). apply list_elem_of_fmap. by exists c.
Qed.

Lemma filter_none {A} (f : A -> bool) (l : list A) : (forall x, x ∈ l -> f x = false) -> List.filter f l = [].
Proof.
  induction l as [|x l IH]; intros Hl; [done|]. cbn. rewrite (Hl x) by left.
  apply IH. intros y Hy. apply Hl. by right.
Qed.

Lemma list_filter_perm {A} (f : A -> bool) (l k : list A) : l ≡ₚ k -> List.filter f l ≡ₚ List.filter f k.
Proof.
  induction 1 as [|x l k _ IH|x y l|l1 l2 l3 _ IH1 _ IH2]; cbn; [done| | |by rewrite IH1].
  - destruct (f x); by rewrite IH.
  - destruct (f x), (f y); (done || apply perm_swap).
Qed.

Lemma filter_keys_nodup {A B} (f : A * B -> bool) (l : list (A * B)) :
  NoDup l.*1 -> NoDup (List.filter f l).*1.
Proof.
  induction l as [|x l IH]; intros Hnd; [done|]. apply NoDup_cons in Hnd as [Hx Hnd]. cbn.
  destruct (f x); [|by apply IH]. cbn. apply NoDup_cons. split; [|by apply IH].
  intros (y & Hy & Hel)%list_elem_of_fmap. apply Hx. rewrite Hy. apply list_elem_of_fmap. exists y.
  split; [done|]. apply list_elem_of_In, filter_In in Hel as [Hel _]. by apply list_elem_of_In.
Qed.

Lemma entries_from_none h m :
  (forall k, h <= k -> changes_by_height m !! k = None) -> entries_from h m = [].
Proof.
  intros Hm. apply filter_none. intros [k l] Hel%elem_of_map_to_list. cbn.
  apply Z.leb_gt. destruct (Z.lt_ge_cases k h); [done|]. rewrite Hm in Hel by done. done.
Qed.

Lemma entries_from_insert h l m c :
  (forall k, h <= k -> c !! k = None) -> changes_by_height m = <[h := l]> c -> entries_from h m = [(h, l)].
Proof.
  intros Hc Hm. unfold entries_from. apply Permutation_singleton_r.
  rewrite Hm, (list_filter_perm _ _ _ (map_to_list_insert c h l (Hc h ltac:(lia)))).
  cbn. rewrite Z.leb_refl. apply perm_skip. rewrite filter_none; [done|].
  intros [k w] Hel%elem_of_map_to_list. cbn. apply Z.leb_gt.
  destruct (Z.lt_ge_cases k h); [done|]. rewrite Hc in Hel by done. done.
Qed.

Lemma foldl_delete_pending (es : list (Hash * ParameterChange)) (c : gmap Hash ParameterChange) id d :
  foldl (fun c e => delete e.1 c) c es !! id = Some d <-> c !! id = Some d /\ id ∉ es.*1.
Proof.
  revert c. induction es as [|e es IH]; intros c; cbn.
  - split; [|by intros [? _]]. intros E. split; [done|by apply not_elem_of_nil].
  - rewrite IH, lookup_delete_Some, not_elem_of_cons. naive_solver.
Qed.

Lemma rollback_run h m p q :
  for_each (entries_from h m) (fun e => for_each e.2 (undo_change e.1)) (m, p) = ((m, q), Ok tt) ->
  exists m'', rollback_changes_from_height h (m, p) =
      ((m'', q), Ok (List.concat (snd <$> entries_from h m))) /\
    changes_by_height m'' = foldl (fun c e => delete e.1 c) (changes_by_height m) (entries_from h m) /\
    pending_changes m'' = pending_changes m /\
    change_history m'' = List.filter (fun c => activation_height c <? h) (change_history m).
Proof.
  intros E. unfold rollback_changes_from_height. cbn [fst]. rewrite stM_bind_run, E.
  eexists. split; [reflexivity|]. by destruct m.
Qed.

(** C40. Rolling back the height that applied changes restores the parameters
    and the record of changes by height, if nothing was recorded at that height
    or above before, the changes concern different parameters and each recorded
    the value it replaces.  The history of changes keeps exactly those whose
    activation height is below the height, late ones that were rolled back
    included; and the changes are gone: they are not pending again, so the
    branch that replaces the block never applies them. *)
Theorem rollback_restores h m p m' p' applied :
  let cs := (List.filter (ready h) (map_to_list (pending_changes m))).*2 in
  (forall k, h <= k -> changes_by_height m !! k = None) ->
  NoDup (parameter_name <$> cs) ->
  Forall (fun c => read (parameter_name c) p = Ok (old_value c)) cs ->
  apply_pending_changes h (m, p) = ((m', p'), Ok applied) ->
  exists m'', rollback_changes_from_height h (m', p') = ((m'', p), Ok cs) /\
    changes_by_height m'' = changes_by_height m /\
    change_history m'' = List.filter (fun c => activation_height c <? h) (change_history m ++ cs) /\
    forall id c, pending_changes m'' !! id = Some c <->
      pending_changes m !! id = Some c /\ h < activation_height c.
Proof.
  intros cs Hby Hnames Hold E. unfold apply_pending_changes in E. cbn [fst] in E.
  set (es := List.filter (ready h) (map_to_list (pending_changes m))) in *.
  assert (Hes : Forall (fun e => pending_changes m !! e.1 = Some e.2) es).
  { apply Forall_forall. intros [id c] Hel. apply list_elem_of_In, filter_In in Hel as [Hel _].
    by apply list_elem_of_In, elem_of_map_to_list in Hel. }
  assert (Hnd : NoDup es.*1).
  { unfold es. apply filter_keys_nodup, NoDup_fst_map_to_list. }
  destruct (apply_list_spec _ _ _ _ _ _ _ Hnd Hes E) as (-> & Hp & Hby' & Hpend & Hhist). cbn [fst snd] in *.
  pose proof (undo_all _ _ _ h Hnames Hold Hp) as Hundo.
  assert (Hent : entries_from h m' = match es with [] => [] | _ => [(h, es.*2)] end).
  { destruct es as [|e es']; [apply entries_from_none; by rewrite Hby'|].
    eapply entries_from_insert; [exact Hby|]. rewrite Hby', Hby by lia. done. }
  assert (Hpm : forall id c, foldl (fun c e => delete e.1 c) (pending_changes m) es !! id = Some c <->
    pending_changes m !! id = Some c /\ h < activation_height c).
  { intros id c. rewrite foldl_delete_pending. split; intros [Hl Hn]; split; try done.
    - apply Z.lt_nge. intros Ha. apply Hn. apply list_elem_of_fmap. exists (id, c). split; [done|].
      apply list_elem_of_In, filter_In. split; [by apply list_elem_of_In, elem_of_map_to_list|].
      unfold ready. cbn. lia.
    - intros ([id' c'] & -> & Hel)%list_elem_of_fmap. pose proof (proj1 (Forall_forall _ _) Hes _ Hel) as Hl'.
      cbn in Hl, Hl'. rewrite Hl in Hl'. injection Hl' as ->.
      apply list_elem_of_In, filter_In in Hel as [_ Hr]. unfold ready in Hr. cbn in Hr. lia. }
  subst cs. clearbody es. destruct (rollback_run h m' p' p) as (m'' & Hrun & Hby'' & Hpend'' & Hhist'').
  { rewrite Hent. destruct es as [|e es']; [cbn in Hundo; injection Hundo as ->; reflexivity|].
    cbn [for_each fst snd]. by rewrite stM_bind_run, (undo_list_run _ _ _ _ _ Hundo). }
  exists m''. rewrite Hrun, Hby'', Hpend'', Hhist'', Hhist, Hent, Hpend. split_and!; [| |done|exact Hpm].
  - destruct es; cbn; by rewrite ?app_nil_r.
  - rewrite Hby'. destruct es; [done|]. cbn. rewrite Hby by lia. apply delete_insert_id, Hby. lia.
Qed.

(** * Examples *)

(** Hexadecimal text with lower-case digits. *)
Definition hex_digit (n : Z) : ascii :=
  ascii_of_N (Z.to_N (if n <? 10 then 48 + n else 87 + n)).

Definition hex_value (c : ascii) : option Z :=
  let n := Z.of_N (N_of_ascii c) in
  if (48 <=? n) && (n <=? 57) then Some (n - 48)
  else if (97 <=? n) && (n <=? 102) then Some (n - 87)
  else if (65 <=? n) && (n <=? 70) then Some (n - 55) else None.

Fixpoint decode_pairs (s : string) : option bytes :=
  match s with
  | EmptyString => Some []
  | String a (String b s) =>
      x ← hex_value a; y ← hex_value b; l ← decode_pairs s; Some (16 * x + y :: l)
  | _ => None
  end.

Fixpoint encode_pairs (l : bytes) : string :=
  match l with
  | [] => EmptyString
  | b :: l => String (hex_digit (b / 16)) (String (hex_digit (b mod 16)) (encode_pairs l))
  end.

Definition plain_hex : HexCodec := {| hex_decode := decode_pairs; hex_encode := encode_pairs |}.

Example plain_hex_roundtrip : decode_pairs (encode_pairs [0; 255; 18]) = Some [0; 255; 18].
Proof. reflexivity. Qed.

Definition change_proposal_of (id : Hash) (name text : string) : Proposal :=
  mkProposal id [] Types.ParameterChange 10 20 "a title" [] None (Some name) (Some text) None None None
    None [] [] [] 0 [] 0.

(** [max_connections] is registered, but has no arm that reads it: it cannot be
    changed. *)
Example max_connections_unknown :
  validate_parameter_change (H := plain_hex) ParameterManager_new
    (change_proposal_of [1] "max_connections" "100") ConsensusParams_default =
  Err (UnknownParameter "max_connections").
Proof. vm_compute. reflexivity. Qed.

(** Two changes of one parameter, both validated while it was 150, applied at
    heights 100 and 200; rolling the second one back gives 150, not the 200 that
    the first one set. *)
Example rollback_to_stale_value :
  let s := pm_run (H := plain_hex) (ParameterManager_new, ConsensusParams_default)
    [OpPropose (change_proposal_of [1] "min_block_time" "200") 100;
     OpPropose (change_proposal_of [2] "min_block_time" "300") 200;
     OpApply 100; OpApply 200] in
  min_block_time (snd s) = 300 /\ min_block_time (snd (fst (rollback_changes_from_height 200 s))) = 150.
Proof. vm_compute. split; reflexivity. Qed.

Lemma params_in_range_check p :
  forallb (fun e => allowed e.1 (e.2 p)) live_arms = true -> params_in_range p.
Proof.
  intros Hp name v (i & get & Hi & ->)%read_inv.
  apply (proj1 (forallb_forall _ _) Hp (name, get)), list_elem_of_In. by eapply list_elem_of_lookup_2.
Qed.

Lemma default_in_range : params_in_range ConsensusParams_default.
Proof. apply params_in_range_check. vm_compute. reflexivity. Qed.

Lemma validated_change_applies_witness :
  let p := ConsensusParams_default in
  exists c, validate_parameter_change (H := plain_hex) ParameterManager_new
      (change_proposal_of [1] "pos_reward_ratio" "0.5") p = Ok c /\
    exists p', pm_apply_parameter_change c p = Ok p' /\ read "pos_reward_ratio" p' = Ok (VF64 (f64_lit 1 2)).
Proof.
  eexists. split; [vm_compute; reflexivity|].
  destruct (@validated_change_applies plain_hex ParameterManager_new
    (change_proposal_of [1] "pos_reward_ratio" "0.5") ConsensusParams_default
    (mkParameterChange "pos_reward_ratio" (VF64 (pos_reward_ratio ConsensusParams_default))
       (VF64 (f64_lit 1 2)) [1] 0) eq_refl ltac:(vm_compute; reflexivity)) as (_ & _ & p' & Hp' & Hr & _).
  exists p'. split; [exact Hp'|exact Hr].
Defined.

Lemma parameters_stay_in_range_witness :
  params_in_range (snd (pm_run (H := plain_hex) (ParameterManager_new, ConsensusParams_default)
    [OpPropose (change_proposal_of [1] "min_block_time" "200") 100; OpApply 100; OpRollback 50])).
Proof. exact (proj1 (@parameters_stay_in_range plain_hex _ _ default_in_range)). Defined.

(** A manager with two changes that are due. *)
Definition two_pending : ParameterManager :=
  ParameterManager_new <| pending_changes := list_to_map
    [([1], mkParameterChange "min_block_time" (VU64 150) (VU64 200) [1] 100);
     ([2], mkParameterChange "coinbase_maturity" (VU32 100) (VU32 50) [2] 90)] |>.

Lemma two_pending_ready :
  (List.filter (ready 100) (map_to_list (pending_changes two_pending))).*2 =
  [mkParameterChange "min_block_time" (VU64 150) (VU64 200) [1] 100;
   mkParameterChange "coinbase_maturity" (VU32 100) (VU32 50) [2] 90].
Proof. vm_compute. reflexivity. Qed.

Lemma two_pending_apply :
  exists m', apply_pending_changes 100 (two_pending, ConsensusParams_default) =
    ((m', ConsensusParams_default <| coinbase_maturity := 50 |> <| min_block_time := 200 |>),
     Ok (List.filter (ready 100) (map_to_list (pending_changes two_pending))).*2).
Proof.
  set (r := apply_pending_changes 100 _). exists (fst (fst r)).
  assert (E1 : snd (fst r) =
    ConsensusParams_default <| coinbase_maturity := 50 |> <| min_block_time := 200 |>)
    by (vm_compute; reflexivity).
  assert (E2 : snd r = Ok (List.filter (ready 100) (map_to_list (pending_changes two_pending))).*2)
    by (vm_compute; reflexivity).
  rewrite <- E1, <- E2, <- surjective_pairing. apply surjective_pairing.
Qed.

Lemma rollback_restores_witness :
  exists m' m'', apply_pending_changes 100 (two_pending, ConsensusParams_default) =
      ((m', ConsensusParams_default <| coinbase_maturity := 50 |> <| min_block_time := 200 |>),
       Ok (List.filter (ready 100) (map_to_list (pending_changes two_pending))).*2) /\
    fst (rollback_changes_from_height 100
      (m', ConsensusParams_default <| coinbase_maturity := 50 |> <| min_block_time := 200 |>)) =
    (m'', ConsensusParams_default).
Proof.
  destruct two_pending_apply as [m' E]. exists m'.
  destruct (rollback_restores 100 two_pending ConsensusParams_default m'
    (ConsensusParams_default <| coinbase_maturity := 50 |> <| min_block_time := 200 |>)
    (List.filter (ready 100) (map_to_list (pending_changes two_pending))).*2
    (fun k _ => lookup_empty k)) as (m'' & E' & _).
  - rewrite two_pending_ready. apply (bool_decide_unpack _). exact I.
  - rewrite two_pending_ready. repeat apply Forall_cons_2; [reflexivity..|by apply Forall_nil_2].
  - exact E.
  - exists m''. split; [exact E|]. rewrite E'. reflexivity.
Defined.
