(* ===== verification/GovernanceVoting.v ===== *)
(** Proposals, votes and stakes of the governance crate
    (src/rusty-governance/src/: proposal_validation.rs, vote_validation.rs,
    stake_burning.rs, voting_coordinator.rs).

    Titles are ASCII: [validate_content] refuses every other one before a
    proposal reaches the other modules.  Error strings are types with one
    constructor per message; logging is left out. *)

From Stdlib Require Import ZArith Lia List SpecFloat String Ascii.
From stdpp Require Import base option list numbers strings gmap.
From coqutil Require Import Datatypes.RecordSetters.
From S2P Require Import Prelude Types Errors Transaction F64 Params Masternodes LiveTickets.
From S2P Require Import SamplePrimitives ChainState ParameterManager.

Import TriangleBracketNotations.

#[local] Open Scope Z_scope.

(** * proposal_validation.rs *)

Inductive ProposalValidationError : Type :=
| InvalidProposalId
| InvalidProposerSignature
| InvalidVotingPeriod
| UnsupportedProposalType
| MissingRequiredFields
| ProtocolViolationError
| InsufficientCollateral
| InvalidContent
| InvalidParameterChange
| InsufficientTreasuryFunds
| ConflictingProposal
| TooLarge
| MissingProtocolVersion
| MissingParameterDetails
| MissingTreasuryDetails
| InvalidAmount
| FutureSubmission
| MissingBugDescription
| MissingCommunityFundDetails.

Abbreviation pvR := (outcome ProposalValidationError).

Record ProposalValidationConfig : Type := mkProposalValidationConfig {
  min_voting_period : Z;
  max_voting_period : Z;
  min_title_length : Z;
  max_title_length : Z;
  required_collateral : Z;
  max_proposals_per_proposer : Z;
}.

Definition ProposalValidationConfig_default : ProposalValidationConfig :=
  mkProposalValidationConfig 1000 100000 10 128 1000000000 3.

Definition validate_voting_period (config : ProposalValidationConfig) (proposal : Proposal)
    (current_block_height : Z) : pvR unit :=
  if start_block_height proposal <=? current_block_height then Err InvalidVotingPeriod else
  if end_block_height proposal <=? start_block_height proposal then Err InvalidVotingPeriod else
  let voting_period := end_block_height proposal - start_block_height proposal in
  if (voting_period <? min_voting_period config) || (max_voting_period config <? voting_period)
  then Err InvalidVotingPeriod else mret tt.

Definition char_code (c : ascii) : Z := Z.of_N (N_of_ascii c).
Definition between (lo hi n : Z) : bool := (lo <=? n) && (n <=? hi).
Definition is_alphabetic (c : ascii) : bool :=
  between 65 90 (char_code c) || between 97 122 (char_code c).
Definition is_alphanumeric (c : ascii) : bool := is_alphabetic c || between 48 57 (char_code c).
Definition is_whitespace (c : ascii) : bool := between 9 13 (char_code c) || (char_code c =? 32).

Definition string_len (s : string) : Z := Z.of_nat (String.length s).

Definition all_chars (f : ascii -> bool) (s : string) : bool := forallb f (list_ascii_of_string s).

Definition title_char (c : ascii) : bool :=
  (char_code c <? 128) &&
  (is_alphanumeric c || is_whitespace c || existsb (Ascii.eqb c) (list_ascii_of_string ".,!?-_()[]{}")).

Definition validate_content (config : ProposalValidationConfig) (proposal : Proposal) : pvR unit :=
  if (string_len (title proposal) <? min_title_length config) ||
     (max_title_length config <? string_len (title proposal)) then Err InvalidContent else
  if negb (all_chars title_char (title proposal)) then Err InvalidContent else
  if bool_decide (description_hash proposal = replicate 32 0) then Err InvalidContent else mret tt.

(** The value parses as a [u64] between the two bounds. *)
Definition check_bounds (text : string) (lo hi : Z) : pvR unit :=
  match parse_uint u64_max text with
  | Some v => if (v <? lo) || (hi <? v) then Err InvalidParameterChange else mret tt
  | None => Err InvalidParameterChange
  end.

Definition pv_validate_parameter_change (proposal : Proposal) : pvR unit :=
  target ← unwrap (target_parameter proposal);
  text ← unwrap (new_value proposal);
  if bool_decide (target = "block_time"%string) then check_bounds text 60 3600
  else if bool_decide (target = "max_block_size"%string) then check_bounds text 1000000 100000000
  else if bool_decide (target = "difficulty_adjustment_window"%string) then check_bounds text 10 10000
  else if bool_decide (target = "masternode_collateral"%string)
  then check_bounds text 100000000 100000000000
  else Err InvalidParameterChange.

Definition is_none {A} (o : option A) : bool := match o with None => true | Some _ => false end.

Definition validate_type_specific_requirements (proposal : Proposal) : pvR unit :=
  match proposal_type proposal with
  | ProtocolUpgrade =>
      if is_none (code_change_hash proposal) then Err MissingRequiredFields else mret tt
  | Types.ParameterChange =>
      if is_none (target_parameter proposal) || is_none (new_value proposal)
      then Err MissingRequiredFields else pv_validate_parameter_change proposal
  | TreasurySpend =>
      if is_none (recipient_address proposal) || is_none (proposal_amount proposal)
      then Err MissingTreasuryDetails else
      if default 0 (proposal_amount proposal) =? 0 then Err InvalidAmount else mret tt
  | BugFix => if is_none (bug_description proposal) then Err MissingBugDescription else mret tt
  | CommunityFund =>
      if is_none (recipient_address proposal) || is_none (proposal_amount proposal) ||
         is_none (project_description proposal) then Err MissingCommunityFundDetails else
      if default 0 (proposal_amount proposal) =? 0 then Err InvalidAmount else mret tt
  end.

Definition validate_collateral (config : ProposalValidationConfig) (proposal : Proposal) : pvR unit :=
  if len (proposal_inputs proposal) =? 0 then Err InsufficientCollateral else
  let total_collateral := foldl (fun acc o => u64_add acc (value o)) 0 (proposal_outputs proposal) in
  if total_collateral <? required_collateral config then Err InsufficientCollateral else mret tt.

Definition validate_signature (proposal : Proposal) : pvR unit :=
  if bool_decide (proposer_signature proposal = replicate 64 0)
  then Err InvalidProposerSignature else mret tt.

Definition validate_proposal (config : ProposalValidationConfig) (proposal : Proposal)
    (current_block_height : Z) (existing_proposals : list Hash) : pvR unit :=
  if bool_decide (proposal_id proposal ∈ existing_proposals) then Err InvalidProposalId else
  _ ← validate_voting_period config proposal current_block_height;
  _ ← validate_content config proposal;
  _ ← validate_type_specific_requirements proposal;
  _ ← validate_collateral config proposal;
  validate_signature proposal.

Definition are_proposals_similar (p q : Proposal) : bool :=
  bool_decide (proposal_type p = proposal_type q) &&
  match proposal_type p with
  | ProtocolUpgrade => bool_decide (code_change_hash p = code_change_hash q)
  | Types.ParameterChange =>
      bool_decide (target_parameter p = target_parameter q) && bool_decide (new_value p = new_value q)
  | TreasurySpend =>
      bool_decide (recipient_address p = recipient_address q) &&
      bool_decide (proposal_amount p = proposal_amount q)
  | BugFix => bool_decide (bug_description p = bug_description q)
  | CommunityFund =>
      bool_decide (recipient_address p = recipient_address q) &&
      bool_decide (proposal_amount p = proposal_amount q) &&
      bool_decide (project_description p = project_description q)
  end.

Definition conflicts_with (proposal active : Proposal) : bool :=
  (bool_decide (proposal_type proposal = Types.ParameterChange) &&
   bool_decide (proposal_type active = Types.ParameterChange) &&
   bool_decide (target_parameter proposal = target_parameter active)) ||
  ((start_block_height proposal <=? end_block_height active) &&
   (start_block_height active <=? end_block_height proposal) &&
   are_proposals_similar proposal active).

Definition check_conflicts (proposal : Proposal) (active_proposals : list Proposal) : pvR unit :=
  if existsb (conflicts_with proposal) active_proposals then Err ConflictingProposal else mret tt.

(** * vote_validation.rs *)

Inductive VoteValidationError : Type := InvalidVoteSignature | IneligibleVoter | InsufficientStake.

(** [bincode::serialize] of a vote. *)
Class VoteCodec : Type := { bincode_vote : Vote -> option bytes }.

Section WithPrimitives.
Context `{Primitives} `{VoteCodec} `{HexCodec}.

Definition check_voter (vote : Vote) (live_tickets : LiveTicketsPool) (masternodes : MasternodeList)
    (required_ticket_value required_mn_collateral : Z) : outcome VoteValidationError unit :=
  match voter_type vote with
  | PosTicket =>
      match List.find (fun e => bool_decide (ticket_pubkey e.2 = voter_id vote)) (map_to_list live_tickets) with
      | Some e => if ticket_value e.2 <? required_ticket_value then Err InsufficientStake else mret tt
      | None => Err IneligibleVoter
      end
  | Masternode =>
      match List.find (fun e => bool_decide (operator_public_key (identity e.2) = voter_id vote))
              (map_to_list masternodes) with
      | Some e =>
          if negb (bool_decide (status e.2 = Active)) then Err IneligibleVoter else
          match get_collateral_amount e.2 with
          | Some amount => if amount <? required_mn_collateral then Err InsufficientStake else mret tt
          | None => Err InsufficientStake
          end
      | None => Err IneligibleVoter
      end
  end.

Definition unsigned (vote : Vote) : Vote :=
  mkVote (vote_proposal_id vote) (voter_type vote) (voter_id vote) (vote_choice vote) (replicate 64 0)
    (vote_inputs vote) (vote_outputs vote) (vote_lock_time vote) (vote_witness vote) (vote_fee vote).

(** The public key is the voter id, as [record_vote] passes it. *)
Definition validate_vote (vote : Vote) (live_tickets : LiveTicketsPool) (masternodes : MasternodeList)
    (required_ticket_value required_mn_collateral : Z) : outcome VoteValidationError unit :=
  _ ← check_voter vote live_tickets masternodes required_ticket_value required_mn_collateral;
  verifying_key ← ok_or (public_key_from_bytes (voter_id vote)) InvalidVoteSignature;
  sig ← ok_or (signature_from_bytes (voter_signature vote)) InvalidVoteSignature;
  payload ← ok_or (bincode_vote (unsigned vote)) InvalidVoteSignature;
  if ed25519_verify verifying_key payload sig then mret tt else Err InvalidVoteSignature.

(** * stake_burning.rs *)

Inductive StakeBurningReason : Type :=
| ProposalRejected
| InsufficientParticipation
| MaliciousProposal
| InsufficientDocumentation
| ProtocolViolation
| SpamProposal.

Record StakeBurningConfig : Type := mkStakeBurningConfig {
  rejection_burn_percentage : f64;
  malicious_burn_percentage : f64;
  participation_burn_percentage : f64;
  violation_burn_percentage : f64;
  min_participation_threshold : f64;
  participation_grace_period : Z;
}.

Definition StakeBurningConfig_default : StakeBurningConfig :=
  mkStakeBurningConfig (f64_lit 1 10) (f64_lit 1 1) (f64_lit 25 100) (f64_lit 5 10) (f64_lit 33 100) 1000.

Record PendingBurn : Type := mkPendingBurn {
  burn_proposal_id : Hash;
  burn_proposer_address : bytes;
  stake_amount : Z;
  burn_amount : Z;
  burn_reason : StakeBurningReason;
  scheduled_block_height : Z;
  burn_collateral_outpoint : OutPoint;
}.

Record ExecutedBurn : Type := mkExecutedBurn {
  executed_proposal_id : Hash;
  executed_amount : Z;
  executed_reason : StakeBurningReason;
}.

Record StakeBurningManager : Type := mkStakeBurningManager {
  burn_config : StakeBurningConfig;
  pending_burns : gmap Hash PendingBurn;
  executed_burns : gmap Hash ExecutedBurn;
}.

Definition StakeBurningManager_new (config : StakeBurningConfig) : StakeBurningManager :=
  mkStakeBurningManager config ∅ ∅.

Inductive GovernanceError : Type :=
| NoCollateralInput
| ProposalExists
| ProposalEnded
| ProposalStarted
| ProposalNotFoundOrActive
| ProposalNotActive
| AlreadyVoted
| VoteInvalid (e : VoteValidationError)
| ProposalInvalid (e : ProposalValidationError)
| ParameterFailure (e : ParameterError)
| ActivationFailure (reason : string).

Definition is_malicious_proposal (proposal : Proposal) : bool :=
  contains "hack" (title proposal) || contains "exploit" (title proposal) ||
  (bool_decide (proposal_type proposal = Types.ParameterChange) &&
   match new_value proposal ≫= parse_f64 with
   | Some v => f64_lt v (S754_zero false) || f64_gt v (f64_of_Z 1000000)
   | None => false
   end).

Definition is_spam_proposal (m : StakeBurningManager) (proposal : Proposal) : bool :=
  (string_len (title proposal) <? 10) ||
  all_chars (fun c => negb (is_alphabetic c)) (title proposal) ||
  (5 <? len (List.filter (fun e => negb (bool_decide (executed_proposal_id e.2 = proposal_id proposal)))
               (map_to_list (executed_burns m)))).

Definition violates_protocol_rules (proposal : Proposal) : bool :=
  (end_block_height proposal <=? start_block_height proposal) ||
  (let voting_period := end_block_height proposal - start_block_height proposal in
   (voting_period <? 1000) || (100000 <? voting_period)).

Definition has_insufficient_documentation (proposal : Proposal) : bool :=
  bool_decide (description_hash proposal = replicate 32 0) ||
  (bool_decide (proposal_type proposal = ProtocolUpgrade) && is_none (code_change_hash proposal)) ||
  (bool_decide (proposal_type proposal = Types.ParameterChange) && is_none (target_parameter proposal)).

Definition get_burn_percentage (config : StakeBurningConfig) (reason : StakeBurningReason) : f64 :=
  match reason with
  | ProposalRejected => rejection_burn_percentage config
  | InsufficientParticipation => participation_burn_percentage config
  | MaliciousProposal => malicious_burn_percentage config
  | InsufficientDocumentation => rejection_burn_percentage config
  | ProtocolViolation => violation_burn_percentage config
  | SpamProposal => malicious_burn_percentage config
  end.

Definition approval_threshold (p : ConsensusParams) (t : ProposalType) : f64 :=
  match t with
  | ProtocolUpgrade => protocol_upgrade_approval_percentage p
  | Types.ParameterChange => parameter_change_approval_percentage p
  | TreasurySpend => treasury_spend_approval_percentage p
  | BugFix => bug_fix_approval_percentage p
  | CommunityFund => community_fund_approval_percentage p
  end.

(** [if total > 0 { part as f64 / total as f64 } else { 0.0 }] *)
Definition rate (part total : Z) : f64 :=
  if 0 <? total then f64_div (f64_of_Z part) (f64_of_Z total) else S754_zero false.

(** The choice of [burn_reason]. *)
Definition reason_to_burn (m : StakeBurningManager) (proposal : Proposal)
    (height total_voting_power yes_votes total_votes_cast : Z) (p : ConsensusParams) :
    option StakeBurningReason :=
  if is_malicious_proposal proposal then Some MaliciousProposal
  else if f64_lt (rate total_votes_cast total_voting_power) (min_participation_threshold (burn_config m))
  then
    if u64_add (end_block_height proposal) (participation_grace_period (burn_config m)) <=? height
    then Some InsufficientParticipation else None
  else if is_spam_proposal m proposal then Some SpamProposal
  else if violates_protocol_rules proposal then Some ProtocolViolation
  else if has_insufficient_documentation proposal then Some InsufficientDocumentation
  else if f64_lt (rate yes_votes total_votes_cast) (approval_threshold p (proposal_type proposal))
  then Some ProposalRejected else None.

Definition find_proposal_collateral (proposal : Proposal) : outcome GovernanceError OutPoint :=
  match proposal_inputs proposal with
  | [] => Err NoCollateralInput
  | input :: _ => mret (previous_output input)
  end.

Abbreviation burnM := (stM StakeBurningManager GovernanceError).

Definition evaluate_proposal_for_burning (proposal : Proposal)
    (height total_voting_power yes_votes total_votes_cast : Z) (p : ConsensusParams) :
    burnM (option PendingBurn) :=
  if height <=? end_block_height proposal then mret None else
  m ← gets (fun m => m);
  match reason_to_burn m proposal height total_voting_power yes_votes total_votes_cast p with
  | Some reason =>
      let stake_amount := proposal_stake_amount p in
      let burn_amount :=
        f64_to_u64 (f64_mul (f64_of_Z stake_amount) (get_burn_percentage (burn_config m) reason)) in
      collateral_outpoint ← lift (find_proposal_collateral proposal);
      let burn := mkPendingBurn (proposal_id proposal) (proposer_address proposal) stake_amount
        burn_amount reason (u64_add height 10) collateral_outpoint in
      modify (fun m => m <| pending_burns ::= <[proposal_id proposal := burn]> |>);;
      mret (Some burn)
  | None => mret None
  end.

(** [OP_RETURN] and a 32-byte push of "RUSTY_GOVERNANCE_STAKE_BURN". *)
Definition governance_burn_script : bytes :=
  [0x6a; 0x20] ++ string_bytes "RUSTY_GOVERNANCE_STAKE_BURN" ++ [0; 0; 0; 0; 0].

Definition create_burn_output (amount : Z) : TxOutput :=
  mkTxOutput amount governance_burn_script (Some (string_bytes "Governance stake burn")).

Definition create_burn_transaction (burn : PendingBurn) : Transaction :=
  let input := TxInput_from_outpoint (burn_collateral_outpoint burn) [] 0xffffffff [] in
  let change :=
    if burn_amount burn <? stake_amount burn then
      [mkTxOutput (stake_amount burn - burn_amount burn) (burn_proposer_address burn)
         (Some (string_bytes ("Partial stake return for proposal " +:+ hex_encode (burn_proposal_id burn))))]
    else [] in
  Standard 1 [input] (create_burn_output (burn_amount burn) :: change) 0 1000 [].

Definition execute_burn (m : StakeBurningManager) (id : Hash) : StakeBurningManager * list Transaction :=
  match pending_burns m !! id with
  | None => (m, [])
  | Some burn =>
      (m <| pending_burns ::= delete id |>
         <| executed_burns ::= <[id := mkExecutedBurn (burn_proposal_id burn) (burn_amount burn)
                                         (burn_reason burn)]> |>,
       [create_burn_transaction burn])
  end.

Definition due (height : Z) (e : Hash * PendingBurn) : bool := scheduled_block_height e.2 <=? height.

Definition execute_next (acc : StakeBurningManager * list Transaction) (id : Hash) :
    StakeBurningManager * list Transaction :=
  let '(m, txs) := execute_burn acc.1 id in (m, acc.2 ++ txs).

Definition execute_pending_burns (height : Z) (m : StakeBurningManager) :
    StakeBurningManager * list Transaction :=
  foldl execute_next (m, []) (fst <$> List.filter (due height) (map_to_list (pending_burns m))).

Definition is_proposal_burned (m : StakeBurningManager) (id : Hash) : bool :=
  bool_decide (is_Some (executed_burns m !! id)).

Definition total_amount_burned (m : StakeBurningManager) : Z :=
  foldl (fun acc e => u64_add acc (executed_amount e.2)) 0 (map_to_list (executed_burns m)).

(** * voting_coordinator.rs *)

Inductive VotingOutcome : Type := Approved | RejectedOutcome | ExpiredOutcome | InsufficientVotes.

#[export] Instance VotingOutcome_eq_dec : EqDecision VotingOutcome.
Proof. solve_decision. Defined.

Record ProposalVotingState : Type := mkProposalVotingState {
  voting_proposal : Proposal;
  votes : gmap PublicKey Vote;
  yes_power : Z;
  no_power : Z;
  abstain_power : Z;
  voting_power : Z;
  pos_yes_votes : Z;
  pos_no_votes : Z;
  pos_abstain_votes : Z;
  pos_total_votes : Z;
  mn_yes_votes : Z;
  mn_no_votes : Z;
  mn_abstain_votes : Z;
  mn_total_votes : Z;
  voting_is_active : bool;
  voting_outcome : option VotingOutcome;
}.

Record VotingConfig : Type := mkVotingConfig {
  voting_participation_threshold : f64;
  approval_thresholds : gmap string f64;
  finalization_grace_period : Z;
}.

Definition VotingConfig_default : VotingConfig :=
  mkVotingConfig (f64_lit 33 100)
    (<["CommunityFund"%string := f64_lit 70 100]> (<["BugFix"%string := f64_lit 80 100]>
    (<["TreasurySpend"%string := f64_lit 66 100]> (<["ParameterChange"%string := f64_lit 60 100]>
    (<["ProtocolUpgrade"%string := f64_lit 75 100]> ∅))))) 100.

Record VotingCoordinator : Type := mkVotingCoordinator {
  voting_config : VotingConfig;
  active : gmap Hash ProposalVotingState;
  finalized : gmap Hash ProposalVotingState;
  stake_burning : StakeBurningManager;
}.

Definition VotingCoordinator_new (config : VotingConfig) (burning : StakeBurningManager) :
    VotingCoordinator := mkVotingCoordinator config ∅ ∅ burning.

Abbreviation votM := (stM VotingCoordinator GovernanceError).

Definition fresh_voting_state (proposal : Proposal) : ProposalVotingState :=
  mkProposalVotingState proposal ∅ 0 0 0 0 0 0 0 0 0 0 0 0 true None.

Definition vc_add_proposal (proposal : Proposal) (current_block_height : Z) : votM unit := fun c =>
  match active c !! proposal_id proposal with
  | Some _ => (c, Err ProposalExists)
  | None =>
      if end_block_height proposal <=? current_block_height then (c, Err ProposalEnded) else
      if start_block_height proposal <=? current_block_height then (c, Err ProposalStarted) else
      (c <| active ::= <[proposal_id proposal := fresh_voting_state proposal]> |>, Ok tt)
  end.

(** The counters [record_vote] updates for a vote. *)
Definition count_ballot (vote : Vote) (power : Z) (s : ProposalVotingState) : ProposalVotingState :=
  let s :=
    match vote_choice vote, voter_type vote with
    | Yes, PosTicket =>
        s <| yes_power ::= (fun n => u64_add n power) |> <| pos_yes_votes ::= (fun n => u64_add n 1) |>
    | Yes, Masternode =>
        s <| yes_power ::= (fun n => u64_add n power) |> <| mn_yes_votes ::= (fun n => u64_add n 1) |>
    | No, PosTicket =>
        s <| no_power ::= (fun n => u64_add n power) |> <| pos_no_votes ::= (fun n => u64_add n 1) |>
    | No, Masternode =>
        s <| no_power ::= (fun n => u64_add n power) |> <| mn_no_votes ::= (fun n => u64_add n 1) |>
    | Abstain, PosTicket =>
        s <| abstain_power ::= (fun n => u64_add n power) |>
          <| pos_abstain_votes ::= (fun n => u64_add n 1) |>
    | Abstain, Masternode =>
        s <| abstain_power ::= (fun n => u64_add n power) |>
          <| mn_abstain_votes ::= (fun n => u64_add n 1) |>
    end in
  let s := s <| voting_power ::= (fun n => u64_add n power) |> in
  match voter_type vote with
  | PosTicket => s <| pos_total_votes ::= (fun n => u64_add n 1) |>
  | Masternode => s <| mn_total_votes ::= (fun n => u64_add n 1) |>
  end.

Definition vc_record_vote (vote : Vote) (voter_power : Z) (live_tickets : LiveTicketsPool)
    (masternodes : MasternodeList) (required_ticket_value required_mn_collateral : Z) : votM unit :=
  fun c =>
  match active c !! vote_proposal_id vote with
  | None => (c, Err ProposalNotFoundOrActive)
  | Some s =>
      if negb (voting_is_active s) then (c, Err ProposalNotActive) else
      if bool_decide (is_Some (votes s !! voter_id vote)) then (c, Err AlreadyVoted) else
      match validate_vote vote live_tickets masternodes required_ticket_value required_mn_collateral with
      | Ok _ =>
          let s := (count_ballot vote voter_power s) <| votes ::= <[voter_id vote := vote]> |> in
          (c <| active ::= <[vote_proposal_id vote := s]> |>, Ok tt)
      | Err e => (c, Err (VoteInvalid e))
      | Panic => (c, Panic)
      | OutOfFuel => (c, OutOfFuel)
      end
  end.

(** [(count as f64 * percentage).ceil() as u64] *)
Definition quorum_required (count : Z) (percentage : f64) : Z :=
  f64_ceil_to_u64 (f64_mul (f64_of_Z count) percentage).

(** [if cast > 0 { yes as f64 / cast as f64 >= percentage } else { false }] *)
Definition chamber_approves (yes cast : Z) (percentage : f64) : bool :=
  if 0 <? cast then f64_ge (f64_div (f64_of_Z yes) (f64_of_Z cast)) percentage else false.

Definition determine_proposal_outcome (s : ProposalVotingState) (height : Z) (p : ConsensusParams)
    (live_tickets_count active_masternodes_count : Z) : VotingOutcome :=
  if height <? end_block_height (voting_proposal s) then ExpiredOutcome else
  let pos_votes_cast := u64_add (pos_yes_votes s) (pos_no_votes s) in
  let mn_votes_cast := u64_add (mn_yes_votes s) (mn_no_votes s) in
  let pos_quorum_met := quorum_required live_tickets_count (pos_voting_quorum_percentage p) <=? pos_votes_cast in
  let mn_quorum_met := quorum_required active_masternodes_count (mn_voting_quorum_percentage p) <=? mn_votes_cast in
  if negb pos_quorum_met || negb mn_quorum_met then InsufficientVotes else
  if chamber_approves (pos_yes_votes s) pos_votes_cast (pos_approval_percentage p) &&
     chamber_approves (mn_yes_votes s) mn_votes_cast (mn_approval_percentage p)
  then Approved else RejectedOutcome.

Definition should_burn_stake (o : VotingOutcome) : bool :=
  match o with RejectedOutcome | InsufficientVotes => true | _ => false end.

Definition votes_cast (s : ProposalVotingState) : Z :=
  u64_add (u64_add (yes_power s) (no_power s)) (abstain_power s).

(** The body of the loop of [process_ended_proposals]; a failed burn evaluation
    is only logged. *)
Definition finalize_proposal (height : Z) (p : ConsensusParams)
    (live_tickets_count active_masternodes_count : Z) (acc : VotingCoordinator * list Hash) (id : Hash) :
    VotingCoordinator * list Hash :=
  let '(c, done) := acc in
  match active c !! id with
  | None => (c, done)
  | Some s =>
      let outcome := determine_proposal_outcome s height p live_tickets_count active_masternodes_count in
      let s := s <| voting_outcome := Some outcome |> <| voting_is_active := false |> in
      let burning :=
        if should_burn_stake outcome then
          fst (evaluate_proposal_for_burning (voting_proposal s) height (voting_power s) (yes_power s)
                 (votes_cast s) p (stake_burning c))
        else stake_burning c in
      (c <| active ::= delete id |> <| stake_burning := burning |> <| finalized ::= <[id := s]> |>,
       done ++ [id])
  end.

Definition has_ended (height : Z) (config : VotingConfig) (s : ProposalVotingState) : bool :=
  u64_add (end_block_height (voting_proposal s)) (finalization_grace_period config) <=? height.

Definition vc_process_ended_proposals (height : Z) (p : ConsensusParams)
    (live_tickets_count active_masternodes_count : Z) (c : VotingCoordinator) :
    VotingCoordinator * list Hash :=
  foldl (finalize_proposal height p live_tickets_count active_masternodes_count) (c, [])
    (fst <$> List.filter (fun e => has_ended height (voting_config c) e.2) (map_to_list (active c))).

Record ProposalVotingStats : Type := mkProposalVotingStats {
  stats_proposal_id : Hash;
  stats_yes_votes : Z;
  stats_no_votes : Z;
  stats_abstain_votes : Z;
  stats_total_votes : Z;
  stats_total_voting_power : Z;
  participation_rate : f64;
  approval_rate : f64;
  stats_is_active : bool;
  stats_outcome : option VotingOutcome;
}.

Definition voting_stats (id : Hash) (s : ProposalVotingState) : ProposalVotingStats :=
  mkProposalVotingStats id (yes_power s) (no_power s) (abstain_power s) (votes_cast s) (voting_power s)
    (rate (votes_cast s) (voting_power s)) (rate (yes_power s) (votes_cast s))
    (voting_is_active s) (voting_outcome s).

Definition get_proposal_stats (c : VotingCoordinator) (id : Hash) : option ProposalVotingStats :=
  voting_stats id <$>
    match active c !! id with Some s => Some s | None => finalized c !! id end.

Definition get_active_proposals (c : VotingCoordinator) : list Proposal :=
  (fun e => voting_proposal e.2) <$> List.filter (fun e => voting_is_active e.2) (map_to_list (active c)).

Definition get_proposals_by_outcome (c : VotingCoordinator) (o : VotingOutcome) : list Proposal :=
  (fun e => voting_proposal e.2) <$>
    List.filter (fun e => bool_decide (voting_outcome e.2 = Some o)) (map_to_list (finalized c)).

Definition vc_execute_pending_burns (height : Z) (c : VotingCoordinator) :
    VotingCoordinator * list Transaction :=
  let '(burning, txs) := execute_pending_burns height (stake_burning c) in
  (c <| stake_burning := burning |>, txs).

End WithPrimitives.

(** * The tallies are what was voted *)

Definition ballots (t : VoterType) (ch : VoteChoice) (vs : gmap PublicKey Vote) : Z :=
  len (List.filter (fun e => bool_decide (voter_type e.2 = t) && bool_decide (vote_choice e.2 = ch))
         (map_to_list vs)).

(** The counters of a voting state are the numbers of its votes, modulo 2^64,
    and the voting power is the power of the votes cast. *)
Definition tallied (s : ProposalVotingState) : Prop :=
  pos_yes_votes s = wrap64 (ballots PosTicket Yes (votes s)) /\
  pos_no_votes s = wrap64 (ballots PosTicket No (votes s)) /\
  pos_abstain_votes s = wrap64 (ballots PosTicket Abstain (votes s)) /\
  mn_yes_votes s = wrap64 (ballots Masternode Yes (votes s)) /\
  mn_no_votes s = wrap64 (ballots Masternode No (votes s)) /\
  mn_abstain_votes s = wrap64 (ballots Masternode Abstain (votes s)) /\
  voting_power s = votes_cast s /\
  map_Forall (fun k v => voter_id v = k /\ vote_proposal_id v = proposal_id (voting_proposal s)) (votes s).

Lemma ballots_insert t ch vs k v :
  vs !! k = None ->
  ballots t ch (<[k := v]> vs) =
  ballots t ch vs + (if bool_decide (voter_type v = t) && bool_decide (vote_choice v = ch) then 1 else 0).
Proof.
  intros Hk. unfold ballots, len.
  rewrite (Permutation_length (list_filter_perm _ _ _ (map_to_list_insert vs k v Hk))).
  cbn [List.filter snd]. destruct (_ && _); cbn [length]; lia.
Qed.

Lemma wrap64_add_l a b : wrap64 (wrap64 a + b) = wrap64 (a + b).
Proof. unfold wrap64. apply Zplus_mod_idemp_l. Qed.

Lemma wrap64_add_r a b : wrap64 (a + wrap64 b) = wrap64 (a + b).
Proof. unfold wrap64. apply Zplus_mod_idemp_r. Qed.

Lemma wrap64_add_ll a b c : wrap64 (wrap64 a + b + c) = wrap64 (a + b + c).
Proof. rewrite <- !Z.add_assoc. apply wrap64_add_l. Qed.

Lemma wrap64_add_lr a b c : wrap64 (a + wrap64 b + c) = wrap64 (a + b + c).
Proof. rewrite (Z.add_comm a), wrap64_add_ll. f_equal. lia. Qed.

Create Rewrite HintDb wrap.
#[local] Hint Rewrite wrap64_add_l wrap64_add_r wrap64_add_ll wrap64_add_lr : wrap.

Lemma count_ballot_tallied vote power s :
  votes s !! voter_id vote = None -> vote_proposal_id vote = proposal_id (voting_proposal s) ->
  tallied s -> tallied ((count_ballot vote power s) <| votes ::= <[voter_id vote := vote]> |>).
Proof.
  intros Hk Hid (H1 & H2 & H3 & H4 & H5 & H6 & H7 & H8).
  assert (Hb : forall t ch, ballots t ch (<[voter_id vote := vote]> (votes s)) = ballots t ch (votes s) +
    (if bool_decide (voter_type vote = t) && bool_decide (vote_choice vote = ch) then 1 else 0))
    by (intros; by apply ballots_insert).
  assert (Hv : map_Forall (fun k v => voter_id v = k /\ vote_proposal_id v = proposal_id (voting_proposal s))
    (<[voter_id vote := vote]> (votes s))) by (by apply map_Forall_insert_2).
  clear Hk H8. destruct s as [pr vs yp np ap vp a b c d e f g h act out]. cbn in *.
  unfold votes_cast, u64_add in H7. cbn in H7. subst.
  unfold tallied, count_ballot, votes_cast, u64_add.
  destruct (voter_type vote) eqn:Et, (vote_choice vote) eqn:Ec; cbn;
    rewrite !Hb; cbn; rewrite ?Z.add_0_r; autorewrite with wrap; split_and!; try done; f_equal; lia.
Qed.

Section Reach.
Context `{Primitives} `{VoteCodec} `{HexCodec}.

Inductive voting_op : Type :=
| VAdd (proposal : Proposal) (height : Z)
| VVote (vote : Vote) (power : Z) (tickets : LiveTicketsPool) (masternodes : MasternodeList)
    (ticket_value mn_collateral : Z)
| VEnd (height : Z) (p : ConsensusParams) (live active_masternodes : Z)
| VBurn (height : Z).

Definition voting_step (c : VotingCoordinator) (op : voting_op) : VotingCoordinator :=
  match op with
  | VAdd proposal height => fst (vc_add_proposal proposal height c)
  | VVote vote power tickets masternodes tv mc =>
      fst (vc_record_vote vote power tickets masternodes tv mc c)
  | VEnd height p live mns => fst (vc_process_ended_proposals height p live mns c)
  | VBurn height => fst (vc_execute_pending_burns height c)
  end.

Definition voting_run : VotingCoordinator -> list voting_op -> VotingCoordinator := foldl voting_step.

(** Active proposals are open and tallied, finalized ones closed with an
    outcome and tallied. *)
Definition voting_inv (c : VotingCoordinator) : Prop :=
  map_Forall (fun id s => proposal_id (voting_proposal s) = id /\ voting_is_active s = true /\
                          voting_outcome s = None /\ tallied s) (active c) /\
  map_Forall (fun id s => proposal_id (voting_proposal s) = id /\ voting_is_active s = false /\
                          is_Some (voting_outcome s) /\ tallied s) (finalized c).

Lemma fresh_tallied proposal : tallied (fresh_voting_state proposal).
Proof. unfold tallied, ballots, votes_cast. cbn. rewrite map_to_list_empty. split_and!; done. Qed.

Lemma finalize_inv height p live mns acc id :
  voting_inv acc.1 -> voting_inv (finalize_proposal height p live mns acc id).1.
Proof.
  destruct acc as [c l]. intros [Ha Hf]. unfold finalize_proposal. cbn [fst] in *.
  destruct (active c !! id) as [s|] eqn:Es; [|by split].
  destruct (Ha _ _ Es) as (Hid & _ & _ & Ht). cbn. split.
  - by apply map_Forall_delete.
  - apply map_Forall_insert_2; [|done]. destruct s. split_and!; done || eauto.
Qed.

Lemma voting_step_inv c op : voting_inv c -> voting_inv (voting_step c op).
Proof.
  intros [Ha Hf]. destruct op as [proposal h|vote power tickets mns tv mc|h p live mns|h]; cbn [voting_step].
  - unfold vc_add_proposal. destruct (active c !! _); [by split|].
    destruct (_ <=? _); [by split|]. destruct (_ <=? _); [by split|]. split; [|done].
    apply map_Forall_insert_2; [|done]. split_and!; [done..|apply fresh_tallied].
  - unfold vc_record_vote. destruct (active c !! vote_proposal_id vote) as [s|] eqn:Es; [|by split].
    destruct (negb (voting_is_active s)) eqn:En; [by split|]. case_bool_decide as Hv; [by split|].
    destruct (validate_vote _ _ _ _ _) as [u| | |]; [|by split..]. split; [|done].
    destruct (Ha _ _ Es) as (Hid & Hact & Hout & Ht). apply map_Forall_insert_2; [|done].
    assert (Ht' := count_ballot_tallied vote power s (proj2 (eq_None_not_Some _) Hv) (eq_sym Hid) Ht).
    destruct s as [pr vs yp np ap vp a b cc d e f g hh act out].
    split; [|split; [|split; [|exact Ht']]]; unfold count_ballot;
      destruct (vote_choice vote), (voter_type vote); first [exact Hid|exact Hact|exact Hout].
  - unfold vc_process_ended_proposals. apply (foldl_inv (fun acc => voting_inv acc.1)); [by split|].
    intros acc id. apply finalize_inv.
  - unfold vc_execute_pending_burns. destruct (execute_pending_burns _ _). by split.
Qed.

Lemma voting_run_inv config burning ops : voting_inv (voting_run (VotingCoordinator_new config burning) ops).
Proof.
  unfold voting_run. apply foldl_inv; [split; apply map_Forall_empty|]. intros; by apply voting_step_inv.
Qed.

(** Every tally the coordinator keeps is the number of the votes it stores, each
    from a different voter, and every vote is stored with its proposal; the
    voting power of a proposal is nothing but the power of the votes cast. *)
Theorem tallies_match_votes config burning ops :
  voting_inv (voting_run (VotingCoordinator_new config burning) ops).
Proof. exact (voting_run_inv config burning ops). Qed.

End Reach.

(** * Stakes are not burned for low participation *)

Lemma rate_self n : 0 < n <= u64_max -> rate n n = S754_finite false 4503599627370496 (-52).
Proof.
  intros Hn. unfold rate. destruct (Z.ltb_spec 0 n); [|lia].
  destruct (f64_of_Z_finite n Hn) as (m & e & ->). apply f64_div_self.
Qed.

(** The participation rule compares the votes cast with themselves: with the
    default configuration a proposal of whatever coordinator state loses its
    stake for insufficient participation only if the votes cast have no power at
    all, and then only 1000 blocks after its end. *)
Theorem participation_always_sufficient `{Primitives} `{VoteCodec} `{HexCodec}
    config burning ops id s m height p :
  active (voting_run (VotingCoordinator_new config burning) ops) !! id = Some s ->
  burn_config m = StakeBurningConfig_default ->
  reason_to_burn m (voting_proposal s) height (voting_power s) (yes_power s) (votes_cast s) p =
    Some InsufficientParticipation ->
  votes_cast s = 0 /\ u64_add (end_block_height (voting_proposal s)) 1000 <= height.
Proof.
  intros Hs Hc. pose proof (proj1 (voting_run_inv config burning ops) _ _ Hs) as (_ & _ & _ & Ht).
  assert (Hp : voting_power s = votes_cast s) by apply Ht.
  assert (Hr : is_u64 (votes_cast s)) by apply wrap64_range.
  unfold reason_to_burn. rewrite Hp, Hc. destruct (is_malicious_proposal _); [done|].
  destruct (Z.eq_dec (votes_cast s) 0) as [E0|E0].
  - rewrite E0. change (f64_lt (rate 0 0) _) with true. cbv iota.
    destruct (Z.leb_spec (u64_add (end_block_height (voting_proposal s)) 1000) height) as [Hle|Hle];
      intros E; [done|].
    cbn in E. destruct (Z.leb_spec (u64_add (end_block_height (voting_proposal s)) 1000) height); [lia|done].
  - rewrite rate_self by (unfold is_u64 in Hr; lia).
    change (f64_lt (S754_finite false 4503599627370496 (-52)) _) with false. cbv iota.
    repeat (destruct (_ : bool); [done|]). done.
Qed.

(** * Burning stakes *)

Definition record_burn (b : PendingBurn) : ExecutedBurn :=
  mkExecutedBurn (burn_proposal_id b) (burn_amount b) (burn_reason b).

Lemma execute_list_spec `{HexCodec} es m txs :
  NoDup es.*1 -> Forall (fun e => pending_burns m !! e.1 = Some e.2) es ->
  let r := foldl execute_next (m, txs) es.*1 in
  (forall id, pending_burns r.1 !! id = if bool_decide (id ∈ es.*1) then None else pending_burns m !! id) /\
  (forall id, executed_burns r.1 !! id =
     if bool_decide (id ∈ es.*1) then record_burn <$> pending_burns m !! id else executed_burns m !! id) /\
  r.2 = txs ++ (create_burn_transaction <$> es.*2).
Proof.
  revert m txs. induction es as [|[id b] es IH]; intros m txs Hnd Hes.
  { cbn. rewrite app_nil_r. by split_and!. }
  rewrite fmap_cons in Hnd. apply NoDup_cons in Hnd as [Hid Hnd]. apply Forall_cons in Hes as [Hb Hes]. cbn [fst snd] in *.
  rewrite !fmap_cons. cbn [foldl fst snd].
  set (m1 := m <| pending_burns ::= delete id |> <| executed_burns ::= <[id := record_burn b]> |>).
  replace (execute_next (m, txs) id) with (m1, txs ++ [create_burn_transaction b])
    by (unfold execute_next, execute_burn; cbn [fst snd]; by rewrite Hb).
  assert (Hp1 : pending_burns m1 = delete id (pending_burns m)) by (by destruct m).
  assert (He1 : executed_burns m1 = <[id := record_burn b]> (executed_burns m)) by (by destruct m).
  destruct (IH m1 (txs ++ [create_burn_transaction b]) Hnd) as (Hp & He & Ht).
  { apply Forall_forall. intros e Hel. rewrite Hp1, lookup_delete_ne.
    - exact (proj1 (Forall_forall _ _) Hes e Hel).
    - intros ->. apply Hid, list_elem_of_fmap. by exists e. }
  split_and!; [intros k; specialize (Hp k)|intros k; specialize (He k)|by rewrite Ht, <- app_assoc].
  - rewrite Hp, Hp1. destruct (decide (k = id)) as [->|Hk].
    + rewrite lookup_delete_eq, (bool_decide_eq_true_2 (id ∈ id :: es.*1)) by left.
      by case_bool_decide.
    + rewrite lookup_delete_ne by done.
      by rewrite (bool_decide_ext (k ∈ id :: es.*1) (k ∈ es.*1)) by (rewrite elem_of_cons; naive_solver).
  - rewrite He, He1, Hp1. destruct (decide (k = id)) as [->|Hk].
    + rewrite lookup_insert_eq, (bool_decide_eq_true_2 (id ∈ id :: es.*1)) by left.
      rewrite (bool_decide_eq_false_2 (id ∈ es.*1)) by done. by rewrite Hb.
    + rewrite lookup_insert_ne, lookup_delete_ne by done.
      by rewrite (bool_decide_ext (k ∈ id :: es.*1) (k ∈ es.*1)) by (rewrite elem_of_cons; naive_solver).
Qed.

(** Burns are executed once and completely: the burns that are due move from the
    pending to the executed ones, one transaction each, and no other burn is
    touched; each transaction spends the collateral and pays out the stake, the
    burned part to an unspendable output and the rest to the proposer, leaving
    nothing for the fee of 1000 that it declares. *)
Theorem burns_execute_once `{HexCodec} height m :
  let r := execute_pending_burns height m in
  (forall id, pending_burns r.1 !! id =
     b ← pending_burns m !! id; if scheduled_block_height b <=? height then None else Some b) /\
  (forall id, executed_burns r.1 !! id =
     match pending_burns m !! id with
     | Some b => if scheduled_block_height b <=? height then Some (record_burn b) else executed_burns m !! id
     | None => executed_burns m !! id
     end) /\
  r.2 = create_burn_transaction <$> (List.filter (due height) (map_to_list (pending_burns m))).*2 /\
  forall b, get_inputs (create_burn_transaction b) =
              [TxInput_from_outpoint (burn_collateral_outpoint b) [] 0xffffffff []] /\
    foldr (fun o acc => value o + acc) 0 (get_outputs (create_burn_transaction b)) =
      Z.max (stake_amount b) (burn_amount b).
Proof.
  set (es := List.filter (due height) (map_to_list (pending_burns m))).
  assert (Hes : Forall (fun e => pending_burns m !! e.1 = Some e.2) es).
  { apply Forall_forall. intros [id b] Hel. apply list_elem_of_In, filter_In in Hel as [Hel _].
    by apply list_elem_of_In, elem_of_map_to_list in Hel. }
  assert (Hin : forall id b, pending_burns m !! id = Some b ->
    bool_decide (id ∈ es.*1) = (scheduled_block_height b <=? height)).
  { intros id b Hb. destruct (Z.leb_spec (scheduled_block_height b) height) as [Hle|Hle].
    - apply bool_decide_eq_true_2, list_elem_of_fmap. exists (id, b). split; [done|].
      apply list_elem_of_In, filter_In. split; [by apply list_elem_of_In, elem_of_map_to_list|].
      unfold due. cbn. lia.
    - apply bool_decide_eq_false_2. intros ([id' b'] & -> & Hel)%list_elem_of_fmap.
      pose proof (proj1 (Forall_forall _ _) Hes _ Hel) as Hb'. cbn in Hb, Hb'. simplify_eq.
      apply list_elem_of_In, filter_In in Hel as [_ Hd]. unfold due in Hd. cbn in Hd. lia. }
  assert (Hout : forall id, pending_burns m !! id = None -> bool_decide (id ∈ es.*1) = false).
  { intros id Hn. apply bool_decide_eq_false_2. intros ([id' b'] & -> & Hel)%list_elem_of_fmap.
    pose proof (proj1 (Forall_forall _ _) Hes _ Hel) as Hb'. cbn in Hn, Hb'. congruence. }
  destruct (execute_list_spec es m [] (filter_keys_nodup _ _ (NoDup_fst_map_to_list _)) Hes) as (Hp & He & Ht).
  split_and!; [intros id|intros id|exact Ht|intros b; split; [done|]].
  - unfold execute_pending_burns. rewrite Hp. destruct (pending_burns m !! id) as [b|] eqn:Hb.
    + cbn. by rewrite (Hin _ _ Hb).
    + by rewrite Hout.
  - unfold execute_pending_burns. rewrite He. destruct (pending_burns m !! id) as [b|] eqn:Hb.
    + by rewrite (Hin _ _ Hb).
    + by rewrite Hout.
  - unfold create_burn_transaction. cbn. destruct (Z.ltb_spec (burn_amount b) (stake_amount b)); cbn; lia.
Qed.

(** * Which parameters can be changed *)

Lemma pv_parameter_names proposal :
  pv_validate_parameter_change proposal = Ok tt ->
  exists name, target_parameter proposal = Some name /\
    (name = "block_time" \/ name = "max_block_size" \/ name = "difficulty_adjustment_window" \/
     name = "masternode_collateral")%string.
Proof.
  unfold pv_validate_parameter_change. destruct (target_parameter proposal) as [name|]; [|done].
  destruct (new_value proposal) as [text|]; [|done]. cbn. intros E. exists name. split; [done|].
  do 4 (case_bool_decide; [by eauto|]). done.
Qed.

Lemma validate_proposal_type_ok config proposal height existing :
  validate_proposal config proposal height existing = Ok tt ->
  validate_type_specific_requirements proposal = Ok tt.
Proof.
  unfold validate_proposal. case_bool_decide; [done|]. intros (? & _ & E)%outcome_bind_inv.
  apply outcome_bind_inv in E as (? & _ & E). apply outcome_bind_inv in E as ([] & E & _). done.
Qed.

(** The two validators of a parameter change agree on two parameters only: a
    proposal that may be voted on and whose change can then be applied is about
    the block size or the difficulty window, although 28 parameters are
    registered. *)
Theorem governable_parameters `{HexCodec} config proposal height existing m p c :
  parameter_registry m = registry ->
  validate_proposal config proposal height existing = Ok tt ->
  validate_parameter_change m proposal p = Ok c ->
  (parameter_name c = "max_block_size" \/ parameter_name c = "difficulty_adjustment_window")%string.
Proof.
  intros Hreg Hv%validate_proposal_type_ok Hc.
  destruct (validated_change_applies m proposal p c Hreg Hc) as (Hn & Hal & _).
  unfold validate_parameter_change in Hc. case_bool_decide as Ht; [|done]. clear Hc.
  unfold validate_type_specific_requirements in Hv. rewrite Ht in Hv. destruct (_ || _); [done|].
  apply pv_parameter_names in Hv as (name & Hname & Hcases). 
  assert (En : parameter_name c = name) by congruence. rewrite En in Hal |- *.
  destruct Hcases as [->|[->|[->| ->]]]; [|by eauto..|]; vm_compute in Hal; discriminate.
Qed.

(** * Examples *)

(** A proposal that passes [validate_proposal]. *)
Definition block_size_proposal : Proposal :=
  mkProposal [1] [2] Types.ParameterChange 10 2010 "Raise the block size" [7] None
    (Some "max_block_size"%string) (Some "8000000"%string) None None None None [9]
    [TxInput_new [3] 0 [] 0 []] [TxOutput_new 1000000000 []] 0 [] 0.

Lemma governable_parameters_witness :
  exists c, validate_parameter_change (H := plain_hex) ParameterManager_new block_size_proposal
      ConsensusParams_default = Ok c /\
    (parameter_name c = "max_block_size" \/ parameter_name c = "difficulty_adjustment_window")%string.
Proof.
  exists (mkParameterChange "max_block_size" (VU64 (max_block_size ConsensusParams_default))
    (VU64 8000000) [1] 0).
  assert (E : validate_parameter_change (H := plain_hex) ParameterManager_new block_size_proposal
      ConsensusParams_default = Ok (mkParameterChange "max_block_size"
      (VU64 (max_block_size ConsensusParams_default)) (VU64 8000000) [1] 0)) by (vm_compute; reflexivity).
  split; [exact E|].
  exact (@governable_parameters plain_hex ProposalValidationConfig_default block_size_proposal 5 []
    ParameterManager_new ConsensusParams_default _ eq_refl ltac:(vm_compute; reflexivity) E).
Defined.

#[export] Instance sample_vote_codec : VoteCodec :=
  {| bincode_vote v := Some (vote_proposal_id v ++ voter_id v) |}.

(** Every valid proposal for a block size above a million bytes, the smallest
    size allowed, counts as malicious: when it fails its whole stake burns. *)
Example block_size_is_malicious : is_malicious_proposal block_size_proposal = true.
Proof. vm_compute. reflexivity. Qed.

Definition window_proposal : Proposal :=
  mkProposal [1] [2] Types.ParameterChange 10 2010 "A longer window" [7] None
    (Some "difficulty_adjustment_window"%string) (Some "4032"%string) None None None None [9]
    [TxInput_new [3] 0 [] 0 []] [TxOutput_new 1000000000 []] 0 [] 0.

(** A proposal without votes, 1000 blocks after its end. *)
Lemma participation_always_sufficient_witness :
  votes_cast (fresh_voting_state window_proposal) = 0 /\ u64_add 2010 1000 <= 3010.
Proof.
  exact (@participation_always_sufficient sample_primitives sample_vote_codec plain_hex
    VotingConfig_default (StakeBurningManager_new StakeBurningConfig_default)
    [VAdd window_proposal 5] [1] (fresh_voting_state window_proposal)
    (StakeBurningManager_new StakeBurningConfig_default) 3010 ConsensusParams_default
    ltac:(vm_compute; reflexivity) eq_refl ltac:(vm_compute; reflexivity)).
Defined.
