(* ===== verification/GovernanceActivation.v ===== *)
(** Activation of approved proposals and the coordinator of the governance crate
    (src/rusty-governance/src/: proposal_activation.rs,
    governance_coordinator.rs).

    Activation writes flags into the chain state; what a failed activation has
    already written stays written.  Numbers are stored as decimal text. *)

From Stdlib Require Import ZArith Lia List SpecFloat String Ascii.
From stdpp Require Import base option list numbers strings pretty gmap.
From coqutil Require Import Datatypes.RecordSetters.
From S2P Require Import Prelude Types Errors Transaction F64 Params Masternodes LiveTickets.
From S2P Require Import SamplePrimitives ChainState ParameterManager GovernanceVoting.

Import TriangleBracketNotations.

#[local] Open Scope Z_scope.

(** * proposal_activation.rs *)

Record ActivateProposalTx : Type := mkActivateProposalTx {
  activate_version : Z;
  activate_proposal_id : Hash;
  activation_block_height : Z;
  activate_approval_proof : ApprovalProof;
  activator_signature : bytes;
  activate_inputs : list TxInput;
  activate_outputs : list TxOutput;
  activate_lock_time : Z;
  activate_witness : list bytes;
}.

Record ActivationConfig : Type := mkActivationConfig {
  config_activation_delay : Z;
  max_activation_window : Z;
  min_activation_fee : Z;
}.

Definition ActivationConfig_default : ActivationConfig := mkActivationConfig 1000 10000 100000.

Record PendingActivation : Type := mkPendingActivation {
  pending_proposal : Proposal;
  pending_approval_proof : ApprovalProof;
  earliest_activation_height : Z;
  latest_activation_height : Z;
}.

Record ActivatedProposal : Type := mkActivatedProposal { activated_proposal : Proposal; applied : bool }.

Record ProposalActivationManager : Type := mkProposalActivationManager {
  activation_config : ActivationConfig;
  pending_activations : gmap Hash PendingActivation;
  activated_proposals : gmap Hash ActivatedProposal;
}.

Definition ProposalActivationManager_new (config : ActivationConfig) : ProposalActivationManager :=
  mkProposalActivationManager config ∅ ∅.

#[export] Instance ApprovalProof_eq_dec : EqDecision ApprovalProof.
Proof. solve_decision. Defined.

Abbreviation govR := (outcome GovernanceError).

Definition failure {A} (reason : string) : govR A := Err (ActivationFailure reason).

Definition validate_approval_proof (proposal : Proposal) (proof : ApprovalProof) : govR unit :=
  if approval_percentage_bp proof <? required_threshold_bp proof then failure "Insufficient approval" else
  if voting_end_height proof <? end_block_height proposal
  then failure "Voting ended before proposal end height" else
  let total_votes := u64_add (u64_add (yes_votes proof) (no_votes proof)) (abstain_votes proof) in
  if total_votes =? 0 then failure "No votes recorded" else
  let calculated_approval :=
    f64_div (f64_of_Z (yes_votes proof)) (f64_of_Z (u64_add (yes_votes proof) (no_votes proof))) in
  let calculated_approval_bp := f64_to_u64 (f64_mul calculated_approval (f64_of_Z 10000)) in
  if 10 <? Z.abs (calculated_approval_bp - approval_percentage_bp proof)
  then failure "Approval percentage calculation mismatch" else mret tt.

Definition schedule_activation (proposal : Proposal) (proof : ApprovalProof) (current_block_height : Z) :
    stM ProposalActivationManager GovernanceError unit :=
  _ ← lift (validate_approval_proof proposal proof);
  modify (fun m =>
    let earliest := u64_add current_block_height (config_activation_delay (activation_config m)) in
    let latest := u64_add earliest (max_activation_window (activation_config m)) in
    m <| pending_activations ::= <[proposal_id proposal := mkPendingActivation proposal proof earliest latest]> |>).

(** The bytes [sign_activation_transaction] signs. *)
Definition activation_sign_data (tx : ActivateProposalTx) : bytes :=
  to_le_bytes 4 (activate_version tx) ++ activate_proposal_id tx ++ to_le_bytes 8 (activation_block_height tx).

(** [sign] is the signing operation of the activator's key. *)
Definition create_activation_transaction (m : ProposalActivationManager) (id : Hash) (sign : bytes -> bytes)
    (current_block_height : Z) (fee_input : TxInput) (change_output : option TxOutput) :
    govR ActivateProposalTx :=
  pending ← ok_or (pending_activations m !! id) (ActivationFailure "Proposal not found in pending activations");
  if current_block_height <? earliest_activation_height pending then failure "Too early to activate" else
  if latest_activation_height pending <? current_block_height then failure "Activation window expired" else
  let tx := mkActivateProposalTx 1 id current_block_height (pending_approval_proof pending) (replicate 64 0)
    [fee_input] (match change_output with Some o => [o] | None => [] end) 0 [] in
  mret (tx <| activator_signature := sign (activation_sign_data tx) |>).

Definition validate_activation_transaction (m : ProposalActivationManager) (tx : ActivateProposalTx) :
    govR unit :=
  pending ← ok_or (pending_activations m !! activate_proposal_id tx)
    (ActivationFailure "Proposal not found in pending activations");
  if activation_block_height tx <? earliest_activation_height pending then failure "Activation too early" else
  if latest_activation_height pending <? activation_block_height tx
  then failure "Activation window expired" else
  if negb (bool_decide (activate_approval_proof tx = pending_approval_proof pending))
  then failure "Approval proof mismatch" else
  if bool_decide (activator_signature tx = replicate 64 0) then failure "Missing activator signature" else
  let input_value := foldl (fun acc _ => u64_add acc 1000000) 0 (activate_inputs tx) in
  let output_value := foldl (fun acc o => u64_add acc (value o)) 0 (activate_outputs tx) in
  if u64_saturating_sub input_value output_value <? min_activation_fee (activation_config m)
  then failure "Insufficient fee" else mret tt.

Section WithPrimitives.
Context `{Primitives} `{StoreCodec} `{VoteCodec} `{HexCodec}.

Abbreviation chainM := (stM BlockchainState GovernanceError).

Definition set_flag (key : string) (v : bytes) : chainM unit := modify (set_protocol_flag key v).

Definition need {A} (o : option A) (reason : string) : chainM A := lift (ok_or o (ActivationFailure reason)).

Definition is_target (proposal : Proposal) (name : string) : bool :=
  bool_decide (target_parameter proposal = Some name).

Definition apply_protocol_upgrade (proposal : Proposal) : chainM unit :=
  if is_target proposal "soft_fork_activation" then
    fork_id ← need (new_value proposal) "Missing fork ID for soft fork activation";
    set_flag ("soft_fork_" +:+ fork_id) (string_bytes "activated")
  else if is_target proposal "hard_fork_activation" then
    fork_height ← need (new_value proposal ≫= parse_uint u64_max) "Invalid fork height for hard fork activation";
    modify (set_hard_fork_height fork_height)
  else if is_target proposal "protocol_version" then
    new_version ← need (new_value proposal ≫= parse_uint u32_max) "Invalid protocol version";
    modify (set_protocol_version new_version)
  else throw (ActivationFailure "Unknown protocol upgrade parameter").

(** [String::from_utf8(bytes)] followed by [parse::<u64>]: text that is no
    number is refused by the second, whatever the first says. *)
Definition string_of_bytes (b : bytes) : string :=
  string_of_list_ascii ((fun z => ascii_of_N (Z.to_N z)) <$> b).

(** The balance stored under a flag, or zero. *)
Definition balance (s : BlockchainState) (key : string) : Z :=
  default 0 (b ← get_protocol_flag s key; parse_uint u64_max (string_of_bytes b)).

Definition show_u64 (v : Z) : string := pretty (Z.to_N v).

(** Take [amount] out of the balance, or fail. *)
Definition withdraw (key reason : string) (amount : Z) : chainM unit :=
  current_balance ← gets (fun s => balance s key);
  if current_balance <? amount then throw (ActivationFailure reason)
  else set_flag key (string_bytes (show_u64 (current_balance - amount))).

Definition spend_key (proposal : Proposal) : string :=
  "treasury_spend_" +:+ hex_encode (proposal_id proposal).

Definition apply_treasury_spend (proposal : Proposal) : chainM unit :=
  spend_amount ← need (new_value proposal ≫= parse_uint u64_max) "Invalid spend amount for treasury proposal";
  recipient ← need (recipient_address proposal) "Missing recipient address for treasury spend";
  if len recipient <? 20 then throw (ActivationFailure "Invalid recipient address format") else
  set_flag (spend_key proposal) (string_bytes (hex_encode recipient +:+ ":" +:+ show_u64 spend_amount));;
  withdraw "treasury_balance" "Insufficient treasury funds" spend_amount.

Definition apply_bug_fix (proposal : Proposal) : chainM unit :=
  if is_target proposal "emergency_patch" then
    patch_id ← need (new_value proposal) "Missing patch ID for emergency patch";
    set_flag ("emergency_patch_" +:+ patch_id) (string_bytes "active")
  else if is_target proposal "disable_feature" then
    feature ← need (new_value proposal) "Missing feature name to disable";
    set_flag ("feature_" +:+ feature +:+ "_disabled") (string_bytes "true")
  else if is_target proposal "enable_feature" then
    feature ← need (new_value proposal) "Missing feature name to enable";
    set_flag ("feature_" +:+ feature +:+ "_disabled") (string_bytes "false")
  else if is_target proposal "consensus_rule_override" then
    rule ← need (new_value proposal) "Missing rule name for consensus override";
    set_flag ("consensus_override_" +:+ rule)
      (string_bytes (default "No description"%string (bug_description proposal)))
  else throw (ActivationFailure "Unknown bug fix parameter").

(** [&proposal.proposal_id[..8]] of a 32-byte id. *)
Definition project_id (proposal : Proposal) : string := hex_encode (take 8 (proposal_id proposal)).

Definition apply_community_fund (proposal : Proposal) : chainM unit :=
  if is_target proposal "fund_allocation" then
    amount ← need (proposal_amount proposal) "Missing allocation amount for community fund";
    recipient ← need (recipient_address proposal)
      "Missing recipient address for community fund allocation";
    set_flag ("community_fund_allocation_" +:+ project_id proposal)
      (string_bytes (hex_encode recipient +:+ ":" +:+ show_u64 amount +:+ ":" +:+
                     hex_encode (proposal_id proposal)));;
    withdraw "community_fund_balance" "Insufficient community fund balance" amount
  else if is_target proposal "fund_deposit" then
    amount ← need (proposal_amount proposal) "Missing deposit amount for community fund";
    current_balance ← gets (fun s => balance s "community_fund_balance");
    set_flag "community_fund_balance" (string_bytes (show_u64 (u64_add current_balance amount)))
  else throw (ActivationFailure "Unknown community fund parameter").

Definition apply_proposal (proposal : Proposal) : chainM unit :=
  match proposal_type proposal with
  | ProtocolUpgrade => apply_protocol_upgrade proposal
  | Types.ParameterChange => mret tt
  | TreasurySpend => apply_treasury_spend proposal
  | BugFix => apply_bug_fix proposal
  | CommunityFund => apply_community_fund proposal
  end.

(** The manager and the chain state, both borrowed mutably. *)
Definition process_activation (tx : ActivateProposalTx) :
    stM (ProposalActivationManager * BlockchainState) GovernanceError unit := fun '(m, s) =>
  let id := activate_proposal_id tx in
  match pending_activations m !! id with
  | None => ((m, s), failure "Proposal not found in pending activations")
  | Some pending =>
      match get_current_block_height s with
      | Ok height =>
          if (earliest_activation_height pending <=? height) && (height <=? latest_activation_height pending)
          then
            let '(s, r) := apply_proposal (pending_proposal pending) s in
            match r with
            | Ok _ =>
                let proposal := pending_proposal pending in
                ((m <| activated_proposals ::= <[proposal_id proposal := mkActivatedProposal proposal true]> |>
                    <| pending_activations ::= delete id |>, s), Ok tt)
            | _ => ((m, s), r)
            end
          else ((m, s), failure "Proposal is not within its activation window")
      | Err _ => ((m, s), failure "Chain height not available")
      | Panic => ((m, s), Panic)
      | OutOfFuel => ((m, s), OutOfFuel)
      end
  end.

Definition get_activatable_proposals (m : ProposalActivationManager) (height : Z) : list Hash :=
  fst <$> List.filter (fun e => (earliest_activation_height e.2 <=? height) &&
                                (height <=? latest_activation_height e.2))
            (map_to_list (pending_activations m)).

Definition is_proposal_activated (m : ProposalActivationManager) (id : Hash) : bool :=
  bool_decide (is_Some (activated_proposals m !! id)).

(** * governance_coordinator.rs *)

Record GovernanceCoordinatorConfig : Type := mkGovernanceCoordinatorConfig {
  config_stake_burning : StakeBurningConfig;
  config_proposal_validation : ProposalValidationConfig;
  config_voting : VotingConfig;
  config_activation : ActivationConfig;
}.

Definition GovernanceCoordinatorConfig_default : GovernanceCoordinatorConfig :=
  mkGovernanceCoordinatorConfig StakeBurningConfig_default ProposalValidationConfig_default
    VotingConfig_default ActivationConfig_default.

Record GovernanceCoordinator : Type := mkGovernanceCoordinator {
  gc_config : GovernanceCoordinatorConfig;
  gc_stake_burning_manager : StakeBurningManager;
  gc_voting_coordinator : VotingCoordinator;
  gc_activation_manager : ProposalActivationManager;
  gc_parameter_manager : ParameterManager;
  gc_blockchain_state : option (Arc BlockchainState);
  gc_consensus_params : option (Arc ConsensusParams);
}.

(** The voting coordinator gets a burning manager of its own. *)
Definition GovernanceCoordinator_new (config : GovernanceCoordinatorConfig) : GovernanceCoordinator :=
  mkGovernanceCoordinator config
    (StakeBurningManager_new (config_stake_burning config))
    (VotingCoordinator_new (config_voting config) (StakeBurningManager_new (config_stake_burning config)))
    (ProposalActivationManager_new (config_activation config))
    ParameterManager_new None None.

Definition gc_connect (state : Arc BlockchainState) (params : Arc ConsensusParams)
    (g : GovernanceCoordinator) : GovernanceCoordinator :=
  g <| gc_blockchain_state := Some state |> <| gc_consensus_params := Some params |>
    <| gc_parameter_manager ::= connect_to_blockchain_state state params |>.

Definition gc_new_with_blockchain_state (config : GovernanceCoordinatorConfig) (state : Arc BlockchainState)
    (params : Arc ConsensusParams) : GovernanceCoordinator :=
  gc_connect state params (GovernanceCoordinator_new config).

Definition gc_update_consensus_params (params : Arc ConsensusParams) (g : GovernanceCoordinator) :
    GovernanceCoordinator :=
  g <| gc_consensus_params := Some params |> <| gc_parameter_manager ::= update_consensus_params params |>.

Abbreviation gcM := (stM GovernanceCoordinator GovernanceError).

(** Run an operation of the voting coordinator. *)
Definition on_voting {A} (op : stM VotingCoordinator GovernanceError A) : gcM A := fun g =>
  let '(v, r) := op (gc_voting_coordinator g) in (g <| gc_voting_coordinator := v |>, r).

Definition gc_process_governance_proposal (proposal : Proposal) (current_block_height : Z)
    (existing_proposals : list Hash) : gcM unit :=
  g ← gets (fun g => g);
  _ ← lift (map_err ProposalInvalid
        (validate_proposal (config_proposal_validation (gc_config g)) proposal current_block_height
           existing_proposals));
  on_voting (vc_add_proposal proposal current_block_height).

Definition gc_process_governance_vote (vote : Vote) (voter_power : Z) (live_tickets : LiveTicketsPool)
    (masternodes : MasternodeList) (required_ticket_value required_mn_collateral : Z) : gcM unit :=
  on_voting (vc_record_vote vote voter_power live_tickets masternodes required_ticket_value
               required_mn_collateral).

Definition find_by_id (id : Hash) (l : list Proposal) : option Proposal :=
  List.find (fun p => bool_decide (proposal_id p = id)) l.

(** The first of the lists that has the proposal. *)
Definition get_proposal_by_id (v : VotingCoordinator) (id : Hash) : option Proposal :=
  match find_by_id id (get_active_proposals v) with
  | Some p => Some p
  | None =>
      head (omap (fun o => find_by_id id (get_proposals_by_outcome v o))
              [Approved; RejectedOutcome; ExpiredOutcome; InsufficientVotes])
  end.

(** [format!("{:?}", proposal_type)] *)
Definition type_name (t : ProposalType) : string :=
  match t with
  | ProtocolUpgrade => "ProtocolUpgrade"
  | Types.ParameterChange => "ParameterChange"
  | TreasurySpend => "TreasurySpend"
  | BugFix => "BugFix"
  | CommunityFund => "CommunityFund"
  end.

Definition get_required_threshold (config : VotingConfig) (proposal : Proposal) : f64 :=
  default (f64_lit 60 100) (approval_thresholds config !! type_name (proposal_type proposal)).

Definition f64_to_u64_bp (v : f64) : Z := f64_round_to_u64 (f64_mul v (f64_of_Z 10000)).

Definition calculate_voting_state_hash (stats : ProposalVotingStats) : Hash :=
  blake3 (stats_proposal_id stats ++ to_le_bytes 8 (stats_yes_votes stats) ++
          to_le_bytes 8 (stats_no_votes stats) ++ to_le_bytes 8 (stats_abstain_votes stats) ++
          to_le_bytes 8 (stats_total_voting_power stats)).

Definition approval_proof_of (g : GovernanceCoordinator) (stats : ProposalVotingStats) (proposal : Proposal)
    (height : Z) : ApprovalProof :=
  mkApprovalProof (stats_total_voting_power stats) (stats_yes_votes stats) (stats_no_votes stats)
    (stats_abstain_votes stats) (f64_to_u64_bp (approval_rate stats))
    (f64_to_u64_bp (get_required_threshold (config_voting (gc_config g)) proposal)) height
    (calculate_voting_state_hash stats).

(** A parameter change that is no longer valid is only logged; a conflict with a
    scheduled one ends the whole run. *)
Definition schedule_change (proposal : Proposal) (height : Z) (p : ConsensusParams) : gcM unit := fun g =>
  if negb (bool_decide (proposal_type proposal = Types.ParameterChange)) then (g, Ok tt) else
  match validate_parameter_change (gc_parameter_manager g) proposal p with
  | Ok change =>
      let '(m, r) := schedule_parameter_change change (u64_add height (activation_delay_blocks p))
                       (gc_parameter_manager g) in
      (g <| gc_parameter_manager := m |>, map_err ParameterFailure r)
  | Err _ => (g, Ok tt)
  | Panic => (g, Panic)
  | OutOfFuel => (g, OutOfFuel)
  end.

Definition schedule_approved (proposal : Proposal) (proof : ApprovalProof) (height : Z) : gcM unit := fun g =>
  let '(m, r) := schedule_activation proposal proof height (gc_activation_manager g) in
  (g <| gc_activation_manager := m |>, r).

Definition activate_approved (stats : ProposalVotingStats) (proposal : Proposal) (height : Z)
    (p : ConsensusParams) : gcM unit :=
  proof ← gets (fun g => approval_proof_of g stats proposal height);
  schedule_change proposal height p;;
  schedule_approved proposal proof height.

Record GovernanceProcessingResult : Type := mkGovernanceProcessingResult {
  finalized_proposals : list Hash;
  approved_proposals : list Hash;
  rejected_proposals : list Hash;
}.

Fixpoint handle_finalized (height : Z) (p : ConsensusParams) (ids approved rejected : list Hash) :
    gcM (list Hash * list Hash) :=
  match ids with
  | [] => mret (approved, rejected)
  | id :: ids =>
      g ← gets (fun g => g);
      match get_proposal_stats (gc_voting_coordinator g) id with
      | Some stats =>
          match stats_outcome stats with
          | Some Approved =>
              match get_proposal_by_id (gc_voting_coordinator g) id with
              | Some proposal =>
                  _ ← activate_approved stats proposal height p;
                  handle_finalized height p ids (approved ++ [id]) rejected
              | None => handle_finalized height p ids approved rejected
              end
          | Some RejectedOutcome | Some InsufficientVotes =>
              handle_finalized height p ids approved (rejected ++ [id])
          | _ => handle_finalized height p ids approved rejected
          end
      | None => handle_finalized height p ids approved rejected
      end
  end.

Definition gc_process_ended_proposals (height : Z) (p : ConsensusParams)
    (live_tickets_count active_masternodes_count : Z) : gcM GovernanceProcessingResult :=
  finalized ← on_voting (fun v =>
    let '(v, ids) := vc_process_ended_proposals height p live_tickets_count active_masternodes_count v in
    (v, Ok ids));
  r ← handle_finalized height p finalized [] [];
  mret (mkGovernanceProcessingResult finalized r.1 r.2).

Definition process_activation_transaction (tx : ActivateProposalTx) :
    stM (GovernanceCoordinator * BlockchainState) GovernanceError unit := fun '(g, s) =>
  let '((m, s), r) := process_activation tx (gc_activation_manager g, s) in
  ((g <| gc_activation_manager := m |>, s), r).

(** [Arc::get_mut(live_params).unwrap()] panics while another handle of the
    allocation exists: the one of the parameter manager, or one held outside. *)
Definition shared (held_outside : Z -> bool) (g : GovernanceCoordinator) (a : Arc ConsensusParams) : bool :=
  held_outside (arc_id a) ||
  match pm_consensus_params (gc_parameter_manager g) with
  | Some b => arc_id b =? arc_id a
  | None => false
  end.

Definition apply_parameter_changes (held_outside : Z -> bool) (height : Z) :
    stM (GovernanceCoordinator * ConsensusParams) GovernanceError (list ParameterChange) := fun '(g, p) =>
  let run g :=
    let '((m, p), r) := apply_pending_changes height (gc_parameter_manager g, p) in
    ((g <| gc_parameter_manager := m |>, p), map_err ParameterFailure r) in
  match gc_consensus_params g with
  | Some a =>
      if shared held_outside g a then ((g, p), Panic)
      else run (g <| gc_consensus_params := Some (mkArc (arc_id a) p) |>)
  | None => run g
  end.

Definition gc_execute_pending_burns (height : Z) (g : GovernanceCoordinator) :
    GovernanceCoordinator * list Transaction :=
  let '(v, txs) := vc_execute_pending_burns height (gc_voting_coordinator g) in
  (g <| gc_voting_coordinator := v |>, txs).

(** Asks the coordinator's own burning manager. *)
Definition gc_is_proposal_burned (g : GovernanceCoordinator) (id : Hash) : bool :=
  is_proposal_burned (gc_stake_burning_manager g) id.

Definition gc_is_proposal_activated (g : GovernanceCoordinator) (id : Hash) : bool :=
  is_proposal_activated (gc_activation_manager g) id.

Definition gc_is_connected (g : GovernanceCoordinator) : bool :=
  bool_decide (is_Some (gc_blockchain_state g)) && bool_decide (is_Some (gc_consensus_params g)) &&
  pm_is_connected (gc_parameter_manager g).

End WithPrimitives.

(** * Numbers survive being stored as text *)

Lemma digit_val_char d : (d < 10)%N -> digit_val (pretty_N_char d) = Some (Z.of_N d).
Proof.
  intros Hd.
  assert (Hall : forall k, (k < 10)%nat -> digit_val (pretty_N_char (N.of_nat k)) = Some (Z.of_nat k)).
  { intros k Hk. do 10 (destruct k as [|k]; [reflexivity|]). lia. }
  specialize (Hall (N.to_nat d) ltac:(lia)). by rewrite N2Nat.id, N_nat_Z in Hall.
Qed.

Lemma take_digits_pretty x c s :
  exists k, 0 <= k /\ (0 < Z.of_N x -> 0 < k) /\
    take_digits 0 c (pretty_N_go x s) = take_digits (Z.of_N x) (c + k) s.
Proof.
  revert s. induction (N.lt_wf_0 x) as [x _ IH]; intros s.
  assert (x = 0 \/ 0 < x)%N as [->|Hx] by lia.
  { exists 0. rewrite Z.add_0_r. split_and!; [lia|lia|done]. }
  destruct (IH (x / 10)%N ltac:(by apply N.div_lt) (String (pretty_N_char (x mod 10)) s)) as (k & Hk & _ & E).
  exists (k + 1). split_and!; [lia|lia|]. rewrite pretty_N_go_step, E by done. cbn [take_digits].
  assert (Hm : (x mod 10 < 10)%N) by (by apply N.mod_lt). rewrite digit_val_char by done.
  rewrite Z.add_assoc. f_equal. pose proof (N.div_mod x 10 ltac:(lia)). lia.
Qed.

Lemma parse_show v : is_u64 v -> parse_uint u64_max (show_u64 v) = Some v.
Proof.
  intros [H0 H1]. unfold parse_uint, show_u64.
  destruct (decide (v = 0)) as [->|Hv]; [reflexivity|].
  unfold pretty, pretty_N. rewrite decide_False by lia.
  assert (Hhead : forall t, pretty_N_go (Z.to_N v) "" <> String "+" t).
  { intros t Ht. pose proof (take_digits_pretty (Z.to_N v) 0 "") as (k & Hk & Hk' & E).
    rewrite Ht in E. cbn in E. injection E as E1 E2. lia. }
  set (text := pretty_N_go (Z.to_N v) "") in *.
  assert (Hm : match text with String "+" rest => rest | _ => text end = text).
  { destruct text as [|[[] [] [] [] [] [] [] []] t]; try reflexivity. by destruct (Hhead t). }
  rewrite Hm. unfold text. pose proof (take_digits_pretty (Z.to_N v) 0 "") as (k & Hk & Hk' & ->).
  cbn [take_digits]. rewrite Z2N.id by lia. rewrite bool_decide_eq_true_2 by done.
  destruct (Z.ltb_spec 0 (0 + k)); [|lia]. by destruct (Z.leb_spec v u64_max); [|lia].
Qed.

Lemma string_of_string_bytes s : string_of_bytes (string_bytes s) = s.
Proof.
  unfold string_of_bytes, string_bytes. rewrite <- list_fmap_compose.
  induction s as [|c s IH]; [done|]. cbn. rewrite IH. by rewrite N2Z.id, ascii_N_embedding.
Qed.

Lemma balance_set key v s : is_u64 v -> balance (set_protocol_flag key (string_bytes (show_u64 v)) s) key = v.
Proof.
  intros Hv. unfold balance, get_protocol_flag, set_protocol_flag, db_insert. cbn.
  rewrite lookup_insert_eq. cbn. by rewrite string_of_string_bytes, parse_show.
Qed.

Lemma balance_other key key' b s : key' <> key -> balance (set_protocol_flag key b s) key' = balance s key'.
Proof.
  intros Hk. unfold balance, get_protocol_flag, set_protocol_flag, db_insert. cbn.
  rewrite lookup_insert_ne; [done|]. by intros ?%string_bytes_inj.
Qed.

Lemma balance_range s key : is_u64 (balance s key).
Proof.
  unfold balance. destruct (_ ≫= _) as [v|] eqn:E; [|done].
  apply bind_Some in E as (b & _ & E). by apply parse_uint_range in E.
Qed.

Lemma withdraw_spec key reason amount s :
  let r := withdraw key reason amount s in
  (snd r = Ok tt <-> amount <= balance s key) /\
  (0 <= amount -> balance (fst r) key = if amount <=? balance s key then balance s key - amount else balance s key) /\
  (forall other, other <> key -> get_protocol_flag (fst r) other = get_protocol_flag s other).
Proof.
  assert (E : withdraw key reason amount s =
    if balance s key <? amount then (s, Err (ActivationFailure reason))
    else (set_protocol_flag key (string_bytes (show_u64 (balance s key - amount))) s, Ok tt)).
  { unfold withdraw. rewrite stM_bind_run. cbn [gets]. by destruct (_ <? _). }
  cbv zeta. rewrite E. pose proof (balance_range s key) as Hr.
  destruct (Z.ltb_spec (balance s key) amount) as [Hlt|Hge]; cbn [fst snd].
  - rewrite (proj2 (Z.leb_gt _ _)) by lia. split; [split; [done|lia]|]. by split.
  - rewrite (proj2 (Z.leb_le _ _)) by lia. split; [done|]. split.
    + intros Ha. apply balance_set. unfold is_u64 in *. lia.
    + intros other Ho. unfold get_protocol_flag. cbn. rewrite lookup_insert_ne; [done|].
      by intros ?%string_bytes_inj.
Qed.

(** * The treasury *)

(** Spending from the treasury takes exactly the amount written in [new_value]
    out of the balance, if the balance covers it, and nothing otherwise; but the
    record of the spend is written before the balance is looked at, and stays
    when the spend fails. *)
Theorem treasury_spend_spec `{HexCodec} proposal s amount recipient :
  new_value proposal ≫= parse_uint u64_max = Some amount ->
  recipient_address proposal = Some recipient -> 20 <= len recipient ->
  let r := apply_treasury_spend proposal s in
  let before := balance s "treasury_balance" in
  (snd r = Ok tt <-> amount <= before) /\
  balance (fst r) "treasury_balance" = (if amount <=? before then before - amount else before) /\
  get_protocol_flag (fst r) (spend_key proposal) =
    Some (string_bytes (hex_encode recipient +:+ ":" +:+ show_u64 amount)).
Proof.
  intros Ha Hrec Hlen r before.
  set (s1 := set_protocol_flag (spend_key proposal)
    (string_bytes (hex_encode recipient +:+ ":" +:+ show_u64 amount)) s).
  assert (Er : r = withdraw "treasury_balance" "Insufficient treasury funds" amount s1).
  { unfold r, apply_treasury_spend, need. rewrite Ha, Hrec, stM_bind_run. cbn [lift ok_or].
    rewrite !stM_bind_run. cbn [lift ok_or].
    rewrite (proj2 (Z.ltb_ge (len recipient) 20)) by done. by rewrite stM_bind_run. }
  rewrite Er.
  assert (Hne : "treasury_balance"%string <> spend_key proposal) by done.
  assert (Hb : balance s1 "treasury_balance" = before) by (by apply balance_other).
  destruct (withdraw_spec "treasury_balance" "Insufficient treasury funds" amount s1) as (Hok & Hbal & Hoth).
  rewrite Hb in Hok, Hbal. split_and!; [exact Hok| |].
  - apply Hbal. apply bind_Some in Ha as (v & _ & Hv). apply parse_uint_range in Hv. lia.
  - rewrite Hoth by done. unfold get_protocol_flag, s1, set_protocol_flag, db_insert. cbn.
    by rewrite lookup_insert_eq.
Qed.

(** * Activation happens once, and only the proposal id counts *)

(** A proposal is activated inside its window and only once: after a successful
    activation it is no longer pending, and no further transaction activates it.
    Of the transaction nothing but the proposal id is looked at: two transactions
    for the same proposal have the same effect whatever their signatures, fees
    and approval proofs. *)
Theorem activation_once `{HexCodec} `{StoreCodec} tx tx' m s m' s' :
  activate_proposal_id tx' = activate_proposal_id tx ->
  process_activation tx (m, s) = ((m', s'), Ok tt) ->
  (exists pending height, pending_activations m !! activate_proposal_id tx = Some pending /\
     get_current_block_height s = Ok height /\
     earliest_activation_height pending <= height <= latest_activation_height pending /\
     apply_proposal (pending_proposal pending) s = (s', Ok tt)) /\
  process_activation tx' (m, s) = ((m', s'), Ok tt) /\
  process_activation tx' (m', s') = ((m', s'), failure "Proposal not found in pending activations").
Proof.
  intros Hid E. assert (E' : process_activation tx' (m, s) = ((m', s'), Ok tt))
    by (unfold process_activation in *; by rewrite Hid).
  unfold process_activation in E |- *. rewrite Hid.
  destruct (pending_activations m !! activate_proposal_id tx) as [pending|] eqn:Hp; [|done].
  destruct (get_current_block_height s) as [height| | |] eqn:Hh; try done.
  destruct (_ && _) eqn:Hw; [|done].
  destruct (apply_proposal (pending_proposal pending) s) as [s1 [[]| | |]] eqn:Ha; try done.
  injection E as <- <-. split_and!.
  - exists pending, height. apply andb_prop in Hw. split_and!; done || lia.
  - unfold process_activation in E'. rewrite Hid, Hp, Hh, Hw, Ha in E'. exact E'.
  - cbn [pending_activations]. destruct m as [c p a]. cbn. by rewrite lookup_delete_eq.
Qed.

(** * How the coordinator is wired *)

Section Wiring.
Context `{Primitives} `{StoreCodec} `{VoteCodec} `{HexCodec}.

Inductive gov_op : Type :=
| GConnect (state : Arc BlockchainState) (params : Arc ConsensusParams)
| GUpdate (params : Arc ConsensusParams)
| GPropose (proposal : Proposal) (height : Z) (existing : list Hash)
| GVote (vote : Vote) (power : Z) (tickets : LiveTicketsPool) (masternodes : MasternodeList)
    (ticket_value mn_collateral : Z)
| GEnd (height : Z) (p : ConsensusParams) (live active_masternodes : Z)
| GActivate (tx : ActivateProposalTx) (s : BlockchainState)
| GApply (held_outside : Z -> bool) (height : Z) (p : ConsensusParams)
| GBurn (height : Z).

Definition gov_step (g : GovernanceCoordinator) (op : gov_op) : GovernanceCoordinator :=
  match op with
  | GConnect state params => gc_connect state params g
  | GUpdate params => gc_update_consensus_params params g
  | GPropose proposal height existing => fst (gc_process_governance_proposal proposal height existing g)
  | GVote vote power tickets masternodes tv mc =>
      fst (gc_process_governance_vote vote power tickets masternodes tv mc g)
  | GEnd height p live mns => fst (gc_process_ended_proposals height p live mns g)
  | GActivate tx s => fst (fst (process_activation_transaction tx (g, s)))
  | GApply held_outside height p => fst (fst (apply_parameter_changes held_outside height (g, p)))
  | GBurn height => fst (gc_execute_pending_burns height g)
  end.

Definition gov_run : GovernanceCoordinator -> list gov_op -> GovernanceCoordinator := foldl gov_step.

(** The coordinator and its parameter manager hold the same handle, and the
    coordinator's own burning manager is never used. *)
Definition wired (config : GovernanceCoordinatorConfig) (g : GovernanceCoordinator) : Prop :=
  gc_consensus_params g = pm_consensus_params (gc_parameter_manager g) /\
  gc_stake_burning_manager g = StakeBurningManager_new (config_stake_burning config).

Lemma on_voting_wired {A} config (op : stM VotingCoordinator GovernanceError A) :
  preserves (wired config) (on_voting op).
Proof.
  intros g Hg. unfold on_voting. destruct (op _) as [v r]. destruct r; exact Hg.
Qed.

Lemma schedule_change_wired config proposal height p :
  preserves (wired config) (schedule_change proposal height p).
Proof.
  intros g Hg. unfold schedule_change. destruct (negb _); [exact Hg|].
  destruct (validate_parameter_change _ _ _) as [c| | |]; try exact Hg.
  unfold schedule_parameter_change. destruct (existsb _ _); exact Hg.
Qed.

Lemma schedule_approved_wired config proposal proof height :
  preserves (wired config) (schedule_approved proposal proof height).
Proof.
  intros g Hg. unfold schedule_approved. destruct (schedule_activation _ _ _ _) as [m r].
  destruct r; exact Hg.
Qed.

#[local] Hint Resolve on_voting_wired schedule_change_wired schedule_approved_wired : keep.

Lemma activate_approved_wired config stats proposal height p :
  preserves (wired config) (activate_approved stats proposal height p).
Proof. unfold activate_approved. keep. Qed.

#[local] Hint Resolve activate_approved_wired : keep.

Lemma handle_finalized_wired config height p ids approved rejected :
  preserves (wired config) (handle_finalized height p ids approved rejected).
Proof.
  revert approved rejected. induction ids as [|id ids IH]; intros approved rejected; cbn [handle_finalized].
  - auto with keep.
  - keep; auto.
Qed.

#[local] Hint Resolve handle_finalized_wired : keep.

Lemma apply_ready_params height applied id s :
  pm_consensus_params (fst (fst (apply_ready height applied id s))) = pm_consensus_params (fst s).
Proof.
  destruct s as [m p]. unfold apply_ready. destruct (pending_changes m !! id) as [c|]; [|done].
  destruct (pm_apply_parameter_change c p); by destruct m.
Qed.

Lemma apply_list_params height applied ids s :
  pm_consensus_params (fst (fst (apply_ready_list height applied ids s))) = pm_consensus_params (fst s).
Proof.
  revert applied s. induction ids as [|id ids IH]; intros applied s; [done|].
  cbn [apply_ready_list]. rewrite stM_bind_run. pose proof (apply_ready_params height applied id s) as Hp.
  destruct (apply_ready height applied id s) as [s' [l| | |]]; try exact Hp. by rewrite IH.
Qed.

Lemma gov_step_wired config g op : wired config g -> wired config (gov_step g op).
Proof.
  intros Hg. destruct op as [state params|params|proposal h ex|vote power tk mns tv mc|h p l mns|tx s|held h p|h];
    cbn [gov_step].
  - by destruct Hg.
  - by destruct Hg.
  - apply (preserves_fst (wired config) (gc_process_governance_proposal proposal h ex)); [|done].
    unfold gc_process_governance_proposal. keep.
  - apply (preserves_fst (wired config) (gc_process_governance_vote vote power tk mns tv mc)); [|done].
    apply on_voting_wired.
  - apply (preserves_fst (wired config) (gc_process_ended_proposals h p l mns)); [|done].
    unfold gc_process_ended_proposals. keep.
  - unfold process_activation_transaction. destruct (process_activation _ _) as [[m s'] r]. exact Hg.
  - unfold apply_parameter_changes. destruct Hg as [Hp Hb].
    assert (Hrun : forall g', gc_parameter_manager g' = gc_parameter_manager g ->
      gc_consensus_params g' = pm_consensus_params (gc_parameter_manager g) ->
      gc_stake_burning_manager g' = gc_stake_burning_manager g ->
      wired config (fst (fst (let '((m, p), r) := apply_pending_changes h (gc_parameter_manager g', p) in
        ((g' <| gc_parameter_manager := m |>, p), map_err ParameterFailure r))))).
    { intros g' Hm Hc Hs. rewrite Hm. pose proof (apply_list_params h []
        (fst <$> List.filter (ready h) (map_to_list (pending_changes (gc_parameter_manager g))))
        (gc_parameter_manager g, p)) as Hpp. unfold apply_pending_changes. cbn [fst] in *.
      destruct (apply_ready_list _ _ _ _) as [[m p'] r]. cbn [fst] in *.
      destruct g'; cbn in *. split; cbn; unfold RecordSetters.constant; congruence. }
    destruct (gc_consensus_params g) as [a|] eqn:Ea.
    + destruct (shared held g a) eqn:Es; [by split; cbn; congruence|].
      unfold shared in Es. rewrite <- Hp, Z.eqb_refl, orb_true_r in Es. done.
    + apply Hrun; congruence.
  - unfold gc_execute_pending_burns. destruct (vc_execute_pending_burns _ _). exact Hg.
Qed.

Lemma gov_run_wired config ops : wired config (gov_run (GovernanceCoordinator_new config) ops).
Proof. unfold gov_run. apply foldl_inv; [done|]. intros; by apply gov_step_wired. Qed.

(** Two consequences of the coordinator's wiring, whatever happened before.  Once
    it is connected to live parameters, applying parameter changes panics:
    [Arc::get_mut] needs the only handle, and the parameter manager holds
    another one.  And no proposal is ever reported as burned, since burns are
    recorded in the voting coordinator's burning manager and looked up in the
    coordinator's own. *)
Theorem coordinator_wiring config ops :
  let g := gov_run (GovernanceCoordinator_new config) ops in
  (forall a held_outside height p, gc_consensus_params g = Some a ->
     apply_parameter_changes held_outside height (g, p) = ((g, p), Panic)) /\
  (forall id, gc_is_proposal_burned g id = false).
Proof.
  intros g. destruct (gov_run_wired config ops) as [Hp Hb]. fold g in Hp, Hb. split.
  - intros a held height p Ha. unfold apply_parameter_changes. rewrite Ha. unfold shared.
    by rewrite <- Hp, Ha, Z.eqb_refl, orb_true_r.
  - intros id. unfold gc_is_proposal_burned, is_proposal_burned. rewrite Hb. cbn.
    by rewrite lookup_empty.
Qed.

End Wiring.

(** * Examples *)

(** A proposal approved with three quarters of the power and one quarter
    abstaining: the share recorded in the proof counts abstentions, the check
    does not, and the activation is refused. *)
Example abstention_blocks_activation :
  let stats := voting_stats [1] ((fresh_voting_state window_proposal)
    <| yes_power := 3 |> <| abstain_power := 1 |> <| voting_power := 4 |>
    <| voting_outcome := Some Approved |>) in
  let g := GovernanceCoordinator_new GovernanceCoordinatorConfig_default in
  validate_approval_proof window_proposal (approval_proof_of g stats window_proposal 2200) =
  failure "Approval percentage calculation mismatch".
Proof. vm_compute. reflexivity. Qed.

(** A treasury proposal that names its amount where the validator looks for it,
    in [amount], cannot be applied, since the amount is read from [new_value]. *)
Definition spend_proposal (text : option string) : Proposal :=
  mkProposal [1] [2] TreasurySpend 10 2010 "Pay the developers" [7] None None text None
    (Some (replicate 32 5)) (Some 100) None [9] [TxInput_new [3] 0 [] 0 []]
    [TxOutput_new 1000000000 []] 0 [] 0.

Example amount_is_read_from_new_value :
  validate_proposal ProposalValidationConfig_default (spend_proposal None) 5 [] = Ok tt /\
  snd (apply_treasury_spend (H2 := plain_hex) (spend_proposal None) BlockchainState_new) =
    failure "Invalid spend amount for treasury proposal".
Proof. split; vm_compute; reflexivity. Qed.

Definition funded : BlockchainState :=
  set_protocol_flag "treasury_balance" (string_bytes "250") BlockchainState_new.

Lemma treasury_spend_spec_witness :
  let r := apply_treasury_spend (H2 := plain_hex) (spend_proposal (Some "100"%string)) funded in
  snd r = Ok tt /\ balance (fst r) "treasury_balance" = 150.
Proof.
  destruct (@treasury_spend_spec plain_hex (spend_proposal (Some "100"%string)) funded 100 (replicate 32 5)
    eq_refl eq_refl ltac:(vm_compute; discriminate)) as (Hok & Hb & _).
  split; [apply Hok; vm_compute; discriminate|]. rewrite Hb. vm_compute. reflexivity.
Defined.

(** A spend that is due at height 5. *)
Definition due_spend : ProposalActivationManager :=
  (ProposalActivationManager_new ActivationConfig_default) <| pending_activations :=
    {[ [1] := mkPendingActivation (spend_proposal (Some "100"%string))
                (mkApprovalProof 1 1 0 0 10000 6600 5 []) 0 10 ]} |>.

Definition activation_of (id : Hash) (sig : bytes) : ActivateProposalTx :=
  mkActivateProposalTx 1 id 5 (mkApprovalProof 1 1 0 0 10000 6600 5 []) sig [] [] 0 [].

Lemma activation_once_witness :
  let s := funded in
  exists m' s', process_activation (H2 := plain_hex) (activation_of [1] [7]) (due_spend, s) = ((m', s'), Ok tt) /\
    process_activation (H2 := plain_hex) (activation_of [1] []) (m', s') =
      ((m', s'), failure "Proposal not found in pending activations").
Proof.
  set (r := process_activation (H2 := plain_hex) (activation_of [1] [7]) (due_spend, funded)).
  assert (E : snd r = Ok tt) by (vm_compute; reflexivity).
  assert (Er : r = ((fst (fst r), snd (fst r)), Ok tt)) by (rewrite <- E; by rewrite <- !surjective_pairing).
  exists (fst (fst r)), (snd (fst r)). split; [exact Er|].
  exact (proj2 (proj2 (@activation_once plain_hex _ (activation_of [1] [7]) (activation_of [1] [])
    due_spend funded _ _ eq_refl Er))).
Defined.
