(* ===== verification/SidechainTypes.v ===== *)
(** Data of the sidechain modules (src/rusty-core/src/sidechain/types.rs).

    Time ([SystemTime::now]) is an argument.  The bincode encodings are an
    interface, [SidechainCodec]; a [None] is a failed serialization.  The error
    strings of these modules are kept without the numbers and hashes that some
    of them print. *)

From Stdlib Require Import ZArith Lia List.
From stdpp Require Import base option list numbers strings gmap.
From S2P Require Import Prelude Types Transaction.

#[local] Open Scope Z_scope.

(** * Fraud proofs *)

Inductive FraudType : Type :=
| InvalidStateTransition
| DoubleSpending
| InvalidCrossChainTx
| UnauthorizedSignature
| InvalidVMExecution.

#[export] Instance FraudType_eq_dec : EqDecision FraudType.
Proof. solve_decision. Defined.

Record FraudEvidence : Type := mkFraudEvidence {
  pre_state : bytes;
  post_state : bytes;
  fraudulent_operation : bytes;
  witness_data : bytes;
  additional_evidence : gmap string bytes;
}.

Record FraudProof : Type := mkFraudProof {
  fraud_type : FraudType;
  fraud_block_height : Z;
  fraud_tx_index : option Z;
  evidence : FraudEvidence;
  challenger_address : bytes;
  proof_challenge_bond : Z;
  response_deadline : Z;
}.

(** * Blocks and transactions *)

Record SidechainBlockHeader : Type := mkSidechainBlockHeader {
  sc_version : Z;
  sc_height : Z;
  sc_previous_block_hash : Hash;
  sc_merkle_root : Hash;
  sc_cross_chain_merkle_root : Hash;
  sc_state_root : Hash;
  sc_timestamp : Z;
  sc_difficulty_target : Z;
  sc_nonce : Z;
  sc_sidechain_id : Hash;
  sc_federation_epoch : Z;
  sc_mainchain_anchor_height : Z;
  sc_mainchain_anchor_hash : Hash;
}.

Definition SidechainBlockHeader_new (now : Z)
    (previous_block_hash merkle_root cross_chain_merkle_root state_root : Hash) (height : Z)
    (sidechain_id : Hash) (anchor_height : Z) (anchor_hash : Hash) (federation_epoch : Z) :
    SidechainBlockHeader :=
  mkSidechainBlockHeader 1 height previous_block_hash merkle_root cross_chain_merkle_root
    state_root now 486604799 0 sidechain_id federation_epoch anchor_height anchor_hash.

Record SidechainOutPoint : Type := mkSidechainOutPoint { sc_txid : Hash; sc_vout : Z }.

Record SidechainTxInput : Type := mkSidechainTxInput {
  sc_previous_output : SidechainOutPoint;
  sc_script_sig : bytes;
  sc_sequence : Z;
}.

Record SidechainTxOutput : Type := mkSidechainTxOutput {
  sc_value : Z;
  sc_asset_id : Hash;
  sc_script_pubkey : bytes;
  sc_data : bytes;
}.

Inductive VMType : Type := EVM | WASM.

Record VMExecutionData : Type := mkVMExecutionData {
  vm_type : VMType;
  bytecode : bytes;
  gas_limit : Z;
  gas_price : Z;
  input_data : bytes;
}.

Record SidechainTransaction : Type := mkSidechainTransaction {
  sc_tx_version : Z;
  sc_inputs : list SidechainTxInput;
  sc_outputs : list SidechainTxOutput;
  sc_lock_time : Z;
  vm_data : option VMExecutionData;
  sc_fee : Z;
}.

Record FederationSignature : Type := mkFederationSignature {
  fed_signature : bytes;
  signer_bitmap : bytes;
  fed_threshold : Z;
  fed_epoch : Z;
  message_hash : Hash;
}.

(** [u8::count_ones]: the bits 0 to 7. *)
Definition count_ones (byte : Z) : Z :=
  foldr (fun i n => Z.b2z (Z.testbit byte i) + n) 0 (seqZ 0 8).

Definition count_signers (s : FederationSignature) : Z :=
  foldl (fun count byte => wrap32 (count + count_ones byte)) 0 (signer_bitmap s).

Record CrossChainProof : Type := mkCrossChainProof {
  merkle_proof : list Hash;
  proof_block_header : bytes;
  transaction_data : bytes;
  tx_index : Z;
}.

Record CrossChainTransaction : Type := mkCrossChainTransaction {
  cc_id : Hash;
  cc_amount : Z;
  cc_recipient_address : bytes;
  cc_source_chain : Hash;
  cc_destination_chain : Hash;
  cc_proof : CrossChainProof;
  cc_federation_signatures : list FederationSignature;
  cc_metadata : bytes;
}.

Record SidechainBlock : Type := mkSidechainBlock {
  sc_header : SidechainBlockHeader;
  sc_transactions : list SidechainTransaction;
  cross_chain_transactions : list CrossChainTransaction;
  fraud_proofs : list FraudProof;
  federation_signature : option FederationSignature;
}.

Definition SidechainBlock_new (header : SidechainBlockHeader)
    (transactions : list SidechainTransaction) : SidechainBlock :=
  mkSidechainBlock header transactions [] [] None.

Definition SidechainBlock_height (b : SidechainBlock) : Z := sc_height (sc_header b).

(** * Encodings

    What the [report_] functions of fraud_proofs.rs serialize as the fraudulent
    operation, one constructor per function. *)

Inductive Reported : Type :=
| ReportedDoubleSpend (double_spend original : Transaction)
| ReportedSignature (masternode_id message signature : bytes)
| ReportedTransaction (tx : Transaction)
| ReportedState (masternode_id data : bytes)
| ReportedMasternode (masternode_id : bytes)
| ReportedCrossChain (tx : CrossChainTransaction)
| ReportedVM (data : VMExecutionData)
| ReportedViolation (description : string) (tx : option Transaction) (block : option SidechainBlock)
| ReportedHeader (header : SidechainBlockHeader)
| ReportedMissing (block_hash : Hash) (count : Z)
| ReportedVotes (header : SidechainBlockHeader) (votes : list TicketVote).

Class SidechainCodec : Type := {
  bincode_sidechain_header : SidechainBlockHeader -> option bytes;
  bincode_cross_chain_tx : CrossChainTransaction -> option bytes;
  bincode_sidechain_tx : SidechainTransaction -> option bytes;
  bincode_fraud_proof : FraudProof -> option bytes;
  bincode_reported : Reported -> option bytes;
  bincode_fraud_notification : FraudProof -> Hash -> option bytes;
}.

Section WithCodec.
  Context `{Primitives} `{SidechainCodec}.

(** The [hash] methods: [unwrap_or_default] hashes the empty string when the
    serialization fails. *)
Definition SidechainBlockHeader_hash (h : SidechainBlockHeader) : Hash :=
  blake3 (default [] (bincode_sidechain_header h)).

Definition CrossChainTransaction_hash (tx : CrossChainTransaction) : Hash :=
  blake3 (default [] (bincode_cross_chain_tx tx)).

Definition SidechainBlock_hash (b : SidechainBlock) : Hash := SidechainBlockHeader_hash (sc_header b).

End WithCodec.

(** The chain id of the main chain, [[0u8; 32]]. *)
Definition MAINCHAIN : Hash := replicate 32 0.

(** An encoding for examples: fields that matter, in a row. *)
Definition sample_sidechain_codec : SidechainCodec := {|
  bincode_sidechain_header h := Some (to_le_bytes 8 (sc_height h) ++ sc_previous_block_hash h);
  bincode_cross_chain_tx tx := Some (cc_id tx ++ to_le_bytes 8 (cc_amount tx));
  bincode_sidechain_tx tx := Some (to_le_bytes 4 (sc_lock_time tx));
  bincode_fraud_proof p := Some (challenger_address p ++ fraudulent_operation (evidence p));
  bincode_reported r := match r with ReportedMasternode id => Some id | _ => Some [] end;
  bincode_fraud_notification p id := Some id;
|}.
