(* ===== verification/Federation.v ===== *)
(** Sidechain federations (src/rusty-core/src/sidechain/: federation_manager.rs,
    federation_integrator.rs).

    The BLS library threshold_crypto is the interface [BLS].  The proposals
    behind the integrator's shared handle are an argument of the one method that
    reads them, and so is the order in which a [HashMap] is visited. *)

From Stdlib Require Import ZArith Lia List SpecFloat.
From stdpp Require Import base option list numbers strings gmap.
From coqutil Require Import Datatypes.RecordSetters.
From S2P Require Import Prelude Types Transaction F64 GovernanceState SidechainTypes.

Import TriangleBracketNotations.

#[local] Open Scope Z_scope.

Class BLS : Type := {
  BlsPublicKey : Type;
  BlsSignature : Type;
  bls_public_key_from_bytes : bytes -> option BlsPublicKey;
  bls_signature_from_bytes : bytes -> option BlsSignature;
  bls_verify : BlsPublicKey -> BlsSignature -> bytes -> bool;
}.

Abbreviation textR := (outcome string).

Definition BLS_PUBLIC_KEY_BYTES : Z := 48.
Definition BLS_SIGNATURE_BYTES : Z := 96.

(** * Epochs *)

Record FederationEpoch : Type := mkFederationEpoch {
  epoch_number : Z;
  epoch_members : list MasternodeID;
  epoch_threshold : Z;
  epoch_start : Z;
  epoch_end : option Z;
  epoch_keys : list bytes;
}.

Definition FederationEpoch_new (epoch : Z) (members : list MasternodeID) (threshold start_height : Z)
    (public_keys : list bytes) : FederationEpoch :=
  mkFederationEpoch epoch members threshold start_height None public_keys.

Definition is_threshold_met (e : FederationEpoch) (signer_count : Z) : bool :=
  epoch_threshold e <=? signer_count.

Definition min_signers_required (e : FederationEpoch) : Z := epoch_threshold e.

Definition federation_size (e : FederationEpoch) : Z := len (epoch_members e).

(** * The manager *)

Record FederationManager : Type := mkFederationManager {
  epochs : gmap Hash (gmap Z FederationEpoch);
  current_epochs : gmap Hash Z;
  epoch_transition_blocks : Z;
}.

Definition FederationManager_new (epoch_transition_blocks : Z) : FederationManager :=
  mkFederationManager ∅ ∅ epoch_transition_blocks.

Abbreviation fedM := (stM FederationManager string).

(** The checks on members, threshold and keys that [initialize_federation] and
    [transition_epoch] share, with their messages. *)
Definition check_federation (no_member bad_threshold bad_keys : string) (members : list MasternodeID)
    (threshold : Z) (public_keys : list bytes) : textR unit :=
  if len members =? 0 then Err no_member else
  if (threshold =? 0) || (wrap32 (len members) <? threshold) then Err bad_threshold else
  if negb (len public_keys =? len members) then Err bad_keys else mret tt.

(** [epochs.entry(id).or_insert_with(HashMap::new).insert(epoch, e)] *)
Definition insert_epoch (id : Hash) (e : FederationEpoch) (m : FederationManager) : FederationManager :=
  m <| epochs ::= (fun es => <[id := <[epoch_number e := e]> (default ∅ (es !! id))]> es) |>.

Definition initialize_federation (sidechain_id : Hash) (members : list MasternodeID)
    (threshold start_height : Z) (public_keys : list bytes) : fedM Z :=
  lift (check_federation "Federation must have at least one member" "Threshold out of range"
          "Public keys count must match members count" members threshold public_keys);;
  modify (insert_epoch sidechain_id (FederationEpoch_new 1 members threshold start_height public_keys));;
  modify (fun m => m <| current_epochs ::= <[sidechain_id := 1]> |>);;
  mret 1.

Definition get_epoch (m : FederationManager) (sidechain_id : Hash) (epoch : Z) : option FederationEpoch :=
  es ← epochs m !! sidechain_id; es !! epoch.

Definition get_current_epoch (m : FederationManager) (sidechain_id : Hash) : option FederationEpoch :=
  current ← current_epochs m !! sidechain_id; get_epoch m sidechain_id current.

(** [epochs.get_mut(id).and_then(|epochs| epochs.get_mut(epoch))] with an update. *)
Definition alter_epoch (id : Hash) (epoch : Z) (f : FederationEpoch -> FederationEpoch)
    (m : FederationManager) : FederationManager :=
  m <| epochs ::= alter (alter f epoch) id |>.

Definition transition_epoch (sidechain_id : Hash) (new_members : list MasternodeID)
    (new_threshold current_height : Z) (new_public_keys : list bytes) : fedM Z :=
  lift (check_federation "New federation must have at least one member" "New threshold out of range"
          "New public keys count must match members count" new_members new_threshold new_public_keys);;
  m ← gets id;
  current ← lift (ok_or (current_epochs m !! sidechain_id) "Sidechain federation not initialized"%string);
  modify (alter_epoch sidechain_id current (fun e => e <| epoch_end := Some current_height |>));;
  let next := u64_add current 1 in
  modify (insert_epoch sidechain_id
            (FederationEpoch_new next new_members new_threshold current_height new_public_keys));;
  modify (fun m => m <| current_epochs ::= <[sidechain_id := next]> |>);;
  mret next.

Definition should_transition_epoch (m : FederationManager) (sidechain_id : Hash) (current_height : Z) :
    bool :=
  match get_current_epoch m sidechain_id with
  | Some e =>
      match epoch_end e with
      | Some end_height => end_height <=? current_height
      | None => u64_add (epoch_start e) (epoch_transition_blocks m) <=? current_height
      end
  | None => false
  end.

(** The threshold of an epoch whose members are replaced: the old ratio, rounded
    up in binary64, and at most the number of members. *)
Definition scaled_threshold (old_threshold old_size new_size : Z) : Z :=
  let t :=
    if 0 <? old_size
    then Z.min u32_max (f64_ceil_to_u64
           (f64_mul (f64_div (f64_of_Z old_threshold) (f64_of_Z old_size)) (f64_of_Z new_size)))
    else 1 in
  Z.min t (wrap32 new_size).

Definition update_federation_members (sidechain_id : Hash) (new_members : list MasternodeID)
    (new_public_keys : list bytes) : fedM unit :=
  if len new_members =? 0 then throw "Federation must have at least one member"%string else
  if negb (len new_public_keys =? len new_members)
  then throw "Public keys count must match members count"%string else
  m ← gets id;
  current ← lift (ok_or (current_epochs m !! sidechain_id) "Sidechain federation not initialized"%string);
  match get_epoch m sidechain_id current with
  | Some _ =>
      modify (alter_epoch sidechain_id current (fun e =>
        mkFederationEpoch (epoch_number e) new_members
          (scaled_threshold (epoch_threshold e) (len (epoch_members e)) (len new_members))
          (epoch_start e) (epoch_end e) new_public_keys))
  | None => throw "Current epoch not found"%string
  end.

Record FederationStats : Type := mkFederationStats {
  total_sidechains : Z;
  total_epochs : Z;
  total_members : Z;
  active_sidechains : Z;
}.

Definition sum_len {A B} (f : A -> list B) (l : list A) : Z :=
  foldr (fun a n => len (f a) + n) 0 l.

Definition fm_get_stats (m : FederationManager) : FederationStats :=
  let all := (map_to_list (epochs m)).*2 in
  mkFederationStats (len all)
    (foldr (fun es n => Z.of_nat (size es) + n) 0 all)
    (foldr (fun es n => sum_len epoch_members (map_to_list es).*2 + n) 0 all)
    (Z.of_nat (size (current_epochs m))).

(** * Signatures *)

(** Bit [index] of the bitmap, from the most significant bit of each byte. *)
Definition is_signer_selected (bitmap : bytes) (index : Z) : bool :=
  match bitmap !! Z.to_nat (index / 8) with
  | None => false
  | Some byte => negb (Z.land byte (Z.shiftl 1 (7 - index mod 8)) =? 0)
  end.

Definition ensure_no_unknown_signers (bitmap : bytes) (total_members : Z) : textR unit :=
  if existsb (is_signer_selected bitmap) (seqZ total_members (len bitmap * 8 - total_members))
  then Err "Signer bitmap references unknown federation members"%string else mret tt.

Section WithBLS.
Context `{BLS}.

Definition parse_public_key (key : bytes) : textR BlsPublicKey :=
  if negb (len key =? BLS_PUBLIC_KEY_BYTES) then Err "BLS public key must be 48 bytes"%string else
  ok_or (bls_public_key_from_bytes key) "Invalid BLS public key bytes"%string.

Definition parse_signature (signature : bytes) : textR BlsSignature :=
  if negb (len signature =? BLS_SIGNATURE_BYTES) then Err "BLS signature must be 96 bytes"%string else
  ok_or (bls_signature_from_bytes signature) "Invalid BLS signature bytes"%string.

(** The loop over the members: the number of signers and the parsed keys. *)
Fixpoint collect_signers (bitmap : bytes) (keys : list bytes) (index : Z) : textR (Z * list BlsPublicKey) :=
  match keys with
  | [] => mret (0, [])
  | key :: keys =>
      if is_signer_selected bitmap index then
        pk ← parse_public_key key;
        '(count, pks) ← collect_signers bitmap keys (index + 1);
        mret (count + 1, pk :: pks)
      else collect_signers bitmap keys (index + 1)
  end.

Definition aggregate_signer_public_keys (public_keys : list bytes) (bitmap : bytes) :
    textR (BlsPublicKey * Z) :=
  if len bitmap =? 0 then Err "Signer bitmap cannot be empty"%string else
  ensure_no_unknown_signers bitmap (len public_keys);;
  '(count, pks) ← collect_signers bitmap public_keys 0;
  if wrap32 count =? 0 then Err "Signer bitmap does not reference any known federation members"%string else
  pk ← unwrap (pks !! 0%nat);
  mret (pk, wrap32 count).

Definition verify_federation_signature_with_public_keys (public_keys : list bytes)
    (signature : FederationSignature) (message : bytes) (required_threshold : Z) : textR unit :=
  if len public_keys =? 0 then Err "Federation must provide at least one public key"%string else
  if fed_threshold signature =? 0 then Err "Signature threshold must be greater than zero"%string else
  if len (fed_signature signature) =? 0 then Err "Signature cannot be empty"%string else
  if len (signer_bitmap signature) =? 0 then Err "Signer bitmap cannot be empty"%string else
  if negb (bool_decide (message = message_hash signature)) then Err "Message hash mismatch"%string else
  '(pk, count) ← aggregate_signer_public_keys public_keys (signer_bitmap signature);
  if count <? Z.max required_threshold (fed_threshold signature) then Err "Insufficient signers"%string else
  parsed ← parse_signature (fed_signature signature);
  if bls_verify pk parsed message then mret tt
  else Err "BLS threshold signature verification failed"%string.

Definition verify_threshold_signature (m : FederationManager) (sidechain_id : Hash) (epoch : Z)
    (signature : FederationSignature) (message : bytes) : bool :=
  match get_epoch m sidechain_id epoch with
  | None => false
  | Some e =>
      is_ok (verify_federation_signature_with_public_keys (epoch_keys e) signature message
               (epoch_threshold e))
  end.

End WithBLS.

(** * The integrator *)

Record FederationUpdateProposal : Type := mkFederationUpdateProposal {
  update_sidechain_id : Hash;
  new_members : list MasternodeID;
  new_threshold : Z;
  new_public_keys : list bytes;
  activation_height : Z;
  governance_proposal_id : Hash;
}.

Record FederationIntegrator : Type := mkFederationIntegrator {
  federation_managers : gmap Hash FederationManager;
  pending_updates : gmap Hash FederationUpdateProposal;
  mainchain_governance : bool;
}.

Definition FederationIntegrator_new : FederationIntegrator := mkFederationIntegrator ∅ ∅ false.

Definition with_mainchain_governance (s : FederationIntegrator) : FederationIntegrator :=
  s <| mainchain_governance := true |>.

Abbreviation integM := (stM FederationIntegrator string).

Definition initialize_sidechain_federation (sidechain_id : Hash) (members : list MasternodeID)
    (threshold : Z) (public_keys : list bytes) (start_height transition_blocks : Z) : integM unit := fun s =>
  match initialize_federation sidechain_id members threshold start_height public_keys
          (FederationManager_new transition_blocks) with
  | (m, Ok _) => (s <| federation_managers ::= <[sidechain_id := m]> |>, Ok tt)
  | (_, Err e) => (s, Err e)
  | (_, Panic) => (s, Panic)
  | (_, OutOfFuel) => (s, OutOfFuel)
  end.

Definition get_federation_manager (s : FederationIntegrator) (sidechain_id : Hash) :
    option FederationManager := federation_managers s !! sidechain_id.

(** A method of the manager behind [federation_managers.get_mut(&id)]. *)
Definition on_manager {A} (id : Hash) (missing : string) (body : fedM A) : integM A := fun s =>
  match federation_managers s !! id with
  | None => (s, Err missing)
  | Some m => let '(m', r) := body m in (s <| federation_managers ::= <[id := m']> |>, r)
  end.

(** [governance] is what the shared handle points to. *)
Definition propose_federation_update (governance : ActiveProposals) (proposal : FederationUpdateProposal)
    (current_height : Z) : integM unit :=
  s ← gets id;
  if negb (mainchain_governance s) then throw "Mainchain governance not configured"%string else
  _ ← lift (ok_or (get_proposal governance (governance_proposal_id proposal))
              "Governance proposal not found"%string);
  if activation_height proposal <=? current_height
  then throw "Federation update activation height must be in the future"%string else
  if len (new_members proposal) =? 0 then throw "Federation must have at least one member"%string else
  if (new_threshold proposal =? 0) || (wrap32 (len (new_members proposal)) <? new_threshold proposal)
  then throw "Invalid threshold"%string else
  if negb (len (new_public_keys proposal) =? len (new_members proposal))
  then throw "Public keys count must match members count"%string else
  if negb (bool_decide (is_Some (federation_managers s !! update_sidechain_id proposal)))
  then throw "Federation not initialized for sidechain"%string else
  modify (fun s => s <| pending_updates ::= <[governance_proposal_id proposal := proposal]> |>).

Definition apply_update (current_height : Z) (proposal_id : Hash) : integM unit :=
  s ← gets id;
  proposal ← lift (unwrap (pending_updates s !! proposal_id));
  modify (fun s => s <| pending_updates ::= delete proposal_id |>);;
  _ ← on_manager (update_sidechain_id proposal) "Federation manager not found"%string
        (transition_epoch (update_sidechain_id proposal) (new_members proposal) (new_threshold proposal)
           current_height (new_public_keys proposal));
  mret tt.

(** [order] lists the pending updates in the order the map is visited. *)
Definition apply_pending_updates (order : list (Hash * FederationUpdateProposal)) (current_height : Z) :
    integM (list Hash) :=
  let ready := (List.filter (fun e => activation_height e.2 <=? current_height) order).*1 in
  for_each ready (apply_update current_height);;
  mret ready.

Definition should_transition_federation (s : FederationIntegrator) (sidechain_id : Hash)
    (current_height : Z) : bool :=
  match federation_managers s !! sidechain_id with
  | Some m => should_transition_epoch m sidechain_id current_height
  | None => false
  end.

Definition fi_get_current_epoch (s : FederationIntegrator) (sidechain_id : Hash) : option FederationEpoch :=
  m ← federation_managers s !! sidechain_id; get_current_epoch m sidechain_id.

Record IntegratorStats : Type := mkIntegratorStats {
  fi_total_sidechains : Z;
  fi_total_epochs : Z;
  fi_total_members : Z;
  fi_active_sidechains : Z;
  fi_pending_updates : Z;
}.

Definition get_federation_stats (s : FederationIntegrator) : IntegratorStats :=
  let stats := fm_get_stats <$> (map_to_list (federation_managers s)).*2 in
  mkIntegratorStats (foldr (fun x n => total_sidechains x + n) 0 stats)
    (foldr (fun x n => total_epochs x + n) 0 stats) (foldr (fun x n => total_members x + n) 0 stats)
    (Z.of_nat (size (federation_managers s))) (Z.of_nat (size (pending_updates s))).

Definition create_update_from_governance (proposal_id sidechain_id : Hash) (members : list MasternodeID)
    (threshold : Z) (public_keys : list bytes) (height : Z) : FederationUpdateProposal :=
  mkFederationUpdateProposal sidechain_id members threshold public_keys height proposal_id.

Definition emergency_federation_update (sidechain_id : Hash) (members : list MasternodeID) (threshold : Z)
    (public_keys : list bytes) (current_height : Z) : integM Z :=
  on_manager sidechain_id "Federation not initialized for sidechain"%string
    (transition_epoch sidechain_id members threshold current_height public_keys).

Definition fi_validate_federation_signature `{BLS} (s : FederationIntegrator) (sidechain_id : Hash)
    (epoch : Z) (signature : FederationSignature) (message : bytes) : bool :=
  match federation_managers s !! sidechain_id with
  | Some m => verify_threshold_signature m sidechain_id epoch signature message
  | None => false
  end.

(** * What an integrator keeps

    An epoch is well-formed when its threshold can be met by its members, who
    have a key each.  The epochs of a sidechain form a history: the current one
    is open, and every other one was closed when its successor started. *)

Definition epoch_ok (e : FederationEpoch) : Prop :=
  1 <= epoch_threshold e <= len (epoch_members e) /\ len (epoch_members e) <= u32_max /\
  len (epoch_keys e) = len (epoch_members e).

Definition history_ok (es : gmap Z FederationEpoch) (current : Z) : Prop :=
  (exists e, es !! current = Some e /\ epoch_end e = None) /\
  map_Forall (fun k e => is_u64 k /\ epoch_number e = k /\ epoch_ok e /\
    (k <> current -> exists e', es !! u64_add k 1 = Some e' /\ epoch_end e = Some (epoch_start e'))) es.

Definition manager_ok (id : Hash) (m : FederationManager) : Prop :=
  exists es current, epochs m = {[id := es]} /\ current_epochs m = {[id := current]} /\ history_ok es current.

(** Arguments of the widths the methods take: [u32] thresholds, and fewer than
    2^32 members. *)
Definition update_typed (u : FederationUpdateProposal) : Prop :=
  is_u32 (new_threshold u) /\ len (new_members u) <= u32_max.

Definition integrator_ok (s : FederationIntegrator) : Prop :=
  map_Forall manager_ok (federation_managers s) /\ map_Forall (fun _ => update_typed) (pending_updates s).

Lemma check_federation_ok a b c members threshold keys :
  is_u32 threshold -> len members <= u32_max -> check_federation a b c members threshold keys = Ok tt ->
  forall n start, epoch_ok (FederationEpoch_new n members threshold start keys).
Proof.
  intros Ht Hl Hc n start. pose proof (len_nonneg members).
  unfold check_federation in Hc. rewrite wrap32_small in Hc by lia.
  repeat case_match; try done. unfold is_u32 in Ht.
  unfold epoch_ok, FederationEpoch_new; cbn. lia.
Qed.

Lemma u64_succ_inj a b : is_u64 a -> is_u64 b -> u64_add a 1 = u64_add b 1 -> a = b.
Proof.
  unfold is_u64, u64_add, wrap64, u64_max. intros Ha Hb E.
  pose proof (Z.div_mod (a + 1) 18446744073709551616 ltac:(lia)).
  pose proof (Z.div_mod (b + 1) 18446744073709551616 ltac:(lia)).
  pose proof (Z.mod_pos_bound (a + 1) 18446744073709551616 ltac:(lia)). lia.
Qed.

Lemma u64_succ_ne a : is_u64 a -> u64_add a 1 <> a.
Proof.
  unfold is_u64, u64_add, wrap64, u64_max. intros Ha E.
  pose proof (Z.div_mod (a + 1) 18446744073709551616 ltac:(lia)). lia.
Qed.

(** Closing the current epoch and opening its successor. *)
Lemma history_transition es current members threshold height keys :
  let next := u64_add current 1 in
  let e' := FederationEpoch_new next members threshold height keys in
  history_ok es current -> epoch_ok e' ->
  history_ok (<[next := e']> (alter (fun e => e <| epoch_end := Some height |>) current es)) next.
Proof.
  intros next e' [(e & He & Hopen) Hall] Hok'. destruct (Hall _ _ He) as (Hc & _).
  assert (Hne : next <> current) by (by apply u64_succ_ne). split.
  - exists e'. by rewrite lookup_insert_eq.
  - intros k x. rewrite lookup_insert_Some. intros [[<- <-]|[Hk Hx]].
    { split; [apply wrap64_range|]. split; [done|]. split; [done|]. congruence. }
    destruct (decide (k = current)) as [->|Hkc].
    + rewrite lookup_alter_eq, He in Hx. injection Hx as <-. destruct (Hall _ _ He) as (_ & Hn & Hok & _).
      split; [done|]. split; [by destruct e|]. split; [by destruct e|]. intros _.
      exists e'. rewrite lookup_insert_eq. split; [done|]. by destruct e.
    + rewrite lookup_alter_ne in Hx by done. destruct (Hall _ _ Hx) as (Hr & Hn & Hok & Hnext).
      split; [done|]. split; [done|]. split; [done|]. intros _.
      destruct (Hnext Hkc) as (y & Hy & Hend).
      assert (u64_add k 1 <> next) by (intros E; apply Hkc; by apply u64_succ_inj).
      rewrite lookup_insert_ne by done. destruct (decide (u64_add k 1 = current)) as [E|E].
      * rewrite E in Hy |- *. rewrite lookup_alter_eq, Hy. exists (y <| epoch_end := Some height |>).
        split; [done|]. by destruct y.
      * rewrite lookup_alter_ne by done. eauto.
Qed.

Lemma history_replace es current e members keys :
  es !! current = Some e -> history_ok es current -> 1 <= len members <= u32_max ->
  len keys = len members ->
  history_ok (alter (fun e => mkFederationEpoch (epoch_number e) members
      (scaled_threshold (epoch_threshold e) (len (epoch_members e)) (len members))
      (epoch_start e) (epoch_end e) keys) current es) current.
Proof.
  intros He [(e0 & He0 & Hopen) Hall] Hm Hk. rewrite He in He0. injection He0 as <-.
  assert (Hnew : epoch_ok (mkFederationEpoch (epoch_number e) members
      (scaled_threshold (epoch_threshold e) (len (epoch_members e)) (len members))
      (epoch_start e) (epoch_end e) keys)).
  { destruct (Hall _ _ He) as (_ & _ & (Ht & Hu & _) & _). unfold epoch_ok, scaled_threshold; cbn.
    unfold u32_max in *. rewrite wrap32_small by (unfold u32_max; lia). destruct (Z.ltb_spec 0 (len (epoch_members e))); [|lia].
    pose proof (f64_ceil_ratio_pos (epoch_threshold e) (len (epoch_members e)) (len members)
      ltac:(lia) ltac:(lia) ltac:(lia)). lia. }
  split.
  - eexists. rewrite lookup_alter_eq, He. split; [reflexivity|done].
  - intros k x Hx. destruct (decide (k = current)) as [->|Hkc].
    + rewrite lookup_alter_eq, He in Hx. injection Hx as <-. destruct (Hall _ _ He) as (Hr & Hn & _).
      split; [done|]. split; [done|]. split; [done|]. congruence.
    + rewrite lookup_alter_ne in Hx by done. destruct (Hall _ _ Hx) as (Hr & Hn & Hok & Hnext).
      split; [done|]. split; [done|]. split; [done|]. intros _.
      destruct (Hnext Hkc) as (y & Hy & Hend). destruct (decide (u64_add k 1 = current)) as [E|E].
      * rewrite E in Hy |- *. rewrite lookup_alter_eq, Hy. eexists. split; [reflexivity|done].
      * rewrite lookup_alter_ne by done. eauto.
Qed.

Lemma initialize_manager_ok id members threshold start keys blocks m n :
  is_u32 threshold -> len members <= u32_max ->
  initialize_federation id members threshold start keys (FederationManager_new blocks) = (m, Ok n) ->
  manager_ok id m.
Proof.
  intros Ht Hl E. unfold initialize_federation in E. rewrite stM_bind_run in E. cbn [lift] in E.
  destruct (check_federation _ _ _ _ _ _) as [[]| | |] eqn:Hc; try done.
  injection E as <- _. exists {[1 := FederationEpoch_new 1 members threshold start keys]}, 1.
  split; [done|]. split; [done|]. split.
  - eexists. by rewrite lookup_singleton_eq.
  - intros k e [<- <-]%lookup_singleton_Some. split; [done|]. split; [done|].
    split; [by eapply check_federation_ok|done].
Qed.

Lemma transition_manager_ok id members threshold height keys :
  is_u32 threshold -> len members <= u32_max ->
  preserves (manager_ok id) (transition_epoch id members threshold height keys).
Proof.
  intros Ht Hl m Hm. unfold transition_epoch. rewrite stM_bind_run. cbn [lift].
  destruct (check_federation _ _ _ _ _ _) as [[]| | |] eqn:Hc; try done.
  destruct Hm as (es & current & He & Hcur & Hh). rewrite stM_bind_run. cbn [gets Datatypes.id].
  rewrite stM_bind_run, Hcur, lookup_singleton_eq. cbn [lift ok_or]. destruct m as [es' cs blocks].
  cbn in He, Hcur |- *. subst es' cs.
  exists (<[u64_add current 1 := FederationEpoch_new (u64_add current 1) members threshold height keys]>
    (alter (fun e => e <| epoch_end := Some height |>) current es)), (u64_add current 1).
  split; [|split].
  - unfold insert_epoch, alter_epoch. cbn. unfold RecordSetters.constant. by rewrite alter_singleton_eq, lookup_singleton_eq, insert_singleton_eq.
  - cbn. unfold RecordSetters.constant. by rewrite insert_singleton_eq.
  - apply history_transition; [done|]. by eapply check_federation_ok.
Qed.

Lemma update_manager_ok id members keys :
  len members <= u32_max -> preserves (manager_ok id) (update_federation_members id members keys).
Proof.
  intros Hl m Hm. pose proof (len_nonneg members). unfold update_federation_members.
  destruct (Z.eqb_spec (len members) 0); [done|].
  destruct (Z.eqb_spec (len keys) (len members)) as [Hk|Hk]; [|done]. cbn [negb].
  destruct Hm as (es & current & He & Hcur & Hh). rewrite stM_bind_run. cbn [gets Datatypes.id].
  rewrite stM_bind_run, Hcur, lookup_singleton_eq. cbn [lift ok_or]. destruct m as [es' cs blocks].
  cbn in He, Hcur |- *. subst es' cs. unfold get_epoch. cbn. rewrite lookup_singleton_eq. cbn.
  destruct (es !! current) as [e|] eqn:Hcu; cbn.
  - exists (alter (fun e => mkFederationEpoch (epoch_number e) members
      (scaled_threshold (epoch_threshold e) (len (epoch_members e)) (len members))
      (epoch_start e) (epoch_end e) keys) current es), current.
    split; [|split]; [|done|].
    + unfold alter_epoch. cbn. by rewrite alter_singleton_eq.
    + eapply history_replace; done || lia.
  - by exists es, current.
Qed.

(** * The integrator keeps well-formed histories *)

Inductive fed_op : Type :=
| OpGovernance
| OpInitialize (id : Hash) (members : list MasternodeID) (threshold : Z) (keys : list bytes) (start blocks : Z)
| OpPropose (governance : ActiveProposals) (u : FederationUpdateProposal) (height : Z)
| OpApply (order : list (Hash * FederationUpdateProposal)) (height : Z)
| OpEmergency (id : Hash) (members : list MasternodeID) (threshold : Z) (keys : list bytes) (height : Z)
| OpMembers (id : Hash) (members : list MasternodeID) (keys : list bytes).

Definition fed_step (s : FederationIntegrator) (op : fed_op) : FederationIntegrator :=
  match op with
  | OpGovernance => with_mainchain_governance s
  | OpInitialize id members threshold keys start blocks =>
      fst (initialize_sidechain_federation id members threshold keys start blocks s)
  | OpPropose governance u height => fst (propose_federation_update governance u height s)
  | OpApply order height => fst (apply_pending_updates order height s)
  | OpEmergency id members threshold keys height =>
      fst (emergency_federation_update id members threshold keys height s)
  | OpMembers id members keys =>
      fst (on_manager id "" (update_federation_members id members keys) s)
  end.

Definition op_typed (op : fed_op) : Prop :=
  match op with
  | OpInitialize _ members threshold _ _ _ | OpEmergency _ members threshold _ _ =>
      is_u32 threshold /\ len members <= u32_max
  | OpPropose _ u _ => update_typed u
  | OpGovernance | OpApply _ _ => True
  | OpMembers _ members _ => len members <= u32_max
  end.

Lemma on_manager_ok {A} id missing (body : fedM A) :
  preserves (manager_ok id) body -> preserves integrator_ok (on_manager id missing body).
Proof.
  intros Hb s [Hm Hp]. unfold on_manager. destruct (federation_managers s !! id) as [m|] eqn:E; [|done].
  pose proof (Hb m (Hm _ _ E)) as Hm'. destruct (body m) as [m' r].
  assert (Hok : manager_ok id m') by (by destruct r). destruct s as [ms ps g]. cbn in *.
  assert (integrator_ok (mkFederationIntegrator (<[id := m']> ms) ps g)).
  { split; [|done]. cbn. by apply map_Forall_insert_2. }
  by destruct r.
Qed.

Lemma apply_update_ok height id : preserves integrator_ok (apply_update height id).
Proof.
  intros s Hs. unfold apply_update. rewrite stM_bind_run. cbn [gets Datatypes.id]. rewrite stM_bind_run. cbn [lift].
  destruct (pending_updates s !! id) as [u|] eqn:E; cbn [unwrap]; [|done].
  destruct (proj2 Hs _ _ E) as [Ht Hl]. rewrite stM_bind_run. cbn [modify].
  assert (Hd : integrator_ok (s <| pending_updates ::= delete id |>)).
  { destruct s as [ms ps g], Hs as [Hm Hp]. split; [done|]. cbn. by apply map_Forall_delete. }
  pose proof (on_manager_ok (update_sidechain_id u) "Federation manager not found" _
    (transition_manager_ok (update_sidechain_id u) (new_members u) (new_threshold u) height
       (new_public_keys u) Ht Hl) _ Hd) as H. rewrite stM_bind_run.
  by destruct (on_manager _ _ _ _) as [s' [n| | |]].
Qed.

Lemma fed_step_ok s op : op_typed op -> integrator_ok s -> integrator_ok (fed_step s op).
Proof.
  intros Ht Hs. destruct op as [|id members threshold keys start blocks|governance u height|order height
    |id members threshold keys height|id members keys]; cbn in *.
  - by destruct s.
  - destruct Ht as [Ht Hl]. unfold initialize_sidechain_federation.
    destruct (initialize_federation _ _ _ _ _ _) as [m [n|e| |]] eqn:E; try done. cbn.
    destruct s as [ms ps g], Hs as [Hm Hp]. split; [|done]. cbn.
    apply map_Forall_insert_2; [|done]. by eapply initialize_manager_ok.
  - unfold propose_federation_update. rewrite stM_bind_run. cbn [gets Datatypes.id].
    destruct (negb (mainchain_governance s)); [done|]. rewrite stM_bind_run. cbn [lift].
    destruct (get_proposal governance _); cbn [ok_or]; [|done]. repeat (case_match; [done|]).
    destruct s as [ms ps g], Hs as [Hm Hp]. split; [done|]. cbn. by apply map_Forall_insert_2.
  - apply preserves_fst; [|done]. unfold apply_pending_updates. keep. intros. apply apply_update_ok.
  - apply preserves_fst; [|done]. apply on_manager_ok, transition_manager_ok; apply Ht.
  - apply preserves_fst; [|done]. by apply on_manager_ok, update_manager_ok.
Qed.

Definition fed_run (s : FederationIntegrator) (ops : list fed_op) : FederationIntegrator :=
  foldl fed_step s ops.

Lemma fed_run_ok s ops : integrator_ok s -> Forall op_typed ops -> integrator_ok (fed_run s ops).
Proof.
  intros Hs Ho. revert s Hs. induction Ho as [|op ops Hop Ho IH]; intros s Hs; [done|].
  cbn. apply IH. by apply fed_step_ok.
Qed.

(** C14. Whatever sequence of initializations, update proposals, activations (in
    whatever order the map is visited), emergency updates and member changes an
    integrator goes through, with or without governance connected, errors
    included, every sidechain it knows has an open current epoch; every epoch on
    record has a key per member and a threshold between one and the number of
    members, so that it can be met; and every past epoch was closed at the
    height its successor started.  Thresholds and numbers of members are 32-bit
    numbers.  Initializing a known sidechain replaces its manager; calling
    [initialize_federation] on a manager that is in use is not among the
    operations ([reinitialized_manager]). *)
Theorem federation_history ops id m :
  Forall op_typed ops ->
  federation_managers (fed_run FederationIntegrator_new ops) !! id = Some m ->
  exists current, current_epochs m !! id = Some current /\
    (exists e, fi_get_current_epoch (fed_run FederationIntegrator_new ops) id = Some e /\
       epoch_end e = None) /\
    forall n e, get_epoch m id n = Some e ->
      epoch_number e = n /\ epoch_ok e /\
      (n <> current -> exists e', get_epoch m id (u64_add n 1) = Some e' /\
         epoch_end e = Some (epoch_start e')).
Proof.
  intros Ho Hm. assert (Hok : integrator_ok (fed_run FederationIntegrator_new ops)).
  { apply fed_run_ok; [|done]. split; apply map_Forall_empty. }
  destruct (proj1 Hok _ _ Hm) as (es & current & He & Hc & (e & Hcur & Hopen) & Hall).
  exists current. unfold fi_get_current_epoch, get_current_epoch, get_epoch.
  rewrite Hm. cbn. rewrite He, Hc, !lookup_singleton_eq. cbn. split; [done|]. split.
  - by exists e.
  - intros n x Hx. destruct (Hall _ _ Hx) as (_ & Hn & Hx' & Hnext). auto.
Qed.

(** * Signer bitmaps *)

Lemma selected_testbit byte i :
  0 <= i < 8 -> negb (Z.land byte (Z.shiftl 1 (7 - i mod 8)) =? 0) = Z.testbit byte (7 - i).
Proof.
  intros Hi. rewrite (Z.mod_small i 8) by lia. rewrite Z.shiftl_1_l.
  destruct (Z.testbit byte (7 - i)) eqn:E.
  - destruct (Z.eqb_spec (Z.land byte (2 ^ (7 - i))) 0) as [H0|]; [|done].
    assert (Hb : Z.testbit (Z.land byte (2 ^ (7 - i))) (7 - i) = true)
      by (rewrite Z.land_spec, E, Z.pow2_bits_true by lia; done).
    by rewrite H0, Z.testbit_0_l in Hb.
  - replace (Z.land byte (2 ^ (7 - i))) with 0; [done|]. symmetry. apply Z.bits_inj'. intros k Hk.
    rewrite Z.land_spec, Z.testbit_0_l, Z.pow2_bits_eqb by lia.
    destruct (Z.eqb_spec (7 - i) k) as [<-|]; [by rewrite E|apply andb_false_r].
Qed.

Lemma selected_head byte bitmap i :
  0 <= i < 8 -> is_signer_selected (byte :: bitmap) i = Z.testbit byte (7 - i).
Proof.
  intros Hi. unfold is_signer_selected. rewrite Z.div_small by lia. by apply selected_testbit.
Qed.

Lemma selected_tail byte bitmap i :
  0 <= i -> is_signer_selected (byte :: bitmap) (8 + i) = is_signer_selected bitmap i.
Proof.
  intros Hi. unfold is_signer_selected. replace (8 + i) with (i + 1 * 8) by lia.
  rewrite Z.div_add, Z.mod_add by lia.
  replace (Z.to_nat (i / 8 + 1)) with (S (Z.to_nat (i / 8))); [done|].
  pose proof (Z.div_pos i 8 Hi ltac:(lia)). lia.
Qed.

Lemma selected_nil i : is_signer_selected [] i = false.
Proof. done. Qed.

(** How many of the [n] positions from [i] on are selected. *)
Fixpoint count_selected (bitmap : bytes) (n : nat) (i : Z) : Z :=
  match n with
  | O => 0
  | S n => Z.b2z (is_signer_selected bitmap i) + count_selected bitmap n (i + 1)
  end.

Lemma count_selected_app bitmap a b i :
  count_selected bitmap (a + b) i = count_selected bitmap a i + count_selected bitmap b (i + Z.of_nat a).
Proof.
  revert i. induction a as [|a IH]; intros i; cbn [count_selected Nat.add]; [by rewrite Z.add_0_r|].
  rewrite IH. replace (i + 1 + Z.of_nat a) with (i + Z.of_nat (S a)) by lia. lia.
Qed.

Lemma count_selected_none bitmap n i :
  (forall k, i <= k < i + Z.of_nat n -> is_signer_selected bitmap k = false) -> count_selected bitmap n i = 0.
Proof.
  revert i. induction n as [|n IH]; intros i Hn; [done|]. cbn. rewrite Hn by lia.
  apply IH. intros k Hk. apply Hn. lia.
Qed.

Lemma count_selected_tail byte bitmap n i :
  0 <= i -> count_selected (byte :: bitmap) n (8 + i) = count_selected bitmap n i.
Proof.
  revert i. induction n as [|n IH]; intros i Hi; [done|]. cbn [count_selected].
  rewrite selected_tail by done. rewrite <- (IH (i + 1)) by lia. do 2 f_equal. lia.
Qed.

(** All bits of the bitmap. *)
Lemma count_selected_bits bitmap :
  count_selected bitmap (8 * length bitmap) 0 = foldr (fun b n => count_ones b + n) 0 bitmap.
Proof.
  induction bitmap as [|b bitmap IH]; [done|]. cbn [foldr length].
  replace (8 * S (length bitmap))%nat with (8 + 8 * length bitmap)%nat by lia.
  rewrite count_selected_app. change (0 + Z.of_nat 8) with (8 + 0).
  rewrite count_selected_tail by lia. rewrite IH. f_equal.
  cbn [count_selected]. rewrite !selected_head by lia. unfold count_ones.
  change (seqZ 0 8) with [0; 1; 2; 3; 4; 5; 6; 7]. cbn [foldr].
  repeat match goal with |- context [Z.testbit b ?k] =>
    let v := eval vm_compute in k in progress change k with v end. lia.
Qed.

Lemma count_selected_bound bitmap n i : 0 <= count_selected bitmap n i <= Z.of_nat n.
Proof.
  revert i. induction n as [|n IH]; intros i; [cbn; lia|]. cbn [count_selected].
  specialize (IH (i + 1)). destruct (is_signer_selected bitmap i); cbn [Z.b2z]; lia.
Qed.

Lemma selected_beyond bitmap i : len bitmap * 8 <= i -> is_signer_selected bitmap i = false.
Proof.
  intros Hi. unfold is_signer_selected. rewrite lookup_ge_None_2; [done|].
  assert (len bitmap <= i / 8) by (apply Z.div_le_lower_bound; lia). unfold len in *. lia.
Qed.

(** The bits of a bitmap that names no unknown member, counted over the members. *)
Lemma count_selected_members bitmap n :
  ensure_no_unknown_signers bitmap (Z.of_nat n) = Ok tt ->
  count_selected bitmap n 0 = foldr (fun b n => count_ones b + n) 0 bitmap.
Proof.
  intros Hu. unfold ensure_no_unknown_signers in Hu.
  destruct (existsb _ _) eqn:He; [done|]. rewrite <- count_selected_bits.
  assert (Hnone : forall k, Z.of_nat n <= k -> is_signer_selected bitmap k = false).
  { intros k Hk. destruct (Z_lt_le_dec k (len bitmap * 8)); [|by apply selected_beyond].
    destruct (is_signer_selected bitmap k) eqn:Es; [|done]. exfalso.
    assert (existsb (is_signer_selected bitmap) (seqZ (Z.of_nat n) (len bitmap * 8 - Z.of_nat n)) = true);
      [|congruence].
    apply existsb_exists. exists k. split; [|done]. apply list_elem_of_In, elem_of_seqZ. lia. }
  destruct (Nat.le_ge_cases n (8 * length bitmap)) as [Hle|Hle].
  - replace (8 * length bitmap)%nat with (n + (8 * length bitmap - n))%nat by lia.
    rewrite count_selected_app, (count_selected_none _ (_ - _)); [lia|]. intros k Hk. apply Hnone. lia.
  - replace n with (8 * length bitmap + (n - 8 * length bitmap))%nat by lia.
    rewrite count_selected_app, (count_selected_none _ (_ - _)); [lia|].
    intros k Hk. apply selected_beyond. unfold len. lia.
Qed.

Lemma wrap32_foldl (f : Z -> Z) l a :
  foldl (fun count b => wrap32 (count + f b)) (wrap32 a) l = wrap32 (a + foldr (fun b n => f b + n) 0 l).
Proof.
  revert a. induction l as [|b l IH]; intros a; cbn; [by rewrite Z.add_0_r|].
  replace (wrap32 (wrap32 a + f b)) with (wrap32 (a + f b)).
  - rewrite IH. f_equal. lia.
  - unfold wrap32. by rewrite Zplus_mod_idemp_l.
Qed.

Section Signatures.
Context `{BLS}.

(** The signers collected from a list of keys, and the first of them. *)
Lemma collect_signers_spec bitmap keys i n pks :
  collect_signers bitmap keys i = Ok (n, pks) ->
  n = count_selected bitmap (length keys) i /\ len pks = n /\
  forall pk, pks !! 0%nat = Some pk -> exists j key, keys !! j = Some key /\
    is_signer_selected bitmap (i + Z.of_nat j) = true /\ parse_public_key key = Ok pk /\
    forall k, (k < j)%nat -> is_signer_selected bitmap (i + Z.of_nat k) = false.
Proof.
  revert i n pks. induction keys as [|key keys IH]; intros i n pks E; [by injection E as <- <-|].
  cbn [collect_signers length count_selected] in *. destruct (is_signer_selected bitmap i) eqn:Es.
  - apply outcome_bind_inv in E as (pk & Hpk & E). apply outcome_bind_inv in E as ([m rest] & Hr & E).
    injection E as <- <-. destruct (IH _ _ _ Hr) as (Hm & Hl & _). rewrite len_cons.
    split; [cbn; lia|]. split; [lia|]. intros pk0 [= <-]. exists 0%nat, key.
    rewrite Z.add_0_r. split_and!; try done. intros k Hk. lia.
  - destruct (IH _ _ _ E) as (Hm & Hl & Hf). split; [done|]. split; [done|].
    intros pk Hpk. destruct (Hf pk Hpk) as (j & k & Hj & Hs & Hp & Hb). exists (S j), k.
    replace (i + Z.of_nat (S j)) with (i + 1 + Z.of_nat j) by lia. split_and!; try done.
    intros [|k'] Hk'; [by rewrite Z.add_0_r|].
    replace (i + Z.of_nat (S k')) with (i + 1 + Z.of_nat k') by lia. apply Hb. lia.
Qed.

(** The two ways of counting signers agree: the number of members
    [aggregate_signer_public_keys] finds is the number of bits [count_signers]
    counts; and the key it returns, against which the signature is checked, is
    the key of the first selected member alone. *)
Theorem signer_counts_agree keys s pk n :
  aggregate_signer_public_keys keys (signer_bitmap s) = Ok (pk, n) ->
  n = count_signers s /\
  exists j key, keys !! j = Some key /\ parse_public_key key = Ok pk /\
    is_signer_selected (signer_bitmap s) (Z.of_nat j) = true /\
    forall k, (k < j)%nat -> is_signer_selected (signer_bitmap s) (Z.of_nat k) = false.
Proof.
  unfold aggregate_signer_public_keys. destruct (_ =? 0); [done|]. intros E.
  apply outcome_bind_inv in E as ([] & Hu & E). apply outcome_bind_inv in E as ([m pks] & Hc & E).
  destruct (collect_signers_spec _ _ _ _ _ Hc) as (Hm & _ & Hf).
  destruct (wrap32 m =? 0); [done|]. destruct (pks !! 0%nat) as [pk'|] eqn:Hpk; [|done].
  injection E as <- <-. split.
  - etransitivity; [|symmetry; exact (wrap32_foldl count_ones (signer_bitmap s) 0)].
    by rewrite Hm, (count_selected_members _ _ Hu).
  - destruct (Hf _ eq_refl) as (j & key & Hj & Hs & Hp & Hb). by exists j, key.
Qed.

(** * One member signs for all *)

(** The bitmap in which the first [n] members sign. *)
Fixpoint full_bitmap (n : nat) : bytes :=
  match n with
  | O => []
  | S (S (S (S (S (S (S (S n))))))) => 255 :: full_bitmap n
  | _ => [256 - 2 ^ (8 - Z.of_nat n)]
  end.

Lemma full_bitmap_selected n i : 0 <= i -> is_signer_selected (full_bitmap n) i = (i <? Z.of_nat n).
Proof.
  revert i. induction (lt_wf n) as [n _ IH]. intros i Hi.
  destruct (Z_lt_le_dec i 8) as [H8|H8].
  - do 8 (destruct n as [|n]; [
      cbn [full_bitmap]; first [rewrite selected_nil; symmetry; apply Z.ltb_ge; cbn; lia|
        rewrite selected_head by lia;
        assert (i = 0 \/ i = 1 \/ i = 2 \/ i = 3 \/ i = 4 \/ i = 5 \/ i = 6 \/ i = 7)
          as [->|[->|[->|[->|[->|[->|[->| ->]]]]]]] by lia; reflexivity]|]).
    cbn [full_bitmap]. rewrite selected_head by lia.
    destruct (Z.ltb_spec i (Z.of_nat (S (S (S (S (S (S (S (S n)))))))))) as [_|]; [|lia].
    assert (i = 0 \/ i = 1 \/ i = 2 \/ i = 3 \/ i = 4 \/ i = 5 \/ i = 6 \/ i = 7)
      as [->|[->|[->|[->|[->|[->|[->| ->]]]]]]] by lia; reflexivity.
  - do 8 (destruct n as [|n]; [
      rewrite selected_beyond by (unfold len; cbn; lia); symmetry; apply Z.ltb_ge; lia|]).
    cbn [full_bitmap]. replace i with (8 + (i - 8)) at 1 by lia. rewrite selected_tail by lia.
    rewrite IH by lia. apply eq_true_iff_eq. rewrite !Z.ltb_lt. lia.
Qed.

Lemma collect_all bitmap keys i :
  (forall k, i <= k < i + len keys -> is_signer_selected bitmap k = true) ->
  Forall (fun key => is_ok (parse_public_key key) = true) keys ->
  exists pks, collect_signers bitmap keys i = Ok (len keys, pks) /\
    forall key, keys !! 0%nat = Some key -> exists pk, parse_public_key key = Ok pk /\ pks !! 0%nat = Some pk.
Proof.
  intros Hs Hk. revert i Hs. induction Hk as [|key keys Hp Hk IH]; intros i Hs; [by exists []|].
  rewrite len_cons in Hs. pose proof (len_nonneg keys). cbn [collect_signers]. rewrite Hs by lia.
  destruct (parse_public_key key) as [pk| | |] eqn:E; try done.
  destruct (IH (i + 1)) as (pks & -> & _); [intros k ?; apply Hs; lia|].
  exists (pk :: pks). rewrite len_cons. split; [done|]. intros ? [= <-]. eauto.
Qed.

(** The first member of a federation signs for the whole federation: whatever
    the threshold, the bitmap that names every member together with the
    signature of the first one passes [verify_threshold_signature], on every
    message and for every well-formed epoch whose keys parse. *)
Theorem first_member_signs_alone m id n e key pk signature parsed message :
  get_epoch m id n = Some e -> epoch_ok e ->
  Forall (fun key => is_ok (parse_public_key key) = true) (epoch_keys e) ->
  epoch_keys e !! 0%nat = Some key -> parse_public_key key = Ok pk ->
  parse_signature signature = Ok parsed -> bls_verify pk parsed message = true ->
  verify_threshold_signature m id n
    (mkFederationSignature signature (full_bitmap (length (epoch_keys e))) 1 n message) message = true.
Proof.
  intros He (Ht & Hl & Hk) Hparse Hkey Hpk Hsig Hver. unfold verify_threshold_signature. rewrite He.
  unfold verify_federation_signature_with_public_keys. cbn [fed_threshold fed_signature signer_bitmap message_hash].
  assert (Hb : full_bitmap (length (epoch_keys e)) <> []).
  { intros E. pose proof (full_bitmap_selected (length (epoch_keys e)) 0 ltac:(lia)) as Hs.
    rewrite E in Hs. symmetry in Hs. apply Z.ltb_ge in Hs. unfold len in *. lia. }
  assert (Hs : len signature = 96).
  { unfold parse_signature in Hsig. destruct (Z.eqb_spec (len signature) BLS_SIGNATURE_BYTES); done. }
  destruct (Z.eqb_spec (len (epoch_keys e)) 0); [lia|]. rewrite Hs. cbn [Z.eqb].
  destruct (Z.eqb_spec (len (full_bitmap (length (epoch_keys e)))) 0) as [E|_].
  { destruct (full_bitmap _); [done|]. rewrite len_cons in E. pose proof (len_nonneg l). lia. }
  rewrite bool_decide_true by done. cbn [negb].
  unfold aggregate_signer_public_keys.
  destruct (Z.eqb_spec (len (full_bitmap (length (epoch_keys e)))) 0) as [E|_].
  { destruct (full_bitmap _); [done|]. rewrite len_cons in E. pose proof (len_nonneg l). lia. }
  assert (Hu : ensure_no_unknown_signers (full_bitmap (length (epoch_keys e))) (len (epoch_keys e)) = Ok tt).
  { unfold ensure_no_unknown_signers. destruct (existsb _ _) eqn:Ex; [|done].
    apply existsb_exists in Ex as (k & Hin & Hsel). apply list_elem_of_In, elem_of_seqZ in Hin.
    pose proof (len_nonneg (epoch_keys e)). rewrite full_bitmap_selected in Hsel by lia.
    apply Z.ltb_lt in Hsel. unfold len in *. lia. }
  rewrite Hu. destruct (collect_all (full_bitmap (length (epoch_keys e))) (epoch_keys e) 0) as (pks & Hc & Hf);
    [intros k Hk'; rewrite full_bitmap_selected by lia; apply Z.ltb_lt; unfold len in *; lia|done|].
  destruct (Hf _ Hkey) as (pk' & Hpk' & Hh). rewrite Hpk in Hpk'. injection Hpk' as <-.
  cbn [mbind outcome_bind]. rewrite Hc. cbn [mbind outcome_bind]. rewrite Hh.
  rewrite wrap32_small by lia. destruct (Z.eqb_spec (len (epoch_keys e)) 0); [lia|]. cbn [unwrap mbind outcome_bind mret outcome_ret].
  destruct (Z.ltb_spec (len (epoch_keys e)) (Z.max (epoch_threshold e) 1)); [lia|].
  rewrite Hsig. cbn [mbind outcome_bind]. by rewrite Hver.
Qed.

End Signatures.

(** * Examples *)

(** A toy signature scheme: a signature is the key written twice. *)
Definition sample_bls : BLS := {|
  BlsPublicKey := bytes;
  BlsSignature := bytes;
  bls_public_key_from_bytes := Some;
  bls_signature_from_bytes := Some;
  bls_verify pk s m := bool_decide (s = pk ++ pk);
|}.

Definition sample_member (v : Z) : MasternodeID := mkMasternodeID (mkOutPoint (replicate 32 v) 0).
Definition sample_key (v : Z) : bytes := replicate 48 v.
Definition sample_chain : Hash := replicate 32 1.

(** An update by governance: one of two members from height 180. *)
Definition sample_update : FederationUpdateProposal :=
  mkFederationUpdateProposal sample_chain (sample_member <$> [1; 2]) 1 (sample_key <$> [1; 2]) 180 (replicate 32 5).
Definition sample_governance : ActiveProposals := {[replicate 32 5 := (sample_proposal 0 100, ∅)]}.

(** Two of three, then one of two by governance, then three of four by an
    emergency update, then five members. *)
Definition sample_ops : list fed_op := [
  OpInitialize sample_chain (sample_member <$> [1; 2; 3]) 2 (sample_key <$> [1; 2; 3]) 100 1000;
  OpGovernance; OpPropose sample_governance sample_update 150; OpApply [(replicate 32 5, sample_update)] 180;
  OpEmergency sample_chain (sample_member <$> [4; 5; 6; 7]) 3 (sample_key <$> [4; 5; 6; 7]) 200;
  OpMembers sample_chain (sample_member <$> [4; 5; 6; 7; 8]) (sample_key <$> [4; 5; 6; 7; 8])].

(** Three of four becomes four of five: the ratio is rounded up. *)
Example sample_threshold :
  epoch_threshold <$> fi_get_current_epoch (fed_run FederationIntegrator_new sample_ops) sample_chain = Some 4.
Proof. vm_compute. reflexivity. Qed.

Definition sample_manager : FederationManager :=
  default (FederationManager_new 0)
    (federation_managers (fed_run FederationIntegrator_new sample_ops) !! sample_chain).

(** The update by governance is the second epoch, from 180 to 200. *)
Example sample_activation :
  (fun e => (epoch_threshold e, epoch_start e, epoch_end e)) <$> get_epoch sample_manager sample_chain 2 =
    Some (1, 180, Some 200).
Proof. vm_compute. reflexivity. Qed.

(** [initialize_federation] on a manager in use goes back to the first epoch and
    leaves the open third one behind. *)
Example reinitialized_manager :
  let m := fst (initialize_federation sample_chain (sample_member <$> [1]) 1 300 (sample_key <$> [1]) sample_manager) in
  current_epochs m !! sample_chain = Some 1 /\ (epoch_end <$> get_epoch m sample_chain 3) = Some None.
Proof. vm_compute. split; reflexivity. Qed.

Lemma federation_history_witness :
  exists current, current_epochs sample_manager !! sample_chain = Some current.
Proof.
  assert (Ht : Forall op_typed sample_ops).
  { repeat constructor; unfold is_u32, u32_max; vm_compute; intros E; discriminate E. }
  assert (Hm : federation_managers (fed_run FederationIntegrator_new sample_ops) !! sample_chain = Some sample_manager).
  { vm_compute. reflexivity. }
  destruct (federation_history sample_ops sample_chain sample_manager Ht Hm) as (current & Hc & _).
  exists current. exact Hc.
Defined.

Definition two_signers : FederationSignature :=
  mkFederationSignature (sample_key 4 ++ sample_key 4) [96] 2 2 (replicate 32 9).

Lemma signer_counts_agree_witness :
  aggregate_signer_public_keys (H := sample_bls) (sample_key <$> [4; 5; 6; 7]) (signer_bitmap two_signers) =
    Ok (sample_key 5, 2) /\ 2 = count_signers two_signers.
Proof.
  assert (E : aggregate_signer_public_keys (H := sample_bls) (sample_key <$> [4; 5; 6; 7])
    (signer_bitmap two_signers) = Ok (sample_key 5, 2)) by (vm_compute; reflexivity).
  split; [exact E|]. exact (proj1 (signer_counts_agree (H := sample_bls) _ two_signers _ _ E)).
Defined.

Definition sample_epoch : FederationEpoch :=
  FederationEpoch_new 1 (sample_member <$> [1; 2; 3]) 2 100 (sample_key <$> [1; 2; 3]).

Lemma first_member_signs_alone_witness :
  verify_threshold_signature (H := sample_bls)
    (insert_epoch sample_chain sample_epoch (FederationManager_new 1000)) sample_chain 1
    (mkFederationSignature (sample_key 1 ++ sample_key 1) [224] 1 1 (replicate 32 7)) (replicate 32 7) = true.
Proof.
  refine (first_member_signs_alone (H := sample_bls) _ sample_chain 1 sample_epoch (sample_key 1)
    (sample_key 1) (sample_key 1 ++ sample_key 1) (sample_key 1 ++ sample_key 1) (replicate 32 7)
    _ _ _ _ _ _ _).
  - vm_compute. reflexivity.
  - unfold epoch_ok, u32_max. vm_compute. split; [split; intros E; discriminate E|].
    split; [intros E; discriminate E|reflexivity].
  - repeat constructor.
  - reflexivity.
  - reflexivity.
  - reflexivity.
  - vm_compute. reflexivity.
Defined.
