(* ===== verification/TwoWayPeg.v ===== *)
(** The two-way peg between the main chain and a sidechain
    (src/rusty-core/src/sidechain/two_way_peg.rs).

    The federation behind the manager's shared handle is an argument, and so are
    the clock and the identifier drawn from the random generator. *)

From Stdlib Require Import ZArith Lia List.
From stdpp Require Import base option list numbers strings gmap.
From coqutil Require Import Datatypes.RecordSetters.
From S2P Require Import Prelude Types Transaction SidechainTypes Federation.

Import TriangleBracketNotations.

#[local] Open Scope Z_scope.

Record PegInRequest : Type := mkPegInRequest {
  in_mainchain_tx_hash : Hash;
  in_amount : Z;
  in_sidechain_recipient : bytes;
  in_sidechain_id : Hash;
  in_mainchain_confirm_height : Z;
  in_merkle_proof : list Hash;
  in_federation_signatures : list FederationSignature;
}.

Record PegOutRequest : Type := mkPegOutRequest {
  out_sidechain_tx_hash : Hash;
  out_amount : Z;
  out_mainchain_recipient : bytes;
  out_sidechain_id : Hash;
  out_sidechain_confirm_height : Z;
  out_merkle_proof : list Hash;
  out_federation_signatures : list FederationSignature;
}.

Inductive PegTransactionStatus : Type := PegPending | PegConfirmed | PegRejected | PegCompleted.
Inductive PegTransactionType : Type := PegIn | PegOut.

#[export] Instance PegTransactionStatus_eq_dec : EqDecision PegTransactionStatus.
Proof. solve_decision. Defined.
#[export] Instance PegTransactionType_eq_dec : EqDecision PegTransactionType.
Proof. solve_decision. Defined.

Record PegTransaction : Type := mkPegTransaction {
  peg_id : Hash;
  peg_type : PegTransactionType;
  peg_status : PegTransactionStatus;
  peg_amount : Z;
  peg_source : Hash;
  peg_destination : Hash;
  peg_recipient : bytes;
  peg_confirm_height : Z;
  peg_timestamp : Z;
  peg_cross_chain_tx_id : option Hash;
}.

Record TwoWayPegManager : Type := mkTwoWayPegManager {
  peg_pending : gmap Hash PegTransaction;
  peg_completed : gmap Hash PegTransaction;
  peg_federation : bool;
  required_confirmations : Z;
  peg_utxo_set : bool;
}.

Definition TwoWayPegManager_new (required : Z) : TwoWayPegManager :=
  mkTwoWayPegManager ∅ ∅ false required false.

Definition peg_with_federation_manager (s : TwoWayPegManager) : TwoWayPegManager :=
  s <| peg_federation := true |>.

Definition with_mainchain_utxo_set (s : TwoWayPegManager) : TwoWayPegManager :=
  s <| peg_utxo_set := true |>.

Abbreviation pegM := (stM TwoWayPegManager string).

(** * Requests *)

Section WithBLS.
Context `{BLS}.

(** Each signature is checked against the message [[0u8; 32]]. *)
Definition check_peg_signature (fed : FederationIntegrator) (sidechain_id : Hash)
    (sig : FederationSignature) : bool :=
  fi_validate_federation_signature fed sidechain_id (fed_epoch sig) sig MAINCHAIN.

Definition peg_validate_federation_signatures (s : TwoWayPegManager) (fed : FederationIntegrator)
    (signatures : list FederationSignature) (sidechain_id : Hash) : textR unit :=
  if len signatures =? 0 then Err "No federation signatures provided"%string else
  if peg_federation s then
    epoch ← ok_or (fi_get_current_epoch fed sidechain_id) "No current federation epoch found"%string;
    if negb (is_threshold_met epoch (foldr (fun sig n => Z.max (count_signers sig) n) 0 signatures))
    then Err "Federation signature threshold not met"%string else
    if forallb (check_peg_signature fed sidechain_id) signatures then mret tt
    else Err "Invalid federation signature"%string
  else mret tt.

(** Only that a UTXO set is there: the lock transaction is not looked at. *)
Definition validate_mainchain_lock_transaction (s : TwoWayPegManager) (request : PegInRequest) : textR unit :=
  if peg_utxo_set s then mret tt else Err "Mainchain UTXO set not available for validation"%string.

Definition validate_sidechain_burn_transaction (s : TwoWayPegManager) (request : PegOutRequest) : textR unit :=
  mret tt.

Definition peg_in_record (id : Hash) (now : Z) (request : PegInRequest) : PegTransaction :=
  mkPegTransaction id PegIn PegPending (in_amount request) MAINCHAIN (in_sidechain_id request)
    (in_sidechain_recipient request) (in_mainchain_confirm_height request) now None.

Definition peg_out_record (id : Hash) (now : Z) (request : PegOutRequest) : PegTransaction :=
  mkPegTransaction id PegOut PegPending (out_amount request) (out_sidechain_id request) MAINCHAIN
    (out_mainchain_recipient request) (out_sidechain_confirm_height request) now None.

Definition initiate_peg_in (fed : FederationIntegrator) (now : Z) (id : Hash) (request : PegInRequest) :
    pegM Hash :=
  s ← gets Datatypes.id;
  lift (peg_validate_federation_signatures s fed (in_federation_signatures request) (in_sidechain_id request));;
  lift (validate_mainchain_lock_transaction s request);;
  modify (fun s => s <| peg_pending ::= <[id := peg_in_record id now request]> |>);;
  mret id.

Definition initiate_peg_out (fed : FederationIntegrator) (now : Z) (id : Hash) (request : PegOutRequest) :
    pegM Hash :=
  s ← gets Datatypes.id;
  lift (peg_validate_federation_signatures s fed (out_federation_signatures request) (out_sidechain_id request));;
  lift (validate_sidechain_burn_transaction s request);;
  modify (fun s => s <| peg_pending ::= <[id := peg_out_record id now request]> |>);;
  mret id.

End WithBLS.

(** * Confirmation and completion *)

Definition set_peg_status (st : PegTransactionStatus) (tx : PegTransaction) : PegTransaction :=
  tx <| peg_status := st |>.

Definition confirm_peg_transaction (tx_id : Hash) (current_height : Z) : pegM unit :=
  s ← gets Datatypes.id;
  tx ← lift (ok_or (peg_pending s !! tx_id) "Peg transaction not found"%string);
  if current_height <? u64_add (peg_confirm_height tx) (required_confirmations s)
  then throw "Insufficient confirmations"%string else
  modify (fun s => s <| peg_completed ::= <[tx_id := set_peg_status PegConfirmed tx]> |>
                     <| peg_pending ::= delete tx_id |>).

Definition complete_peg_transaction (tx_id : Hash) : pegM unit :=
  s ← gets Datatypes.id;
  tx ← lift (ok_or (peg_completed s !! tx_id) "Peg transaction not found"%string);
  modify (fun s => s <| peg_completed ::= <[tx_id := set_peg_status PegCompleted tx]> |>).

Definition get_peg_transaction (s : TwoWayPegManager) (tx_id : Hash) : option PegTransaction :=
  match peg_pending s !! tx_id with Some tx => Some tx | None => peg_completed s !! tx_id end.

Definition get_pending_transactions (s : TwoWayPegManager) : list PegTransaction :=
  (map_to_list (peg_pending s)).*2.

Record PegStats : Type := mkPegStats {
  pending_transactions : Z;
  completed_transactions : Z;
  total_peg_in : Z;
  total_peg_out : Z;
}.

Definition peg_total (t : PegTransactionType) (s : TwoWayPegManager) : Z :=
  foldl u64_add 0 (peg_amount <$> List.filter (fun tx => bool_decide (peg_type tx = t)) (map_to_list (peg_completed s)).*2).

Definition peg_get_stats (s : TwoWayPegManager) : PegStats :=
  mkPegStats (Z.of_nat (size (peg_pending s))) (Z.of_nat (size (peg_completed s)))
    (peg_total PegIn s) (peg_total PegOut s).

(** * Where a completed peg comes from *)

Inductive peg_op : Type :=
| OpPegIn (fed : FederationIntegrator) (now : Z) (id : Hash) (request : PegInRequest)
| OpPegOut (fed : FederationIntegrator) (now : Z) (id : Hash) (request : PegOutRequest)
| OpConfirm (id : Hash) (height : Z)
| OpComplete (id : Hash).

Section Provenance.
Context `{BLS}.

Definition peg_step (s : TwoWayPegManager) (op : peg_op) : TwoWayPegManager :=
  match op with
  | OpPegIn fed now id request => fst (initiate_peg_in fed now id request s)
  | OpPegOut fed now id request => fst (initiate_peg_out fed now id request s)
  | OpConfirm id height => fst (confirm_peg_transaction id height s)
  | OpComplete id => fst (complete_peg_transaction id s)
  end.

Definition peg_run (s : TwoWayPegManager) (ops : list peg_op) : TwoWayPegManager := foldl peg_step s ops.

(** The request that created a record, among the calls. *)
Definition requested (ops : list peg_op) (s : TwoWayPegManager) (tx : PegTransaction) : Prop :=
  (exists fed now request, OpPegIn fed now (peg_id tx) request ∈ ops /\
     set_peg_status PegPending tx = peg_in_record (peg_id tx) now request /\
     peg_validate_federation_signatures s fed (in_federation_signatures request)
       (in_sidechain_id request) = Ok tt) \/
  (exists fed now request, OpPegOut fed now (peg_id tx) request ∈ ops /\
     set_peg_status PegPending tx = peg_out_record (peg_id tx) now request /\
     peg_validate_federation_signatures s fed (out_federation_signatures request)
       (out_sidechain_id request) = Ok tt).

Definition confirmed_by (ops : list peg_op) (s : TwoWayPegManager) (tx : PegTransaction) : Prop :=
  exists height, OpConfirm (peg_id tx) height ∈ ops /\
    u64_add (peg_confirm_height tx) (required_confirmations s) <= height.

(** What holds of the records after [ops]; [s0] is any manager with the same
    configuration. *)
Definition peg_inv (s0 : TwoWayPegManager) (ops : list peg_op) (s : TwoWayPegManager) : Prop :=
  peg_federation s = peg_federation s0 /\ required_confirmations s = required_confirmations s0 /\
  map_Forall (fun id tx => peg_id tx = id /\ peg_status tx = PegPending /\ requested ops s0 tx) (peg_pending s) /\
  map_Forall (fun id tx => peg_id tx = id /\ requested ops s0 tx /\ confirmed_by ops s0 tx /\
    (peg_status tx = PegConfirmed \/ (peg_status tx = PegCompleted /\ OpComplete id ∈ ops))) (peg_completed s).

Lemma requested_mono ops ops' s tx : ops ⊆ ops' -> requested ops s tx -> requested ops' s tx.
Proof.
  intros Hs [(f & n & r & Hi & ?)|(f & n & r & Hi & ?)]; [left|right]; exists f, n, r; auto.
Qed.

Lemma confirmed_mono ops ops' s tx : ops ⊆ ops' -> confirmed_by ops s tx -> confirmed_by ops' s tx.
Proof. intros Hs (h & Hi & ?). exists h. auto. Qed.

Lemma peg_inv_mono s0 ops ops' s : ops ⊆ ops' -> peg_inv s0 ops s -> peg_inv s0 ops' s.
Proof.
  intros Hs (Hf & Hr & Hp & Hc). split; [done|]. split; [done|]. split.
  - intros id tx Hx. destruct (Hp id tx Hx) as (? & ? & ?). eauto using requested_mono.
  - intros id tx Hx. destruct (Hc id tx Hx) as (? & ? & ? & Hst).
    split; [done|]. split; [eauto using requested_mono|]. split; [eauto using confirmed_mono|].
    destruct Hst as [|[? ?]]; auto.
Qed.

Lemma peg_validate_config s s0 fed sigs id :
  peg_federation s = peg_federation s0 ->
  peg_validate_federation_signatures s fed sigs id = peg_validate_federation_signatures s0 fed sigs id.
Proof. unfold peg_validate_federation_signatures. by intros ->. Qed.

(** A new pending record. *)
Lemma peg_inv_pending s0 ops s tx :
  peg_inv s0 ops s -> requested ops s0 tx -> peg_status tx = PegPending ->
  peg_inv s0 ops (s <| peg_pending ::= <[peg_id tx := tx]> |>).
Proof.
  intros (Hf & Hr & Hp & Hc) Hq Hst. destruct s as [p c f r u]. cbn in *.
  split; [done|]. split; [done|]. split; [|done]. cbn. by apply map_Forall_insert_2.
Qed.

Lemma peg_step_inv s0 ops s op : peg_inv s0 ops s -> op ∈ ops -> peg_inv s0 ops (peg_step s op).
Proof.
  intros Hinv Hin. pose proof Hinv as (Hf & Hr & Hp & Hc). destruct op as [fed now id req|fed now id req|id h|id]; cbn.
  - unfold initiate_peg_in. rewrite stM_bind_run. cbn [gets Datatypes.id]. rewrite stM_bind_run. cbn [lift].
    destruct (peg_validate_federation_signatures _ _ _ _) as [[]| | |] eqn:Hv; try done.
    rewrite stM_bind_run. cbn [lift]. destruct (validate_mainchain_lock_transaction _ _) as [[]| | |]; try done.
    rewrite (peg_validate_config s s0) in Hv by done.
    apply (peg_inv_pending s0 ops s (peg_in_record id now req)); [done| |done].
    left. exists fed, now, req. done.
  - unfold initiate_peg_out. rewrite stM_bind_run. cbn [gets Datatypes.id]. rewrite stM_bind_run. cbn [lift].
    destruct (peg_validate_federation_signatures _ _ _ _) as [[]| | |] eqn:Hv; try done.
    rewrite (peg_validate_config s s0) in Hv by done.
    apply (peg_inv_pending s0 ops s (peg_out_record id now req)); [done| |done].
    right. exists fed, now, req. done.
  - unfold confirm_peg_transaction. rewrite stM_bind_run. cbn [gets Datatypes.id]. rewrite stM_bind_run. cbn [lift].
    destruct (peg_pending s !! id) as [tx|] eqn:Hx; cbn [ok_or]; [|done].
    destruct (Hp _ _ Hx) as (Hid & _ & Hq). destruct (Z.ltb_spec h (u64_add (peg_confirm_height tx) (required_confirmations s)));
      [done|]. destruct s as [p c f r u]. cbn in *. split; [done|]. split; [done|]. cbn. split.
    + by apply map_Forall_delete.
    + apply map_Forall_insert_2; [|done]. split; [by destruct tx|]. split; [by destruct tx|].
      split; [|left; by destruct tx]. exists h. subst r. destruct tx. by cbn in *; subst.
  - unfold complete_peg_transaction. rewrite stM_bind_run. cbn [gets Datatypes.id]. rewrite stM_bind_run. cbn [lift].
    destruct (peg_completed s !! id) as [tx|] eqn:Hx; cbn [ok_or]; [|done].
    destruct (Hc _ _ Hx) as (Hid & Hq & Hcf & _). destruct s as [p c f r u]. cbn in *.
    split; [done|]. split; [done|]. cbn. split; [done|].
    apply map_Forall_insert_2; [|done]. split; [by destruct tx|]. split; [by destruct tx|].
    split; [by destruct tx|right; by destruct tx].
Qed.

Lemma peg_run_inv s0 ops : peg_pending s0 = ∅ -> peg_completed s0 = ∅ -> peg_inv s0 ops (peg_run s0 ops).
Proof.
  intros Hp Hc. unfold peg_run. induction ops as [|op ops IH] using rev_ind.
  - split; [done|]. split; [done|]. cbn. rewrite Hp, Hc. split; apply map_Forall_empty.
  - rewrite foldl_app. cbn. apply peg_step_inv; [|set_solver].
    eapply peg_inv_mono; [|exact IH]. set_solver.
Qed.

(** What the check of signatures establishes with a federation manager: one of
    the signatures names enough signers for the current epoch, and every one
    verifies (over the fixed message of [check_peg_signature]) under the keys of
    its epoch. *)
Definition federation_agreed (fed : FederationIntegrator) (chain : Hash) (signatures : list FederationSignature) : Prop :=
  (exists epoch sig, fi_get_current_epoch fed chain = Some epoch /\ sig ∈ signatures /\
     epoch_threshold epoch <= count_signers sig) /\
  Forall (fun sig => fi_validate_federation_signature fed chain (fed_epoch sig) sig MAINCHAIN = true) signatures.

Lemma count_signers_nonneg sig : 0 <= count_signers sig.
Proof.
  unfold count_signers. destruct (signer_bitmap sig) as [|b l] using rev_ind; [done|]. rewrite foldl_app. cbn.
  unfold wrap32. apply Z.mod_pos_bound. done.
Qed.

Lemma max_signers signatures : signatures <> [] ->
  exists sig, sig ∈ signatures /\ foldr (fun sig n => Z.max (count_signers sig) n) 0 signatures = count_signers sig.
Proof.
  assert (Hc : forall sig, 0 <= count_signers sig) by apply count_signers_nonneg.
  induction signatures as [|sig sigs IH]; [done|]. intros _. cbn [foldr]. destruct sigs as [|sig' sigs].
  - exists sig. split; [by left|]. cbn. specialize (Hc sig). lia.
  - destruct IH as (best & Hin & ->); [done|]. destruct (Z.le_ge_cases (count_signers sig) (count_signers best)).
    + exists best. split; [by right|]. lia.
    + exists sig. split; [by left|]. lia.
Qed.

Lemma peg_signatures_checked s fed sigs chain :
  peg_validate_federation_signatures s fed sigs chain = Ok tt ->
  sigs <> [] /\ (peg_federation s = true -> federation_agreed fed chain sigs).
Proof.
  unfold peg_validate_federation_signatures. destruct (Z.eqb_spec (len sigs) 0) as [|Hne]; [done|].
  assert (Hn : sigs <> []) by (by intros ->). intros Hv. split; [done|]. intros Hf. rewrite Hf in Hv.
  destruct (fi_get_current_epoch fed chain) as [epoch|] eqn:He; [|done]. cbn [ok_or mbind outcome_bind] in Hv.
  destruct (is_threshold_met epoch _) eqn:Ht; [|done]. cbn [negb] in Hv.
  destruct (forallb _ _) eqn:Hall; [|done]. destruct (max_signers sigs Hn) as (sig & Hin & Hm). split.
  - exists epoch, sig. split; [done|]. split; [done|]. rewrite Hm in Ht. unfold is_threshold_met in Ht. lia.
  - apply Forall_forall. intros x Hx. rewrite forallb_forall in Hall. apply Hall. by apply list_elem_of_In.
Qed.

(** The call that requested a peg transaction, with its signatures. *)
Definition request_of (ops : list peg_op) (tx : PegTransaction) (fed : FederationIntegrator) (chain : Hash)
    (signatures : list FederationSignature) : Prop :=
  (exists now r, OpPegIn fed now (peg_id tx) r ∈ ops /\ set_peg_status PegPending tx = peg_in_record (peg_id tx) now r /\
     in_federation_signatures r = signatures /\ in_sidechain_id r = chain) \/
  (exists now r, OpPegOut fed now (peg_id tx) r ∈ ops /\ set_peg_status PegPending tx = peg_out_record (peg_id tx) now r /\
     out_federation_signatures r = signatures /\ out_sidechain_id r = chain).

Lemma requested_by ops s tx :
  requested ops s tx -> exists fed chain sigs, request_of ops tx fed chain sigs /\ sigs <> [] /\
    (peg_federation s = true -> federation_agreed fed chain sigs).
Proof.
  intros [(fed & now & r & Hin & Htx & Hv)|(fed & now & r & Hin & Htx & Hv)]; apply peg_signatures_checked in Hv;
    eexists fed, _, _; (split; [|exact Hv]); [left|right]; eauto 10.
Qed.

(** C27. Nothing is pegged out of thin air: along every sequence of calls, every
    confirmed or completed peg transaction goes back to a request with its
    amount, chains, recipient and height that carried signatures.  If the manager
    has a federation manager, one of them names as many signers as the current
    epoch of the sidechain requires and each verifies over the fixed message the
    code uses; without one, nothing is checked but that there are signatures.  A
    confirmation was given at a height at least the required number of blocks
    above the height of the request, if that sum fits in 64 bits; and it is
    marked completed only by a completion call. *)
Theorem peg_provenance federation required utxo_set ops id tx :
  peg_completed (peg_run (mkTwoWayPegManager ∅ ∅ federation required utxo_set) ops) !! id = Some tx ->
  peg_id tx = id /\
  (exists fed chain sigs, request_of ops tx fed chain sigs /\ sigs <> [] /\
     (federation = true -> federation_agreed fed chain sigs)) /\
  (exists height, OpConfirm id height ∈ ops /\
     (0 <= peg_confirm_height tx + required <= u64_max -> peg_confirm_height tx + required <= height)) /\
  (peg_status tx = PegConfirmed \/ (peg_status tx = PegCompleted /\ OpComplete id ∈ ops)).
Proof.
  set (s0 := mkTwoWayPegManager _ _ _ _ _). intros Hx. destruct (peg_run_inv s0 ops eq_refl eq_refl) as (_ & _ & _ & Hall).
  destruct (Hall _ _ Hx) as (Hid & Hr & (height & Hc & Hd) & Hst). split; [done|]. split; [by apply requested_by in Hr|].
  split; [|done]. exists height. rewrite <- Hid. split; [done|]. intros Hf. cbn [s0 required_confirmations] in Hd.
  unfold u64_add in Hd. by rewrite wrap64_small in Hd.
Qed.

(** The federation signs nothing of the request: if one peg-out is accepted,
    every other one for the same sidechain with the same signatures is, whatever
    its amount, recipient, transaction and height, again and again. *)
Theorem peg_signatures_replay fed now id request s :
  is_ok (snd (initiate_peg_out fed now id request s)) = true ->
  forall now' id' request' s', peg_federation s' = peg_federation s ->
    out_sidechain_id request' = out_sidechain_id request ->
    out_federation_signatures request' = out_federation_signatures request ->
    initiate_peg_out fed now' id' request' s' =
      (s' <| peg_pending ::= <[id' := peg_out_record id' now' request']> |>, Ok id').
Proof.
  intros Hok now' id' request' s' Hf Hi Hs. unfold initiate_peg_out in *. rewrite stM_bind_run in *.
  cbn [gets Datatypes.id] in *. rewrite stM_bind_run in *. cbn [lift] in *.
  rewrite (peg_validate_config s' s), Hi, Hs by done.
  by destruct (peg_validate_federation_signatures _ _ _ _) as [[]| | |].
Qed.

End Provenance.

(** * Examples *)

Definition peg_fed : FederationIntegrator := fed_run FederationIntegrator_new (take 1 sample_ops).

(** The signature of the first member, with a bitmap that names all three. *)
Definition peg_signature : FederationSignature :=
  mkFederationSignature (sample_key 1 ++ sample_key 1) [224] 1 1 MAINCHAIN.

Definition peg_request (amount : Z) : PegOutRequest :=
  mkPegOutRequest MAINCHAIN amount [1; 2; 3] sample_chain 0 [] [peg_signature].

Definition peg_s0 : TwoWayPegManager := peg_with_federation_manager (TwoWayPegManager_new 6).

Definition peg_ops : list peg_op :=
  [OpPegOut peg_fed 1000 (replicate 32 5) (peg_request 700); OpConfirm (replicate 32 5) 5;
   OpConfirm (replicate 32 5) 6; OpComplete (replicate 32 5)].

Definition peg_final : TwoWayPegManager := peg_run (H := sample_bls) peg_s0 peg_ops.

Example peg_final_stats : peg_get_stats peg_final = mkPegStats 0 1 0 700.
Proof. vm_compute. reflexivity. Qed.

Lemma peg_provenance_witness : exists tx fed chain sigs,
  peg_completed peg_final !! replicate 32 5 = Some tx /\ request_of peg_ops tx fed chain sigs /\
  federation_agreed (H := sample_bls) fed chain sigs.
Proof.
  assert (E : peg_completed peg_final !! replicate 32 5 =
    Some (mkPegTransaction (replicate 32 5) PegOut PegCompleted 700 sample_chain MAINCHAIN [1; 2; 3] 0 1000 None))
    by (vm_compute; reflexivity).
  destruct (peg_provenance (H := sample_bls) true 6 false peg_ops _ _ E) as (_ & (fed & chain & sigs & Hr & _ & Ha) & _).
  eexists _, fed, chain, sigs. split; [exact E|]. split; [exact Hr|exact (Ha eq_refl)].
Defined.

Lemma peg_signatures_replay_witness :
  is_ok (snd (initiate_peg_out (H := sample_bls) peg_fed 1000 (replicate 32 6) (peg_request 1000000) peg_final)) = true.
Proof.
  assert (E : is_ok (snd (initiate_peg_out (H := sample_bls) peg_fed 1000 (replicate 32 5) (peg_request 700) peg_s0)) = true)
    by (vm_compute; reflexivity).
  rewrite (peg_signatures_replay (H := sample_bls) peg_fed 1000 (replicate 32 5) (peg_request 700) peg_s0 E
    1000 (replicate 32 6) (peg_request 1000000) peg_final); reflexivity.
Defined.
