(* ===== verification/CrossChain.v ===== *)
(** Messages between chains, the view a sidechain has of the main chain, and the
    processor of cross-chain transactions
    (src/rusty-core/src/sidechain/: cross_chain_communication.rs,
    mainchain_validator.rs, cross_chain_processor.rs).

    What the shared handles point to is an argument, or a field where one struct
    is the only user. *)

From Stdlib Require Import ZArith Lia List.
From stdpp Require Import base option list numbers strings gmap.
From coqutil Require Import Datatypes.RecordSetters.
From S2P Require Import Prelude Types Transaction SamplePrimitives SidechainTypes Federation.

Import TriangleBracketNotations.

#[local] Open Scope Z_scope.

(** * cross_chain_communication.rs *)

Inductive CrossChainMessageType : Type :=
| MsgMainchainBlockHeader
| MsgSidechainBlockHeader
| MsgCrossChainTransaction
| MsgFraudProof
| MsgFederationUpdate
| MsgStateSyncRequest
| MsgStateSyncResponse.

Record CrossChainMessage : Type := mkCrossChainMessage {
  message_type : CrossChainMessageType;
  msg_source : Hash;
  msg_destination : Hash;
  payload : bytes;
  sequence_number : Z;
  msg_timestamp : Z;
  msg_signature : option FederationSignature;
}.

(** bincode of a message type, and decoding of payloads. *)
Class MessageCodec : Type := {
  bincode_message_type : CrossChainMessageType -> option bytes;
  decode_cross_chain_tx : bytes -> option CrossChainTransaction;
  decode_mainchain_header : bytes -> option BlockHeader;
  decode_sidechain_header : bytes -> option SidechainBlockHeader;
}.

Record CrossChainCommunication : Type := mkCrossChainCommunication {
  pending_messages : gmap Hash (list CrossChainMessage);
  sequence_numbers : gmap (Hash * Hash) Z;
  comm_federation : bool;
}.

Definition CrossChainCommunication_new : CrossChainCommunication := mkCrossChainCommunication ∅ ∅ false.

Definition comm_with_federation_manager (c : CrossChainCommunication) : CrossChainCommunication :=
  c <| comm_federation := true |>.

Abbreviation commM := (stM CrossChainCommunication string).

(** [receive_messages] removes the queue of the chain. *)
Definition receive_messages (chain_id : Hash) (c : CrossChainCommunication) :
    CrossChainCommunication * list CrossChainMessage :=
  (c <| pending_messages ::= delete chain_id |>, default [] (pending_messages c !! chain_id)).

Definition pending_message_count (c : CrossChainCommunication) (chain_id : Hash) : Z :=
  len (default [] (pending_messages c !! chain_id)).

(** The second half of [send_message]: count the message and queue it. *)
Definition enqueue (message : CrossChainMessage) (c : CrossChainCommunication) : CrossChainCommunication :=
  let key := (msg_source message, msg_destination message) in
  c <| sequence_numbers ::= (fun m => <[key := u64_add (default 0 (m !! key)) 1]> m) |>
    <| pending_messages ::= (fun m =>
         <[msg_destination message := default [] (m !! msg_destination message) ++ [message]]> m) |>.

Section Communication.
Context `{Primitives} `{SidechainCodec} `{MessageCodec} `{BLS}.

Definition CrossChainMessage_hash (m : CrossChainMessage) : Hash :=
  blake3 (default [] (bincode_message_type (message_type m)) ++ msg_source m ++ msg_destination m ++
          payload m ++ to_le_bytes 8 (sequence_number m) ++ to_le_bytes 8 (msg_timestamp m)).

(** The federation of the source chain signed the message. *)
Definition message_signed (fed : FederationIntegrator) (m : CrossChainMessage) (sig : FederationSignature) : bool :=
  fi_validate_federation_signature fed (msg_source m) (fed_epoch sig) sig (CrossChainMessage_hash m).

Definition send_message (fed : FederationIntegrator) (message : CrossChainMessage) : commM unit := fun c =>
  match msg_signature message with
  | None => (c, Err "Federation signature required for cross-chain messages"%string)
  | Some sig =>
      if comm_federation c && negb (message_signed fed message sig)
      then (c, Err "Invalid federation signature on cross-chain message"%string)
      else (enqueue message c, Ok tt)
  end.

Definition process_message (fed : FederationIntegrator) (c : CrossChainCommunication)
    (message : CrossChainMessage) : textR unit :=
  (if comm_federation c then
     match msg_signature message with
     | Some sig => if message_signed fed message sig then mret tt
                   else Err "Invalid federation signature on received message"%string
     | None => Err "Missing federation signature on received message"%string
     end
   else mret tt);;
  if sequence_number message =? 0 then Err "Invalid sequence number"%string else mret tt.

Definition create_mainchain_header_message (now : Z) (source destination : Hash) (header : BlockHeader)
    (federation_epoch : Z) : textR CrossChainMessage :=
  payload ← ok_or (bincode_header header) "Failed to serialize block header"%string;
  mret (mkCrossChainMessage MsgMainchainBlockHeader source destination payload 0 now None).

Definition create_sidechain_header_message (now : Z) (source destination : Hash)
    (header : SidechainBlockHeader) (federation_epoch : Z) : textR CrossChainMessage :=
  payload ← ok_or (bincode_sidechain_header header) "Failed to serialize sidechain block header"%string;
  mret (mkCrossChainMessage MsgSidechainBlockHeader source destination payload 0 now None).

Definition create_cross_chain_tx_message (now : Z) (source destination : Hash)
    (tx : CrossChainTransaction) : textR CrossChainMessage :=
  payload ← ok_or (bincode_cross_chain_tx tx) "Failed to serialize cross-chain transaction"%string;
  mret (mkCrossChainMessage MsgCrossChainTransaction source destination payload 0 now None).

(** ** Queues *)

(** The messages for [chain] among accepted ones, in order. *)
Definition queue_for (chain : Hash) (sent : list CrossChainMessage) : list CrossChainMessage :=
  List.filter (fun m => bool_decide (msg_destination m = chain)) sent.

Lemma enqueue_queue message c chain :
  default [] (pending_messages (enqueue message c) !! chain) =
  default [] (pending_messages c !! chain) ++ queue_for chain [message].
Proof.
  destruct c as [p s f]. unfold enqueue, queue_for. cbn.
  destruct (decide (msg_destination message = chain)) as [<-|Hn].
  - by rewrite lookup_insert_eq, bool_decide_true.
  - by rewrite lookup_insert_ne, bool_decide_false, app_nil_r by done.
Qed.

Definition send_all (fed : FederationIntegrator) (c : CrossChainCommunication)
    (messages : list CrossChainMessage) : CrossChainCommunication :=
  foldl (fun c m => fst (send_message fed m c)) c messages.

(** What [send_message] accepts. *)
Definition sendable (fed : FederationIntegrator) (c : CrossChainCommunication) (m : CrossChainMessage) : bool :=
  match msg_signature m with
  | None => false
  | Some sig => negb (comm_federation c) || message_signed fed m sig
  end.

Lemma send_message_spec fed m c :
  send_message fed m c =
  if sendable fed c m then (enqueue m c, Ok tt)
  else (c, Err (if bool_decide (msg_signature m = None)
                then "Federation signature required for cross-chain messages"%string
                else "Invalid federation signature on cross-chain message"%string)).
Proof.
  unfold send_message, sendable. destruct (msg_signature m) as [sig|]; [|by rewrite bool_decide_true].
  destruct (comm_federation c); cbn; [|done]. by destruct (message_signed fed m sig).
Qed.

Lemma send_all_spec fed messages c :
  comm_federation (send_all fed c messages) = comm_federation c /\
  forall chain, default [] (pending_messages (send_all fed c messages) !! chain) =
    default [] (pending_messages c !! chain) ++ queue_for chain (List.filter (sendable fed c) messages).
Proof.
  revert c. induction messages as [|m messages IH]; intros c; cbn [List.filter];
    [split; [done|]; intros; symmetry; apply app_nil_r|].
  unfold send_all in *. cbn [foldl]. rewrite send_message_spec. destruct (sendable fed c m) eqn:Es; cbn [fst].
  - destruct (IH (enqueue m c)) as [Hf Hq]. rewrite Hf. split; [by destruct c|]. intros chain.
    rewrite Hq, enqueue_queue, <- app_assoc. f_equal.
    replace (List.filter (sendable fed (enqueue m c)) messages) with (List.filter (sendable fed c) messages)
      by (by destruct c). unfold queue_for. cbn. by destruct (bool_decide _).
  - apply IH.
Qed.

(** A chain receives exactly the messages for it that the federation of their
    source signed, in the order in which they were sent, and each once: the queue
    is empty afterwards, and the queues of the other chains are untouched. *)
Theorem messages_delivered fed messages chain :
  let c := send_all fed (comm_with_federation_manager CrossChainCommunication_new) messages in
  let '(c', received) := receive_messages chain c in
  received = queue_for chain (List.filter (fun m => match msg_signature m with
    | Some sig => message_signed fed m sig | None => false end) messages) /\
  pending_message_count c' chain = 0 /\
  forall other, other <> chain -> pending_messages c' !! other = pending_messages c !! other.
Proof.
  intros c. pose proof (proj2 (send_all_spec fed messages (comm_with_federation_manager CrossChainCommunication_new))) as Hq.
  fold c in Hq. unfold receive_messages. split; [|split].
  - rewrite Hq. cbn. by rewrite lookup_empty.
  - unfold pending_message_count. destruct c. cbn. by rewrite lookup_delete_eq.
  - intros other Ho. destruct c. cbn. by rewrite lookup_delete_ne.
Qed.

(** The messages the node builds are useless: none of the three constructors
    sets a signature or a sequence number, so every such message is refused by
    [send_message] and by [process_message], whatever the federation. *)
Theorem created_messages_refused now source destination fed c m :
  (exists header epoch, create_mainchain_header_message now source destination header epoch = Ok m) \/
  (exists header epoch, create_sidechain_header_message now source destination header epoch = Ok m) \/
  (exists tx, create_cross_chain_tx_message now source destination tx = Ok m) ->
  send_message fed m c = (c, Err "Federation signature required for cross-chain messages"%string) /\
  is_ok (process_message fed c m) = false.
Proof.
  intros Hm. assert (Hb : msg_signature m = None /\ sequence_number m = 0).
  { destruct Hm as [(h & e & E)|[(h & e & E)|(tx & E)]];
      apply outcome_bind_inv in E as (x & _ & E); by injection E as <-. }
  destruct Hb as [Hs Hn]. unfold send_message, process_message. rewrite Hs, Hn. split; [done|].
  by destruct (comm_federation c).
Qed.

End Communication.

(** * mainchain_validator.rs *)

Record MainchainStateSnapshot : Type := mkMainchainStateSnapshot {
  snap_height : Z;
  snap_block_hash : Hash;
  snap_state_root : Hash;
  snap_members : list bytes;
  snap_threshold : Z;
  snap_epoch : Z;
}.

Record MainchainValidator : Type := mkMainchainValidator {
  state_snapshots : gmap Hash MainchainStateSnapshot;
  block_headers : gmap Hash BlockHeader;
  max_reorg_depth : Z;
}.

Definition MainchainValidator_new (depth : Z) : MainchainValidator := mkMainchainValidator ∅ ∅ depth.

Definition update_mainchain_state (sidechain_id : Hash) (snapshot : MainchainStateSnapshot)
    (v : MainchainValidator) : MainchainValidator :=
  v <| state_snapshots ::= <[sidechain_id := snapshot]> |>.

Definition cache_block_header (block_hash : Hash) (header : BlockHeader) (v : MainchainValidator) :
    MainchainValidator :=
  v <| block_headers ::= <[block_hash := header]> |>.

Definition snapshot_of (v : MainchainValidator) (sidechain_id : Hash) : textR MainchainStateSnapshot :=
  ok_or (state_snapshots v !! sidechain_id) "No mainchain state snapshot available for sidechain"%string.

Definition validate_sidechain_block_header (v : MainchainValidator) (h : SidechainBlockHeader) : textR unit :=
  state ← snapshot_of v (sc_sidechain_id h);
  if snap_height state <? sc_mainchain_anchor_height h
  then Err "Sidechain anchor height is in the future"%string else
  if max_reorg_depth v <? u64_saturating_sub (snap_height state) (sc_mainchain_anchor_height h)
  then Err "Sidechain anchor height too old"%string else
  match block_headers v !! sc_mainchain_anchor_hash h with
  | None => Err "Mainchain anchor hash not found in cache"%string
  | Some cached =>
      if negb (header_height cached =? sc_mainchain_anchor_height h)
      then Err "Mainchain anchor hash height mismatch"%string else
      if negb (sc_federation_epoch h =? snap_epoch state) then Err "Federation epoch mismatch"%string
      else mret tt
  end.

(** The signature bytes are not checked. *)
Definition check_snapshot_signature (state : MainchainStateSnapshot) (hash : Hash) (sig : FederationSignature) :
    textR unit :=
  if negb (fed_epoch sig =? snap_epoch state) then Err "Federation signature epoch mismatch"%string else
  if negb (bool_decide (message_hash sig = hash)) then Err "Federation signature message hash mismatch"%string
  else mret tt.

(** [for x in l { body(x)?; }] *)
Fixpoint check_each {E A} (body : A -> outcome E unit) (l : list A) : outcome E unit :=
  match l with
  | [] => mret tt
  | x :: l => body x;; check_each body l
  end.

Lemma check_each_ok {E A} (body : A -> outcome E unit) l :
  check_each body l = Ok tt <-> Forall (fun x => body x = Ok tt) l.
Proof.
  induction l as [|x l IH]; [by split|]. cbn. rewrite Forall_cons, <- IH.
  destruct (body x) as [[]| | |]; cbn; split; intuition congruence.
Qed.

Definition mv_validate_federation_signatures (signatures : list FederationSignature)
    (state : MainchainStateSnapshot) (hash : Hash) : textR unit :=
  if len signatures =? 0 then Err "No federation signatures provided"%string else
  if foldr (fun sig n => Z.max (count_signers sig) n) 0 signatures <? snap_threshold state
  then Err "Federation signature threshold not met"%string else
  check_each (check_snapshot_signature state hash) signatures.

Section Validator.
Context `{Primitives} `{SidechainCodec}.

Definition mv_validate_cross_chain_transaction (v : MainchainValidator) (tx : CrossChainTransaction)
    (sidechain_id : Hash) : textR unit :=
  state ← snapshot_of v sidechain_id;
  mv_validate_federation_signatures (cc_federation_signatures tx) state (CrossChainTransaction_hash tx);;
  if cc_amount tx =? 0 then Err "Cross-chain transaction amount cannot be zero"%string else mret tt.

Definition mv_validate_sidechain_block (v : MainchainValidator) (block : SidechainBlock) : textR unit :=
  validate_sidechain_block_header v (sc_header block);;
  check_each (fun tx => mv_validate_cross_chain_transaction v tx (sc_sidechain_id (sc_header block)))
    (cross_chain_transactions block);;
  match federation_signature block with
  | Some sig =>
      state ← snapshot_of v (sc_sidechain_id (sc_header block));
      mv_validate_federation_signatures [sig] state (SidechainBlock_hash block)
  | None => Err "Sidechain block missing federation signature"%string
  end.

(** The same block with other signature bytes. *)
Definition forge (x : bytes) (b : SidechainBlock) : SidechainBlock :=
  mkSidechainBlock (sc_header b) (sc_transactions b) (cross_chain_transactions b) (fraud_proofs b)
    ((fun s => mkFederationSignature x (signer_bitmap s) (fed_threshold s) (fed_epoch s) (message_hash s)) <$>
       federation_signature b).

(** What an accepted block has passed: its anchor is a cached header of that
    height, at most [max_reorg_depth] below the known tip and not above it, its
    epoch is the current one, and its bitmap names as many signers as the
    threshold asks for, over the hash of the block.  The signature itself is not
    part of it: with any other bytes in its place the verdict is the same. *)
Theorem validator_accepts v block :
  (mv_validate_sidechain_block v block = Ok tt ->
   exists state cached sig,
     state_snapshots v !! sc_sidechain_id (sc_header block) = Some state /\
     block_headers v !! sc_mainchain_anchor_hash (sc_header block) = Some cached /\
     header_height cached = sc_mainchain_anchor_height (sc_header block) /\
     sc_mainchain_anchor_height (sc_header block) <= snap_height state <=
       sc_mainchain_anchor_height (sc_header block) + max_reorg_depth v /\
     sc_federation_epoch (sc_header block) = snap_epoch state /\
     federation_signature block = Some sig /\ snap_threshold state <= count_signers sig `max` 0 /\
     message_hash sig = SidechainBlock_hash block) /\
  forall x, mv_validate_sidechain_block v (forge x block) = mv_validate_sidechain_block v block.
Proof.
  split.
  - intros E. apply outcome_bind_inv in E as ([] & Hh & E). apply outcome_bind_inv in E as ([] & _ & E).
    apply outcome_bind_inv in Hh as (state & Hs & Hh). unfold snapshot_of in Hs.
    destruct (state_snapshots v !! _) as [st|] eqn:Hst; [|done]. injection Hs as ->.
    destruct (Z.ltb_spec (snap_height state) (sc_mainchain_anchor_height (sc_header block))); [done|].
    destruct (Z.ltb_spec (max_reorg_depth v) (u64_saturating_sub (snap_height state) (sc_mainchain_anchor_height (sc_header block))));
      [done|]. unfold u64_saturating_sub in *.
    destruct (block_headers v !! _) as [cached|] eqn:Hc; [|done].
    destruct (Z.eqb_spec (header_height cached) (sc_mainchain_anchor_height (sc_header block))); [|done].
    destruct (Z.eqb_spec (sc_federation_epoch (sc_header block)) (snap_epoch state)); [|done].
    destruct (federation_signature block) as [sig|]; [|done].
    unfold snapshot_of in E. rewrite Hst in E. cbn in E. unfold mv_validate_federation_signatures in E. cbn in E.
    destruct (Z.ltb_spec (Z.max (count_signers sig) 0) (snap_threshold state)); [done|].
    unfold check_snapshot_signature in E. destruct (negb (fed_epoch sig =? _)); [done|].
    destruct (bool_decide (message_hash sig = _)) eqn:Hm; [|done]. apply bool_decide_eq_true in Hm.
    exists state, cached, sig. split_and!; done || lia.
  - intros x. unfold mv_validate_sidechain_block, forge. cbn.
    by destruct (federation_signature block).
Qed.

End Validator.

Inductive ReorgImpact : Type :=
| NoImpact
| NewBlocks (n : Z)
| ShallowReorg (n : Z)
| DeepReorg (n : Z)
| SameHeightReorg.

#[export] Instance ReorgImpact_eq_dec : EqDecision ReorgImpact.
Proof. solve_decision. Defined.

(** [x as i64] of a [u64], and the wrapping difference. *)
Definition as_i64 (x : Z) : Z := if x <? 9223372036854775808 then x else x - 18446744073709551616.
Definition i64_sub (a b : Z) : Z := as_i64 (wrap64 (a - b)).

Definition check_reorg_impact (v : MainchainValidator) (sidechain_id : Hash) (new_height : Z) (new_hash : Hash) :
    textR ReorgImpact :=
  state ← snapshot_of v sidechain_id;
  let diff := i64_sub (as_i64 new_height) (as_i64 (snap_height state)) in
  mret (if 0 <? diff then NewBlocks diff
        else if diff <? 0 then
          let depth := wrap64 (- diff) in
          if max_reorg_depth v <? depth then DeepReorg depth else ShallowReorg depth
        else if negb (bool_decide (snap_block_hash state = new_hash)) then SameHeightReorg else NoImpact).

(** The classification is right for heights below 2^63: growth and rollback are
    measured exactly, and a rollback is deep exactly when it exceeds the limit. *)
Theorem reorg_impact_exact v id new_height new_hash state :
  state_snapshots v !! id = Some state ->
  0 <= new_height < 9223372036854775808 -> 0 <= snap_height state < 9223372036854775808 ->
  check_reorg_impact v id new_height new_hash = Ok (
    match Z.compare new_height (snap_height state) with
    | Gt => NewBlocks (new_height - snap_height state)
    | Eq => if bool_decide (snap_block_hash state = new_hash) then NoImpact else SameHeightReorg
    | Lt => if max_reorg_depth v <? snap_height state - new_height
            then DeepReorg (snap_height state - new_height) else ShallowReorg (snap_height state - new_height)
    end).
Proof.
  intros Hs Hn Hh. unfold check_reorg_impact, snapshot_of. rewrite Hs. cbn [ok_or mbind outcome_bind].
  unfold mret, outcome_ret. f_equal.
  assert (E : i64_sub (as_i64 new_height) (as_i64 (snap_height state)) = new_height - snap_height state).
  { unfold i64_sub, as_i64 at 2 3. rewrite !(proj2 (Z.ltb_lt _ 9223372036854775808)) by lia.
    unfold as_i64, wrap64. destruct (Z_lt_le_dec new_height (snap_height state)).
    - replace ((new_height - snap_height state) mod 18446744073709551616)
        with (new_height - snap_height state + 18446744073709551616).
      + rewrite (proj2 (Z.ltb_ge _ _)) by lia. lia.
      + apply (Z.mod_unique _ _ (-1)); lia.
    - rewrite Z.mod_small by lia. by rewrite (proj2 (Z.ltb_lt _ _)) by lia. }
  rewrite E. destruct (Z.compare_spec new_height (snap_height state)).
  - rewrite (proj2 (Z.ltb_ge 0 _)), (proj2 (Z.ltb_ge _ 0)) by lia. by destruct (bool_decide _).
  - rewrite (proj2 (Z.ltb_ge 0 _)), (proj2 (Z.ltb_lt _ 0)) by lia.
    replace (wrap64 (- (new_height - snap_height state))) with (snap_height state - new_height)
      by (rewrite wrap64_small; unfold u64_max; lia). done.
  - by rewrite (proj2 (Z.ltb_lt 0 _)) by lia.
Qed.

(** * Examples *)

Definition sample_message_codec : MessageCodec := {|
  bincode_message_type t := Some [0; 0; 0; 0];
  decode_cross_chain_tx b := None;
  decode_mainchain_header b := None;
  decode_sidechain_header b := None;
|}.

Definition sample_cc_tx : CrossChainTransaction :=
  mkCrossChainTransaction MAINCHAIN 5 [] sample_chain MAINCHAIN (mkCrossChainProof [] [] [] 0) [] [].

Definition sample_cc_message : CrossChainMessage :=
  mkCrossChainMessage MsgCrossChainTransaction sample_chain MAINCHAIN (MAINCHAIN ++ [5; 0; 0; 0; 0; 0; 0; 0]) 0 7 None.

Lemma created_messages_refused_witness :
  create_cross_chain_tx_message (H0 := sample_sidechain_codec) 7 sample_chain MAINCHAIN sample_cc_tx =
    Ok sample_cc_message /\
  is_ok (process_message (H := sample_primitives) (H1 := sample_message_codec) (H2 := sample_bls)
    FederationIntegrator_new CrossChainCommunication_new sample_cc_message) = false.
Proof.
  assert (E : create_cross_chain_tx_message (H0 := sample_sidechain_codec) 7 sample_chain MAINCHAIN sample_cc_tx =
    Ok sample_cc_message) by reflexivity.
  split; [exact E|].
  exact (proj2 (created_messages_refused (H := sample_primitives) (H0 := sample_sidechain_codec)
    (H1 := sample_message_codec) (H2 := sample_bls) 7 sample_chain MAINCHAIN FederationIntegrator_new
    CrossChainCommunication_new sample_cc_message (or_intror (or_intror (ex_intro _ sample_cc_tx E))))).
Defined.

Definition sample_validator : MainchainValidator :=
  update_mainchain_state sample_chain (mkMainchainStateSnapshot 1000 MAINCHAIN MAINCHAIN [] 2 1)
    (MainchainValidator_new 100).

Lemma reorg_impact_exact_witness :
  check_reorg_impact sample_validator sample_chain 800 MAINCHAIN = Ok (DeepReorg 200).
Proof.
  rewrite (reorg_impact_exact sample_validator sample_chain 800 MAINCHAIN
    (mkMainchainStateSnapshot 1000 MAINCHAIN MAINCHAIN [] 2 1)).
  - vm_compute. reflexivity.
  - vm_compute. reflexivity.
  - lia.
  - cbn [snap_height]. lia.
Defined.
