(* ===== verification/CrossChainProcessor.v ===== *)
(** The processor of cross-chain transactions
    (src/rusty-core/src/sidechain/cross_chain_processor.rs).

    The [MainchainInterface] trait is a record of its four methods.  The
    communication manager and the federation manager behind the shared handles
    are a field and an argument. *)

From Stdlib Require Import ZArith Lia List.
From stdpp Require Import base option list numbers strings gmap pretty.
From coqutil Require Import Datatypes.RecordSetters.
From S2P Require Import Prelude Types Transaction SamplePrimitives ChainState SidechainTypes Federation CrossChain.

Import TriangleBracketNotations.

#[local] Open Scope Z_scope.

Inductive CrossChainTxStatus : Type := TxReceived | TxValidated | TxExecuted | TxFailed | TxRejected.

#[export] Instance CrossChainTxStatus_eq_dec : EqDecision CrossChainTxStatus.
Proof. solve_decision. Defined.

Record MainchainInterface : Type := mkMainchainInterface {
  submit_transaction : Transaction -> textR Hash;
  interface_height : Z;
  interface_block_hash : Z -> option Hash;
  interface_validate : Hash -> bool;
}.

Record CrossChainProcessor : Type := mkCrossChainProcessor {
  communication : CrossChainCommunication;
  tx_pools : gmap Hash (list CrossChainTransaction);
  processed_txs : gmap Hash CrossChainTxStatus;
  mainchain_interface : option MainchainInterface;
}.

Definition CrossChainProcessor_new (c : CrossChainCommunication) : CrossChainProcessor :=
  mkCrossChainProcessor c ∅ ∅ None.

Definition with_mainchain_interface (i : MainchainInterface) (s : CrossChainProcessor) : CrossChainProcessor :=
  s <| mainchain_interface := Some i |>.

Abbreviation procM := (stM CrossChainProcessor string).

Inductive ProcessingResult : Type :=
| TransactionReceived (id : Hash)
| BlockHeaderProcessed (height : Z)
| SidechainHeaderProcessed (sidechain_id : Hash) (height : Z)
| Ignored
| Duplicate.

Inductive ExecutionResult : Type :=
| SubmittedToMainchain (id tx_hash : Hash)
| Queued (id : Hash)
| ExecutionFailed (id : Hash) (reason : string).

(** * Execution *)

(** [format!("{:?}", chain)] of a byte array. *)
Definition debug_bytes (l : bytes) : string :=
  ("[" +:+ String.concat ", " ((fun b => pretty (Z.to_N b)) <$> l) +:+ "]")%string.

Definition create_mainchain_transaction (tx : CrossChainTransaction) : textR Transaction :=
  if bool_decide (cc_destination_chain tx = MAINCHAIN) then
    let input := TxInput_from_outpoint (mkOutPoint MAINCHAIN 0) [] 4294967295 [] in
    let output := mkTxOutput (cc_amount tx) (cc_recipient_address tx)
      (Some (string_bytes ("Peg-out from sidechain " +:+ debug_bytes (cc_source_chain tx)))) in
    mret (Standard 1 [input] [output] 0 1000 [])
  else Err "Unsupported cross-chain operation"%string.

Definition execute_to_mainchain (s : CrossChainProcessor) (tx : CrossChainTransaction) : textR ExecutionResult :=
  match mainchain_interface s with
  | Some i =>
      mainchain_tx ← create_mainchain_transaction tx;
      hash ← submit_transaction i mainchain_tx;
      mret (SubmittedToMainchain (cc_id tx) hash)
  | None => Err "No mainchain interface available"%string
  end.

Definition execute_transaction (s : CrossChainProcessor) (tx : CrossChainTransaction) : textR ExecutionResult :=
  if bool_decide (cc_destination_chain tx = MAINCHAIN) then execute_to_mainchain s tx
  else mret (Queued (cc_id tx)).

(** One round of the loop of [execute_pending_transactions]: the transactions
    kept for a retry, and the results. *)
Definition execute_one (tx : CrossChainTransaction) (acc : list CrossChainTransaction * list ExecutionResult) :
    procM (list CrossChainTransaction * list ExecutionResult) :=
  s ← gets Datatypes.id;
  match execute_transaction s tx with
  | Ok r =>
      modify (fun s => s <| processed_txs ::= <[cc_id tx := TxExecuted]> |>);;
      mret (acc.1, acc.2 ++ [r])
  | Err e =>
      modify (fun s => s <| processed_txs ::= <[cc_id tx := TxFailed]> |>);;
      mret (acc.1 ++ [tx], acc.2 ++ [ExecutionFailed (cc_id tx) e])
  | Panic => panic
  | OutOfFuel => lift OutOfFuel
  end.

Fixpoint execute_all (txs : list CrossChainTransaction) (acc : list CrossChainTransaction * list ExecutionResult) :
    procM (list CrossChainTransaction * list ExecutionResult) :=
  match txs with
  | [] => mret acc
  | tx :: txs => acc ← execute_one tx acc; execute_all txs acc
  end.

Definition execute_pending_transactions (chain_id : Hash) : procM (list ExecutionResult) :=
  s ← gets Datatypes.id;
  let txs := default [] (tx_pools s !! chain_id) in
  modify (fun s => s <| tx_pools ::= alter (fun _ => []) chain_id |>);;
  '(remaining, results) ← execute_all txs ([], []);
  modify (fun s => s <| tx_pools ::= alter (fun pool => pool ++ remaining) chain_id |>);;
  mret results.

(** * Validation and messages *)

Section Processor.
Context `{Primitives} `{MessageCodec} `{BLS}.

(** Only peg-outs are checked, against the id the transaction claims. *)
Definition proc_validate_federation_signatures (manager : FederationManager) (tx : CrossChainTransaction) :
    textR unit :=
  if len (cc_federation_signatures tx) =? 0
  then Err "Cross-chain transaction must have federation signatures"%string else
  if bool_decide (cc_destination_chain tx = MAINCHAIN) then
    if forallb (fun sig => verify_threshold_signature manager (cc_source_chain tx) (fed_epoch sig) sig (cc_id tx))
         (cc_federation_signatures tx)
    then mret tt else Err "Invalid federation signature"%string
  else mret tt.

Definition proc_validate_cross_chain_transaction (manager : FederationManager) (s : CrossChainProcessor)
    (tx : CrossChainTransaction) : textR unit :=
  if cc_amount tx =? 0 then Err "Cross-chain transaction amount cannot be zero"%string else
  if bool_decide (is_Some (processed_txs s !! cc_id tx)) then Err "Duplicate cross-chain transaction"%string else
  if bool_decide (cc_source_chain tx = cc_destination_chain tx)
  then Err "Source and destination chains cannot be the same"%string else
  proc_validate_federation_signatures manager tx;;
  if bool_decide (cc_source_chain tx = MAINCHAIN) then
    match mainchain_interface s with
    | Some i => if interface_validate i MAINCHAIN then mret tt else Err "Invalid mainchain transaction"%string
    | None => mret tt
    end
  else mret tt.

Definition process_cross_chain_transaction_message (manager : FederationManager) (message : CrossChainMessage) :
    procM ProcessingResult :=
  tx ← lift (ok_or (decode_cross_chain_tx (payload message)) "Failed to deserialize payload"%string);
  s ← gets Datatypes.id;
  if bool_decide (is_Some (processed_txs s !! cc_id tx)) then mret Duplicate else
  lift (proc_validate_cross_chain_transaction manager s tx);;
  modify (fun s => s
    <| tx_pools ::= (fun m =>
         <[msg_destination message := default [] (m !! msg_destination message) ++ [tx]]> m) |>
    <| processed_txs ::= <[cc_id tx := TxReceived]> |>);;
  mret (TransactionReceived (cc_id tx)).

Definition process_mainchain_header_message (message : CrossChainMessage) : procM ProcessingResult :=
  header ← lift (ok_or (decode_mainchain_header (payload message)) "Failed to deserialize payload"%string);
  s ← gets Datatypes.id;
  match mainchain_interface s with
  | Some i =>
      if interface_height i <? header_height header
      then throw "Block header height is in the future"%string else
      match interface_block_hash i (header_height header) with
      | Some known =>
          hash ← lift (header_hash header);
          if negb (bool_decide (known = hash)) then throw "Block header hash mismatch"%string
          else mret (BlockHeaderProcessed (header_height header))
      | None => mret (BlockHeaderProcessed (header_height header))
      end
  | None => mret (BlockHeaderProcessed (header_height header))
  end.

Definition process_sidechain_header_message (message : CrossChainMessage) : procM ProcessingResult :=
  header ← lift (ok_or (decode_sidechain_header (payload message)) "Failed to deserialize payload"%string);
  mret (SidechainHeaderProcessed (sc_sidechain_id header) (sc_height header)).

Definition proc_process_message (fed : FederationIntegrator) (manager : FederationManager)
    (message : CrossChainMessage) : procM ProcessingResult :=
  s ← gets Datatypes.id;
  lift (process_message fed (communication s) message);;
  match message_type message with
  | MsgCrossChainTransaction => process_cross_chain_transaction_message manager message
  | MsgMainchainBlockHeader => process_mainchain_header_message message
  | MsgSidechainBlockHeader => process_sidechain_header_message message
  | _ => mret Ignored
  end.

Fixpoint process_all (fed : FederationIntegrator) (manager : FederationManager) (messages : list CrossChainMessage) :
    procM (list ProcessingResult) :=
  match messages with
  | [] => mret []
  | m :: messages =>
      r ← proc_process_message fed manager m;
      rs ← process_all fed manager messages;
      mret (r :: rs)
  end.

Definition process_messages (fed : FederationIntegrator) (manager : FederationManager) (chain_id : Hash) :
    procM (list ProcessingResult) :=
  s ← gets Datatypes.id;
  let '(c, messages) := receive_messages chain_id (communication s) in
  modify (fun s => s <| communication := c |>);;
  process_all fed manager messages.

End Processor.

Definition proc_get_pending_transactions (s : CrossChainProcessor) (chain_id : Hash) : list CrossChainTransaction :=
  default [] (tx_pools s !! chain_id).

Definition get_transaction_status (s : CrossChainProcessor) (tx_id : Hash) : option CrossChainTxStatus :=
  processed_txs s !! tx_id.

Record ProcessingStats : Type := mkProcessingStats {
  stat_pending : Z;
  stat_processed : Z;
  stat_failed : Z;
  stat_active_chains : Z;
}.

Definition count_status (st : CrossChainTxStatus) (s : CrossChainProcessor) : Z :=
  len (List.filter (fun x => bool_decide (x = st)) (map_to_list (processed_txs s)).*2).

Definition proc_get_stats (s : CrossChainProcessor) : ProcessingStats :=
  mkProcessingStats (sum_len Datatypes.id (map_to_list (tx_pools s)).*2) (count_status TxExecuted s) (count_status TxFailed s)
    (Z.of_nat (size (tx_pools s))).

(** * Each transaction is executed at most once *)

Definition pool_of (s : CrossChainProcessor) (chain : Hash) : list CrossChainTransaction :=
  default [] (tx_pools s !! chain).

(** Ids wait at most once, in one pool only, and no executed one waits. *)
Definition proc_inv (s : CrossChainProcessor) : Prop :=
  (forall c, NoDup (cc_id <$> pool_of s c)) /\
  (forall c1 c2 id, id ∈ cc_id <$> pool_of s c1 -> id ∈ cc_id <$> pool_of s c2 -> c1 = c2) /\
  (forall c id, id ∈ cc_id <$> pool_of s c ->
     processed_txs s !! id = Some TxReceived \/ processed_txs s !! id = Some TxFailed).

Lemma execute_one_spec tx acc s :
  (exists st acc', execute_one tx acc s = (s <| processed_txs ::= <[cc_id tx := st]> |>, Ok acc') /\
     (st = TxExecuted /\ acc'.1 = acc.1 \/ st = TxFailed /\ acc'.1 = acc.1 ++ [tx])) \/
  (fst (execute_one tx acc s) = s /\ is_ok (snd (execute_one tx acc s)) = false).
Proof.
  unfold execute_one. rewrite stM_bind_run. cbn [gets Datatypes.id].
  destruct (execute_transaction s tx) as [r|e| |]; [left|left|right; done|right; done].
  - eexists TxExecuted, _. split; [reflexivity|]. by left.
  - eexists TxFailed, _. split; [reflexivity|]. by right.
Qed.

(** The loop leaves the pools alone and touches only the statuses of the
    transactions it runs; those kept for a retry are marked failed, the others
    executed. *)
Lemma execute_all_spec txs a b s :
  NoDup (cc_id <$> txs) ->
  let s' := fst (execute_all txs (a, b) s) in
  tx_pools s' = tx_pools s /\
  (forall id, id ∉ cc_id <$> txs -> processed_txs s' !! id = processed_txs s !! id) /\
  forall rem res, snd (execute_all txs (a, b) s) = Ok (rem, res) ->
    exists kept, rem = a ++ kept /\ kept `sublist_of` txs /\
      forall id, id ∈ cc_id <$> txs ->
        processed_txs s' !! id = Some (if bool_decide (id ∈ cc_id <$> kept) then TxFailed else TxExecuted).
Proof.
  revert a b s. induction txs as [|tx txs IH]; intros a b s Hn.
  { cbn. split_and!; try done. intros rem res [= <- <-]. exists []. split; [by rewrite app_nil_r|].
    split; [done|]. by intros id ?%not_elem_of_nil. }
  rewrite fmap_cons in Hn. apply NoDup_cons in Hn as [Hni Hn]. cbn [execute_all]. cbv zeta. rewrite stM_bind_run.
  destruct (execute_one_spec tx (a, b) s) as [(st & [a' b'] & -> & Hst)|[Hs He]].
  - specialize (IH a' b' (s <| processed_txs ::= <[cc_id tx := st]> |>) Hn). cbv zeta in IH.
    destruct IH as (Hp & Ho & Hk). rewrite Hp. split; [by destruct s|]. cbn in Hst.
    assert (Htx : processed_txs (fst (execute_all txs (a', b') (s <| processed_txs ::= <[cc_id tx := st]> |>)))
      !! cc_id tx = Some st).
    { rewrite Ho by done. destruct s. cbn. by rewrite lookup_insert_eq. }
    split.
    + intros id Hid. rewrite fmap_cons in Hid. apply not_elem_of_cons in Hid as [H1 H2].
      rewrite Ho by done. destruct s. cbn. by rewrite lookup_insert_ne.
    + intros rem res E. destruct (Hk rem res E) as (kept & -> & Hsub & Hst').
      assert (Hnk : cc_id tx ∉ cc_id <$> kept).
      { intros Hin. apply Hni. eapply sublist_subseteq; [|exact Hin]. by apply (fmap_sublist cc_id). }
      destruct Hst as [[-> ->]|[-> ->]].
      * exists kept. split; [done|]. split; [by apply sublist_cons|]. intros id Hid.
        rewrite fmap_cons in Hid. apply elem_of_cons in Hid as [->|Hid]; [|by apply Hst'].
        by rewrite Htx, bool_decide_false.
      * exists (tx :: kept). split; [by rewrite <- app_assoc|]. split; [by apply sublist_skip|].
        intros id Hid. rewrite fmap_cons in Hid. apply elem_of_cons in Hid as [->|Hid].
        { rewrite Htx, bool_decide_true; [done|]. by left. }
        rewrite Hst' by done. assert (id <> cc_id tx) by (intros ->; done).
        destruct (decide (id ∈ cc_id <$> kept)).
        { rewrite !bool_decide_true; [done| |done]. by right. }
        rewrite !bool_decide_false; [done| |done]. by intros [?|?]%elem_of_cons.
  - destruct (execute_one tx (a, b) s) as [s1 [x|e| |]]; try done; cbn in Hs |- *; subst s1; split_and!; done.
Qed.

(** The transaction that a result reports as executed: submitted to the main
    chain, or handed to its sidechain. *)
Definition executed_id (r : ExecutionResult) : option Hash :=
  match r with SubmittedToMainchain id _ | Queued id => Some id | ExecutionFailed _ _ => None end.

Lemma execute_transaction_id s tx r : execute_transaction s tx = Ok r -> executed_id r = Some (cc_id tx).
Proof.
  unfold execute_transaction, execute_to_mainchain. case_bool_decide; [|by intros [= <-]].
  destruct (mainchain_interface s) as [i|]; [|done]. intros Hx. apply outcome_bind_inv in Hx as (t & _ & Hx).
  apply outcome_bind_inv in Hx as (h & _ & Hx). by injection Hx as <-.
Qed.

(** The loop reports as executed some of its transactions, in their order, and
    marks each of them. *)
Lemma execute_all_results txs a b s rem res :
  NoDup (cc_id <$> txs) -> snd (execute_all txs (a, b) s) = Ok (rem, res) ->
  exists l, omap executed_id res = omap executed_id b ++ l /\ l `sublist_of` cc_id <$> txs /\
    Forall (fun id => processed_txs (fst (execute_all txs (a, b) s)) !! id = Some TxExecuted) l.
Proof.
  revert a b s. induction txs as [|tx txs IH]; intros a b s Hn.
  { intros [= <- <-]. exists []. by rewrite app_nil_r. }
  rewrite fmap_cons in Hn. apply NoDup_cons in Hn as [Hni Hn]. cbn [execute_all]. rewrite stM_bind_run.
  unfold execute_one. rewrite stM_bind_run. cbn [gets Datatypes.id].
  destruct (execute_transaction s tx) as [r|e| |] eqn:Ex; [| |done|done]; rewrite stM_bind_run; cbn [modify mret stM_ret fst snd].
  - intros Hr. set (s1 := s <| processed_txs ::= <[cc_id tx := TxExecuted]> |>) in *.
    destruct (IH a (b ++ [r]) s1 Hn Hr) as (l & Hl & Hsub & Hall).
    exists (cc_id tx :: l). rewrite Hl, omap_app. cbn. rewrite (execute_transaction_id _ _ _ Ex), <- app_assoc.
    split; [done|]. split; [by apply sublist_skip|]. constructor; [|done].
    destruct (execute_all_spec txs a (b ++ [r]) s1 Hn) as (_ & Ho & _). rewrite Ho by done.
    unfold s1. destruct s. cbn. apply lookup_insert_eq.
  - intros Hr. destruct (IH (a ++ [tx]) (b ++ [ExecutionFailed (cc_id tx) e]) _ Hn Hr) as (l & Hl & Hsub & Hall).
    exists l. rewrite Hl, omap_app. cbn. rewrite app_nil_r. split; [done|]. split; [by apply sublist_cons|done].
Qed.

(** Filling a pool entry that exists, or is absent and stays so. *)
Lemma pool_alter f chain s c :
  f [] = [] ->
  pool_of (s <| tx_pools ::= alter f chain |>) c = if decide (c = chain) then f (pool_of s chain) else pool_of s c.
Proof.
  intros Hf. destruct s as [m p t i]. unfold pool_of. cbn. destruct (decide (c = chain)) as [->|Hc].
  - rewrite lookup_alter_eq. by destruct (p !! chain).
  - by rewrite lookup_alter_ne.
Qed.

Lemma execute_pending_inv chain : preserves proc_inv (execute_pending_transactions chain).
Proof.
  intros s (Hn & Hd & Hst). unfold execute_pending_transactions. rewrite stM_bind_run. cbn [gets Datatypes.id].
  rewrite stM_bind_run. cbn [modify].
  set (s1 := s <| tx_pools ::= alter (fun _ => []) chain |>).
  assert (Hp1 : forall c, pool_of s1 c = if decide (c = chain) then [] else pool_of s c)
    by (intros; by apply pool_alter).
  assert (Hpr : processed_txs s1 = processed_txs s) by (by destruct s).
  pose proof (execute_all_spec (pool_of s chain) [] [] s1 (Hn chain)) as Hspec. cbv zeta in Hspec.
  change (default [] (tx_pools s !! chain)) with (pool_of s chain). rewrite stM_bind_run.
  destruct (execute_all (pool_of s chain) ([], []) s1) as [s2 r]. cbn [fst snd] in Hspec.
  destruct Hspec as (Hp & Ho & Hk).
  assert (Hp2 : forall c, pool_of s2 c = if decide (c = chain) then [] else pool_of s c)
    by (intros; unfold pool_of at 1; rewrite Hp; apply Hp1).
  assert (Hother : forall c id, c <> chain -> id ∈ cc_id <$> pool_of s c ->
    processed_txs s2 !! id = processed_txs s !! id).
  { intros c id Hc Hin. rewrite Ho, Hpr; [done|]. intros Hin'. apply Hc. by eapply Hd. }
  assert (Hs2 : proc_inv s2).
  { split; [|split].
    - intros c. rewrite Hp2. case_decide; [constructor|apply Hn].
    - intros c1 c2 id. rewrite !Hp2. repeat case_decide; subst; try (by intros ?%not_elem_of_nil).
      + by intros _ ?%not_elem_of_nil.
      + apply Hd.
    - intros c id. rewrite Hp2. case_decide; [by intros ?%not_elem_of_nil|]. intros Hin.
      rewrite (Hother c) by done. by apply (Hst c). }
  destruct r as [[rem res]| | |]; try exact Hs2. destruct (Hk rem res eq_refl) as (kept & -> & Hsub & Hkst).
  rewrite stM_bind_run. cbn [modify]. cbn [app].
  assert (Hkin : forall id, id ∈ cc_id <$> kept -> id ∈ cc_id <$> pool_of s chain).
  { intros id Hin. eapply sublist_subseteq; [|exact Hin]. by apply (fmap_sublist cc_id). }
  set (s3 := s2 <| tx_pools ::= alter (fun pool => pool ++ kept) chain |>).
  assert (Hp3 : forall c, pool_of s3 c = if decide (c = chain) then kept else pool_of s c).
  { intros c. specialize (Hp2 c). unfold s3, pool_of in *. destruct s2 as [m p t i]. cbn in *.
    destruct (decide (c = chain)) as [->|Hc]; [|by rewrite lookup_alter_ne].
    rewrite lookup_alter_eq. destruct (p !! chain) as [q|] eqn:Eq; cbn in *; [by subst q|].
    subst p. unfold s1 in Eq. destruct s as [m' p' t' i']. cbn in *. rewrite lookup_alter_eq in Eq.
    destruct (p' !! chain); [done|]. cbn in Hsub. by apply sublist_nil_r in Hsub. }
  assert (Hpr3 : processed_txs s3 = processed_txs s2) by (by destruct s2).
  split; [|split].
  - intros c. rewrite Hp3. case_decide; [|apply Hn].
    eapply sublist_NoDup; [apply (Hn chain)|]. by apply (fmap_sublist cc_id).
  - intros c1 c2 id. rewrite !Hp3. repeat case_decide; subst; intros H1 H2; try done;
      eapply Hd; eauto.
  - intros c id. rewrite Hp3, Hpr3. case_decide as Hc; intros Hin.
    + right. rewrite Hkst, bool_decide_true by auto. done.
    + rewrite (Hother c) by done. by apply (Hst c).
Qed.

(** Executed ids stay executed. *)
Definition proc_inv_executed (id : Hash) (s : CrossChainProcessor) : Prop :=
  proc_inv s /\ processed_txs s !! id = Some TxExecuted.

Lemma execute_pending_executed id chain : preserves (proc_inv_executed id) (execute_pending_transactions chain).
Proof.
  intros s [Hinv Hid]. pose proof (execute_pending_inv chain s Hinv) as Hinv'.
  enough (processed_txs (fst (execute_pending_transactions chain s)) !! id = Some TxExecuted) as Hid'.
  { by destruct (execute_pending_transactions chain s) as [s' [?| | |]]. }
  destruct Hinv as (Hn & _ & Hst). unfold execute_pending_transactions. rewrite stM_bind_run. cbn [gets Datatypes.id].
  rewrite stM_bind_run. cbn [modify]. set (s1 := s <| tx_pools ::= alter (fun _ => []) chain |>).
  pose proof (execute_all_spec (pool_of s chain) [] [] s1 (Hn chain)) as (_ & Ho & _).
  change (default [] (tx_pools s !! chain)) with (pool_of s chain). rewrite stM_bind_run.
  assert (Hout : id ∉ cc_id <$> pool_of s chain) by (intros Hin; destruct (Hst _ _ Hin); congruence).
  specialize (Ho id Hout). assert (processed_txs s1 = processed_txs s) as Hp1 by (by destruct s).
  rewrite Hp1, Hid in Ho. destruct (execute_all _ _ s1) as [s2 [[rem res]| | |]]; cbn in Ho |- *; done.
Qed.

Section Once.
Context `{Primitives} `{MessageCodec} `{BLS}.

(** A received transaction with a new id. *)
Lemma receive_inv chain tx s :
  processed_txs s !! cc_id tx = None -> proc_inv s ->
  proc_inv (s <| tx_pools ::= (fun m => <[chain := default [] (m !! chain) ++ [tx]]> m) |>
              <| processed_txs ::= <[cc_id tx := TxReceived]> |>).
Proof.
  intros Hnew (Hn & Hd & Hst). set (s' := _ <| processed_txs ::= _ |>).
  assert (Hp : forall c, pool_of s' c = if decide (c = chain) then pool_of s chain ++ [tx] else pool_of s c).
  { intros c. unfold s', pool_of. destruct s. cbn. destruct (decide (c = chain)) as [->|Hc].
    - by rewrite lookup_insert_eq.
    - by rewrite lookup_insert_ne. }
  assert (Hpr : processed_txs s' = <[cc_id tx := TxReceived]> (processed_txs s)) by (by destruct s).
  assert (Hout : forall c, cc_id tx ∉ cc_id <$> pool_of s c) by (intros c Hin; destruct (Hst _ _ Hin); congruence).
  assert (Hin' : forall c id, id ∈ cc_id <$> pool_of s' c -> id ∈ cc_id <$> pool_of s c \/ (c = chain /\ id = cc_id tx)).
  { intros c id. rewrite Hp. case_decide; [|by left]. subst c. rewrite fmap_app, elem_of_app.
    intros [?|Hi]; [by left|right]. split; [done|]. by apply list_elem_of_singleton in Hi. }
  split; [|split].
  - intros c. rewrite Hp. case_decide; [|apply Hn]. rewrite fmap_app. apply NoDup_app. split; [apply Hn|].
    split; [|apply NoDup_singleton]. intros id Hi Hi'. apply list_elem_of_singleton in Hi' as ->. by apply (Hout chain).
  - intros c1 c2 id X1 X2. apply Hin' in X1, X2.
    destruct X1 as [X1|[-> ->]], X2 as [X2|[-> E]]; try done; [by eapply Hd| |]; exfalso; subst; by eapply Hout.
  - intros c id Hi. rewrite Hpr. apply Hin' in Hi as [Hi|[-> ->]].
    + rewrite lookup_insert_ne by (intros <-; by apply (Hout c)). by eapply Hst.
    + rewrite lookup_insert_eq. by left.
Qed.

Lemma proc_message_keeps (I : CrossChainProcessor -> Prop) fed manager m :
  (forall chain tx s, processed_txs s !! cc_id tx = None -> I s ->
     I (s <| tx_pools ::= (fun m => <[chain := default [] (m !! chain) ++ [tx]]> m) |>
          <| processed_txs ::= <[cc_id tx := TxReceived]> |>)) ->
  preserves I (proc_process_message fed manager m).
Proof.
  intros Hr. unfold proc_process_message, process_mainchain_header_message, process_sidechain_header_message. keep.
  unfold process_cross_chain_transaction_message. apply preserves_bind; [auto with keep|]. intros tx s1 Hs1. rewrite stM_bind_run. cbn [gets Datatypes.id].
  destruct (bool_decide (is_Some _)) eqn:Ed; [done|]. apply bool_decide_eq_false, eq_None_not_Some in Ed.
  rewrite stM_bind_run. cbn [lift]. destruct (proc_validate_cross_chain_transaction _ _ _) as [[]| | |]; try done.
  by apply Hr.
Qed.

Lemma process_messages_keeps (I : CrossChainProcessor -> Prop) fed manager chain :
  (forall c s, I s -> I (s <| communication := c |>)) ->
  (forall m, preserves I (proc_process_message fed manager m)) ->
  preserves I (process_messages fed manager chain).
Proof.
  intros Hc Hm. unfold process_messages. keep; [by auto|].
  induction l as [|m l IH]; cbn [process_all]; keep; auto.
Qed.

Inductive proc_op : Type :=
| OpMessages (fed : FederationIntegrator) (manager : FederationManager) (chain : Hash)
| OpExecute (chain : Hash)
| OpInterface (i : MainchainInterface)
| OpSent (c : CrossChainCommunication).

(** [OpSent] stands for what other holders of the communication handle do;
    [OpInterface] connects the main chain, or stands for a main chain that has
    moved on and answers differently. *)
Definition proc_step (s : CrossChainProcessor) (op : proc_op) : CrossChainProcessor :=
  match op with
  | OpMessages fed manager chain => fst (process_messages fed manager chain s)
  | OpExecute chain => fst (execute_pending_transactions chain s)
  | OpInterface i => with_mainchain_interface i s
  | OpSent c => s <| communication := c |>
  end.

Definition proc_run (s : CrossChainProcessor) (ops : list proc_op) : CrossChainProcessor :=
  foldl proc_step s ops.

Lemma proc_inv_comm c s : proc_inv s -> proc_inv (s <| communication := c |>).
Proof. by destruct s. Qed.

Lemma proc_step_inv s op : proc_inv s -> proc_inv (proc_step s op).
Proof.
  intros Hs. destruct op as [fed manager chain|chain|i|c]; cbn [proc_step].
  - apply preserves_fst; [|done]. apply process_messages_keeps; [apply proc_inv_comm|].
    intros m. apply proc_message_keeps. intros. by apply receive_inv.
  - apply preserves_fst; [|done]. apply execute_pending_inv.
  - by destruct s.
  - by apply proc_inv_comm.
Qed.

Lemma proc_step_executed id s op : proc_inv_executed id s -> proc_inv_executed id (proc_step s op).
Proof.
  intros Hs. destruct op as [fed manager chain|chain|i|c]; cbn [proc_step].
  - apply preserves_fst; [|done]. apply process_messages_keeps.
    + intros c s' [Hi He]. split; [by apply proc_inv_comm|]. by destruct s'.
    + intros m. apply proc_message_keeps. intros chain' tx s' Hnew [Hi He]. split; [by apply receive_inv|].
      destruct s'. cbn in *. rewrite lookup_insert_ne; [done|]. congruence.
  - apply preserves_fst; [|done]. apply execute_pending_executed.
  - by destruct s.
  - destruct Hs as [Hi He]. split; [by apply proc_inv_comm|]. by destruct s.
Qed.

(** The ids that one operation reports as executed, and those of a whole run. *)
Definition executed_by (s : CrossChainProcessor) (op : proc_op) : list Hash :=
  match op with
  | OpExecute chain => match snd (execute_pending_transactions chain s) with Ok rs => omap executed_id rs | _ => [] end
  | _ => []
  end.

Fixpoint executed_in (s : CrossChainProcessor) (ops : list proc_op) : list Hash :=
  match ops with
  | [] => []
  | op :: ops => executed_by s op ++ executed_in (proc_step s op) ops
  end.

Lemma executed_by_spec s op :
  proc_inv s -> NoDup (executed_by s op) /\
  Forall (fun id => get_transaction_status s id <> Some TxExecuted /\
    get_transaction_status (proc_step s op) id = Some TxExecuted) (executed_by s op).
Proof.
  intros (Hn & _ & Hst). destruct op as [fed manager chain|chain|i|c]; cbn [executed_by proc_step]; try (split; constructor).
  unfold execute_pending_transactions. rewrite stM_bind_run. cbn [gets Datatypes.id]. rewrite stM_bind_run. cbn [modify].
  set (s1 := s <| tx_pools ::= alter (fun _ => []) chain |>). change (default [] (tx_pools s !! chain)) with (pool_of s chain).
  rewrite stM_bind_run. pose proof (execute_all_results (pool_of s chain) [] [] s1) as Hx.
  destruct (execute_all (pool_of s chain) ([], []) s1) as [s2 [[rem res]|e| |]]; try (split; constructor).
  destruct (Hx rem res (Hn chain) eq_refl) as (l & Hl & Hsub & Hall). cbn [omap list_omap app fst] in Hl, Hall.
  rewrite stM_bind_run. cbn [modify mret stM_ret fst snd]. rewrite Hl. split; [exact (sublist_NoDup _ _ (Hn chain) Hsub)|].
  apply Forall_forall. intros id Hid. rewrite Forall_forall in Hall. specialize (Hall id Hid). unfold get_transaction_status.
  split; [|by destruct s2]. pose proof (sublist_subseteq _ _ Hsub id Hid) as Hin.
  destruct (Hst chain id Hin) as [-> | ->]; done.
Qed.

Lemma executed_in_spec ops : forall s, proc_inv s ->
  NoDup (executed_in s ops) /\ Forall (fun id => get_transaction_status s id <> Some TxExecuted) (executed_in s ops).
Proof.
  induction ops as [|op ops IH]; intros s Hs; [split; constructor|]. cbn [executed_in].
  destruct (executed_by_spec s op Hs) as [Hn Hf]. destruct (IH (proc_step s op) (proc_step_inv s op Hs)) as [Hn' Hf'].
  rewrite Forall_forall in Hf, Hf'. split.
  - apply NoDup_app. split_and!; [done| |done]. intros id Hid Hid'. destruct (Hf id Hid) as [_ He]. by apply (Hf' id Hid').
  - apply Forall_app. split; apply Forall_forall; intros id Hid; [by apply Hf|]. intros He. apply (Hf' id Hid).
    exact (proj2 (proc_step_executed id s op (conj Hs He))).
Qed.

(** C26. A cross-chain transaction is executed at most once.  Whatever messages
    arrive, however the main chain answers once it is connected, and however
    often pools are executed, successfully or not: no id is reported as executed
    twice; an id waits in at most one place; and once its status is executed it
    never waits again. *)
Theorem executed_once c ops :
  let s := proc_run (CrossChainProcessor_new c) ops in
  NoDup (executed_in (CrossChainProcessor_new c) ops) /\
  (forall chain, NoDup (cc_id <$> proc_get_pending_transactions s chain)) /\
  (forall chain1 chain2 id, id ∈ cc_id <$> proc_get_pending_transactions s chain1 ->
     id ∈ cc_id <$> proc_get_pending_transactions s chain2 -> chain1 = chain2) /\
  forall id, get_transaction_status s id = Some TxExecuted ->
    forall later chain, id ∉ cc_id <$> proc_get_pending_transactions (proc_run s later) chain.
Proof.
  intros s. assert (H0' : proc_inv (CrossChainProcessor_new c)).
  { split; [|split].
    - intros chain. constructor.
    - by intros c1 c2 id ?%not_elem_of_nil.
    - by intros c1 id ?%not_elem_of_nil. }
  assert (Hs : proc_inv s) by (unfold s, proc_run; apply (foldl_inv proc_inv); [done|intros; by apply proc_step_inv]).
  split; [by apply executed_in_spec|].
  pose proof Hs as (Hn & Hd & _). split; [exact Hn|]. split; [exact Hd|].
  intros id He later chain Hin.
  assert (Hl : proc_inv_executed id (proc_run s later))
    by (unfold proc_run; apply (foldl_inv (proc_inv_executed id)); [by split|intros; by apply proc_step_executed]).
  destruct Hl as [(_ & _ & Hst) He']. destruct (Hst _ _ Hin); congruence.
Qed.

(** A peg-out is signed by its id alone: changing the amount, the recipient, the
    proof or the metadata of an acceptable peg-out leaves it acceptable; and a
    transaction for a sidechain needs no valid signature at all. *)
Theorem peg_out_unsigned manager s tx :
  proc_validate_cross_chain_transaction manager s tx = Ok tt ->
  (forall amount recipient proof metadata, amount <> 0 ->
     proc_validate_cross_chain_transaction manager s
       (mkCrossChainTransaction (cc_id tx) amount recipient (cc_source_chain tx) (cc_destination_chain tx)
          proof (cc_federation_signatures tx) metadata) = Ok tt) /\
  (cc_destination_chain tx <> MAINCHAIN -> forall sig,
     proc_validate_cross_chain_transaction manager s
       (mkCrossChainTransaction (cc_id tx) (cc_amount tx) (cc_recipient_address tx) (cc_source_chain tx)
          (cc_destination_chain tx) (cc_proof tx) [sig] (cc_metadata tx)) = Ok tt).
Proof.
  intros Hv. unfold proc_validate_cross_chain_transaction, proc_validate_federation_signatures in *.
  cbn [cc_id cc_amount cc_source_chain cc_destination_chain cc_federation_signatures].
  destruct (cc_amount tx =? 0); [done|]. split.
  - intros amount recipient proof metadata Ha. by destruct (Z.eqb_spec amount 0).
  - intros Hd sig. destruct (bool_decide (is_Some _)); [done|].
    destruct (bool_decide (cc_source_chain tx = cc_destination_chain tx)); [done|].
    rewrite (bool_decide_false (cc_destination_chain tx = MAINCHAIN)) in * by done.
    destruct (len (cc_federation_signatures tx) =? 0); [done|exact Hv].
Qed.

End Once.

(** * Examples *)

Definition sample_cross_tx (destination : Hash) : CrossChainTransaction :=
  mkCrossChainTransaction MAINCHAIN 500 [1; 2; 3] sample_chain destination (mkCrossChainProof [] [] [] 0)
    [mkFederationSignature (sample_key 1 ++ sample_key 1) [224] 1 1 MAINCHAIN] [].

(** A peg-out of 500 units with the signature of one member, turned into one of
    a million units. *)
Lemma peg_out_unsigned_witness : exists manager s,
  proc_validate_cross_chain_transaction (H1 := sample_bls) manager s (sample_cross_tx MAINCHAIN) = Ok tt /\
  proc_validate_cross_chain_transaction (H1 := sample_bls) manager s
    (mkCrossChainTransaction MAINCHAIN 1000000 [9] sample_chain MAINCHAIN (mkCrossChainProof [] [] [] 0)
       (cc_federation_signatures (sample_cross_tx MAINCHAIN)) []) = Ok tt.
Proof.
  exists (insert_epoch sample_chain sample_epoch (FederationManager_new 1000)),
    (CrossChainProcessor_new CrossChainCommunication_new).
  assert (E : proc_validate_cross_chain_transaction (H1 := sample_bls)
    (insert_epoch sample_chain sample_epoch (FederationManager_new 1000))
    (CrossChainProcessor_new CrossChainCommunication_new) (sample_cross_tx MAINCHAIN) = Ok tt)
    by (vm_compute; reflexivity).
  split; [exact E|].
  refine (proj1 (peg_out_unsigned (H1 := sample_bls) _ _ _ E) 1000000 [9] (mkCrossChainProof [] [] [] 0) [] _).
  discriminate.
Defined.

(** A peg-out arrives before the main chain is connected: it fails, stays in the
    pool, and is submitted once the main chain answers; a second copy of the
    message and a third execution change nothing. *)
Definition relay_codec : MessageCodec := {|
  bincode_message_type t := Some [0; 0; 0; 0];
  decode_cross_chain_tx b := Some (sample_cross_tx MAINCHAIN);
  decode_mainchain_header b := None;
  decode_sidechain_header b := None;
|}.

Definition relay_comm : CrossChainCommunication :=
  mkCrossChainCommunication
    {[MAINCHAIN := [mkCrossChainMessage MsgCrossChainTransaction sample_chain MAINCHAIN [1] 1 7 None]]} ∅ false.

Definition relay_interface : MainchainInterface :=
  mkMainchainInterface (fun _ => Ok (replicate 32 9)) 10 (fun _ => None) (fun _ => true).

Definition relay_ops : list proc_op :=
  let receive := OpMessages FederationIntegrator_new (insert_epoch sample_chain sample_epoch (FederationManager_new 1000)) MAINCHAIN in
  [OpSent relay_comm; receive; OpExecute MAINCHAIN; OpInterface relay_interface; OpExecute MAINCHAIN;
   OpSent relay_comm; receive; OpExecute MAINCHAIN].

Example relayed_once :
  executed_in (H := sample_primitives) (H0 := relay_codec) (H1 := sample_bls) (CrossChainProcessor_new CrossChainCommunication_new) relay_ops = [MAINCHAIN].
Proof. vm_compute. reflexivity. Qed.
