(* ===== verification/InterSidechain.v ===== *)
(** Transfers between sidechains
    (src/rusty-core/src/sidechain/inter_sidechain_transfer.rs). *)

From Stdlib Require Import ZArith Lia List.
From stdpp Require Import base option list numbers strings gmap.
From coqutil Require Import Datatypes.RecordSetters.
From S2P Require Import Prelude Types Transaction SamplePrimitives SidechainTypes Federation.

Import TriangleBracketNotations.

#[local] Open Scope Z_scope.

Inductive InterSidechainStatus : Type :=
| Initiated
| WaitingSourceConfirmation (current required : Z)
| WaitingMainchainCoordination
| WaitingDestinationConfirmation (current required : Z)
| TransferCompleted
| TransferFailed (reason : string)
| TransferTimedOut.

Record InterSidechainTransfer : Type := mkInterSidechainTransfer {
  transfer_id : Hash;
  source_sidechain_id : Hash;
  destination_sidechain_id : Hash;
  source_tx : SidechainTransaction;
  transfer_amount : Z;
  transfer_asset_id : Hash;
  transfer_recipient : bytes;
  source_block_height : Z;
  source_proof : CrossChainProof;
  mainchain_coordination_tx : option Hash;
  destination_mint_tx : option SidechainTransaction;
  destination_block_height : option Z;
  source_federation_signatures : list FederationSignature;
  destination_federation_signatures : list FederationSignature;
  transfer_status : InterSidechainStatus;
  created_at : Z;
  timeout_at : Z;
}.

Record InterSidechainTransferManager : Type := mkInterSidechainTransferManager {
  active_transfers : gmap Hash InterSidechainTransfer;
  completed_transfers : gmap Hash InterSidechainTransfer;
  min_source_confirmations : Z;
  min_destination_confirmations : Z;
  transfer_timeout_blocks : Z;
  min_transfer_amount : Z;
  max_transfer_amount : Z;
}.

Definition InterSidechainTransferManager_new (source destination timeout min_amount max_amount : Z) :
    InterSidechainTransferManager :=
  mkInterSidechainTransferManager ∅ ∅ source destination timeout min_amount max_amount.

Abbreviation transferM := (stM InterSidechainTransferManager string).

(** [iter().map(|o| o.value).sum()], which wraps. *)
Definition total_output_value (tx : SidechainTransaction) : Z :=
  foldl (fun n o => u64_add n (sc_value o)) 0 (sc_outputs tx).

(** The asset id is not compared. *)
Definition verify_burn_transaction (tx : SidechainTransaction) (expected_amount : Z) (expected_asset_id : Hash) :
    textR unit :=
  if len (sc_outputs tx) =? 0 then Err "Burn transaction must have outputs"%string else
  if negb (total_output_value tx =? expected_amount)
  then Err "Burn transaction output value does not match expected"%string else mret tt.

Definition verify_mint_transaction (tx : SidechainTransaction) (expected_amount : Z) (expected_asset_id : Hash)
    (expected_recipient : bytes) : textR unit :=
  if len (sc_outputs tx) =? 0 then Err "Mint transaction must have outputs"%string else
  if negb (total_output_value tx =? expected_amount)
  then Err "Mint transaction output value does not match expected"%string else
  if negb (existsb (fun o => bool_decide (sc_script_pubkey o = expected_recipient)) (sc_outputs tx))
  then Err "Mint transaction does not match recipient address"%string else mret tt.

Section Transfers.
Context `{Primitives} `{SidechainCodec}.

Definition generate_transfer_id (source destination : Hash) (tx : SidechainTransaction) (amount : Z) : Hash :=
  blake3 (source ++ destination ++ default [] (bincode_sidechain_tx tx) ++ to_le_bytes 8 amount).

(** The checks of [initiate_transfer] before the id is made. *)
Definition check_transfer (s : InterSidechainTransferManager) (source destination : Hash)
    (tx : SidechainTransaction) (amount : Z) (asset_id : Hash) (recipient : bytes) : textR unit :=
  if amount <? min_transfer_amount s then Err "Transfer amount is below minimum"%string else
  if max_transfer_amount s <? amount then Err "Transfer amount exceeds maximum"%string else
  if len recipient =? 0 then Err "Recipient address cannot be empty"%string else
  if bool_decide (source = destination) then Err "Source and destination sidechains must be different"%string else
  verify_burn_transaction tx amount asset_id.

Definition new_transfer (s : InterSidechainTransferManager) (now : Z) (source destination : Hash)
    (tx : SidechainTransaction) (amount : Z) (asset_id : Hash) (recipient : bytes) (height : Z)
    (proof : CrossChainProof) (signatures : list FederationSignature) : InterSidechainTransfer :=
  mkInterSidechainTransfer (generate_transfer_id source destination tx amount) source destination tx amount asset_id
    recipient height proof None None None signatures [] (WaitingSourceConfirmation 0 (min_source_confirmations s)) now
    (u64_add now (u64_mul (transfer_timeout_blocks s) 150)).

Definition initiate_transfer (now : Z) (source destination : Hash) (tx : SidechainTransaction) (amount : Z)
    (asset_id : Hash) (recipient : bytes) (height : Z) (proof : CrossChainProof)
    (signatures : list FederationSignature) : transferM Hash :=
  s ← gets Datatypes.id;
  lift (check_transfer s source destination tx amount asset_id recipient);;
  let id := generate_transfer_id source destination tx amount in
  if bool_decide (is_Some (active_transfers s !! id)) then throw "Transfer already exists"%string else
  modify (fun s => s <| active_transfers ::=
    <[id := new_transfer s now source destination tx amount asset_id recipient height proof signatures]> |>);;
  mret id.

End Transfers.

Definition set_transfer_status (st : InterSidechainStatus) (t : InterSidechainTransfer) : InterSidechainTransfer :=
  t <| transfer_status := st |>.

Definition put_transfer (id : Hash) (t : InterSidechainTransfer) : transferM unit :=
  modify (fun s => s <| active_transfers ::= <[id := t]> |>).

Definition update_source_confirmations (id : Hash) (current_height : Z) : transferM unit :=
  s ← gets Datatypes.id;
  t ← lift (ok_or (active_transfers s !! id) "Transfer not found"%string);
  match transfer_status t with
  | WaitingSourceConfirmation _ required =>
      let confirmations := wrap32 (u64_saturating_sub current_height (source_block_height t)) in
      put_transfer id (set_transfer_status
        (if required <=? confirmations then WaitingMainchainCoordination
         else WaitingSourceConfirmation confirmations required) t)
  | _ => throw "Transfer is not in waiting source confirmation state"%string
  end.

Definition set_mainchain_coordination (id coordination : Hash) : transferM unit :=
  s ← gets Datatypes.id;
  t ← lift (ok_or (active_transfers s !! id) "Transfer not found"%string);
  match transfer_status t with
  | WaitingMainchainCoordination =>
      put_transfer id (set_transfer_status (WaitingDestinationConfirmation 0 (min_destination_confirmations s))
        (t <| mainchain_coordination_tx := Some coordination |>))
  | _ => throw "Transfer is not in waiting mainchain coordination state"%string
  end.

(** The transfer leaves the active map before anything is checked. *)
Definition complete_transfer (id : Hash) (mint : SidechainTransaction) (height : Z)
    (signatures : list FederationSignature) : transferM unit :=
  s ← gets Datatypes.id;
  t ← lift (ok_or (active_transfers s !! id) "Transfer not found"%string);
  modify (fun s => s <| active_transfers ::= delete id |>);;
  match transfer_status t with
  | WaitingDestinationConfirmation _ _ =>
      lift (verify_mint_transaction mint (transfer_amount t) (transfer_asset_id t) (transfer_recipient t));;
      modify (fun s => s <| completed_transfers ::= <[id := set_transfer_status TransferCompleted
        (t <| destination_mint_tx := Some mint |> <| destination_block_height := Some height |>
           <| destination_federation_signatures := signatures |>)]> |>)
  | _ => throw "Transfer is not ready for completion"%string
  end.

Definition timed_out (now : Z) (t : InterSidechainTransfer) : Prop := timeout_at t <= now.

#[export] Instance timed_out_dec now t : Decision (timed_out now t).
Proof. unfold timed_out. apply _. Defined.

Definition check_timeouts (now : Z) (s : InterSidechainTransferManager) :
    InterSidechainTransferManager * list Hash :=
  let late := filter (fun e => timed_out now e.2) (active_transfers s) in
  (s <| active_transfers := filter (fun e => ~ timed_out now e.2) (active_transfers s) |>
     <| completed_transfers := (set_transfer_status TransferTimedOut <$> late) ∪ completed_transfers s |>,
   (map_to_list late).*1).

Definition get_transfer (s : InterSidechainTransferManager) (id : Hash) : option InterSidechainTransfer :=
  match active_transfers s !! id with Some t => Some t | None => completed_transfers s !! id end.

(** * The life of a transfer *)

(** What every recorded transfer has passed; [c] is any manager with the same
    configuration. *)
Definition transfer_ok (c : InterSidechainTransferManager) (t : InterSidechainTransfer) : Prop :=
  total_output_value (source_tx t) = transfer_amount t /\
  min_transfer_amount c <= transfer_amount t <= max_transfer_amount c /\
  source_sidechain_id t <> destination_sidechain_id t.

Definition active_ok (c : InterSidechainTransferManager) (t : InterSidechainTransfer) : Prop :=
  transfer_ok c t /\ destination_mint_tx t = None /\
  match transfer_status t with
  | WaitingSourceConfirmation _ _ | WaitingMainchainCoordination => True
  | WaitingDestinationConfirmation _ _ => is_Some (mainchain_coordination_tx t)
  | _ => False
  end.

Definition completed_ok (c : InterSidechainTransferManager) (t : InterSidechainTransfer) : Prop :=
  transfer_ok c t /\
  match transfer_status t with
  | TransferCompleted =>
      is_Some (mainchain_coordination_tx t) /\
      exists mint, destination_mint_tx t = Some mint /\ total_output_value mint = transfer_amount t /\
        exists o, o ∈ sc_outputs mint /\ sc_script_pubkey o = transfer_recipient t
  | TransferTimedOut => destination_mint_tx t = None
  | _ => False
  end.

Definition transfers_ok (c s : InterSidechainTransferManager) : Prop :=
  (min_transfer_amount s = min_transfer_amount c /\ max_transfer_amount s = max_transfer_amount c) /\
  map_Forall (fun _ => active_ok c) (active_transfers s) /\
  map_Forall (fun _ => completed_ok c) (completed_transfers s).

Lemma put_transfer_ok c id t : active_ok c t -> preserves (transfers_ok c) (put_transfer id t).
Proof.
  intros Ht. apply preserves_modify. intros s (Hc & Ha & Hd). destruct s. cbn in *.
  split; [done|]. split; [|done]. cbn. by apply map_Forall_insert_2.
Qed.

Lemma verify_mint_ok mint amount asset recipient :
  verify_mint_transaction mint amount asset recipient = Ok tt ->
  total_output_value mint = amount /\ exists o, o ∈ sc_outputs mint /\ sc_script_pubkey o = recipient.
Proof.
  unfold verify_mint_transaction. destruct (_ =? 0); [done|].
  destruct (Z.eqb_spec (total_output_value mint) amount) as [Ea|]; [|done].
  destruct (existsb _ _) eqn:Ex; [|done]. intros _. split; [done|].
  apply existsb_exists in Ex as (o & Hin & Ho). apply bool_decide_eq_true in Ho.
  exists o. split; [by apply list_elem_of_In|done].
Qed.

Section Life.
Context `{Primitives} `{SidechainCodec}.

Lemma initiate_transfer_ok c now source destination tx amount asset recipient height proof signatures :
  preserves (transfers_ok c)
    (initiate_transfer now source destination tx amount asset recipient height proof signatures).
Proof.
  intros s Hs. pose proof Hs as ([Hmin Hmax] & Ha & Hd). unfold initiate_transfer.
  rewrite stM_bind_run. cbn [gets Datatypes.id]. rewrite stM_bind_run. cbn [lift].
  destruct (check_transfer _ _ _ _ _ _ _) as [[]| | |] eqn:Hc; try done.
  destruct (bool_decide _); [done|]. cbn. destruct s. cbn in *. split; [done|]. split; [|done]. cbn.
  apply map_Forall_insert_2; [|done]. unfold check_transfer in Hc. cbn in Hc.
  destruct (Z.ltb_spec amount min_transfer_amount0); [done|].
  destruct (Z.ltb_spec max_transfer_amount0 amount); [done|]. destruct (len recipient =? 0); [done|].
  destruct (decide (source = destination)) as [E|E]; [by rewrite bool_decide_true in Hc|].
  rewrite bool_decide_false in Hc by done. unfold verify_burn_transaction in Hc.
  destruct (len _ =? 0); [done|]. destruct (Z.eqb_spec (total_output_value tx) amount); [|done].
  split; [|done]. unfold transfer_ok. cbn. split_and!; try done; lia.
Qed.

Lemma update_source_ok c id height : preserves (transfers_ok c) (update_source_confirmations id height).
Proof.
  intros s Hs. unfold update_source_confirmations. rewrite stM_bind_run. cbn [gets Datatypes.id].
  rewrite stM_bind_run. cbn [lift]. destruct (active_transfers s !! id) as [t|] eqn:Ht; cbn [ok_or]; [|done].
  destruct (proj1 (proj2 Hs) _ _ Ht) as (Hok & Hm & Hst). destruct (transfer_status t); try done.
  apply put_transfer_ok; [|done]. split; [by destruct t|]. split; [by destruct t|]. destruct t. cbn.
  by destruct (_ <=? _).
Qed.

Lemma set_coordination_ok c id h : preserves (transfers_ok c) (set_mainchain_coordination id h).
Proof.
  intros s Hs. unfold set_mainchain_coordination. rewrite stM_bind_run. cbn [gets Datatypes.id].
  rewrite stM_bind_run. cbn [lift]. destruct (active_transfers s !! id) as [t|] eqn:Ht; cbn [ok_or]; [|done].
  destruct (proj1 (proj2 Hs) _ _ Ht) as (Hok & Hm & Hst). destruct (transfer_status t); try done.
  apply put_transfer_ok; [|done]. destruct t. cbn in *. split; [done|]. split; [done|]. cbn. eauto.
Qed.

Lemma complete_ok c id mint height signatures :
  preserves (transfers_ok c) (complete_transfer id mint height signatures).
Proof.
  intros s Hs. unfold complete_transfer. rewrite stM_bind_run. cbn [gets Datatypes.id].
  rewrite stM_bind_run. cbn [lift]. destruct (active_transfers s !! id) as [t|] eqn:Ht; cbn [ok_or]; [|done].
  destruct (proj1 (proj2 Hs) _ _ Ht) as (Hok & Hm & Hst). rewrite stM_bind_run. cbn [modify].
  assert (Hs1 : transfers_ok c (s <| active_transfers ::= delete id |>)).
  { destruct Hs as (Hc & Ha & Hd). destruct s. cbn in *. split; [done|]. split; [|done]. cbn.
    by apply map_Forall_delete. }
  destruct (transfer_status t); try done. rewrite stM_bind_run. cbn [lift].
  destruct (verify_mint_transaction _ _ _ _) as [[]| | |] eqn:Hv; try done.
  apply verify_mint_ok in Hv as [Hv Ho]. destruct Hs1 as (Hc & Ha & Hd).
  destruct s. cbn in *. split; [done|]. split; [done|]. cbn. apply map_Forall_insert_2; [|done].
  destruct t. cbn in *. split; [done|]. cbn. split; [done|]. eauto.
Qed.

Lemma timeouts_ok c now s : transfers_ok c s -> transfers_ok c (fst (check_timeouts now s)).
Proof.
  intros (Hc & Ha & Hd). destruct s as [a d n1 n2 n3 n4 n5]. cbn in *. split; [done|]. split; cbn.
  - intros id t [Ht _]%map_lookup_filter_Some. by apply (Ha id).
  - apply map_Forall_union_2; [|done]. intros id t Ht. apply lookup_fmap_Some in Ht as (t0 & <- & Ht).
    apply map_lookup_filter_Some in Ht as [Ht _]. destruct (Ha _ _ Ht) as (Hok & Hm & _). by destruct t0.
Qed.

Inductive transfer_op : Type :=
| OpInitiate (now : Z) (source destination : Hash) (tx : SidechainTransaction) (amount : Z) (asset : Hash)
    (recipient : bytes) (height : Z) (proof : CrossChainProof) (signatures : list FederationSignature)
| OpSourceConfirmations (id : Hash) (height : Z)
| OpCoordination (id coordination : Hash)
| OpCompleteTransfer (id : Hash) (mint : SidechainTransaction) (height : Z) (signatures : list FederationSignature)
| OpTimeouts (now : Z).

Definition transfer_step (s : InterSidechainTransferManager) (op : transfer_op) : InterSidechainTransferManager :=
  match op with
  | OpInitiate now source destination tx amount asset recipient height proof signatures =>
      fst (initiate_transfer now source destination tx amount asset recipient height proof signatures s)
  | OpSourceConfirmations id height => fst (update_source_confirmations id height s)
  | OpCoordination id coordination => fst (set_mainchain_coordination id coordination s)
  | OpCompleteTransfer id mint height signatures => fst (complete_transfer id mint height signatures s)
  | OpTimeouts now => fst (check_timeouts now s)
  end.

Definition transfer_run (s : InterSidechainTransferManager) (ops : list transfer_op) :
    InterSidechainTransferManager := foldl transfer_step s ops.

Lemma transfer_step_ok c s op : transfers_ok c s -> transfers_ok c (transfer_step s op).
Proof.
  intros Hs. destruct op; cbn [transfer_step]; [..|by apply timeouts_ok]; apply preserves_fst; try done.
  - apply initiate_transfer_ok.
  - apply update_source_ok.
  - apply set_coordination_ok.
  - apply complete_ok.
Qed.

(** What the outputs of a transaction are worth as integers. *)
Definition outputs_total (tx : SidechainTransaction) : Z := foldr (fun o n => sc_value o + n) 0 (sc_outputs tx).

Lemma total_output_wraps tx : total_output_value tx = wrap64 (outputs_total tx).
Proof.
  unfold total_output_value, outputs_total.
  assert (Hg : forall l acc, wrap64 acc = acc ->
    foldl (fun n o => u64_add n (sc_value o)) acc l = wrap64 (acc + foldr (fun o n => sc_value o + n) 0 l)).
  { induction l as [|o l IH]; intros acc Ha; cbn [foldl foldr]; [by rewrite Z.add_0_r|].
    rewrite IH by (unfold u64_add, wrap64; by rewrite Z.mod_mod).
    unfold u64_add, wrap64. rewrite Zplus_mod_idemp_l. f_equal. lia. }
  by rewrite Hg.
Qed.

(** C15. Nothing is minted that was not burned, up to 64-bit sums.  Along every
    sequence of operations a completed transfer minted outputs worth, modulo
    2^64, the amount that was burned, so exactly this amount if the outputs of
    both transactions add up to 64-bit numbers; the amount lies between the
    limits; one output of the mint goes to the recipient; the two chains differ,
    and the main chain coordinated it.  A transfer that is active or timed out
    has minted nothing.  Assets are not compared. *)
Theorem minted_is_burned source destination timeout min_amount max_amount ops id t :
  let s0 := InterSidechainTransferManager_new source destination timeout min_amount max_amount in
  get_transfer (transfer_run s0 ops) id = Some t ->
  wrap64 (outputs_total (source_tx t)) = transfer_amount t /\
  min_amount <= transfer_amount t <= max_amount /\ source_sidechain_id t <> destination_sidechain_id t /\
  match destination_mint_tx t with
  | None => transfer_status t <> TransferCompleted
  | Some mint =>
      transfer_status t = TransferCompleted /\ wrap64 (outputs_total mint) = transfer_amount t /\
      (0 <= outputs_total (source_tx t) <= u64_max -> 0 <= outputs_total mint <= u64_max ->
         outputs_total mint = outputs_total (source_tx t)) /\
      is_Some (mainchain_coordination_tx t) /\
      exists o, o ∈ sc_outputs mint /\ sc_script_pubkey o = transfer_recipient t
  end.
Proof.
  intros s0 Hg. assert (Hok : transfers_ok s0 (transfer_run s0 ops)).
  { apply (foldl_inv (transfers_ok s0)); [|intros; by apply transfer_step_ok].
    split; [done|]. split; apply map_Forall_empty. }
  destruct Hok as (_ & Ha & Hd). unfold get_transfer in Hg.
  destruct (active_transfers (transfer_run s0 ops) !! id) as [t'|] eqn:Et.
  - injection Hg as ->. destruct (Ha _ _ Et) as ((Hb & Hr & Hc) & Hm & Hst). rewrite Hm, <- total_output_wraps.
    split_and!; try done; try apply Hr. by destruct (transfer_status t).
  - destruct (Hd _ _ Hg) as ((Hb & Hr & Hc) & Hst). rewrite <- total_output_wraps at 1. split; [done|]. split; [done|].
    split; [done|]. destruct (transfer_status t); try done.
    + destruct Hst as (Hco & mint & -> & Hmt & Ho). rewrite total_output_wraps in Hb, Hmt. split_and!; try done.
      intros Hs Hm. rewrite wrap64_small in Hb, Hmt by done. congruence.
    + by rewrite Hst.
Qed.

(** A failed completion destroys the transfer: when [complete_transfer] fails on
    an active transfer, because it is not ready or because the mint transaction
    does not match, the transfer is removed all the same and no longer active,
    and no later call can complete or time it out; nothing else changes. *)
Theorem failed_completion_loses id mint height signatures s t :
  active_transfers s !! id = Some t ->
  is_ok (snd (complete_transfer id mint height signatures s)) = false ->
  fst (complete_transfer id mint height signatures s) = s <| active_transfers ::= delete id |> /\
  forall mint' height' signatures' s', s' = s <| active_transfers ::= delete id |> ->
    complete_transfer id mint' height' signatures' s' = (s', Err "Transfer not found"%string).
Proof.
  intros Ht Hf. split.
  - unfold complete_transfer in *. rewrite stM_bind_run in *. cbn [gets Datatypes.id] in *.
    rewrite stM_bind_run in *. cbn [lift] in *. rewrite Ht in *. cbn [ok_or] in *. rewrite stM_bind_run in *.
    cbn [modify] in *. destruct (transfer_status t); try done. rewrite stM_bind_run in *. cbn [lift] in *.
    by destruct (verify_mint_transaction _ _ _ _) as [[]| | |].
  - intros mint' height' signatures' s' ->. unfold complete_transfer. rewrite stM_bind_run.
    cbn [gets Datatypes.id]. rewrite stM_bind_run. destruct s. cbn. by rewrite lookup_delete_eq.
Qed.

(** One burn pays for many mints: acceptance of a burn depends on the limits and
    on the active transfers only, so once the first transfer has left the active
    map, completed or not, the same burn is accepted again under the same id. *)
Theorem burn_accepted_again now source destination tx amount asset recipient height proof signatures s id :
  snd (initiate_transfer now source destination tx amount asset recipient height proof signatures s) = Ok id ->
  forall now' s', min_transfer_amount s' = min_transfer_amount s ->
    max_transfer_amount s' = max_transfer_amount s -> active_transfers s' !! id = None ->
    snd (initiate_transfer now' source destination tx amount asset recipient height proof signatures s') = Ok id.
Proof.
  intros E now' s' Hmin Hmax Hn. unfold initiate_transfer in *. rewrite stM_bind_run in *.
  cbn [gets Datatypes.id] in *. rewrite stM_bind_run in *. cbn [lift] in *.
  assert (Hc : check_transfer s' source destination tx amount asset recipient =
    check_transfer s source destination tx amount asset recipient)
    by (unfold check_transfer; by rewrite Hmin, Hmax).
  rewrite Hc. destruct (check_transfer s _ _ _ _ _ _) as [[]| | |]; try done.
  destruct (bool_decide (is_Some (active_transfers s !! _))); [done|]. cbn in E |- *. injection E as <-.
  by rewrite bool_decide_false by (by rewrite Hn; intros [? ?]).
Qed.

End Life.

(** * Examples *)

Definition sample_sidechain_tx (value : Z) : SidechainTransaction :=
  mkSidechainTransaction 1 [] [mkSidechainTxOutput value MAINCHAIN [3; 4; 5] []] 0 None 1000.

Definition transfer_s0 : InterSidechainTransferManager := InterSidechainTransferManager_new 6 6 1440 100000 1000000000000.

Definition op_burn : transfer_op :=
  OpInitiate 1000 sample_chain MAINCHAIN (sample_sidechain_tx 5000000) 5000000 MAINCHAIN [3; 4; 5] 100
    (mkCrossChainProof [] [] [] 0) [].

Definition sample_transfer_id : Hash :=
  generate_transfer_id (H0 := sample_sidechain_codec) sample_chain MAINCHAIN (sample_sidechain_tx 5000000) 5000000.

Definition transfer_ops : list transfer_op :=
  [op_burn; OpSourceConfirmations sample_transfer_id 106; OpCoordination sample_transfer_id (replicate 32 8);
   OpCompleteTransfer sample_transfer_id (sample_sidechain_tx 5000000) 50 []].

Definition transfer_final : InterSidechainTransferManager :=
  transfer_run (H0 := sample_sidechain_codec) transfer_s0 transfer_ops.

Lemma minted_is_burned_witness : exists t,
  get_transfer transfer_final sample_transfer_id = Some t /\ transfer_status t = TransferCompleted /\
  100000 <= transfer_amount t.
Proof.
  assert (E : exists t, get_transfer transfer_final sample_transfer_id = Some t /\ transfer_status t = TransferCompleted).
  { destruct (get_transfer transfer_final sample_transfer_id) as [t|] eqn:E; [|vm_compute in E; discriminate E].
    exists t. split; [reflexivity|]. vm_compute in E. injection E as <-. reflexivity. }
  destruct E as (t & E & Hst). exists t. split; [exact E|]. split; [exact Hst|].
  exact (proj1 (proj1 (proj2 (minted_is_burned (H0 := sample_sidechain_codec) 6 6 1440 100000 1000000000000
    transfer_ops sample_transfer_id t E)))).
Defined.

Definition transfer_waiting : InterSidechainTransferManager :=
  transfer_run (H0 := sample_sidechain_codec) transfer_s0 [op_burn].

(** Completing too early: the funds are burned, and the transfer is gone. *)
Lemma failed_completion_loses_witness :
  is_ok (snd (complete_transfer sample_transfer_id (sample_sidechain_tx 5000000) 50 [] transfer_waiting)) = false /\
  active_transfers (fst (complete_transfer sample_transfer_id (sample_sidechain_tx 5000000) 50 [] transfer_waiting)) !!
    sample_transfer_id = None.
Proof.
  destruct (active_transfers transfer_waiting !! sample_transfer_id) as [t|] eqn:Et; [|vm_compute in Et; discriminate Et].
  assert (E : is_ok (snd (complete_transfer sample_transfer_id (sample_sidechain_tx 5000000) 50 [] transfer_waiting)) = false)
    by (vm_compute; reflexivity).
  split; [exact E|].
  rewrite (proj1 (failed_completion_loses sample_transfer_id (sample_sidechain_tx 5000000) 50 [] transfer_waiting t Et E)).
  vm_compute. reflexivity.
Defined.

Lemma burn_accepted_again_witness :
  snd (initiate_transfer (H0 := sample_sidechain_codec) 2000 sample_chain MAINCHAIN (sample_sidechain_tx 5000000) 5000000
    MAINCHAIN [3; 4; 5] 100 (mkCrossChainProof [] [] [] 0) [] transfer_final) = Ok sample_transfer_id.
Proof.
  assert (E : snd (initiate_transfer (H0 := sample_sidechain_codec) 1000 sample_chain MAINCHAIN (sample_sidechain_tx 5000000)
    5000000 MAINCHAIN [3; 4; 5] 100 (mkCrossChainProof [] [] [] 0) [] transfer_s0) = Ok sample_transfer_id)
    by (vm_compute; reflexivity).
  apply (burn_accepted_again (H0 := sample_sidechain_codec) 1000 sample_chain MAINCHAIN (sample_sidechain_tx 5000000)
    5000000 MAINCHAIN [3; 4; 5] 100 (mkCrossChainProof [] [] [] 0) [] transfer_s0 sample_transfer_id E);
    vm_compute; reflexivity.
Defined.

(** Outputs that add up to 2^64 more than the amount pass the check of a mint. *)
Example overflowing_mint_accepted :
  verify_mint_transaction
    ((sample_sidechain_tx 5) <| sc_outputs := [mkSidechainTxOutput u64_max [] [] []; mkSidechainTxOutput 6 [] [7] []] |>) 5 [] [7] = Ok tt.
Proof. vm_compute. reflexivity. Qed.
