(* ===== verification/FraudProofs.v ===== *)
(** Fraud proof challenges (src/rusty-core/src/sidechain/fraud_proofs.rs).

    The order in which [process_challenges] visits the active challenges is that
    of a hash map, so an argument rearranges them.  The two times that a double
    spending report reads are arguments.  The methods whose only effect is a log
    line are left out of the sequence they stand in. *)

From Stdlib Require Import ZArith Lia List.
From stdpp Require Import base option list numbers strings gmap.
From coqutil Require Import Datatypes.RecordSetters.
From S2P Require Import Prelude Types Transaction SamplePrimitives SidechainTypes Federation.

Import TriangleBracketNotations.

#[local] Open Scope Z_scope.

(** * Data *)

Record FraudProofConfig : Type := mkFraudProofConfig {
  challenge_period_blocks : Z;
  min_challenge_bond : Z;
  fraud_proof_reward : Z;
  false_proof_penalty : Z;
  max_proof_size : Z;
  verification_timeout_blocks : Z;
}.

Definition FraudProofConfig_default : FraudProofConfig :=
  mkFraudProofConfig 1440 1000000 10000000 5000000 10000000 144.

Inductive FraudProofStatus : Type :=
| ChallengePending
| UnderVerification
| FraudProven
| FraudDisproven
| ChallengeTimedOut
| ChallengeWithdrawn.

#[export] Instance FraudProofStatus_eq_dec : EqDecision FraudProofStatus.
Proof. solve_decision. Defined.

Record FraudProofResponse : Type := mkFraudProofResponse {
  responder_id : MasternodeID;
  response_data : bytes;
  counter_evidence : bytes;
  response_signature : bytes;
  response_timestamp : Z;
}.

Inductive PenaltyType : Type := CollateralSlash | TemporarySuspension | PermanentBan | Fine.

Record FraudPenalty : Type := mkFraudPenalty {
  penalty_target : MasternodeID;
  penalty_type : PenaltyType;
  penalty_amount : Z;
  penalty_reason : string;
}.

Record FraudReward : Type := mkFraudReward {
  reward_recipient : bytes;
  reward_amount : Z;
  reward_reason : string;
}.

Record FraudProofVerdict : Type := mkFraudProofVerdict {
  fraud_proven : bool;
  explanation : string;
  supporting_evidence : bytes;
  penalties : list FraudPenalty;
  rewards : list FraudReward;
}.

Record FraudProofChallenge : Type := mkFraudProofChallenge {
  challenge_id : Hash;
  challenge_proof : FraudProof;
  challenge_status : FraudProofStatus;
  submission_height : Z;
  verification_deadline : Z;
  challenge_bond : Z;
  responses : list FraudProofResponse;
  verdict : option FraudProofVerdict;
}.

Record FraudProofStats : Type := mkFraudProofStats {
  total_challenges : Z;
  proven_frauds : Z;
  disproven_challenges : Z;
  timed_out_challenges : Z;
  total_penalties_applied : Z;
  total_rewards_distributed : Z;
}.

Record FraudProofManager : Type := mkFraudProofManager {
  fraud_config : FraudProofConfig;
  active_challenges : gmap Hash FraudProofChallenge;
  completed_challenges : gmap Hash FraudProofChallenge;
  fraud_block_height_now : Z;
  fraud_stats : FraudProofStats;
}.

Definition FraudProofManager_new (config : FraudProofConfig) : FraudProofManager :=
  mkFraudProofManager config ∅ ∅ 0 (mkFraudProofStats 0 0 0 0 0 0).

Abbreviation fraudM := (stM FraudProofManager string).

(** * Signature checks: all of them look at the shape only *)

Definition any_nonzero (b : bytes) : bool := existsb (fun x => negb (x =? 0)) b.

(** The byte at an index that the length check before it allows. *)
Definition byte_at (b : bytes) (i : nat) : Z := default 0 (b !! i).

Definition verify_federation_signature (signature_data : bytes) : bool :=
  if negb (len signature_data =? 96) then false else
  if forallb (fun x => x =? 0) signature_data then false else
  let signature_point := take 48 signature_data in
  let pubkey_aggregate := drop 48 signature_data in
  (any_nonzero signature_point && (byte_at signature_point 0 <? 0x80)) &&
  (any_nonzero pubkey_aggregate && (byte_at pubkey_aggregate 0 <? 0x80)).

Definition verify_response_signature (r : FraudProofResponse) : bool :=
  negb (len (response_signature r) =? 0) && (len (response_signature r) =? 64).

Definition verify_signature_format (signature : bytes) : bool :=
  (len signature =? 64) && any_nonzero signature.

Definition is_invalid_vm_operation (operation : bytes) : bool := forallb (fun x => x =? 0) operation.

(** [slice::chunks]; the last chunk may be short. *)
Definition chunks (n : nat) (l : bytes) : list bytes :=
  reshape (replicate ((length l + n - 1) / n) n) l.

Definition full_chunks (l : bytes) : list bytes :=
  filter (fun c => length c = 32%nat) (chunks 32 l).

(** The loop over the responses: one with counter-evidence and a signature of 64
    bytes clears the accused. *)
Definition countered (rs : list FraudProofResponse) : bool :=
  existsb (fun r => negb (len (counter_evidence r) =? 0) && verify_response_signature r) rs.

(** [MasternodeID([0u8; 32].into())], the target of every penalty. *)
Definition NOBODY : MasternodeID := mkMasternodeID (mkOutPoint (replicate 32 0) 0).

(** The verdict that the five verifications build. *)
Definition verdict_of (proven : bool) (yes no : string) (p : FraudProof) (kind : PenaltyType) (amount reward : Z)
    (penalty_text reward_text : string) : FraudProofVerdict :=
  mkFraudProofVerdict proven (if proven then yes else no) (witness_data (evidence p))
    (if proven then [mkFraudPenalty NOBODY kind amount penalty_text] else [])
    (if proven then [mkFraudReward (challenger_address p) reward reward_text] else []).

Section Verification.
Context `{Primitives}.

Definition verify_message_signature (signature message : bytes) : bool :=
  if negb (len signature =? 64) || (len message =? 0) then false else
  if forallb (fun x => x =? 0) signature then false else
  let r_component := take 32 signature in
  let s_component := drop 32 signature in
  let r_valid := any_nonzero r_component && (byte_at r_component 31 <? 0x80) in
  let s_valid := any_nonzero s_component in
  let message_contributes :=
    existsb (fun e => negb (Z.lxor e.1 e.2 =? 0)) (zip (blake3 message) signature) in
  r_valid && s_valid && message_contributes.

Definition verify_state_transition_fraud (c : FraudProofConfig) (p : FraudProof)
    (rs : list FraudProofResponse) : textR FraudProofVerdict :=
  let e := evidence p in
  let proven := negb (len (pre_state e) =? 0) && negb (len (post_state e) =? 0) &&
    negb (bool_decide (pre_state e = post_state e)) in
  mret (verdict_of proven "State transition fraud verification completed"
    "State transition fraud verification completed" p CollateralSlash (fraud_proof_reward c)
    (fraud_proof_reward c) "Invalid state transition" "Successful fraud detection").

Definition verify_double_spending_fraud (c : FraudProofConfig) (p : FraudProof)
    (rs : list FraudProofResponse) : textR FraudProofVerdict :=
  let data := fraudulent_operation (evidence p) in
  if len data <? 2
  then Err "Double spending fraud proof must contain at least two conflicting transactions"%string else
  if len (full_chunks data) <? 2 then Err "Invalid double spending evidence format"%string else
  let proven := (200 <=? len data) && negb (countered rs) in
  mret (verdict_of proven "Double spending fraud verified: conflicting transactions found"
    "Double spending fraud not proven or countered by valid evidence" p PermanentBan (fraud_proof_reward c)
    (fraud_proof_reward c) "Double spending attack detected" "Double spending detection").

Definition verify_cross_chain_fraud (c : FraudProofConfig) (p : FraudProof)
    (rs : list FraudProofResponse) : textR FraudProofVerdict :=
  if bool_decide (additional_evidence (evidence p) = ∅)
  then Err "Cross-chain fraud proof must contain evidence"%string else
  let proven := negb (bool_decide (additional_evidence (evidence p) = ∅)) && negb (countered rs) in
  mret (verdict_of proven "Cross-chain fraud verified: invalid federation signatures detected"
    "Cross-chain fraud not proven or countered by valid evidence" p TemporarySuspension
    (fraud_proof_reward c / 2) (fraud_proof_reward c) "Invalid cross-chain transaction"
    "Cross-chain fraud detection").

Definition verify_signature_fraud (c : FraudProofConfig) (p : FraudProof)
    (rs : list FraudProofResponse) : textR FraudProofVerdict :=
  let data := witness_data (evidence p) in
  if len data <? 64
  then Err "Signature fraud proof must contain at least 64 bytes of evidence"%string else
  let suspicious :=
    (100 <=? len data) &&
    (if negb (verify_signature_format (take 64 data)) then true
     else negb (verify_message_signature (take 64 data) (drop 64 data))) in
  let proven := suspicious && negb (countered rs) in
  mret (verdict_of proven "Signature fraud verified: invalid or unauthorized signature detected"
    "Signature fraud not proven or countered by valid evidence" p CollateralSlash (fraud_proof_reward c)
    (fraud_proof_reward c) "Unauthorized signature" "Signature fraud detection").

Definition verify_vm_execution_fraud (c : FraudProofConfig) (p : FraudProof)
    (rs : list FraudProofResponse) : textR FraudProofVerdict :=
  let data := fraudulent_operation (evidence p) in
  if len data =? 0 then Err "VM execution fraud proof must contain evidence"%string else
  let anomalies := len (filter (fun o => is_invalid_vm_operation o = true) (full_chunks data)) in
  let proven := (1000 <? len data) && (len data / 100 <? anomalies) && negb (countered rs) in
  mret (verdict_of proven "VM execution fraud verified: invalid execution detected"
    "VM execution fraud not proven or countered by valid evidence" p Fine (fraud_proof_reward c / 4)
    (fraud_proof_reward c) "Invalid VM execution" "VM execution fraud detection").

Definition verify_fraud_proof (c : FraudProofConfig) (p : FraudProof) (rs : list FraudProofResponse) :
    textR FraudProofVerdict :=
  match fraud_type p with
  | InvalidStateTransition => verify_state_transition_fraud c p rs
  | DoubleSpending => verify_double_spending_fraud c p rs
  | InvalidCrossChainTx => verify_cross_chain_fraud c p rs
  | UnauthorizedSignature => verify_signature_fraud c p rs
  | InvalidVMExecution => verify_vm_execution_fraud c p rs
  end.

End Verification.

(** * Statistics *)

Definition on_stats (f : FraudProofStats -> FraudProofStats) : fraudM unit :=
  modify (fun s => s <| fraud_stats ::= f |>).

Definition apply_penalties (ps : list FraudPenalty) : fraudM unit :=
  for_each ps (fun _ => on_stats (fun st => st <| total_penalties_applied ::= u64_add 1 |>)).

Definition distribute_rewards (rs : list FraudReward) : fraudM unit :=
  for_each rs (fun r => on_stats (fun st => st <| total_rewards_distributed ::= u64_add (reward_amount r) |>)).

(** Logs only: the bond of a refuted challenger is not touched. *)
Definition apply_false_challenge_penalty (challenger : bytes) : fraudM unit := mret tt.

(** * Challenges *)

Section Challenges.
Context `{Primitives} `{SidechainCodec}.

(** [generate_challenge_id]: [expect] panics when the serialization fails. *)
Definition generate_challenge_id (p : FraudProof) : textR Hash :=
  b ← unwrap (bincode_fraud_proof p); mret (blake3 b).

Definition submit_fraud_proof (p : FraudProof) (bond : Z) : fraudM Hash :=
  s ← gets Datatypes.id;
  let c := fraud_config s in
  if bond <? min_challenge_bond c then throw "Challenge bond below minimum"%string else
  b ← lift (ok_or (bincode_fraud_proof p) "Serialization error"%string);
  if max_proof_size c <? len b then throw "Fraud proof size exceeds maximum"%string else
  id ← lift (generate_challenge_id p);
  if bool_decide (is_Some (active_challenges s !! id))
  then throw "Fraud proof challenge already exists"%string else
  modify (fun s => s <| active_challenges ::= <[id := mkFraudProofChallenge id p ChallengePending
    (fraud_block_height_now s) (u64_add (fraud_block_height_now s) (verification_timeout_blocks c)) bond [] None]> |>);;
  on_stats (fun st => st <| total_challenges ::= u64_add 1 |>);;
  mret id.

Definition submit_response (id : Hash) (r : FraudProofResponse) : fraudM unit :=
  s ← gets Datatypes.id;
  c ← lift (ok_or (active_challenges s !! id) "Challenge not found"%string);
  if negb (bool_decide (challenge_status c = ChallengePending))
  then throw "Challenge is not in pending status"%string else
  if verification_deadline c <? fraud_block_height_now s
  then throw "Challenge verification deadline has passed"%string else
  if len (response_signature r) =? 0 then throw "Response signature cannot be empty"%string else
  modify (fun s => s <| active_challenges ::= <[id :=
    c <| responses := responses c ++ [r] |> <| challenge_status := UnderVerification |>]> |>).

Definition timeout_verdict : FraudProofVerdict :=
  mkFraudProofVerdict false "Challenge timed out without sufficient responses" [] [] [].

Definition complete_challenge (id : Hash) (c : FraudProofChallenge) (v : FraudProofVerdict)
    (st : FraudProofStatus) : fraudM unit :=
  modify (fun s => s <| completed_challenges ::=
    <[id := c <| verdict := Some v |> <| challenge_status := st |>]> |>).

(** The challenge leaves the active map first; an error of the verification
    drops it. *)
Definition process_single_challenge (id : Hash) : fraudM unit :=
  s ← gets Datatypes.id;
  c ← lift (ok_or (active_challenges s !! id) "Challenge not found"%string);
  modify (fun s => s <| active_challenges ::= delete id |>);;
  if verification_deadline c <? fraud_block_height_now s then
    complete_challenge id c timeout_verdict ChallengeTimedOut;;
    on_stats (fun st => st <| timed_out_challenges ::= u64_add 1 |>)
  else
    v ← lift (verify_fraud_proof (fraud_config s) (challenge_proof c) (responses c));
    (if fraud_proven v then apply_penalties (penalties v);; distribute_rewards (rewards v)
     else apply_false_challenge_penalty (challenger_address (challenge_proof c)));;
    complete_challenge id c v (if fraud_proven v then FraudProven else FraudDisproven);;
    on_stats (fun st => if fraud_proven v then st <| proven_frauds ::= u64_add 1 |>
                        else st <| disproven_challenges ::= u64_add 1 |>).

Definition process_challenges (reorder : list Hash -> list Hash) (height : Z) : fraudM unit :=
  modify (fun s => s <| fraud_block_height_now := height |>);;
  s ← gets Datatypes.id;
  for_each (reorder (map_to_list (active_challenges s)).*1) process_single_challenge.

End Challenges.

Definition get_challenge_status (s : FraudProofManager) (id : Hash) : option FraudProofStatus :=
  match active_challenges s !! id with
  | Some c => Some (challenge_status c)
  | None => challenge_status <$> completed_challenges s !! id
  end.

Definition get_active_challenges_count (s : FraudProofManager) : Z := Z.of_nat (size (active_challenges s)).

Definition get_completed_challenges_count (s : FraudProofManager) : Z := Z.of_nat (size (completed_challenges s)).

(** * Reports *)

Section Reports.
Context `{Primitives} `{SidechainCodec}.

Definition outpoint_evidence (o : OutPoint) : bytes := txid o ++ to_le_bytes 4 (vout o).

Definition generate_pre_state_evidence (now : Z) (original : Transaction) : textR bytes :=
  id ← tx_txid original;
  mret (concat ((outpoint_evidence ∘ previous_output) <$> get_inputs original) ++ id ++ to_le_bytes 8 now).

Definition generate_post_state_evidence (now : Z) (double_spend : Transaction) : textR bytes :=
  id ← tx_txid double_spend;
  mret (id ++ concat ((outpoint_evidence ∘ previous_output) <$> get_inputs double_spend) ++ to_le_bytes 8 now).

(** The inner loop breaks at the first input of the second transaction that
    spends the same output. *)
Definition generate_witness_data (double_spend original : Transaction) : textR bytes :=
  original_id ← tx_txid original;
  double_id ← tx_txid double_spend;
  let conflicts := filter (fun i : TxInput =>
    existsb (fun d => bool_decide (previous_output i = previous_output d)) (get_inputs double_spend) = true)
    (get_inputs original) in
  let data := original_id ++ double_id ++ concat ((outpoint_evidence ∘ previous_output) <$> conflicts) in
  mret (data ++ blake3 data).

(** The proof that all reports but the first submit: only the operation is
    filled in. *)
Definition placeholder_proof (type : FraudType) (height : Z) (operation reporter : bytes) (bond : Z) : FraudProof :=
  mkFraudProof type height None (mkFraudEvidence [] [] operation [] ∅) reporter bond 0.

Definition serialize_report (r : Reported) : fraudM bytes :=
  lift (ok_or (bincode_reported r) "Serialization error"%string).

Definition report_double_spending (now1 now2 : Z) (double_spend original : Transaction) (block_hash : Hash)
    (reporter : bytes) (bond : Z) : fraudM Hash :=
  s ← gets Datatypes.id;
  let height := fraud_block_height_now s in
  let deadline := u64_add height (challenge_period_blocks (fraud_config s)) in
  pre ← lift (generate_pre_state_evidence now1 original);
  post ← lift (generate_post_state_evidence now2 double_spend);
  witness ← lift (generate_witness_data double_spend original);
  operation ← serialize_report (ReportedDoubleSpend double_spend original);
  submit_fraud_proof (mkFraudProof DoubleSpending height (Some 0) (mkFraudEvidence pre post operation witness ∅)
    reporter bond deadline) bond.

Definition report_invalid_masternode_signature (masternode_id message signature reporter : bytes) (bond : Z) :
    fraudM Hash :=
  operation ← serialize_report (ReportedSignature masternode_id message signature);
  submit_fraud_proof (placeholder_proof UnauthorizedSignature 0 operation reporter bond) bond.

Definition report_invalid_masternode_registration (tx : Transaction) (reporter : bytes) (bond : Z) : fraudM Hash :=
  operation ← serialize_report (ReportedTransaction tx);
  submit_fraud_proof (placeholder_proof InvalidStateTransition 0 operation reporter bond) bond.

Definition report_invalid_masternode_state (masternode_id data reporter : bytes) (bond : Z) : fraudM Hash :=
  operation ← serialize_report (ReportedState masternode_id data);
  submit_fraud_proof (placeholder_proof InvalidStateTransition 0 operation reporter bond) bond.

Definition report_masternode_inactivity (masternode_id : bytes) (last_seen_block : Z) (reporter : bytes) (bond : Z) :
    fraudM Hash :=
  operation ← serialize_report (ReportedMasternode masternode_id);
  submit_fraud_proof (placeholder_proof InvalidStateTransition last_seen_block operation reporter bond) bond.

Definition report_invalid_cross_chain_transaction (tx : CrossChainTransaction) (reporter : bytes) (bond : Z) :
    fraudM Hash :=
  operation ← serialize_report (ReportedCrossChain tx);
  submit_fraud_proof (placeholder_proof InvalidCrossChainTx 0 operation reporter bond) bond.

Definition report_invalid_vm_execution (data : VMExecutionData) (reporter : bytes) (bond : Z) : fraudM Hash :=
  operation ← serialize_report (ReportedVM data);
  submit_fraud_proof (placeholder_proof InvalidVMExecution 0 operation reporter bond) bond.

Definition report_consensus_rule_violation (description : string) (tx : option Transaction)
    (block : option SidechainBlock) (reporter : bytes) (bond : Z) : fraudM Hash :=
  operation ← serialize_report (ReportedViolation description tx block);
  submit_fraud_proof (placeholder_proof InvalidStateTransition 0 operation reporter bond) bond.

Definition report_invalid_block_header (header : SidechainBlockHeader) (reporter : bytes) (bond : Z) : fraudM Hash :=
  operation ← serialize_report (ReportedHeader header);
  submit_fraud_proof (placeholder_proof InvalidStateTransition (sc_height header) operation reporter bond) bond.

Definition report_missing_witness_signatures (block_hash : Hash) (missing : Z) (reporter : bytes) (bond : Z) :
    fraudM Hash :=
  operation ← serialize_report (ReportedMissing block_hash missing);
  submit_fraud_proof (placeholder_proof UnauthorizedSignature 0 operation reporter bond) bond.

Definition report_incorrect_proof_of_stake (header : SidechainBlockHeader) (votes : list TicketVote)
    (reporter : bytes) (bond : Z) : fraudM Hash :=
  operation ← serialize_report (ReportedVotes header votes);
  submit_fraud_proof (placeholder_proof InvalidStateTransition (sc_height header) operation reporter bond) bond.

End Reports.

(** * Accounting *)

Lemma wrap64_pull a b : wrap64 (a + wrap64 b) = wrap64 (a + b).
Proof. unfold wrap64. apply Zplus_mod_idemp_r. Qed.

(** The balance of challenges when one moves from one counter to another: [n] is
    the number of active ones, [rest] the other counters. *)
Lemma balance_move total n k rest :
  total = wrap64 (n + k + rest) -> total = wrap64 (n - 1 + u64_add 1 k + rest).
Proof.
  intros ->. unfold u64_add. replace (n - 1 + wrap64 (1 + k) + rest) with (n - 1 + rest + wrap64 (1 + k)) by lia.
  rewrite wrap64_pull. f_equal. lia.
Qed.

(** What a verdict orders. *)
Definition verdict_orders (c : FraudProofConfig) (v : FraudProofVerdict) : Prop :=
  if fraud_proven v
  then exists pen rew, penalties v = [pen] /\ rewards v = [rew] /\ reward_amount rew = fraud_proof_reward c
  else penalties v = [] /\ rewards v = [].

Lemma verdict_of_orders c proven yes no p kind amount t1 t2 :
  verdict_orders c (verdict_of proven yes no p kind amount (fraud_proof_reward c) t1 t2).
Proof. destruct proven; cbn; eauto. Qed.

Section Accounting.
Context `{Primitives} `{SidechainCodec}.

(** A verification gives a verdict or an error, never a panic. *)
Lemma verify_verdict c p rs :
  match verify_fraud_proof c p rs with
  | Ok v => verdict_orders c v
  | Err _ => True
  | _ => False
  end.
Proof.
  unfold verify_fraud_proof. destruct (fraud_type p).
  - apply verdict_of_orders.
  - unfold verify_double_spending_fraud. destruct (len _ <? 2); [done|]. destruct (len _ <? 2); [done|].
    apply verdict_of_orders.
  - unfold verify_cross_chain_fraud. destruct (bool_decide _); [done|]. apply verdict_of_orders.
  - unfold verify_signature_fraud. destruct (len _ <? 64); [done|]. apply verdict_of_orders.
  - unfold verify_vm_execution_fraud. destruct (len _ =? 0); [done|]. apply verdict_of_orders.
Qed.

(** The statistics after a verdict. *)
Definition count_verdict (c : FraudProofConfig) (v : FraudProofVerdict) (st : FraudProofStats) : FraudProofStats :=
  if fraud_proven v
  then st <| proven_frauds ::= u64_add 1 |> <| total_penalties_applied ::= u64_add 1 |>
          <| total_rewards_distributed ::= u64_add (fraud_proof_reward c) |>
  else st <| disproven_challenges ::= u64_add 1 |>.

Definition settle (id : Hash) (ch : FraudProofChallenge) (v : FraudProofVerdict) (st : FraudProofStatus)
    (f : FraudProofStats -> FraudProofStats) (s : FraudProofManager) : FraudProofManager :=
  mkFraudProofManager (fraud_config s) (delete id (active_challenges s))
    (<[id := ch <| verdict := Some v |> <| challenge_status := st |>]> (completed_challenges s))
    (fraud_block_height_now s) (f (fraud_stats s)).

Definition drop_challenge (id : Hash) (s : FraudProofManager) : FraudProofManager :=
  s <| active_challenges ::= delete id |>.

(** What processing one active challenge does, on every branch. *)
Lemma process_single_eq id ch s :
  active_challenges s !! id = Some ch ->
  process_single_challenge id s =
  if verification_deadline ch <? fraud_block_height_now s
  then (settle id ch timeout_verdict ChallengeTimedOut
          (fun st => st <| timed_out_challenges ::= u64_add 1 |>) s, Ok tt)
  else match verify_fraud_proof (fraud_config s) (challenge_proof ch) (responses ch) with
       | Ok v => (settle id ch v (if fraud_proven v then FraudProven else FraudDisproven)
                    (count_verdict (fraud_config s) v) s, Ok tt)
       | Err e => (drop_challenge id s, Err e)
       | Panic => (drop_challenge id s, Panic)
       | OutOfFuel => (drop_challenge id s, OutOfFuel)
       end.
Proof.
  intros Ha. unfold process_single_challenge. rewrite stM_bind_run. cbn [gets Datatypes.id].
  rewrite stM_bind_run. cbn [lift]. rewrite Ha. cbn [ok_or]. rewrite stM_bind_run. cbn [modify].
  destruct (_ <? _); [by destruct s as [? ? ? ? []]|]. rewrite stM_bind_run. cbn [lift].
  pose proof (verify_verdict (fraud_config s) (challenge_proof ch) (responses ch)) as Hv.
  destruct (verify_fraud_proof _ _ _) as [v| | |]; try done. unfold verdict_orders in Hv.
  unfold settle, count_verdict. destruct s as [c a d h [t p dp to tp tr]], (fraud_proven v).
  - destruct Hv as (pen & rew & -> & -> & <-). reflexivity.
  - reflexivity.
Qed.

(** A settled challenge: its verdict is the verification's, or a time-out. *)
Definition settled (c : FraudProofConfig) (ch : FraudProofChallenge) : Prop :=
  exists v, verdict ch = Some v /\
    match challenge_status ch with
    | FraudProven => fraud_proven v = true /\ verify_fraud_proof c (challenge_proof ch) (responses ch) = Ok v
    | FraudDisproven => fraud_proven v = false /\ verify_fraud_proof c (challenge_proof ch) (responses ch) = Ok v
    | ChallengeTimedOut => fraud_proven v = false
    | _ => False
    end.

Definition open_challenge (c : FraudProofConfig) (id : Hash) (ch : FraudProofChallenge) : Prop :=
  challenge_id ch = id /\ verdict ch = None /\ min_challenge_bond c <= challenge_bond ch /\
  (challenge_status ch = ChallengePending \/ challenge_status ch = UnderVerification).

(** [lost] counts the challenges that an error of the verification dropped. *)
Definition fraud_inv (c : FraudProofConfig) (lost : Z) (s : FraudProofManager) : Prop :=
  let st := fraud_stats s in
  fraud_config s = c /\ map_Forall (open_challenge c) (active_challenges s) /\
  map_Forall (fun _ => settled c) (completed_challenges s) /\
  total_challenges st = wrap64 (get_active_challenges_count s + proven_frauds st +
    disproven_challenges st + timed_out_challenges st + lost) /\
  total_penalties_applied st = proven_frauds st /\
  total_rewards_distributed st = wrap64 (proven_frauds st * fraud_proof_reward c).

Lemma active_count_delete (m : gmap Hash FraudProofChallenge) id ch :
  m !! id = Some ch -> Z.of_nat (size (delete id m)) = Z.of_nat (size m) - 1.
Proof.
  intros Hm. rewrite map_size_delete_Some by eauto.
  assert (size m <> 0%nat) by (intros E; apply map_size_empty_inv in E; by rewrite E, lookup_empty in Hm). lia.
Qed.

Lemma process_single_inv c lost id ch s :
  fraud_inv c lost s -> active_challenges s !! id = Some ch ->
  let '(s', o) := process_single_challenge id s in
  active_challenges s' = delete id (active_challenges s) /\
  match o with
  | Ok _ => fraud_inv c lost s'
  | Err _ => fraud_inv c (lost + 1) s'
  | _ => False
  end.
Proof.
  intros (Hc & Ha & Hd & Ht & Hp & Hr) Hl. rewrite (process_single_eq id ch) by done.
  assert (Ha' : map_Forall (open_challenge c) (delete id (active_challenges s))) by (by apply map_Forall_delete).
  assert (Hn := active_count_delete _ _ _ Hl). unfold get_active_challenges_count in Ht.
  pose proof (verify_verdict (fraud_config s) (challenge_proof ch) (responses ch)) as Hv.
  destruct s as [c0 a d h [t p dp to tp tr]]. cbn in *. subst c0. unfold fraud_inv, get_active_challenges_count.
  destruct (verification_deadline ch <? h).
  { cbn. split; [done|]. split; [done|]. split; [done|]. rewrite Hn. split_and!; try done.
    - apply map_Forall_insert_2; [|done]. destruct ch. cbn. eexists. split; reflexivity.
    - rewrite (balance_move t (Z.of_nat (size a)) to (p + dp + lost)) by (rewrite Ht; f_equal; lia). f_equal. lia. }
  destruct (verify_fraud_proof _ _ _) as [v|e| |] eqn:Ev; try done; cbn; split; try done; cbn.
  - unfold count_verdict. rewrite Hn. destruct (fraud_proven v) eqn:Ef; cbn.
    + split_and!; try done.
      * apply map_Forall_insert_2; [|done]. destruct ch. cbn in *. eexists. split; [reflexivity|]. cbn. done.
      * rewrite (balance_move t (Z.of_nat (size a)) p (dp + to + lost)) by (rewrite Ht; f_equal; lia). f_equal. lia.
      * by rewrite Hp.
      * rewrite Hr. unfold u64_add. rewrite wrap64_pull.
        unfold wrap64. rewrite Z.mul_mod_idemp_l by done. f_equal. lia.
    + split_and!; try done.
      * apply map_Forall_insert_2; [|done]. destruct ch. cbn in *. eexists. split; [reflexivity|]. cbn. done.
      * rewrite (balance_move t (Z.of_nat (size a)) dp (p + to + lost)) by (rewrite Ht; f_equal; lia). f_equal. lia.
  - split_and!; try done. rewrite Hn, Ht. f_equal. lia.
Qed.

(** The loop over distinct active challenges: it settles them all, or stops at
    the one it drops. *)
Lemma process_all_inv c lost ids s :
  fraud_inv c lost s -> NoDup ids -> (forall id, id ∈ ids -> is_Some (active_challenges s !! id)) ->
  let '(s', o) := for_each ids process_single_challenge s in
  match o with
  | Ok _ => fraud_inv c lost s' /\
      active_challenges s' = filter (fun e => e.1 ∉ ids) (active_challenges s)
  | Err _ => fraud_inv c (lost + 1) s'
  | _ => False
  end.
Proof.
  intros Hi Hn. revert s Hi. induction Hn as [|id ids Hid Hn IH]; intros s Hi Hin.
  { cbn. split; [done|]. rewrite map_filter_id; [done|]. intros i x _ []%elem_of_nil. }
  destruct (Hin id) as [ch Hch]; [by apply list_elem_of_here|].
  pose proof (process_single_inv c lost id ch s Hi Hch) as Hs. cbn [for_each]. rewrite stM_bind_run.
  destruct (process_single_challenge id s) as [s1 [[]|e| |]]; try (by destruct Hs).
  destruct Hs as [Ha Hi1]. specialize (IH s1 Hi1). rewrite Ha in IH.
  assert (Hin' : forall i, i ∈ ids -> is_Some (delete id (active_challenges s) !! i)).
  { intros i Hi'. rewrite lookup_delete_ne by (intros ->; done). apply Hin. by apply list_elem_of_further. }
  specialize (IH Hin'). destruct (for_each ids process_single_challenge s1) as [s2 [u|e| |]]; try done.
  destruct IH as [Hi2 Ha2]. split; [done|]. rewrite Ha2. apply map_eq. intros i.
  destruct (decide (i = id)) as [->|Hne].
  - rewrite !(proj2 (map_lookup_filter_None _ _ _)); [done|right|right].
    + intros x _ []. cbn. by apply list_elem_of_here.
    + intros x Hx. by rewrite lookup_delete_eq in Hx.
  - apply option_eq. intros x. rewrite !map_lookup_filter_Some, lookup_delete_ne by done. cbn.
    rewrite not_elem_of_cons. naive_solver.
Qed.

Lemma keys_perm_active (reorder : list Hash -> list Hash) (m : gmap Hash FraudProofChallenge) :
  (forall l, reorder l ≡ₚ l) ->
  NoDup (reorder (map_to_list m).*1) /\ forall id, id ∈ reorder (map_to_list m).*1 <-> is_Some (m !! id).
Proof.
  intros Hp. rewrite Hp. split; [apply NoDup_fst_map_to_list|]. intros id. rewrite Hp.
  rewrite list_elem_of_fmap. split.
  - intros ([i x] & -> & Hx%elem_of_map_to_list). eauto.
  - intros [x Hx]. exists (id, x). by rewrite elem_of_map_to_list.
Qed.

Lemma process_challenges_inv c lost reorder height s :
  (forall l, reorder l ≡ₚ l) -> fraud_inv c lost s ->
  let '(s', o) := process_challenges reorder height s in
  match o with
  | Ok _ => fraud_inv c lost s' /\ active_challenges s' = ∅
  | Err _ => fraud_inv c (lost + 1) s'
  | _ => False
  end.
Proof.
  intros Hp Hi. unfold process_challenges. rewrite stM_bind_run. cbn [modify]. rewrite stM_bind_run.
  cbn [gets Datatypes.id]. set (s1 := s <| fraud_block_height_now := height |>).
  assert (Hi1 : fraud_inv c lost s1) by (by destruct s).
  destruct (keys_perm_active reorder (active_challenges s1) Hp) as [Hn Hk].
  pose proof (process_all_inv c lost _ s1 Hi1 Hn (fun id => proj1 (Hk id))) as Hl.
  destruct (for_each _ _ s1) as [s2 [u|e| |]]; try done. destruct Hl as [Hi2 ->]. split; [done|].
  apply map_empty. intros id. apply map_lookup_filter_None. right. intros x Hx Hni. apply Hni. cbn. apply Hk. eauto.
Qed.

Lemma submit_inv c lost p bond : preserves (fraud_inv c lost) (submit_fraud_proof p bond).
Proof.
  intros s Hi. unfold submit_fraud_proof. rewrite stM_bind_run. cbn [gets Datatypes.id].
  destruct (Z.ltb_spec bond (min_challenge_bond (fraud_config s))) as [|Hb]; [done|]. rewrite stM_bind_run. cbn [lift].
  destruct (bincode_fraud_proof p) as [b|] eqn:Eb; cbn [ok_or]; [|done]. destruct (_ <? len b); [done|].
  rewrite stM_bind_run. unfold generate_challenge_id. rewrite Eb. cbn [unwrap lift]. cbn.
  case_bool_decide as Hno; [done|]. cbn. destruct Hi as (Hc & Ha & Hd & Ht & Hp & Hr).
  destruct s as [c0 a d h [t pr dp to tp tr]]. cbn in *. subst c0. unfold fraud_inv, get_active_challenges_count in *.
  cbn in *. split; [done|]. split_and!; try done.
  - apply map_Forall_insert_2; [|done]. unfold open_challenge. cbn. eauto.
  - cbn. rewrite map_size_insert_None by (by apply eq_None_not_Some). rewrite Ht. unfold u64_add. rewrite wrap64_pull.
    f_equal. lia.
Qed.

Lemma respond_inv c lost id r : preserves (fraud_inv c lost) (submit_response id r).
Proof.
  intros s Hi. unfold submit_response. rewrite stM_bind_run. cbn [gets Datatypes.id]. rewrite stM_bind_run. cbn [lift].
  destruct (active_challenges s !! id) as [ch|] eqn:Ech; cbn [ok_or]; [|done].
  destruct (negb _); [done|]. destruct (_ <? _); [done|]. destruct (_ =? 0); [done|]. cbn.
  destruct Hi as (Hc & Ha & Hd & Ht & Hp & Hr). destruct (Ha _ _ Ech) as (H1 & H2 & H3 & _).
  destruct s as [c0 a d h [t pr dp to tp tr]]. cbn in *. subst c0. unfold fraud_inv, get_active_challenges_count in *.
  cbn in *. split; [done|]. split_and!; try done.
  - apply map_Forall_insert_2; [|done]. destruct ch. unfold open_challenge. cbn in *. eauto.
  - cbn. by rewrite map_size_insert_Some by eauto.
Qed.

(** The operations; the reports are submissions of particular proofs. *)
Inductive fraud_op : Type :=
| OpSubmitProof (p : FraudProof) (bond : Z)
| OpRespond (id : Hash) (r : FraudProofResponse)
| OpProcess (reorder : list Hash -> list Hash) (Hperm : forall l, reorder l ≡ₚ l) (height : Z).

(** The manager, and how many challenges were dropped by a failing
    [process_challenges]. *)
Definition fraud_step (st : FraudProofManager * Z) (op : fraud_op) : FraudProofManager * Z :=
  let '(s, lost) := st in
  match op with
  | OpSubmitProof p bond => (fst (submit_fraud_proof p bond s), lost)
  | OpRespond id r => (fst (submit_response id r s), lost)
  | OpProcess reorder _ height =>
      let '(s', o) := process_challenges reorder height s in (s', if is_ok o then lost else lost + 1)
  end.

Definition fraud_run (c : FraudProofConfig) (ops : list fraud_op) : FraudProofManager * Z :=
  foldl fraud_step (FraudProofManager_new c, 0) ops.

Lemma fraud_run_inv c ops : fraud_inv c (snd (fraud_run c ops)) (fst (fraud_run c ops)).
Proof.
  apply (foldl_inv (fun st => fraud_inv c (snd st) (fst st))).
  - unfold fraud_inv. cbn. split_and!; try done; apply map_Forall_empty.
  - intros [s lost] op Hi. cbn [fst snd] in Hi. destruct op as [p bond|id r|reorder Hp height]; cbn [fraud_step fst snd].
    + apply preserves_fst; [apply submit_inv|done].
    + apply preserves_fst; [apply respond_inv|done].
    + pose proof (process_challenges_inv c lost reorder height s Hp Hi) as Hs.
      destruct (process_challenges reorder height s) as [s' [u|e| |]]; cbn; try done. by destruct Hs.
Qed.

(** C25. Every challenge is accounted for.  Whatever is submitted, answered and
    processed, in whatever order: the challenges ever submitted are those active,
    proven, disproven, timed out, and lost to an error of the verification
    (counters modulo 2^64); a settled challenge carries the verdict of the
    verification of its own proof against its own responses; one penalty was
    applied per proven fraud, and the rewards are the configured reward times the
    proven frauds. *)
Theorem fraud_accounting c ops :
  let '(s, lost) := fraud_run c ops in
  let st := fraud_stats s in
  total_challenges st = wrap64 (get_active_challenges_count s + proven_frauds st +
    disproven_challenges st + timed_out_challenges st + lost) /\
  total_penalties_applied st = proven_frauds st /\
  total_rewards_distributed st = wrap64 (proven_frauds st * fraud_proof_reward c) /\
  (forall id ch, active_challenges s !! id = Some ch -> verdict ch = None /\ min_challenge_bond c <= challenge_bond ch) /\
  (forall id ch, completed_challenges s !! id = Some ch -> challenge_status ch <> ChallengeTimedOut ->
     exists v, verdict ch = Some v /\ verify_fraud_proof c (challenge_proof ch) (responses ch) = Ok v /\
       challenge_status ch = if fraud_proven v then FraudProven else FraudDisproven).
Proof.
  destruct (fraud_run c ops) as [s lost] eqn:E. pose proof (fraud_run_inv c ops) as Hi. rewrite E in Hi.
  destruct Hi as (_ & Ha & Hd & Ht & Hp & Hr). cbn [fst snd] in *.
  split; [exact Ht|]. split; [exact Hp|]. split; [exact Hr|]. split.
  - intros id ch Hch. destruct (Ha _ _ Hch) as (_ & ? & ? & _). done.
  - intros id ch Hch Hnt. destruct (Hd _ _ Hch) as (v & Hv & Hs). exists v. split; [done|].
    destruct (challenge_status ch); try done; destruct Hs as [-> Hs]; done.
Qed.

(** There is no challenge period: one successful [process_challenges], at any
    height, settles every active challenge, answered or not, so that only what
    was answered before the next block counts. *)
Theorem settled_at_once c ops reorder height s' :
  (forall l, reorder l ≡ₚ l) ->
  process_challenges reorder height (fst (fraud_run c ops)) = (s', Ok tt) -> active_challenges s' = ∅.
Proof.
  intros Hp E. pose proof (process_challenges_inv c _ reorder height _ Hp (fraud_run_inv c ops)) as Hs.
  rewrite E in Hs. apply Hs.
Qed.

(** A valid state transition is convicted: a proof of the first type is upheld
    when it shows two different states, whether or not the transition between
    them is right, whatever the accused answer; the challenger is rewarded. *)
Theorem honest_transition_convicted id ch s :
  active_challenges s !! id = Some ch -> fraud_type (challenge_proof ch) = InvalidStateTransition ->
  pre_state (evidence (challenge_proof ch)) <> [] -> post_state (evidence (challenge_proof ch)) <> [] ->
  pre_state (evidence (challenge_proof ch)) <> post_state (evidence (challenge_proof ch)) ->
  fraud_block_height_now s <= verification_deadline ch ->
  exists s', process_single_challenge id s = (s', Ok tt) /\ get_challenge_status s' id = Some FraudProven /\
    total_rewards_distributed (fraud_stats s') =
      u64_add (fraud_proof_reward (fraud_config s)) (total_rewards_distributed (fraud_stats s)).
Proof.
  intros Ha Hty Hpre Hpost Hne Hd. rewrite (process_single_eq id ch) by done.
  rewrite (proj2 (Z.ltb_ge _ _)) by done. unfold verify_fraud_proof. rewrite Hty.
  unfold verify_state_transition_fraud. rewrite (bool_decide_false (_ = _)) by done.
  destruct (pre_state _) as [|x l] eqn:E1; [done|]. destruct (post_state _) as [|y l2] eqn:E2; [done|].
  rewrite !len_cons. pose proof (len_nonneg l). pose proof (len_nonneg l2).
  rewrite (proj2 (Z.eqb_neq (len l + 1) 0)) by lia. rewrite (proj2 (Z.eqb_neq (len l2 + 1) 0)) by lia.
  cbn [negb andb mret outcome_ret verdict_of fraud_proven]. eexists. split; [reflexivity|].
  unfold get_challenge_status, settle. cbn [active_challenges completed_challenges fraud_stats].
  rewrite lookup_delete_eq, lookup_insert_eq. destruct ch, s as [? ? ? ? []]. split; reflexivity.
Qed.

End Accounting.

(** * Reports that cannot succeed *)

Section Unprovable.
Context `{Primitives} `{SidechainCodec}.

(** The reports whose proof type is judged by evidence that they leave empty. *)
Inductive unprovable_report : fraudM Hash -> Prop :=
| unprovable_signature id m sig r bond : unprovable_report (report_invalid_masternode_signature id m sig r bond)
| unprovable_registration tx r bond : unprovable_report (report_invalid_masternode_registration tx r bond)
| unprovable_state id d r bond : unprovable_report (report_invalid_masternode_state id d r bond)
| unprovable_inactivity id b r bond : unprovable_report (report_masternode_inactivity id b r bond)
| unprovable_cross_chain tx r bond : unprovable_report (report_invalid_cross_chain_transaction tx r bond)
| unprovable_violation d tx b r bond : unprovable_report (report_consensus_rule_violation d tx b r bond)
| unprovable_header h r bond : unprovable_report (report_invalid_block_header h r bond)
| unprovable_missing h n r bond : unprovable_report (report_missing_witness_signatures h n r bond)
| unprovable_stake h v r bond : unprovable_report (report_incorrect_proof_of_stake h v r bond).

Definition judged_by_operation (t : FraudType) : bool :=
  match t with DoubleSpending | InvalidVMExecution => true | _ => false end.

Lemma placeholder_unproven c t height operation reporter bond rs :
  judged_by_operation t = false ->
  match verify_fraud_proof c (placeholder_proof t height operation reporter bond) rs with
  | Ok v => fraud_proven v = false
  | _ => True
  end.
Proof. destruct t; try done. Qed.

Lemma submit_ok p bond s s' id :
  submit_fraud_proof p bond s = (s', Ok id) ->
  fraud_config s' = fraud_config s /\ completed_challenges s' = completed_challenges s /\
  exists ch, active_challenges s' !! id = Some ch /\ challenge_proof ch = p.
Proof.
  unfold submit_fraud_proof. rewrite stM_bind_run. cbn [gets Datatypes.id].
  destruct (bond <? _); [done|]. rewrite stM_bind_run. cbn [lift].
  destruct (bincode_fraud_proof p) as [b|] eqn:Eb; cbn [ok_or]; [|done]. destruct (_ <? len b); [done|].
  rewrite stM_bind_run. unfold generate_challenge_id. rewrite Eb. cbn.
  case_bool_decide; [done|]. cbn. intros [= <- <-]. destruct s as [? ? ? ? []]. cbn. split_and!; try done.
  eexists. by rewrite lookup_insert_eq.
Qed.

Lemma unprovable_submits m s s' id :
  unprovable_report m -> m s = (s', Ok id) ->
  exists t height operation reporter bond, judged_by_operation t = false /\
    submit_fraud_proof (placeholder_proof t height operation reporter bond) bond s = (s', Ok id).
Proof.
  intros Hu Hm. destruct Hu; apply stM_bind_ok in Hm as (s1 & op & Hs & Hm); unfold serialize_report in Hs;
    cbn [lift] in Hs; injection Hs as <- _; do 5 eexists; (split; [|exact Hm]); reflexivity.
Qed.

(** Nine of the eleven reports are never upheld: whatever they report and
    whatever is answered, processing the challenge they open convicts nobody.
    It either fails, and then the challenge has vanished unsettled, or ends with
    the report disproven or timed out. *)
Theorem reports_never_proven m s s1 id s2 o s3 :
  unprovable_report m -> m s = (s1, Ok id) ->
  (s2 = s1 \/ exists r, submit_response id r s1 = (s2, Ok tt)) ->
  process_single_challenge id s2 = (s3, o) ->
  match o with
  | Ok _ => get_challenge_status s3 id = Some FraudDisproven \/ get_challenge_status s3 id = Some ChallengeTimedOut
  | _ => active_challenges s3 !! id = None /\ completed_challenges s3 = completed_challenges s
  end.
Proof.
  intros Hu Hm H12 Hp. destruct (unprovable_submits _ _ _ _ Hu Hm) as (t & ht & op & rep & bond & Ht & Hs).
  apply submit_ok in Hs as (Hc & Hcd & ch & Ha & Hch).
  assert (H2 : completed_challenges s2 = completed_challenges s /\
    exists ch2, active_challenges s2 !! id = Some ch2 /\ challenge_proof ch2 = challenge_proof ch).
  { destruct H12 as [->|[r Hr]]; [eauto|]. unfold submit_response in Hr. rewrite stM_bind_run in Hr.
    cbn [gets Datatypes.id] in Hr. rewrite stM_bind_run in Hr. cbn [lift] in Hr. rewrite Ha in Hr. cbn [ok_or] in Hr.
    destruct (negb _); [done|]. destruct (_ <? _); [done|]. destruct (_ =? 0); [done|]. injection Hr as <-.
    destruct s1. cbn in *. split; [done|]. eexists. rewrite lookup_insert_eq. split; [done|]. by destruct ch. }
  destruct H2 as [Hcd2 (ch2 & Ha2 & Hch2)]. rewrite (process_single_eq id ch2) in Hp by done.
  destruct (_ <? _).
  { injection Hp as <- <-. right. unfold get_challenge_status, settle. cbn [active_challenges completed_challenges].
    rewrite lookup_delete_eq, lookup_insert_eq. by destruct ch2. }
  rewrite Hch2, Hch in Hp.
  pose proof (placeholder_unproven (fraud_config s2) t ht op rep bond (responses ch2) Ht) as Hv.
  destruct (verify_fraud_proof _ _ _) as [v| | |]; injection Hp as <- <-; unfold drop_challenge;
    try (destruct s2; cbn in *; split; [apply lookup_delete_eq|congruence]).
  left. unfold get_challenge_status, settle. cbn [active_challenges completed_challenges].
  rewrite lookup_delete_eq, lookup_insert_eq, Hv. by destruct ch2.
Qed.

End Unprovable.

(** * Examples *)

Definition transition_proof : FraudProof :=
  mkFraudProof InvalidStateTransition 7 None (mkFraudEvidence [1] [2] [] [] ∅) [9] 2000000 0.

Definition fraud_ops : list fraud_op :=
  [OpSubmitProof transition_proof 2000000; OpProcess (fun l => l) (fun l => Permutation_refl l) 3;
   OpSubmitProof transition_proof 2000000].

Definition fraud_s : FraudProofManager := fst (fraud_run (H0 := sample_sidechain_codec) FraudProofConfig_default fraud_ops).

Definition transition_id : Hash := blake3 [9].

(** The honest step from state 1 to state 2, submitted twice, rewarded twice. *)
Lemma honest_transition_convicted_witness : exists s',
  process_single_challenge transition_id fraud_s = (s', Ok tt) /\
  get_challenge_status s' transition_id = Some FraudProven /\
  total_rewards_distributed (fraud_stats s') = 20000000.
Proof.
  destruct (active_challenges fraud_s !! transition_id) as [ch|] eqn:E; [|vm_compute in E; discriminate E].
  assert (Hch : (fraud_type (challenge_proof ch), evidence (challenge_proof ch), verification_deadline ch) =
    (InvalidStateTransition, mkFraudEvidence [1] [2] [] [] ∅, 147)).
  { vm_compute in E. injection E as <-. reflexivity. }
  injection Hch as H1 H2 H3.
  destruct (honest_transition_convicted transition_id ch fraud_s E H1) as (s' & Hs & Hst & Hr).
  - rewrite H2. discriminate.
  - rewrite H2. discriminate.
  - rewrite H2. discriminate.
  - rewrite H3. vm_compute. discriminate.
  - exists s'. split; [exact Hs|]. split; [exact Hst|]. rewrite Hr. vm_compute. reflexivity.
Defined.

Lemma settled_at_once_witness : exists s',
  process_challenges reverse 200 fraud_s = (s', Ok tt) /\ active_challenges s' = ∅.
Proof.
  destruct (process_challenges reverse 200 fraud_s) as [s' o] eqn:E. exists s'.
  assert (Ho : o = Ok tt) by (apply (f_equal snd) in E; vm_compute in E; by rewrite <- E).
  subst o. split; [reflexivity|].
  apply (settled_at_once (H0 := sample_sidechain_codec) FraudProofConfig_default fraud_ops reverse 200 s'); [|exact E].
  apply reverse_Permutation.
Defined.

Definition inactivity_report : fraudM Hash :=
  report_masternode_inactivity (H0 := sample_sidechain_codec) (replicate 32 1) 5 [] 2000000.

Definition reported_s : FraudProofManager := fst (inactivity_report fraud_s).

Definition reported_id : Hash := blake3 (replicate 32 1).

Lemma reports_never_proven_witness : exists s3,
  process_single_challenge reported_id reported_s = (s3, Ok tt) /\
  get_challenge_status s3 reported_id <> Some FraudProven.
Proof.
  assert (E1 : inactivity_report fraud_s = (reported_s, Ok reported_id)).
  { rewrite (surjective_pairing (inactivity_report fraud_s)). f_equal. }
  destruct (process_single_challenge reported_id reported_s) as [s3 o] eqn:E3.
  assert (Ho : o = Ok tt) by (apply (f_equal snd) in E3; vm_compute in E3; by rewrite <- E3).
  subst o. exists s3. split; [reflexivity|].
  destruct (reports_never_proven (H0 := sample_sidechain_codec) inactivity_report fraud_s reported_s _ reported_s
    (Ok tt) s3 (unprovable_inactivity _ _ _ _) E1 (or_introl eq_refl) E3) as [-> | ->]; discriminate.
Defined.
