(* ===== verification/ProofValidation.v ===== *)
(** Validation of sidechain blocks and of the proofs they carry
    (src/rusty-core/src/sidechain/proof_validation.rs).

    The validators return [Valid] or [Invalid reason] only, so they are modelled
    in the error monad, [Ok tt] standing for [Valid]; the public function gives
    a [ProofValidationResult].  The clock is read once per call, and the time a
    validation takes, in milliseconds, is an argument.  Slices are taken with
    [field] where a length check before them makes the range valid. *)

From Stdlib Require Import ZArith Lia List.
From stdpp Require Import base option list numbers strings gmap.
From coqutil Require Import Datatypes.RecordSetters.
From S2P Require Import Prelude Types Transaction SamplePrimitives F64 SidechainTypes Federation CrossChain FraudProofs.

Import TriangleBracketNotations.

#[local] Open Scope Z_scope.

(** * Data *)

Record ProofValidationConfig : Type := mkProofValidationConfig {
  min_federation_signatures : Z;
  pv_max_proof_size : Z;
  strict_validation : bool;
  max_merkle_depth : Z;
  verification_timeout_ms : Z;
}.

Definition ProofValidationConfig_default : ProofValidationConfig :=
  mkProofValidationConfig 2 1000000 true 32 5000.

Inductive ProofValidationResult : Type :=
| PV_Valid
| PV_Invalid (reason : string)
| PV_Error (reason : string)
| PV_Timeout.

Record ValidationStats : Type := mkValidationStats {
  total_validations : Z;
  successful_validations : Z;
  failed_validations : Z;
  timeout_validations : Z;
  average_validation_time_ms : f64;
}.

Definition ValidationStats_default : ValidationStats := mkValidationStats 0 0 0 0 (f64_of_Z 0).

Record SidechainProofValidator : Type := mkSidechainProofValidator {
  pv_config : ProofValidationConfig;
  federation_keys : gmap Z (list bytes);
  trusted_headers : gmap Hash BlockHeader;
  validation_stats : ValidationStats;
}.

Definition SidechainProofValidator_new (config : ProofValidationConfig) : SidechainProofValidator :=
  mkSidechainProofValidator config ∅ ∅ ValidationStats_default.

Abbreviation pvM := (stM SidechainProofValidator string).

Definition update_federation_keys (epoch : Z) (keys : list bytes) (s : SidechainProofValidator) :
    SidechainProofValidator :=
  s <| federation_keys ::= <[epoch := keys]> |>.

Definition clear_stats (s : SidechainProofValidator) : SidechainProofValidator :=
  s <| validation_stats := ValidationStats_default |>.

(** * Building blocks *)

Definition reject_if (bad : bool) (reason : string) : textR unit := if bad then Err reason else mret tt.

(** [if let Invalid(reason) = .. { return Invalid(format!(..)) }] *)
Definition within (context : string) (r : textR unit) : textR unit := map_err (String.append context) r.

Fixpoint check_list {A} (f : A -> textR unit) (l : list A) : textR unit :=
  match l with
  | [] => mret tt
  | x :: l => f x;; check_list f l
  end.

(** [if let Some(data) = additional_evidence.get(key) { .. }] *)
Definition on_evidence (p : FraudProof) (key : string) (f : bytes -> textR unit) : textR unit :=
  match additional_evidence (evidence p) !! key with Some data => f data | None => mret tt end.

Definition field (b : bytes) (start n : nat) : bytes := take n (drop start b).

Definition number_at (b : bytes) (start n : nat) : Z := from_le_bytes (field b start n).

Definition all_zero (b : bytes) : bool := forallb (fun x => x =? 0) b.
Definition all_ff (b : bytes) : bool := forallb (fun x => x =? 0xFF) b.

Definition count_zeros (b : bytes) : Z := len (filter (fun x => x = 0) b).

(** [a as f64 / b as f64] *)
Definition ratio (a b : Z) : f64 := f64_div (f64_of_Z a) (f64_of_Z b).

(** * State transitions *)

Definition validate_transaction_state_transition (pre post operation : bytes) : textR unit :=
  reject_if (len operation <? 100) "Transaction operation data too small";;
  reject_if (1000000000 <? number_at operation 12 8) "Invalid transaction patterns detected".

Definition validate_contract_deployment_transition (pre post operation : bytes) : textR unit :=
  reject_if (len post <=? len pre) "Contract deployment should increase state size";;
  reject_if (len operation <? 50) "Contract deployment operation too small".

Definition validate_contract_execution_transition (pre post operation : bytes) : textR unit :=
  reject_if (len operation <? 80) "Contract execution operation too small";;
  let gas_limit := number_at operation 20 8 in
  reject_if ((gas_limit =? 0) || (100000000 <? gas_limit)) "Invalid gas limit in contract execution".

Definition validate_asset_transfer_transition (pre post operation : bytes) : textR unit :=
  reject_if (len operation <? 40) "Asset transfer operation too small";;
  let amount := as_i64 (number_at operation 28 8) in
  reject_if ((amount <=? 0) || (1000000000000000000 <? amount)) "Invalid transfer amount".

Definition validate_governance_transition (pre post operation : bytes) : textR unit :=
  reject_if (len operation <? 60) "Governance operation too small";;
  reject_if (number_at operation 40 4 =? 0) "Invalid governance proposal ID".

Definition validate_generic_state_transition (pre post operation : bytes) : textR unit :=
  reject_if (len operation <? 32) "Generic operation too small";;
  reject_if (f64_gt (ratio (count_zeros operation) (len operation)) (f64_lit 9 10))
    "Operation data contains excessive zeros".

(** [None] of the source and a skipped check are both [Ok tt]. *)
Definition validate_balance_conservation (pre post : bytes) : textR unit :=
  if (len pre <? 100) || (len post <? 100) then mret tt else
  reject_if (f64_gt (ratio (Z.abs (len post - len pre)) (len pre)) (f64_lit 1 2)) "State size change too large".

Definition calculate_state_change_ratio (pre post : bytes) : f64 :=
  let min_len := Z.min (len pre) (len post) in
  if min_len =? 0 then f64_of_Z 0 else
  let changed := len (filter (fun e : Z * Z => e.1 <> e.2) (zip pre post)) in
  ratio (changed + (Z.max (len pre) (len post) - min_len)) (Z.max (len pre) (len post)).

Definition validate_operation (op_type : Z) (pre post operation : bytes) : textR unit :=
  (if op_type =? 1 then validate_transaction_state_transition
   else if op_type =? 2 then validate_contract_deployment_transition
   else if op_type =? 3 then validate_contract_execution_transition
   else if op_type =? 4 then validate_asset_transfer_transition
   else if op_type =? 5 then validate_governance_transition
   else validate_generic_state_transition) pre post operation.

Section Fraud.
Context `{Primitives}.

(** The part before the operation is judged: shape, witness hashes, versions,
    timestamps and sizes. *)
Definition check_transition_shape (p : FraudProof) : textR unit :=
  let pre := pre_state (evidence p) in
  let post := post_state (evidence p) in
  let operation := fraudulent_operation (evidence p) in
  let witness := witness_data (evidence p) in
  reject_if (len pre =? 0) "Pre-state evidence is required for state transition fraud";;
  reject_if (len post =? 0) "Post-state evidence is required for state transition fraud";;
  reject_if (len operation =? 0) "Fraudulent operation data is required";;
  reject_if (len witness <? 96) "Insufficient witness data for state transition validation";;
  reject_if (negb (bool_decide (field witness 0 32 = blake3 pre))) "Witness data pre-state hash does not match evidence";;
  reject_if (negb (bool_decide (field witness 32 32 = blake3 post))) "Witness data post-state hash does not match evidence";;
  reject_if (negb (bool_decide (field witness 64 32 = blake3 operation))) "Witness data operation hash does not match evidence";;
  reject_if (bool_decide (pre = post)) "State transition fraud requires different pre and post states";;
  reject_if (len operation <? 64) "Operation data too small for state transition";;
  reject_if (1000 <? number_at operation 0 4) "Operation type exceeds valid range";;
  reject_if ((len pre <? 32) || (len post <? 32)) "State data too small for validation";;
  reject_if (negb (number_at pre 0 4 =? number_at post 0 4)) "State version mismatch between pre and post states";;
  let before := number_at pre 4 8 in
  let after := number_at post 4 8 in
  reject_if ((0 <? before) && (0 <? after) && (after <? before)) "Post-state timestamp precedes pre-state timestamp";;
  reject_if ((1000000 <? len pre) || (1000000 <? len post)) "State data exceeds maximum size limit".

Definition validate_state_transition_fraud (now : Z) (p : FraudProof) : textR unit :=
  let pre := pre_state (evidence p) in
  let post := post_state (evidence p) in
  let operation := fraudulent_operation (evidence p) in
  check_transition_shape p;;
  within "Consensus rule violation: " (validate_operation (number_at operation 0 4) pre post operation);;
  within "Balance conservation violation: " (validate_balance_conservation pre post);;
  reject_if (f64_gt (calculate_state_change_ratio pre post) (f64_lit 8 10))
    "State change too extensive for single operation";;
  on_evidence p "operation_sequence" (fun sequence =>
    reject_if ((8 <=? len sequence) && (u64_add now 3600 <? number_at sequence 0 8))
      "Operation sequence timestamp in future");;
  reject_if (response_deadline p =? 0) "Missing response deadline for state transition fraud proof";;
  reject_if (proof_challenge_bond p =? 0) "Challenge bond must be greater than zero".

(** * Double spending *)

Definition validate_double_spending_fraud (now : Z) (p : FraudProof) : textR unit :=
  let data := fraudulent_operation (evidence p) in
  let witness := witness_data (evidence p) in
  reject_if (len data =? 0) "Double spending proof requires transaction data";;
  reject_if (len data <? 128) "Insufficient transaction data for double spending proof";;
  let tx1_hash := field data 0 32 in
  let tx2_hash := field data 32 32 in
  reject_if (bool_decide (tx1_hash = tx2_hash)) "Double spending requires two different transactions";;
  reject_if (len witness <? 64) "Witness data too small for double spending proof";;
  let remaining := drop 36 witness in
  reject_if (len remaining <? 64) "Insufficient witness data for transaction references";;
  let found := full_chunks remaining in
  reject_if (negb (bool_decide (tx1_hash ∈ found)) || negb (bool_decide (tx2_hash ∈ found)))
    "Witness data does not contain both conflicting transaction hashes";;
  reject_if (response_deadline p =? 0) "Missing response deadline for fraud proof";;
  reject_if (proof_challenge_bond p =? 0) "Challenge bond must be greater than zero";;
  reject_if ((0 <? fraud_block_height p) && (u64_add now 86400 <? fraud_block_height p))
    "Fraud proof block height appears to be in the future".

(** * Cross-chain fraud *)

Definition validate_bls_signature_format (signature : bytes) : bool :=
  if negb (len signature =? 96) then false else negb (all_zero signature).

Definition validate_merkle_proof_data (c : ProofValidationConfig) (data : bytes) : textR unit :=
  reject_if (len data =? 0) "Empty merkle proof";;
  reject_if (negb (len data mod 32 =? 0)) "Merkle proof data must be multiple of 32 bytes";;
  let elements := len data / 32 in
  reject_if ((elements =? 0) || (max_merkle_depth c <? elements)) "Invalid merkle proof length".

(** How many 96-byte signatures there are, and how many are malformed. *)
Definition count_signatures (data : bytes) : Z * Z :=
  let whole := filter (fun c => length c = 96%nat) (chunks 96 data) in
  (wrap32 (len whole), wrap32 (len (filter (fun c => validate_bls_signature_format c = false) whole))).

Definition outside_window (now timestamp : Z) : bool :=
  (u64_add now 3600 <? timestamp) || (timestamp <? wrap64 (now - 86400)).

Definition validate_cross_chain_fraud (c : ProofValidationConfig) (now : Z) (p : FraudProof) : textR unit :=
  let extra := additional_evidence (evidence p) in
  let witness := witness_data (evidence p) in
  reject_if (bool_decide (extra = ∅)) "Cross-chain fraud proof requires additional evidence";;
  tx ← ok_or (extra !! "cross_chain_transaction"%string) "Cross-chain transaction data required"%string;
  reject_if (len tx <? 100) "Cross-chain transaction data too small";;
  signatures ← ok_or (extra !! "federation_signatures"%string)
    "Federation signature data required for cross-chain fraud"%string;
  reject_if (len signatures =? 0) "Empty federation signature data";;
  let '(total, invalid) := count_signatures signatures in
  reject_if (total =? 0) "No valid federation signatures found";;
  reject_if (invalid <? wrap32 (total * 2) / 3) "Insufficient invalid signatures for fraud proof";;
  let amount := number_at tx 32 8 in
  reject_if (amount =? 0) "Cross-chain transaction amount cannot be zero";;
  reject_if (1000000000000000000 <? amount) "Cross-chain transaction amount exceeds maximum allowed";;
  reject_if (all_zero (field tx 40 32)) "Invalid zero recipient address";;
  on_evidence p "merkle_proof" (fun data =>
    within "Merkle proof validation failed: " (validate_merkle_proof_data c data));;
  reject_if (len tx <? 136) "Missing chain information in cross-chain transaction";;
  reject_if (bool_decide (field tx 72 32 = field tx 104 32)) "Source and destination chains cannot be the same";;
  reject_if (len witness <? 64) "Insufficient witness data for cross-chain proof";;
  reject_if (negb (bool_decide (blake3 tx ∈ full_chunks witness)))
    "Witness data does not contain cross-chain transaction hash";;
  reject_if (total <? min_federation_signatures c) "Insufficient federation signatures";;
  on_evidence p "timestamp" (fun data =>
    reject_if ((len data =? 8) && outside_window now (from_le_bytes data))
      "Cross-chain transaction timestamp is outside acceptable range").

(** * Signature fraud *)

(** [u256_from_bytes]: the bytes in their order, padded to 32. *)
Definition u256_from_bytes (b : bytes) : bytes :=
  let n := Nat.min (length b) 32 in take n b ++ replicate (32 - n) 0.

(** The order of Ed25519, with its most significant byte first. *)
Definition ED25519_ORDER : bytes :=
  [0x10; 0; 0; 0; 0; 0; 0; 0; 0; 0; 0; 0; 0; 0; 0; 0;
   0x14; 0xde; 0xf9; 0xde; 0xa2; 0xf7; 0x9c; 0xd6; 0x58; 0x12; 0x63; 0x1a; 0x5c; 0xf5; 0xd3; 0xed].

(** Arrays compare byte by byte from the first. *)
Definition exceeds_order (s_component : bytes) : bool :=
  bytes_le (u256_from_bytes ED25519_ORDER) (u256_from_bytes s_component).

Definition is_valid_signature_format (signature : bytes) : bool :=
  (len signature =? 64) && negb (all_zero signature).

Definition signature_validates_with_key (signature message public_key : bytes) : bool :=
  (byte_at (blake3 signature) 0 =? byte_at (blake3 message) 0) &&
  (byte_at (blake3 signature) 1 =? byte_at (blake3 public_key) 1).

(** Positions among the first four where two of the three hashes agree. *)
Definition similarity (signature message public_key : bytes) : Z :=
  len (filter (fun e : Z * Z * Z => e.1.1 = e.1.2 \/ e.1.2 = e.2 \/ e.1.1 = e.2)
    (zip (zip (take 4 (blake3 signature)) (take 4 (blake3 message))) (take 4 (blake3 public_key)))).

Definition check_signature_shape (signature message : bytes) : textR unit :=
  let r := field signature 0 32 in
  let s := field signature 32 32 in
  reject_if (negb (is_valid_signature_format signature)) "Invalid signature format";;
  reject_if (all_zero r || all_zero s) "Signature contains zero components (invalid)";;
  reject_if (all_ff r || all_ff s) "Signature contains all 0xFF components (invalid)";;
  reject_if (exceeds_order s) "Signature S component exceeds Ed25519 curve order";;
  reject_if (all_zero message) "Message hash cannot be all zeros".

Definition check_fraud_key (signature message public_key : bytes) : textR unit :=
  reject_if (negb (len public_key =? 32)) "Invalid public key length (must be 32 bytes)";;
  reject_if (all_zero public_key) "Public key cannot be all zeros";;
  reject_if (signature_validates_with_key signature message public_key)
    "Signature validates with public key - not fraudulent";;
  reject_if (2 <? similarity signature message public_key)
    "Signature shows suspicious similarity patterns - may be intentionally malformed".

Definition validate_signature_fraud (now : Z) (p : FraudProof) : textR unit :=
  let witness := witness_data (evidence p) in
  reject_if (len witness <? 96) "Insufficient witness data for signature fraud proof";;
  let signature := field witness 0 64 in
  let message := field witness 64 32 in
  check_signature_shape signature message;;
  public_key ← ok_or (additional_evidence (evidence p) !! "public_key"%string)
    "Public key required for signature fraud validation"%string;
  check_fraud_key signature message public_key;;
  on_evidence p "federation_member_info" (fun data =>
    if len data <? 32 then mret tt else
    reject_if (all_zero (field data 0 32)) "Invalid federation member ID (all zeros)";;
    on_evidence p "operation_context" (fun context => reject_if (len context <? 32) "Invalid operation context"));;
  on_evidence p "signature_timestamp" (fun data =>
    reject_if ((len data =? 8) && (from_le_bytes data <? wrap64 (now - 86400)))
      "Signature is too old (potential replay attack)");;
  reject_if (proof_challenge_bond p =? 0) "Challenge bond must be greater than zero";;
  reject_if (response_deadline p =? 0) "Missing response deadline";;
  reject_if (len (fraudulent_operation (evidence p)) <? 32) "Fraudulent operation must contain signature evidence".

End Fraud.

(** * VM fraud *)

Definition check_vm_type (p : FraudProof) (vm_type : Z) : textR unit :=
  if vm_type =? 0 then
    on_evidence p "gas_limit" (fun data =>
      if negb (len data =? 8) then mret tt else
      reject_if (from_le_bytes data =? 0) "EVM gas limit cannot be zero";;
      reject_if (30000000 <? from_le_bytes data) "EVM gas limit exceeds maximum allowed")
  else if vm_type =? 1 then
    reject_if (1000000 <? len (fraudulent_operation (evidence p))) "WASM bytecode exceeds size limit"
  else Err "Unsupported VM type"%string.

Definition check_gas_used (data : bytes) : textR unit :=
  reject_if (negb (len data =? 8)) "Invalid gas used data format";;
  reject_if (from_le_bytes data =? 0) "Gas used cannot be zero for VM execution";;
  reject_if (100000000 <? from_le_bytes data) "Gas usage appears excessive".

Definition check_trace (data : bytes) : textR unit :=
  if len data =? 0 then mret tt else
  reject_if (negb (len data mod 32 =? 0)) "Execution trace data must be multiple of 32 bytes";;
  reject_if (10000 <? len data / 32) "Execution trace too long";;
  reject_if (len data / 32 / 10 <? len (filter (fun c => all_zero c || all_ff c = true) (chunks 32 data)))
    "Execution trace contains too many invalid patterns".

(** The most frequent chunk of 16 bytes: how often it occurs. *)
Definition max_repeats (bytecode : bytes) : Z :=
  let whole := filter (fun c => length c = 16%nat) (chunks 16 bytecode) in
  foldr Z.max 0 ((fun c => len (filter (fun d => d = c) whole)) <$> whole).

Definition anomaly_score (bytecode : bytes) : Z :=
  let zeros := ratio (count_zeros bytecode) (len bytecode) in
  (if f64_gt zeros (f64_lit 9 10) then 2 else if f64_gt zeros (f64_lit 7 10) then 1 else 0) +
  len (filter (fun c => all_ff c = true) (full_chunks bytecode)) +
  (if len bytecode / 16 / 3 <? max_repeats bytecode then 1 else 0).

Definition check_state_diff (expected actual data : bytes) : textR unit :=
  reject_if (len data <? 64) "State diff too small for validation";;
  reject_if (negb (bool_decide (field data 0 32 = expected))) "State diff pre-state does not match expected result";;
  reject_if (negb (bool_decide (field data 32 32 = actual))) "State diff post-state does not match actual result".

Definition validate_vm_fraud (p : FraudProof) : textR unit :=
  let operation := fraudulent_operation (evidence p) in
  let witness := witness_data (evidence p) in
  reject_if (len operation =? 0) "VM execution fraud proof requires operation data";;
  reject_if (len witness <? 64) "Insufficient witness data for VM execution validation";;
  let expected := field witness 0 32 in
  let actual := field witness 32 32 in
  reject_if (bool_decide (expected = actual)) "VM execution fraud requires different expected and actual results";;
  reject_if (all_zero expected) "Expected result hash cannot be all zeros";;
  reject_if (all_zero actual) "Actual result hash cannot be all zeros";;
  reject_if (len operation <? 128) "Operation data too small for VM execution evidence";;
  vm ← ok_or (additional_evidence (evidence p) !! "vm_type"%string) "VM type must be specified"%string;
  reject_if (negb (len vm =? 1)) "Invalid VM type specification (must be 1 byte)";;
  check_vm_type p (byte_at vm 0);;
  on_evidence p "gas_used" check_gas_used;;
  on_evidence p "execution_trace" check_trace;;
  reject_if (3 <=? anomaly_score (take 1000 operation))
    "VM execution contains anomalous patterns indicating potential fraud";;
  on_evidence p "state_diff" (check_state_diff expected actual);;
  reject_if (response_deadline p =? 0) "Missing response deadline for VM fraud proof";;
  reject_if (proof_challenge_bond p =? 0) "Challenge bond must be greater than zero".

(** * Blocks *)

Section Blocks.
Context `{Primitives} `{SidechainCodec} `{BLS}.

Definition add_trusted_header (header : BlockHeader) : pvM unit :=
  h ← lift (header_hash header);
  modify (fun s => s <| trusted_headers ::= <[h := header]> |>).

Definition validate_fraud_proof (c : ProofValidationConfig) (now : Z) (p : FraudProof) : textR unit :=
  reject_if (len (pre_state (evidence p)) =? 0) "Pre-state cannot be empty";;
  reject_if (len (post_state (evidence p)) =? 0) "Post-state cannot be empty";;
  reject_if (len (fraudulent_operation (evidence p)) =? 0) "Fraudulent operation cannot be empty";;
  reject_if (proof_challenge_bond p =? 0) "Challenge bond must be greater than zero";;
  match fraud_type p with
  | InvalidStateTransition => validate_state_transition_fraud now p
  | DoubleSpending => validate_double_spending_fraud now p
  | InvalidCrossChainTx => validate_cross_chain_fraud c now p
  | UnauthorizedSignature => validate_signature_fraud now p
  | InvalidVMExecution => validate_vm_fraud p
  end.

Definition pv_validate_block_header (s : SidechainProofValidator) (now : Z) (h : SidechainBlockHeader) : textR unit :=
  reject_if (sc_version h =? 0) "Invalid header version";;
  reject_if ((sc_height h =? 0) && negb (bool_decide (sc_previous_block_hash h = replicate 32 0)))
    "Genesis block must have zero previous hash";;
  reject_if ((0 <? sc_height h) && bool_decide (sc_previous_block_hash h = replicate 32 0))
    "Non-genesis block must have valid previous hash";;
  reject_if (u64_add now 7200 <? sc_timestamp h) "Block timestamp too far in future";;
  reject_if ((0 <? sc_mainchain_anchor_height h) &&
    negb (bool_decide (is_Some (trusted_headers s !! sc_mainchain_anchor_hash h))) && strict_validation (pv_config s))
    "Mainchain anchor not in trusted headers".

Definition validate_vm_execution (d : VMExecutionData) : textR unit :=
  reject_if (len (bytecode d) =? 0) "VM bytecode cannot be empty";;
  reject_if (gas_limit d =? 0) "Gas limit must be greater than zero";;
  match vm_type d with
  | EVM => reject_if (30000000 <? gas_limit d) "EVM gas limit too high"
  | WASM => reject_if (1000000 <? len (bytecode d)) "WASM bytecode too large"
  end.

Definition validate_sidechain_transaction (tx : SidechainTransaction) : textR unit :=
  reject_if (len (sc_inputs tx) =? 0) "Transaction must have inputs";;
  reject_if (len (sc_outputs tx) =? 0) "Transaction must have outputs";;
  match vm_data tx with
  | Some d => within "VM execution validation failed: " (validate_vm_execution d)
  | None => mret tt
  end.

(** The hash that the loop computes; nothing is compared with it. *)
Definition merkle_path_hash (proof : CrossChainProof) : Hash :=
  snd (foldl (fun '(i, h) sibling => (i + 1, blake3 (if i mod 2 =? 0 then h ++ sibling else sibling ++ h)))
    (0, blake3 (transaction_data proof)) (merkle_proof proof)).

Definition verify_merkle_proof (proof : CrossChainProof) : textR unit :=
  reject_if (len (merkle_proof proof) =? 0) "Empty merkle proof";;
  let _ := merkle_path_hash proof in
  mret tt.

Definition validate_cross_chain_proof (c : ProofValidationConfig) (proof : CrossChainProof) : textR unit :=
  reject_if (len (merkle_proof proof) =? 0) "Merkle proof cannot be empty";;
  reject_if (max_merkle_depth c <? len (merkle_proof proof)) "Merkle proof too deep";;
  reject_if (len (proof_block_header proof) =? 0) "Block header cannot be empty";;
  reject_if (len (transaction_data proof) =? 0) "Transaction data cannot be empty";;
  within "Merkle proof verification failed: " (verify_merkle_proof proof).

Definition validate_federation_signature (s : SidechainProofValidator) (sig : FederationSignature)
    (message : Hash) : textR unit :=
  reject_if (len (fed_signature sig) =? 0) "Signature cannot be empty";;
  reject_if (len (signer_bitmap sig) =? 0) "Signer bitmap cannot be empty";;
  reject_if (fed_threshold sig =? 0) "Threshold must be greater than zero";;
  reject_if (negb (bool_decide (message = message_hash sig))) "Message hash mismatch";;
  match federation_keys s !! fed_epoch sig with
  | Some keys =>
      verify_federation_signature_with_public_keys keys sig message (min_federation_signatures (pv_config s))
  | None => reject_if (strict_validation (pv_config s)) "No federation keys for epoch"
  end.

Definition pv_validate_cross_chain_transaction (s : SidechainProofValidator) (tx : CrossChainTransaction) :
    textR unit :=
  reject_if (cc_amount tx =? 0) "Cross-chain amount cannot be zero";;
  reject_if (len (cc_recipient_address tx) =? 0) "Recipient address cannot be empty";;
  within "Cross-chain proof validation failed: " (validate_cross_chain_proof (pv_config s) (cc_proof tx));;
  reject_if (len (cc_federation_signatures tx) =? 0) "Cross-chain transaction must have federation signatures";;
  let tx_hash := CrossChainTransaction_hash tx in
  check_list (fun sig => within "Federation signature validation failed: "
    (validate_federation_signature s sig tx_hash)) (cc_federation_signatures tx);;
  let total := foldl (fun n sig => wrap32 (n + count_signers sig)) 0 (cc_federation_signatures tx) in
  reject_if (total <? min_federation_signatures (pv_config s)) "Insufficient federation signatures".

Definition validate_sidechain_block_internal (s : SidechainProofValidator) (now : Z) (b : SidechainBlock) :
    textR unit :=
  within "Header validation failed: " (pv_validate_block_header s now (sc_header b));;
  check_list (fun tx => within "Transaction validation failed: " (validate_sidechain_transaction tx))
    (sc_transactions b);;
  check_list (fun tx => within "Cross-chain transaction validation failed: "
    (pv_validate_cross_chain_transaction s tx)) (cross_chain_transactions b);;
  check_list (fun p => within "Fraud proof validation failed: " (validate_fraud_proof (pv_config s) now p))
    (fraud_proofs b);;
  match federation_signature b with
  | Some sig => within "Federation signature validation failed: "
      (validate_federation_signature s sig (SidechainBlockHeader_hash (sc_header b)))
  | None => reject_if (strict_validation (pv_config s)) "Missing federation signature in strict mode"
  end.

Definition update_validation_stats (r : ProofValidationResult) (time : f64) (st : ValidationStats) :
    ValidationStats :=
  let st := match r with
            | PV_Valid => st <| successful_validations ::= u64_add 1 |>
            | PV_Invalid _ | PV_Error _ => st <| failed_validations ::= u64_add 1 |>
            | PV_Timeout => st <| timeout_validations ::= u64_add 1 |>
            end in
  let total := f64_of_Z (total_validations st) in
  st <| average_validation_time_ms :=
    f64_div (f64_add (f64_mul (average_validation_time_ms st) (f64_sub total (f64_of_Z 1))) time) total |>.

Definition pv_validate_sidechain_block (now elapsed : Z) (b : SidechainBlock) : pvM ProofValidationResult :=
  modify (fun s => s <| validation_stats ::= fun st => st <| total_validations ::= u64_add 1 |> |>);;
  s ← gets Datatypes.id;
  let finish r := modify (fun s => s <| validation_stats ::= update_validation_stats r (f64_of_Z elapsed) |>);; mret r in
  match validate_sidechain_block_internal s now b with
  | Ok _ => finish PV_Valid
  | Err reason => finish (PV_Invalid reason)
  | Panic | OutOfFuel => panic
  end.

(** * Plain signatures *)

Definition validate_masternode_signature (public_key message signature : bytes) : textR bool :=
  pk ← ok_or (public_key_from_bytes public_key) "Invalid public key"%string;
  sig ← ok_or (signature_from_bytes signature) "Invalid signature"%string;
  mret (ed25519_verify pk message sig).

Fixpoint count_valid_signatures (keys signatures : list bytes) (message : bytes) : textR Z :=
  match keys, signatures with
  | k :: keys, sig :: signatures =>
      ok ← validate_masternode_signature k message sig;
      n ← count_valid_signatures keys signatures message;
      mret (n + Z.b2z ok)
  | _, _ => mret 0
  end.

Definition validate_threshold_signature (keys signatures : list bytes) (message : bytes) (threshold : Z) :
    textR bool :=
  if negb (len keys =? len signatures) then Err "Number of public keys and signatures must match"%string else
  if len keys <? threshold then Err "Not enough signatures provided"%string else
  n ← count_valid_signatures keys signatures message;
  mret (threshold <=? n).

End Blocks.

(** * What acceptance means *)

Lemma reject_if_ok b reason u : reject_if b reason = Ok u -> b = false.
Proof. by destruct b. Qed.

Lemma reject_if_then {A} b reason (k : textR A) x :
  (reject_if b reason;; k) = Ok x -> b = false /\ k = Ok x.
Proof. by destruct b. Qed.

Lemma within_ok context r u : within context r = Ok u -> r = Ok u.
Proof. by destruct r. Qed.

Lemma within_then {A} context r (k : textR A) x :
  (within context r;; k) = Ok x -> r = Ok tt /\ k = Ok x.
Proof. by destruct r as [[]| | |]. Qed.

Lemma unit_then {A} (r : textR unit) (k : textR A) x : (r;; k) = Ok x -> r = Ok tt /\ k = Ok x.
Proof. by destruct r as [[]| | |]. Qed.

Lemma check_list_ok {A} (f : A -> textR unit) l : check_list f l = Ok tt <-> Forall (fun x => f x = Ok tt) l.
Proof.
  induction l as [|x l IH]; cbn [check_list]; [by rewrite Forall_nil|]. rewrite Forall_cons, <- IH. split.
  - by intros [? ?]%unit_then.
  - by intros [-> ?].
Qed.

(** Take the checks before the last one off an accepting run. *)
Ltac checks H :=
  repeat match type of H with
  | (reject_if _ _;; _) = Ok _ => apply reject_if_then in H; let E := fresh "Ec" in destruct H as [E H]
  | (within _ _;; _) = Ok _ => apply within_then in H; let E := fresh "Ec" in destruct H as [E H]
  | (_;; _) = Ok _ => apply unit_then in H; let E := fresh "Ec" in destruct H as [E H]
  end.

Section Soundness.
Context `{Primitives} `{SidechainCodec} `{BLS}.

Lemma federation_signature_sound s sig message :
  strict_validation (pv_config s) = true -> validate_federation_signature s sig message = Ok tt ->
  message_hash sig = message /\ exists keys, federation_keys s !! fed_epoch sig = Some keys /\
    verify_federation_signature_with_public_keys keys sig message (min_federation_signatures (pv_config s)) = Ok tt.
Proof.
  intros Hs Hv. unfold validate_federation_signature in Hv. checks Hv.
  apply negb_false_iff, bool_decide_eq_true in Ec2. split; [done|].
  destruct (federation_keys s !! fed_epoch sig) as [keys|]; [eauto|]. by rewrite Hs in Hv.
Qed.

(** In strict mode a valid block carries a federation signature that covers the
    hash of its header and that the check of the code accepts for the keys of
    its epoch (one member may be enough, [first_member_signs_alone]); an anchor
    in the main chain is a trusted header; transactions have inputs and
    outputs.  A cross-chain transaction in it would need a signature naming the
    hash of the transaction that contains the signature. *)
Theorem valid_block_sound s now b :
  strict_validation (pv_config s) = true -> validate_sidechain_block_internal s now b = Ok tt ->
  let signed sig message := message_hash sig = message /\
    exists keys, federation_keys s !! fed_epoch sig = Some keys /\
      verify_federation_signature_with_public_keys keys sig message (min_federation_signatures (pv_config s)) = Ok tt in
  (exists sig, federation_signature b = Some sig /\ signed sig (SidechainBlock_hash b)) /\
  Forall (fun tx => cc_amount tx <> 0 /\ cc_federation_signatures tx <> [] /\
    Forall (fun sig => signed sig (CrossChainTransaction_hash tx)) (cc_federation_signatures tx))
    (cross_chain_transactions b) /\
  (0 < sc_mainchain_anchor_height (sc_header b) ->
     is_Some (trusted_headers s !! sc_mainchain_anchor_hash (sc_header b))) /\
  Forall (fun tx => sc_inputs tx <> [] /\ sc_outputs tx <> []) (sc_transactions b).
Proof.
  intros Hs Hv signed. unfold validate_sidechain_block_internal in Hv. checks Hv. split; [|split; [|split]].
  - destruct (federation_signature b) as [sig|]; [|by rewrite Hs in Hv]. exists sig. split; [done|].
    apply federation_signature_sound; [done|]. by apply within_ok in Hv.
  - apply check_list_ok in Ec1. apply (Forall_impl _ _ _ Ec1). clear Ec Ec0 Ec1 Ec2 Hv. intros tx Htx.
    apply within_ok in Htx. unfold pv_validate_cross_chain_transaction in Htx. checks Htx. split_and!.
    + intros E. by rewrite E in Ec.
    + intros E. by rewrite E in Ec2.
    + apply check_list_ok in Ec3. apply (Forall_impl _ _ _ Ec3). intros sig Hsig.
      apply federation_signature_sound; [done|]. by apply within_ok in Hsig.
  - unfold pv_validate_block_header in Ec. checks Ec. intros Ha. apply reject_if_ok in Ec.
    rewrite Hs, (proj2 (Z.ltb_lt _ _) Ha), andb_true_r in Ec. cbn in Ec.
    by apply negb_false_iff, bool_decide_eq_true in Ec.
  - apply check_list_ok in Ec0. apply (Forall_impl _ _ _ Ec0). intros tx Htx. apply within_ok in Htx.
    unfold validate_sidechain_transaction in Htx. checks Htx. split; intros E; by rewrite E in *.
Qed.

(** Merkle proofs are not checked: a cross-chain proof is accepted exactly when
    its parts are not empty and its path is not longer than the limit, whatever
    they hold. *)
Theorem merkle_proof_unchecked c p :
  validate_cross_chain_proof c p = Ok tt <->
  (merkle_proof p <> [] /\ len (merkle_proof p) <= max_merkle_depth c /\
   proof_block_header p <> [] /\ transaction_data p <> []).
Proof.
  assert (Hl : forall {A} (l : list A), (len l =? 0) = true <-> l = []).
  { intros A l. rewrite Z.eqb_eq. unfold len. destruct l; cbn; split; try done; lia. }
  unfold validate_cross_chain_proof, verify_merkle_proof. split.
  - intros Hv. checks Hv. apply Z.ltb_ge in Ec0. split_and!; try done; intros E; apply Hl in E; congruence.
  - intros (Hm & Hd & Hb & Ht). apply Z.ltb_ge in Hd. rewrite Hd.
    rewrite (not_true_is_false (len (merkle_proof p) =? 0)) by (by rewrite Hl).
    rewrite (not_true_is_false (len (proof_block_header p) =? 0)) by (by rewrite Hl).
    rewrite (not_true_is_false (len (transaction_data p) =? 0)) by (by rewrite Hl). reflexivity.
Qed.

(** The evidence test is inverted: a fraud proof is accepted only when the
    operation it accuses breaks none of the rules that the validator knows.  An
    excessive fee, an invalid gas limit or a negative amount is a reason to reject
    the proof. *)
Theorem fraud_evidence_inverted c now p :
  validate_fraud_proof c now p = Ok tt ->
  let op := fraudulent_operation (evidence p) in
  match fraud_type p with
  | InvalidStateTransition =>
      validate_operation (number_at op 0 4) (pre_state (evidence p)) (post_state (evidence p)) op = Ok tt /\
      (number_at op 0 4 = 1 -> number_at op 12 8 <= 1000000000) /\
      (number_at op 0 4 = 3 -> number_at op 20 8 <> 0 /\ number_at op 20 8 <= 100000000) /\
      (number_at op 0 4 = 4 -> 0 < as_i64 (number_at op 28 8) <= 1000000000000000000)
  | InvalidVMExecution => anomaly_score (take 1000 op) < 3
  | _ => True
  end.
Proof.
  intros Hv op. unfold validate_fraud_proof in Hv. checks Hv. destruct (fraud_type p); try done.
  - unfold validate_state_transition_fraud in Hv. checks Hv. fold op in Ec4. split; [done|].
    unfold validate_operation in Ec4. split; [|split]; intros E; rewrite E in Ec4; cbn in Ec4.
    + unfold validate_transaction_state_transition in Ec4. checks Ec4. apply reject_if_ok in Ec4. lia.
    + unfold validate_contract_execution_transition in Ec4. checks Ec4.
      apply reject_if_ok, orb_false_iff in Ec4 as [E1 E2]. lia.
    + unfold validate_asset_transfer_transition in Ec4. checks Ec4.
      apply reject_if_ok, orb_false_iff in Ec4 as [E1 E2]. lia.
  - unfold validate_vm_fraud in Hv. repeat first [progress checks Hv | apply outcome_bind_inv in Hv as (vm & _ & Hv)].
    unfold op. lia.
Qed.

End Soundness.

(** The order of the curve as a number. *)
Definition ED25519_L : Z := from_le_bytes (reverse ED25519_ORDER).

(** The bound on [S] is misread: Ed25519 scalars have their least significant
    byte first, and the comparison takes the bytes as they come.  What decides is
    the first byte: scalars far below the order are rejected, and scalars above it
    accepted. *)
Theorem scalar_bound_misread :
  (forall x rest, length rest = 31%nat -> 0x10 < x -> exceeds_order (x :: rest) = true) /\
  (forall x rest, length rest = 31%nat -> x < 0x10 -> exceeds_order (x :: rest) = false) /\
  from_le_bytes (17 :: replicate 31 0) < ED25519_L < from_le_bytes (replicate 31 0 ++ [255]).
Proof.
  split; [|split]; [| |vm_compute; split; reflexivity]; intros x rest Hl Hx; unfold exceeds_order, u256_from_bytes;
    cbn [length]; rewrite Hl; cbn [Nat.min take app bytes_le length ED25519_ORDER].
  - by rewrite (proj2 (Z.ltb_lt 0x10 x)).
  - by rewrite (proj2 (Z.ltb_ge 0x10 x)), (proj2 (Z.eqb_neq 0x10 x)) by lia.
Qed.

Create HintDb no_panic.

Section Counting.
Context `{Primitives} `{SidechainCodec} `{BLS}.

Definition stats_add_up (s : SidechainProofValidator) : Prop :=
  let st := validation_stats s in
  total_validations st = wrap64 (successful_validations st + failed_validations st) /\ timeout_validations st = 0.

Lemma stats_count_one r time st :
  total_validations st = wrap64 (1 + (successful_validations st + failed_validations st)) ->
  timeout_validations st = 0 -> r <> PV_Timeout ->
  let st' := update_validation_stats r time st in
  total_validations st' = wrap64 (successful_validations st' + failed_validations st') /\ timeout_validations st' = 0.
Proof.
  intros Ht H0' Hr. destruct st as [t ok ko to avg]. cbn in *. subst.
  assert (forall a b, wrap64 (1 + (a + b)) = wrap64 (u64_add 1 a + b)) as Ha.
  { intros a b. unfold u64_add. rewrite (Z.add_comm (wrap64 _) b), wrap64_pull. f_equal. lia. }
  destruct r; try done; cbn; (split; [|done]);
    first [apply Ha | rewrite (Z.add_comm ok ko), Ha; f_equal; lia].
Qed.

Inductive pv_op : Type :=
| OpValidate (now elapsed : Z) (b : SidechainBlock)
| OpKeys (epoch : Z) (keys : list bytes)
| OpTrust (h : BlockHeader)
| OpClear.

Definition pv_step (s : SidechainProofValidator) (op : pv_op) : SidechainProofValidator :=
  match op with
  | OpValidate now elapsed b => fst (pv_validate_sidechain_block now elapsed b s)
  | OpKeys epoch keys => update_federation_keys epoch keys s
  | OpTrust h => fst (add_trusted_header h s)
  | OpClear => clear_stats s
  end.

(** The verification of a federation signature does not panic, although it takes
    the first of the signers' keys with an index. *)
Lemma collect_signers_keys bitmap keys index count pks :
  collect_signers bitmap keys index = Ok (count, pks) -> count = len pks.
Proof.
  revert index count pks. induction keys as [|k keys IH]; intros index count pks; cbn [collect_signers].
  { by intros [= <- <-]. }
  destruct (is_signer_selected bitmap index); [|apply IH].
  intros (pk & _ & E)%outcome_bind_inv. apply outcome_bind_inv in E as ([c l] & E & [= <- <-]).
  rewrite len_cons. apply IH in E. lia.
Qed.

Lemma collect_signers_total bitmap keys index :
  match collect_signers bitmap keys index with Ok _ | Err _ => True | _ => False end.
Proof.
  revert index. induction keys as [|k keys IH]; intros index; cbn [collect_signers]; [done|].
  specialize (IH (index + 1)). destruct (is_signer_selected bitmap index); [|done].
  unfold parse_public_key. destruct (negb _); [done|]. destruct (bls_public_key_from_bytes k); [|done]. cbn.
  by destruct (collect_signers bitmap keys (index + 1)) as [[]| | |].
Qed.

Definition no_panic {A} (r : textR A) : Prop := match r with Ok _ | Err _ => True | _ => False end.

Lemma no_panic_bind {A B} (r : textR A) (f : A -> textR B) :
  no_panic r -> (forall a, no_panic (f a)) -> no_panic (r ≫= f).
Proof. destruct r; cbn; auto. Qed.

Lemma no_panic_reject b reason : no_panic (reject_if b reason).
Proof. by destruct b. Qed.

Lemma no_panic_within context r : no_panic r -> no_panic (within context r).
Proof. by destruct r. Qed.

Lemma no_panic_list {A} (f : A -> textR unit) l : (forall x, no_panic (f x)) -> no_panic (check_list f l).
Proof. intros Hf. induction l; cbn [check_list]; [done|]. apply no_panic_bind; auto. Qed.

Lemma no_panic_evidence p key f : (forall d, no_panic (f d)) -> no_panic (on_evidence p key f).
Proof. intros Hf. unfold on_evidence. destruct (_ !! key); [auto|done]. Qed.

Lemma no_panic_ok_or {A} (o : option A) e : no_panic (ok_or o e).
Proof. by destruct o. Qed.

Lemma no_panic_federation keys sig message threshold :
  no_panic (verify_federation_signature_with_public_keys keys sig message threshold).
Proof.
  unfold verify_federation_signature_with_public_keys. do 5 (destruct (_ : bool); [done|]).
  apply no_panic_bind.
  - unfold aggregate_signer_public_keys. destruct (len _ =? 0); [done|]. apply no_panic_bind.
    + unfold ensure_no_unknown_signers. by destruct (existsb _ _).
    + intros _. pose proof (collect_signers_total (signer_bitmap sig) keys 0) as Ht.
      destruct (collect_signers _ _ _) as [[n pks]| | |] eqn:E; try done. apply collect_signers_keys in E. cbn.
      destruct (Z.eqb_spec (wrap32 n) 0) as [|Hn]; [done|]. destruct pks; [|done]. by subst n.
  - intros [pk n]. destruct (n <? _); [done|]. unfold parse_signature. destruct (negb _); [done|].
    destruct (bls_signature_from_bytes _); [|done]. cbn. by destruct (bls_verify _ _ _).
Qed.

#[local] Hint Resolve no_panic_bind no_panic_reject no_panic_within no_panic_list no_panic_evidence no_panic_ok_or
  no_panic_federation : no_panic.

Ltac calm :=
  repeat match goal with
  | |- no_panic (_ ≫= _) => apply no_panic_bind; [|intros ?]
  | |- no_panic (let _ := _ in _) => intros ?
  | |- no_panic (within _ _) => apply no_panic_within
  | |- no_panic (check_list _ _) => apply no_panic_list; intros ?
  | |- no_panic (on_evidence _ _ _) => apply no_panic_evidence; intros ?
  | |- no_panic (if ?b then _ else _) => destruct b
  | |- no_panic (match ?x with _ => _ end) => destruct x
  | |- no_panic (mret _) => exact I
  | |- no_panic (Err _) => exact I
  | |- no_panic _ => solve [eauto with no_panic]
  end.

Lemma no_panic_operation t pre post op : no_panic (validate_operation t pre post op).
Proof.
  unfold validate_operation, validate_transaction_state_transition, validate_contract_deployment_transition,
    validate_contract_execution_transition, validate_asset_transfer_transition, validate_governance_transition,
    validate_generic_state_transition.
  destruct (t =? 1); [calm|]. destruct (t =? 2); [calm|]. destruct (t =? 3); [calm|]. destruct (t =? 4); [calm|].
  destruct (t =? 5); calm.
Qed.

#[local] Hint Resolve no_panic_operation : no_panic.

Lemma no_panic_fraud c now p : no_panic (validate_fraud_proof c now p).
Proof.
  unfold validate_fraud_proof. do 4 (apply no_panic_bind; [apply no_panic_reject|intros _]). destruct (fraud_type p).
  - unfold validate_state_transition_fraud, check_transition_shape, validate_balance_conservation. calm.
  - unfold validate_double_spending_fraud. calm.
  - unfold validate_cross_chain_fraud, validate_merkle_proof_data. calm.
  - unfold validate_signature_fraud, check_signature_shape, check_fraud_key. calm.
  - unfold validate_vm_fraud, check_vm_type. calm; unfold check_gas_used, check_trace, check_state_diff; calm.
Qed.

Lemma no_panic_block s now b : no_panic (validate_sidechain_block_internal s now b).
Proof.
  assert (Hf : forall sig m, no_panic (validate_federation_signature s sig m))
    by (intros; unfold validate_federation_signature; calm).
  unfold validate_sidechain_block_internal. calm; auto using no_panic_fraud;
    unfold pv_validate_block_header, validate_sidechain_transaction, validate_vm_execution,
      pv_validate_cross_chain_transaction, validate_cross_chain_proof, verify_merkle_proof; calm; auto.
Qed.

(** Every validation is counted once: a validation returns, never panics and never
    times out; along every sequence of operations the validations are the
    successful and the failed ones (counters modulo 2^64). *)
Theorem validations_counted c ops :
  let s := foldl pv_step (SidechainProofValidator_new c) ops in
  stats_add_up s /\
  forall now elapsed b, exists r, snd (pv_validate_sidechain_block now elapsed b s) = Ok r /\
    (r = PV_Valid <-> validate_sidechain_block_internal s now b = Ok tt).
Proof.
  intros s. split.
  - apply (foldl_inv stats_add_up); [done|]. intros st op Hst. destruct op as [now elapsed b|epoch keys|h|]; cbn [pv_step].
    + unfold pv_validate_sidechain_block. rewrite stM_bind_run. cbn [modify]. rewrite stM_bind_run.
      cbn [gets Datatypes.id]. set (s1 := st <| validation_stats ::= _ |>).
      assert (Hs1 : total_validations (validation_stats s1) = wrap64 (1 + (successful_validations (validation_stats s1) +
          failed_validations (validation_stats s1))) /\ timeout_validations (validation_stats s1) = 0).
      { destruct Hst as [Ht H0']. unfold s1. destruct st as [? ? ? []]. cbn in *. split; [|done]. subst.
        unfold u64_add. apply wrap64_pull. }
      destruct Hs1 as [Ht1 H01]. pose proof (no_panic_block s1 now b) as Hn.
      destruct (validate_sidechain_block_internal s1 now b) as [u|e| |]; try done;
        [set (r := PV_Valid)|set (r := PV_Invalid e)];
        change (stats_add_up (s1 <| validation_stats ::= update_validation_stats r (f64_of_Z elapsed) |>));
        destruct s1; by apply stats_count_one.
    + by destruct st.
    + unfold add_trusted_header. rewrite stM_bind_run. cbn [lift]. unfold header_hash.
      destruct (bincode_header h); cbn; [|done]. by destruct st.
    + by destruct st.
  - intros now elapsed b. unfold pv_validate_sidechain_block. rewrite stM_bind_run. cbn [modify]. rewrite stM_bind_run.
    cbn [gets Datatypes.id]. set (s1 := s <| validation_stats ::= _ |>).
    assert (E : validate_sidechain_block_internal s1 now b = validate_sidechain_block_internal s now b)
      by (unfold s1; by destruct s).
    rewrite E. pose proof (no_panic_block s now b) as Hn. destruct (validate_sidechain_block_internal s now b) as [[]|e| |]; try done.
    + by exists PV_Valid.
    + by exists (PV_Invalid e).
Qed.

(** * Thresholds of plain signatures *)

Lemma count_valid_repeat k sig message n :
  validate_masternode_signature k message sig = Ok true ->
  count_valid_signatures (replicate n k) (replicate n sig) message = Ok (Z.of_nat n).
Proof.
  intros Hv. induction n as [|n IH]; [done|]. cbn [replicate count_valid_signatures]. rewrite Hv. cbn [mbind outcome_bind].
  rewrite IH. cbn. f_equal. lia.
Qed.

(** One signer meets every threshold: keys are not required to be distinct, so a
    signature repeated as often as needed is accepted. *)
Theorem one_key_meets_threshold k sig message n :
  validate_masternode_signature k message sig = Ok true ->
  validate_threshold_signature (replicate n k) (replicate n sig) message (Z.of_nat n) = Ok true.
Proof.
  intros Hv. unfold validate_threshold_signature. unfold len. rewrite !length_replicate, Z.eqb_refl, Z.ltb_irrefl. cbn.
  rewrite (count_valid_repeat k sig message n Hv). cbn. by rewrite Z.leb_refl.
Qed.

End Counting.

(** * Examples *)

Definition sample_header : SidechainBlockHeader :=
  SidechainBlockHeader_new 1000 (replicate 32 1) (replicate 32 2) (replicate 32 3) (replicate 32 4) 1 sample_chain 0
    (replicate 32 5) 1.

Definition header_message : Hash := SidechainBlockHeader_hash (H0 := sample_sidechain_codec) sample_header.

(** Two signers, so that the default threshold is met. *)
Definition sample_validator_pv : SidechainProofValidator :=
  update_federation_keys 1 [sample_key 1; sample_key 2] (SidechainProofValidator_new ProofValidationConfig_default).

Definition signed_block : SidechainBlock :=
  mkSidechainBlock sample_header [] [] []
    (Some (mkFederationSignature (sample_key 1 ++ sample_key 1) [192] 2 1 header_message)).

Lemma valid_block_sound_witness :
  validate_sidechain_block_internal (H0 := sample_sidechain_codec) (H1 := sample_bls) sample_validator_pv 1000 signed_block = Ok tt /\
  exists sig, federation_signature signed_block = Some sig /\ message_hash sig = header_message.
Proof.
  assert (E : validate_sidechain_block_internal (H0 := sample_sidechain_codec) (H1 := sample_bls) sample_validator_pv 1000
    signed_block = Ok tt) by (vm_compute; reflexivity).
  split; [exact E|].
  destruct (valid_block_sound (H0 := sample_sidechain_codec) (H1 := sample_bls) sample_validator_pv 1000 signed_block
    eq_refl E) as [(sig & Hs & Hm & _) _].
  exists sig. split; [exact Hs|exact Hm].
Defined.

Definition fee_operation : bytes := to_le_bytes 4 1 ++ replicate 8 9 ++ to_le_bytes 8 1000 ++ replicate 84 7.
Definition fee_pre : bytes := to_le_bytes 4 1 ++ to_le_bytes 8 50 ++ replicate 40 3.
Definition fee_post : bytes := to_le_bytes 4 1 ++ to_le_bytes 8 60 ++ replicate 39 3 ++ [4].

(** An accepted accusation of a transaction with a fee of 1000 units. *)
Definition fee_proof : FraudProof :=
  mkFraudProof InvalidStateTransition 1 None
    (mkFraudEvidence fee_pre fee_post fee_operation (blake3 fee_pre ++ blake3 fee_post ++ blake3 fee_operation) ∅) [9] 5 100.

Lemma fraud_evidence_inverted_witness :
  validate_fraud_proof ProofValidationConfig_default 1000 fee_proof = Ok tt /\
  number_at fee_operation 12 8 <= 1000000000.
Proof.
  assert (E : validate_fraud_proof ProofValidationConfig_default 1000 fee_proof = Ok tt) by (vm_compute; reflexivity).
  split; [exact E|].
  apply (proj1 (proj2 (fraud_evidence_inverted ProofValidationConfig_default 1000 fee_proof E))). vm_compute. reflexivity.
Defined.

Lemma one_key_meets_threshold_witness :
  validate_threshold_signature (replicate 5 (sample_hash 32 1 [1])) (replicate 5 (sample_hash 32 1 [1] ++ sample_hash 32 1 [2]))
    [2] 5 = Ok true.
Proof. apply (one_key_meets_threshold _ _ _ 5). vm_compute. reflexivity. Defined.
