(* ===== verification/SidechainConsensus.v ===== *)
(** The consensus engine of a sidechain, and the methods of the node that drive it
    (src/rusty-core/src/sidechain/sidechain_consensus.rs, and the sidechain methods
    of src/rusty-core/src/consensus/blockchain.rs).

    The engine shares its six components behind [std::sync::Mutex]es.  The locks
    that the running thread holds are part of the state: taking one of them again
    does not return, which is the outcome [Panic] here.  Locks are released when
    the guard's scope is left, also by an error.  Times, the duration of a
    validation, random ids and the order of hash maps are arguments. *)

From Stdlib Require Import ZArith Lia List.
From stdpp Require Import base option list numbers strings gmap.
From coqutil Require Import Datatypes.RecordSetters.
From S2P Require Import Prelude Types Errors Transaction SamplePrimitives F64 SidechainTypes Federation TwoWayPeg CrossChain.
From S2P Require Import FraudProofs ProofValidation.

Import TriangleBracketNotations.

#[local] Open Scope Z_scope.

(** * State *)

Inductive Lock : Type := LCommunication | LFederation | LValidator | LPeg | LFraud | LProof.

#[export] Instance Lock_eq_dec : EqDecision Lock.
Proof. solve_decision. Defined.

Record SidechainConsensus : Type := mkSidechainConsensus {
  cons_id : Hash;
  cons_communication : CrossChainCommunication;
  cons_federation : FederationIntegrator;
  cons_validator : MainchainValidator;
  cons_peg : TwoWayPegManager;
  cons_fraud : FraudProofManager;
  cons_proof : SidechainProofValidator;
  cons_height : Z;
  cons_tip : Hash;
  cons_held : list Lock;
}.

Definition SidechainConsensus_new (sidechain_id : Hash) : SidechainConsensus :=
  mkSidechainConsensus sidechain_id CrossChainCommunication_new FederationIntegrator_new (MainchainValidator_new 100)
    (TwoWayPegManager_new 6) (FraudProofManager_new FraudProofConfig_default)
    (SidechainProofValidator_new ProofValidationConfig_default) 0 (replicate 32 0) [].

Abbreviation consM := (stM SidechainConsensus string).

(** [let guard = self.l.lock().unwrap(); body] *)
Definition with_lock {A} (l : Lock) (body : consM A) : consM A := fun s =>
  if bool_decide (l ∈ cons_held s) then (s, Panic) else
  let '(s', r) := body (s <| cons_held ::= cons l |>) in
  (s' <| cons_held ::= tail |>, r).

(** [.map_err(|e| format!("..: {}", e))] *)
Definition context {A} (text : string) (m : consM A) : consM A := fun s =>
  let '(s', r) := m s in (s', map_err (String.append text) r).

(** A method of a component. *)
Definition on_part {S A} (get : SidechainConsensus -> S) (put : S -> SidechainConsensus -> SidechainConsensus)
    (m : stM S string A) : consM A := fun s =>
  let '(x, r) := m (get s) in (put x s, r).

Definition on_fraud {A} (m : fraudM A) : consM A :=
  on_part cons_fraud (fun x s => s <| cons_fraud := x |>) m.
Definition on_proof {A} (m : pvM A) : consM A :=
  on_part cons_proof (fun x s => s <| cons_proof := x |>) m.
Definition on_peg {A} (m : pegM A) : consM A :=
  on_part cons_peg (fun x s => s <| cons_peg := x |>) m.
Definition on_communication {A} (m : commM A) : consM A :=
  on_part cons_communication (fun x s => s <| cons_communication := x |>) m.

Definition initialize_with_federation (members : list MasternodeID) (threshold : Z) (keys : list bytes)
    (start_height : Z) : consM unit :=
  s ← gets Datatypes.id;
  with_lock LFederation (
    on_part cons_federation (fun x s => s <| cons_federation := x |>)
      (initialize_sidechain_federation (cons_id s) members threshold keys start_height 1000);;
    with_lock LProof (on_proof (modify (update_federation_keys 1 keys))));;
  with_lock LCommunication (on_communication (modify comm_with_federation_manager));;
  with_lock LPeg (on_peg (modify peg_with_federation_manager)).

(** * Parts of a block *)

Section Engine.
Context `{Primitives} `{SidechainCodec} `{MessageCodec} `{BLS}.

(** [send_message] and [process_message] lock the federation when they are
    configured with one and the message is signed. *)
Definition locks_federation (c : CrossChainCommunication) (m : CrossChainMessage) : bool :=
  comm_federation c && bool_decide (is_Some (msg_signature m)).

Definition maybe_lock {A} (b : bool) (l : Lock) (body : consM A) : consM A :=
  if b then with_lock l body else body.

Definition cons_send (m : CrossChainMessage) : consM unit :=
  s ← gets Datatypes.id;
  maybe_lock (locks_federation (cons_communication s) m) LFederation
    (on_communication (send_message (cons_federation s) m)).

Definition cons_process (m : CrossChainMessage) : consM unit :=
  s ← gets Datatypes.id;
  maybe_lock (locks_federation (cons_communication s) m) LFederation
    (lift (process_message (cons_federation s) (cons_communication s) m)).

(** [initiate_peg_in] and [initiate_peg_out] lock the federation when the peg
    manager is configured with one and there are signatures. *)
Definition peg_locks (p : TwoWayPegManager) (signatures : list FederationSignature) : bool :=
  negb (len signatures =? 0) && peg_federation p.

Definition signatures_over_id (fed : FederationIntegrator) (sidechain_id : Hash) (tx : CrossChainTransaction) : bool :=
  forallb (fun sig => fi_validate_federation_signature fed sidechain_id (fed_epoch sig) sig (cc_id tx))
    (cc_federation_signatures tx).

(** What the two handlers of peg transactions share: the peg manager and the
    federation are locked, the signatures are checked over the id of the
    transaction, and the request is started. *)
Definition handle_peg (refused failed : string) (sidechain : Hash) (tx : CrossChainTransaction)
    (start : FederationIntegrator -> pegM Hash) : consM unit :=
  with_lock LPeg (with_lock LFederation (
    s ← gets Datatypes.id;
    if negb (signatures_over_id (cons_federation s) sidechain tx) then throw refused else
    _ ← context failed
      (maybe_lock (peg_locks (cons_peg s) (cc_federation_signatures tx)) LFederation
        (on_peg (start (cons_federation s))));
    mret tt)).

Definition handle_peg_in_transaction (now : Z) (id : Hash) (tx : CrossChainTransaction) : consM unit :=
  let request := mkPegInRequest MAINCHAIN (cc_amount tx) (cc_recipient_address tx) (cc_destination_chain tx) 0 []
    (cc_federation_signatures tx) in
  handle_peg "Peg-in federation signature validation failed" "Peg-in initiation failed: " (cc_destination_chain tx) tx
    (fun fed => initiate_peg_in fed now id request).

Definition handle_peg_out_transaction (now : Z) (id : Hash) (tx : CrossChainTransaction) : consM unit :=
  let request := mkPegOutRequest MAINCHAIN (cc_amount tx) (cc_recipient_address tx) (cc_source_chain tx) 0 []
    (cc_federation_signatures tx) in
  handle_peg "Peg-out federation signature validation failed" "Peg-out initiation failed: " (cc_source_chain tx) tx
    (fun fed => initiate_peg_out fed now id request).

Definition handle_inter_sidechain_transaction (now : Z) (tx : CrossChainTransaction) : consM unit :=
  with_lock LCommunication (
    m ← context "Failed to create cross-chain message: "
      (lift (create_cross_chain_tx_message now (cc_source_chain tx) (cc_destination_chain tx) tx));
    context "Failed to send inter-sidechain message: " (cons_send m)).

(** The validator stays locked while the transaction is handled. *)
Definition cons_process_cross_chain_transaction (now : Z) (id : Hash) (tx : CrossChainTransaction) : consM unit :=
  with_lock LValidator (
    s ← gets Datatypes.id;
    context "Cross-chain transaction validation failed: "
      (lift (mv_validate_cross_chain_transaction (cons_validator s) tx (cons_id s)));;
    if bool_decide (cc_destination_chain tx = MAINCHAIN) then handle_peg_out_transaction now id tx
    else if bool_decide (cc_source_chain tx = MAINCHAIN) then handle_peg_in_transaction now id tx
    else handle_inter_sidechain_transaction now tx).

(** The engine's own checks of a fraud proof. *)
Definition cons_validate_by_type (p : FraudProof) : textR unit :=
  let e := evidence p in
  match fraud_type p with
  | InvalidStateTransition =>
      reject_if (bool_decide (pre_state e = post_state e)) "State transition fraud requires different pre and post states";;
      reject_if (len (fraudulent_operation e) <? 64) "Operation data too small for state transition"
  | DoubleSpending =>
      reject_if (len (fraudulent_operation e) =? 0) "Double spending proof requires transaction data";;
      reject_if (len (fraudulent_operation e) <? 128) "Insufficient transaction data for double spending proof"
  | InvalidCrossChainTx =>
      reject_if (bool_decide (additional_evidence e = ∅)) "Cross-chain fraud proof requires additional evidence"
  | UnauthorizedSignature =>
      reject_if (len (witness_data e) <? 96) "Insufficient witness data for signature fraud proof"
  | InvalidVMExecution =>
      reject_if (len (fraudulent_operation e) =? 0) "VM execution fraud proof requires operation data";;
      reject_if (len (witness_data e) <? 64) "Insufficient witness data for VM execution validation"
  end.

Definition validate_fraud_proof_internal (p : FraudProof) : textR unit :=
  let e := evidence p in
  reject_if (len (pre_state e) =? 0) "Pre-state cannot be empty";;
  reject_if (len (post_state e) =? 0) "Post-state cannot be empty";;
  reject_if (len (fraudulent_operation e) =? 0) "Fraudulent operation cannot be empty";;
  reject_if (proof_challenge_bond p =? 0) "Challenge bond must be greater than zero";;
  cons_validate_by_type p.

Definition process_fraud_proof (now : Z) (p : FraudProof) : consM unit :=
  context "Fraud proof validation failed: " (lift (validate_fraud_proof_internal p));;
  with_lock LFraud (
    id ← context "Failed to submit fraud proof: " (on_fraud (submit_fraud_proof p (proof_challenge_bond p)));
    with_lock LCommunication (
      s ← gets Datatypes.id;
      payload ← lift (ok_or (bincode_fraud_notification p id) "Failed to serialize fraud proof notification"%string);
      context "Failed to send fraud proof notification: "
        (cons_send (mkCrossChainMessage MsgFraudProof (cons_id s) MAINCHAIN payload 1 now None)))).

Definition snapshot_at (height : Z) (hash state_root : Hash) (e : FederationEpoch) : MainchainStateSnapshot :=
  mkMainchainStateSnapshot height hash state_root (epoch_keys e) (epoch_threshold e) (epoch_number e).

Definition set_snapshot (sn : MainchainStateSnapshot) : consM unit :=
  modify (fun s => s <| cons_validator ::= update_mainchain_state (cons_id s) sn |>).

Definition current_epoch_of (s : SidechainConsensus) : textR FederationEpoch :=
  ok_or (fi_get_current_epoch (cons_federation s) (cons_id s)) "No current federation epoch"%string.

(** The loop over the pending peg transactions only logs. *)
Definition handle_mainchain_reorg (new_height : Z) (new_hash : Hash) : consM unit :=
  with_lock LValidator (with_lock LFederation (
    s ← gets Datatypes.id;
    e ← lift (current_epoch_of s);
    set_snapshot (snapshot_at new_height new_hash (replicate 32 0) e);;
    (if 1 <? epoch_number e
     then with_lock LProof (on_proof (modify (update_federation_keys (epoch_number e) (epoch_keys e))))
     else mret tt);;
    with_lock LPeg (mret tt))).

Definition notify_mainchain_of_block (now : Z) (b : SidechainBlock) : consM unit :=
  with_lock LCommunication (
    s ← gets Datatypes.id;
    m ← context "Failed to create sidechain header message: "
      (lift (create_sidechain_header_message now (cons_id s) MAINCHAIN (sc_header b)
        (sc_federation_epoch (sc_header b))));
    context "Sidechain header message validation failed: " (cons_process m);;
    context "Failed to send sidechain header notification: " (cons_send m)).

(** * Blocks *)

Definition run_proof_validation (now elapsed : Z) (b : SidechainBlock) : consM unit :=
  with_lock LProof (
    r ← on_proof (pv_validate_sidechain_block now elapsed b);
    match r with
    | PV_Valid => mret tt
    | PV_Invalid reason => throw (String.append "Block proof validation failed: " reason)
    | PV_Error e => throw (String.append "Block proof validation error: " e)
    | PV_Timeout => throw "Block proof validation timed out"%string
    end).

(** The validator is still locked when a reorganisation is handled. *)
Definition run_reorg_check (mainchain_height : Z) (mainchain_hash : Hash) : consM unit :=
  with_lock LValidator (
    s ← gets Datatypes.id;
    impact ← context "Reorg impact check failed: "
      (lift (check_reorg_impact (cons_validator s) (cons_id s) mainchain_height mainchain_hash));
    match impact with
    | DeepReorg _ => throw "Mainchain deep reorg detected - sidechain validation suspended"%string
    | SameHeightReorg =>
        context "Mainchain reorg handling failed: " (handle_mainchain_reorg mainchain_height mainchain_hash)
    | _ => mret tt
    end).

(** Everything before the state is updated; [ids] are the random ids drawn for
    the peg transactions. *)
Definition block_checks (now elapsed : Z) (ids : nat -> Hash) (b : SidechainBlock) (mainchain_height : Z)
    (mainchain_hash : Hash) : consM unit :=
  with_lock LValidator (
    s ← gets Datatypes.id;
    context "Mainchain validation failed: " (lift (mv_validate_sidechain_block (cons_validator s) b)));;
  run_proof_validation now elapsed b;;
  run_reorg_check mainchain_height mainchain_hash;;
  for_each (imap (fun i tx => (ids i, tx)) (cross_chain_transactions b)) (fun '(id, tx) =>
    context "Cross-chain transaction processing failed: " (cons_process_cross_chain_transaction now id tx));;
  for_each (fraud_proofs b) (fun p => context "Fraud proof processing failed: " (process_fraud_proof now p)).

Definition cons_process_sidechain_block (now elapsed : Z) (ids : nat -> Hash) (b : SidechainBlock)
    (mainchain_height : Z) (mainchain_hash : Hash) : consM unit :=
  block_checks now elapsed ids b mainchain_height mainchain_hash;;
  modify (fun s => s <| cons_height := SidechainBlock_height b |> <| cons_tip := SidechainBlock_hash b |>);;
  context "Mainchain notification failed: " (notify_mainchain_of_block now b).

Definition drop_result (m : pegM unit) : pegM unit := fun s =>
  match m s with (s, Err _) => (s, Ok tt) | r => r end.

(** Every call locks the peg manager, which is locked already. *)
Definition confirm_pending (height : Z) (tx : PegTransaction) : consM unit :=
  if u64_add (peg_confirm_height tx) 6 <=? height then
    with_lock LPeg (on_peg (drop_result (confirm_peg_transaction (peg_id tx) height);;
                            drop_result (complete_peg_transaction (peg_id tx))))
  else mret tt.

Definition cons_process_mainchain_block (reorder : list Hash -> list Hash) (h : BlockHeader) : consM unit :=
  hash ← lift (header_hash h);
  with_lock LValidator (modify (fun s => s <| cons_validator ::= cache_block_header hash h |>));;
  with_lock LFederation (
    s ← gets Datatypes.id;
    e ← lift (current_epoch_of s);
    with_lock LValidator (set_snapshot (snapshot_at (header_height h) hash (state_root h) e)));;
  with_lock LFraud (context "Fraud proof challenge processing failed: "
    (on_fraud (process_challenges reorder (header_height h))));;
  with_lock LPeg (
    s ← gets Datatypes.id;
    for_each (get_pending_transactions (cons_peg s)) (confirm_pending (header_height h))).

Definition submit_fraud_proof_challenge (p : FraudProof) (bond : Z) : consM Hash :=
  with_lock LFraud (on_fraud (submit_fraud_proof p bond)).

Definition cons_validate_sidechain_block (now elapsed : Z) (b : SidechainBlock) : consM ProofValidationResult :=
  with_lock LProof (on_proof (pv_validate_sidechain_block now elapsed b)).

End Engine.

Record SidechainState : Type := mkSidechainState { state_sidechain_id : Hash; state_height : Z; state_tip : Hash }.

Definition get_sidechain_state (s : SidechainConsensus) : SidechainState :=
  mkSidechainState (cons_id s) (cons_height s) (cons_tip s).

Record ConsensusStats : Type := mkConsensusStats {
  cstat_sidechain_id : Hash;
  cstat_height : Z;
  cstat_federation : IntegratorStats;
  cstat_peg : PegStats;
  cstat_fraud : FraudProofStats;
  cstat_validation : ValidationStats;
  cstat_pending_messages : Z;
}.

Definition get_consensus_stats (s : SidechainConsensus) : ConsensusStats :=
  mkConsensusStats (cons_id s) (cons_height s) (get_federation_stats (cons_federation s)) (peg_get_stats (cons_peg s))
    (fraud_stats (cons_fraud s)) (validation_stats (cons_proof s))
    (pending_message_count (cons_communication s) MAINCHAIN).

(** * Locks *)

(** A computation that returns leaves the locks as it found them. *)
Definition returned {A} (r : textR A) : Prop := match r with Ok _ | Err _ => True | _ => False end.

Definition balanced {A} (m : consM A) : Prop :=
  forall s, returned (snd (m s)) -> cons_held (fst (m s)) = cons_held s.

Lemma balanced_bind {A B} (m : consM A) (f : A -> consM B) :
  balanced m -> (forall a, balanced (f a)) -> balanced (m ≫= f).
Proof.
  intros Hm Hf s. rewrite stM_bind_run. specialize (Hm s). destruct (m s) as [s1 [a|e| |]]; cbn in *; auto.
  intros Hr. rewrite (Hf a s1 Hr). by apply Hm.
Qed.

Lemma balanced_with_lock {A} l (m : consM A) : balanced m -> balanced (with_lock l m).
Proof.
  intros Hm s. unfold with_lock. case_bool_decide; [done|]. specialize (Hm (s <| cons_held ::= cons l |>)).
  destruct (m _) as [s1 r]. cbn in *. intros Hr. specialize (Hm Hr). destruct s, s1. cbn in *. by rewrite Hm.
Qed.

Lemma balanced_context {A} text (m : consM A) : balanced m -> balanced (context text m).
Proof. intros Hm s. unfold context. specialize (Hm s). destruct (m s) as [s1 [a|e| |]]; cbn in *; auto. Qed.

Lemma balanced_part {S A} get put (m : stM S string A) :
  (forall x s, cons_held (put x s) = cons_held s) -> balanced (on_part get put m).
Proof. intros Hp s. unfold on_part. destruct (m (get s)) as [x r]. cbn. intros _. apply Hp. Qed.

Lemma balanced_lift {A} (r : textR A) : balanced (lift r).
Proof. by intros s. Qed.

Lemma balanced_gets {A} (f : SidechainConsensus -> A) : balanced (gets f).
Proof. by intros s. Qed.

Lemma balanced_throw {A} e : balanced (throw e : consM A).
Proof. by intros s. Qed.

Lemma balanced_ret {A} (a : A) : balanced (mret a).
Proof. by intros s. Qed.

Lemma balanced_modify f : (forall s, cons_held (f s) = cons_held s) -> balanced (modify f).
Proof. intros Hf s _. apply Hf. Qed.

Lemma balanced_for_each {A} (l : list A) (f : A -> consM unit) : (forall x, balanced (f x)) -> balanced (for_each l f).
Proof. intros Hf. induction l; cbn [for_each]; [apply balanced_ret|]. by apply balanced_bind. Qed.

Lemma balanced_maybe {A} b l (m : consM A) : balanced m -> balanced (maybe_lock b l m).
Proof. intros Hm. destruct b; [by apply balanced_with_lock|done]. Qed.

Ltac balance :=
  repeat match goal with
  | |- balanced (_ ≫= _) => apply balanced_bind; [|intros ?]
  | |- balanced (with_lock _ _) => apply balanced_with_lock
  | |- balanced (maybe_lock _ _ _) => apply balanced_maybe
  | |- balanced (context _ _) => apply balanced_context
  | |- balanced (lift _) => apply balanced_lift
  | |- balanced (gets _) => apply balanced_gets
  | |- balanced (throw _) => apply balanced_throw
  | |- balanced (mret _) => apply balanced_ret
  | |- balanced (modify _) => apply balanced_modify; by intros []
  | |- balanced (on_part _ _ _) => apply balanced_part; by intros ? []
  | |- balanced (for_each _ _) => apply balanced_for_each; intros ?
  | |- balanced (if ?b then _ else _) => destruct b
  | |- balanced (match ?x with _ => _ end) => destruct x
  | |- balanced (let _ := _ in _) => cbv zeta
  end.

Section Balance.
Context `{Primitives} `{SidechainCodec} `{MessageCodec} `{BLS}.

Lemma balanced_checks now elapsed ids b h hash : balanced (block_checks now elapsed ids b h hash).
Proof.
  unfold block_checks, run_proof_validation, run_reorg_check, cons_process_cross_chain_transaction,
    handle_peg_in_transaction, handle_peg_out_transaction, handle_peg, handle_inter_sidechain_transaction,
    process_fraud_proof,
    handle_mainchain_reorg, cons_send, set_snapshot, on_proof, on_fraud, on_peg, on_communication.
  balance.
Qed.

Lemma balanced_mainchain reorder h : balanced (cons_process_mainchain_block reorder h).
Proof.
  unfold cons_process_mainchain_block, confirm_pending, set_snapshot, on_fraud, on_peg. balance.
Qed.

Lemma balanced_notify now b : balanced (notify_mainchain_of_block now b).
Proof. unfold notify_mainchain_of_block, cons_process, cons_send, on_communication. balance. Qed.

End Balance.

(** * What the engine keeps *)

Definition cons_inv (s : SidechainConsensus) : Prop :=
  (peg_pending (cons_peg s) = ∅ /\ peg_completed (cons_peg s) = ∅) /\
  peg_utxo_set (cons_peg s) = false /\
  (peg_federation (cons_peg s) = false -> federation_managers (cons_federation s) = ∅) /\
  trusted_headers (cons_proof s) = ∅ /\ pv_config (cons_proof s) = ProofValidationConfig_default /\
  max_reorg_depth (cons_validator s) = 100.

Lemma cons_inv_held f s : cons_inv s -> cons_inv (s <| cons_held ::= f |>).
Proof. by destruct s. Qed.

(** Components may change as long as what the invariant says of them stays. *)
Lemma preserves_lock {A} l (m : consM A) : preserves cons_inv m -> preserves cons_inv (with_lock l m).
Proof.
  intros Hm s Hs. unfold with_lock. case_bool_decide; [done|].
  specialize (Hm _ (cons_inv_held (cons l) s Hs)). destruct (m _) as [s1 [a|e| |]]; by apply cons_inv_held.
Qed.

Lemma preserves_context {A} I text (m : consM A) : preserves I m -> preserves I (context text m).
Proof. intros Hm s Hs. specialize (Hm s Hs). unfold context. destruct (m s) as [s1 [a|e| |]]; exact Hm. Qed.

Lemma preserves_maybe {A} b l (m : consM A) : preserves cons_inv m -> preserves cons_inv (maybe_lock b l m).
Proof. destruct b; [apply preserves_lock|done]. Qed.

Lemma preserves_part {S A} get put (m : stM S string A) :
  (forall s x r, cons_inv s -> m (get s) = (x, r) -> cons_inv (put x s)) -> preserves cons_inv (on_part get put m).
Proof.
  intros Hp s Hs. unfold on_part. destruct (m (get s)) as [x r] eqn:E.
  specialize (Hp s x r Hs E). by destruct r.
Qed.

Section Invariant.
Context `{Primitives} `{SidechainCodec} `{MessageCodec} `{BLS}.

Lemma proof_validation_keeps now elapsed b v v' r :
  pv_validate_sidechain_block now elapsed b v = (v', r) ->
  trusted_headers v' = trusted_headers v /\ pv_config v' = pv_config v /\ federation_keys v' = federation_keys v.
Proof.
  unfold pv_validate_sidechain_block. rewrite stM_bind_run. cbn [modify]. rewrite stM_bind_run. cbn [gets Datatypes.id].
  destruct (validate_sidechain_block_internal _ _ _); intros [= <- <-]; by destruct v.
Qed.

Lemma preserves_validate now elapsed b : preserves cons_inv (on_proof (pv_validate_sidechain_block now elapsed b)).
Proof.
  apply preserves_part. intros s x r Hs E. apply proof_validation_keeps in E as (E1 & E2 & _).
  destruct s. unfold cons_inv in *. cbn in *. unfold RecordSetters.constant. by rewrite E1, E2.
Qed.

Lemma preserves_fraud_part {A} (m : fraudM A) : preserves cons_inv (on_fraud m).
Proof. apply preserves_part. intros s x r Hs _. by destruct s. Qed.

Lemma preserves_comm_part {A} (m : commM A) : preserves cons_inv (on_communication m).
Proof. apply preserves_part. intros s x r Hs _. by destruct s. Qed.

Lemma preserves_snapshot sn : preserves cons_inv (set_snapshot sn).
Proof. apply preserves_modify. intros s Hs. by destruct s as [? ? ? [] ? ? ? ? ? ?]. Qed.

(** Without a lock to take there is no signature. *)
Lemma no_lock_no_signature s sidechain tx :
  cons_inv s -> signatures_over_id (cons_federation s) sidechain tx = true ->
  peg_locks (cons_peg s) (cc_federation_signatures tx) = false -> cc_federation_signatures tx = [].
Proof.
  intros (_ & _ & Hf & _) Hv Hl. unfold peg_locks in Hl. destruct (cc_federation_signatures tx) as [|sig sigs] eqn:E; [done|].
  rewrite len_cons in Hl. pose proof (len_nonneg sigs).
  rewrite (proj2 (Z.eqb_neq (len sigs + 1) 0)) in Hl by lia. cbn in Hl.
  unfold signatures_over_id in Hv. rewrite E in Hv. cbn in Hv. unfold fi_validate_federation_signature in Hv.
  by rewrite (Hf Hl), lookup_empty in Hv.
Qed.

(** A peg request that gets through the checks of the engine asks for a lock that
    the engine holds; the others fail.  Nothing changes. *)
Lemma handle_peg_fails refused failed sidechain tx start s :
  cons_inv s -> (forall fed p, cc_federation_signatures tx = [] -> exists e, start fed p = (p, Err e)) ->
  exists r, handle_peg refused failed sidechain tx start s = (s, r) /\ is_ok r = false /\
    (cons_held s = [] -> signatures_over_id (cons_federation s) sidechain tx = true ->
     cc_federation_signatures tx <> [] -> r = Panic).
Proof.
  intros Hs Hm. unfold handle_peg, with_lock at 1. case_bool_decide as H1'.
  { exists Panic. done. }
  set (s1 := s <| cons_held ::= cons LPeg |>). unfold with_lock at 1.
  assert (E1 : s1 <| cons_held ::= tail |> = s) by (unfold s1; by destruct s). case_bool_decide as H2'.
  { exists Panic. by rewrite E1. }
  set (s2 := s1 <| cons_held ::= cons LFederation |>).
  assert (E2 : s2 <| cons_held ::= tail |> = s1) by (unfold s2; by destruct s1).
  assert (Hs2 : cons_inv s2) by (by do 2 apply cons_inv_held).
  assert (Hl2 : LFederation ∈ cons_held s2) by (unfold s2; destruct s1; left).
  assert (Ef : cons_federation s2 = cons_federation s) by (unfold s2, s1; by destruct s).
  rewrite stM_bind_run. cbn [gets Datatypes.id].
  destruct (signatures_over_id (cons_federation s2) sidechain tx) eqn:Hv; cbn [negb].
  2: { eexists. cbn [throw]. rewrite E2, E1. split; [reflexivity|]. split; [done|]. rewrite <- Ef, Hv. done. }
  rewrite stM_bind_run. unfold context, maybe_lock. destruct (peg_locks _ _) eqn:Hp.
  - unfold with_lock. rewrite bool_decide_true by done. cbn [map_err]. rewrite E2, E1. by exists Panic.
  - pose proof (no_lock_no_signature s2 sidechain tx Hs2 Hv Hp) as Hn. destruct (Hm (cons_federation s2) (cons_peg s2) Hn) as [e He].
    unfold on_peg, on_part. rewrite He. cbn [map_err]. replace (s2 <| cons_peg := cons_peg s2 |>) with s2 by (by destruct s2).
    rewrite E2, E1. eexists. split; [reflexivity|]. split; [done|]. by rewrite Hn.
Qed.

Lemma peg_out_fails now id tx s : cons_inv s ->
  exists r, handle_peg_out_transaction now id tx s = (s, r) /\ is_ok r = false /\
    (cons_held s = [] -> signatures_over_id (cons_federation s) (cc_source_chain tx) tx = true ->
     cc_federation_signatures tx <> [] -> r = Panic).
Proof. intros Hs. apply handle_peg_fails; [done|]. intros fed p ->. by eexists. Qed.

Lemma peg_in_fails now id tx s : cons_inv s ->
  exists r, handle_peg_in_transaction now id tx s = (s, r) /\ is_ok r = false /\
    (cons_held s = [] -> signatures_over_id (cons_federation s) (cc_destination_chain tx) tx = true ->
     cc_federation_signatures tx <> [] -> r = Panic).
Proof. intros Hs. apply handle_peg_fails; [done|]. intros fed p ->. by eexists. Qed.

Lemma preserves_of_same {A} (m : consM A) :
  (forall s, cons_inv s -> exists r, m s = (s, r)) -> preserves cons_inv m.
Proof. intros Hm s Hs. destruct (Hm s Hs) as [r ->]. by destruct r. Qed.

Lemma preserves_peg_out now id tx : preserves cons_inv (handle_peg_out_transaction now id tx).
Proof. apply preserves_of_same. intros s Hs. destruct (peg_out_fails now id tx s Hs) as (r & -> & _). eauto. Qed.

Lemma preserves_peg_in now id tx : preserves cons_inv (handle_peg_in_transaction now id tx).
Proof. apply preserves_of_same. intros s Hs. destruct (peg_in_fails now id tx s Hs) as (r & -> & _). eauto. Qed.

Ltac cons_keep :=
  repeat match goal with
  | |- triple _ (with_lock _ _) _ _ => apply preserves_lock
  | |- triple _ (maybe_lock _ _ _) _ _ => apply preserves_maybe
  | |- triple _ (context _ _) _ _ => apply preserves_context
  | |- triple _ (on_fraud _) _ _ => apply preserves_fraud_part
  | |- triple _ (on_communication _) _ _ => apply preserves_comm_part
  | |- triple _ (set_snapshot _) _ _ => apply preserves_snapshot
  | |- triple _ (handle_peg_in_transaction _ _ _) _ _ => apply preserves_peg_in
  | |- triple _ (handle_peg_out_transaction _ _ _) _ _ => apply preserves_peg_out
  | |- triple _ (on_proof (pv_validate_sidechain_block _ _ _)) _ _ => apply preserves_validate
  | _ => keep_step
  end.

Lemma preserves_reorg h hash : preserves cons_inv (handle_mainchain_reorg h hash).
Proof.
  unfold handle_mainchain_reorg. cons_keep.
  apply preserves_part. intros s x r Hs E. injection E as <- _. by destruct s as [? ? ? ? ? ? [] ? ? ?].
Qed.

Lemma checks_inv now elapsed ids b h hash : preserves cons_inv (block_checks now elapsed ids b h hash).
Proof.
  unfold block_checks, run_proof_validation, run_reorg_check, cons_process_cross_chain_transaction,
    handle_inter_sidechain_transaction, process_fraud_proof, cons_send.
  cons_keep; apply preserves_reorg.
Qed.

Lemma no_pending_pegs s : cons_inv s -> get_pending_transactions (cons_peg s) = [].
Proof. intros ((E & _) & _). unfold get_pending_transactions. by rewrite E, map_to_list_empty. Qed.

Lemma mainchain_inv reorder h : preserves cons_inv (cons_process_mainchain_block reorder h).
Proof.
  unfold cons_process_mainchain_block. apply preserves_bind; [apply preserves_lift|intros hash].
  apply preserves_bind; [|intros _]. { cons_keep. by destruct s as [? ? ? [] ? ? ? ? ? ?]. }
  apply preserves_bind; [cons_keep|intros _]. apply preserves_bind; [cons_keep|intros _].
  apply preserves_lock. intros s Hs. rewrite stM_bind_run. cbn [gets Datatypes.id]. by rewrite no_pending_pegs.
Qed.

Lemma context_lift {A} text (r : textR A) s : context text (lift r) s = (s, map_err (String.append text) r).
Proof. reflexivity. Qed.

Lemma unsigned_message_refused m s :
  msg_signature m = None -> sequence_number m = 0 -> exists e, cons_process m s = (s, Err e).
Proof.
  intros Hs Hn. unfold cons_process. rewrite stM_bind_run. cbn [gets Datatypes.id]. unfold locks_federation.
  rewrite Hs, (bool_decide_false (is_Some None)), andb_false_r by (by intros []). cbn [maybe_lock].
  unfold process_message, lift. rewrite Hs, Hn. destruct (comm_federation _); eexists; reflexivity.
Qed.

(** [notify_mainchain_of_block] never succeeds: the message it builds is unsigned
    and has sequence number zero. *)
Lemma notify_error now b s :
  exists r, notify_mainchain_of_block now b s = (s, r) /\ is_ok r = false /\
    (LCommunication ∉ cons_held s -> exists e, r = Err e).
Proof.
  unfold notify_mainchain_of_block, with_lock. case_bool_decide; [by eexists|].
  set (s1 := s <| cons_held ::= cons LCommunication |>).
  assert (E1 : s1 <| cons_held ::= tail |> = s) by (unfold s1; by destruct s).
  rewrite stM_bind_run. cbn [gets Datatypes.id]. rewrite stM_bind_run, context_lift. unfold create_sidechain_header_message.
  destruct (bincode_sidechain_header (sc_header b)) as [payload|]; cbn [map_err ok_or mbind outcome_bind mret outcome_ret].
  2: { rewrite E1. eexists. split; [reflexivity|]. split; [done|]. intros _. by eexists. }
  set (m := mkCrossChainMessage _ _ _ _ _ _ _). rewrite stM_bind_run.
  destruct (unsigned_message_refused m s1 eq_refl eq_refl) as [e He].
  unfold context at 1. rewrite He. cbn [map_err]. rewrite E1. eexists. split; [reflexivity|]. split; [done|].
  intros _. by eexists.
Qed.

Lemma bind_not_ok {A B} (m : consM A) (f : A -> consM B) s :
  (forall a s, is_ok (snd (f a s)) = false) -> is_ok (snd ((m ≫= f) s)) = false.
Proof. intros Hf. rewrite stM_bind_run. destruct (m s) as [s1 [a|e| |]]; try done; apply Hf. Qed.

Lemma context_not_ok {A} text (m : consM A) s : is_ok (snd (m s)) = false -> is_ok (snd (context text m s)) = false.
Proof. unfold context. by destruct (m s) as [s1 [a|e| |]]. Qed.

(** No sidechain block is ever accepted.  [process_sidechain_block] returns [Ok]
    for no block, no chain tip and no state, since the notification it ends with
    always fails; and when the checks pass, the height and the tip have been moved
    to the block by the time the caller gets the error. *)
Theorem no_sidechain_block_accepted now elapsed ids b height hash s :
  is_ok (snd (cons_process_sidechain_block now elapsed ids b height hash s)) = false /\
  (cons_held s = [] -> forall s1, block_checks now elapsed ids b height hash s = (s1, Ok tt) ->
   exists e s', cons_process_sidechain_block now elapsed ids b height hash s = (s', Err e) /\
     get_sidechain_state s' = mkSidechainState (cons_id s1) (SidechainBlock_height b) (SidechainBlock_hash b)).
Proof.
  split.
  { apply bind_not_ok. intros _ s1. apply bind_not_ok. intros _ s2. apply context_not_ok.
    by destruct (notify_error now b s2) as (r & -> & Hr & _). }
  intros Hh s1 Hc. pose proof (balanced_checks now elapsed ids b height hash s) as Hb. rewrite Hc in Hb. cbn in Hb.
  specialize (Hb I). unfold cons_process_sidechain_block. rewrite stM_bind_run, Hc, stM_bind_run. cbn [modify].
  set (s2 := s1 <| cons_height := _ |> <| cons_tip := _ |>).
  destruct (notify_error now b s2) as (r & Hs & _ & He).
  assert (Eh : LCommunication ∉ cons_held s2).
  { unfold s2. destruct s1. cbn in *. rewrite Hb, Hh. apply not_elem_of_nil. }
  destruct (He Eh) as [e ->]. unfold context. rewrite Hs.
  do 2 eexists. split; [reflexivity|]. unfold s2. by destruct s1.
Qed.

(** * Reachable states *)

Inductive cons_op : Type :=
| CallInitialize (members : list MasternodeID) (threshold : Z) (keys : list bytes) (start : Z)
| CallSidechainBlock (now elapsed : Z) (ids : nat -> Hash) (b : SidechainBlock) (height : Z) (hash : Hash)
| CallMainchainBlock (reorder : list Hash -> list Hash) (h : BlockHeader)
| CallChallenge (p : FraudProof) (bond : Z)
| CallValidate (now elapsed : Z) (b : SidechainBlock).

Definition forget {A} (m : consM A) : consM unit := _ ← m; mret tt.

Definition cons_call (op : cons_op) : consM unit :=
  match op with
  | CallInitialize members threshold keys start => initialize_with_federation members threshold keys start
  | CallSidechainBlock now elapsed ids b height hash => cons_process_sidechain_block now elapsed ids b height hash
  | CallMainchainBlock reorder h => cons_process_mainchain_block reorder h
  | CallChallenge p bond => forget (submit_fraud_proof_challenge p bond)
  | CallValidate now elapsed b => forget (cons_validate_sidechain_block now elapsed b)
  end.

(** The states of an engine whose calls have returned, with or without an error. *)
Inductive cons_reachable (id : Hash) : SidechainConsensus -> Prop :=
| reachable_new : cons_reachable id (SidechainConsensus_new id)
| reachable_call op s s' r :
    cons_reachable id s -> cons_call op s = (s', r) -> returned r -> cons_reachable id s'.

Lemma balanced_call op : balanced (cons_call op).
Proof.
  destruct op; cbn [cons_call].
  - unfold initialize_with_federation, on_proof, on_peg, on_communication. balance.
  - unfold cons_process_sidechain_block. balance; [apply balanced_checks|apply balanced_notify].
  - apply balanced_mainchain.
  - unfold forget, submit_fraud_proof_challenge, on_fraud. balance.
  - unfold forget, cons_validate_sidechain_block, on_proof. balance.
Qed.

Lemma initialize_inv members threshold keys start s :
  cons_held s = [] -> cons_inv s -> cons_inv (fst (initialize_with_federation members threshold keys start s)).
Proof.
  intros Hh Hs. unfold initialize_with_federation, initialize_sidechain_federation, with_lock, on_proof, on_peg,
    on_communication, on_part. destruct s as [i c f v p fr pr h t held]. cbn in Hh. subst held.
  rewrite stM_bind_run. cbn [gets Datatypes.id cons_id cons_held]. rewrite stM_bind_run.
  rewrite bool_decide_false by (apply not_elem_of_nil). rewrite stM_bind_run. cbn [cons_federation].
  destruct (initialize_federation _ _ _ _ _ _) as [m [u|e| |]]; try (cbn; exact Hs).
  destruct v, p, pr, f, c. unfold cons_inv in *. cbn in *.
  change (bool_decide (LProof ∈ [LFederation])) with false. cbn.
  change (bool_decide (LCommunication ∈ [])) with false. cbn.
  change (bool_decide (LPeg ∈ [])) with false. cbn. intuition done.
Qed.

Lemma reachable_ok id s : cons_reachable id s -> cons_inv s /\ cons_held s = [].
Proof.
  induction 1 as [|op s s' r _ [Hi Hh] E Hr]; [done|]. split.
  - assert (Hp : cons_inv (fst (cons_call op s))).
    { destruct op as [members threshold keys start|now elapsed ids b height hash|reorder h|p bond|now elapsed b];
        cbn [cons_call]; [by apply initialize_inv|..]; apply preserves_fst; try done.
      - unfold cons_process_sidechain_block, notify_mainchain_of_block, cons_process, cons_send.
        cons_keep; [apply checks_inv|]. by destruct s0.
      - apply mainchain_inv.
      - unfold forget, submit_fraud_proof_challenge. cons_keep.
      - unfold forget, cons_validate_sidechain_block. cons_keep. }
    by rewrite E in Hp.
  - pose proof (balanced_call op s) as Hb. rewrite E in Hb. cbn [fst snd] in Hb. by rewrite (Hb Hr).
Qed.

(** Nothing is ever pegged through the engine: in every reachable state no peg
    transaction is pending or completed; a peg-in or peg-out that the federation
    signed makes its caller wait for a lock it holds itself, and any other one is
    refused. *)
Theorem no_peg_through_engine id s :
  cons_reachable id s ->
  peg_get_stats (cons_peg s) = mkPegStats 0 0 0 0 /\
  forall now peg tx,
    (is_ok (snd (handle_peg_out_transaction now peg tx s)) = false /\
     (signatures_over_id (cons_federation s) (cc_source_chain tx) tx = true -> cc_federation_signatures tx <> [] ->
      snd (handle_peg_out_transaction now peg tx s) = Panic)) /\
    (is_ok (snd (handle_peg_in_transaction now peg tx s)) = false /\
     (signatures_over_id (cons_federation s) (cc_destination_chain tx) tx = true -> cc_federation_signatures tx <> [] ->
      snd (handle_peg_in_transaction now peg tx s) = Panic)).
Proof.
  intros Hr. apply reachable_ok in Hr as [Hi Hh]. split.
  { destruct Hi as ((E1 & E2) & _). destruct (cons_peg s). cbn in *. subst. reflexivity. }
  intros now peg tx. destruct (peg_out_fails now peg tx s Hi) as (r1 & -> & Hr1 & Hp1).
  destruct (peg_in_fails now peg tx s Hi) as (r2 & -> & Hr2 & Hp2). cbn [snd]. auto 10.
Qed.


Lemma with_lock_ok {A} l (m : consM A) s s' a :
  with_lock l m s = (s', Ok a) ->
  exists s1, m (s <| cons_held ::= cons l |>) = (s1, Ok a) /\ s' = s1 <| cons_held ::= tail |>.
Proof.
  unfold with_lock. case_bool_decide; [done|]. destruct (m _) as [s1 [x|e| |]]; try done.
  intros [= <- <-]. by exists s1.
Qed.

Lemma pv_validate_valid now elapsed b v v' :
  pv_validate_sidechain_block now elapsed b v = (v', Ok PV_Valid) ->
  validate_sidechain_block_internal v now b = Ok tt.
Proof.
  unfold pv_validate_sidechain_block. rewrite stM_bind_run. cbn [modify]. rewrite stM_bind_run. cbn [gets Datatypes.id].
  destruct v as [c k t st].
  change (validate_sidechain_block_internal _ now b) with
    (validate_sidechain_block_internal (mkSidechainProofValidator c k t st) now b).
  by destruct (validate_sidechain_block_internal _ now b) as [[]| | |].
Qed.

Lemma proof_validation_ok now elapsed b s s' :
  run_proof_validation now elapsed b s = (s', Ok tt) ->
  validate_sidechain_block_internal (cons_proof s) now b = Ok tt.
Proof.
  intros (s1 & E & _)%with_lock_ok. apply stM_bind_ok in E as (s2 & r & E & Er).
  destruct r; try done. unfold on_proof, on_part in E. cbn [cons_proof] in E.
  replace (cons_proof (s <| cons_held ::= cons LProof |>)) with (cons_proof s) in E by (by destruct s).
  destruct (pv_validate_sidechain_block now elapsed b (cons_proof s)) as [v r] eqn:Ev.
  injection E as _ ->. by apply pv_validate_valid in Ev.
Qed.

(** The sidechain stalls at main-chain height 100: the two validators of the
    engine agree only on blocks anchored at height zero, since no header is ever
    trusted, and the anchor may be at most 100 blocks old; past that height no
    block gets through the checks. *)
Theorem sidechain_stalls id s now elapsed ids b height hash s' :
  cons_reachable id s -> block_checks now elapsed ids b height hash s = (s', Ok tt) ->
  sc_mainchain_anchor_height (sc_header b) <= 0 /\
  exists snapshot, state_snapshots (cons_validator s) !! sc_sidechain_id (sc_header b) = Some snapshot /\
    snap_height snapshot <= 100.
Proof.
  intros Hr E. apply reachable_ok in Hr as [Hi _]. destruct Hi as (_ & _ & _ & Ht & Hc & Hd).
  unfold block_checks in E. apply stM_bind_ok in E as (s1 & [] & Em & E). apply stM_bind_ok in E as (s2 & [] & Ep & _).
  assert (Hm : mv_validate_sidechain_block (cons_validator s) b = Ok tt /\ cons_proof s1 = cons_proof s).
  { apply with_lock_ok in Em as (s0 & Em & ->). rewrite stM_bind_run in Em. cbn [gets Datatypes.id] in Em.
    rewrite context_lift in Em. replace (cons_validator (s <| cons_held ::= cons LValidator |>)) with (cons_validator s) in Em
      by (by destruct s). destruct (mv_validate_sidechain_block _ b) as [[]| | |]; try done. injection Em as <-.
    split; [done|]. by destruct s. }
  destruct Hm as [Hm Hp1]. apply proof_validation_ok in Ep. rewrite Hp1 in Ep.
  assert (Ha : sc_mainchain_anchor_height (sc_header b) <= 0).
  { apply Z.nlt_ge. intros Hpos. destruct (valid_block_sound (cons_proof s) now b) as (_ & _ & Htr & _); [by rewrite Hc|done|].
    destruct (Htr Hpos) as [x Hx]. by rewrite Ht, lookup_empty in Hx. }
  split; [done|]. destruct (proj1 (validator_accepts (cons_validator s) b) Hm) as (st & cached & sig & Hst & _ & _ & Hle & _).
  exists st. split; [done|]. rewrite Hd in Hle. lia.
Qed.

(** A reorganisation at the same height hangs the engine: it is handled while the
    validator, which the handler locks, is locked. *)
Theorem same_height_reorg_hangs height hash s :
  cons_held s = [] -> check_reorg_impact (cons_validator s) (cons_id s) height hash = Ok SameHeightReorg ->
  run_reorg_check height hash s = (s, Panic).
Proof.
  intros Hh Hi. unfold run_reorg_check, with_lock at 1. rewrite Hh, bool_decide_false by (apply not_elem_of_nil).
  set (s1 := s <| cons_held ::= cons LValidator |>). rewrite stM_bind_run. cbn [gets Datatypes.id].
  rewrite stM_bind_run, context_lift. replace (cons_validator s1) with (cons_validator s) by (unfold s1; by destruct s).
  replace (cons_id s1) with (cons_id s) by (unfold s1; by destruct s). rewrite Hi. cbn [map_err].
  unfold context, handle_mainchain_reorg, with_lock at 1. rewrite bool_decide_true by (unfold s1; destruct s; left).
  cbn [map_err]. unfold s1. by destruct s.
Qed.

End Invariant.

(** * The node

    The sidechain fields of [Blockchain].  The stored height and the tip are
    arguments; the mutexes here are never nested. *)

Record SidechainHost : Type := mkSidechainHost {
  host_engines : gmap Hash SidechainConsensus;
  host_federation : FederationIntegrator;
  host_communication : CrossChainCommunication;
  host_validator : MainchainValidator;
  host_peg : TwoWayPegManager;
}.

Definition SidechainHost_new : SidechainHost :=
  mkSidechainHost ∅ FederationIntegrator_new (comm_with_federation_manager CrossChainCommunication_new)
    (MainchainValidator_new 100) (peg_with_federation_manager (TwoWayPegManager_new 6)).

Abbreviation hostM := (stM SidechainHost CE.ConsensusError).

(** A method of a component, its error wrapped as [ConsensusError::Internal]. *)
Definition on_host {S A} (get : SidechainHost -> S) (put : S -> SidechainHost -> SidechainHost) (text : string)
    (m : stM S string A) : hostM A := fun h =>
  let '(x, r) := m (get h) in (put x h, map_err (fun e => CE.Internal (text +:+ e)) r).

(** The new engine, initialised and entered in the map. *)
Definition add_engine (sidechain_id : Hash) (members : list MasternodeID) (threshold : Z) (keys : list bytes)
    (start_height : Z) : hostM unit := fun h =>
  match initialize_with_federation members threshold keys start_height (SidechainConsensus_new sidechain_id) with
  | (engine, Ok _) => (h <| host_engines ::= <[sidechain_id := engine]> |>, Ok tt)
  | (_, r) => (h, map_err (fun e => CE.Internal ("Failed to initialize sidechain consensus: " +:+ e)) r)
  end.

Definition register_sidechain (sidechain_id : Hash) (members : list MasternodeID) (threshold : Z) (keys : list bytes)
    (start_height : Z) : hostM unit :=
  on_host host_federation (fun x h => h <| host_federation := x |>) "Failed to initialize federation: "
    (initialize_sidechain_federation sidechain_id members threshold keys start_height 1000);;
  add_engine sidechain_id members threshold keys start_height.

Section Host.
Context `{Primitives} `{SidechainCodec} `{MessageCodec} `{BLS}.

(** A method of the engine of a sidechain. *)
Definition on_engine {A} (id : Hash) (engine : SidechainConsensus) (text : string) (m : consM A) : hostM A := fun h =>
  let '(engine', r) := m engine in
  (h <| host_engines ::= <[id := engine']> |>, map_err (fun e => CE.Internal (text +:+ e)) r).

Definition host_process_sidechain_block (now elapsed : Z) (ids : nat -> Hash)
    (current_height : outcome CE.ConsensusError Z) (tip : Hash) (sidechain_id : Hash) (b : SidechainBlock) : hostM unit :=
  h ← gets Datatypes.id;
  engine ← lift (ok_or (host_engines h !! sidechain_id) (CE.Internal "Sidechain not registered"));
  height ← lift current_height;
  on_engine sidechain_id engine "Sidechain block processing failed: "
    (cons_process_sidechain_block now elapsed ids b height tip).

(** [engines] and [updates] list the two maps in the order they are visited. *)
Definition process_mainchain_block_for_sidechains (reorder : list Hash -> list Hash) (engines : list Hash)
    (updates : list (Hash * FederationUpdateProposal)) (header : BlockHeader) : hostM unit :=
  for_each engines (fun id =>
    h ← gets Datatypes.id;
    match host_engines h !! id with
    | Some engine => on_engine id engine "Sidechain mainchain update failed: " (cons_process_mainchain_block reorder header)
    | None => mret tt
    end);;
  _ ← on_host host_federation (fun x h => h <| host_federation := x |>) "Federation update failed: "
    (apply_pending_updates updates (header_height header));
  mret tt.

Definition host_peg_request (tx : CrossChainTransaction) : PegOutRequest :=
  mkPegOutRequest MAINCHAIN (cc_amount tx) (cc_recipient_address tx) (cc_source_chain tx) 0 []
    (cc_federation_signatures tx).

Definition on_host_peg {A} (text : string) (m : pegM A) : hostM A :=
  on_host host_peg (fun x h => h <| host_peg := x |>) text m.

(** [pending] lists the pending peg transactions in the order they are visited. *)
Definition host_handle_peg_out_transaction (now : Z) (id : Hash) (current_height : outcome CE.ConsensusError Z)
    (order : list PegTransaction -> list PegTransaction) (tx : CrossChainTransaction) : hostM unit :=
  h ← gets Datatypes.id;
  _ ← on_host_peg "Peg-out initiation failed: " (initiate_peg_out (host_federation h) now id (host_peg_request tx));
  height ← lift current_height;
  h ← gets Datatypes.id;
  for_each (order (get_pending_transactions (host_peg h))) (fun t =>
    if u64_add (peg_confirm_height t) 6 <=? height then
      on_host_peg "Peg confirmation failed: " (confirm_peg_transaction (peg_id t) height);;
      on_host_peg "Peg completion failed: " (complete_peg_transaction (peg_id t))
    else mret tt).

Definition host_process_cross_chain_transaction (now : Z) (id : Hash) (current_height : outcome CE.ConsensusError Z)
    (order : list PegTransaction -> list PegTransaction) (tx : CrossChainTransaction) : hostM unit :=
  if bool_decide (cc_destination_chain tx = MAINCHAIN)
  then host_handle_peg_out_transaction now id current_height order tx
  else
    h ← gets Datatypes.id;
    if bool_decide (is_Some (host_engines h !! cc_destination_chain tx)) then mret tt
    else throw (CE.Internal "Destination sidechain not registered").

Definition get_sidechain_stats (h : SidechainHost) (sidechain_id : Hash) : option ConsensusStats :=
  get_consensus_stats <$> host_engines h !! sidechain_id.

Definition host_get_federation_stats (h : SidechainHost) : IntegratorStats := get_federation_stats (host_federation h).

Definition get_peg_stats (h : SidechainHost) : PegStats := peg_get_stats (host_peg h).

Lemma on_host_peg_run {A} text (m : pegM A) e f c v p :
  on_host_peg text m (mkSidechainHost e f c v p) =
  let '(p', r) := m p in (mkSidechainHost e f c v p', map_err (fun x => CE.Internal (text +:+ x)) r).
Proof. reflexivity. Qed.

(** A peg-out at the node is not confirmed by anything: the height it was burned
    at is taken to be zero, so from height 6 on a request that the federation's
    check lets through is completed, and counted as paid, by the same call. *)
Theorem peg_out_completes_at_once now id height tx h :
  peg_validate_federation_signatures (host_peg h) (host_federation h) (cc_federation_signatures tx)
    (cc_source_chain tx) = Ok tt ->
  peg_pending (host_peg h) = ∅ -> required_confirmations (host_peg h) = 6 -> 6 <= height ->
  cc_destination_chain tx = MAINCHAIN ->
  exists h' t, host_process_cross_chain_transaction now id (Ok height) (fun l => l) tx h = (h', Ok tt) /\
    get_peg_transaction (host_peg h') id = Some t /\ peg_status t = PegCompleted /\
    peg_amount t = cc_amount tx /\ peg_recipient t = cc_recipient_address tx.
Proof.
  intros Hv Hp Hr Hh Hd. unfold host_process_cross_chain_transaction. rewrite bool_decide_true by done.
  destruct h as [e f c v [pend comp pf req us]]. cbn in Hp, Hr. subst pend req.
  set (t := peg_out_record id now (host_peg_request tx)).
  set (p1 := mkTwoWayPegManager {[id := t]} comp pf 6 us).
  set (p2 := mkTwoWayPegManager ∅ (<[id := set_peg_status PegConfirmed t]> comp) pf 6 us).
  set (p3 := mkTwoWayPegManager ∅ (<[id := set_peg_status PegCompleted t]> comp) pf 6 us).
  assert (E1 : initiate_peg_out f now id (host_peg_request tx) (mkTwoWayPegManager ∅ comp pf 6 us) = (p1, Ok id)).
  { unfold initiate_peg_out. rewrite stM_bind_run. cbn [gets Datatypes.id]. rewrite stM_bind_run. cbn [lift].
    cbn [host_peg host_federation] in Hv. cbn [host_peg_request out_federation_signatures out_sidechain_id].
    rewrite Hv. reflexivity. }
  assert (E2 : confirm_peg_transaction id height p1 = (p2, Ok tt)).
  { unfold confirm_peg_transaction, p1. rewrite stM_bind_run. cbn [gets Datatypes.id]. rewrite stM_bind_run.
    cbn [lift peg_pending]. rewrite lookup_singleton_eq. cbn [ok_or peg_confirm_height t peg_out_record].
    cbn [required_confirmations host_peg_request out_sidechain_confirm_height].
    rewrite (proj2 (Z.ltb_ge height (u64_add 0 6))) by (unfold u64_add; rewrite wrap64_small; unfold u64_max; lia).
    transitivity (mkTwoWayPegManager (delete id {[id := t]}) (<[id := set_peg_status PegConfirmed t]> comp) pf 6 us,
      Ok (E := string) tt); [reflexivity|]. by rewrite delete_singleton_eq. }
  assert (E3 : complete_peg_transaction id p2 = (p3, Ok tt)).
  { unfold complete_peg_transaction, p2. rewrite stM_bind_run. cbn [gets Datatypes.id]. rewrite stM_bind_run.
    cbn [lift peg_completed]. rewrite lookup_insert_eq.
    transitivity (mkTwoWayPegManager ∅ (<[id := set_peg_status PegCompleted t]> (<[id := set_peg_status PegConfirmed t]> comp))
      pf 6 us, Ok (E := string) tt); [reflexivity|]. by rewrite insert_insert_eq. }
  exists (mkSidechainHost e f c v p3), (set_peg_status PegCompleted t). split.
  - unfold host_handle_peg_out_transaction. rewrite stM_bind_run. cbn [gets Datatypes.id]. rewrite stM_bind_run.
    rewrite on_host_peg_run. cbn [host_federation]. rewrite E1. cbn [map_err].
    rewrite stM_bind_run. cbn [lift]. rewrite stM_bind_run. cbn [gets Datatypes.id host_peg].
    unfold get_pending_transactions, p1 at 1. cbn [peg_pending]. rewrite map_to_list_singleton. cbn [fmap list_fmap snd for_each].
    rewrite stM_bind_run. rewrite (proj2 (Z.leb_le _ height)).
    2: { unfold t, u64_add. cbn. rewrite wrap64_small; unfold u64_max; lia. }
    rewrite stM_bind_run, on_host_peg_run. change (peg_id t) with id. rewrite E2. cbn [map_err].
    rewrite on_host_peg_run, E3. reflexivity.
  - unfold get_peg_transaction, p3. cbn [host_peg peg_pending peg_completed].
    by rewrite lookup_empty, lookup_insert_eq.
Qed.

End Host.

(** * Examples *)

Definition anchor_header : BlockHeader :=
  mkBlockHeader 1 0 (replicate 32 0) (replicate 32 1) (replicate 32 2) 1000 0x1d00ffff 7.

Definition anchor_hash : Hash := blake3 (default [] (bincode_header anchor_header)).

Definition engine_calls : list cons_op :=
  [CallInitialize (sample_member <$> [1; 2; 3]) 2 (sample_key <$> [1; 2; 3]) 100; CallMainchainBlock (fun l => l) anchor_header].

Definition run_calls (s : SidechainConsensus) (calls : list cons_op) : SidechainConsensus :=
  foldl (fun s op => fst (cons_call (H0 := sample_sidechain_codec) (H1 := sample_message_codec) (H2 := sample_bls) op s)) s calls.

Definition engine1 : SidechainConsensus := run_calls (SidechainConsensus_new sample_chain) (firstn 1 engine_calls).
Definition engine2 : SidechainConsensus := run_calls (SidechainConsensus_new sample_chain) engine_calls.

Lemma engine2_reachable :
  cons_reachable (H0 := sample_sidechain_codec) (H1 := sample_message_codec) (H2 := sample_bls) sample_chain engine2.
Proof.
  assert (E1 : cons_reachable (H0 := sample_sidechain_codec) (H1 := sample_message_codec) (H2 := sample_bls) sample_chain engine1).
  { eapply (reachable_call _ (CallInitialize _ _ _ _)); [apply reachable_new|apply surjective_pairing|]. vm_compute. exact I. }
  eapply (reachable_call _ (CallMainchainBlock _ _) engine1); [exact E1|apply surjective_pairing|]. vm_compute. exact I.
Qed.

Definition anchored_header : SidechainBlockHeader :=
  SidechainBlockHeader_new 1000 (replicate 32 1) (replicate 32 2) (replicate 32 3) (replicate 32 4) 1 sample_chain 0 anchor_hash 1.

Definition anchored_block : SidechainBlock :=
  mkSidechainBlock anchored_header [] [] []
    (Some (mkFederationSignature (sample_key 1 ++ sample_key 1) [192] 2 1
      (SidechainBlockHeader_hash (H0 := sample_sidechain_codec) anchored_header))).

Definition sample_checks (s : SidechainConsensus) : SidechainConsensus * textR unit :=
  block_checks (H0 := sample_sidechain_codec) (H1 := sample_message_codec) (H2 := sample_bls) 1000 5 (fun _ => [])
    anchored_block 0 anchor_hash s.

(** A block that passes the checks, anchored at height zero. *)
Lemma sidechain_stalls_witness :
  snd (sample_checks engine2) = Ok tt /\ sc_mainchain_anchor_height (sc_header anchored_block) <= 0.
Proof.
  assert (E : sample_checks engine2 = (fst (sample_checks engine2), Ok tt)).
  { rewrite (surjective_pairing (sample_checks engine2)) at 1. f_equal. }
  split; [by rewrite E|].
  exact (proj1 (sidechain_stalls (H0 := sample_sidechain_codec) (H1 := sample_message_codec) (H2 := sample_bls)
    sample_chain engine2 1000 5 (fun _ => []) anchored_block 0 anchor_hash _ engine2_reachable E)).
Defined.

Definition engine_cross_tx : CrossChainTransaction :=
  mkCrossChainTransaction MAINCHAIN 500 [1] sample_chain MAINCHAIN (mkCrossChainProof [] [] [] 0)
    [mkFederationSignature (sample_key 1 ++ sample_key 1) [192] 2 1 MAINCHAIN] [].

Lemma no_peg_through_engine_witness :
  signatures_over_id (H2 := sample_bls) (cons_federation engine2) sample_chain engine_cross_tx = true /\
  snd (handle_peg_out_transaction (H2 := sample_bls) 1000 [7] engine_cross_tx engine2) = Panic.
Proof.
  assert (E : signatures_over_id (H2 := sample_bls) (cons_federation engine2) sample_chain engine_cross_tx = true)
    by (vm_compute; reflexivity).
  split; [exact E|].
  apply (proj2 (no_peg_through_engine (H0 := sample_sidechain_codec) (H1 := sample_message_codec) (H2 := sample_bls)
    sample_chain engine2 engine2_reachable) 1000 [7] engine_cross_tx); [exact E|discriminate].
Defined.

Lemma same_height_reorg_hangs_witness :
  run_reorg_check 0 (replicate 32 9) engine2 = (engine2, Panic).
Proof. apply same_height_reorg_hangs; vm_compute; reflexivity. Defined.

Definition sample_host : SidechainHost :=
  fst (register_sidechain sample_chain (sample_member <$> [1; 2; 3]) 2 (sample_key <$> [1; 2; 3]) 100 SidechainHost_new).

(** The node pays out 500 units at height 6, in the call that asks for them. *)
Lemma peg_out_completes_at_once_witness : exists h' t,
  host_process_cross_chain_transaction (H2 := sample_bls) 1000 [7] (Ok 6) (fun l => l) engine_cross_tx sample_host = (h', Ok tt) /\
  get_peg_transaction (host_peg h') [7] = Some t /\ peg_status t = PegCompleted /\ peg_amount t = 500.
Proof.
  destruct (peg_out_completes_at_once (H2 := sample_bls) 1000 [7] 6 engine_cross_tx sample_host)
    as (h' & t & E & Hg & Hs & Ha & _); [vm_compute; reflexivity..|lia|reflexivity|].
  exists h', t. split; [exact E|]. split; [exact Hg|]. split; [exact Hs|exact Ha].
Defined.
