(* ===== verification/Dkg.v ===== *)
(** Sessions of distributed key generation
    (src/rusty-shared-types/src/dkg.rs) and the messages the masternodes
    exchange about them (src/rusty-shared-types/src/dkg_messages.rs).

    A [DKGSessionID] is its hash.  [bincode] serialization of a message is left
    to the callers. *)

From Stdlib Require Import ZArith Lia List.
From stdpp Require Import base option list numbers strings gmap.
From coqutil Require Import Datatypes.RecordSetters.
From S2P Require Import Prelude Types.

Import TriangleBracketNotations.
#[local] Open Scope Z_scope.

(** * Data *)

Abbreviation DKGSessionID := Hash.

Record DKGParticipant : Type := mkDKGParticipant {
  participant_masternode_id : MasternodeID;
  participant_index : Z;
  participant_public_key : bytes;
}.

Record DKGCommitment : Type := mkDKGCommitment {
  commitment_participant_index : Z;
  commitment_points : list bytes;
  commitment_signature : bytes;
}.

Record DKGSecretShare : Type := mkDKGSecretShare {
  from_participant : Z;
  to_participant : Z;
  encrypted_share : bytes;
  share_signature : bytes;
}.

Record DKGComplaint : Type := mkDKGComplaint {
  complainant : Z;
  accused : Z;
  complaint_session_id : DKGSessionID;
  complaint_evidence : bytes;
  complaint_signature : bytes;
}.

Record DKGJustification : Type := mkDKGJustification {
  justification_accused : Z;
  justification_complainant : Z;
  justification_session_id : DKGSessionID;
  revealed_share : bytes;
  justification_signature : bytes;
}.

Inductive DKGSessionState : Type :=
| WaitingForParticipants
| CommitmentPhase
| ShareDistributionPhase
| ComplaintPhase
| JustificationPhase
| DkgCompleted
| DkgFailed.

#[export] Instance DKGSessionState_eq_dec : EqDecision DKGSessionState.
Proof. solve_decision. Defined.

Record DKGSession : Type := mkDKGSession {
  session_id : DKGSessionID;
  participants : list DKGParticipant;
  threshold : Z;
  session_state : DKGSessionState;
  commitments : gmap Z DKGCommitment;
  complaints : list DKGComplaint;
  justifications : list DKGJustification;
  secret_shares : gmap Z DKGSecretShare;
  creation_block_height : Z;
  timeout_block_height : Z;
  group_public_key : option bytes;
}.

Record ThresholdSignatureRequest : Type := mkThresholdSignatureRequest {
  request_session_id : DKGSessionID;
  request_message : bytes;
  request_message_hash : Hash;
  requester : MasternodeID;
  request_signature : bytes;
}.

Record DKGSignatureShare : Type := mkDKGSignatureShare {
  sig_session_id : DKGSessionID;
  sig_participant_index : Z;
  sig_message_hash : Hash;
  sig_share : bytes;
  sig_signature : bytes;
}.

Record DKGParams : Type := mkDKGParams {
  min_participants : Z;
  max_participants : Z;
  threshold_percentage : Z;
  commitment_timeout_blocks : Z;
  share_timeout_blocks : Z;
  complaint_timeout_blocks : Z;
  justification_timeout_blocks : Z;
}.

Definition DKGParams_default : DKGParams := mkDKGParams 3 100 67 10 10 5 5.

Inductive DKGError : Type :=
| InvalidParticipant
| NotAParticipant
| InvalidCommitment
| InvalidShare
| InsufficientParticipants
| SessionNotFound
| InvalidSessionState
| ThresholdNotMet
| DkgInvalidSignature
| DkgTimeout
| DuplicateCommitment
| DuplicateShare
| DkgNetworkError (msg : string)
| DkgSerializationError (msg : string)
| CryptographicError (msg : string)
| InsufficientCommitments
| InsufficientShares
| DkgInternalError (msg : string)
| InvalidThreshold
| NotEnoughParticipants
| TooManyParticipants
| DuplicateParticipant
| InitiatorNotParticipant
| InvalidBlockHeight.

#[export] Instance DKGError_eq_dec : EqDecision DKGError.
Proof. solve_decision. Defined.

(** [Display] *)
Definition DKGError_to_string (e : DKGError) : string :=
  match e with
  | InvalidParticipant => "Invalid participant"
  | NotAParticipant => "Not a participant in this session"
  | InvalidCommitment => "Invalid commitment"
  | InvalidShare => "Invalid share"
  | InsufficientParticipants => "Insufficient participants"
  | SessionNotFound => "DKG session not found"
  | InvalidSessionState => "Invalid session state"
  | ThresholdNotMet => "Threshold not met"
  | DkgInvalidSignature => "Invalid signature"
  | DkgTimeout => "DKG session timeout"
  | DuplicateCommitment => "Duplicate commitment received"
  | DuplicateShare => "Duplicate share received"
  | DkgNetworkError msg => "Network error: " +:+ msg
  | DkgSerializationError msg => "Serialization error: " +:+ msg
  | CryptographicError msg => "Cryptographic error: " +:+ msg
  | InsufficientCommitments => "Insufficient commitments"
  | InsufficientShares => "Insufficient shares"
  | DkgInternalError msg => "Internal error: " +:+ msg
  | InvalidThreshold => "Invalid threshold parameter"
  | NotEnoughParticipants => "Not enough participants for DKG"
  | TooManyParticipants => "Too many participants for DKG"
  | DuplicateParticipant => "Duplicate participant in list"
  | InitiatorNotParticipant => "Initiator not in participant list"
  | InvalidBlockHeight => "Invalid DKG block height (too old or in the future)"
  end.

(** * Messages *)

Inductive DKGPurpose : Type :=
| OxideSendQuorum
| FerrousShieldCoordination
| GovernanceVotingPurpose
| SidechainBridge
| CustomPurpose (name : string).

#[export] Instance DKGPurpose_eq_dec : EqDecision DKGPurpose.
Proof. solve_decision. Defined.

Record DKGInitiateRequest : Type := mkDKGInitiateRequest {
  init_session_id : DKGSessionID;
  initiator : MasternodeID;
  init_participants : list MasternodeID;
  init_threshold : Z;
  purpose : DKGPurpose;
  init_block_height : Z;
  init_signature : bytes;
}.

Record DKGInitiateResponse : Type := mkDKGInitiateResponse {
  response_session_id : DKGSessionID;
  responder : MasternodeID;
  accepted : bool;
  reason : option string;
  response_signature : bytes;
}.

(** The commitment, share, complaint, justification, threshold-request and
    signature-share messages have one shape: a session, a payload, a sender, a
    time and the sender's signature. *)
Record Signed (A : Type) : Type := mkSigned {
  msg_session_id : DKGSessionID;
  msg_payload : A;
  msg_sender : MasternodeID;
  msg_timestamp : Z;
  msg_signature : bytes;
}.
Arguments mkSigned {A}.
Arguments msg_session_id {A}.
Arguments msg_payload {A}.
Arguments msg_sender {A}.
Arguments msg_timestamp {A}.
Arguments msg_signature {A}.

Abbreviation DKGCommitmentMessage := (Signed DKGCommitment).
Abbreviation DKGShareMessage := (Signed (list DKGSecretShare)).
Abbreviation DKGComplaintMessage := (Signed DKGComplaint).
Abbreviation DKGJustificationMessage := (Signed DKGJustification).
Abbreviation ThresholdSignRequestMessage := (Signed ThresholdSignatureRequest).
Abbreviation SignatureShareMessage := (Signed DKGSignatureShare).

Record DKGCompleteMessage : Type := mkDKGCompleteMessage {
  complete_session_id : DKGSessionID;
  complete_group_public_key : bytes;
  complete_participants : list MasternodeID;
  complete_threshold : Z;
  complete_sender : MasternodeID;
  complete_timestamp : Z;
  complete_signature : bytes;
}.

Record ThresholdSignatureCompleteMessage : Type := mkThresholdSignatureCompleteMessage {
  final_session_id : DKGSessionID;
  final_message_hash : Hash;
  final_aggregated_signature : bytes;
  final_signers : list Z;
  final_sender : MasternodeID;
  final_timestamp : Z;
  final_signature : bytes;
}.

Inductive DKGMessage : Type :=
| InitiateDKG (msg : DKGInitiateRequest)
| DKGInitiateResponseMsg (msg : DKGInitiateResponse)
| CommitmentBroadcast (msg : DKGCommitmentMessage)
| ShareDistribution (msg : DKGShareMessage)
| ComplaintBroadcast (msg : DKGComplaintMessage)
| JustificationBroadcast (msg : DKGJustificationMessage)
| DKGComplete (msg : DKGCompleteMessage)
| ThresholdSignRequest (msg : ThresholdSignRequestMessage)
| SignatureShareBroadcast (msg : SignatureShareMessage)
| ThresholdSignatureComplete (msg : ThresholdSignatureCompleteMessage).

Definition message_session_id (m : DKGMessage) : DKGSessionID :=
  match m with
  | InitiateDKG msg => init_session_id msg
  | DKGInitiateResponseMsg msg => response_session_id msg
  | CommitmentBroadcast msg => msg_session_id msg
  | ShareDistribution msg => msg_session_id msg
  | ComplaintBroadcast msg => msg_session_id msg
  | JustificationBroadcast msg => msg_session_id msg
  | DKGComplete msg => complete_session_id msg
  | ThresholdSignRequest msg => msg_session_id msg
  | SignatureShareBroadcast msg => msg_session_id msg
  | ThresholdSignatureComplete msg => final_session_id msg
  end.

Definition message_sender (m : DKGMessage) : MasternodeID :=
  match m with
  | InitiateDKG msg => initiator msg
  | DKGInitiateResponseMsg msg => responder msg
  | CommitmentBroadcast msg => msg_sender msg
  | ShareDistribution msg => msg_sender msg
  | ComplaintBroadcast msg => msg_sender msg
  | JustificationBroadcast msg => msg_sender msg
  | DKGComplete msg => complete_sender msg
  | ThresholdSignRequest msg => msg_sender msg
  | SignatureShareBroadcast msg => msg_sender msg
  | ThresholdSignatureComplete msg => final_sender msg
  end.

(** An initiation and its response carry no time. *)
Definition message_timestamp (m : DKGMessage) : Z :=
  match m with
  | InitiateDKG _ => 0
  | DKGInitiateResponseMsg _ => 0
  | CommitmentBroadcast msg => msg_timestamp msg
  | ShareDistribution msg => msg_timestamp msg
  | ComplaintBroadcast msg => msg_timestamp msg
  | JustificationBroadcast msg => msg_timestamp msg
  | DKGComplete msg => complete_timestamp msg
  | ThresholdSignRequest msg => msg_timestamp msg
  | SignatureShareBroadcast msg => msg_timestamp msg
  | ThresholdSignatureComplete msg => final_timestamp msg
  end.

Definition message_signature (m : DKGMessage) : bytes :=
  match m with
  | InitiateDKG msg => init_signature msg
  | DKGInitiateResponseMsg msg => response_signature msg
  | CommitmentBroadcast msg => msg_signature msg
  | ShareDistribution msg => msg_signature msg
  | ComplaintBroadcast msg => msg_signature msg
  | JustificationBroadcast msg => msg_signature msg
  | DKGComplete msg => complete_signature msg
  | ThresholdSignRequest msg => msg_signature msg
  | SignatureShareBroadcast msg => msg_signature msg
  | ThresholdSignatureComplete msg => final_signature msg
  end.

(** * Operations of a session *)

Abbreviation sessM := (stM DKGSession DKGError).

Definition DKGSession_new (session_id : DKGSessionID) (participants : list DKGParticipant)
    (threshold creation_block_height : Z) (params : DKGParams) : DKGSession :=
  let timeout_block_height :=
    wrap64 (creation_block_height + commitment_timeout_blocks params +
            share_timeout_blocks params + complaint_timeout_blocks params +
            justification_timeout_blocks params) in
  mkDKGSession session_id participants threshold WaitingForParticipants ∅ [] [] ∅
    creation_block_height timeout_block_height None.

Definition has_minimum_participants (s : DKGSession) (min : Z) : bool :=
  min <=? wrap32 (len (participants s)).

Definition all_commitments_received (s : DKGSession) : bool :=
  Z.of_nat (size (commitments s)) =? len (participants s).

Definition get_participant (s : DKGSession) (index : Z) : option DKGParticipant :=
  snd <$> list_find (fun p => participant_index p = index) (participants s).

Definition is_timed_out (s : DKGSession) (current_block_height : Z) : bool :=
  timeout_block_height s <? current_block_height.

Definition calculate_threshold (num_participants threshold_percentage : Z) : Z :=
  Z.max (wrap32 (num_participants * threshold_percentage + 99) / 100) 1.

(** [self.participants.iter().any(|p| p.participant_index == index)] *)
Definition has_index (s : DKGSession) (index : Z) : bool :=
  existsb (fun p => participant_index p =? index) (participants s).

Definition add_commitment (commitment : DKGCommitment) : sessM unit := fun s =>
  let i := commitment_participant_index commitment in
  if negb (bool_decide (session_state s = CommitmentPhase)) then (s, Err InvalidSessionState)
  else if negb (has_index s i) then (s, Err InvalidParticipant)
  else if bool_decide (is_Some (commitments s !! i)) then (s, Err DuplicateCommitment)
  else (s <| commitments ::= <[i := commitment]> |>, Ok tt).

Definition add_secret_share (share : DKGSecretShare) : sessM unit := fun s =>
  let i := from_participant share in
  if negb (bool_decide (session_state s = ShareDistributionPhase)) then (s, Err InvalidSessionState)
  else if negb (has_index s i) then (s, Err InvalidParticipant)
  else if bool_decide (is_Some (secret_shares s !! i)) then (s, Err DuplicateShare)
  else (s <| secret_shares ::= <[i := share]> |>, Ok tt).

Definition all_shares_received (s : DKGSession) : bool :=
  Z.of_nat (size (secret_shares s)) =? len (participants s).

Definition advance_phase : sessM unit := fun s =>
  match session_state s with
  | WaitingForParticipants =>
      if 3 <=? len (participants s) then (s <| session_state := CommitmentPhase |>, Ok tt)
      else (s, Err InsufficientParticipants)
  | CommitmentPhase =>
      if all_commitments_received s then (s <| session_state := ShareDistributionPhase |>, Ok tt)
      else (s, Err InsufficientCommitments)
  | ShareDistributionPhase =>
      if all_shares_received s then (s <| session_state := ComplaintPhase |>, Ok tt)
      else (s, Err InsufficientShares)
  | ComplaintPhase => (s <| session_state := JustificationPhase |>, Ok tt)
  | JustificationPhase => (s <| session_state := DkgCompleted |>, Ok tt)
  | DkgCompleted => (s, Err InvalidSessionState)
  | DkgFailed => (s, Err InvalidSessionState)
  end.

(** ** The session as a state machine *)

Inductive session_op : Type :=
| OpCommit (c : DKGCommitment)
| OpShare (s : DKGSecretShare)
| OpAdvance.

Definition session_exec (op : session_op) : sessM unit :=
  match op with
  | OpCommit c => add_commitment c
  | OpShare s => add_secret_share s
  | OpAdvance => advance_phase
  end.

(** A refused operation is reported and the session goes on. *)
Definition session_run (s : DKGSession) (ops : list session_op) : DKGSession :=
  foldl (fun s op => fst (session_exec op s)) s ops.

Definition indices (s : DKGSession) : list Z := participant_index <$> participants s.

(** How far a phase is from the start. *)
Definition phase (st : DKGSessionState) : Z :=
  match st with
  | WaitingForParticipants => 0
  | CommitmentPhase => 1
  | ShareDistributionPhase => 2
  | ComplaintPhase => 3
  | JustificationPhase => 4
  | DkgCompleted => 5
  | DkgFailed => 6
  end.

(** Commitments and shares come from participants, are filed under their
    sender, and a later phase has all of them. *)
Record session_wf (s : DKGSession) : Prop := {
  wf_commitments : map_Forall (fun i c => commitment_participant_index c = i /\ i ∈ indices s) (commitments s);
  wf_shares : map_Forall (fun i x => from_participant x = i /\ i ∈ indices s) (secret_shares s);
  wf_no_commitments : phase (session_state s) < 1 -> commitments s = ∅;
  wf_no_shares : phase (session_state s) < 2 -> secret_shares s = ∅;
  wf_enough : 1 <= phase (session_state s) -> 3 <= len (participants s);
  wf_all_commitments : 2 <= phase (session_state s) -> all_commitments_received s = true;
  wf_all_shares : 3 <= phase (session_state s) -> all_shares_received s = true;
  wf_not_failed : session_state s <> DkgFailed;
  wf_complaints : complaints s = [] /\ justifications s = [] /\ group_public_key s = None;
}.

Lemma has_index_spec s i : has_index s i = true <-> i ∈ indices s.
Proof.
  unfold has_index, indices. rewrite existsb_exists, list_elem_of_fmap. split.
  - intros (p & Hp & Hi). apply Z.eqb_eq in Hi. exists p. by rewrite list_elem_of_In.
  - intros (p & -> & Hp). exists p. rewrite <- list_elem_of_In. split; [done|]. by apply Z.eqb_eq.
Qed.

Lemma session_new_wf id ps t h params : session_wf (DKGSession_new id ps t h params).
Proof. split; cbn; try done; try lia. Qed.

(** What an accepted commitment does. *)
Lemma add_commitment_cases c s s' r :
  add_commitment c s = (s', r) ->
  (s' = s /\ is_ok r = false) \/
  (r = Ok tt /\ session_state s = CommitmentPhase /\ commitment_participant_index c ∈ indices s /\
   commitments s !! commitment_participant_index c = None /\
   s' = s <| commitments ::= <[commitment_participant_index c := c]> |>).
Proof.
  unfold add_commitment. case_bool_decide as Hst; cbn [negb]; [|intros [= <- <-]; auto].
  destruct (has_index s _) eqn:Hi; cbn [negb]; [|intros [= <- <-]; auto].
  apply has_index_spec in Hi. case_bool_decide as Hc; intros [= <- <-]; [by left|].
  right. rewrite eq_None_not_Some. done.
Qed.

Lemma add_secret_share_cases x s s' r :
  add_secret_share x s = (s', r) ->
  (s' = s /\ is_ok r = false) \/
  (r = Ok tt /\ session_state s = ShareDistributionPhase /\ from_participant x ∈ indices s /\
   secret_shares s !! from_participant x = None /\
   s' = s <| secret_shares ::= <[from_participant x := x]> |>).
Proof.
  unfold add_secret_share. case_bool_decide as Hst; cbn [negb]; [|intros [= <- <-]; auto].
  destruct (has_index s _) eqn:Hi; cbn [negb]; [|intros [= <- <-]; auto].
  apply has_index_spec in Hi. case_bool_decide as Hc; intros [= <- <-]; [by left|].
  right. rewrite eq_None_not_Some. done.
Qed.

(** What an accepted step to the next phase does. *)
Lemma advance_phase_cases s s' r :
  advance_phase s = (s', r) ->
  (s' = s /\ is_ok r = false) \/
  (r = Ok tt /\ exists st, s' = s <| session_state := st |> /\
   phase st = phase (session_state s) + 1 /\ phase st < 6 /\
   (phase st = 1 -> 3 <= len (participants s)) /\
   (phase st = 2 -> all_commitments_received s = true) /\
   (phase st = 3 -> all_shares_received s = true)).
Proof.
  unfold advance_phase. destruct (session_state s) eqn:Hst.
  1: destruct (Z.leb_spec 3 (len (participants s))).
  3: destruct (all_commitments_received s) eqn:Hc.
  5: destruct (all_shares_received s) eqn:Hs.
  all: intros [= <- <-]; try (by left).
  all: right; split; [done|]; eexists; split; [done|]; cbn; repeat split; try done; lia.
Qed.

Lemma session_exec_wf op s : session_wf s -> session_wf (fst (session_exec op s)).
Proof.
  intros [Hc Hs H0 H1 H2 H3 H4 H5 H6].
  destruct (session_exec op s) as [s' r] eqn:He. cbn [fst]. destruct op; cbn [session_exec] in He.
  - apply add_commitment_cases in He as [[-> _]|(_ & Hst & Hi & Hn & ->)]; [by split|].
    destruct s; cbn in *; subst; split; cbn; try done; try lia.
    by apply map_Forall_insert.
  - apply add_secret_share_cases in He as [[-> _]|(_ & Hst & Hi & Hn & ->)]; [by split|].
    destruct s; cbn in *; subst; split; cbn; try done; try lia.
    by apply map_Forall_insert.
  - apply advance_phase_cases in He as [[-> _]|(_ & st & -> & Hp & Hl & E1 & E2 & E3)]; [by split|].
    assert (Hph : 0 <= phase (session_state s)) by (destruct (session_state s); cbn; lia).
    destruct s; cbn in *; split; cbn; unfold RecordSetters.constant; try done.
    + intros. apply H0. lia.
    + intros. apply H1. lia.
    + intros. destruct (Z.eq_dec (phase st) 1); [auto|]. apply H2. lia.
    + intros. destruct (Z.eq_dec (phase st) 2); [by apply E2|]. apply H3. lia.
    + intros. destruct (Z.eq_dec (phase st) 3); [by apply E3|]. apply H4. lia.
    + intros ->. cbn in Hl. lia.
Qed.

Lemma session_exec_static op s :
  participants (fst (session_exec op s)) = participants s.
Proof.
  destruct (session_exec op s) as [s' r] eqn:He. cbn [fst]. destruct op; cbn [session_exec] in He.
  - by apply add_commitment_cases in He as [[-> _]|(_ & _ & _ & _ & ->)].
  - by apply add_secret_share_cases in He as [[-> _]|(_ & _ & _ & _ & ->)].
  - by apply advance_phase_cases in He as [[-> _]|(_ & st & -> & _)].
Qed.

Lemma session_run_wf s ops : session_wf s -> session_wf (session_run s ops).
Proof. intros Hs. unfold session_run. apply foldl_inv; [done|]. intros a op. apply session_exec_wf. Qed.

Lemma session_run_static s ops : participants (session_run s ops) = participants s.
Proof.
  unfold session_run. apply (foldl_inv (fun a => participants a = participants s)); [done|].
  intros a op <-. apply session_exec_static.
Qed.

(** A map as large as a list that holds its keys has every element of the list
    as a key, and the list no duplicates. *)
Lemma full_map {A} (m : gmap Z A) (l : list Z) :
  map_Forall (fun i _ => i ∈ l) m -> Z.of_nat (size m) = len l ->
  NoDup l /\ forall i, i ∈ l -> is_Some (m !! i).
Proof.
  intros Hm Hsz.
  assert (Hsub : (map_to_list m).*1 ⊆+ l).
  { apply NoDup_submseteq; [apply NoDup_fst_map_to_list|].
    intros i Hi. apply list_elem_of_fmap in Hi as ([j x] & -> & Hj). apply elem_of_map_to_list in Hj.
    exact (Hm j x Hj). }
  assert (Hp : (map_to_list m).*1 ≡ₚ l).
  { apply submseteq_length_Permutation; [done|]. rewrite length_fmap, length_map_to_list.
    unfold len in Hsz. lia. }
  split.
  - rewrite <- Hp. apply NoDup_fst_map_to_list.
  - intros i Hi. rewrite <- Hp in Hi. apply list_elem_of_fmap in Hi as ([j x] & -> & Hj).
    apply elem_of_map_to_list in Hj. cbn. rewrite Hj. eauto.
Qed.

Lemma wf_every_commitment s :
  session_wf s -> 2 <= phase (session_state s) ->
  NoDup (indices s) /\ forall i, i ∈ indices s -> is_Some (commitments s !! i).
Proof.
  intros Hw Hp. apply full_map.
  - intros i c Hc. exact (proj2 (wf_commitments s Hw i c Hc)).
  - pose proof (wf_all_commitments s Hw Hp) as Ha. apply Z.eqb_eq in Ha.
    rewrite Ha. unfold len, indices. by rewrite length_fmap.
Qed.

Lemma wf_every_share s :
  session_wf s -> 3 <= phase (session_state s) ->
  forall i, i ∈ indices s -> is_Some (secret_shares s !! i).
Proof.
  intros Hw Hp. apply full_map.
  - intros i c Hc. exact (proj2 (wf_shares s Hw i c Hc)).
  - pose proof (wf_all_shares s Hw Hp) as Ha. apply Z.eqb_eq in Ha.
    rewrite Ha. unfold len, indices. by rewrite length_fmap.
Qed.

(** ** A complete run *)

(** Every participant commits, every participant shares, and the session moves
    on as soon as it can. *)
Definition full_run (ps : list DKGParticipant) (points : list bytes) (share : bytes) :
    list session_op :=
  OpAdvance :: ((fun p => OpCommit (mkDKGCommitment (participant_index p) points [])) <$> ps) ++
  OpAdvance :: ((fun p => OpShare (mkDKGSecretShare (participant_index p) 0 share [])) <$> ps) ++
  [OpAdvance; OpAdvance; OpAdvance].

Lemma session_run_app s l k : session_run s (l ++ k) = session_run (session_run s l) k.
Proof. unfold session_run. apply foldl_app. Qed.

Lemma add_commitment_ok c s :
  session_state s = CommitmentPhase -> commitment_participant_index c ∈ indices s ->
  commitments s !! commitment_participant_index c = None ->
  add_commitment c s = (s <| commitments ::= <[commitment_participant_index c := c]> |>, Ok tt).
Proof.
  intros Hst Hi Hn. unfold add_commitment. rewrite bool_decide_eq_true_2 by done.
  rewrite (proj2 (has_index_spec s _) Hi). by rewrite Hn.
Qed.

Lemma add_secret_share_ok x s :
  session_state s = ShareDistributionPhase -> from_participant x ∈ indices s ->
  secret_shares s !! from_participant x = None ->
  add_secret_share x s = (s <| secret_shares ::= <[from_participant x := x]> |>, Ok tt).
Proof.
  intros Hst Hi Hn. unfold add_secret_share. rewrite bool_decide_eq_true_2 by done.
  rewrite (proj2 (has_index_spec s _) Hi). by rewrite Hn.
Qed.

Lemma fresh_index p (ps : list DKGParticipant) q :
  participant_index p ∉ participant_index <$> ps -> q ∈ ps -> participant_index p <> participant_index q.
Proof. intros Hp Hq He. apply Hp. rewrite He. apply list_elem_of_fmap. eauto. Qed.

(** Commitments of distinct participants are all accepted. *)
Lemma commit_all s points ps :
  session_state s = CommitmentPhase -> NoDup (participant_index <$> ps) ->
  Forall (fun p => participant_index p ∈ indices s /\ commitments s !! participant_index p = None) ps ->
  let s' := session_run s ((fun p => OpCommit (mkDKGCommitment (participant_index p) points [])) <$> ps) in
  session_state s' = CommitmentPhase /\ participants s' = participants s /\
  secret_shares s' = secret_shares s /\
  size (commitments s') = (size (commitments s) + length ps)%nat.
Proof.
  revert s. induction ps as [|p ps IH]; intros s Hst Hnd Hall; [cbn; split_and!; try done; lia|].
  apply Forall_cons in Hall as [[Hi Hn] Hall]. rewrite fmap_cons in *. apply NoDup_cons in Hnd as [Hp Hnd].
  unfold session_run. cbn [foldl session_exec]. rewrite add_commitment_ok by done.
  cbn [fst commitment_participant_index]. set (s1 := s <| commitments ::= _ |>).
  destruct (IH s1) as (E1 & E2 & E3 & E4); [by destruct s|done|..].
  - rewrite Forall_forall in Hall |- *. intros q Hq. destruct (Hall q Hq) as [Hqi Hqn]. split; [by destruct s|].
    pose proof (fresh_index _ _ _ Hp Hq). unfold s1. destruct s; cbn in *. by rewrite lookup_insert_ne.
  - unfold session_run in *. split; [done|]. split; [rewrite E2; by destruct s|]. split; [rewrite E3; by destruct s|].
    rewrite E4. unfold s1. destruct s; cbn in *. rewrite map_size_insert_None by done. lia.
Qed.

Lemma share_all s share ps :
  session_state s = ShareDistributionPhase -> NoDup (participant_index <$> ps) ->
  Forall (fun p => participant_index p ∈ indices s /\ secret_shares s !! participant_index p = None) ps ->
  let s' := session_run s ((fun p => OpShare (mkDKGSecretShare (participant_index p) 0 share [])) <$> ps) in
  session_state s' = ShareDistributionPhase /\ participants s' = participants s /\
  size (secret_shares s') = (size (secret_shares s) + length ps)%nat.
Proof.
  revert s. induction ps as [|p ps IH]; intros s Hst Hnd Hall; [cbn; split_and!; try done; lia|].
  apply Forall_cons in Hall as [[Hi Hn] Hall]. rewrite fmap_cons in *. apply NoDup_cons in Hnd as [Hp Hnd].
  unfold session_run. cbn [foldl session_exec]. rewrite add_secret_share_ok by done.
  cbn [fst from_participant]. set (s1 := s <| secret_shares ::= _ |>).
  destruct (IH s1) as (E1 & E2 & E4); [by destruct s|done|..].
  - rewrite Forall_forall in Hall |- *. intros q Hq. destruct (Hall q Hq) as [Hqi Hqn]. split; [by destruct s|].
    pose proof (fresh_index _ _ _ Hp Hq). unfold s1. destruct s; cbn in *. by rewrite lookup_insert_ne.
  - unfold session_run in *. split; [done|]. split; [rewrite E2; by destruct s|].
    rewrite E4. unfold s1. destruct s; cbn in *. rewrite map_size_insert_None by done. lia.
Qed.

Lemma full_run_completes id ps t h params points share :
  3 <= len ps -> NoDup (participant_index <$> ps) ->
  session_state (session_run (DKGSession_new id ps t h params) (full_run ps points share)) = DkgCompleted.
Proof.
  intros Hlen Hnd. set (s0 := DKGSession_new id ps t h params). unfold full_run.
  set (commits := (_ <$> ps)). set (shares := (_ <$> ps)).
  assert (Hin : forall q s, participants s = ps -> q ∈ ps -> participant_index q ∈ indices s).
  { intros q s Hs Hq. unfold indices. rewrite Hs. apply list_elem_of_fmap. eauto. }
  change (OpAdvance :: ?l) with ([OpAdvance] ++ l). rewrite session_run_app.
  set (s1 := session_run s0 [OpAdvance]).
  assert (H1 : s1 = s0 <| session_state := CommitmentPhase |>).
  { unfold s1, session_run. cbn [foldl session_exec]. unfold advance_phase. cbn [session_state s0 DKGSession_new].
    by destruct (Z.leb_spec 3 (len (participants s0))) as [_|Hn]; [|cbn in Hn; lia]. }
  rewrite session_run_app. destruct (commit_all s1 points ps) as (C1 & C2 & C3 & C4).
  { by rewrite H1. } { done. }
  { rewrite Forall_forall. intros q Hq. rewrite H1. split; [by apply Hin|done]. }
  fold commits in C1, C2, C3, C4. set (s2 := session_run s1 commits) in *.
  change (OpAdvance :: ?l) with ([OpAdvance] ++ l). rewrite session_run_app.
  set (s3 := session_run s2 [OpAdvance]).
  assert (Hp2 : participants s2 = ps) by (by rewrite C2, H1).
  assert (H3 : s3 = s2 <| session_state := ShareDistributionPhase |>).
  { unfold s3, session_run. cbn [foldl session_exec]. unfold advance_phase. rewrite C1.
    unfold all_commitments_received. rewrite C4, Hp2, H1. cbn [commitments]. unfold len.
    by rewrite (proj2 (Z.eqb_eq _ _)) by (cbn; rewrite ?map_size_empty; lia). }
  rewrite session_run_app. destruct (share_all s3 share ps) as (S1 & S2 & S4).
  { rewrite H3. by destruct s2. } { done. }
  { rewrite Forall_forall. intros q Hq. rewrite H3. split; [apply Hin; [by destruct s2|done]|].
    assert (secret_shares s2 = ∅) as He by (by rewrite C3, H1). destruct s2; cbn in *. by rewrite He. }
  fold shares in S1, S2, S4. set (s4 := session_run s3 shares) in *.
  unfold session_run. cbn [foldl session_exec]. unfold advance_phase at 3. rewrite S1.
  unfold all_shares_received. rewrite (proj2 (Z.eqb_eq _ _)); [by destruct s4|].
  assert (secret_shares s3 = ∅) as He.
  { rewrite H3. transitivity (secret_shares s2); [by destruct s2|]. by rewrite C3, H1. }
  assert (participants s3 = ps) as Hp3 by (rewrite H3; by destruct s2).
  rewrite S4, He, S2, Hp3, map_size_empty. unfold len. lia.
Qed.

(** * Theorems *)

(** After any sequence of operations on a new session: commitments
    and shares are filed under participants, past the commitment phase every
    participant has committed and past the share phase every participant has
    shared, with distinct indices; no complaint is ever recorded, the session
    is never marked as failed, and it has no group key even when completed. *)
Theorem session_safety id ps t h params ops :
  let s := session_run (DKGSession_new id ps t h params) ops in
  map_Forall (fun i c => commitment_participant_index c = i /\ i ∈ participant_index <$> ps) (commitments s) /\
  map_Forall (fun i x => from_participant x = i /\ i ∈ participant_index <$> ps) (secret_shares s) /\
  (2 <= phase (session_state s) -> NoDup (participant_index <$> ps) /\
     forall i, i ∈ participant_index <$> ps -> is_Some (commitments s !! i)) /\
  (3 <= phase (session_state s) ->
     forall i, i ∈ participant_index <$> ps -> is_Some (secret_shares s !! i)) /\
  session_state s <> DkgFailed /\
  complaints s = [] /\ justifications s = [] /\ group_public_key s = None.
Proof.
  intros s. pose proof (session_run_wf _ ops (session_new_wf id ps t h params)) as Hw.
  fold s in Hw. assert (Hi : indices s = participant_index <$> ps).
  { unfold indices, s. by rewrite session_run_static. }
  rewrite <- Hi. split; [apply Hw|]. split; [apply Hw|]. split; [by apply wf_every_commitment|].
  split; [by apply wf_every_share|]. split; apply Hw.
Qed.

(** C30. A session can be completed exactly if it has at least three
    participants and their indices are distinct; otherwise it never leaves the
    commitment phase. *)
Theorem session_completes_iff id ps t h params :
  let runs ops := session_state (session_run (DKGSession_new id ps t h params) ops) in
  ((exists ops, runs ops = DkgCompleted) <-> 3 <= len ps /\ NoDup (participant_index <$> ps)) /\
  (~ (3 <= len ps /\ NoDup (participant_index <$> ps)) ->
   forall ops, runs ops = WaitingForParticipants \/ runs ops = CommitmentPhase).
Proof.
  intros runs.
  assert (Hrun : forall ops, 2 <= phase (runs ops) -> 3 <= len ps /\ NoDup (participant_index <$> ps)).
  { intros ops Hp. unfold runs in Hp. set (s := session_run _ ops) in Hp.
    pose proof (session_run_wf _ ops (session_new_wf id ps t h params)) as Hw. fold s in Hw.
    assert (Hps : participants s = ps) by (unfold s; by rewrite session_run_static).
    rewrite <- Hps. split; [apply wf_enough; [done|lia]|].
    exact (proj1 (wf_every_commitment s Hw Hp)). }
  split; [split|].
  - intros [ops Hc]. apply (Hrun ops). by rewrite Hc.
  - intros [Hl Hnd]. exists (full_run ps [] []). by apply full_run_completes.
  - intros Hn ops. destruct (runs ops) eqn:Hr; auto; destruct Hn; apply (Hrun ops); rewrite Hr; cbn; lia.
Qed.

(** The threshold is the percentage of the participants rounded up, at
    least one and, up to 100 percent, never more than the participants; with
    the default of 67 percent it is at least two thirds of them. *)
Theorem calculate_threshold_spec (n pct : Z) :
  1 <= n -> 0 <= pct <= 100 -> n * pct + 99 <= u32_max ->
  let t := calculate_threshold n pct in
  1 <= t <= n /\ n * pct <= 100 * t /\ (forall k, 1 <= k -> n * pct <= 100 * k -> t <= k) /\
  (pct = threshold_percentage DKGParams_default -> 2 * n <= 3 * t).
Proof.
  intros Hn Hp Hb t. unfold t, calculate_threshold.
  assert (0 <= n * pct) by nia. rewrite wrap32_small by lia.
  set (q := (n * pct + 99) / 100).
  assert (Hq : 100 * q <= n * pct + 99 < 100 * q + 100).
  { pose proof (Z.div_mod (n * pct + 99) 100 ltac:(lia)). pose proof (Z.mod_pos_bound (n * pct + 99) 100 ltac:(lia)).
    fold q in H0. lia. }
  assert (n * pct <= n * 100) by nia.
  split_and!; [lia|lia|lia|intros; lia|]. cbn. intros ->. lia.
Qed.

Lemma calculate_threshold_spec_witness :
  calculate_threshold 12 67 = 9 /\ 1 <= calculate_threshold 12 67 <= 12 /\ 2 * 12 <= 3 * calculate_threshold 12 67.
Proof.
  split; [reflexivity|].
  destruct (calculate_threshold_spec 12 67) as (H1 & _ & _ & H4); [lia|lia|unfold u32_max; lia|].
  split; [exact H1|exact (H4 eq_refl)].
Defined.
