(* ===== verification/ThresholdAlgebra.v ===== *)
(** The algebra of the threshold keys (the field and curve arithmetic of
    src/rusty-crypto/src/dkg.rs): evaluation of the secret polynomial, Feldman
    consistency, Lagrange coefficients and the aggregation of signature shares.

    The curve library is a parameter: its scalars are a field [F]
    ([bls12_381::Scalar]), its groups are modules over it, [generator] is the
    fixed point of G1.  Decoding of a signature share and encoding of the
    aggregate are functions that may fail.  A [HashMap] is the sequence of its
    entries, with distinct keys, in iteration order. *)

From mathcomp Require Import boot ssralg poly zmodp.
From Stdlib Require Import String.

Set Implicit Arguments.
Unset Strict Implicit.
Unset Printing Implicit Defensive.

Import GRing.Theory.
#[local] Open Scope ring_scope.

(** * Results *)

(** [Result<A, DKGError>]; the only error of these functions is
    [CryptographicError], and a failed [unwrap] panics. *)
Inductive result (A : Type) : Type :=
| Good (a : A)
| CryptographicFailure (msg : string)
| Panicked.
Arguments Good {A} a.
Arguments CryptographicFailure {A} msg.
Arguments Panicked {A}.

Definition andthen {A B : Type} (m : result A) (f : A -> result B) : result B :=
  match m with
  | Good a => f a
  | CryptographicFailure msg => CryptographicFailure msg
  | Panicked => Panicked
  end.

Section Shares.
  Variables (F : fieldType) (G1 : lmodType F) (generator : G1).

(** [Scalar::from(index as u64)] *)
Definition scalar_from (index : nat) : F := index%:R.

(** The loop of [generate_secret_shares] that evaluates the polynomial. *)
Definition share_step (x : F) (acc : F * F) (coeff : F) : F * F :=
  (acc.1 + coeff * acc.2, acc.2 * x).

Definition eval_share (secret_coefficients : seq F) (index : nat) : F :=
  (foldl (share_step (scalar_from index)) (0, 1) secret_coefficients).1.

(** The points [generate_commitments] publishes. *)
Definition commit_points (secret_coefficients : seq F) : seq G1 :=
  [seq coeff *: generator | coeff <- secret_coefficients].

Definition expected_step (x : F) (acc : G1 * F) (commitment : G1) : G1 * F :=
  (acc.1 + acc.2 *: commitment, acc.2 * x).

Definition verify_secret_share_consistency (share : F) (participant_index : nat)
    (commitments : seq G1) : result bool :=
  if commitments is [::] then CryptographicFailure "Empty commitments"
  else
    let expected_point := (foldl (expected_step (scalar_from participant_index)) (0, 1) commitments).1 in
    Good (expected_point == share *: generator).

(** The scalar of [reconstruct_secret_key_share]: the constant term of our own
    polynomial plus what the others sent. *)
Definition combined_share (secret_coefficients received_shares : seq F) : F :=
  foldl +%R (if secret_coefficients is a0 :: _ then a0 else 0) received_shares.

(** The point of [compute_group_public_key]. *)
Definition group_point (public_commitments : seq G1) : G1 :=
  if public_commitments is first :: _ then 0 + first else 0.

(** * Lagrange coefficients *)

Definition lagrange_step (target_index : nat) (acc : F * F) (index : nat) : F * F :=
  if index != target_index
  then (acc.1 * scalar_from index, acc.2 * (scalar_from index - scalar_from target_index))
  else acc.

Definition compute_lagrange_coefficient (participant_indices : seq nat) (target_index : nat) :
    result F :=
  if target_index \notin participant_indices
  then CryptographicFailure "Target index not in participant list"
  else
    let: (numerator, denominator) := foldl (lagrange_step target_index) (1, 1) participant_indices in
    if denominator == 0
    then CryptographicFailure "Failed to invert denominator in Lagrange coefficient"
    else Good (numerator * denominator^-1).

End Shares.

Section Aggregation.
  Variables (F : fieldType) (G2 : lmodType F).
  Variables (SignatureShare : eqType) (Signature : Type).
  Variables (share_to_g2 : SignatureShare -> option G2) (signature_from_g2 : G2 -> option Signature).

(** [xm * (xj - xm).invert().unwrap()], multiplied into [lambda]. *)
Definition lambda_step (xs : seq F) (j : nat) (acc : result F) (m : nat) : result F :=
  andthen acc (fun lambda =>
    if j != m then
      let xj := nth 0 xs j in
      let xm := nth 0 xs m in
      if xj - xm == 0 then Panicked else Good (lambda * (xm * (xj - xm)^-1))
    else Good lambda).

Definition lambda_at (xs : seq F) (j : nat) : result F :=
  foldl (lambda_step xs j) (Good 1) (iota 0 (size xs)).

Definition signature_share_to_g2_point (share : SignatureShare) : result G2 :=
  if share_to_g2 share is Some point then Good point
  else CryptographicFailure "Invalid G2 point in SignatureShare".

(** One round of the outer loop: [interpolated_g2 += point * lambda]. *)
Definition interpolate_step (shares_vec : seq (nat * SignatureShare)) (acc : result G2)
    (jshare : nat * SignatureShare) : result G2 :=
  andthen acc (fun interpolated_g2 =>
  andthen (lambda_at [seq scalar_from F p.1 | p <- shares_vec] jshare.1) (fun lambda =>
  andthen (signature_share_to_g2_point jshare.2) (fun point =>
  Good (interpolated_g2 + lambda *: point)))).

Definition lagrange_interpolate_signatures (threshold : nat) (shares_vec : seq (nat * SignatureShare)) :
    result Signature :=
  if (size shares_vec < threshold)%N then CryptographicFailure "Insufficient signature shares"
  else
    andthen (foldl (interpolate_step shares_vec) (Good 0)
      (zip (iota 0 (size shares_vec)) (unzip2 shares_vec))) (fun interpolated_g2 =>
    if signature_from_g2 interpolated_g2 is Some signature then Good signature
    else CryptographicFailure "Invalid aggregated signature bytes").

(** [sort_by_key] on the participant index. *)
Definition by_index (p q : nat * SignatureShare) : bool := (p.1 <= q.1)%N.

Definition aggregate_signature_shares (signature_shares : seq (nat * SignatureShare)) (threshold : nat) :
    result Signature :=
  if (size signature_shares < threshold)%N then CryptographicFailure "Insufficient signature shares"
  else lagrange_interpolate_signatures threshold (sort by_index signature_shares).

End Aggregation.

(** * Evaluation *)

Section Evaluation.
  Variables (F : fieldType) (G1 : lmodType F) (generator : G1).

Lemma foldl_share (x : F) s acc :
  (foldl (share_step x) acc s).1 = acc.1 + acc.2 * horner_rec s x.
Proof.
elim: s acc => [|c s IH] acc /=; first by rewrite mulr0 addr0.
by rewrite IH /= mulrDr -addrA; congr (_ + _); rewrite addrC [c * _]mulrC -!mulrA [_ * x]mulrC.
Qed.

Lemma eval_share_horner s i : eval_share s i = (Poly s).[scalar_from F i].
Proof. by rewrite /eval_share foldl_share /= add0r mul1r horner_Poly. Qed.

Lemma foldl_expected (x : F) s acc :
  (foldl (expected_step x) acc (commit_points generator s)).1 = acc.1 + (acc.2 * horner_rec s x) *: generator.
Proof.
elim: s acc => [|c s IH] acc /=; first by rewrite mulr0 scale0r addr0.
rewrite IH /= scalerA -addrA -scalerDl; congr (_ + _ *: _).
by rewrite mulrDr addrC -!mulrA [x * _]mulrC.
Qed.

End Evaluation.

(** * Lagrange interpolation at zero *)

Section Interpolation.
  Variable F : fieldType.
  Implicit Types (xs : seq F) (p : {poly F}).

(** The polynomial that is one at the [j]-th point and zero at the others. *)
Definition basis xs (j : nat) : {poly F} :=
  \prod_(m <- iota 0 (size xs) | m != j) ((nth 0 xs j - nth 0 xs m)^-1 *: ('X - (nth 0 xs m)%:P)).

Lemma nth_differ xs i j :
  uniq xs -> (i < size xs)%N -> (j < size xs)%N -> i != j -> nth 0 xs i - nth 0 xs j != 0.
Proof. by move=> Hu Hi Hj Hij; rewrite subr_eq0 nth_uniq. Qed.

Lemma horner_basis xs j x :
  (basis xs j).[x] =
  \prod_(m <- iota 0 (size xs) | m != j) ((nth 0 xs j - nth 0 xs m)^-1 * (x - nth 0 xs m)).
Proof. by rewrite /basis horner_prod; apply: eq_bigr => m _; rewrite hornerZ hornerXsubC. Qed.

Lemma basis_at xs i j :
  uniq xs -> (i < size xs)%N -> (j < size xs)%N -> (basis xs j).[nth 0 xs i] = (i == j)%:R.
Proof.
move=> Hu Hi Hj; rewrite horner_basis; case: eqP => [->|/eqP Hij].
  rewrite big_seq_cond big1 // => m /andP [Hm Hmj]; rewrite mem_iota /= in Hm.
  by rewrite mulVf // nth_differ // eq_sym.
rewrite (big_rem i) /= ?mem_iota // Hij.
by rewrite subrr mulr0 mul0r.
Qed.

Lemma size_prod_leq (s : seq nat) (P : pred nat) (G : nat -> {poly F}) :
  (forall m, P m -> (size (G m) <= 2)%N) -> (size (\prod_(m <- s | P m) G m)%R <= (count P s).+1)%N.
Proof.
move=> HG; elim: s => [|m s IH]; first by rewrite big_nil size_poly1.
rewrite big_cons /=; case Pm: (P m); last by rewrite add0n.
apply: (leq_trans (size_polyMleq _ _)); rewrite add1n.
have := leq_add (HG m Pm) IH.
by case: (_ + _)%N => //= k; rewrite addSn add1n ltnS.
Qed.

Lemma size_basis xs j : (j < size xs)%N -> (size (basis xs j) <= size xs)%N.
Proof.
move=> Hj; apply: (leq_trans (size_prod_leq _ _)).
  by move=> m _; apply: (leq_trans (size_scale_leq _ _)); rewrite size_XsubC.
rewrite -[X in (_ <= X)%N](size_iota 0 (size xs)) -(count_predC (fun m => m != j)).
rewrite -[X in (X <= _)%N]addn1 leq_add2l -has_count; apply/hasP; exists j; first by rewrite mem_iota.
by rewrite /= eqxx.
Qed.

(** A polynomial of at most as many coefficients as points is determined by
    its values there; this gives its value at zero. *)
Lemma interpolate_at_zero xs p :
  uniq xs -> (size p <= size xs)%N ->
  \sum_(j <- iota 0 (size xs)) (basis xs j).[0] * p.[nth 0 xs j] = p.[0].
Proof.
move=> Hu Hp.
pose q : {poly F} := \sum_(j <- iota 0 (size xs)) p.[nth 0 xs j] *: basis xs j.
have Hq i : (i < size xs)%N -> q.[nth 0 xs i] = p.[nth 0 xs i].
  move=> Hi; rewrite horner_sum (big_rem i) /= ?mem_iota // hornerZ basis_at // eqxx mulr1.
  rewrite big_seq big1 ?addr0 // => j; rewrite (rem_filter _ (iota_uniq _ _)) mem_filter /= mem_iota.
  by move=> /andP [Hji Hj]; rewrite hornerZ basis_at // eq_sym (negbTE Hji) mulr0.
have -> : p = q.
  apply/esym/eqP; rewrite -subr_eq0; apply/eqP; apply: (@roots_geq_poly_eq0 _ _ xs) => //.
    apply/(all_nthP 0) => i Hi; rewrite /root hornerD hornerN Hq //; exact/eqP/subrr.
  apply: (leq_trans (size_polyD _ _)); rewrite geq_max size_polyN Hp andbT.
  apply: (leq_trans (size_sum _ _ _)); apply/bigmax_leqP_seq => j; rewrite mem_iota /= => Hj _.
  exact: (leq_trans (size_scale_leq _ _) (size_basis Hj)).
rewrite horner_sum big_seq [RHS]big_seq; apply: eq_bigr => j; rewrite mem_iota /= => Hj.
by rewrite hornerZ mulrC -Hq // /q.
Qed.

End Interpolation.

(** * The coefficients the code computes *)

Section Coefficients.
  Variables (F : fieldType) (G2 : lmodType F).
  Implicit Types xs : seq F.

(** What the loop of [lagrange_interpolate_signatures] multiplies together. *)
Definition code_lambda xs (j : nat) : F :=
  \prod_(m <- iota 0 (size xs) | m != j) (nth 0 xs m * (nth 0 xs j - nth 0 xs m)^-1).

Lemma foldl_lambda xs j s c :
  uniq xs -> (j < size xs)%N -> all (fun m => m < size xs)%N s ->
  foldl (lambda_step xs j) (Good c) s =
  Good (c * \prod_(m <- s | m != j) (nth 0 xs m * (nth 0 xs j - nth 0 xs m)^-1)).
Proof.
move=> Hu Hj; elim: s c => [|m s IH] c /=; first by rewrite big_nil mulr1.
move=> /andP [Hm Hs]; rewrite big_cons [m == j]eq_sym.
case Hjm: (j != m); last exact: IH.
by rewrite (negbTE (nth_differ Hu Hj Hm Hjm)) IH // -[_ * _ * _]mulrA.
Qed.

Lemma lambda_at_ok xs j : uniq xs -> (j < size xs)%N -> lambda_at xs j = Good (code_lambda xs j).
Proof.
move=> Hu Hj; rewrite /lambda_at foldl_lambda ?mul1r //.
by apply/allP => m; rewrite mem_iota.
Qed.

(** Each factor of the code's coefficient has the opposite sign. *)
Lemma code_lambda_sign xs j :
  (j < size xs)%N -> code_lambda xs j = (-1) ^+ (size xs).-1 * (basis xs j).[0].
Proof.
move=> Hj; rewrite horner_basis /code_lambda.
have -> : (size xs).-1 = count (fun m => m != j) (iota 0 (size xs)).
  have := count_predC (fun m => m != j) (iota 0 (size xs)); rewrite size_iota.
  rewrite (@eq_count _ (predC (fun m => m != j)) (pred1 j)); first by move=> m; rewrite /= negbK.
  by rewrite count_uniq_mem ?iota_uniq // mem_iota /= Hj addn1 => /(congr1 predn) /= ->.
elim: (iota 0 (size xs)) => [|m s IH]; first by rewrite !big_nil expr0 mul1r.
rewrite !big_cons /=; case: (m != j); rewrite ?add0n // add1n exprS IH.
by rewrite [RHS]mulrACA sub0r mulrN mulN1r opprK [(_ - _)^-1 * _]mulrC.
Qed.

(** The weighted sum of the shares is the constant term, up to the sign. *)
Lemma code_interpolates xs (p : {poly F}) :
  uniq xs -> (size p <= size xs)%N ->
  \sum_(j <- iota 0 (size xs)) code_lambda xs j * p.[nth 0 xs j] = (-1) ^+ (size xs).-1 * p.[0].
Proof.
move=> Hu Hp; rewrite -(interpolate_at_zero Hu Hp) big_distrr /= big_seq [RHS]big_seq.
by apply: eq_bigr => j; rewrite mem_iota /= => Hj; rewrite code_lambda_sign // mulrA.
Qed.

(** What [compute_lagrange_coefficient] multiplies together. *)
Lemma foldl_coefficient (target : nat) s acc :
  foldl (@lagrange_step F target) acc s =
  (acc.1 * \prod_(i <- s | i != target) scalar_from F i,
   acc.2 * \prod_(i <- s | i != target) (scalar_from F i - scalar_from F target)).
Proof.
elim: s acc => [|i s IH] [a b] /=; first by rewrite !big_nil !mulr1.
by rewrite IH !big_cons /lagrange_step; case: (i != target); rewrite //= !mulrA.
Qed.

(** A product over the distinct scalars of a list, by position. *)
Lemma prod_by_position (s : seq nat) j (G : F -> F) :
  uniq [seq scalar_from F i | i <- s] -> (j < size s)%N ->
  \prod_(i <- s | i != nth 0%N s j) G (scalar_from F i) =
  \prod_(m <- iota 0 (size s) | m != j) G (nth 0 [seq scalar_from F i | i <- s] m).
Proof.
move=> Hu Hj; have Hus := map_uniq Hu.
rewrite -{1}[s](mkseq_nth 0%N) /mkseq big_map big_seq_cond [RHS]big_seq_cond.
apply: eq_big => [m|m /andP [Hm _]].
  by rewrite mem_iota /=; case Hm: (m < size s)%N; rewrite //= nth_uniq.
by rewrite mem_iota /= in Hm; rewrite (nth_map 0%N).
Qed.

(** With distinct scalars the coefficient is the value of the basis polynomial. *)
Lemma coefficient_ok (s : seq nat) j :
  uniq [seq scalar_from F i | i <- s] -> (j < size s)%N ->
  compute_lagrange_coefficient F s (nth 0%N s j) = Good (basis [seq scalar_from F i | i <- s] j).[0].
Proof.
move=> Hu Hj; rewrite /compute_lagrange_coefficient mem_nth //= foldl_coefficient /= !mul1r.
rewrite (prod_by_position (fun x => x) Hu Hj).
rewrite (prod_by_position (fun x => x - scalar_from F (nth 0%N s j)) Hu Hj).
set xs := [seq _ | i <- s]; have Hsz : size xs = size s by rewrite size_map.
have Hx : scalar_from F (nth 0%N s j) = nth 0 xs j by rewrite (nth_map 0%N).
rewrite Hx prodf_seq_eq0 -Hsz; case: ifP => [/hasP [m]|_].
  rewrite mem_iota /= => Hm /andP [Hmj Hz].
  by have := nth_differ Hu Hm (_ : (j < size xs)%N) Hmj; rewrite Hz Hsz => /(_ Hj).
congr Good; rewrite horner_basis -prodfV -big_split /=; apply: eq_bigr => m Hmj.
by rewrite sub0r mulrN -mulNr -invrN opprB mulrC.
Qed.

End Coefficients.

(** * Theorems *)

Section Theorems.
  Variables (F : fieldType) (G1 G2 : lmodType F) (generator : G1).
  Variables (SignatureShare : eqType) (Signature : Type).
  Variables (share_to_g2 : SignatureShare -> option G2) (signature_from_g2 : G2 -> option Signature).
  Implicit Types (coeffs : seq F) (shares : seq (nat * SignatureShare)).

Lemma constant_term coeffs : (Poly coeffs).[0] = head 0 coeffs.
Proof. by rewrite horner_coef0 coef_Poly nth0. Qed.

Lemma foldl_interpolate (v : seq (nat * SignatureShare)) (d : nat * SignatureShare) (pt : nat -> G2) s acc :
  let xs := [seq scalar_from F p.1 | p <- v] in
  uniq xs -> all (fun j => j < size v)%N s ->
  (forall j, (j < size v)%N -> share_to_g2 (nth d v j).2 = Some (pt j)) ->
  foldl (interpolate_step share_to_g2 v) (Good acc) [seq (j, (nth d v j).2) | j <- s] =
  Good (acc + \sum_(j <- s) code_lambda xs j *: pt j).
Proof.
move=> xs Hu Hs Hpt; elim: s acc Hs => [|j s IH] acc /=; first by rewrite big_nil addr0.
move=> /andP [Hj Hs]; rewrite big_cons /interpolate_step /= -/xs lambda_at_ok ?size_map //=.
by rewrite /signature_share_to_g2_point Hpt //= IH // addrA.
Qed.

Lemma zip_positions (v : seq (nat * SignatureShare)) (d : nat * SignatureShare) :
  zip (iota 0 (size v)) (unzip2 v) = [seq (j, (nth d v j).2) | j <- iota 0 (size v)].
Proof.
have {1}-> : unzip2 v = [seq (nth d v j).2 | j <- iota 0 (size v)].
  by rewrite /unzip2 -{1}(mkseq_nth d v) /mkseq -map_comp.
by rewrite -{1}(map_id (iota 0 (size v))) zip_map.
Qed.

(** C18. Aggregation of signature shares: given at least as many shares as
    the polynomial has coefficients, by distinct participants, each share the
    point [f(i)] times the hashed message, the aggregate is the signature by
    the secret [f(0)] for an odd number of shares and its negative for an even
    number. *)
Theorem aggregate_is_signed_secret (message : G2) coeffs shares (threshold : nat) :
  uniq [seq scalar_from F p.1 | p <- shares] ->
  (0 < size shares)%N -> (threshold <= size shares)%N -> (size coeffs <= size shares)%N ->
  (forall p, p \in shares -> share_to_g2 p.2 = Some (eval_share coeffs p.1 *: message)) ->
  let aggregate := (-1) ^+ (size shares).-1 * head 0 coeffs in
  aggregate_signature_shares share_to_g2 signature_from_g2 shares threshold =
  if signature_from_g2 (aggregate *: message) is Some signature then Good signature
  else CryptographicFailure "Invalid aggregated signature bytes".
Proof.
move=> Hu H0 Ht Hc Hp aggregate; rewrite /aggregate_signature_shares ltnNge Ht /=.
rewrite /lagrange_interpolate_signatures size_sort ltnNge Ht /=.
set v := sort _ shares; have Hv : perm_eq v shares by rewrite perm_sort.
have Hsz : size v = size shares by rewrite size_sort.
case Ev : v => [|d v']; first by rewrite -Hsz Ev in H0.
rewrite -Ev -Hsz (zip_positions v d).
pose xs := [seq scalar_from F p.1 | p <- v].
have Hux : uniq xs by rewrite (perm_uniq (perm_map _ Hv)).
have Hxs : size xs = size v by rewrite size_map.
rewrite (foldl_interpolate (pt := fun j => (Poly coeffs).[nth 0 xs j] *: message)) //=.
- by apply/allP => j; rewrite mem_iota.
- move=> j Hj; rewrite Hp; first by rewrite -(perm_mem Hv) mem_nth.
  by rewrite eval_share_horner /xs (nth_map d).
rewrite add0r -/xs; under eq_bigr do rewrite scalerA.
rewrite -scaler_suml -Hxs code_interpolates ?Hxs //; first by rewrite Hsz (leq_trans (size_Poly _)).
by rewrite constant_term /aggregate ?Hsz.
Qed.

(** [compute_lagrange_coefficient] has the right sign: over distinct
    indices, at least as many as the coefficients, every coefficient is
    computed and the weighted sum of the shares is the secret. *)
Theorem coefficients_reconstruct coeffs (indices : seq nat) :
  uniq [seq scalar_from F i | i <- indices] -> (size coeffs <= size indices)%N ->
  exists lambdas : seq F,
    [seq compute_lagrange_coefficient F indices i | i <- indices] = [seq Good l | l <- lambdas] /\
    \sum_(li <- zip lambdas indices) li.1 * eval_share coeffs li.2 = head 0 coeffs.
Proof.
move=> Hu Hc; set xs := [seq scalar_from F i | i <- indices].
have Hxs : size xs = size indices by rewrite size_map.
exists [seq (basis xs j).[0] | j <- iota 0 (size indices)]; split.
  rewrite -{2}(mkseq_nth 0%N indices) /mkseq -!map_comp; apply/eq_in_map => j.
  by rewrite mem_iota /= => Hj; rewrite coefficient_ok.
rewrite -{2}(mkseq_nth 0%N indices) /mkseq zip_map big_map /=.
have Hp : (size (Poly coeffs) <= size xs)%N by rewrite Hxs (leq_trans (size_Poly _)).
rewrite -constant_term -(interpolate_at_zero Hu Hp) Hxs big_seq [RHS]big_seq.
apply: eq_bigr => j; rewrite mem_iota /= => Hj.
by rewrite eval_share_horner /xs (nth_map 0%N).
Qed.

(** Feldman consistency: against the commitments of a polynomial,
    exactly its own value at the participant's index is consistent (no
    nonzero multiple of the generator vanishes); an empty commitment is an
    error. *)
Theorem consistency_iff coeffs (share : F) (i : nat) :
  (forall s : F, s *: generator = 0 -> s = 0) ->
  verify_secret_share_consistency generator share i (commit_points generator coeffs) =
  if coeffs is [::] then CryptographicFailure "Empty commitments"
  else Good (share == eval_share coeffs i).
Proof.
case: coeffs => [//|c s] Hfree.
have := foldl_expected generator (scalar_from F i) (c :: s) (0, 1).
rewrite -horner_Poly -eval_share_horner add0r mul1r => E.
rewrite /verify_secret_share_consistency; case Ec: (commit_points generator (c :: s)) => [|p l] //; rewrite -Ec E.
congr Good; rewrite -subr_eq0 -scalerBl.
apply/eqP/eqP => [/Hfree /eqP|->]; last by rewrite subrr scale0r.
by rewrite subr_eq0 => /eqP.
Qed.

(** The reconstructed key share is the sum of all polynomials at the
    participant's index exactly if our own polynomial takes the same value
    there as at zero: the code adds its constant term instead of its value. *)
Theorem combined_share_iff coeffs (others : seq (seq F)) (i : nat) :
  combined_share coeffs [seq eval_share c i | c <- others] =
    \sum_(c <- coeffs :: others) eval_share c i <->
  eval_share coeffs i = head 0 coeffs.
Proof.
have Hfold (a : F) l : foldl +%R a l = a + \sum_(x <- l) x.
  by elim: l a => [|x l IH] a /=; rewrite ?big_nil ?addr0 // IH big_cons addrA.
rewrite /combined_share Hfold big_cons big_map.
have -> : (if coeffs is a0 :: _ then a0 else 0) = head 0 coeffs by case: coeffs.
by split => [/addIr|] ->.
Qed.

(** The participant with index zero is sent the secret itself. *)
Theorem index_zero_is_the_secret coeffs : eval_share coeffs 0 = head 0 coeffs.
Proof. by rewrite eval_share_horner /scalar_from constant_term. Qed.

End Theorems.

(** * Samples: the field of seven elements *)

Definition f7_shares : seq (nat * 'F_7) := [:: (3, 2%:R); (1, 5%:R)].

Lemma aggregate_is_signed_secret_witness :
  aggregate_signature_shares (fun s : 'F_7 => Some (s : ('F_7)^o)) (fun g : ('F_7)^o => Some g) f7_shares 2 =
  Good (- 3%:R : ('F_7)^o).
Proof.
rewrite (@aggregate_is_signed_secret 'F_7 ('F_7)^o _ _ _ _ 1 [:: 3%:R; 2%:R]) //.
- by move=> p; rewrite !inE => /orP [] /eqP ->; congr Some; apply/eqP.
- by congr Good; apply/eqP.
Defined.

Lemma coefficients_reconstruct_witness :
  exists lambdas : seq 'F_7,
    [seq compute_lagrange_coefficient 'F_7 [:: 1; 3] i | i <- [:: 1; 3]] = [seq Good l | l <- lambdas] /\
    \sum_(li <- zip lambdas [:: 1; 3]) li.1 * eval_share [:: 3%:R; 2%:R] li.2 = 3%:R.
Proof. exact: (@coefficients_reconstruct 'F_7 [:: 3%:R; 2%:R] [:: 1; 3]). Defined.

Lemma consistency_iff_witness :
  verify_secret_share_consistency (1 : ('F_7)^o) (2%:R : 'F_7) 3 (commit_points (1 : ('F_7)^o) [:: 3%:R; 2%:R]) =
  Good true.
Proof.
rewrite (@consistency_iff 'F_7 ('F_7)^o 1 [:: 3%:R; 2%:R]).
- by move=> s; rewrite [_ *: _]mulr1.
- by congr Good.
Defined.
