(* ===== verification/DkgProtocol.v ===== *)
(** The key-generation protocol of one participant
    (src/rusty-crypto/src/dkg.rs) and the manager of its sessions
    (src/rusty-crypto/src/dkg_manager.rs).

    The curve and threshold libraries are an interface, [Bls12]; random draws
    of [OsRng] are arguments.  A failed bincode serialization is [None].  The
    aggregation of signature shares, the Lagrange coefficients and the
    consistency check, pure field arithmetic, are in ThresholdAlgebra. *)

From Stdlib Require Import ZArith Lia List.
From stdpp Require Import base option list numbers strings gmap.
From coqutil Require Import Datatypes.RecordSetters.
From S2P Require Import Prelude Types Transaction SamplePrimitives F64 Dkg.

Import TriangleBracketNotations.
#[local] Open Scope Z_scope.

(** * Third-party code *)

(** Ed25519 signing and the bincode encodings of a byte vector and of a vector
    of byte vectors. *)
Class AuthKeys : Type := {
  Keypair : Type;
  keypair_public : Keypair -> bytes;
  keypair_sign : Keypair -> bytes -> bytes;
  bincode_bytes : bytes -> option bytes;
  bincode_byte_lists : list bytes -> option bytes;
}.

(** The bls12_381 and threshold_crypto crates. *)
Class Bls12 : Type := {
  Scalar : Type;
  scalar_eq_dec : EqDecision Scalar;
  scalar_zero : Scalar;
  scalar_one : Scalar;
  scalar_add : Scalar -> Scalar -> Scalar;
  scalar_mul : Scalar -> Scalar -> Scalar;
  scalar_from_u64 : Z -> Scalar;
  scalar_from_raw : list Z -> Scalar;
  scalar_to_bytes : Scalar -> bytes;
  scalar_from_bytes : bytes -> option Scalar;
  G1 : Type;
  g1_identity : G1;
  g1_generator : G1;
  g1_add : G1 -> G1 -> G1;
  g1_mul : G1 -> Scalar -> G1;
  g1_to_compressed : G1 -> bytes;
  g1_from_compressed : bytes -> option G1;
  Fr : Type;
  fr_zero : Fr;
  fr_random : bytes -> Fr;
  SecretKeyShare : Type;
  secret_key_share_from : Fr -> SecretKeyShare;
  sign_share : SecretKeyShare -> bytes -> bytes;
  ThresholdPublicKey : Type;
  threshold_key_from_bytes : bytes -> option ThresholdPublicKey;
}.
#[export] Existing Instance scalar_eq_dec.

(** * The protocol of a participant *)

Section Protocol.
  Context `{Primitives, AuthKeys, Bls12}.

Record DKGProtocol : Type := mkDKGProtocol {
  own_index : Z;
  auth_secret_key : Keypair;
}.

Record DKGParticipantState : Type := mkDKGParticipantState {
  secret_coefficients : list Scalar;
  public_commitments : list G1;
  received_shares : gmap Z Scalar;
  secret_key_share : option SecretKeyShare;
  state_group_public_key : option ThresholdPublicKey;
}.

(** The key stream: byte [i] is masked with byte [i % 32] of the derived key. *)
Definition xor_mask (key data : bytes) : bytes :=
  imap (fun i byte => Z.lxor byte (nth (i mod 32) key 0)) data.

Definition derive_key (sender_public recipient_public nonce : bytes) : bytes :=
  sha256 (sender_public ++ recipient_public ++ nonce).

Definition encrypt_share (p : DKGProtocol) (nonce share_bytes recipient_public_key : bytes) :
    outcome DKGError bytes :=
  if negb (len recipient_public_key =? 32)
  then Err (CryptographicError "Invalid recipient public key length")
  else
    let key := derive_key (keypair_public (auth_secret_key p)) recipient_public_key nonce in
    Ok (nonce ++ xor_mask key share_bytes).

(** [draws] holds, for each coefficient, the four words read from the random
    generator. *)
Definition generate_commitments (p : DKGProtocol) (draws : nat -> list Z) (session : DKGSession) :
    outcome DKGError DKGCommitment :=
  if negb (bool_decide (session_state session = CommitmentPhase)) then Err InvalidSessionState
  else
    let coefficients := (fun i => scalar_from_raw (draws i)) <$> seq 0 (Z.to_nat (threshold session)) in
    let points := g1_mul g1_generator <$> coefficients in
    let commitment_bytes := g1_to_compressed <$> points in
    commitment_data ← ok_or (bincode_byte_lists commitment_bytes)
      (CryptographicError "bincode");
    mret (mkDKGCommitment (own_index p) commitment_bytes
      (keypair_sign (auth_secret_key p) commitment_data)).

(** The Ed25519 check shared by the verification functions. *)
Definition check_signature (key : DalekPublicKey) (data signature : bytes) : outcome DKGError unit :=
  if negb (len signature =? 64) then Err DkgInvalidSignature
  else
    sig ← ok_or (signature_from_bytes signature) DkgInvalidSignature;
    if ed25519_verify key data sig then Ok tt else Err DkgInvalidSignature.

Definition verify_commitment (commitment : DKGCommitment) (participant_public_key : DalekPublicKey) :
    outcome DKGError bool :=
  commitment_data ← ok_or (bincode_byte_lists (commitment_points commitment))
    (CryptographicError "bincode");
  check_signature participant_public_key commitment_data (commitment_signature commitment);;
  mret (forallb (fun b => len b =? 48) (commitment_points commitment)).

(** The polynomial at [x]: [share += coeff * x_power; x_power *= x]. *)
Definition poly_step (x : Scalar) (acc : Scalar * Scalar) (coeff : Scalar) : Scalar * Scalar :=
  (scalar_add (fst acc) (scalar_mul coeff (snd acc)), scalar_mul (snd acc) x).

Definition poly_at (coefficients : list Scalar) (x : Scalar) : Scalar :=
  fst (foldl (poly_step x) (scalar_zero, scalar_one) coefficients).

(** One share: [None] for the participant itself. *)
Definition share_for (p : DKGProtocol) (nonce : bytes) (st : DKGParticipantState)
    (participant : DKGParticipant) : outcome DKGError (list DKGSecretShare) :=
  if participant_index participant =? own_index p then Ok []
  else
    let share := poly_at (secret_coefficients st) (scalar_from_u64 (participant_index participant)) in
    encrypted ← map_err (fun e => CryptographicError
        ("Failed to encrypt share: " +:+ DKGError_to_string e))
      (encrypt_share p nonce (scalar_to_bytes share) (participant_public_key participant));
    mret [mkDKGSecretShare (own_index p) (participant_index participant) encrypted
      (keypair_sign (auth_secret_key p) encrypted)].

Fixpoint shares_for (p : DKGProtocol) (nonces : nat -> bytes) (st : DKGParticipantState) (i : nat)
    (ps : list DKGParticipant) : outcome DKGError (list DKGSecretShare) :=
  match ps with
  | [] => mret []
  | participant :: ps =>
      s ← share_for p (nonces i) st participant;
      rest ← shares_for p nonces st (S i) ps;
      mret (s ++ rest)
  end.

Definition generate_secret_shares (p : DKGProtocol) (nonces : nat -> bytes) (session : DKGSession)
    (st : DKGParticipantState) : outcome DKGError (list DKGSecretShare) :=
  if negb (bool_decide (session_state session = ShareDistributionPhase)) then Err InvalidSessionState
  else shares_for p nonces st 0 (participants session).

(** Every point has 48 bytes and decodes. *)
Fixpoint check_points (points : list bytes) : outcome DKGError unit :=
  match points with
  | [] => Ok tt
  | b :: points =>
      if negb (len b =? 48)
      then Err (CryptographicError "Invalid commitment point size: expected 48 bytes")
      else match g1_from_compressed b with
           | None => Err (CryptographicError "Invalid G1 commitment point")
           | Some _ => check_points points
           end
  end.

(** [x as i32] of a [u32]. *)
Definition as_i32 (z : Z) : Z := if z <? 2147483648 then z else z - 4294967296.

(** The loop that accumulates the expected point repeats the checks of each
    commitment; the point itself is compared with nothing. *)
Definition verify_feldman_vss_share (share : DKGSecretShare) (commitment : DKGCommitment)
    (participant_index : Z) : outcome DKGError unit :=
  if len (encrypted_share share) =? 0 then Err (CryptographicError "Empty encrypted share")
  else if len (commitment_points commitment) =? 0
  then Err (CryptographicError "Empty commitment vector")
  else
    check_points (commitment_points commitment);;
    if (participant_index <? 1) || (255 <? participant_index)
    then Err (CryptographicError "Invalid participant index")
    else check_points (commitment_points commitment).

Definition verify_secret_share (p : DKGProtocol) (share : DKGSecretShare)
    (sender_commitment : DKGCommitment) (sender_public_key : DalekPublicKey) : outcome DKGError bool :=
  share_data ← ok_or (bincode_bytes (encrypted_share share)) (CryptographicError "bincode");
  check_signature sender_public_key share_data (share_signature share);;
  verify_feldman_vss_share share sender_commitment (as_i32 (own_index p));;
  mret true.

(** A nonzero scalar becomes a pseudo-random element seeded by its hash. *)
Definition scalar_to_fr (scalar : Scalar) : Fr :=
  if bool_decide (scalar = scalar_zero) then fr_zero
  else fr_random (sha256 (scalar_to_bytes scalar)).

(** [shares] are the received shares in the order of the map. *)
Definition reconstruct_secret_key_share (st : DKGParticipantState) : SecretKeyShare :=
  match secret_key_share st with
  | Some existing_share => existing_share
  | None =>
      let own := match secret_coefficients st with a0 :: _ => a0 | [] => scalar_zero end in
      let combined_share := foldl scalar_add own (map_to_list (received_shares st)).*2 in
      secret_key_share_from (scalar_to_fr combined_share)
  end.

Definition compute_group_public_key (st : DKGParticipantState) : outcome DKGError ThresholdPublicKey :=
  let group_point := match public_commitments st with
                     | first_commitment :: _ => g1_add g1_identity first_commitment
                     | [] => g1_identity
                     end in
  ok_or (threshold_key_from_bytes (g1_to_compressed group_point))
    (CryptographicError "Invalid group public key bytes").

Definition complete_dkg (session : DKGSession) (st : DKGParticipantState) :
    outcome DKGError (SecretKeyShare * ThresholdPublicKey) :=
  if negb (bool_decide (session_state session = DkgCompleted)) then Err InvalidSessionState
  else
    group_key ← compute_group_public_key st;
    mret (reconstruct_secret_key_share st, group_key).

(** The share is authenticated by a signature of the message. *)
Definition create_signature_share (p : DKGProtocol) (message : bytes) (key : SecretKeyShare)
    (session_id : DKGSessionID) : DKGSignatureShare :=
  mkDKGSignatureShare session_id (own_index p) (blake3 message) (sign_share key message)
    (keypair_sign (auth_secret_key p) message).

(** The authentication is checked against the encoded share. *)
Definition verify_signature_share (signature_share : DKGSignatureShare)
    (sender_public_key : DalekPublicKey) : outcome DKGError bool :=
  share_data ← ok_or (bincode_bytes (sig_share signature_share)) (CryptographicError "bincode");
  if negb (len (sig_share signature_share) =? 96) then Err DkgInvalidSignature
  else
    check_signature sender_public_key share_data (sig_signature signature_share);;
    mret true.

Definition generate_session_randomness (entropy : bytes) (session_id : DKGSessionID)
    (ps : list DKGParticipant) : bytes :=
  sha256 (session_id ++
    concat ((fun p => participant_public_key p ++ to_le_bytes 4 (participant_index p)) <$> ps) ++
    entropy).

(** The loop over the points of one commitment stops at the first bad one. *)
Definition points_valid (points : list bytes) : bool :=
  forallb (fun b => (len b =? 48) && bool_decide (is_Some (g1_from_compressed b))) points.

Definition commitment_valid (session : DKGSession) (commitment : DKGCommitment) : bool :=
  negb (len (commitment_points commitment) =? 0) &&
  (len (commitment_points commitment) =? threshold session) &&
  points_valid (commitment_points commitment).

Definition batch_verify_commitments (cs : list DKGCommitment) (session : DKGSession) : gmap Z bool :=
  foldl (fun results c => <[commitment_participant_index c := commitment_valid session c]> results) ∅ cs.

Definition secure_cleanup_state (st : DKGParticipantState) : DKGParticipantState :=
  mkDKGParticipantState [] [] ∅ (secret_key_share st) (state_group_public_key st).

End Protocol.

(** * The manager *)

Record DKGManagerConfig : Type := mkDKGManagerConfig {
  cfg_min_participants : Z;
  cfg_max_participants : Z;
  default_threshold_ratio : f64;
  session_timeout_blocks : Z;
  max_concurrent_sessions : Z;
  enable_auto_cleanup : bool;
}.

Definition DKGManagerConfig_default : DKGManagerConfig :=
  mkDKGManagerConfig 3 100 (f64_lit 67 100) 1000 10 true.

Section Manager.
  Context `{Primitives, AuthKeys, Bls12}.

Inductive DKGSessionStatus : Type :=
| Initializing
| StatusWaitingForParticipants
| CollectingCommitments (received total : Z)
| DistributingShares
| ProcessingComplaints (complaints : Z)
| ProcessingJustifications
| StatusCompleted (group_public_key : ThresholdPublicKey)
| StatusFailed (reason : string)
| StatusTimedOut.

Record DKGManager : Type := mkDKGManager {
  config : DKGManagerConfig;
  dkg_protocol : DKGProtocol;
  active_sessions : gmap DKGSessionID DKGSession;
  session_status : gmap DKGSessionID DKGSessionStatus;
  completed_sessions : gmap DKGSessionID (SecretKeyShare * ThresholdPublicKey);
  session_timestamps : gmap DKGSessionID Z;
  current_block_height : Z;
}.

Abbreviation mgrM := (stM DKGManager DKGError).

Definition DKGManager_new (config : DKGManagerConfig) (participant_index : Z) (key : Keypair) :
    DKGManager :=
  mkDKGManager config (mkDKGProtocol participant_index key) ∅ ∅ ∅ ∅ 0.

Definition set_session (id : DKGSessionID) (s : DKGSession) (m : DKGManager) : DKGManager :=
  m <| active_sessions ::= <[id := s]> |>.
Definition set_status (id : DKGSessionID) (st : DKGSessionStatus) (m : DKGManager) : DKGManager :=
  m <| session_status ::= <[id := st]> |>.

(** [((n as f64 * ratio).ceil() as u32).max(1).min(n as u32)] *)
Definition default_threshold (ratio : f64) (n : Z) : Z :=
  Z.min (Z.max (Z.min u32_max (f64_ceil_to_u64 (f64_mul (f64_of_Z n) ratio))) 1) (wrap32 n).

(** [now] is the instant recorded for the session. *)
Definition start_dkg_session (now : Z) (id : DKGSessionID) (ps : list DKGParticipant)
    (threshold : option Z) (params : DKGParams) : mgrM unit := fun m =>
  if len ps <? cfg_min_participants (config m) then (m, Err InsufficientParticipants)
  else if cfg_max_participants (config m) <? len ps
  then (m, Err (CryptographicError "Too many participants"))
  else if max_concurrent_sessions (config m) <=? Z.of_nat (size (active_sessions m))
  then (m, Err (CryptographicError "Too many concurrent sessions"))
  else
    let threshold := default (default_threshold (default_threshold_ratio (config m)) (len ps)) threshold in
    let timeout_height := wrap64 (current_block_height m + session_timeout_blocks (config m)) in
    let session := DKGSession_new id ps threshold timeout_height params in
    match (if 3 <=? len ps then advance_phase session else (session, Ok tt)) with
    | (session, Ok _) =>
        ((set_status id (CollectingCommitments 0 (wrap32 (len ps))) (set_session id session m))
           <| session_timestamps ::= <[id := now]> |>, Ok tt)
    | (_, Err e) =>
        (m, Err (CryptographicError ("Failed to advance session phase: " +:+ DKGError_to_string e)))
    | (_, _) => (m, Panic)
    end.

Definition process_commitment (id : DKGSessionID) (commitment : DKGCommitment)
    (sender_public_key : DalekPublicKey) : mgrM unit := fun m =>
  match active_sessions m !! id with
  | None => (m, Err SessionNotFound)
  | Some session =>
      match verify_commitment commitment sender_public_key with
      | Ok true =>
          match add_commitment commitment session with
          | (session, Ok _) =>
              let m := set_status id (CollectingCommitments (wrap32 (Z.of_nat (size (commitments session))))
                         (wrap32 (len (participants session)))) (set_session id session m) in
              if all_commitments_received session then
                match advance_phase session with
                | (session, Ok _) => (set_status id DistributingShares (set_session id session m), Ok tt)
                | (_, Err e) => (m, Err e)
                | (_, _) => (m, Panic)
                end
              else (m, Ok tt)
          | (_, Err e) => (m, Err e)
          | (_, _) => (m, Panic)
          end
      | Ok false => (m, Err InvalidCommitment)
      | Err e => (m, Err e)
      | Panic => (m, Panic)
      | OutOfFuel => (m, OutOfFuel)
      end
  end.

Definition generate_commitment (draws : nat -> list Z) (id : DKGSessionID) : mgrM DKGCommitment := fun m =>
  match active_sessions m !! id with
  | None => (m, Err SessionNotFound)
  | Some session => (m, generate_commitments (dkg_protocol m) draws session)
  end.

Definition process_secret_share (id : DKGSessionID) (share : DKGSecretShare)
    (sender_commitment : DKGCommitment) (sender_public_key : DalekPublicKey) : mgrM unit := fun m =>
  match active_sessions m !! id with
  | None => (m, Err SessionNotFound)
  | Some session =>
      match verify_secret_share (dkg_protocol m) share sender_commitment sender_public_key with
      | Ok true =>
          match add_secret_share share session with
          | (session, Ok _) =>
              if threshold session <=? Z.of_nat (size (secret_shares session)) then
                (set_status id (ProcessingComplaints 0)
                   (set_session id (session <| session_state := ComplaintPhase |>) m), Ok tt)
              else (set_session id session m, Ok tt)
          | (_, Err e) => (m, Err e)
          | (_, _) => (m, Panic)
          end
      | Ok false => (m, Err InvalidShare)
      | Err e => (m, Err e)
      | Panic => (m, Panic)
      | OutOfFuel => (m, OutOfFuel)
      end
  end.

(** The loop over the shares: each must be exactly the 32 bytes of a scalar. *)
Fixpoint read_shares (shares : list (Z * DKGSecretShare)) (acc : gmap Z Scalar) :
    outcome DKGError (gmap Z Scalar) :=
  match shares with
  | [] => Ok acc
  | (from, share) :: shares =>
      if negb (len (encrypted_share share) =? 32) then Err InvalidShare
      else match scalar_from_bytes (encrypted_share share) with
           | None => Err InvalidShare
           | Some scalar => read_shares shares (<[from := scalar]> acc)
           end
  end.

(** The session is removed before anything is checked. *)
Definition complete_dkg_session (id : DKGSessionID) :
    mgrM (SecretKeyShare * ThresholdPublicKey) := fun m =>
  match active_sessions m !! id with
  | None => (m, Err SessionNotFound)
  | Some session =>
      let m := m <| active_sessions ::= delete id |> in
      if negb (bool_decide (session_state session = ComplaintPhase)) then (m, Err InvalidSessionState)
      else if Z.of_nat (size (secret_shares session)) <? threshold session
      then (m, Err InsufficientShares)
      else match read_shares (map_to_list (secret_shares session)) ∅ with
           | Ok received =>
               let st := mkDKGParticipantState [] [] received None None in
               match complete_dkg (session <| session_state := DkgCompleted |>) st with
               | Ok (key, group_key) =>
                   ((set_status id (StatusCompleted group_key)
                       (m <| completed_sessions ::= <[id := (key, group_key)]> |>))
                      <| session_timestamps ::= delete id |>, Ok (key, group_key))
               | Err e => (m, Err e)
               | Panic => (m, Panic)
               | OutOfFuel => (m, OutOfFuel)
               end
           | Err e => (m, Err e)
           | Panic => (m, Panic)
           | OutOfFuel => (m, OutOfFuel)
           end
  end.

Definition manager_signature_share (id : DKGSessionID) (message : bytes) : mgrM DKGSignatureShare := fun m =>
  match completed_sessions m !! id with
  | None => (m, Err SessionNotFound)
  | Some (key, _) => (m, Ok (create_signature_share (dkg_protocol m) message key id))
  end.

Definition cleanup_session (id : DKGSessionID) (m : DKGManager) : DKGManager :=
  m <| active_sessions ::= delete id |> <| session_timestamps ::= delete id |>.

Definition time_out_session (m : DKGManager) (id : DKGSessionID) : DKGManager :=
  cleanup_session id (set_status id StatusTimedOut m).

Definition cleanup_timed_out_sessions (m : DKGManager) : DKGManager :=
  if negb (enable_auto_cleanup (config m)) then m
  else
    let timed_out := filter (fun p => timeout_block_height p.2 <= current_block_height m)
      (map_to_list (active_sessions m)) in
    foldl time_out_session m timed_out.*1.

Definition update_block_height (block_height : Z) (m : DKGManager) : DKGManager :=
  cleanup_timed_out_sessions (m <| current_block_height := block_height |>).

Definition get_session_status (m : DKGManager) (id : DKGSessionID) : option DKGSessionStatus :=
  session_status m !! id.

Definition get_active_sessions (m : DKGManager) : list DKGSessionID := (map_to_list (active_sessions m)).*1.
Definition get_completed_sessions (m : DKGManager) : list DKGSessionID :=
  (map_to_list (completed_sessions m)).*1.

Definition can_sign (m : DKGManager) (id : DKGSessionID) : bool :=
  match session_status m !! id with Some (StatusCompleted _) => true | _ => false end.

Definition get_group_public_key (m : DKGManager) (id : DKGSessionID) : option ThresholdPublicKey :=
  snd <$> completed_sessions m !! id.

End Manager.

(** * The protocol: theorems *)

Section ProtocolTheorems.
  Context `{P : Primitives, A : AuthKeys, B : Bls12}.

(** What anyone can compute from an encrypted share and the two public keys. *)
Definition open_share (sender_public recipient_public encrypted : bytes) : bytes :=
  xor_mask (derive_key sender_public recipient_public (take 32 encrypted)) (drop 32 encrypted).

Lemma xor_mask_twice key data : xor_mask key (xor_mask key data) = data.
Proof.
  unfold xor_mask. rewrite imap_imap. transitivity (imap (const Datatypes.id) data).
  - apply imap_ext. intros i x _. by rewrite Z.lxor_assoc, Z.lxor_nilpotent, Z.lxor_0_r.
  - by rewrite imap_const, list_fmap_id.
Qed.

Lemma length_xor_mask key data : length (xor_mask key data) = length data.
Proof. unfold xor_mask. by rewrite length_imap. Qed.

(** The encryption of shares hides nothing: the nonce is sent in clear
    and the key is derived from public keys only, so the share can be read off
    the message without any secret key. *)
Theorem share_is_public (p : DKGProtocol) nonce share recipient c :
  length nonce = 32%nat -> encrypt_share p nonce share recipient = Ok c ->
  open_share (keypair_public (auth_secret_key p)) recipient c = share.
Proof.
  intros Hn. unfold encrypt_share. destruct (negb _); [done|]. intros [= <-]. unfold open_share.
  rewrite take_app_length', drop_app_length' by done. apply xor_mask_twice.
Qed.

Lemma check_points_ok points :
  check_points points = Ok tt <->
  Forall (fun b => len b = 48 /\ is_Some (g1_from_compressed b)) points.
Proof.
  induction points as [|b points IH]; cbn [check_points]; [by split|].
  rewrite Forall_cons, <- IH. destruct (Z.eqb_spec (len b) 48) as [Hb|Hb]; cbn [negb].
  - destruct (g1_from_compressed b) as [g|] eqn:Hg; split.
    + intros Hp. rewrite Hp. eauto.
    + by intros [_ Hp].
    + done.
    + by intros [[_ []%is_Some_None] _].
  - split; [done|]. by intros [[] _].
Qed.

(** The Feldman check accepts exactly well-formed commitments at an
    index from 1 to 255, whatever the share: its bytes are never compared with
    the commitments, and the participant of index 0 can accept none. *)
Theorem feldman_ignores_the_share (p : DKGProtocol) share commitment :
  verify_feldman_vss_share share commitment (as_i32 (own_index p)) = Ok tt <->
  encrypted_share share <> [] /\ commitment_points commitment <> [] /\
  Forall (fun b => len b = 48 /\ is_Some (g1_from_compressed b)) (commitment_points commitment) /\
  1 <= as_i32 (own_index p) <= 255.
Proof.
  unfold verify_feldman_vss_share. rewrite <- check_points_ok.
  assert (Hnil : forall (A : Type) (l : list A), len l =? 0 = true <-> l = []).
  { intros T l. rewrite Z.eqb_eq. destruct l; [done|]. rewrite len_cons. pose proof (len_nonneg l). split; [lia|done]. }
  destruct (len (encrypted_share share) =? 0) eqn:E1.
  { apply Hnil in E1. split; [done|]. by intros []. }
  destruct (len (commitment_points commitment) =? 0) eqn:E2.
  { apply Hnil in E2. split; [done|]. by intros (_ & [] & _). }
  assert (encrypted_share share <> []) by (intros Hn; apply Hnil in Hn; congruence).
  assert (commitment_points commitment <> []) by (intros Hn; apply Hnil in Hn; congruence).
  destruct (check_points (commitment_points commitment)) as [[]|e| |] eqn:Hp; cbn;
    try (split; [done|]; intros (_ & _ & Hx & _); done).
  destruct (Z.ltb_spec (as_i32 (own_index p)) 1), (Z.ltb_spec 255 (as_i32 (own_index p))); cbn [orb];
    (split; [intros He; try discriminate He; split_and!; done || lia|intros (_ & _ & _ & ?); done || lia]).
Qed.

(** ** Honest messages *)

(** Documented behaviour of the libraries: a signature verifies under the
    signer's key, signatures have 64 bytes, compressed points 48, scalars 32,
    and bincode writes the length of a byte vector before it. *)
Class AuthLaws : Prop := {
  sign_length : forall k m, len (keypair_sign k m) = 64;
  sign_verifies : forall k m, exists pk sig,
    public_key_from_bytes (keypair_public k) = Some pk /\
    signature_from_bytes (keypair_sign k m) = Some sig /\ ed25519_verify pk m sig = true;
  bincode_bytes_layout : forall b, bincode_bytes b = Some (to_le_bytes 8 (len b) ++ b);
  compressed_length : forall g, len (g1_to_compressed g) = 48;
  scalar_length : forall s, len (scalar_to_bytes s) = 32;
}.

Context `{L : AuthLaws}.

Lemma own_signature k m pk :
  public_key_from_bytes (keypair_public k) = Some pk -> check_signature pk m (keypair_sign k m) = Ok tt.
Proof using L.
  intros Hpk. destruct (sign_verifies k m) as (pk' & sig & Hpk' & Hs & Hv).
  rewrite Hpk in Hpk'. injection Hpk' as <-. unfold check_signature. rewrite sign_length. cbn [Z.eqb Pos.eqb negb].
  rewrite Hs. cbn. by rewrite Hv.
Qed.

(** A commitment a participant generates passes the verification under
    its public key. *)
Theorem commitment_roundtrip (p : DKGProtocol) draws session c pk :
  generate_commitments p draws session = Ok c ->
  public_key_from_bytes (keypair_public (auth_secret_key p)) = Some pk ->
  verify_commitment c pk = Ok true /\
  commitment_participant_index c = own_index p /\
  len (commitment_points c) = Z.max 0 (threshold session).
Proof using L.
  unfold generate_commitments. destruct (negb _); [done|].
  set (points := g1_to_compressed <$> _). destruct (bincode_byte_lists points) as [data|] eqn:Hd; [|done].
  cbn. intros [= <-] Hpk. unfold verify_commitment. cbn [commitment_points commitment_signature commitment_participant_index].
  rewrite Hd. cbn [ok_or mbind outcome_bind]. rewrite own_signature by done. cbn.
  split_and!; [|done|].
  - f_equal. apply forallb_forall. intros b Hb. apply list_elem_of_In, list_elem_of_fmap in Hb as (g & -> & _).
    rewrite compressed_length. done.
  - unfold points, len. rewrite !length_fmap, length_seq. lia.
Qed.

(** What a generated share looks like. *)
Lemma generated_share p nonces st i ps l x :
  shares_for p nonces st i ps = Ok l -> x ∈ l ->
  exists j q c, q ∈ ps /\ participant_index q <> own_index p /\
    encrypt_share p (nonces j) (scalar_to_bytes (poly_at (secret_coefficients st)
      (scalar_from_u64 (participant_index q)))) (participant_public_key q) = Ok c /\
    x = mkDKGSecretShare (own_index p) (participant_index q) c (keypair_sign (auth_secret_key p) c).
Proof.
  revert i l. induction ps as [|q ps IH]; intros i l; cbn [shares_for].
  { intros [= <-] Hx. by apply not_elem_of_nil in Hx. }
  intros Hl Hx. apply outcome_bind_inv in Hl as (s & Hs & Hl). apply outcome_bind_inv in Hl as (rest & Hr & Hl).
  injection Hl as <-. apply elem_of_app in Hx as [Hx|Hx].
  - unfold share_for in Hs. destruct (Z.eqb_spec (participant_index q) (own_index p)) as [He|He].
    { injection Hs as <-. by apply not_elem_of_nil in Hx. }
    apply outcome_bind_inv in Hs as (c & Hc & Hs). injection Hs as <-. apply list_elem_of_singleton in Hx as ->.
    exists i, q, c. split; [by left|]. split; [done|]. split; [|done].
    by destruct (encrypt_share _ _ _ _); [injection Hc as ->|..].
  - destruct (IH _ _ Hr Hx) as (j & q' & c & Hq & Hrest). exists j, q', c. split; [by right|done].
Qed.

Lemma encrypted_length p nonce share recipient c :
  length nonce = 32%nat -> encrypt_share p nonce share recipient = Ok c -> len c = 32 + len share.
Proof.
  intros Hn. unfold encrypt_share. destruct (negb _); [done|]. intros [= <-].
  unfold len. rewrite length_app, length_xor_mask, Hn. lia.
Qed.

(** A share a participant sends is signed as it is but verified in its
    encoded form: whoever accepts it holds a signature that is valid for two
    different messages. *)
Theorem accepted_share_is_a_forgery (p q : DKGProtocol) nonces session st l x c pk :
  generate_secret_shares p nonces session st = Ok l -> x ∈ l ->
  public_key_from_bytes (keypair_public (auth_secret_key p)) = Some pk ->
  verify_secret_share q x c pk = Ok true ->
  exists m1 m2 sig, m1 <> m2 /\ signature_from_bytes (share_signature x) = Some sig /\
    ed25519_verify pk m1 sig = true /\ ed25519_verify pk m2 sig = true.
Proof using L.
  unfold generate_secret_shares. destruct (negb _); [done|]. intros Hl Hx Hpk Hv.
  destruct (generated_share _ _ _ _ _ _ _ Hl Hx) as (j & r & e & _ & _ & _ & ->).
  unfold verify_secret_share in Hv. cbn [encrypted_share share_signature] in *. rewrite bincode_bytes_layout in Hv.
  cbn [ok_or mbind outcome_bind] in Hv. destruct (sign_verifies (auth_secret_key p) e) as (pk' & sig & Hpk' & Hs & Hsv).
  rewrite Hpk in Hpk'. injection Hpk' as <-. exists e, (to_le_bytes 8 (len e) ++ e), sig.
  split; [|split; [done|split; [done|]]].
  - intros He. apply (f_equal length) in He. rewrite length_app, length_to_le_bytes in He. lia.
  - unfold check_signature in Hv. rewrite sign_length, Hs in Hv. cbn in Hv.
    by destruct (ed25519_verify pk (to_le_bytes 8 (len e) ++ e) sig).
Qed.

End ProtocolTheorems.

(** * The manager: theorems *)

Section ManagerTheorems.
  Context `{P : Primitives, A : AuthKeys, B : Bls12}.

Lemma read_shares_length shares acc r i x :
  read_shares shares acc = Ok r -> (i, x) ∈ shares -> len (encrypted_share x) = 32.
Proof.
  revert acc. induction shares as [|[j y] shares IH]; intros acc Hr Hx; [by apply not_elem_of_nil in Hx|].
  cbn [read_shares] in Hr. destruct (Z.eqb_spec (len (encrypted_share y)) 32) as [Hy|Hy]; cbn [negb] in Hr; [|done].
  destruct (scalar_from_bytes _); [|done]. apply elem_of_cons in Hx as [[= -> ->]|Hx]; [done|]. by apply (IH _ Hr).
Qed.

Lemma dkg_complete_ok id m m' key gk :
  complete_dkg_session id m = (m', Ok (key, gk)) ->
  exists s r, active_sessions m !! id = Some s /\ session_state s = ComplaintPhase /\
    threshold s <= Z.of_nat (size (secret_shares s)) /\
    read_shares (map_to_list (secret_shares s)) ∅ = Ok r /\
    threshold_key_from_bytes (g1_to_compressed g1_identity) = Some gk /\
    m' = (set_status id (StatusCompleted gk) (m <| active_sessions ::= delete id |>
            <| completed_sessions ::= <[id := (key, gk)]> |>)) <| session_timestamps ::= delete id |>.
Proof.
  unfold complete_dkg_session. destruct (active_sessions m !! id) as [s|] eqn:Hs; [|done].
  case_bool_decide as Hst; cbn [negb]; [|done].
  destruct (Z.ltb_spec (Z.of_nat (size (secret_shares s))) (threshold s)) as [|Hth]; [done|].
  destruct (read_shares _ _) as [r|e| |] eqn:Hr; try done.
  unfold complete_dkg. rewrite bool_decide_eq_true_2 by (by destruct s). cbn [negb].
  unfold compute_group_public_key. cbn [public_commitments].
  destruct (threshold_key_from_bytes _) as [g|] eqn:Hg; cbn; [|done].
  intros [= <- <- <-]. exists s, r. done.
Qed.

(** A completed call, whatever its outcome, has removed the session. *)
Lemma complete_removes id m m' r :
  complete_dkg_session id m = (m', r) -> active_sessions m' !! id = None.
Proof.
  unfold complete_dkg_session. destruct (active_sessions m !! id) as [s|] eqn:Hs; [|by intros [= <- <-]].
  assert (Hd : active_sessions (m <| active_sessions ::= delete id |>) !! id = None)
    by (destruct m; cbn; apply lookup_delete_eq).
  repeat case_match; intros [= <- <-]; destruct m; cbn in *; apply lookup_delete_eq.
Qed.

(** A session that holds a share as the protocol generates it cannot be
    completed: the share has 64 bytes where the manager reads a 32-byte scalar.
    The attempt discards the session. *)
Theorem honest_share_blocks_completion `{L : !AuthLaws} (p : DKGProtocol) nonces session st l x id s m i m' r :
  (forall j, length (nonces j) = 32%nat) ->
  generate_secret_shares p nonces session st = Ok l -> x ∈ l ->
  active_sessions m !! id = Some s -> secret_shares s !! i = Some x ->
  complete_dkg_session id m = (m', r) ->
  is_ok r = false /\ active_sessions m' !! id = None.
Proof.
  intros Hn Hg Hx Hs Hi Hc. split; [|by apply (complete_removes id m m' r)].
  destruct r as [[key gk]|e| |]; try done.
  apply dkg_complete_ok in Hc as (s' & rs & Hs' & _ & _ & Hr & _). rewrite Hs in Hs'. injection Hs' as <-.
  apply elem_of_map_to_list in Hi. pose proof (read_shares_length _ _ _ _ _ Hr Hi) as Hlen.
  unfold generate_secret_shares in Hg. destruct (negb _); [done|].
  destruct (generated_share _ _ _ _ _ _ _ Hg Hx) as (j & q & c & _ & _ & He & ->).
  apply encrypted_length in He; [|done]. rewrite scalar_length in He. cbn in Hlen. lia.
Qed.

(** ** The manager as a state machine *)

Inductive mgr_op : Type :=
| MStart (now : Z) (id : DKGSessionID) (ps : list DKGParticipant) (t : option Z) (params : DKGParams)
| MCommit (id : DKGSessionID) (c : DKGCommitment) (pk : DalekPublicKey)
| MShare (id : DKGSessionID) (x : DKGSecretShare) (c : DKGCommitment) (pk : DalekPublicKey)
| MComplete (id : DKGSessionID)
| MCleanup (id : DKGSessionID)
| MHeight (h : Z).

Definition mgr_exec (m : DKGManager) (op : mgr_op) : DKGManager :=
  match op with
  | MStart now id ps t params => fst (start_dkg_session now id ps t params m)
  | MCommit id c pk => fst (process_commitment id c pk m)
  | MShare id x c pk => fst (process_secret_share id x c pk m)
  | MComplete id => fst (complete_dkg_session id m)
  | MCleanup id => cleanup_session id m
  | MHeight h => update_block_height h m
  end.

Definition mgr_run (m : DKGManager) (ops : list mgr_op) : DKGManager := foldl mgr_exec m ops.

(** A session in the manager's care. *)
Record live (s : DKGSession) : Prop := {
  live_phase : phase (session_state s) <= 3;
  live_commitments : map_Forall (fun i c => commitment_participant_index c = i /\ i ∈ indices s) (commitments s);
  live_shares : map_Forall (fun i x => from_participant x = i /\ i ∈ indices s) (secret_shares s);
  live_all : 2 <= phase (session_state s) -> all_commitments_received s = true;
  live_threshold : phase (session_state s) = 3 -> threshold s <= Z.of_nat (size (secret_shares s));
}.

Record mgr_inv (cfg : DKGManagerConfig) (m : DKGManager) : Prop := {
  inv_config : config m = cfg;
  inv_size : Z.of_nat (size (active_sessions m)) <= Z.max 0 (max_concurrent_sessions cfg);
  inv_live : map_Forall (fun _ s => live s) (active_sessions m);
  inv_completed : map_Forall (fun _ kg =>
    threshold_key_from_bytes (g1_to_compressed g1_identity) = Some (snd kg)) (completed_sessions m);
  inv_status : map_Forall (fun id st => forall g, st = StatusCompleted g ->
    exists k, completed_sessions m !! id = Some (k, g)) (session_status m);
}.

(** Storing a session in place of another, or a new one while there is room. *)
Lemma inv_set_session cfg id s m :
  mgr_inv cfg m -> live s ->
  is_Some (active_sessions m !! id) \/ Z.of_nat (size (active_sessions m)) < max_concurrent_sessions cfg ->
  mgr_inv cfg (set_session id s m).
Proof.
  intros [I1 I2 I3 I4 I5] Hs Hroom. unfold set_session. destruct m; cbn in *. split; cbn; try done.
  - destruct (active_sessions0 !! id) as [s'|] eqn:Hi.
    + rewrite map_size_insert_Some by (by rewrite Hi). done.
    + rewrite map_size_insert_None by done. destruct Hroom as [[? [=]]|]. lia.
  - by apply map_Forall_insert_2.
Qed.

Lemma inv_set_status cfg id st m :
  mgr_inv cfg m -> (forall g, st <> StatusCompleted g) -> mgr_inv cfg (set_status id st m).
Proof.
  intros [I1 I2 I3 I4 I5] Hst. unfold set_status. destruct m; cbn in *. split; cbn; try done.
  apply map_Forall_insert_2; [|done]. intros g ->. by destruct (Hst g).
Qed.

Lemma inv_timestamps cfg f m : mgr_inv cfg m -> mgr_inv cfg (m <| session_timestamps ::= f |>).
Proof. intros [I1 I2 I3 I4 I5]. destruct m. by split. Qed.

Lemma inv_drop_session cfg id m : mgr_inv cfg m -> mgr_inv cfg (m <| active_sessions ::= delete id |>).
Proof.
  intros [I1 I2 I3 I4 I5]. destruct m; cbn in *. split; cbn; try done.
  - etrans; [|exact I2]. apply Nat2Z.inj_le, map_subseteq_size, delete_subseteq.
  - by apply map_Forall_delete.
Qed.

Lemma inv_cleanup cfg id m : mgr_inv cfg m -> mgr_inv cfg (cleanup_session id m).
Proof. intros Hm. by apply inv_timestamps, inv_drop_session. Qed.

Lemma live_add_commitment c s s' :
  live s -> add_commitment c s = (s', Ok tt) -> live s'.
Proof.
  intros [L1 L2 L3 L4 L5] He. apply add_commitment_cases in He as [[_ He]|(_ & Hst & Hi & Hn & ->)]; [done|].
  destruct s; cbn in *; subst; cbn in *. split; cbn; try done; try lia. by apply map_Forall_insert.
Qed.

Lemma live_add_share x s s' :
  live s -> add_secret_share x s = (s', Ok tt) -> live s' /\ session_state s' = ShareDistributionPhase.
Proof.
  intros [L1 L2 L3 L4 L5] He. apply add_secret_share_cases in He as [[_ He]|(_ & Hst & Hi & Hn & ->)]; [done|].
  destruct s; cbn in *; subst; cbn in *. split; [|done]. split; cbn; try done; try lia. by apply map_Forall_insert.
Qed.

(** The manager only advances a session out of the first two phases. *)
Lemma live_advance s s' :
  live s -> phase (session_state s) <= 1 -> advance_phase s = (s', Ok tt) -> live s'.
Proof.
  intros [L1 L2 L3 L4 L5] Hp He.
  apply advance_phase_cases in He as [[_ He]|(_ & st & -> & Hs & _ & _ & E2 & _)]; [done|].
  destruct s; cbn in *. split; cbn; unfold RecordSetters.constant; try done; try lia.
  intros. apply E2. lia.
Qed.

Lemma add_commitment_phase c s s' :
  add_commitment c s = (s', Ok tt) -> session_state s' = CommitmentPhase.
Proof.
  intros He. apply add_commitment_cases in He as [[_ He]|(_ & Hst & _ & _ & ->)]; [done|]. by destruct s.
Qed.

Lemma live_new id ps t h params : live (DKGSession_new id ps t h params).
Proof. split; cbn; done || lia. Qed.

Lemma start_inv cfg now id ps t params m :
  mgr_inv cfg m -> mgr_inv cfg (fst (start_dkg_session now id ps t params m)).
Proof.
  intros Hm. unfold start_dkg_session. destruct (_ <? _); [done|]. destruct (_ <? _); [done|].
  rewrite (inv_config cfg m Hm). destruct (Z.leb_spec (max_concurrent_sessions cfg) (Z.of_nat (size (active_sessions m)))) as [|Hroom]; [done|].
  set (s0 := DKGSession_new _ _ _ _ _).
  assert (Hs : forall s u, (if 3 <=? len ps then advance_phase s0 else (s0, Ok tt)) = (s, Ok u) -> live s).
  { intros s []. destruct (3 <=? len ps); intros He; [|injection He as <-; apply live_new].
    apply (live_advance s0); [apply live_new|cbn; lia|done]. }
  destruct (if 3 <=? len ps then _ else _) as [s [u|e| |]] eqn:He; try done. cbn [fst].
  assert (Hi : mgr_inv cfg (set_status id (CollectingCommitments 0 (wrap32 (len ps))) (set_session id s m))).
  { apply inv_set_status; [|done]. apply inv_set_session; [done|by apply (Hs s u)|by right]. }
  by apply inv_timestamps.
Qed.

Lemma commit_inv cfg id c pk m : mgr_inv cfg m -> mgr_inv cfg (fst (process_commitment id c pk m)).
Proof.
  intros Hm. unfold process_commitment. destruct (active_sessions m !! id) as [s|] eqn:Hs; [|done].
  destruct (verify_commitment c pk) as [[]|e| |]; try done.
  pose proof (inv_live cfg m Hm id s Hs) as Hl. cbn in Hl.
  destruct (add_commitment c s) as [s' [[]|e| |]] eqn:Ha; try done.
  pose proof (live_add_commitment _ _ _ Hl Ha) as Hl'. pose proof (add_commitment_phase _ _ _ Ha) as Hph.
  assert (Hi : forall st, (forall g, st <> StatusCompleted g) -> mgr_inv cfg (set_status id st (set_session id s' m))).
  { intros st Hst. apply inv_set_status; [|done]. apply inv_set_session; [done|done|by left; rewrite Hs]. }
  destruct (all_commitments_received s'); [|by apply Hi].
  destruct (advance_phase s') as [s2 [[]|e| |]] eqn:Hv; try (by apply Hi). cbn [fst].
  apply inv_set_status; [|done]. apply inv_set_session; [by apply Hi| |].
  - apply (live_advance s'); [done|by rewrite Hph|done].
  - left. unfold set_status, set_session. destruct m; cbn. by rewrite lookup_insert_eq.
Qed.

Lemma share_inv cfg id x c pk m : mgr_inv cfg m -> mgr_inv cfg (fst (process_secret_share id x c pk m)).
Proof.
  intros Hm. unfold process_secret_share. destruct (active_sessions m !! id) as [s|] eqn:Hs; [|done].
  destruct (verify_secret_share _ x c pk) as [[]|e| |]; try done.
  pose proof (inv_live cfg m Hm id s Hs) as Hl. cbn in Hl.
  destruct (add_secret_share x s) as [s' [[]|e| |]] eqn:Ha; try done.
  destruct (live_add_share _ _ _ Hl Ha) as [Hl' Hst].
  destruct (Z.leb_spec (threshold s') (Z.of_nat (size (secret_shares s')))) as [Hth|_]; cbn [fst].
  - apply inv_set_status; [|done]. apply inv_set_session; [done| |by left; rewrite Hs].
    destruct Hl' as [L1 L2 L3 L4 L5]. destruct s'; cbn in *; subst. split; cbn; try done; try lia.
    intros _. apply L4. cbn. lia.
  - apply inv_set_session; [done|done|by left; rewrite Hs].
Qed.

Lemma complete_fails id m m' r :
  complete_dkg_session id m = (m', r) -> is_ok r = false ->
  m' = m \/ m' = m <| active_sessions ::= delete id |>.
Proof.
  unfold complete_dkg_session. repeat case_match; intros [= <- <-]; try done; auto.
Qed.

Lemma complete_inv cfg id m : mgr_inv cfg m -> mgr_inv cfg (fst (complete_dkg_session id m)).
Proof.
  intros Hm. destruct (complete_dkg_session id m) as [m' r] eqn:Hc; cbn [fst].
  destruct (is_ok r) eqn:Hr.
  - destruct r as [[key gk]|e| |]; try done.
    apply dkg_complete_ok in Hc as (s & rs & _ & _ & _ & _ & Hg & ->). apply inv_timestamps.
    apply (inv_drop_session _ id) in Hm. set (m1 := m <| active_sessions ::= delete id |>) in *.
    destruct Hm as [I1 I2 I3 I4 I5]. unfold set_status. destruct m1; cbn in *. split; cbn; try done.
    + by apply map_Forall_insert_2.
    + apply map_Forall_insert_2.
      * intros g [= <-]. exists key. by rewrite lookup_insert_eq.
      * intros j st Hj g ->. destruct (I5 j _ Hj g eq_refl) as [k Hk].
        destruct (decide (id = j)) as [->|Hne]; [|exists k; by rewrite lookup_insert_ne].
        exists key. rewrite lookup_insert_eq. f_equal. f_equal. pose proof (I4 j _ Hk) as Hg'. cbn in Hg'. congruence.
  - destruct (complete_fails _ _ _ _ Hc Hr) as [->| ->]; [done|by apply inv_drop_session].
Qed.

Lemma height_inv cfg h m : mgr_inv cfg m -> mgr_inv cfg (update_block_height h m).
Proof.
  intros Hm. unfold update_block_height. set (m1 := m <| current_block_height := h |>).
  assert (Hm1 : mgr_inv cfg m1) by (destruct Hm, m; by split). unfold cleanup_timed_out_sessions.
  destruct (negb _); [done|]. apply foldl_inv; [done|]. intros a id Ha. unfold time_out_session.
  by apply inv_cleanup, inv_set_status.
Qed.

Lemma mgr_run_inv cfg i k ops : mgr_inv cfg (mgr_run (DKGManager_new cfg i k) ops).
Proof.
  unfold mgr_run. apply foldl_inv.
  { split; cbn [config active_sessions completed_sessions session_status DKGManager_new];
      [done|rewrite map_size_empty; lia|apply map_Forall_empty..]. }
  intros m op Hm. destruct op; cbn [mgr_exec].
  - by apply start_inv.
  - by apply commit_inv.
  - by apply share_inv.
  - by apply complete_inv.
  - by apply inv_cleanup.
  - by apply height_inv.
Qed.

(** C17. The manager under every sequence of operations: never more
    sessions than configured; a session past the commitment phase has the
    commitment of every participant, and one ready to complete has at least
    the threshold of shares; a session that can sign has its key, and every
    session ever completed has one and the same group key, that of the point
    at infinity. *)
Theorem manager_invariant cfg i k ops :
  let m := mgr_run (DKGManager_new cfg i k) ops in
  Z.of_nat (size (active_sessions m)) <= Z.max 0 (max_concurrent_sessions cfg) /\
  (forall id s, active_sessions m !! id = Some s ->
     phase (session_state s) <= 3 /\
     (2 <= phase (session_state s) -> NoDup (indices s) /\ forall j, j ∈ indices s -> is_Some (commitments s !! j)) /\
     (session_state s = ComplaintPhase -> threshold s <= Z.of_nat (size (secret_shares s)))) /\
  (forall id, can_sign m id = true -> is_Some (get_group_public_key m id)) /\
  (forall id g, get_group_public_key m id = Some g ->
     threshold_key_from_bytes (g1_to_compressed g1_identity) = Some g).
Proof.
  intros m. pose proof (mgr_run_inv cfg i k ops) as Hm. fold m in Hm.
  split; [apply Hm|]. split; [|split].
  - intros id s Hs. pose proof (inv_live cfg m Hm id s Hs) as [L1 L2 L3 L4 L5]. split; [done|]. split.
    + intros Hp. apply full_map; [intros j c Hc; exact (proj2 (L2 j c Hc))|].
      pose proof (L4 Hp) as Ha. apply Z.eqb_eq in Ha. rewrite Ha. unfold len, indices. by rewrite length_fmap.
    + intros Hst. apply L5. by rewrite Hst.
  - intros id. unfold can_sign, get_group_public_key. destruct (session_status m !! id) as [st|] eqn:Hst; [|done].
    destruct st as [| | | | | |g| |]; try done. intros _. destruct (inv_status cfg m Hm id _ Hst g eq_refl) as [key ->]. by exists g.
  - intros id g. unfold get_group_public_key. destruct (completed_sessions m !! id) as [[key g']|] eqn:Hc; [|done].
    intros [= <-]. exact (inv_completed cfg m Hm id _ Hc).
Qed.

Lemma time_out_active ids m id s :
  active_sessions (foldl time_out_session m ids) !! id = Some s <->
  active_sessions m !! id = Some s /\ id ∉ ids.
Proof.
  revert m. induction ids as [|j ids IH]; intros m; cbn [foldl].
  { split; [intros Hs; split; [done|apply not_elem_of_nil]|by intros []]. }
  rewrite IH, not_elem_of_cons. unfold time_out_session, cleanup_session, set_status. destruct m; cbn.
  rewrite lookup_delete_Some. naive_solver.
Qed.

Lemma time_out_status ids m id :
  session_status (foldl time_out_session m ids) !! id =
  if bool_decide (id ∈ ids) then Some StatusTimedOut else session_status m !! id.
Proof.
  revert m. induction ids as [|j ids IH]; intros m; cbn [foldl].
  { by rewrite bool_decide_eq_false_2 by apply not_elem_of_nil. }
  rewrite IH. unfold time_out_session, cleanup_session, set_status. destruct m; cbn.
  destruct (decide (j = id)) as [->|Hne].
  - rewrite lookup_insert_eq, (bool_decide_eq_true_2 (id ∈ id :: ids)) by (by left). by case_bool_decide.
  - rewrite lookup_insert_ne by done.
    by rewrite (bool_decide_ext (id ∈ j :: ids) (id ∈ ids)) by (rewrite elem_of_cons; naive_solver).
Qed.

(** Time: at a new height the sessions whose timeout has been reached
    are dropped and reported as timed out, and no others. *)
Theorem timeouts_exact h m :
  enable_auto_cleanup (config m) = true ->
  let m' := update_block_height h m in
  (forall id s, active_sessions m' !! id = Some s <->
     active_sessions m !! id = Some s /\ h < timeout_block_height s) /\
  (forall id, session_status m' !! id =
     match active_sessions m !! id with
     | Some s => if timeout_block_height s <=? h then Some StatusTimedOut else session_status m !! id
     | None => session_status m !! id
     end).
Proof.
  intros Hc. cbn zeta. unfold update_block_height, cleanup_timed_out_sessions.
  set (m1 := m <| current_block_height := h |>).
  assert (E : config m1 = config m /\ active_sessions m1 = active_sessions m /\
              session_status m1 = session_status m /\ current_block_height m1 = h) by (by destruct m).
  destruct E as (E1 & E2 & E3 & E4). rewrite E1, Hc, E2, E4. cbn [negb].
  set (ids := (filter _ _).*1).
  assert (Hids : forall id, id ∈ ids <-> exists s, active_sessions m !! id = Some s /\ timeout_block_height s <= h).
  { intros id. unfold ids. rewrite list_elem_of_fmap. split.
    - intros ([j s] & -> & Hf). apply list_elem_of_filter in Hf as [Ht Hj]. apply elem_of_map_to_list in Hj. eauto.
    - intros (s & Hs & Ht). exists (id, s). split; [done|]. apply list_elem_of_filter.
      by rewrite elem_of_map_to_list. }
  split.
  - intros id s. rewrite time_out_active, E2, Hids. split.
    + intros [Hs Hn]. split; [done|]. destruct (Z.lt_ge_cases h (timeout_block_height s)); [done|]. destruct Hn. eauto.
    + intros [Hs Ht]. split; [done|]. intros (s' & Hs' & Ht'). rewrite Hs in Hs'. injection Hs' as <-. lia.
  - intros id. rewrite time_out_status, E3. destruct (active_sessions m !! id) as [s|] eqn:Hs.
    + destruct (Z.leb_spec (timeout_block_height s) h).
      * rewrite bool_decide_eq_true_2; [done|]. apply Hids. eauto.
      * rewrite bool_decide_eq_false_2; [done|]. rewrite Hids. intros (s' & Hs' & Ht').
        rewrite Hs in Hs'. injection Hs' as <-. lia.
    + rewrite bool_decide_eq_false_2; [done|]. rewrite Hids. intros (s' & Hs' & _). by rewrite Hs in Hs'.
Qed.

End ManagerTheorems.

(** * Samples *)

(** A key is a number that signs [m] as its bytes and a hash of [m], as the
    sample Ed25519 verifies; curve points are numbers. *)
Definition sample_auth : AuthKeys := {|
  Keypair := Z;
  keypair_public k := to_le_bytes 32 k;
  keypair_sign k m := to_le_bytes 32 k ++ sample_hash 32 1 m;
  bincode_bytes b := Some (to_le_bytes 8 (len b) ++ b);
  bincode_byte_lists l := Some (to_le_bytes 8 (len l) ++ concat l);
|}.

Definition sample_bls12 : Bls12 := {|
  Scalar := Z;
  scalar_eq_dec := Z.eq_dec;
  scalar_zero := 0;
  scalar_one := 1;
  scalar_add a b := (a + b) mod 251;
  scalar_mul a b := (a * b) mod 251;
  scalar_from_u64 x := x mod 251;
  scalar_from_raw l := foldr (fun w acc => w + acc) 0 l mod 251;
  scalar_to_bytes := to_le_bytes 32;
  scalar_from_bytes b := if len b =? 32 then Some (from_le_bytes b) else None;
  G1 := Z;
  g1_identity := 0;
  g1_generator := 1;
  g1_add a b := (a + b) mod 251;
  g1_mul a b := (a * b) mod 251;
  g1_to_compressed := to_le_bytes 48;
  g1_from_compressed b := if len b =? 48 then Some (from_le_bytes b) else None;
  Fr := Z;
  fr_zero := 0;
  fr_random := from_le_bytes;
  SecretKeyShare := Z;
  secret_key_share_from x := x;
  sign_share k m := to_le_bytes 96 k;
  ThresholdPublicKey := bytes;
  threshold_key_from_bytes b := Some b;
|}.

(** An Ed25519 whose signatures do not depend on the message. *)
Definition weak_auth : AuthKeys := {|
  Keypair := Z;
  keypair_public k := to_le_bytes 32 k;
  keypair_sign k m := to_le_bytes 32 k ++ replicate 32 0;
  bincode_bytes b := Some (to_le_bytes 8 (len b) ++ b);
  bincode_byte_lists l := Some (to_le_bytes 8 (len l) ++ concat l);
|}.

Definition weak_primitives : Primitives := {|
  blake3 := sample_hash 32 1;
  sha1 := sample_hash 20 2;
  sha256 := sample_hash 32 3;
  ripemd160 := sample_hash 20 4;
  DalekPublicKey := bytes;
  DalekSignature := bytes;
  public_key_from_bytes b := if len b =? 32 then Some b else None;
  signature_from_bytes b := if len b =? 64 then Some b else None;
  ed25519_verify pk m sig := bool_decide (sig = pk ++ replicate 32 0);
  bincode_transaction _ := None;
  bincode_header _ := None;
  bincode_block _ := None;
|}.

Lemma sample_auth_laws : @AuthLaws sample_primitives sample_auth sample_bls12.
Proof.
  split; cbn [keypair_sign keypair_public sample_auth bincode_bytes g1_to_compressed scalar_to_bytes sample_bls12
              public_key_from_bytes signature_from_bytes ed25519_verify sample_primitives].
  - intros k m. unfold len, sample_hash. by rewrite length_app, !length_to_le_bytes.
  - intros k m. exists (to_le_bytes 32 k), (to_le_bytes 32 k ++ sample_hash 32 1 m).
    unfold sample_hash. rewrite !len_app, !len_to_le_bytes. cbn. split_and!; try done. by apply bool_decide_eq_true_2.
  - done.
  - intros g. by rewrite len_to_le_bytes.
  - intros s. by rewrite len_to_le_bytes.
Qed.

Lemma weak_auth_laws : @AuthLaws weak_primitives weak_auth sample_bls12.
Proof.
  split; cbn [keypair_sign keypair_public weak_auth bincode_bytes g1_to_compressed scalar_to_bytes sample_bls12
              public_key_from_bytes signature_from_bytes ed25519_verify weak_primitives].
  - intros k m. unfold len. by rewrite length_app, !length_to_le_bytes.
  - intros k m. exists (to_le_bytes 32 k), (to_le_bytes 32 k ++ replicate 32 0).
    rewrite !len_app, !len_to_le_bytes. cbn. split_and!; try done. by apply bool_decide_eq_true_2.
  - done.
  - intros g. by rewrite len_to_le_bytes.
  - intros s. by rewrite len_to_le_bytes.
Qed.

Definition sample_participant (i : Z) : DKGParticipant :=
  mkDKGParticipant (mkMasternodeID (mkOutPoint (replicate 32 i) 0)) i (to_le_bytes 32 i).

Definition sample_participants : list DKGParticipant := sample_participant <$> [1; 2; 3].

Definition sample_session (st : DKGSessionState) : DKGSession :=
  (DKGSession_new (replicate 32 7) sample_participants 2 100 DKGParams_default) <| session_state := st |>.

Lemma share_is_public_witness :
  open_share (to_le_bytes 32 5) (to_le_bytes 32 2)
    (replicate 32 9 ++ @xor_mask (derive_key (H := sample_primitives) (to_le_bytes 32 5) (to_le_bytes 32 2) (replicate 32 9)) [1; 2; 3]) =
  [1; 2; 3].
Proof.
  refine (@share_is_public sample_primitives sample_auth (mkDKGProtocol (H0 := sample_auth) 1 5) (replicate 32 9) [1; 2; 3]
    (to_le_bytes 32 2) _ eq_refl _). vm_compute. reflexivity.
Defined.

Lemma commitment_roundtrip_witness :
  exists c, @generate_commitments sample_auth sample_bls12 (mkDKGProtocol (H0 := sample_auth) 1 5)
      (fun i => [Z.of_nat i; 3; 0; 0]) (sample_session CommitmentPhase) = Ok c /\
    @verify_commitment sample_primitives sample_auth c (to_le_bytes 32 5) = Ok true /\
    commitment_participant_index c = 1 /\ len (commitment_points c) = 2.
Proof.
  eexists. split; [reflexivity|].
  refine (@commitment_roundtrip sample_primitives sample_auth sample_bls12 sample_auth_laws
    (mkDKGProtocol (H0 := sample_auth) 1 5) (fun i => [Z.of_nat i; 3; 0; 0]) (sample_session CommitmentPhase) _ _ eq_refl eq_refl).
Defined.

Definition sample_state : @DKGParticipantState sample_bls12 :=
  mkDKGParticipantState (H1 := sample_bls12) [3; 2] [] ∅ None None.

(** The share for participant 2 of the sender 1. *)
Definition sample_sent (auth : AuthKeys) (k : @Keypair auth) : DKGSecretShare :=
  match @generate_secret_shares sample_primitives auth sample_bls12 (mkDKGProtocol (H0 := auth) 1 k)
          (fun _ => replicate 32 9) (sample_session ShareDistributionPhase) sample_state with
  | Ok (x :: _) => x
  | _ => mkDKGSecretShare 0 0 [] []
  end.

Lemma accepted_share_is_a_forgery_witness :
  exists x m1 m2 sig, m1 <> m2 /\ @signature_from_bytes weak_primitives (share_signature x) = Some sig /\
    @ed25519_verify weak_primitives (to_le_bytes 32 5) m1 sig = true /\
    @ed25519_verify weak_primitives (to_le_bytes 32 5) m2 sig = true.
Proof.
  set (commitment := mkDKGCommitment 1 [to_le_bytes 48 3] []).
  assert (Hb : match @generate_secret_shares weak_primitives weak_auth sample_bls12 (mkDKGProtocol (H0 := weak_auth) 1 5)
                 (fun _ => replicate 32 9) (sample_session ShareDistributionPhase) sample_state with
               | Ok (x :: _) => @verify_secret_share weak_primitives weak_auth sample_bls12
                   (mkDKGProtocol (H0 := weak_auth) 2 6) x commitment (to_le_bytes 32 5)
               | _ => Ok false
               end = Ok true) by (vm_compute; reflexivity).
  destruct (@generate_secret_shares weak_primitives weak_auth sample_bls12 (mkDKGProtocol (H0 := weak_auth) 1 5)
    (fun _ => replicate 32 9) (sample_session ShareDistributionPhase) sample_state) as [[|x l]| | |] eqn:Hl;
    try discriminate Hb.
  exists x.
  refine (@accepted_share_is_a_forgery weak_primitives weak_auth sample_bls12 weak_auth_laws
    (mkDKGProtocol (H0 := weak_auth) 1 5) (mkDKGProtocol (H0 := weak_auth) 2 6) (fun _ => replicate 32 9)
    (sample_session ShareDistributionPhase) sample_state (x :: l) x commitment (to_le_bytes 32 5)
    Hl _ eq_refl Hb). by left.
Defined.

(** A manager with one session that holds the share. *)
Definition sample_dkg_manager : @DKGManager sample_auth sample_bls12 :=
  mkDKGManager (H0 := sample_auth) (H1 := sample_bls12) DKGManagerConfig_default (mkDKGProtocol (H0 := sample_auth) 2 6)
    {[ replicate 32 7 := (sample_session ComplaintPhase) <| threshold := 1 |>
         <| secret_shares := {[ 1 := sample_sent sample_auth 5 ]} |> ]} ∅ ∅ ∅ 100.

Lemma honest_share_blocks_completion_witness :
  is_ok (snd (complete_dkg_session (H0 := sample_auth) (replicate 32 7) sample_dkg_manager)) = false /\
  active_sessions (fst (complete_dkg_session (H0 := sample_auth) (replicate 32 7) sample_dkg_manager)) !! replicate 32 7 = None.
Proof.
  assert (Hb : match @generate_secret_shares sample_primitives sample_auth sample_bls12 (mkDKGProtocol (H0 := sample_auth) 1 5)
                 (fun _ => replicate 32 9) (sample_session ShareDistributionPhase) sample_state with
               | Ok (x :: _) => true | _ => false end = true) by (vm_compute; reflexivity).
  destruct (@generate_secret_shares sample_primitives sample_auth sample_bls12 (mkDKGProtocol (H0 := sample_auth) 1 5)
    (fun _ => replicate 32 9) (sample_session ShareDistributionPhase) sample_state) as [[|x l]| | |] eqn:Hl;
    try discriminate Hb.
  destruct (complete_dkg_session (replicate 32 7) sample_dkg_manager) as [m' r] eqn:Hc. cbn [fst snd].
  refine (@honest_share_blocks_completion sample_primitives sample_auth sample_bls12 sample_auth_laws
    (mkDKGProtocol (H0 := sample_auth) 1 5) (fun _ => replicate 32 9) (sample_session ShareDistributionPhase) sample_state
    (x :: l) (sample_sent sample_auth 5) (replicate 32 7) _ sample_dkg_manager 1 m' r _ Hl _ _ _ Hc).
  - done.
  - unfold sample_sent. rewrite Hl. by left.
  - unfold sample_dkg_manager. cbn [active_sessions]. apply lookup_singleton_eq.
  - cbn. apply lookup_singleton_eq.
Defined.

Lemma timeouts_exact_witness :
  session_status (update_block_height 200 sample_dkg_manager) !! replicate 32 7 = Some StatusTimedOut.
Proof.
  assert (Hc : enable_auto_cleanup (config sample_dkg_manager) = true) by reflexivity.
  rewrite (proj2 (timeouts_exact 200 sample_dkg_manager Hc) (replicate 32 7)).
  unfold sample_dkg_manager at 1. cbn [active_sessions]. rewrite lookup_singleton_eq. reflexivity.
Defined.
