(* ===== verification/Quorum.v ===== *)
(** Quorum formation (src/rusty-masternode/src/quorum_formation.rs).

    The list of masternodes is a [HashMap]; [iter] stands for its iteration
    order, of which the code relies on nothing.  The generator ChaCha8 of the
    rand crates is an interface.  Error messages are kept without the numbers
    some of them print. *)

From Stdlib Require Import ZArith Lia List SpecFloat.
From stdpp Require Import base option list numbers strings gmap.
From coqutil Require Import Datatypes.RecordSetters.
From S2P Require Import Prelude Types Transaction SamplePrimitives ChainState Masternodes Dkg.

Import TriangleBracketNotations.
#[local] Open Scope Z_scope.

(** * Floating point *)

Definition f32_div : f32 -> f32 -> f32 := SFdiv 24 128.
Definition f32_is_nan (a : f32) : bool := match a with S754_nan => true | _ => false end.

(** [f32::max]: a NaN operand is ignored. *)
Definition f32_max (a b : f32) : f32 :=
  if f32_is_nan a then b else if f32_is_nan b then a else if SFltb a b then b else a.

#[global] Arguments f32_div : simpl never.

(** * Third-party code *)

(** [ChaCha8Rng::from_seed] and [gen_range(0.0..high)], which panics if the
    range is empty or not finite. *)
Class ChaCha8 : Type := {
  Rng : Type;
  rng_from_seed : bytes -> Rng;
  gen_f32_below : Rng -> f32 -> f32 * Rng;
}.

Definition sampling_range (high : f32) : bool :=
  match high with S754_finite false _ _ => true | _ => false end.

(** * Data *)

Record QuorumConfig : Type := mkQuorumConfig {
  min_active_masternodes : Z;
  oxidesend_quorum_size : Z;
  ferrousshield_quorum_size : Z;
  governance_quorum_size : Z;
  pose_challenger_count : Z;
  min_masternode_score : f32;
  max_consecutive_participations : Z;
}.

Definition QuorumConfig_default : QuorumConfig := mkQuorumConfig 10 12 7 15 3 (f32_lit 8 10) 5.

Inductive QuorumType : Type :=
| OxideSend
| FerrousShield
| QGovernance
| PoSeChallenger
| DKGParticipantQuorum
| QCustom (name : string).

#[export] Instance QuorumType_eq_dec : EqDecision QuorumType.
Proof. solve_decision. Defined.

Definition QuorumType_code (t : QuorumType) : nat + string :=
  match t with
  | OxideSend => inl 0%nat
  | FerrousShield => inl 1%nat
  | QGovernance => inl 2%nat
  | PoSeChallenger => inl 3%nat
  | DKGParticipantQuorum => inl 4%nat
  | QCustom s => inr s
  end.

Definition QuorumType_decode (c : nat + string) : QuorumType :=
  match c with
  | inl 0%nat => OxideSend
  | inl 1%nat => FerrousShield
  | inl 2%nat => QGovernance
  | inl 3%nat => PoSeChallenger
  | inl _ => DKGParticipantQuorum
  | inr s => QCustom s
  end.

#[export] Program Instance QuorumType_countable : Countable QuorumType :=
  inj_countable' QuorumType_code QuorumType_decode _.
Next Obligation. by intros []. Qed.

Record FormedQuorum : Type := mkFormedQuorum {
  quorum_type : QuorumType;
  quorum_id : Hash;
  quorum_members : list MasternodeID;
  quorum_threshold : Z;
  quorum_creation_height : Z;
  quorum_creation_hash : Hash;
  expiration_block_height : Z;
  dkg_session : option DKGSession;
  selection_seed : Hash;
}.

Record MasternodeScore : Type := mkMasternodeScore {
  score_id : MasternodeID;
  uptime_score : f32;
  dkg_score : f32;
  participation_score : f32;
  reputation_score : f32;
  total_score : f32;
}.

(** A [QuorumParticipation] is the type of the quorum. *)
Record QuorumFormationManager : Type := mkQuorumFormationManager {
  quorum_config : QuorumConfig;
  active_quorums : gmap Hash FormedQuorum;
  participation_history : gmap MasternodeID (list QuorumType);
}.

Definition QuorumFormationManager_new (config : QuorumConfig) : QuorumFormationManager :=
  mkQuorumFormationManager config ∅ ∅.

(** * Sizes, durations and names *)

Definition get_quorum_size (c : QuorumConfig) (t : QuorumType) : Z :=
  match t with
  | OxideSend => oxidesend_quorum_size c
  | FerrousShield => ferrousshield_quorum_size c
  | QGovernance => governance_quorum_size c
  | PoSeChallenger => pose_challenger_count c
  | DKGParticipantQuorum => oxidesend_quorum_size c
  | QCustom _ => oxidesend_quorum_size c
  end.

Definition quorum_calculate_threshold (quorum_size : Z) : Z :=
  wrap32 (wrap64 (quorum_size * 2 + 2) / 3).

Definition requires_dkg (t : QuorumType) : bool :=
  match t with OxideSend | FerrousShield | DKGParticipantQuorum => true | _ => false end.

Definition get_quorum_duration (t : QuorumType) : Z :=
  match t with
  | OxideSend => 100
  | FerrousShield => 200
  | QGovernance => 1000
  | PoSeChallenger => 60
  | DKGParticipantQuorum => 50
  | QCustom _ => 100
  end.

Definition quorum_type_name (t : QuorumType) : string :=
  match t with
  | OxideSend => "OxideSend"
  | FerrousShield => "FerrousShield"
  | QGovernance => "Governance"
  | PoSeChallenger => "PoSeChallenger"
  | DKGParticipantQuorum => "DKGParticipant"
  | QCustom _ => "Custom"
  end.

(** The name hashed into the selection seed. *)
Definition seed_name (t : QuorumType) : string :=
  match t with
  | OxideSend => "oxidesend"
  | FerrousShield => "ferrousshield"
  | QGovernance => "governance"
  | PoSeChallenger => "pose_challenger"
  | DKGParticipantQuorum => "dkg_participant"
  | QCustom s => s
  end.

Definition to_be_bytes (n : nat) (z : Z) : bytes := reverse (to_le_bytes n z).

(** * Scores *)

(** The closure of [score_masternodes]; [history] is the participation of this
    masternode. *)
Definition score_entry (t : QuorumType) (mn_id : MasternodeID) (entry : MasternodeEntry)
    (history : list QuorumType) : MasternodeScore :=
  let uptime := f32_max (f32_sub (f32_of_Z 1)
    (f32_div (f32_of_Z (pose_failure_count entry)) (f32_of_Z 10))) (f32_of_Z 0) in
  let dkg := dkg_success_rate entry in
  let recent := f32_of_Z (len (filter (fun q => q = t) history)) in
  let participation := f32_max (f32_div (f32_of_Z 1)
    (f32_add (f32_of_Z 1) (f32_mul recent (f32_lit 1 10)))) (f32_lit 1 10) in
  let reputation := f32_div (f32_add (f32_add uptime dkg) participation) (f32_of_Z 3) in
  let total := f32_add (f32_add (f32_add (f32_mul uptime (f32_lit 4 10)) (f32_mul dkg (f32_lit 3 10)))
    (f32_mul participation (f32_lit 2 10))) (f32_mul reputation (f32_lit 1 10)) in
  mkMasternodeScore mn_id uptime dkg participation reputation total.

Definition score_masternodes (m : QuorumFormationManager) (ids : list MasternodeID) (t : QuorumType)
    (masternodes : MasternodeList) : list MasternodeScore :=
  omap (fun mn_id =>
    entry ← masternodes !! mn_id;
    Some (score_entry t mn_id entry (default [] (participation_history m !! mn_id)))) ids.

Section Formation.
  Context `{Primitives, ChaCha8}.
  Context (iter : MasternodeList -> list (MasternodeID * MasternodeEntry)).

Definition get_active_masternodes (masternodes : MasternodeList) : list MasternodeID :=
  (filter (fun p => status p.2 = Active) (iter masternodes)).*1.

Definition generate_selection_seed (t : QuorumType) (block_height : Z) (block_hash : Hash) : Hash :=
  blake3 (string_bytes (seed_name t) ++ to_be_bytes 8 block_height ++ block_hash).

Definition generate_quorum_id (members : list MasternodeID) (t : QuorumType) (block_hash : Hash) : Hash :=
  blake3 (string_bytes (quorum_type_name t) ++
    concat ((fun member => txid (mn_outpoint member) ++ to_be_bytes 4 (vout (mn_outpoint member))) <$> members) ++
    block_hash).

(** ** Selection *)

(** The position of the drawn masternode: the first whose running total
    reaches the random value, or the last. *)
Fixpoint pick (random_value cumulative : f32) (available : list MasternodeScore) : nat :=
  match available with
  | [] => 0
  | mn :: rest =>
      let cumulative := f32_add cumulative (total_score mn) in
      if SFleb random_value cumulative || match rest with [] => true | _ => false end then 0%nat
      else S (pick random_value cumulative rest)
  end.

(** The loop, with the number of members still to select; the range stays that
    of the initial total. *)
Fixpoint select_loop (missing : nat) (total : f32) (rng : Rng) (available : list MasternodeScore) :
    outcome string (list MasternodeID) :=
  match missing, available with
  | O, _ => Ok []
  | _, [] => Ok []
  | S missing, _ =>
      if negb (sampling_range total) then Panic
      else
        let '(random_value, rng) := gen_f32_below rng total in
        let i := pick random_value (f32_of_Z 0) available in
        match available !! i with
        | None => Panic
        | Some mn =>
            rest ← select_loop missing total rng (delete i available);
            Ok (score_id mn :: rest)
        end
  end.

Definition sum_scores (scored : list MasternodeScore) : f32 :=
  foldl (fun acc s => f32_add acc (total_score s)) (f32_of_Z 0) scored.

Definition deterministic_selection (scored : list MasternodeScore) (quorum_size : Z) (t : QuorumType)
    (block_height : Z) (block_hash : Hash) : outcome string (list MasternodeID) :=
  if len scored =? 0 then Err "No masternodes available for selection"%string
  else if len scored <? quorum_size then Err "Not enough masternodes"%string
  else
    let seed := generate_selection_seed t block_height block_hash in
    if negb (len seed =? 32) then Err "Failed to convert seed to [u8; 32]"%string
    else
      let total := sum_scores scored in
      if SFleb total (f32_of_Z 0) then Err "No valid masternodes with positive scores"%string
      else select_loop (Z.to_nat quorum_size) total (rng_from_seed seed) scored.

(** ** The session of a quorum *)

Fixpoint quorum_participants (masternodes : MasternodeList) (i : Z) (members : list MasternodeID) :
    outcome string (list DKGParticipant) :=
  match members with
  | [] => Ok []
  | mn_id :: members =>
      match masternodes !! mn_id with
      | None => Err "Masternode not found"%string
      | Some entry =>
          let operator_key := operator_public_key (identity entry) in
          if len operator_key =? 0 then Err "Masternode has no operator public key"%string
          else
            rest ← quorum_participants masternodes (i + 1) members;
            Ok (mkDKGParticipant mn_id (wrap32 i) operator_key :: rest)
      end
  end.

Definition create_dkg_session (members : list MasternodeID) (threshold block_height : Z)
    (quorum_id : Hash) (masternodes : MasternodeList) : outcome string DKGSession :=
  if wrap32 (len members) <? threshold then Err "Insufficient participants"%string
  else
    let params := DKGParams_default <| min_participants := threshold |>
      <| max_participants := wrap32 (len members) |> in
    ps ← quorum_participants masternodes 0 members;
    Ok (DKGSession_new (blake3 (quorum_id ++ to_be_bytes 8 block_height)) ps threshold block_height params).

(** ** Formation *)

Definition record_participation (t : QuorumType) (m : QuorumFormationManager) (mn_id : MasternodeID) :
    QuorumFormationManager :=
  m <| participation_history ::= (fun h => <[mn_id := default [] (h !! mn_id) ++ [t]]> h) |>.

Definition qualified (m : QuorumFormationManager) (t : QuorumType) (masternodes : MasternodeList)
    (criteria : option (MasternodeEntry -> bool)) : list MasternodeScore :=
  let scored := score_masternodes m (get_active_masternodes masternodes) t masternodes in
  let scored := match criteria with
                | None => scored
                | Some crit => filter (fun s =>
                    default false (crit <$> masternodes !! score_id s) = true) scored
                end in
  filter (fun s => SFleb (min_masternode_score (quorum_config m)) (total_score s) = true) scored.

Definition form_quorum (t : QuorumType) (masternodes : MasternodeList) (block_height : Z)
    (block_hash : Hash) (criteria : option (MasternodeEntry -> bool)) :
    stM QuorumFormationManager string FormedQuorum := fun m =>
  let active := get_active_masternodes masternodes in
  let quorum_size := get_quorum_size (quorum_config m) t in
  if len active <? min_active_masternodes (quorum_config m)
  then (m, Err "Insufficient active masternodes"%string)
  else if len active <? quorum_size then (m, Err "Insufficient masternodes for quorum"%string)
  else
    let scored := qualified m t masternodes criteria in
    if len scored <? quorum_size
    then (m, Err "Insufficient qualified masternodes for quorum after filtering"%string)
    else
      let built : outcome string FormedQuorum :=
        selected ← deterministic_selection scored quorum_size t block_height block_hash;
        let threshold := quorum_calculate_threshold quorum_size in
        let quorum_id := generate_quorum_id selected t block_hash in
        session ← (if requires_dkg t
                   then s ← create_dkg_session selected threshold block_height quorum_id masternodes; mret (Some s)
                   else mret None);
        Ok (mkFormedQuorum t quorum_id selected threshold block_height block_hash
              (wrap64 (block_height + get_quorum_duration t)) session
              (generate_selection_seed t block_height block_hash)) in
      match built with
      | Ok quorum =>
          let m := foldl (record_participation t) m (quorum_members quorum) in
          (m <| active_quorums ::= <[quorum_id quorum := quorum]> |>, Ok quorum)
      | Err e => (m, Err e)
      | Panic => (m, Panic)
      | OutOfFuel => (m, OutOfFuel)
      end.

End Formation.

(** * Upkeep *)

Definition get_quorum (m : QuorumFormationManager) (id : Hash) : option FormedQuorum := active_quorums m !! id.

Definition get_quorums_by_type (m : QuorumFormationManager) (t : QuorumType) : list FormedQuorum :=
  filter (fun q => quorum_type q = t) (map_to_list (active_quorums m)).*2.

Definition cleanup_expired_quorums (current_block_height : Z) (m : QuorumFormationManager) :
    QuorumFormationManager :=
  let expired := filter (fun p => expiration_block_height p.2 < current_block_height)
    (map_to_list (active_quorums m)) in
  m <| active_quorums ::= (fun q => foldl (fun q id => delete id q) q expired.*1) |>.

Record QuorumFormationStats : Type := mkQuorumFormationStats {
  total_active_quorums : Z;
  quorums_by_type : gmap QuorumType Z;
  total_masternode_participations : Z;
}.

Definition get_formation_stats (m : QuorumFormationManager) : QuorumFormationStats :=
  mkQuorumFormationStats (Z.of_nat (size (active_quorums m)))
    (foldl (fun acc q => <[quorum_type q := default 0 (acc !! quorum_type q) + 1]> acc) ∅
       (map_to_list (active_quorums m)).*2)
    (Z.of_nat (size (participation_history m))).

(** * The selection loop *)

Section SelectionLemmas.
  Context `{P : Primitives, C : ChaCha8}.

Lemma pick_lt r c l : l <> [] -> (pick r c l < length l)%nat.
Proof.
  revert c. induction l as [|mn l IH]; intros c Hl; [done|]. cbn [pick length].
  destruct (SFleb r _); cbn [orb]; [lia|]. destruct l as [|mn' l]; [lia|]. specialize (IH (f32_add c (total_score mn)) ltac:(done)).
  lia.
Qed.

Lemma delete_perm {A} (l : list A) i x : l !! i = Some x -> l ≡ₚ x :: delete i l.
Proof. intros Hx. by apply delete_Permutation. Qed.

(** Every round selects one of the remaining masternodes. *)
Lemma select_loop_spec n total rng avail l :
  select_loop n total rng avail = Ok l ->
  l ⊆+ score_id <$> avail /\ length l = Nat.min n (length avail).
Proof.
  revert rng avail l. induction n as [|n IH]; intros rng avail l; cbn [select_loop].
  { intros [= <-]. split; [apply submseteq_nil_l|done]. }
  destruct avail as [|a avail']; [intros [= <-]; by split|]. set (avail := a :: avail').
  destruct (sampling_range total); cbn [negb]; [|done].
  destruct (gen_f32_below rng total) as [r rng']. destruct (avail !! pick r _ avail) as [mn|] eqn:Hi; [|done].
  intros Hl. apply outcome_bind_inv in Hl as (rest & Hr & Hl). injection Hl as <-.
  destruct (IH _ _ _ Hr) as [Hsub Hlen]. pose proof (delete_perm _ _ _ Hi) as Hp. split.
  - rewrite Hp. rewrite fmap_cons. by constructor.
  - cbn [length]. rewrite Hlen, length_delete by (by rewrite Hi). cbn [length avail]. lia.
Qed.

Lemma select_loop_total n total rng avail :
  sampling_range total = true -> exists l, select_loop n total rng avail = Ok l.
Proof.
  intros Ht. revert rng avail. induction n as [|n IH]; intros rng avail; cbn [select_loop]; [by exists []|].
  destruct avail as [|a avail']; [by exists []|]. rewrite Ht. cbn [negb].
  destruct (gen_f32_below rng total) as [r rng'].
  destruct (lookup_lt_is_Some_2 (a :: avail') (pick r (f32_of_Z 0) (a :: avail'))) as [mn Hmn]; [by apply pick_lt|].
  rewrite Hmn. destruct (IH rng' (delete (pick r (f32_of_Z 0) (a :: avail')) (a :: avail'))) as [l Hl].
  rewrite Hl. cbn. eauto.
Qed.

Lemma selection_spec' scored n t h bh l :
  deterministic_selection scored n t h bh = Ok l -> 0 <= n ->
  l ⊆+ score_id <$> scored /\ len l = n.
Proof.
  unfold deterministic_selection. destruct (_ =? 0); [done|].
  destruct (Z.ltb_spec (len scored) n); [done|]. destruct (negb _); [done|]. destruct (SFleb _ _); [done|].
  intros Hl Hn. destruct (select_loop_spec _ _ _ _ _ Hl) as [Hs Hlen]. split; [done|].
  unfold len in *. rewrite Hlen. lia.
Qed.

(** Scores are in the order of the masternodes scored. *)
Lemma score_masternodes_ids m ids t mns :
  Forall (fun i => is_Some (mns !! i)) ids -> score_id <$> score_masternodes m ids t mns = ids.
Proof.
  intros Hall. unfold score_masternodes. induction Hall as [|i ids [e He] Hall IH]; [done|].
  cbn. rewrite He. cbn. f_equal. exact IH.
Qed.

Lemma score_masternodes_elem m ids t mns s :
  s ∈ score_masternodes m ids t mns ->
  exists e, score_id s ∈ ids /\ mns !! score_id s = Some e /\
    s = score_entry t (score_id s) e (default [] (participation_history m !! score_id s)).
Proof.
  unfold score_masternodes. intros Hs. apply list_elem_of_omap in Hs as (i & Hi & Hs).
  destruct (mns !! i) as [e|] eqn:He; [|done]. injection Hs as <-. exists e. split; [done|]. by split.
Qed.

End SelectionLemmas.

(** * Theorems *)

Lemma NoDup_fmap_filter {A B} (f : A -> B) (Q : A -> Prop) `{forall x, Decision (Q x)} (l : list A) :
  NoDup (f <$> l) -> NoDup (f <$> filter Q l).
Proof.
  induction l as [|x l IH]; [done|]. rewrite fmap_cons, NoDup_cons, filter_cons. intros [Hx Hl].
  destruct (decide (Q x)); [|by apply IH]. rewrite fmap_cons, NoDup_cons. split; [|by apply IH].
  rewrite list_elem_of_fmap. intros (y & Hy & Hf). apply list_elem_of_filter in Hf as [_ Hf].
  apply Hx. rewrite Hy. apply list_elem_of_fmap. eauto.
Qed.

(** What each participant of a quorum's session is. *)
Lemma quorum_participants_spec mns i members ps :
  0 <= i -> i + len members <= u32_max + 1 -> quorum_participants mns i members = Ok ps ->
  participant_index <$> ps = seqZ i (len members) /\
  Forall2 (fun mn_id p => participant_masternode_id p = mn_id /\
    exists e, mns !! mn_id = Some e /\ participant_public_key p = operator_public_key (identity e)) members ps.
Proof.
  revert i ps. induction members as [|mn_id members IH]; intros i ps Hi Hb; cbn [quorum_participants].
  { intros [= <-]. rewrite len_nil, seqZ_nil by lia. done. }
  destruct (mns !! mn_id) as [e|] eqn:He; [|done]. destruct (_ =? 0); [done|].
  intros Hp. apply outcome_bind_inv in Hp as (rest & Hr & Hp). injection Hp as <-.
  rewrite len_cons in *. pose proof (len_nonneg members).
  destruct (IH (i + 1) rest ltac:(lia) ltac:(lia) Hr) as [E1 E2]. split.
  - rewrite fmap_cons, E1. cbn [participant_index]. rewrite wrap32_small by lia.
    rewrite (seqZ_cons i) by lia. f_equal. f_equal; lia.
  - constructor; [|done]. split; [done|]. eauto.
Qed.

Lemma record_all t m l :
  active_quorums (foldl (record_participation t) m l) = active_quorums m /\
  quorum_config (foldl (record_participation t) m l) = quorum_config m.
Proof.
  revert m. induction l as [|i l IH]; intros m; cbn [foldl]; [done|].
  destruct (IH (record_participation t m i)) as [E1 E2]. rewrite E1, E2. by destruct m.
Qed.

Lemma record_history t m l i :
  NoDup l -> participation_history (foldl (record_participation t) m l) !! i =
  if bool_decide (i ∈ l) then Some (default [] (participation_history m !! i) ++ [t])
  else participation_history m !! i.
Proof.
  intros Hl. revert m. induction Hl as [|j l Hj Hl IH]; intros m; cbn [foldl].
  { by rewrite bool_decide_eq_false_2 by apply not_elem_of_nil. }
  rewrite IH. unfold record_participation. destruct m as [c q hist]. cbn.
  destruct (decide (j = i)) as [->|Hne].
  - rewrite lookup_insert_eq, (bool_decide_eq_false_2 (i ∈ l)) by done.
    by rewrite bool_decide_eq_true_2 by (by left).
  - rewrite lookup_insert_ne by done.
    by rewrite (bool_decide_ext (i ∈ j :: l) (i ∈ l)) by (rewrite elem_of_cons; naive_solver).
Qed.

Section FormationTheorems.
  Context `{P : Primitives, C : ChaCha8}.
  Context (iter : MasternodeList -> list (MasternodeID * MasternodeEntry)).
  Hypothesis iter_perm : forall m, iter m ≡ₚ map_to_list m.

Lemma active_spec mns :
  NoDup (get_active_masternodes iter mns) /\
  forall i, i ∈ get_active_masternodes iter mns <-> exists e, mns !! i = Some e /\ status e = Active.
Proof using iter_perm.
  unfold get_active_masternodes. split.
  - apply NoDup_fmap_filter. rewrite iter_perm. apply NoDup_fst_map_to_list.
  - intros i. rewrite list_elem_of_fmap. split.
    + intros ([j e] & -> & Hf). apply list_elem_of_filter in Hf as [Ha Hf]. rewrite iter_perm, elem_of_map_to_list in Hf.
      eauto.
    + intros (e & He & Ha). exists (i, e). split; [done|]. apply list_elem_of_filter.
      by rewrite iter_perm, elem_of_map_to_list.
Qed.

(** The entry of a qualified masternode and its score. *)
Definition qualifies (m : QuorumFormationManager) (t : QuorumType) (mns : MasternodeList)
    (criteria : option (MasternodeEntry -> bool)) (i : MasternodeID) : Prop :=
  exists e, mns !! i = Some e /\ status e = Active /\ (forall c, criteria = Some c -> c e = true) /\
    SFleb (min_masternode_score (quorum_config m))
      (total_score (score_entry t i e (default [] (participation_history m !! i)))) = true.

Lemma qualified_spec m t mns criteria :
  NoDup (score_id <$> qualified iter m t mns criteria) /\
  forall i, i ∈ score_id <$> qualified iter m t mns criteria <-> qualifies m t mns criteria i.
Proof using iter_perm.
  destruct (active_spec mns) as [Hnd Hact]. unfold qualified.
  set (scored := score_masternodes m _ t mns).
  assert (Hids : score_id <$> scored = get_active_masternodes iter mns).
  { apply score_masternodes_ids, Forall_forall. intros i Hi. apply Hact in Hi as (e & He & _). by rewrite He. }
  assert (Hel : forall s, s ∈ scored <-> exists e, mns !! score_id s = Some e /\ status e = Active /\
            s = score_entry t (score_id s) e (default [] (participation_history m !! score_id s))).
  { intros s. split.
    - intros Hs. destruct (score_masternodes_elem _ _ _ _ _ Hs) as (e & Hi & He & Es). exists e.
      apply Hact in Hi as (e' & He' & Ha). rewrite He in He'. by injection He' as <-.
    - intros (e & He & Ha & ->). unfold scored, score_masternodes. apply list_elem_of_omap.
      exists (score_id s). split; [apply Hact; eauto|]. cbn [score_id score_entry]. rewrite He. done. }
  assert (Hnd' : NoDup (score_id <$> scored)) by (by rewrite Hids). split.
  - apply NoDup_fmap_filter. destruct criteria; [by apply NoDup_fmap_filter|done].
  - intros i. rewrite list_elem_of_fmap. unfold qualifies. split.
    + intros (s & -> & Hs). apply list_elem_of_filter in Hs as [Hmin Hs].
      assert (Hs' : s ∈ scored /\ forall c, criteria = Some c -> default false (c <$> mns !! score_id s) = true).
      { destruct criteria as [c|]; [apply list_elem_of_filter in Hs as [Hc Hs]; split; [done|]; by intros ? [= <-]|by split]. }
      destruct Hs' as [Hs1 Hc]. apply Hel in Hs1 as (e & He & Ha & Es). exists e. split; [done|]. split; [done|]. split.
      * intros c Hcr. specialize (Hc c Hcr). by rewrite He in Hc.
      * by rewrite <- Es.
    + intros (e & He & Ha & Hc & Hmin).
      set (s := score_entry t i e (default [] (participation_history m !! i))). exists s. split; [done|].
      apply list_elem_of_filter. split; [done|].
      assert (Hs : s ∈ scored) by (apply Hel; by exists e).
      destruct criteria as [c|]; [|done]. apply list_elem_of_filter. split; [|done].
      cbn [score_id s score_entry]. rewrite He. by apply Hc.
Qed.

Lemma create_dkg_session_spec sel thr h qid mns s :
  len sel <= u32_max -> create_dkg_session sel thr h qid mns = Ok s ->
  threshold s = thr /\ participant_index <$> participants s = seqZ 0 (len sel) /\
  Forall2 (fun mn_id p => participant_masternode_id p = mn_id /\
    exists e, mns !! mn_id = Some e /\ participant_public_key p = operator_public_key (identity e)) sel (participants s).
Proof.
  intros Hl Hs. unfold create_dkg_session in Hs. destruct (_ <? _); [done|].
  apply outcome_bind_inv in Hs as (ps & Hps & Hs). injection Hs as <-. split; [done|].
  apply quorum_participants_spec in Hps; [done|lia|lia].
Qed.

Lemma threshold_bounds n :
  0 <= n <= u32_max -> 2 * n <= 3 * quorum_calculate_threshold n <= 2 * n + 2.
Proof.
  unfold quorum_calculate_threshold, u32_max. intros Hn. rewrite wrap64_small by (unfold u64_max; lia).
  pose proof (Z.div_mod (n * 2 + 2) 3 ltac:(lia)). pose proof (Z.mod_pos_bound (n * 2 + 2) 3 ltac:(lia)).
  rewrite wrap32_small by (unfold u32_max; lia). lia.
Qed.

(** C16. A call of [form_quorum] with a configured size [n] that is a u32, for
    every iteration order of the masternode map.  When it succeeds the quorum
    has [n] distinct members, every one active, passing the criteria and of
    sufficient score, and its threshold is two thirds of [n] rounded up.  For
    the kinds of quorum that need a key generation (OxideSend, FerrousShield and
    DKGParticipantQuorum) it has a session with that threshold whose
    participants are its members in order, numbered from 0, with their operator
    keys; a quorum of another kind has none.  The quorum is stored, and one participation is
    recorded for each member and for nobody else.  A failed call changes
    nothing. *)
Theorem form_quorum_spec t mns h bh criteria m m' r :
  let n := get_quorum_size (quorum_config m) t in
  0 <= n <= u32_max -> form_quorum iter t mns h bh criteria m = (m', r) ->
  match r with
  | Ok q =>
      NoDup (quorum_members q) /\ len (quorum_members q) = n /\
      Forall (qualifies m t mns criteria) (quorum_members q) /\
      2 * n <= 3 * quorum_threshold q <= 2 * n + 2 /\
      (if requires_dkg t
       then exists s, dkg_session q = Some s /\ threshold s = quorum_threshold q /\
         participant_index <$> participants s = seqZ 0 n /\
         Forall2 (fun mn_id p => participant_masternode_id p = mn_id /\
           exists e, mns !! mn_id = Some e /\ participant_public_key p = operator_public_key (identity e))
           (quorum_members q) (participants s)
       else dkg_session q = None) /\
      active_quorums m' = <[quorum_id q := q]> (active_quorums m) /\
      forall i, participation_history m' !! i =
        if bool_decide (i ∈ quorum_members q) then Some (default [] (participation_history m !! i) ++ [t])
        else participation_history m !! i
  | _ => m' = m
  end.
Proof using iter_perm.
  intros n Hn. unfold form_quorum. fold n.
  destruct (_ <? min_active_masternodes _); [by intros [= <- <-]|].
  destruct (_ <? n); [by intros [= <- <-]|].
  destruct (Z.ltb_spec (len (qualified iter m t mns criteria)) n); [by intros [= <- <-]|].
  destruct (deterministic_selection _ _ _ _ _) as [sel|e| |] eqn:Hsel; cbn [mbind outcome_bind];
    try (by intros [= <- <-]).
  apply selection_spec' in Hsel as [Hsub Hlen]; [|lia].
  destruct (qualified_spec m t mns criteria) as [Hnd Hq].
  assert (Hsnd : NoDup sel).
  { apply submseteq_Permutation in Hsub as [rest Hp]. rewrite Hp in Hnd. by apply NoDup_app in Hnd as [? _]. }
  set (q0 := fun s => mkFormedQuorum t (generate_quorum_id sel t bh) sel (quorum_calculate_threshold n) h bh
                  (wrap64 (h + get_quorum_duration t)) s (generate_selection_seed t h bh)).
  set (session := if requires_dkg t then _ else _).
  assert (Hses : forall o, session = Ok o -> if requires_dkg t then exists s, o = Some s /\
            threshold s = quorum_calculate_threshold n /\ participant_index <$> participants s = seqZ 0 n /\
            Forall2 (fun mn_id p => participant_masternode_id p = mn_id /\
              exists e, mns !! mn_id = Some e /\ participant_public_key p = operator_public_key (identity e)) sel (participants s)
            else o = None).
  { intros o Ho. unfold session in Ho. destruct (requires_dkg t); [|by injection Ho as <-]. apply outcome_bind_inv in Ho as (s & Hs & Ho).
    injection Ho as <-. exists s. split; [done|].
    apply create_dkg_session_spec in Hs; [|lia]. by rewrite Hlen in Hs. }
  destruct session as [o|e| |] eqn:Ho; cbn [mbind outcome_bind]; try (by intros [= <- <-]).
  specialize (Hses o eq_refl). fold (q0 o). intros [= <- <-]. cbn [quorum_members q0 quorum_threshold dkg_session quorum_id].
  split; [done|]. split; [done|]. split.
  { apply Forall_forall. intros i Hi. apply Hq. by eapply elem_of_submseteq. }
  split; [by apply threshold_bounds|]. split; [done|].
  destruct (record_all t m sel) as [E1 E2]. set (m1 := foldl (record_participation t) m sel) in *. split.
  - rewrite <- E1. by destruct m1.
  - intros i. rewrite <- (record_history t m sel i Hsnd). fold m1. by destruct m1.
Qed.

(** A quorum is formed whenever enough active masternodes qualify, their
    scores add up to a positive number and they have operator keys. *)
Theorem form_quorum_succeeds `{!HashLaws P} t mns h bh m :
  let n := get_quorum_size (quorum_config m) t in
  let scored := qualified iter m t mns None in
  1 <= n <= u32_max -> min_active_masternodes (quorum_config m) <= len (get_active_masternodes iter mns) ->
  n <= len scored -> sampling_range (sum_scores scored) = true ->
  (forall i e, mns !! i = Some e -> operator_public_key (identity e) <> []) ->
  exists m' q, form_quorum iter t mns h bh None m = (m', Ok q).
Proof using iter_perm.
  intros n scored Hn Hmin Hlen Hsum Hkeys. unfold form_quorum. fold n scored.
  destruct (Z.ltb_spec (len (get_active_masternodes iter mns)) (min_active_masternodes (quorum_config m))); [lia|].
  assert (Hact : len scored <= len (get_active_masternodes iter mns)).
  { destruct (qualified_spec m t mns None) as [Hnd Hq]. fold scored in Hnd, Hq.
    assert (Hsub : (score_id <$> scored) ⊆+ get_active_masternodes iter mns).
    { apply NoDup_submseteq; [done|]. intros i Hi. apply Hq in Hi as (e & He & Ha & _). apply active_spec. eauto. }
    apply submseteq_length in Hsub. rewrite length_fmap in Hsub. unfold len. lia. }
  destruct (Z.ltb_spec (len (get_active_masternodes iter mns)) n); [lia|].
  destruct (Z.ltb_spec (len scored) n); [lia|].
  assert (Hsel : exists sel, deterministic_selection scored n t h bh = Ok sel).
  { unfold deterministic_selection. destruct (Z.eqb_spec (len scored) 0); [lia|].
    destruct (Z.ltb_spec (len scored) n); [lia|].
    destruct (blake3_out (string_bytes (seed_name t) ++ to_be_bytes 8 h ++ bh)) as [_ Hb].
    unfold generate_selection_seed. unfold len at 1. rewrite Hb. cbn [Z.of_nat Pos.of_succ_nat Z.eqb negb Pos.eqb Pos.succ].
    destruct (sum_scores scored) as [| | |[] f e]; try discriminate Hsum. cbn [SFleb SFcompare f32_of_Z].
    by apply select_loop_total. }
  destruct Hsel as [sel Hsel]. rewrite Hsel. cbn [mbind outcome_bind].
  apply selection_spec' in Hsel as [Hsub Hl]; [|lia].
  assert (Hps : forall i, exists ps, quorum_participants mns i sel = Ok ps).
  { assert (Hin : Forall (fun i => is_Some (mns !! i)) sel).
    { apply Forall_forall. intros i Hi. eapply elem_of_submseteq in Hi; [|exact Hsub].
      apply qualified_spec in Hi as (e & He & _). by rewrite He. }
    clear Hl Hsub. induction Hin as [|j sel [e He] Hin IH]; intros i; cbn [quorum_participants]; [by exists []|].
    rewrite He. destruct (operator_public_key (identity e)) as [|x b] eqn:Hk; [by destruct (Hkeys j e He)|].
    rewrite len_cons. pose proof (len_nonneg b). destruct (Z.eqb_spec (len b + 1) 0); [lia|].
    destruct (IH (i + 1)) as [ps ->]. cbn. eauto. }
  assert (Hthr : (wrap32 (len sel) <? quorum_calculate_threshold n) = false).
  { pose proof (threshold_bounds n ltac:(lia)). rewrite wrap32_small by lia. apply Z.ltb_ge. lia. }
  destruct (requires_dkg t); [|cbn; eauto]. unfold create_dkg_session. rewrite Hthr.
  destruct (Hps 0) as [ps ->]. cbn. eauto.
Qed.

End FormationTheorems.

(** ** Newly registered masternodes *)

(** The state registration leaves an entry in once it has been activated: no
    failure and no key generation. *)
Definition fresh_entry (e : MasternodeEntry) : Prop :=
  status e = Active -> pose_failure_count e = 0 /\ dkg_success_rate e = f32_of_Z 0.

Lemma fresh_score t i e :
  pose_failure_count e = 0 -> dkg_success_rate e = f32_of_Z 0 ->
  SFleb (min_masternode_score QuorumConfig_default) (total_score (score_entry t i e [])) = false.
Proof. intros Hf Hr. unfold score_entry. cbn [total_score]. rewrite Hf, Hr. vm_compute. reflexivity. Qed.

Record quorum_call : Type := mkQuorumCall {
  call_type : QuorumType;
  call_list : MasternodeList;
  call_height : Z;
  call_hash : Hash;
  call_criteria : option (MasternodeEntry -> bool);
}.

Section Bootstrap.
  Context `{P : Primitives, C : ChaCha8}.
  Context (iter : MasternodeList -> list (MasternodeID * MasternodeEntry)).
  Hypothesis iter_perm : forall m, iter m ≡ₚ map_to_list m.

Definition run_call (c : quorum_call) : stM QuorumFormationManager string FormedQuorum :=
  form_quorum iter (call_type c) (call_list c) (call_height c) (call_hash c) (call_criteria c).

Lemma fresh_call_fails (c : quorum_call) :
  map_Forall (fun _ e => fresh_entry e) (call_list c) ->
  let m := QuorumFormationManager_new QuorumConfig_default in
  exists e, run_call c m = (m, Err e).
Proof using iter_perm.
  intros Hc m. unfold run_call, form_quorum. destruct (_ <? _); [by eexists|]. destruct (_ <? _); [by eexists|].
  assert (Hq : qualified iter m (call_type c) (call_list c) (call_criteria c) = []).
  { apply elem_of_nil_inv. intros s Hs.
    destruct (qualified_spec iter iter_perm m (call_type c) (call_list c) (call_criteria c)) as [_ Hq].
    destruct (proj1 (Hq (score_id s))) as (e & He & Ha & _ & Hmin); [apply list_elem_of_fmap; eauto|].
    destruct (Hc _ _ He Ha) as [Hf Hr]. cbn [participation_history m QuorumFormationManager_new] in Hmin.
    rewrite lookup_empty in Hmin. cbn [default] in Hmin. rewrite fresh_score in Hmin by done. done. }
  rewrite Hq, len_nil. destruct (call_type c); by eexists.
Qed.

(** No quorum is ever formed from masternodes that have not yet taken
    part in a key generation: with the default configuration the score of one
    without failures is two thirds, below the required 0.8, and quorums are
    what key generations are started from. *)
Theorem fresh_masternodes_never_qualify (calls : list quorum_call) :
  Forall (fun c => map_Forall (fun _ e => fresh_entry e) (call_list c)) calls ->
  let m := QuorumFormationManager_new QuorumConfig_default in
  Forall (fun c => is_ok (snd (run_call c m)) = false) calls /\
  foldl (fun m c => fst (run_call c m)) m calls = m.
Proof using iter_perm.
  intros Hall m. split.
  - apply (Forall_impl _ _ _ Hall). intros c Hc. destruct (fresh_call_fails c Hc) as [e He]. fold m in He. by rewrite He.
  - induction Hall as [|c calls Hc Hall IH]; [done|]. cbn [foldl].
    destruct (fresh_call_fails c Hc) as [e He]. fold m in He. rewrite He. exact IH.
Qed.

End Bootstrap.

(** * Samples *)

(** A generator that always draws zero. *)
Definition sample_chacha : ChaCha8 :=
  {| Rng := unit; rng_from_seed _ := tt; gen_f32_below rng _ := (f32_of_Z 0, rng) |}.

Definition seasoned_entry (k : Z) : MasternodeEntry :=
  mkMasternodeEntry (mkMasternodeIdentity (mkOutPoint (replicate 32 k) 0) (to_le_bytes 32 k) ""%string [] None [])
    Active 0 0 None 5 (f32_of_Z 1) [] 0.

Definition mn_of (k : Z) : MasternodeID := mkMasternodeID (mkOutPoint (replicate 32 k) 0).

Definition two_masternodes : MasternodeList :=
  {[ mn_of 1 := seasoned_entry 1; mn_of 2 := seasoned_entry 2 ]}.

Definition small_config : QuorumConfig := mkQuorumConfig 1 2 2 2 1 (f32_lit 8 10) 5.

Definition forward (m : MasternodeList) : list (MasternodeID * MasternodeEntry) := map_to_list m.
Definition backward (m : MasternodeList) : list (MasternodeID * MasternodeEntry) := reverse (map_to_list m).

Definition challenger (iter : MasternodeList -> list (MasternodeID * MasternodeEntry)) : list MasternodeID :=
  match snd (form_quorum (H := sample_primitives) (H0 := sample_chacha) iter PoSeChallenger two_masternodes 5
    (replicate 32 3) None (QuorumFormationManager_new small_config)) with
  | Ok q => quorum_members q
  | _ => []
  end.

(** The selection is not a function of its inputs: two nodes with the
    same masternodes, height and block hash, whose hash maps iterate in
    different orders, form different quorums from the same random draws. *)
Theorem selection_depends_on_map_order :
  exists iter1 iter2 : MasternodeList -> list (MasternodeID * MasternodeEntry),
    (forall m, iter1 m ≡ₚ map_to_list m) /\ (forall m, iter2 m ≡ₚ map_to_list m) /\
    len (challenger iter1) = 1 /\ len (challenger iter2) = 1 /\ challenger iter1 <> challenger iter2.
Proof.
  exists forward, backward. split; [done|]. split; [intros m; apply reverse_Permutation|].
  split; [vm_compute; reflexivity|]. split; [vm_compute; reflexivity|].
  apply (bool_decide_eq_false_1 (challenger forward = challenger backward)). vm_compute. reflexivity.
Qed.

Lemma form_quorum_spec_witness :
  exists m' q, form_quorum (H := sample_primitives) (H0 := sample_chacha) forward OxideSend two_masternodes 5
      (replicate 32 3) None (QuorumFormationManager_new small_config) = (m', Ok q) /\
    NoDup (quorum_members q) /\ len (quorum_members q) = 2.
Proof.
  destruct (form_quorum (H := sample_primitives) (H0 := sample_chacha) forward OxideSend two_masternodes 5
      (replicate 32 3) None (QuorumFormationManager_new small_config)) as [m' r] eqn:Hr.
  assert (Hok : is_ok (snd (form_quorum (H := sample_primitives) (H0 := sample_chacha) forward OxideSend two_masternodes 5
      (replicate 32 3) None (QuorumFormationManager_new small_config))) = true) by (vm_compute; reflexivity).
  rewrite Hr in Hok. cbn [snd] in Hok.
  pose proof (@form_quorum_spec sample_primitives sample_chacha forward (fun m => reflexivity _) OxideSend two_masternodes 5
    (replicate 32 3) None (QuorumFormationManager_new small_config) m' r ltac:(cbn; unfold u32_max; lia) Hr) as Hq.
  destruct r as [q|e| |]; try discriminate Hok. exists m', q. split; [done|]. split; apply Hq.
Defined.

Lemma form_quorum_succeeds_witness :
  exists m' q, form_quorum (H := sample_primitives) (H0 := sample_chacha) forward OxideSend two_masternodes 5
      (replicate 32 3) None (QuorumFormationManager_new small_config) = (m', Ok q).
Proof.
  apply (@form_quorum_succeeds sample_primitives sample_chacha forward (fun m => reflexivity _) sample_hash_laws
    OxideSend two_masternodes 5 (replicate 32 3) (QuorumFormationManager_new small_config)).
  - cbn. unfold u32_max. lia.
  - vm_compute. discriminate.
  - vm_compute. discriminate.
  - vm_compute. reflexivity.
  - intros i e. unfold two_masternodes. rewrite lookup_insert_Some, lookup_singleton_Some. by intros [[_ <-]|[_ [_ <-]]].
Defined.

Definition new_entry (k : Z) : MasternodeEntry := (seasoned_entry k) <| dkg_success_rate := f32_of_Z 0 |>.

Lemma fresh_masternodes_never_qualify_witness :
  is_ok (snd (run_call (P := sample_primitives) (C := sample_chacha) forward
    (mkQuorumCall DKGParticipantQuorum {[ mn_of 1 := new_entry 1 ]} 1000 (replicate 32 3) None)
    (QuorumFormationManager_new QuorumConfig_default))) = false.
Proof.
  assert (Hf : Forall (fun c => map_Forall (fun _ e => fresh_entry e) (call_list c))
    [mkQuorumCall DKGParticipantQuorum {[ mn_of 1 := new_entry 1 ]} 1000 (replicate 32 3) None]).
  { constructor; [|done]. cbn [call_list]. apply map_Forall_singleton. by intros _. }
  pose proof (proj1 (@fresh_masternodes_never_qualify sample_primitives sample_chacha forward (fun m => reflexivity _) _ Hf)) as Hr.
  by apply Forall_cons in Hr as [Hr _].
Defined.
