(* ===== verification/MasternodeDkg.v ===== *)
(** The key-generation manager of a masternode
    (src/rusty-masternode/src/dkg_manager.rs): scheduled sessions, incoming
    requests, upkeep.

    The mutexes of the manager are never taken twice by one call and are not
    modelled; its shared maps are fields of its state.  [handle_dkg_message]
    calls itself, so it carries fuel. *)

From Stdlib Require Import ZArith Lia List SpecFloat.
From stdpp Require Import base option list numbers strings gmap.
From coqutil Require Import Datatypes.RecordSetters.
From S2P Require Import Prelude Types Transaction SamplePrimitives ChainState Masternodes F64 Dkg DkgProtocol Quorum.

Import TriangleBracketNotations.
#[local] Open Scope Z_scope.

(** The bincode encodings the manager signs and hashes, and
    [Keypair::from_bytes(&keypair.to_bytes())]. *)
Class DkgCodec `{AuthKeys} : Type := {
  bincode_session_id : DKGSessionID -> option bytes;
  bincode_mn_id : MasternodeID -> option bytes;
  bincode_mn_ids : list MasternodeID -> option bytes;
  bincode_u32 : Z -> option bytes;
  bincode_u64 : Z -> option bytes;
  bincode_initiate : DKGInitiateRequest -> option bytes;
  keypair_reload : Keypair -> option Keypair;
}.

Inductive DKGManagerError : Type :=
| DkgErr (e : DKGError)
| SerializationErr (msg : string).

#[export] Instance DKGManagerError_eq_dec : EqDecision DKGManagerError.
Proof. solve_decision. Defined.

Section Manager.
  Context `{P : Primitives, A : AuthKeys, B : Bls12, C : ChaCha8, K : !DkgCodec}.
  Context (iter : MasternodeList -> list (MasternodeID * MasternodeEntry)).

Record DKGSessionData : Type := mkDKGSessionData {
  data_session : DKGSession;
  data_protocol : DKGProtocol;
  our_participant_index : Z;
  received_commitments : gmap Z DKGCommitment;
  data_received_shares : gmap Z DKGSecretShare;
  our_secret_key_share : option SecretKeyShare;
  data_group_public_key : option ThresholdPublicKey;
}.

Record MnManager : Type := mkMnManager {
  mn_id : MasternodeID;
  auth_keypair : Keypair;
  masternode_list : MasternodeList;
  quorum_manager : QuorumFormationManager;
  mn_sessions : gmap DKGSessionID DKGSessionData;
  mn_params : DKGParams;
  outgoing_messages : list DKGMessage;
  mn_block_height : Z;
}.

Abbreviation mnmM := (stM MnManager DKGManagerError).

Definition MnManager_new (id : MasternodeID) (key : Keypair) (masternodes : MasternodeList)
    (params : DKGParams) : MnManager :=
  mkMnManager id key masternodes (QuorumFormationManager_new QuorumConfig_default) ∅ params [] 0.

Definition mn_get_block_height (m : MnManager) : Z := mn_block_height m.
Definition get_active_session_count (m : MnManager) : Z := Z.of_nat (size (mn_sessions m)).

(** * Keys and signatures *)

Definition get_masternode_public_key (m : MnManager) (id : MasternodeID) : outcome DKGManagerError bytes :=
  match masternode_list m !! id with
  | Some entry =>
      let key := operator_public_key (identity entry) in
      if len key =? 32 then Ok key
      else Err (SerializationErr "Operator public key is not 32 bytes")
  | None => Err (SerializationErr "Masternode not found")
  end.

(** [unwrap_or_else(|_| vec![0u8; 32])] *)
Definition key_or_zero (m : MnManager) (id : MasternodeID) : bytes :=
  match get_masternode_public_key m id with Ok key => key | _ => replicate 32 0 end.

Definition sign_dkg_message (m : MnManager) (request : DKGInitiateRequest) : outcome DKGManagerError bytes :=
  message_bytes ← ok_or (bincode_initiate request) (SerializationErr "bincode");
  Ok (keypair_sign (auth_keypair m) message_bytes).

(** The bytes the initiator's signature is checked against; a failed encoding
    counts as empty. *)
Definition initiator_bytes (request : DKGInitiateRequest) : bytes :=
  default [] (bincode_session_id (init_session_id request)) ++
  default [] (bincode_mn_id (initiator request)) ++
  default [] (bincode_mn_ids (init_participants request)) ++
  default [] (bincode_u32 (init_threshold request)) ++
  default [] (bincode_u64 (init_block_height request)).

Definition verify_dkg_initiator_signature (m : MnManager) (request : DKGInitiateRequest) :
    outcome DKGManagerError unit :=
  pubkey_bytes ← get_masternode_public_key m (initiator request);
  public_key ← ok_or (public_key_from_bytes pubkey_bytes) (DkgErr DkgInvalidSignature);
  signature ← ok_or (signature_from_bytes (init_signature request)) (DkgErr DkgInvalidSignature);
  if ed25519_verify public_key (initiator_bytes request) signature then Ok tt
  else Err (DkgErr DkgInvalidSignature).

(** * Validation of a request *)

Definition validate_dkg_block_height (m : MnManager) (request_block_height : Z) : outcome DKGManagerError unit :=
  let current_height := mn_get_block_height m in
  if current_height <? request_block_height then Err (DkgErr InvalidBlockHeight)
  else if 10 <? u64_saturating_sub current_height request_block_height then Err (DkgErr InvalidBlockHeight)
  else Ok tt.

(** The [HashSet] loop: the first repeated participant is an error. *)
Definition all_distinct (l : list MasternodeID) : bool := bool_decide (NoDup l).

Definition validate_dkg_request (m : MnManager) (request : DKGInitiateRequest) : outcome DKGManagerError unit :=
  let participant_count := wrap32 (len (init_participants request)) in
  if init_threshold request =? 0 then Err (DkgErr InvalidThreshold)
  else if participant_count <? init_threshold request then Err (DkgErr InvalidThreshold)
  else if participant_count <? 3 then Err (DkgErr NotEnoughParticipants)
  else if 100 <? participant_count then Err (DkgErr TooManyParticipants)
  else if negb (all_distinct (init_participants request)) then Err (DkgErr DuplicateParticipant)
  else if negb (bool_decide (initiator request ∈ init_participants request))
  then Err (DkgErr InitiatorNotParticipant)
  else
    validate_dkg_block_height m (init_block_height request);;
    verify_dkg_initiator_signature m request.

(** * Sessions *)

(** The participants of a session, numbered from zero. *)
Definition numbered_participants (m : MnManager) (ids : list MasternodeID) : list DKGParticipant :=
  imap (fun index id => mkDKGParticipant id (wrap32 (Z.of_nat index)) (key_or_zero m id)) ids.

Definition store_session (id : DKGSessionID) (data : DKGSessionData) (m : MnManager) : MnManager :=
  m <| mn_sessions ::= <[id := data]> |>.

Definition queue_message (msg : DKGMessage) (m : MnManager) : MnManager :=
  m <| outgoing_messages ::= (fun l => l ++ [msg]) |>.

(** The encodings of the participants, in order. *)
Fixpoint encode_ids (ids : list MasternodeID) : option bytes :=
  match ids with
  | [] => Some []
  | id :: ids => b ← bincode_mn_id id; rest ← encode_ids ids; Some (b ++ rest)
  end.

Definition scheduled_session_id (m : MnManager) (ids : list MasternodeID) (height : Z) :
    outcome DKGManagerError DKGSessionID :=
  own ← ok_or (bincode_mn_id (mn_id m)) (SerializationErr "bincode");
  others ← ok_or (encode_ids ids) (SerializationErr "bincode");
  Ok (blake3 (own ++ to_le_bytes 8 height ++ others)).

Definition initiate_dkg_session (ids : list MasternodeID) (p : DKGPurpose) (height : Z) :
    mnmM DKGSessionID :=
  m ← gets Datatypes.id;
  let threshold := calculate_threshold (wrap32 (len ids)) (threshold_percentage (mn_params m)) in
  session_id ← lift (scheduled_session_id m ids height);
  let ps := numbered_participants m ids in
  our_index ← lift (ok_or (participant_index <$>
    (snd <$> list_find (fun q => participant_masternode_id q = mn_id m) ps)) (DkgErr NotAParticipant));
  let session := DKGSession_new session_id ps threshold height (mn_params m) in
  key ← lift (ok_or (keypair_reload (auth_keypair m)) (SerializationErr "keypair"));
  modify (store_session session_id
    (mkDKGSessionData session (mkDKGProtocol our_index key) our_index ∅ ∅ None None));;
  let request := mkDKGInitiateRequest session_id (mn_id m) ids threshold p height [] in
  signature ← lift (sign_dkg_message m request);
  modify (queue_message (InitiateDKG (request <| init_signature := signature |>)));;
  mret session_id.

Definition handle_initiate_request (request : DKGInitiateRequest) : mnmM unit :=
  m ← gets Datatypes.id;
  if negb (bool_decide (mn_id m ∈ init_participants request)) then mret tt
  else
    lift (validate_dkg_request m request);;
    our_index ← lift (ok_or (fst <$> list_find (fun id => id = mn_id m) (init_participants request))
      (DkgErr NotAParticipant));
    let session := DKGSession_new (init_session_id request)
      (numbered_participants m (init_participants request)) (init_threshold request)
      (init_block_height request) (mn_params m) in
    key ← lift (ok_or (keypair_reload (auth_keypair m)) (SerializationErr "keypair"));
    modify (store_session (init_session_id request)
      (mkDKGSessionData session (mkDKGProtocol (wrap32 (Z.of_nat our_index)) key)
         (wrap32 (Z.of_nat our_index)) ∅ ∅ None None)).

(** Five kinds of messages are passed to the function itself. *)
Fixpoint handle_dkg_message (fuel : nat) (message : DKGMessage) : mnmM unit :=
  match fuel with
  | O => lift OutOfFuel
  | S fuel =>
      match message with
      | InitiateDKG request => handle_initiate_request request
      | CommitmentBroadcast msg => handle_dkg_message fuel (CommitmentBroadcast msg)
      | ShareDistribution msg => handle_dkg_message fuel (ShareDistribution msg)
      | ComplaintBroadcast msg => handle_dkg_message fuel (ComplaintBroadcast msg)
      | JustificationBroadcast msg => handle_dkg_message fuel (JustificationBroadcast msg)
      | DKGComplete msg => handle_dkg_message fuel (DKGComplete msg)
      | _ => mret tt
      end
  end.

(** * The schedule *)

Definition cleanup_expired_sessions (current_height : Z) (m : MnManager) : MnManager :=
  let expiry_threshold := u64_saturating_sub current_height 1000 in
  let expired := filter (fun p => timeout_block_height (data_session p.2) < expiry_threshold)
    (map_to_list (mn_sessions m)) in
  m <| mn_sessions ::= (fun s => foldl (fun s id => delete id s) s expired.*1) |>.

Definition select_dkg_participants (min max block_height : Z) (block_hash : Hash) :
    mnmM (list MasternodeID) := fun m =>
  let active_count := len (filter (fun e => status e = Active) (entries (masternode_list m))) in
  let target_size := Z.min max (Z.max min (active_count / 3)) in
  match form_quorum iter DKGParticipantQuorum (masternode_list m) block_height block_hash None (quorum_manager m) with
  | (qm, Ok quorum) =>
      (m <| quorum_manager := qm |>, Ok (take (Z.to_nat target_size) (quorum_members quorum)))
  | (qm, Err e) =>
      (m <| quorum_manager := qm |>, Err (SerializationErr ("Quorum formation failed: " +:+ e)))
  | (qm, Panic) => (m <| quorum_manager := qm |>, Panic)
  | (qm, OutOfFuel) => (m <| quorum_manager := qm |>, OutOfFuel)
  end.

(** [match .. { Ok(_) => info!(..), Err(e) => warn!(..) }] *)
Definition warn_on_error {A} (m : mnmM A) : mnmM unit := fun s =>
  match m s with
  | (s', Ok _) => (s', Ok tt)
  | (s', Err _) => (s', Ok tt)
  | (s', Panic) => (s', Panic)
  | (s', OutOfFuel) => (s', OutOfFuel)
  end.

Definition already_active (m : MnManager) (height : Z) : bool :=
  existsb (fun d => creation_block_height (data_session d) =? height) (map_to_list (mn_sessions m)).*2.

Definition maybe_initiate_scheduled_dkg (current_height : Z) (block_hash : Hash) : mnmM unit :=
  if negb (current_height mod 1000 =? 0) then mret tt
  else
    m ← gets Datatypes.id;
    if already_active m current_height then mret tt
    else
      ids ← select_dkg_participants 5 50 current_height block_hash;
      if len ids =? 0 then mret tt
      else warn_on_error (initiate_dkg_session ids OxideSendQuorum current_height).

Definition process_height_dependent_operations (height : Z) (block_hash : Hash) : mnmM unit :=
  modify (cleanup_expired_sessions height);;
  maybe_initiate_scheduled_dkg height block_hash.

Definition mn_update_block_height (height : Z) (block_hash : Hash) : mnmM unit :=
  modify (fun m => m <| mn_block_height := height |>);;
  process_height_dependent_operations height block_hash.

(** A session older than 100 blocks that has received nothing. *)
Definition stalled (current_height : Z) (d : DKGSessionData) : bool :=
  (100 <? u64_saturating_sub current_height (creation_block_height (data_session d))) &&
  bool_decide (received_commitments d = ∅) && bool_decide (data_received_shares d = ∅).

Definition rebroadcast_request (m : MnManager) (id : DKGSessionID) (d : DKGSessionData) : DKGInitiateRequest :=
  mkDKGInitiateRequest id (mn_id m) (participant_masternode_id <$> participants (data_session d))
    (threshold (data_session d)) (CustomPurpose "Rebroadcast") (creation_block_height (data_session d)) [].

Definition rebroadcast (id : DKGSessionID) : mnmM unit :=
  m ← gets Datatypes.id;
  match mn_sessions m !! id with
  | None => mret tt
  | Some d =>
      let request := rebroadcast_request m id d in
      signature ← lift (sign_dkg_message m request);
      modify (queue_message (InitiateDKG (request <| init_signature := signature |>)))
  end.

(** The ids of the stalled sessions, in the order of the map. *)
Definition sessions_to_retry (current_height : Z) (m : MnManager) : list DKGSessionID :=
  (filter (fun p => stalled current_height p.2 = true) (map_to_list (mn_sessions m))).*1.

Definition periodic_maintenance (block_hash : Hash) : mnmM unit :=
  current_height ← gets mn_get_block_height;
  modify (cleanup_expired_sessions current_height);;
  maybe_initiate_scheduled_dkg current_height block_hash;;
  retry ← gets (sessions_to_retry current_height);
  for_each retry rebroadcast.

End Manager.

(** * Theorems *)

Section Theorems.
  Context `{P : Primitives, A : AuthKeys, B : Bls12, C : ChaCha8, K : !DkgCodec}.

(** ** Messages *)

(** The messages of the protocol itself are never handled: a commitment,
    a share, a complaint, a justification or a completion makes the handler call
    itself without end, whatever the fuel.  Only requests are processed, and
    the remaining kinds are ignored. *)
Theorem protocol_messages_never_return (fuel : nat) (message : DKGMessage) (m : MnManager) :
  match message with
  | CommitmentBroadcast _ | ShareDistribution _ | ComplaintBroadcast _ | JustificationBroadcast _
  | DKGComplete _ => handle_dkg_message fuel message m = (m, OutOfFuel)
  | InitiateDKG request => handle_dkg_message (S fuel) message m = handle_initiate_request request m
  | _ => handle_dkg_message (S fuel) message m = (m, Ok tt)
  end.
Proof.
  destruct message; try reflexivity; induction fuel as [|fuel IH]; try reflexivity; exact IH.
Qed.

(** ** Requests *)

(** An accepted request, in terms of its contents. *)
Definition request_ok (m : MnManager) (r : DKGInitiateRequest) : Prop :=
  1 <= init_threshold r <= len (init_participants r) /\ 3 <= len (init_participants r) <= 100 /\
  NoDup (init_participants r) /\ initiator r ∈ init_participants r /\
  mn_block_height m - 10 <= init_block_height r <= mn_block_height m /\
  exists entry pk sig, masternode_list m !! initiator r = Some entry /\
    public_key_from_bytes (operator_public_key (identity entry)) = Some pk /\
    signature_from_bytes (init_signature r) = Some sig /\
    ed25519_verify pk (initiator_bytes r) sig = true.

Lemma initiator_signature_ok m r :
  verify_dkg_initiator_signature m r = Ok tt ->
  exists entry pk sig, masternode_list m !! initiator r = Some entry /\
    get_masternode_public_key m (initiator r) = Ok (operator_public_key (identity entry)) /\
    public_key_from_bytes (operator_public_key (identity entry)) = Some pk /\
    signature_from_bytes (init_signature r) = Some sig /\
    ed25519_verify pk (initiator_bytes r) sig = true.
Proof.
  unfold verify_dkg_initiator_signature. intros Hv. apply outcome_bind_inv in Hv as (key & Hk & Hv).
  apply outcome_bind_inv in Hv as (pk & Hpk & Hv). apply outcome_bind_inv in Hv as (sig & Hs & Hv).
  destruct (public_key_from_bytes key) eqn:E1; [injection Hpk as ->|done].
  destruct (signature_from_bytes _) eqn:E2; [injection Hs as ->|done].
  destruct (ed25519_verify pk _ sig) eqn:E3; [|done]. pose proof Hk as Hk'. unfold get_masternode_public_key in Hk.
  destruct (masternode_list m !! initiator r) as [entry|] eqn:E4; [|done]. destruct (_ =? 32); [|done].
  injection Hk as <-. exists entry, pk, sig. done.
Qed.

Lemma validate_request_ok m r :
  0 <= init_threshold r -> 0 <= mn_block_height m -> len (init_participants r) <= u32_max ->
  validate_dkg_request m r = Ok tt -> request_ok m r /\ verify_dkg_initiator_signature m r = Ok tt.
Proof.
  intros Ht Hh Hl. unfold validate_dkg_request. pose proof (len_nonneg (init_participants r)).
  rewrite wrap32_small by lia. unfold all_distinct.
  destruct (Z.eqb_spec (init_threshold r) 0); [done|].
  destruct (Z.ltb_spec (len (init_participants r)) (init_threshold r)); [done|].
  destruct (Z.ltb_spec (len (init_participants r)) 3); [done|].
  destruct (Z.ltb_spec 100 (len (init_participants r))); [done|].
  case_bool_decide; cbn [negb]; [|done]. case_bool_decide; cbn [negb]; [|done].
  unfold validate_dkg_block_height, mn_get_block_height, u64_saturating_sub.
  destruct (Z.ltb_spec (mn_block_height m) (init_block_height r)); [done|].
  destruct (Z.ltb_spec 10 (Z.max 0 (mn_block_height m - init_block_height r))); [done|].
  cbn [mbind outcome_bind]. intros Hv. split; [|done].
  apply initiator_signature_ok in Hv as (entry & pk & sig & E1 & _ & E3 & E4 & E5).
  unfold request_ok. split; [lia|]. split; [lia|]. split; [done|]. split; [done|]. split; [lia|].
  exists entry, pk, sig. done.
Qed.

(** A request that names this masternode: it is refused, and nothing
    changes, or it satisfies every rule (threshold, number and distinctness of
    the participants, a height at most ten blocks old, the initiator's
    signature), and a new session is stored under its identifier, replacing any
    session already there, in which this masternode has its position as index. *)
Theorem handle_request_spec (r : DKGInitiateRequest) (m m' : MnManager) o :
  0 <= init_threshold r -> 0 <= mn_block_height m -> len (init_participants r) <= u32_max ->
  mn_id m ∈ init_participants r -> handle_initiate_request r m = (m', o) ->
  match o with
  | Ok _ =>
      request_ok m r /\ exists d p,
        m' = store_session (init_session_id r) d m /\
        participants (data_session d) !! Z.to_nat (our_participant_index d) = Some p /\
        participant_masternode_id p = mn_id m /\ participant_index p = our_participant_index d /\
        participant_masternode_id <$> participants (data_session d) = init_participants r /\
        threshold (data_session d) = init_threshold r /\
        session_state (data_session d) = WaitingForParticipants /\ received_commitments d = ∅
  | _ => m' = m
  end.
Proof.
  intros Ht Hh Hl Hin. unfold handle_initiate_request. rewrite stM_bind_run. cbn [gets Datatypes.id].
  rewrite bool_decide_eq_true_2 by done. cbn [negb]. rewrite stM_bind_run. unfold lift at 1.
  destruct (validate_dkg_request m r) as [[]|e| |] eqn:Hv; try (by intros [= <- <-]).
  apply validate_request_ok in Hv as [Hok _]; [|done..].
  destruct (list_find_elem_of (fun id => id = mn_id m) (init_participants r) (mn_id m) Hin eq_refl) as [[i j] Hf].
  rewrite Hf. apply list_find_Some in Hf as (Hi & -> & _). cbn [fst fmap option_fmap option_map].
  rewrite stM_bind_run. unfold lift at 1. cbn [ok_or]. rewrite stM_bind_run. unfold lift at 1.
  destruct (keypair_reload (auth_keypair m)) as [key|]; cbn [ok_or]; [|by intros [= <- <-]].
  intros [= <- <-]. split; [done|].
  apply lookup_lt_Some in Hi as Hlt.
  assert (Hw : wrap32 (Z.of_nat i) = Z.of_nat i) by (apply wrap32_small; unfold len in Hl; lia).
  eexists _, (mkDKGParticipant (mn_id m) (Z.of_nat i) (key_or_zero m (mn_id m))). split; [done|].
  cbn [our_participant_index data_session participants DKGSession_new received_commitments threshold session_state].
  rewrite Hw, Nat2Z.id. unfold numbered_participants. split.
  { rewrite list_lookup_imap, Hi. cbn. by rewrite Hw. }
  split; [done|]. split; [done|]. split; [|done].
  rewrite fmap_imap. transitivity (Datatypes.id <$> init_participants r); [|apply list_fmap_id].
  rewrite <- imap_const. by apply imap_ext.
Qed.

(** bincode writes a struct as the concatenation of its fields, an enum with a
    tag of four bytes, and a byte vector after its length. *)
Class DkgCodecLaws : Prop := {
  initiate_layout : forall r, exists purpose_bytes tail, (4 <= length purpose_bytes)%nat /\
    bincode_initiate r = Some
      (default [] (bincode_session_id (init_session_id r)) ++
       default [] (bincode_mn_id (initiator r)) ++
       default [] (bincode_mn_ids (init_participants r)) ++
       default [] (bincode_u32 (init_threshold r)) ++ purpose_bytes ++
       default [] (bincode_u64 (init_block_height r)) ++ tail);
}.

(** What [initiate_dkg_session] leaves behind. *)
Lemma initiate_ok ids p h m m' id :
  initiate_dkg_session ids p h m = (m', Ok id) ->
  exists thr d msg, let r := mkDKGInitiateRequest id (mn_id m) ids thr p h [] in
    bincode_initiate r = Some msg /\
    m' = queue_message (InitiateDKG (mkDKGInitiateRequest id (mn_id m) ids thr p h (keypair_sign (auth_keypair m) msg)))
           (store_session id d m).
Proof.
  unfold initiate_dkg_session. rewrite stM_bind_run. cbn [gets Datatypes.id].
  rewrite stM_bind_run. unfold lift at 1. destruct (scheduled_session_id m ids h) as [sid|e| |]; try done.
  rewrite stM_bind_run. unfold lift at 1. destruct (ok_or _ _) as [i|e| |]; try done.
  rewrite stM_bind_run. unfold lift at 1. destruct (ok_or (keypair_reload _) _) as [key|e| |]; try done.
  rewrite stM_bind_run. cbn [modify]. rewrite stM_bind_run. unfold lift at 1, sign_dkg_message.
  destruct (bincode_initiate _) as [msg|] eqn:Hm; cbn [ok_or mbind outcome_bind]; [|done].
  rewrite stM_bind_run. cbn [modify]. intros [= <- <-]. eexists _, _, msg. split; [exact Hm|]. reflexivity.
Qed.

(** Requests this manager sends cannot be accepted: the signature covers
    the purpose of the session, which the verification leaves out.  A receiver
    that accepts one holds a signature valid for two different messages. *)
Theorem accepted_request_is_a_forgery `{L : !AuthLaws, LC : !DkgCodecLaws} ids p h m m' id rcv :
  initiate_dkg_session ids p h m = (m', Ok id) ->
  get_masternode_public_key rcv (mn_id m) = Ok (keypair_public (auth_keypair m)) ->
  exists r, outgoing_messages m' = outgoing_messages m ++ [InitiateDKG r] /\
    (verify_dkg_initiator_signature rcv r = Ok tt ->
     exists m1 m2 pk sig, m1 <> m2 /\ public_key_from_bytes (keypair_public (auth_keypair m)) = Some pk /\
       ed25519_verify pk m1 sig = true /\ ed25519_verify pk m2 sig = true).
Proof.
  intros Hi Hk. apply initiate_ok in Hi as (thr & d & msg & Hm & ->). cbn zeta in Hm.
  eexists. split; [by destruct m|]. intros Hv.
  apply initiator_signature_ok in Hv as (entry & pk & sig & _ & Hk' & Hpk & Hs & Hver).
  cbn [initiator init_signature] in *. rewrite Hk in Hk'. injection Hk' as Hkey.
  destruct (sign_verifies (auth_keypair m) msg) as (pk' & sig' & Hpk' & Hs' & Hver').
  rewrite <- Hkey in Hpk. rewrite Hpk in Hpk'. injection Hpk' as <-. rewrite Hs in Hs'. injection Hs' as <-.
  exists msg, (initiator_bytes (mkDKGInitiateRequest id (mn_id m) ids thr p h (keypair_sign (auth_keypair m) msg))), pk, sig.
  split; [|done]. destruct (initiate_layout (mkDKGInitiateRequest id (mn_id m) ids thr p h [])) as (pb & tail & Hpb & Hlay).
  rewrite Hm in Hlay. injection Hlay as ->. unfold initiator_bytes.
  cbn [init_session_id initiator init_participants init_threshold init_block_height].
  intros He. apply (f_equal length) in He. rewrite !length_app in He. lia.
Qed.

(** A rebroadcast request is refused by every masternode that is not
    behind: it repeats the height of the stalled session, more than 100 blocks
    ago, where requests may be at most ten blocks old. *)
Theorem rebroadcast_is_stale (m rcv : MnManager) id d s :
  mn_sessions m !! id = Some d -> stalled (mn_block_height m) d = true ->
  mn_block_height m <= mn_block_height rcv ->
  is_ok (validate_dkg_request rcv ((rebroadcast_request m id d) <| init_signature := s |>)) = false.
Proof.
  intros _ Hst Hh. unfold stalled, u64_saturating_sub in Hst. rewrite !andb_true_iff, Z.ltb_lt in Hst.
  destruct Hst as [[Hage _] _]. unfold validate_dkg_request. repeat (case_match; [done|]).
  assert (Hv : validate_dkg_block_height rcv (init_block_height ((rebroadcast_request m id d) <| init_signature := s |>)) =
          Err (DkgErr InvalidBlockHeight)); [|by rewrite Hv].
  unfold validate_dkg_block_height, mn_get_block_height, u64_saturating_sub, rebroadcast_request. cbn.
  destruct (Z.ltb_spec (mn_block_height rcv) (creation_block_height (data_session d))); [done|].
  destruct (Z.ltb_spec 10 (Z.max 0 (mn_block_height rcv - creation_block_height (data_session d)))); [done|lia].
Qed.

(** ** Upkeep and schedule *)

(** Upkeep drops exactly the sessions that timed out more than 1000
    blocks ago. *)
Theorem cleanup_exact (h : Z) (m : MnManager) :
  map_Forall (fun _ d => 0 <= timeout_block_height (data_session d)) (mn_sessions m) ->
  forall id d, mn_sessions (cleanup_expired_sessions h m) !! id = Some d <->
    mn_sessions m !! id = Some d /\ h <= timeout_block_height (data_session d) + 1000.
Proof.
  intros Hall id d. unfold cleanup_expired_sessions.
  set (expired := filter _ _). assert (Hm : forall f, mn_sessions (m <| mn_sessions ::= f |>) = f (mn_sessions m)) by (by destruct m).
  rewrite Hm, deletes_lookup.
  assert (Hex : id ∈ expired.*1 <-> exists d', mn_sessions m !! id = Some d' /\ timeout_block_height (data_session d') + 1000 < h).
  { unfold expired. rewrite list_elem_of_fmap. split.
    - intros ([j d'] & -> & Hf). apply list_elem_of_filter in Hf as [Ht Hj]. apply elem_of_map_to_list in Hj.
      exists d'. split; [done|]. cbn in Ht. unfold u64_saturating_sub in Ht. specialize (Hall _ _ Hj). cbn in Hall. lia.
    - intros (d' & Hd & Ht). exists (id, d'). split; [done|]. apply list_elem_of_filter.
      rewrite elem_of_map_to_list. split; [|done]. cbn. unfold u64_saturating_sub. lia. }
  case_bool_decide as Hin.
  - apply Hex in Hin as (d' & Hd & Ht). split; [done|]. intros [Hd' Hh]. rewrite Hd in Hd'. injection Hd' as <-. lia.
  - split; [|by intros []]. intros Hd. split; [done|]. destruct (Z.le_gt_cases h (timeout_block_height (data_session d) + 1000)); [done|].
    destruct Hin. apply Hex. eauto.
Qed.

Section Schedule.
  Context (iter : MasternodeList -> list (MasternodeID * MasternodeEntry)).
  Hypothesis iter_perm : forall m, iter m ≡ₚ map_to_list m.

(** A block arrives while the shared masternode list is [l]. *)
Definition block_arrives (m : MnManager) (b : MasternodeList * Z * Hash) : MnManager * outcome DKGManagerError unit :=
  let '(l, h, bh) := b in mn_update_block_height iter h bh (m <| masternode_list := l |>).

(** No session, no message and no quorum so far. *)
Definition idle (m : MnManager) : Prop :=
  mn_sessions m = ∅ /\ outgoing_messages m = [] /\
  quorum_manager m = QuorumFormationManager_new QuorumConfig_default.

Lemma cleanup_empty h m : mn_sessions m = ∅ -> cleanup_expired_sessions h m = m.
Proof.
  intros He. unfold cleanup_expired_sessions. rewrite He, map_to_list_empty. cbn. destruct m; cbn in *. by subst.
Qed.

Lemma idle_block m l h bh :
  idle m -> map_Forall (fun _ e => fresh_entry e) l ->
  idle (fst (block_arrives m (l, h, bh))) /\
  (h mod 1000 = 0 -> is_ok (snd (block_arrives m (l, h, bh))) = false).
Proof using iter_perm.
  intros (E1 & E2 & E3) Hl. unfold block_arrives, mn_update_block_height, process_height_dependent_operations.
  rewrite stM_bind_run. cbn [modify]. set (m1 := (m <| masternode_list := l |>) <| mn_block_height := h |>).
  assert (Hm1 : mn_sessions m1 = ∅ /\ outgoing_messages m1 = [] /\ masternode_list m1 = l /\
            quorum_manager m1 = QuorumFormationManager_new QuorumConfig_default) by (by destruct m; cbn in *; subst).
  destruct Hm1 as (F1 & F2 & F3 & F4). rewrite stM_bind_run. cbn [modify]. rewrite cleanup_empty by done.
  unfold maybe_initiate_scheduled_dkg. destruct (Z.eqb_spec (h mod 1000) 0) as [Hh|Hh]; cbn [negb]; [|by split].
  rewrite stM_bind_run. cbn [gets Datatypes.id]. unfold already_active. rewrite F1, map_to_list_empty. cbn [fmap list_fmap existsb].
  rewrite stM_bind_run. unfold select_dkg_participants. rewrite F3, F4.
  destruct (fresh_call_fails iter iter_perm (mkQuorumCall DKGParticipantQuorum l h bh None) Hl) as [e He].
  cbn zeta in He. unfold run_call in He. cbn [call_type call_list call_height call_hash call_criteria] in He.
  rewrite He. cbn [fst snd]. split; [|done]. unfold idle. by destruct m1; cbn in *; subst.
Qed.

(** As long as no masternode has taken part in a key generation, none is
    ever scheduled: whatever blocks arrive and however the list of masternodes
    changes, the manager forms no quorum, opens no session and sends nothing,
    and every thousandth block makes the update fail. *)
Theorem no_session_from_fresh_list id key l0 params (blocks : list (MasternodeList * Z * Hash)) :
  Forall (fun b => map_Forall (fun _ e => fresh_entry e) b.1.1) blocks ->
  let m := foldl (fun m b => fst (block_arrives m b)) (MnManager_new id key l0 params) blocks in
  mn_sessions m = ∅ /\ outgoing_messages m = [] /\ active_quorums (quorum_manager m) = ∅ /\
  forall l h bh, map_Forall (fun _ e => fresh_entry e) l -> h mod 1000 = 0 ->
    is_ok (snd (block_arrives m (l, h, bh))) = false.
Proof using iter_perm.
  intros Hall m. assert (Hm : idle m).
  { unfold m. generalize (MnManager_new id key l0 params), (conj eq_refl (conj eq_refl eq_refl) : idle (MnManager_new id key l0 params)).
    induction Hall as [|[[l h] bh] blocks Hb Hall IH]; intros m0 H0; [done|]. cbn [foldl]. apply IH.
    by apply (idle_block m0 l h bh). }
  destruct Hm as (E1 & E2 & E3). split; [done|]. split; [done|]. split; [by rewrite E3|].
  intros l h bh Hl Hh. by apply idle_block.
Qed.

End Schedule.

End Theorems.

(** * Samples *)

Definition sample_id_bytes (i : MasternodeID) : bytes := txid (mn_outpoint i) ++ to_le_bytes 4 (vout (mn_outpoint i)).

Definition sample_dkg_codec (auth : AuthKeys) : @DkgCodec auth := {|
  bincode_session_id h := Some h;
  bincode_mn_id i := Some (sample_id_bytes i);
  bincode_mn_ids l := Some (to_le_bytes 8 (len l) ++ concat (sample_id_bytes <$> l));
  bincode_u32 z := Some (to_le_bytes 4 z);
  bincode_u64 z := Some (to_le_bytes 8 z);
  bincode_initiate r := Some (init_session_id r ++ sample_id_bytes (initiator r) ++
    (to_le_bytes 8 (len (init_participants r)) ++ concat (sample_id_bytes <$> init_participants r)) ++
    to_le_bytes 4 (init_threshold r) ++ to_le_bytes 4 0 ++ to_le_bytes 8 (init_block_height r) ++
    to_le_bytes 8 (len (init_signature r)) ++ init_signature r);
  keypair_reload k := Some k;
|}.

Lemma sample_dkg_codec_laws auth : @DkgCodecLaws auth (sample_dkg_codec auth).
Proof.
  split. intros r. exists (to_le_bytes 4 0), (to_le_bytes 8 (len (init_signature r)) ++ init_signature r).
  split; [by rewrite length_to_le_bytes|]. reflexivity.
Qed.

Definition three_masternodes : MasternodeList :=
  {[ mn_of 1 := seasoned_entry 1; mn_of 2 := seasoned_entry 2; mn_of 3 := seasoned_entry 3 ]}.

Definition sample_mn_manager (auth : AuthKeys) (k : @Keypair auth) (i height : Z) : @MnManager auth sample_bls12 :=
  (MnManager_new (A := auth) (B := sample_bls12) (mn_of i) k three_masternodes DKGParams_default)
    <| mn_block_height := height |>.

Definition unsigned_request : DKGInitiateRequest :=
  mkDKGInitiateRequest (replicate 32 9) (mn_of 2) [mn_of 1; mn_of 2; mn_of 3] 2 OxideSendQuorum 5 [].

Definition signed_request : DKGInitiateRequest :=
  unsigned_request <| init_signature := @keypair_sign sample_auth 2
    (initiator_bytes (K := sample_dkg_codec sample_auth) unsigned_request) |>.

Abbreviation handle_sample r m := (@handle_initiate_request sample_primitives sample_auth sample_bls12 (sample_dkg_codec sample_auth) r m).

Lemma handle_request_spec_witness :
  is_ok (snd (handle_sample signed_request (sample_mn_manager sample_auth 1 1 6))) = true /\
  request_ok (P := sample_primitives) (K := sample_dkg_codec sample_auth) (sample_mn_manager sample_auth 1 1 6) signed_request.
Proof.
  assert (Hok : is_ok (snd (handle_sample signed_request (sample_mn_manager sample_auth 1 1 6))) = true) by (vm_compute; reflexivity).
  split; [exact Hok|]. destruct (handle_sample signed_request (sample_mn_manager sample_auth 1 1 6)) as [m' o] eqn:Hh.
  cbn [snd] in Hok.
  pose proof (@handle_request_spec sample_primitives sample_auth sample_bls12 (sample_dkg_codec sample_auth) signed_request
    (sample_mn_manager sample_auth 1 1 6) m' o ltac:(vm_compute; discriminate) ltac:(vm_compute; discriminate) ltac:(vm_compute; discriminate)
    ltac:(left) Hh) as Hs.
  destruct o as [u|e| |]; try discriminate Hok. exact (proj1 Hs).
Defined.

(** Under the weak signatures the receiver accepts, and exhibits the forgery. *)
Lemma accepted_request_is_a_forgery_witness :
  exists m1 m2 pk sig, m1 <> m2 /\ @public_key_from_bytes weak_primitives (to_le_bytes 32 1) = Some pk /\
    @ed25519_verify weak_primitives pk m1 sig = true /\ @ed25519_verify weak_primitives pk m2 sig = true.
Proof.
  pose (run := @initiate_dkg_session weak_primitives weak_auth sample_bls12 (sample_dkg_codec weak_auth)
    [mn_of 1; mn_of 2; mn_of 3] OxideSendQuorum 5 (sample_mn_manager weak_auth 1 1 5)).
  assert (Hok : match run with
                | (m', Ok _) => match last (outgoing_messages m') with
                                | Some (InitiateDKG r) =>
                                    bool_decide (@verify_dkg_initiator_signature weak_primitives weak_auth sample_bls12
                                      (sample_dkg_codec weak_auth) (sample_mn_manager weak_auth 2 2 5) r = Ok tt)
                                | _ => false
                                end
                | _ => false
                end = true) by (vm_compute; reflexivity).
  destruct run as [m' [id|e| |]] eqn:Hr; try discriminate Hok. unfold run in Hr.
  destruct (@accepted_request_is_a_forgery weak_primitives weak_auth sample_bls12 (sample_dkg_codec weak_auth)
    weak_auth_laws (sample_dkg_codec_laws weak_auth) [mn_of 1; mn_of 2; mn_of 3] OxideSendQuorum 5 (sample_mn_manager weak_auth 1 1 5)
    m' id (sample_mn_manager weak_auth 2 2 5) Hr) as (r & Hout & Hv); [vm_compute; reflexivity|].
  rewrite Hout, last_snoc in Hok. apply Hv. by apply bool_decide_eq_true in Hok.
Defined.

Definition stalled_data : @DKGSessionData sample_auth sample_bls12 :=
  mkDKGSessionData (A := sample_auth) (B := sample_bls12)
    (DKGSession_new (replicate 32 9) [] 2 5 DKGParams_default) (mkDKGProtocol (H0 := sample_auth) 0 1) 0 ∅ ∅ None None.

Definition stalled_manager : @MnManager sample_auth sample_bls12 :=
  (sample_mn_manager sample_auth 1 1 200) <| mn_sessions := {[ replicate 32 9 := stalled_data ]} |>.

Lemma rebroadcast_is_stale_witness :
  is_ok (@validate_dkg_request sample_primitives sample_auth sample_bls12 (sample_dkg_codec sample_auth) stalled_manager
    ((rebroadcast_request stalled_manager (replicate 32 9) stalled_data) <| init_signature := [] |>)) = false.
Proof.
  apply (@rebroadcast_is_stale sample_primitives sample_auth sample_bls12 (sample_dkg_codec sample_auth)).
  - exact (lookup_singleton_eq (replicate 32 9) stalled_data).
  - vm_compute. reflexivity.
  - cbn. lia.
Defined.

Lemma cleanup_exact_witness :
  mn_sessions (cleanup_expired_sessions 1036 stalled_manager) !! replicate 32 9 = None /\
  mn_sessions (cleanup_expired_sessions 1035 stalled_manager) !! replicate 32 9 = Some stalled_data.
Proof.
  assert (Hall : map_Forall (fun _ d => 0 <= timeout_block_height (data_session d)) (mn_sessions stalled_manager)).
  { apply (map_Forall_singleton (M := gmap DKGSessionID) (fun _ d => 0 <= timeout_block_height (data_session d)) (replicate 32 9) stalled_data).
    vm_compute. discriminate. }
  assert (Hl : mn_sessions stalled_manager !! replicate 32 9 = Some stalled_data).
  { exact (lookup_singleton_eq (replicate 32 9) stalled_data). }
  split.
  - destruct (mn_sessions (cleanup_expired_sessions 1036 stalled_manager) !! replicate 32 9) as [d|] eqn:Hd; [|reflexivity].
    apply (cleanup_exact 1036 stalled_manager Hall) in Hd as [Hd Hh]. rewrite Hl in Hd. injection Hd as <-.
    vm_compute in Hh. by destruct Hh.
  - apply (cleanup_exact 1035 stalled_manager Hall). split; [exact Hl|]. vm_compute. discriminate.
Defined.

Lemma no_session_from_fresh_list_witness :
  let m := fst (block_arrives (P := sample_primitives) (C := sample_chacha) (K := sample_dkg_codec sample_auth) forward
    (MnManager_new (A := sample_auth) (B := sample_bls12) (mn_of 1) 1 ∅ DKGParams_default)
    ({[ mn_of 1 := new_entry 1 ]}, 1000, replicate 32 3)) in
  mn_sessions m = ∅ /\ outgoing_messages m = [].
Proof.
  assert (Hf : Forall (fun b : MasternodeList * Z * Hash => map_Forall (fun _ e => fresh_entry e) b.1.1)
    [({[ mn_of 1 := new_entry 1 ]}, 1000, replicate 32 3)]).
  { constructor; [|done]. cbn [fst]. apply map_Forall_singleton. by intros _. }
  destruct (@no_session_from_fresh_list sample_primitives sample_auth sample_bls12 sample_chacha (sample_dkg_codec sample_auth)
    forward (fun m => reflexivity _) (mn_of 1) 1 ∅ DKGParams_default _ Hf) as (H1 & H2 & _).
  cbn [foldl] in H1, H2. exact (conj H1 H2).
Defined.
