(* ===== verification/ProofOfService.v ===== *)
(** Proof of service (src/rusty-masternode/src/pose.rs and
    pose_coordinator.rs): challengers and targets drawn from the masternode
    list, challenges and responses, timeouts, statistics.

    [iter] stands for the iteration order of a [HashMap]; nothing is assumed
    of it but that it lists the map.  The draws of ChaCha8 are an interface;
    the loops that repeat a draw until it is new carry fuel.  The mutexes of
    the coordinator are never taken twice by one call and are not modelled;
    [Instant]s are seconds. *)

From Stdlib Require Import ZArith Lia List SpecFloat.
From stdpp Require Import base option list numbers strings gmap.
From coqutil Require Import Datatypes.RecordSetters.
From S2P Require Import Prelude Types Transaction SamplePrimitives ChainState Masternodes Dkg DkgProtocol Quorum.

Import TriangleBracketNotations.
#[local] Open Scope Z_scope.

(** * Third-party code *)

(** [rng.gen_range(0..n)] on a non-empty range. *)
Class ChaCha8Index `{ChaCha8} : Type := {
  gen_index_below : Rng -> nat -> nat * Rng;
}.

(** [bincode::serialize] of a response. *)
Class PoseCodec : Type := {
  bincode_pose_response : Z -> bytes -> MasternodeID -> option bytes;
}.

(** * Data *)

Record PoSeConfig : Type := mkPoSeConfig {
  challenge_period_blocks : Z;
  num_challengers : Z;
  response_timeout_seconds : Z;
  max_consecutive_failures : Z;
  min_masternodes_for_pose : Z;
  pose_response_timeout : Z;
}.

(** The field of [ConsensusParams] the protocol reads is 60 by default. *)
Definition PoSeConfig_default : PoSeConfig := mkPoSeConfig 60 3 60 3 10 60.

Record MnPoSeChallenge : Type := mkMnPoSeChallenge {
  challenge_nonce : Z;
  challenge_block_hash : Hash;
  challenger_masternode_id : MasternodeID;
  challenge_generation_block_height : Z;
  challenge_signature : bytes;
}.

Record MnPoSeResponse : Type := mkMnPoSeResponse {
  response_nonce : Z;
  signed_block_hash : bytes;
  target_masternode_id : MasternodeID;
}.

Record PoSeChallengeRecord : Type := mkPoSeChallengeRecord {
  record_challenge : MnPoSeChallenge;
  record_response : option MnPoSeResponse;
  response_received_at : option Z;
  is_valid : option bool;
}.

Record PoSeManager : Type := mkPoSeManager {
  pose_config : PoSeConfig;
  active_challenges : gmap MasternodeID MnPoSeChallenge;
  challenge_history : gmap MasternodeID (list PoSeChallengeRecord);
}.

Record PoSeStats : Type := mkPoSeStats {
  total_challenges : Z;
  successful_responses : Z;
  failed_responses : Z;
  pending_challenges : Z;
  consecutive_failures : Z;
  success_rate : f32;
}.

Abbreviation poseM := (stM PoSeManager string).

Definition PoSeManager_new (config : PoSeConfig) : PoSeManager := mkPoSeManager config ∅ ∅.

(** A zero period panics (division by zero). *)
Definition should_generate_challenges (m : PoSeManager) (current_block_height : Z) : outcome string bool :=
  if challenge_period_blocks (pose_config m) =? 0 then Panic
  else Ok (current_block_height mod challenge_period_blocks (pose_config m) =? 0).

(** * Selection *)

Section Selection.
  Context `{P : Primitives, C : ChaCha8, !ChaCha8Index}.
  Context (iter : MasternodeList -> list (MasternodeID * MasternodeEntry)).

Definition active_ids (masternode_list : MasternodeList) : list MasternodeID :=
  (filter (fun p => status p.2 = Active) (iter masternode_list)).*1.

(** The loop that draws positions of [ids] until [missing] new ones are found
    or every position was drawn; [seen] is the set of drawn positions. *)
Fixpoint draw_loop (fuel missing : nat) (rng : Rng) (ids : list MasternodeID) (seen : list nat) :
    outcome string (list MasternodeID) :=
  if (missing =? 0)%nat || (length ids <=? length seen)%nat then Ok []
  else
    match fuel with
    | O => OutOfFuel
    | S fuel =>
        let '(index, rng) := gen_index_below rng (length ids) in
        if bool_decide (index ∈ seen) then draw_loop fuel missing rng ids seen
        else
          match ids !! index with
          | None => Panic
          | Some id =>
              rest ← draw_loop fuel (pred missing) rng ids (index :: seen);
              Ok (id :: rest)
          end
    end.

Definition pose_seed (block_height : Z) (block_hash : Hash) (tag : string) : Hash :=
  blake3 (to_le_bytes 8 block_height ++ block_hash ++ string_bytes tag).

Definition select_challengers (fuel : nat) (m : PoSeManager) (block_height : Z) (block_hash : Hash)
    (masternode_list : MasternodeList) : outcome string (list MasternodeID) :=
  let active := active_ids masternode_list in
  if len active <? num_challengers (pose_config m)
  then Err "Not enough active masternodes for challenger selection"%string
  else
    draw_loop fuel (Z.to_nat (num_challengers (pose_config m)))
      (rng_from_seed (pose_seed block_height block_hash "POSE_CHALLENGER_SELECTION")) active [].

Definition eligible_targets (masternode_list : MasternodeList) (challengers : list MasternodeID) :
    list MasternodeID :=
  filter (fun id => id ∉ challengers) (active_ids masternode_list).

Definition num_targets (eligible : nat) : nat := Nat.min (Nat.max (eligible / 10) 1) eligible.

Definition select_challenge_targets (fuel : nat) (block_height : Z) (block_hash : Hash)
    (masternode_list : MasternodeList) (challengers : list MasternodeID) :
    outcome string (list MasternodeID) :=
  let eligible := eligible_targets masternode_list challengers in
  match eligible with
  | [] => Ok []
  | _ =>
      draw_loop fuel (num_targets (length eligible))
        (rng_from_seed (pose_seed block_height block_hash "POSE_TARGET_SELECTION")) eligible []
  end.

(** * Challenges *)

(** [nonce_hash.as_bytes()[0..8]] of a 32-byte hash. *)
Definition generate_challenge_nonce (block_height : Z) (target_id : MasternodeID) (block_hash : Hash) : Z :=
  from_le_bytes (take 8 (blake3 (to_le_bytes 8 block_height ++ txid (mn_outpoint target_id) ++
    block_hash ++ string_bytes "POSE_CHALLENGE_NONCE"))).

Definition serialize_challenge_for_signing (c : MnPoSeChallenge) : bytes :=
  to_le_bytes 8 (challenge_nonce c) ++ challenge_block_hash c ++
  txid (mn_outpoint (challenger_masternode_id c)) ++
  to_le_bytes 8 (challenge_generation_block_height c).

End Selection.

Section Challenges.
  Context `{P : Primitives, A : AuthKeys, C : ChaCha8, I : !ChaCha8Index, K : PoseCodec}.
  Context (iter : MasternodeList -> list (MasternodeID * MasternodeEntry)).

(** The signed challenge for one target. *)
Definition signed_challenge (block_height : Z) (block_hash : Hash) (our_id : MasternodeID)
    (key : Keypair) (target_id : MasternodeID) : MnPoSeChallenge :=
  let challenge := mkMnPoSeChallenge (generate_challenge_nonce block_height target_id block_hash)
    block_hash our_id block_height [] in
  challenge <| challenge_signature := keypair_sign key (serialize_challenge_for_signing challenge) |>.

Definition store_challenge (target_id : MasternodeID) (c : MnPoSeChallenge) (m : PoSeManager) : PoSeManager :=
  m <| active_challenges ::= <[target_id := c]> |>.

Definition generate_challenges (fuel : nat) (height : Z) (block_hash : Hash)
    (masternode_list : MasternodeList) (key : Keypair) (our_id : MasternodeID) :
    poseM (list MnPoSeChallenge) := fun m =>
  if Z.of_nat (size masternode_list) <? min_masternodes_for_pose (pose_config m) then (m, Ok [])
  else
    match select_challengers iter fuel m height block_hash masternode_list with
    | Ok challengers =>
        if negb (bool_decide (our_id ∈ challengers)) then (m, Ok [])
        else
          match select_challenge_targets iter fuel height block_hash masternode_list challengers with
          | Ok targets =>
              let signed t := signed_challenge height block_hash our_id key t in
              (foldl (fun m t => store_challenge t (signed t) m) m targets, Ok (signed <$> targets))
          | Err e => (m, Err e)
          | Panic => (m, Panic)
          | OutOfFuel => (m, OutOfFuel)
          end
    | Err e => (m, Err e)
    | Panic => (m, Panic)
    | OutOfFuel => (m, OutOfFuel)
    end.

(** * Responses *)

Definition generate_pose_response (c : MnPoSeChallenge) (our_id : MasternodeID) (key : Keypair) : MnPoSeResponse :=
  mkMnPoSeResponse (challenge_nonce c)
    (keypair_sign key (to_le_bytes 8 (challenge_nonce c) ++ challenge_block_hash c)) our_id.

(** The code reads the signature from the field [signed_block_hash], which it
    has just compared with the hash of the block. *)
Definition mn_verify_pose_response (c : MnPoSeChallenge) (r : MnPoSeResponse) (id : MasternodeIdentity)
    (current_block_height timeout : Z) : outcome string bool :=
  _ ← unwrap (bincode_pose_response (response_nonce r) (signed_block_hash r) (target_masternode_id r));
  let key_bytes := collateral_ownership_public_key id in
  if negb (len key_bytes =? 32) then Panic
  else
    owner_key ← unwrap (public_key_from_bytes key_bytes);
    if negb (challenge_nonce c =? response_nonce r) then Ok false
    else if negb (len (signed_block_hash r) =? 32) then Panic
    else if negb (bool_decide (challenge_block_hash c = signed_block_hash r)) then Ok false
    else
      let signed_data := to_le_bytes 8 (response_nonce r) ++ signed_block_hash r in
      match signature_from_bytes (signed_block_hash r) with
      | None => Ok false
      | Some signature =>
          if negb (ed25519_verify owner_key signed_data signature) then Ok false
          else Ok (current_block_height <=? wrap64 (challenge_generation_block_height c + timeout))
      end.

Definition push_record (id : MasternodeID) (r : PoSeChallengeRecord) (m : PoSeManager) : PoSeManager :=
  m <| challenge_history ::= (fun h => <[id := default [] (h !! id) ++ [r]]> h) |>.

Definition handle_pose_response (r : MnPoSeResponse) (current_block_height : Z)
    (masternode_list : MasternodeList) : poseM bool := fun m =>
  match active_challenges m !! target_masternode_id r with
  | None => (m, Err "No active challenge found for masternode"%string)
  | Some c =>
      let m := m <| active_challenges ::= delete (target_masternode_id r) |> in
      match get_masternode masternode_list (target_masternode_id r) with
      | None => (m, Err "Masternode not found in list"%string)
      | Some entry =>
          match mn_verify_pose_response c r (identity entry) current_block_height
                  (pose_response_timeout (pose_config m)) with
          | Ok valid =>
              (push_record (challenger_masternode_id c)
                 (mkPoSeChallengeRecord c (Some r) (Some current_block_height) (Some valid)) m, Ok valid)
          | Err e => (m, Err e)
          | Panic => (m, Panic)
          | OutOfFuel => (m, OutOfFuel)
          end
      end
  end.

End Challenges.

(** * Timeouts and statistics *)

Section Upkeep.
  Context (iter_challenges : gmap MasternodeID MnPoSeChallenge -> list (MasternodeID * MnPoSeChallenge)).

(** The difference of heights wraps. *)
Definition challenge_expired (config : PoSeConfig) (current_block_height : Z) (c : MnPoSeChallenge) : bool :=
  response_timeout_seconds config / 150 <?
    wrap64 (current_block_height - challenge_generation_block_height c).

Definition time_out (mn_id : MasternodeID) : PoSeManager * list MasternodeID -> PoSeManager * list MasternodeID :=
  fun '(m, timed_out) =>
  match active_challenges m !! mn_id with
  | None => (m, timed_out)
  | Some c =>
      (push_record mn_id (mkPoSeChallengeRecord c None None (Some false))
         (m <| active_challenges ::= delete mn_id |>), timed_out ++ [mn_id])
  end.

Definition check_challenge_timeouts (current_block_height : Z) (m : PoSeManager) :
    PoSeManager * list MasternodeID :=
  let expired := (filter (fun p => challenge_expired (pose_config m) current_block_height p.2 = true)
    (iter_challenges (active_challenges m))).*1 in
  foldl (fun acc mn_id => time_out mn_id acc) (m, []) expired.

End Upkeep.

(** The loop over the reversed history: a pending record is skipped. *)
Fixpoint failures_from_end (rev_history : list PoSeChallengeRecord) : Z :=
  match rev_history with
  | [] => 0
  | r :: rest =>
      match is_valid r with
      | Some false => 1 + failures_from_end rest
      | Some true => 0
      | None => failures_from_end rest
      end
  end.

Definition get_masternode_pose_stats (m : PoSeManager) (id : MasternodeID) : PoSeStats :=
  let history := default [] (challenge_history m !! id) in
  let total := len history in
  let successful := len (filter (fun r => is_valid r = Some true) history) in
  mkPoSeStats total successful (len (filter (fun r => is_valid r = Some false) history))
    (match active_challenges m !! id with Some _ => 1 | None => 0 end)
    (wrap32 (failures_from_end (reverse history)))
    (if 0 <? total then f32_div (f32_of_Z successful) (f32_of_Z total) else f32_of_Z 1).

Definition should_slash_masternode (m : PoSeManager) (id : MasternodeID) : bool :=
  max_consecutive_failures (pose_config m) <=? consecutive_failures (get_masternode_pose_stats m id).

Definition get_active_challenges (m : PoSeManager) : gmap MasternodeID MnPoSeChallenge := active_challenges m.

Definition record_is_recent (current_block_height max_age : Z) (r : PoSeChallengeRecord) : bool :=
  wrap64 (current_block_height - challenge_generation_block_height (record_challenge r)) <=? max_age.

Definition cleanup_old_history (current_block_height max_age : Z) (m : PoSeManager) : PoSeManager :=
  m <| challenge_history ::= (fun h =>
    filter (fun p => p.2 <> [])
      ((filter (fun r => record_is_recent current_block_height max_age r = true)) <$> h)) |>.

(** * The coordinator *)

Record PoSeCoordinatorConfig : Type := mkPoSeCoordinatorConfig {
  maintenance_interval_secs : Z;
  history_retention_blocks : Z;
  participate_in_challenges : bool;
  respond_to_challenges : bool;
}.

Definition PoSeCoordinatorConfig_default : PoSeCoordinatorConfig :=
  mkPoSeCoordinatorConfig 30 10000 true true.

(** The messages of the network layer the coordinator queues. *)
Inductive PoseMessage : Type :=
| MsgPoSeChallenge (c : MnPoSeChallenge)
| MsgPoSeResponse (r : MnPoSeResponse).

Record PoSeNetworkStats : Type := mkPoSeNetworkStats {
  net_total_masternodes : Z;
  net_active_masternodes : Z;
  net_active_challenges : Z;
  net_pending_slashes : Z;
  net_block_height : Z;
}.

Section Coordinator.
  Context `{P : Primitives, A : AuthKeys, C : ChaCha8, I : !ChaCha8Index}.
  Context (iter : MasternodeList -> list (MasternodeID * MasternodeEntry)).

Record PoSeCoordinator : Type := mkPoSeCoordinator {
  pose_manager : PoSeManager;
  our_masternode_id : option MasternodeID;
  pose_keypair : option Keypair;
  coordinator_config : PoSeCoordinatorConfig;
  pose_masternode_list : MasternodeList;
  pose_block_height : Z;
  pose_outgoing : list PoseMessage;
  last_maintenance : Z;
  pending_slashes : list MasternodeID;
}.

Definition PoSeCoordinator_new (now : Z) (config : PoSeConfig) (cconfig : PoSeCoordinatorConfig)
    (masternodes : MasternodeList) (our_id : option MasternodeID) (key : option Keypair) : PoSeCoordinator :=
  mkPoSeCoordinator (PoSeManager_new config) our_id key cconfig masternodes 0 [] now [].

Definition broadcast_pose_challenge (c : MnPoSeChallenge) (s : PoSeCoordinator) : PoSeCoordinator :=
  s <| pose_outgoing ::= (fun l => l ++ [MsgPoSeChallenge c]) |>.

Definition broadcast_pose_response (r : MnPoSeResponse) (s : PoSeCoordinator) : PoSeCoordinator :=
  s <| pose_outgoing ::= (fun l => l ++ [MsgPoSeResponse r]) |>.

Definition broadcast_slashing_evidence (id : MasternodeID) (s : PoSeCoordinator) : PoSeCoordinator :=
  if bool_decide (id ∈ pending_slashes s) then s
  else s <| pending_slashes ::= (fun l => l ++ [id]) |>.

(** One round of the loop over the targets. *)
Definition issue_challenge (block_height : Z) (block_hash : Hash) (our_id : MasternodeID) (key : Keypair)
    (s : PoSeCoordinator) (target_id : MasternodeID) : PoSeCoordinator :=
  let c := signed_challenge block_height block_hash our_id key target_id in
  broadcast_pose_challenge c (s <| pose_manager ::= store_challenge target_id c |>).

Definition maybe_generate_challenges (fuel : nat) (block_height : Z) (block_hash : Hash)
    (our_id : MasternodeID) (key : Keypair) : stM PoSeCoordinator string unit := fun s =>
  if negb (participate_in_challenges (coordinator_config s)) then (s, Ok tt)
  else if negb (block_height mod 10 =? 0) then (s, Ok tt)
  else
    match (challengers ← map_err (String.append "Failed to select challengers: ")
             (select_challengers iter fuel (pose_manager s) block_height block_hash (pose_masternode_list s));
           map_err (String.append "Failed to select challenge targets: ")
             (select_challenge_targets iter fuel block_height block_hash (pose_masternode_list s) challengers)) with
    | Ok targets => (foldl (issue_challenge block_height block_hash our_id key) s targets, Ok tt)
    | Err e => (s, Err e)
    | Panic => (s, Panic)
    | OutOfFuel => (s, OutOfFuel)
    end.

Definition pose_periodic_maintenance (now : Z) (s : PoSeCoordinator) : PoSeCoordinator :=
  if now - last_maintenance s <? 300 then s else s <| last_maintenance := now |>.

(** An error of the generation is logged; a panic is not caught. *)
Definition pose_update_block_height (fuel : nat) (now height : Z) (block_hash : Hash) :
    stM PoSeCoordinator string unit := fun s =>
  let s := s <| pose_block_height := height |> in
  let '(s, r) :=
    if participate_in_challenges (coordinator_config s) then
      match our_masternode_id s, pose_keypair s with
      | Some our_id, Some key => maybe_generate_challenges fuel height block_hash our_id key s
      | _, _ => (s, Ok tt)
      end
    else (s, Ok tt) in
  match r with
  | Ok _ | Err _ => (pose_periodic_maintenance now s, Ok tt)
  | Panic => (s, Panic)
  | OutOfFuel => (s, OutOfFuel)
  end.

Definition get_masternode_stats (s : PoSeCoordinator) (id : MasternodeID) : PoSeStats :=
  get_masternode_pose_stats (pose_manager s) id.

Definition get_pending_slashes (s : PoSeCoordinator) : PoSeCoordinator * list MasternodeID :=
  (s <| pending_slashes := [] |>, pending_slashes s).

Definition pose_get_outgoing_messages (s : PoSeCoordinator) : PoSeCoordinator * list PoseMessage :=
  (s <| pose_outgoing := [] |>, pose_outgoing s).

Definition get_network_stats (s : PoSeCoordinator) : PoSeNetworkStats :=
  mkPoSeNetworkStats (Z.of_nat (size (pose_masternode_list s)))
    (count_active_masternodes (pose_masternode_list s))
    (Z.of_nat (size (get_active_challenges (pose_manager s)))) (len (pending_slashes s)) (pose_block_height s).

End Coordinator.

(** * The loop that draws positions *)

(** The elements at distinct positions of a list. *)
Lemma positions_submseteq {A} (ids : list A) (new : list nat) :
  NoDup new -> Forall (fun i => i < length ids)%nat new -> omap (fun i => ids !! i) new ⊆+ ids.
Proof.
  intros Hn Hlt.
  assert (Hs : new ⊆+ seq 0 (length ids)).
  { apply NoDup_submseteq; [done|]. intros i Hi. apply elem_of_seq. rewrite Forall_forall in Hlt.
    specialize (Hlt i Hi). lia. }
  apply submseteq_Permutation in Hs as [k Hk].
  assert (Hall : omap (fun i => ids !! i) (seq 0 (length ids)) = ids).
  { clear. induction ids as [|x ids IH] using rev_ind; [done|].
    rewrite length_app. cbn [length]. rewrite Nat.add_1_r, seq_S, omap_app. cbn.
    rewrite lookup_app_r, Nat.sub_diag by lia. cbn. f_equal. etrans; [|exact IH].
    apply list_omap_ext. apply Forall2_same_length_lookup_2; [done|]. intros i a b Ha Hb.
    rewrite Ha in Hb. injection Hb as <-. apply lookup_seq in Ha as [-> Hi].
    cbn. by rewrite lookup_app_l. }
  assert (Hg : omap (fun i => ids !! i) new ⊆+ omap (fun i => ids !! i) (seq 0 (length ids)))
    by (rewrite Hk, omap_app; by apply submseteq_inserts_r).
  by rewrite Hall in Hg.
Qed.

Section DrawLemmas.
  Context `{C : ChaCha8, I : !ChaCha8Index}.

(** The first [k] draws below [n]. *)
Fixpoint draws (k : nat) (rng : Rng) (n : nat) : list nat :=
  match k with
  | O => []
  | S k => let '(i, rng) := gen_index_below rng n in i :: draws k rng n
  end.

(** The positions of [l] that are not in [seen], each at its first occurrence. *)
Fixpoint first_seen (seen l : list nat) : list nat :=
  match l with
  | [] => []
  | i :: l => if bool_decide (i ∈ seen) then first_seen seen l else i :: first_seen (i :: seen) l
  end.

(** [gen_range(0..n)] is below [n]. *)
Class ChaCha8IndexLaws : Prop := {
  index_in_range : forall rng n, (0 < n)%nat -> ((gen_index_below rng n).1 < n)%nat;
}.

Lemma first_seen_fresh seen l : NoDup (first_seen seen l) /\ (forall i, i ∈ first_seen seen l -> i ∉ seen /\ i ∈ l).
Proof.
  revert seen. induction l as [|i l IH]; intros seen; cbn [first_seen].
  { split; [constructor|]. intros i Hi. by apply not_elem_of_nil in Hi. }
  case_bool_decide as Hi.
  - destruct (IH seen) as [Hn Hs]. split; [done|]. intros j Hj. destruct (Hs j Hj). split; [done|]. by right.
  - destruct (IH (i :: seen)) as [Hn Hs]. split.
    + constructor; [|done]. intros Hc. destruct (Hs i Hc) as [Hx _]. apply Hx. by left.
    + intros j [->|Hj]%elem_of_cons; [split; [done|by left]|].
      destruct (Hs j Hj) as [Hx ?]. split; [|by right]. intros ?. apply Hx. by right.
Qed.

Context `{L : !ChaCha8IndexLaws}.

Lemma draws_bound k rng n : (0 < n)%nat -> Forall (fun i => (i < n)%nat) (draws k rng n).
Proof using L.
  intros Hn. revert rng. induction k as [|k IH]; intros rng; cbn [draws]; [constructor|].
  pose proof (index_in_range rng n Hn). destruct (gen_index_below rng n) as [i rng']. by constructor.
Qed.

(** The loop returns the masternodes at the first new positions drawn, and
    returns exactly when the fuel covers enough draws. *)
Lemma draw_loop_eq fuel missing rng ids seen :
  (missing + length seen <= length ids)%nat ->
  draw_loop fuel missing rng ids seen =
  let new := take missing (first_seen seen (draws fuel rng (length ids))) in
  if (length new =? missing)%nat then Ok (omap (fun i => ids !! i) new) else OutOfFuel.
Proof using L.
  revert missing rng seen. induction fuel as [|fuel IH]; intros missing rng seen Hm; cbn [draw_loop draws first_seen].
  - destruct missing as [|missing]; cbn; [done|].
    by rewrite (proj2 (Nat.leb_gt (length ids) (length seen))) by lia.
  - destruct missing as [|missing].
    { cbn. done. }
    rewrite (proj2 (Nat.leb_gt (length ids) (length seen))) by lia. cbn [Nat.eqb orb].
    pose proof (index_in_range rng (length ids) ltac:(lia)) as Hi.
    destruct (gen_index_below rng (length ids)) as [i rng']. cbn [fst] in Hi. cbn [first_seen].
    case_bool_decide as Hs; [by apply IH|].
    destruct (lookup_lt_is_Some_2 ids i Hi) as [id Hid]. rewrite Hid. cbn [pred take].
    rewrite IH by (cbn [length]; lia). cbn zeta. cbn [length Nat.eqb omap list_omap]. rewrite Hid.
    by destruct (length (take _ _) =? missing)%nat.
Qed.

(** What a completed loop has selected. *)
Lemma draw_loop_spec fuel missing rng ids l :
  (missing <= length ids)%nat -> draw_loop fuel missing rng ids [] = Ok l ->
  length l = missing /\ l ⊆+ ids.
Proof using L.
  intros Hm. rewrite draw_loop_eq by (cbn [length]; lia). cbn zeta.
  destruct (Nat.eqb_spec (length (take missing (first_seen [] (draws fuel rng (length ids))))) missing) as [He|]; [|done].
  destruct missing as [|missing'].
  { intros [= <-]. split; [done|apply submseteq_nil_l]. }
  intros [= <-]. set (new := take _ _) in *.
  destruct (first_seen_fresh [] (draws fuel rng (length ids))) as [Hn Hs].
  assert (Hnew : NoDup new) by (eapply sublist_NoDup; [done|apply sublist_take]).
  assert (Hlt : Forall (fun i => i < length ids)%nat new).
  { apply Forall_forall. intros i Hi. apply elem_of_take in Hi as (k & Hk & _).
    apply list_elem_of_lookup_2 in Hk. destruct (Hs i Hk) as [_ Hd].
    pose proof (draws_bound fuel rng (length ids) ltac:(lia)) as Hb. rewrite Forall_forall in Hb. auto. }
  split; [|by apply positions_submseteq].
  rewrite <- He. clear -Hlt. induction Hlt as [|i l Hi Hl IH]; [done|].
  cbn. destruct (lookup_lt_is_Some_2 ids i Hi) as [x ->]. cbn. by rewrite IH.
Qed.

End DrawLemmas.

(** * Challengers and targets *)

Section SelectionTheorems.
  Context `{P : Primitives, C : ChaCha8, I : !ChaCha8Index, L : !ChaCha8IndexLaws}.
  Context (iter : MasternodeList -> list (MasternodeID * MasternodeEntry)).
  Context (iter_lists : forall m, iter m ≡ₚ map_to_list m).

Lemma active_ids_nodup ml : NoDup (active_ids iter ml).
Proof using iter_lists.
  unfold active_ids. rewrite iter_lists. apply (sublist_NoDup _ (map_to_list ml).*1); [apply NoDup_fst_map_to_list|].
  apply fmap_sublist, sublist_filter.
Qed.

Lemma elem_active_ids ml id : id ∈ active_ids iter ml <-> exists e, ml !! id = Some e /\ status e = Active.
Proof using iter_lists.
  unfold active_ids. rewrite list_elem_of_fmap. setoid_rewrite list_elem_of_filter. setoid_rewrite iter_lists. split.
  - intros ([i e] & -> & Ha & He). apply elem_of_map_to_list in He. eauto.
  - intros (e & He & Ha). exists (id, e). by rewrite elem_of_map_to_list.
Qed.

Lemma num_targets_le n : (num_targets n <= n)%nat.
Proof. unfold num_targets. lia. Qed.

(** What a challenger selection returns. *)
Definition selected_from (ids l : list MasternodeID) (n : nat) : Prop :=
  length l = n /\ NoDup l /\ l ⊆ ids.

Lemma draw_selected fuel n rng ids l :
  NoDup ids -> (n <= length ids)%nat -> draw_loop fuel n rng ids [] = Ok l -> selected_from ids l n.
Proof using L.
  intros Hd Hn Hl. destruct (draw_loop_spec _ _ _ _ _ Hn Hl) as [Hlen Hs]. split; [done|]. split.
  - apply submseteq_Permutation in Hs as [k Hk]. rewrite Hk in Hd. by apply NoDup_app in Hd as [? _].
  - intros x Hx. by eapply elem_of_submseteq.
Qed.

Lemma challengers_selected fuel m h bh ml cs :
  select_challengers iter fuel m h bh ml = Ok cs ->
  selected_from (active_ids iter ml) cs (Z.to_nat (num_challengers (pose_config m))).
Proof using L iter_lists.
  unfold select_challengers. destruct (Z.ltb_spec (len (active_ids iter ml)) (num_challengers (pose_config m))); [done|].
  apply draw_selected; [apply active_ids_nodup|]. unfold len in *. lia.
Qed.

Lemma targets_selected fuel h bh ml cs ts :
  select_challenge_targets iter fuel h bh ml cs = Ok ts ->
  selected_from (eligible_targets iter ml cs) ts (num_targets (length (eligible_targets iter ml cs))).
Proof using L iter_lists.
  unfold select_challenge_targets. destruct (eligible_targets iter ml cs) as [|i e] eqn:He.
  { intros [= <-]. split; [done|]. split; [constructor|done]. }
  rewrite <- He. apply draw_selected; [|apply num_targets_le].
  apply NoDup_filter, active_ids_nodup.
Qed.

(** The roles of a proof-of-service round: the configured number of
    distinct active masternodes challenge, and a tenth of the other active
    masternodes, at least one when there is any, are challenged; nobody
    challenges and is challenged. *)
Theorem pose_roles fuel m h bh ml cs ts :
  select_challengers iter fuel m h bh ml = Ok cs ->
  select_challenge_targets iter fuel h bh ml cs = Ok ts ->
  length cs = Z.to_nat (num_challengers (pose_config m)) /\ NoDup (cs ++ ts) /\
  (forall id, id ∈ cs ++ ts -> exists e, ml !! id = Some e /\ status e = Active) /\
  length ts = num_targets (length (active_ids iter ml) - length cs).
Proof using L iter_lists.
  intros Hc Ht. destruct (challengers_selected _ _ _ _ _ _ Hc) as (Hlc & Hnc & Hsc).
  destruct (targets_selected _ _ _ _ _ _ Ht) as (Hlt & Hnt & Hst).
  assert (Hel : forall id, id ∈ eligible_targets iter ml cs -> id ∉ cs /\ id ∈ active_ids iter ml)
    by (intros id; unfold eligible_targets; by rewrite list_elem_of_filter).
  split; [done|]. split; [|split].
  - apply NoDup_app. split; [done|]. split; [|done]. intros x Hx Hx'. by destruct (Hel x (Hst x Hx')).
  - intros id [Hid|Hid]%elem_of_app; apply elem_active_ids; [auto|]. apply (Hel id). auto.
  - rewrite Hlt. f_equal. unfold eligible_targets.
    assert (Hp : active_ids iter ml ≡ₚ cs ++ filter (fun id => id ∉ cs) (active_ids iter ml)).
    { apply NoDup_Permutation; [apply active_ids_nodup| |].
      - apply NoDup_app. split; [done|]. split; [|apply NoDup_filter, active_ids_nodup].
        intros x Hx Hf. by apply list_elem_of_filter in Hf as [? _].
      - intros x. rewrite elem_of_app, list_elem_of_filter.
        destruct (decide (x ∈ cs)) as [Hin|Hout]; split; try tauto; auto. }
    apply Permutation_length in Hp. rewrite length_app in Hp. lia.
Qed.

(** The challenger selection is the list of the active masternodes at the
    first distinct positions the generator draws; it returns once enough
    distinct positions were drawn and not before. *)
Theorem select_challengers_draws fuel m h bh ml :
  0 <= num_challengers (pose_config m) <= len (active_ids iter ml) ->
  select_challengers iter fuel m h bh ml =
  let ids := active_ids iter ml in
  let n := Z.to_nat (num_challengers (pose_config m)) in
  let drawn := draws fuel (rng_from_seed (pose_seed h bh "POSE_CHALLENGER_SELECTION")) (length ids) in
  if (length (first_seen [] drawn) <? n)%nat then OutOfFuel
  else Ok (omap (fun i => ids !! i) (take n (first_seen [] drawn))).
Proof using L.
  intros Hn. unfold select_challengers.
  destruct (Z.ltb_spec (len (active_ids iter ml)) (num_challengers (pose_config m))); [lia|].
  rewrite draw_loop_eq by (unfold len in *; cbn [length]; lia). cbn zeta. rewrite length_take.
  set (k := length (first_seen _ _)). set (n := Z.to_nat _).
  destruct (Nat.ltb_spec k n), (Nat.eqb_spec (Nat.min n k) n); done || lia.
Qed.

End SelectionTheorems.

(** * Responses *)

(** The lengths of ed25519-dalek: [Signature::from_bytes] takes 64 bytes, and
    [Signature::to_bytes] gives as many. *)
Class PoseLaws `{Primitives, AuthKeys} : Prop := {
  signature_is_64 : forall b sig, signature_from_bytes b = Some sig -> len b = 64;
  signs_64 : forall k m, len (keypair_sign k m) = 64;
}.

Section ResponseTheorems.
  Context `{P : Primitives, A : AuthKeys, K : PoseCodec, L : !PoseLaws}.

(** No response is valid: the field must be the 32-byte hash and a 64-byte
    signature. *)
Lemma response_never_true c r id h t : mn_verify_pose_response c r id h t <> Ok true.
Proof using L.
  unfold mn_verify_pose_response. destruct (bincode_pose_response _ _ _) as [b|]; [|done]. cbn.
  destruct (len (collateral_ownership_public_key id) =? 32); [|done]. cbn.
  destruct (public_key_from_bytes _) as [pk|]; [|done]. cbn.
  destruct (challenge_nonce c =? response_nonce r); [|done]. cbn.
  destruct (Z.eqb_spec (len (signed_block_hash r)) 32) as [H32|]; [|done]. cbn.
  destruct (bool_decide _); [|done]. cbn.
  destruct (signature_from_bytes (signed_block_hash r)) as [sig|] eqn:Hs; [|done].
  apply signature_is_64 in Hs. lia.
Qed.

(** The keys the verification needs before it looks at the response. *)
Definition responder_ok (id : MasternodeIdentity) (r : MnPoSeResponse) : Prop :=
  len (collateral_ownership_public_key id) = 32 /\
  is_Some (public_key_from_bytes (collateral_ownership_public_key id)) /\
  is_Some (bincode_pose_response (response_nonce r) (signed_block_hash r) (target_masternode_id r)).

Lemma verify_past_keys c r id h t :
  responder_ok id r ->
  mn_verify_pose_response c r id h t =
  if negb (challenge_nonce c =? response_nonce r) then Ok false
  else if negb (len (signed_block_hash r) =? 32) then Panic else Ok false.
Proof using L.
  intros (Hlen & [pk Hpk] & [b Hb]). unfold mn_verify_pose_response. rewrite Hb, Hpk, Hlen. cbn.
  destruct (challenge_nonce c =? response_nonce r); [|done]. cbn.
  destruct (Z.eqb_spec (len (signed_block_hash r)) 32) as [H32|]; [|done]. cbn.
  destruct (bool_decide _); [|done]. cbn.
  destruct (signature_from_bytes (signed_block_hash r)) as [sig|] eqn:Hs; [|done].
  apply signature_is_64 in Hs. lia.
Qed.

(** A masternode that answers a challenge the way the protocol's own
    response generator does makes the challenger panic: the 64-byte signature
    is read as a 32-byte hash first.  The challenge is gone by then. *)
Theorem honest_response_panics (m : PoSeManager) (c : MnPoSeChallenge) (id : MasternodeID) key h ml entry :
  active_challenges m !! id = Some c -> ml !! id = Some entry ->
  responder_ok (identity entry) (generate_pose_response c id key) ->
  handle_pose_response (generate_pose_response c id key) h ml m =
  (m <| active_challenges ::= delete id |>, Panic).
Proof using L.
  intros Hc He Hok. unfold handle_pose_response. cbn [target_masternode_id generate_pose_response].
  rewrite Hc. unfold get_masternode. rewrite He. rewrite (verify_past_keys _ _ _ _ _ Hok).
  cbn [response_nonce generate_pose_response signed_block_hash]. rewrite Z.eqb_refl, signs_64. done.
Qed.

(** An answer with a wrong nonce, which anybody can send, is a failure on
    the record of the challenger; the record of the masternode that should
    have answered stays as it was, and it is no longer challenged. *)
Theorem bad_response_blames_challenger (m : PoSeManager) (c : MnPoSeChallenge) (r : MnPoSeResponse) h ml entry :
  active_challenges m !! target_masternode_id r = Some c -> ml !! target_masternode_id r = Some entry ->
  responder_ok (identity entry) r -> response_nonce r <> challenge_nonce c ->
  challenger_masternode_id c <> target_masternode_id r ->
  exists m', handle_pose_response r h ml m = (m', Ok false) /\
    total_challenges (get_masternode_pose_stats m' (challenger_masternode_id c)) =
      total_challenges (get_masternode_pose_stats m (challenger_masternode_id c)) + 1 /\
    failed_responses (get_masternode_pose_stats m' (challenger_masternode_id c)) =
      failed_responses (get_masternode_pose_stats m (challenger_masternode_id c)) + 1 /\
    challenge_history m' !! target_masternode_id r = challenge_history m !! target_masternode_id r /\
    active_challenges m' = delete (target_masternode_id r) (active_challenges m).
Proof using L.
  intros Hc He Hok Hn Hd. unfold handle_pose_response. rewrite Hc. unfold get_masternode. rewrite He.
  rewrite (verify_past_keys _ _ _ _ _ Hok).
  rewrite (proj2 (Z.eqb_neq (challenge_nonce c) (response_nonce r))) by done. cbn [negb].
  eexists. split; [reflexivity|]. unfold get_masternode_pose_stats. destruct m as [cfg act hist].
  cbn in *. unfold RecordSetters.constant. cbn. rewrite lookup_insert_eq, lookup_insert_ne by done. cbn.
  unfold len. rewrite filter_app, !length_app. cbn. rewrite decide_True by done. cbn [length]. repeat split; lia.
Qed.

(** * The history of the manager *)

Context `{C : ChaCha8, I : !ChaCha8Index}.
Context (iter : MasternodeList -> list (MasternodeID * MasternodeEntry)).
Context (iter_challenges : gmap MasternodeID MnPoSeChallenge -> list (MasternodeID * MnPoSeChallenge)).

(** The calls that change the manager. *)
Inductive pose_op : Type :=
| PoseGenerate (fuel : nat) (height : Z) (block_hash : Hash) (ml : MasternodeList) (key : Keypair) (our_id : MasternodeID)
| PoseRespond (r : MnPoSeResponse) (height : Z) (ml : MasternodeList)
| PoseTimeouts (height : Z)
| PoseCleanup (height max_age : Z).

Definition pose_exec (op : pose_op) (m : PoSeManager) : PoSeManager :=
  match op with
  | PoseGenerate fuel h bh ml key our => fst (generate_challenges iter fuel h bh ml key our m)
  | PoseRespond r h ml => fst (handle_pose_response r h ml m)
  | PoseTimeouts h => fst (check_challenge_timeouts iter_challenges h m)
  | PoseCleanup h age => cleanup_old_history h age m
  end.

Definition pose_run (m : PoSeManager) (ops : list pose_op) : PoSeManager := foldl (fun m op => pose_exec op m) m ops.

Definition all_failed (m : PoSeManager) : Prop :=
  map_Forall (fun _ h => Forall (fun r => is_valid r = Some false) h) (challenge_history m).

Lemma all_failed_push id r m : is_valid r = Some false -> all_failed m -> all_failed (push_record id r m).
Proof.
  intros Hr Hm. destruct m as [cfg act hist]. unfold all_failed, push_record in *. cbn in *.
  apply map_Forall_insert_2; [|done]. apply Forall_app. split; [|by constructor].
  destruct (hist !! id) as [l|] eqn:Hl; [|constructor]. by apply (Hm id l).
Qed.

Lemma all_failed_time_out mid acc : all_failed (fst acc) -> all_failed (fst (time_out mid acc)).
Proof.
  destruct acc as [m l]. unfold time_out. cbn [fst]. intros Hm. destruct (active_challenges m !! mid) as [c|]; [|done].
  cbn [fst]. apply all_failed_push; [done|]. by destruct m.
Qed.

Lemma all_failed_exec op m : all_failed m -> all_failed (pose_exec op m).
Proof using L.
  intros Hm. destruct op as [fuel h bh ml key our|r h ml|h|h age]; cbn [pose_exec].
  - unfold generate_challenges. destruct (_ <? _); [done|].
    destruct (select_challengers _ _ _ _ _ _) as [cs|e| |]; try done.
    destruct (negb _); [done|]. destruct (select_challenge_targets _ _ _ _ _ _) as [ts|e| |]; try done. cbn [fst].
    apply (foldl_inv all_failed); [done|]. intros [cfg act hist] t. done.
  - unfold handle_pose_response. destruct (active_challenges m !! _) as [c|]; [|done].
    destruct (get_masternode _ _) as [e|]; [|by destruct m].
    destruct (mn_verify_pose_response _ _ _ _ _) as [v|e'| |] eqn:Hv; [|by destruct m..]. cbn [fst].
    destruct v; [by apply response_never_true in Hv|]. apply all_failed_push; [done|]. by destruct m.
  - unfold check_challenge_timeouts. apply (foldl_inv (fun acc => all_failed (fst acc))); [done|].
    intros acc x. apply all_failed_time_out.
  - destruct m as [cfg act hist]. unfold all_failed, cleanup_old_history in *. cbn in *. intros id h' Hh.
    apply map_lookup_filter_Some in Hh as [Hh _]. rewrite lookup_fmap in Hh.
    destruct (hist !! id) as [l|] eqn:Hl; [|done]. injection Hh as <-. specialize (Hm id l Hl). rewrite Forall_forall in Hm. apply Forall_forall. intros r Hr. apply list_elem_of_filter in Hr as [_ Hr]. auto.
Qed.

Lemma all_failed_run m ops : all_failed m -> all_failed (pose_run m ops).
Proof using L. intros Hm. apply (foldl_inv all_failed); [done|]. intros a x. apply all_failed_exec. Qed.

Lemma failures_all l : Forall (fun r => is_valid r = Some false) l -> failures_from_end l = len l.
Proof. unfold len. induction 1 as [|r l Hr Hl IH]; [done|]. cbn [failures_from_end length]. rewrite Hr, IH. lia. Qed.

(** Whatever a manager is asked to do, every challenge it has on record
    failed: no masternode ever has a successful response, its consecutive
    failures are all its recorded challenges, and it is due for slashing when
    it has as many records as failures are allowed. *)
Theorem pose_records_only_failures config ops id :
  let stats := get_masternode_pose_stats (pose_run (PoSeManager_new config) ops) id in
  successful_responses stats = 0 /\ failed_responses stats = total_challenges stats /\
  consecutive_failures stats = wrap32 (total_challenges stats) /\
  should_slash_masternode (pose_run (PoSeManager_new config) ops) id =
    (max_consecutive_failures (pose_config (pose_run (PoSeManager_new config) ops)) <=? wrap32 (total_challenges stats)).
Proof using L.
  assert (Hall : all_failed (pose_run (PoSeManager_new config) ops)) by (apply all_failed_run; apply map_Forall_empty).
  unfold should_slash_masternode, get_masternode_pose_stats. cbn.
  set (hist := default [] _). assert (Hh : Forall (fun r => is_valid r = Some false) hist).
  { unfold hist. destruct (challenge_history _ !! id) as [l|] eqn:Hl; [|constructor]. by apply (Hall id l). }
  assert (Hr : failures_from_end (reverse hist) = len hist).
  { rewrite failures_all; [unfold len; by rewrite length_reverse|]. by apply Forall_reverse. }
  rewrite Hr. rewrite (filter_keeps _ _ Hh). rewrite filter_drops; [done|].
  eapply Forall_impl; [exact Hh|]. cbn. intros r Hr1 Hr2. congruence.
Qed.

End ResponseTheorems.

(** * Timeouts *)

Section TimeoutTheorems.
  Context (iter_challenges : gmap MasternodeID MnPoSeChallenge -> list (MasternodeID * MnPoSeChallenge)).
  Context (iter_lists : forall m, iter_challenges m ≡ₚ map_to_list m).

(** The record of a challenge that nobody answered. *)
Definition unanswered (c : MnPoSeChallenge) : PoSeChallengeRecord := mkPoSeChallengeRecord c None None (Some false).

Lemma time_out_loop ids m done :
  NoDup ids -> Forall (fun id => is_Some (active_challenges m !! id)) ids ->
  let r := foldl (fun acc id => time_out id acc) (m, done) ids in
  snd r = done ++ ids /\ pose_config (fst r) = pose_config m /\
  forall id,
    active_challenges (fst r) !! id = (if bool_decide (id ∈ ids) then None else active_challenges m !! id) /\
    challenge_history (fst r) !! id =
      (if bool_decide (id ∈ ids)
       then Some (default [] (challenge_history m !! id) ++ option_list (unanswered <$> active_challenges m !! id))
       else challenge_history m !! id).
Proof.
  intros Hn. revert m done. induction Hn as [|i ids Hi Hn IH]; intros m done Hall; cbn zeta.
  { cbn. by rewrite app_nil_r. }
  apply Forall_cons in Hall as [[c Hc] Hall]. cbn [foldl time_out]. rewrite Hc.
  set (m1 := push_record i _ _). specialize (IH m1 (done ++ [i])).
  assert (Ha : forall j, active_challenges m1 !! j = if decide (i = j) then None else active_challenges m !! j).
  { intros j. unfold m1. destruct m as [cfg act hist]. cbn. destruct (decide (i = j)) as [->|].
    - by rewrite lookup_delete_eq. - by rewrite lookup_delete_ne. }
  assert (Hh : forall j, challenge_history m1 !! j =
    if decide (i = j) then Some (default [] (challenge_history m !! i) ++ [unanswered c]) else challenge_history m !! j).
  { intros j. unfold m1. destruct m as [cfg act hist]. cbn. destruct (decide (i = j)) as [->|].
    - by rewrite lookup_insert_eq. - by rewrite lookup_insert_ne. }
  destruct IH as (Hs & Hcfg & Hl).
  { rewrite Forall_forall in Hall. apply Forall_forall. intros j Hj. rewrite Ha.
    destruct (decide (i = j)) as [->|]; [done|]. auto. }
  split; [by rewrite Hs, <- app_assoc|]. split; [rewrite Hcfg; unfold m1; by destruct m|].
  intros j. destruct (Hl j) as [-> ->]. rewrite Ha, Hh. destruct (decide (i = j)) as [->|Hij].
  - rewrite (bool_decide_eq_false_2 (j ∈ ids)) by done. rewrite bool_decide_eq_true_2 by left. by rewrite Hc.
  - rewrite (bool_decide_ext (j ∈ i :: ids) (j ∈ ids)); [done|]. rewrite elem_of_cons. naive_solver.
Qed.

(** A timeout check ends exactly the challenges whose age, a wrapping
    difference of heights, exceeds the timeout in blocks of 150 seconds; each
    becomes one failure on the record of its target, and everything else is
    untouched. *)
Theorem pose_timeouts_exact h m id :
  let r := check_challenge_timeouts iter_challenges h m in
  (id ∈ snd r <-> exists c, active_challenges m !! id = Some c /\ challenge_expired (pose_config m) h c = true) /\
  NoDup (snd r) /\
  active_challenges (fst r) !! id =
    (c ← active_challenges m !! id; if challenge_expired (pose_config m) h c then None else Some c) /\
  challenge_history (fst r) !! id =
    match active_challenges m !! id with
    | Some c => if challenge_expired (pose_config m) h c
                then Some (default [] (challenge_history m !! id) ++ [unanswered c])
                else challenge_history m !! id
    | None => challenge_history m !! id
    end.
Proof using iter_lists.
  cbn zeta. unfold check_challenge_timeouts.
  set (ids := (filter _ _).*1).
  assert (Hel : forall i, i ∈ ids <-> exists c, active_challenges m !! i = Some c /\ challenge_expired (pose_config m) h c = true).
  { intros i. unfold ids. rewrite list_elem_of_fmap. setoid_rewrite list_elem_of_filter. setoid_rewrite iter_lists. split.
    - intros ([j c] & -> & He & Hc). apply elem_of_map_to_list in Hc. eauto.
    - intros (c & Hc & He). exists (i, c). by rewrite elem_of_map_to_list. }
  assert (Hn : NoDup ids).
  { unfold ids. rewrite iter_lists. apply (sublist_NoDup _ (map_to_list (active_challenges m)).*1); [apply NoDup_fst_map_to_list|].
    apply fmap_sublist, sublist_filter. }
  destruct (time_out_loop ids m [] Hn) as (Hs & _ & Hl).
  { apply Forall_forall. intros i Hi. apply Hel in Hi as (c & Hc & _). eauto. }
  rewrite Hs. cbn [app]. split; [apply Hel|]. split; [done|]. destruct (Hl id) as [-> ->].
  destruct (active_challenges m !! id) as [c|] eqn:Hc; cbn.
  - rewrite (bool_decide_ext (id ∈ ids) (challenge_expired (pose_config m) h c = true)).
    + by destruct (challenge_expired _ _ _).
    + rewrite Hel, Hc. naive_solver.
  - rewrite bool_decide_eq_false_2; [done|]. rewrite Hel, Hc. naive_solver.
Qed.

End TimeoutTheorems.

(** * Old records *)

(** A cleanup keeps, for every masternode, the records no older than
    [max_age] (a wrapping difference of heights), and no empty histories. *)
Theorem cleanup_history_exact h age m id :
  let recent := filter (fun r => record_is_recent h age r = true) (default [] (challenge_history m !! id)) in
  challenge_history (cleanup_old_history h age m) !! id =
    match recent with [] => None | _ => Some recent end /\
  active_challenges (cleanup_old_history h age m) = active_challenges m.
Proof.
  destruct m as [cfg act hist]. cbn. split; [|done].
  rewrite map_lookup_filter, lookup_fmap. destruct (hist !! id) as [l|]; cbn; [|done].
  destruct (filter _ l) as [|r l'] eqn:Hl; cbn.
  - by rewrite option_guard_False by naive_solver.
  - by rewrite option_guard_True by done.
Qed.

(** * Challenges do not name their target *)

Section ChallengeTheorems.
  Context `{P : Primitives, A : AuthKeys}.

(** Two masternodes whose collaterals are outputs of one transaction get
    the same challenge, signature included: neither the nonce nor the signed
    bytes hold the output's index or the target. *)
Theorem same_transaction_same_challenge h bh our key t1 t2 :
  txid (mn_outpoint t1) = txid (mn_outpoint t2) ->
  signed_challenge h bh our key t1 = signed_challenge h bh our key t2.
Proof. intros Ht. unfold signed_challenge, generate_challenge_nonce. by rewrite Ht. Qed.

(** * The coordinator *)

Context `{C : ChaCha8, I : !ChaCha8Index}.
Context (iter : MasternodeList -> list (MasternodeID * MasternodeEntry)).

Lemma issue_challenges_loop h bh our key ts s :
  let s' := foldl (issue_challenge h bh our key) s ts in
  let signed t := signed_challenge h bh our key t in
  pose_outgoing s' = pose_outgoing s ++ ((fun t => MsgPoSeChallenge (signed t)) <$> ts) /\
  challenge_history (pose_manager s') = challenge_history (pose_manager s) /\
  pending_slashes s' = pending_slashes s /\
  our_masternode_id s' = our_masternode_id s /\ pose_keypair s' = pose_keypair s /\
  (forall id, active_challenges (pose_manager s') !! id =
     if bool_decide (id ∈ ts) then Some (signed id) else active_challenges (pose_manager s) !! id).
Proof.
  cbn zeta. revert s. induction ts as [|t ts IH]; intros s.
  { cbn. rewrite app_nil_r. split_and!; try done. }
  cbn [foldl]. destruct (IH (issue_challenge h bh our key s t)) as (H1 & H2 & H3 & H4 & H5 & H6).
  rewrite H1, H2, H3, H4, H5. destruct s as [[cfg act hist] o k cc ml bhh out lm ps]. cbn.
  rewrite <- app_assoc. split_and!; try done. intros id. rewrite H6. cbn.
  destruct (decide (id = t)) as [->|Hne].
  - rewrite lookup_insert_eq, (bool_decide_eq_true_2 (t ∈ t :: ts)) by left. by destruct (bool_decide _).
  - rewrite lookup_insert_ne by done. rewrite (bool_decide_ext (id ∈ t :: ts) (id ∈ ts)); [done|].
    rewrite elem_of_cons. naive_solver.
Qed.

(** At every tenth height the coordinator challenges every selected
    target in its own name, even when it is not among the selected
    challengers, in which case the manager's own generation does nothing. *)
Theorem coordinator_challenges_uninvited fuel h bh our key s cs ts :
  participate_in_challenges (coordinator_config s) = true -> h mod 10 = 0 ->
  select_challengers iter fuel (pose_manager s) h bh (pose_masternode_list s) = Ok cs ->
  select_challenge_targets iter fuel h bh (pose_masternode_list s) cs = Ok ts ->
  our ∉ cs ->
  generate_challenges iter fuel h bh (pose_masternode_list s) key our (pose_manager s) = (pose_manager s, Ok []) /\
  exists s', maybe_generate_challenges iter fuel h bh our key s = (s', Ok tt) /\
    pose_outgoing s' = pose_outgoing s ++ ((fun t => MsgPoSeChallenge (signed_challenge h bh our key t)) <$> ts) /\
    (forall t, t ∈ ts -> active_challenges (pose_manager s') !! t = Some (signed_challenge h bh our key t)).
Proof.
  intros Hp Hh Hc Ht Ho. split.
  - unfold generate_challenges. destruct (_ <? _); [done|]. rewrite Hc. by rewrite bool_decide_eq_false_2.
  - unfold maybe_generate_challenges. rewrite Hp, Hh, Hc. cbn. rewrite Ht. eexists. split; [reflexivity|].
    destruct (issue_challenges_loop h bh our key ts s) as (H1 & _ & _ & _ & _ & H6). split; [done|].
    intros t Hin. rewrite H6. by rewrite bool_decide_eq_true_2.
Qed.

(** The calls that change the coordinator. *)
Inductive coord_op : Type :=
| CoordBlock (fuel : nat) (now height : Z) (block_hash : Hash)
| CoordEvidence (id : MasternodeID)
| CoordResponse (r : MnPoSeResponse)
| CoordMaintenance (now : Z)
| CoordTakeSlashes
| CoordTakeMessages.

Definition coord_exec (op : coord_op) (s : PoSeCoordinator) : PoSeCoordinator :=
  match op with
  | CoordBlock fuel now h bh => fst (pose_update_block_height iter fuel now h bh s)
  | CoordEvidence id => broadcast_slashing_evidence id s
  | CoordResponse r => broadcast_pose_response r s
  | CoordMaintenance now => pose_periodic_maintenance now s
  | CoordTakeSlashes => fst (get_pending_slashes s)
  | CoordTakeMessages => fst (pose_get_outgoing_messages s)
  end.

Definition coord_run (s : PoSeCoordinator) (ops : list coord_op) : PoSeCoordinator :=
  foldl (fun s op => coord_exec op s) s ops.

Definition coord_inv (s : PoSeCoordinator) : Prop :=
  challenge_history (pose_manager s) = ∅ /\ NoDup (pending_slashes s) /\
  (forall id c, active_challenges (pose_manager s) !! id = Some c ->
    exists h bh our key, our_masternode_id s = Some our /\ pose_keypair s = Some key /\
      c = signed_challenge h bh our key id).

Lemma coord_inv_issue h bh our key ts s :
  our_masternode_id s = Some our -> pose_keypair s = Some key -> coord_inv s ->
  coord_inv (foldl (issue_challenge h bh our key) s ts).
Proof.
  intros Ho Hk (Hh & Hn & Ha). destruct (issue_challenges_loop h bh our key ts s) as (_ & H2 & H3 & H4 & H5 & H6).
  split; [by rewrite H2|]. split; [by rewrite H3|]. intros id c. rewrite H6, H4, H5. case_bool_decide.
  - intros [= <-]. rewrite Ho, Hk. eauto 8.
  - apply Ha.
Qed.

Lemma coord_inv_exec op s : coord_inv s -> coord_inv (coord_exec op s).
Proof.
  intros Hs. destruct op as [fuel now h bh|id|r|now| |]; cbn [coord_exec].
  - unfold pose_update_block_height.
    assert (Hs1 : coord_inv (s <| pose_block_height := h |>)) by (by destruct s).
    revert Hs1. generalize (s <| pose_block_height := h |>). clear s Hs. intros s Hs.
    set (p := (if participate_in_challenges _ then _ else _) : PoSeCoordinator * outcome string unit). assert (Hp : coord_inv (fst p)).
    { unfold p. destruct (participate_in_challenges _); [|done].
      destruct (our_masternode_id s) as [our|] eqn:Ho; [|done]. destruct (pose_keypair s) as [key|] eqn:Hk; [|done].
      unfold maybe_generate_challenges. destruct (negb _); [done|]. destruct (negb _); [done|].
      destruct (_ ≫= _) as [ts|e| |]; [|done..]. by apply coord_inv_issue. }
    destruct p as [s' [a|e| |]]; cbn [fst] in *; try done;
      unfold pose_periodic_maintenance; destruct (_ <? 300); try done; by destruct s'.
  - unfold broadcast_slashing_evidence. case_bool_decide as Hi; [done|].
    destruct s as [m o k cc ml bhh out lm ps]. destruct Hs as (Hh & Hn & Ha). cbn in *. split; [done|]. split; [|done].
    cbn. apply NoDup_app. split; [done|]. split; [|apply NoDup_singleton]. intros x Hx Hx'.
    apply list_elem_of_singleton in Hx' as ->. done.
  - by destruct s.
  - unfold pose_periodic_maintenance. destruct (_ <? 300); [done|]. by destruct s.
  - destruct s. destruct Hs as (Hh & Hn & Ha). split; [done|]. split; [constructor|done].
  - by destruct s.
Qed.

(** Whatever happens to a coordinator, its manager never records the
    outcome of a challenge, so that nobody is ever due for slashing when at
    least one failure is allowed; the slashings it was told of are listed once
    each, and every open challenge is one it signed itself. *)
Theorem coordinator_never_measures now config cconfig ml our key ops id :
  let s := coord_run (PoSeCoordinator_new now config cconfig ml our key) ops in
  coord_inv s /\ get_masternode_stats s id =
    mkPoSeStats 0 0 0 (match active_challenges (pose_manager s) !! id with Some _ => 1 | None => 0 end) 0 (f32_of_Z 1).
Proof.
  cbn zeta. assert (Hi : coord_inv (coord_run (PoSeCoordinator_new now config cconfig ml our key) ops)).
  { apply (foldl_inv coord_inv); [|intros a x; apply coord_inv_exec].
    split; [done|]. split; [constructor|]. done. }
  split; [done|]. destruct Hi as (Hh & _). unfold get_masternode_stats, get_masternode_pose_stats. by rewrite Hh.
Qed.

End ChallengeTheorems.

(** * Samples *)

(** A generator that draws every position twice in a row. *)
Definition counting_chacha : ChaCha8 :=
  {| Rng := nat; rng_from_seed _ := 0%nat; gen_f32_below rng _ := (f32_of_Z 0, S rng) |}.

Definition counting_index : @ChaCha8Index counting_chacha :=
  @Build_ChaCha8Index counting_chacha (fun (rng : nat) n => (((rng / 2) mod n)%nat, S rng)).

Lemma counting_laws : @ChaCha8IndexLaws counting_chacha counting_index.
Proof. split. intros rng n Hn. cbn [gen_index_below counting_index fst]. apply Nat.mod_upper_bound. lia. Qed.

Definition sample_pose_codec : PoseCodec := {| bincode_pose_response _ b _ := Some b |}.

Lemma sample_pose_laws : @PoseLaws sample_primitives sample_auth.
Proof.
  split.
  - intros b sig. cbn [signature_from_bytes sample_primitives]. destruct (Z.eqb_spec (len b) 64); [done|]. by intros [=].
  - intros k m. unfold len. cbn [keypair_sign sample_auth]. unfold sample_hash. by rewrite length_app, !length_to_le_bytes.
Qed.

Definition pose_mn (k : Z) : MasternodeID := mkMasternodeID (mkOutPoint (replicate 32 k) 0).

Definition pose_entry (k : Z) : MasternodeEntry :=
  mkMasternodeEntry (mkMasternodeIdentity (mkOutPoint (replicate 32 k) 0) (to_le_bytes 32 k) ""%string
    (to_le_bytes 32 k) None []) Active 0 0 None 0 (f32_of_Z 1) [] 0.

Definition pose_list : MasternodeList :=
  list_to_map ((fun k => (pose_mn k, pose_entry k)) <$> [1; 2; 3; 4; 5]).

Definition pose_sample_manager : PoSeManager := PoSeManager_new (mkPoSeConfig 60 2 60 3 3 60).

Definition pose_block : Hash := replicate 32 8.

Definition pose_challengers : list MasternodeID :=
  take 2 (@active_ids map_to_list pose_list).

Definition pose_targets : list MasternodeID :=
  take 1 (eligible_targets map_to_list pose_list pose_challengers).

Lemma pose_roles_witness :
  length pose_challengers = 2%nat /\ NoDup (pose_challengers ++ pose_targets) /\
  length pose_targets = num_targets (length (active_ids map_to_list pose_list) - length pose_challengers).
Proof.
  assert (H1 : @select_challengers sample_primitives counting_chacha counting_index map_to_list 5 pose_sample_manager 120
    pose_block pose_list = Ok pose_challengers) by (vm_compute; reflexivity).
  assert (H2 : @select_challenge_targets sample_primitives counting_chacha counting_index map_to_list 5 120
    pose_block pose_list pose_challengers = Ok pose_targets) by (vm_compute; reflexivity).
  destruct (@pose_roles sample_primitives counting_chacha counting_index counting_laws map_to_list
    (fun m => Permutation_refl _) 5 pose_sample_manager 120 pose_block pose_list _ _ H1 H2) as (H3 & H4 & _ & H5).
  split; [exact H3|]. split; [exact H4|exact H5].
Defined.

Lemma select_challengers_draws_witness :
  @select_challengers sample_primitives counting_chacha counting_index map_to_list 2 pose_sample_manager 120
    pose_block pose_list = OutOfFuel.
Proof.
  etrans; [apply (@select_challengers_draws sample_primitives counting_chacha counting_index counting_laws map_to_list
    2 pose_sample_manager 120 pose_block pose_list); split; vm_compute; congruence|].
  vm_compute. reflexivity.
Defined.

Definition sample_pose_challenge : MnPoSeChallenge :=
  @signed_challenge sample_primitives sample_auth 120 pose_block (pose_mn 1) 7 (pose_mn 2).

Definition challenged_manager : PoSeManager := store_challenge (pose_mn 2) sample_pose_challenge pose_sample_manager.

Lemma honest_response_panics_witness :
  snd (@handle_pose_response sample_primitives sample_pose_codec
    (@generate_pose_response sample_auth sample_pose_challenge (pose_mn 2) 2) 121 pose_list challenged_manager) = Panic.
Proof.
  rewrite (@honest_response_panics sample_primitives sample_auth sample_pose_codec sample_pose_laws challenged_manager
    sample_pose_challenge (pose_mn 2) 2 121 pose_list (pose_entry 2)).
  - reflexivity.
  - by apply lookup_insert_eq.
  - vm_compute. reflexivity.
  - split; [reflexivity|]. split; [by eexists|by eexists].
Defined.

Definition forged_response : MnPoSeResponse := mkMnPoSeResponse (-1) [] (pose_mn 2).

Lemma bad_response_blames_challenger_witness :
  exists m', @handle_pose_response sample_primitives sample_pose_codec forged_response 121 pose_list challenged_manager
      = (m', Ok false) /\
    failed_responses (get_masternode_pose_stats m' (pose_mn 1)) = 1.
Proof.
  destruct (@bad_response_blames_challenger sample_primitives sample_auth sample_pose_codec sample_pose_laws
    challenged_manager sample_pose_challenge forged_response 121 pose_list (pose_entry 2)) as (m' & H1 & _ & H2 & _).
  - by apply lookup_insert_eq.
  - vm_compute. reflexivity.
  - split; [reflexivity|]. split; [by eexists|by eexists].
  - assert (Hz : (response_nonce forged_response =? challenge_nonce sample_pose_challenge) = false) by (vm_compute; reflexivity).
    by apply Z.eqb_neq.
  - intros Heq. assert (Hd : bool_decide (challenger_masternode_id sample_pose_challenge = target_masternode_id forged_response) = false)
      by (vm_compute; reflexivity).
    apply bool_decide_eq_false in Hd. by apply Hd.
  - exists m'. split; [exact H1|]. exact H2.
Defined.

Lemma pose_records_only_failures_witness :
  successful_responses (get_masternode_pose_stats
    (@pose_run sample_primitives sample_auth sample_pose_codec counting_chacha counting_index map_to_list map_to_list
       (PoSeManager_new PoSeConfig_default) [PoseTimeouts 5]) (pose_mn 1)) = 0.
Proof.
  exact (proj1 (@pose_records_only_failures sample_primitives sample_auth sample_pose_codec sample_pose_laws
    counting_chacha counting_index map_to_list map_to_list PoSeConfig_default [PoseTimeouts 5] (pose_mn 1))).
Defined.

Lemma pose_timeouts_exact_witness :
  pose_mn 2 ∈ snd (check_challenge_timeouts map_to_list 121 challenged_manager).
Proof.
  apply (@pose_timeouts_exact map_to_list (fun m => Permutation_refl _) 121 challenged_manager (pose_mn 2)).
  exists sample_pose_challenge. split; [by apply lookup_insert_eq|]. vm_compute. reflexivity.
Defined.

Lemma same_transaction_same_challenge_witness :
  @signed_challenge sample_primitives sample_auth 120 pose_block (pose_mn 1) 7 (mkMasternodeID (mkOutPoint (replicate 32 2) 0)) =
  @signed_challenge sample_primitives sample_auth 120 pose_block (pose_mn 1) 7 (mkMasternodeID (mkOutPoint (replicate 32 2) 1)).
Proof. apply same_transaction_same_challenge. reflexivity. Defined.

Definition sample_coordinator : @PoSeCoordinator sample_auth :=
  mkPoSeCoordinator (A := sample_auth) pose_sample_manager (Some (pose_mn 9)) (Some 9) PoSeCoordinatorConfig_default pose_list 0 [] 0 [].

Lemma coordinator_challenges_uninvited_witness :
  exists s', @maybe_generate_challenges sample_primitives sample_auth counting_chacha counting_index map_to_list 5 120
      pose_block (pose_mn 9) 9 sample_coordinator = (s', Ok tt) /\
    len (pose_outgoing s') = 1.
Proof.
  destruct (@coordinator_challenges_uninvited sample_primitives sample_auth counting_chacha counting_index map_to_list 5
    120 pose_block (pose_mn 9) 9 sample_coordinator pose_challengers pose_targets) as [_ (s' & H1 & H2 & _)].
  - reflexivity.
  - reflexivity.
  - vm_compute. reflexivity.
  - vm_compute. reflexivity.
  - assert (Hd : bool_decide (pose_mn 9 ∈ pose_challengers) = false) by (vm_compute; reflexivity).
    by apply bool_decide_eq_false in Hd.
  - exists s'. split; [exact H1|]. rewrite H2. reflexivity.
Defined.
