(* ===== verification/MasternodeTx.v ===== *)
(** The transactions the masternode crate builds: slashing
    (src/rusty-masternode/src/slashing.rs), registration and deregistration
    (src/rusty-masternode/src/lib.rs), and their acceptance by the consensus
    crate. *)

From Stdlib Require Import ZArith Lia List SpecFloat.
From stdpp Require Import base option list numbers strings gmap.
From coqutil Require Import Datatypes.RecordSetters.
From S2P Require Import Prelude Types Errors Transaction ScriptEngine SamplePrimitives UtxoSet F64.
From S2P Require Import Masternodes ChainState Blockchain TicketPool ConsensusStore ConsensusValidation Params.

#[local] Open Scope Z_scope.

(** [bincode::serialize] of the proofs and of an identity. *)
Class MnCodec : Type := {
  bincode_non_participation : MasternodeNonParticipationProof -> option bytes;
  bincode_malicious : MasternodeMaliciousProof -> option bytes;
  bincode_identity : MasternodeIdentity -> option bytes;
}.

Definition SLASHING_COOLDOWN_BLOCKS : Z := 10080.

Inductive MnSlashingError : Type :=
| SlashInvalidProof (msg : string)
| SlashInsufficientCollateral (msg : string).

Abbreviation mslashR := (outcome MnSlashingError).

(** The crate has an enum of reasons of its own, with one more constructor. *)
Module MnSlash.

Inductive LocalSlashingReason : Type :=
| MasternodeNonResponse
| DoubleSigning
| InvalidBlockProposal
| InvalidTransaction
| GovernanceViolation
| DoubleSpend.

#[global] Instance LocalSlashingReason_eq_dec : EqDecision LocalSlashingReason.
Proof. solve_decision. Defined.

(** The reason written in the transaction. *)
Definition shared_reason (r : LocalSlashingReason) : Types.SlashingReason :=
  match r with
  | MasternodeNonResponse => Types.MasternodeNonResponse
  | DoubleSigning => Types.DoubleSigning
  | InvalidBlockProposal => Types.InvalidBlockProposal
  | InvalidTransaction => Types.InvalidTransaction
  | GovernanceViolation => Types.GovernanceViolation
  | DoubleSpend => Types.DoubleSigning
  end.

Definition slashed_amount (r : LocalSlashingReason) (collateral_value : Z) : Z :=
  f64_to_u64 (f64_mul (f64_of_Z collateral_value)
    match r with
    | MasternodeNonResponse => NON_PARTICIPATION_SLASH_PERCENTAGE
    | _ => MALICIOUS_BEHAVIOR_SLASH_PERCENTAGE
    end).

End MnSlash.

(** * Slashing *)

Definition mn_create_burn_output (amount : Z) : TxOutput := mkTxOutput amount burn_script None.

Definition create_slashing_transaction (masternode_id : MasternodeID) (reason : MnSlash.LocalSlashingReason)
    (proof_data : bytes) (collateral_input : TxInput) (collateral_value : Z) (script_pubkey : bytes)
    (block_height : Z) : mslashR MasternodeSlash :=
  if MAX_SLASHING_PROOF_SIZE <? len proof_data then Err (SlashInvalidProof "Proof data too large")
  else
    let slashed := MnSlash.slashed_amount reason collateral_value in
    let remaining := u64_saturating_sub collateral_value slashed in
    let outputs := [mn_create_burn_output slashed] ++
      (if (0 <? remaining) && bool_decide (reason = MnSlash.MasternodeNonResponse)
       then [mkTxOutput remaining script_pubkey None] else []) in
    Ok (mkMasternodeSlash 1 [collateral_input] outputs masternode_id (MnSlash.shared_reason reason) proof_data
          (wrap32 (wrap64 (block_height + SLASHING_COOLDOWN_BLOCKS))) 0 []).

Section Wrappers.
  Context `{MnCodec}.

Definition create_non_participation_slashing_transaction (masternode_id : MasternodeID)
    (proof : MasternodeNonParticipationProof) (collateral_input : TxInput) (collateral_value : Z)
    (script_pubkey : bytes) (block_height : Z) : mslashR MasternodeSlash :=
  proof_data ← ok_or (bincode_non_participation proof) (SlashInvalidProof "Failed to serialize proof");
  create_slashing_transaction masternode_id MnSlash.MasternodeNonResponse proof_data collateral_input
    collateral_value script_pubkey block_height.

Definition create_malicious_behavior_slashing_transaction (masternode_id : MasternodeID)
    (proof : MasternodeMaliciousProof) (collateral_input : TxInput) (collateral_value : Z)
    (script_pubkey : bytes) (block_height : Z) : mslashR MasternodeSlash :=
  proof_data ← ok_or (bincode_malicious proof) (SlashInvalidProof "Failed to serialize proof");
  create_slashing_transaction masternode_id MnSlash.DoubleSigning proof_data collateral_input
    collateral_value script_pubkey block_height.

End Wrappers.

Definition validate_slashing_transaction (slash_tx : MasternodeSlash) (current_height : Z) : mslashR unit :=
  if MAX_SLASHING_PROOF_SIZE <? len (slash_proof slash_tx) then Err (SlashInvalidProof "Proof data too large")
  else if slash_lock_time slash_tx <=? current_height then Err (SlashInvalidProof "Invalid lock time")
  else if negb (len (slash_inputs slash_tx) =? 1)
  then Err (SlashInvalidProof "Slashing transaction must have exactly one input")
  else
    match slash_outputs slash_tx with
    | [] => Err (SlashInvalidProof "Slashing transaction must have at least one output")
    | first_output :: _ =>
        if bool_decide (script_pubkey first_output = burn_script) then Ok tt
        else Err (SlashInvalidProof "First output must be a burn output")
    end.

(** * Registration *)

Definition mn_register_masternode `{Primitives, MnCodec} (registration : MasternodeRegistration) (u : UtxoSet) :
    outcome string Transaction :=
  let id := registration_identity registration in
  collateral_utxo ← ok_or (get_utxo u (collateral_outpoint id)) "Collateral UTXO not found"%string;
  if value (output collateral_utxo) <? MASTERNODE_COLLATERAL_AMOUNT
  then Err "Collateral amount is insufficient"%string
  else
    identity_bytes ← ok_or (bincode_identity id) "Failed to serialize masternode identity"%string;
    if negb (len (collateral_ownership_public_key id) =? 32) then Err "Invalid public key length"%string
    else
      pubkey ← ok_or (public_key_from_bytes (collateral_ownership_public_key id)) "Invalid public key bytes"%string;
      if negb (len (registration_signature registration) =? 64) then Err "Invalid signature length"%string
      else
        sig ← ok_or (signature_from_bytes (registration_signature registration)) "Invalid signature bytes"%string;
        if negb (ed25519_verify pubkey identity_bytes sig) then Err "Invalid collateral ownership signature"%string
        else
          Ok (Standard 1 [TxInput_from_outpoint (collateral_outpoint id) [] 0 []]
                [mkTxOutput MASTERNODE_COLLATERAL_AMOUNT (script_pubkey (output collateral_utxo)) None] 0 0 []).

Definition mn_deregister_masternode (masternode_id : MasternodeID) : outcome string Transaction :=
  let fee := 1000 in
  let return_amount := u64_saturating_sub MASTERNODE_COLLATERAL_AMOUNT fee in
  Ok (Standard 1 [TxInput_from_outpoint (mn_outpoint masternode_id) [] 0xffffffff []]
        (if 0 <? return_amount
         then [mkTxOutput return_amount [] (Some (string_bytes "Masternode deregistration"))] else [])
        0 fee []).

(** * Percentages of a collateral *)

(** The product of an integer and a positive double, as an exact fraction:
    scaled by [2 ^ (s + k)] it is the exact product to within [2 ^ 53]. *)
Lemma f64_mul_scaled n mc s :
  0 < n < 2 ^ 53 -> 2 ^ 52 <= Zpos mc < 2 ^ 53 -> 52 <= s <= 100 ->
  exists r E k, f64_mul (f64_of_Z n) (S754_finite false mc (- s)) = S754_finite false r E /\
    0 <= k <= 52 /\ 2 ^ 52 <= n * 2 ^ k < 2 ^ 53 /\ - (s + k) <= E <= 54 - s + 52 /\
    n * 2 ^ k * Zpos mc - 2 ^ 53 < Zpos r * 2 ^ (E + (s + k)) <= n * 2 ^ k * Zpos mc + 2 ^ 53.
Proof.
  intros Hn Hc Hs. destruct (f64_of_Z_exact n) as (m & -> & Hm & Hmb); [lia|].
  assert (Hl : 0 <= Z.log2 n < 53) by (split; [apply Z.log2_nonneg|apply Z.log2_lt_pow2; lia]).
  unfold f64_mul, SFmul. cbn [xorb].
  assert (Hd : exists d, 2 ^ (d - 1) <= Zpos (m * mc) < 2 ^ d /\ 105 <= d <= 106).
  { rewrite Pos2Z.inj_mul. destruct (Z_lt_le_dec (Zpos m * Zpos mc) (2 ^ 105)).
    - exists 105. change (2 ^ (105 - 1)) with (2 ^ 52 * 2 ^ 52). split; [nia|lia].
    - exists 106. change (106 - 1) with 105. change (2 ^ 106) with (2 ^ 53 * 2 ^ 53). split; [nia|lia]. }
  destruct Hd as (d & Hd & Hd106).
  destruct (round_aux_bound (m * mc) (Z.log2 n - 52 + - s) d loc_Exact) as (r & E & -> & [HE _] & Hr);
    [done|lia|lia|].
  exists r, E, (52 - Z.log2 n). rewrite Pos2Z.inj_mul, Hm in Hr. rewrite Hm in Hmb.
  replace (E - (Z.log2 n - 52 + - s)) with (E + (s + (52 - Z.log2 n))) in Hr by lia.
  assert (2 ^ (d - 53) <= 2 ^ 53) by (apply Z.pow_le_mono_r; lia).
  split_and!; done || lia.
Qed.

(** Five percent, rounded down, give or take one unit. *)
Lemma five_percent n :
  0 <= n < 2 ^ 53 ->
  let x := f64_to_u64 (f64_mul (f64_of_Z n) NON_PARTICIPATION_SLASH_PERCENTAGE) in
  0 <= x /\ n - 21 <= 20 * x <= n + 1.
Proof.
  intros Hn x. destruct (Z.eq_dec n 0) as [->|Hnz]; [change x with 0; lia|].
  change NON_PARTICIPATION_SLASH_PERCENTAGE with (S754_finite false 7205759403792794 (Z.opp 57)) in x.
  destruct (f64_mul_scaled n 7205759403792794 57) as (r & E & k & He & Hk & Hnk & HE & Hlo & Hhi); [lia..|].
  unfold x. rewrite He. unfold f64_to_u64, f64_trunc.
  assert (HK : 1 <= 2 ^ k) by (pose proof (Z.pow_pos_nonneg 2 k); lia).
  assert (Hs : 2 ^ (57 + k) = 2 ^ 57 * 2 ^ k) by (apply Z.pow_add_r; lia).
  enough (Hfin : forall a, 0 <= a -> Zpos r * 2 ^ (E + (57 + k)) - 2 ^ (57 + k) < a * 2 ^ (57 + k) <=
    Zpos r * 2 ^ (E + (57 + k)) -> 0 <= Z.max 0 (Z.min u64_max a) /\
    n - 21 <= 20 * Z.max 0 (Z.min u64_max a) <= n + 1).
  { destruct (Z.leb_spec 0 E) as [H0|H0]; apply Hfin.
    - apply Z.mul_nonneg_nonneg; [lia|]. apply Z.pow_nonneg. lia.
    - replace (Zpos r * 2 ^ E * 2 ^ (57 + k)) with (Zpos r * 2 ^ (E + (57 + k)))
        by (rewrite (Z.pow_add_r 2 E) by lia; ring). lia.
    - apply Z.div_pos; [lia|]. apply Z.pow_pos_nonneg; lia.
    - assert (HQ : 0 < 2 ^ (- E)) by (apply Z.pow_pos_nonneg; lia).
      assert (HX : 0 < 2 ^ (E + (57 + k))) by (apply Z.pow_pos_nonneg; lia).
      assert (HQX : 2 ^ (57 + k) = 2 ^ (- E) * 2 ^ (E + (57 + k)))
        by (rewrite <- Z.pow_add_r by lia; f_equal; lia).
      pose proof (Z.div_mod (Zpos r) (2 ^ (- E)) ltac:(lia)) as Hdm.
      pose proof (Z.mod_pos_bound (Zpos r) (2 ^ (- E)) HQ) as Hmb.
      rewrite HQX. set (Q := 2 ^ (- E)) in *. set (X := 2 ^ (E + (57 + k))) in *. set (a := Zpos r / Q) in *.
      split; nia. }
  intros a Ha Hb. set (K := 2 ^ k) in *. rewrite Hs in Hb. set (T := Zpos r * 2 ^ (E + (57 + k))) in *.
  assert (Hlo' : n - 22 < 20 * a) by nia. assert (Hhi' : 20 * a < n + 2) by nia.
  unfold u64_max. lia.
Qed.

Lemma shr_exact n p :
  Nat.iter n shr_1 (Build_shr_record (Zpos p * 2 ^ Z.of_nat n) false false) = Build_shr_record (Zpos p) false false.
Proof.
  induction n as [|n IH]; [cbn; by rewrite Z.mul_1_r|].
  rewrite Nat.iter_succ_r. etrans; [|exact IH]. f_equal.
  rewrite Nat2Z.inj_succ, Z.pow_succ_r by lia.
  replace (Zpos p * (2 * 2 ^ Z.of_nat n)) with (2 * (Zpos p * 2 ^ Z.of_nat n)) by ring.
  assert (Hp : 0 < Zpos p * 2 ^ Z.of_nat n) by (apply Z.mul_pos_pos; [lia|apply Z.pow_pos_nonneg; lia]).
  by destruct (Zpos p * 2 ^ Z.of_nat n).
Qed.

(** Multiplying by one changes nothing. *)
Lemma f64_mul_one m e :
  2 ^ 52 <= Zpos m < 2 ^ 53 -> -900 <= e <= 900 ->
  f64_mul (S754_finite false m e) (f64_of_Z 1) = S754_finite false m e.
Proof.
  intros Hm He. change (f64_of_Z 1) with (S754_finite false 4503599627370496 (-52)).
  unfold f64_mul, SFmul. cbn [xorb]. set (p := (m * 4503599627370496)%positive).
  assert (Hp : Zpos p = Zpos m * 2 ^ Z.of_nat 52) by (unfold p; by rewrite Pos2Z.inj_mul).
  unfold binary_round_aux, shr_fexp. cbn [Zdigits2].
  rewrite (digits_unique p 105) by (try (rewrite Hp; change (105 - 1) with 104); lia).
  rewrite fexp_normal by lia. replace (105 + (e + -52) - 53 - (e + -52)) with 52 by lia.
  change (shr (shr_record_of_loc (Zpos p) loc_Exact) (e + -52) 52) with
    (SpecFloat.iter_pos shr_1 52 (Build_shr_record (Zpos p) false false), e + -52 + 52).
  rewrite iter_pos_add, Hp. change (Pos.to_nat 52) with 52%nat. rewrite shr_exact.
  cbn [loc_of_shr_record round_nearest_even shr_m Zdigits2].
  rewrite (digits_unique m 53) by (change (53 - 1) with 52; lia). rewrite fexp_normal by lia.
  replace (53 + (e + -52 + 52) - 53 - (e + -52 + 52)) with 0 by lia.
  cbn [shr shr_record_of_loc shr_m]. destruct (Z.leb_spec (e + -52 + 52) (1024 - 53)); [|lia].
  f_equal. lia.
Qed.

Lemma whole_collateral n :
  0 <= n < 2 ^ 53 -> f64_to_u64 (f64_mul (f64_of_Z n) MALICIOUS_BEHAVIOR_SLASH_PERCENTAGE) = n.
Proof.
  intros Hn. destruct (Z.eq_dec n 0) as [->|Hnz]; [done|]. unfold MALICIOUS_BEHAVIOR_SLASH_PERCENTAGE.
  destruct (f64_of_Z_exact n) as (m & -> & Hm & Hmb); [lia|].
  assert (Hl : 0 <= Z.log2 n < 53) by (split; [apply Z.log2_nonneg|apply Z.log2_lt_pow2; lia]).
  rewrite f64_mul_one by (done || lia). unfold f64_to_u64, f64_trunc. rewrite Hm.
  destruct (Z.leb_spec 0 (Z.log2 n - 52)) as [H0|H0].
  - replace (52 - Z.log2 n) with 0 by lia. replace (Z.log2 n - 52) with 0 by lia. unfold u64_max. lia.
  - replace (- (Z.log2 n - 52)) with (52 - Z.log2 n) by lia. rewrite Z.div_mul by (apply Z.pow_nonzero; lia).
    unfold u64_max. lia.
Qed.

(** * Slashing transactions *)

(** C38. A slashing transaction made for a collateral of less than 2^53 units moves
    all of it: its only input is the collateral, its outputs add up to the
    collateral, the first burns five percent for a missing response (twenty
    times the burned amount lies between the collateral less 21 and the
    collateral plus one) and everything for any other reason, and what a
    missing response leaves goes back to the collateral's script.  The proof
    is of at most the allowed size. *)
Theorem slash_conserves_collateral id reason proof input v spk h s :
  0 <= v < 2 ^ 53 ->
  create_slashing_transaction id reason proof input v spk h = Ok s ->
  len proof <= MAX_SLASHING_PROOF_SIZE /\ slash_inputs s = [input] /\ slash_masternode_id s = id /\
  foldr Z.add 0 (value <$> slash_outputs s) = v /\
  exists burned rest, slash_outputs s = mn_create_burn_output burned :: rest /\
    (if decide (reason = MnSlash.MasternodeNonResponse)
     then v - 21 <= 20 * burned <= v + 1 /\ Forall (fun o => script_pubkey o = spk) rest
     else burned = v /\ rest = []).
Proof.
  intros Hv. unfold create_slashing_transaction. destruct (Z.ltb_spec MAX_SLASHING_PROOF_SIZE (len proof)) as [|Hp]; [done|].
  intros [= <-]. cbn [slash_inputs slash_masternode_id slash_outputs]. split_and!; [lia|done|done| |].
  - destruct (decide (reason = MnSlash.MasternodeNonResponse)) as [->|Hr].
    + pose proof (five_percent v Hv) as Hx. cbn zeta in Hx. unfold u64_saturating_sub, MnSlash.slashed_amount.
      set (x := f64_to_u64 _) in *. rewrite bool_decide_eq_true_2, andb_true_r by done.
      destruct (Z.ltb_spec 0 (Z.max 0 (v - x))); cbn [fmap list_fmap foldr app value mn_create_burn_output]; lia.
    + rewrite (bool_decide_eq_false_2 _ Hr), andb_false_r. cbn [fmap list_fmap foldr app value mn_create_burn_output].
      replace (MnSlash.slashed_amount reason v) with v; [lia|]. symmetry. unfold MnSlash.slashed_amount.
      destruct reason; [done|..]; by apply whole_collateral.
  - eexists _, _. split; [reflexivity|]. destruct (decide (reason = MnSlash.MasternodeNonResponse)) as [->|Hr].
    + split; [apply (five_percent v Hv)|]. destruct (_ && _); repeat constructor.
    + split; [|by rewrite (bool_decide_eq_false_2 _ Hr), andb_false_r].
      unfold MnSlash.slashed_amount. destruct reason; [done|..]; by apply whole_collateral.
Qed.

Lemma created_fields id reason proof input v spk h s :
  create_slashing_transaction id reason proof input v spk h = Ok s ->
  len proof <= MAX_SLASHING_PROOF_SIZE /\ slash_proof s = proof /\ slash_inputs s = [input] /\
  slash_masternode_id s = id /\ slash_reason s = MnSlash.shared_reason reason /\
  slash_lock_time s = wrap32 (wrap64 (h + SLASHING_COOLDOWN_BLOCKS)) /\
  exists rest, slash_outputs s = mn_create_burn_output (MnSlash.slashed_amount reason v) :: rest.
Proof.
  unfold create_slashing_transaction. destruct (Z.ltb_spec MAX_SLASHING_PROOF_SIZE (len proof)) as [|Hp]; [done|].
  intros [= <-]. cbn. split_and!; try done. eexists. reflexivity.
Qed.

(** A created slashing transaction is valid exactly until its lock time,
    the height after a week of blocks as a 32-bit number. *)
Theorem created_slash_valid_until id reason proof input v spk h s now :
  create_slashing_transaction id reason proof input v spk h = Ok s ->
  validate_slashing_transaction s now = Ok tt <-> now < wrap32 (wrap64 (h + SLASHING_COOLDOWN_BLOCKS)).
Proof.
  intros Hs. apply created_fields in Hs as (Hp & Hpr & Hin & _ & _ & Hl & rest & Ho).
  unfold validate_slashing_transaction. rewrite Hpr, Hin, Hl, Ho.
  rewrite (proj2 (Z.ltb_ge MAX_SLASHING_PROOF_SIZE (len proof)) Hp).
  destruct (Z.leb_spec (wrap32 (wrap64 (h + SLASHING_COOLDOWN_BLOCKS))) now); split; done || lia.
Qed.

Section Acceptance.
  Context {DB : Type}.

(** The slashing check of the consensus crate, one of the checks it makes,
    passes on the slashing transaction a masternode creates for a listed
    masternode from its collateral outpoint and value, when the masternode
    missed enough challenges or the proof of a malicious act is not empty.  The
    checks of fees and lock times, which a transaction without a fee and with a
    lock time ahead cannot pass, are not part of it. *)
Theorem created_slash_accepted (ctx : ValidationContext DB) id reason proof input spk h s mn :
  get_masternode (ctx_masternode_list ctx) id = Some mn ->
  previous_output input = collateral_outpoint (identity mn) ->
  create_slashing_transaction id reason proof input
    (if 0 <? collateral_amount mn then collateral_amount mn else PROTOCOL_COLLATERAL_AMOUNT) spk h = Ok s ->
  (if decide (reason = MnSlash.MasternodeNonResponse) then MAX_POSE_FAILURES <= pose_failure_count mn else proof <> []) ->
  check_slash ctx s = Ok tt.
Proof.
  intros Hm Hi Hs Hr. apply created_fields in Hs as (Hp & Hpr & Hin & Hid & Hre & _ & rest & Ho).
  unfold check_slash. rewrite Hpr, Hin, Hid, Hre, Ho, Hm. rewrite (proj2 (Z.leb_le _ _) Hp). cbn [slash_rule].
  assert (Hpos : (len (mn_create_burn_output (MnSlash.slashed_amount reason
    (if 0 <? collateral_amount mn then collateral_amount mn else PROTOCOL_COLLATERAL_AMOUNT)) :: rest) =? 0) = false)
    by (apply Z.eqb_neq; unfold len; cbn [length]; lia).
  rewrite Hpos. cbn -[Z.leb Z.abs expected_slash MnSlash.slashed_amount MAX_POSE_FAILURES PROTOCOL_COLLATERAL_AMOUNT].
  rewrite bool_decide_eq_true_2 by done.
  assert (He : MnSlash.slashed_amount reason (if 0 <? collateral_amount mn then collateral_amount mn else PROTOCOL_COLLATERAL_AMOUNT)
    = expected_slash mn (MnSlash.shared_reason reason)) by (by destruct reason).
  rewrite He, Z.sub_diag. cbn [Z.abs slash_rule]. 
  destruct (decide (reason = MnSlash.MasternodeNonResponse)) as [->|Hn].
  - cbn [MnSlash.shared_reason]. by rewrite (proj2 (Z.leb_le _ _) Hr).
  - assert (Hpf : (len proof =? 0) = false) by (apply Z.eqb_neq; unfold len; destruct proof; [done|]; cbn [length]; lia).
    rewrite Hpf. by destruct reason.
Qed.

End Acceptance.

(** * Registration and deregistration *)

Section RegistrationTheorems.
  Context `{P : Primitives, K : MnCodec}.

(** What a registration must show. *)
Definition registration_proved (r : MasternodeRegistration) (u : UtxoSet) (utxo : Utxo) : Prop :=
  get_utxo u (collateral_outpoint (registration_identity r)) = Some utxo /\
  MASTERNODE_COLLATERAL_AMOUNT <= value (output utxo) /\
  len (collateral_ownership_public_key (registration_identity r)) = 32 /\ len (registration_signature r) = 64 /\
  exists b pk sig, bincode_identity (registration_identity r) = Some b /\
    public_key_from_bytes (collateral_ownership_public_key (registration_identity r)) = Some pk /\
    signature_from_bytes (registration_signature r) = Some sig /\ ed25519_verify pk b sig = true.

(** A registration succeeds exactly when its collateral is unspent and
    large enough and the key it names signed the identity; the transaction
    spends the collateral and pays 10000 units to the collateral's script,
    whatever the collateral was worth. *)
Theorem register_masternode_iff r u tx :
  mn_register_masternode r u = Ok tx <->
  exists utxo, registration_proved r u utxo /\
    tx = Standard 1 [TxInput_from_outpoint (collateral_outpoint (registration_identity r)) [] 0 []]
           [mkTxOutput 10000 (script_pubkey (output utxo)) None] 0 0 [].
Proof.
  unfold mn_register_masternode, registration_proved. split.
  - destruct (get_utxo u _) as [utxo|]; [|done]. cbn.
    destruct (Z.ltb_spec (value (output utxo)) MASTERNODE_COLLATERAL_AMOUNT); [done|].
    destruct (bincode_identity _) as [b|]; [|done]. cbn. destruct (Z.eqb_spec (len (collateral_ownership_public_key (registration_identity r))) 32); [|done]. cbn.
    destruct (public_key_from_bytes _) as [pk|]; [|done]. cbn. destruct (Z.eqb_spec (len (registration_signature r)) 64); [|done]. cbn.
    destruct (signature_from_bytes _) as [sig|]; [|done]. cbn. destruct (ed25519_verify pk b sig) eqn:Hv; [|done]. cbn.
    intros [= <-]. exists utxo. split; [|done]. split_and!; try done. eauto 8.
  - intros (utxo & (Hu & Hval & Hk & Hs & b & pk & sig & Hb & Hpk & Hsig & Hv) & ->).
    rewrite Hu. cbn. rewrite (proj2 (Z.ltb_ge _ _) Hval), Hb. cbn. rewrite Hk. cbn. rewrite Hpk. cbn. rewrite Hs. cbn.
    rewrite Hsig. cbn. by rewrite Hv.
Qed.

(** The output of a deregistration is not the owner's: it has an empty
    script, which anybody satisfies by pushing a number, and it returns 9000
    units of whatever the collateral was. *)
Theorem deregistration_pays_anyone id :
  exists tx o, mn_deregister_masternode id = Ok tx /\ get_outputs tx = [o] /\ value o = 9000 /\
    (forall spender i, verify_script [0x51] (script_pubkey o) spender i = Ok tt).
Proof.
  eexists _, _. split; [reflexivity|]. split; [reflexivity|]. split; [reflexivity|]. intros spender i. reflexivity.
Qed.

End RegistrationTheorems.

Section Recognition.
  Context `{P : Primitives, K : MnCodec} {DB : Type}.

(** The transaction of a successful registration is not one the consensus
    crate registers a masternode with. *)
Theorem registration_not_recognised r u tx (ctx : ValidationContext DB) :
  mn_register_masternode r u = Ok tx ->
  validate_masternode_registration ctx tx = Err (CCE.InvalidTransactionType "Expected MasternodeRegister transaction").
Proof.
  unfold mn_register_masternode. intros Hr. apply outcome_bind_inv in Hr as (utxo & _ & Hr).
  destruct (_ <? _); [done|]. apply outcome_bind_inv in Hr as (b & _ & Hr). destruct (negb _); [done|].
  apply outcome_bind_inv in Hr as (pk & _ & Hr). destruct (negb _); [done|].
  apply outcome_bind_inv in Hr as (sig & _ & Hr). destruct (negb _); [done|]. by injection Hr as <-.
Qed.

End Recognition.

(** * Samples *)

Definition slashed_mn : MasternodeEntry :=
  mkMasternodeEntry sample_identity Active 0 3 None 0 (f32_of_Z 0) [] 2600000000000.

Definition collateral_input : TxInput := TxInput_from_outpoint (collateral_outpoint sample_identity) [] 0 [].

Definition sample_slash : MasternodeSlash :=
  mkMasternodeSlash 1 [collateral_input] [mn_create_burn_output 130000000000; mkTxOutput 2470000000000 [1; 2] None]
    (mkMasternodeID (collateral_outpoint sample_identity)) Types.MasternodeNonResponse [5] 10180 0 [].

Lemma sample_slash_created :
  create_slashing_transaction (mkMasternodeID (collateral_outpoint sample_identity)) MnSlash.MasternodeNonResponse [5]
    collateral_input 2600000000000 [1; 2] 100 = Ok sample_slash.
Proof. vm_compute. reflexivity. Qed.

(** A collateral above 2^53 burns more than it holds. *)
Example whole_collateral_rounds : MnSlash.slashed_amount MnSlash.DoubleSigning 9007199254740995 = 9007199254740996.
Proof. vm_compute. reflexivity. Qed.

Lemma slash_conserves_collateral_witness : foldr Z.add 0 (value <$> slash_outputs sample_slash) = 2600000000000.
Proof.
  apply (slash_conserves_collateral (mkMasternodeID (collateral_outpoint sample_identity)) MnSlash.MasternodeNonResponse [5]
    collateral_input 2600000000000 [1; 2] 100 sample_slash); [lia|exact sample_slash_created].
Defined.

Lemma created_slash_valid_until_witness : validate_slashing_transaction sample_slash 10179 = Ok tt.
Proof.
  apply (created_slash_valid_until (mkMasternodeID (collateral_outpoint sample_identity)) MnSlash.MasternodeNonResponse [5]
    collateral_input 2600000000000 [1; 2] 100 sample_slash 10179 sample_slash_created). reflexivity.
Defined.

Definition slash_context : ValidationContext unit :=
  mkValidationContext (mkUtxoDb tt ∅) ConsensusParams_default TicketPool_new
    {[ mkMasternodeID (collateral_outpoint sample_identity) := slashed_mn ]}
    (mkConsensusState tt (mkGovernanceStore ∅ ∅ None) ∅).

Lemma created_slash_accepted_witness : check_slash slash_context sample_slash = Ok tt.
Proof.
  apply (created_slash_accepted slash_context (mkMasternodeID (collateral_outpoint sample_identity))
    MnSlash.MasternodeNonResponse [5] collateral_input [1; 2] 100 sample_slash slashed_mn).
  - by apply lookup_singleton_eq.
  - reflexivity.
  - exact sample_slash_created.
  - rewrite decide_True by done. cbn. unfold MAX_POSE_FAILURES. lia.
Defined.

Definition sample_mn_codec : MnCodec :=
  {| bincode_non_participation _ := None; bincode_malicious _ := None; bincode_identity i := Some (operator_public_key i) |}.

Definition owner_identity : MasternodeIdentity :=
  mkMasternodeIdentity (mkOutPoint [1] 0) [9] ""%string (to_le_bytes 32 5) None [].

Definition sample_mn_registration : MasternodeRegistration :=
  mkMasternodeRegistration owner_identity (to_le_bytes 32 5 ++ sample_hash 32 1 [9]).

Definition collateral_set : UtxoSet := {[ mkOutPoint [1] 0 := mkUtxo (mkTxOutput 50000 [1; 2] None) false 7 ]}.

Lemma registration_not_recognised_witness :
  exists tx, @mn_register_masternode sample_primitives sample_mn_codec sample_mn_registration collateral_set = Ok tx /\
    validate_masternode_registration slash_context tx =
      Err (CCE.InvalidTransactionType "Expected MasternodeRegister transaction").
Proof.
  eexists. assert (Hr : @mn_register_masternode sample_primitives sample_mn_codec sample_mn_registration collateral_set =
    Ok (Standard 1 [TxInput_from_outpoint (mkOutPoint [1] 0) [] 0 []] [mkTxOutput 10000 [1; 2] None] 0 0 []))
    by (vm_compute; reflexivity).
  split; [exact Hr|]. exact (@registration_not_recognised sample_primitives sample_mn_codec unit _ _ _ slash_context Hr).
Defined.
