(* ===== verification/MasternodeSync.v ===== *)
(** The masternode list on the network
    (src/rusty-masternode/src/mn_list_propagation.rs and mn_list.rs) and the
    coordinator that ties the list, key generation and proof of service
    together (network_coordinator.rs).

    The list is behind an [Arc] that the propagation manager and the
    key-generation manager share: [set_propagation] writes it to both.  The
    mutexes are never taken twice by one call.  [iter] stands for the
    iteration order of a [HashMap]; [Instant]s are seconds; random request
    numbers are arguments. *)

From Stdlib Require Import ZArith Lia List SpecFloat.
From stdpp Require Import base option list numbers strings gmap sorting.
From coqutil Require Import Datatypes.RecordSetters.
From S2P Require Import Prelude Types Transaction SamplePrimitives ChainState Masternodes Dkg DkgProtocol Quorum MasternodeDkg ProofOfService.

Import TriangleBracketNotations.
#[local] Open Scope Z_scope.

(** * Data *)

Inductive MasternodeUpdateType : Type :=
| Registration
| StatusChange
| Deregistration
| PoSeUpdate
| DKGParticipation.

#[export] Instance MasternodeUpdateType_eq_dec : EqDecision MasternodeUpdateType.
Proof. solve_decision. Defined.

Record MasternodeUpdate : Type := mkMasternodeUpdate {
  update_masternode_id : MasternodeID;
  update_type : MasternodeUpdateType;
  update_entry : option MasternodeEntry;
  update_block_height : Z;
  update_signature : bytes;
}.

(** The messages of this module. *)
Inductive SyncMessage : Type :=
| MsgListRequest (request_id : Z)
| MsgListResponse (request_id : Z) (masternodes : list MasternodeEntry)
| MsgUpdate (u : MasternodeUpdate)
| MsgListSync (masternodes : list MasternodeEntry)
| MsgPose (m : PoseMessage).

(** bincode, [SecretKey::from_bytes] with the public key it determines, and
    the secret half of a key pair. *)
Class SyncCodec `{AuthKeys} : Type := {
  bincode_update : MasternodeUpdate -> option bytes;
  bincode_entries : list (MasternodeID * MasternodeEntry) -> option bytes;
  keypair_from_secret : bytes -> option Keypair;
  keypair_secret : Keypair -> bytes;
}.

Record MNListPropagationConfig : Type := mkPropagationConfig {
  sync_interval_secs : Z;
  max_list_age_blocks : Z;
  max_sync_peers : Z;
  request_timeout_secs : Z;
  max_update_batch_size : Z;
}.

Definition MNListPropagationConfig_default : MNListPropagationConfig := mkPropagationConfig 30 100 5 30 50.

Record Propagation : Type := mkPropagation {
  prop_list : MasternodeList;
  prop_config : MNListPropagationConfig;
  prop_outgoing : list SyncMessage;
  syncing_peers : gset string;
  last_sync_times : gmap string Z;
  pending_updates : list MasternodeUpdate;
  prop_height : Z;
  current_list_hash : Hash;
}.

Record MNListStats : Type := mkMNListStats {
  list_total_masternodes : Z;
  list_active_masternodes : Z;
  list_current_hash : Hash;
  list_block_height : Z;
  list_syncing_peers : Z;
}.

Abbreviation propM := (stM Propagation string).

(** [Ord] of a masternode identifier: the transaction, then the output. *)
Definition id_le (a b : MasternodeID) : bool :=
  let (ta, va) := mn_outpoint a in let (tb, vb) := mn_outpoint b in
  if bool_decide (ta = tb) then va <=? vb else bytes_le ta tb.

Definition entry_le (a b : MasternodeID * MasternodeEntry) : Prop := id_le a.1 b.1 = true.

#[export] Instance entry_le_dec : RelDecision entry_le := fun a b => decide (id_le a.1 b.1 = true).

Definition key_of (e : MasternodeEntry) : MasternodeID := mkMasternodeID (collateral_outpoint (identity e)).

(** [entries.into_iter().map(..).collect()]: of two entries for one
    masternode, the later wins. *)
Definition list_of_entries (l : list MasternodeEntry) : MasternodeList :=
  foldl (fun m e => <[key_of e := e]> m) ∅ l.

Section Propagation.
  Context `{P : Primitives, A : AuthKeys, S : !SyncCodec}.
  Context (iter : MasternodeList -> list (MasternodeID * MasternodeEntry)).

Definition sorted_entries (l : MasternodeList) : list (MasternodeID * MasternodeEntry) := merge_sort entry_le (iter l).

(** A failed encoding counts as empty. *)
Definition calculate_list_hash (l : MasternodeList) : Hash := blake3 (default [] (bincode_entries (sorted_entries l))).

Definition Propagation_new (l : MasternodeList) (config : MNListPropagationConfig) : Propagation :=
  mkPropagation l config [] ∅ ∅ [] 0 (calculate_list_hash l).

Definition prop_update_block_height (height : Z) : propM unit := modify (fun p => p <| prop_height := height |>).

(** * Updates *)

Definition unsigned_update (u : MasternodeUpdate) : MasternodeUpdate := u <| update_signature := [] |>.

Definition verify_update_signature (u : MasternodeUpdate) : outcome string bool :=
  entry ← ok_or (update_entry u) "MasternodeUpdate must have an entry for signature verification"%string;
  message ← ok_or (bincode_update (unsigned_update u)) "Failed to serialize update for verification"%string;
  if negb (len (update_signature u) =? 64) then Err "Invalid signature length, expected 64 bytes"%string
  else
    public_key ← ok_or (public_key_from_bytes (operator_public_key (identity entry))) "Invalid public key format"%string;
    signature ← ok_or (signature_from_bytes (update_signature u)) "Invalid signature format"%string;
    if ed25519_verify public_key message signature then Ok true else Err "Signature verification failed"%string.

Definition sign_masternode_update (u : MasternodeUpdate) (operator_private_key : bytes) :
    outcome string MasternodeUpdate :=
  message ← ok_or (bincode_update (unsigned_update u)) "Failed to serialize update for signing"%string;
  key ← ok_or (keypair_from_secret operator_private_key) "Invalid private key format"%string;
  Ok (u <| update_signature := keypair_sign key message |>).

(** Queue every pending update. *)
Definition drain_updates (p : Propagation) : Propagation :=
  p <| prop_outgoing ::= (fun l => l ++ (MsgUpdate <$> pending_updates p)) |> <| pending_updates := [] |>.

Definition maybe_broadcast_updates (p : Propagation) : Propagation :=
  if max_update_batch_size (prop_config p) <=? len (pending_updates p) then drain_updates p else p.

Definition flush_pending_updates (p : Propagation) : Propagation := drain_updates p.

Definition add_masternode_update (type : MasternodeUpdateType) (entry : option MasternodeEntry)
    (operator_private_key : bytes) : propM unit :=
  block_height ← gets prop_height;
  entry ← lift (ok_or entry "Masternode entry is required for update"%string);
  u ← lift (sign_masternode_update (mkMasternodeUpdate (key_of entry) type (Some entry) block_height [])
              operator_private_key);
  modify (fun p => p <| pending_updates ::= (fun l => l ++ [u]) |>);;
  modify maybe_broadcast_updates.

(** * Lists *)

Definition send_message_to_peers (m : SyncMessage) (p : Propagation) : Propagation :=
  p <| prop_outgoing ::= (fun l => l ++ [m]) |>.

Definition handle_list_request (request_id : Z) : propM unit :=
  modify (fun p => send_message_to_peers (MsgListResponse request_id (iter (prop_list p)).*2) p).

(** Replace the list and its hash. *)
Definition replace_list (entries : list MasternodeEntry) (p : Propagation) : Propagation :=
  p <| prop_list := list_of_entries entries |>
    <| current_list_hash := calculate_list_hash (list_of_entries entries) |>.

Definition handle_list_response (masternodes : list MasternodeEntry) (peer_id : string) : propM unit :=
  modify (replace_list masternodes);;
  modify (fun p => p <| syncing_peers ::= (fun s => s ∖ {[ peer_id ]}) |>).

Definition handle_full_list_sync (entries : list MasternodeEntry) : propM unit := modify (replace_list entries).

(** The change an update makes to the list. *)
Definition apply_mn_update (u : MasternodeUpdate) (l : MasternodeList) : outcome string MasternodeList :=
  match update_type u with
  | Registration =>
      entry ← ok_or (update_entry u) "Registration update requires entry data"%string;
      Ok (<[key_of entry := entry]> l)
  | StatusChange =>
      entry ← ok_or (update_entry u) "Status change update requires entry data"%string;
      Ok (<[key_of entry := entry]> l)
  | Deregistration => Ok (delete (update_masternode_id u) l)
  | PoSeUpdate =>
      Ok (alter (fun e => e <| last_successful_pose_height := wrap32 (update_block_height u) |>)
            (update_masternode_id u) l)
  | DKGParticipation =>
      Ok (alter (fun e => e <| dkg_participation_count ::= (fun n => wrap32 (n + 1)) |>)
            (update_masternode_id u) l)
  end.

Definition handle_masternode_update (now : Z) (u : MasternodeUpdate) (peer_id : string) : propM unit :=
  valid ← lift (verify_update_signature u);
  if negb valid then throw "Invalid signature for masternode update"%string
  else
    l ← gets prop_list;
    l ← lift (apply_mn_update u l);
    modify (fun p => p <| prop_list := l |> <| current_list_hash := calculate_list_hash l |>
                       <| last_sync_times ::= <[peer_id := now]> |>).

Definition request_masternode_list (now request_id : Z) (peer_id : string) : propM unit :=
  syncing ← gets syncing_peers;
  if bool_decide (peer_id ∈ syncing) then mret tt
  else
    modify (fun p => p <| syncing_peers ::= (fun s => {[ peer_id ]} ∪ s) |>);;
    modify (send_message_to_peers (MsgListRequest request_id));;
    modify (fun p => p <| last_sync_times ::= <[peer_id := now]> |>).

(** The peers a periodic sync asks; [duration_since] saturates at zero. *)
Definition sync_due (now : Z) (p : Propagation) (peer_id : string) : bool :=
  match last_sync_times p !! peer_id with
  | Some last => sync_interval_secs (prop_config p) <? Z.max 0 (now - last)
  | None => true
  end.

Definition peers_to_sync (now : Z) (p : Propagation) (connected : list string) : list string :=
  take (Z.to_nat (max_sync_peers (prop_config p))) (filter (fun x => sync_due now p x = true) connected).

(** [request_ids] are the random numbers of the requests. *)
Definition periodic_sync (now : Z) (request_ids : string -> Z) (connected : list string) : propM unit :=
  p ← gets Datatypes.id;
  for_each (peers_to_sync now p connected) (fun peer => request_masternode_list now (request_ids peer) peer);;
  modify flush_pending_updates.

Definition prop_get_outgoing_messages (p : Propagation) : Propagation * list SyncMessage :=
  (p <| prop_outgoing := [] |>, prop_outgoing p).

Definition get_stats (p : Propagation) : MNListStats :=
  mkMNListStats (Z.of_nat (size (prop_list p))) (count_active_masternodes (prop_list p)) (current_list_hash p)
    (prop_height p) (Z.of_nat (size (syncing_peers p))).

(** * [MasternodeListManager] *)

Definition mnl_update_masternode_status (id : MasternodeID) (active : bool) : stM MasternodeList string unit := fun l =>
  match l !! id with
  | Some entry => (<[id := entry <| status := if active then Active else Offline |>]> l, Ok tt)
  | None => (l, Err "Masternode not found"%string)
  end.

Definition calculate_mnlist_hash (l : MasternodeList) : outcome string Hash :=
  serialized ← ok_or (bincode_entries (sorted_entries l)) "Failed to serialize masternode list"%string;
  Ok (blake3 serialized).

Definition mnl_update_masternode_list (updates : MasternodeList) : stM MasternodeList string unit :=
  for_each (iter updates) (fun u => modify <[u.1 := u.2]>).

End Propagation.

(** * The network coordinator *)

Inductive NetworkCoordinatorError : Type :=
| NetworkError (msg : string)
| NetDkgError (e : DKGManagerError)
| NetStringError (msg : string).

Record MNNetworkStats : Type := mkMNNetworkStats {
  total_peers : Z;
  masternode_peers : Z;
  dkg_sessions : Z;
  stats_block_height : Z;
}.

Section NetworkCoordinator.
  Context `{P : Primitives, A : AuthKeys, B : Bls12, C : ChaCha8, K : !DkgCodec, S : !SyncCodec}.
  Context (iter : MasternodeList -> list (MasternodeID * MasternodeEntry)).
  Context (parse_addr : string -> option string).

Record MNNetworkCoordinator : Type := mkNetworkCoordinator {
  net_propagation : Propagation;
  net_dkg : MnManager;
  net_pose : option PoSeCoordinator;
  net_height : Z;
  net_block_hash : Hash;
  last_sync_time : Z;
  request_id_counter : Z;
  operator_keypair : Keypair;
}.

Abbreviation netM := (stM MNNetworkCoordinator NetworkCoordinatorError).

Definition coordinator_dkg_params : DKGParams := mkDKGParams 3 10 67 10 10 5 5.

(** [Keypair::from_bytes(..).expect(..)] on the key's own bytes. *)
Definition MNNetworkCoordinator_new (now : Z) (l : MasternodeList) (our_id : MasternodeID) (key : Keypair)
    (pose : option PoSeCoordinator) : outcome NetworkCoordinatorError MNNetworkCoordinator :=
  dkg_key ← unwrap (keypair_reload key);
  operator_key ← unwrap (keypair_reload key);
  Ok (mkNetworkCoordinator (Propagation_new iter l MNListPropagationConfig_default)
        (MnManager_new our_id dkg_key l coordinator_dkg_params) pose 0 (replicate 32 0) now 1 operator_key).

(** Both managers hold the same list. *)
Definition set_propagation (p : Propagation) (s : MNNetworkCoordinator) : MNNetworkCoordinator :=
  s <| net_propagation := p |> <| net_dkg ::= (fun m => m <| MasternodeDkg.masternode_list := prop_list p |>) |>.

Definition with_propagation {T} (f : string -> NetworkCoordinatorError) (m : propM T) : netM T := fun s =>
  let '(p, r) := m (net_propagation s) in (set_propagation p s, map_err f r).

Definition with_dkg {T} (m : stM MnManager DKGManagerError T) : netM T := fun s =>
  let '(d, r) := m (net_dkg s) in (s <| net_dkg := d |>, map_err NetDkgError r).

Definition generate_request_id : netM Z := fun s =>
  (s <| request_id_counter ::= (fun n => wrap64 (n + 1)) |>, Ok (request_id_counter s)).

(** The error of a request is ignored. *)
Definition handle_peer_connected (now request_id : Z) (peer_id : string) (is_masternode : bool) :
    MNNetworkCoordinator -> MNNetworkCoordinator := fun s =>
  if is_masternode then fst (with_propagation NetworkError (request_masternode_list now request_id peer_id) s) else s.

Definition handle_masternode_list_sync (masternodes : list MasternodeEntry) : netM unit :=
  with_propagation NetworkError (handle_full_list_sync iter masternodes).

Definition handle_p2p_message (message : SyncMessage) (peer_id : string) : netM unit :=
  peer_addr ← lift (ok_or (parse_addr peer_id) (NetworkError "Invalid peer address"));
  match message with
  | MsgListSync masternodes => handle_masternode_list_sync masternodes
  | _ => mret tt
  end.

Definition net_update_block_height (height : Z) (block_hash : Hash) : netM unit :=
  with_propagation NetStringError (prop_update_block_height height);;
  with_dkg (mn_update_block_height iter height block_hash);;
  modify (fun s => s <| net_height := height |> <| net_block_hash := block_hash |>).

Definition update_needs_entry (type : MasternodeUpdateType) : bool :=
  match type with Deregistration => false | _ => true end.

Definition propagate_masternode_update (type : MasternodeUpdateType) (entry : option MasternodeEntry) : netM unit :=
  if update_needs_entry type && bool_decide (entry = None)
  then throw (NetStringError "Masternode entry is required for this operation")
  else if negb (update_needs_entry type) && negb (bool_decide (entry = None))
  then throw (NetStringError "Masternode entry should be None for Delete operation")
  else
    match entry with
    | None => throw (NetStringError "Masternode ID required for deregistration")
    | Some _ =>
        key ← gets (fun s => keypair_secret (operator_keypair s));
        with_propagation NetStringError (add_masternode_update type entry key)
    end.

(** No peers are tracked: the sync asks nobody. *)
Definition sync_masternode_list : netM unit := mret tt.
Definition cleanup_inactive_peers : netM unit := mret tt.
Definition get_pending_messages (s : MNNetworkCoordinator) : outcome NetworkCoordinatorError (list SyncMessage) := Ok [].
Definition broadcast_message (message : SyncMessage) : netM unit := mret tt.
Definition get_masternode_peers (s : MNNetworkCoordinator) : list (string * MasternodeID) := [].
Definition is_masternode_connected (s : MNNetworkCoordinator) (id : MasternodeID) : bool := false.

(** The receiving half of the channel is dropped when the coordinator is
    made, so that every send fails. *)
Definition net_send_message (message : SyncMessage) (peer_addr : string) : netM unit :=
  throw (NetStringError "sending on a closed channel").

Definition net_get_network_stats (s : MNNetworkCoordinator) : MNNetworkStats :=
  mkMNNetworkStats 0 0 (get_active_session_count (net_dkg s)) (net_height s).

(** [if let Err(e) = .. { error!(..) }] *)
Definition log_error (m : netM unit) : netM unit := fun s =>
  match m s with
  | (s, Err _) => (s, Ok tt)
  | r => r
  end.

Definition net_periodic_maintenance (now : Z) : netM unit :=
  log_error sync_masternode_list;;
  block_hash ← gets net_block_hash;
  log_error (with_dkg (periodic_maintenance iter block_hash));;
  modify (fun s => s <| net_pose ::= (fun o => pose_periodic_maintenance now <$> o) |>);;
  log_error cleanup_inactive_peers.

End NetworkCoordinator.

(** * The hash of a list *)

Lemma id_le_total a b : id_le a b = true \/ id_le b a = true.
Proof.
  destruct a as [[ta va]], b as [[tb vb]]. unfold id_le. cbn. do 2 case_bool_decide; subst; try done.
  - rewrite !Z.leb_le. lia.
  - apply bytes_le_total.
Qed.

Lemma id_le_trans a b c : id_le a b = true -> id_le b c = true -> id_le a c = true.
Proof.
  destruct a as [[ta va]], b as [[tb vb]], c as [[tc vc]]. unfold id_le. cbn.
  case_bool_decide as H1; case_bool_decide as H2; case_bool_decide as H3; subst; try done.
  - rewrite !Z.leb_le. lia.
  - intros Hab Hbc. exfalso. apply H1. by apply bytes_le_antisym.
  - apply bytes_le_trans.
Qed.

Lemma id_le_antisym a b : id_le a b = true -> id_le b a = true -> a = b.
Proof.
  destruct a as [[ta va]], b as [[tb vb]]. unfold id_le. cbn. do 2 case_bool_decide; subst; try done.
  - rewrite !Z.leb_le. intros. do 2 f_equal. lia.
  - intros Hab Hba. by pose proof (bytes_le_antisym _ _ Hab Hba).
Qed.

#[local] Instance entry_le_total : Total entry_le.
Proof. intros a b. apply id_le_total. Qed.

#[local] Instance entry_le_transitive : Transitive entry_le.
Proof. intros a b c. apply id_le_trans. Qed.

(** The hash of a masternode list does not depend on the order in which
    the map that holds it is iterated. *)
Theorem list_hash_canonical `{P : Primitives, A : AuthKeys, S : !SyncCodec} iter1 iter2 (l : MasternodeList) :
  iter1 l ≡ₚ map_to_list l -> iter2 l ≡ₚ map_to_list l ->
  calculate_list_hash iter1 l = calculate_list_hash iter2 l.
Proof.
  intros H1 H2. unfold calculate_list_hash. do 3 f_equal. unfold sorted_entries.
  apply (Sorted_unique_strong entry_le).
  - intros [i x] [j y] Hi Hj Hij Hji. rewrite merge_sort_Permutation, H1, elem_of_map_to_list in Hi.
    rewrite merge_sort_Permutation, H2, elem_of_map_to_list in Hj.
    pose proof (id_le_antisym _ _ Hij Hji) as He. cbn in He. subst j. by simplify_eq.
  - apply Sorted_merge_sort, _.
  - apply Sorted_merge_sort, _.
  - by rewrite !merge_sort_Permutation, H1, H2.
Qed.

(** * The propagation manager *)

Section PropagationTheorems.
  Context `{P : Primitives, A : AuthKeys, S : !SyncCodec}.
  Context (iter : MasternodeList -> list (MasternodeID * MasternodeEntry)).

(** The calls that change the manager. *)
Inductive prop_op : Type :=
| PropHeight (height : Z)
| PropAdd (type : MasternodeUpdateType) (entry : option MasternodeEntry) (key : bytes)
| PropFlush
| PropListRequest (request_id : Z)
| PropListResponse (l : list MasternodeEntry) (peer : string)
| PropUpdate (now : Z) (u : MasternodeUpdate) (peer : string)
| PropAsk (now request_id : Z) (peer : string)
| PropSync (now : Z) (request_ids : string -> Z) (connected : list string)
| PropFullSync (l : list MasternodeEntry)
| PropTake.

Definition prop_exec (op : prop_op) (p : Propagation) : Propagation :=
  match op with
  | PropHeight h => fst (prop_update_block_height h p)
  | PropAdd t e k => fst (add_masternode_update t e k p)
  | PropFlush => flush_pending_updates p
  | PropListRequest r => fst (handle_list_request iter r p)
  | PropListResponse l peer => fst (handle_list_response iter l peer p)
  | PropUpdate now u peer => fst (handle_masternode_update iter now u peer p)
  | PropAsk now r peer => fst (request_masternode_list now r peer p)
  | PropSync now r peers => fst (periodic_sync now r peers p)
  | PropFullSync l => fst (handle_full_list_sync iter l p)
  | PropTake => fst (prop_get_outgoing_messages p)
  end.

Definition prop_run (p : Propagation) (ops : list prop_op) : Propagation := foldl (fun p op => prop_exec op p) p ops.

(** Every entry is filed under its own collateral. *)
Definition keyed (l : MasternodeList) : Prop := map_Forall (fun i e => i = key_of e) l.

Definition prop_inv (p : Propagation) : Prop :=
  current_list_hash p = calculate_list_hash iter (prop_list p) /\ keyed (prop_list p).

Lemma keyed_entries l : keyed (list_of_entries l).
Proof.
  unfold list_of_entries. apply (foldl_inv keyed); [apply map_Forall_empty|].
  intros m e Hm. by apply map_Forall_insert_2.
Qed.

Lemma keyed_alter f i l : (forall e, key_of (f e) = key_of e) -> keyed l -> keyed (alter f i l).
Proof.
  intros Hf Hl j e He. destruct (decide (i = j)) as [->|Hij].
  - rewrite lookup_alter_eq in He. destruct (l !! j) as [e'|] eqn:Hj; [|done]. injection He as <-.
    rewrite Hf. by apply (Hl j e').
  - rewrite lookup_alter_ne in He by done. by apply Hl.
Qed.

Lemma keyed_apply u l l' : apply_mn_update u l = Ok l' -> keyed l -> keyed l'.
Proof.
  unfold apply_mn_update. destruct (update_type u).
  1, 2: intros (e & _ & [= <-])%outcome_bind_inv Hl; by apply map_Forall_insert_2.
  - intros [= <-] Hl. by apply map_Forall_delete.
  - intros [= <-]. apply keyed_alter. by intros [].
  - intros [= <-]. apply keyed_alter. by intros [].
Qed.

Lemma inv_same_list p p' :
  prop_list p' = prop_list p -> current_list_hash p' = current_list_hash p -> prop_inv p -> prop_inv p'.
Proof. unfold prop_inv. by intros -> ->. Qed.

Lemma ask_preserves now r peer : preserves prop_inv (request_masternode_list now r peer).
Proof.
  unfold request_masternode_list. apply preserves_bind; [apply preserves_gets|]. intros s.
  case_bool_decide; [apply preserves_ret|].
  repeat (apply preserves_bind; [|intros _]); apply preserves_modify; intros [] ?; by eapply inv_same_list.
Qed.

Lemma drain_inv p : prop_inv p -> prop_inv (drain_updates p).
Proof. destruct p. intros ?. by eapply inv_same_list. Qed.

Lemma add_preserves t e k : preserves prop_inv (add_masternode_update t e k).
Proof.
  unfold add_masternode_update. apply preserves_bind; [apply preserves_gets|intros h].
  apply preserves_bind; [apply preserves_lift|intros en]. apply preserves_bind; [apply preserves_lift|intros u].
  apply preserves_bind; [apply preserves_modify; intros [] ?; by eapply inv_same_list|intros _].
  apply preserves_modify. intros p Hp. unfold maybe_broadcast_updates. destruct (_ <=? _); [by apply drain_inv|done].
Qed.

Lemma replace_inv l p : prop_inv (replace_list iter l p).
Proof. destruct p. split; [done|apply keyed_entries]. Qed.

Lemma update_inv now u peer p : prop_inv p -> prop_inv (fst (handle_masternode_update iter now u peer p)).
Proof.
  intros Hp. unfold handle_masternode_update. rewrite stM_bind_run. cbn [lift].
  destruct (verify_update_signature u) as [v|e| |]; [|done..]. destruct (negb v); [done|].
  rewrite stM_bind_run. cbn [gets]. rewrite stM_bind_run. cbn [lift].
  destruct (apply_mn_update u (prop_list p)) as [l|e| |] eqn:Hu; [|done..]. cbn [modify fst].
  destruct p. split; [done|]. cbn in *. eapply keyed_apply; [exact Hu|]. apply Hp.
Qed.

Lemma prop_inv_exec op p : prop_inv p -> prop_inv (prop_exec op p).
Proof.
  intros Hp. destruct op as [h|t e k| |r|l peer|now u peer|now r peer|now r peers|l|]; cbn [prop_exec].
  - destruct p. by eapply inv_same_list.
  - by apply (preserves_fst prop_inv _ _ (add_preserves t e k)).
  - by apply drain_inv.
  - destruct p. by eapply inv_same_list.
  - unfold handle_list_response. rewrite stM_bind_run. cbn [modify fst].
    pose proof (replace_inv l p) as Hr. revert Hr. generalize (replace_list iter l p). intros [] Hr. by eapply inv_same_list.
  - by apply update_inv.
  - by apply (preserves_fst prop_inv _ _ (ask_preserves now r peer)).
  - apply (preserves_fst prop_inv); [|done]. unfold periodic_sync.
    apply preserves_bind; [apply preserves_gets|intros q]. apply preserves_bind.
    + apply preserves_for_each. intros x _. apply ask_preserves.
    + intros _. apply preserves_modify, drain_inv.
  - apply replace_inv.
  - destruct p. by eapply inv_same_list.
Qed.

(** Whatever a propagation manager is asked to do, its hash is that of
    the list it holds and every entry is filed under its own collateral. *)
Theorem propagation_invariant l config ops :
  keyed l -> prop_inv (prop_run (Propagation_new iter l config) ops).
Proof.
  intros Hl. apply (foldl_inv prop_inv); [by split|]. intros a x. apply prop_inv_exec.
Qed.

(** ** Signatures *)

Context `{B : Bls12, L : !AuthLaws}.

(** An update signed by the key of the entry it carries. *)
Definition self_signed (key : Keypair) (u : MasternodeUpdate) : Prop :=
  exists entry b, update_entry u = Some entry /\ operator_public_key (identity entry) = keypair_public key /\
    bincode_update (unsigned_update u) = Some b /\ update_signature u = keypair_sign key b.

Lemma self_signed_verifies key u : self_signed key u -> verify_update_signature u = Ok true.
Proof using L.
  intros (entry & b & He & Hk & Hb & Hs). unfold verify_update_signature. rewrite He, Hb, Hs, sign_length. cbn [ok_or]. rewrite !outcome_bind_ok, Hk. cbn.
  destruct (sign_verifies key b) as (pk & sig & -> & -> & Hv). cbn. by rewrite Hv.
Qed.

(** An update that is signed with the operator key of its own entry is
    accepted by every manager that receives it. *)
Theorem signed_update_roundtrip (u u' : MasternodeUpdate) secret key entry :
  keypair_from_secret secret = Some key -> update_entry u = Some entry ->
  operator_public_key (identity entry) = keypair_public key ->
  sign_masternode_update u secret = Ok u' ->
  verify_update_signature u' = Ok true /\ update_entry u' = Some entry /\
  update_type u' = update_type u /\ update_masternode_id u' = update_masternode_id u.
Proof using L.
  intros Hkey He Hk. unfold sign_masternode_update. intros (b & Hb & Hs)%outcome_bind_inv.
  rewrite Hkey in Hs. cbn in Hs. injection Hs as <-. destruct (bincode_update (unsigned_update u)) as [b'|] eqn:Hu; [|done].
  injection Hb as <-. split; [|by destruct u].
  apply (self_signed_verifies key). exists entry, b'. by destruct u.
Qed.

(** The key an update is checked against is the one of the entry inside
    the update, and nothing ties that entry to the masternode the update is
    about: any key removes any masternode from every list it reaches, and
    replaces any entry by one of its own. *)
Theorem any_key_rewrites_the_list key now peer p (u : MasternodeUpdate) entry :
  self_signed key u -> update_entry u = Some entry ->
  exists p', handle_masternode_update iter now u peer p = (p', Ok tt) /\
    (update_type u = Deregistration -> prop_list p' = delete (update_masternode_id u) (prop_list p)) /\
    (update_type u = Registration \/ update_type u = StatusChange ->
       prop_list p' = <[key_of entry := entry]> (prop_list p)).
Proof using L.
  intros Hu He. unfold handle_masternode_update. rewrite stM_bind_run. cbn [lift].
  rewrite (self_signed_verifies key u Hu). cbn [negb]. rewrite stM_bind_run. cbn [gets]. rewrite stM_bind_run. cbn [lift].
  unfold apply_mn_update. rewrite He.
  destruct (update_type u); cbn; (eexists; split; [reflexivity|]); destruct p; cbn;
    (split; [intros Ht|intros [Ht|Ht]]; done).
Qed.

End PropagationTheorems.

(** * The coordinator *)

Section CoordinatorTheorems.
  Context `{P : Primitives, A : AuthKeys, B : Bls12, C : ChaCha8, K : !DkgCodec, S : !SyncCodec}.
  Context (iter : MasternodeList -> list (MasternodeID * MasternodeEntry)).
  Context (parse_addr : string -> option string).

(** Key generation reads the list and leaves it alone. *)
Abbreviation keeps_list l m := (preserves (fun d => MasternodeDkg.masternode_list d = l) m).

Lemma keeps_initiate l ids p h : keeps_list l (initiate_dkg_session ids p h).
Proof.
  unfold initiate_dkg_session. apply preserves_bind; [apply preserves_gets|intros m].
  apply preserves_bind; [apply preserves_lift|intros id]. apply preserves_bind; [apply preserves_lift|intros i].
  apply preserves_bind; [apply preserves_lift|intros k]. apply preserves_bind; [apply preserves_modify; by intros []|intros _].
  apply preserves_bind; [apply preserves_lift|intros sg]. apply preserves_bind; [apply preserves_modify; by intros []|intros _].
  apply preserves_ret.
Qed.

Lemma keeps_select l mn mx h bh : keeps_list l (select_dkg_participants iter mn mx h bh).
Proof.
  intros m Hm. unfold select_dkg_participants.
  destruct (form_quorum _ _ _ _ _ _ _) as [qm [q|e| |]]; by destruct m.
Qed.

Lemma keeps_warn {T} l (m : stM MnManager DKGManagerError T) : keeps_list l m -> keeps_list l (warn_on_error m).
Proof. intros Hm d Hd. unfold warn_on_error. specialize (Hm d Hd). by destruct (m d) as [d' [a|e| |]]. Qed.

Lemma keeps_schedule l h bh : keeps_list l (maybe_initiate_scheduled_dkg iter h bh).
Proof.
  unfold maybe_initiate_scheduled_dkg. destruct (negb _); [apply preserves_ret|].
  apply preserves_bind; [apply preserves_gets|intros m]. destruct (already_active m h); [apply preserves_ret|].
  apply preserves_bind; [apply keeps_select|intros ids]. destruct (len ids =? 0); [apply preserves_ret|].
  apply keeps_warn, keeps_initiate.
Qed.

Lemma keeps_block l h bh : keeps_list l (mn_update_block_height iter h bh).
Proof.
  unfold mn_update_block_height, process_height_dependent_operations.
  apply preserves_bind; [apply preserves_modify; by intros []|intros _].
  apply preserves_bind; [apply preserves_modify; by intros []|intros _]. apply keeps_schedule.
Qed.

Lemma keeps_maintenance l bh : keeps_list l (periodic_maintenance iter bh).
Proof.
  unfold periodic_maintenance. apply preserves_bind; [apply preserves_gets|intros h].
  apply preserves_bind; [apply preserves_modify; by intros []|intros _].
  apply preserves_bind; [apply keeps_schedule|intros _]. apply preserves_bind; [apply preserves_gets|intros ids].
  apply preserves_for_each. intros id _. unfold rebroadcast. apply preserves_bind; [apply preserves_gets|intros m].
  destruct (mn_sessions m !! id) as [d|]; [|apply preserves_ret].
  apply preserves_bind; [apply preserves_lift|intros sg]. apply preserves_modify. by intros [].
Qed.

(** The calls that change the coordinator. *)
Inductive net_op : Type :=
| NetPeer (now request_id : Z) (peer : string) (is_masternode : bool)
| NetMessage (m : SyncMessage) (peer : string)
| NetBlock (height : Z) (block_hash : Hash)
| NetPropagate (type : MasternodeUpdateType) (entry : option MasternodeEntry)
| NetRequestId
| NetMaintenance (now : Z).

Definition net_exec (op : net_op) (s : MNNetworkCoordinator) : MNNetworkCoordinator :=
  match op with
  | NetPeer now r peer mn => handle_peer_connected now r peer mn s
  | NetMessage m peer => fst (handle_p2p_message iter parse_addr m peer s)
  | NetBlock h bh => fst (net_update_block_height iter h bh s)
  | NetPropagate t e => fst (propagate_masternode_update t e s)
  | NetRequestId => fst (generate_request_id s)
  | NetMaintenance now => fst (net_periodic_maintenance iter now s)
  end.

Definition net_run (s : MNNetworkCoordinator) (ops : list net_op) : MNNetworkCoordinator :=
  foldl (fun s op => net_exec op s) s ops.

Definition is_request (m : SyncMessage) : bool := match m with MsgListRequest _ => true | _ => false end.

Definition requests (p : Propagation) : list SyncMessage := filter (fun m => is_request m = true) (prop_outgoing p).

(** What every step does to the propagation manager, from [p] to [p']. *)
Definition prop_step (p p' : Propagation) : Prop :=
  (exists sent, prop_outgoing p' = prop_outgoing p ++ sent) /\ syncing_peers p ⊆ syncing_peers p' /\
  (length (requests p) = size (syncing_peers p) -> length (requests p') = size (syncing_peers p')).

#[local] Instance prop_step_refl : Reflexive prop_step.
Proof. intros p. split; [exists []; by rewrite app_nil_r|]. done. Qed.

#[local] Instance prop_step_trans : Transitive prop_step.
Proof.
  intros p q r ((s1 & H1) & H2 & H3) ((s2 & H4) & H5 & H6). split; [|split; [set_solver|auto]].
  exists (s1 ++ s2). by rewrite H4, H1, app_assoc.
Qed.

(** The list is shared, and the step is one of the propagation manager. *)
Definition net_step (s s' : MNNetworkCoordinator) : Prop :=
  prop_step (net_propagation s) (net_propagation s') /\
  (MasternodeDkg.masternode_list (net_dkg s) = prop_list (net_propagation s) ->
   MasternodeDkg.masternode_list (net_dkg s') = prop_list (net_propagation s')).

#[local] Instance net_step_refl : Reflexive net_step.
Proof. intros s. split; done. Qed.

#[local] Instance net_step_trans : Transitive net_step.
Proof. intros s1 s2 s3 [H1 H2] [H3 H4]. split; [by etrans|auto]. Qed.

Lemma same_messages p p' :
  prop_outgoing p' = prop_outgoing p -> syncing_peers p' = syncing_peers p -> prop_step p p'.
Proof.
  intros H1 H2. unfold prop_step, requests. rewrite H1, H2. split; [exists []; by rewrite app_nil_r|]. done.
Qed.

Lemma drain_step p : prop_step p (drain_updates p).
Proof.
  destruct p as [l c out sy ls pend h lh]. unfold drain_updates. cbn. split; [by eexists|]. split; [done|].
  unfold requests. cbn. rewrite filter_app, length_app. intros Hs.
  rewrite (filter_drops (fun m => is_request m = true) (MsgUpdate <$> pend)); [cbn; lia|].
  apply Forall_fmap, Forall_forall. intros u _. cbn. done.
Qed.

Lemma ask_step now r peer p : prop_step p (fst (request_masternode_list now r peer p)).
Proof.
  unfold request_masternode_list. rewrite stM_bind_run. cbn [gets]. case_bool_decide as Hp; [done|].
  rewrite stM_bind_run. cbn [modify]. rewrite stM_bind_run. cbn [modify fst].
  destruct p as [l c out sy ls pend h lh]. cbn in *. split; [by eexists|]. split; [set_solver|].
  unfold requests. cbn -[filter]. rewrite filter_app, length_app, size_union, size_singleton by set_solver. cbn. rewrite decide_True by done. cbn [length]. intros ->. lia.
Qed.

Lemma add_step t e k p : prop_step p (fst (add_masternode_update t e k p)).
Proof.
  unfold add_masternode_update. rewrite !stM_bind_run. cbn [gets]. rewrite stM_bind_run. cbn [lift].
  destruct (ok_or e _) as [en|e'| |]; [|done..]. rewrite stM_bind_run. cbn [lift].
  destruct (sign_masternode_update _ _) as [u|e'| |]; [|done..]. rewrite stM_bind_run. cbn [modify fst].
  set (p1 := p <| pending_updates ::= _ |>). transitivity p1; [unfold p1; destruct p; by apply same_messages|].
  unfold maybe_broadcast_updates. destruct (_ <=? _); [apply drain_step|done].
Qed.

Lemma with_propagation_step {T} f (m : propM T) s :
  prop_step (net_propagation s) (fst (m (net_propagation s))) -> net_step s (fst (with_propagation f m s)).
Proof.
  intros Hm. unfold with_propagation. destruct (m (net_propagation s)) as [p r]. cbn [fst] in *.
  unfold set_propagation. destruct s as [pr [] po h bh ls rc ok]. by split.
Qed.

Lemma with_dkg_step {T} (m : stM MnManager DKGManagerError T) s :
  (forall l, keeps_list l m) -> net_step s (fst (with_dkg m s)).
Proof.
  intros Hm. unfold with_dkg.
  pose proof (preserves_fst _ _ _ (Hm (MasternodeDkg.masternode_list (net_dkg s))) eq_refl) as Hk.
  destruct (m (net_dkg s)) as [d r]. cbn [fst] in *. destruct s as [pr dk po h bh ls rc ok]. cbn in *.
  split; [done|]. cbn. unfold RecordSetters.constant. by rewrite Hk.
Qed.

Lemma bind_step {X Y} (m : stM MNNetworkCoordinator NetworkCoordinatorError X)
    (f : X -> stM MNNetworkCoordinator NetworkCoordinatorError Y) s :
  net_step s (fst (m s)) -> (forall x s', net_step s' (fst (f x s'))) -> net_step s (fst ((m ≫= f) s)).
Proof.
  intros Hm Hf. rewrite stM_bind_run. destruct (m s) as [s' [a|e| |]]; cbn [fst] in *; try done. by etrans.
Qed.

Lemma log_step m s : net_step s (fst (m s)) -> net_step s (fst (log_error m s)).
Proof. unfold log_error. by destruct (m s) as [s' [a|e| |]]. Qed.

Lemma net_step_exec op s : net_step s (net_exec op s).
Proof.
  destruct op as [now r peer mn|m peer|h bh|t e| |now]; cbn [net_exec].
  - unfold handle_peer_connected. destruct mn; [|done]. apply with_propagation_step, ask_step.
  - unfold handle_p2p_message. apply bind_step; [done|]. intros _ s'. destruct m; try done.
    apply with_propagation_step. cbn. destruct (net_propagation s'). by apply same_messages.
  - unfold net_update_block_height. apply bind_step; [|intros _ s1; apply bind_step; [|intros _ s2]].
    + apply with_propagation_step. cbn. destruct (net_propagation s). by apply same_messages.
    + apply with_dkg_step. intros l. apply keeps_block.
    + by destruct s2.
  - unfold propagate_masternode_update. destruct (_ && _); [done|]. destruct (_ && _); [done|].
    destruct e as [e|]; [|done]. apply bind_step; [done|]. intros k s'. apply with_propagation_step, add_step.
  - by destruct s.
  - unfold net_periodic_maintenance. apply bind_step; [by apply log_step|intros _ s1].
    apply bind_step; [done|intros bh s2]. apply bind_step; [|intros _ s3; apply bind_step; [|intros _ s4]].
    + apply log_step, with_dkg_step. intros l. apply keeps_maintenance.
    + by destruct s3.
    + by apply log_step.
Qed.

(** Through the life of a network coordinator the two managers see one
    list, every message the list manager queues stays in its queue (the
    coordinator hands out none), and it asks each masternode peer for its list
    at most once, since no answer ever ends a sync. *)
Theorem coordinator_asks_once now l our_id key pose s0 ops :
  MNNetworkCoordinator_new iter now l our_id key pose = Ok s0 ->
  let s := net_run s0 ops in
  MasternodeDkg.masternode_list (net_dkg s) = prop_list (net_propagation s) /\
  length (requests (net_propagation s)) = size (syncing_peers (net_propagation s)) /\
  get_pending_messages s = Ok [] /\
  forall more, (exists sent, prop_outgoing (net_propagation (net_run s more)) = prop_outgoing (net_propagation s) ++ sent) /\
    syncing_peers (net_propagation s) ⊆ syncing_peers (net_propagation (net_run s more)).
Proof.
  intros Hn. cbn zeta. unfold MNNetworkCoordinator_new in Hn.
  apply outcome_bind_inv in Hn as (k1 & _ & Hn). apply outcome_bind_inv in Hn as (k2 & _ & Hn). injection Hn as <-.
  set (s0 := mkNetworkCoordinator _ _ _ _ _ _ _ _).
  assert (Hrun : forall s ops, net_step s (net_run s ops)).
  { intros s os. apply (foldl_inv (net_step s)); [done|]. intros a x Ha. etrans; [exact Ha|]. apply net_step_exec. }
  destruct (Hrun s0 ops) as ((_ & _ & H3) & H4). split_and!; [by apply H4|by apply H3|done|].
  intros more. destruct (Hrun (net_run s0 ops) more) as ((H5 & H6 & _) & _). done.
Qed.

(** A deregistration is never propagated: with an entry it is refused,
    and without one as well. *)
Theorem deregistration_never_propagates e s :
  exists err, propagate_masternode_update Deregistration e s = (s, Err err).
Proof. unfold propagate_masternode_update. destruct e as [e|]; cbn; by eexists. Qed.

(** The full list any peer sends replaces the one both managers use. *)
Theorem any_peer_replaces_the_list peer addr entries s :
  parse_addr peer = Some addr ->
  exists s', handle_p2p_message iter parse_addr (MsgListSync entries) peer s = (s', Ok tt) /\
    prop_list (net_propagation s') = list_of_entries entries /\
    MasternodeDkg.masternode_list (net_dkg s') = list_of_entries entries /\
    current_list_hash (net_propagation s') = calculate_list_hash iter (list_of_entries entries).
Proof.
  intros Ha. unfold handle_p2p_message. rewrite stM_bind_run. cbn [lift]. rewrite Ha. cbn.
  eexists. split; [reflexivity|]. destruct s as [[] [] po h bh ls rc ok]. done.
Qed.

End CoordinatorTheorems.

(** * Samples *)

Definition sample_sync_codec : @SyncCodec sample_auth := {|
  bincode_update u := Some (txid (mn_outpoint (update_masternode_id u)));
  bincode_entries l := Some (concat ((fun p => txid (mn_outpoint p.1)) <$> l));
  keypair_from_secret b := Some (from_le_bytes b) : option (@Keypair sample_auth);
  keypair_secret k := to_le_bytes 32 k;
|}.

Lemma list_hash_canonical_witness :
  @calculate_list_hash sample_primitives sample_auth sample_sync_codec map_to_list pose_list =
  @calculate_list_hash sample_primitives sample_auth sample_sync_codec (fun m => reverse (map_to_list m)) pose_list.
Proof.
  apply list_hash_canonical; [done|]. apply reverse_Permutation.
Defined.

Lemma propagation_invariant_witness :
  current_list_hash (@prop_run sample_primitives sample_auth sample_sync_codec map_to_list
    (@Propagation_new sample_primitives sample_auth sample_sync_codec map_to_list pose_list MNListPropagationConfig_default)
    [PropFullSync [pose_entry 3]]) =
  @calculate_list_hash sample_primitives sample_auth sample_sync_codec map_to_list (list_of_entries [pose_entry 3]).
Proof.
  destruct (@propagation_invariant sample_primitives sample_auth sample_sync_codec map_to_list pose_list
    MNListPropagationConfig_default [PropFullSync [pose_entry 3]]) as [Hh _].
  - unfold pose_list. cbn. repeat (apply map_Forall_insert_2; [reflexivity|]). apply map_Forall_empty.
  - exact Hh.
Defined.

Definition own_update : MasternodeUpdate := mkMasternodeUpdate (pose_mn 2) PoSeUpdate (Some (pose_entry 2)) 7 [].

Lemma signed_update_roundtrip_witness :
  exists u', @sign_masternode_update sample_auth sample_sync_codec own_update (to_le_bytes 32 2) = Ok u' /\
    @verify_update_signature sample_primitives sample_auth sample_sync_codec u' = Ok true.
Proof.
  eexists. split; [reflexivity|].
  refine (proj1 (@signed_update_roundtrip sample_primitives sample_auth sample_sync_codec sample_bls12 sample_auth_laws
    own_update _ (to_le_bytes 32 2) 2 (pose_entry 2) _ _ _ _)); reflexivity.
Defined.

Definition forged_update : MasternodeUpdate :=
  mkMasternodeUpdate (pose_mn 1) Deregistration (Some (pose_entry 99)) 7
    (@keypair_sign sample_auth 99 (replicate 32 1)).

Definition sample_propagation : Propagation :=
  @Propagation_new sample_primitives sample_auth sample_sync_codec map_to_list pose_list MNListPropagationConfig_default.

Lemma any_key_rewrites_the_list_witness :
  exists p', @handle_masternode_update sample_primitives sample_auth sample_sync_codec map_to_list 0 forged_update
      "10.0.0.9:1"%string sample_propagation = (p', Ok tt) /\
    prop_list p' !! pose_mn 1 = None.
Proof.
  destruct (@any_key_rewrites_the_list sample_primitives sample_auth sample_sync_codec map_to_list sample_bls12 sample_auth_laws
    99 0 "10.0.0.9:1"%string sample_propagation forged_update (pose_entry 99)) as (p' & H1 & H2 & _).
  - eexists _, _. split; [reflexivity|]. split; [reflexivity|]. split; reflexivity.
  - reflexivity.
  - exists p'. split; [exact H1|]. rewrite H2 by reflexivity. apply lookup_delete_eq.
Defined.

Definition sample_network : @MNNetworkCoordinator sample_auth sample_bls12 :=
  mkNetworkCoordinator (A := sample_auth) (B := sample_bls12) sample_propagation
    (@MnManager_new sample_auth sample_bls12 (pose_mn 1) 1 pose_list coordinator_dkg_params) None 0
    (replicate 32 0) 0 1 1.

Definition sample_net_ops : list net_op :=
  [NetPeer 5 77 "10.0.0.9:1" true; NetPeer 6 78 "10.0.0.9:1" true; NetMessage (MsgListSync [pose_entry 3]) "10.0.0.9:1"].

Lemma coordinator_asks_once_witness :
  length (requests (net_propagation (@net_run sample_primitives sample_auth sample_bls12 sample_chacha
    (sample_dkg_codec sample_auth) sample_sync_codec map_to_list Some sample_network sample_net_ops))) =
  size (syncing_peers (net_propagation (@net_run sample_primitives sample_auth sample_bls12 sample_chacha
    (sample_dkg_codec sample_auth) sample_sync_codec map_to_list Some sample_network sample_net_ops))).
Proof.
  refine (proj1 (proj2 (@coordinator_asks_once sample_primitives sample_auth sample_bls12 sample_chacha
    (sample_dkg_codec sample_auth) sample_sync_codec map_to_list Some 0 pose_list (pose_mn 1) 1 None sample_network
    sample_net_ops _))).
  reflexivity.
Defined.

Lemma any_peer_replaces_the_list_witness :
  exists s', @handle_p2p_message sample_primitives sample_auth sample_bls12 sample_sync_codec map_to_list Some
      (MsgListSync []) "10.0.0.9:1"%string sample_network = (s', Ok tt) /\
    MasternodeDkg.masternode_list (net_dkg s') = ∅.
Proof.
  destruct (@any_peer_replaces_the_list sample_primitives sample_auth sample_bls12 sample_sync_codec map_to_list Some
    "10.0.0.9:1"%string "10.0.0.9:1"%string [] sample_network eq_refl) as (s' & H1 & _ & H2 & _).
  exists s'. split; [exact H1|exact H2].
Defined.
