(* ===== verification/Wallet.v ===== *)
(** The wallet's keys and transaction builder
    (src/rusty-wallet/src/keys.rs and tx_builder.rs) and the builder of
    rusty-core (src/rusty-core/src/transaction_builder.rs).

    [iter] stands for the iteration order of the map of coins.  The mnemonic,
    hash and curve crates are interfaces; [hex::decode] is an argument.  Error
    messages are kept without the numbers some of them print. *)

From Stdlib Require Import ZArith Lia List Ascii.
From stdpp Require Import base option list numbers strings gmap sorting pretty.
From coqutil Require Import Datatypes.RecordSetters.
From S2P Require Import Prelude Types Transaction SamplePrimitives ChainState Params StandardScripts DkgProtocol.

Import TriangleBracketNotations.
#[local] Open Scope Z_scope.

Abbreviation walletR := (outcome string).

(** * Keys *)

(** bip39, sha2, ed25519-dalek's [SecretKey::from_bytes] with the public key
    it determines, and secp256k1's secret keys as their bytes. *)
Class WalletCrypto `{AuthKeys} : Type := {
  Mnemonic : Type;
  mnemonic_from_entropy : bytes -> option Mnemonic;
  mnemonic_parse : string -> option Mnemonic;
  mnemonic_to_seed : Mnemonic -> bytes;
  mnemonic_to_string : Mnemonic -> string;
  sha512 : bytes -> bytes;
  ed25519_from_seed : bytes -> option Keypair;
  secp_from_slice : bytes -> option bytes;
  secp_public : bytes -> bytes;
}.

(** [str::split('/')] *)
Fixpoint split_slash (s : string) : list string :=
  match s with
  | EmptyString => [EmptyString]
  | String c rest =>
      if bool_decide (c = "/"%char) then EmptyString :: split_slash rest
      else match split_slash rest with
           | [] => [String c EmptyString]
           | w :: ws => String c w :: ws
           end
  end.

(** [trim_end_matches('\'')] *)
Fixpoint trim_quotes (s : string) : string :=
  match s with
  | EmptyString => EmptyString
  | String c rest =>
      match trim_quotes rest with
      | EmptyString => if bool_decide (c = "'"%char) then EmptyString else String c EmptyString
      | t => String c t
      end
  end.

Definition to_be_bytes4 (z : Z) : bytes := reverse (to_le_bytes 4 z).

(** The indices of a path: [m] and then numbers, with or without quotes. *)
Definition path_indices (err : string) (path : string) : walletR (list Z) :=
  match split_slash path with
  | root :: ((_ :: _) as components) =>
      if negb (bool_decide (root = "m"%string)) then Err err
      else ok_or (mapM (fun c => parse_uint u32_max (trim_quotes c)) components) "Invalid path component"%string
  | _ => Err err
  end.

Section Keys.
  Context `{A : AuthKeys, W : !WalletCrypto}.

Record HDWallet : Type := mkHDWallet { wallet_mnemonic : Mnemonic; wallet_seed : bytes }.

(** [seed_bytes.copy_from_slice(&seed[..64])] panics on a shorter seed. *)
Definition wallet_of (m : Mnemonic) : walletR HDWallet :=
  seed ← unwrap (slice (mnemonic_to_seed m) 0 64);
  Ok (mkHDWallet m seed).

Definition new_random (entropy : bytes) : walletR HDWallet :=
  m ← ok_or (mnemonic_from_entropy entropy) "bip39"%string; wallet_of m.

Definition from_mnemonic (trim : string -> string) (phrase : string) : walletR HDWallet :=
  m ← ok_or (mnemonic_parse (trim phrase)) "Invalid mnemonic"%string; wallet_of m.

Fixpoint secp_children (key : bytes) (indices : list Z) : walletR bytes :=
  match indices with
  | [] => Ok key
  | index :: rest =>
      key ← ok_or (secp_from_slice (take 32 (sha512 (key ++ to_be_bytes4 index ++ string_bytes "derive"))))
        "Failed to derive child key"%string;
      secp_children key rest
  end.

Definition derive_secp256k1_key (w : HDWallet) (path : string) : walletR (bytes * bytes) :=
  indices ← path_indices "Invalid HD path: must start with 'm/'" path;
  master ← ok_or (secp_from_slice (take 32 (sha512 (string_bytes "Bitcoin seed" ++ wallet_seed w))))
    "Failed to create master private key"%string;
  key ← secp_children master indices;
  Ok (key, secp_public key).

(** What the ed25519 keys are hashed from. *)
Definition derivation_input (w : HDWallet) (indices : list Z) : bytes :=
  string_bytes "ed25519 seed" ++ wallet_seed w ++ concat (to_be_bytes4 <$> indices).

Definition derive_ed25519_key (w : HDWallet) (path : string) : walletR Keypair :=
  indices ← path_indices "Invalid derivation path: must start with 'm/'" path;
  ok_or (ed25519_from_seed (take 32 (sha512 (derivation_input w indices)))) "Failed to create ed25519 secret key"%string.

Definition wallet_derive_key (w : HDWallet) (path : string) : walletR Keypair := derive_ed25519_key w path.

Definition mnemonic_phrase (w : HDWallet) : string := mnemonic_to_string (wallet_mnemonic w).
Definition seed_bytes (w : HDWallet) : bytes := wallet_seed w.

Definition default_path : string := "m/44'/0'/0'/0/0".

Definition public_key_bytes (w : HDWallet) : walletR bytes :=
  k ← derive_ed25519_key w default_path; Ok (keypair_public k).

Definition wallet_sign (w : HDWallet) (message : bytes) : walletR bytes :=
  k ← derive_ed25519_key w default_path; Ok (keypair_sign k message).

Definition derive_masternode_key (w : HDWallet) (masternode_index : Z) : walletR Keypair :=
  derive_ed25519_key w ("m/44'/0'/1'/0/" +:+ pretty (Z.to_N masternode_index)).

Fixpoint derive_multiple_keys (w : HDWallet) (purposes : list (string * string)) : walletR (list (string * Keypair)) :=
  match purposes with
  | [] => Ok []
  | (purpose, path) :: rest =>
      k ← derive_ed25519_key w path;
      ks ← derive_multiple_keys w rest;
      Ok ((purpose, k) :: ks)
  end.

End Keys.

(** * Scripts *)

Inductive ScriptType : Type :=
| P2PKH (pubkey_hash : bytes)
| P2SH (script_hash : bytes)
| P2PK (pubkey : bytes)
| Multisig (m : Z) (pubkeys : list bytes)
| OpReturn (data : bytes)
| CustomScript (script : bytes).

Definition create_p2pkh_script (pubkey_hash : bytes) : bytes := [0x76; 0xa9; 0x14] ++ pubkey_hash ++ [0x88; 0xac].
Definition create_p2sh_script (script_hash : bytes) : bytes := [0xa9; 0x14] ++ script_hash ++ [0x87].
Definition create_p2pk_script (pubkey : bytes) : bytes := [0x21] ++ pubkey ++ [0xac].

Definition create_multisig_script (m : Z) (pubkeys : list bytes) : bytes :=
  [wrap8 (0x50 + m)] ++ concat ((fun k => 0x21 :: k) <$> pubkeys) ++ [wrap8 (0x50 + wrap8 (len pubkeys)); 0xae].

Definition create_op_return_script (data : bytes) : bytes :=
  [0x6a] ++ (if len data =? 0 then []
             else (if len data <=? 75 then [wrap8 (len data)] else [0x4c; wrap8 (len data)]) ++ data).

Definition multisig_ok (m : Z) (pubkeys : list bytes) : bool :=
  negb ((m =? 0) || (wrap8 (len pubkeys) <? m) || (20 <? len pubkeys)).

Definition to_script_pubkey (t : ScriptType) : walletR bytes :=
  match t with
  | P2PKH h => if len h =? 20 then Ok (create_p2pkh_script h) else Err "P2PKH requires 20-byte pubkey hash"%string
  | P2SH h => if len h =? 20 then Ok (create_p2sh_script h) else Err "P2SH requires 20-byte script hash"%string
  | P2PK k => if len k =? 33 then Ok (create_p2pk_script k) else Err "P2PK requires 33-byte compressed pubkey"%string
  | Multisig m ks =>
      if negb (multisig_ok m ks) then Err "Invalid multisig parameters"%string
      else if forallb (fun k => len k =? 33) ks then Ok (create_multisig_script m ks)
      else Err "Multisig requires 33-byte compressed pubkeys"%string
  | OpReturn d =>
      if 80 <? len d then Err "OP_RETURN data too large (max 80 bytes)"%string else Ok (create_op_return_script d)
  | CustomScript s => if 10000 <? len s then Err "Script too large (max 10,000 bytes)"%string else Ok s
  end.

Definition is_p2pkh_script (s : bytes) : bool :=
  (len s =? 25) && byte_at s 0 0x76 && byte_at s 1 0xa9 && byte_at s 2 0x14 && byte_at s 23 0x88 && byte_at s 24 0xac.

Definition is_p2pk_script (s : bytes) : bool := (len s =? 35) && byte_at s 0 0x21 && byte_at s 34 0xac.

Definition is_p2sh_script (s : bytes) : bool :=
  (len s =? 23) && byte_at s 0 0xa9 && byte_at s 1 0x14 && byte_at s 22 0x87.

Definition is_multisig_script (s : bytes) : bool :=
  (3 <? len s) &&
  match s with
  | b :: _ => (0x51 <=? b) && (b <=? 0x60) && bool_decide (last s = Some 0xae)
  | [] => false
  end.

Definition wallet_validate_script_pubkey (script : bytes) : walletR unit :=
  if 10000 <? len script then Err "Script too large"%string
  else if 200 <? len (filter (fun b => 75 < b) script) then Err "Too many opcodes"%string
  else Ok tt.

(** * The builder of rusty-core *)

Inductive TransactionBuilderError : Type :=
| BuilderInsufficientFunds
| BuilderNoUtxosAvailable
| BuilderUtxoNotFound (id : OutPoint)
| BuilderGenericError (msg : string)
| BuilderInvalidInput.

Definition utxo_value_le (a b : OutPoint * Utxo) : Prop := value (output a.2) <= value (output b.2).

#[export] Instance utxo_value_le_dec : RelDecision utxo_value_le :=
  fun a b => decide (value (output a.2) <= value (output b.2)).

(** The loop over the sorted outputs; [n] inputs worth [current] so far. *)
Fixpoint select_loop_core (amount_needed fee_per_byte n current : Z) (l : list (OutPoint * Utxo)) :
    option (list TxInput * Z) :=
  match l with
  | [] => None
  | (id, utxo) :: rest =>
      let input := TxInput_from_outpoint id [] 0xFFFFFFFF [] in
      let current := u64_add current (value (output utxo)) in
      let n := n + 1 in
      let fee := u64_mul (wrap64 (n * 100 + 2 * 100)) fee_per_byte in
      if u64_add amount_needed fee <=? current then Some ([input], current)
      else '(inputs, total) ← select_loop_core amount_needed fee_per_byte n current rest; Some (input :: inputs, total)
  end.

Definition select_utxos (iter : gmap OutPoint Utxo -> list (OutPoint * Utxo)) (available : gmap OutPoint Utxo)
    (amount_needed fee_per_byte : Z) : outcome TransactionBuilderError (list TxInput * Z) :=
  ok_or (select_loop_core amount_needed fee_per_byte 0 0 (merge_sort utxo_value_le (iter available))) BuilderInsufficientFunds.

Definition calculate_transaction_fee (tx : Transaction) (fee_per_byte : Z) : Z :=
  u64_mul (wrap64 (100 + input_count tx * 100 + output_count tx * 100)) fee_per_byte.

Definition builder_input_count (tx : Transaction) : Z :=
  match tx with
  | Standard _ inputs _ _ _ _ => len inputs
  | TicketPurchase _ inputs _ _ _ _ _ _ _ => len inputs
  | TicketRedemption _ inputs _ _ _ _ _ => len inputs
  | _ => 0
  end.

Definition builder_output_count (tx : Transaction) : Z :=
  match tx with
  | Standard _ _ outputs _ _ _ => len outputs
  | TicketPurchase _ _ outputs _ _ _ _ _ _ => len outputs
  | TicketRedemption _ _ outputs _ _ _ _ => len outputs
  | _ => 0
  end.

Definition build_standard_transaction (inputs : list TxInput) (outputs : list TxOutput) (fee : Z) :
    outcome TransactionBuilderError Transaction := Ok (Standard 1 inputs outputs 0 fee []).

Record StandardTransaction : Type := mkStandardTransaction {
  st_version : Z;
  st_inputs : list TxInput;
  st_outputs : list TxOutput;
  st_lock_time : Z;
  st_fee : Z;
  st_witness : list bytes;
}.

Definition build_ticket_purchase_transaction (tx : StandardTransaction) (ticket_id : bytes) (locked_amount : Z)
    (ticket_address : bytes) : Transaction :=
  TicketPurchase (st_version tx) (st_inputs tx) (st_outputs tx) ticket_id locked_amount (st_lock_time tx)
    (st_fee tx) ticket_address [].

Definition build_ticket_redemption_transaction (tx : StandardTransaction) (ticket_id : bytes) : Transaction :=
  TicketRedemption (st_version tx) (st_inputs tx) (st_outputs tx) ticket_id (st_lock_time tx) (st_fee tx) [].

Definition create_coinbase_transaction (miner_address : bytes) (block_height block_reward : Z) : Transaction :=
  Coinbase 1 [TxInput_from_outpoint (mkOutPoint (replicate 32 0) 0xFFFFFFFF) (to_le_bytes 8 block_height) 0xFFFFFFFF []]
    [mkTxOutput block_reward miner_address None] 0 [].

(** * The builder of the wallet *)

Record UtxoInfo : Type := mkUtxoInfo {
  info_outpoint : OutPoint;
  amount : Z;
  info_script_pubkey : bytes;
  info_block_height : Z;
  info_is_coinbase : bool;
  confirmations : Z;
  spent : bool;
}.

Definition is_spendable (u : UtxoInfo) (current_height : Z) : bool :=
  negb (spent u) && (if info_is_coinbase u then 100 <=? confirmations u else 0 <? confirmations u).

Definition current_confirmations (u : UtxoInfo) (current_height : Z) : Z :=
  if info_block_height u <=? current_height then wrap64 (current_height - info_block_height u + 1) else 0.

Record WalletBuilder : Type := mkWalletBuilder {
  available_utxos : gmap OutPoint UtxoInfo;
  builder_height : Z;
}.

Definition WalletBuilder_new : WalletBuilder := mkWalletBuilder ∅ 0.

Definition set_current_height (height : Z) (b : WalletBuilder) : WalletBuilder := b <| builder_height := height |>.

Definition BASE_TX_SIZE : Z := 10.
Definition INPUT_SIZE : Z := 148.
Definition OUTPUT_SIZE : Z := 34.
Definition WALLET_MIN_RELAY_FEE : Z := 1.

Definition estimate_transaction_size (input_count output_count : Z) : Z :=
  wrap64 (BASE_TX_SIZE + input_count * INPUT_SIZE + output_count * OUTPUT_SIZE).

Definition estimate_fee_for_amount (amount : Z) : Z := u64_mul (estimate_transaction_size 1 2) 10.

(** The sum of amounts, wrapping. *)
Definition sum64 (l : list Z) : Z := foldl u64_add 0 l.

(** Largest first. *)
Definition amount_ge (a b : UtxoInfo) : Prop := amount b <= amount a.

#[export] Instance amount_ge_dec : RelDecision amount_ge := fun a b => decide (amount b <= amount a).

Section Builder.
  Context `{P : Primitives, A : AuthKeys, W : !WalletCrypto}.
  Context (iter : gmap OutPoint UtxoInfo -> list (OutPoint * UtxoInfo)).
  Context (hex_decode : string -> option bytes) (bincode_outpoint : OutPoint -> option bytes).

(** [unwrap_or_default]; the hash has 32 bytes. *)
Definition generate_p2pkh_script_pubkey (o : OutPoint) : bytes :=
  create_p2pkh_script (take 20 (blake3 (default [] (bincode_outpoint o)))).

Definition wallet_add_utxo (txid_hex : string) (vout amount : Z) : stM WalletBuilder string unit :=
  txid ← lift (ok_or (hex_decode txid_hex) "Invalid txid hex"%string);
  if negb (len txid =? 32) then throw "Invalid txid length, expected 32 bytes"%string
  else
    let o := mkOutPoint txid (wrap32 vout) in
    modify (fun b => b <| available_utxos ::= <[o := mkUtxoInfo o amount (generate_p2pkh_script_pubkey o)
                                                    (builder_height b) false 1 false]> |>).

Definition add_utxo_full (u : UtxoInfo) : stM WalletBuilder string unit :=
  modify (fun b => b <| available_utxos ::= <[info_outpoint u := u]> |>).

Definition get_spendable_utxos (b : WalletBuilder) : list UtxoInfo :=
  filter (fun u => is_spendable u (builder_height b) = true) (iter (available_utxos b)).*2.

Definition get_spendable_balance (b : WalletBuilder) : Z := sum64 (amount <$> get_spendable_utxos b).

Definition largest_first (b : WalletBuilder) : list UtxoInfo := merge_sort amount_ge (get_spendable_utxos b).

(** Take until the total reaches the target, testing after each. *)
Fixpoint take_after (target total : Z) (l : list UtxoInfo) : list UtxoInfo * Z :=
  match l with
  | [] => ([], total)
  | u :: rest =>
      let total := u64_add total (amount u) in
      if target <=? total then ([u], total)
      else let '(us, t) := take_after target total rest in (u :: us, t)
  end.

Definition select_utxos_for_amount (b : WalletBuilder) (target_amount : Z) : walletR (list UtxoInfo) :=
  let '(selected, total) := take_after target_amount 0 (largest_first b) in
  if total <? target_amount then Err "Insufficient funds"%string else Ok selected.

(** The same, testing before each and with checked addition. *)
Fixpoint take_before (target total : Z) (l : list UtxoInfo) : walletR (list UtxoInfo * Z) :=
  match l with
  | [] => Ok ([], total)
  | u :: rest =>
      if target <=? total then Ok ([], total)
      else if u64_max <? total + amount u then Err "UTXO amount overflow"%string
      else
        '(us, t) ← take_before target (total + amount u) rest;
        Ok (u :: us, t)
  end.

Definition select_utxos_greedy (b : WalletBuilder) (target_amount : Z) : walletR (list UtxoInfo) :=
  '(selected, total) ← take_before target_amount 0 (largest_first b);
  if total <? target_amount then Err "Insufficient funds"%string else Ok selected.

Definition mark_utxo_spent (o : OutPoint) : stM WalletBuilder string unit := fun b =>
  match available_utxos b !! o with
  | Some u => (b <| available_utxos ::= <[o := u <| spent := true |>]> |>, Ok tt)
  | None => (b, Err "UTXO not found"%string)
  end.

Definition validate_fee_compliance (inputs : list TxInput) (outputs : list TxOutput) (actual_fee : Z) : walletR unit :=
  let estimated := estimate_transaction_size (len inputs) (len outputs) in
  if actual_fee <? u64_mul WALLET_MIN_RELAY_FEE estimated then Err "Fee is below minimum relay fee"%string else Ok tt.

(** Only the first of the selected coins becomes an input. *)
Definition build_transaction (b : WalletBuilder) (recipient_address : string) (amount_sent fee_per_byte : Z)
    (wallet : HDWallet) : walletR Transaction :=
  wallet_key ← public_key_bytes wallet;
  recipient ← ok_or (hex_decode recipient_address) "Invalid recipient address"%string;
  let estimated_fee := u64_mul fee_per_byte (estimate_transaction_size 1 2) in
  let total_needed := u64_add amount_sent estimated_fee in
  selected ← select_utxos_for_amount b total_needed;
  let total_input_value := sum64 (amount <$> selected) in
  let change := if total_needed <? total_input_value then total_input_value - total_needed else 0 in
  match selected with
  | [] => Err "No UTXOs selected"%string
  | u :: _ =>
      let input := TxInput_from_outpoint (info_outpoint u) [] 0xFFFFFFFF [] in
      let outputs := mkTxOutput amount_sent recipient None ::
        (if 1000 <? change then [mkTxOutput change wallet_key (Some (string_bytes "change"))] else []) in
      let v_in := amount u in
      let v_out := sum64 (value <$> outputs) in
      if v_in <? v_out then Err "Insufficient funds: input value < output value"%string
      else
        let actual_fee := v_in - v_out in
        validate_fee_compliance [input] outputs actual_fee;;
        Ok (Standard 1 [input] outputs 0 actual_fee [])
  end.

(** ** Signing *)

(** The inputs as they are hashed for the signature of one of them. *)
Definition sighash_inputs (inputs : list TxInput) (input_index : nat) (script_pubkey : bytes) : list TxInput :=
  imap (fun i input =>
    TxInput_from_outpoint (previous_output input) (if (i =? input_index)%nat then script_pubkey else [])
      (sequence input) (input_witness input)) inputs.

Definition calculate_sighash_for_input (version : Z) (inputs : list TxInput) (outputs : list TxOutput)
    (lock_time : Z) (input_index : nat) (script_pubkey : bytes) : walletR bytes :=
  if len inputs <=? Z.of_nat input_index then Err "Input index out of bounds"%string
  else
    serialized ← ok_or (bincode_transaction
      (Standard version (sighash_inputs inputs input_index script_pubkey) outputs lock_time 0 []))
      "Failed to serialize transaction for sighash"%string;
    Ok (blake3 serialized).

Definition create_p2pkh_script_sig (signature public_key : bytes) : walletR bytes :=
  if 75 <? len signature then Err "Signature too large"%string
  else if 75 <? len public_key then Err "Public key too large"%string
  else Ok ([wrap8 (len signature)] ++ signature ++ [wrap8 (len public_key)] ++ public_key).

Definition create_script_sig_for_utxo (signature public_key script_pubkey : bytes) : walletR bytes :=
  if is_p2pkh_script script_pubkey then create_p2pkh_script_sig signature public_key
  else if is_p2pk_script script_pubkey then Ok signature
  else if is_p2sh_script script_pubkey then Err "P2SH scriptSig creation not yet implemented"%string
  else if is_multisig_script script_pubkey then Err "Multisig scriptSig creation not yet implemented"%string
  else Err "Unknown script_pubkey type, cannot create scriptSig"%string.

(** One round of the loop: the signature script of the input [i]. *)
Definition script_sig_for (b : WalletBuilder) (wallet : HDWallet) (version : Z) (inputs : list TxInput)
    (outputs : list TxOutput) (lock_time : Z) (i : nat) (input : TxInput) : walletR bytes :=
  info ← ok_or (available_utxos b !! previous_output input) "Cannot find UTXO for input"%string;
  sighash ← calculate_sighash_for_input version inputs outputs lock_time i (info_script_pubkey info);
  signature ← wallet_sign wallet sighash;
  key ← public_key_bytes wallet;
  create_script_sig_for_utxo signature key (info_script_pubkey info).

(** The loop; the inputs before a failure are signed already. *)
Fixpoint sign_inputs (f : nat -> TxInput -> walletR bytes) (i : nat) (l : list TxInput) : list TxInput * walletR unit :=
  match l with
  | [] => ([], Ok tt)
  | input :: rest =>
      match f i input with
      | Ok sig =>
          let '(rest, r) := sign_inputs f (S i) rest in (input <| script_sig := sig |> :: rest, r)
      | Err e => (l, Err e)
      | Panic => (l, Panic)
      | OutOfFuel => (l, OutOfFuel)
      end
  end.

Definition wallet_sign_transaction (b : WalletBuilder) (wallet : HDWallet) : stM Transaction string unit := fun tx =>
  match tx with
  | Standard version inputs outputs lock_time fee witness =>
      let '(signed, r) := sign_inputs (script_sig_for b wallet version inputs outputs lock_time) 0 inputs in
      (Standard version signed outputs lock_time fee witness, r)
  | _ => (tx, Err "Unsupported transaction type for signing"%string)
  end.

Definition calculate_max_sendable_amount (b : WalletBuilder) : Z :=
  let balance := get_spendable_balance b in
  let fee := estimate_fee_for_amount balance in
  if balance <=? fee then 0 else balance - fee.

(** ** Coins from the node *)

(** A coin as the node reports it: transaction in hex, output, value, script,
    confirmations. *)
Record RpcUtxo : Type := mkRpcUtxo {
  rpc_txid : string;
  rpc_vout : Z;
  rpc_value : Z;
  rpc_script_pubkey : bytes;
  rpc_confirmations : Z;
}.

Definition load_utxo (u : RpcUtxo) : stM WalletBuilder string unit :=
  txid ← lift (ok_or (hex_decode (rpc_txid u)) "Failed to decode txid"%string);
  if negb (len txid =? 32) then throw "Invalid txid length"%string
  else
    let o := mkOutPoint txid (rpc_vout u) in
    modify (fun b => b <| available_utxos ::=
      <[o := mkUtxoInfo o (rpc_value u) (rpc_script_pubkey u) 0 false (rpc_confirmations u) false]> |>).

(** [utxos] is the answer of the node. *)
Definition refresh_utxos_from_node (utxos : walletR (list RpcUtxo)) : stM WalletBuilder string Z :=
  utxos ← lift utxos;
  modify (fun b => b <| available_utxos := ∅ |>);;
  for_each utxos load_utxo;;
  gets (fun b => Z.of_nat (size (available_utxos b))).

(** ** Several outputs *)

Definition is_op_return (t : ScriptType) : bool := match t with OpReturn _ => true | _ => false end.

(** The loop over the requested outputs. *)
Fixpoint typed_outputs (total : Z) (l : list (ScriptType * Z)) : walletR (list TxOutput * Z) :=
  match l with
  | [] => Ok ([], total)
  | (t, a) :: rest =>
      if negb (is_op_return t) && (a <? 1000) then Err "Output below dust limit"%string
      else
        script ← to_script_pubkey t;
        if u64_max <? total + a then Err "Output value overflow"%string
        else
          '(outs, total) ← typed_outputs (total + a) rest;
          Ok (mkTxOutput a script None :: outs, total)
  end.

Definition mark_if_known (b : WalletBuilder) (o : OutPoint) : WalletBuilder :=
  b <| available_utxos ::= alter (fun u => u <| spent := true |>) o |>.

Definition build_transaction_with_script_types (outputs : list (ScriptType * Z)) (fee_per_byte : Z)
    (wallet : HDWallet) : stM WalletBuilder string Transaction :=
  '(tx_outputs, total_output_value) ← lift (typed_outputs 0 outputs);
  let estimated_fee := u64_mul (estimate_transaction_size 1 (len tx_outputs)) fee_per_byte in
  let total_needed := u64_add total_output_value estimated_fee in
  b ← gets Datatypes.id;
  selected ← lift (select_utxos_greedy b total_needed);
  let input_value := sum64 (amount <$> selected) in
  if input_value <? total_needed then throw "Insufficient funds"%string
  else
    let target_fee := u64_mul (estimate_transaction_size (len selected) (len tx_outputs)) fee_per_byte in
    let change := u64_saturating_sub input_value (u64_add total_output_value target_fee) in
    change_outputs ← (if 1000 <? change
                      then key ← lift (public_key_bytes wallet);
                           mret [mkTxOutput change (create_p2pkh_script (take 20 (blake3 key))) (Some (string_bytes "change"))]
                      else mret []);
    let inputs := (fun u => TxInput_from_outpoint (info_outpoint u) [] 0xFFFFFFFF []) <$> selected in
    modify (fun b => foldl mark_if_known b (info_outpoint <$> selected));;
    mret (Standard 1 inputs (tx_outputs ++ change_outputs) 0 target_fee []).

Definition create_p2pkh_output (address_hash : bytes) (a : Z) : ScriptType * Z := (P2PKH address_hash, a).
Definition create_p2sh_output (script_hash : bytes) (a : Z) : ScriptType * Z := (P2SH script_hash, a).

Definition create_multisig_output (m : Z) (pubkeys : list bytes) (a : Z) : walletR (ScriptType * Z) :=
  if multisig_ok m pubkeys then Ok (Multisig m pubkeys, a) else Err "Invalid multisig parameters"%string.

Definition create_op_return_output (data : bytes) : walletR (ScriptType * Z) :=
  if 80 <? len data then Err "OP_RETURN data too large"%string else Ok (OpReturn data, 0).

End Builder.

(** * Sums without overflow *)

Definition total (l : list Z) : Z := foldr Z.add 0 l.

Lemma total_app l k : total (l ++ k) = total l + total k.
Proof. unfold total. induction l as [|x l IH]; cbn; lia. Qed.

Lemma total_cons x l : total (x :: l) = x + total l.
Proof. done. Qed.

Lemma total_nonneg l : Forall (Z.le 0) l -> 0 <= total l.
Proof. unfold total. induction 1; cbn; lia. Qed.

Lemma total_perm l k : l ≡ₚ k -> total l = total k.
Proof. unfold total. induction 1; cbn; lia. Qed.

#[export] Instance total_proper : Proper ((≡ₚ) ==> (=)) total.
Proof. intros l k. apply total_perm. Qed.

Lemma sum64_total l : Forall (Z.le 0) l -> total l <= u64_max -> sum64 l = total l.
Proof.
  unfold sum64. intros Hl Ht. enough (H : forall acc, 0 <= acc -> acc + total l <= u64_max -> foldl u64_add acc l = acc + total l)
    by (rewrite H; lia).
  clear Ht. induction Hl as [|x l Hx Hl IH]; intros acc Ha Hs; [cbn; lia|].
  change (total (x :: l)) with (x + total l) in *. pose proof (total_nonneg l Hl).
  cbn [foldl]. unfold u64_add at 2. rewrite wrap64_small by lia. rewrite IH by lia. lia.
Qed.

(** * Selection of coins *)

Section CoinTheorems.
  Context (iter : gmap OutPoint UtxoInfo -> list (OutPoint * UtxoInfo)).
  Context (iter_lists : forall m, iter m ≡ₚ map_to_list m).

(** Coins filed under their own outpoint, with amounts that add up to a
    64-bit number. *)
Definition coins_ok (b : WalletBuilder) : Prop :=
  map_Forall (fun o u => info_outpoint u = o /\ 0 <= amount u) (available_utxos b) /\
  total (amount <$> (map_to_list (available_utxos b)).*2) <= u64_max.

Lemma largest_first_perm b : largest_first iter b ≡ₚ filter (fun u => is_spendable u (builder_height b) = true) (map_to_list (available_utxos b)).*2.
Proof using iter_lists. unfold largest_first, get_spendable_utxos. by rewrite merge_sort_Permutation, iter_lists. Qed.

Lemma largest_first_elem b u :
  coins_ok b -> u ∈ largest_first iter b <->
  available_utxos b !! info_outpoint u = Some u /\ is_spendable u (builder_height b) = true.
Proof using iter_lists.
  intros [Hc _]. rewrite largest_first_perm, list_elem_of_filter, list_elem_of_fmap. split.
  - intros (Hs & [o v] & -> & Hv). apply elem_of_map_to_list in Hv. cbn. destruct (Hc o v Hv) as [-> _]. done.
  - intros [Hu Hs]. split; [done|]. exists (info_outpoint u, u). by rewrite elem_of_map_to_list.
Qed.

Lemma largest_first_amounts b :
  coins_ok b -> Forall (Z.le 0) (amount <$> largest_first iter b) /\ total (amount <$> largest_first iter b) <= u64_max.
Proof using iter_lists.
  intros Hok. assert (Hnn : Forall (Z.le 0) (amount <$> (map_to_list (available_utxos b)).*2)).
  { apply Forall_fmap, Forall_fmap, Forall_forall. intros [o u] Hu. apply elem_of_map_to_list in Hu. by apply Hok in Hu as [_ ?]. }
  split.
  - apply Forall_fmap, Forall_forall. intros u Hu. apply largest_first_elem in Hu as [Hu _]; [|done]. by apply Hok in Hu as [_ ?].
  - destruct Hok as [_ Ht]. rewrite largest_first_perm.
    set (l := (map_to_list (available_utxos b)).*2) in *. clearbody l.
    enough (total (amount <$> filter (fun u => is_spendable u (builder_height b) = true) l) <= total (amount <$> l)) by lia.
    clear Ht. induction l as [|u l IH]; [done|]. apply Forall_cons in Hnn as [Hu Hl]. specialize (IH Hl).
    rewrite filter_cons. rewrite !fmap_cons. unfold total in *. cbn in Hu. destruct (decide _); cbn; lia.
Qed.

Lemma largest_first_nodup b : coins_ok b -> NoDup (info_outpoint <$> largest_first iter b).
Proof using iter_lists.
  intros [Hc _]. rewrite largest_first_perm. apply (sublist_NoDup _ (info_outpoint <$> (map_to_list (available_utxos b)).*2)).
  - assert (He : info_outpoint <$> (map_to_list (available_utxos b)).*2 = (map_to_list (available_utxos b)).*1).
    { rewrite <- list_fmap_compose. apply list_fmap_ext. intros i [o u] Hi. apply list_elem_of_lookup_2, elem_of_map_to_list in Hi.
      by apply Hc in Hi as [? _]. }
    rewrite He. apply NoDup_fst_map_to_list.
  - apply fmap_sublist, sublist_filter.
Qed.

(** The loop of the greedy selection takes the shortest prefix that reaches
    the target, or everything. *)
Lemma take_before_spec target acc l :
  Forall (Z.le 0) (amount <$> l) -> 0 <= acc -> acc + total (amount <$> l) <= u64_max ->
  exists sel rest, take_before target acc l = Ok (sel, acc + total (amount <$> sel)) /\ l = sel ++ rest /\
    (rest = [] \/ target <= acc + total (amount <$> sel)) /\
    (forall k, (k < length sel)%nat -> acc + total (amount <$> take k sel) < target).
Proof.
  revert acc. induction l as [|u l IH]; intros acc Hl Ha Hs; cbn [take_before].
  { exists [], []. cbn. split_and!; [f_equal; f_equal; lia|done|by left|intros; lia]. }
  rewrite fmap_cons in Hl, Hs. apply Forall_cons in Hl as [Hu Hl]. change (total (amount u :: (amount <$> l))) with (amount u + total (amount <$> l)) in Hs.
  pose proof (total_nonneg _ Hl).
  destruct (Z.leb_spec target acc) as [Hta|Hta].
  { exists [], (u :: l). cbn. split_and!; [f_equal; f_equal; lia|done|right; lia|intros; lia]. }
  destruct (Z.ltb_spec u64_max (acc + amount u)); [lia|].
  destruct (IH (acc + amount u) Hl ltac:(lia) ltac:(lia)) as (sel & rest & -> & -> & Hr & Hk).
  exists (u :: sel), rest. rewrite fmap_cons. change (total (amount u :: (amount <$> sel))) with (amount u + total (amount <$> sel)).
  split; [cbn; do 2 f_equal; lia|]. split; [done|]. split; [destruct Hr as [->|]; [by left|right; lia]|].
  intros [|k] Hlt; [cbn; lia|]. cbn [length] in Hlt. specialize (Hk k ltac:(lia)). cbn [take]. rewrite fmap_cons.
  change (total (amount u :: (amount <$> take k sel))) with (amount u + total (amount <$> take k sel)). lia.
Qed.

(** With a target ahead, testing after each coin or before each is the same. *)
Lemma take_after_before target acc l :
  Forall (Z.le 0) (amount <$> l) -> 0 <= acc -> acc + total (amount <$> l) <= u64_max -> acc < target ->
  take_before target acc l = Ok (take_after target acc l).
Proof.
  revert acc. induction l as [|u l IH]; intros acc Hl Ha Hs Ht; cbn [take_before take_after]; [done|].
  rewrite fmap_cons in Hl, Hs. apply Forall_cons in Hl as [Hu Hl]. change (total (amount u :: (amount <$> l))) with (amount u + total (amount <$> l)) in Hs.
  pose proof (total_nonneg _ Hl). destruct (Z.leb_spec target acc); [lia|].
  destruct (Z.ltb_spec u64_max (acc + amount u)); [lia|].
  unfold u64_add. rewrite wrap64_small by lia. destruct (Z.leb_spec target (acc + amount u)) as [Hr|Hr].
  - assert (E : take_before target (acc + amount u) l = Ok ([], acc + amount u))
      by (destruct l; cbn [take_before]; [done|]; by rewrite (proj2 (Z.leb_le target (acc + amount u)) Hr)).
    by rewrite E.
  - rewrite IH by (done || lia). cbn. by destruct (take_after _ _ _).
Qed.

(** The greedy selection is a shortest sufficient prefix of the sorted coins. *)
Lemma greedy_selection_prefix b target :
  coins_ok b ->
  if target <=? total (amount <$> largest_first iter b)
  then exists sel rest, select_utxos_greedy iter b target = Ok sel /\ largest_first iter b = sel ++ rest /\
    target <= total (amount <$> sel) /\
    (forall k, (k < length sel)%nat -> total (amount <$> take k sel) < target)
  else select_utxos_greedy iter b target = Err "Insufficient funds"%string.
Proof using iter_lists.
  intros Hok. destruct (largest_first_amounts b Hok) as [Hnn Hmax]. unfold select_utxos_greedy.
  destruct (take_before_spec target 0 (largest_first iter b) Hnn ltac:(lia) ltac:(lia)) as (sel & rest & -> & He & Hr & Hk).
  cbn. rewrite He, fmap_app, total_app. rewrite He, fmap_app in Hnn. apply Forall_app in Hnn as [_ Hrest].
  pose proof (total_nonneg _ Hrest). rewrite Z.add_0_l in *.
  destruct (Z.leb_spec target (total (amount <$> sel) + total (amount <$> rest))).
  - exists sel, rest. assert (target <= total (amount <$> sel)) by (destruct Hr as [->|]; [cbn in *; lia|lia]).
    destruct (Z.ltb_spec (total (amount <$> sel)) target); [lia|]. by split_and!.
  - by destruct (Z.ltb_spec (total (amount <$> sel)) target); [|lia].
Qed.

Lemma largest_first_sorted b : StronglySorted amount_ge (largest_first iter b).
Proof.
  assert (Transitive amount_ge) by (intros x y z; unfold amount_ge; lia).
  apply StronglySorted_merge_sort; [done|]. intros x y. unfold amount_ge. lia.
Qed.

(** The spendable coins of a builder, whatever the order of the map. *)
Definition spendable_coins (b : WalletBuilder) : list UtxoInfo :=
  filter (fun u => is_spendable u (builder_height b) = true) (map_to_list (available_utxos b)).*2.

(** C39. The greedy selection, for coins filed under their own outpoints whose
    amounts add up to a 64-bit number and whatever the iteration order of the
    map: when the spendable coins reach the target it returns some of them,
    none twice, that reach it; no coin left out is larger than a selected one,
    and without its last coin the selection falls short of the target.
    Otherwise it fails with "Insufficient funds". *)
Theorem greedy_selection_spec b target :
  coins_ok b ->
  if target <=? total (amount <$> spendable_coins b)
  then exists sel rest, select_utxos_greedy iter b target = Ok sel /\ spendable_coins b ≡ₚ sel ++ rest /\
    (forall u v, u ∈ sel -> v ∈ rest -> amount v <= amount u) /\
    target <= total (amount <$> sel) /\
    (forall k, (k < length sel)%nat -> total (amount <$> take k sel) < target)
  else select_utxos_greedy iter b target = Err "Insufficient funds"%string.
Proof using iter_lists.
  intros Hok. pose proof (greedy_selection_prefix b target Hok) as Hg. unfold spendable_coins.
  rewrite <- (total_perm _ _ (fmap_Permutation amount _ _ (largest_first_perm b))).
  destruct (target <=? _); [|done]. destruct Hg as (sel & rest & Hs & He & Ht & Hk).
  exists sel, rest. split_and!; try done.
  - by rewrite <- largest_first_perm, He.
  - pose proof (largest_first_sorted b) as Hso. rewrite He in Hso. intros u v Hu Hv.
    by apply (StronglySorted_app_1_elem_of _ _ _ u v Hso).
Qed.

(** The two selection functions of the wallet agree on every positive
    target. *)
Theorem selections_agree b target :
  coins_ok b -> 0 < target -> select_utxos_for_amount iter b target = select_utxos_greedy iter b target.
Proof using iter_lists.
  intros Hok Ht. destruct (largest_first_amounts b Hok) as [Hnn Hmax].
  unfold select_utxos_for_amount, select_utxos_greedy. rewrite take_after_before by (done || lia). cbn.
  by destruct (take_after _ _ _).
Qed.

End CoinTheorems.

(** * Transactions *)

Section BuildTheorems.
  Context `{P : Primitives, A : AuthKeys, W : !WalletCrypto}.
  Context (iter : gmap OutPoint UtxoInfo -> list (OutPoint * UtxoInfo)).
  Context (iter_lists : forall m, iter m ≡ₚ map_to_list m).
  Context (hex_decode : string -> option bytes).

Lemma take_after_prefix target acc l : exists rest, l = (take_after target acc l).1 ++ rest.
Proof.
  revert acc. induction l as [|u l IH]; intros acc; cbn [take_after]; [by exists []|].
  destruct (target <=? u64_add acc (amount u)); [by exists l|].
  destruct (IH (u64_add acc (amount u))) as [rest Hr]. destruct (take_after target (u64_add acc (amount u)) l) as [us t].
  cbn in *. exists rest. by rewrite Hr at 1.
Qed.

(** A prefix of the coins adds up without overflow. *)
Lemma prefix_sum b sel rest :
  coins_ok b -> largest_first iter b = sel ++ rest ->
  Forall (Z.le 0) (amount <$> sel) /\ total (amount <$> sel) <= u64_max /\ sum64 (amount <$> sel) = total (amount <$> sel).
Proof using iter_lists.
  intros Hok He. destruct (largest_first_amounts iter iter_lists b Hok) as [Hnn Hmax].
  rewrite He, fmap_app in Hnn, Hmax. rewrite total_app in Hmax. apply Forall_app in Hnn as [Hs Hr].
  pose proof (total_nonneg _ Hr). split; [done|]. split; [lia|]. apply sum64_total; [done|lia].
Qed.

(** A transaction of [build_transaction] spends one spendable coin, which is
    worth exactly its outputs and its fee; the fee is at least one unit per
    estimated byte, and the first output pays what was asked to whom it was
    asked. *)
Theorem build_transaction_value b addr a fee_per_byte wallet tx :
  coins_ok b -> 0 <= a -> 0 <= fee_per_byte -> a + fee_per_byte * 226 <= u64_max ->
  build_transaction iter hex_decode b addr a fee_per_byte wallet = Ok tx ->
  exists u recipient change fee,
    available_utxos b !! info_outpoint u = Some u /\ is_spendable u (builder_height b) = true /\
    hex_decode addr = Some recipient /\
    tx = Standard 1 [TxInput_from_outpoint (info_outpoint u) [] 0xFFFFFFFF []]
           (mkTxOutput a recipient None :: change) 0 fee [] /\
    amount u = a + total (value <$> change) + fee /\ 192 + 34 * len change <= fee.
Proof using iter_lists.
  intros Hok Ha Hf Hmax. unfold build_transaction. intros Hb.
  apply outcome_bind_inv in Hb as (key & _ & Hb). apply outcome_bind_inv in Hb as (recipient & Hrec & Hb).
  apply outcome_bind_inv in Hb as (sel & Hsel & Hb).
  change (estimate_transaction_size 1 2) with 226 in *.
  unfold u64_mul, u64_add in Hsel, Hb. rewrite !(wrap64_small (fee_per_byte * 226)) in Hsel, Hb by lia.
  rewrite !(wrap64_small (a + fee_per_byte * 226)) in Hsel, Hb by lia. set (needed := a + fee_per_byte * 226) in *.
  unfold select_utxos_for_amount in Hsel. destruct (take_after_prefix needed 0 (largest_first iter b)) as [rest Hp].
  destruct (take_after needed 0 (largest_first iter b)) as [us t]. cbn [fst] in Hp.
  destruct (t <? needed); [done|]. injection Hsel as ->.
  destruct (prefix_sum b sel rest Hok Hp) as (Hnn & Hle & Hsum). rewrite Hsum in Hb.
  destruct sel as [|u sel]; [done|].
  assert (Hu : u ∈ largest_first iter b) by (rewrite Hp; by left).
  apply (largest_first_elem iter iter_lists) in Hu as [Hlook Hspend]; [|done].
  set (change_amount := if needed <? _ then _ else 0) in Hb.
  assert (Hc : 0 <= change_amount /\ a + change_amount <= u64_max).
  { unfold change_amount. destruct (Z.ltb_spec needed (total (amount <$> u :: sel))); unfold needed in *; lia. }
  set (change := if 1000 <? change_amount then _ else []) in Hb.
  assert (Hch : Forall (Z.le 0) (value <$> change) /\ a + total (value <$> change) <= u64_max).
  { unfold change. destruct (1000 <? change_amount); cbn; [split; [repeat constructor; lia|lia]|split; [constructor|lia]]. }
  destruct Hch as [Hch1 Hch2]. pose proof (total_nonneg _ Hch1).
  rewrite fmap_cons in Hb. rewrite (sum64_total (value (mkTxOutput a recipient None) :: (value <$> change))) in Hb;
    [|by apply Forall_cons; split; [exact Ha|exact Hch1]|exact Hch2].
  change (total (value (mkTxOutput a recipient None) :: (value <$> change))) with (a + total (value <$> change)) in Hb.
  destruct (Z.ltb_spec (amount u) (a + total (value <$> change))); [done|].
  apply outcome_bind_inv in Hb as ([] & Hfee & Hb). injection Hb as <-.
  exists u, recipient, change, (amount u - (a + total (value <$> change))).
  destruct (hex_decode addr) as [r|]; [|done]. injection Hrec as ->. split_and!; try done; [lia|].
  unfold validate_fee_compliance in Hfee. destruct (Z.ltb_spec (amount u - (a + total (value <$> change)))
    (u64_mul WALLET_MIN_RELAY_FEE (estimate_transaction_size (len [TxInput_from_outpoint (info_outpoint u) [] 4294967295 []])
      (len (mkTxOutput a recipient None :: change))))) as [|Hge]; [done|].
  enough (u64_mul WALLET_MIN_RELAY_FEE (estimate_transaction_size (len [TxInput_from_outpoint (info_outpoint u) [] 4294967295 []])
      (len (mkTxOutput a recipient None :: change))) = 192 + 34 * len change) by lia.
  unfold change. destruct (1000 <? change_amount); reflexivity.
Qed.

(** ** Several outputs *)

Lemma typed_outputs_spec acc l outs t :
  typed_outputs acc l = Ok (outs, t) -> acc <= u64_max ->
  value <$> outs = l.*2 /\ t = acc + total l.*2 /\ t <= u64_max.
Proof.
  revert acc outs t. induction l as [|[ty a] l IH]; intros acc outs t; cbn [typed_outputs].
  { intros [= <- <-] Ha. cbn. split_and!; [done|lia|done]. }
  destruct (_ && _); [done|]. intros (sc & _ & Hb)%outcome_bind_inv Ha.
  destruct (Z.ltb_spec u64_max (acc + a)); [done|]. apply outcome_bind_inv in Hb as ([outs' t'] & Hr & Hb).
  injection Hb as <- <-. destruct (IH _ _ _ Hr ltac:(lia)) as (H1 & H2 & H3).
  rewrite !fmap_cons, H1. cbn [value fst snd]. change (total (a :: l.*2)) with (a + total l.*2). split_and!; [done|lia|done].
Qed.

Definition coin_input (u : UtxoInfo) : TxInput := TxInput_from_outpoint (info_outpoint u) [] 0xFFFFFFFF [].

(** What a successful build has done. *)
Lemma typed_build_inv outputs fee_per_byte wallet b b' tx :
  build_transaction_with_script_types iter outputs fee_per_byte wallet b = (b', Ok tx) ->
  exists outs t sel change,
    typed_outputs 0 outputs = Ok (outs, t) /\
    (let needed := u64_add t (u64_mul (estimate_transaction_size 1 (len outs)) fee_per_byte) in
     select_utxos_greedy iter b needed = Ok sel /\ needed <= sum64 (amount <$> sel)) /\
    (let fee := u64_mul (estimate_transaction_size (len sel) (len outs)) fee_per_byte in
     let left := u64_saturating_sub (sum64 (amount <$> sel)) (u64_add t fee) in
     value <$> change = (if 1000 <? left then [left] else []) /\
     tx = Standard 1 (coin_input <$> sel) (outs ++ change) 0 fee []) /\
    b' = foldl mark_if_known b (info_outpoint <$> sel).
Proof.
  unfold build_transaction_with_script_types. intros Hb.
  apply stM_bind_ok in Hb as (s1 & [outs t] & H1 & Hb). injection H1 as <- H1.
  apply stM_bind_ok in Hb as (s2 & b0 & H2 & Hb). injection H2 as <- <-.
  apply stM_bind_ok in Hb as (s3 & sel & H3 & Hb). injection H3 as <- H3.
  set (needed := u64_add t _) in *. destruct (Z.ltb_spec (sum64 (amount <$> sel)) needed); [done|].
  apply stM_bind_ok in Hb as (s4 & change & H4 & Hb). apply stM_bind_ok in Hb as (s5 & [] & H5 & Hb).
  injection H5 as <-. injection Hb as <- <-. set (fee := u64_mul (estimate_transaction_size (len sel) (len outs)) fee_per_byte) in *.
  set (left := u64_saturating_sub _ _) in *.
  assert (Hc : s4 = b /\ value <$> change = if 1000 <? left then [left] else []).
  { destruct (1000 <? left).
    - apply stM_bind_ok in H4 as (s6 & key & H6 & H4). injection H6 as <- _. by injection H4 as <- <-.
    - by injection H4 as <- <-. }
  destruct Hc as [-> Hc]. exists outs, t, sel, change. done.
Qed.

Lemma largest_first_length b : (length (largest_first iter b) <= size (available_utxos b))%nat.
Proof using iter_lists.
  rewrite (Permutation_length (largest_first_perm iter iter_lists b)), <- length_map_to_list.
  etrans; [apply length_filter|]. by rewrite length_fmap.
Qed.

(** The estimated fee, when it fits 64 bits. *)
Lemma typed_fee n k fee_per_byte :
  0 <= n -> 0 <= k -> 0 <= fee_per_byte -> (10 + 148 * n + 34 * k) * fee_per_byte <= u64_max -> 10 + 148 * n + 34 * k <= u64_max ->
  u64_mul (estimate_transaction_size n k) fee_per_byte = (10 + 148 * n + 34 * k) * fee_per_byte.
Proof.
  intros Hn Hk Hf Hle Hs. unfold u64_mul, estimate_transaction_size, BASE_TX_SIZE, INPUT_SIZE, OUTPUT_SIZE.
  replace (10 + n * 148 + k * 34) with (10 + 148 * n + 34 * k) by ring.
  rewrite (wrap64_small (10 + _ + _)) by lia. apply wrap64_small. nia.
Qed.

(** Room for the outputs and the largest fee in 64 bits. *)
Definition fits (b : WalletBuilder) (outputs : list (ScriptType * Z)) (fee_per_byte : Z) : Prop :=
  0 <= fee_per_byte /\ Forall (Z.le 0) outputs.*2 /\
  10 + 148 * (1 + Z.of_nat (size (available_utxos b))) + 34 * len outputs <= u64_max /\
  total outputs.*2 + (10 + 148 * (1 + Z.of_nat (size (available_utxos b))) + 34 * len outputs) * fee_per_byte <= u64_max.

(** What a greedy selection returns. *)
Lemma selected_coins b target sel :
  coins_ok b -> select_utxos_greedy iter b target = Ok sel ->
  target <= total (amount <$> sel) /\ sum64 (amount <$> sel) = total (amount <$> sel) /\
  total (amount <$> sel) <= u64_max /\ 0 <= len sel <= Z.of_nat (size (available_utxos b)) /\
  NoDup (info_outpoint <$> sel) /\
  Forall (fun u => available_utxos b !! info_outpoint u = Some u /\ is_spendable u (builder_height b) = true) sel.
Proof using iter_lists.
  intros Hok Hsel. pose proof (greedy_selection_prefix iter iter_lists b target Hok) as Hg.
  destruct (target <=? total (amount <$> largest_first iter b)); [|by rewrite Hg in Hsel].
  destruct Hg as (sel' & rest & Hg & Hp & Hcov & _). rewrite Hsel in Hg. injection Hg as <-.
  destruct (prefix_sum b sel rest Hok Hp) as (Hsn & Hsm & Hsum). split_and!; try done.
  - unfold len. lia.
  - pose proof (largest_first_length b) as Hll. rewrite Hp, length_app in Hll. unfold len. lia.
  - pose proof (largest_first_nodup iter iter_lists b Hok) as Hd. rewrite Hp, fmap_app in Hd. by apply NoDup_app in Hd as [? _].
  - apply Forall_forall. intros u Hu. apply (largest_first_elem iter iter_lists); [done|]. rewrite Hp. apply elem_of_app. by left.
Qed.

(** C8. A transaction with several outputs, built from coins filed under their
    own outpoints whose amounts add up to a 64-bit number, when the requested
    amounts with the largest possible fee fit in 64 bits as well: it spends
    distinct spendable coins of the wallet and pays every requested amount.
    With a change output the coins are worth exactly the outputs, the change
    and the fee the transaction states.  Without one they are worth at least
    the outputs and at most a thousand units more than outputs and fee; that
    they also cover the stated fee is not checked by the code.  The coins it
    spends are marked. *)
Theorem typed_build_value outputs fee_per_byte wallet b b' tx :
  coins_ok b -> fits b outputs fee_per_byte ->
  build_transaction_with_script_types iter outputs fee_per_byte wallet b = (b', Ok tx) ->
  exists sel outs change fee,
    tx = Standard 1 (coin_input <$> sel) (outs ++ change) 0 fee [] /\
    NoDup (info_outpoint <$> sel) /\
    Forall (fun u => available_utxos b !! info_outpoint u = Some u /\ is_spendable u (builder_height b) = true) sel /\
    value <$> outs = outputs.*2 /\
    (if decide (change = [])
     then total (value <$> outs) <= total (amount <$> sel) <= total (value <$> outs) + fee + 1000
     else total (amount <$> sel) = total (value <$> outs) + total (value <$> change) + fee) /\
    b' = foldl mark_if_known b (info_outpoint <$> sel).
Proof using iter_lists.
  intros Hok (Hf & Hnn & Hs & Hfit) Hb. apply typed_build_inv in Hb as (outs & t & sel & change & Ho & [Hsel Hn] & [Hc ->] & ->).
  destruct (typed_outputs_spec _ _ _ _ Ho ltac:(unfold u64_max; lia)) as (Hv & -> & Ht). rewrite Z.add_0_l in *.
  assert (Hlo : len outs = len outputs).
  { apply (f_equal length) in Hv. rewrite !length_fmap in Hv. unfold len. by rewrite Hv. }
  rewrite Hlo in *. pose proof (total_nonneg _ Hnn) as Htn.
  assert (Hl0 : 0 <= len outputs) by (unfold len; lia).
  assert (Hfee1 : u64_mul (estimate_transaction_size 1 (len outputs)) fee_per_byte = (10 + 148 * 1 + 34 * len outputs) * fee_per_byte)
    by (apply typed_fee; nia).
  rewrite Hfee1 in *. unfold u64_add in Hsel, Hn, Hc |- *.
  rewrite (wrap64_small (total outputs.*2 + (10 + 148 * 1 + 34 * len outputs) * fee_per_byte)) in Hsel, Hn by nia.
  set (target := total outputs.*2 + (10 + 148 * 1 + 34 * len outputs) * fee_per_byte) in *.
  destruct (selected_coins b target sel Hok Hsel) as (Hcov & Hsum & Hsm & Hls & Hnd & Hcoins). rewrite Hsum in *.
  assert (Hfee : u64_mul (estimate_transaction_size (len sel) (len outputs)) fee_per_byte =
    (10 + 148 * len sel + 34 * len outputs) * fee_per_byte) by (apply typed_fee; nia).
  rewrite Hfee in *. set (fee := (10 + 148 * len sel + 34 * len outputs) * fee_per_byte) in *.
  rewrite (wrap64_small (total outputs.*2 + fee)) in Hc by (unfold fee; nia).
  exists sel, outs, change, fee. split; [done|].
  split_and!; try done.
  - rewrite Hv. unfold u64_saturating_sub in Hc.
    assert (Htarget : total outputs.*2 <= target) by (unfold target; nia). assert (Hfn : 0 <= fee) by (unfold fee; nia).
    destruct (Z.ltb_spec 1000 (Z.max 0 (total (amount <$> sel) - (total outputs.*2 + fee)))) as [Hl|Hl].
    + rewrite decide_False by (intros ->; by cbn in Hc). rewrite Hc. cbn. lia.
    + apply fmap_nil_inv in Hc as ->. rewrite decide_True by done. lia.
Qed.

(** ** Marked coins *)

Lemma marked_lookup os b o :
  available_utxos (foldl mark_if_known b os) !! o =
    (if bool_decide (o ∈ os) then (fun u => u <| spent := true |>) <$> available_utxos b !! o else available_utxos b !! o) /\
  builder_height (foldl mark_if_known b os) = builder_height b.
Proof.
  revert b. induction os as [|o' os IH]; intros b; [done|]. cbn [foldl].
  destruct (IH (mark_if_known b o')) as [-> ->]. destruct b as [m h]. cbn. split; [|done].
  destruct (decide (o' = o)) as [->|Hne].
  - rewrite lookup_alter_eq, (bool_decide_eq_true_2 (o ∈ o :: os)) by left.
    destruct (m !! o) as [u|]; cbn; [|by destruct (bool_decide _)]. destruct (bool_decide _); [|done]. by destruct u.
  - rewrite lookup_alter_ne by done. rewrite (bool_decide_ext (o ∈ o' :: os) (o ∈ os)); [done|]. rewrite elem_of_cons. naive_solver.
Qed.

Lemma total_alter_eq (f : UtxoInfo -> UtxoInfo) (o : OutPoint) (m : gmap OutPoint UtxoInfo) :
  (forall u, amount (f u) = amount u) ->
  total (amount <$> (map_to_list (alter f o m)).*2) = total (amount <$> (map_to_list m).*2).
Proof.
  intros Hf. destruct (m !! o) as [u|] eqn:Hu; [|by rewrite alter_id by (intros x; congruence)].
  assert (Ha : alter f o m = <[o := f u]> (delete o m)).
  { rewrite insert_delete_eq. apply map_eq. intros j. destruct (decide (o = j)) as [->|].
    - by rewrite lookup_alter_eq, lookup_insert_eq, Hu.
    - by rewrite lookup_alter_ne, lookup_insert_ne. }
  rewrite Ha. rewrite <- (insert_delete_id m o u Hu) at 2.
  rewrite !map_to_list_insert by apply lookup_delete_eq. cbn. unfold total. cbn. by rewrite Hf.
Qed.

Lemma coins_ok_marked os b : coins_ok b -> coins_ok (foldl mark_if_known b os).
Proof.
  intros Hb. apply (foldl_inv coins_ok); [done|]. clear b Hb. intros [m h] o [Hc Ht]. split; cbn in *.
  - intros j u Hj. destruct (decide (o = j)) as [->|Hne].
    + rewrite lookup_alter_eq in Hj. destruct (m !! j) as [v|] eqn:Hv; [|done]. injection Hj as <-.
      destruct (Hc j v Hv). by destruct v.
    + rewrite lookup_alter_ne in Hj by done. by apply Hc.
  - rewrite total_alter_eq; [done|]. by intros [].
Qed.

(** Two transactions built one after the other with
    [build_transaction_with_script_types] spend different coins. *)
Theorem typed_builds_disjoint outs1 outs2 f1 f2 wallet b b1 b2 tx1 tx2 :
  coins_ok b ->
  build_transaction_with_script_types iter outs1 f1 wallet b = (b1, Ok tx1) ->
  build_transaction_with_script_types iter outs2 f2 wallet b1 = (b2, Ok tx2) ->
  (previous_output <$> get_inputs tx1) ## (previous_output <$> get_inputs tx2).
Proof using iter_lists.
  intros Hok H1 H2. apply typed_build_inv in H1 as (o1 & t1 & sel1 & c1 & _ & _ & [_ ->] & ->).
  apply typed_build_inv in H2 as (o2 & t2 & sel2 & c2 & _ & [Hs2 _] & [_ ->] & ->).
  apply (selected_coins _ _ _ (coins_ok_marked _ b Hok)) in Hs2 as (_ & _ & _ & _ & _ & Hsp).
  assert (Hp : forall sel, previous_output <$> (coin_input <$> sel) = info_outpoint <$> sel)
    by (intros sel; rewrite <- list_fmap_compose; apply list_fmap_ext; by intros i [[] ? ? ? ? ? ?] _).
  cbn [get_inputs]. rewrite !Hp. intros o Ho1 Ho2. apply list_elem_of_fmap in Ho2 as (u & -> & Hu).
  rewrite Forall_forall in Hsp. destruct (Hsp u Hu) as [Hl Hspend]. destruct (marked_lookup (info_outpoint <$> sel1) b (info_outpoint u)) as [Hm _].
  rewrite Hm, bool_decide_eq_true_2 in Hl by done. destruct (available_utxos b !! info_outpoint u) as [v|]; [|done].
  injection Hl as Hl. assert (Hx : spent u = true) by (rewrite <- Hl; by destruct v).
  unfold is_spendable in Hspend. by rewrite Hx in Hspend.
Qed.

End BuildTheorems.

(** * Scripts *)

(** How the wallet sees a script when it signs for it. *)
Inductive SeenAs : Type := AsP2PKH | AsP2PK | AsP2SH | AsMultisig | AsUnknown.

Definition seen_as (s : bytes) : SeenAs :=
  if is_p2pkh_script s then AsP2PKH else if is_p2pk_script s then AsP2PK
  else if is_p2sh_script s then AsP2SH else if is_multisig_script s then AsMultisig else AsUnknown.

Lemma multisig_length m ks :
  forallb (fun k => len k =? 33) ks = true -> len (create_multisig_script m ks) = 3 + 34 * len ks.
Proof.
  intros Hk. unfold create_multisig_script, len. rewrite !length_app. cbn [length].
  assert (Hc : length (concat ((fun k => 33 :: k) <$> ks)) = (34 * length ks)%nat).
  { induction ks as [|k ks IH]; [done|]. cbn in Hk. apply andb_true_iff in Hk as [Hk Hks]. apply Z.eqb_eq in Hk. unfold len in Hk.
    cbn [fmap list_fmap concat length]. rewrite length_app, IH by done. cbn [length]. lia. }
  rewrite Hc. lia.
Qed.

(** The script the wallet makes for an output is the kind of script it sees
    when it spends it; a multisig script is recognised up to sixteen required
    signatures, although the wallet makes them up to twenty. *)
Theorem scripts_recognised t s :
  to_script_pubkey t = Ok s ->
  match t with
  | P2PKH _ => seen_as s = AsP2PKH
  | P2SH _ => seen_as s = AsP2SH
  | P2PK _ => seen_as s = AsP2PK
  | Multisig m ks => 0 <= m -> seen_as s = (if m <=? 16 then AsMultisig else AsUnknown)
  | _ => True
  end.
Proof.
  destruct t as [h|h|k|m ks|d|sc]; cbn [to_script_pubkey]; try done.
  - destruct (Z.eqb_spec (len h) 20) as [Hl|]; [|done]. intros [= <-]. unfold len in Hl.
    do 20 (destruct h as [|? h]; [discriminate Hl|]). destruct h; [|cbn in Hl; lia]. reflexivity.
  - destruct (Z.eqb_spec (len h) 20) as [Hl|]; [|done]. intros [= <-]. unfold len in Hl.
    do 20 (destruct h as [|? h]; [discriminate Hl|]). destruct h; [|cbn in Hl; lia]. reflexivity.
  - destruct (Z.eqb_spec (len k) 33) as [Hl|]; [|done]. intros [= <-]. unfold len in Hl.
    do 33 (destruct k as [|? k]; [discriminate Hl|]). destruct k; [|cbn in Hl; lia]. reflexivity.
  - destruct (multisig_ok m ks) eqn:Hok; [|done]. cbn [negb]. destruct (forallb _ ks) eqn:Hk; [|done]. intros [= <-] Hm.
    unfold multisig_ok in Hok. rewrite !negb_true_iff, !orb_false_iff, Z.eqb_neq, !Z.ltb_ge in Hok.
    destruct Hok as [[Hm0 Hmk] Hk20]. assert (Hlen : 0 <= len ks) by (unfold len; lia).
    unfold wrap8 in Hmk. rewrite Z.mod_small in Hmk by lia.
    pose proof (multisig_length m ks Hk) as Hl. unfold seen_as.
    assert (Hb : wrap8 (0x50 + m) = 0x50 + m) by (apply Z.mod_small; lia).
    assert (Hlast : last (create_multisig_script m ks) = Some 0xae)
      by (unfold create_multisig_script; rewrite app_assoc; by rewrite last_app).
    unfold is_p2pkh_script, is_p2pk_script, is_p2sh_script, is_multisig_script. rewrite Hl, Hlast.
    unfold create_multisig_script. rewrite Hb. cbn [app].
    rewrite (proj2 (Z.eqb_neq _ 25)), (proj2 (Z.eqb_neq _ 35)), (proj2 (Z.eqb_neq _ 23)) by lia. cbn [andb].
    rewrite (proj2 (Z.ltb_lt 3 _)), (proj2 (Z.leb_le 0x51 _)) by lia. rewrite bool_decide_eq_true_2, andb_true_r by done.
    cbn [andb]. destruct (Z.leb_spec (80 + m) 96), (Z.leb_spec m 16); done || lia.
Qed.

(** * Key derivation *)

Section KeyTheorems.
  Context `{A : AuthKeys, W : !WalletCrypto}.

(** The marks of hardened derivation do not count: two paths whose components
    are the same numbers give the same key. *)
Theorem hardened_marks_ignored (w : HDWallet) p q :
  head (split_slash p) = head (split_slash q) ->
  trim_quotes <$> tail (split_slash p) = trim_quotes <$> tail (split_slash q) ->
  derive_ed25519_key w p = derive_ed25519_key w q /\ derive_secp256k1_key w p = derive_secp256k1_key w q.
Proof.
  intros Hh Ht. assert (Hi : forall err, path_indices err p = path_indices err q).
  { intros err. unfold path_indices.
    destruct (split_slash p) as [|r [|c cs]], (split_slash q) as [|r' [|c' cs']]; cbn in Hh, Ht; try done.
    injection Hh as <-. destruct (negb _); [done|]. f_equal.
    assert (Hm : forall l k, trim_quotes <$> l = trim_quotes <$> k ->
      mapM (fun c => parse_uint u32_max (trim_quotes c)) l = mapM (fun c => parse_uint u32_max (trim_quotes c)) k).
    { induction l as [|x l IH]; intros [|y k] E; try done. injection E as Exy E. cbn. by rewrite Exy, (IH k E). }
    by apply (Hm (c :: cs) (c' :: cs')). }
  unfold derive_ed25519_key, derive_secp256k1_key. by rewrite !Hi.
Qed.

Lemma be4_inj a b : is_u32 a -> is_u32 b -> to_be_bytes4 a = to_be_bytes4 b -> a = b.
Proof.
  unfold is_u32, u32_max, to_be_bytes4. intros Ha Hb E. apply (inj reverse) in E.
  rewrite <- (from_to_le_bytes 4 a), <- (from_to_le_bytes 4 b), E by (change (256 ^ Z.of_nat 4) with 4294967296; lia). done.
Qed.

(** Different numbers on the path are hashed as different bytes. *)
Theorem derivation_input_injective (w : HDWallet) (l k : list Z) :
  Forall is_u32 l -> Forall is_u32 k -> derivation_input w l = derivation_input w k -> l = k.
Proof.
  intros Hl Hk E. unfold derivation_input in E. apply (inj (app _)) in E. apply (inj (app _)) in E.
  revert k Hk E. induction Hl as [|a l Ha Hl IH]; intros [|b k] Hk E; try done.
  apply Forall_cons in Hk as [Hb Hk]. cbn [fmap list_fmap concat] in E.
  assert (Hlen : forall z, length (to_be_bytes4 z) = 4%nat) by (intros z; unfold to_be_bytes4; by rewrite length_reverse, length_to_le_bytes).
  apply app_inj_1 in E as [E1 E2]; [|by rewrite !Hlen]. f_equal; [by apply be4_inj|by apply IH].
Qed.

End KeyTheorems.

(** * The selection of rusty-core *)

Definition core_fee (fee_per_byte n : Z) : Z := (n * 100 + 200) * fee_per_byte.

Lemma core_fee_succ f n k : core_fee f (n + 1 + Z.of_nat k) = core_fee f (n + Z.of_nat (S k)).
Proof. f_equal. lia. Qed.

Abbreviation worth := (fun p : OutPoint * Utxo => value (output p.2)).

Lemma worth_first p l : total (worth <$> take 1 (p :: l)) = worth p.
Proof. apply Z.add_0_r. Qed.

(** The result of the loop from [n] inputs worth [cur]. *)
Definition core_result (a f n cur : Z) (l : list (OutPoint * Utxo)) (r : option (list TxInput * Z)) : Prop :=
  match r with
  | Some (ins, t) => exists sel rest, l = sel ++ rest /\
      ins = (fun p => TxInput_from_outpoint p.1 [] 0xFFFFFFFF []) <$> sel /\
      t = cur + total (worth <$> sel) /\ a + core_fee f (n + len sel) <= t /\
      (forall k, (0 < k < length sel)%nat -> cur + total (worth <$> take k sel) < a + core_fee f (n + Z.of_nat k))
  | None => forall k, (0 < k <= length l)%nat ->
      cur + total (worth <$> take k l) < a + core_fee f (n + Z.of_nat k)
  end.

Lemma core_result_cons a f n cur p l r :
  cur + worth p < a + core_fee f (n + 1) -> core_result a f (n + 1) (cur + worth p) l r ->
  core_result a f n cur (p :: l) ((fun '(ins, t) => (TxInput_from_outpoint p.1 [] 0xFFFFFFFF [] :: ins, t)) <$> r).
Proof.
  intros Hlt. destruct r as [[ins t]|]; cbn [core_result fmap option_fmap option_map].
  - intros (sel & rest & -> & -> & -> & Hcov & Hk). exists (p :: sel), rest. unfold len in *. rewrite core_fee_succ in Hcov.
    rewrite !fmap_cons, total_cons. cbn [length]. split_and!; try done; [lia..|].
    intros [|[|k]] Hkl; [lia|rewrite worth_first; exact Hlt|].
    specialize (Hk (S k) ltac:(lia)). rewrite core_fee_succ in Hk.
    change (take (S (S k)) (p :: sel)) with (p :: take (S k) sel). rewrite fmap_cons, total_cons. lia.
  - intros Hk [|[|k]] Hkl; [lia|rewrite worth_first; exact Hlt|]. cbn [length] in Hkl.
    specialize (Hk (S k) ltac:(lia)). rewrite core_fee_succ in Hk.
    change (take (S (S k)) (p :: l)) with (p :: take (S k) l). rewrite fmap_cons, total_cons. lia.
Qed.

Lemma core_fee_mono f n m : 0 <= f -> n <= m -> core_fee f n <= core_fee f m.
Proof. unfold core_fee. intros. nia. Qed.

Lemma core_loop_spec a f n cur l :
  0 <= a -> 0 <= f -> 0 <= n -> 0 <= cur -> Forall (Z.le 0) (worth <$> l) ->
  cur + total (worth <$> l) <= u64_max ->
  (n + len l) * 100 + 200 <= u64_max -> a + core_fee f (n + len l) <= u64_max ->
  core_result a f n cur l (select_loop_core a f n cur l).
Proof.
  intros Ha Hf. revert n cur. induction l as [|[id u] l IH]; intros n cur Hn Hc Hl Ht Hs Hm; cbn [select_loop_core].
  { intros k Hk. cbn [length] in Hk. lia. }
  rewrite fmap_cons in Hl, Ht. rewrite total_cons in Ht. apply Forall_cons in Hl as [Hu Hl]. cbn [fst snd] in Hu, Ht.
  pose proof (total_nonneg _ Hl). unfold len in Hs, Hm. cbn [length] in Hs, Hm. rewrite <- core_fee_succ in Hm.
  pose proof (core_fee_mono f (n + 1) (n + 1 + Z.of_nat (length l)) Hf ltac:(lia)) as Hmono.
  assert (Hfee : u64_mul (wrap64 ((n + 1) * 100 + 2 * 100)) f = core_fee f (n + 1)).
  { unfold u64_mul. rewrite (wrap64_small ((n + 1) * 100 + 2 * 100)) by lia. apply wrap64_small. unfold core_fee in *. nia. }
  assert (H0 : 0 <= core_fee f (n + 1)) by (unfold core_fee; nia).
  rewrite Hfee. unfold u64_add. rewrite (wrap64_small (cur + value (output u))), (wrap64_small (a + core_fee f (n + 1))) by lia.
  destruct (Z.leb_spec (a + core_fee f (n + 1)) (cur + value (output u))) as [Hle|Hlt].
  { exists [(id, u)], l. split_and!; [done|done|cbn; lia|exact Hle|]. cbn [length]. intros k Hk. lia. }
  specialize (IH (n + 1) (cur + value (output u)) ltac:(lia) ltac:(lia) Hl ltac:(lia) ltac:(unfold len; lia) ltac:(unfold len; lia)).
  pose proof (core_result_cons a f n cur (id, u) l _ Hlt IH) as Hr.
  by destruct (select_loop_core a f (n + 1) (cur + value (output u)) l) as [[ins t]|].
Qed.

(** The selection of rusty-core spends the smallest outputs first, as many as
    it takes to cover the amount and an estimated fee that grows with them,
    and fails exactly when no number of them does. *)
Theorem core_selection_spec iter (available : gmap OutPoint Utxo) a f :
  let sorted := merge_sort utxo_value_le (iter available) in
  0 <= a -> 0 <= f -> Forall (Z.le 0) (worth <$> sorted) -> total (worth <$> sorted) <= u64_max ->
  len sorted * 100 + 200 <= u64_max -> a + core_fee f (len sorted) <= u64_max ->
  exists r, core_result a f 0 0 sorted r /\ Sorted utxo_value_le sorted /\
    select_utxos iter available a f = ok_or r BuilderInsufficientFunds.
Proof.
  cbn zeta. intros Ha Hf Hnn Ht Hs Hm. eexists. split; [|split; [|reflexivity]].
  - by apply core_loop_spec.
  - apply Sorted_merge_sort. intros x y. unfold utxo_value_le. lia.
Qed.

(** * Samples *)

Definition sample_wallet_crypto : @WalletCrypto sample_auth := {|
  Mnemonic := string;
  mnemonic_from_entropy _ := Some ""%string;
  mnemonic_parse := Some;
  mnemonic_to_seed _ := replicate 64 7;
  mnemonic_to_string m := m;
  sha512 := sample_hash 64 5;
  ed25519_from_seed b := Some (from_le_bytes (take 2 b)) : option (@Keypair sample_auth);
  secp_from_slice := Some;
  secp_public k := k;
|}.

Definition sample_wallet : @HDWallet sample_auth sample_wallet_crypto :=
  mkHDWallet (A := sample_auth) (W := sample_wallet_crypto) ""%string (replicate 64 7).

Definition sample_coin (k v : Z) : UtxoInfo :=
  mkUtxoInfo (mkOutPoint (replicate 32 k) 0) v (create_p2pkh_script (replicate 20 k)) 5 false 6 false.

Definition sample_builder : WalletBuilder :=
  mkWalletBuilder (list_to_map ((fun u => (info_outpoint u, u)) <$> [sample_coin 1 5000; sample_coin 2 90000; sample_coin 3 7000])) 10.

Lemma sample_coins_ok : coins_ok sample_builder.
Proof.
  split.
  - unfold sample_builder. cbn [available_utxos]. cbn. repeat (apply map_Forall_insert_2; [cbn; split; [done|lia]|]). apply map_Forall_empty.
  - assert (Ht : (total (amount <$> (map_to_list (available_utxos sample_builder)).*2) <=? u64_max) = true) by (vm_compute; reflexivity).
    by apply Z.leb_le.
Qed.

Lemma greedy_selection_spec_witness :
  exists sel, select_utxos_greedy map_to_list sample_builder 95000 = Ok sel /\ 95000 <= total (amount <$> sel) /\
    forall k, (k < length sel)%nat -> total (amount <$> take k sel) < 95000.
Proof.
  pose proof (greedy_selection_spec map_to_list (fun m => Permutation_refl _) sample_builder 95000 sample_coins_ok) as Hg.
  assert (Hb : (95000 <=? total (amount <$> spendable_coins sample_builder)) = true) by (vm_compute; reflexivity).
  rewrite Hb in Hg. destruct Hg as (sel & rest & H1 & _ & _ & H2 & H3). exists sel. split; [exact H1|]. split; [exact H2|exact H3].
Defined.

Lemma selections_agree_witness :
  select_utxos_for_amount map_to_list sample_builder 95000 = select_utxos_greedy map_to_list sample_builder 95000.
Proof. apply (selections_agree map_to_list (fun m => Permutation_refl _) sample_builder 95000 sample_coins_ok). lia. Defined.

Definition any_hex (s : string) : option bytes := Some [1; 2].

Definition sample_payment : Transaction :=
  match @build_transaction sample_auth sample_wallet_crypto map_to_list any_hex sample_builder "00"%string 20000 10 sample_wallet with
  | Ok tx => tx
  | _ => Standard 0 [] [] 0 0 []
  end.

Lemma build_transaction_value_witness :
  exists u, available_utxos sample_builder !! info_outpoint u = Some u /\ is_spendable u 10 = true.
Proof.
  destruct (@build_transaction_value sample_auth sample_wallet_crypto map_to_list (fun m => Permutation_refl _) any_hex
    sample_builder "00"%string 20000 10 sample_wallet sample_payment sample_coins_ok) as (u & r & c & f & H1 & H2 & _).
  - lia.
  - lia.
  - unfold u64_max. lia.
  - vm_compute. reflexivity.
  - exists u. split; [exact H1|exact H2].
Defined.

Definition sample_outputs : list (ScriptType * Z) := [(P2PKH (replicate 20 9), 40000); (OpReturn [1], 0)].

Definition first_build : WalletBuilder * walletR Transaction :=
  @build_transaction_with_script_types sample_primitives sample_auth sample_wallet_crypto map_to_list sample_outputs 2
    sample_wallet sample_builder.

Definition second_outputs : list (ScriptType * Z) := [(P2SH (replicate 20 9), 10000)].

Definition second_build : WalletBuilder * walletR Transaction :=
  @build_transaction_with_script_types sample_primitives sample_auth sample_wallet_crypto map_to_list second_outputs 2
    sample_wallet (fst first_build).

Definition built (r : WalletBuilder * walletR Transaction) : Transaction :=
  match snd r with Ok tx => tx | _ => Standard 0 [] [] 0 0 [] end.

Lemma built_eq r : is_ok (snd r) = true -> r = (fst r, Ok (built r)).
Proof. destruct r as [b [tx|e| |]]; done. Qed.

Lemma sample_fits : fits sample_builder sample_outputs 2.
Proof.
  split; [lia|]. split; [repeat constructor; cbn; lia|].
  assert (Hs : Z.of_nat (size (available_utxos sample_builder)) = 3) by (vm_compute; reflexivity). rewrite Hs.
  unfold sample_outputs, total, len, u64_max. cbn. split; lia.
Qed.

Lemma typed_build_value_witness :
  exists sel outs change fee, built first_build = Standard 1 (coin_input <$> sel) (outs ++ change) 0 fee [] /\
    NoDup (info_outpoint <$> sel).
Proof.
  assert (Hb : is_ok (snd first_build) = true) by (vm_compute; reflexivity).
  destruct (@typed_build_value sample_primitives sample_auth sample_wallet_crypto map_to_list (fun m => Permutation_refl _)
    sample_outputs 2 sample_wallet sample_builder (fst first_build) (built first_build) sample_coins_ok sample_fits
    (built_eq first_build Hb)) as (sel & outs & change & fee & H1 & H2 & _).
  exists sel, outs, change, fee. split; [exact H1|exact H2].
Defined.

Lemma typed_builds_disjoint_witness :
  (previous_output <$> get_inputs (built first_build)) ## (previous_output <$> get_inputs (built second_build)).
Proof.
  assert (Hb1 : is_ok (snd first_build) = true) by (vm_compute; reflexivity).
  assert (Hb2 : is_ok (snd second_build) = true) by (vm_compute; reflexivity).
  exact (@typed_builds_disjoint sample_primitives sample_auth sample_wallet_crypto map_to_list (fun m => Permutation_refl _)
    sample_outputs second_outputs 2 2 sample_wallet sample_builder (fst first_build) (fst second_build)
    (built first_build) (built second_build) sample_coins_ok (built_eq first_build Hb1) (built_eq second_build Hb2)).
Defined.

Lemma scripts_recognised_witness :
  seen_as (create_multisig_script 17 (replicate 20 (replicate 33 2))) = AsUnknown.
Proof.
  refine (scripts_recognised (Multisig 17 (replicate 20 (replicate 33 2))) _ _ _); [vm_compute; reflexivity|lia].
Defined.

Lemma hardened_marks_ignored_witness :
  derive_ed25519_key sample_wallet "m/44'/0'/0'/0/0" = derive_ed25519_key sample_wallet "m/44/0/0/0/0".
Proof. apply hardened_marks_ignored; reflexivity. Defined.

Lemma derivation_input_injective_witness :
  [44; 0] = [44; 0].
Proof.
  assert (Hf : Forall is_u32 [44; 0]).
  { repeat (apply Forall_cons; split; [unfold is_u32, u32_max; lia|]). apply Forall_nil_2. }
  exact (derivation_input_injective sample_wallet [44; 0] [44; 0] Hf Hf eq_refl).
Defined.

Definition core_coins : gmap OutPoint Utxo :=
  {[ mkOutPoint [1] 0 := mkUtxo (mkTxOutput 5000 [] None) false 3; mkOutPoint [2] 0 := mkUtxo (mkTxOutput 9000 [] None) false 3 ]}.

Lemma core_selection_spec_witness :
  exists r, core_result 6000 1 0 0 (merge_sort utxo_value_le (map_to_list core_coins)) r /\
    select_utxos map_to_list core_coins 6000 1 = ok_or r BuilderInsufficientFunds.
Proof.
  assert (Hm : merge_sort utxo_value_le (map_to_list core_coins) =
    [(mkOutPoint [1] 0, mkUtxo (mkTxOutput 5000 [] None) false 3); (mkOutPoint [2] 0, mkUtxo (mkTxOutput 9000 [] None) false 3)])
    by (vm_compute; reflexivity).
  destruct (core_selection_spec map_to_list core_coins 6000 1) as (r & H1 & _ & H2).
  - lia.
  - lia.
  - rewrite Hm. repeat constructor; cbn; lia.
  - rewrite Hm. unfold total, u64_max. cbn. lia.
  - rewrite Hm. unfold len, u64_max. cbn. lia.
  - rewrite Hm. unfold core_fee, len, u64_max. cbn. lia.
  - exists r. split; [exact H1|exact H2].
Defined.
