(* ===== verification/Signatures.v ===== *)
(** Keys and signatures of rusty-crypto (src/rusty-crypto/src/signature.rs and
    keypair.rs): the multi-signatures the masternodes use and the derivation
    of a key from another.

    ed25519-dalek is an interface; its [SignatureError], of which the code
    reads nothing, is [unit]. *)

From Stdlib Require Import ZArith Lia List Ascii.
From stdpp Require Import base option list numbers strings gmap.
From S2P Require Import Prelude Types Transaction SamplePrimitives ChainState Params DkgProtocol Wallet.

#[local] Open Scope Z_scope.

Abbreviation sigR := (outcome unit).

Section MultiSignatures.
  Context `{P : Primitives}.

Definition verify_signature (key : DalekPublicKey) (message : bytes) (signature : DalekSignature) : sigR unit :=
  if ed25519_verify key message signature then Ok tt else Err tt.

Definition count_valid (keys : list DalekPublicKey) (message : bytes) (signatures : list DalekSignature) : Z :=
  foldl (fun valid signature =>
    if existsb (fun key => ed25519_verify key message signature) keys then valid + 1 else valid) 0 signatures.

Definition verify_multi_signature (public_keys : list DalekPublicKey) (message : bytes)
    (signatures : list DalekSignature) (threshold : Z) : sigR bool :=
  if (len public_keys =? 0) || (len signatures =? 0) then Ok false
  else if threshold =? 0 then Ok true
  else if len public_keys <? threshold then Ok false
  else Ok (threshold <=? count_valid public_keys message signatures).



Definition verify_masternode_multi_signature (masternode_public_keys : list DalekPublicKey) (message : bytes)
    (signatures : list DalekSignature) (quorum_threshold : Z) : sigR bool :=
  let min_threshold := len masternode_public_keys / 2 + 1 in
  verify_multi_signature masternode_public_keys message signatures (Z.max quorum_threshold min_threshold).

End MultiSignatures.

(** * Key pairs *)

(** The secret bytes of a key pair. *)
Class SecretBytes `{A : AuthKeys} : Type := secret_to_bytes : Keypair -> bytes.

Section KeyPairs.
  Context `{P : Primitives, A : AuthKeys, W : !WalletCrypto, B : !SecretBytes}.

Definition sign_message (k : Keypair) (message : bytes) : bytes := keypair_sign k message.

(** What a derived key is hashed from. *)
Definition keypair_preimage (seed : bytes) (path : string) (indices : list Z) : bytes :=
  string_bytes "ed25519_derive" ++ seed ++ string_bytes path ++ concat (to_be_bytes4 <$> indices).

Definition keypair_derive_key (k : Keypair) (path : string) : walletR Keypair :=
  indices ← path_indices "Invalid HD path: must start with 'm/'" path;
  ok_or (ed25519_from_seed (take 32 (blake3 (keypair_preimage (secret_to_bytes k) path indices))))
    "Failed to create derived secret key"%string.

End KeyPairs.

(** * Theorems: multi-signatures *)

Section MultiTheorems.
  Context `{P : Primitives}.

Lemma count_valid_filter keys m sigs :
  count_valid keys m sigs = len (filter (fun s => existsb (fun key => ed25519_verify key m s) keys = true) sigs).
Proof.
  unfold count_valid. assert (H : forall acc, foldl (fun valid s =>
      if existsb (fun key => ed25519_verify key m s) keys then valid + 1 else valid) acc sigs =
    acc + len (filter (fun s => existsb (fun key => ed25519_verify key m s) keys = true) sigs)); [|by rewrite H].
  induction sigs as [|s sigs IH]; intros acc; [cbn; unfold len; cbn; lia|].
  cbn [foldl]. rewrite IH, filter_cons. destruct (existsb _ keys); [|by rewrite decide_False by done].
  rewrite decide_True by done. unfold len. cbn [length]. lia.
Qed.

(** [signed keys m sigs i]: a signature of the message by the key at [i] is
    among the signatures. *)
Definition signed (keys : list DalekPublicKey) (m : bytes) (sigs : list DalekSignature) (i : nat) : Prop :=
  exists key s, keys !! i = Some key /\ s ∈ sigs /\ ed25519_verify key m s = true.



Lemma signed_cons keys m x sigs i : signed keys m sigs i -> signed keys m (x :: sigs) i.
Proof. intros (key & s & ? & ? & ?). exists key, s. split_and!; [done|by right|done]. Qed.




(** One key of the quorum that signs once is accepted for the whole quorum:
    its signature, repeated, counts every time. *)
Theorem one_signer_meets_any_threshold keys m key s q :
  key ∈ keys -> ed25519_verify key m s = true -> q <= len keys ->
  verify_masternode_multi_signature keys m (replicate (length keys) s) q = Ok true.
Proof.
  intros Hk Hv Hq. assert (Hne : 0 < len keys) by (destruct keys; [by apply elem_of_nil in Hk|unfold len; cbn; lia]).
  assert (Hex : existsb (fun key => ed25519_verify key m s) keys = true).
  { apply existsb_exists. exists key. split; [by apply list_elem_of_In|done]. }
  unfold verify_masternode_multi_signature, verify_multi_signature.
  assert (Hlen : len (replicate (length keys) s) = len keys) by (unfold len; by rewrite length_replicate).
  pose proof (Z.div_lt (len keys) 2 Hne ltac:(lia)). pose proof (Z.div_pos (len keys) 2 ltac:(lia) ltac:(lia)).
  rewrite Hlen. destruct (Z.eqb_spec (len keys) 0); [lia|]. cbn [orb].
  destruct (Z.eqb_spec (Z.max q (len keys / 2 + 1)) 0); [lia|].
  destruct (Z.ltb_spec (len keys) (Z.max q (len keys / 2 + 1))); [lia|]. f_equal. apply Z.leb_le.
  rewrite count_valid_filter. rewrite filter_keeps; [lia|]. apply Forall_replicate. done.
Qed.

(** No key verifies two of the signatures. *)
Definition separate (keys : list DalekPublicKey) (m : bytes) (sigs : list DalekSignature) : Prop :=
  forall i j si sj key, sigs !! i = Some si -> sigs !! j = Some sj -> key ∈ keys ->
    ed25519_verify key m si = true -> ed25519_verify key m sj = true -> i = j.

Lemma separate_tail keys m s sigs : separate keys m (s :: sigs) -> separate keys m sigs.
Proof. intros H i j si sj key Hi Hj Hk H1 H2. specialize (H (S i) (S j) si sj key Hi Hj Hk H1 H2). lia. Qed.

Lemma separate_signers keys m sigs :
  separate keys m sigs ->
  exists l, NoDup l /\ len l = count_valid keys m sigs /\ Forall (signed keys m sigs) l.
Proof.
  rewrite count_valid_filter. induction sigs as [|s sigs IH]; intros Hs; [exists []; by repeat constructor|].
  destruct (IH (separate_tail _ _ _ _ Hs)) as (l & Hnd & Hlen & Hl). rewrite filter_cons.
  assert (Hmono : Forall (signed keys m (s :: sigs)) l).
  { eapply Forall_impl; [exact Hl|]. intros i. apply signed_cons. }
  destruct (existsb _ keys) eqn:He; [|rewrite decide_False by done; by exists l].
  rewrite decide_True by done. apply existsb_exists in He as (key & Hk & Hv). apply list_elem_of_In in Hk.
  destruct (proj1 (list_elem_of_lookup _ _) Hk) as [i Hi]. exists (i :: l). split_and!.
  - apply NoDup_cons. split; [|done]. intros Hin. rewrite Forall_forall in Hl. destruct (Hl i Hin) as (key' & s' & Hi' & Hs' & Hv').
    rewrite Hi in Hi'. injection Hi' as <-. apply list_elem_of_lookup in Hs' as [j Hj].
    specialize (Hs 0%nat (S j) s s' key eq_refl Hj Hk Hv Hv'). lia.
  - unfold len in *. cbn [length]. lia.
  - constructor; [|done]. exists key, s. split_and!; [done|left|done].
Qed.

Lemma majorities_meet n (l k : list nat) :
  NoDup l -> NoDup k -> Forall (fun i => i < n)%nat l -> Forall (fun i => i < n)%nat k ->
  (n < length l + length k)%nat -> exists i, i ∈ l /\ i ∈ k.
Proof.
  intros Hl Hk Hln Hkn Hlen. destruct (decide (Exists (fun i => i ∈ k) l)) as [He|He].
  { apply Exists_exists in He as (i & ? & ?). eauto. }
  exfalso. assert (Hsub : l ++ k ⊆+ seq 0 n).
  { apply NoDup_submseteq.
    - apply NoDup_app. split_and!; [done| |done]. intros x Hx Hxk. apply He, Exists_exists. eauto.
    - rewrite Forall_forall in Hln, Hkn. intros x [Hx|Hx]%elem_of_app; apply elem_of_seq; [specialize (Hln x Hx)|specialize (Hkn x Hx)]; lia. }
  apply submseteq_length in Hsub. rewrite length_app, length_seq in Hsub. lia.
Qed.

Lemma masternode_majority keys m sigs q :
  separate keys m sigs -> verify_masternode_multi_signature keys m sigs q = Ok true ->
  exists l, NoDup l /\ len keys < 2 * len l /\ Forall (signed keys m sigs) l.
Proof.
  intros Hs Hv. destruct (separate_signers keys m sigs Hs) as (l & Hnd & Hlen & Hl). exists l. split_and!; [done| |done].
  unfold verify_masternode_multi_signature, verify_multi_signature in Hv.
  destruct (_ || _); [done|]. assert (0 <= len keys) by (unfold len; lia).
  pose proof (Z.div_mod (len keys) 2 ltac:(lia)). pose proof (Z.mod_pos_bound (len keys) 2 ltac:(lia)).
  destruct (Z.eqb_spec (Z.max q (len keys / 2 + 1)) 0); [lia|].
  destruct (_ <? _); [done|]. injection Hv as Hv%Z.leb_le. lia.
Qed.

(** Two messages accepted by the masternodes of one quorum, when no key made
    two of the signatures of a message, were both signed by one of them,
    whatever thresholds were asked for. *)
Theorem accepted_messages_share_a_signer keys m1 m2 sigs1 sigs2 q1 q2 :
  separate keys m1 sigs1 -> separate keys m2 sigs2 ->
  verify_masternode_multi_signature keys m1 sigs1 q1 = Ok true ->
  verify_masternode_multi_signature keys m2 sigs2 q2 = Ok true ->
  exists i, signed keys m1 sigs1 i /\ signed keys m2 sigs2 i.
Proof.
  intros Hs1 Hs2 H1 H2. destruct (masternode_majority _ _ _ _ Hs1 H1) as (l & Hl & Hn1 & Hf1).
  destruct (masternode_majority _ _ _ _ Hs2 H2) as (k & Hk & Hn2 & Hf2).
  assert (Hin : forall m sigs l, Forall (signed keys m sigs) l -> Forall (fun i => i < length keys)%nat l).
  { intros m sigs l0 Hf. eapply Forall_impl; [done|]. intros i (key & s & Hi & _). by apply lookup_lt_Some in Hi. }
  destruct (majorities_meet (length keys) l k) as (i & Hil & Hik); [done|done|by eapply Hin|by eapply Hin|unfold len in *; lia|].
  rewrite Forall_forall in Hf1, Hf2. exists i. split; [by apply Hf1|by apply Hf2].
Qed.

End MultiTheorems.

(** * Theorems: derived keys *)

Section DerivationTheorems.
  Context `{P : Primitives, A : AuthKeys, W : !WalletCrypto, B : !SecretBytes}.

(** [/] is byte 47. *)
Definition slashes (b : bytes) : nat := length (filter (fun x => x = 47) b).

Lemma split_slash_length s : length (split_slash s) = S (slashes (string_bytes s)).
Proof.
  induction s as [|c s IH]; [done|]. cbn [split_slash]. change (string_bytes (String c s)) with (Z.of_N (N_of_ascii c) :: string_bytes s).
  unfold slashes. rewrite filter_cons. case_bool_decide as Hc.
  - subst c. rewrite decide_True by done. cbn [length]. by rewrite IH.
  - rewrite decide_False.
    + destruct (split_slash s); [done|]. exact IH.
    + intros He. apply Hc. rewrite <- (ascii_N_embedding c). by rewrite (N2Z.inj (N_of_ascii c) 47 He).
Qed.

Lemma path_indices_length e p l : path_indices e p = Ok l -> length l = slashes (string_bytes p).
Proof.
  unfold path_indices. pose proof (split_slash_length p) as Hl. destruct (split_slash p) as [|r [|c cs]]; [done..|].
  destruct (negb _); [done|]. destruct (mapM _ (c :: cs)) as [k|] eqn:Hm; [|done]. intros [= <-].
  apply length_mapM in Hm. cbn [length] in *. lia.
Qed.

Lemma concat_be4_length l : length (concat (to_be_bytes4 <$> l)) = (4 * length l)%nat.
Proof.
  induction l as [|a l IH]; [done|]. cbn [fmap list_fmap concat]. rewrite length_app, IH.
  unfold to_be_bytes4. rewrite length_reverse, length_to_le_bytes. cbn [length]. lia.
Qed.

(** Different paths are hashed as different bytes, hardened marks included:
    the bytes of the indices cannot be mistaken for a longer path. *)
Theorem derivation_paths_injective e seed p q l k :
  path_indices e p = Ok l -> path_indices e q = Ok k ->
  keypair_preimage seed p l = keypair_preimage seed q k -> p = q.
Proof.
  intros Hp%path_indices_length Hq%path_indices_length E. unfold keypair_preimage in E.
  apply (inj (app _)) in E. apply (inj (app _)) in E.
  assert (Hle : forall p q l k, length l = slashes (string_bytes p) -> length k = slashes (string_bytes q) ->
    string_bytes p ++ concat (to_be_bytes4 <$> l) = string_bytes q ++ concat (to_be_bytes4 <$> k) ->
    (length (string_bytes q) <= length (string_bytes p))%nat -> length (string_bytes p) = length (string_bytes q)).
  { clear. intros p q l k Hp Hq E Hl. pose proof (f_equal length E) as Hlen. rewrite !length_app, !concat_be4_length in Hlen.
    assert (Hpre : string_bytes q `prefix_of` string_bytes p).
    { exists (drop (length (string_bytes q)) (string_bytes p)). apply (f_equal (take (length (string_bytes q)))) in E.
      rewrite take_app_le, take_app_length in E by done. rewrite <- E at 1. by rewrite take_drop. }
    destruct Hpre as [t Ht]. assert (slashes (string_bytes q) <= slashes (string_bytes p))%nat.
    { rewrite Ht. unfold slashes. rewrite filter_app, length_app. lia. }
    lia. }
  assert (Hlen : length (string_bytes p) = length (string_bytes q)).
  { destruct (Nat.le_ge_cases (length (string_bytes q)) (length (string_bytes p))); [by eapply Hle|].
    symmetry. by eapply Hle. }
  apply app_inj_1 in E as [E _]; [|done]. by apply string_bytes_inj in E.
Qed.

End DerivationTheorems.

(** * Samples *)

(** Three keys of the sample scheme and their signatures. *)
Definition quorum_keys : list (@DalekPublicKey sample_primitives) := (fun k => replicate 32 k) <$> [1; 2; 3].
Definition sign_as (k : Z) (m : bytes) : @DalekSignature sample_primitives := replicate 32 k ++ sample_hash 32 1 m.


Lemma one_signer_meets_any_threshold_witness :
  verify_masternode_multi_signature quorum_keys [5] (replicate 3 (sign_as 2 [5])) 3 = Ok true.
Proof.
  apply (one_signer_meets_any_threshold quorum_keys [5] (replicate 32 2)).
  - right. left.
  - vm_compute. reflexivity.
  - unfold len. cbn. lia.
Defined.

Lemma separate_list m ks : NoDup ks -> separate quorum_keys m ((fun k => sign_as k m) <$> ks).
Proof.
  intros Hnd i j si sj key Hi Hj _ H1%bool_decide_eq_true_1 H2%bool_decide_eq_true_1.
  apply list_lookup_fmap_Some in Hi as (a & -> & Ha). apply list_lookup_fmap_Some in Hj as (b & -> & Hb).
  apply app_inj_2 in H1 as [H1 _]; [|done]. apply app_inj_2 in H2 as [H2 _]; [|done].
  assert (Heq : a = b) by (rewrite <- H2 in H1; by injection H1).
  subst b. by apply (NoDup_lookup ks i j a).
Qed.

Lemma accepted_messages_share_a_signer_witness :
  exists i, signed quorum_keys [5] ((fun k => sign_as k [5]) <$> [1; 2]) i /\
    signed quorum_keys [6] ((fun k => sign_as k [6]) <$> [2; 3]) i.
Proof.
  apply (accepted_messages_share_a_signer quorum_keys [5] [6] _ _ 2 2).
  - apply separate_list. repeat constructor; set_solver.
  - apply separate_list. repeat constructor; set_solver.
  - vm_compute. reflexivity.
  - vm_compute. reflexivity.
Defined.

Lemma derivation_paths_injective_witness :
  keypair_preimage [9] "m/1" [1] = keypair_preimage [9] "m/1" [1] -> "m/1"%string = "m/1"%string.
Proof. apply (derivation_paths_injective "bad path" [9] "m/1" "m/1" [1] [1]); reflexivity. Defined.
