(* ===== verification/OxideSend.v ===== *)
(** Instant payments (src/rusty-masternode/src/oxidesend.rs): the locks a
    quorum of masternodes puts on inputs, the detection of double spends, the
    choice of a quorum, the mixing entry point and threshold signatures of
    transactions.

    The node is read through the fields of [Blockchain].  [iter_mn], [iter_pool]
    and [iter_shares] stand for the iteration orders of hash maps.  The
    aggregation of signature shares, which ThresholdAlgebra models over a
    field, is an argument here.  Log messages are left out, and of formatted
    error messages the constant part is kept. *)

From Stdlib Require Import ZArith Lia List SpecFloat.
From stdpp Require Import base option list numbers strings gmap.
From coqutil Require Import Datatypes.RecordSetters.
From S2P Require Import Prelude Types Errors Transaction ScriptEngine SamplePrimitives UtxoSet F64 Masternodes ChainState.
From S2P Require Import LiveTickets GovernanceState Mempool Blockchain ConsensusStore ConsensusValidation Params Dkg DkgProtocol Quorum MasternodeTx Wallet Signatures.

Import TriangleBracketNotations.
#[local] Open Scope Z_scope.

Abbreviation sendR := (outcome string).

(** [bincode::serialize] of inputs; [threshold_crypto]'s signature shares. *)
Class SendCodec : Type := {
  bincode_inputs : list TxInput -> option bytes;
  BlsShare : Type;
  bls_share_from_bytes : bytes -> option BlsShare;
}.

Definition QUORUM_EXPIRATION_BLOCKS : Z := 10000.

(** * Locks *)

Section Locks.
  Context `{P : Primitives, S : SendCodec}.

Definition lock_inputs (inputs : list TxInput) (masternode_signatures : list DalekSignature)
    (masternode_public_keys : list DalekPublicKey) (quorum_threshold : Z) : sendR unit :=
  if len masternode_signatures <? quorum_threshold then Err "Not enough masternode signatures"%string
  else if len masternode_public_keys <? quorum_threshold then Err "Not enough masternode public keys"%string
  else
    inputs_serialized ← ok_or (bincode_inputs inputs) "Failed to serialize inputs"%string;
    match verify_masternode_multi_signature masternode_public_keys (blake3 inputs_serialized)
            masternode_signatures quorum_threshold with
    | Ok true => Ok tt
    | Ok false => Err "Invalid masternode signatures for input locking"%string
    | Err _ => Err "Error verifying masternode multi-signature"%string
    | Panic => Panic
    | OutOfFuel => OutOfFuel
    end.

Definition verify_client_locks (tx : Transaction) (expected_signatures : list DalekSignature)
    (masternode_public_keys : list DalekPublicKey) (quorum_threshold : Z) : bool :=
  if (len (get_inputs tx) =? 0) || (len expected_signatures =? 0) then false
  else if (len expected_signatures <? quorum_threshold) || (len masternode_public_keys <? quorum_threshold) then false
  else
    match bincode_inputs (get_inputs tx) with
    | Some inputs_serialized =>
        match verify_masternode_multi_signature masternode_public_keys (blake3 inputs_serialized)
                expected_signatures quorum_threshold with
        | Ok is_valid => is_valid
        | _ => false
        end
    | None => false
    end.

End Locks.

(** * Double spends *)

Section DoubleSpends.
  Context `{P : Primitives}.
  Context (iter_mn : MasternodeList -> list (MasternodeID * MasternodeEntry)).
  Context (iter_pool : Mempool -> list (Hash * Transaction)).

(** The script pays the hash of a public key; wallet scripts are built from
    the hash. *)
Definition send_create_p2pkh_script (pubkey : bytes) : bytes :=
  [0x76; 0xa9; 0x14] ++ ripemd160 (sha256 pubkey) ++ [0x88; 0xac].

Definition get_masternode_script_pubkey (masternode_id : MasternodeID) (bc : Blockchain) : bytes :=
  match masternode_list bc !! masternode_id with
  | Some entry =>
      send_create_p2pkh_script
        (if len (collateral_ownership_public_key (identity entry)) =? 0
         then operator_public_key (identity entry) else collateral_ownership_public_key (identity entry))
  | None => []
  end.

(** The masternode whose collateral an outpoint is. *)
Definition owner_of (bc : Blockchain) (o : OutPoint) : option MasternodeID :=
  fst <$> List.find (fun '(_, entry) => bool_decide (collateral_outpoint (identity entry) = o)) (iter_mn (masternode_list bc)).

Definition slashing_error_text (e : MnSlashingError) : string :=
  match e with
  | SlashInvalidProof msg => "Invalid proof data: " +:+ msg
  | SlashInsufficientCollateral msg => "Insufficient collateral: " +:+ msg
  end.

(** The transaction that tells the caller of a double spend that is not a
    masternode's. *)
Definition dummy_tx : Transaction := Standard 1 [] [] 0 0 [].

(** What is reported when the transaction spends an outpoint that is spent
    already; the code has this text twice. *)
Definition report_double_spend (tx : Transaction) (bc : Blockchain) (current_block_height : Z) (o : OutPoint) :
    outcome CE.ConsensusError (option Transaction) :=
  match owner_of bc o with
  | Some masternode_id =>
      proof_data ← ok_or (bincode_transaction tx) CE.bincode_failure;
      collateral ← ok_or (get_utxo (utxo_set bc) (mn_outpoint masternode_id))
                     (CE.MasternodeError "Collateral UTXO for slashing not found.");
      slash ← map_err (fun e => CE.MasternodeError (slashing_error_text e))
                (create_slashing_transaction masternode_id MnSlash.DoubleSpend proof_data
                   (TxInput_from_outpoint (mn_outpoint masternode_id) (script_pubkey (output collateral)) 0 [])
                   (value (output collateral)) (get_masternode_script_pubkey masternode_id bc) current_block_height);
      Ok (Some (MasternodeSlashTx slash))
  | None => Ok (Some dummy_tx)
  end.

(** The first input that is not in the UTXO set. *)
Definition missing_input (tx : Transaction) (bc : Blockchain) : option TxInput :=
  List.find (fun i => negb (contains_utxo (utxo_set bc) (previous_output i))) (get_inputs tx).

(** The first outpoint a pooled transaction and this one both spend. *)
Definition common_outpoint (pooled tx : Transaction) : option OutPoint :=
  head (concat ((fun existing => filter (fun o => o = previous_output existing) (previous_output <$> get_inputs tx))
    <$> get_inputs pooled)).

Fixpoint pool_conflict (tx : Transaction) (pool : list (Hash * Transaction)) :
    outcome CE.ConsensusError (option OutPoint) :=
  match pool with
  | [] => Ok None
  | (_, pooled) :: rest =>
      id ← tx_txid pooled;
      own ← tx_txid tx;
      if bool_decide (id = own) then pool_conflict tx rest
      else match common_outpoint pooled tx with
           | Some o => Ok (Some o)
           | None => pool_conflict tx rest
           end
  end.

Definition detect_and_slash_double_spend (tx : Transaction) (bc : Blockchain) (current_block_height : Z) :
    outcome CE.ConsensusError (option Transaction) :=
  match missing_input tx bc with
  | Some i => report_double_spend tx bc current_block_height (previous_output i)
  | None =>
      conflict ← pool_conflict tx (iter_pool (mempool bc));
      match conflict with
      | Some o => report_double_spend tx bc current_block_height o
      | None => Ok None
      end
  end.

End DoubleSpends.

(** * Quorums and mixing *)

Record OxideSendTransaction : Type := mkOxideSendTransaction {
  base_tx : Transaction;
  mix_id : Hash;
  mix_participants : list MasternodeID;
}.

Record MasternodeQuorum : Type := mkMasternodeQuorum {
  mq_quorum_id : Hash;
  mq_masternodes : list MasternodeID;
  mq_creation_block_hash : Hash;
  mq_expiration_block_hash : Hash;
  mq_dkg_session : option DKGSession;
  mq_threshold_public_key : option bytes;
  mq_threshold : Z;
}.

Section Mixing.
  Context `{P : Primitives, R : ChaCha8, SC : StoreCodec}.
  Context (iter_mn : MasternodeList -> list (MasternodeID * MasternodeEntry)).

Definition select_oxidesend_quorum (bc : Blockchain) (current_block_hash : Hash) (num_masternodes : Z) :
    sendR MasternodeQuorum :=
  let active_masternodes :=
    (fun '(_, entry) => mkMasternodeID (collateral_outpoint (identity entry))) <$>
    filter (fun '(_, entry) => status entry = Active) (iter_mn (masternode_list bc)) in
  if len active_masternodes <? num_masternodes then Err "Not enough active masternodes for quorum."%string
  else
    let current_block_height := current_height (state bc) in
    let config := QuorumConfig_default <| oxidesend_quorum_size := num_masternodes |> in
    formed ← snd (form_quorum iter_mn OxideSend (masternode_list bc) current_block_height current_block_hash None
                    (QuorumFormationManager_new config));
    let expiration_block_height := u64_add current_block_height QUORUM_EXPIRATION_BLOCKS in
    expiration ← map_err (fun _ => "Serialization error"%string) (get_block_hash (state bc) expiration_block_height);
    expiration ← unwrap expiration;
    Ok (mkMasternodeQuorum (quorum_id formed) (quorum_members formed) (quorum_creation_hash formed) expiration
          (dkg_session formed) None (quorum_threshold formed)).

Definition mix_input_value (u : UtxoSet) (i : TxInput) : Z :=
  default 0 ((fun x => value (output x)) <$> get_utxo u (previous_output i)).

Definition mixing_fee (inputs outputs : Z) (fee_per_kb : Z) : Z :=
  u64_mul (u64_mul (u64_add inputs outputs) 150) fee_per_kb / 1000.

Definition change_script : bytes :=
  [0x76; 0xa9; 0x14; 0x00; 0x11; 0x22; 0x33; 0x44; 0x55; 0x66; 0x77; 0x88; 0x99; 0xaa;
   0xbb; 0xcc; 0xdd; 0xee; 0xff; 0x00; 0x11; 0x22; 0x33; 0x88; 0xac].

Definition coordinate_oxidesend_mixing (bc : Blockchain) (current_block_hash : Hash) (inputs_to_mix : list TxInput)
    (outputs_to_mix : list TxOutput) (fee_per_kb : Z) : sendR OxideSendTransaction :=
  quorum ← map_err (fun e => "Failed to select OxideSend quorum: " +:+ e) (select_oxidesend_quorum bc current_block_hash 3);
  let total_input_value := sum64 (mix_input_value (utxo_set bc) <$> inputs_to_mix) in
  let total_output_value := sum64 (value <$> outputs_to_mix) in
  let total_fee := mixing_fee (len inputs_to_mix) (len outputs_to_mix) fee_per_kb in
  if u64_saturating_sub total_input_value total_fee <? total_output_value
  then Err "Insufficient input value to cover outputs and fees"%string
  else
    let change_amount := u64_saturating_sub (u64_saturating_sub total_input_value total_output_value) total_fee in
    let adjusted_outputs :=
      outputs_to_mix ++ (if 0 <? change_amount
                         then [mkTxOutput change_amount change_script (Some (string_bytes "OxideSend change output"))] else []) in
    base ← map_err (fun _ => ""%string) (build_standard_transaction inputs_to_mix adjusted_outputs fee_per_kb);
    id ← tx_txid base;
    Ok (mkOxideSendTransaction base (blake3 id) (mq_masternodes quorum)).

Definition initiate_oxidesend_mixing := coordinate_oxidesend_mixing.

End Mixing.

(** * Threshold signatures *)

Record ThresholdSignature : Type := mkThresholdSignature {
  ts_session_id : DKGSessionID;
  ts_message_hash : Hash;
  ts_signature_shares : gmap Z bytes;
  ts_aggregated_signature : option bytes;
  ts_signers : list Z;
}.

Section ThresholdSignatures.
  Context `{P : Primitives, A : AuthKeys, B : Bls12, S : SendCodec}.
  Context (iter_shares : gmap Z bytes -> list (Z * bytes)).
  Context (aggregate : gmap Z BlsShare -> Z -> outcome DKGError bytes).

Definition coordinate_dkg_for_quorum : stM MasternodeQuorum string unit := fun q =>
  match mq_dkg_session q with
  | None => (q, Err "No DKG session found in quorum"%string)
  | Some s =>
      if negb (bool_decide (session_state s = WaitingForParticipants))
      then (q, Err "DKG session not in correct state"%string)
      else match advance_phase s with
           | (s', r) => (q <| mq_dkg_session := Some s' |>, map_err (fun _ => "Failed to advance DKG phase"%string) r)
           end
  end.

Definition create_threshold_signature (tx : Transaction) (quorum : MasternodeQuorum) (key : SecretKeyShare)
    (participant_index : Z) (auth : Keypair) : sendR ThresholdSignature :=
  s ← ok_or (mq_dkg_session quorum) "No DKG session found in quorum"%string;
  if negb (bool_decide (session_state s = DkgCompleted)) then Err "DKG session not completed"%string
  else
    txid ← tx_txid tx;
    let share := create_signature_share (mkDKGProtocol participant_index auth) txid key (session_id s) in
    Ok (mkThresholdSignature (session_id s) (blake3 txid) {[participant_index := sig_share share]} None [participant_index]).

Definition add_signature_share_to_threshold (share : DKGSignatureShare) (sender_public_key : DalekPublicKey)
    : stM ThresholdSignature string unit := fun ts =>
  if negb (len (sig_signature share) =? 64) then (ts, Err "Invalid signature length"%string)
  else match signature_from_bytes (sig_signature share) with
       | None => (ts, Panic)
       | Some signature =>
           if negb (ed25519_verify sender_public_key (sig_share share) signature)
           then (ts, Err "Invalid authentication signature"%string)
           else
             let ts := ts <| ts_signature_shares ::= <[sig_participant_index share := sig_share share]> |> in
             ((if bool_decide (sig_participant_index share ∈ ts_signers ts) then ts
               else ts <| ts_signers ::= (fun l => l ++ [sig_participant_index share]) |>), Ok tt)
       end.

(** The shares as the threshold crate reads them. *)
Fixpoint crypto_shares (acc : gmap Z BlsShare) (l : list (Z * bytes)) : sendR (gmap Z BlsShare) :=
  match l with
  | [] => Ok acc
  | (index, share_bytes) :: rest =>
      if negb (len share_bytes =? 96) then Err "Invalid signature share length"%string
      else
        share ← ok_or (bls_share_from_bytes share_bytes) "Invalid signature share format"%string;
        crypto_shares (<[index := share]> acc) rest
  end.

Definition finalize_threshold_signature (quorum : MasternodeQuorum) : stM ThresholdSignature string unit := fun ts =>
  if Z.of_nat (size (ts_signature_shares ts)) <? mq_threshold quorum then (ts, Err "Insufficient signature shares"%string)
  else match (shares ← crypto_shares ∅ (iter_shares (ts_signature_shares ts));
              map_err (fun _ => "Failed to aggregate signatures"%string) (aggregate shares (mq_threshold quorum))) with
       | Ok aggregated => (ts <| ts_aggregated_signature := Some aggregated |>, Ok tt)
       | Err e => (ts, Err e)
       | Panic => (ts, Panic)
       | OutOfFuel => (ts, OutOfFuel)
       end.

(** Signatures of the transaction id with an ordinary key. *)
Definition sign_mixed_transaction (tx : Transaction) (key : Keypair) : sendR bytes :=
  txid ← tx_txid tx; Ok (keypair_sign key txid).

Definition send_sign_transaction (key : Keypair) (tx : Transaction) : sendR bytes :=
  txid ← tx_txid tx; Ok (keypair_sign key txid).

Definition verify_mixed_transaction (tx : Transaction) (signatures : list DalekSignature)
    (masternode_public_keys : list DalekPublicKey) (quorum_threshold : Z) : sendR bool :=
  txid ← tx_txid tx;
  match verify_masternode_multi_signature masternode_public_keys txid signatures quorum_threshold with
  | Ok is_valid => Ok is_valid
  | _ => Ok false
  end.

End ThresholdSignatures.

(** * Theorems: locks *)

Section LockTheorems.
  Context `{P : Primitives, S : SendCodec}.

Lemma lock_inputs_verified inputs sigs keys t :
  lock_inputs inputs sigs keys t = Ok tt ->
  exists b, bincode_inputs inputs = Some b /\ verify_masternode_multi_signature keys (blake3 b) sigs t = Ok true.
Proof.
  unfold lock_inputs. destruct (_ <? t); [done|]. destruct (_ <? t); [done|].
  destruct (bincode_inputs inputs) as [b|]; [|done]. cbn [ok_or mbind outcome_bind].
  destruct (verify_masternode_multi_signature _ _ _ _) as [[]|e| |] eqn:Hv; try done. eauto.
Qed.

(** What a client accepts is what locks the inputs of the transaction, which
    must have some. *)
Theorem client_accepts_iff_locked tx sigs keys t :
  verify_client_locks tx sigs keys t = true <-> get_inputs tx <> [] /\ lock_inputs (get_inputs tx) sigs keys t = Ok tt.
Proof.
  unfold verify_client_locks, lock_inputs.
  assert (Hi : len (get_inputs tx) = 0 <-> get_inputs tx = []) by (destruct (get_inputs tx); unfold len; cbn; [done|split; [lia|done]]).
  destruct (Z.eqb_spec (len (get_inputs tx)) 0) as [Hz|Hz]; cbn [orb]; [split; [done|]; intros [Hne _]; destruct Hne; by apply Hi|].
  destruct (_ <? t) eqn:H1; [case_match; (split; [done|intros [_ ?]; done])|].
  destruct (len keys <? t) eqn:H2; [case_match; (split; [done|intros [_ ?]; done])|].
  destruct (bincode_inputs (get_inputs tx)) as [b|]; cbn [ok_or mbind outcome_bind]; [|case_match; (split; [done|intros [_ ?]; done])].
  destruct (Z.eqb_spec (len sigs) 0) as [Hs|Hs].
  - unfold verify_masternode_multi_signature, verify_multi_signature. rewrite Hs, orb_true_r. split; [done|intros [_ ?]; done].
  - destruct (verify_masternode_multi_signature _ _ _ _) as [[]|e| |]; (split; [|by intros [_ ?]]); intros ?; [|done..].
    split; [by intros ?%Hi|done].
Qed.

(** A masternode alone locks what it wants: its one signature, repeated. *)
Theorem one_masternode_locks inputs b keys key s t :
  bincode_inputs inputs = Some b -> key ∈ keys -> ed25519_verify key (blake3 b) s = true -> t <= len keys ->
  lock_inputs inputs (replicate (length keys) s) keys t = Ok tt.
Proof.
  intros Hb Hk Hv Ht. unfold lock_inputs. assert (Hlen : len (replicate (length keys) s) = len keys) by (unfold len; by rewrite length_replicate).
  rewrite Hlen. destruct (Z.ltb_spec (len keys) t); [lia|]. rewrite Hb. cbn [ok_or mbind outcome_bind].
  by rewrite (one_signer_meets_any_threshold keys (blake3 b) key s t).
Qed.

(** Two conflicting sets of inputs locked by the masternodes of one quorum,
    each with signatures of different keys, were both signed by one
    masternode. *)
Theorem conflicting_locks_blame_a_masternode inputs1 inputs2 sigs1 sigs2 keys t1 t2 b1 b2 :
  bincode_inputs inputs1 = Some b1 -> bincode_inputs inputs2 = Some b2 ->
  separate keys (blake3 b1) sigs1 -> separate keys (blake3 b2) sigs2 ->
  lock_inputs inputs1 sigs1 keys t1 = Ok tt -> lock_inputs inputs2 sigs2 keys t2 = Ok tt ->
  exists i, signed keys (blake3 b1) sigs1 i /\ signed keys (blake3 b2) sigs2 i.
Proof.
  intros H1 H2 Hs1 Hs2 (b & Hb & Hv1)%lock_inputs_verified (b' & Hb' & Hv2)%lock_inputs_verified.
  rewrite H1 in Hb. rewrite H2 in Hb'. injection Hb as <-. injection Hb' as <-. by eapply accepted_messages_share_a_signer.
Qed.

End LockTheorems.

(** * Theorems: double spends *)

Section DoubleSpendTheorems.
  Context `{P : Primitives}.
  Context (iter_mn : MasternodeList -> list (MasternodeID * MasternodeEntry)).
  Context (iter_pool : Mempool -> list (Hash * Transaction)).
  Context (iter_mn_lists : forall m, iter_mn m ≡ₚ map_to_list m).
  Context (iter_pool_lists : forall m, iter_pool m ≡ₚ map_to_list m).

Lemma missing_input_none tx bc :
  missing_input tx bc = None <-> Forall (fun i => is_Some (utxo_set bc !! previous_output i)) (get_inputs tx).
Proof.
  unfold missing_input. rewrite Forall_forall. split.
  - intros Hn i Hi. apply list_elem_of_In in Hi. apply (find_none _ _ Hn i) in Hi.
    apply negb_false_iff in Hi. by apply bool_decide_eq_true in Hi.
  - intros Hall. destruct (List.find _ _) as [i|] eqn:Hf; [|done]. apply find_some in Hf as [Hi Hn].
    apply negb_true_iff in Hn. apply bool_decide_eq_false in Hn. destruct Hn. by apply Hall, list_elem_of_In.
Qed.

Lemma common_outpoint_spec pooled tx :
  match common_outpoint pooled tx with
  | Some o => spends pooled o = true /\ spends tx o = true
  | None => forall o, spends pooled o = true -> spends tx o = true -> False
  end.
Proof.
  unfold common_outpoint.
  assert (Hel : forall o, o ∈ concat ((fun existing => filter (fun o => o = previous_output existing)
      (previous_output <$> get_inputs tx)) <$> get_inputs pooled) <-> spends pooled o = true /\ spends tx o = true).
  { intros o. rewrite !spends_spec, list_elem_of_In, in_concat. split.
    - intros (l & Hl & Ho). rewrite <- list_elem_of_In in Hl. rewrite <- list_elem_of_In in Ho. apply list_elem_of_fmap in Hl as (e & -> & He).
      apply list_elem_of_filter in Ho as [-> Ho]. apply list_elem_of_fmap in Ho as (i & Hi & Hin).
      split; [by exists e|]. exists i. by split.
    - intros [(e & He & <-) (i & Hi & Heq)]. exists (filter (fun o => o = previous_output e) (previous_output <$> get_inputs tx)).
      rewrite <- !list_elem_of_In. split; [apply list_elem_of_fmap; by exists e|]. apply list_elem_of_filter. split; [done|].
      apply list_elem_of_fmap. exists i. by split. }
  destruct (concat _) as [|o l]; cbn [head].
  - intros o H1 H2. eapply not_elem_of_nil, Hel. by split.
  - apply Hel. left.
Qed.

(** The scan of the pool finds an outpoint exactly when another transaction
    of it spends what this one spends. *)
Lemma pool_conflict_spec tx id pool :
  bincode_transaction tx = Some id -> Forall (fun p => tx_txid (E := Empty_set) p.2 = Ok p.1) pool ->
  match pool_conflict tx pool with
  | Ok (Some o) => spends tx o = true /\ exists j a, (j, a) ∈ pool /\ j <> blake3 id /\ spends a o = true
  | Ok None => forall j a o, (j, a) ∈ pool -> j <> blake3 id -> spends a o = true -> spends tx o = true -> False
  | _ => False
  end.
Proof.
  intros Hid. induction 1 as [|[j a] pool Hj Hall IH]; cbn [pool_conflict].
  { intros ? ? ? H. by apply elem_of_nil in H. }
  cbn [fst snd] in Hj. unfold tx_txid in *. destruct (bincode_transaction a) as [ja|]; [|done]. injection Hj as <-.
  rewrite Hid. cbn [unwrap mbind outcome_bind mret outcome_ret].
  pose proof (common_outpoint_spec a tx) as Hc.
  destruct (pool_conflict tx pool) as [[o|]|e| |]; [| |done..].
  - destruct IH as (Ho & j & b & Hin & Hne & Hb). case_bool_decide as Hd.
    + split; [done|]. exists j, b. by split_and!; [right| |].
    + destruct (common_outpoint a tx) as [o'|]; [|split; [done|]; exists j, b; by split_and!; [right| |]].
      split; [apply Hc|]. exists (blake3 ja), a. split_and!; [left|done|apply Hc].
  - case_bool_decide as Hd; [|destruct (common_outpoint a tx) as [o'|]].
    + intros j b o [[= -> ->]|Hin]%elem_of_cons; [done|by apply IH].
    + split; [apply Hc|]. exists (blake3 ja), a. split_and!; [left|done|apply Hc].
    + intros j b o [[= -> ->]|Hin]%elem_of_cons; [intros _; apply Hc|by apply IH].
Qed.

(** The report never says that there is no double spend. *)
Lemma report_is_some tx bc h o : report_double_spend iter_mn tx bc h o <> Ok None.
Proof.
  unfold report_double_spend. destruct (owner_of _ _ _); [|done].
  destruct (bincode_transaction tx); [|done]. destruct (get_utxo _ _); [|done]. cbn [ok_or mbind outcome_bind].
  by destruct (create_slashing_transaction _ _ _ _ _ _ _).
Qed.

Lemma pool_entries m : mempool_wf m -> Forall (fun p => tx_txid (E := Empty_set) p.2 = Ok p.1) (iter_pool m).
Proof using iter_pool_lists.
  intros [Hid _]. apply Forall_forall. intros [j a] Hin. rewrite iter_pool_lists, elem_of_map_to_list in Hin. by apply Hid.
Qed.

(** Nothing is reported exactly when every input of the transaction is
    unspent and no other transaction of the pool spends one of them. *)
Theorem no_double_spend_iff tx bc h id :
  bincode_transaction tx = Some id -> mempool_wf (mempool bc) ->
  (detect_and_slash_double_spend iter_mn iter_pool tx bc h = Ok None <->
   Forall (fun i => is_Some (utxo_set bc !! previous_output i)) (get_inputs tx) /\
   forall j a o, mempool bc !! j = Some a -> j <> blake3 id -> spends a o = true -> spends tx o = true -> False).
Proof using iter_pool_lists.
  intros Hid Hwf. unfold detect_and_slash_double_spend. rewrite <- missing_input_none.
  destruct (missing_input tx bc) as [i|]; [split; [by intros ?%report_is_some|by intros [? _]]|].
  pose proof (pool_conflict_spec tx id (iter_pool (mempool bc)) Hid (pool_entries _ Hwf)) as Hp.
  assert (Hin : forall j a, (j, a) ∈ iter_pool (mempool bc) <-> mempool bc !! j = Some a)
    by (intros; by rewrite iter_pool_lists, elem_of_map_to_list).
  destruct (pool_conflict tx (iter_pool (mempool bc))) as [[o|]|e| |]; cbn [mbind outcome_bind]; [| |done..].
  - split; [by intros ?%report_is_some|]. intros [_ Hno]. destruct Hp as (Ho & j & a & Ha & Hne & Hs).
    exfalso. eapply Hno; [by apply Hin|done|done|done].
  - split; [|done]. intros _. split; [done|]. intros j a o Ha. apply Hp. by apply Hin.
Qed.

(** A transaction of a pool built by admission, whose inputs are unspent, is
    not reported. *)
Theorem pooled_transaction_not_reported tx bc h id :
  mempool_wf (mempool bc) -> mempool bc !! id = Some tx ->
  Forall (fun i => is_Some (utxo_set bc !! previous_output i)) (get_inputs tx) ->
  detect_and_slash_double_spend iter_mn iter_pool tx bc h = Ok None.
Proof using iter_pool_lists.
  intros Hwf Htx Hin. assert (Hid := proj1 Hwf id tx Htx). cbn beta in Hid. unfold tx_txid in Hid.
  destruct (bincode_transaction tx) as [b|] eqn:Hb; [|done]. injection Hid as Hid.
  apply (no_double_spend_iff tx bc h b Hb Hwf). split; [done|]. intros j a o Ha Hne Hs1 Hs2.
  apply Hne. rewrite Hid. exact (proj2 Hwf j id a tx o Ha Htx Hs1 Hs2).
Qed.

Lemma owner_of_spec bc o mn :
  mn_wf (masternode_list bc) -> owner_of iter_mn bc o = Some mn ->
  mn_outpoint mn = o /\ is_Some (masternode_list bc !! mn).
Proof using iter_mn_lists.
  intros Hwf Ho. unfold owner_of in Ho. destruct (List.find _ _) as [[i e]|] eqn:Hf; [|done]. injection Ho as <-.
  apply find_some in Hf as [Hin He]. apply bool_decide_eq_true in He. apply list_elem_of_In in Hin.
  rewrite iter_mn_lists, elem_of_map_to_list in Hin. destruct (Hwf i e Hin) as [Hc _]. cbn [fst].
  split; [congruence|by exists e].
Qed.

(** C32. When the transaction serializes, the pool is keyed by transaction ids
    without conflicts and the masternode list by collateral ([mempool_wf],
    [mn_wf]), a masternode is slashed only for a coin that is still there: its
    collateral, unspent, which the transaction and another one of the pool
    both spend.  The slash spends the collateral, has one output, which burns
    the whole value of a collateral below 2^53 units, and carries the bytes of
    the transaction as its proof. *)
Theorem slash_justified tx bc h id s :
  bincode_transaction tx = Some id -> mempool_wf (mempool bc) -> mn_wf (masternode_list bc) ->
  detect_and_slash_double_spend iter_mn iter_pool tx bc h = Ok (Some (MasternodeSlashTx s)) ->
  exists mn u j a,
    is_Some (masternode_list bc !! mn) /\ utxo_set bc !! mn_outpoint mn = Some u /\
    spends tx (mn_outpoint mn) = true /\
    mempool bc !! j = Some a /\ j <> blake3 id /\ spends a (mn_outpoint mn) = true /\
    slash_masternode_id s = mn /\ slash_proof s = id /\ previous_output <$> slash_inputs s = [mn_outpoint mn] /\
    exists burned, slash_outputs s = [mn_create_burn_output burned] /\
      (0 <= value (output u) < 2 ^ 53 -> burned = value (output u)).
Proof using iter_mn_lists iter_pool_lists.
  intros Hid Hwf Hmn. unfold detect_and_slash_double_spend.
  assert (Hrep : forall o, report_double_spend iter_mn tx bc h o = Ok (Some (MasternodeSlashTx s)) ->
    exists mn u, mn_outpoint mn = o /\ is_Some (masternode_list bc !! mn) /\ utxo_set bc !! o = Some u /\
      slash_masternode_id s = mn /\ slash_proof s = id /\ previous_output <$> slash_inputs s = [o] /\
      slash_outputs s = [mn_create_burn_output (MnSlash.slashed_amount MnSlash.DoubleSpend (value (output u)))]).
  { intros o Hr. unfold report_double_spend in Hr. destruct (owner_of iter_mn bc o) as [mn|] eqn:Ho; [|done].
    apply owner_of_spec in Ho as [<- Hs]; [|done]. rewrite Hid in Hr. cbn [ok_or mbind outcome_bind] in Hr.
    unfold get_utxo in Hr. destruct (utxo_set bc !! mn_outpoint mn) as [u|]; [|done]. cbn [ok_or mbind outcome_bind] in Hr.
    unfold create_slashing_transaction in Hr. destruct (_ <? _); [done|]. cbn [map_err mbind outcome_bind] in Hr. injection Hr as <-.
    exists mn, u. do 5 (split; [done|]). split; [by destruct (mn_outpoint mn)|]. cbn. by rewrite andb_false_r. }
  destruct (missing_input tx bc) as [i|] eqn:Hm.
  { intros Hr. exfalso. destruct (Hrep _ Hr) as (mn & u & _ & _ & Hu & _). unfold missing_input in Hm.
    apply find_some in Hm as [_ Hn]. apply negb_true_iff, bool_decide_eq_false in Hn. destruct Hn. by exists u. }
  pose proof (pool_conflict_spec tx id (iter_pool (mempool bc)) Hid (pool_entries _ Hwf)) as Hp.
  destruct (pool_conflict tx (iter_pool (mempool bc))) as [[o|]|e| |]; cbn [mbind outcome_bind]; [|done..].
  intros Hr. destruct (Hrep _ Hr) as (mn & u & <- & Hs & Hu & Hrest). destruct Hp as (Ho & j & a & Ha & Hne & Hsp).
  rewrite iter_pool_lists, elem_of_map_to_list in Ha. exists mn, u, j, a. destruct Hrest as (H1 & H2 & H3 & H4).
  split_and!; try done. eexists. split; [exact H4|]. apply whole_collateral.
Qed.

(** A masternode that spent its collateral and spends it again is not
    slashed: the collateral is looked up among the unspent outputs and the
    call fails. *)
Theorem spent_collateral_not_slashed tx bc h id i mn e :
  bincode_transaction tx = Some id -> mn_wf (masternode_list bc) ->
  missing_input tx bc = Some i -> masternode_list bc !! mn = Some e -> mn_outpoint mn = previous_output i ->
  detect_and_slash_double_spend iter_mn iter_pool tx bc h =
    Err (CE.MasternodeError "Collateral UTXO for slashing not found.").
Proof using iter_mn_lists.
  intros Hid Hwf Hm He Hmn. unfold detect_and_slash_double_spend. rewrite Hm. unfold report_double_spend.
  destruct (owner_of iter_mn bc (previous_output i)) as [mn'|] eqn:Ho.
  - apply owner_of_spec in Ho as [Ho _]; [|done]. rewrite Hid, Ho. cbn [ok_or mbind outcome_bind]. unfold get_utxo.
    unfold missing_input in Hm. apply find_some in Hm as [_ Hn]. apply negb_true_iff, bool_decide_eq_false in Hn.
    apply eq_None_not_Some in Hn. by rewrite Hn.
  - exfalso. unfold owner_of in Ho. destruct (List.find _ _) as [|] eqn:Hf; [done|].
    assert (Hin : In (mn, e) (iter_mn (masternode_list bc))).
    { apply list_elem_of_In. by rewrite iter_mn_lists, elem_of_map_to_list. }
    specialize (find_none _ _ Hf (mn, e) Hin). cbn beta iota. rewrite bool_decide_eq_false. intros Hne. apply Hne.
    destruct (Hwf mn e He) as [Hc _]. congruence.
Qed.

End DoubleSpendTheorems.

(** * Theorems: quorums and mixing *)

Section MixingTheorems.
  Context `{P : Primitives, R : ChaCha8, SC : StoreCodec}.
  Context (iter_mn : MasternodeList -> list (MasternodeID * MasternodeEntry)).

(** A quorum expires with a block ten thousand heights ahead, whose hash is
    read when the quorum is formed: as long as that block is not stored, no
    quorum is selected and nothing is mixed. *)
Theorem quorum_needs_a_future_block bc bh n inputs outputs fee :
  get_block_hash (state bc) (u64_add (current_height (state bc)) QUORUM_EXPIRATION_BLOCKS) = Ok None ->
  is_ok (select_oxidesend_quorum iter_mn bc bh n) = false /\
  is_ok (coordinate_oxidesend_mixing iter_mn bc bh inputs outputs fee) = false.
Proof.
  intros Hn. assert (Hsel : forall n, is_ok (select_oxidesend_quorum iter_mn bc bh n) = false).
  { intros k. unfold select_oxidesend_quorum. destruct (_ <? k); [done|].
    destruct (snd (form_quorum _ _ _ _ _ _ _)) as [q|e| |]; cbn [mbind outcome_bind]; [|done..]. by rewrite Hn. }
  split; [apply Hsel|]. unfold coordinate_oxidesend_mixing. specialize (Hsel 3).
  by destruct (select_oxidesend_quorum iter_mn bc bh 3).
Qed.

(** The values of a mixing request add up without overflow. *)
Definition mixable (u : UtxoSet) (inputs : list TxInput) (outputs : list TxOutput) (fee_per_kb : Z) : Prop :=
  Forall (Z.le 0) (mix_input_value u <$> inputs) /\ total (mix_input_value u <$> inputs) <= u64_max /\
  Forall (Z.le 0) (value <$> outputs) /\ total (value <$> outputs) <= u64_max /\
  0 <= fee_per_kb /\ (len inputs + len outputs) * 150 * fee_per_kb <= u64_max /\ (len inputs + len outputs) * 150 <= u64_max.

Lemma mixing_fee_exact i o f :
  0 <= i -> 0 <= o -> 0 <= f -> (i + o) * 150 * f <= u64_max -> (i + o) * 150 <= u64_max ->
  mixing_fee i o f = (i + o) * 150 * f / 1000 /\ 0 <= mixing_fee i o f.
Proof.
  intros Hi Ho Hf H1 H2. unfold mixing_fee, u64_mul, u64_add. rewrite (wrap64_small (i + o)) by lia.
  rewrite (wrap64_small ((i + o) * 150)) by lia. rewrite wrap64_small by nia. split; [done|]. apply Z.div_pos; nia.
Qed.

(** A mixed transaction spends the requested inputs and pays the requested
    outputs, worth something together; the change, if any, takes everything but the fee that was
    computed, while the fee written in the transaction is the rate. *)
Theorem mixed_transaction_balances bc bh inputs outputs fee_per_kb m :
  mixable (utxo_set bc) inputs outputs fee_per_kb -> 0 < total (value <$> outputs) ->
  coordinate_oxidesend_mixing iter_mn bc bh inputs outputs fee_per_kb = Ok m ->
  exists change,
    base_tx m = Standard 1 inputs (outputs ++ change) 0 fee_per_kb [] /\
    total (mix_input_value (utxo_set bc) <$> inputs) =
      total (value <$> outputs) + total (value <$> change) + (len inputs + len outputs) * 150 * fee_per_kb / 1000 /\
    Forall (fun o => script_pubkey o = change_script /\ 0 < value o) change.
Proof.
  intros (Hi & Hit & Ho & Hot & Hf & H1 & H2) Hsome Hm. unfold coordinate_oxidesend_mixing in Hm.
  apply outcome_bind_inv in Hm as (q & _ & Hm).
  rewrite !sum64_total in Hm by done.
  destruct (mixing_fee_exact (len inputs) (len outputs) fee_per_kb) as [Hfee Hpos]; [unfold len; lia..|done|done|done|].
  rewrite Hfee in *. set (fee := (len inputs + len outputs) * 150 * fee_per_kb / 1000) in *.
  set (ti := total (mix_input_value _ <$> _)) in *. set (tout := total (value <$> outputs)) in *.
  unfold u64_saturating_sub in Hm.
  destruct (Z.ltb_spec (Z.max 0 (ti - fee)) tout) as [|Hle]; [done|].
  apply outcome_bind_inv in Hm as (base & Hb & Hm). injection Hb as <-. apply outcome_bind_inv in Hm as (id & _ & Hm).
  injection Hm as <-. cbn [base_tx].
  destruct (Z.ltb_spec 0 (Z.max 0 (Z.max 0 (ti - tout) - fee))) as [Hc|Hc]; eexists; (split; [reflexivity|]).
  - cbn [fmap list_fmap value]. rewrite total_cons. change (total []) with 0. split; [lia|]. by repeat constructor.
  - change (total (value <$> [])) with 0. split; [lia|constructor].
Qed.

End MixingTheorems.

(** * Theorems: threshold signatures *)

Section ThresholdTheorems.
  Context `{P : Primitives, A : AuthKeys, B : Bls12, S : SendCodec}.
  Context (iter_shares : gmap Z bytes -> list (Z * bytes)).
  Context (aggregate : gmap Z BlsShare -> Z -> outcome DKGError bytes).

(** What happens to a threshold signature: shares arrive and it is
    finalised. *)
Inductive ts_op : Type :=
| TsAdd (share : DKGSignatureShare) (key : DalekPublicKey)
| TsFinalize (quorum : MasternodeQuorum).

Definition ts_exec (ts : ThresholdSignature) (op : ts_op) : ThresholdSignature :=
  match op with
  | TsAdd share key => fst (add_signature_share_to_threshold share key ts)
  | TsFinalize quorum => fst (finalize_threshold_signature iter_shares aggregate quorum ts)
  end.

(** The signers are the participants whose shares are held. *)
Definition ts_wf (ts : ThresholdSignature) : Prop :=
  NoDup (ts_signers ts) /\ forall i, i ∈ ts_signers ts <-> is_Some (ts_signature_shares ts !! i).

Lemma ts_exec_wf ts op : ts_wf ts -> ts_wf (ts_exec ts op).
Proof.
  intros [Hnd Hs]. destruct ts as [sid mh shares agg signers]. destruct op as [share key|quorum]; cbn [ts_exec].
  - unfold add_signature_share_to_threshold. destruct (negb _); [done|]. destruct (signature_from_bytes _) as [sg|]; [|done].
    destruct (negb _); [done|]. cbn in *. set (i := sig_participant_index share). case_bool_decide as Hin; cbn; split; cbn.
    + done.
    + intros j. rewrite Hs. destruct (decide (j = i)) as [->|]; [|by rewrite lookup_insert_ne].
      rewrite lookup_insert_eq. split; [done|]. intros _. by apply Hs.
    + apply NoDup_app. split_and!; [done| |apply NoDup_singleton]. intros j Hj Hji%list_elem_of_singleton. by subst.
    + intros j. rewrite elem_of_app, list_elem_of_singleton, Hs.
      destruct (decide (j = i)) as [->|]; [rewrite lookup_insert_eq; naive_solver|rewrite lookup_insert_ne by done; naive_solver].
  - unfold finalize_threshold_signature. destruct (_ <? _); [done|].
    by destruct (crypto_shares _ _ ≫= _).
Qed.

Lemma wf_signers_count ts : ts_wf ts -> len (ts_signers ts) = Z.of_nat (size (ts_signature_shares ts)).
Proof.
  intros [Hnd Hs]. unfold len. f_equal. rewrite <- size_dom, <- (size_list_to_set (C := gset Z) _ Hnd).
  apply set_size_proper. intros i. by rewrite elem_of_list_to_set, elem_of_dom, Hs.
Qed.

(** From its creation on, the signers of a threshold signature are exactly
    the participants whose shares it holds, each once; it is finalised only
    when the threshold of the quorum is reached by different participants. *)
Theorem threshold_signature_signers tx quorum key i auth ts ops q :
  create_threshold_signature tx quorum key i auth = Ok ts ->
  let ts := foldl ts_exec ts ops in
  ts_wf ts /\
  (snd (finalize_threshold_signature iter_shares aggregate q ts) = Ok tt -> mq_threshold q <= len (ts_signers ts)).
Proof.
  intros Hc. assert (Hwf : ts_wf (foldl ts_exec ts ops)).
  { apply (foldl_inv ts_wf); [|intros; by apply ts_exec_wf]. unfold create_threshold_signature in Hc.
    destruct (mq_dkg_session quorum); [|done]. cbn [ok_or mbind outcome_bind] in Hc. destruct (negb _); [done|].
    apply outcome_bind_inv in Hc as (id & _ & Hc). injection Hc as <-. split; cbn; [apply NoDup_singleton|].
    intros j. rewrite list_elem_of_singleton, lookup_singleton_is_Some. naive_solver. }
  cbn zeta. split; [done|]. rewrite wf_signers_count by done. unfold finalize_threshold_signature.
  destruct (Z.ltb_spec (Z.of_nat (size (ts_signature_shares (foldl ts_exec ts ops)))) (mq_threshold q)); [done|]. lia.
Qed.

(** The index of a share is not authenticated: a sender whose share was
    accepted can have it stored again under any index, in place of the share
    of the participant who has that index. *)
Theorem share_index_is_free share key ts ts' j :
  add_signature_share_to_threshold share key ts = (ts', Ok tt) ->
  let moved := mkDKGSignatureShare (sig_session_id share) j (sig_message_hash share) (sig_share share) (sig_signature share) in
  let r := add_signature_share_to_threshold moved key ts' in
  snd r = Ok tt /\ ts_signature_shares (fst r) !! j = Some (sig_share share).
Proof.
  unfold add_signature_share_to_threshold. cbn [sig_signature sig_share sig_participant_index].
  destruct (negb (len _ =? 64)); [done|]. destruct (signature_from_bytes _) as [sg|]; [|done].
  destruct (negb _); [done|]. intros _. split; [done|]. destruct ts' as [sid mh shares agg signers]. cbn.
  case_bool_decide; cbn; apply lookup_insert_eq.
Qed.

(** The share a participant creates authenticates the transaction id, and is
    verified against the bytes of the share: it is accepted only if the
    signature of one passes for the other. *)
Theorem honest_share_needs_a_forgery (p : DKGProtocol) (key : SecretKeyShare) txid sid pk ts ts' :
  add_signature_share_to_threshold (create_signature_share p txid key sid) pk ts = (ts', Ok tt) ->
  exists sig, signature_from_bytes (keypair_sign (auth_secret_key p) txid) = Some sig /\
    ed25519_verify pk (sign_share key txid) sig = true.
Proof.
  unfold add_signature_share_to_threshold. cbn [create_signature_share sig_signature sig_share].
  destruct (negb (len _ =? 64)); [done|]. destruct (signature_from_bytes _) as [sg|]; [|done].
  destruct (ed25519_verify _ _ _) eqn:Hv; [|done]. intros _. by exists sg.
Qed.

End ThresholdTheorems.

(** * Samples *)

Definition sample_send_codec : SendCodec := {|
  bincode_inputs l := Some (concat (sample_bincode_input <$> l));
  BlsShare := bytes;
  bls_share_from_bytes := Some;
|}.

(** Twelve masternodes, one of which spends its collateral twice; a block is
    stored far ahead. *)
Definition twelve_masternodes : MasternodeList :=
  list_to_map ((fun k => (mn_of k, seasoned_entry k)) <$> seqZ 1 12).

Definition single_pool (tx : Transaction) : Mempool := {[ tx_hash tx := tx ]}.

Definition send_chain (u : UtxoSet) (m : Mempool) : Blockchain :=
  mkBlockchain [] LiveTicketsPool_new u twelve_masternodes (db_insert (height_key 10000) (replicate 32 4) BlockchainState_new)
    ConsensusParams_default ActiveProposals_new m.

Lemma pool_of_wf tx : mempool_wf (single_pool tx).
Proof.
  unfold single_pool. split.
  - by apply map_Forall_singleton.
  - intros i j a b o Hi Hj _ _. apply lookup_singleton_Some in Hi as [<- _]. by apply lookup_singleton_Some in Hj as [<- _].
Qed.

Lemma twelve_wf : mn_wf twelve_masternodes.
Proof.
  unfold twelve_masternodes, mn_wf. generalize (seqZ 1 12). intros l. induction l as [|k l IH]; [apply map_Forall_empty|].
  cbn [fmap list_fmap list_to_map]. apply map_Forall_insert_2; [|exact IH]. split; [done|]. split; [|done].
  unfold is_u32, u32_max. cbn. lia.
Qed.

Lemma one_masternode_locks_witness :
  @lock_inputs sample_primitives sample_send_codec [sample_input]
    (replicate 3 (sign_as 2 (sample_hash 32 1 (sample_bincode_input sample_input)))) quorum_keys 3 = Ok tt.
Proof.
  apply (@one_masternode_locks sample_primitives sample_send_codec [sample_input] (sample_bincode_input sample_input ++ [])
    quorum_keys (replicate 32 2)).
  - reflexivity.
  - right. left.
  - vm_compute. reflexivity.
  - unfold len. cbn. lia.
Defined.

Definition other_input : TxInput := TxInput_from_outpoint (mkOutPoint (replicate 32 7) 0) [1] 0 [].
Definition locked_message (i : TxInput) : bytes := sample_hash 32 1 (sample_bincode_input i ++ []).

Lemma conflicting_locks_blame_a_masternode_witness :
  exists i, signed quorum_keys (locked_message sample_input) ((fun k => sign_as k (locked_message sample_input)) <$> [1; 2]) i /\
    signed quorum_keys (locked_message other_input) ((fun k => sign_as k (locked_message other_input)) <$> [2; 3]) i.
Proof.
  apply (@conflicting_locks_blame_a_masternode sample_primitives sample_send_codec [sample_input] [other_input] _ _ quorum_keys 2 2
    (sample_bincode_input sample_input ++ []) (sample_bincode_input other_input ++ [])).
  - reflexivity.
  - reflexivity.
  - apply separate_list. repeat constructor; set_solver.
  - apply separate_list. repeat constructor; set_solver.
  - vm_compute. reflexivity.
  - vm_compute. reflexivity.
Defined.

Definition unspent_inputs (bc : Blockchain) (tx : Transaction) : bool :=
  forallb (fun i => contains_utxo (utxo_set bc) (previous_output i)) (get_inputs tx).

Lemma no_double_spend_iff_witness :
  forall j a o, single_pool sample_tx !! j = Some a -> j <> tx_hash sample_tx -> spends a o = true -> spends sample_tx o = true -> False.
Proof.
  refine (proj2 (proj1 (no_double_spend_iff forward map_to_list (fun m => Permutation_refl _) sample_tx
    (send_chain open_set (single_pool sample_tx)) 9 (sample_bincode sample_tx) eq_refl (pool_of_wf sample_tx)) _)).
  vm_compute. reflexivity.
Defined.

Lemma pooled_transaction_not_reported_witness :
  detect_and_slash_double_spend forward map_to_list sample_tx (send_chain open_set (single_pool sample_tx)) 9 = Ok None.
Proof.
  apply (pooled_transaction_not_reported forward map_to_list (fun m => Permutation_refl _) sample_tx
    (send_chain open_set (single_pool sample_tx)) 9 (tx_hash sample_tx) (pool_of_wf sample_tx)).
  - apply lookup_singleton_eq.
  - apply Forall_singleton. exists (mkUtxo (TxOutput_new 5000 [0x51]) false 0). reflexivity.
Defined.

Definition sample_report : option Transaction :=
  match detect_and_slash_double_spend forward map_to_list paying_tx (send_chain open_set (single_pool sample_tx)) 9 with
  | Ok r => r
  | _ => None
  end.

Definition reported_slash : MasternodeSlash :=
  match sample_report with Some (MasternodeSlashTx s) => s | _ => sample_slash end.

Lemma slash_justified_witness :
  exists mn u, open_set !! mn_outpoint mn = Some u /\ slash_masternode_id reported_slash = mn /\
    slash_proof reported_slash = sample_bincode paying_tx.
Proof.
  assert (Hd : detect_and_slash_double_spend forward map_to_list paying_tx (send_chain open_set (single_pool sample_tx)) 9 =
    Ok (Some (MasternodeSlashTx reported_slash))) by (vm_compute; reflexivity).
  destruct (slash_justified (P := sample_primitives) forward map_to_list (fun m => Permutation_refl _) (fun m => Permutation_refl _) paying_tx
    (send_chain open_set (single_pool sample_tx)) 9 (sample_bincode paying_tx) reported_slash eq_refl (pool_of_wf sample_tx) twelve_wf Hd)
    as (mn & u & j & a & _ & Hu & _ & _ & _ & _ & Hs & Hp & _). exists mn, u. split; [exact Hu|]. split; [exact Hs|exact Hp].
Defined.

Lemma spent_collateral_not_slashed_witness :
  detect_and_slash_double_spend forward map_to_list sample_tx (send_chain ∅ ∅) 9 =
    Err (CE.MasternodeError "Collateral UTXO for slashing not found.").
Proof.
  apply (spent_collateral_not_slashed forward map_to_list (fun m => Permutation_refl _) sample_tx (send_chain ∅ ∅) 9
    (sample_bincode sample_tx) sample_input (mn_of 7) (seasoned_entry 7)).
  - reflexivity.
  - exact twelve_wf.
  - reflexivity.
  - vm_compute. reflexivity.
  - reflexivity.
Defined.

Lemma quorum_needs_a_future_block_witness :
  is_ok (select_oxidesend_quorum (R := sample_chacha) forward Blockchain_new [1] 3) = false.
Proof.
  refine (proj1 (quorum_needs_a_future_block (R := sample_chacha) forward Blockchain_new [1] 3 [] [] 0 _)).
  vm_compute. reflexivity.
Defined.

Definition sample_mix : sendR OxideSendTransaction :=
  coordinate_oxidesend_mixing (R := sample_chacha) forward (send_chain open_set ∅) [1] [sample_input] [TxOutput_new 4000 [0x51]] 100.

Definition mixed : OxideSendTransaction :=
  match sample_mix with Ok m => m | _ => mkOxideSendTransaction dummy_tx [] [] end.

Lemma mixed_transaction_balances_witness :
  exists change, base_tx mixed = Standard 1 [sample_input] ([TxOutput_new 4000 [0x51]] ++ change) 0 100 [] /\
    5000 = 4000 + total (value <$> change) + 30.
Proof.
  assert (Hm : sample_mix = Ok mixed) by (vm_compute; reflexivity).
  destruct (mixed_transaction_balances (R := sample_chacha) forward (send_chain open_set ∅) [1] [sample_input]
    [TxOutput_new 4000 [0x51]] 100 mixed) as (change & H1 & H2 & _).
  - assert (Hv : mix_input_value (utxo_set (send_chain open_set ∅)) <$> [sample_input] = [5000]) by (vm_compute; reflexivity).
    assert (Hpos : forall x, 0 <= x -> Forall (Z.le 0) [x]) by (intros x Hx; by apply Forall_singleton).
    unfold mixable. rewrite Hv. unfold total, len, u64_max. cbn [foldr fmap list_fmap value TxOutput_new length].
    split; [apply Hpos; lia|]. split; [lia|]. split; [apply Hpos; lia|]. lia.
  - vm_compute. reflexivity.
  - exact Hm.
  - exists change. split; [exact H1|exact H2].
Defined.

Definition signing_quorum : MasternodeQuorum :=
  mkMasternodeQuorum [] [] [] [] (Some (sample_session DkgCompleted)) None 1.

Definition fresh_signature : ThresholdSignature :=
  match @create_threshold_signature sample_primitives sample_auth sample_bls12 sample_tx signing_quorum 5 1 7 with
  | Ok ts => ts
  | _ => mkThresholdSignature [] [] ∅ None []
  end.

Definition any_aggregate (shares : gmap Z bytes) (t : Z) : outcome DKGError bytes := Ok [1].

(** A share that is signed as it is verified. *)
Definition accepted_share : DKGSignatureShare :=
  mkDKGSignatureShare [] 2 [] (to_le_bytes 96 5) (to_le_bytes 32 9 ++ sample_hash 32 1 (to_le_bytes 96 5)).

Lemma threshold_signature_signers_witness :
  ts_wf (foldl (@ts_exec sample_primitives sample_send_codec map_to_list any_aggregate) fresh_signature
    [TsAdd accepted_share (to_le_bytes 32 9); TsFinalize signing_quorum]).
Proof.
  assert (Hc : @create_threshold_signature sample_primitives sample_auth sample_bls12 sample_tx signing_quorum 5 1 7 =
    Ok fresh_signature) by (vm_compute; reflexivity).
  exact (proj1 (@threshold_signature_signers sample_primitives sample_auth sample_bls12 sample_send_codec map_to_list any_aggregate
    sample_tx signing_quorum 5 1 7 fresh_signature [TsAdd accepted_share (to_le_bytes 32 9); TsFinalize signing_quorum]
    signing_quorum Hc)).
Defined.

Lemma share_index_is_free_witness :
  exists ts', ts_signature_shares ts' !! 1 = Some (to_le_bytes 96 5).
Proof.
  set (r := add_signature_share_to_threshold (P := sample_primitives) accepted_share (to_le_bytes 32 9) fresh_signature).
  assert (Hr : r = (fst r, Ok tt)) by (vm_compute; reflexivity).
  eexists. exact (proj2 (share_index_is_free (P := sample_primitives) accepted_share (to_le_bytes 32 9) fresh_signature (fst r) 1 Hr)).
Defined.

Lemma honest_share_needs_a_forgery_witness :
  exists sig, @signature_from_bytes weak_primitives (@keypair_sign weak_auth 5 [3]) = Some sig /\
    @ed25519_verify weak_primitives (to_le_bytes 32 5) (@sign_share sample_bls12 8 [3]) sig = true.
Proof.
  set (share := @create_signature_share weak_primitives weak_auth sample_bls12 (mkDKGProtocol (H0 := weak_auth) 2 5) [3] 8 []).
  set (r := @add_signature_share_to_threshold weak_primitives share (to_le_bytes 32 5) fresh_signature).
  assert (Hr : r = (fst r, Ok tt)) by (vm_compute; reflexivity).
  exact (@honest_share_needs_a_forgery weak_primitives weak_auth sample_bls12 (mkDKGProtocol (H0 := weak_auth) 2 5) 8 [3] []
    (to_le_bytes 32 5) fresh_signature (fst r) Hr).
Defined.
