(* ===== verification/FerrousShield.v ===== *)
(** Mixing sessions (src/rusty-masternode/src/ferrous_shield.rs, first part):
    the queue of requests, fees, coordination of a round, sessions and their
    quorum, the checks of participants and of mixed transactions, and the
    cleanup of sessions.

    [iter_*] stand for the iteration orders of hash maps and [layout] for the
    order in which a [BinaryHeap] holds its elements, which decides between
    equal ones.  The clock is an argument, [None] before 1970.  [StdRng] is an
    interface.  Log messages are left out, and so is the HTTP call of
    [broadcast_coinjoin_transaction]; of formatted messages the constant part
    is kept. *)

From Stdlib Require Import ZArith Lia List SpecFloat.
From stdpp Require Import base option list numbers strings gmap sorting pretty.
From coqutil Require Import Datatypes.RecordSetters.
From S2P Require Import Prelude Types Errors Transaction SamplePrimitives UtxoSet F64 Masternodes ChainState Blockchain.
From S2P Require Import Dkg DkgProtocol Quorum MasternodeSync Wallet OxideSend.

Import TriangleBracketNotations.
#[local] Open Scope Z_scope.

(** * Third-party code *)

(** [bincode::serialize] of an output. *)
Class ShieldCodec : Type := { bincode_tx_output : TxOutput -> option bytes }.

(** rand's [StdRng] with [gen::<usize>()] and [choose_multiple]. *)
Class StdRand : Type := {
  StdRng : Type;
  std_from_seed : bytes -> StdRng;
  std_gen_usize : StdRng -> Z * StdRng;
  choose_multiple : forall {X : Type}, StdRng -> list X -> Z -> list X;
}.

(** [choose_multiple] returns the asked number of elements, without
    repetition, or all of them if there are fewer. *)
Class StdRandLaws `{R : StdRand} : Prop := {
  gen_usize_range : forall r, is_u64 (std_gen_usize r).1;
  choose_sub : forall X r (l : list X) n, choose_multiple r l n ⊆+ l;
  choose_length : forall X r (l : list X) n, 0 <= n -> len (choose_multiple r l n) = Z.min n (len l);
}.

(** * Data *)

Inductive ShieldError : Type :=
| InsufficientReputation
| DkgSessionError (msg : string)
| QuorumError (msg : string)
| InvalidInputOutputCount
| ShieldSerializationError (msg : string)
| ShieldOther (msg : string).

Abbreviation shieldR := (outcome ShieldError).

Record FerrousShieldMixRequest : Type := mkMixRequest { mix_amount : Z; mix_public_key : bytes }.
Record FerrousShieldMixOutput : Type := mkMixOutput { mix_output : TxOutput; participant_signature : bytes }.

Definition MIN_MN_REPUTATION : Z := 1000.
Definition DKG_SESSION_EXPIRY_BLOCKS : Z := 100.

Inductive NetworkConditions : Type := LowTraffic | NormalTraffic | HighTraffic | Congested.

Inductive CoinJoinSessionState : Type := CjWaiting | CjMixing | CjCompleted | CjFailed.

#[export] Instance CoinJoinSessionState_eq_dec : EqDecision CoinJoinSessionState.
Proof. solve_decision. Defined.

Record CoinJoinSession : Type := mkCoinJoinSession {
  cj_session_id : Hash;
  cj_coordinator_id : MasternodeID;
  cj_participants : list bytes;
  cj_inputs : list TxInput;
  cj_outputs : list FerrousShieldMixOutput;
  cj_state : CoinJoinSessionState;
  cj_expiry_block : Z;
  cj_dkg_session : option DKGSession;
  cj_dkg_params : DKGParams;
  cj_created_at : Z;
}.

(** * The queue of requests *)

(** A request with the masternode it asks and the fee it offers. *)
Record LocalMixRequest : Type := mkLocalMixRequest {
  local_request : FerrousShieldMixRequest;
  local_masternode : MasternodeID;
  local_fee : Z;
}.

(** [cmp]: the comparison of the fees, reversed. *)
Definition request_cmp (a b : LocalMixRequest) : comparison := CompOpp (local_fee a ?= local_fee b).

Record MixRequestQueue : Type := mkMixRequestQueue {
  mq_queue : list LocalMixRequest;
  mq_reputation : gmap MasternodeID Z;
  mq_sessions : gmap Hash CoinJoinSession;
}.

Definition MixRequestQueue_new : MixRequestQueue := mkMixRequestQueue [] ∅ ∅.

Section Queue.
  Context (layout : list LocalMixRequest -> list LocalMixRequest).

(** [BinaryHeap::pop] removes a greatest element. *)
Fixpoint heap_pop (l : list LocalMixRequest) : option (LocalMixRequest * list LocalMixRequest) :=
  match l with
  | [] => None
  | x :: rest =>
      match heap_pop rest with
      | None => Some (x, [])
      | Some (y, others) =>
          match request_cmp x y with
          | Lt => Some (y, x :: others)
          | _ => Some (x, rest)
          end
      end
  end.

Definition get_session (q : MixRequestQueue) (id : Hash) : option CoinJoinSession := mq_sessions q !! id.

Definition queue_add_session (session : CoinJoinSession) : stM MixRequestQueue ShieldError unit := fun q =>
  if bool_decide (is_Some (mq_sessions q !! cj_session_id session))
  then (q, Err (ShieldOther "Session ID already exists"))
  else (q <| mq_sessions ::= <[cj_session_id session := session]> |>, Ok tt).

Definition add_request (request : FerrousShieldMixRequest) (masternode_id : MasternodeID) (fee : Z) :
    stM MixRequestQueue string unit := fun q =>
  if default 0 (mq_reputation q !! masternode_id) <? MIN_MN_REPUTATION
  then (q, Err "Masternode reputation too low"%string)
  else (q <| mq_queue ::= (fun l => l ++ [mkLocalMixRequest request masternode_id fee]) |>, Ok tt).

Definition get_next_request (q : MixRequestQueue) : MixRequestQueue * option FerrousShieldMixRequest :=
  match heap_pop (layout (mq_queue q)) with
  | None => (q, None)
  | Some (r, rest) => (q <| mq_queue := rest |>, Some (local_request r))
  end.

Definition update_reputation (masternode_id : MasternodeID) (score : Z) (q : MixRequestQueue) : MixRequestQueue :=
  q <| mq_reputation ::= <[masternode_id := score]> |>.

End Queue.

(** * Fees *)

Definition base_fee (mix_amount : Z) : Z :=
  if mix_amount <=? 1000000 then 1000 else if mix_amount <=? 10000000 then 5000 else 10000.

Definition participant_multiplier (n : Z) : f64 :=
  if (1 <=? n) && (n <=? 3) then f64_of_Z 1
  else if (4 <=? n) && (n <=? 7) then f64_lit 15 10
  else if (8 <=? n) && (n <=? 15) then f64_of_Z 2 else f64_of_Z 3.

Definition network_multiplier (c : option NetworkConditions) : f64 :=
  match c with
  | Some LowTraffic => f64_lit 8 10
  | Some NormalTraffic | None => f64_of_Z 1
  | Some HighTraffic => f64_lit 13 10
  | Some Congested => f64_lit 18 10
  end.

Definition calculate_ferrous_shield_fee (mix_amount num_participants : Z) (c : option NetworkConditions) : Z :=
  let final_fee := f64_to_u64 (f64_mul (f64_mul (f64_of_Z (base_fee mix_amount)) (participant_multiplier num_participants))
                                 (network_multiplier c)) in
  Z.min (Z.max final_fee 500) 100000.

(** * A round *)

Section Rounds.
  Context `{P : Primitives, A : AuthKeys, C : ShieldCodec}.

(** [sign_ferrousshield_output] *)
Definition sign_ferrousshield_output (o : TxOutput) (key : Keypair) : shieldR bytes :=
  b ← unwrap (bincode_tx_output o); Ok (keypair_sign key b).

Definition participant_output (mix_amount fee_per_participant : Z) (i : nat) (r : FerrousShieldMixRequest) : TxOutput :=
  mkTxOutput (u64_saturating_sub mix_amount fee_per_participant) (send_create_p2pkh_script (mix_public_key r))
    (Some (string_bytes ("CoinJoin output #" +:+ pretty (N.of_nat (i + 1))))).

Definition signed_output (key : Keypair) (o : TxOutput) : outcome string FerrousShieldMixOutput :=
  sg ← map_err (fun _ => ""%string) (sign_ferrousshield_output o key); Ok (mkMixOutput o sg).

Fixpoint sign_outputs (key : Keypair) (l : list TxOutput) : outcome string (list FerrousShieldMixOutput) :=
  match l with
  | [] => Ok []
  | o :: rest => x ← signed_output key o; xs ← sign_outputs key rest; Ok (x :: xs)
  end.

Definition coordinate_coinjoin (requests : list FerrousShieldMixRequest) (key : Keypair)
    (conditions : option NetworkConditions) : outcome string (list FerrousShieldMixOutput) :=
  match requests with
  | [] => Err "No mix requests to coordinate."%string
  | first :: _ =>
      let amount := mix_amount first in
      if negb (forallb (fun r => mix_amount r =? amount) requests)
      then Err "All participants must have the same mix amount for proper CoinJoin"%string
      else
        let num_participants := wrap32 (len requests) in
        let total_fee := calculate_ferrous_shield_fee amount num_participants conditions in
        if num_participants =? 0 then Panic
        else
          let fee_per_participant := total_fee / num_participants in
          sign_outputs key (imap (participant_output amount fee_per_participant) requests ++
            [mkTxOutput total_fee change_script (Some (string_bytes "CoinJoin coordinator fee"))])
  end.

Definition sign_coinjoin_transaction (tx : Transaction) (key : Keypair) : shieldR bytes :=
  b ← unwrap (bincode_transaction tx); Ok (keypair_sign key b).

End Rounds.

(** * Sessions *)

Section Sessions.
  Context `{P : Primitives, R : StdRand}.
  Context (iter_mn : MasternodeList -> list (MasternodeID * MasternodeEntry)).

Definition id_before (a b : MasternodeID) : Prop := id_le a b = true.

#[global] Instance id_before_dec : RelDecision id_before := fun a b => decide (id_le a b = true).

(** Masternodes good enough to coordinate, sorted. *)
Definition eligible_coordinators (mns : MasternodeList) : list MasternodeID :=
  merge_sort id_before
    ((filter (fun '(_, e) => SFleb (f32_lit 9 10) (dkg_success_rate e) = true /\ pose_failure_count e <= 2)
        (iter_mn mns)).*1).

(** The number of members: sizes are [usize], and a remainder by zero
    panics. *)
Definition shield_quorum_size (n draw : Z) : option Z :=
  let min_quorum_size := Z.max 3 (n / 10) in
  let max_quorum_size := Z.min 100 (n / 5) in
  let span := u64_add (wrap64 (max_quorum_size - min_quorum_size)) 1 in
  if span =? 0 then None else Some (u64_add min_quorum_size (draw mod span)).

Definition select_ferrousshield_quorum (mns : MasternodeList) (current_block_hash session_id : Hash) :
    shieldR (list MasternodeID) :=
  let sorted_mns := eligible_coordinators mns in
  if len sorted_mns =? 0 then Err (QuorumError "No masternodes meet the selection criteria")
  else
    let (draw, rng) := std_gen_usize (std_from_seed (blake3 (session_id ++ current_block_hash))) in
    quorum_size ← unwrap (shield_quorum_size (len sorted_mns) draw);
    let selected := choose_multiple rng sorted_mns quorum_size in
    if len selected =? 0 then Err (QuorumError "Failed to select any masternodes for quorum") else Ok selected.

Definition shield_participants (quorum : list MasternodeID) : list DKGParticipant :=
  imap (fun i id => mkDKGParticipant id (wrap32 (Z.of_nat i)) []) quorum.

Definition initiate_coinjoin_session_enhanced (bc : Blockchain) (clock1 clock2 : option Z) (current_block_hash : Hash)
    (current_block_height : Z) : shieldR CoinJoinSession :=
  nanos ← ok_or clock1 (ShieldOther "clock");
  let session_id := blake3 (current_block_hash ++ to_le_bytes 8 current_block_height ++ to_le_bytes 16 nanos) in
  quorum ← select_ferrousshield_quorum (masternode_list bc) current_block_hash session_id;
  coordinator_id ← ok_or (head quorum) (QuorumError "Empty quorum");
  let threshold := len quorum * 2 / 3 + 1 in
  let dkg_params := mkDKGParams (wrap32 threshold) (wrap32 (len quorum)) 67 10 20 30 40 in
  let participants := shield_participants quorum in
  if len participants =? 0 then Err (DkgSessionError "Cannot create DKG session with no participants")
  else if (threshold =? 0) || (len participants <? threshold) then Err (DkgSessionError "Invalid threshold")
  else
    let dkg_session := DKGSession_new session_id participants (wrap32 threshold) current_block_height dkg_params in
    created_at ← ok_or clock2 (ShieldOther "System time is before UNIX_EPOCH");
    Ok (mkCoinJoinSession session_id coordinator_id [] [] [] CjWaiting
          (u64_add current_block_height DKG_SESSION_EXPIRY_BLOCKS) (Some dkg_session) dkg_params created_at).

Definition register_for_coinjoin (participant_public_key : bytes) (mix_request : FerrousShieldMixRequest) :
    stM CoinJoinSession ShieldError unit := fun s =>
  if bool_decide (participant_public_key ∈ cj_participants s)
  then (s, Err (DkgSessionError "Participant already registered for this session"))
  else (s <| cj_participants ::= (fun l => l ++ [participant_public_key]) |>, Ok tt).

Definition handle_coinjoin_session_timeout (current_time timeout_secs : Z) (s : CoinJoinSession) : CoinJoinSession :=
  if (u64_add (cj_created_at s) timeout_secs <? current_time) && negb (bool_decide (cj_state s = CjCompleted))
  then s <| cj_state := CjFailed |> else s.

End Sessions.

(** * Checks *)

Definition no_duplicates {X} `{EqDecision X} (l : list X) : bool := bool_decide (NoDup l).

Definition validate_coinjoin_participants (inputs : list TxInput) (input_values : list Z) (outputs : list TxOutput)
    (min_participants : Z) : shieldR unit :=
  if (len inputs <? min_participants) || (len outputs <? min_participants) then Err InvalidInputOutputCount
  else if negb (len inputs =? len input_values) then Err (ShieldOther "Input count mismatch with values")
  else if negb (no_duplicates (previous_output <$> inputs)) then Err (ShieldOther "Duplicate input detected")
  else if negb (no_duplicates (script_pubkey <$> outputs)) then Err (ShieldOther "Duplicate output detected")
  else
    let total_input := sum64 input_values in
    let total_output := sum64 (value <$> outputs) in
    let fee := if total_output <=? total_input then total_input - total_output else 0 in
    if (total_input <? total_output) || (total_input / 100 <? fee)
    then Err (ShieldOther "Input/output value mismatch or excessive fee") else Ok tt.

Definition validate_participant_robust (iter_mn : MasternodeList -> list (MasternodeID * MasternodeEntry))
    (participant : FerrousShieldMixRequest) (mns : MasternodeList) : shieldR unit :=
  if mix_amount participant <? 100000 then Err (ShieldOther "Mix amount too small")
  else if 100000000000 <? mix_amount participant then Err (ShieldOther "Mix amount too large")
  else if negb (len (mix_public_key participant) =? 32) then Err (ShieldOther "Invalid public key length")
  else match List.find (fun '(_, e) => bool_decide (operator_public_key (identity e) = mix_public_key participant)) (iter_mn mns) with
       | Some (_, e) =>
           if SFltb (dkg_success_rate e) (f32_lit 8 10) then Err InsufficientReputation
           else if 3 <? pose_failure_count e then Err (ShieldOther "Masternode has too many POSE failures") else Ok tt
       | None => Ok tt
       end.

Definition placeholder_script `{Primitives} : bytes := send_create_p2pkh_script (replicate 32 0).

Definition balance_coinjoin_inputs_outputs `{Primitives} (inputs : list TxInput) (input_values : list Z)
    (target_output_amount num_participants : Z) : shieldR (list TxOutput * Z) :=
  if negb (len inputs =? len input_values) then Err (ShieldOther "Input count mismatch")
  else
    let total_input_value := sum64 input_values in
    let estimated_tx_size := u64_mul (u64_add (u64_add (len inputs) num_participants) 1) 150 in
    let optimal_fee := u64_mul estimated_tx_size 1000 / 1000 in
    let available_for_outputs := u64_saturating_sub total_input_value optimal_fee in
    let required_output_value := u64_mul target_output_amount num_participants in
    if available_for_outputs <? required_output_value then Err (ShieldOther "Insufficient input value for outputs")
    else
      let outputs := (fun i => mkTxOutput target_output_amount placeholder_script
          (Some (string_bytes ("CoinJoin participant #" +:+ pretty (N.of_nat (i + 1)))))) <$> seq 0 (Z.to_nat num_participants) in
      let change_amount := u64_saturating_sub available_for_outputs required_output_value in
      Ok (outputs ++ (if 0 <? change_amount
                      then [mkTxOutput change_amount placeholder_script (Some (string_bytes "CoinJoin change output"))] else []),
          optimal_fee).

Definition validate_coinjoin_transaction (tx : Transaction) (expected_participants : Z) (signatures : list bytes) :
    shieldR unit :=
  if len (get_inputs tx) <? expected_participants then Err InvalidInputOutputCount
  else if len (get_outputs tx) <? expected_participants then Err InvalidInputOutputCount
  else if negb (len signatures =? expected_participants) then Err (ShieldOther "Signature count mismatch")
  else if negb (forallb (fun s => len s =? 64) signatures) then Err (ShieldOther "Invalid signature length")
  else if negb (no_duplicates (previous_output <$> get_inputs tx)) then Err (ShieldOther "Duplicate input detected")
  else Ok tt.

Definition validate_participant_set_balance (participants : list FerrousShieldMixRequest)
    (min_amount max_amount max_variance : Z) : shieldR unit :=
  match merge_sort Z.le (mix_amount <$> participants) with
  | [] => Err (ShieldOther "No participants in session")
  | lo :: rest =>
      let hi := default lo (last rest) in
      if lo <? min_amount then Err (ShieldOther "Participant amount below minimum")
      else if max_amount <? hi then Err (ShieldOther "Participant amount above maximum")
      else if max_variance <? hi - lo then Err (ShieldOther "Participant amounts too imbalanced")
      else Ok tt
  end.

(** * Cleanup of sessions *)

Record SessionCleanupConfig : Type := mkSessionCleanupConfig {
  max_session_duration : Z;
  failed_session_retention : Z;
  cleanup_interval : Z;
  max_sessions_per_coordinator : Z;
}.

Definition SessionCleanupConfig_default : SessionCleanupConfig := mkSessionCleanupConfig 3600 86400 300 10.

Record SessionCleanupManager : Type := mkSessionCleanupManager {
  scm_active : gmap Hash CoinJoinSession;
  scm_failed : gmap Hash (CoinJoinSession * Z);
  scm_config : SessionCleanupConfig;
}.

Definition SessionCleanupManager_new : SessionCleanupManager :=
  mkSessionCleanupManager ∅ ∅ SessionCleanupConfig_default.

Record SessionCleanupReport : Type := mkSessionCleanupReport {
  timed_out_sessions : Z;
  cleaned_failed_sessions : Z;
  excess_sessions_cleaned : Z;
  active_sessions_remaining : Z;
  failed_sessions_retained : Z;
}.

Record SessionCleanupStats : Type := mkSessionCleanupStats {
  stat_active_sessions : Z;
  stat_failed_sessions : Z;
  total_memory_usage : Z;
}.

Section Cleanup.
  Context (iter_active : gmap Hash CoinJoinSession -> list (Hash * CoinJoinSession)).
  Context (iter_failed : gmap Hash (CoinJoinSession * Z) -> list (Hash * (CoinJoinSession * Z))).

(** A session that is still active moves to the failed ones. *)
Definition move_to_failed (now : Z) (m : SessionCleanupManager) (id : Hash) : SessionCleanupManager :=
  match scm_active m !! id with
  | Some s => m <| scm_active ::= delete id |> <| scm_failed ::= <[id := (s, now)]> |>
  | None => m
  end.

Definition timed_out_ids (now : Z) (m : SessionCleanupManager) : list Hash :=
  (filter (fun '(_, s) => u64_add (cj_created_at s) (max_session_duration (scm_config m)) < now) (iter_active (scm_active m))).*1.

Definition expired_failed_ids (now : Z) (m : SessionCleanupManager) : list Hash :=
  (filter (fun '(_, (_, failed_time)) => u64_add failed_time (failed_session_retention (scm_config m)) < now)
     (iter_failed (scm_failed m))).*1.

Definition count_session (counts : gmap MasternodeID Z) (p : Hash * CoinJoinSession) : gmap MasternodeID Z :=
  <[cj_coordinator_id p.2 := wrap32 (default 0 (counts !! cj_coordinator_id p.2) + 1)]> counts.

Definition coordinator_counts (m : SessionCleanupManager) : gmap MasternodeID Z :=
  foldl count_session ∅ (iter_active (scm_active m)).

Definition created_le (a b : Hash * CoinJoinSession) : Prop := cj_created_at a.2 <= cj_created_at b.2.

#[global] Instance created_le_dec : RelDecision created_le := fun a b => decide (cj_created_at a.2 <= cj_created_at b.2).

(** The sessions of the coordinators over their limit, oldest first, as many
    as the coordinators together have too many. *)
Definition excess_ids (m : SessionCleanupManager) : list Hash :=
  let counts := coordinator_counts m in
  let limit := max_sessions_per_coordinator (scm_config m) in
  let candidates := merge_sort created_le
    (filter (fun '(_, s) => limit < default 0 (counts !! cj_coordinator_id s)) (iter_active (scm_active m))) in
  let number := foldl (fun acc c => wrap32 (acc + Z.max 0 (c - limit))) 0 ((map_to_list counts).*2) in
  (take (Z.to_nat number) candidates).*1.

Definition cleanup_sessions (now : Z) (m : SessionCleanupManager) : SessionCleanupManager * SessionCleanupReport :=
  let timed_out := timed_out_ids now m in
  let m := foldl (move_to_failed now) m timed_out in
  let expired := expired_failed_ids now m in
  let m := m <| scm_failed ::= (fun f => foldl (fun f id => delete id f) f expired) |> in
  let excess := excess_ids m in
  let m := foldl (move_to_failed now) m excess in
  (m, mkSessionCleanupReport (wrap32 (len timed_out)) (wrap32 (len expired)) (wrap32 (len excess))
        (wrap32 (Z.of_nat (size (scm_active m)))) (wrap32 (Z.of_nat (size (scm_failed m))))).

Definition force_cleanup_session (now : Z) (id : Hash) (m : SessionCleanupManager) : SessionCleanupManager * bool :=
  (move_to_failed now m id, bool_decide (is_Some (scm_active m !! id))).

Definition estimate_memory_usage (m : SessionCleanupManager) : Z :=
  u64_mul (Z.of_nat (size (scm_active m)) + Z.of_nat (size (scm_failed m))) 1024.

Definition get_cleanup_stats (m : SessionCleanupManager) : SessionCleanupStats :=
  mkSessionCleanupStats (wrap32 (Z.of_nat (size (scm_active m)))) (wrap32 (Z.of_nat (size (scm_failed m))))
    (estimate_memory_usage m).

End Cleanup.

(** * Theorems: requests and fees *)

Lemma heap_pop_none l : heap_pop l = None <-> l = [].
Proof.
  split; [|by intros ->]. destruct l as [|x l]; [done|]. cbn [heap_pop].
  destruct (heap_pop l) as [[y others]|]; [by destruct (request_cmp x y)|done].
Qed.

Lemma heap_pop_spec l x rest :
  heap_pop l = Some (x, rest) -> l ≡ₚ x :: rest /\ Forall (fun y => local_fee x <= local_fee y) l.
Proof.
  revert x rest. induction l as [|a l IH]; intros x rest Hp; [done|]. cbn [heap_pop] in Hp.
  destruct (heap_pop l) as [[y others]|] eqn:Hl.
  - destruct (IH y others eq_refl) as [Hperm Hle]. unfold request_cmp in Hp.
    destruct (Z.compare_spec (local_fee a) (local_fee y)) as [He|Hlt|Hgt]; cbn [CompOpp] in Hp; injection Hp as <- <-.
    + split; [done|]. constructor; [lia|]. eapply Forall_impl; [exact Hle|]. cbn. lia.
    + split; [done|]. constructor; [lia|]. eapply Forall_impl; [exact Hle|]. cbn. lia.
    + split; [rewrite Hperm; apply Permutation_swap|]. constructor; [lia|done].
  - injection Hp as <- <-. apply heap_pop_none in Hl as ->. split; [done|]. by repeat constructor.
Qed.

Section QueueTheorems.
  Context (layout : list LocalMixRequest -> list LocalMixRequest).
  Context (layout_lists : forall l, layout l ≡ₚ l).

(** The next request is one that offers the least: the order of requests is
    reversed, and a heap hands out the greatest. *)
Theorem lowest_fee_first q q' r :
  get_next_request layout q = (q', Some r) ->
  exists x, local_request x = r /\ mq_queue q ≡ₚ x :: mq_queue q' /\
    Forall (fun y => local_fee x <= local_fee y) (mq_queue q).
Proof using layout_lists.
  unfold get_next_request. destruct (heap_pop _) as [[x rest]|] eqn:Hp; [|done]. intros [= <- <-].
  apply heap_pop_spec in Hp as [Hperm Hle]. rewrite layout_lists in Hperm, Hle. destruct q. by exists x.
Qed.

End QueueTheorems.

(** A fee lies between 800 and 54000 whatever is mixed: the limits of 500 and
    100000 never act. *)
Theorem shield_fee_bounds amount n c : 800 <= calculate_ferrous_shield_fee amount n c <= 54000.
Proof.
  unfold calculate_ferrous_shield_fee, base_fee, participant_multiplier, network_multiplier.
  repeat match goal with |- context [if ?b then _ else _] => destruct b end; destruct c as [[]|]; vm_compute; split; discriminate.
Qed.

Section RoundTheorems.
  Context `{P : Primitives, A : AuthKeys, C : ShieldCodec}.

Lemma sign_outputs_ok key l xs : sign_outputs key l = Ok xs -> mix_output <$> xs = l.
Proof.
  revert xs. induction l as [|o l IH]; intros xs H; [by injection H as <-|]. cbn [sign_outputs] in H.
  apply outcome_bind_inv in H as (x & Hx & H). apply outcome_bind_inv in H as (ys & Hy & H). injection H as <-.
  unfold signed_output in Hx. apply outcome_bind_inv in Hx as (sg & _ & Hx). injection Hx as <-.
  rewrite fmap_cons. by rewrite (IH ys Hy).
Qed.

Lemma total_participants amount fee l k :
  total (value <$> imap (fun i => participant_output amount fee (k + i)) l) = len l * u64_saturating_sub amount fee.
Proof.
  revert k. induction l as [|r l IH]; intros k; [done|]. cbn [imap fmap list_fmap]. rewrite total_cons. cbn [value participant_output].
  specialize (IH (S k)). unfold len in *. cbn [length]. rewrite <- (imap_ext (fun i => participant_output amount fee (S k + i))).
  - rewrite IH. lia.
  - intros i x _. unfold compose. by rewrite Nat.add_succ_r.
Qed.

(** A round pays every participant the same and the coordinator the fee.
    The participants give up the fee divided by their number, rounded down:
    together the outputs are worth what the participants bring and the
    remainder of that division more. *)
Theorem round_outputs_value requests key c outs amount :
  Forall (fun r => mix_amount r = amount) requests -> 0 < len requests <= u32_max ->
  calculate_ferrous_shield_fee amount (len requests) c <= amount ->
  coordinate_coinjoin requests key c = Ok outs ->
  let fee := calculate_ferrous_shield_fee amount (len requests) c in
  len outs = len requests + 1 /\
  total ((fun o => value (mix_output o)) <$> outs) = len requests * amount + fee mod len requests.
Proof.
  intros Hall Hn Hfee Hc fee. unfold coordinate_coinjoin in Hc. destruct requests as [|r rs]; [done|].
  apply Forall_cons in Hall as Hr. destruct Hr as [Hr _]. rewrite Hr in Hc. set (requests := r :: rs) in *.
  rewrite wrap32_small in Hc by (unfold u32_max in *; lia). fold fee in Hc, Hfee.
  destruct (negb _); [done|]. destruct (Z.eqb_spec (len requests) 0); [lia|]. apply sign_outputs_ok in Hc.
  assert (Hv : (fun o => value (mix_output o)) <$> outs = value <$> (mix_output <$> outs)) by (by rewrite <- list_fmap_compose).
  rewrite Hv. apply (f_equal length) in Hc as Hl. rewrite length_fmap, length_app, length_imap in Hl.
  rewrite Hc, fmap_app, total_app, (total_participants _ _ _ 0). cbn [fmap list_fmap value]. rewrite total_cons. change (total []) with 0.
  assert (0 < fee) by (pose proof (shield_fee_bounds amount (len requests) c); unfold fee; lia).
  pose proof (Z.div_mod fee (len requests) ltac:(lia)). pose proof (Z.div_le_upper_bound fee (len requests) amount ltac:(lia) ltac:(nia)).
  clearbody requests. split; [unfold len; rewrite Hl; cbn [length]; lia|]. unfold u64_saturating_sub. nia.
Qed.

End RoundTheorems.

(** * Theorems: sessions *)

Section SessionTheorems.
  Context `{P : Primitives, R : StdRand, L : !StdRandLaws}.
  Context (iter_mn : MasternodeList -> list (MasternodeID * MasternodeEntry)).
  Context (iter_mn_lists : forall m, iter_mn m ≡ₚ map_to_list m).

(** When the size of the quorum can be drawn, and what it is: with ten to
    fourteen or with 1010 to 1019 eligible masternodes the remainder is taken
    by zero, and outside of the range from fifteen to 1009 the bounds cross
    and any size comes out. *)
Lemma quorum_size_none n draw :
  0 <= n <= u64_max -> (shield_quorum_size n draw = None <-> 10 <= n < 15 \/ 1010 <= n < 1020).
Proof.
  unfold u64_max. intros Hn. unfold shield_quorum_size, u64_add, wrap64, u64_max.
  pose proof (Z.div_mod n 10 ltac:(lia)). pose proof (Z.mod_pos_bound n 10 ltac:(lia)).
  pose proof (Z.div_mod n 5 ltac:(lia)). pose proof (Z.mod_pos_bound n 5 ltac:(lia)).
  remember (Z.max 3 (n / 10)) as a eqn:Ha. remember (Z.min 100 (n / 5)) as b eqn:Hb.
  rewrite Z.add_mod_idemp_l by lia. destruct (Z.eqb_spec ((b - a + 1) mod 18446744073709551616) 0) as [Hz|Hz]; (split; [|intros Hr]); try done.
  - intros _. apply Z.mod_divide in Hz as [k Hk]; [|lia]. lia.
  - exfalso. apply Hz. replace (b - a + 1) with 0 by lia. done.
Qed.

Lemma quorum_size_range n draw q :
  15 <= n < 1010 -> shield_quorum_size n draw = Some q -> Z.max 3 (n / 10) <= q <= Z.min 100 (n / 5).
Proof.
  intros Hn. unfold shield_quorum_size, u64_add.
  pose proof (Z.div_mod n 10 ltac:(lia)). pose proof (Z.mod_pos_bound n 10 ltac:(lia)).
  pose proof (Z.div_mod n 5 ltac:(lia)). pose proof (Z.mod_pos_bound n 5 ltac:(lia)).
  remember (Z.max 3 (n / 10)) as a eqn:Ha. remember (Z.min 100 (n / 5)) as b eqn:Hb.
  rewrite (wrap64_small (b - a)) by (unfold u64_max; lia). rewrite (wrap64_small (b - a + 1)) by (unfold u64_max; lia).
  destruct (Z.eqb_spec (b - a + 1) 0); [lia|]. pose proof (Z.mod_pos_bound draw (b - a + 1) ltac:(lia)).
  rewrite wrap64_small by (unfold u64_max; lia). intros [= <-]. lia.
Qed.

(** A masternode good enough to coordinate. *)
Definition coordinates (mns : MasternodeList) (i : MasternodeID) : Prop :=
  exists e, mns !! i = Some e /\ SFleb (f32_lit 9 10) (dkg_success_rate e) = true /\ pose_failure_count e <= 2.

Lemma eligible_spec mns :
  NoDup (eligible_coordinators iter_mn mns) /\ forall i, i ∈ eligible_coordinators iter_mn mns <-> coordinates mns i.
Proof using iter_mn_lists.
  unfold eligible_coordinators. rewrite merge_sort_Permutation. split.
  - apply NoDup_fmap_filter. rewrite iter_mn_lists. apply NoDup_fst_map_to_list.
  - intros i. rewrite merge_sort_Permutation, list_elem_of_fmap. unfold coordinates. split.
    + intros ([j e] & -> & Hf). apply list_elem_of_filter in Hf as [[? ?] Hf].
      rewrite iter_mn_lists, elem_of_map_to_list in Hf. by exists e.
    + intros (e & He & ? & ?). exists (i, e). split; [done|]. apply list_elem_of_filter.
      by rewrite iter_mn_lists, elem_of_map_to_list.
Qed.

(** Between fifteen and 1009 eligible masternodes a quorum is always found:
    different eligible masternodes, between a tenth and a fifth of them, at
    least three and at most a hundred.  With ten to fourteen, or 1010 to 1019,
    the selection panics. *)
Theorem shield_quorum_spec mns bh sid :
  let n := len (eligible_coordinators iter_mn mns) in
  (15 <= n < 1010 ->
   exists q, select_ferrousshield_quorum iter_mn mns bh sid = Ok q /\ NoDup q /\ Forall (coordinates mns) q /\
     Z.max 3 (n / 10) <= len q <= Z.min 100 (n / 5)) /\
  (10 <= n < 15 \/ 1010 <= n < 1020 -> select_ferrousshield_quorum iter_mn mns bh sid = Panic).
Proof using L iter_mn_lists.
  intros n. unfold select_ferrousshield_quorum. fold n. destruct (std_gen_usize _) as [draw rng] eqn:Hd.
  destruct (eligible_spec mns) as [Hnd Hel]. split; intros Hn; (destruct (Z.eqb_spec n 0); [lia|]).
  - destruct (shield_quorum_size n draw) as [q|] eqn:Hq.
    2:{ apply quorum_size_none in Hq; [lia|unfold u64_max; lia]. }
    pose proof (quorum_size_range n draw q Hn Hq) as Hr. cbn [unwrap mbind outcome_bind].
    pose proof (choose_sub _ rng (eligible_coordinators iter_mn mns) q) as Hsub.
    pose proof (choose_length _ rng (eligible_coordinators iter_mn mns) q ltac:(lia)) as Hlen. fold n in Hlen.
    pose proof (Z.div_le_upper_bound n 5 n ltac:(lia) ltac:(lia)).
    rewrite Z.min_l in Hlen by lia. rewrite Hlen. destruct (Z.eqb_spec q 0); [lia|].
    eexists. split; [reflexivity|]. rewrite Hlen. split_and!; [|  |lia|lia].
    + apply submseteq_Permutation in Hsub as [rest Hp]. rewrite Hp in Hnd. by apply NoDup_app in Hnd as [? _].
    + apply Forall_forall. intros i Hi. apply Hel. by eapply elem_of_submseteq.
  - assert (Hs : shield_quorum_size n draw = None) by (apply quorum_size_none; [unfold u64_max; lia|done]). by rewrite Hs.
Qed.

Lemma two_thirds n : 0 < n -> 2 * n < 3 * (n * 2 / 3 + 1) <= 2 * n + 3 /\ n * 2 / 3 + 1 <= n.
Proof. intros Hn. pose proof (Z.div_mod (n * 2) 3 ltac:(lia)). pose proof (Z.mod_pos_bound (n * 2) 3 ltac:(lia)). lia. Qed.

(** A session starts empty, coordinated by the first of its quorum, with a
    key generation among the members of the quorum, numbered from zero, whose
    threshold is the least number above two thirds. *)
Theorem session_starts bc c1 c2 bh h s :
  initiate_coinjoin_session_enhanced iter_mn bc c1 c2 bh h = Ok s ->
  exists q g, select_ferrousshield_quorum iter_mn (masternode_list bc) bh (cj_session_id s) = Ok q /\
    head q = Some (cj_coordinator_id s) /\ cj_participants s = [] /\ cj_state s = CjWaiting /\
    cj_dkg_session s = Some g /\ session_state g = WaitingForParticipants /\
    participant_masternode_id <$> participants g = q /\
    (len q <= u32_max -> participant_index <$> participants g = seqZ 0 (len q) /\
       2 * len q < 3 * threshold g <= 2 * len q + 3 /\ threshold g <= len q).
Proof.
  unfold initiate_coinjoin_session_enhanced. intros H.
  apply outcome_bind_inv in H as (nanos & _ & H). apply outcome_bind_inv in H as (q & Hq & H).
  apply outcome_bind_inv in H as (coord & Hh & H).
  destruct (_ =? 0); [done|]. destruct (_ || _); [done|]. apply outcome_bind_inv in H as (t & _ & H). injection H as <-.
  destruct q as [|c q]; [done|]. injection Hh as <-. set (q' := c :: q) in *.
  eexists q', _. cbn [cj_session_id cj_coordinator_id cj_participants cj_state cj_dkg_session].
  split; [exact Hq|]. do 3 (split; [done|]). split; [reflexivity|]. split; [done|].
  assert (Hid : forall (l : list MasternodeID) k, participant_masternode_id <$>
    imap (fun i id => mkDKGParticipant id (wrap32 (Z.of_nat (k + i))) []) l = l).
  { induction l as [|x l IH]; intros k; [done|]. cbn. f_equal. rewrite <- (IH (S k)) at 2. f_equal. apply imap_ext.
    intros i y _. unfold compose. by rewrite Nat.add_succ_r. }
  assert (Hix : forall (l : list MasternodeID) k, Z.of_nat k + len l <= u32_max + 1 -> participant_index <$>
    imap (fun i id => mkDKGParticipant id (wrap32 (Z.of_nat (k + i))) []) l = seqZ (Z.of_nat k) (len l)).
  { induction l as [|x l IH]; intros k Hk; [done|]. unfold len in *. cbn [length] in *. rewrite seqZ_cons by lia.
    cbn [imap fmap list_fmap participant_index]. rewrite Nat.add_0_r, wrap32_small by (unfold u32_max in *; lia). f_equal.
    replace (Z.succ (Z.of_nat k)) with (Z.of_nat (S k)) by lia. replace (Z.pred (Z.of_nat (S (length l)))) with (Z.of_nat (length l)) by lia.
    rewrite <- IH by lia. f_equal. apply imap_ext. intros i y _. unfold compose. by rewrite Nat.add_succ_r. }
  split; [exact (Hid q' 0%nat)|]. intros Hu. split; [apply (Hix q' 0%nat); lia|]. cbn [threshold DKGSession_new].
  assert (0 < len q') by (unfold q', len; cbn; lia). destruct (two_thirds (len q')) as [Ht Hle]; [done|].
  rewrite wrap32_small by (unfold u32_max in *; lia). done.
Qed.

(** A participant is registered once. *)
Theorem registered_once s calls :
  NoDup (cj_participants s) ->
  NoDup (cj_participants (foldl (fun s '(pk, r) => fst (register_for_coinjoin pk r s)) s calls)).
Proof.
  intros Hs. apply (foldl_inv (fun s => NoDup (cj_participants s))); [done|]. intros s' [pk r] Hnd.
  unfold register_for_coinjoin. case_bool_decide as Hin; [done|]. destruct s'. cbn in *.
  apply NoDup_app. split_and!; [done| |apply NoDup_singleton]. intros x Hx ->%list_elem_of_singleton. done.
Qed.

End SessionTheorems.

(** * Theorems: checks *)

(** The participants of a round are accepted exactly when there are enough
    inputs and outputs, a value for every input, no outpoint and no script
    twice, and the outputs leave at most a hundredth of the inputs as fee. *)
Theorem coinjoin_participants_iff inputs values outputs n :
  Forall (Z.le 0) values -> total values <= u64_max ->
  Forall (Z.le 0) (value <$> outputs) -> total (value <$> outputs) <= u64_max ->
  (validate_coinjoin_participants inputs values outputs n = Ok tt <->
   n <= len inputs /\ n <= len outputs /\ len inputs = len values /\
   NoDup (previous_output <$> inputs) /\ NoDup (script_pubkey <$> outputs) /\
   total values - total values / 100 <= total (value <$> outputs) <= total values).
Proof.
  intros Hv Hvt Ho Hot. unfold validate_coinjoin_participants, no_duplicates. rewrite !sum64_total by done.
  pose proof (total_nonneg _ Hv) as Hnn. pose proof (Z.div_pos (total values) 100 Hnn ltac:(lia)).
  destruct (Z.ltb_spec (len inputs) n); cbn [orb]; [split; [done|lia]|].
  destruct (Z.ltb_spec (len outputs) n); [split; [done|lia]|].
  destruct (Z.eqb_spec (len inputs) (len values)); cbn [negb]; [|split; [done|lia]].
  case_bool_decide as Hd1; cbn [negb]; [|split; [done|]; by intros (_ & _ & _ & ? & _)].
  case_bool_decide as Hd2; cbn [negb]; [|split; [done|]; by intros (_ & _ & _ & _ & ? & _)].
  destruct (Z.ltb_spec (total values) (total (value <$> outputs))); cbn [orb]; [split; [done|lia]|].
  destruct (Z.leb_spec (total (value <$> outputs)) (total values)); [|lia].
  destruct (Z.ltb_spec (total values / 100) (total values - total (value <$> outputs))); (split; [done || intros _|lia || done]).
  split_and!; done || lia.
Qed.

Section BalanceTheorems.
  Context `{P : Primitives}.

(** The sizes of a round that do not overflow. *)
Definition balanceable (inputs : list TxInput) (values : list Z) (target n : Z) : Prop :=
  Forall (Z.le 0) values /\ total values <= u64_max /\ 0 <= target /\ 0 <= n /\ target * n <= u64_max /\
  (len inputs + n + 1) * 150000 <= u64_max.

Lemma total_const target (f : nat -> option bytes) l :
  total (value <$> ((fun i => mkTxOutput target placeholder_script (f i)) <$> l)) = target * len l.
Proof.
  induction l as [|i l IH]; [cbn; unfold len; cbn; lia|]. rewrite !fmap_cons, total_cons, IH. cbn [value]. unfold len. cbn [length]. lia.
Qed.

(** The outputs of a balanced round and its fee, 150 a piece for every input
    and output and one more, are worth what the inputs are. *)
Theorem balanced_round_value inputs values target n outs fee :
  balanceable inputs values target n -> 0 < target * n ->
  balance_coinjoin_inputs_outputs inputs values target n = Ok (outs, fee) ->
  fee = (len inputs + n + 1) * 150 /\ total (value <$> outs) + fee = total values /\ n <= len outs <= n + 1.
Proof.
  intros (Hv & Hvt & Ht & Hn & Htn & Hs) Hpos Hb. unfold balance_coinjoin_inputs_outputs in Hb.
  assert (Hi : 0 <= len inputs) by (unfold len; lia).
  destruct (negb _); [done|]. rewrite sum64_total in Hb by done. unfold u64_mul, u64_add, u64_saturating_sub in Hb.
  rewrite (wrap64_small (len inputs + n)), (wrap64_small (len inputs + n + 1)), (wrap64_small ((len inputs + n + 1) * 150)),
    (wrap64_small ((len inputs + n + 1) * 150 * 1000)), (wrap64_small (target * n)) in Hb by lia.
  rewrite Z.div_mul in Hb by lia. set (f := (len inputs + n + 1) * 150) in *.
  destruct (Z.ltb_spec (Z.max 0 (total values - f)) (target * n)); [done|]. injection Hb as <- <-. split; [done|].
  rewrite fmap_app, total_app, total_const. assert (Hl : len (seq 0 (Z.to_nat n)) = n) by (unfold len; rewrite length_seq; lia).
  rewrite Hl. unfold len. rewrite length_app, length_fmap, length_seq.
  destruct (Z.ltb_spec 0 (Z.max 0 (Z.max 0 (total values - f) - target * n))); cbn [fmap list_fmap value length];
    rewrite ?total_cons; change (total []) with 0; lia.
Qed.

(** All outputs of a balanced round pay one placeholder script, so that with
    two participants or more the round is refused as one with duplicate
    outputs, unless it is refused for its inputs. *)
Theorem balanced_round_refused inputs values target n outs fee m :
  2 <= n -> m <= n -> m <= len inputs -> NoDup (previous_output <$> inputs) ->
  balance_coinjoin_inputs_outputs inputs values target n = Ok (outs, fee) ->
  validate_coinjoin_participants inputs values outs m = Err (ShieldOther "Duplicate output detected").
Proof.
  intros Hn Hm Hmi Hnd Hb. unfold balance_coinjoin_inputs_outputs in Hb.
  destruct (Z.eqb_spec (len inputs) (len values)) as [Hl|Hl]; cbn [negb] in Hb; [|done]. destruct (_ <? _); [done|].
  injection Hb as <- _. set (change := if _ <? _ then _ else _). unfold validate_coinjoin_participants, no_duplicates.
  destruct (Z.ltb_spec (len inputs) m); [lia|]. cbn [orb].
  assert (Hlo : forall f : nat -> TxOutput, n <= len ((f <$> seq 0 (Z.to_nat n)) ++ change))
    by (intros f; unfold len; rewrite length_app, length_fmap, length_seq; lia).
  match goal with |- context [len ?o <? m] => rewrite (proj2 (Z.ltb_ge (len o) m) (Z.le_trans _ _ _ Hm (Hlo _))) end.
  rewrite Hl, Z.eqb_refl, bool_decide_eq_true_2 by done. cbn [negb].
  rewrite bool_decide_eq_false_2; [done|]. intros Hno. rewrite fmap_app in Hno. apply NoDup_app in Hno as [Hno _].
  assert (Hs : exists k, Z.to_nat n = S (S k)) by (exists (Z.to_nat n - 2)%nat; lia). destruct Hs as [k Hk]. rewrite Hk in Hno.
  cbn [seq fmap list_fmap script_pubkey] in Hno. apply NoDup_cons in Hno as [Hno _]. apply Hno. left.
Qed.

End BalanceTheorems.

(** The signatures of a mixed transaction are counted and measured, not
    verified: any others of the same lengths do as well. *)
Theorem coinjoin_signatures_unread tx n sigs sigs' :
  length <$> sigs = length <$> sigs' ->
  validate_coinjoin_transaction tx n sigs = validate_coinjoin_transaction tx n sigs'.
Proof.
  intros Hl. unfold validate_coinjoin_transaction.
  assert (Hlen : len sigs = len sigs') by (apply (f_equal length) in Hl; rewrite !length_fmap in Hl; unfold len; lia).
  assert (Hall : forallb (fun s => len s =? 64) sigs = forallb (fun s => len s =? 64) sigs').
  { clear Hlen. revert sigs' Hl. induction sigs as [|a l IH]; intros [|b k] Hl; try done. injection Hl as Hab Hl.
    cbn [forallb]. rewrite (IH k Hl). unfold len. by rewrite Hab. }
  by rewrite Hlen, Hall.
Qed.

Lemma sorted_last lo rest : Sorted Z.le (lo :: rest) -> Forall (fun x => lo <= x <= default lo (last rest)) (lo :: rest).
Proof.
  intros Hs%Sorted_StronglySorted; [|intros ? ? ?; lia]. revert lo Hs. induction rest as [|b rest IH]; intros lo Hs.
  { constructor; [cbn; lia|constructor]. }
  apply StronglySorted_inv in Hs as [Hs Hlo]. specialize (IH b Hs).
  assert (Hd : default lo (last (b :: rest)) = default b (last rest)).
  { rewrite last_cons. by destruct (last rest). }
  rewrite Hd. apply Forall_cons. apply Forall_cons in Hlo as [Hb _]. apply Forall_cons in IH as IHb. destruct IHb as [IHb _].
  split; [lia|]. eapply Forall_impl; [exact IH|]. cbn. lia.
Qed.

(** A set of participants is fair exactly when it is not empty, every amount
    is within the limits and no two amounts differ by more than allowed. *)
Theorem participant_set_fair_iff l lo hi v :
  validate_participant_set_balance l lo hi v = Ok tt <->
  l <> [] /\ (forall a, a ∈ l -> lo <= mix_amount a <= hi) /\
  (forall a b, a ∈ l -> b ∈ l -> mix_amount a - mix_amount b <= v).
Proof.
  unfold validate_participant_set_balance.
  pose proof (merge_sort_Permutation Z.le (mix_amount <$> l)) as Hp.
  assert (Hs : Sorted Z.le (merge_sort Z.le (mix_amount <$> l))) by (apply Sorted_merge_sort; intros x y; lia).
  destruct (merge_sort Z.le (mix_amount <$> l)) as [|a rest].
  { apply Permutation_nil_l in Hp. symmetry in Hp. apply fmap_nil_inv in Hp as ->. split; [done|]. by intros [? _]. }
  assert (Hin : forall x, x ∈ a :: rest <-> exists r, x = mix_amount r /\ r ∈ l) by (intros x; by rewrite Hp, list_elem_of_fmap).
  pose proof (sorted_last a rest Hs) as Hb. rewrite Forall_forall in Hb. set (z := default a (last rest)) in *.
  assert (Hz : z ∈ a :: rest).
  { unfold z. destruct (last rest) as [y|] eqn:Hl; [|left]. cbn. right. by apply last_Some_elem_of. }
  destruct (proj1 (Hin a) ltac:(left)) as (ra & Ha & Hra). destruct (proj1 (Hin z) Hz) as (rz & Hzr & Hrz).
  destruct (Z.ltb_spec a lo); [split; [done|]; intros (_ & Hx & _); specialize (Hx ra Hra); lia|].
  destruct (Z.ltb_spec hi z); [split; [done|]; intros (_ & Hx & _); specialize (Hx rz Hrz); lia|].
  destruct (Z.ltb_spec v (z - a)); [split; [done|]; intros (_ & _ & Hx); specialize (Hx rz ra Hrz Hra); lia|].
  split; [|done]. intros _. split; [by intros ->; apply elem_of_nil in Hra|].
  assert (Hr : forall r, r ∈ l -> a <= mix_amount r <= z) by (intros r Hr; apply Hb, Hin; by exists r).
  split; [intros r Hrl; specialize (Hr r Hrl); lia|]. intros r s Hrl Hsl. pose proof (Hr r Hrl). pose proof (Hr s Hsl). lia.
Qed.

(** * Theorems: cleanup *)

Lemma move_fold now ids : forall m,
  let m' := foldl (move_to_failed now) m ids in
  scm_config m' = scm_config m /\
  forall i, scm_active m' !! i = (if decide (i ∈ ids) then None else scm_active m !! i) /\
    scm_failed m' !! i =
      match scm_active m !! i with
      | Some s => if decide (i ∈ ids) then Some (s, now) else scm_failed m !! i
      | None => scm_failed m !! i
      end.
Proof.
  induction ids as [|j ids IH]; intros m; cbn [foldl].
  { split; [done|]. intros i. rewrite decide_False by apply not_elem_of_nil. split; [done|]. by destruct (scm_active m !! i). }
  destruct (IH (move_to_failed now m j)) as [Hc Hi].
  assert (Hm : scm_config (move_to_failed now m j) = scm_config m /\ forall i,
    scm_active (move_to_failed now m j) !! i = (if decide (i = j) then None else scm_active m !! i) /\
    scm_failed (move_to_failed now m j) !! i =
      match scm_active m !! i with Some s => if decide (i = j) then Some (s, now) else scm_failed m !! i | None => scm_failed m !! i end).
  { clear. destruct m as [act fail cfg]. unfold move_to_failed. cbn. destruct (act !! j) as [s|] eqn:Hj; cbn; (split; [done|]); intros i;
      destruct (decide (i = j)) as [->|Hne].
    - by rewrite lookup_delete_eq, lookup_insert_eq, Hj.
    - rewrite lookup_delete_ne, lookup_insert_ne by done. by destruct (act !! i).
    - by rewrite Hj.
    - by destruct (act !! i). }
  destruct Hm as [Hmc Hmi]. split; [congruence|]. intros i. destruct (Hi i) as [Ha Hf]. destruct (Hmi i) as [Hma Hmf].
  rewrite Ha, Hf, Hma, Hmf. destruct (decide (i = j)) as [->|Hne].
  - destruct (decide (j ∈ j :: ids)) as [_|[]]; [|left]. by destruct (decide (j ∈ ids)), (scm_active m !! j).
  - assert (Hiff : i ∈ j :: ids <-> i ∈ ids) by (rewrite elem_of_cons; naive_solver).
    destruct (decide (i ∈ ids)), (decide (i ∈ j :: ids)); try tauto; by destruct (scm_active m !! i).
Qed.

Lemma count_fold (c : MasternodeID) l : forall counts,
  default 0 (counts !! c) + len l <= u32_max -> 0 <= default 0 (counts !! c) ->
  default 0 (foldl count_session counts l !! c) =
    default 0 (counts !! c) + len (filter (fun p => cj_coordinator_id p.2 = c) l).
Proof.
  induction l as [|p l IH]; intros counts Hu H0; cbn [foldl]; [unfold len; cbn; lia|].
  unfold len in Hu. cbn [length] in Hu. rewrite filter_cons.
  assert (Hc : default 0 (count_session counts p !! c) =
    default 0 (counts !! c) + (if decide (cj_coordinator_id p.2 = c) then 1 else 0)).
  { unfold count_session. destruct (decide (cj_coordinator_id p.2 = c)) as [->|Hne].
    - rewrite lookup_insert_eq. cbn [default option_fmap option_map]. rewrite wrap32_small by (unfold u32_max in *; lia). done.
    - rewrite lookup_insert_ne by done. lia. }
  rewrite IH; rewrite Hc; (destruct (decide (cj_coordinator_id p.2 = c))); unfold len; cbn [length]; lia.
Qed.

Lemma filter_to_list {X} (Q : Hash * X -> Prop) `{!forall p, Decision (Q p)} (m : gmap Hash X) :
  map_to_list (filter Q m) ≡ₚ filter Q (map_to_list m).
Proof.
  apply NoDup_Permutation; [apply NoDup_map_to_list|apply NoDup_filter, NoDup_map_to_list|].
  intros [i x]. rewrite list_elem_of_filter, !elem_of_map_to_list, map_lookup_filter_Some. tauto.
Qed.

Section CleanupTheorems.
  Context (iter_active : gmap Hash CoinJoinSession -> list (Hash * CoinJoinSession)).
  Context (iter_failed : gmap Hash (CoinJoinSession * Z) -> list (Hash * (CoinJoinSession * Z))).
  Context (iter_active_lists : forall m, iter_active m ≡ₚ map_to_list m).
  Context (iter_failed_lists : forall m, iter_failed m ≡ₚ map_to_list m).

(** A session is past its time. *)
Definition overdue (now : Z) (m : SessionCleanupManager) (s : CoinJoinSession) : Prop :=
  u64_add (cj_created_at s) (max_session_duration (scm_config m)) < now.

Lemma timed_out_spec now m i s :
  scm_active m !! i = Some s -> (i ∈ timed_out_ids iter_active now m <-> overdue now m s).
Proof using iter_active_lists.
  intros Hi. unfold timed_out_ids. rewrite list_elem_of_fmap. split.
  - intros ([j s'] & -> & Hf). apply list_elem_of_filter in Hf as [Ho Hf].
    rewrite iter_active_lists, elem_of_map_to_list in Hf. cbn in Hi. rewrite Hi in Hf. by injection Hf as <-.
  - intros Ho. exists (i, s). split; [done|]. apply list_elem_of_filter. by rewrite iter_active_lists, elem_of_map_to_list.
Qed.

Lemma expired_spec now m i x :
  scm_failed m !! i = Some x ->
  (i ∈ expired_failed_ids iter_failed now m <-> u64_add x.2 (failed_session_retention (scm_config m)) < now).
Proof using iter_failed_lists.
  intros Hi. unfold expired_failed_ids. rewrite list_elem_of_fmap. split.
  - intros ([j [s' t]] & -> & Hf). apply list_elem_of_filter in Hf as [Ho Hf].
    rewrite iter_failed_lists, elem_of_map_to_list in Hf. cbn in Hi. rewrite Hi in Hf. by injection Hf as ->.
  - intros Ho. exists (i, x). split; [done|]. destruct x. apply list_elem_of_filter. by rewrite iter_failed_lists, elem_of_map_to_list.
Qed.

Lemma excess_over_limit m i s :
  scm_active m !! i = Some s -> i ∈ excess_ids iter_active m -> Z.of_nat (size (scm_active m)) <= u32_max ->
  max_sessions_per_coordinator (scm_config m) <
    Z.of_nat (size (filter (fun p => cj_coordinator_id p.2 = cj_coordinator_id s) (scm_active m))).
Proof using iter_active_lists.
  intros Hi Hex Hsz. unfold excess_ids in Hex. apply list_elem_of_fmap in Hex as ([j s'] & -> & Hj).
  apply elem_of_take in Hj as (k & Hk & _). apply list_elem_of_lookup_2 in Hk. rewrite merge_sort_Permutation in Hk.
  apply list_elem_of_filter in Hk as [Hlt Hin]. rewrite iter_active_lists, elem_of_map_to_list in Hin. cbn in Hi.
  rewrite Hi in Hin. injection Hin as <-. unfold coordinator_counts in Hlt. rewrite count_fold in Hlt; rewrite lookup_empty in *; cbn in *.
  - unfold len in Hlt. rewrite iter_active_lists, <- filter_to_list, length_map_to_list in Hlt. lia.
  - unfold len. rewrite iter_active_lists, length_map_to_list. lia.
  - lia.
Qed.

(** A cleanup loses no session and keeps no late one: a session that was
    active is active afterwards or has just failed, and it fails only if it is
    past its time or its coordinator has more sessions than allowed.  What
    failed before is kept until its retention ends. *)
Theorem cleanup_spec now m i s :
  0 <= now -> 0 <= failed_session_retention (scm_config m) -> now + failed_session_retention (scm_config m) <= u64_max ->
  Z.of_nat (size (scm_active m)) <= u32_max ->
  let m' := (cleanup_sessions iter_active iter_failed now m).1 in
  (scm_active m' !! i = Some s -> scm_active m !! i = Some s /\ ~ overdue now m s) /\
  (scm_active m !! i = Some s ->
     scm_active m' !! i = Some s \/
     (scm_failed m' !! i = Some (s, now) /\
      (overdue now m s \/
       max_sessions_per_coordinator (scm_config m) <
         Z.of_nat (size (filter (fun p => cj_coordinator_id p.2 = cj_coordinator_id s) (scm_active m)))))) /\
  (forall x, scm_active m !! i = None ->
     (scm_failed m' !! i = Some x <->
      scm_failed m !! i = Some x /\ now <= u64_add x.2 (failed_session_retention (scm_config m)))).
Proof using iter_active_lists iter_failed_lists.
  intros H0 Hr Hu Hsz. unfold cleanup_sessions. cbn [fst].
  destruct (move_fold now (timed_out_ids iter_active now m) m) as [Hc1 H1]. set (m1 := foldl _ m _) in *.
  set (m2 := m1 <| scm_failed ::= _ |>).
  assert (Hm2 : scm_active m2 = scm_active m1 /\ scm_config m2 = scm_config m1 /\
    scm_failed m2 = foldl (fun f id => delete id f) (scm_failed m1) (expired_failed_ids iter_failed now m1)) by (by destruct m1).
  destruct Hm2 as (Ha2 & Hc2 & Hf2). destruct (move_fold now (excess_ids iter_active m2) m2) as [_ H3].
  specialize (H1 i) as [Ha1 Hf1]. specialize (H3 i) as [Ha3 Hf3].
  assert (Hf2i : scm_failed m2 !! i = if decide (i ∈ expired_failed_ids iter_failed now m1) then None else scm_failed m1 !! i)
    by (rewrite Hf2, deletes_lookup; case_bool_decide; [by rewrite decide_True|by rewrite decide_False]).
  assert (Hfresh : forall s', scm_failed m1 !! i = Some (s', now) -> i ∉ expired_failed_ids iter_failed now m1).
  { intros s' Hs' Hin. apply (expired_spec now m1 i _ Hs') in Hin. rewrite Hc1 in Hin. cbn [snd] in Hin.
    unfold u64_add in Hin. rewrite wrap64_small in Hin by lia. lia. }
  rewrite Ha2 in Ha3, Hf3. split_and!.
  - rewrite Ha3. destruct (decide (i ∈ excess_ids iter_active m2)); [done|]. rewrite Ha1. destruct (decide (i ∈ timed_out_ids _ _ _)) as [|Hno]; [done|].
    intros Hs. split; [done|]. by rewrite <- (timed_out_spec now m i s Hs).
  - intros Hs. rewrite Ha3, Hf3, Ha1. rewrite Hs in Hf1. destruct (decide (i ∈ timed_out_ids iter_active now m)) as [Ht|Ht].
    + right. rewrite Hf2i, decide_False by (by eapply Hfresh). split; [by destruct (decide _)|].
      left. by apply (timed_out_spec now m i s Hs).
    + rewrite Hs. destruct (decide (i ∈ excess_ids iter_active m2)) as [He|He]; [|by left]. right. split; [done|]. right.
      assert (Hs2 : scm_active m2 !! i = Some s) by (rewrite Ha2, Ha1; by destruct (decide (i ∈ timed_out_ids iter_active now m))).
      assert (Hsub : scm_active m2 ⊆ scm_active m).
      { rewrite Ha2. apply map_subseteq_spec. intros j t Hj.
        destruct (move_fold now (timed_out_ids iter_active now m) m) as [_ Hall]. fold m1 in Hall. rewrite (proj1 (Hall j)) in Hj.
        revert Hj. by destruct (decide (j ∈ timed_out_ids iter_active now m)). }
      assert (Hsz2 : (size (scm_active m2) <= size (scm_active m))%nat) by (by apply map_subseteq_size).
      pose proof (excess_over_limit m2 i s Hs2 He ltac:(lia)) as Hlt. rewrite Hc2, Hc1 in Hlt.
      eapply Z.lt_le_trans; [exact Hlt|]. apply inj_le, map_subseteq_size, map_subseteq_spec.
      intros j t. rewrite !map_lookup_filter_Some. intros [Hj Hq]. split; [by eapply lookup_weaken|done].
  - intros x Hn. rewrite Hf3, Ha1, Hn. rewrite Hn in Hf1.
    assert (Hnone : (if decide (i ∈ timed_out_ids iter_active now m) then None else None) = @None CoinJoinSession) by (by destruct (decide _)).
    rewrite Hnone, Hf2i, Hf1. destruct (scm_failed m !! i) as [y|] eqn:Hy.
    2:{ split; [by destruct (decide (i ∈ expired_failed_ids iter_failed now m1))|by intros [? _]]. }
    pose proof (expired_spec now m1 i y Hf1) as He. rewrite Hc1 in He.
    destruct (decide (i ∈ expired_failed_ids iter_failed now m1)) as [Hd|Hd].
    + split; [done|]. intros [[= ->] Hle]. apply He in Hd. lia.
    + split; [intros [= ->]|by intros [? _]]. split; [done|]. destruct (Z.le_gt_cases now (u64_add x.2 (failed_session_retention (scm_config m)))); [done|].
      destruct Hd. apply He. lia.
Qed.

End CleanupTheorems.

(** * Samples *)

Definition sample_shield_codec : ShieldCodec := {| bincode_tx_output o := Some (sample_bincode_output o) |}.

(** A generator that always draws four and takes the first elements. *)
Definition sample_std_rand : StdRand := {|
  StdRng := unit;
  std_from_seed _ := tt;
  std_gen_usize r := (4, r);
  choose_multiple X r l n := take (Z.to_nat n) l;
|}.

Lemma sample_std_rand_laws : @StdRandLaws sample_std_rand.
Proof.
  split; cbn.
  - intros r. unfold is_u64, u64_max. lia.
  - intros X r l n. apply sublist_submseteq, sublist_take.
  - intros X r l n Hn. unfold len. rewrite length_take. lia.
Qed.

Definition offer (k fee : Z) : LocalMixRequest := mkLocalMixRequest (mkMixRequest 200000 (replicate 32 k)) (mn_of k) fee.

Lemma lowest_fee_first_witness :
  exists x, local_request x = mkMixRequest 200000 (replicate 32 2) /\
    [offer 1 9; offer 2 3; offer 3 5] ≡ₚ x :: [offer 1 9; offer 3 5].
Proof.
  destruct (lowest_fee_first (fun l => l) (fun l => Permutation_refl l) (mkMixRequestQueue [offer 1 9; offer 2 3; offer 3 5] ∅ ∅)
    (mkMixRequestQueue [offer 1 9; offer 3 5] ∅ ∅) (mkMixRequest 200000 (replicate 32 2)) eq_refl) as (x & H1 & H2 & _).
  exists x. split; [exact H1|exact H2].
Defined.

Definition three_requests : list FerrousShieldMixRequest := (fun k => mkMixRequest 200000 (replicate 32 k)) <$> [1; 2; 3].

Definition sample_round : outcome string (list FerrousShieldMixOutput) :=
  @coordinate_coinjoin sample_primitives sample_auth sample_shield_codec three_requests 7 None.

Definition round_outputs : list FerrousShieldMixOutput := match sample_round with Ok l => l | _ => [] end.

(** Three participants bring 600000 and the outputs are worth one more. *)
Lemma round_outputs_value_witness : total ((fun o => value (mix_output o)) <$> round_outputs) = 600001.
Proof.
  assert (Hr : sample_round = Ok round_outputs) by (vm_compute; reflexivity).
  destruct (@round_outputs_value sample_primitives sample_auth sample_shield_codec three_requests 7 None round_outputs 200000)
    as [_ Hv].
  - repeat (apply Forall_cons; split; [reflexivity|]). apply Forall_nil_2.
  - unfold len, u32_max. cbn. lia.
  - vm_compute. discriminate.
  - exact Hr.
  - exact Hv.
Defined.

(** Twenty masternodes, all good. *)
Definition twenty_masternodes : MasternodeList :=
  list_to_map ((fun k => (mn_of k, seasoned_entry k)) <$> seqZ 1 20).

Definition eligible_twenty : list MasternodeID := eligible_coordinators forward twenty_masternodes.

Lemma shield_quorum_spec_witness :
  exists q, select_ferrousshield_quorum (P := sample_primitives) (R := sample_std_rand) forward twenty_masternodes [1] [2] = Ok q /\
    NoDup q /\ 3 <= len q <= 4.
Proof.
  assert (Hn : len eligible_twenty = 20) by (vm_compute; reflexivity).
  destruct (proj1 (@shield_quorum_spec sample_primitives sample_std_rand sample_std_rand_laws forward (fun m => Permutation_refl _)
    twenty_masternodes [1] [2])) as (q & Hq & Hnd & _ & Hl).
  - fold eligible_twenty. rewrite Hn. lia.
  - exists q. split; [exact Hq|]. split; [exact Hnd|]. fold eligible_twenty in Hl. rewrite Hn in Hl. exact Hl.
Defined.

Definition shield_chain : Blockchain :=
  mkBlockchain [] LiveTickets.LiveTicketsPool_new ∅ twenty_masternodes BlockchainState_new Params.ConsensusParams_default
    GovernanceState.ActiveProposals_new ∅.

Definition sample_cj : shieldR CoinJoinSession :=
  initiate_coinjoin_session_enhanced (P := sample_primitives) (R := sample_std_rand) forward shield_chain (Some 5) (Some 6) [1] 7.

Definition started : CoinJoinSession :=
  match sample_cj with
  | Ok s => s
  | _ => mkCoinJoinSession [] (mn_of 1) [] [] [] CjFailed 0 None DKGParams_default 0
  end.

Lemma session_starts_witness :
  exists q, head q = Some (cj_coordinator_id started) /\ cj_state started = CjWaiting.
Proof.
  assert (Hs : sample_cj = Ok started) by (vm_compute; reflexivity).
  destruct (session_starts (P := sample_primitives) (R := sample_std_rand) forward shield_chain (Some 5) (Some 6) [1] 7 started Hs)
    as (q & g & _ & Hh & _ & Hst & _). exists q. split; [exact Hh|exact Hst].
Defined.

Lemma registered_once_witness :
  NoDup (cj_participants (foldl (fun s '(pk, r) => fst (register_for_coinjoin pk r s)) started
    [([1], mkMixRequest 5 [1]); ([1], mkMixRequest 6 [1]); ([2], mkMixRequest 7 [2])])).
Proof.
  apply registered_once. assert (Hp : cj_participants started = []) by (vm_compute; reflexivity). rewrite Hp. apply NoDup_nil_2.
Defined.

Definition two_inputs : list TxInput := (fun k => TxInput_from_outpoint (mkOutPoint [k] 0) [] 0 []) <$> [1; 2].
Definition two_outputs : list TxOutput := (fun k => mkTxOutput 9950 [k] None) <$> [1; 2].

Lemma values_ok : Forall (Z.le 0) [10000; 10000] /\ total [10000; 10000] <= u64_max.
Proof.
  split; [|unfold total, u64_max; cbn; lia]. repeat (apply Forall_cons; split; [lia|]). apply Forall_nil_2.
Qed.

Lemma coinjoin_participants_iff_witness :
  validate_coinjoin_participants two_inputs [10000; 10000] two_outputs 2 = Ok tt.
Proof.
  apply coinjoin_participants_iff.
  - exact (proj1 values_ok).
  - exact (proj2 values_ok).
  - repeat (apply Forall_cons; split; [cbn; lia|]). apply Forall_nil_2.
  - unfold total, u64_max. cbn. lia.
  - assert (Hd : forall A B : list Z, A <> B -> NoDup [A; B]).
    { intros X Y Hne. apply NoDup_cons. split; [by intros ?%list_elem_of_singleton|apply NoDup_singleton]. }
    split; [unfold len; cbn; lia|]. split; [unfold len; cbn; lia|]. split; [done|]. split.
    + apply NoDup_cons. split; [intros ?%list_elem_of_singleton; discriminate|apply NoDup_singleton].
    + split; [apply Hd; discriminate|]. vm_compute. split; discriminate.
Defined.

Definition balanced_sample : shieldR (list TxOutput * Z) :=
  balance_coinjoin_inputs_outputs (H := sample_primitives) two_inputs [10000; 10000] 9000 2.
Definition balanced_outputs : list TxOutput := match balanced_sample with Ok p => p.1 | _ => [] end.

Lemma balanced_eq : balanced_sample = Ok (balanced_outputs, 750).
Proof. vm_compute. reflexivity. Qed.

Lemma balanced_round_value_witness : total (value <$> balanced_outputs) + 750 = 20000.
Proof.
  destruct (balanced_round_value (P := sample_primitives) two_inputs [10000; 10000] 9000 2 balanced_outputs 750) as (_ & Hv & _).
  - split; [exact (proj1 values_ok)|]. split; [exact (proj2 values_ok)|]. unfold len, u64_max. cbn. lia.
  - lia.
  - exact balanced_eq.
  - exact Hv.
Defined.

Lemma balanced_round_refused_witness :
  validate_coinjoin_participants two_inputs [10000; 10000] balanced_outputs 2 = Err (ShieldOther "Duplicate output detected").
Proof.
  apply (balanced_round_refused (P := sample_primitives) two_inputs [10000; 10000] 9000 2 balanced_outputs 750 2).
  - lia.
  - lia.
  - unfold len. cbn. lia.
  - apply NoDup_cons. split; [intros ?%list_elem_of_singleton; discriminate|apply NoDup_singleton].
  - exact balanced_eq.
Defined.

Lemma coinjoin_signatures_unread_witness :
  validate_coinjoin_transaction sample_tx 1 [replicate 64 1] = validate_coinjoin_transaction sample_tx 1 [replicate 64 2].
Proof. apply coinjoin_signatures_unread. reflexivity. Defined.

Definition session_of (id : Z) (c : MasternodeID) (t : Z) : CoinJoinSession :=
  mkCoinJoinSession [id] c [] [] [] CjMixing 0 None DKGParams_default t.

(** A coordinator with eleven old sessions and one with eleven new ones. *)
Definition crowded : SessionCleanupManager :=
  mkSessionCleanupManager
    (list_to_map (((fun k => ([k], session_of k (mn_of 1) k)) <$> seqZ 1 11) ++
                  ((fun k => ([k], session_of k (mn_of 2) (1000 + k))) <$> seqZ 21 11)))
    ∅ SessionCleanupConfig_default.

(** The limit of sessions of one coordinator is not enforced: the sessions
    that go are the oldest of all coordinators over the limit, and they may
    all belong to one of them. *)
Theorem coordinator_limit_not_enforced :
  exists m now c,
    max_sessions_per_coordinator (scm_config m) <
      Z.of_nat (size (filter (fun p => cj_coordinator_id p.2 = c)
        (scm_active (cleanup_sessions map_to_list map_to_list now m).1))).
Proof. exists crowded, 1100, (mn_of 2). vm_compute. reflexivity. Qed.

Lemma cleanup_spec_witness :
  exists t, scm_failed (cleanup_sessions map_to_list map_to_list 5000 crowded).1 !! [3] = Some (session_of 3 (mn_of 1) 3, t).
Proof.
  destruct (cleanup_spec map_to_list map_to_list (fun m => Permutation_refl _) (fun m => Permutation_refl _) 5000 crowded [3]
    (session_of 3 (mn_of 1) 3)) as (H1 & H2 & _).
  - lia.
  - cbn. lia.
  - cbn. unfold u64_max. lia.
  - assert (Hs : size (scm_active crowded) = 22%nat) by (vm_compute; reflexivity). rewrite Hs. unfold u32_max. lia.
  - destruct H2 as [Ha|[Hf _]].
    + vm_compute. reflexivity.
    + exfalso. apply H1 in Ha as [_ Ho]. apply Ho. vm_compute. reflexivity.
    + exists 5000. exact Hf.
Defined.
