(* ===== verification/Reputation.v ===== *)
(** Reputation, fees and privacy of mixing (src/rusty-masternode/src/
    ferrous_shield.rs, second part): the record each masternode has of its
    sessions, the reputation of participants with its decay, the distribution
    of fees among coordinators and the privacy metrics.

    Ratios are binary64.  The clock is an argument; [iter_*] stand for the
    iteration orders of hash maps.  Log messages are left out. *)

From Stdlib Require Import ZArith Lia List SpecFloat.
From stdpp Require Import base option list numbers strings gmap.
From coqutil Require Import Datatypes.RecordSetters.
From S2P Require Import Prelude Types Transaction SamplePrimitives F64 Quorum Wallet.

Import TriangleBracketNotations.
#[local] Open Scope Z_scope.

(** [rusty_core::constants::MIN_MN_REPUTATION] *)
Definition CORE_MIN_MN_REPUTATION : Z := 50.

(** * Data *)

Inductive ParticipationRole : Type := RoleCoordinator | RoleParticipant | RoleObserver.

Inductive SessionOutcome : Type :=
| SessionSuccess
| SessionFailed (reason : string)
| SessionTimeout
| SessionPrivacyViolation (description : string).

Record ReputationData : Type := mkReputationData {
  rep_score : Z;
  rep_total : Z;
  rep_successful : Z;
  rep_failed : Z;
  rep_violations : Z;
  rep_last_updated : Z;
  rep_consecutive : Z;
}.

Record SessionParticipation : Type := mkSessionParticipation {
  sp_session_id : Hash;
  sp_timestamp : Z;
  sp_role : ParticipationRole;
  sp_outcome : SessionOutcome;
  sp_privacy_score : f64;
}.

Inductive PrivacyViolationType : Type :=
| InputOutputLinkage
| TimingAnalysis
| AmountCorrelation
| MetadataLeakage
| CoordinatorMisbehavior
| ParticipantDeAnonymization.

#[export] Instance PrivacyViolationType_eq_dec : EqDecision PrivacyViolationType.
Proof. solve_decision. Defined.

#[export] Instance PrivacyViolationType_countable : Countable PrivacyViolationType.
Proof.
  refine (inj_countable'
    (fun t => match t with InputOutputLinkage => 0 | TimingAnalysis => 1 | AmountCorrelation => 2 | MetadataLeakage => 3
                         | CoordinatorMisbehavior => 4 | ParticipantDeAnonymization => 5 end%nat)
    (fun n => match n with 0 => InputOutputLinkage | 1 => TimingAnalysis | 2 => AmountCorrelation | 3 => MetadataLeakage
                         | 4 => CoordinatorMisbehavior | _ => ParticipantDeAnonymization end%nat) _).
  by intros [].
Defined.

Inductive ViolationSeverity : Type := SeverityLow | SeverityMedium | SeverityHigh | SeverityCritical.

Record PrivacyViolationRecord : Type := mkPrivacyViolationRecord {
  pv_session_id : Hash;
  pv_type : PrivacyViolationType;
  pv_description : string;
  pv_severity : ViolationSeverity;
  pv_timestamp : Z;
  pv_coordinator_id : bytes;
}.

Record AnonymitySetStats : Type := mkAnonymitySetStats {
  anon_total_sessions : Z;
  average_anonymity_set_size : f64;
  min_anonymity_set_size : Z;
  max_anonymity_set_size : Z;
  anonymity_set_distribution : gmap Z Z;
}.

Record CoordinatorPrivacyMetrics : Type := mkCoordinatorPrivacyMetrics {
  sessions_coordinated : Z;
  cpm_violations : Z;
  average_privacy_score : f64;
  anonymity_preservation_rate : f64;
}.

Record PrivacyMetrics : Type := mkPrivacyMetrics {
  anonymity_set_stats : AnonymitySetStats;
  pm_violations : list PrivacyViolationRecord;
  session_privacy_scores : gmap Hash f64;
  coordinator_privacy_performance : gmap bytes CoordinatorPrivacyMetrics;
}.

Record PrivacyReport : Type := mkPrivacyReport {
  total_sessions_analyzed : Z;
  report_average_anonymity : f64;
  total_privacy_violations : Z;
  privacy_violation_breakdown : gmap PrivacyViolationType Z;
  average_session_privacy_score : f64;
  coordinator_count : Z;
}.

(** * Privacy metrics *)

Definition PrivacyMetrics_new : PrivacyMetrics :=
  mkPrivacyMetrics (mkAnonymitySetStats 0 (f64_of_Z 0) u32_max 0 ∅) [] ∅ ∅.

Definition update_from_session (now : Z) (outcome : SessionOutcome) (privacy_score : f64) (m : PrivacyMetrics) : PrivacyMetrics :=
  let total_sessions := wrap32 (anon_total_sessions (anonymity_set_stats m) + 1) in
  let violations :=
    match outcome with
    | SessionPrivacyViolation d =>
        pm_violations m ++ [mkPrivacyViolationRecord (replicate 32 0) CoordinatorMisbehavior d SeverityHigh now []]
    | _ => pm_violations m
    end in
  let total := f64_of_Z total_sessions in
  let average := f64_div (f64_add (f64_mul (average_anonymity_set_size (anonymity_set_stats m)) (f64_sub total (f64_of_Z 1)))
                            privacy_score) total in
  m <| anonymity_set_stats := (anonymity_set_stats m) <| anon_total_sessions := total_sessions |>
                                <| average_anonymity_set_size := average |> |>
    <| pm_violations := violations |>.

Definition anonymity_score (n : Z) : f64 :=
  if n <=? 2 then f64_of_Z 0 else if n <=? 5 then f64_lit 3 10 else if n <=? 10 then f64_lit 6 10
  else if n <=? 20 then f64_lit 8 10 else f64_of_Z 1.

Definition calculate_session_privacy_score (anonymity_set_size : Z) (timing_variance amount_variance metadata : f64) : f64 :=
  let one := f64_of_Z 1 in
  let zero := f64_of_Z 0 in
  let low_is_good v := f64_max (f64_sub one (f64_min v one)) zero in
  let score := f64_add zero (f64_mul (anonymity_score anonymity_set_size) (f64_lit 4 10)) in
  let score := f64_add score (f64_mul (low_is_good timing_variance) (f64_lit 2 10)) in
  let score := f64_add score (f64_mul (low_is_good amount_variance) (f64_lit 2 10)) in
  f64_add score (f64_mul (f64_max (f64_min metadata one) zero) (f64_lit 2 10)).

Definition count_violation (acc : gmap PrivacyViolationType Z) (v : PrivacyViolationRecord) : gmap PrivacyViolationType Z :=
  <[pv_type v := wrap32 (default 0 (acc !! pv_type v) + 1)]> acc.

Definition get_privacy_report (iter_scores : gmap Hash f64 -> list (Hash * f64)) (m : PrivacyMetrics) : PrivacyReport :=
  mkPrivacyReport (anon_total_sessions (anonymity_set_stats m)) (average_anonymity_set_size (anonymity_set_stats m))
    (wrap32 (len (pm_violations m))) (foldl count_violation ∅ (pm_violations m))
    (if Z.of_nat (size (session_privacy_scores m)) =? 0 then f64_of_Z 0
     else f64_div (foldl f64_add (f64_of_Z 0) ((iter_scores (session_privacy_scores m)).*2))
            (f64_of_Z (Z.of_nat (size (session_privacy_scores m)))))
    (wrap32 (Z.of_nat (size (coordinator_privacy_performance m)))).

(** * The reputation of masternodes *)

Record ParticipantReputationManager : Type := mkParticipantReputationManager {
  reputation_scores : gmap MasternodeID ReputationData;
  session_history : gmap MasternodeID (list SessionParticipation);
  privacy_metrics : PrivacyMetrics;
}.

Definition ParticipantReputationManager_new : ParticipantReputationManager :=
  mkParticipantReputationManager ∅ ∅ PrivacyMetrics_new.

Definition fresh_reputation (now : Z) : ReputationData := mkReputationData CORE_MIN_MN_REPUTATION 0 0 0 0 now 0.

(** What one session does to the record. *)
Definition apply_outcome (now : Z) (outcome : SessionOutcome) (r : ReputationData) : ReputationData :=
  let r := r <| rep_total ::= (fun t => wrap32 (t + 1)) |> <| rep_last_updated := now |> in
  let r := match outcome with
           | SessionSuccess =>
               r <| rep_successful ::= (fun t => wrap32 (t + 1)) |> <| rep_consecutive := 0 |>
                 <| rep_score ::= (fun s => Z.min 100 (wrap32 (s + 2))) |>
           | SessionFailed _ =>
               r <| rep_failed ::= (fun t => wrap32 (t + 1)) |> <| rep_consecutive ::= (fun t => wrap32 (t + 1)) |>
                 <| rep_score ::= (fun s => Z.max 0 (s - 5)) |>
           | SessionTimeout =>
               r <| rep_failed ::= (fun t => wrap32 (t + 1)) |> <| rep_consecutive ::= (fun t => wrap32 (t + 1)) |>
                 <| rep_score ::= (fun s => Z.max 0 (s - 10)) |>
           | SessionPrivacyViolation _ =>
               r <| rep_violations ::= (fun t => wrap32 (t + 1)) |> <| rep_consecutive ::= (fun t => wrap32 (t + 1)) |>
                 <| rep_score ::= (fun s => Z.max 0 (s - 20)) |>
           end in
  if 3 <=? rep_consecutive r then r <| rep_score ::= (fun s => Z.max 0 (s - 15)) |> else r.

Definition update_reputation_from_session (now : Z) (masternode_id : MasternodeID) (session_id : Hash)
    (outcome : SessionOutcome) (role : ParticipationRole) (privacy_score : f64) (m : ParticipantReputationManager) :
    ParticipantReputationManager :=
  let participation := mkSessionParticipation session_id now role outcome privacy_score in
  let reputation := apply_outcome now outcome (default (fresh_reputation now) (reputation_scores m !! masternode_id)) in
  mkParticipantReputationManager
    (<[masternode_id := reputation]> (reputation_scores m))
    (<[masternode_id := default [] (session_history m !! masternode_id) ++ [participation]]> (session_history m))
    (update_from_session now outcome privacy_score (privacy_metrics m)).

Definition is_eligible_for_participation (m : ParticipantReputationManager) (masternode_id : MasternodeID) : bool :=
  match reputation_scores m !! masternode_id with
  | Some r => (CORE_MIN_MN_REPUTATION <=? rep_score r) && (rep_consecutive r <? 3) && (rep_violations r <? 5)
  | None => true
  end.

Record ReputationReport : Type := mkReputationReport {
  rr_score : Z;
  rr_success_rate : f64;
  rr_total_sessions : Z;
  rr_privacy_violations : Z;
  recent_activity : list SessionParticipation;
}.

Definition get_reputation_report (m : ParticipantReputationManager) (masternode_id : MasternodeID) : option ReputationReport :=
  r ← reputation_scores m !! masternode_id;
  let history := default [] (session_history m !! masternode_id) in
  Some (mkReputationReport (rep_score r)
    (if 0 <? rep_total r then f64_div (f64_of_Z (rep_successful r)) (f64_of_Z (rep_total r)) else f64_of_Z 0)
    (rep_total r) (rep_violations r) (take 10 (reverse history))).

(** * The reputation of participants *)

Inductive TrustLevel : Type := Untrusted | Limited | Trusted | HighlyTrusted.

#[export] Instance TrustLevel_eq_dec : EqDecision TrustLevel.
Proof. solve_decision. Defined.

Record ParticipantReputation : Type := mkParticipantReputation {
  pr_id : string;
  pr_total : Z;
  pr_successful : Z;
  pr_failed : Z;
  pr_malicious : Z;
  pr_score : f64;
  pr_last_activity : Z;
  pr_trust : TrustLevel;
}.

Definition ParticipantReputation_new (id : string) : ParticipantReputation :=
  mkParticipantReputation id 0 0 0 0 (f64_lit 1 2) 0 Untrusted.

Definition calculate_reputation_score (r : ParticipantReputation) : ParticipantReputation :=
  if pr_total r =? 0 then r <| pr_score := f64_lit 1 2 |>
  else
    let success_rate := f64_div (f64_of_Z (pr_successful r)) (f64_of_Z (pr_total r)) in
    let malicious_penalty := f64_min (f64_mul (f64_of_Z (pr_malicious r)) (f64_lit 2 10)) (f64_lit 8 10) in
    r <| pr_score := f64_min (f64_max (f64_sub success_rate malicious_penalty) (f64_of_Z 0)) (f64_of_Z 1) |>.

Definition trust_of (score : f64) (total : Z) : TrustLevel :=
  if f64_ge score (f64_lit 8 10) && (20 <=? total) then HighlyTrusted
  else if f64_ge score (f64_lit 6 10) && (10 <=? total) then Trusted
  else if f64_ge score (f64_lit 4 10) && (5 <=? total) then Limited else Untrusted.

Definition update_trust_level (r : ParticipantReputation) : ParticipantReputation :=
  r <| pr_trust := trust_of (pr_score r) (pr_total r) |>.

Definition update_session_outcome (success malicious : bool) (r : ParticipantReputation) : ParticipantReputation :=
  let r := r <| pr_total ::= (fun t => wrap32 (t + 1)) |> in
  let r := if success then r <| pr_successful ::= (fun t => wrap32 (t + 1)) |>
           else r <| pr_failed ::= (fun t => wrap32 (t + 1)) |> in
  let r := if malicious then r <| pr_malicious ::= (fun t => wrap32 (t + 1)) |> else r in
  update_trust_level (calculate_reputation_score r).

Definition is_eligible_for_session (r : ParticipantReputation) (required : TrustLevel) : bool :=
  match required, pr_trust r with
  | Untrusted, _ => true
  | Limited, (Limited | Trusted | HighlyTrusted) => true
  | Trusted, (Trusted | HighlyTrusted) => true
  | HighlyTrusted, HighlyTrusted => true
  | _, _ => false
  end.

Record ReputationManager : Type := mkReputationManager {
  reputations : gmap string ParticipantReputation;
  reputation_decay_rate : f64;
  max_reputation_age_seconds : Z;
}.

Definition ReputationManager_new : ReputationManager := mkReputationManager ∅ (f64_lit 1 100) (30 * 24 * 3600).

Definition get_reputation (m : ReputationManager) (id : string) : option ParticipantReputation := reputations m !! id.

Definition get_or_create_reputation (id : string) (m : ReputationManager) : ReputationManager * ParticipantReputation :=
  let r := default (ParticipantReputation_new id) (reputations m !! id) in
  (m <| reputations ::= <[id := r]> |>, r).

Definition record_session_outcome (id : string) (success malicious : bool) (now : Z) (m : ReputationManager) : ReputationManager :=
  let (m, r) := get_or_create_reputation id m in
  m <| reputations ::= <[id := (update_session_outcome success malicious r) <| pr_last_activity := now |>]> |>.

Definition decay (rate : f64) (max_age now : Z) (r : ParticipantReputation) : ParticipantReputation :=
  let age_seconds := u64_saturating_sub now (pr_last_activity r) in
  if max_age <? age_seconds then
    let decay_factor := f64_mul (f64_of_Z (age_seconds - max_age)) rate in
    let half := f64_lit 1 2 in
    update_trust_level
      (r <| pr_score := f64_add half (f64_mul (f64_sub (pr_score r) half) (f64_sub (f64_of_Z 1) decay_factor)) |>)
  else r.

Definition apply_reputation_decay (now : Z) (m : ReputationManager) : ReputationManager :=
  m <| reputations ::= (fun rs =>
    filter (fun p => u64_saturating_sub now (pr_last_activity p.2) < u64_mul (max_reputation_age_seconds m) 2)
      (decay (reputation_decay_rate m) (max_reputation_age_seconds m) now <$> rs)) |>.

(** * Distribution of fees *)

Record FeeDistributionConfig : Type := mkFeeDistributionConfig {
  primary_coordinator_share : f64;
  backup_coordinator_share : f64;
  minimum_distribution_amount : Z;
  distribution_interval : Z;
}.

Definition FeeDistributionConfig_default : FeeDistributionConfig :=
  mkFeeDistributionConfig (f64_lit 7 10) (f64_lit 3 10) 1000 3600.

Record FeeDistributionRecord : Type := mkFeeDistributionRecord {
  fd_session_id : Hash;
  fd_total_fee : Z;
  fd_distributions : list (MasternodeID * Z);
  fd_timestamp : Z;
}.

Record FeeDistributionManager : Type := mkFeeDistributionManager {
  pending_distributions : gmap MasternodeID Z;
  distribution_history : list FeeDistributionRecord;
  fee_config : FeeDistributionConfig;
}.

Definition FeeDistributionManager_new : FeeDistributionManager := mkFeeDistributionManager ∅ [] FeeDistributionConfig_default.

Definition credit (pending : gmap MasternodeID Z) (d : MasternodeID * Z) : gmap MasternodeID Z :=
  <[d.1 := u64_add (default 0 (pending !! d.1)) d.2]> pending.

(** Who gets what of a fee, the primary coordinator first. *)
Definition fee_shares (c : FeeDistributionConfig) (total_fee : Z) (primary : MasternodeID) (backups : list MasternodeID) :
    list (MasternodeID * Z) :=
  let primary_amount := f64_to_u64 (f64_mul (f64_of_Z total_fee) (primary_coordinator_share c)) in
  let backup_total := wrap64 (total_fee - primary_amount) in
  let backup_amount_per_node := if len backups =? 0 then 0 else backup_total / len backups in
  (primary, primary_amount) :: ((fun b => (b, backup_amount_per_node)) <$> backups).

Definition queue_fee_distribution (now : Z) (session_id : Hash) (total_fee : Z) (primary : MasternodeID)
    (backups : list MasternodeID) (m : FeeDistributionManager) : FeeDistributionManager :=
  if total_fee <? minimum_distribution_amount (fee_config m) then m
  else
    let distributions := fee_shares (fee_config m) total_fee primary backups in
    m <| pending_distributions := foldl credit (pending_distributions m) distributions |>
      <| distribution_history ::= (fun h => h ++ [mkFeeDistributionRecord session_id total_fee distributions now]) |>.

Record FeePayoutTransaction : Type := mkFeePayoutTransaction {
  payout_recipient : MasternodeID;
  payout_amount : Z;
  payout_timestamp : Z;
  payout_transaction_id : Hash;
}.

Definition process_pending_distributions (iter_pending : gmap MasternodeID Z -> list (MasternodeID * Z)) (now : Z)
    (m : FeeDistributionManager) : FeeDistributionManager * list FeePayoutTransaction :=
  (m <| pending_distributions := ∅ |>,
   (fun '(id, a) => mkFeePayoutTransaction id a now (replicate 32 0)) <$>
   filter (fun '(_, a) => minimum_distribution_amount (fee_config m) <= a) (iter_pending (pending_distributions m))).

Record FeeDistributionStats : Type := mkFeeDistributionStats {
  total_pending_amount : Z;
  total_distributed_amount : Z;
  pending_recipients : Z;
  distribution_history_count : Z;
}.

Definition get_distribution_stats (iter_pending : gmap MasternodeID Z -> list (MasternodeID * Z)) (m : FeeDistributionManager) :
    FeeDistributionStats :=
  mkFeeDistributionStats (sum64 ((iter_pending (pending_distributions m)).*2)) (sum64 (fd_total_fee <$> distribution_history m))
    (wrap32 (Z.of_nat (size (pending_distributions m)))) (wrap32 (len (distribution_history m))).

(** * Theorems: masternodes *)

Definition is_success (p : SessionParticipation) : bool := match sp_outcome p with SessionSuccess => true | _ => false end.
Definition is_failure (p : SessionParticipation) : bool :=
  match sp_outcome p with SessionFailed _ | SessionTimeout => true | _ => false end.
Definition is_violation (p : SessionParticipation) : bool :=
  match sp_outcome p with SessionPrivacyViolation _ => true | _ => false end.

(** How many of a history are of a kind, and how many sessions without success
    it ends with. *)
Definition tally (f : SessionParticipation -> bool) (h : list SessionParticipation) : Z := len (List.filter f h).
Definition trailing (h : list SessionParticipation) : Z := foldl (fun n p => if is_success p then 0 else n + 1) 0 h.

Record matches_history (r : ReputationData) (h : list SessionParticipation) : Prop := {
  mh_total : rep_total r = len h;
  mh_successful : rep_successful r = tally is_success h;
  mh_failed : rep_failed r = tally is_failure h;
  mh_violations : rep_violations r = tally is_violation h;
  mh_consecutive : rep_consecutive r = trailing h;
  mh_score : 0 <= rep_score r <= 100;
}.

Lemma tally_snoc f h p : tally f (h ++ [p]) = tally f h + (if f p then 1 else 0).
Proof. unfold tally, len. rewrite List.filter_app, length_app. cbn [List.filter]. destruct (f p); cbn [length]; lia. Qed.

Lemma trailing_snoc h p : trailing (h ++ [p]) = if is_success p then 0 else trailing h + 1.
Proof. unfold trailing. by rewrite foldl_app. Qed.

Lemma tally_bounds f h : 0 <= tally f h <= len h.
Proof. unfold tally, len. pose proof (filter_length_le f h). lia. Qed.

Lemma trailing_bounds h : 0 <= trailing h <= len h.
Proof.
  induction h as [|p h IH] using rev_ind; [done|]. rewrite trailing_snoc. unfold len in *. rewrite length_app. cbn [length].
  destruct (is_success p); lia.
Qed.

(** One session keeps the record in step with the history. *)
Lemma apply_outcome_matches now p r h :
  matches_history r h -> len h < u32_max -> matches_history (apply_outcome now (sp_outcome p) r) (h ++ [p]).
Proof.
  intros [Ht Hs Hf Hv Hc Hsc] Hu. pose proof (tally_bounds is_success h). pose proof (tally_bounds is_failure h).
  pose proof (tally_bounds is_violation h). pose proof (trailing_bounds h). pose proof (tally_snoc is_success h p) as E1.
  pose proof (tally_snoc is_failure h p) as E2. pose proof (tally_snoc is_violation h p) as E3. pose proof (trailing_snoc h p) as E4.
  assert (E5 : len (h ++ [p]) = len h + 1) by (unfold len; rewrite length_app; cbn; lia).
  change (is_success p) with (match sp_outcome p with SessionSuccess => true | _ => false end) in E1, E4.
  change (is_failure p) with (match sp_outcome p with SessionFailed _ | SessionTimeout => true | _ => false end) in E2.
  change (is_violation p) with (match sp_outcome p with SessionPrivacyViolation _ => true | _ => false end) in E3. destruct r as [sc tot su fa vi lu co]. cbn in *. subst.
  unfold apply_outcome. unfold u32_max in Hu.
  destruct (sp_outcome p); cbn; unfold RecordSetters.constant; rewrite ?wrap32_small by (unfold u32_max; lia);
    try (match goal with |- matches_history (if ?b then _ else _) _ => destruct b end); split; cbn; rewrite ?E1, ?E2, ?E3, ?E4, ?E5; lia.
Qed.

(** A call of the update. *)
Record rep_call : Type := mkRepCall {
  rc_now : Z;
  rc_masternode : MasternodeID;
  rc_session : Hash;
  rc_outcome : SessionOutcome;
  rc_role : ParticipationRole;
  rc_score : f64;
}.

Definition run_rep (m : ParticipantReputationManager) (c : rep_call) : ParticipantReputationManager :=
  update_reputation_from_session (rc_now c) (rc_masternode c) (rc_session c) (rc_outcome c) (rc_role c) (rc_score c) m.

Definition call_violates (c : rep_call) : bool := match rc_outcome c with SessionPrivacyViolation _ => true | _ => false end.

Record rep_inv (calls : list rep_call) (m : ParticipantReputationManager) : Prop := {
  ri_records : forall i, match reputation_scores m !! i, session_history m !! i with
                         | Some r, Some h => matches_history r h /\ len h <= len calls
                         | None, None => True
                         | _, _ => False
                         end;
  ri_sessions : anon_total_sessions (anonymity_set_stats (privacy_metrics m)) = len calls;
  ri_violations : len (pm_violations (privacy_metrics m)) = len (List.filter call_violates calls);
}.

Lemma run_rep_inv calls c m : len calls < u32_max -> rep_inv calls m -> rep_inv (calls ++ [c]) (run_rep m c).
Proof.
  intros Hu [Hr Hs Hv]. assert (Hl : len (calls ++ [c]) = len calls + 1) by (unfold len; rewrite length_app; cbn; lia).
  destruct m as [scores history pm]. destruct c as [now id sid o role ps]. unfold run_rep, update_reputation_from_session. cbn in *. split; cbn.
  - intros i. destruct (decide (i = id)) as [->|Hne]; [rewrite !lookup_insert_eq|rewrite !lookup_insert_ne by done].
    + specialize (Hr id). set (p := mkSessionParticipation sid now role o ps).
      assert (Hm : exists h, default [] (history !! id) = h /\ len h <= len calls /\
        matches_history (default (fresh_reputation now) (scores !! id)) h).
      { destruct (scores !! id) as [r|], (history !! id) as [h|]; try done; cbn; eexists; (split; [reflexivity|]).
        - by destruct Hr.
        - split; [unfold len; cbn; lia|]. split; cbn; unfold CORE_MIN_MN_REPUTATION; done || lia. }
      destruct Hm as (h & -> & Hh & Hm). split; [apply (apply_outcome_matches now p _ h Hm); lia|].
      rewrite Hl. unfold len in *. rewrite length_app. cbn [length]. lia.
    + specialize (Hr i). destruct (scores !! i), (history !! i); try done. destruct Hr. split; [done|lia].
  - destruct pm as [stats viol sps cpp]. destruct stats. cbn in *. rewrite Hs, Hl, wrap32_small; [done|]. unfold u32_max, len in *. lia.
  - rewrite List.filter_app. destruct pm as [stats viol sps cpp]. cbn in *. unfold len in *. rewrite length_app.
    destruct o; cbn; unfold RecordSetters.constant; rewrite ?length_app; cbn [length]; lia.
Qed.

(** The record of a masternode is a function of the history of its sessions:
    how many there were, how they ended, how many without success the history
    ends with; the score stays between 0 and 100.  The metrics count all
    sessions and keep every violation. *)
Theorem reputation_matches_history calls :
  len calls <= u32_max -> rep_inv calls (foldl run_rep ParticipantReputationManager_new calls).
Proof.
  induction calls as [|c calls IH] using rev_ind; intros Hl.
  - split; [|done|done]. intros i. cbn. by rewrite !lookup_empty.
  - assert (Hlen : len (calls ++ [c]) = len calls + 1) by (unfold len; rewrite length_app; cbn; lia).
    rewrite foldl_app. apply run_rep_inv; [lia|]. apply IH. lia.
Qed.

(** Three sessions in a row without success, or five violations, exclude a
    masternode. *)
Theorem excluded_after_failures calls id h :
  len calls <= u32_max -> session_history (foldl run_rep ParticipantReputationManager_new calls) !! id = Some h ->
  3 <= trailing h \/ 5 <= tally is_violation h ->
  is_eligible_for_participation (foldl run_rep ParticipantReputationManager_new calls) id = false.
Proof.
  intros Hl Hh Hbad. destruct (reputation_matches_history calls Hl) as [Hr _ _]. specialize (Hr id). rewrite Hh in Hr.
  unfold is_eligible_for_participation. destruct (reputation_scores _ !! id) as [r|]; [|done]. destruct Hr as [[] _].
  destruct Hbad; apply andb_false_iff; [left; apply andb_false_iff; right|right]; apply Z.ltb_ge; lia.
Qed.

(** * Theorems: participants *)

Definition in_unit (x : f64) : Prop := SFleb (f64_of_Z 0) x = true /\ SFleb x (f64_of_Z 1) = true.

(** [max] with zero and [min] with one give a number between them, whatever
    they are given. *)
Lemma clamp_in_unit x : in_unit (f64_min (f64_max x (f64_of_Z 0)) (f64_of_Z 1)).
Proof.
  assert (H01 : SFleb (f64_of_Z 0) (f64_of_Z 1) = true) by (vm_compute; reflexivity).
  assert (Hm : f64_is_nan (f64_max x (f64_of_Z 0)) = false /\ SFleb (f64_of_Z 0) (f64_max x (f64_of_Z 0)) = true).
  { unfold f64_max. destruct x as [s|s| |s m e]; try (destruct s); try (vm_compute; done). }
  destruct Hm as [Hn H0]. set (y := f64_max x (f64_of_Z 0)) in *. unfold f64_min. rewrite Hn.
  change (f64_is_nan (f64_of_Z 1)) with false. cbn iota. unfold f64_lt.
  destruct (SFltb (f64_of_Z 1) y) eqn:Hlt; [split; [done|vm_compute; done]|]. split; [done|].
  assert (H1 : exists m1 e1, f64_of_Z 1 = S754_finite false m1 e1) by (eexists _, _; vm_compute; reflexivity).
  destruct H1 as (m1 & e1 & H1). rewrite H1 in *. clear H01 H0. destruct y as [s|s| |s m e]; try (destruct s); try done.
  unfold SFltb, SFleb in *. cbn in Hlt |- *. change (Pos.compare_cont Eq m1 m) with (m1 ?= m)%positive in Hlt.
  change (Pos.compare_cont Eq m m1) with (m ?= m1)%positive.
  rewrite (Z.compare_antisym e1 e), (Pos.compare_antisym m1 m). by destruct (e1 ?= e), (m1 ?= m)%positive.
Qed.

(** A participant as the manager creates and updates it. *)
Record participant_ok (r : ParticipantReputation) : Prop := {
  po_total : pr_total r = pr_successful r + pr_failed r;
  po_successful : 0 <= pr_successful r;
  po_failed : 0 <= pr_failed r;
  po_malicious : 0 <= pr_malicious r <= pr_total r;
  po_score : in_unit (pr_score r);
  po_trust : pr_trust r = trust_of (pr_score r) (pr_total r);
}.

Lemma update_outcome_ok s b r :
  participant_ok r -> pr_total r < u32_max ->
  participant_ok (update_session_outcome s b r) /\ pr_total (update_session_outcome s b r) = pr_total r + 1.
Proof.
  intros [Ht Hs Hf Hm _ _] Hu. destruct r as [id tot su fa ma sc la tr]. cbn in *. unfold u32_max in *.
  unfold update_session_outcome, update_trust_level, calculate_reputation_score.
  destruct s, b; cbn -[Z.add f64_div f64_sub f64_mul f64_min f64_max f64_of_Z f64_lit trust_of];
    unfold RecordSetters.constant; rewrite ?wrap32_small by (unfold u32_max; lia);
    (destruct (Z.eqb_spec (tot + 1) 0); [lia|]); cbn -[Z.add f64_div f64_sub f64_mul f64_min f64_max f64_of_Z f64_lit trust_of];
    unfold RecordSetters.constant; (split; [|reflexivity]);
    split; cbn -[Z.add f64_div f64_sub f64_mul f64_min f64_max f64_of_Z f64_lit trust_of]; try lia; try apply clamp_in_unit; done.
Qed.

Lemma touched_ok now r : participant_ok r -> participant_ok (r <| pr_last_activity := now |>) /\ pr_total (r <| pr_last_activity := now |>) = pr_total r.
Proof. destruct r. intros [A1 A2 A3 A4 A5 A6]. split; [by split|done]. Qed.

Lemma record_reputations id s b now m :
  reputations (record_session_outcome id s b now m) =
  <[id := (update_session_outcome s b (default (ParticipantReputation_new id) (reputations m !! id))) <| pr_last_activity := now |>]>
    (reputations m).
Proof. destruct m as [rs rate age]. exact (insert_insert_eq rs id _ _). Qed.

(** Recorded outcomes keep every participant consistent: its sessions are its
    successes and failures, its score is between zero and one and its trust
    level follows from the score and the number of sessions. *)
Theorem recorded_outcomes_consistent (calls : list (string * bool * bool * Z)) :
  len calls <= u32_max ->
  map_Forall (fun _ r => participant_ok r /\ pr_total r <= len calls)
    (reputations (foldl (fun m '(id, s, b, now) => record_session_outcome id s b now m) ReputationManager_new calls)).
Proof.
  induction calls as [|[[[id s] b] now] calls IH] using rev_ind; intros Hl; [apply map_Forall_empty|].
  assert (Hlen : len (calls ++ [(id, s, b, now)]) = len calls + 1) by (unfold len; rewrite length_app; cbn; lia).
  rewrite foldl_app. specialize (IH ltac:(lia)). cbn [foldl]. set (m := foldl _ _ calls) in *. rewrite record_reputations, Hlen.
  set (r := default (ParticipantReputation_new id) (reputations m !! id)).
  assert (Hr : participant_ok r /\ pr_total r <= len calls).
  { unfold r. destruct (reputations m !! id) as [x|] eqn:Hx; cbn [default]; [by apply (IH id)|].
    split; [|unfold len; cbn; lia]. split; try done; try (cbn; lia). }
  destruct Hr as [Hr Ht]. destruct (update_outcome_ok s b r Hr ltac:(lia)) as [Hu Hut].
  destruct (touched_ok now _ Hu) as [Hu' Hut']. apply map_Forall_insert_2; [split; [done|lia]|].
  eapply map_Forall_impl; [exact IH|]. cbn. intros i x [? ?]. split; [done|lia].
Qed.

(** A manager that has seen a participant fail twenty times. *)
Definition twenty_failures : ReputationManager :=
  foldl (fun m k => record_session_outcome "p" false true k m) ReputationManager_new (seqZ 1 20).

(** The decay goes past the neutral score and on: a participant that failed
    and cheated twenty times, with score zero and no trust, is highly trusted
    when it stays away for thirty days and five minutes. *)
Theorem decay_makes_cheaters_trusted :
  exists r r', reputations twenty_failures !! "p"%string = Some r /\ pr_trust r = Untrusted /\ pr_malicious r = 20 /\
    reputations (apply_reputation_decay (20 + 30 * 24 * 3600 + 300) twenty_failures) !! "p"%string = Some r' /\
    pr_trust r' = HighlyTrusted /\ ~ in_unit (pr_score r').
Proof.
  assert (H1 : is_Some (reputations twenty_failures !! "p"%string)) by (apply (bool_decide_eq_true_1 _); vm_compute; reflexivity).
  assert (H2 : is_Some (reputations (apply_reputation_decay (20 + 30 * 24 * 3600 + 300) twenty_failures) !! "p"%string))
    by (apply (bool_decide_eq_true_1 _); vm_compute; reflexivity).
  destruct H1 as [r Hr]. destruct H2 as [r' Hr']. exists r, r'. split; [done|].
  assert (Hb : (pr_trust <$> reputations twenty_failures !! "p"%string) = Some Untrusted) by (vm_compute; reflexivity).
  assert (Hc : (pr_malicious <$> reputations twenty_failures !! "p"%string) = Some 20) by (vm_compute; reflexivity).
  set (m' := apply_reputation_decay _ _) in *.
  assert (Hd : (pr_trust <$> reputations m' !! "p"%string) = Some HighlyTrusted) by (vm_compute; reflexivity).
  assert (He : ((fun x => SFleb (pr_score x) (f64_of_Z 1)) <$> reputations m' !! "p"%string) = Some false) by (vm_compute; reflexivity).
  rewrite Hr in Hb, Hc. rewrite Hr' in Hd, He. cbn [fmap option_fmap option_map] in Hb, Hc, Hd, He. injection Hb as Hb. injection Hc as Hc. injection Hd as Hd. injection He as He.
  split_and!; try done. intros [_ Hu]. change (SFleb (pr_score r') (f64_of_Z 1) = false) in He. congruence.
Qed.

(** * Theorems: fees *)

Definition pending_total (m : gmap MasternodeID Z) : Z := total ((map_to_list m).*2).

Lemma pending_total_insert m i v : pending_total (<[i := v]> m) = pending_total m - default 0 (m !! i) + v.
Proof.
  unfold pending_total. destruct (m !! i) as [w|] eqn:Hi; cbn [default].
  - assert (H1 : <[i := v]> m = <[i := v]> (delete i m)) by (by rewrite insert_delete_eq).
    assert (H2 : total ((map_to_list m).*2) = w + total ((map_to_list (delete i m)).*2)).
    { rewrite <- (insert_delete_id m i w Hi) at 1. rewrite map_to_list_insert by apply lookup_delete_eq. by rewrite fmap_cons. }
    rewrite H1, map_to_list_insert by apply lookup_delete_eq. rewrite fmap_cons, total_cons, H2. cbn [snd]. unfold id. lia.
  - rewrite map_to_list_insert by done. rewrite fmap_cons, total_cons. cbn [snd]. lia.
Qed.

(** Crediting a list of shares adds their sum. *)
Lemma credit_fold l : forall pending,
  map_Forall (fun _ v => 0 <= v) pending -> Forall (fun d => 0 <= d.2) l -> pending_total pending + total (l.*2) <= u64_max ->
  pending_total (foldl credit pending l) = pending_total pending + total (l.*2) /\
  map_Forall (fun _ v => 0 <= v) (foldl credit pending l).
Proof.
  induction l as [|[i v] l IH]; intros pending Hp Hl Hu; cbn [foldl].
  { change (total [].*2) with 0. split; [lia|done]. }
  apply Forall_cons in Hl as [Hv Hl]. cbn [snd] in Hv. rewrite fmap_cons, total_cons in Hu |- *. cbn [snd] in *.
  assert (Hnl : 0 <= total (l.*2)) by (apply total_nonneg, Forall_fmap; exact Hl).
  assert (Hd : 0 <= default 0 (pending !! i) <= pending_total pending).
  { pose proof (pending_total_insert pending i 0) as Hz.
    assert (Hnn : 0 <= pending_total (<[i := 0]> pending)).
    { apply total_nonneg, Forall_fmap, Forall_forall. intros [j x] Hj. rewrite elem_of_map_to_list in Hj.
      assert (Hall : map_Forall (fun _ v => 0 <= v) (<[i := 0]> pending)) by (by apply map_Forall_insert_2).
      by apply (Hall j). }
    split; [|lia]. destruct (pending !! i) eqn:Hi; cbn; [by apply (Hp i)|lia]. }
  assert (Hc : credit pending (i, v) = <[i := default 0 (pending !! i) + v]> pending).
  { unfold credit, u64_add. cbn [fst snd]. by rewrite wrap64_small by lia. }
  destruct (IH (credit pending (i, v))) as [H1 H2].
  - rewrite Hc. apply map_Forall_insert_2; [lia|done].
  - done.
  - rewrite Hc, pending_total_insert. lia.
  - split; [|done]. rewrite H1, Hc, pending_total_insert. lia.
Qed.

(** The shares of a fee below [2 ^ 53] under the standard configuration: what
    is not given is the remainder of a division, or what the backups would
    have had if there are none. *)
Lemma fee_shares_total fee primary backups :
  0 <= fee < 2 ^ 53 ->
  let shares := fee_shares FeeDistributionConfig_default fee primary backups in
  let first := f64_to_u64 (f64_mul (f64_of_Z fee) (f64_lit 7 10)) in
  Forall (fun d => 0 <= d.2) shares /\ 0 <= first <= fee /\
  total (shares.*2) = fee - (if len backups =? 0 then fee - first else (fee - first) mod len backups).
Proof.
  intros Hf shares first.
  assert (Hfirst : 0 <= first <= fee).
  { split; [apply f64_to_u64_range|]. assert (Hl : exists mc, f64_lit 7 10 = S754_finite false mc (-53) /\ 2 ^ 52 <= Zpos mc <= 2 ^ 53 - 2).
    { exists 6305039478318694%positive. split; [vm_compute; reflexivity|]. vm_compute. split; discriminate. }
    destruct Hl as (mc & Hl & Hmc). unfold first. rewrite Hl. by apply f64_mul_shrinks. }
  unfold shares, fee_shares. cbn [primary_coordinator_share FeeDistributionConfig_default]. fold first.
  rewrite wrap64_small by (unfold u64_max; lia). set (each := if len backups =? 0 then 0 else (fee - first) / len backups).
  assert (Hlb : 0 <= len backups) by (unfold len; lia).
  assert (Heach : 0 <= each).
  { unfold each. destruct (Z.eqb_spec (len backups) 0); [lia|]. apply Z.div_pos; lia. }
  assert (Htot : forall x (l : list MasternodeID), total ((fun b => (b, x)) <$> l).*2 = len l * x).
  { clear. intros x l. induction l as [|b l IH]; [done|]. rewrite !fmap_cons, total_cons, IH. cbn [snd]. unfold len. cbn [length]. lia. }
  split; [constructor; [cbn; lia|]; apply Forall_fmap, Forall_forall; by intros|]. split; [done|].
  rewrite fmap_cons, total_cons, Htot. cbn [snd]. unfold each. destruct (Z.eqb_spec (len backups) 0) as [->|Hz]; [lia|].
  pose proof (Z.div_mod (fee - first) (len backups) Hz). lia.
Qed.

(** A fee that is distributed is credited to the pending amounts but for the
    remainder of the division among the backups; without backups their three
    tenths stay nobody's. *)
Theorem fee_distribution_conserves now sid fee primary backups m :
  fee_config m = FeeDistributionConfig_default -> 1000 <= fee < 2 ^ 53 ->
  map_Forall (fun _ v => 0 <= v) (pending_distributions m) -> pending_total (pending_distributions m) + fee <= u64_max ->
  let m' := queue_fee_distribution now sid fee primary backups m in
  let first := f64_to_u64 (f64_mul (f64_of_Z fee) (f64_lit 7 10)) in
  pending_total (pending_distributions m') =
    pending_total (pending_distributions m) + fee -
    (if len backups =? 0 then fee - first else (fee - first) mod len backups) /\
  map_Forall (fun _ v => 0 <= v) (pending_distributions m').
Proof.
  intros Hc Hf Hp Hu m' first. destruct (fee_shares_total fee primary backups) as (Hs & Hfirst & Ht); [lia|]. fold first in Hfirst, Ht.
  unfold m', queue_fee_distribution. rewrite Hc. cbn [minimum_distribution_amount FeeDistributionConfig_default].
  destruct (Z.ltb_spec fee 1000); [lia|].
  assert (Hle : 0 <= if len backups =? 0 then fee - first else (fee - first) mod len backups).
  { destruct (Z.eqb_spec (len backups) 0); [lia|]. apply Z.mod_pos_bound. unfold len in *. lia. }
  destruct m as [pend hist cfg]. cbn in Hc, Hp, Hu. subst cfg.
  change (pending_total (foldl credit pend (fee_shares FeeDistributionConfig_default fee primary backups)) =
    pending_total pend + fee - (if len backups =? 0 then fee - first else (fee - first) mod len backups) /\
    map_Forall (fun _ v => 0 <= v) (foldl credit pend (fee_shares FeeDistributionConfig_default fee primary backups))).
  destruct (credit_fold (fee_shares FeeDistributionConfig_default fee primary backups) pend) as [H1 H2]; [done|done|lia|].
  split; [rewrite H1; lia|done].
Qed.

(** A payout run pays every amount of at least the minimum once, in full, and
    forgets the others: nothing is pending afterwards. *)
Theorem payouts_exact iter_pending now m m' l :
  (forall p, iter_pending p ≡ₚ map_to_list p) ->
  process_pending_distributions iter_pending now m = (m', l) ->
  pending_distributions m' = ∅ /\ NoDup (payout_recipient <$> l) /\
  forall id a, (exists p, p ∈ l /\ payout_recipient p = id /\ payout_amount p = a) <->
    pending_distributions m !! id = Some a /\ minimum_distribution_amount (fee_config m) <= a.
Proof.
  intros Hit. unfold process_pending_distributions. intros [= <- <-]. split; [by destruct m|]. split.
  - rewrite <- list_fmap_compose. assert (Hfst : forall k : list (MasternodeID * Z),
      (payout_recipient ∘ (fun '(id, a) => mkFeePayoutTransaction id a now (replicate 32 0))) <$> k = k.*1).
    { intros k. apply list_fmap_ext. by intros i [id a] _. }
    rewrite Hfst. apply NoDup_fmap_filter. rewrite Hit. apply NoDup_fst_map_to_list.
  - intros id a. split.
    + intros (p & Hp & <- & <-). apply list_elem_of_fmap in Hp as ([j b] & -> & Hf). apply list_elem_of_filter in Hf as [Hm Hf].
      rewrite Hit, elem_of_map_to_list in Hf. done.
    + intros [Ha Hm]. exists (mkFeePayoutTransaction id a now (replicate 32 0)). split; [|done].
      apply list_elem_of_fmap. exists (id, a). split; [done|]. apply list_elem_of_filter. by rewrite Hit, elem_of_map_to_list.
Qed.

(** * Samples *)

Definition bad_call (k : Z) : rep_call := mkRepCall k (mn_of 1) [k] SessionTimeout RoleCoordinator (f64_of_Z 0).
Definition bad_calls : list rep_call := bad_call <$> [1; 2; 3].

Lemma bad_calls_few : len bad_calls <= u32_max.
Proof. vm_compute. discriminate. Qed.

Lemma reputation_matches_history_witness : rep_inv bad_calls (foldl run_rep ParticipantReputationManager_new bad_calls).
Proof. apply reputation_matches_history. exact bad_calls_few. Defined.

Lemma excluded_after_failures_witness :
  is_eligible_for_participation (foldl run_rep ParticipantReputationManager_new bad_calls) (mn_of 1) = false.
Proof.
  apply (excluded_after_failures bad_calls (mn_of 1)
    ((fun k => mkSessionParticipation [k] k RoleCoordinator SessionTimeout (f64_of_Z 0)) <$> [1; 2; 3])).
  - exact bad_calls_few.
  - vm_compute. reflexivity.
  - left. vm_compute. discriminate.
Defined.

Lemma recorded_outcomes_consistent_witness :
  map_Forall (fun _ r => participant_ok r /\ pr_total r <= 2)
    (reputations (foldl (fun m '(id, s, b, now) => record_session_outcome id s b now m) ReputationManager_new
      [("p"%string, true, false, 5); ("p"%string, false, true, 6)])).
Proof. apply (recorded_outcomes_consistent [("p"%string, true, false, 5); ("p"%string, false, true, 6)]). vm_compute. discriminate. Defined.

Definition fee_manager : FeeDistributionManager := FeeDistributionManager_new.

Lemma fee_distribution_conserves_witness :
  pending_total (pending_distributions (queue_fee_distribution 5 [1] 10000 (mn_of 1) [mn_of 2; mn_of 3] fee_manager)) = 10000.
Proof.
  destruct (fee_distribution_conserves 5 [1] 10000 (mn_of 1) [mn_of 2; mn_of 3] fee_manager) as [H _].
  - reflexivity.
  - lia.
  - apply map_Forall_empty.
  - vm_compute. discriminate.
  - rewrite H. vm_compute. reflexivity.
Defined.

Lemma payouts_exact_witness :
  pending_distributions (fst (process_pending_distributions map_to_list 9
    (queue_fee_distribution 5 [1] 10000 (mn_of 1) [] fee_manager))) = ∅.
Proof.
  set (r := process_pending_distributions map_to_list 9 (queue_fee_distribution 5 [1] 10000 (mn_of 1) [] fee_manager)).
  exact (proj1 (payouts_exact map_to_list 9 (queue_fee_distribution 5 [1] 10000 (mn_of 1) [] fee_manager) (fst r) (snd r)
    (fun p => Permutation_refl _) (surjective_pairing r))).
Defined.
