(* ===== verification/ThresholdRequests.v ===== *)
(** The coordinator of threshold signatures
    (src/rusty-core/src/consensus/threshold_signatures.rs): it starts key
    generation for the current masternodes and collects the shares of signature
    requests.

    The key-generation manager is DkgProtocol's.  Signatures of the
    threshold_crypto crate are an interface; the aggregation of shares, which
    ThresholdAlgebra models over a field, is an argument.  [iter_shares] stands
    for the iteration order of the map of shares.  Instants are nanoseconds of a
    monotonic clock.  Of formatted error messages the constant part is kept. *)

From Stdlib Require Import ZArith Lia List.
From stdpp Require Import base option list numbers strings gmap fin_maps.
From coqutil Require Import Datatypes.RecordSetters.
From S2P Require Import Prelude Types Errors Transaction SamplePrimitives F64 Dkg DkgProtocol OxideSend.

Import TriangleBracketNotations.
#[local] Open Scope Z_scope.

(** [threshold_crypto]'s combined signatures. *)
Class ThresholdScheme `{Bls12} : Type := {
  BlsSignature : Type;
  bls_signature_from_bytes : bytes -> option BlsSignature;
  bls_signature_to_bytes : BlsSignature -> bytes;
  group_key_verify : ThresholdPublicKey -> BlsSignature -> bytes -> bool;
}.

(** A signature has 96 bytes, from which it is read back. *)
Class ThresholdSchemeLaws `{ThresholdScheme} : Prop := {
  signature_bytes_length : forall s, len (bls_signature_to_bytes s) = 96;
  signature_bytes_roundtrip : forall s, bls_signature_from_bytes (bls_signature_to_bytes s) = Some s;
}.

Record ThresholdSignatureConfig : Type := mkThresholdSignatureConfig {
  dkg_config : DKGManagerConfig;
  min_masternode_count : Z;
  signature_threshold_ratio : f64;
  signature_timeout_secs : Z;
  max_concurrent_signatures : Z;
  enable_auto_dkg : bool;
}.

Definition ThresholdSignatureConfig_default : ThresholdSignatureConfig :=
  mkThresholdSignatureConfig DKGManagerConfig_default 5 (f64_lit 67 100) 30 10 true.

Inductive SignatureRequestStatus : Type :=
| Collecting (received required : Z)
| Aggregating
| RequestCompleted (signature : ThresholdSignature)
| RequestFailed (reason : string)
| RequestTimedOut.

Record SignatureRequest : Type := mkSignatureRequest {
  request_id : Hash;
  req_message : bytes;
  req_session_id : DKGSessionID;
  required_shares : Z;
  req_received_shares : gmap Z bytes;
  req_status : SignatureRequestStatus;
  req_created_at : Z;
  req_timeout_secs : Z;
}.

Definition TSE (msg : string) : CE.ConsensusError := CE.ThresholdSignatureError msg.

Section Coordinator.
  Context `{P : Primitives, A : AuthKeys, B : Bls12, S : SendCodec, T : !ThresholdScheme}.
  Context (iter_shares : gmap Z bytes -> list (Z * bytes)).
  Context (aggregate : gmap Z BlsShare -> Z -> outcome DKGError BlsSignature).

Record ThresholdSignatureCoordinator : Type := mkThresholdSignatureCoordinator {
  coord_config : ThresholdSignatureConfig;
  dkg_manager : DKGManager;
  signature_requests : gmap Hash SignatureRequest;
  current_masternodes : list MasternodeID;
  current_dkg_session : option DKGSessionID;
  coord_block_height : Z;
}.

Abbreviation coordM := (stM ThresholdSignatureCoordinator CE.ConsensusError).

Definition ThresholdSignatureCoordinator_new (config : ThresholdSignatureConfig) (participant_index : Z)
    (auth_secret_key : Keypair) : ThresholdSignatureCoordinator :=
  mkThresholdSignatureCoordinator config (DKGManager_new (dkg_config config) participant_index auth_secret_key)
    ∅ [] None 0.

(** ** Key generation *)

Definition should_start_new_dkg (c : ThresholdSignatureCoordinator) (new_masternodes : list MasternodeID) : bool :=
  if negb (len (current_masternodes c) =? len new_masternodes) then true
  else negb (bool_decide (list_to_set (C := gset MasternodeID) (current_masternodes c) = list_to_set new_masternodes)).

Definition generate_dkg_session_id (c : ThresholdSignatureCoordinator) (block_height : Z) : DKGSessionID :=
  blake3 (to_le_bytes 8 block_height ++ to_le_bytes 8 (len (current_masternodes c))).

(** Masternodes are numbered from zero and have no key yet. *)
Definition coordinator_participants (masternodes : list MasternodeID) : list DKGParticipant :=
  imap (fun index masternode_id => mkDKGParticipant masternode_id (wrap32 (Z.of_nat index)) []) masternodes.

Definition request_dkg_params : DKGParams := mkDKGParams 3 100 67 10 10 5 5.

Definition start_new_dkg_session (now : Z) : coordM DKGSessionID := fun c =>
  if len (current_masternodes c) <? min_masternode_count (coord_config c)
  then (c, Err (TSE "Insufficient masternodes for DKG"))
  else
    let session_id := generate_dkg_session_id c (coord_block_height c) in
    let participants := coordinator_participants (current_masternodes c) in
    let threshold := default_threshold (signature_threshold_ratio (coord_config c)) (len participants) in
    match start_dkg_session now session_id participants (Some threshold) request_dkg_params (dkg_manager c) with
    | (m, Ok _) => (c <| dkg_manager := m |> <| current_dkg_session := Some session_id |>, Ok session_id)
    | (m, Err e) => (c <| dkg_manager := m |>, Err (TSE ("DKG start failed: " +:+ DKGError_to_string e)))
    | (m, Panic) => (c <| dkg_manager := m |>, Panic)
    | (m, OutOfFuel) => (c <| dkg_manager := m |>, OutOfFuel)
    end.

(** The new list is kept when the session cannot be started. *)
Definition update_masternode_list (now : Z) (masternodes : list MasternodeID) : coordM unit := fun c =>
  if len masternodes <? min_masternode_count (coord_config c)
  then (c, Err (TSE "Insufficient masternodes for threshold signatures"))
  else
    let needs_new_dkg := should_start_new_dkg c masternodes in
    let c := c <| current_masternodes := masternodes |> in
    if needs_new_dkg && enable_auto_dkg (coord_config c)
    then (start_new_dkg_session now;; mret tt) c
    else (c, Ok tt).

(** ** Requests *)

(** The loop that reads the shares of a request. *)
Fixpoint read_bls_shares (acc : gmap Z BlsShare) (l : list (Z * bytes)) :
    outcome CE.ConsensusError (gmap Z BlsShare) :=
  match l with
  | [] => Ok acc
  | (participant_index, share_bytes) :: rest =>
      if negb (len share_bytes =? 96) then Err (TSE "Invalid signature share length for participant")
      else
        share ← ok_or (bls_share_from_bytes share_bytes) (TSE "Failed to deserialize signature share for participant");
        read_bls_shares (<[participant_index := share]> acc) rest
  end.

(** The threshold asked of the aggregation is the number of shares. *)
Definition aggregate_bls_signatures (c : ThresholdSignatureCoordinator) (message : bytes)
    (shares : gmap Z bytes) (session_id : DKGSessionID) : outcome CE.ConsensusError bytes :=
  group_key ← ok_or (get_group_public_key (dkg_manager c) session_id) (TSE "Group public key not found for session");
  bls_shares ← read_bls_shares ∅ (iter_shares shares);
  signature ← map_err (fun e => TSE ("Failed to aggregate signature shares: " +:+ DKGError_to_string e))
                (aggregate bls_shares (wrap32 (Z.of_nat (size shares))));
  if negb (group_key_verify group_key signature message) then Err (TSE "Aggregated signature verification failed")
  else Ok (bls_signature_to_bytes signature).

Definition try_complete_signature (id : Hash) : coordM unit := fun c =>
  match signature_requests c !! id with
  | None => (c, Err (TSE "Signature request not found"))
  | Some request =>
      let shares := req_received_shares request in
      if Z.of_nat (size shares) <? required_shares request then (c, Err (TSE "Insufficient signature shares"))
      else match aggregate_bls_signatures c (req_message request) shares (req_session_id request) with
           | Ok aggregated =>
               if negb (len (req_message request) =? 32) then (c, Err (TSE "Invalid message hash length"))
               else
                 let signature := mkThresholdSignature (req_session_id request) (req_message request) shares
                                    (Some aggregated) (iter_shares shares).*1 in
                 (c <| signature_requests ::= <[id := request <| req_status := RequestCompleted signature |> ]> |>, Ok tt)
           | Err e => (c, Err e)
           | Panic => (c, Panic)
           | OutOfFuel => (c, OutOfFuel)
           end
  end.

Definition add_signature_share (id : Hash) (share : DKGSignatureShare) : coordM unit := fun c =>
  match signature_requests c !! id with
  | None => (c, Err (TSE "Signature request not found"))
  | Some request =>
      if bool_decide (is_Some (req_received_shares request !! sig_participant_index share))
      then (c, Err (TSE "Already received signature share from participant"))
      else try_complete_signature id
             (c <| signature_requests ::=
                 <[id := request <| req_received_shares ::= <[sig_participant_index share := sig_share share]> |> ]> |>)
  end.

(** [((n as f64 * ratio).ceil() as u32).max(1)] *)
Definition required_share_count (ratio : f64) (n : Z) : Z :=
  Z.max (Z.min u32_max (f64_ceil_to_u64 (f64_mul (f64_of_Z n) ratio))) 1.

Definition request_threshold_signature (now : Z) (message : bytes) (session_id : option DKGSessionID) :
    coordM Hash := fun c =>
  match (match session_id with Some id => Some id | None => current_dkg_session c end) with
  | None => (c, Err (TSE "No active DKG session"))
  | Some session_id =>
      if negb (can_sign (dkg_manager c) session_id) then (c, Err (TSE "Cannot sign with this session"))
      else
        let id := blake3 (message ++ session_id) in
        let required := required_share_count (signature_threshold_ratio (coord_config c)) (len (current_masternodes c)) in
        let request := mkSignatureRequest id message session_id required ∅ (Collecting 0 required) now
                         (signature_timeout_secs (coord_config c)) in
        if max_concurrent_signatures (coord_config c) <=? Z.of_nat (size (signature_requests c))
        then (c, Err (TSE "Too many concurrent signature requests"))
        else
          let c := c <| signature_requests ::= <[id := request]> |> in
          match manager_signature_share session_id message (dkg_manager c) with
          | (_, Ok share) => (add_signature_share id share;; mret id) c
          | (_, Err e) => (c, Err (TSE ("Failed to create signature share: " +:+ DKGError_to_string e)))
          | (_, Panic) => (c, Panic)
          | (_, OutOfFuel) => (c, OutOfFuel)
          end
  end.

Definition get_signature_status (c : ThresholdSignatureCoordinator) (id : Hash) : option SignatureRequestStatus :=
  req_status <$> signature_requests c !! id.

Definition get_completed_signature (c : ThresholdSignatureCoordinator) (id : Hash) : option ThresholdSignature :=
  match signature_requests c !! id with
  | Some request => match req_status request with RequestCompleted signature => Some signature | _ => None end
  | None => None
  end.

Definition coordinator_verify_threshold_signature (c : ThresholdSignatureCoordinator) (signature : ThresholdSignature)
    (message : bytes) : outcome CE.ConsensusError bool :=
  group_key ← ok_or (get_group_public_key (dkg_manager c) (ts_session_id signature))
                (TSE "Group public key not found for session");
  aggregated ← ok_or (ts_aggregated_signature signature) (TSE "No aggregated signature available");
  if negb (len aggregated =? 96) then Err (TSE "Invalid aggregated signature length: expected 96")
  else
    s ← ok_or (bls_signature_from_bytes aggregated) (TSE "Failed to deserialize aggregated signature");
    Ok (group_key_verify group_key s message).

(** [now.duration_since(created_at).as_secs()], which saturates at zero. *)
Definition elapsed_secs (now created_at : Z) : Z := Z.max 0 (now - created_at) / 1000000000.

Definition request_expired (now : Z) (request : SignatureRequest) : bool :=
  req_timeout_secs request <? elapsed_secs now (req_created_at request).

(** The status of a removed request is set on the removed copy. *)
Definition cleanup_expired_requests (now : Z) (c : ThresholdSignatureCoordinator) : ThresholdSignatureCoordinator :=
  let expired := (filter (fun p => request_expired now p.2 = true) (map_to_list (signature_requests c))).*1 in
  c <| signature_requests ::= (fun m => foldl (fun m id => delete id m) m expired) |>.

Definition coordinator_update_block_height (now block_height : Z) (c : ThresholdSignatureCoordinator) :
    ThresholdSignatureCoordinator :=
  cleanup_expired_requests now
    (c <| coord_block_height := block_height |> <| dkg_manager ::= update_block_height block_height |>).

(** ** Statistics *)

Record DKGManagerStats : Type := mkDKGManagerStats {
  stat_active_sessions : Z;
  stat_completed_sessions : Z;
  stat_block_height : Z;
  stat_config : DKGManagerConfig;
}.

Definition manager_get_stats (m : DKGManager) : DKGManagerStats :=
  mkDKGManagerStats (Z.of_nat (size (active_sessions m))) (Z.of_nat (size (completed_sessions m)))
    (current_block_height m) (config m).

Record ThresholdSignatureStats : Type := mkThresholdSignatureStats {
  stat_active_requests : Z;
  stat_masternodes : Z;
  stat_dkg_session : option DKGSessionID;
  stat_dkg : DKGManagerStats;
  stat_coord_height : Z;
}.

Definition coordinator_get_stats (c : ThresholdSignatureCoordinator) : ThresholdSignatureStats :=
  mkThresholdSignatureStats (Z.of_nat (size (signature_requests c))) (len (current_masternodes c))
    (current_dkg_session c) (manager_get_stats (dkg_manager c)) (coord_block_height c).

End Coordinator.

(** * Theorems: requests *)

Section RequestTheorems.
  Context `{P : Primitives, A : AuthKeys, B : Bls12, S : SendCodec, T : !ThresholdScheme}.
  Context (iter_shares : gmap Z bytes -> list (Z * bytes)).
  Context (aggregate : gmap Z BlsShare -> Z -> outcome DKGError BlsSignature).
  Implicit Types (c : ThresholdSignatureCoordinator).

Lemma aggregate_ok c message shares id b :
  aggregate_bls_signatures iter_shares aggregate c message shares id = Ok b ->
  exists k s, get_group_public_key (dkg_manager c) id = Some k /\ group_key_verify k s message = true /\
    b = bls_signature_to_bytes s.
Proof.
  unfold aggregate_bls_signatures. destruct (get_group_public_key _ _) as [k|]; [|done]. cbn [ok_or mbind outcome_bind].
  intros H. apply outcome_bind_inv in H as (bs & _ & H). apply outcome_bind_inv in H as (s & _ & H).
  destruct (group_key_verify k s message) eqn:Hv; [|done]. injection H as <-. eauto.
Qed.

(** What a finished request holds. *)
Record finished c (r : SignatureRequest) (ts : ThresholdSignature) : Prop := {
  fin_session : ts_session_id ts = req_session_id r;
  fin_message : ts_message_hash ts = req_message r;
  fin_length : len (req_message r) = 32;
  fin_shares : ts_signature_shares ts = req_received_shares r;
  fin_signers : ts_signers ts = (iter_shares (req_received_shares r)).*1;
  fin_enough : required_shares r <= Z.of_nat (size (req_received_shares r));
  fin_verified : exists k s, get_group_public_key (dkg_manager c) (req_session_id r) = Some k /\
    group_key_verify k s (req_message r) = true /\ ts_aggregated_signature ts = Some (bls_signature_to_bytes s);
}.

Lemma try_complete_cases id c c' o r :
  signature_requests c !! id = Some r ->
  try_complete_signature iter_shares aggregate id c = (c', o) ->
  (c' = c /\ is_ok o = false /\
    (Z.of_nat (size (req_received_shares r)) < required_shares r -> o = Err (TSE "Insufficient signature shares"))) \/
  (o = Ok tt /\ exists ts, finished c r ts /\
    c' = c <| signature_requests ::= <[id := r <| req_status := RequestCompleted ts |> ]> |>).
Proof.
  intros Hr. unfold try_complete_signature. rewrite Hr.
  destruct (Z.ltb_spec (Z.of_nat (size (req_received_shares r))) (required_shares r)) as [Hl|Hl].
  { intros [= <- <-]. left. done. }
  destruct (aggregate_bls_signatures _ _ _ _ _ _) as [b|e| |] eqn:Ha;
    try (intros [= <- <-]; left; split_and!; [done|done|lia]).
  destruct (Z.eqb_spec (len (req_message r)) 32) as [Hm|Hm]; cbn [negb].
  2: { intros [= <- <-]. left. split_and!; [done|done|lia]. }
  intros [= <- <-]. right. split; [done|]. apply aggregate_ok in Ha as (k & s & Hk & Hv & ->).
  eexists. split; [|reflexivity]. split; cbn; try done. eauto.
Qed.

(** The request after a share. *)
Definition with_share (share : DKGSignatureShare) (r : SignatureRequest) : SignatureRequest :=
  r <| req_received_shares ::= <[sig_participant_index share := sig_share share]> |>.

Definition holding (id : Hash) (share : DKGSignatureShare) (r : SignatureRequest) c : ThresholdSignatureCoordinator :=
  c <| signature_requests ::= <[id := with_share share r]> |>.

Lemma add_share_fresh id share r c :
  signature_requests c !! id = Some r -> req_received_shares r !! sig_participant_index share = None ->
  add_signature_share iter_shares aggregate id share c =
  try_complete_signature iter_shares aggregate id (holding id share r c).
Proof. intros Hr Hn. unfold add_signature_share. rewrite Hr, Hn. by rewrite bool_decide_eq_false_2 by (by intros []). Qed.

Lemma holding_lookup id share r c : signature_requests (holding id share r c) !! id = Some (with_share share r).
Proof. destruct c. cbn. apply lookup_insert_eq. Qed.

Lemma with_share_size share r :
  req_received_shares r !! sig_participant_index share = None ->
  size (req_received_shares (with_share share r)) = Datatypes.S (size (req_received_shares r)).
Proof. intros Hn. destruct r. cbn in *. by apply map_size_insert_None. Qed.

Lemma with_share_facts share r :
  req_session_id (with_share share r) = req_session_id r /\ req_message (with_share share r) = req_message r /\
  required_shares (with_share share r) = required_shares r.
Proof. by destruct r. Qed.

(** A share that completes a request leaves a signature of the requested
    message that this coordinator verifies, over shares under at least the
    required number of indices.  It takes a coordinator whose key generation
    has completed, which no sequence of its own calls achieves
    ([coordinator_never_signs]), and indices are not authenticated
    ([share_is_not_authenticated]). *)
Theorem completed_request_verifies `{L : !ThresholdSchemeLaws} id share c c' :
  add_signature_share iter_shares aggregate id share c = (c', Ok tt) ->
  exists r ts, signature_requests c !! id = Some r /\ get_completed_signature c' id = Some ts /\
    ts_message_hash ts = req_message r /\ len (req_message r) = 32 /\
    coordinator_verify_threshold_signature c' ts (req_message r) = Ok true /\
    required_shares r <= Z.of_nat (size (ts_signature_shares ts)) /\
    ts_signature_shares ts !! sig_participant_index share = Some (sig_share share).
Proof.
  intros Ha. destruct (signature_requests c !! id) as [r|] eqn:Hr.
  2: { unfold add_signature_share in Ha. by rewrite Hr in Ha. }
  destruct (req_received_shares r !! sig_participant_index share) as [b|] eqn:Hn.
  { unfold add_signature_share in Ha. rewrite Hr, Hn, bool_decide_eq_true_2 in Ha by eauto. done. }
  rewrite (add_share_fresh _ _ r) in Ha by done.
  destruct (try_complete_cases _ _ _ _ _ (holding_lookup _ _ _ _) Ha) as [(_ & [=] & _)|(_ & ts & Hf & ->)].
  destruct Hf as [F1 F2 F3 F4 _ F6 (k & s & Hk & Hv & Hs)].
  destruct (with_share_facts share r) as (W1 & W2 & W3). rewrite W1, W2, W3 in *.
  exists r, ts. split; [done|]. split_and!; try done.
  - unfold get_completed_signature. destruct c. cbn. rewrite lookup_insert_eq. by destruct r.
  - unfold coordinator_verify_threshold_signature. rewrite F1. replace (dkg_manager (_ <| signature_requests ::= _ |>))
      with (dkg_manager (holding id share r c)) by (by destruct c). rewrite Hk, Hs. cbn [ok_or mbind outcome_bind].
    rewrite signature_bytes_length. cbn [Z.eqb Pos.eqb negb]. rewrite signature_bytes_roundtrip. cbn. by rewrite Hv.
  - by rewrite F4.
  - rewrite F4. destruct r. cbn. apply lookup_insert_eq.
Qed.

(** A share that is not the last one needed is kept, but reported as a
    failure. *)
Theorem pending_share_is_an_error id share r c :
  signature_requests c !! id = Some r -> req_received_shares r !! sig_participant_index share = None ->
  Z.of_nat (size (req_received_shares r)) + 1 < required_shares r ->
  add_signature_share iter_shares aggregate id share c =
  (holding id share r c, Err (TSE "Insufficient signature shares")).
Proof.
  intros Hr Hn Hl. rewrite (add_share_fresh _ _ r) by done.
  unfold try_complete_signature. rewrite holding_lookup, with_share_size by done.
  destruct (with_share_facts share r) as (_ & _ & ->).
  destruct (Z.ltb_spec (Z.of_nat (Datatypes.S (size (req_received_shares r)))) (required_shares r)); [done|lia].
Qed.

(** The request a call makes. *)
Definition new_request c (now : Z) (message : bytes) (session : DKGSessionID) : SignatureRequest :=
  let required := required_share_count (signature_threshold_ratio (coord_config c)) (len (current_masternodes c)) in
  mkSignatureRequest (blake3 (message ++ session)) message session required ∅ (Collecting 0 required) now
    (signature_timeout_secs (coord_config c)).

(** Whenever more than one share is required, no request is answered with its
    identifier: the call fails, though the request is stored with the caller's
    own share.  Sent again, it starts over and forgets the other shares. *)
Theorem shared_request_reports_failure now message session key group_key c :
  can_sign (dkg_manager c) session = true -> completed_sessions (dkg_manager c) !! session = Some (key, group_key) ->
  Z.of_nat (size (signature_requests c)) < max_concurrent_signatures (coord_config c) ->
  1 < required_share_count (signature_threshold_ratio (coord_config c)) (len (current_masternodes c)) ->
  let share := create_signature_share (dkg_protocol (dkg_manager c)) message key session in
  request_threshold_signature iter_shares aggregate now message (Some session) c =
  (c <| signature_requests ::= <[blake3 (message ++ session) := with_share share (new_request c now message session)]> |>,
   Err (TSE "Insufficient signature shares")).
Proof.
  intros Hc Hk Hm Hreq share. unfold request_threshold_signature. rewrite Hc. cbn [negb].
  destruct (Z.leb_spec (max_concurrent_signatures (coord_config c)) (Z.of_nat (size (signature_requests c)))) as [|_]; [lia|].
  set (id := blake3 (message ++ session)).
  change (mkSignatureRequest id _ _ _ _ _ _ _) with (new_request c now message session). cbv zeta.
  set (c1 := c <| signature_requests ::= <[id := new_request c now message session]> |>).
  assert (Hshare : manager_signature_share session message (dkg_manager c1) = (dkg_manager c1, Ok share)).
  { unfold manager_signature_share. replace (dkg_manager c1) with (dkg_manager c) by (by destruct c). by rewrite Hk. }
  rewrite Hshare, stM_bind_run.
  rewrite (pending_share_is_an_error id share (new_request c now message session) c1).
  - f_equal. unfold holding, c1. destruct c. cbn. f_equal. apply insert_insert_eq.
  - unfold c1. destruct c. cbn. apply lookup_insert_eq.
  - apply lookup_empty.
  - unfold new_request. cbn. rewrite map_size_empty. lia.
Qed.

(** Of a share only its index and bytes matter: not its session, its message
    nor its signature. *)
Theorem share_is_not_authenticated id share share' c :
  sig_participant_index share = sig_participant_index share' -> sig_share share = sig_share share' ->
  add_signature_share iter_shares aggregate id share c = add_signature_share iter_shares aggregate id share' c.
Proof. intros Hi Hs. unfold add_signature_share. by rewrite Hi, Hs. Qed.

(** ** Expiry *)

(** Cleaning up keeps exactly the requests whose time is not over. *)
Theorem cleanup_requests_spec now c :
  signature_requests (cleanup_expired_requests now c) =
  filter (fun p => request_expired now p.2 = false) (signature_requests c).
Proof.
  apply map_eq. intros i. unfold cleanup_expired_requests.
  set (l := (filter _ _).*1). replace (signature_requests (c <| signature_requests ::= _ |>))
    with (foldl (fun m id => delete id m) (signature_requests c) l) by (by destruct c).
  rewrite deletes_lookup, map_lookup_filter.
  assert (Hl : forall r, signature_requests c !! i = Some r -> i ∈ l <-> request_expired now r = true).
  { intros r Hr. unfold l. rewrite list_elem_of_fmap. split.
    - intros ([j r'] & Hj & [He Hin]%list_elem_of_filter). cbn in Hj, He. subst j.
      apply elem_of_map_to_list in Hin. congruence.
    - intros He. exists (i, r). split; [done|]. apply list_elem_of_filter. split; [done|]. by apply elem_of_map_to_list. }
  destruct (signature_requests c !! i) as [r|] eqn:Hr; cbn.
  - specialize (Hl r eq_refl). destruct (request_expired now r) eqn:He.
    + rewrite bool_decide_eq_true_2 by (by apply Hl). rewrite option_guard_False; [done|]. cbn. congruence.
    + rewrite bool_decide_eq_false_2 by (intros Hx; apply Hl in Hx; done). by rewrite option_guard_True.
  - by case_bool_decide.
Qed.

(** ** Changes of the masternode set *)

(** No session is started exactly when the masternodes are the same in another
    order. *)
Theorem no_new_dkg_iff_reordered c l :
  NoDup (current_masternodes c) -> NoDup l ->
  should_start_new_dkg c l = false <-> current_masternodes c ≡ₚ l.
Proof.
  intros Hc Hl. unfold should_start_new_dkg.
  destruct (Z.eqb_spec (len (current_masternodes c)) (len l)) as [Hn|Hn]; cbn [negb].
  - rewrite negb_false_iff, bool_decide_eq_true. split; intros He.
    + apply NoDup_Permutation; [done..|]. intros x. rewrite <- !(elem_of_list_to_set (C := gset MasternodeID)). by rewrite He.
    + apply set_eq. intros x. rewrite !elem_of_list_to_set. by rewrite He.
  - split; [done|]. intros He%Permutation_length. unfold len in Hn. lia.
Qed.

End RequestTheorems.

(** * Theorems: key generation *)

Section DkgTheorems.
  Context `{P : Primitives, A : AuthKeys, B : Bls12, S : SendCodec, T : !ThresholdScheme}.
  Context (iter_shares : gmap Z bytes -> list (Z * bytes)).
  Context (aggregate : gmap Z BlsShare -> Z -> outcome DKGError BlsSignature).
  Implicit Types (c : ThresholdSignatureCoordinator).

Lemma height_keeps_completed h (m : DKGManager) :
  completed_sessions (update_block_height h m) = completed_sessions m.
Proof.
  unfold update_block_height, cleanup_timed_out_sessions. set (m1 := m <| current_block_height := h |>).
  assert (H1 : completed_sessions m1 = completed_sessions m) by (by destruct m). destruct (negb _); [done|].
  generalize (filter (fun p => timeout_block_height p.2 <= current_block_height m1) (map_to_list (active_sessions m1))).*1.
  intros ids. rewrite <- H1. generalize m1. induction ids as [|id ids IH]; intros m0; [done|].
  cbn [foldl]. rewrite IH. by destruct m0.
Qed.

(** What starting a session does to the manager. *)
Lemma start_dkg_cases now id ps t params m m' o :
  start_dkg_session now id ps (Some t) params m = (m', o) ->
  (m' = m /\ is_ok o = false) \/
  (o = Ok tt /\ completed_sessions m' = completed_sessions m /\
   exists s, active_sessions m' !! id = Some s /\ participants s = ps /\ threshold s = t /\ commitments s = ∅ /\
     secret_shares s = ∅ /\ (3 <= len ps -> session_state s = CommitmentPhase)).
Proof.
  unfold start_dkg_session. destruct (_ <? _); [by intros [= <- <-]; left|]. destruct (_ <? _); [by intros [= <- <-]; left|].
  destruct (_ <=? Z.of_nat _); [by intros [= <- <-]; left|]. cbn [default].
  destruct (Z.leb_spec 3 (len ps)) as [Hps|Hps].
  - cbn [advance_phase DKGSession_new session_state participants]. destruct (Z.leb_spec 3 (len ps)) as [_|]; [|lia].
    intros [= <- <-]. right. split; [done|]. split; [by destruct m|]. destruct m. cbn. eexists. split; [apply lookup_insert_eq|].
    cbn. unfold RecordSetters.constant. split_and!; done.
  - intros [= <- <-]. right. split; [done|]. split; [by destruct m|]. destruct m. cbn. eexists. split; [apply lookup_insert_eq|].
    cbn. split_and!; try done. lia.
Qed.

(** A set of masternodes that replaces another of the same size at the same
    height reuses its session identifier: the session in progress, with what it
    has collected, is replaced by a new one. *)
Theorem changed_set_replaces_session now l c c' :
  update_masternode_list now l c = (c', Ok tt) ->
  should_start_new_dkg c l = true -> enable_auto_dkg (coord_config c) = true ->
  len l = len (current_masternodes c) -> 3 <= len l ->
  exists s, active_sessions (dkg_manager c') !! generate_dkg_session_id c (coord_block_height c) = Some s /\
    participants s = coordinator_participants l /\ session_state s = CommitmentPhase /\
    commitments s = ∅ /\ secret_shares s = ∅.
Proof.
  unfold update_masternode_list. destruct (_ <? _); [done|]. intros Hu Hn Ha Hl H3. rewrite Hn in Hu.
  replace (enable_auto_dkg _) with true in Hu by (by destruct c). cbn [andb] in Hu.
  rewrite stM_bind_run in Hu. unfold start_new_dkg_session in Hu.
  set (c1 := c <| current_masternodes := l |>) in Hu.
  assert (Hid : generate_dkg_session_id c1 (coord_block_height c1) = generate_dkg_session_id c (coord_block_height c)).
  { unfold generate_dkg_session_id, c1. destruct c. cbn in *. unfold RecordSetters.constant. by rewrite Hl. }
  rewrite Hid in Hu. destruct (_ <? _); [done|].
  destruct (start_dkg_session _ _ _ _ _ _) as [m [[]|e| |]] eqn:Hs; try done. injection Hu as <-.
  apply start_dkg_cases in Hs as [[_ [=]]|(_ & _ & s & Hs & Hp & _ & Hc & Hx & Hst)].
  exists s. replace (current_masternodes c1) with l in * by (by destruct c).
  split; [by destruct c|]. split; [done|]. split; [|done]. apply Hst.
  unfold len, coordinator_participants. rewrite length_imap. done.
Qed.

(** A share for a participant without a key cannot be encrypted. *)
Lemma shares_need_keys (p : DKGProtocol) nonces st i ps q :
  q ∈ ps -> participant_index q <> own_index p -> participant_public_key q = [] ->
  is_ok (shares_for p nonces st i ps) = false.
Proof.
  intros Hq Hi Hk. revert i. induction ps as [|r ps IH]; intros i; [by apply not_elem_of_nil in Hq|]. cbn [shares_for].
  apply elem_of_cons in Hq as [<-|Hq].
  - unfold share_for. destruct (Z.eqb_spec (participant_index q) (own_index p)); [done|].
    unfold encrypt_share. by rewrite Hk.
  - specialize (IH Hq). destruct (share_for _ _ _ _) as [x|e| |]; try done. cbn [mbind outcome_bind].
    specialize (IH (Datatypes.S i)). by destruct (shares_for _ _ _ _ _).
Qed.

(** In a session the coordinator starts, no participant can send its shares:
    the participants have no keys. *)
Theorem coordinator_session_cannot_share (p : DKGProtocol) nonces st s (l : list MasternodeID) :
  participants s = coordinator_participants l -> 2 <= len l ->
  is_ok (generate_secret_shares p nonces s st) = false.
Proof.
  intros Hp Hl. unfold generate_secret_shares. destruct (negb _); [done|]. rewrite Hp.
  destruct l as [|a [|b l]]; [unfold len in Hl; cbn in Hl; lia..|].
  destruct (decide (own_index p = 0)) as [Ho|Ho].
  - apply (shares_need_keys _ _ _ _ _ (mkDKGParticipant b 1 [])); cbn; [right; left|lia|done].
  - apply (shares_need_keys _ _ _ _ _ (mkDKGParticipant a 0 [])); cbn; [left|lia|done].
Qed.

(** ** The coordinator as a state machine *)

Inductive coord_op : Type :=
| CUpdate (now : Z) (masternodes : list MasternodeID)
| CStart (now : Z)
| CRequest (now : Z) (message : bytes) (session : option DKGSessionID)
| CShare (id : Hash) (share : DKGSignatureShare)
| CHeight (now h : Z).

Definition coord_exec c (op : coord_op) : ThresholdSignatureCoordinator :=
  match op with
  | CUpdate now l => fst (update_masternode_list now l c)
  | CStart now => fst (start_new_dkg_session now c)
  | CRequest now message session => fst (request_threshold_signature iter_shares aggregate now message session c)
  | CShare id share => fst (add_signature_share iter_shares aggregate id share c)
  | CHeight now h => coordinator_update_block_height now h c
  end.

(** No key has been generated and nothing is being signed. *)
Record idle c : Prop := {
  idle_manager : mgr_inv (config (dkg_manager c)) (dkg_manager c);
  idle_completed : completed_sessions (dkg_manager c) = ∅;
  idle_requests : signature_requests c = ∅;
}.

Lemma idle_cannot_sign c id : idle c -> can_sign (dkg_manager c) id = false.
Proof.
  intros [Hm Hc _]. unfold can_sign. destruct (session_status (dkg_manager c) !! id) as [st|] eqn:Hst; [|done].
  destruct st as [| | | | | |g|r|]; try done. destruct (inv_status _ _ Hm id _ Hst g eq_refl) as [k Hk]. by rewrite Hc in Hk.
Qed.

Lemma idle_request now message session c :
  idle c -> exists e, request_threshold_signature iter_shares aggregate now message session c = (c, Err e).
Proof.
  intros Hc. unfold request_threshold_signature.
  destruct (match session with Some _ => _ | None => _ end) as [id|]; [|eauto]. rewrite idle_cannot_sign by done. eauto.
Qed.

Lemma idle_share id share c :
  idle c -> add_signature_share iter_shares aggregate id share c = (c, Err (TSE "Signature request not found")).
Proof. intros [_ _ Hr]. unfold add_signature_share. by rewrite Hr. Qed.

Lemma idle_with_manager c m :
  idle c -> mgr_inv (config (dkg_manager c)) m -> completed_sessions m = ∅ -> idle (c <| dkg_manager := m |>).
Proof.
  intros [Hi Hc Hr] Hm He. destruct c. cbn in *. split; cbn; unfold RecordSetters.constant; try done.
  by rewrite (inv_config _ _ Hm).
Qed.

Lemma idle_start now c : idle c -> idle (fst (start_new_dkg_session now c)).
Proof.
  intros Hc. unfold start_new_dkg_session. destruct (_ <? _); [done|].
  destruct (start_dkg_session _ _ _ _ _ _) as [m o] eqn:Hs.
  assert (Hm : idle (c <| dkg_manager := m |>)).
  { apply idle_with_manager; [done| |].
    - pose proof (start_inv _ now (generate_dkg_session_id c (coord_block_height c)) (coordinator_participants (current_masternodes c))
        (Some (default_threshold (signature_threshold_ratio (coord_config c)) (len (coordinator_participants (current_masternodes c)))))
        request_dkg_params _ (idle_manager c Hc)) as Hi. by rewrite Hs in Hi.
    - apply start_dkg_cases in Hs as [[-> _]|(_ & -> & _)]; apply Hc. }
  destruct o as [[]|e| |]; try done. cbn [fst]. destruct Hm, c. by split.
Qed.

Lemma idle_exec op c : idle c -> idle (coord_exec c op).
Proof.
  intros Hc. destruct op as [now l|now|now msg s|id share|now h]; cbn [coord_exec].
  - unfold update_masternode_list. destruct (_ <? _); [done|].
    assert (Hl : idle (c <| current_masternodes := l |>)) by (destruct Hc, c; by split).
    destruct (_ && _); [|done]. rewrite stM_bind_run.
    apply (idle_start now) in Hl. by destruct (start_new_dkg_session now _) as [c1 [u|e| |]].
  - by apply idle_start.
  - destruct (idle_request now msg s c Hc) as [e He]. by rewrite He.
  - by rewrite idle_share.
  - unfold coordinator_update_block_height, cleanup_expired_requests.
    pose proof (height_inv _ h _ (idle_manager c Hc)) as Hi.
    assert (Hcs : completed_sessions (update_block_height h (dkg_manager c)) = ∅) by (rewrite height_keeps_completed; apply Hc).
    destruct Hc as [_ _ Hr]. destruct c as [cfg m req mns cur hh]. cbn in *. subst req.
    rewrite map_to_list_empty. cbn. split; cbn; try done. by rewrite (inv_config _ _ Hi).
Qed.

(** From a new coordinator, whatever is called in whatever order, no signature
    can be requested and no share is accepted: the messages of a key generation
    have no way into its manager, so none completes. *)
Theorem coordinator_never_signs cfg index key ops :
  let c := foldl coord_exec (ThresholdSignatureCoordinator_new cfg index key) ops in
  signature_requests c = ∅ /\
  (forall now message session, exists e, request_threshold_signature iter_shares aggregate now message session c = (c, Err e)) /\
  (forall id share, add_signature_share iter_shares aggregate id share c = (c, Err (TSE "Signature request not found"))).
Proof.
  intros c. assert (Hc : idle c).
  { unfold c. assert (Hnew : idle (ThresholdSignatureCoordinator_new cfg index key)) by (split; [apply (mgr_run_inv _ index key [])|done..]).
    apply foldl_inv; [done|]. intros a op Ha. by apply idle_exec. }
  split; [apply Hc|]. split; intros; [by apply idle_request|by apply idle_share].
Qed.

End DkgTheorems.

(** * Examples *)

(** A scheme with one valid signature. *)
Definition sample_scheme : @ThresholdScheme sample_bls12 := {|
  BlsSignature := bool;
  bls_signature_from_bytes b := match b with x :: _ => Some (x =? 1) | [] => None end;
  bls_signature_to_bytes s := replicate 96 (if s then 1 else 0);
  group_key_verify _ s _ := s;
|}.

Lemma sample_scheme_laws : @ThresholdSchemeLaws sample_bls12 sample_scheme.
Proof. split; by intros []. Qed.

(** Shares agree when there are enough of them. *)
Definition sample_aggregate (shares : gmap Z bytes) (t : Z) : outcome DKGError bool :=
  Ok (t <=? Z.of_nat (size shares)).

Abbreviation sample_coordinator := (@ThresholdSignatureCoordinator sample_auth sample_bls12).

(** A coordinator whose manager has a key. *)
Definition keyed_manager : @DKGManager sample_auth sample_bls12 :=
  mkDKGManager (H0 := sample_auth) (H1 := sample_bls12) DKGManagerConfig_default (mkDKGProtocol (H0 := sample_auth) 2 6)
    ∅ {[ [1] := StatusCompleted (H1 := sample_bls12) [0] ]} {[ [1] := (5, [0]) ]} ∅ 100.

Definition small_set : list MasternodeID := (fun i => mkMasternodeID (mkOutPoint [i] 0)) <$> [1; 2; 3; 4; 5].

Definition signing_coordinator (n : nat) : sample_coordinator :=
  mkThresholdSignatureCoordinator (A := sample_auth) (B := sample_bls12) ThresholdSignatureConfig_default keyed_manager ∅
    (take n small_set) (Some [1]) 100.

Definition long_message : bytes := replicate 32 3.

Definition pending_request : sample_coordinator :=
  fst (@request_threshold_signature sample_primitives sample_auth sample_bls12 sample_send_codec sample_scheme map_to_list
    sample_aggregate 0 long_message None (signing_coordinator 3)).

Definition other_share (i : Z) : DKGSignatureShare := mkDKGSignatureShare [] i [] (replicate 96 9) [].

Definition share_result (i : Z) (c : sample_coordinator) : sample_coordinator * outcome CE.ConsensusError unit :=
  @add_signature_share sample_auth sample_bls12 sample_send_codec sample_scheme map_to_list sample_aggregate
    (sample_hash 32 1 (long_message ++ [1])) (other_share i) c.

Lemma completed_request_verifies_witness :
  exists r ts, @coordinator_verify_threshold_signature sample_auth sample_bls12 sample_scheme
    (fst (share_result 4 (fst (share_result 3 pending_request)))) ts (req_message r) = Ok true.
Proof.
  set (c := fst (share_result 3 pending_request)).
  assert (Ho : snd (share_result 4 c) = Ok tt) by (vm_compute; reflexivity).
  assert (Hc : share_result 4 c = (fst (share_result 4 c), Ok tt)) by (rewrite <- Ho; apply surjective_pairing).
  clearbody c. unfold share_result in Hc at 1.
  destruct (@completed_request_verifies sample_auth sample_bls12 sample_send_codec sample_scheme map_to_list sample_aggregate
    sample_scheme_laws _ _ _ _ Hc)
    as (r & ts & _ & _ & _ & _ & Hv & _). exists r, ts. exact Hv.
Defined.

Lemma shared_request_reports_failure_witness :
  snd (@request_threshold_signature sample_primitives sample_auth sample_bls12 sample_send_codec sample_scheme map_to_list
    sample_aggregate 0 long_message (Some [1]) (signing_coordinator 5)) = Err (TSE "Insufficient signature shares").
Proof.
  rewrite (shared_request_reports_failure (P := sample_primitives) (S := sample_send_codec) (T := sample_scheme) map_to_list sample_aggregate 0 long_message [1] 5 [0]
    (signing_coordinator 5)).
  - reflexivity.
  - vm_compute. reflexivity.
  - reflexivity.
  - vm_compute. reflexivity.
  - vm_compute. reflexivity.
Defined.

Definition fresh_coordinator (l : list MasternodeID) : sample_coordinator :=
  fst (@update_masternode_list sample_primitives sample_auth sample_bls12 0 l
    (@ThresholdSignatureCoordinator_new sample_auth sample_bls12 ThresholdSignatureConfig_default 1 7)).

Definition other_set : list MasternodeID := (fun i => mkMasternodeID (mkOutPoint [i] 0)) <$> [1; 2; 3; 4; 6].

Definition replaced := @update_masternode_list sample_primitives sample_auth sample_bls12 0 other_set (fresh_coordinator small_set).

Lemma changed_set_replaces_session_witness :
  exists s, active_sessions (dkg_manager (fst replaced)) !!
    @generate_dkg_session_id sample_primitives sample_auth sample_bls12 (fresh_coordinator small_set) 0 = Some s.
Proof.
  assert (Ho : snd replaced = Ok tt) by (vm_compute; reflexivity).
  assert (Hr : replaced = (fst replaced, Ok tt)) by (rewrite <- Ho; apply surjective_pairing).
  destruct (@changed_set_replaces_session sample_primitives sample_auth sample_bls12 0 other_set (fresh_coordinator small_set) _ Hr)
    as (s & Hs & _).
  - vm_compute. reflexivity.
  - reflexivity.
  - reflexivity.
  - vm_compute. discriminate.
  - exists s. exact Hs.
Defined.

Lemma coordinator_session_cannot_share_witness :
  is_ok (@generate_secret_shares sample_primitives sample_auth sample_bls12 (mkDKGProtocol (H0 := sample_auth) 1 5)
    (fun _ => replicate 32 9) ((sample_session ShareDistributionPhase) <| participants := coordinator_participants small_set |>)
    sample_state) = false.
Proof.
  apply (@coordinator_session_cannot_share sample_primitives sample_auth sample_bls12 _ _ _ _ small_set).
  - reflexivity.
  - vm_compute. discriminate.
Defined.

Lemma no_new_dkg_iff_reordered_witness :
  should_start_new_dkg (fresh_coordinator small_set) (reverse small_set) = false.
Proof.
  apply (no_new_dkg_iff_reordered (fresh_coordinator small_set)).
  - apply (bool_decide_eq_true_1 _). vm_compute. reflexivity.
  - apply (bool_decide_eq_true_1 _). vm_compute. reflexivity.
  - symmetry. apply reverse_Permutation.
Defined.
