(* ===== verification/StateProofs.v ===== *)
(** State proofs: the batch and range proofs of the Merkle Patricia trie
    (src/rusty-core/src/state/merkle_patricia_trie.rs) and the manager that
    answers the requests of light clients
    (src/rusty-core/src/state/proof_manager.rs).

    The walk over a range carries fuel, one unit for each node on a path.
    Reading beyond a byte slice or comparing slices follows Prelude. *)

From Stdlib Require Import ZArith Lia List.
From stdpp Require Import base option list numbers strings gmap.
From coqutil Require Import Datatypes.RecordSetters.
From S2P Require Import Prelude Types Errors Transaction SamplePrimitives UtxoSet LiveTickets Trie.

Import TriangleBracketNotations.
#[local] Open Scope Z_scope.

(** * Batch and range proofs *)

Record BatchMerkleProof : Type := mkBatchMerkleProof {
  batch_proofs : list MerkleProof;
  shared_nodes : gmap Hash (TrieNode * list (nat * nat));
  batch_root_hash : Hash;
}.

Record RangeProof : Type := mkRangeProof {
  start_key : bytes;
  end_key : bytes;
  included_keys : list (bytes * bytes);
  range_nodes : list TrieNode;
  range_root_hash : Hash;
}.

Definition in_range (start_bytes end_bytes key : bytes) : bool :=
  bytes_le start_bytes key && bytes_le key end_bytes.

Definition path_could_contain_range (path start_nibbles end_nibbles : bytes) : bool :=
  let path_len := Nat.min (Nat.min (length path) (length start_nibbles)) (length end_nibbles) in
  if (path_len =? 0)%nat then true
  else bytes_le (take path_len start_nibbles) (take path_len path) &&
       bytes_le (take path_len path) (take path_len end_nibbles).

(** What is pushed on the two vectors. *)
Abbreviation collected := (list TrieNode * list (bytes * bytes))%type.

Definition keep_entry (start_nibbles end_nibbles : bytes) (path value : bytes) : list (bytes * bytes) :=
  let key_bytes := nibbles_to_bytes path in
  if in_range (nibbles_to_bytes start_nibbles) (nibbles_to_bytes end_nibbles) key_bytes
  then [(key_bytes, value)] else [].

(** The loop over the children of a branch. *)
Fixpoint collect_children (visit : Hash -> bytes -> outcome CE.ConsensusError collected)
    (start_nibbles end_nibbles current_path : bytes) (i : Z) (children : list (option Hash)) :
    outcome CE.ConsensusError collected :=
  match children with
  | [] => mret ([], [])
  | child :: children =>
      here ← match child with
             | Some child_hash =>
                 let child_path := current_path ++ [i] in
                 if path_could_contain_range child_path start_nibbles end_nibbles
                 then visit child_hash child_path else mret ([], [])
             | None => mret ([], [])
             end;
      rest ← collect_children visit start_nibbles end_nibbles current_path (i + 1) children;
      mret (here.1 ++ rest.1, here.2 ++ rest.2)
  end.

Fixpoint collect_range_proof_nodes (fuel : nat) (t : MerklePatriciaTrie) (node_hash : Hash)
    (start_nibbles end_nibbles current_path : bytes) : outcome CE.ConsensusError collected :=
  match fuel with
  | O => OutOfFuel
  | S fuel =>
      node ← ok_or (nodes t !! node_hash) node_not_found;
      match node with
      | Empty => mret ([node], [])
      | Leaf key_end value => mret ([node], keep_entry start_nibbles end_nibbles (current_path ++ key_end) value)
      | Extension prefix next_hash =>
          r ← collect_range_proof_nodes fuel t next_hash start_nibbles end_nibbles (current_path ++ prefix);
          mret (node :: r.1, r.2)
      | Branch children value =>
          let own := match value with
                     | Some branch_value => keep_entry start_nibbles end_nibbles current_path branch_value
                     | None => []
                     end in
          r ← collect_children (fun h path => collect_range_proof_nodes fuel t h start_nibbles end_nibbles path)
                start_nibbles end_nibbles current_path 0 children;
          mret (node :: r.1, own ++ r.2)
      end
  end.

Definition generate_range_proof (fuel : nat) (t : MerklePatriciaTrie) (start_key end_key : bytes) :
    outcome CE.ConsensusError RangeProof :=
  r ← collect_range_proof_nodes fuel t (trie_root_hash t) (bytes_to_nibbles start_key) (bytes_to_nibbles end_key) [];
  mret (mkRangeProof start_key end_key r.2 r.1 (trie_root_hash t)).

Section Proofs.
  Context `{P : Primitives, TC : TrieCodec}.

(** [shared_nodes.entry(hash).or_insert_with(..).1.push((proof, position))] *)
Definition share_node (proof : nat) (acc : gmap Hash (TrieNode * list (nat * nat))) (p : nat * TrieNode) :
    gmap Hash (TrieNode * list (nat * nat)) :=
  let h := node_hash p.2 in
  match acc !! h with
  | Some (n, positions) => <[h := (n, positions ++ [(proof, p.1)])]> acc
  | None => <[h := (p.2, [(proof, p.1)])]> acc
  end.

Definition number_nodes (ns : list TrieNode) : list (nat * TrieNode) := imap pair ns.

Fixpoint batch_loop (t : MerklePatriciaTrie) (keys : list bytes) (individual : list MerkleProof)
    (shared : gmap Hash (TrieNode * list (nat * nat))) :
    outcome CE.ConsensusError (list MerkleProof * gmap Hash (TrieNode * list (nat * nat))) :=
  match keys with
  | [] => mret (individual, shared)
  | key :: keys =>
      proof ← generate_proof t key;
      batch_loop t keys (individual ++ [proof])
        (foldl (share_node (length individual)) shared (number_nodes (proof_nodes proof)))
  end.

Definition generate_batch_proof (t : MerklePatriciaTrie) (keys : list bytes) :
    outcome CE.ConsensusError BatchMerkleProof :=
  r ← batch_loop t keys [] ∅;
  mret (mkBatchMerkleProof r.1 r.2 (trie_root_hash t)).

Definition zero_root : Hash := replicate 32 0.

(** One step up: an inner node is hashed from its parts, not as a node. *)
Definition range_step (current_hash : Hash) (node : TrieNode) : Hash :=
  match node with
  | Branch children _ => blake3 (concat ((fun c => default (replicate 32 0) c) <$> children))
  | Extension prefix _ => blake3 (prefix ++ current_hash)
  | Leaf key_end value => blake3 (key_end ++ value)
  | Empty => zero_root
  end.

Definition compute_range_root_from_proof (ns : list TrieNode) : Hash :=
  match reverse ns with
  | [] => zero_root
  | last :: up => foldl range_step (node_hash last) up
  end.

Definition verify_range_proof (proof : RangeProof) : bool :=
  forallb (fun p => in_range (start_key proof) (end_key proof) p.1) (included_keys proof) &&
  bool_decide (compute_range_root_from_proof (range_nodes proof) = range_root_hash proof).

End Proofs.

(** * The manager *)

Inductive ProofType : Type :=
| UtxoProofType
| TicketProofType
| MasternodeProofType
| GovernanceProofType
| BatchProofType
| RangeProofType.

Inductive ProofData : Type :=
| Single (proof : MerkleProof)
| Batch (proof : BatchMerkleProof)
| Range (proof : RangeProof).

Record ProofResponse : Type := mkProofResponse {
  resp_type : ProofType;
  proof_data : ProofData;
  resp_height : Z;
  resp_state_root : Hash;
  proof_size : Z;
}.

Record ProofConfig : Type := mkProofConfig {
  max_batch_size : Z;
  max_range_size : Z;
  proof_enable_compression : bool;
  proof_enable_caching : bool;
}.

Definition ProofConfig_default : ProofConfig := mkProofConfig 100 1000 true true.

(** The size of a serialized proof, zero when it does not serialize. *)
Class ProofSizes : Type := { serialized_size : ProofData -> option Z }.

Section Manager.
  Context `{P : Primitives, TC : TrieCodec, PS : ProofSizes}.
  Context (fuel : nat).

Record StateProofManager : Type := mkStateProofManager {
  proof_config : ProofConfig;
  proof_cache : gmap Hash ProofResponse;
  proof_trie : MerklePatriciaTrie;
}.

Definition StateProofManager_new (config : ProofConfig) (trie : MerklePatriciaTrie) : StateProofManager :=
  mkStateProofManager config ∅ trie.

Definition calculate_proof_size (d : ProofData) : Z := default 0 (serialized_size d).

(** Every response carries height zero. *)
Definition respond (m : StateProofManager) (type : ProofType) (d : ProofData) : ProofResponse :=
  mkProofResponse type d 0 (trie_root_hash (proof_trie m)) (calculate_proof_size d).

Definition generate_single (m : StateProofManager) (type : ProofType) (key : bytes) :
    outcome CE.ConsensusError ProofResponse :=
  proof ← generate_proof (proof_trie m) key;
  mret (respond m type (Single proof)).

Definition generate_utxo_proof (m : StateProofManager) (o : OutPoint) := generate_single m UtxoProofType (encode_utxo_key o).
Definition generate_ticket_proof (m : StateProofManager) (id : TicketId) := generate_single m TicketProofType (encode_ticket_key id).
Definition generate_masternode_proof (m : StateProofManager) (k : bytes) :=
  generate_single m MasternodeProofType (encode_masternode_key k).
Definition generate_governance_proof (m : StateProofManager) (k : bytes) :=
  generate_single m GovernanceProofType (encode_proposal_key k).

Definition generate_utxo_batch_proof (m : StateProofManager) (outpoints : list OutPoint) :
    outcome CE.ConsensusError ProofResponse :=
  if max_batch_size (proof_config m) <? len outpoints then Err (CE.TrieError "Batch size exceeds maximum")
  else
    batch ← generate_batch_proof (proof_trie m) (encode_utxo_key <$> outpoints);
    mret (respond m BatchProofType (Batch batch)).

Definition generate_utxo_range_proof (m : StateProofManager) (start_outpoint end_outpoint : OutPoint) :
    outcome CE.ConsensusError ProofResponse :=
  range ← generate_range_proof fuel (proof_trie m) (encode_utxo_key start_outpoint) (encode_utxo_key end_outpoint);
  if max_range_size (proof_config m) <? len (included_keys range) then Err (CE.TrieError "Range size exceeds maximum")
  else mret (respond m RangeProofType (Range range)).

Definition verify_expected {X} (encode : X -> option bytes) (proof : MerkleProof) (expected : option X) :
    outcome CE.ConsensusError bool :=
  expected_value ← match expected with
                   | Some x => b ← ok_or (encode x) CE.bincode_failure; mret (Some b)
                   | None => mret None
                   end;
  verify_proof proof expected_value.

Definition verify_utxo_proof : MerkleProof -> option Utxo -> outcome CE.ConsensusError bool := verify_expected bincode_utxo.
Definition verify_ticket_proof : MerkleProof -> option TicketData -> outcome CE.ConsensusError bool :=
  verify_expected bincode_ticket_data.

Definition manager_verify_batch_proof (proof : BatchMerkleProof) (expected : list (option bytes)) :=
  verify_batch_proof (batch_proofs proof) expected.

Record ProofStats : Type := mkProofStats {
  cached_proofs : Z;
  stat_trie_nodes : Z;
  stat_root_hash : Hash;
  stat_proof_config : ProofConfig;
}.

Definition get_proof_stats (m : StateProofManager) : ProofStats :=
  mkProofStats (Z.of_nat (size (proof_cache m))) (Z.of_nat (size (nodes (proof_trie m))))
    (trie_root_hash (proof_trie m)) (proof_config m).

Definition clear_proof_cache (m : StateProofManager) : StateProofManager := m <| proof_cache := ∅ |>.

(** [LightClientProofInterface] *)
Class LightClientProofInterface (M : Type) : Type := {
  request_utxo_proof : M -> OutPoint -> outcome CE.ConsensusError ProofResponse;
  request_utxo_batch_proof : M -> list OutPoint -> outcome CE.ConsensusError ProofResponse;
  request_ticket_proof : M -> TicketId -> outcome CE.ConsensusError ProofResponse;
  request_masternode_proof : M -> bytes -> outcome CE.ConsensusError ProofResponse;
  request_governance_proof : M -> bytes -> outcome CE.ConsensusError ProofResponse;
}.

#[export] Instance proof_manager_interface : LightClientProofInterface StateProofManager := {|
  request_utxo_proof := generate_utxo_proof;
  request_utxo_batch_proof := generate_utxo_batch_proof;
  request_ticket_proof := generate_ticket_proof;
  request_masternode_proof := generate_masternode_proof;
  request_governance_proof := generate_governance_proof;
|}.

End Manager.

(** * Nibbles and order *)

Abbreviation nibbles := (Forall (fun z : Z => 0 <= z < 16)).
Abbreviation octets := (Forall (fun z : Z => 0 <= z < 256)).

Lemma join_nibbles hi lo :
  0 <= hi < 16 -> 0 <= lo < 16 -> Z.lor (wrap8 (Z.shiftl hi 4)) lo = 16 * hi + lo.
Proof.
  intros Hh Hl. unfold wrap8. rewrite Z.shiftl_mul_pow2 by lia. change (2 ^ 4) with 16.
  rewrite Z.mod_small by lia. symmetry. rewrite <- Z.add_nocarry_lor; [lia|].
  apply Z.bits_inj'. intros n Hn. rewrite Z.land_spec, Z.bits_0.
  destruct (Z.lt_ge_cases n 4) as [H4|H4].
  - change 16 with (2 ^ 4). by rewrite Z.mul_pow2_bits_low.
  - replace (Z.testbit lo n) with false; [by rewrite andb_false_r|]. symmetry.
    rewrite <- (Z.mod_small lo (2 ^ 4)) by lia. by apply Z.mod_pow2_bits_high.
Qed.

Lemma split_byte x : 0 <= x < 256 ->
  0 <= Z.shiftr x 4 < 16 /\ 0 <= Z.land x 15 < 16 /\ x = 16 * Z.shiftr x 4 + Z.land x 15.
Proof.
  intros Hx. change 15 with (Z.ones 4). rewrite Z.land_ones, Z.shiftr_div_pow2 by lia. change (2 ^ 4) with 16.
  pose proof (Z.div_mod x 16 ltac:(lia)). pose proof (Z.mod_pos_bound x 16 ltac:(lia)).
  pose proof (Z.div_lt_upper_bound x 16 16 ltac:(lia) ltac:(lia)). pose proof (Z.div_pos x 16 ltac:(lia) ltac:(lia)). lia.
Qed.

Lemma bytes_to_nibbles_cons x b :
  bytes_to_nibbles (x :: b) = Z.shiftr x 4 :: Z.land x 15 :: bytes_to_nibbles b.
Proof. done. Qed.

Lemma bytes_of_nibbles b : octets b -> nibbles_to_bytes (bytes_to_nibbles b) = b.
Proof.
  induction 1 as [|x b Hx Hb IH]; [done|]. rewrite bytes_to_nibbles_cons. cbn [nibbles_to_bytes]. rewrite IH.
  destruct (split_byte x Hx) as (H1 & H2 & H3). rewrite join_nibbles by done. by rewrite <- H3.
Qed.

(** An odd path is completed with a zero. *)
Lemma nibbles_of_bytes k : nibbles k ->
  bytes_to_nibbles (nibbles_to_bytes k) = k \/ bytes_to_nibbles (nibbles_to_bytes k) = k ++ [0].
Proof.
  assert (Hjoin : forall hi lo, 0 <= hi < 16 -> 0 <= lo < 16 ->
    Z.shiftr (16 * hi + lo) 4 = hi /\ Z.land (16 * hi + lo) 15 = lo).
  { intros hi lo Hh Hl. destruct (split_byte (16 * hi + lo)) as (H1 & H2 & H3); lia. }
  revert k. fix IH 1. intros [|hi [|lo k]] Hk; [by left| |].
  - right. apply Forall_inv in Hk as Hhi. cbn [nibbles_to_bytes]. rewrite bytes_to_nibbles_cons.
    assert (He : wrap8 (Z.shiftl hi 4) = 16 * hi + 0).
    { rewrite <- join_nibbles by lia. by rewrite Z.lor_0_r. }
    rewrite He. destruct (Hjoin hi 0) as [-> ->]; [lia..|]. done.
  - apply Forall_cons in Hk as [Hhi [Hlo Hk]%Forall_cons]. cbn [nibbles_to_bytes]. rewrite bytes_to_nibbles_cons.
    rewrite join_nibbles by done. destruct (Hjoin hi lo) as [-> ->]; [done..|].
    destruct (IH k Hk) as [-> | ->]; [by left|by right].
Qed.

Lemma bytes_le_cons x y a b : bytes_le (x :: a) (y :: b) = true <-> x < y \/ (x = y /\ bytes_le a b = true).
Proof. cbn. rewrite orb_true_iff, andb_true_iff, Z.ltb_lt, Z.eqb_eq. done. Qed.

(** The order of keys is the order of their nibbles. *)
Lemma bytes_le_nibbles a b : octets a -> octets b -> bytes_le a b = true -> bytes_le (bytes_to_nibbles a) (bytes_to_nibbles b) = true.
Proof.
  intros Ha. revert b. induction Ha as [|x a Hx Ha IH]; intros b Hb; [done|].
  destruct Hb as [|y b Hy Hb]; [done|]. rewrite !bytes_to_nibbles_cons, !bytes_le_cons.
  destruct (split_byte x Hx) as (? & ? & ?), (split_byte y Hy) as (? & ? & ?).
  intros [Hlt|[-> Hle]]; [|right; split; [done|]; right; split; [done|]; by apply IH].
  destruct (Z.lt_total (Z.shiftr x 4) (Z.shiftr y 4)) as [Hs|[Hs|Hs]]; [by left|right; split; [done|left; lia]|lia].
Qed.

Lemma bytes_le_take n a b : bytes_le a b = true -> bytes_le (take n a) (take n b) = true.
Proof.
  revert a b. induction n as [|n IH]; intros [|x a] [|y b] Hab; try done. cbn [take].
  rewrite bytes_le_cons in *. destruct Hab as [|[-> Hab]]; [by left|right]. split; [done|by apply IH].
Qed.

(** * Range queries *)

(** No key of the range is pruned. *)
Lemma could_contain_key path full start_bytes end_bytes :
  path `prefix_of` full -> nibbles full -> octets start_bytes -> octets end_bytes ->
  octets (nibbles_to_bytes full) ->
  in_range start_bytes end_bytes (nibbles_to_bytes full) = true ->
  path_could_contain_range path (bytes_to_nibbles start_bytes) (bytes_to_nibbles end_bytes) = true.
Proof.
  intros Hp Hn Hs He Ho Hr. apply andb_true_iff in Hr as [Hr1 Hr2].
  apply bytes_le_nibbles in Hr1; [|done..]. apply bytes_le_nibbles in Hr2; [|done..].
  assert (Hpre : path `prefix_of` bytes_to_nibbles (nibbles_to_bytes full)).
  { destruct (nibbles_of_bytes full Hn) as [-> | ->]; [done|by apply prefix_app_r]. }
  unfold path_could_contain_range. set (n := Nat.min _ _). destruct (n =? 0)%nat; [done|].
  assert (Ht : take n path = take n (bytes_to_nibbles (nibbles_to_bytes full))).
  { destruct Hpre as [r ->]. rewrite take_app_le; [done|]. unfold n. lia. }
  rewrite Ht. apply andb_true_iff. split; by apply bytes_le_take.
Qed.

Lemma octets_nibbles_to_bytes k : nibbles k -> octets (nibbles_to_bytes k).
Proof.
  revert k. fix IH 1. intros [|hi [|lo k]] Hk; [constructor| |].
  - apply Forall_inv in Hk as Hhi. cbn [nibbles_to_bytes]. apply Forall_singleton.
    assert (He : wrap8 (Z.shiftl hi 4) = 16 * hi + 0).
    { rewrite <- join_nibbles by lia. by rewrite Z.lor_0_r. }
    rewrite He. lia.
  - apply Forall_cons in Hk as [Hhi [Hlo Hk]%Forall_cons]. cbn [nibbles_to_bytes]. rewrite join_nibbles by done.
    constructor; [lia|by apply IH].
Qed.

(** The reference: every entry below a node, in the order of the walk. *)
Fixpoint children_entries (visit : Hash -> bytes -> outcome CE.ConsensusError (list (bytes * bytes))) (path : bytes)
    (i : Z) (children : list (option Hash)) : outcome CE.ConsensusError (list (bytes * bytes)) :=
  match children with
  | [] => mret []
  | child :: children =>
      here ← match child with Some h => visit h (path ++ [i]) | None => mret [] end;
      rest ← children_entries visit path (i + 1) children;
      mret (here ++ rest)
  end.

Fixpoint entries_below (fuel : nat) (t : MerklePatriciaTrie) (h : Hash) (path : bytes) :
    outcome CE.ConsensusError (list (bytes * bytes)) :=
  match fuel with
  | O => OutOfFuel
  | S fuel =>
      node ← ok_or (nodes t !! h) node_not_found;
      match node with
      | Empty => mret []
      | Leaf key_end value => mret [(nibbles_to_bytes (path ++ key_end), value)]
      | Extension prefix next_hash => entries_below fuel t next_hash (path ++ prefix)
      | Branch children value =>
          r ← children_entries (entries_below fuel t) path 0 children;
          mret (match value with Some v => [(nibbles_to_bytes path, v)] | None => [] end ++ r)
      end
  end.

(** The keys of the nodes are made of nibbles, and a branch has at most sixteen
    children. *)
Definition nibble_node (n : TrieNode) : Prop :=
  match n with
  | Empty => True
  | Leaf k _ => nibbles k
  | Extension p _ => nibbles p
  | Branch cs _ => len cs <= 16
  end.

Definition nibble_trie (t : MerklePatriciaTrie) : Prop := map_Forall (fun _ n => nibble_node n) (nodes t).

(** A reported key extends the path. *)
Definition below (path : bytes) (l : list (bytes * bytes)) : Prop :=
  forall k v, (k, v) ∈ l -> exists full, path `prefix_of` full /\ nibbles full /\ k = nibbles_to_bytes full.

Lemma below_app path l1 l2 : below path l1 -> below path l2 -> below path (l1 ++ l2).
Proof. intros H1 H2 k v [Hk|Hk]%elem_of_app; [by apply (H1 k v)|by apply (H2 k v)]. Qed.

Lemma below_weaken path rest l : below (path ++ rest) l -> below path l.
Proof.
  intros Hb k v Hk. destruct (Hb k v Hk) as (full & Hp & Hn & ->). exists full. split; [|done].
  etrans; [|exact Hp]. by apply prefix_app_r.
Qed.

Lemma below_one path rest v : nibbles (path ++ rest) -> below path [(nibbles_to_bytes (path ++ rest), v)].
Proof.
  intros Hn k w Hk%list_elem_of_singleton. injection Hk as -> ->. exists (path ++ rest).
  split; [by apply prefix_app_r|done].
Qed.

Lemma children_below visit path i cs l :
  (forall h j l', 0 <= j < 16 -> visit h (path ++ [j]) = Ok l' -> below (path ++ [j]) l') ->
  0 <= i -> i + len cs <= 16 -> children_entries visit path i cs = Ok l -> below path l.
Proof.
  intros Hv. revert i l. induction cs as [|c cs IH]; intros i l Hi Hn Hl; cbn [children_entries] in Hl.
  { injection Hl as <-. by intros k v Hk%not_elem_of_nil. }
  rewrite len_cons in Hn. pose proof (len_nonneg cs).
  apply outcome_bind_inv in Hl as (here & Hh & Hl). apply outcome_bind_inv in Hl as (rest & Hr & Hl). injection Hl as <-.
  apply below_app; [|apply (IH (i + 1) rest); [lia..|done]].
  destruct c as [h|]; [|injection Hh as <-; by intros k v Hk%not_elem_of_nil].
  apply (below_weaken path [i]), (Hv h); [lia|done].
Qed.

Lemma entries_are_below fuel t h path l :
  nibble_trie t -> nibbles path -> entries_below fuel t h path = Ok l -> below path l.
Proof.
  intros Ht. revert h path l. induction fuel as [|fuel IH]; intros h path l Hp; [done|]. cbn [entries_below].
  destruct (nodes t !! h) as [n|] eqn:Hn; [|done]. cbn [ok_or]. rewrite outcome_bind_ok.
  pose proof (Ht h n Hn) as Hok. cbn in Hok. destruct n as [|k v|p nh|cs v]; cbn in Hok.
  - intros [= <-]. by intros k v Hk%not_elem_of_nil.
  - intros [= <-]. apply below_one. by apply Forall_app.
  - intros Hl. apply (below_weaken path p), (IH nh); [by apply Forall_app|done].
  - intros Hl. apply outcome_bind_inv in Hl as (r & Hr & Hl). injection Hl as <-. apply below_app.
    + destruct v as [v|]; [|by intros k v Hk%not_elem_of_nil].
      pose proof (below_one path [] v) as Hb. rewrite app_nil_r in Hb. by apply Hb.
    + apply (children_below (entries_below fuel t) path 0 cs r); [|lia|lia|done].
      intros h' j l' Hj Hl'. apply (IH h'); [|done]. apply Forall_app. split; [done|]. by apply Forall_singleton.
Qed.

Lemma filter_below_nothing (Q : bytes * bytes -> Prop) `{forall x, Decision (Q x)} l :
  (forall k v, (k, v) ∈ l -> ~ Q (k, v)) -> filter Q l = [].
Proof. intros Hl. apply filter_drops, Forall_forall. intros [k v] Hk. by apply Hl. Qed.

Section RangeTheorems.
  Context (t : MerklePatriciaTrie) (start_bytes end_bytes : bytes).
  Context (Ht : nibble_trie t) (Hs : octets start_bytes) (He : octets end_bytes).

Abbreviation wanted := (fun p : bytes * bytes => in_range start_bytes end_bytes p.1 = true).

Lemma keep_entry_filter path v :
  keep_entry (bytes_to_nibbles start_bytes) (bytes_to_nibbles end_bytes) path v =
  filter wanted [(nibbles_to_bytes path, v)].
Proof using Hs He.
  unfold keep_entry. rewrite !bytes_of_nibbles by done. rewrite filter_cons, filter_nil. cbn [fst].
  destruct (in_range _ _ _) eqn:E; [by rewrite decide_True|by rewrite decide_False by congruence].
Qed.

(** A pruned subtree has no entry of the range. *)
Lemma pruned_has_nothing path l :
  below path l ->
  path_could_contain_range path (bytes_to_nibbles start_bytes) (bytes_to_nibbles end_bytes) = false ->
  filter wanted l = [].
Proof using Hs He.
  intros Hb Hp. apply filter_below_nothing. intros k v Hk Hr. cbn in Hr.
  destruct (Hb k v Hk) as (full & Hpre & Hn & ->).
  rewrite (could_contain_key path full start_bytes end_bytes) in Hp by (done || by apply octets_nibbles_to_bytes).
  done.
Qed.

Lemma collect_children_spec visit visit' path i cs l :
  (forall h j l', 0 <= j < 16 -> visit' h (path ++ [j]) = Ok l' -> below (path ++ [j]) l' /\
     exists ns, visit h (path ++ [j]) = Ok (ns, filter wanted l')) ->
  0 <= i -> i + len cs <= 16 -> children_entries visit' path i cs = Ok l ->
  exists ns, collect_children visit (bytes_to_nibbles start_bytes) (bytes_to_nibbles end_bytes) path i cs =
    Ok (ns, filter wanted l).
Proof using Hs He.
  intros Hv. revert i l. induction cs as [|c cs IH]; intros i l Hi Hn Hl; cbn [children_entries collect_children] in *.
  { injection Hl as <-. by exists []. }
  rewrite len_cons in Hn. pose proof (len_nonneg cs).
  apply outcome_bind_inv in Hl as (here & Hh & Hl). apply outcome_bind_inv in Hl as (rest & Hr & Hl). injection Hl as <-.
  destruct (IH (i + 1) rest) as [ns Hns]; [lia..|done|]. rewrite filter_app.
  destruct c as [h|]; [|injection Hh as <-; unfold mret, outcome_ret; rewrite outcome_bind_ok, Hns; by exists ns].
  destruct (Hv h i here ltac:(lia) Hh) as [Hb [ms Hms]]. cbv zeta.
  destruct (path_could_contain_range _ _ _) eqn:Hc.
  - rewrite Hms, outcome_bind_ok, Hns, outcome_bind_ok. by exists (ms ++ ns).
  - unfold mret, outcome_ret. rewrite outcome_bind_ok, Hns, outcome_bind_ok, (pruned_has_nothing _ _ Hb Hc). by exists ns.
Qed.

Lemma collect_range_spec fuel h path l :
  nibbles path -> entries_below fuel t h path = Ok l ->
  exists ns, collect_range_proof_nodes fuel t h (bytes_to_nibbles start_bytes) (bytes_to_nibbles end_bytes) path =
    Ok (ns, filter wanted l).
Proof using Ht Hs He.
  revert h path l. induction fuel as [|fuel IH]; intros h path l Hp Hl; [done|].
  cbn [entries_below collect_range_proof_nodes] in *.
  destruct (nodes t !! h) as [n|] eqn:Hn; [|done]. cbn [ok_or] in Hl |- *. rewrite outcome_bind_ok in Hl. rewrite outcome_bind_ok.
  pose proof (Ht h n Hn) as Hok. cbn in Hok. destruct n as [|k v|p nh|cs v]; cbn in Hok.
  - injection Hl as <-. by eexists.
  - injection Hl as <-. rewrite keep_entry_filter. by eexists.
  - destruct (IH nh (path ++ p) l) as [ns Hns]; [by apply Forall_app|done|]. rewrite Hns. by eexists.
  - apply outcome_bind_inv in Hl as (r & Hr & Hl). injection Hl as <-. rewrite filter_app.
    destruct (collect_children_spec
      (fun h path => collect_range_proof_nodes fuel t h (bytes_to_nibbles start_bytes) (bytes_to_nibbles end_bytes) path)
      (entries_below fuel t) path 0 cs r) as [ns Hns]; [|lia|lia|done|].
    + intros h' j l' Hj Hl'. assert (Hpj : nibbles (path ++ [j])) by (apply Forall_app; split; [done|by apply Forall_singleton]).
      split; [by apply (entries_are_below fuel t h')|by apply IH].
    + rewrite Hns, outcome_bind_ok. eexists. destruct v as [v|]; [by rewrite keep_entry_filter|done].
Qed.

(** C34. A range query reports exactly the entries of the trie whose keys are in
    the range, in the order of the trie: pruning subtrees loses none. *)
Theorem range_query_exact fuel l :
  entries_below fuel t (trie_root_hash t) [] = Ok l ->
  exists pf, generate_range_proof fuel t start_bytes end_bytes = Ok pf /\
    included_keys pf = filter wanted l /\ start_key pf = start_bytes /\ end_key pf = end_bytes /\
    range_root_hash pf = trie_root_hash t.
Proof using Ht Hs He.
  intros Hl. destruct (collect_range_spec fuel _ [] l (Forall_nil_2 _) Hl) as [ns Hns].
  unfold generate_range_proof. rewrite Hns. by eexists.
Qed.

End RangeTheorems.

(** * What the proofs are worth *)

Section ProofTheorems.
  Context `{P : Primitives, TC : TrieCodec}.

(** The root node of a trie alone proves any set of entries in any range. *)
Theorem range_proof_forgery t n start_bytes end_bytes entries :
  trie_wf t -> nodes t !! trie_root_hash t = Some n ->
  Forall (fun p => in_range start_bytes end_bytes p.1 = true) entries ->
  verify_range_proof (mkRangeProof start_bytes end_bytes entries [n] (trie_root_hash t)) = true.
Proof.
  intros Ht Hr Hk. unfold verify_range_proof, compute_range_root_from_proof. cbn.
  destruct (Ht _ _ Hr) as [Hh _]. rewrite Hh, bool_decide_eq_true_2 by done. rewrite andb_true_r.
  apply forallb_forall. intros p Hp. rewrite Forall_forall in Hk. apply Hk. by apply list_elem_of_In.
Qed.

(** An honest range proof that starts at a branch and has another node is
    accepted only if the children of the branch hash like the branch itself. *)
Theorem honest_range_proof_rejected fuel t start_bytes end_bytes pf cs v :
  trie_wf t -> nodes t !! trie_root_hash t = Some (Branch cs v) ->
  generate_range_proof fuel t start_bytes end_bytes = Ok pf -> (2 <= length (range_nodes pf))%nat ->
  verify_range_proof pf = true ->
  blake3 (concat ((fun c => default (replicate 32 0) c) <$> cs)) = blake3 (default [] (bincode_node (Branch cs v))).
Proof.
  intros Ht Hr Hg H2 Hv. unfold generate_range_proof in Hg. apply outcome_bind_inv in Hg as ([ns es] & Hc & Hg).
  injection Hg as <-. cbn [fst snd range_nodes] in *. unfold verify_range_proof in Hv.
  apply andb_true_iff in Hv as [_ Hv%bool_decide_eq_true]. cbn [range_nodes range_root_hash] in Hv.
  destruct fuel as [|fuel]; [done|]. cbn [collect_range_proof_nodes] in Hc. rewrite Hr in Hc. cbn [ok_or] in Hc.
  rewrite outcome_bind_ok in Hc. apply outcome_bind_inv in Hc as ([ms fs] & _ & Hc). injection Hc as <- <-.
  destruct (Ht _ _ Hr) as [Hh _]. unfold compute_range_root_from_proof in Hv. cbn [fst] in *.
  rewrite reverse_cons in Hv. destruct (reverse ms) as [|l up] eqn:Hm.
  { apply (f_equal length) in Hm. rewrite length_reverse in Hm. cbn in *. lia. }
  cbn [app] in Hv. rewrite foldl_app in Hv. cbn [foldl range_step] in Hv. by rewrite Hv, <- Hh.
Qed.

(** ** Batch proofs *)

(** The position of every node of the proofs, in order. *)
Definition positions (i : nat) (proofs : list MerkleProof) (h : Hash) : list (nat * nat) :=
  concat (imap (fun j pf => (fun p : nat * TrieNode => (i + j, p.1)%nat) <$>
    filter (fun p : nat * TrieNode => node_hash p.2 = h) (number_nodes (proof_nodes pf))) proofs).

Lemma share_nodes_lookup i ns acc h :
  snd <$> foldl (share_node i) acc ns !! h =
  match (fun p : nat * TrieNode => (i, p.1)) <$> filter (fun p => node_hash p.2 = h) ns with
  | [] => snd <$> acc !! h
  | l => Some (default [] (snd <$> acc !! h) ++ l)
  end.
Proof.
  revert acc. induction ns as [|p ns IH]; intros acc; [done|]. cbn [foldl]. rewrite IH, filter_cons.
  assert (Hstep : snd <$> share_node i acc p !! h =
    if decide (node_hash p.2 = h) then Some (default [] (snd <$> acc !! h) ++ [(i, p.1)]) else snd <$> acc !! h).
  { unfold share_node. destruct (decide (node_hash p.2 = h)) as [<-|Hne].
    - destruct (acc !! node_hash p.2) as [[n l]|]; by rewrite lookup_insert_eq.
    - destruct (acc !! node_hash p.2) as [[n l]|]; by rewrite lookup_insert_ne. }
  rewrite Hstep. destruct (decide (node_hash p.2 = h)) as [Hp|Hp]; [|done]. cbn [fmap list_fmap].
  destruct (_ <$> filter _ ns) as [|q l]; [done|]. simpl. by rewrite <- app_assoc.
Qed.

Lemma positions_app i proofs more h :
  positions i (proofs ++ more) h = positions i proofs h ++ positions (i + length proofs) more h.
Proof.
  unfold positions. rewrite imap_app, concat_app. f_equal. f_equal. apply imap_ext. intros j pf _. cbn.
  apply list_fmap_ext. intros k [a n] _. f_equal. lia.
Qed.

Lemma elem_of_positions proofs h i j :
  (i, j) ∈ positions 0 proofs h <->
  exists p n, proofs !! i = Some p /\ proof_nodes p !! j = Some n /\ node_hash n = h.
Proof.
  unfold positions. rewrite list_elem_of_In, in_concat. setoid_rewrite <- list_elem_of_In.
  setoid_rewrite elem_of_lookup_imap. split.
  - intros (l & (i' & p & -> & Hp) & Hij). apply list_elem_of_fmap in Hij as ([j' n] & Heq & Hf).
    apply list_elem_of_filter in Hf as [Hh Hf]. apply elem_of_lookup_imap in Hf as (j2 & n2 & [= -> ->] & Hn).
    cbn in *. injection Heq as -> ->. exists p, n2. done.
  - intros (p & n & Hp & Hn & Hh). eexists. split; [exists i, p; split; [reflexivity|done]|].
    apply list_elem_of_fmap. exists (j, n). split; [done|]. apply list_elem_of_filter. split; [done|].
    by apply (elem_of_lookup_imap_2 pair).
Qed.

(** A map of positions that agrees with the proofs read so far. *)
Definition indexes (shared : gmap Hash (TrieNode * list (nat * nat))) (proofs : list MerkleProof) : Prop :=
  forall h, default [] (snd <$> shared !! h) = positions 0 proofs h.

Lemma indexes_step shared proofs pf :
  indexes shared proofs ->
  indexes (foldl (share_node (length proofs)) shared (number_nodes (proof_nodes pf))) (proofs ++ [pf]).
Proof.
  intros Hi h. rewrite share_nodes_lookup, positions_app, <- (Hi h). unfold positions. cbn [imap concat].
  rewrite app_nil_r, Nat.add_0_r. cbn [Nat.add].
  destruct (_ <$> filter _ _) as [|p l]; [by rewrite app_nil_r|done].
Qed.

Lemma batch_loop_spec t keys proofs shared r :
  indexes shared proofs -> batch_loop t keys proofs shared = Ok r ->
  exists new, mapM (generate_proof t) keys = Ok new /\ r.1 = proofs ++ new /\ indexes r.2 r.1.
Proof.
  revert proofs shared. induction keys as [|k keys IH]; intros proofs shared Hsh Hr; cbn [batch_loop mapM] in *.
  { injection Hr as <-. exists []. by rewrite app_nil_r. }
  apply outcome_bind_inv in Hr as (pf & Hpf & Hr). rewrite Hpf, outcome_bind_ok.
  destruct (IH _ _ (indexes_step _ _ pf Hsh) Hr) as (new & -> & Hp & Hx).
  exists (pf :: new). split; [done|]. by rewrite Hp, <- app_assoc in *.
Qed.

(** A batch proof consists of the single proofs of its keys, and its index
    of shared nodes lists the positions of each node in them. *)
Theorem batch_proof_spec t keys pf :
  generate_batch_proof t keys = Ok pf ->
  mapM (generate_proof t) keys = Ok (batch_proofs pf) /\ batch_root_hash pf = trie_root_hash t /\
  (forall h i j, (i, j) ∈ default [] (snd <$> shared_nodes pf !! h) <->
     exists p n, batch_proofs pf !! i = Some p /\ proof_nodes p !! j = Some n /\ node_hash n = h).
Proof.
  unfold generate_batch_proof. intros H. apply outcome_bind_inv in H as (r & Hr & H). injection H as <-.
  assert (H0 : indexes ∅ []) by (intros h; by rewrite lookup_empty).
  destruct (batch_loop_spec t keys [] ∅ r H0 Hr) as (new & Hn & Hp & Hx). cbn in Hp |- *.
  rewrite Hn, <- Hp. split; [done|]. split; [done|]. intros h i j. rewrite (Hx h). apply elem_of_positions.
Qed.

End ProofTheorems.

(** * Examples *)

#[export] Instance nibble_node_dec n : Decision (nibble_node n).
Proof. destruct n; cbn; apply _. Defined.

Lemma two_utxo_nibbles : nibble_trie two_utxo_trie.
Proof. apply (bool_decide_eq_true_1 _). vm_cast_no_check (eq_refl true). Qed.

Definition first_key : bytes := encode_utxo_key (sample_outpoint 1).
Definition second_key : bytes := encode_utxo_key (sample_outpoint 2).

Definition all_entries : list (bytes * bytes) := [(first_key, sample_value); (second_key, sample_value)].

Lemma two_utxo_entries : entries_below 10 two_utxo_trie (trie_root_hash two_utxo_trie) [] = Ok all_entries.
Proof. vm_cast_no_check (eq_refl (@Ok CE.ConsensusError _ all_entries)). Qed.

Lemma range_query_exact_witness :
  exists pf, generate_range_proof 10 two_utxo_trie [] first_key = Ok pf /\ included_keys pf = [(first_key, sample_value)].
Proof.
  assert (Ho : octets first_key) by (apply (bool_decide_eq_true_1 _); vm_compute; reflexivity).
  destruct (range_query_exact two_utxo_trie [] first_key two_utxo_nibbles (Forall_nil_2 _) Ho 10 all_entries two_utxo_entries)
    as (pf & Hg & Hi & _).
  exists pf. split; [exact Hg|]. rewrite Hi. vm_compute. reflexivity.
Defined.

Lemma range_proof_forgery_witness :
  verify_range_proof (mkRangeProof [] [9] [([7], [1]); ([8], [2])] [two_utxo_root] (trie_root_hash two_utxo_trie)) = true.
Proof.
  apply (range_proof_forgery two_utxo_trie two_utxo_root [] [9] [([7], [1]); ([8], [2])] two_utxo_trie_wf two_utxo_root_stored).
  apply Forall_cons. split; [reflexivity|]. apply Forall_singleton. reflexivity.
Defined.

Lemma batch_proof_spec_witness :
  exists pf, generate_batch_proof two_utxo_trie [first_key; second_key] = Ok pf /\
    (forall h i j, (i, j) ∈ default [] (snd <$> shared_nodes pf !! h) <->
       exists p n, batch_proofs pf !! i = Some p /\ proof_nodes p !! j = Some n /\ node_hash n = h).
Proof.
  assert (Ho : is_ok (generate_batch_proof two_utxo_trie [first_key; second_key]) = true) by (vm_compute; reflexivity).
  destruct (generate_batch_proof two_utxo_trie [first_key; second_key]) as [pf|e| |] eqn:Hg; try discriminate Ho.
  exists pf. split; [reflexivity|]. exact (proj2 (proj2 (batch_proof_spec _ _ _ Hg))).
Defined.
