(* ===== verification/LightClient.v ===== *)
(** The light client (src/rusty-core/src/light_client.rs): it keeps headers
    and the state roots they carry, asks peers for proofs and caches them.

    What the network answers is a [LightNet], read at the number of the attempt;
    waiting between attempts leaves no trace and is left out.  The [Debug] texts
    of keys are those of [LightCodec].  Of formatted error messages the constant
    part is kept. *)

From Stdlib Require Import ZArith Lia List.
From stdpp Require Import base option list numbers strings pretty gmap.
From coqutil Require Import Datatypes.RecordSetters.
From S2P Require Import Prelude Types Errors Transaction SamplePrimitives UtxoSet F64 LiveTickets ChainState Trie StateProofs.

Import TriangleBracketNotations.
#[local] Open Scope Z_scope.

(** bincode of outpoints and of what proofs contain, and [Debug] texts. *)
Class LightCodec : Type := {
  lc_outpoint : OutPoint -> option bytes;
  utxo_of_bytes : bytes -> option Utxo;
  ticket_data_of_bytes : bytes -> option TicketData;
  debug_outpoint : OutPoint -> string;
  debug_outpoints : list OutPoint -> string;
  debug_ticket_id : TicketId -> string;
  debug_bytes : bytes -> string;
}.

Inductive RequestType : Type := ReqUtxo | ReqTicket | ReqMasternode | ReqGovernance | ReqBatch.

Record ProofRequest : Type := mkProofRequest {
  req_type : RequestType;
  req_keys : list bytes;
  req_height : Z;
}.

Inductive NetReply (X : Type) : Type :=
| Answer (x : X)
| Refused
| NoAnswer.
Arguments Answer {X} x.
Arguments Refused {X}.
Arguments NoAnswer {X}.

Abbreviation PeerId := Z.

(** The network at each attempt. *)
Record LightNet : Type := mkLightNet {
  net_peers : nat -> option (list PeerId);
  net_reputation : nat -> PeerId -> option f64;
  net_random : nat -> Z;
  net_proof : nat -> PeerId -> ProofRequest -> NetReply ProofResponse;
  net_headers : PeerId -> Hash -> Z -> NetReply (list BlockHeader);
}.

Record LightClientConfig : Type := mkLightClientConfig {
  trusted_nodes : list string;
  max_concurrent_requests : Z;
  request_timeout_secs : Z;
  header_timeout_secs : Z;
  min_peers_required : Z;
  lc_enable_caching : bool;
  cache_size_limit : Z;
  max_retries : Z;
  retry_delay_ms : Z;
}.

Definition LightClientConfig_default : LightClientConfig :=
  mkLightClientConfig ["127.0.0.1:8333"%string] 10 30 15 1 true 1000 3 1000.

Inductive PeerSelectionStrategy : Type := HighestReputation | LowestLatency | RandomPeer | TrustedFirst.

Record LightClient : Type := mkLightClient {
  lc_config : LightClientConfig;
  block_headers : gmap Hash BlockHeader;
  state_roots : gmap Z Hash;
  lc_proof_cache : gmap Hash ProofResponse;
  best_block_height : Z;
  best_block_hash : Hash;
  peer_selection_strategy : PeerSelectionStrategy;
}.

Abbreviation lightM := (stM LightClient CE.ConsensusError).
Abbreviation lightR := (outcome CE.ConsensusError).

Definition LightClient_new (config : LightClientConfig) : LightClient :=
  mkLightClient config ∅ ∅ ∅ 0 (replicate 32 0) TrustedFirst.

Definition set_peer_selection_strategy (s : PeerSelectionStrategy) (c : LightClient) : LightClient :=
  c <| peer_selection_strategy := s |>.

Section Client.
  Context `{P : Primitives, TC : TrieCodec, LC : LightCodec}.

(** ** Peers *)

(** The loop keeps the first of the best. *)
Definition better_peer (score : PeerId -> f64) (best : PeerId * f64) (peer : PeerId) : PeerId * f64 :=
  if f64_gt (score peer) (snd best) then (peer, score peer) else best.

Definition select_best_peer (net : LightNet) (attempt : nat) (c : LightClient) : outcome string PeerId :=
  peers ← ok_or (net_peers net attempt) "peers"%string;
  match peers with
  | [] => Err "No peers available"%string
  | first :: rest =>
      match peer_selection_strategy c with
      | HighestReputation =>
          let score p := default (f64_of_Z 0) (net_reputation net attempt p) in
          Ok (fst (foldl (better_peer score) (first, score first) rest))
      | LowestLatency | RandomPeer => unwrap (peers !! Z.to_nat (net_random net attempt mod len peers))
      | TrustedFirst => Ok first
      end
  end.

(** ** Requests *)

(** The request functions differ in the type, the keys and the name of the
    request. *)
Definition request_from_network (label : string) (type : RequestType) (keys : lightR (list bytes)) (height : Z)
    (net : LightNet) (c : LightClient) (attempt : nat) : lightR ProofResponse :=
  peer ← map_err (fun e => CE.NetworkError ("Failed to select peer: " +:+ e)) (select_best_peer net attempt c);
  keys ← keys;
  match net_proof net attempt peer (mkProofRequest type keys height) with
  | Answer response => Ok response
  | Refused => Err (CE.NetworkError (label +:+ " failed"))
  | NoAnswer => Err (CE.NetworkError (label +:+ " timeout"))
  end.

Definition light_utxo_key (text : string) (o : OutPoint) : lightR bytes :=
  ok_or (lc_outpoint o) (CE.SerializationError text).

Definition request_utxo_proof_from_network (o : OutPoint) (height : Z) :=
  request_from_network "UTXO proof request" ReqUtxo
    (k ← light_utxo_key "Failed to serialize OutPoint" o; mret [k]) height.

Definition request_utxo_batch_proof_from_network (outpoints : list OutPoint) (height : Z) :=
  request_from_network "Batch UTXO proof request" ReqBatch
    (mapM (light_utxo_key "Failed to serialize OutPoints") outpoints) height.

Definition request_ticket_proof_from_network (id : TicketId) (height : Z) :=
  request_from_network "Ticket proof request" ReqTicket (Ok [string_bytes ("ticket:" +:+ hex_encode id)]) height.

Definition request_masternode_proof_from_network (k : bytes) (height : Z) :=
  request_from_network "Masternode proof request" ReqMasternode (Ok [string_bytes ("masternode:" +:+ hex_encode k)]) height.

Definition request_governance_proof_from_network (k : bytes) (height : Z) :=
  request_from_network "Governance proof request" ReqGovernance (Ok [string_bytes ("governance:" +:+ hex_encode k)]) height.

(** The loop of the five request methods over their attempts; [last_error] is
    the error of the attempt before. *)
Fixpoint with_retries (fallback : string) (attempts : list nat) (last_error : option CE.ConsensusError)
    (request : nat -> lightR ProofResponse) : lightR ProofResponse :=
  match attempts with
  | [] => Err (default (CE.NetworkError fallback) last_error)
  | attempt :: attempts =>
      match request attempt with
      | Err e => with_retries fallback attempts (Some e) request
      | r => r
      end
  end.

(** [for attempt in 0..=max_retries] *)
Definition retried (fallback : string) (c : LightClient) (request : nat -> lightR ProofResponse) : lightR ProofResponse :=
  with_retries fallback (seq 0 (S (Z.to_nat (max_retries (lc_config c))))) None request.

(** ** Verification *)

Definition verify_single (text : string) (proof : MerkleProof) : lightR (option bytes) :=
  is_valid ← verify_proof proof (proof_value proof);
  if negb is_valid then Err (CE.TrieError text) else Ok (proof_value proof).

(** Only the first proof of a batch is looked at. *)
Definition verify_proof_response (response : ProofResponse) : lightR (option bytes) :=
  match proof_data response with
  | Single proof => verify_single "Invalid proof" proof
  | Batch batch =>
      match batch_proofs batch with
      | first_proof :: _ => verify_single "Invalid batch proof" first_proof
      | [] => Err (CE.TrieError "Empty batch proof")
      end
  | Range range =>
      if negb (verify_range_proof range) then Err (CE.TrieError "Invalid range proof")
      else Ok (snd <$> head (included_keys range))
  end.

Definition deserialize_proof_data {X} (decode : bytes -> option X) (data : option bytes) : lightR (option X) :=
  match data with
  | Some b => x ← ok_or (decode b) CE.bincode_failure; Ok (Some x)
  | None => Ok None
  end.

Definition quote : string := String (Ascii.ascii_of_nat 34) EmptyString.

Definition calculate_cache_key (proof_type key : string) (height : Z) : Hash :=
  blake3 (string_bytes (quote +:+ proof_type +:+ quote +:+ ":" +:+ key +:+ ":" +:+ pretty height)).

Definition get_state_root_at_height (height : Z) (c : LightClient) : lightR Hash :=
  ok_or (state_roots c !! height) (CE.StateRootNotFound height).

Definition cached (key : Hash) (c : LightClient) : option ProofResponse :=
  if lc_enable_caching (lc_config c) then lc_proof_cache c !! key else None.

Definition store_proof (key : Hash) (r : ProofResponse) : lightM unit :=
  modify (fun c => if lc_enable_caching (lc_config c) then c <| lc_proof_cache ::= <[key := r]> |> else c).

Definition root_mismatch : CE.ConsensusError := CE.TrieError "State root mismatch".

(** A fresh response must carry the state root of the height. *)
Definition verify_fresh {X} (key : Hash) (height : Z) (root : lightR Hash) (request : lightR ProofResponse)
    (finish : option bytes -> lightR X) : lightM X :=
  state_root ← lift root;
  response ← lift request;
  if negb (bool_decide (resp_state_root response = state_root)) then throw root_mismatch
  else
    data ← lift (verify_proof_response response);
    result ← lift (finish data);
    store_proof key response;;
    mret result.

(** The shape of the four single verifications: a cached response is checked
    again by itself. *)
Definition verify_with {X} (key : Hash) (height : Z) (request : LightClient -> lightR ProofResponse)
    (finish : option bytes -> lightR X) : lightM X := fun c =>
  match cached key c with
  | Some response => (c, data ← verify_proof_response response; finish data)
  | None => verify_fresh key height (get_state_root_at_height height c) (request c) finish c
  end.

Definition verify_utxo_existence (net : LightNet) (o : OutPoint) (height : Z) : lightM (option Utxo) :=
  verify_with (calculate_cache_key "utxo" (debug_outpoint o) height) height
    (fun c => retried "All retry attempts failed" c (request_utxo_proof_from_network o height net c)) (deserialize_proof_data utxo_of_bytes).

Definition verify_ticket_existence (net : LightNet) (id : TicketId) (height : Z) : lightM (option TicketData) :=
  verify_with (calculate_cache_key "ticket" (debug_ticket_id id) height) height
    (fun c => retried "All ticket proof retry attempts failed" c (request_ticket_proof_from_network id height net c)) (deserialize_proof_data ticket_data_of_bytes).

Definition verify_masternode_registration (net : LightNet) (k : bytes) (height : Z) : lightM bool :=
  verify_with (calculate_cache_key "masternode" (debug_bytes k) height) height
    (fun c => retried "All masternode proof retry attempts failed" c (request_masternode_proof_from_network k height net c)) (fun d => Ok (bool_decide (is_Some d))).

Definition verify_governance_proposal (net : LightNet) (k : bytes) (height : Z) : lightM (option bytes) :=
  verify_with (calculate_cache_key "governance" (debug_bytes k) height) height
    (fun c => retried "All governance proof retry attempts failed" c (request_governance_proof_from_network k height net c)) Ok.

(** ** Batches *)

Definition batch_key (o : OutPoint) (height : Z) : Hash := calculate_cache_key "utxo_batch" (debug_outpoint o) height.

(** What the cache answers, and the outpoints and positions it does not. *)
Fixpoint scan_cache (c : LightClient) (height : Z) (i : nat) (outpoints : list OutPoint) :
    lightR (list (option Utxo) * list (OutPoint * nat)) :=
  match outpoints with
  | [] => mret ([], [])
  | o :: outpoints =>
      match cached (batch_key o height) c with
      | Some response =>
          data ← verify_proof_response response;
          utxo ← deserialize_proof_data utxo_of_bytes data;
          rest ← scan_cache c height (S i) outpoints;
          mret (utxo :: rest.1, rest.2)
      | None =>
          rest ← scan_cache c height (S i) outpoints;
          mret (None :: rest.1, (o, i) :: rest.2)
      end
  end.

(** The loop over the proofs of a batch: the values are taken as they come. *)
Fixpoint read_batch (response : ProofResponse) (state_root : Hash) (height : Z) (uncached : list (OutPoint * nat))
    (i : nat) (proofs : list MerkleProof) (results : list (option Utxo)) : lightM (list (option Utxo)) :=
  match proofs with
  | [] => mret results
  | proof :: proofs =>
      slot ← lift (unwrap (uncached !! i));
      value ← lift (deserialize_proof_data utxo_of_bytes (proof_value proof));
      store_proof (batch_key slot.1 height)
        (mkProofResponse (resp_type response) (Single proof) height state_root (proof_size response / len uncached));;
      read_batch response state_root height uncached (S i) proofs (<[slot.2 := value]> results)
  end.

Definition verify_fresh_batch (outpoints : list OutPoint) (height : Z) (root : lightR Hash)
    (request : list OutPoint -> lightR ProofResponse) (scan : list (option Utxo) * list (OutPoint * nat)) :
    lightM (list (option Utxo)) :=
  let '(results, uncached) := scan in
  match uncached with
  | [] => mret results
  | _ :: _ =>
      state_root ← lift root;
      response ← lift (request uncached.*1);
      if negb (bool_decide (resp_state_root response = state_root)) then throw root_mismatch
      else match proof_data response with
           | Batch batch =>
               results ← read_batch response state_root height uncached 0 (batch_proofs batch) results;
               store_proof (calculate_cache_key "utxo_batch_all" (debug_outpoints outpoints) height) response;;
               mret results
           | _ => throw (CE.TrieError "Invalid proof type")
           end
  end.

Definition verify_utxo_batch (net : LightNet) (outpoints : list OutPoint) (height : Z) :
    lightM (list (option Utxo)) := fun c =>
  (scan ← lift (scan_cache c height 0 outpoints);
   verify_fresh_batch outpoints height (get_state_root_at_height height c)
     (fun uncached => retried "All batch proof retry attempts failed" c (request_utxo_batch_proof_from_network uncached height net c)) scan) c.

(** ** Headers *)

Definition is_zero (h : Hash) : bool := forallb (Z.eqb 0) h.

Definition update_block_header (header : BlockHeader) : lightM unit :=
  block_hash ← lift (header_hash header);
  c ← gets Datatypes.id;
  let height := header_height header in
  if (0 <? height) && negb (bool_decide (previous_block_hash header = best_block_hash c)) && negb (is_zero (best_block_hash c))
  then throw (CE.TrieError "Block header doesn't connect to chain")
  else
    modify (fun c => c <| block_headers ::= <[block_hash := header]> |> <| state_roots ::= <[height := state_root header]> |>);;
    if best_block_height c <? height
    then modify (fun c => c <| best_block_height := height |> <| best_block_hash := block_hash |>)
    else mret tt.

(** The height is unsigned. *)
Definition verify_block_header (header : BlockHeader) : lightR unit :=
  if header_height header <? 0 then Err (CE.SerializationError "Invalid block height") else Ok tt.

Fixpoint verify_headers (expected_hash : Hash) (headers : list BlockHeader) : lightM (list BlockHeader) :=
  match headers with
  | [] => mret []
  | header :: headers =>
      if negb (bool_decide (previous_block_hash header = expected_hash)) && negb (is_zero expected_hash) then mret []
      else if is_ok (verify_block_header header) then
        update_block_header header;;
        h ← lift (header_hash header);
        rest ← verify_headers h headers;
        mret (header :: rest)
      else mret []
  end.

Definition request_block_headers (net : LightNet) (start_hash : Hash) (max_headers : Z) : lightM (list BlockHeader) := fun c =>
  (peer ← lift (map_err (fun e => CE.NetworkError ("Failed to select peer for header request: " +:+ e)) (select_best_peer net 0 c));
   match net_headers net peer start_hash max_headers with
   | NoAnswer => throw (CE.NetworkError "Header request timeout")
   | Refused => throw (CE.NetworkError "Header request failed")
   | Answer [] => throw (CE.NetworkError "No headers received")
   | Answer headers => verify_headers start_hash headers
   end) c.

(** ** Statistics *)

Definition estimate_cache_size (c : LightClient) : Z := foldl u64_add 0 (proof_size <$> (map_to_list (lc_proof_cache c)).*2).

Record LightClientStats : Type := mkLightClientStats {
  ls_best_block_height : Z;
  cached_headers : Z;
  cached_state_roots : Z;
  ls_cached_proofs : Z;
  ls_trusted_nodes : Z;
}.

Definition light_get_stats (c : LightClient) : LightClientStats :=
  mkLightClientStats (best_block_height c) (Z.of_nat (size (block_headers c))) (Z.of_nat (size (state_roots c)))
    (Z.of_nat (size (lc_proof_cache c))) (len (trusted_nodes (lc_config c))).

Record CacheStats : Type := mkCacheStats {
  total_cached_proofs : Z;
  cache_hit_ratio : f64;
  cache_size_bytes : Z;
}.

Definition get_cache_stats (c : LightClient) : CacheStats :=
  mkCacheStats (Z.of_nat (size (lc_proof_cache c))) (f64_of_Z 0) (estimate_cache_size c).

Definition clear_cache (c : LightClient) : LightClient := c <| lc_proof_cache := ∅ |>.

End Client.

(** * Theorems: requests *)

Section RequestTheorems.
  Context `{P : Primitives, TC : TrieCodec, LC : LightCodec}.
  Implicit Types (c : LightClient).

(** The peer that is asked is a connected one, whatever the strategy. *)
Lemma selected_peer_connected net i c p :
  select_best_peer net i c = Ok p -> exists peers, net_peers net i = Some peers /\ p ∈ peers.
Proof.
  unfold select_best_peer. destruct (net_peers net i) as [[|q peers]|] eqn:Hp; try done. cbn [ok_or mbind outcome_bind].
  intros H. exists (q :: peers). split; [done|]. destruct (peer_selection_strategy c); try (injection H as <-; left).
  - injection H as <-. set (score := fun _ => _).
    assert (Hin : fst (foldl (better_peer score) (q, score q) peers) ∈ q :: peers).
    { assert (Hq : forall b, fst b ∈ q :: peers -> forall l, (forall x, x ∈ l -> x ∈ q :: peers) ->
        fst (foldl (better_peer score) b l) ∈ q :: peers).
      { intros b Hb l. revert b Hb. induction l as [|x l IH]; intros b Hb Hl; [done|]. cbn [foldl].
        apply IH; [|intros y Hy; apply Hl; by right]. unfold better_peer. destruct (f64_gt _ _); [|done]. apply Hl. by left. }
      apply Hq; [left|]. intros x Hx. by right. }
    done.
  - destruct (_ !! _) as [x|] eqn:Hx; [|done]. injection H as <-. by eapply list_elem_of_lookup_2.
  - destruct (_ !! _) as [x|] eqn:Hx; [|done]. injection H as <-. by eapply list_elem_of_lookup_2.
Qed.

Lemma with_retries_seq fallback n a last request :
  (forall k, (exists r, request k = Ok r) \/ (exists e, request k = Err e)) ->
  (exists k r, (a <= k < a + n)%nat /\ request k = Ok r /\ with_retries fallback (seq a n) last request = Ok r /\
     forall j, (a <= j < k)%nat -> is_ok (request j) = false) \/
  ((forall j, (a <= j < a + n)%nat -> is_ok (request j) = false) /\
   with_retries fallback (seq a n) last request =
     match n with O => Err (default (CE.NetworkError fallback) last) | S n => request (a + n)%nat end).
Proof.
  intros Hr. revert a last. induction n as [|n IH]; intros a last; cbn [seq with_retries].
  { right. split; [|done]. intros j Hj. lia. }
  destruct (Hr a) as [[r Ha]|[e Ha]]; rewrite Ha.
  - left. exists a, r. split_and!; [lia|lia|done|done|]. intros j Hj. lia.
  - destruct (IH (S a) (Some e)) as [(k & r' & Hk & Hok & Hw & Hj)|[Hj Hw]].
    + left. exists k, r'. split_and!; [lia|lia|done|done|]. intros j Hja.
      destruct (decide (j = a)) as [->|]; [by rewrite Ha|apply Hj; lia].
    + right. rewrite Hw. split.
      * intros j Hja. destruct (decide (j = a)) as [->|]; [by rewrite Ha|apply Hj; lia].
      * destruct n as [|n]; [by rewrite Nat.add_0_r, Ha|]. f_equal. lia.
Qed.

(** A request is made at most once more than the configured number of retries;
    the first answer there is is returned, and without one the error of the last
    attempt. *)
Theorem retried_spec fallback c request :
  (forall k, (exists r, request k = Ok r) \/ (exists e, request k = Err e)) ->
  let max := Z.to_nat (max_retries (lc_config c)) in
  (exists k r, (k <= max)%nat /\ request k = Ok r /\ retried fallback c request = Ok r /\
     forall j, (j < k)%nat -> is_ok (request j) = false) \/
  ((forall j, (j <= max)%nat -> is_ok (request j) = false) /\ retried fallback c request = request max).
Proof.
  intros Hr max. destruct (with_retries_seq fallback (S max) 0 None request Hr) as [(k & r & Hk & H1 & H2 & H3)|[H1 H2]].
  - left. exists k, r. split_and!; [lia|done|done|]. intros j Hj. apply H3. lia.
  - right. split; [|done]. intros j Hj. apply H1. lia.
Qed.

Lemma retried_answer fallback c request r : request 0%nat = Ok r -> retried fallback c request = Ok r.
Proof. intros Hr. unfold retried. cbn [seq with_retries]. by rewrite Hr. Qed.

(** ** Single proofs *)

(** A proof of nothing: a leaf whose key is empty. *)
Definition forged_proof (b : bytes) : MerkleProof := mkMerkleProof [] (Some b) [Leaf [] b] (node_hash (Leaf [] b)).

Lemma forged_proof_verifies text b : verify_single text (forged_proof b) = Ok (Some b).
Proof.
  unfold verify_single, verify_proof, forged_proof. cbn [proof_key proof_value proof_nodes proof_root_hash].
  unfold compute_root_from_proof. change (reverse [Leaf [] b]) with [Leaf [] b]. change (bytes_to_nibbles []) with (@nil Z).
  cbv beta iota. rewrite (bool_decide_eq_false_2 ([] <> [])) by (intros Hn; by apply Hn).
  rewrite (bool_decide_eq_false_2 (Some b <> Some b)) by (intros Hn; by apply Hn).
  cbn [mbind outcome_bind mret outcome_ret climb]. by rewrite !bool_decide_eq_true_2.
Qed.

Definition forged_response (b : bytes) (root : Hash) : ProofResponse :=
  mkProofResponse UtxoProofType (Single (forged_proof b)) 0 root 0.

Lemma verify_with_fresh {X} key height request (finish : option bytes -> lightR X) c root response data x :
  cached key c = None -> state_roots c !! height = Some root -> request c = Ok response ->
  resp_state_root response = root -> verify_proof_response response = Ok data -> finish data = Ok x ->
  verify_with key height request finish c = (fst (store_proof key response c), Ok x).
Proof.
  intros Hc Hr Hq <- Hv Hf. unfold verify_with. rewrite Hc. unfold verify_fresh, get_state_root_at_height. rewrite Hr. cbn [ok_or].
  rewrite stM_bind_run. cbn [lift]. rewrite stM_bind_run, Hq. cbn [lift].
  rewrite bool_decide_eq_true_2 by done. cbn [negb]. rewrite stM_bind_run, Hv. cbn [lift]. rewrite stM_bind_run, Hf. done.
Qed.

(** Whatever output an answer claims, the client accepts it: the proof is
    compared neither with the key that was asked for nor with the state root. *)
Theorem any_output_accepted net c o height root p k b u :
  cached (calculate_cache_key "utxo" (debug_outpoint o) height) c = None ->
  state_roots c !! height = Some root -> select_best_peer net 0 c = Ok p -> lc_outpoint o = Some k ->
  net_proof net 0 p (mkProofRequest ReqUtxo [k] height) = Answer (forged_response b root) ->
  utxo_of_bytes b = Some u ->
  snd (verify_utxo_existence net o height c) = Ok (Some u).
Proof.
  intros Hc Hr Hp Hk Hn Hu. unfold verify_utxo_existence.
  erewrite (verify_with_fresh _ _ _ _ c root (forged_response b root) (Some b) (Some u)); try done.
  - apply retried_answer. unfold request_utxo_proof_from_network, request_from_network. rewrite Hp. cbn.
    unfold light_utxo_key. rewrite Hk. cbn. by rewrite Hn.
  - apply forged_proof_verifies.
  - cbn. by rewrite Hu.
Qed.

Lemma store_proof_run key r c :
  store_proof key r c = (if lc_enable_caching (lc_config c) then c <| lc_proof_cache ::= <[key := r]> |> else c, Ok tt).
Proof. done. Qed.

(** An answer is final: once it is cached, it is given again whatever the
    network says and whatever state roots the client has learnt since. *)
Theorem cached_answer_is_final {X} key height request request' (finish : option bytes -> lightR X) c c1 c2 x :
  lc_enable_caching (lc_config c) = true ->
  verify_with key height request finish c = (c1, Ok x) ->
  lc_enable_caching (lc_config c2) = true -> lc_proof_cache c2 = lc_proof_cache c1 ->
  verify_with key height request' finish c2 = (c2, Ok x).
Proof.
  intros He Hv He2 Hc2.
  assert (Hgoal : exists r, lc_proof_cache c1 !! key = Some r /\ (verify_proof_response r ≫= finish) = Ok x).
  { unfold verify_with in Hv. destruct (cached key c) as [r|] eqn:Hc.
    - injection Hv as <- Hv. exists r. split; [|done]. unfold cached in Hc. by rewrite He in Hc.
    - unfold verify_fresh in Hv. apply stM_bind_ok in Hv as (s1 & root & E1 & Hv). injection E1 as <- _.
      apply stM_bind_ok in Hv as (s2 & r & E2 & Hv). injection E2 as <- _.
      destruct (negb _); [done|]. apply stM_bind_ok in Hv as (s3 & d & E3 & Hv). injection E3 as <- Hd.
      apply stM_bind_ok in Hv as (s4 & y & E4 & Hv). injection E4 as <- Hy.
      rewrite stM_bind_run, store_proof_run, He in Hv. injection Hv as <- <-. exists r.
      split; [destruct c; cbn; apply lookup_insert_eq|]. by rewrite Hd, outcome_bind_ok. }
  destruct Hgoal as (r & Hl & Hx). unfold verify_with, cached. rewrite He2, Hc2, Hl. f_equal. exact Hx.
Qed.

End RequestTheorems.

(** * Theorems: batches *)

Section BatchTheorems.
  Context `{P : Primitives, TC : TrieCodec, LC : LightCodec}.
  Implicit Types (c : LightClient).

Definition decode_values (proofs : list MerkleProof) : lightR (list (option Utxo)) :=
  mapM (fun pf => deserialize_proof_data utxo_of_bytes (proof_value pf)) proofs.

Lemma decode_values_cons pf proofs vs :
  decode_values (pf :: proofs) = Ok vs ->
  exists v ws, vs = v :: ws /\ deserialize_proof_data utxo_of_bytes (proof_value pf) = Ok v /\ decode_values proofs = Ok ws.
Proof.
  intros H. apply outcome_bind_inv in H as (v & Hv & H). apply outcome_bind_inv in H as (ws & Hws & H).
  injection H as <-. by exists v, ws.
Qed.

Lemma store_keeps_config key r c : lc_config (fst (store_proof key r c)) = lc_config c.
Proof. rewrite store_proof_run. cbn. destruct (lc_enable_caching _); [by destruct c|done]. Qed.

(** A batch with a proof too many makes the client read beyond the outpoints it
    asked about. *)
Lemma read_batch_panics response root height uncached i proofs results vs c :
  decode_values proofs = Ok vs -> (i <= length uncached)%nat -> (length uncached < i + length proofs)%nat ->
  snd (read_batch response root height uncached i proofs results c) = Panic.
Proof.
  revert i results vs c. induction proofs as [|pf proofs IH]; intros i results vs c Hd Hi Hl; cbn [length] in Hl; [lia|].
  apply decode_values_cons in Hd as (v & ws & -> & Hv & Hws). cbn [read_batch].
  destruct (uncached !! i) as [slot|] eqn:Hs; [|done]. cbn [unwrap]. rewrite stM_bind_run. cbn [lift].
  rewrite stM_bind_run, Hv. cbn [lift]. rewrite stM_bind_run, store_proof_run.
  apply (IH _ _ ws); [done| |lia]. apply lookup_lt_Some in Hs. lia.
Qed.

(** The values that are read are the ones in the answer. *)
Lemma read_batch_values response root height uncached i proofs results vs c :
  decode_values proofs = Ok vs -> (i + length proofs <= length uncached)%nat ->
  snd (read_batch response root height uncached i proofs results c) =
  Ok (foldl (fun rs '(k, v) => <[k := v]> rs) results (zip (drop i uncached).*2 vs)).
Proof.
  revert i results vs c. induction proofs as [|pf proofs IH]; intros i results vs c Hd Hl; cbn [length] in Hl.
  { injection Hd as <-. by rewrite zip_with_nil_r. }
  apply decode_values_cons in Hd as (v & ws & -> & Hv & Hws). cbn [read_batch].
  destruct (lookup_lt_is_Some_2 uncached i ltac:(lia)) as [slot Hs]. rewrite Hs. cbn [unwrap]. rewrite stM_bind_run. cbn [lift].
  rewrite stM_bind_run, Hv. cbn [lift]. rewrite stM_bind_run, store_proof_run.
  rewrite (IH _ _ ws) by (done || lia). rewrite (drop_S _ _ _ Hs). done.
Qed.

(** Nothing about these outpoints is in the cache. *)
Definition nothing_cached c (height : Z) (outpoints : list OutPoint) : Prop :=
  Forall (fun o => cached (batch_key o height) c = None) outpoints.

Lemma scan_nothing c height i outpoints :
  nothing_cached c height outpoints ->
  scan_cache c height i outpoints = Ok (replicate (length outpoints) None, zip outpoints (seq i (length outpoints))).
Proof.
  intros Hn. revert i. induction Hn as [|o outpoints Ho Hn IH]; intros i; [done|]. cbn [scan_cache].
  rewrite Ho, IH. done.
Qed.

Lemma fill_results (vs : list (option Utxo)) done todo n :
  (length vs <= n)%nat -> length done = todo ->
  foldl (fun rs '(k, v) => <[k := v]> rs) (done ++ replicate n None) (zip (seq todo n) vs) =
  done ++ vs ++ replicate (n - length vs) None.
Proof.
  revert done todo n. induction vs as [|v vs IH]; intros done todo n Hl Hd.
  - rewrite zip_with_nil_r. cbn [foldl length app]. by rewrite Nat.sub_0_r.
  - destruct n as [|n]; cbn [length] in Hl; [lia|]. cbn [seq zip zip_with foldl replicate].
    rewrite <- Hd at 1. rewrite insert_app_r_alt, Nat.sub_diag by lia. cbn [insert list_insert].
    replace (done ++ v :: replicate n None) with ((done ++ [v]) ++ replicate n None) by (by rewrite <- app_assoc).
    rewrite (IH (done ++ [v]) (S todo) n); [|lia|rewrite length_app; cbn; lia].
    rewrite <- app_assoc. cbn [length app]. by rewrite Nat.sub_succ.
Qed.

(** What a fresh batch request comes down to. *)
Lemma fresh_batch net c outpoints height root response batch :
  nothing_cached c height outpoints -> outpoints <> [] -> state_roots c !! height = Some root ->
  retried "All batch proof retry attempts failed" c (request_utxo_batch_proof_from_network outpoints height net c) = Ok response ->
  resp_state_root response = root -> proof_data response = Batch batch ->
  snd (verify_utxo_batch net outpoints height c) =
  snd (read_batch response root height (zip outpoints (seq 0 (length outpoints))) 0 (batch_proofs batch)
    (replicate (length outpoints) None) c).
Proof.
  intros Hn Hne Hr Hq <- Hb. unfold verify_utxo_batch. rewrite stM_bind_run, (scan_nothing c height 0) by done. cbn [lift].
  unfold verify_fresh_batch.
  set (uncached := zip outpoints _). assert (Hfst : uncached.*1 = outpoints).
  { unfold uncached. apply fst_zip. by rewrite length_seq. }
  destruct uncached as [|s rest] eqn:Hu; [by rewrite <- Hfst in Hne|]. rewrite <- Hu in *.
  unfold get_state_root_at_height. rewrite Hr. cbn [ok_or].
  rewrite stM_bind_run. cbn [lift]. rewrite stM_bind_run, Hfst, Hq. cbn [lift].
  rewrite bool_decide_eq_true_2 by done. cbn [negb]. rewrite Hb, stM_bind_run.
  destruct (read_batch _ _ _ _ _ _ _ _) as [c1 [rs|e| |]]; done.
Qed.

(** Batches are not verified: the client returns the values of whatever proofs
    it is sent, and takes missing ones for outputs that do not exist. *)
Theorem batch_values_unverified net c outpoints height root response batch vs :
  nothing_cached c height outpoints -> outpoints <> [] -> state_roots c !! height = Some root ->
  retried "All batch proof retry attempts failed" c (request_utxo_batch_proof_from_network outpoints height net c) = Ok response ->
  resp_state_root response = root -> proof_data response = Batch batch ->
  decode_values (batch_proofs batch) = Ok vs -> (length (batch_proofs batch) <= length outpoints)%nat ->
  snd (verify_utxo_batch net outpoints height c) = Ok (vs ++ replicate (length outpoints - length vs) None).
Proof.
  intros Hn Hne Hr Hq Hroot Hb Hd Hl. rewrite (fresh_batch net c outpoints height root response batch) by done.
  assert (Hlen : length vs = length (batch_proofs batch)).
  { revert vs Hd. generalize (batch_proofs batch). induction l as [|pf l IH]; intros vs Hd; [by injection Hd as <-|].
    apply decode_values_cons in Hd as (v & ws & -> & _ & Hws). cbn. by rewrite (IH ws). }
  rewrite (read_batch_values _ _ _ _ _ _ _ vs) by (done || rewrite length_zip_with, length_seq; lia).
  rewrite drop_0, snd_zip by (by rewrite length_seq). f_equal. apply (fill_results vs [] 0); [lia|done].
Qed.

(** A peer that answers with more proofs than it was asked for crashes the
    client. *)
Theorem oversized_batch_panics net c outpoints height root response batch vs :
  nothing_cached c height outpoints -> outpoints <> [] -> state_roots c !! height = Some root ->
  retried "All batch proof retry attempts failed" c (request_utxo_batch_proof_from_network outpoints height net c) = Ok response ->
  resp_state_root response = root -> proof_data response = Batch batch ->
  decode_values (batch_proofs batch) = Ok vs -> (length outpoints < length (batch_proofs batch))%nat ->
  snd (verify_utxo_batch net outpoints height c) = Panic.
Proof.
  intros Hn Hne Hr Hq Hroot Hb Hd Hl. rewrite (fresh_batch net c outpoints height root response batch) by done.
  apply (read_batch_panics _ _ _ _ _ _ _ vs); [done|lia|]. rewrite length_zip_with, length_seq. lia.
Qed.

End BatchTheorems.

(** * Theorems: headers *)

Section HeaderTheorems.
  Context `{P : Primitives, TC : TrieCodec, LC : LightCodec}.
  Implicit Types (c : LightClient).

(** What accepting a header does. *)
Lemma update_header_cases header c c' r :
  update_block_header header c = (c', r) ->
  (c' = c /\ is_ok r = false) \/
  (exists h, r = Ok tt /\ header_hash (E := CE.ConsensusError) header = Ok h /\
     (header_height header <= 0 \/ previous_block_hash header = best_block_hash c \/ is_zero (best_block_hash c) = true) /\
     block_headers c' = <[h := header]> (block_headers c) /\
     state_roots c' = <[header_height header := state_root header]> (state_roots c) /\
     lc_proof_cache c' = lc_proof_cache c /\
     best_block_height c' = Z.max (best_block_height c) (header_height header) /\
     best_block_hash c' = if best_block_height c <? header_height header then h else best_block_hash c).
Proof.
  unfold update_block_header. rewrite stM_bind_run. cbn [lift]. unfold header_hash.
  destruct (bincode_header header) as [b|]; [|intros [= <- <-]; by left]. cbn [unwrap mbind outcome_bind mret outcome_ret].
  rewrite stM_bind_run. cbn [gets]. unfold Datatypes.id. destruct (_ && _) eqn:Hg; [intros [= <- <-]; by left|].
  rewrite stM_bind_run. cbn [modify]. intros H. right. exists (blake3 b).
  assert (Hlink : header_height header <= 0 \/ previous_block_hash header = best_block_hash c \/ is_zero (best_block_hash c) = true).
  { apply andb_false_iff in Hg as [Hg|Hg%negb_false_iff]; [|by right; right].
    apply andb_false_iff in Hg as [Hg%Z.ltb_ge|Hg%negb_false_iff%bool_decide_eq_true]; [by left|by right; left]. }
  destruct (Z.ltb_spec (best_block_height c) (header_height header)); injection H as <- <-; destruct c; cbn in *;
    unfold RecordSetters.constant; split_and!; try done; lia.
Qed.

(** A header may come with any height, and one that is not higher than the best
    block still replaces the state root of its height: the first header of a
    chain, which need not connect to anything, is always accepted. *)
Theorem genesis_header_always_accepted header c h :
  header_height header = 0 -> header_hash (E := CE.ConsensusError) header = Ok h -> 0 <= best_block_height c ->
  exists c', update_block_header header c = (c', Ok tt) /\ state_roots c' !! 0 = Some (state_root header) /\
    best_block_height c' = best_block_height c /\ best_block_hash c' = best_block_hash c.
Proof.
  intros H0 Hh Hb. destruct (update_block_header header c) as [c' r] eqn:Hu.
  assert (Hok : r = Ok tt).
  { unfold update_block_header in Hu. rewrite stM_bind_run in Hu. cbn [lift] in Hu. rewrite Hh in Hu.
    rewrite stM_bind_run in Hu. cbn [gets] in Hu. rewrite H0 in Hu. cbn [Z.ltb Z.compare andb] in Hu. rewrite stM_bind_run in Hu.
    cbn [modify] in Hu. destruct (_ <? 0); by inversion Hu. }
  subst r. apply update_header_cases in Hu as [[_ [=]]|(h' & _ & _ & _ & _ & Hs & _ & Hbh & Hbb)].
  exists c'. split; [done|]. rewrite Hs, H0, lookup_insert_eq. split; [done|].
  rewrite Hbh, Hbb, H0. split; [lia|]. destruct (Z.ltb_spec (best_block_height c) 0); [lia|done].
Qed.

(** Every stored header is filed under its hash, and the best block is one of
    them. *)
Definition headers_inv c : Prop :=
  map_Forall (fun h header => header_hash (E := CE.ConsensusError) header = Ok h) (block_headers c) /\
  0 <= best_block_height c /\
  (best_block_height c = 0 \/
   is_Some (block_headers c !! best_block_hash c) /\
   exists header, header_hash (E := CE.ConsensusError) header = Ok (best_block_hash c) /\
     header_height header = best_block_height c).

Lemma update_header_inv header : preserves headers_inv (update_block_header header).
Proof.
  intros c Hc. destruct (update_block_header header c) as [c' r] eqn:Hu.
  enough (headers_inv c') by (by destruct r). destruct Hc as (I1 & I2 & I3).
  apply update_header_cases in Hu as [[-> _]|(h & _ & Hh & _ & Hb & _ & _ & Hbh & Hbb)]; [done|].
  unfold headers_inv. rewrite Hb, Hbh, Hbb. split; [by apply map_Forall_insert_2|]. split; [lia|].
  destruct (Z.ltb_spec (best_block_height c) (header_height header)) as [Hlt|Hge].
  - right. split; [rewrite lookup_insert_eq; eauto|]. exists header. split; [done|lia].
  - rewrite Z.max_l by lia. destruct I3 as [I3|[Hs Hx]]; [by left|]. right. split; [|done].
    apply lookup_insert_is_Some'. by right.
Qed.

Lemma store_proof_inv key r : preserves headers_inv (store_proof key r).
Proof. intros c Hc. rewrite store_proof_run. destruct (lc_enable_caching _); [|done]. by destruct c. Qed.

#[local] Hint Resolve update_header_inv store_proof_inv : keep.

Lemma verify_with_inv {X} key height request (finish : option bytes -> lightR X) :
  preserves headers_inv (verify_with key height request finish).
Proof.
  intros c Hc. unfold verify_with. destruct (cached key c) as [r|]; [by destruct (_ ≫= _)|].
  generalize (get_state_root_at_height height c) (request c). intros root q. revert c Hc.
  change (preserves headers_inv (verify_fresh key height root q finish)). unfold verify_fresh. keep.
Qed.

Lemma read_batch_inv response root height uncached i proofs results :
  preserves headers_inv (read_batch response root height uncached i proofs results).
Proof.
  revert i results. induction proofs as [|pf proofs IH]; intros i results; cbn [read_batch]; keep.
Qed.

#[local] Hint Resolve read_batch_inv : keep.

Lemma verify_batch_inv net outpoints height : preserves headers_inv (verify_utxo_batch net outpoints height).
Proof.
  intros c Hc. unfold verify_utxo_batch. generalize (scan_cache c height 0 outpoints) (get_state_root_at_height height c)
    (fun uncached => retried "All batch proof retry attempts failed" c (request_utxo_batch_proof_from_network uncached height net c)).
  intros scan root q. revert c Hc.
  change (preserves headers_inv (lift scan ≫= verify_fresh_batch outpoints height root q)).
  apply preserves_bind; [apply preserves_lift|intros [results uncached]]. cbn [verify_fresh_batch]. keep.
Qed.

Lemma verify_headers_inv expected headers : preserves headers_inv (verify_headers expected headers).
Proof.
  revert expected. induction headers as [|h headers IH]; intros expected; cbn [verify_headers]; keep.
Qed.

#[local] Hint Resolve verify_headers_inv : keep.

Lemma request_headers_inv net start n : preserves headers_inv (request_block_headers net start n).
Proof.
  intros c Hc. unfold request_block_headers. generalize (map_err (fun e => CE.NetworkError
    ("Failed to select peer for header request: " +:+ e)) (select_best_peer net 0 c)). intros peer. revert c Hc.
  change (preserves headers_inv (lift peer ≫= fun peer =>
    match net_headers net peer start n with
    | NoAnswer => throw (CE.NetworkError "Header request timeout")
    | Refused => throw (CE.NetworkError "Header request failed")
    | Answer [] => throw (CE.NetworkError "No headers received")
    | Answer headers => verify_headers start headers
    end)).
  keep.
Qed.

(** ** The client as a state machine *)

Inductive light_op : Type :=
| LHeader (header : BlockHeader)
| LHeaders (net : LightNet) (start : Hash) (n : Z)
| LUtxo (net : LightNet) (o : OutPoint) (height : Z)
| LBatch (net : LightNet) (outpoints : list OutPoint) (height : Z)
| LTicket (net : LightNet) (id : TicketId) (height : Z)
| LMasternode (net : LightNet) (k : bytes) (height : Z)
| LGovernance (net : LightNet) (k : bytes) (height : Z)
| LStrategy (s : PeerSelectionStrategy)
| LClear.

Definition light_exec c (op : light_op) : LightClient :=
  match op with
  | LHeader header => fst (update_block_header header c)
  | LHeaders net start n => fst (request_block_headers net start n c)
  | LUtxo net o height => fst (verify_utxo_existence net o height c)
  | LBatch net outpoints height => fst (verify_utxo_batch net outpoints height c)
  | LTicket net id height => fst (verify_ticket_existence net id height c)
  | LMasternode net k height => fst (verify_masternode_registration net k height c)
  | LGovernance net k height => fst (verify_governance_proposal net k height c)
  | LStrategy s => set_peer_selection_strategy s c
  | LClear => clear_cache c
  end.

(** Whatever is called in whatever order, the stored headers are filed under
    their hashes and the best block is one of them. *)
Theorem light_client_invariant config ops :
  headers_inv (foldl light_exec (LightClient_new config) ops).
Proof.
  apply foldl_inv; [split; [apply map_Forall_empty|split; [cbn; lia|by left]]|]. intros c op Hc. destruct op; cbn [light_exec].
  - apply preserves_fst; [apply update_header_inv|done].
  - apply preserves_fst; [apply request_headers_inv|done].
  - apply preserves_fst; [apply verify_with_inv|done].
  - apply preserves_fst; [apply verify_batch_inv|done].
  - apply preserves_fst; [apply verify_with_inv|done].
  - apply preserves_fst; [apply verify_with_inv|done].
  - apply preserves_fst; [apply verify_with_inv|done].
  - by destruct c.
  - by destruct c.
Qed.

(** ** Chains of headers *)

Fixpoint linked (expected : Hash) (headers : list BlockHeader) : Prop :=
  match headers with
  | [] => True
  | header :: headers =>
      (previous_block_hash header = expected \/ is_zero expected = true) /\
      exists h, header_hash (E := CE.ConsensusError) header = Ok h /\ linked h headers
  end.

(** The headers a request returns are the beginning of the answer and form a
    chain from the block that was asked for. *)
Theorem requested_headers_linked net start n c c' hs :
  request_block_headers net start n c = (c', Ok hs) ->
  exists p answer, net_headers net p start n = Answer answer /\ hs `prefix_of` answer /\ linked start hs.
Proof.
  unfold request_block_headers. intros H. apply stM_bind_ok in H as (s & p & E & H). injection E as <- _.
  destruct (net_headers net p start n) as [[|h0 l]| |] eqn:Hn; try done. exists p, (h0 :: l). split; [done|].
  revert H. generalize (h0 :: l). clear. intros l. revert start c c' hs.
  induction l as [|h l IH]; intros start c c' hs H; cbn [verify_headers] in H.
  { injection H as _ <-. done. }
  destruct (_ && _) eqn:Hg; [injection H as _ <-; split; [apply prefix_nil|done]|].
  destruct (is_ok _); [|injection H as _ <-; split; [apply prefix_nil|done]].
  apply stM_bind_ok in H as (s1 & [] & _ & H). apply stM_bind_ok in H as (s2 & x & E & H). injection E as <- Hx.
  apply stM_bind_ok in H as (s3 & rest & Hr & H). injection H as <- <-. apply IH in Hr as [Hp Hl].
  split; [by apply prefix_cons|]. cbn [linked]. split; [|by exists x].
  apply andb_false_iff in Hg as [Hg%negb_false_iff%bool_decide_eq_true|Hg%negb_false_iff]; [by left|by right].
Qed.

End HeaderTheorems.

(** * Examples *)

Definition sample_light_codec : LightCodec := {|
  lc_outpoint o := Some (txid o ++ to_le_bytes 4 (vout o));
  utxo_of_bytes b := match b with [v] => Some (mkUtxo (TxOutput_new v [0x51]) false 1) | _ => None end;
  ticket_data_of_bytes b := Some (mkTicketData b 0 0 0);
  debug_outpoint o := hex_encode (txid o);
  debug_outpoints l := pretty (length l);
  debug_ticket_id := hex_encode;
  debug_bytes := hex_encode;
|}.

Definition batch_of (vs : list Z) : BatchMerkleProof :=
  mkBatchMerkleProof ((fun v => mkMerkleProof [] (Some [v]) [] []) <$> vs) ∅ [].

(** A peer that answers every request with what it likes. *)
Definition lying_net (vs : list Z) : LightNet :=
  mkLightNet (fun _ => Some [1]) (fun _ _ => None) (fun _ => 0)
    (fun _ _ r => Answer (match req_type r with
                          | ReqBatch => mkProofResponse BatchProofType (Batch (batch_of vs)) 0 [7] 0
                          | _ => forged_response [99] [7]
                          end))
    (fun _ start _ => Answer [mkBlockHeader 1 5 start [] [7] 0 0 0]).

Definition informed_client : LightClient := (LightClient_new LightClientConfig_default) <| state_roots := {[ 5 := [7] ]} |>.

Lemma any_output_accepted_witness :
  snd (verify_utxo_existence (LC := sample_light_codec) (lying_net []) (sample_outpoint 1) 5 informed_client) =
  Ok (Some (mkUtxo (TxOutput_new 99 [0x51]) false 1)).
Proof.
  apply (any_output_accepted (LC := sample_light_codec) (lying_net []) informed_client (sample_outpoint 1) 5 [7] 1
    (replicate 32 1 ++ to_le_bytes 4 0) [99]).
  - reflexivity.
  - reflexivity.
  - reflexivity.
  - reflexivity.
  - reflexivity.
  - reflexivity.
Defined.

Definition answered : LightClient * lightR (option Utxo) :=
  verify_utxo_existence (LC := sample_light_codec) (lying_net []) (sample_outpoint 1) 5 informed_client.

Lemma cached_answer_is_final_witness :
  forall net, verify_utxo_existence (LC := sample_light_codec) net (sample_outpoint 1) 5 ((fst answered) <| state_roots := ∅ |>) =
    ((fst answered) <| state_roots := ∅ |>, Ok (Some (mkUtxo (TxOutput_new 99 [0x51]) false 1))).
Proof.
  intros net.
  assert (Ho : snd answered = Ok (Some (mkUtxo (TxOutput_new 99 [0x51]) false 1))) by (vm_compute; reflexivity).
  apply (cached_answer_is_final _ 5 (fun c => retried "All retry attempts failed" c (request_utxo_proof_from_network (LC := sample_light_codec)
      (sample_outpoint 1) 5 (lying_net []) c)) _ _ informed_client (fst answered)).
  - reflexivity.
  - rewrite <- Ho. apply surjective_pairing.
  - reflexivity.
  - reflexivity.
Defined.

Lemma uncached_sample o : nothing_cached (LC := sample_light_codec) informed_client 5 [o].
Proof. by apply Forall_singleton. Qed.

Lemma batch_values_unverified_witness :
  snd (verify_utxo_batch (LC := sample_light_codec) (lying_net [42]) [sample_outpoint 1] 5 informed_client) =
  Ok [Some (mkUtxo (TxOutput_new 42 [0x51]) false 1)].
Proof.
  apply (batch_values_unverified (LC := sample_light_codec) (lying_net [42]) informed_client [sample_outpoint 1] 5 [7]
    (mkProofResponse BatchProofType (Batch (batch_of [42])) 0 [7] 0) (batch_of [42])
    [Some (mkUtxo (TxOutput_new 42 [0x51]) false 1)] (uncached_sample _)).
  - discriminate.
  - reflexivity.
  - reflexivity.
  - reflexivity.
  - reflexivity.
  - reflexivity.
  - cbn. lia.
Defined.

Lemma oversized_batch_panics_witness :
  snd (verify_utxo_batch (LC := sample_light_codec) (lying_net [42; 43]) [sample_outpoint 1] 5 informed_client) = Panic.
Proof.
  apply (oversized_batch_panics (LC := sample_light_codec) (lying_net [42; 43]) informed_client [sample_outpoint 1] 5 [7]
    (mkProofResponse BatchProofType (Batch (batch_of [42; 43])) 0 [7] 0) (batch_of [42; 43])
    [Some (mkUtxo (TxOutput_new 42 [0x51]) false 1); Some (mkUtxo (TxOutput_new 43 [0x51]) false 1)] (uncached_sample _)).
  - discriminate.
  - reflexivity.
  - reflexivity.
  - reflexivity.
  - reflexivity.
  - reflexivity.
  - cbn. lia.
Defined.

Definition late_genesis : BlockHeader := mkBlockHeader 1 0 [] [] [8] 0 0 0.

Definition genesis_hash : Hash :=
  match header_hash (E := CE.ConsensusError) late_genesis with Ok h => h | _ => [] end.

Lemma genesis_header_always_accepted_witness :
  exists c', update_block_header late_genesis informed_client = (c', Ok tt) /\ state_roots c' !! 0 = Some [8].
Proof.
  destruct (genesis_header_always_accepted late_genesis informed_client genesis_hash eq_refl) as (c' & Hu & Hs & _).
  - reflexivity.
  - reflexivity.
  - exists c'. split; [exact Hu|exact Hs].
Defined.

Lemma requested_headers_linked_witness :
  linked [3] [mkBlockHeader 1 5 [3] [] [7] 0 0 0].
Proof.
  destruct (request_block_headers (lying_net []) [3] 1 informed_client) as [c' r] eqn:Hr.
  assert (Ho : snd (request_block_headers (lying_net []) [3] 1 informed_client) = Ok [mkBlockHeader 1 5 [3] [] [7] 0 0 0])
    by reflexivity.
  rewrite Hr in Ho. cbn in Ho. subst r.
  destruct (requested_headers_linked (lying_net []) [3] 1 informed_client c' _ Hr) as (p & answer & _ & _ & Hl). exact Hl.
Defined.

Lemma with_retries_example :
  with_retries "" (seq 0 4) None (fun k => if (k =? 2)%nat then Ok (forged_response [1] []) else Err root_mismatch) =
    Ok (forged_response [1] []) /\
  with_retries "" (seq 0 2) None (fun k => if (k =? 2)%nat then Ok (forged_response [1] []) else Err root_mismatch) =
    Err root_mismatch.
Proof. split; reflexivity. Qed.
