(* ===== verification/Snapshots.v ===== *)
(** State snapshots (src/rusty-core/src/state/snapshot_manager.rs) and fast
    synchronisation from them (src/rusty-core/src/state/fast_sync.rs).

    The directory of a manager is part of its state: a file [<hash>.snapshot],
    [<hash>.inc] or [<hash>.meta] is an entry of the map of its extension.  A
    write succeeds as [write_ok] says; reading a file that exists succeeds.
    [iter_files] and [iter_meta] stand for the order of a directory and of the
    map of snapshots.  Loading carries fuel, one unit for each nested call.
    Timestamps and instants are arguments; the pauses of the simulated download
    leave no trace.  Of formatted error messages the constant part is kept. *)

From Stdlib Require Import ZArith Lia List.
From stdpp Require Import base option list numbers strings gmap sorting.
From coqutil Require Import Datatypes.RecordSetters.
From S2P Require Import Prelude Types Errors Transaction SamplePrimitives UtxoSet F64 LiveTickets GovernanceState ChainState Trie.

Import TriangleBracketNotations.
#[local] Open Scope Z_scope.

(** * Snapshots *)

Record SnapshotConfig : Type := mkSnapshotConfig {
  snapshot_interval : Z;
  max_snapshots : Z;
  snap_enable_compression : bool;
  enable_incremental : bool;
}.

Definition SnapshotConfig_default : SnapshotConfig := mkSnapshotConfig 1000 10 true true.

Record SnapshotMetadata : Type := mkSnapshotMetadata {
  md_block_height : Z;
  md_block_hash : Hash;
  md_state_root : Hash;
  md_timestamp : Z;
  size_bytes : Z;
  is_incremental : bool;
  parent_snapshot : option Hash;
  md_version : Z;
}.

Record StateSnapshot : Type := mkStateSnapshot {
  metadata : SnapshotMetadata;
  snap_utxo_set : gmap OutPoint Utxo;
  snap_live_tickets : gmap TicketId TicketData;
  snap_masternode_list : gmap bytes bytes;
  snap_active_proposals : gmap bytes bytes;
  trie_nodes : gmap Hash bytes;
  additional_data : gmap string bytes;
}.

Record IncrementalSnapshot : Type := mkIncrementalSnapshot {
  inc_metadata : SnapshotMetadata;
  utxo_changes : gmap OutPoint (option Utxo);
  ticket_changes : gmap TicketId (option TicketData);
  masternode_changes : gmap bytes (option bytes);
  proposal_changes : gmap bytes (option bytes);
  trie_changes : gmap Hash (option bytes);
}.

Inductive FileKind : Type := SnapshotFile | IncFile | MetaFile.

(** bincode of snapshots. *)
Class SnapshotCodec : Type := {
  bincode_metadata : SnapshotMetadata -> option bytes;
  metadata_of_bytes : bytes -> option SnapshotMetadata;
  bincode_snapshot : StateSnapshot -> option bytes;
  snapshot_of_bytes : bytes -> option StateSnapshot;
  bincode_incremental : IncrementalSnapshot -> option bytes;
}.

(** A struct is encoded as its fields in order, of which the maps take at least
    the bytes of their length; an encoding tells where it ends. *)
Class SnapshotCodecLaws `{SnapshotCodec} : Prop := {
  snapshot_layout : forall s b, bincode_snapshot s = Some b ->
    exists m rest, bincode_metadata (metadata s) = Some m /\ b = m ++ rest /\ rest <> [];
  metadata_prefix_free : forall m m' a rest, bincode_metadata m = Some a -> bincode_metadata m' = Some (a ++ rest) -> rest = [];
}.

Record SnapshotManager : Type := mkSnapshotManager {
  sm_config : SnapshotConfig;
  snapshots : gmap Z SnapshotMetadata;
  current_state : option StateSnapshot;
  last_snapshot_height : Z;
  snapshot_files : gmap Hash bytes;
  inc_files : gmap Hash bytes;
  meta_files : gmap Hash bytes;
}.

Abbreviation snapM := (stM SnapshotManager CE.ConsensusError).
Abbreviation stateR := (outcome CE.ConsensusError).

Section Snapshots.
  Context `{P : Primitives, TC : TrieCodec, SC : SnapshotCodec}.
  Context (write_ok : FileKind -> Hash -> bool).
  Context (iter_files : gmap Hash bytes -> list (Hash * bytes)).
  Context (iter_meta : gmap Z SnapshotMetadata -> list (Z * SnapshotMetadata)).

(** ** What a snapshot holds *)

Definition snapshot_ticket (t : Ticket) : TicketData :=
  mkTicketData (ticket_pubkey t) (ticket_value t) (wrap64 (ticket_height t + 50000)) (ticket_height t).

Definition ticket_map (live_tickets : LiveTicketsPool) : gmap TicketId TicketData := snapshot_ticket <$> live_tickets.

Definition snapshot_proposal (e : Hash * (Proposal * Votes)) : bytes * bytes :=
  (string_bytes ("prop_" +:+ hex_encode e.1), default [] (bincode_proposal_entry (e.2.1, map_to_list e.2.2))).

Definition proposal_map (active_proposals : ActiveProposals) : gmap bytes bytes :=
  list_to_map (snapshot_proposal <$> map_to_list active_proposals).

Definition node_map (t : MerklePatriciaTrie) : gmap Hash bytes := (fun n => default [] (bincode_node n)) <$> nodes t.

(** ** Files *)

Definition write_file (k : FileKind) (h : Hash) (data : bytes) (error : string) : snapM unit := fun m =>
  if write_ok k h
  then (match k with
        | SnapshotFile => m <| snapshot_files ::= <[h := data]> |>
        | IncFile => m <| inc_files ::= <[h := data]> |>
        | MetaFile => m <| meta_files ::= <[h := data]> |>
        end, Ok tt)
  else (m, Err (CE.StateError error)).

Definition remove_file (k : FileKind) (h : Hash) (m : SnapshotManager) : SnapshotManager :=
  match k with
  | SnapshotFile => m <| snapshot_files ::= delete h |>
  | IncFile => m <| inc_files ::= delete h |>
  | MetaFile => m <| meta_files ::= delete h |>
  end.

(** The name under which the metadata of a snapshot is looked for. *)
Definition metadata_hash (md : SnapshotMetadata) : Hash := blake3 (default [] (bincode_metadata md)).

(** Both branches of the compression flag serialize without compressing. *)
Definition save_snapshot (s : StateSnapshot) : snapM Hash :=
  data ← lift (ok_or (bincode_snapshot s) CE.bincode_failure);
  let h := blake3 data in
  write_file SnapshotFile h data "Failed to save snapshot";;
  md ← lift (ok_or (bincode_metadata (metadata s)) CE.bincode_failure);
  write_file MetaFile h md "Failed to save metadata";;
  mret h.

Definition save_incremental_snapshot (s : IncrementalSnapshot) : snapM Hash :=
  data ← lift (ok_or (bincode_incremental s) CE.bincode_failure);
  let h := blake3 data in
  write_file IncFile h data "Failed to save incremental snapshot";;
  md ← lift (ok_or (bincode_metadata (inc_metadata s)) CE.bincode_failure);
  write_file MetaFile h md "Failed to save metadata";;
  mret h.

Definition get_snapshot_size (h : Hash) (m : SnapshotManager) : stateR Z :=
  data ← ok_or (snapshot_files m !! h) (CE.StateError "Failed to get snapshot size"); mret (len data).

Definition get_incremental_snapshot_size (h : Hash) (m : SnapshotManager) : stateR Z :=
  data ← ok_or (inc_files m !! h) (CE.StateError "Failed to get incremental snapshot size"); mret (len data).

Definition load_step (m : SnapshotManager) (f : Hash * bytes) : SnapshotManager :=
  match metadata_of_bytes f.2 with
  | Some md =>
      let m := m <| snapshots ::= <[md_block_height md := md]> |> in
      if last_snapshot_height m <? md_block_height md then m <| last_snapshot_height := md_block_height md |> else m
  | None => m
  end.

Definition load_existing_snapshots (m : SnapshotManager) : SnapshotManager := foldl load_step m (iter_files (meta_files m)).

(** [SnapshotManager::new] on a directory with these files. *)
Definition SnapshotManager_new (config : SnapshotConfig) (snaps incs metas : gmap Hash bytes) : SnapshotManager :=
  load_existing_snapshots (mkSnapshotManager config ∅ None 0 snaps incs metas).

(** ** Cleaning up *)

Definition sorted_heights (m : SnapshotManager) : list Z := sort_by Z.leb (iter_meta (snapshots m)).*1.

Definition drop_snapshot (m : SnapshotManager) (height : Z) : SnapshotManager :=
  match snapshots m !! height with
  | Some md =>
      let m := m <| snapshots ::= delete height |> in
      let h := metadata_hash md in
      remove_file MetaFile h (remove_file (if is_incremental md then IncFile else SnapshotFile) h m)
  | None => m
  end.

Definition cleanup_old_snapshots (m : SnapshotManager) : SnapshotManager :=
  if Z.of_nat (size (snapshots m)) <=? max_snapshots (sm_config m) then m
  else
    let heights := sorted_heights m in
    foldl drop_snapshot m (take (length heights - Z.to_nat (max_snapshots (sm_config m))) heights).

(** ** Creating *)

Definition create_snapshot (now block_height : Z) (block_hash state_root : Hash) (utxo_set : UtxoSet)
    (live_tickets : LiveTicketsPool) (masternode_list : gmap bytes bytes) (active_proposals : ActiveProposals)
    (trie : MerklePatriciaTrie) : snapM Hash :=
  let md := mkSnapshotMetadata block_height block_hash state_root now 0 false None 1 in
  let s := mkStateSnapshot md utxo_set (ticket_map live_tickets) masternode_list (proposal_map active_proposals)
             (node_map trie) ∅ in
  h ← save_snapshot s;
  size ← (fun m => (m, get_snapshot_size h m));
  modify (fun m => m <| snapshots ::= <[block_height := md <| size_bytes := size |> ]> |>
                     <| current_state := Some s |> <| last_snapshot_height := block_height |>);;
  modify cleanup_old_snapshots;;
  mret h.

Definition create_incremental_snapshot (now block_height : Z) (block_hash state_root : Hash)
    (utxos : gmap OutPoint (option Utxo)) (tickets : gmap TicketId (option TicketData))
    (masternodes proposals : gmap bytes (option bytes)) : snapM Hash := fun m =>
  (if negb (enable_incremental (sm_config m)) then throw (CE.StateError "Incremental snapshots disabled")
   else
     let parent := metadata_hash <$> snapshots m !! last_snapshot_height m in
     let md := mkSnapshotMetadata block_height block_hash state_root now 0 true parent 1 in
     h ← save_incremental_snapshot (mkIncrementalSnapshot md utxos tickets masternodes proposals ∅);
     size ← (fun m => (m, get_incremental_snapshot_size h m));
     modify (fun m => m <| snapshots ::= <[block_height := md <| size_bytes := size |> ]> |>);;
     mret h) m.

(** ** Loading *)

Definition no_snapshot : CE.ConsensusError := CE.StateError "No snapshot at height".

(** The file is looked for under the hash of the metadata. *)
Definition load_full_snapshot (m : SnapshotManager) (block_height : Z) : stateR StateSnapshot :=
  md ← ok_or (snapshots m !! block_height) no_snapshot;
  data ← ok_or (snapshot_files m !! metadata_hash md) (CE.StateError "Failed to read snapshot");
  ok_or (snapshot_of_bytes data) CE.bincode_failure.

(** The highest snapshot at or below the height; zero when there is none. *)
Definition base_height (m : SnapshotManager) (block_height : Z) : Z :=
  foldl (fun base p => if (md_block_height p.2 <=? block_height) && (base <? md_block_height p.2)
                       then md_block_height p.2 else base) 0 (iter_meta (snapshots m)).

Definition reconstruct_state_from_incremental (load : Z -> stateR StateSnapshot) (m : SnapshotManager) (block_height : Z) :
    stateR StateSnapshot :=
  let base := base_height m block_height in
  if base =? 0 then Err (CE.StateError "No base snapshot available for incremental reconstruction")
  else
    s ← load base;
    mret (s <| metadata ::= (fun md => md <| md_block_height := block_height |>) |>).

Fixpoint load_snapshot (fuel : nat) (m : SnapshotManager) (block_height : Z) : stateR StateSnapshot :=
  match fuel with
  | O => OutOfFuel
  | S fuel =>
      md ← ok_or (snapshots m !! block_height) no_snapshot;
      if is_incremental md then reconstruct_state_from_incremental (load_snapshot fuel m) m block_height
      else load_full_snapshot m block_height
  end.

(** The highest key at or below the target. *)
Definition rollback_height (m : SnapshotManager) (target : Z) : option Z :=
  last (filter (fun h => h <= target) (sorted_heights m)).

Definition snapshot_rollback (fuel : nat) (target_height : Z) : snapM StateSnapshot := fun m =>
  match rollback_height m target_height with
  | None => (m, Err (CE.StateError "No snapshot available for rollback to height"))
  | Some height =>
      match load_snapshot fuel m height with
      | Ok s => (m <| current_state := Some s |>, Ok s)
      | Err e => (m, Err e)
      | Panic => (m, Panic)
      | OutOfFuel => (m, OutOfFuel)
      end
  end.

(** The subtraction wraps around. *)
Definition should_create_snapshot (m : SnapshotManager) (block_height : Z) : bool :=
  (0 <? block_height) && (snapshot_interval (sm_config m) <=? wrap64 (block_height - last_snapshot_height m)).

Definition get_available_snapshots (m : SnapshotManager) : list Z := sorted_heights m.

Record SnapshotStats : Type := mkSnapshotStats {
  total_snapshots : Z;
  incremental_snapshots : Z;
  full_snapshots : Z;
  total_size_bytes : Z;
  st_last_snapshot_height : Z;
  available_heights : list Z;
}.

Definition snapshot_get_stats (m : SnapshotManager) : SnapshotStats :=
  let mds := (iter_meta (snapshots m)).*2 in
  let incremental := len (filter (fun md => is_incremental md = true) mds) in
  mkSnapshotStats (Z.of_nat (size (snapshots m))) incremental (Z.of_nat (size (snapshots m)) - incremental)
    (foldl u64_add 0 (size_bytes <$> mds)) (last_snapshot_height m) (iter_meta (snapshots m)).*1.

End Snapshots.

(** * Fast synchronisation *)

Record FastSyncConfig : Type := mkFastSyncConfig {
  min_peers : Z;
  max_concurrent_downloads : Z;
  fs_request_timeout_secs : Z;
  header_verification_depth : Z;
  verify_snapshots : bool;
  min_snapshot_age : Z;
}.

Definition FastSyncConfig_default : FastSyncConfig := mkFastSyncConfig 3 2 300 100 true 10.

Inductive FastSyncStatus : Type :=
| NotStarted
| DiscoveringSnapshots
| DownloadingSnapshot (progress : Z)
| VerifyingSnapshot
| ApplyingSnapshot
| SyncingBlocks (remaining : Z)
| SyncCompleted
| SyncFailed (error : string).

Record PeerSnapshot : Type := mkPeerSnapshot {
  ps_peer_id : string;
  ps_metadata : SnapshotMetadata;
  ps_peer_height : Z;
  ps_trust_score : f64;
}.

Record FastSyncManager : Type := mkFastSyncManager {
  fs_config : FastSyncConfig;
  fs_status : FastSyncStatus;
  peer_snapshots : gmap string (list PeerSnapshot);
  sync_start_time : option Z;
  target_snapshot : option SnapshotMetadata;
}.

Abbreviation syncM := (stM FastSyncManager CE.ConsensusError).

Section FastSync.
  Context (iter_peers : gmap string (list PeerSnapshot) -> list (string * list PeerSnapshot)).

Definition FastSyncManager_new (config : FastSyncConfig) : FastSyncManager := mkFastSyncManager config NotStarted ∅ None None.

Definition set_sync_status (s : FastSyncStatus) : syncM unit := modify (fun m => m <| fs_status := s |>).

Definition offers (m : FastSyncManager) : list PeerSnapshot := concat (iter_peers (peer_snapshots m)).*2.

Definition suitable (m : FastSyncManager) (current_height : Z) (s : PeerSnapshot) : bool :=
  (u64_add current_height (min_snapshot_age (fs_config m)) <? md_block_height (ps_metadata s)) &&
  negb (is_incremental (ps_metadata s)).

Definition trust_cmp (a b : f64) : comparison :=
  if f64_lt a b then Lt else if f64_gt a b then Gt else Eq.

Definition offer_le (a b : PeerSnapshot) : bool :=
  not_greater (then_with (md_block_height (ps_metadata b) ?= md_block_height (ps_metadata a))
    (trust_cmp (ps_trust_score b) (ps_trust_score a))).

Definition select_best_snapshot (current_height : Z) (m : FastSyncManager) : stateR SnapshotMetadata :=
  match sort_by offer_le (filter (fun s => suitable m current_height s = true) (offers m)) with
  | [] => Err (CE.StateError "No suitable snapshots found")
  | (best :: _) as candidates =>
      let peer_count := len (filter (fun s => md_block_height (ps_metadata s) = md_block_height (ps_metadata best)) candidates) in
      if peer_count <? min_peers (fs_config m) then Err (CE.StateError "Not enough peers offering snapshot")
      else Ok (ps_metadata best)
  end.

(** Nothing is discovered: the offers are those added before. *)
Definition discover_snapshots : syncM unit := mret tt.

Definition verify_snapshot (md : SnapshotMetadata) : syncM unit := mret tt.

Definition download_snapshot (md : SnapshotMetadata) : syncM unit :=
  set_sync_status (DownloadingSnapshot 0);;
  for_each [0; 10; 20; 30; 40; 50; 60; 70; 80; 90; 100] (fun progress => set_sync_status (DownloadingSnapshot progress));;
  config ← gets fs_config;
  if verify_snapshots config
  then set_sync_status VerifyingSnapshot;; verify_snapshot md
  else mret tt.

Definition apply_snapshot (md : SnapshotMetadata) : syncM unit := set_sync_status ApplyingSnapshot.

Definition sync_remaining_blocks : syncM unit := set_sync_status (SyncingBlocks 0).

Definition start_fast_sync (now current_height : Z) : syncM unit :=
  modify (fun m => m <| fs_status := DiscoveringSnapshots |> <| sync_start_time := Some now |>);;
  discover_snapshots;;
  target ← (fun m => (m, select_best_snapshot current_height m));
  modify (fun m => m <| target_snapshot := Some target |>);;
  download_snapshot target;;
  apply_snapshot target;;
  sync_remaining_blocks;;
  set_sync_status SyncCompleted.

Definition has_suitable_snapshots (m : FastSyncManager) (network_height : Z) : bool :=
  existsb (fun s => (u64_saturating_sub network_height (min_snapshot_age (fs_config m)) <? md_block_height (ps_metadata s)) &&
                    negb (is_incremental (ps_metadata s))) (offers m).

Definition should_use_fast_sync (m : FastSyncManager) (current_height network_height : Z) : bool :=
  (1000 <? u64_saturating_sub network_height current_height) && has_suitable_snapshots m network_height.

Definition fs_add_peer_snapshot (peer_id : string) (md : SnapshotMetadata) (peer_height : Z) (m : FastSyncManager) :
    FastSyncManager :=
  m <| peer_snapshots ::= (fun s => <[peer_id := default [] (s !! peer_id) ++
         [mkPeerSnapshot peer_id md peer_height (f64_of_Z 1)]]> s) |>.

Definition fs_remove_peer_snapshots (peer_id : string) (m : FastSyncManager) : FastSyncManager :=
  m <| peer_snapshots ::= delete peer_id |>.

Record FastSyncStats : Type := mkFastSyncStats {
  fss_status : FastSyncStatus;
  available_snapshots : Z;
  target_height : option Z;
  sync_duration_secs : Z;
  peers_count : Z;
}.

(** Instants are nanoseconds. *)
Definition fast_sync_get_stats (now : Z) (m : FastSyncManager) : FastSyncStats :=
  mkFastSyncStats (fs_status m) (len (offers m)) (md_block_height <$> target_snapshot m)
    (default 0 ((fun start => Z.max 0 (now - start) / 1000000000) <$> sync_start_time m))
    (Z.of_nat (size (peer_snapshots m))).

Record FastSyncCoordinator : Type := mkFastSyncCoordinator {
  fast_sync_manager : FastSyncManager;
  fast_sync_enabled : bool;
  min_height_diff : Z;
}.

Definition FastSyncCoordinator_new (config : FastSyncConfig) (enabled : bool) : FastSyncCoordinator :=
  mkFastSyncCoordinator (FastSyncManager_new config) enabled 1000.

Definition coordinator_fast_sync (now current_height network_height : Z) : stM FastSyncCoordinator CE.ConsensusError bool := fun c =>
  if negb (fast_sync_enabled c) then (c, Ok false)
  else if u64_saturating_sub network_height current_height <? min_height_diff c then (c, Ok false)
  else if negb (should_use_fast_sync (fast_sync_manager c) current_height network_height) then (c, Ok false)
  else
    let '(m, r) := start_fast_sync now current_height (fast_sync_manager c) in
    (c <| fast_sync_manager := m |>, _ ← r; mret true).

Definition set_fast_sync (enabled : bool) (c : FastSyncCoordinator) : FastSyncCoordinator := c <| fast_sync_enabled := enabled |>.

Definition coordinator_add_snapshot (peer_id : string) (md : SnapshotMetadata) (peer_height : Z) (c : FastSyncCoordinator) :=
  c <| fast_sync_manager ::= fs_add_peer_snapshot peer_id md peer_height |>.

Definition coordinator_remove_snapshots (peer_id : string) (c : FastSyncCoordinator) :=
  c <| fast_sync_manager ::= fs_remove_peer_snapshots peer_id |>.

End FastSync.

(** * Theorems: snapshots *)

Section SnapshotTheorems.
  Context `{P : Primitives, TC : TrieCodec, SC : SnapshotCodec, L : !SnapshotCodecLaws}.
  Context (write_ok : FileKind -> Hash -> bool).
  Context (iter_files : gmap Hash bytes -> list (Hash * bytes)).
  Context (iter_meta : gmap Z SnapshotMetadata -> list (Z * SnapshotMetadata)).
  Context (iter_meta_lists : forall m, iter_meta m ≡ₚ map_to_list m).
  Implicit Types (m : SnapshotManager).

(** ** The base of an incremental snapshot *)

Lemma base_fold (h : Z) l b :
  let r := foldl (fun base (p : Z * SnapshotMetadata) =>
             if (md_block_height p.2 <=? h) && (base <? md_block_height p.2) then md_block_height p.2 else base) b l in
  b <= r /\ (b <= h -> r <= h) /\ forall p, p ∈ l -> md_block_height p.2 <= h -> md_block_height p.2 <= r.
Proof.
  revert b. induction l as [|p l IH]; intros b; cbn [foldl].
  { split; [lia|]. split; [done|]. by intros q Hq%not_elem_of_nil. }
  set (b' := if _ && _ then _ else b). destruct (IH b') as (H1 & H2 & H3).
  assert (Hb : b <= b' /\ (b <= h -> b' <= h) /\ (md_block_height p.2 <= h -> md_block_height p.2 <= b')).
  { unfold b'. destruct (Z.leb_spec (md_block_height p.2) h), (Z.ltb_spec b (md_block_height p.2)); cbn [andb]; lia. }
  split; [lia|]. split; [intros; apply H2; lia|]. intros q [->|Hq]%elem_of_cons Hle; [lia|by apply H3].
Qed.

(** The metadata of a height carries that height. *)
Definition keyed m : Prop := map_Forall (fun h md => md_block_height md = h) (snapshots m).

Lemma base_is_itself m h md :
  keyed m -> snapshots m !! h = Some md -> 0 < h -> base_height iter_meta m h = h.
Proof using iter_meta_lists.
  intros Hk Hm Hh. unfold base_height. pose proof (base_fold h (iter_meta (snapshots m)) 0) as (_ & H2 & H3).
  apply Z.le_antisymm; [apply H2; lia|]. rewrite <- (Hk h md Hm) at 1. apply (H3 (h, md)).
  - rewrite iter_meta_lists. by apply elem_of_map_to_list.
  - cbn. by rewrite (Hk h md Hm).
Qed.

(** Loading an incremental snapshot never returns: the base that is looked for
    first is the snapshot itself. *)
Theorem incremental_load_never_returns m h md :
  keyed m -> snapshots m !! h = Some md -> is_incremental md = true -> 0 < h ->
  forall fuel, load_snapshot iter_meta fuel m h = OutOfFuel.
Proof using iter_meta_lists.
  intros Hk Hm Hi Hh fuel. induction fuel as [|fuel IH]; [done|]. cbn [load_snapshot]. rewrite Hm. cbn [ok_or mbind outcome_bind].
  rewrite Hi. unfold reconstruct_state_from_incremental. rewrite (base_is_itself m h md) by done.
  destruct (Z.eqb_spec h 0); [lia|]. by rewrite IH.
Qed.

(** ** Full snapshots *)

Definition collision : Prop := exists a b : bytes, a <> b /\ blake3 a = blake3 b.

(** Files hold what was saved under its hash. *)
Record snap_inv m : Prop := {
  si_keyed : keyed m;
  si_files : map_Forall (fun h b => h = blake3 b /\ exists s, bincode_snapshot s = Some b) (snapshot_files m);
}.

(** A full snapshot is saved under the hash of its bytes and looked for under
    the hash of its metadata. *)
Lemma full_load_collides m h s : snap_inv m -> load_full_snapshot m h = Ok s -> collision.
Proof using L.
  intros [_ Hs] Hl. unfold load_full_snapshot in Hl.
  destruct (snapshots m !! h) as [md|] eqn:Hm; [|done]. cbn [ok_or mbind outcome_bind] in Hl.
  destruct (snapshot_files m !! metadata_hash md) as [b|] eqn:Hb; [|done].
  destruct (Hs _ _ Hb) as (Hh & s0 & Hs0). destruct (snapshot_layout s0 b Hs0) as (a & rest & Ha & -> & Hrest).
  exists (default [] (bincode_metadata md)), (a ++ rest). split; [|done].
  destruct (bincode_metadata md) as [c|] eqn:Hc; cbn; intros He.
  - subst c. by apply Hrest, (metadata_prefix_free (metadata s0) md a).
  - symmetry in He. by apply app_eq_nil in He as [_ He].
Qed.

Lemma load_snapshot_collides fuel m h s : snap_inv m -> load_snapshot iter_meta fuel m h = Ok s -> collision.
Proof using L.
  intros Hm. revert h s. induction fuel as [|fuel IH]; intros h s Hl; [done|]. cbn [load_snapshot] in Hl.
  destruct (snapshots m !! h) as [md|] eqn:Hmd; [|done]. cbn [ok_or mbind outcome_bind] in Hl.
  destruct (is_incremental md) eqn:Hi.
  - unfold reconstruct_state_from_incremental in Hl. destruct (_ =? 0); [done|].
    apply outcome_bind_inv in Hl as (s0 & Hs0 & _). by apply (IH _ _ Hs0).
  - by apply (full_load_collides m h s).
Qed.

(** ** The invariant *)

Lemma snap_inv_put m height md s last :
  snap_inv m -> md_block_height md = height ->
  snap_inv (m <| snapshots ::= <[height := md]> |> <| current_state := s |> <| last_snapshot_height := last |>).
Proof. intros [I1 I2] Hk. destruct m. cbn in *. split; cbn; [by apply map_Forall_insert_2|done]. Qed.

Lemma snap_inv_put_one m height md :
  snap_inv m -> md_block_height md = height -> snap_inv (m <| snapshots ::= <[height := md]> |>).
Proof. intros [I1 I2] Hk. destruct m. cbn in *. split; cbn; [by apply map_Forall_insert_2|done]. Qed.

Lemma snap_inv_drop m height : snap_inv m -> snap_inv (drop_snapshot m height).
Proof.
  intros Hm. unfold drop_snapshot. destruct (snapshots m !! height) as [md|]; [|done].
  destruct Hm as [I1 I2]. destruct m, (is_incremental md); cbn in *; split; cbn; by try apply map_Forall_delete.
Qed.

Lemma snap_inv_cleanup m : snap_inv m -> snap_inv (cleanup_old_snapshots iter_meta m).
Proof.
  intros Hm. unfold cleanup_old_snapshots. destruct (_ <=? _); [done|]. apply foldl_inv; [done|].
  intros a h Ha. by apply snap_inv_drop.
Qed.

Definition good_file (k : FileKind) (h : Hash) (b : bytes) : Prop :=
  k = SnapshotFile -> h = blake3 b /\ exists s, bincode_snapshot s = Some b.

Lemma write_file_inv k h b e : good_file k h b -> preserves snap_inv (write_file write_ok k h b e).
Proof.
  intros Hg m Hm. unfold write_file. destruct (write_ok k h); [|done]. destruct Hm as [I1 I2].
  destruct m, k; cbn in *; split; cbn; try done. apply map_Forall_insert_2; [by apply Hg|done].
Qed.

Lemma preserves_ok_or {S E X Y} (I : S -> Prop) (o : option X) (e : E) (f : X -> stM S E Y) :
  (forall x, o = Some x -> preserves I (f x)) -> preserves I (lift (ok_or o e) ≫= f).
Proof. intros Hf s Hs. rewrite stM_bind_run. destruct o as [x|]; [|done]. by apply (Hf x). Qed.

Lemma save_snapshot_inv s : preserves snap_inv (save_snapshot write_ok s).
Proof.
  unfold save_snapshot. apply preserves_ok_or. intros b Hb.
  apply preserves_bind; [apply write_file_inv; intros _; eauto|intros _]. apply preserves_ok_or. intros md Hmd.
  apply preserves_bind; [by apply write_file_inv|intros _; apply preserves_ret].
Qed.

Lemma save_incremental_inv s : preserves snap_inv (save_incremental_snapshot write_ok s).
Proof.
  unfold save_incremental_snapshot. apply preserves_ok_or. intros b Hb.
  apply preserves_bind; [by apply write_file_inv|intros _]. apply preserves_ok_or. intros md Hmd.
  apply preserves_bind; [by apply write_file_inv|intros _; apply preserves_ret].
Qed.

Lemma create_snapshot_inv now h bh root utxos tickets mns props t :
  preserves snap_inv (create_snapshot write_ok iter_meta now h bh root utxos tickets mns props t).
Proof.
  unfold create_snapshot. apply preserves_bind; [apply save_snapshot_inv|intros id].
  apply preserves_bind; [by intros m Hm; destruct (get_snapshot_size id m)|intros size].
  apply preserves_bind; [apply preserves_modify; intros m Hm; by apply snap_inv_put|intros _].
  apply preserves_bind; [apply preserves_modify, snap_inv_cleanup|intros _; apply preserves_ret].
Qed.

Lemma create_incremental_inv now h bh root utxos tickets mns props :
  preserves snap_inv (create_incremental_snapshot write_ok now h bh root utxos tickets mns props).
Proof.
  intros m Hm. unfold create_incremental_snapshot. generalize (metadata_hash <$> snapshots m !! last_snapshot_height m).
  intros parent. destruct (negb _); [done|]. revert m Hm.
  set (md := mkSnapshotMetadata h bh root now 0 true parent 1).
  change (preserves snap_inv (save_incremental_snapshot write_ok (mkIncrementalSnapshot md utxos tickets mns props ∅) ≫= fun id =>
    (fun m => (m, get_incremental_snapshot_size id m)) ≫= fun size =>
    modify (fun m => m <| snapshots ::= <[h := md <| size_bytes := size |> ]> |>);; mret id)).
  apply preserves_bind; [apply save_incremental_inv|intros id].
  apply preserves_bind; [by intros m Hm; destruct (get_incremental_snapshot_size id m)|intros size].
  apply preserves_bind; [apply preserves_modify; intros m Hm; by apply snap_inv_put_one|intros _; apply preserves_ret].
Qed.

Lemma load_existing_inv m : snap_inv m -> snap_inv (load_existing_snapshots iter_files m).
Proof.
  intros Hm. unfold load_existing_snapshots. apply foldl_inv; [done|]. clear m Hm. intros m f Hm. unfold load_step.
  destruct (metadata_of_bytes f.2) as [md|]; [|done].
  assert (Hput : snap_inv (m <| snapshots ::= <[md_block_height md := md]> |>)) by (by apply snap_inv_put_one).
  destruct (_ <? _); [|done]. destruct Hput as [I1 I2]. by destruct m.
Qed.

(** ** The manager as a state machine *)

Inductive snap_op : Type :=
| SCreate (now h : Z) (bh root : Hash) (utxos : UtxoSet) (tickets : LiveTicketsPool) (mns : gmap bytes bytes)
    (props : ActiveProposals) (t : MerklePatriciaTrie)
| SIncremental (now h : Z) (bh root : Hash) (utxos : gmap OutPoint (option Utxo)) (tickets : gmap TicketId (option TicketData))
    (mns props : gmap bytes (option bytes))
| SRollback (fuel : nat) (target : Z)
| SReopen.

Definition reopen m : SnapshotManager :=
  SnapshotManager_new iter_files (sm_config m) (snapshot_files m) (inc_files m) (meta_files m).

Definition snap_exec m (op : snap_op) : SnapshotManager :=
  match op with
  | SCreate now h bh root utxos tickets mns props t =>
      fst (create_snapshot write_ok iter_meta now h bh root utxos tickets mns props t m)
  | SIncremental now h bh root utxos tickets mns props =>
      fst (create_incremental_snapshot write_ok now h bh root utxos tickets mns props m)
  | SRollback fuel target => fst (snapshot_rollback iter_meta fuel target m)
  | SReopen => reopen m
  end.

Lemma snap_exec_inv m op : snap_inv m -> snap_inv (snap_exec m op).
Proof.
  intros Hm. destruct op; cbn [snap_exec].
  - apply preserves_fst; [apply create_snapshot_inv|done].
  - apply preserves_fst; [apply create_incremental_inv|done].
  - unfold snapshot_rollback. destruct (rollback_height iter_meta m target) as [h|]; [|done].
    destruct (load_snapshot _ _ _ _); try done. cbn. destruct Hm, m. by split.
  - unfold reopen, SnapshotManager_new. apply load_existing_inv. destruct Hm as [_ I2].
    split; cbn; [apply map_Forall_empty|done].
Qed.

(** The manager of a directory that was empty, after some operations. *)
Definition snap_run (config : SnapshotConfig) (ops : list snap_op) : SnapshotManager :=
  foldl snap_exec (SnapshotManager_new iter_files config ∅ ∅ ∅) ops.

Lemma snap_run_inv config ops : snap_inv (snap_run config ops).
Proof.
  unfold snap_run. apply foldl_inv; [|intros a op; apply snap_exec_inv].
  unfold SnapshotManager_new. apply load_existing_inv. split; cbn; try done; apply map_Forall_empty.
Qed.

(** No snapshot is ever loaded, whatever was saved, reopened or cleaned up
    before: a load that returns one exhibits two strings with the same hash. *)
Theorem no_snapshot_is_ever_loaded config ops fuel h s :
  load_snapshot iter_meta fuel (snap_run config ops) h = Ok s -> exists a b : bytes, a <> b /\ blake3 a = blake3 b.
Proof using L. apply load_snapshot_collides, snap_run_inv. Qed.

(** ** Cleaning up *)

Lemma drop_fold_snapshots m l : snapshots (foldl drop_snapshot m l) = foldl (fun s h => delete h s) (snapshots m) l.
Proof.
  revert m. induction l as [|h l IH]; intros m; [done|]. cbn [foldl]. rewrite IH. f_equal. unfold drop_snapshot.
  destruct (snapshots m !! h) as [md|] eqn:Hm; [by destruct m, (is_incremental md)|]. by rewrite delete_id.
Qed.

Lemma sorted_heights_facts m :
  StronglySorted Z.le (sorted_heights iter_meta m) /\ NoDup (sorted_heights iter_meta m) /\
  (forall h, h ∈ sorted_heights iter_meta m <-> is_Some (snapshots m !! h)) /\
  length (sorted_heights iter_meta m) = size (snapshots m).
Proof using iter_meta_lists.
  assert (Hp : sorted_heights iter_meta m ≡ₚ (map_to_list (snapshots m)).*1).
  { unfold sorted_heights. rewrite sort_by_perm. by rewrite iter_meta_lists. }
  split_and!.
  - apply (sort_by_sorted Z.leb Z.le); intros x y; [apply Z.leb_le|]. intros Hxy%Z.leb_gt. lia.
  - rewrite Hp. apply NoDup_fst_map_to_list.
  - intros h. rewrite Hp, list_elem_of_fmap. split.
    + intros ([k md] & -> & Hk). apply elem_of_map_to_list in Hk. eauto.
    + intros [md Hmd]. exists (h, md). split; [done|]. by apply elem_of_map_to_list.
  - by rewrite (Permutation_length Hp), length_fmap, length_map_to_list.
Qed.

(** Cleaning up leaves at most the configured number of snapshots, and of those
    there were the highest. *)
Theorem cleanup_keeps_newest m :
  0 <= max_snapshots (sm_config m) ->
  let m' := cleanup_old_snapshots iter_meta m in
  Z.of_nat (size (snapshots m')) = Z.min (Z.of_nat (size (snapshots m))) (max_snapshots (sm_config m)) /\
  snapshots m' ⊆ snapshots m /\
  (forall kept gone, is_Some (snapshots m' !! kept) -> is_Some (snapshots m !! gone) -> snapshots m' !! gone = None -> gone < kept).
Proof using iter_meta_lists.
  intros Hmax. cbn zeta. unfold cleanup_old_snapshots.
  destruct (Z.leb_spec (Z.of_nat (size (snapshots m))) (max_snapshots (sm_config m))) as [Hle|Hgt].
  { split; [lia|]. split; [done|]. intros k g _ [md Hg] Hn. congruence. }
  destruct (sorted_heights_facts m) as (Hs & Hnd & Hin & Hlen). set (hs := sorted_heights iter_meta m) in *.
  set (n := (length hs - Z.to_nat (max_snapshots (sm_config m)))%nat).
  rewrite drop_fold_snapshots. set (s' := foldl _ _ _).
  assert (Hl : forall h, s' !! h = if bool_decide (h ∈ take n hs) then None else snapshots m !! h) by (intros h; apply deletes_lookup).
  assert (Hkeys : dom s' = list_to_set (drop n hs)).
  { apply set_eq. intros h. rewrite elem_of_dom, elem_of_list_to_set, Hl.
    rewrite <- (take_drop n hs) in Hnd. apply NoDup_app in Hnd as (_ & Hd & _).
    specialize (Hin h). rewrite <- (take_drop n hs), elem_of_app in Hin. case_bool_decide as Ht.
    - split; [by intros []|]. intros Hx. by destruct (Hd h Ht Hx).
    - rewrite <- Hin. tauto. }
  split_and!.
  - rewrite <- size_dom, Hkeys, size_list_to_set, length_drop by (rewrite <- (take_drop n hs) in Hnd; by apply NoDup_app in Hnd as (_ & _ & ?)). unfold n. lia.
  - apply map_subseteq_spec. intros h md. rewrite Hl. by case_bool_decide.
  - intros k g Hk Hg Hn. rewrite Hl in Hn. case_bool_decide as Hgt'; [|by destruct Hg as [? Hg]; rewrite Hg in Hn].
    apply elem_of_dom in Hk. rewrite Hkeys, elem_of_list_to_set in Hk.
    rewrite <- (take_drop n hs) in Hs, Hnd. apply NoDup_app in Hnd as (_ & Hd & _).
    assert (Hle : g <= k) by (by apply (StronglySorted_app_1_elem_of Z.le (take n hs) (drop n hs))).
    assert (g <> k) by (intros ->; by apply (Hd k Hgt')). lia.
Qed.

(** When a snapshot is due: below the height of the last one, always. *)
Theorem snapshot_due_iff m h :
  0 <= last_snapshot_height m < 2 ^ 64 -> 0 <= h < 2 ^ 64 ->
  should_create_snapshot m h = true <->
  0 < h /\ (if h <? last_snapshot_height m then snapshot_interval (sm_config m) <= 2 ^ 64 - (last_snapshot_height m - h)
            else snapshot_interval (sm_config m) <= h - last_snapshot_height m).
Proof.
  intros Hl Hh. unfold should_create_snapshot. rewrite andb_true_iff, Z.ltb_lt, Z.leb_le.
  assert (Hw : wrap64 (h - last_snapshot_height m) =
    if h <? last_snapshot_height m then 2 ^ 64 - (last_snapshot_height m - h) else h - last_snapshot_height m).
  { unfold wrap64. destruct (Z.ltb_spec h (last_snapshot_height m)).
    - rewrite <- (Z.mod_add _ 1) by lia. rewrite Z.mod_small; lia.
    - rewrite Z.mod_small; lia. }
  rewrite Hw. by destruct (_ <? _).
Qed.

End SnapshotTheorems.

(** * Theorems: fast synchronisation *)

Section FastSyncTheorems.
  Context (iter_peers : gmap string (list PeerSnapshot) -> list (string * list PeerSnapshot)).
  Context (iter_peers_lists : forall m, iter_peers m ≡ₚ map_to_list m).
  Implicit Types (m : FastSyncManager).

Abbreviation offer_height := (fun s => md_block_height (ps_metadata s)).

Lemma elem_of_offers m s :
  s ∈ offers iter_peers m <-> exists peer l, peer_snapshots m !! peer = Some l /\ s ∈ l.
Proof using iter_peers_lists.
  unfold offers. rewrite list_elem_of_In, in_concat. setoid_rewrite <- list_elem_of_In. split.
  - intros (l & Hl & Hs). apply list_elem_of_fmap in Hl as ([peer l'] & -> & Hl). rewrite iter_peers_lists in Hl.
    apply elem_of_map_to_list in Hl. eauto.
  - intros (peer & l & Hl & Hs). exists l. split; [|done]. apply list_elem_of_fmap. exists (peer, l). split; [done|].
    rewrite iter_peers_lists. by apply elem_of_map_to_list.
Qed.

Lemma offer_order a b :
  (offer_le a b = true -> offer_height b <= offer_height a) /\ (offer_le a b = false -> offer_height a <= offer_height b).
Proof.
  unfold offer_le, not_greater, then_with. destruct (Z.compare_spec (md_block_height (ps_metadata b)) (md_block_height (ps_metadata a))); cbn; split; intros; discriminate || lia.
Qed.

(** The snapshot that is chosen is a full one, offered by a peer, far enough
    ahead, the highest of these, and offered often enough at its height. *)
Theorem selected_snapshot_spec h m md :
  select_best_snapshot iter_peers h m = Ok md ->
  (exists peer l s, peer_snapshots m !! peer = Some l /\ s ∈ l /\ ps_metadata s = md) /\
  is_incremental md = false /\ u64_add h (min_snapshot_age (fs_config m)) < md_block_height md /\
  (forall s, s ∈ offers iter_peers m -> suitable m h s = true -> md_block_height (ps_metadata s) <= md_block_height md) /\
  min_peers (fs_config m) <=
    len (filter (fun s => suitable m h s = true /\ md_block_height (ps_metadata s) = md_block_height md) (offers iter_peers m)).
Proof using iter_peers_lists.
  unfold select_best_snapshot. set (cs := filter _ (offers iter_peers m)).
  destruct (sort_by offer_le cs) as [|best l] eqn:Hs; [done|].
  assert (Hp : best :: l ≡ₚ cs) by (rewrite <- Hs; apply sort_by_perm).
  destruct (_ <? min_peers (fs_config m)) eqn:Hc; [done|]. apply Z.ltb_ge in Hc.
  intros [= <-]. assert (Hb : best ∈ cs) by (rewrite <- Hp; left). apply list_elem_of_filter in Hb as [Hsuit Hb].
  split_and!.
  - apply elem_of_offers in Hb as (peer & k & Hk & Hbk). by exists peer, k, best.
  - unfold suitable in Hsuit. apply andb_true_iff in Hsuit as [_ H2]. by apply negb_true_iff in H2.
  - unfold suitable in Hsuit. apply andb_true_iff in Hsuit as [H1 _]. by apply Z.ltb_lt in H1.
  - intros s Hso Hsu. assert (Hsc : s ∈ best :: l) by (rewrite Hp; by apply list_elem_of_filter).
    assert (Transitive (fun a b : PeerSnapshot => offer_height b <= offer_height a)) by (intros x y z; cbn; lia).
    pose proof (sort_by_sorted offer_le (fun a b => offer_height b <= offer_height a)
      (fun a b => proj1 (offer_order a b)) (fun a b => proj2 (offer_order a b)) cs) as Hsort.
    rewrite Hs in Hsort. apply StronglySorted_inv in Hsort as [_ Hall]. rewrite Forall_forall in Hall.
    apply elem_of_cons in Hsc as [->|Hsc]; [lia|]. by apply Hall.
  - etrans; [exact Hc|]. apply Z.eq_le_incl. unfold len. f_equal. rewrite (Permutation_length (filter_Permutation _ _ _ Hp)).
    unfold cs. f_equal. rewrite list_filter_filter. apply list_filter_iff. intros s. tauto.
Qed.

(** The offers of a peer are counted as often as it makes them. *)
Definition offered (n : nat) (peer : string) (md : SnapshotMetadata) (height : Z) m : FastSyncManager :=
  Nat.iter n (fs_add_peer_snapshot peer md height) m.

Lemma offered_facts n peer md height config :
  fs_config (offered n peer md height (FastSyncManager_new config)) = config /\
  default [] (peer_snapshots (offered n peer md height (FastSyncManager_new config)) !! peer) =
    replicate n (mkPeerSnapshot peer md height (f64_of_Z 1)) /\
  (forall q, q <> peer -> peer_snapshots (offered n peer md height (FastSyncManager_new config)) !! q = None).
Proof.
  induction n as [|n (IH1 & IH2 & IH3)]; [done|].
  change (offered (S n) peer md height (FastSyncManager_new config))
    with (fs_add_peer_snapshot peer md height (offered n peer md height (FastSyncManager_new config))).
  generalize dependent (offered n peer md height (FastSyncManager_new config)). intros m IH1 IH2 IH3.
  unfold fs_add_peer_snapshot. destruct m. cbn [fs_config peer_snapshots] in *. split; [done|]. split.
  - cbn -[f64_of_Z]. rewrite lookup_insert_eq. cbn -[f64_of_Z]. rewrite IH2. change [mkPeerSnapshot peer md height (f64_of_Z 1)] with (replicate 1 (mkPeerSnapshot peer md height (f64_of_Z 1))).
    by rewrite <- replicate_add, Nat.add_1_r.
  - intros q Hq. cbn -[f64_of_Z]. rewrite lookup_insert_ne by done. by apply IH3.
Qed.

(** One peer suffices to have its snapshot chosen: it repeats its offer. *)
Theorem one_peer_suffices n peer md height config h :
  is_incremental md = false -> u64_add h (min_snapshot_age config) < md_block_height md ->
  min_peers config <= Z.of_nat n -> (0 < n)%nat ->
  select_best_snapshot iter_peers h (offered n peer md height (FastSyncManager_new config)) = Ok md.
Proof using iter_peers_lists.
  intros Hi Hh Hn H0. destruct (offered_facts n peer md height config) as (Hc & Hp & Hq).
  set (m := offered n peer md height (FastSyncManager_new config)) in *. set (o := mkPeerSnapshot peer md height (f64_of_Z 1)) in *.
  assert (Hm : peer_snapshots m = {[ peer := replicate n o ]}).
  { apply map_eq. intros q. destruct (decide (q = peer)) as [->|Hne].
    - rewrite lookup_singleton_eq. destruct (peer_snapshots m !! peer) as [l|]; cbn in Hp; [by rewrite Hp|].
      destruct n; [lia|done].
    - rewrite lookup_singleton_ne by done. by apply Hq. }
  assert (Ho : offers iter_peers m = replicate n o).
  { unfold offers. rewrite Hm. pose proof (iter_peers_lists {[peer := replicate n o]}) as Hl.
    rewrite map_to_list_singleton in Hl. apply Permutation_singleton_r in Hl. rewrite Hl. cbn. by rewrite app_nil_r. }
  assert (Hsu : suitable m h o = true).
  { unfold suitable. rewrite Hc. cbn. rewrite Hi, andb_true_r. by apply Z.ltb_lt. }
  unfold select_best_snapshot. rewrite Ho, (filter_keeps _ (replicate n o)) by (by apply Forall_replicate).
  assert (Hs : sort_by offer_le (replicate n o) = replicate n o).
  { symmetry. apply replicate_Permutation. symmetry. apply sort_by_perm. }
  rewrite Hs. destruct n as [|n]; [lia|]. cbn [replicate].
  rewrite (filter_keeps _ (o :: replicate n o)) by (constructor; [done|by apply Forall_replicate]).
  unfold len. cbn [length]. rewrite length_replicate, Hc. destruct (Z.ltb_spec (Z.of_nat (S n)) (min_peers config)); [lia|done].
Qed.

(** Starting leaves the offers alone and ends as the choice of a snapshot does. *)
Lemma start_fast_sync_cases now h m :
  let m1 := m <| fs_status := DiscoveringSnapshots |> <| sync_start_time := Some now |> in
  start_fast_sync iter_peers now h m =
  match select_best_snapshot iter_peers h m with
  | Ok md => (m1 <| target_snapshot := Some md |> <| fs_status := SyncCompleted |>, Ok tt)
  | Err e => (m1, Err e)
  | Panic => (m1, Panic)
  | OutOfFuel => (m1, OutOfFuel)
  end.
Proof.
  cbn zeta. unfold start_fast_sync. rewrite stM_bind_run. cbn [modify]. rewrite stM_bind_run. cbn [discover_snapshots mret stM_ret].
  rewrite stM_bind_run. set (m1 := m <| fs_status := DiscoveringSnapshots |> <| sync_start_time := Some now |>).
  assert (Hsel : select_best_snapshot iter_peers h m1 = select_best_snapshot iter_peers h m) by (by destruct m).
  rewrite Hsel. destruct (select_best_snapshot iter_peers h m) as [md|e| |]; [|done..].
  clear Hsel. subst m1. by destruct m as [[? ? ? ? [] ?] ? ? ? ?].
Qed.

End FastSyncTheorems.

(** * Examples *)

#[export] Instance SnapshotMetadata_eq_dec : EqDecision SnapshotMetadata.
Proof. solve_decision. Defined.

#[export] Program Instance SnapshotMetadata_countable : Countable SnapshotMetadata :=
  inj_countable' (fun m => (md_block_height m, md_block_hash m, md_state_root m, md_timestamp m, size_bytes m,
                            is_incremental m, parent_snapshot m, md_version m))
    (fun '(a, b, c, d, e, f, g, h) => mkSnapshotMetadata a b c d e f g h) _.
Next Obligation. by intros []. Qed.

(** Metadata is one number; a snapshot adds another, and is read back without
    its maps. *)
Definition sample_snapshot_codec : SnapshotCodec := {|
  bincode_metadata md := Some [Z.pos (encode md)];
  metadata_of_bytes b := match b with [Z.pos p] => decode p | _ => None end;
  bincode_snapshot s := Some [Z.pos (encode (metadata s)); 1];
  snapshot_of_bytes b := match b with
                         | [Z.pos p; _] => (fun md => mkStateSnapshot md ∅ ∅ ∅ ∅ ∅ ∅) <$> decode p
                         | _ => None
                         end;
  bincode_incremental s := Some [Z.pos (encode (inc_metadata s))];
|}.

Lemma sample_snapshot_laws : @SnapshotCodecLaws sample_snapshot_codec.
Proof.
  split.
  - intros s b [= <-]. by eexists _, [1].
  - intros m m' a rest [= <-] [= _ <-]. done.
Qed.

(** A hash with collisions: every string has the same. *)
Definition constant_primitives : Primitives := {|
  blake3 _ := [];
  sha1 _ := [];
  sha256 _ := [];
  ripemd160 _ := [];
  DalekPublicKey := bytes;
  DalekSignature := bytes;
  public_key_from_bytes b := None;
  signature_from_bytes b := None;
  ed25519_verify pk m sig := false;
  bincode_transaction _ := None;
  bincode_header _ := None;
  bincode_block _ := None;
|}.

Definition sample_metadata (h : Z) (incremental : bool) : SnapshotMetadata :=
  mkSnapshotMetadata h [] [] 0 0 incremental None 1.

Definition many_snapshots : SnapshotManager :=
  mkSnapshotManager (SnapshotConfig_default <| max_snapshots := 2 |>)
    (list_to_map ((fun h => (h, sample_metadata h (h =? 3))) <$> [1; 2; 3; 4])) None 4 ∅ ∅ ∅.

Lemma incremental_load_never_returns_witness :
  forall fuel, load_snapshot (SC := sample_snapshot_codec) map_to_list fuel many_snapshots 3 = OutOfFuel.
Proof.
  apply (incremental_load_never_returns (SC := sample_snapshot_codec) map_to_list (fun m => Permutation_refl _) many_snapshots 3 (sample_metadata 3 true)).
  - apply (bool_decide_eq_true_1 _). vm_compute. reflexivity.
  - reflexivity.
  - reflexivity.
  - lia.
Defined.

Lemma cleanup_keeps_newest_witness :
  Z.of_nat (size (snapshots (cleanup_old_snapshots (P := sample_primitives) (SC := sample_snapshot_codec) map_to_list many_snapshots))) = 2.
Proof.
  rewrite (proj1 (cleanup_keeps_newest (P := sample_primitives) (SC := sample_snapshot_codec) map_to_list (fun m => Permutation_refl _)
    many_snapshots ltac:(vm_compute; discriminate))). vm_compute. reflexivity.
Defined.

Lemma snapshot_due_iff_witness : should_create_snapshot many_snapshots 3 = true.
Proof.
  apply (snapshot_due_iff many_snapshots 3).
  - vm_compute. split; [discriminate|reflexivity].
  - lia.
  - split; [lia|]. vm_compute. discriminate.
Defined.

Lemma one_peer_suffices_witness :
  select_best_snapshot map_to_list 5 (offered 3 "p" (sample_metadata 2000 false) 2100 (FastSyncManager_new FastSyncConfig_default)) =
  Ok (sample_metadata 2000 false).
Proof.
  apply (one_peer_suffices map_to_list (fun m => Permutation_refl _) 3 "p" (sample_metadata 2000 false) 2100 FastSyncConfig_default 5).
  - reflexivity.
  - vm_compute. reflexivity.
  - cbn. lia.
  - lia.
Defined.

Lemma selected_snapshot_spec_witness :
  u64_add 5 10 < md_block_height (sample_metadata 2000 false).
Proof.
  set (m := offered 3 "p" (sample_metadata 2000 false) 2100 (FastSyncManager_new FastSyncConfig_default)).
  assert (Hs : select_best_snapshot map_to_list 5 m = Ok (sample_metadata 2000 false)) by (vm_compute; reflexivity).
  exact (proj1 (proj2 (proj2 (selected_snapshot_spec map_to_list (fun m => Permutation_refl _) 5 m (sample_metadata 2000 false) Hs)))).
Defined.

Definition saved_once : list snap_op := [SCreate 0 5 [] [] ∅ ∅ ∅ ∅ (mkTrie [] ∅ None)].

Lemma no_snapshot_is_ever_loaded_witness :
  exists a b : bytes, a <> b /\ @blake3 constant_primitives a = @blake3 constant_primitives b.
Proof.
  set (m := @snap_run constant_primitives sample_trie_codec sample_snapshot_codec (fun _ _ => true) map_to_list map_to_list
    SnapshotConfig_default saved_once).
  assert (Ho : is_ok (@load_snapshot constant_primitives sample_snapshot_codec map_to_list 2 m 5) = true) by (vm_compute; reflexivity).
  destruct (@load_snapshot constant_primitives sample_snapshot_codec map_to_list 2 m 5) as [s|e| |] eqn:Hl; try discriminate Ho.
  exact (@no_snapshot_is_ever_loaded constant_primitives sample_trie_codec sample_snapshot_codec sample_snapshot_laws (fun _ _ => true)
    map_to_list map_to_list SnapshotConfig_default saved_once 2 5 s Hl).
Defined.
