(* ===== verification/StateManager.v ===== *)
(** The state manager (src/rusty-core/src/state/state_manager.rs): it keeps
    the trie of the current state, the proofs made from it, the snapshots and
    the fast synchronisation together.

    [map_to_list] stands for the iteration orders of the maps a trie is built
    from; the other parameters are those of Snapshots. *)

From Stdlib Require Import ZArith Lia List.
From stdpp Require Import base option list numbers strings gmap.
From coqutil Require Import Datatypes.RecordSetters.
From S2P Require Import Prelude Types Errors Transaction SamplePrimitives UtxoSet F64 LiveTickets GovernanceState ChainState Trie.
From S2P Require Import StateProofs LightClient Snapshots.

Import TriangleBracketNotations.
#[local] Open Scope Z_scope.

Record StateManagerConfig : Type := mkStateManagerConfig {
  stm_proof_config : ProofConfig;
  stm_snapshot_config : SnapshotConfig;
  stm_fast_sync_config : FastSyncConfig;
  enable_fast_sync : bool;
  enable_auto_snapshots : bool;
  enable_proof_caching : bool;
}.

Definition StateManagerConfig_default : StateManagerConfig :=
  mkStateManagerConfig ProofConfig_default SnapshotConfig_default FastSyncConfig_default true true true.

Record StateManager : Type := mkStateManager {
  stm_config : StateManagerConfig;
  stm_trie : MerklePatriciaTrie;
  proof_manager : StateProofManager;
  snapshot_manager : SnapshotManager;
  fast_sync_coordinator : option FastSyncCoordinator;
  stm_height : Z;
  stm_root : Hash;
}.

Abbreviation managerM := (stM StateManager CE.ConsensusError).

Section Manager.
  Context `{P : Primitives, TC : TrieCodec, PS : ProofSizes, SC : SnapshotCodec}.
  Context (write_ok : FileKind -> Hash -> bool).
  Context (iter_files : gmap Hash bytes -> list (Hash * bytes)).
  Context (iter_meta : gmap Z SnapshotMetadata -> list (Z * SnapshotMetadata)).
  Context (iter_peers : gmap string (list PeerSnapshot) -> list (string * list PeerSnapshot)).

(** The snapshot directory holds these files. *)
Definition StateManager_new (config : StateManagerConfig) (snaps incs metas : gmap Hash bytes) : StateManager :=
  mkStateManager config Trie_new (StateProofManager_new (stm_proof_config config) Trie_new)
    (SnapshotManager_new iter_files (stm_snapshot_config config) snaps incs metas)
    (if enable_fast_sync config then Some (FastSyncCoordinator_new (stm_fast_sync_config config) true) else None)
    0 (replicate 32 0).

(** Run a computation of the snapshot manager. *)
Definition on_snapshots {X} (c : snapM X) : managerM X := fun m =>
  let '(s, r) := c (snapshot_manager m) in (m <| snapshot_manager := s |>, r).

Definition state_create_snapshot (now : Z) (block_hash : Hash) (utxo_set : UtxoSet) (live_tickets : LiveTicketsPool)
    (masternode_list : gmap bytes bytes) (active_proposals : ActiveProposals) : managerM Hash := fun m =>
  (on_snapshots (create_snapshot write_ok iter_meta now (stm_height m) block_hash (stm_root m) utxo_set live_tickets
     masternode_list active_proposals (stm_trie m));;
   mret block_hash) m.

Definition set_proofs (m : StateManager) : StateManager :=
  m <| proof_manager := StateProofManager_new (stm_proof_config (stm_config m)) (stm_trie m) |>.

Definition state_trie (utxo_set : UtxoSet) (live_tickets : LiveTicketsPool) (masternode_list : gmap bytes bytes)
    (active_proposals : ActiveProposals) : outcome CE.ConsensusError MerklePatriciaTrie :=
  from_state_data (map_to_list utxo_set) (map_to_list (ticket_map live_tickets)) (map_to_list masternode_list)
    (map_to_list (proposal_map active_proposals)).

Definition update_state (now block_height : Z) (block_hash : Hash) (utxo_set : UtxoSet) (live_tickets : LiveTicketsPool)
    (masternode_list : gmap bytes bytes) (active_proposals : ActiveProposals) : managerM Hash :=
  trie ← lift (state_trie utxo_set live_tickets masternode_list active_proposals);
  modify (fun m => set_proofs (m <| stm_trie := trie |> <| stm_height := block_height |> <| stm_root := trie_root_hash trie |>));;
  m ← gets Datatypes.id;
  (if enable_auto_snapshots (stm_config m) && should_create_snapshot (snapshot_manager m) block_height
   then state_create_snapshot now block_hash utxo_set live_tickets masternode_list active_proposals;; mret tt
   else mret tt);;
  gets stm_root.

Definition snapshot_trie (s : StateSnapshot) : outcome CE.ConsensusError MerklePatriciaTrie :=
  from_state_data (map_to_list (snap_utxo_set s)) (map_to_list (snap_live_tickets s)) (map_to_list (snap_masternode_list s))
    (map_to_list (snap_active_proposals s)).

Definition rollback_to_height (fuel : nat) (target_height : Z) : managerM StateSnapshot :=
  s ← on_snapshots (snapshot_rollback iter_meta fuel target_height);
  trie ← lift (snapshot_trie s);
  modify (fun m => set_proofs (m <| stm_trie := trie |> <| stm_height := md_block_height (metadata s) |>
                                 <| stm_root := md_state_root (metadata s) |>));;
  mret s.

(** The height and the root are set before the trie is built. *)
Definition load_state_from_snapshot (fuel : nat) (block_height : Z) : managerM unit := fun m =>
  (s ← lift (load_snapshot iter_meta fuel (snapshot_manager m) block_height);
   modify (fun m => m <| stm_height := md_block_height (metadata s) |> <| stm_root := md_state_root (metadata s) |>);;
   trie ← lift (snapshot_trie s);
   modify (fun m => set_proofs (m <| stm_trie := trie |>))) m.

Definition on_fast_sync (f : FastSyncCoordinator -> FastSyncCoordinator) (m : StateManager) : StateManager :=
  m <| fast_sync_coordinator ::= fmap f |>.

Definition maybe_start_fast_sync (now network_height : Z) : managerM bool := fun m =>
  match fast_sync_coordinator m with
  | Some c =>
      let '(c, r) := coordinator_fast_sync iter_peers now (stm_height m) network_height c in
      (m <| fast_sync_coordinator := Some c |>, r)
  | None => (m, Ok false)
  end.

Definition add_peer_snapshot (peer_id : string) (md : SnapshotMetadata) (peer_height : Z) : StateManager -> StateManager :=
  on_fast_sync (coordinator_add_snapshot peer_id md peer_height).
Definition remove_peer_snapshots (peer_id : string) : StateManager -> StateManager :=
  on_fast_sync (coordinator_remove_snapshots peer_id).
Definition set_fast_sync_enabled (enabled : bool) : StateManager -> StateManager := on_fast_sync (set_fast_sync enabled).
Definition state_clear_proof_cache (m : StateManager) : StateManager := m <| proof_manager ::= clear_proof_cache |>.

Definition get_fast_sync_status (m : StateManager) : FastSyncStatus :=
  default NotStarted ((fun c => fs_status (fast_sync_manager c)) <$> fast_sync_coordinator m).

Definition validate_state_integrity (m : StateManager) : bool := bool_decide (trie_root_hash (stm_trie m) = stm_root m).

Record StateManagerStats : Type := mkStateManagerStats {
  sms_height : Z;
  sms_root : Hash;
  sms_trie_nodes : Z;
  sms_proofs : ProofStats;
  sms_snapshots : SnapshotStats;
  sms_fast_sync : FastSyncStats;
  sms_config : StateManagerConfig;
}.

Definition state_get_stats (now : Z) (m : StateManager) : StateManagerStats :=
  mkStateManagerStats (stm_height m) (stm_root m) (Z.of_nat (size (nodes (stm_trie m)))) (get_proof_stats (proof_manager m))
    (snapshot_get_stats iter_meta (snapshot_manager m))
    (default (mkFastSyncStats NotStarted 0 None 0 0)
       ((fun c => fast_sync_get_stats iter_peers now (fast_sync_manager c)) <$> fast_sync_coordinator m))
    (stm_config m).

(** The proofs are those of the proof manager. *)
#[export] Instance state_manager_interface : LightClientProofInterface StateManager := {|
  request_utxo_proof m := generate_utxo_proof (proof_manager m);
  request_utxo_batch_proof m := generate_utxo_batch_proof (proof_manager m);
  request_ticket_proof m := generate_ticket_proof (proof_manager m);
  request_masternode_proof m := generate_masternode_proof (proof_manager m);
  request_governance_proof m := generate_governance_proof (proof_manager m);
|}.

(** * Theorems *)

Implicit Types (m : StateManager).

(** The state a manager serves proofs from is the one it reports. *)
Record consistent m : Prop := {
  con_proofs : proof_trie (proof_manager m) = stm_trie m;
  con_wf : trie_wf (stm_trie m);
  con_root : stm_root m = trie_root_hash (stm_trie m) \/
    (stm_trie m = Trie_new /\ stm_height m = 0 /\ stm_root m = replicate 32 0);
  con_snapshots : snap_inv (snapshot_manager m);
}.

Lemma consistent_new config : consistent (StateManager_new config ∅ ∅ ∅).
Proof.
  split; cbn; [done|apply trie_wf_new|by right|]. apply load_existing_inv. split; cbn; [apply map_Forall_empty|done].
Qed.

Lemma consistent_set_trie m h trie :
  consistent m -> trie_wf trie ->
  consistent (set_proofs (m <| stm_trie := trie |> <| stm_height := h |> <| stm_root := trie_root_hash trie |>)).
Proof. intros [C1 C2 C3 C4] Hw. destruct m. split; cbn in *; unfold RecordSetters.constant; try done. by left. Qed.

Lemma state_snapshot_inv now bh utxos tickets mns props :
  preserves consistent (state_create_snapshot now bh utxos tickets mns props).
Proof.
  intros m Hm. unfold state_create_snapshot. rewrite stM_bind_run. unfold on_snapshots.
  pose proof (create_snapshot_inv write_ok iter_meta now (stm_height m) bh (stm_root m) utxos tickets mns props (stm_trie m)
    (snapshot_manager m) (con_snapshots m Hm)) as Hs.
  destruct (create_snapshot _ _ _ _ _ _ _ _ _ _ _ _) as [s r].
  assert (Hs' : snap_inv s) by (by destruct r). assert (consistent (m <| snapshot_manager := s |>)) by (destruct Hm, m; by split).
  by destruct r.
Qed.

Lemma update_state_inv now h bh utxos tickets mns props :
  preserves consistent (update_state now h bh utxos tickets mns props).
Proof.
  intros m Hm. unfold update_state. rewrite stM_bind_run. cbn [lift].
  destruct (state_trie utxos tickets mns props) as [t|e| |] eqn:Ht; try done.
  assert (Hw : trie_wf t) by (by apply (from_state_data_wf _ _ _ _ _ Ht)).
  rewrite stM_bind_run. cbn [modify]. set (m1 := set_proofs _).
  assert (H1 : consistent m1) by (by apply consistent_set_trie). rewrite stM_bind_run. cbn [gets].
  revert H1. generalize m1. clear m m1 Hm. intros m Hm.
  destruct (_ && _); rewrite stM_bind_run; [|done]. rewrite stM_bind_run.
  pose proof (state_snapshot_inv now bh utxos tickets mns props m Hm) as Hs.
  by destruct (state_create_snapshot now bh utxos tickets mns props m) as [m' [x|e| |]].
Qed.

(** ** The manager as a state machine *)

Inductive state_op : Type :=
| StUpdate (now h : Z) (bh : Hash) (utxos : UtxoSet) (tickets : LiveTicketsPool) (mns : gmap bytes bytes) (props : ActiveProposals)
| StSnapshot (now : Z) (bh : Hash) (utxos : UtxoSet) (tickets : LiveTicketsPool) (mns : gmap bytes bytes) (props : ActiveProposals)
| StRollback (fuel : nat) (target : Z)
| StLoad (fuel : nat) (h : Z)
| StFastSync (now network_height : Z)
| StOffer (peer : string) (md : SnapshotMetadata) (h : Z)
| StForget (peer : string)
| StEnable (enabled : bool)
| StClear.

Definition state_exec m (op : state_op) : StateManager :=
  match op with
  | StUpdate now h bh utxos tickets mns props => fst (update_state now h bh utxos tickets mns props m)
  | StSnapshot now bh utxos tickets mns props => fst (state_create_snapshot now bh utxos tickets mns props m)
  | StRollback fuel target => fst (rollback_to_height fuel target m)
  | StLoad fuel h => fst (load_state_from_snapshot fuel h m)
  | StFastSync now h => fst (maybe_start_fast_sync now h m)
  | StOffer peer md h => add_peer_snapshot peer md h m
  | StForget peer => remove_peer_snapshots peer m
  | StEnable enabled => set_fast_sync_enabled enabled m
  | StClear => state_clear_proof_cache m
  end.

(** Fast synchronisation touches the coordinator only. *)
Lemma fast_sync_installs_nothing now h m m' r :
  maybe_start_fast_sync now h m = (m', r) ->
  stm_trie m' = stm_trie m /\ stm_height m' = stm_height m /\ stm_root m' = stm_root m /\
  proof_manager m' = proof_manager m /\ snapshot_manager m' = snapshot_manager m.
Proof.
  unfold maybe_start_fast_sync. destruct (fast_sync_coordinator m) as [c|]; [|by intros [= <- <-]].
  destruct (coordinator_fast_sync _ _ _ _ _) as [c' r']. intros [= <- <-]. by destruct m.
Qed.

Lemma consistent_ext m m' :
  stm_trie m' = stm_trie m -> stm_height m' = stm_height m -> stm_root m' = stm_root m ->
  proof_trie (proof_manager m') = proof_trie (proof_manager m) -> snapshot_manager m' = snapshot_manager m ->
  consistent m -> consistent m'.
Proof. intros E1 E2 E3 E4 E5 [C1 C2 C3 C4]. split; rewrite ?E1, ?E2, ?E3, ?E4, ?E5; done. Qed.

Context `{L : !SnapshotCodecLaws}.

(** A rollback or a load either fails, leaving the state alone, or exhibits a
    collision. *)
Lemma rollback_consistent fuel target m :
  consistent m -> collision \/ consistent (fst (rollback_to_height fuel target m)).
Proof using L.
  intros Hm. unfold rollback_to_height. rewrite stM_bind_run. unfold on_snapshots, snapshot_rollback.
  assert (Hid : consistent (m <| snapshot_manager := snapshot_manager m |>)) by (by destruct m).
  destruct (rollback_height _ _ _) as [h|]; [|by right].
  destruct (load_snapshot iter_meta fuel (snapshot_manager m) h) as [s|e| |] eqn:Hl; try by right.
  left. by apply (load_snapshot_collides iter_meta fuel (snapshot_manager m) h s (con_snapshots m Hm)).
Qed.

Lemma load_consistent fuel h m :
  consistent m -> collision \/ consistent (fst (load_state_from_snapshot fuel h m)).
Proof using L.
  intros Hm. unfold load_state_from_snapshot. rewrite stM_bind_run. cbn [lift].
  destruct (load_snapshot iter_meta fuel (snapshot_manager m) h) as [s|e| |] eqn:Hl; try by right.
  left. by apply (load_snapshot_collides iter_meta fuel (snapshot_manager m) h s (con_snapshots m Hm)).
Qed.

Lemma state_exec_consistent m op : consistent m -> collision \/ consistent (state_exec m op).
Proof using L.
  intros Hm. destruct op; cbn [state_exec].
  - right. apply preserves_fst; [apply update_state_inv|done].
  - right. apply preserves_fst; [apply state_snapshot_inv|done].
  - by apply rollback_consistent.
  - by apply load_consistent.
  - right. destruct (maybe_start_fast_sync now network_height m) as [m' r] eqn:Hf.
    apply fast_sync_installs_nothing in Hf as (E1 & E2 & E3 & E4 & E5). cbn [fst].
    apply (consistent_ext m); try done. by rewrite E4.
  - right. apply (consistent_ext m); by destruct m.
  - right. apply (consistent_ext m); by destruct m.
  - right. apply (consistent_ext m); by destruct m.
  - right. apply (consistent_ext m); by destruct m as [? ? [] ? ? ? ?].
Qed.

Lemma state_run_consistent config ops :
  collision \/ consistent (foldl state_exec (StateManager_new config ∅ ∅ ∅) ops).
Proof using L.
  induction ops as [|op ops IH] using rev_ind; [right; apply consistent_new|].
  rewrite foldl_app. cbn [foldl]. destruct IH as [|IH]; [by left|by apply state_exec_consistent].
Qed.

(** Whatever is called in whatever order on a manager with an empty snapshot
    directory, short of a hash collision: the proofs it serves are of the trie
    whose root it reports, unless no state was ever set; no rollback and no
    load has had any effect. *)
Theorem state_manager_invariant config ops :
  (exists a b : bytes, a <> b /\ blake3 a = blake3 b) \/
  let m := foldl state_exec (StateManager_new config ∅ ∅ ∅) ops in
  proof_trie (proof_manager m) = stm_trie m /\ trie_wf (stm_trie m) /\
  (validate_state_integrity m = true \/ (stm_trie m = Trie_new /\ stm_height m = 0 /\ stm_root m = replicate 32 0)).
Proof using L.
  destruct (state_run_consistent config ops) as [Hc|[C1 C2 C3 _]]; [by left|right]. cbn zeta. split; [done|]. split; [done|].
  destruct C3 as [C3|C3]; [left|by right]. unfold validate_state_integrity. by apply bool_decide_eq_true.
Qed.

(** What an update returns is the root of the trie of the new state, which
    the manager then reports and serves. *)
Theorem update_state_sets_root now h bh utxos tickets mns props m m' root :
  update_state now h bh utxos tickets mns props m = (m', Ok root) ->
  exists t, state_trie utxos tickets mns props = Ok t /\ root = trie_root_hash t /\ stm_trie m' = t /\
    stm_height m' = h /\ validate_state_integrity m' = true /\
    forall o resp, request_utxo_proof m' o = Ok resp -> resp_state_root resp = root.
Proof.
  unfold update_state. intros H. apply stM_bind_ok in H as (m1 & t & Ht & H). injection Ht as <- Ht.
  rewrite stM_bind_run in H. cbn [modify] in H. set (m2 := set_proofs _) in H.
  assert (H2 : stm_trie m2 = t /\ stm_height m2 = h /\ stm_root m2 = trie_root_hash t /\ proof_trie (proof_manager m2) = t)
    by (by destruct m).
  rewrite stM_bind_run in H. cbn [gets] in H. unfold Datatypes.id in H. clearbody m2.
  apply stM_bind_ok in H as (m3 & [] & H3 & H). injection H as <- <-.
  assert (E : stm_trie m3 = stm_trie m2 /\ stm_height m3 = stm_height m2 /\ stm_root m3 = stm_root m2 /\
    proof_manager m3 = proof_manager m2).
  { destruct (_ && _); [|by injection H3 as <-]. apply stM_bind_ok in H3 as (m4 & x & H4 & H3). injection H3 as <-.
    unfold state_create_snapshot in H4. apply stM_bind_ok in H4 as (m5 & y & H5 & H4). injection H4 as <- _.
    unfold on_snapshots in H5. destruct (create_snapshot _ _ _ _ _ _ _ _ _ _ _ _) as [s r]. injection H5 as <- _. by destruct m2. }
  destruct E as (E1 & E2 & E3 & E4), H2 as (F1 & F2 & F3 & F4). exists t.
  rewrite E1, E2, E3, F1, F2, F3. split_and!; try done.
  - unfold validate_state_integrity. apply bool_decide_eq_true. by rewrite E1, E3, F1, F3.
  - intros o resp Hr. cbn [request_utxo_proof state_manager_interface] in Hr. unfold generate_utxo_proof, generate_single in Hr.
    apply outcome_bind_inv in Hr as (pf & _ & Hr). injection Hr as <-. cbn. by rewrite E4, F4.
Qed.

End Manager.

(** * The manager and its clients *)

Section Clients.
  Context `{P : Primitives, TC : TrieCodec, PS : ProofSizes}.

(** An honest answer is refused: when the path to an output has more than one
    node and ends in a leaf, the light client does not accept the proof a node
    with a well-formed trie makes of it. *)
Theorem honest_answer_refused (m : StateManager) o resp pf v k w :
  proof_trie (proof_manager m) = stm_trie m -> trie_wf (stm_trie m) ->
  request_utxo_proof m o = Ok resp -> proof_data resp = Single pf -> proof_value pf = Some v ->
  last (proof_nodes pf) = Some (Leaf k w) -> (2 <= length (proof_nodes pf))%nat ->
  verify_proof_response resp = Err (CE.TrieError "Key mismatch in leaf").
Proof.
  intros Hp Hw Hr Hd Hv Hl H2. cbn [request_utxo_proof state_manager_interface] in Hr.
  unfold generate_utxo_proof, generate_single in Hr. apply outcome_bind_inv in Hr as (pf' & Hg & Hr). injection Hr as <-.
  cbn in Hd. injection Hd as ->. unfold verify_proof_response, verify_single. cbn [proof_data respond]. rewrite Hv.
  rewrite Hp in Hg. by rewrite (honest_proof_rejected (stm_trie m) (encode_utxo_key o) pf v k w).
Qed.

End Clients.

(** * Examples *)

Definition sample_sizes : ProofSizes := {| serialized_size _ := Some 0 |}.

Definition two_utxo_set : UtxoSet := {[ sample_outpoint 1 := small_utxo; sample_outpoint 2 := small_utxo ]}.

Definition fresh_manager : StateManager :=
  StateManager_new (P := sample_primitives) (SC := sample_snapshot_codec) map_to_list StateManagerConfig_default ∅ ∅ ∅.

Definition updated : StateManager * outcome CE.ConsensusError Hash :=
  update_state (P := sample_primitives) (SC := sample_snapshot_codec) (fun _ _ => true) map_to_list 0 7 [] two_utxo_set ∅ ∅ ∅ fresh_manager.

Lemma update_state_sets_root_witness : validate_state_integrity (fst updated) = true.
Proof.
  assert (Ho : is_ok (snd updated) = true) by (vm_compute; reflexivity).
  destruct updated as [m' r] eqn:Hu. cbn [snd fst] in *. destruct r as [root|e| |]; try discriminate Ho.
  destruct (update_state_sets_root (P := sample_primitives) (PS := sample_sizes) (SC := sample_snapshot_codec) (fun _ _ => true) map_to_list
    0 7 [] two_utxo_set ∅ ∅ ∅ fresh_manager m' root Hu) as (t & _ & _ & _ & _ & Hv & _). exact Hv.
Defined.

Definition serving_manager : StateManager := fresh_manager <| stm_trie := two_utxo_trie |>
  <| proof_manager := StateProofManager_new ProofConfig_default two_utxo_trie |>.

Lemma honest_answer_refused_witness :
  verify_proof_response (mkProofResponse UtxoProofType (Single proof_of_first) 0 (trie_root_hash two_utxo_trie) 0) =
  Err (CE.TrieError "Key mismatch in leaf").
Proof.
  apply (honest_answer_refused (P := sample_primitives) (PS := sample_sizes) serving_manager (sample_outpoint 1) _ proof_of_first
    sample_value last_key sample_value).
  - reflexivity.
  - exact two_utxo_trie_wf.
  - cbn [request_utxo_proof state_manager_interface]. unfold generate_utxo_proof, generate_single.
    change (proof_trie (proof_manager serving_manager)) with two_utxo_trie.
    change (generate_proof two_utxo_trie (encode_utxo_key (sample_outpoint 1))) with honest_proof.
    rewrite honest_proof_ok. reflexivity.
  - reflexivity.
  - reflexivity.
  - exact honest_last.
  - exact (proj1 (Nat.leb_le _ _) honest_length).
Defined.

Lemma state_manager_invariant_witness :
  (exists a b : bytes, a <> b /\ @blake3 sample_primitives a = @blake3 sample_primitives b) \/
  trie_wf (stm_trie (foldl (state_exec (P := sample_primitives) (SC := sample_snapshot_codec) (fun _ _ => true) map_to_list map_to_list)
    fresh_manager [StUpdate 0 7 [] two_utxo_set ∅ ∅ ∅; StRollback 3 7])).
Proof.
  destruct (state_manager_invariant (P := sample_primitives) (SC := sample_snapshot_codec) (fun _ _ => true) map_to_list map_to_list
    map_to_list (L := sample_snapshot_laws) StateManagerConfig_default [StUpdate 0 7 [] two_utxo_set ∅ ∅ ∅; StRollback 3 7])
    as [Hc|(_ & Hw & _)].
  - left. exact Hc.
  - right. exact Hw.
Defined.
