(* ===== verification/PeerSelection.v ===== *)
(** Scores and selection of peers (src/rusty-p2p/src/peer_selection.rs): how the
    score of a peer follows its answers, how peers are classified by address,
    and the six strategies by which connections are chosen.

    Peer ids are numbers, instants and durations nanoseconds, scores binary64.
    [iter_peers] stands for the iteration order of the map of peers and
    [choose_multiple] for the sampling function of the rand crate.  Counts of
    peers are at most the number of peers and are not wrapped. *)

From Stdlib Require Import ZArith Lia List SpecFloat.
From stdpp Require Import base option list numbers gmap sorting.
From coqutil Require Import Datatypes.RecordSetters.
From S2P Require Import Prelude F64.

Import TriangleBracketNotations.
#[local] Open Scope Z_scope.

Abbreviation PeerId := Z.

(** [Duration::from_secs(1)] *)
Definition SECOND : Z := 1000000000.

(** [Instant::duration_since], which is zero for a later instant. *)
Definition duration_since (now earlier : Z) : Z := Z.max 0 (now - earlier).

(** Two's complement of 32 bits. *)
Definition wrap_i32 (z : Z) : Z := (z + 2147483648) mod 4294967296 - 2147483648.

(** * Scores *)

Record PeerScore : Type := mkPeerScore {
  reputation : Z;
  reliability : f64;
  avg_response_time : Z;
  bandwidth : Z;
  geographic_diversity : f64;
  network_diversity : f64;
  security_score : f64;
  last_seen : Z;
  uptime : f64;
  protocol_compliance : f64;
}.

Definition PeerScore_new (now : Z) : PeerScore :=
  mkPeerScore 0 (f64_lit 5 10) 1000 1000000 (f64_lit 5 10) (f64_lit 5 10) (f64_lit 5 10) now (f64_of_Z 0) (f64_of_Z 1).

Definition reputation_score (s : PeerScore) : f64 :=
  f64_div (f64_of_Z (wrap_i32 (reputation s + 100))) (f64_of_Z 200).

Definition bandwidth_score (s : PeerScore) : f64 :=
  f64_min (f64_div (f64_of_Z (bandwidth s)) (f64_of_Z 10000000)) (f64_of_Z 1).

(** One minus the response time in units of [slowest] milliseconds. *)
Definition response_score (slowest : Z) (s : PeerScore) : f64 :=
  f64_sub (f64_of_Z 1) (f64_min (f64_div (f64_of_Z (avg_response_time s)) (f64_of_Z slowest)) (f64_of_Z 1)).

(** One more weighted term of a sum. *)
Definition plus_weighted (sum x : f64) (w : f64) : f64 := f64_add sum (f64_mul x w).

Definition composite_score (s : PeerScore) : f64 :=
  let sum := f64_mul (reputation_score s) (f64_lit 25 100) in
  let sum := plus_weighted sum (reliability s) (f64_lit 20 100) in
  let sum := plus_weighted sum (response_score 10000 s) (f64_lit 15 100) in
  let sum := plus_weighted sum (bandwidth_score s) (f64_lit 10 100) in
  let sum := plus_weighted sum (geographic_diversity s) (f64_lit 10 100) in
  let sum := plus_weighted sum (network_diversity s) (f64_lit 10 100) in
  let sum := plus_weighted sum (security_score s) (f64_lit 5 100) in
  let sum := plus_weighted sum (uptime s) (f64_lit 5 100) in
  f64_min sum (f64_of_Z 1).

(** [Duration::as_millis() as u64] *)
Definition as_millis (d : Z) : Z := wrap64 (d / 1000000).

Definition score_success (now response_time : Z) (s : PeerScore) : PeerScore :=
  s <| reputation := Z.min (wrap_i32 (reputation s + 1)) 100 |>
    <| reliability := f64_min (f64_add (f64_mul (reliability s) (f64_lit 9 10)) (f64_lit 1 10)) (f64_of_Z 1) |>
    <| avg_response_time := u64_add (u64_mul (avg_response_time s) 9) (as_millis response_time) / 10 |>
    <| last_seen := now |>.

Definition score_failure (now : Z) (s : PeerScore) : PeerScore :=
  s <| reputation := Z.max (wrap_i32 (reputation s - 5)) (-100) |>
    <| reliability := f64_max (f64_mul (reliability s) (f64_lit 9 10)) (f64_of_Z 0) |>
    <| last_seen := now |>.

(** * Classification *)

Inductive GeographicRegion : Type :=
| NorthAmerica | SouthAmerica | Europe | Asia | Africa | Oceania | UnknownRegion.

Inductive NetworkProvider : Type :=
| Residential | DataCenter | Cloud | Mobile | University | Government | UnknownProvider.

#[export] Instance GeographicRegion_eq_dec : EqDecision GeographicRegion.
Proof. solve_decision. Defined.

#[export] Instance NetworkProvider_eq_dec : EqDecision NetworkProvider.
Proof. solve_decision. Defined.

#[export] Instance GeographicRegion_countable : Countable GeographicRegion.
Proof.
  refine (inj_countable'
    (fun r => match r with NorthAmerica => 0 | SouthAmerica => 1 | Europe => 2 | Asia => 3 | Africa => 4
                         | Oceania => 5 | UnknownRegion => 6 end%nat)
    (fun n => match n with 0 => NorthAmerica | 1 => SouthAmerica | 2 => Europe | 3 => Asia | 4 => Africa
                         | 5 => Oceania | _ => UnknownRegion end%nat) _).
  by intros [].
Defined.

#[export] Instance NetworkProvider_countable : Countable NetworkProvider.
Proof.
  refine (inj_countable'
    (fun p => match p with Residential => 0 | DataCenter => 1 | Cloud => 2 | Mobile => 3 | University => 4
                         | Government => 5 | UnknownProvider => 6 end%nat)
    (fun n => match n with 0 => Residential | 1 => DataCenter | 2 => Cloud | 3 => Mobile | 4 => University
                         | 5 => Government | _ => UnknownProvider end%nat) _).
  by intros [].
Defined.

(** [IpAddr]: four octets, or eight segments of 16 bits. *)
Inductive IpAddr : Type :=
| V4 (o0 o1 o2 o3 : Z)
| V6 (s0 s1 s2 s3 s4 s5 s6 s7 : Z).

Definition octet_within (lo hi z : Z) : bool := (lo <=? z) && (z <=? hi).

Definition classify_geographic_region (ip : IpAddr) : GeographicRegion :=
  match ip with
  | V4 o _ _ _ =>
      if octet_within 1 126 o then NorthAmerica
      else if octet_within 128 191 o then Europe
      else if octet_within 192 223 o then Asia
      else UnknownRegion
  | V6 _ _ _ _ _ _ _ _ => UnknownRegion
  end.

Definition classify_network_provider (ip : IpAddr) : NetworkProvider :=
  match ip with
  | V4 o0 o1 _ _ =>
      if (o0 =? 10) || ((o0 =? 172) && octet_within 16 31 o1) || ((o0 =? 192) && (o1 =? 168)) then Residential
      else if octet_within 1 9 o0 || octet_within 11 126 o0 then DataCenter
      else UnknownProvider
  | V6 _ _ _ _ _ _ _ _ => UnknownProvider
  end.

(** The prefix under which addresses are counted together; the text of a
    prefix determines its numbers. *)
Inductive Subnet : Type :=
| Subnet4 (o0 o1 o2 : Z)
| Subnet6 (s0 s1 s2 s3 : Z).

#[export] Instance Subnet_eq_dec : EqDecision Subnet.
Proof. solve_decision. Defined.

#[export] Instance Subnet_countable : Countable Subnet.
Proof.
  refine (inj_countable'
    (fun s => match s with Subnet4 a b c => inl (a, b, c) | Subnet6 a b c d => inr (a, b, c, d) end)
    (fun s => match s with inl (a, b, c) => Subnet4 a b c | inr (a, b, c, d) => Subnet6 a b c d end) _).
  by intros [].
Defined.

Definition subnet_of (ip : IpAddr) : Subnet :=
  match ip with
  | V4 o0 o1 o2 _ => Subnet4 o0 o1 o2
  | V6 s0 s1 s2 s3 _ _ _ _ => Subnet6 s0 s1 s2 s3
  end.

(** * The selector *)

Record PeerMetadata : Type := mkPeerMetadata {
  peer_id : PeerId;
  ip_address : IpAddr;
  score : PeerScore;
  region : GeographicRegion;
  provider : NetworkProvider;
  connection_count : Z;
  is_outbound : bool;
  connected_at : Z;
}.

Inductive SelectionStrategy : Type :=
| RandomSelection | ScoreBased | DiversityFocused | PerformanceOptimized | SecurityFocused | Hybrid.

Record DiversityTargets : Type := mkDiversityTargets {
  target_geographic : f64;
  target_network : f64;
  target_subnet : f64;
  target_reputation : f64;
}.

Definition DiversityTargets_default : DiversityTargets :=
  mkDiversityTargets (f64_lit 6 10) (f64_lit 7 10) (f64_lit 2 10) (f64_lit 8 10).

Record PeerSelector : Type := mkPeerSelector {
  selector_peers : gmap PeerId PeerMetadata;
  strategy : SelectionStrategy;
  max_peers : Z;
  diversity_targets : DiversityTargets;
}.

Definition PeerSelector_new (strategy : SelectionStrategy) (max_peers : Z) : PeerSelector :=
  mkPeerSelector ∅ strategy max_peers DiversityTargets_default.

Definition selector_add_peer (p : PeerMetadata) (s : PeerSelector) : PeerSelector :=
  s <| selector_peers ::= <[peer_id p := p]> |>.

Definition selector_remove_peer (id : PeerId) (s : PeerSelector) : PeerSelector :=
  s <| selector_peers ::= delete id |>.

(** ** Sorting by a score

    [sort_by(|a, b| b.partial_cmp(a).unwrap())]: every element of a list of two
    or more takes part in a comparison, and a NaN has none. *)
Definition desc_le {A} (key : A -> f64) (a b : A) : bool := not_greater (default Eq (SFcompare (key b) (key a))).

Definition sort_desc {A} (key : A -> f64) (l : list A) : outcome Empty_set (list A) :=
  if (1 <? len l) && existsb (fun x => f64_is_nan (key x)) l then Panic
  else Ok (sort_by (desc_le key) l).

(** The first [count] after sorting. *)
Definition select_top (scored : list (PeerId * f64)) (count : Z) : outcome Empty_set (list PeerId) :=
  sorted ← sort_desc snd scored;
  mret (take (Z.to_nat count) sorted).*1.

Definition diversity_score (p : PeerMetadata) : f64 :=
  f64_add (geographic_diversity (score p)) (network_diversity (score p)).

Definition performance_score (p : PeerMetadata) : f64 :=
  let s := score p in
  let sum := f64_mul (reliability s) (f64_lit 4 10) in
  let sum := plus_weighted sum (response_score 5000 s) (f64_lit 3 10) in
  plus_weighted sum (bandwidth_score s) (f64_lit 3 10).

Definition peer_security_score (p : PeerMetadata) : f64 :=
  let s := score p in
  let sum := f64_mul (security_score s) (f64_lit 4 10) in
  let sum := plus_weighted sum (reputation_score s) (f64_lit 3 10) in
  plus_weighted sum (protocol_compliance s) (f64_lit 3 10).

(** [(count as f64 * (1.0 - target)) as usize + 1] *)
Definition max_share (count : Z) (target : f64) : Z :=
  u64_add (f64_to_u64 (f64_mul (f64_of_Z count) (f64_sub (f64_of_Z 1) target))) 1.

(** The loop over the candidates. *)
Fixpoint diversity_loop (count max_per_region max_per_provider : Z) (candidates : list PeerMetadata)
    (selected : list PeerId) (region_counts : gmap GeographicRegion Z) (provider_counts : gmap NetworkProvider Z) :
    list PeerId :=
  match candidates with
  | [] => selected
  | peer :: candidates =>
      if count <=? len selected then selected
      else
        let region_count := default 0 (region_counts !! region peer) in
        let provider_count := default 0 (provider_counts !! provider peer) in
        if (region_count <? max_per_region) && (provider_count <? max_per_provider) then
          diversity_loop count max_per_region max_per_provider candidates (selected ++ [peer_id peer])
            (<[region peer := region_count + 1]> region_counts)
            (<[provider peer := provider_count + 1]> provider_counts)
        else diversity_loop count max_per_region max_per_provider candidates selected region_counts provider_counts
  end.

Section Selection.
  Context (iter_peers : gmap PeerId PeerMetadata -> list (PeerId * PeerMetadata)).
  Context (choose_multiple : list PeerId -> Z -> list PeerId).

(** Each peer with its score. *)
Definition scored_by (key : PeerMetadata -> f64) (l : list (PeerId * PeerMetadata)) : list (PeerId * f64) :=
  (fun '(id, p) => (id, key p)) <$> l.

Definition select_random (s : PeerSelector) (count : Z) : list PeerId :=
  choose_multiple (iter_peers (selector_peers s)).*1 count.

Definition select_score_based (s : PeerSelector) (count : Z) : outcome Empty_set (list PeerId) :=
  select_top (scored_by (fun p => composite_score (score p)) (iter_peers (selector_peers s))) count.

Definition select_diversity_focused (s : PeerSelector) (count : Z) : outcome Empty_set (list PeerId) :=
  candidates ← sort_desc diversity_score (iter_peers (selector_peers s)).*2;
  mret (diversity_loop count (max_share count (target_geographic (diversity_targets s)))
          (max_share count (target_network (diversity_targets s))) candidates [] ∅ ∅).

Definition select_performance_optimized (s : PeerSelector) (count : Z) : outcome Empty_set (list PeerId) :=
  select_top (scored_by performance_score (iter_peers (selector_peers s))) count.

Definition reputable (ip : PeerId * PeerMetadata) : bool := 0 <=? reputation (score (snd ip)).

Definition select_security_focused (s : PeerSelector) (count : Z) : outcome Empty_set (list PeerId) :=
  select_top (scored_by peer_security_score (filter reputable (iter_peers (selector_peers s)))) count.

(** A selector over the peers not yet selected. *)
Definition remaining (selected : list PeerId) (st : SelectionStrategy) (s : PeerSelector) : PeerSelector :=
  mkPeerSelector (filter (fun ip => ip.1 ∉ selected) (selector_peers s)) st (max_peers s) (diversity_targets s).

Definition select_hybrid (s : PeerSelector) (count : Z) : outcome Empty_set (list PeerId) :=
  let performance_count := count / 3 in
  let diversity_count := count / 3 in
  let security_count := count - performance_count - diversity_count in
  performance_peers ← select_performance_optimized s performance_count;
  diversity_peers ← select_diversity_focused (remaining performance_peers DiversityFocused s) diversity_count;
  let selected := performance_peers ++ diversity_peers in
  security_peers ← select_security_focused (remaining selected SecurityFocused s) security_count;
  mret (selected ++ security_peers).

Definition select_peers (s : PeerSelector) (count : Z) : outcome Empty_set (list PeerId) :=
  match strategy s with
  | RandomSelection => Ok (select_random s count)
  | ScoreBased => select_score_based s count
  | DiversityFocused => select_diversity_focused s count
  | PerformanceOptimized => select_performance_optimized s count
  | SecurityFocused => select_security_focused s count
  | Hybrid => select_hybrid s count
  end.

End Selection.

(** ** Metrics *)

Record DiversityMetrics : Type := mkDiversityMetrics {
  metric_geographic : f64;
  metric_network : f64;
  metric_subnet : f64;
  metric_reputation : f64;
}.

Definition DiversityMetrics_default : DiversityMetrics :=
  mkDiversityMetrics (f64_of_Z 0) (f64_of_Z 0) (f64_of_Z 0) (f64_of_Z 0).

(** [*counts.entry(k).or_insert(0) += 1] for each key. *)
Definition count_keys {K} `{Countable K} (ks : list K) : gmap K Z :=
  foldl (fun counts k => <[k := default 0 (counts !! k) + 1]> counts) ∅ ks.

Definition max_count {K} `{Countable K} (counts : gmap K Z) : Z := foldr Z.max 0 (map_to_list counts).*2.

Definition get_diversity_metrics (s : PeerSelector) : DiversityMetrics :=
  let total_peers := Z.of_nat (size (selector_peers s)) in
  if total_peers =? 0 then DiversityMetrics_default
  else
    let ps := (map_to_list (selector_peers s)).*2 in
    let ratio n := f64_div (f64_of_Z n) (f64_of_Z total_peers) in
    let high_reputation_count := len (filter (fun p => 50 <= reputation (score p)) ps) in
    mkDiversityMetrics
      (f64_sub (f64_of_Z 1) (ratio (Z.of_nat (size (count_keys (region <$> ps))))))
      (f64_sub (f64_of_Z 1) (ratio (Z.of_nat (size (count_keys (provider <$> ps))))))
      (ratio (max_count (count_keys (subnet_of ∘ ip_address <$> ps))))
      (ratio high_reputation_count).

(** * The order of scores *)

(** Sign and size class, exponent and mantissa: the order of numbers that are
    not NaN is lexicographic. *)
Definition rank (x : f64) : Z * Z * Z :=
  match x with
  | S754_infinity s => (if s then -2 else 2, 0, 0)
  | S754_zero _ => (0, 0, 0)
  | S754_finite s m e => if s then (-1, - e, - Zpos m) else (1, e, Zpos m)
  | S754_nan => (3, 0, 0)
  end.

Definition rank_le (x y : f64) : Prop :=
  match rank x, rank y with
  | (c, e, m), (c', e', m') => c < c' \/ c = c' /\ (e < e' \/ e = e' /\ m <= m')
  end.

#[export] Instance rank_le_dec x y : Decision (rank_le x y).
Proof. unfold rank_le. destruct (rank x) as [[]], (rank y) as [[]]. apply _. Defined.

#[export] Instance rank_le_trans : Transitive rank_le.
Proof.
  intros x y z. unfold rank_le. destruct (rank x) as [[]], (rank y) as [[]], (rank z) as [[]]. lia.
Qed.

Lemma rank_le_total x y : rank_le x y \/ rank_le y x.
Proof. unfold rank_le. destruct (rank x) as [[]], (rank y) as [[]]. lia. Qed.

Lemma compare_rank x y :
  f64_is_nan x = false -> f64_is_nan y = false ->
  not_greater (default Eq (SFcompare x y)) = bool_decide (rank_le x y).
Proof.
  intros Hx Hy. symmetry. unfold rank_le.
  destruct x as [s|s| |s m e], y as [s'|s'| |s' m' e']; try discriminate;
    try destruct s; try destruct s'; cbn [SFcompare rank not_greater default];
    try (by apply bool_decide_eq_true_2; lia); try (by apply bool_decide_eq_false_2; lia).
  all: change (Pos.compare_cont Eq m m') with (Pos.compare m m').
  all: destruct (Z.compare_spec e e'); cbn;
    try (by apply bool_decide_eq_true_2; lia); try (by apply bool_decide_eq_false_2; lia).
  all: destruct (Pos.compare_spec m m'); cbn;
    try (by apply bool_decide_eq_true_2; lia); try (by apply bool_decide_eq_false_2; lia).
Qed.

Lemma leb_rank x y : f64_is_nan x = false -> f64_is_nan y = false -> rank_le x y -> f64_ge y x = true.
Proof.
  intros Hx Hy Hr. unfold f64_ge, SFleb. pose proof (compare_rank x y Hx Hy) as Hc.
  rewrite (bool_decide_eq_true_2 _ Hr) in Hc. destruct (SFcompare x y) as [[]|] eqn:H; try done.
  destruct x as [s|s| |s m e], y as [s'|s'| |s' m' e']; try destruct s; try destruct s'; discriminate.
Qed.

Lemma insert_by_ext {A} (le le' : A -> A -> bool) x l :
  (forall y, y ∈ l -> le x y = le' x y) -> insert_by le x l = insert_by le' x l.
Proof.
  induction l as [|y l IH]; intros Hl; [done|]. cbn. rewrite <- (Hl y) by left.
  destruct (le x y); [done|]. f_equal. apply IH. intros z Hz. apply Hl. by right.
Qed.

Lemma sort_by_ext {A} (le le' : A -> A -> bool) l :
  (forall x y, x ∈ l -> y ∈ l -> le x y = le' x y) -> sort_by le l = sort_by le' l.
Proof.
  induction l as [|x l IH]; intros Hl; [done|].
  change (insert_by le x (sort_by le l) = insert_by le' x (sort_by le' l)).
  rewrite IH by (intros; apply Hl; by right). apply insert_by_ext. intros y Hy.
  rewrite (sort_by_perm le' l) in Hy. apply Hl; [left|by right].
Qed.

(** Sorting by a score returns the elements, each scoring at least as high as
    those that follow. *)
Lemma sort_desc_spec {A} (key : A -> f64) l l' :
  sort_desc key l = Ok l' -> l' ≡ₚ l /\ StronglySorted (fun a b => f64_ge (key a) (key b) = true) l'.
Proof.
  unfold sort_desc. destruct (_ && _) eqn:Hc; [done|]. intros [= <-]. split; [apply sort_by_perm|].
  apply andb_false_iff in Hc as [Hc|Hc].
  - destruct l as [|x [|y l]]; [constructor|repeat constructor|]. rewrite !len_cons in Hc.
    pose proof (len_nonneg l). lia.
  - assert (Hn : forall x, x ∈ l -> f64_is_nan (key x) = false).
    { intros x Hx. destruct (f64_is_nan (key x)) eqn:He; [|done]. rewrite <- Hc. symmetry.
      apply existsb_exists. exists x. by rewrite <- list_elem_of_In. }
    set (le' := fun a b => bool_decide (rank_le (key b) (key a))).
    rewrite (sort_by_ext _ le') by (intros; apply compare_rank; auto).
    assert (Hs : StronglySorted (fun a b => rank_le (key b) (key a)) (sort_by le' l)).
    { apply sort_by_sorted; unfold le'.
      - intros a b c Hab Hbc. by trans (key b).
      - intros x y H. by apply bool_decide_eq_true in H.
      - intros x y H. apply bool_decide_eq_false in H. destruct (rank_le_total (key x) (key y)); done. }
    assert (Hn' : Forall (fun x => f64_is_nan (key x) = false) (sort_by le' l)).
    { apply Forall_forall. intros x. rewrite sort_by_perm. auto. }
    clear -Hs Hn'. induction Hs as [|x k Hs IH Hx]; [constructor|]. inversion_clear Hn' as [|? ? Hnx Hn].
    constructor; [auto|]. apply Forall_forall. intros y Hy. rewrite Forall_forall in Hx, Hn.
    apply leb_rank; auto.
Qed.

(** It panics only on a NaN among several. *)
Lemma sort_desc_ok {A} (key : A -> f64) l :
  Forall (fun x => f64_is_nan (key x) = false) l -> exists l', sort_desc key l = Ok l'.
Proof.
  intros Hl. unfold sort_desc. replace (existsb _ l) with false; [rewrite andb_false_r; eauto|].
  symmetry. apply not_true_is_false. intros Hx. apply existsb_exists in Hx as (x & Hin & Hx).
  rewrite <- list_elem_of_In in Hin. rewrite Forall_forall in Hl. by rewrite Hl in Hx.
Qed.

Lemma len_take {A} n (l : list A) : 0 <= n -> len (take (Z.to_nat n) l) = Z.min n (len l).
Proof. intros Hn. unfold len. rewrite length_take. lia. Qed.

(** The selected are as many as asked for and available, and score at least as
    high as those left out. *)
Lemma select_top_spec scored count l :
  0 <= count -> NoDup scored.*1 -> select_top scored count = Ok l ->
  NoDup l /\ len l = Z.min count (len scored) /\ l ⊆ scored.*1 /\
  forall a b x y, (a, x) ∈ scored -> (b, y) ∈ scored -> a ∈ l -> b ∉ l -> f64_ge x y = true.
Proof.
  intros Hc Hnd. unfold select_top. destruct (sort_desc snd scored) as [sorted| | |] eqn:Hs; try done.
  cbn. intros [= <-]. apply sort_desc_spec in Hs as [Hp Hs].
  assert (Hnd' : NoDup sorted.*1) by (by rewrite Hp). rewrite fmap_take. split_and!.
  - rewrite <- (take_drop (Z.to_nat count) sorted.*1) in Hnd'. by apply NoDup_app in Hnd' as [? _].
  - rewrite len_take by done. unfold len. by rewrite length_fmap, Hp.
  - intros a Ha. rewrite <- Hp. eapply subseteq_take, Ha.
  - intros a b x y Ha Hb Hin Hout. rewrite <- Hp in Ha, Hb. rewrite <- fmap_take in *.
    apply (take_sorted_best (fun p q : PeerId * f64 => f64_ge p.2 q.2 = true) (Z.to_nat count) sorted (a, x) (b, y) Hs).
    + apply list_elem_of_fmap in Hin as ([a' x'] & -> & Hin). cbn in *.
      assert (Hin' : (a', x') ∈ sorted) by (eapply subseteq_take, Hin).
      apply (elem_of_list_to_map_1 (M := gmap PeerId)) in Ha, Hin'; [|done..]. congruence.
    + rewrite <- (take_drop (Z.to_nat count) sorted) in Hb. apply elem_of_app in Hb as [Hb|Hb]; [|done].
      exfalso. apply Hout. apply list_elem_of_fmap. by exists (b, y).
Qed.

(** * Diversity *)

(** How many of [l] are in a region and with a provider. *)
Definition in_region (r : GeographicRegion) (l : list PeerMetadata) : Z := len (filter (fun p => region p = r) l).
Definition with_provider (v : NetworkProvider) (l : list PeerMetadata) : Z := len (filter (fun p => provider p = v) l).

Lemma in_region_snoc r l p : in_region r (l ++ [p]) = in_region r l + (if decide (region p = r) then 1 else 0).
Proof.
  unfold in_region. rewrite filter_app, len_app. f_equal. rewrite filter_cons, filter_nil. by case_decide.
Qed.

Lemma with_provider_snoc v l p :
  with_provider v (l ++ [p]) = with_provider v l + (if decide (provider p = v) then 1 else 0).
Proof.
  unfold with_provider. rewrite filter_app, len_app. f_equal. rewrite filter_cons, filter_nil. by case_decide.
Qed.

(** [chosen] is what a greedy choice under the caps takes of [candidates], in
    addition to [before]. *)
Definition greedy (count per_region per_provider : Z) (candidates before chosen : list PeerMetadata) : Prop :=
  let all := before ++ chosen in
  chosen `sublist_of` candidates /\
  len all <= count /\
  (forall r, in_region r all <= per_region) /\
  (forall v, with_provider v all <= per_provider) /\
  (len all < count -> forall c, c ∈ candidates ->
     c ∈ chosen \/ in_region (region c) all = per_region \/ with_provider (provider c) all = per_provider).

Lemma diversity_loop_greedy count mr mv candidates : forall before rc pc,
  len before <= count ->
  (forall r, default 0 (rc !! r) = in_region r before) -> (forall v, default 0 (pc !! v) = with_provider v before) ->
  (forall r, in_region r before <= mr) -> (forall v, with_provider v before <= mv) ->
  exists chosen, diversity_loop count mr mv candidates (peer_id <$> before) rc pc = peer_id <$> (before ++ chosen) /\
    greedy count mr mv candidates before chosen.
Proof.
  assert (Hstop : forall before cs, len before <= count -> (forall r, in_region r before <= mr) ->
    (forall v, with_provider v before <= mv) -> (len before < count -> cs = []) -> greedy count mr mv cs before []).
  { intros before cs Hl Hr Hv Hc. unfold greedy. rewrite app_nil_r.
    split_and!; [apply sublist_nil_l|done..|]. intros Hlt c. rewrite (Hc Hlt). set_solver. }
  induction candidates as [|p cs IH]; intros before rc pc Hlen Hrc Hpc Hmr Hmv; cbn [diversity_loop].
  { exists []. rewrite app_nil_r. split; [done|]. by apply Hstop. }
  replace (len (peer_id <$> before)) with (len before) by (unfold len; by rewrite length_fmap).
  destruct (Z.leb_spec count (len before)) as [Hful|Hnot].
  { exists []. rewrite app_nil_r. split; [done|]. apply Hstop; [done..|lia]. }
  rewrite Hrc, Hpc. destruct (_ && _) eqn:Hroom.
  - apply andb_true_iff in Hroom as [H1%Z.ltb_lt H2%Z.ltb_lt].
    specialize (IH (before ++ [p])). rewrite fmap_app in IH.
    edestruct IH as (chosen & Heq & Hg); [| | | | |].
    + rewrite len_app, len_cons, len_nil. lia.
    + intros r. rewrite in_region_snoc. destruct (decide (region p = r)) as [<-|Hne]; [by rewrite lookup_insert_eq|].
      rewrite lookup_insert_ne by done. rewrite Hrc. lia.
    + intros v. rewrite with_provider_snoc.
      destruct (decide (provider p = v)) as [<-|Hne]; [by rewrite lookup_insert_eq|].
      rewrite lookup_insert_ne by done. rewrite Hpc. lia.
    + intros r. rewrite in_region_snoc. specialize (Hmr r). case_decide; [subst r|]; lia.
    + intros v. rewrite with_provider_snoc. specialize (Hmv v). case_decide; [subst v|]; lia.
    + exists (p :: chosen). rewrite <- app_assoc in Heq. split; [exact Heq|].
      destruct Hg as (Hs & Hrest). rewrite <- app_assoc in Hrest. cbn [app] in Hrest.
      destruct Hrest as (Hl & Hr & Hv & Hm). unfold greedy. split_and!; [by constructor|done..|].
      intros Hlt c [->|Hc]%elem_of_cons; [left; left|]. destruct (Hm Hlt c Hc) as [?|?]; [left; by right|by right].
  - destruct (IH before rc pc) as (chosen & Heq & Hs & Hl & Hr & Hv & Hm); [done..|].
    exists chosen. split; [done|]. split_and!; [by constructor|done..|].
    intros Hlt c [->|Hc]%elem_of_cons; [|by apply Hm]. right.
    apply andb_false_iff in Hroom as [H1%Z.ltb_ge|H2%Z.ltb_ge].
    + left. specialize (Hr (region p)). specialize (Hmr (region p)). unfold in_region in *.
      rewrite filter_app, len_app in *. pose proof (len_nonneg (filter (fun q => region q = region p) chosen)). lia.
    + right. specialize (Hv (provider p)). specialize (Hmv (provider p)). unfold with_provider in *.
      rewrite filter_app, len_app in *. pose proof (len_nonneg (filter (fun q => provider q = provider p) chosen)). lia.
Qed.

(** Only three kinds of provider are ever assigned. *)
Lemma classified_providers l :
  Forall (fun p => provider p = classify_network_provider (ip_address p)) l ->
  len l = with_provider Residential l + with_provider DataCenter l + with_provider UnknownProvider l.
Proof.
  induction 1 as [|p l Hp Hl IH]; [done|]. unfold with_provider in *. rewrite len_cons, !filter_cons, IH.
  assert (Hc : provider p = Residential \/ provider p = DataCenter \/ provider p = UnknownProvider).
  { rewrite Hp. unfold classify_network_provider. destruct (ip_address p); [|auto].
    destruct (_ || _); [auto|]. destruct (_ || _); auto. }
  repeat case_decide; rewrite ?len_cons; try lia; destruct Hc as [?|[?|?]]; congruence.
Qed.

(** * What a selection returns *)

(** What [add_peer] keeps: a peer is stored under its id. *)
Definition selector_wf (s : PeerSelector) : Prop :=
  map_Forall (fun id p => peer_id p = id) (selector_peers s).

Lemma selector_new_wf st n : selector_wf (PeerSelector_new st n).
Proof. apply map_Forall_empty. Qed.

Lemma selector_add_wf p s : selector_wf s -> selector_wf (selector_add_peer p s).
Proof. destruct s. intros Hs. by apply map_Forall_insert_2. Qed.

Lemma selector_remove_wf id s : selector_wf s -> selector_wf (selector_remove_peer id s).
Proof. destruct s. intros Hs. by apply map_Forall_delete. Qed.

(** Which peers a strategy that ranks considers, and by what. *)
Definition eligible (st : SelectionStrategy) (ip : PeerId * PeerMetadata) : bool :=
  match st with SecurityFocused => reputable ip | _ => true end.

Definition strategy_score (st : SelectionStrategy) (p : PeerMetadata) : f64 :=
  match st with
  | PerformanceOptimized => performance_score p
  | SecurityFocused => peer_security_score p
  | _ => composite_score (score p)
  end.

(** No score on which a strategy sorts is NaN. *)
Definition comparable (p : PeerMetadata) : bool :=
  negb (f64_is_nan (diversity_score p)) && negb (f64_is_nan (performance_score p))
  && negb (f64_is_nan (peer_security_score p)).

Lemma min_not_nan x : f64_is_nan (f64_min x (f64_of_Z 1)) = false.
Proof. unfold f64_min. destruct (f64_is_nan x) eqn:Hx; [done|]. cbn [f64_of_Z f64_is_nan]. by destruct (f64_lt _ x). Qed.

(** A NaN operand makes a sum NaN. *)
Lemma plus_nan sum w : plus_weighted sum S754_nan w = S754_nan.
Proof. unfold plus_weighted, f64_add, f64_mul. by destruct sum. Qed.

Lemma nan_plus x w : plus_weighted S754_nan x w = S754_nan.
Proof. done. Qed.

Definition all_comparable (s : PeerSelector) : Prop :=
  map_Forall (fun _ p => comparable p = true) (selector_peers s).

Lemma remaining_comparable sel st s : all_comparable s -> all_comparable (remaining sel st s).
Proof. intros Hs id p Hp. apply map_lookup_filter_Some in Hp as [Hp _]. by apply (Hs id). Qed.

(** What a selection of at most [count] among [from] is. *)
Definition selection_of (from : gmap PeerId PeerMetadata) (count : Z) (l : list PeerId) : Prop :=
  NoDup l /\ len l <= count /\ forall id, id ∈ l -> is_Some (from !! id).

Section Selected.
  Context (iter_peers : gmap PeerId PeerMetadata -> list (PeerId * PeerMetadata)).
  Context (choose_multiple : list PeerId -> Z -> list PeerId).
  Hypothesis iter_perm : forall m, iter_peers m ≡ₚ map_to_list m.
  Hypothesis choose_sub : forall l n, choose_multiple l n ⊆+ l.
  Hypothesis choose_length : forall l n, 0 <= n -> len (choose_multiple l n) = Z.min n (len l).

Lemma iter_nodup m : NoDup (iter_peers m).*1.
Proof using iter_perm. rewrite iter_perm. apply NoDup_fst_map_to_list. Qed.

Lemma scored_by_fst key (l : list (PeerId * PeerMetadata)) : (scored_by key l).*1 = l.*1.
Proof. unfold scored_by. rewrite <- list_fmap_compose. apply list_fmap_ext. by intros ? [] ?. Qed.

Lemma ranked_is_top s count :
  strategy s <> RandomSelection -> strategy s <> DiversityFocused -> strategy s <> Hybrid ->
  select_peers iter_peers choose_multiple s count =
  select_top (scored_by (strategy_score (strategy s)) (filter (eligible (strategy s)) (iter_peers (selector_peers s)))) count.
Proof.
  intros ???. unfold select_peers. destruct (strategy s) eqn:Hs; try done.
  all: unfold select_score_based, select_performance_optimized; cbv delta [eligible] beta iota.
  all: rewrite (filter_keeps (fun _ => true)) by (by apply Forall_true); cbv delta [strategy_score] beta iota; reflexivity.
Qed.

(** [PerformanceOptimized], [ScoreBased] and [SecurityFocused] return as many
    different eligible peers as asked for and available, and no eligible peer
    that is left out scores higher than one that is returned. *)
Theorem ranked_selection s count l :
  strategy s = ScoreBased \/ strategy s = PerformanceOptimized \/ strategy s = SecurityFocused ->
  0 <= count -> select_peers iter_peers choose_multiple s count = Ok l ->
  let pool := filter (eligible (strategy s)) (map_to_list (selector_peers s)) in
  NoDup l /\ len l = Z.min count (len pool) /\ l ⊆ pool.*1 /\
  forall a p b q, (a, p) ∈ pool -> (b, q) ∈ pool -> a ∈ l -> b ∉ l ->
    f64_ge (strategy_score (strategy s) p) (strategy_score (strategy s) q) = true.
Proof using iter_perm.
  intros Hst Hc Hsel. cbv zeta. rewrite ranked_is_top in Hsel by (destruct Hst as [->|[->| ->]]; discriminate).
  set (pool := filter _ (map_to_list _)). set (it := filter _ (iter_peers _)) in Hsel.
  assert (Hp : it ≡ₚ pool) by (unfold it, pool; by rewrite iter_perm).
  apply select_top_spec in Hsel as (Hnd & Hl & Hsub & Hbest);
    [|done|rewrite scored_by_fst; eapply sublist_NoDup; [apply iter_nodup|apply fmap_sublist, sublist_filter]].
  rewrite scored_by_fst in Hsub. split_and!; [done| | |].
  - rewrite Hl. f_equal. unfold scored_by, len. by rewrite length_fmap, Hp.
  - intros x Hx. rewrite <- Hp. by apply Hsub.
  - intros a p b q Ha Hb. rewrite <- Hp in Ha, Hb.
    apply Hbest; unfold scored_by; apply list_elem_of_fmap; [by exists (a, p)|by exists (b, q)].
Qed.

Lemma diversity_chosen s count l :
  0 <= count -> select_diversity_focused iter_peers s count = Ok l ->
  exists cs chosen, cs ≡ₚ (iter_peers (selector_peers s)).*2 /\ l = peer_id <$> chosen /\
    StronglySorted (fun a b => f64_ge (diversity_score a) (diversity_score b) = true) cs /\
    greedy count (max_share count (target_geographic (diversity_targets s)))
      (max_share count (target_network (diversity_targets s))) cs [] chosen.
Proof.
  intros Hc. unfold select_diversity_focused. destruct (sort_desc _ _) as [cs| | |] eqn:Hs; try done.
  cbn [mbind outcome_bind]. intros [= <-]. apply sort_desc_spec in Hs as [Hp Hso]. exists cs.
  assert (Hm : forall t, 0 <= max_share count t) by (intros t; apply wrap64_range).
  destruct (diversity_loop_greedy count (max_share count (target_geographic (diversity_targets s)))
    (max_share count (target_network (diversity_targets s))) cs [] ∅ ∅) as (chosen & Heq & Hg);
    [done|intros; by rewrite lookup_empty..|intros; apply Hm|intros; apply Hm|].
  exists chosen. split_and!; [done|exact Heq|done..].
Qed.

Lemma diversity_is_selection s count l :
  selector_wf s -> 0 <= count -> select_diversity_focused iter_peers s count = Ok l ->
  selection_of (selector_peers s) count l.
Proof using iter_perm.
  intros Hwf Hc Hl. destruct (diversity_chosen s count l Hc Hl) as (cs & chosen & Hp & -> & _ & Hsub & Hlen & _).
  assert (Hids : peer_id <$> cs ≡ₚ (map_to_list (selector_peers s)).*1).
  { rewrite Hp, iter_perm, <- list_fmap_compose. apply Permutation_refl'. apply list_fmap_ext.
    intros i [id p] Hi. cbn. apply Hwf. apply elem_of_map_to_list. by apply list_elem_of_lookup_2 in Hi. }
  assert (Hs : peer_id <$> chosen ⊆+ (map_to_list (selector_peers s)).*1).
  { rewrite <- Hids. by apply fmap_submseteq, sublist_submseteq. }
  split_and!.
  - apply submseteq_Permutation in Hs as [rest Hs]. pose proof (NoDup_fst_map_to_list (selector_peers s)) as Hn.
    rewrite Hs in Hn. by apply NoDup_app in Hn as [? _].
  - unfold len in *. by rewrite length_fmap.
  - intros id Hid. apply (elem_of_submseteq _ _ id) in Hs; [|done]. apply list_elem_of_fmap in Hs as ([] & -> & Hin).
    apply elem_of_map_to_list in Hin. eauto.
Qed.

Lemma select_top_selection key (l : list (PeerId * PeerMetadata)) (from : gmap PeerId PeerMetadata) count r :
  0 <= count -> l `sublist_of` iter_peers from -> select_top (scored_by key l) count = Ok r -> selection_of from count r.
Proof using iter_perm.
  intros Hc Hl Hr. apply select_top_spec in Hr as (Hnd & Hlen & Hsub & _);
    [|done|rewrite scored_by_fst; eapply sublist_NoDup; [apply iter_nodup|by apply fmap_sublist]].
  split_and!; [done|lia|]. intros id Hid. apply Hsub in Hid. rewrite scored_by_fst in Hid.
  apply list_elem_of_fmap in Hid as ([i p] & -> & Hin). apply (elem_of_sublist _ (iter_peers from)) in Hin; [|done].
  rewrite iter_perm, elem_of_map_to_list in Hin. eauto.
Qed.

Lemma select_top_ok key (l : list (PeerId * PeerMetadata)) count :
  Forall (fun ip => f64_is_nan (key ip.2) = false) l -> exists r, select_top (scored_by key l) count = Ok r.
Proof.
  intros Hl. unfold select_top.
  assert (Hs : Forall (fun x : PeerId * f64 => f64_is_nan x.2 = false) (scored_by key l)).
  { apply Forall_fmap. eapply Forall_impl; [exact Hl|]. by intros []. }
  destruct (sort_desc_ok snd _ Hs) as [l' ->]. cbn. eauto.
Qed.

(** Peers left after a selection, and the union of two selections. *)
Lemma remaining_wf sel st s : selector_wf s -> selector_wf (remaining sel st s).
Proof. intros Hs id p Hp. apply map_lookup_filter_Some in Hp as [Hp _]. by apply Hs. Qed.

Lemma selection_app from n m l1 l2 :
  selection_of from n l1 -> selection_of (filter (fun ip => ip.1 ∉ l1) from) m l2 -> selection_of from (n + m) (l1 ++ l2).
Proof.
  intros (Hn1 & Hl1 & H1) (Hn2 & Hl2 & H2). split_and!.
  - apply NoDup_app. split_and!; [done| |done]. intros x Hx Hx2. destruct (H2 x Hx2) as [p Hp].
    by apply map_lookup_filter_Some in Hp as [_ Hp].
  - rewrite len_app. lia.
  - intros id [Hid|Hid]%elem_of_app; [auto|]. destruct (H2 id Hid) as [p Hp].
    apply map_lookup_filter_Some in Hp as [Hp _]. eauto.
Qed.

Lemma comparable_iter s :
  all_comparable s -> Forall (fun ip => comparable ip.2 = true) (iter_peers (selector_peers s)).
Proof using iter_perm.
  intros Hs. apply Forall_forall. intros [id p] Hin. rewrite iter_perm, elem_of_map_to_list in Hin. by apply (Hs id).
Qed.

Lemma performance_ok s count :
  0 <= count -> all_comparable s ->
  exists l, select_performance_optimized iter_peers s count = Ok l /\ selection_of (selector_peers s) count l.
Proof using iter_perm.
  intros Hc Hs. destruct (select_top_ok performance_score (iter_peers (selector_peers s)) count) as [l Hl].
  { eapply Forall_impl; [by apply comparable_iter|]. intros [id p]. unfold comparable.
    rewrite !andb_true_iff, !negb_true_iff. tauto. }
  exists l. split; [exact Hl|]. by eapply select_top_selection; [..|exact Hl].
Qed.

Lemma security_ok s count :
  0 <= count -> all_comparable s ->
  exists l, select_security_focused iter_peers s count = Ok l /\ selection_of (selector_peers s) count l.
Proof using iter_perm.
  intros Hc Hs. destruct (select_top_ok peer_security_score (filter reputable (iter_peers (selector_peers s))) count) as [l Hl].
  { apply Forall_forall. intros ip Hip. apply list_elem_of_filter in Hip as [_ Hip]. revert ip Hip.
    apply Forall_forall. eapply Forall_impl; [by apply comparable_iter|]. intros [id p]. unfold comparable.
    rewrite !andb_true_iff, !negb_true_iff. tauto. }
  exists l. split; [exact Hl|]. eapply select_top_selection; [done| |exact Hl]. apply sublist_filter.
Qed.

Lemma diversity_ok s count :
  0 <= count -> selector_wf s -> all_comparable s ->
  exists l, select_diversity_focused iter_peers s count = Ok l /\ selection_of (selector_peers s) count l.
Proof using iter_perm.
  intros Hc Hwf Hs.
  destruct (sort_desc_ok diversity_score (iter_peers (selector_peers s)).*2) as [cs Hcs].
  { apply Forall_fmap. eapply Forall_impl; [by apply comparable_iter|]. intros [id p]. unfold comparable.
    rewrite !andb_true_iff, !negb_true_iff. cbn. tauto. }
  assert (Hl : exists l, select_diversity_focused iter_peers s count = Ok l).
  { unfold select_diversity_focused. rewrite Hcs. cbn [mbind outcome_bind]. eauto. }
  destruct Hl as [l Hl]. exists l. split; [done|]. by apply diversity_is_selection.
Qed.

Lemma hybrid_ok s count :
  0 <= count -> selector_wf s -> all_comparable s ->
  exists l, select_hybrid iter_peers s count = Ok l /\ selection_of (selector_peers s) count l.
Proof using iter_perm.
  intros Hc Hwf Hs. unfold select_hybrid.
  pose proof (Z.div_mod count 3 ltac:(lia)) as Hd. pose proof (Z.mod_pos_bound count 3 ltac:(lia)) as Hm.
  destruct (performance_ok s (count / 3)) as (l1 & -> & H1); [lia|done|]. cbn [mbind outcome_bind].
  destruct (diversity_ok (remaining l1 DiversityFocused s) (count / 3)) as (l2 & -> & H2);
    [lia|by apply remaining_wf|by apply remaining_comparable|]. cbn [mbind outcome_bind].
  destruct (security_ok (remaining (l1 ++ l2) SecurityFocused s) (count - count / 3 - count / 3)) as (l3 & -> & H3);
    [lia|by apply remaining_comparable|]. cbn [mbind outcome_bind]. eexists. split; [reflexivity|].
  replace count with (count / 3 + count / 3 + (count - count / 3 - count / 3)) by lia.
  by apply selection_app; [apply selection_app|].
Qed.

(** Every strategy returns, if no score is NaN: different known peers, at most
    as many as asked for. *)
Theorem select_peers_sound s count :
  0 <= count -> selector_wf s -> all_comparable s ->
  exists l, select_peers iter_peers choose_multiple s count = Ok l /\ selection_of (selector_peers s) count l.
Proof using iter_perm choose_sub choose_length.
  intros Hc Hwf Hs. unfold select_peers. destruct (strategy s).
  - eexists. split; [reflexivity|]. unfold select_random. pose proof (choose_sub (iter_peers (selector_peers s)).*1 count) as Hsub.
    split_and!.
    + pose proof Hsub as [rest Hr]%submseteq_Permutation. pose proof (iter_nodup (selector_peers s)) as Hn. rewrite Hr in Hn.
      by apply NoDup_app in Hn as [? _].
    + rewrite choose_length by done. lia.
    + intros id Hid. apply (elem_of_submseteq _ _ id) in Hsub; [|done].
      apply list_elem_of_fmap in Hsub as ([i p] & -> & Hin). rewrite iter_perm, elem_of_map_to_list in Hin. eauto.
  - destruct (select_top_ok (fun p => composite_score (score p)) (iter_peers (selector_peers s)) count) as [l Hl].
    { apply Forall_forall. intros [] _. apply min_not_nan. }
    exists l. split; [exact Hl|]. by eapply select_top_selection; [..|exact Hl].
  - by apply diversity_ok.
  - by apply performance_ok.
  - by apply security_ok.
  - by apply hybrid_ok.
Qed.

(** The diversity strategy is the greedy choice, in the order of the diversity
    scores, under the caps on regions and providers: a peer is left out only
    if enough are selected or its region or its provider is full. *)
Theorem diversity_selection s count l :
  strategy s = DiversityFocused -> 0 <= count -> select_peers iter_peers choose_multiple s count = Ok l ->
  exists cs chosen, cs ≡ₚ (map_to_list (selector_peers s)).*2 /\ l = peer_id <$> chosen /\
    StronglySorted (fun a b => f64_ge (diversity_score a) (diversity_score b) = true) cs /\
    greedy count (max_share count (target_geographic (diversity_targets s)))
      (max_share count (target_network (diversity_targets s))) cs [] chosen.
Proof using iter_perm.
  intros Hst Hc. unfold select_peers. rewrite Hst. intros Hl.
  destruct (diversity_chosen s count l Hc Hl) as (cs & chosen & Hp & Hr). exists cs, chosen.
  split; [by rewrite Hp, iter_perm|done].
Qed.

(** With the classification of addresses the strategy cannot select more than
    three times the cap on a provider. *)
Lemma diversity_capped s count l :
  map_Forall (fun _ p => provider p = classify_network_provider (ip_address p)) (selector_peers s) ->
  0 <= count -> select_diversity_focused iter_peers s count = Ok l ->
  len l <= 3 * max_share count (target_network (diversity_targets s)).
Proof using iter_perm.
  intros Hcl Hc Hl. destruct (diversity_chosen s count l Hc Hl) as (cs & chosen & Hp & -> & _ & Hsub & _ & _ & Hv & _).
  unfold len at 1. rewrite length_fmap. fold (len chosen). rewrite classified_providers.
  - cbn [app] in Hv. pose proof (Hv Residential). pose proof (Hv DataCenter). pose proof (Hv UnknownProvider). lia.
  - apply Forall_forall. intros p Hin. apply (elem_of_sublist _ cs) in Hin; [|done]. rewrite Hp in Hin.
    apply list_elem_of_fmap in Hin as ([id q] & -> & Hin). rewrite iter_perm, elem_of_map_to_list in Hin. by apply (Hcl id).
Qed.

(** A NaN among several peers stops the strategies that use it. *)
Theorem nan_panics s count id p :
  strategy s = PerformanceOptimized -> selector_peers s !! id = Some p -> reliability (score p) = S754_nan ->
  1 < Z.of_nat (size (selector_peers s)) -> select_peers iter_peers choose_multiple s count = Panic.
Proof using iter_perm.
  intros Hst Hp Hn Hsz. unfold select_peers, select_performance_optimized, select_top, sort_desc. rewrite Hst.
  replace (1 <? _) with true.
  - replace (existsb _ _) with true; [done|]. symmetry. apply existsb_exists. exists (id, performance_score p). split.
    + apply list_elem_of_In. unfold scored_by. apply list_elem_of_fmap. exists (id, p). split; [done|].
      by rewrite iter_perm, elem_of_map_to_list.
    + cbn [snd]. unfold performance_score. rewrite Hn. done.
  - symmetry. apply Z.ltb_lt. unfold len, scored_by. rewrite length_fmap, iter_perm, length_map_to_list. done.
Qed.

End Selected.

(** Yet by the composite score such a peer is as good as can be. *)
Theorem nan_ranks_first s : reliability s = S754_nan -> composite_score s = f64_of_Z 1.
Proof. intros Hs. unfold composite_score. rewrite Hs, plus_nan, !nan_plus. reflexivity. Qed.


(** * Examples *)

Definition peer_at (id : PeerId) (ip : IpAddr) : PeerMetadata :=
  mkPeerMetadata id ip (PeerScore_new 0) (classify_geographic_region ip) (classify_network_provider ip) 1 true 0.

Definition sample_selector (st : SelectionStrategy) (ips : list IpAddr) : PeerSelector :=
  foldr selector_add_peer (PeerSelector_new st 8) (imap (fun i ip => peer_at (Z.of_nat i) ip) ips).

Definition sample_ips : list IpAddr := [V4 10 0 0 1; V4 8 8 8 8; V4 130 1 1 1; V4 200 1 1 1; V6 1 2 3 4 5 6 7 8].

Definition choose_first (l : list PeerId) (n : Z) : list PeerId := take (Z.to_nat n) l.

Lemma choose_first_sub l n : choose_first l n ⊆+ l.
Proof. unfold choose_first. apply sublist_submseteq, sublist_take. Qed.

Lemma choose_first_length l n : 0 <= n -> len (choose_first l n) = Z.min n (len l).
Proof. apply len_take. Qed.

(** Asked for a hundred peers, the strategy stops at 31 of one provider. *)
Example share_of_hundred : max_share 100 (target_network DiversityTargets_default) = 31.
Proof. vm_compute. reflexivity. Qed.

(** Two peers in one region count as more diverse than two in two regions. *)
Example diversity_metric_inverted :
  f64_gt (metric_geographic (get_diversity_metrics (sample_selector Hybrid [V4 8 8 8 8; V4 9 9 9 9])))
         (metric_geographic (get_diversity_metrics (sample_selector Hybrid [V4 8 8 8 8; V4 130 1 1 1]))) = true.
Proof. vm_compute. reflexivity. Qed.

Lemma select_peers_sound_witness :
  exists l, select_peers map_to_list choose_first (sample_selector Hybrid sample_ips) 4 = Ok l /\
    selection_of (selector_peers (sample_selector Hybrid sample_ips)) 4 l.
Proof.
  apply (select_peers_sound map_to_list choose_first (fun m => Permutation_refl (map_to_list m)) choose_first_sub choose_first_length).
  - lia.
  - apply (bool_decide_eq_true_1 (map_Forall (fun id p => peer_id p = id) (selector_peers (sample_selector Hybrid sample_ips)))). vm_compute. reflexivity.
  - apply (bool_decide_eq_true_1 (map_Forall (fun _ p => comparable p = true) (selector_peers (sample_selector Hybrid sample_ips)))). vm_compute. reflexivity.
Defined.

Example hybrid_of_four :
  select_peers map_to_list choose_first (sample_selector Hybrid sample_ips) 4 = Ok [3; 4; 2; 1].
Proof. vm_compute. reflexivity. Qed.
