(* ===== verification/PeerManager.v ===== *)
(** Connected peers (src/rusty-p2p/src/peer_manager.rs): the limits on
    connections and on the rate of messages, the record of answers, failures
    and violations, and the blacklist.

    Instants and durations are nanoseconds; the clock is an argument.  The
    counts of connected peers are sizes of filtered maps, which no iteration
    order affects; [iter_conns] is the order in which the metadata of the peers
    is listed.  Log messages are left out, and [get_peer_mut], which hands out
    the connection itself. *)

From Stdlib Require Import ZArith Lia List SpecFloat.
From stdpp Require Import base option list numbers gmap sorting.
From coqutil Require Import Datatypes.RecordSetters.
From S2P Require Import Prelude F64 PeerSelection.

Import TriangleBracketNotations.
#[local] Open Scope Z_scope.

(** * Rate limits *)

Record PeerRateLimit : Type := mkPeerRateLimit {
  last_inv_message : option Z;
  inv_message_count : Z;
  last_getheaders_message : option Z;
  getheaders_message_count : Z;
  last_blockrequest_message : option Z;
  blockrequest_message_count : Z;
  last_proofrequest_message : option Z;
  proofrequest_message_count : Z;
  window_start : Z;
}.

Definition PeerRateLimit_new (now : Z) : PeerRateLimit := mkPeerRateLimit None 0 None 0 None 0 None 0 now.

Definition window_over (now : Z) (r : PeerRateLimit) : bool := SECOND <=? duration_since now (window_start r).

Definition check_inv_rate_limit (max_per_second now : Z) (r : PeerRateLimit) : PeerRateLimit * bool :=
  let r := if window_over now r then r <| window_start := now |> <| inv_message_count := 0 |> else r in
  if max_per_second <=? inv_message_count r then (r, false)
  else (r <| inv_message_count := wrap32 (inv_message_count r + 1) |> <| last_inv_message := Some now |>, true).

Definition check_getheaders_rate_limit (max_per_second now : Z) (r : PeerRateLimit) : PeerRateLimit * bool :=
  let r := if window_over now r then r <| window_start := now |> <| getheaders_message_count := 0 |> else r in
  if max_per_second <=? getheaders_message_count r then (r, false)
  else (r <| getheaders_message_count := wrap32 (getheaders_message_count r + 1) |>
          <| last_getheaders_message := Some now |>, true).

Definition check_blockrequest_rate_limit (max_per_second now : Z) (r : PeerRateLimit) : PeerRateLimit * bool :=
  let r := if window_over now r then r <| window_start := now |> <| blockrequest_message_count := 0 |> else r in
  if max_per_second <=? blockrequest_message_count r then (r, false)
  else (r <| blockrequest_message_count := wrap32 (blockrequest_message_count r + 1) |>
          <| last_blockrequest_message := Some now |>, true).

Definition check_proofrequest_rate_limit (max_per_second now : Z) (r : PeerRateLimit) : PeerRateLimit * bool :=
  let r := if window_over now r then r <| window_start := now |> <| proofrequest_message_count := 0 |> else r in
  if max_per_second <=? proofrequest_message_count r then (r, false)
  else (r <| proofrequest_message_count := wrap32 (proofrequest_message_count r + 1) |>
          <| last_proofrequest_message := Some now |>, true).

(** * Connections *)

Record PeerConnection : Type := mkPeerConnection {
  conn_peer_id : PeerId;
  conn_ip_address : option IpAddr;
  conn_is_outbound : bool;
  conn_connected_at : Z;
  conn_score : PeerScore;
  rate_limit : PeerRateLimit;
  protocol_violations : Z;
  failed_requests : Z;
  successful_requests : Z;
}.

Definition PeerConnection_new (now : Z) (id : PeerId) (outbound : bool) (ip : option IpAddr) : PeerConnection :=
  mkPeerConnection id ip outbound now (PeerScore_new now) (PeerRateLimit_new now) 0 0 0.

Definition conn_record_success (now response_time : Z) (c : PeerConnection) : PeerConnection :=
  c <| conn_score := score_success now response_time (conn_score c) |>
    <| successful_requests := wrap32 (successful_requests c + 1) |>.

Definition conn_record_failure (now : Z) (c : PeerConnection) : PeerConnection :=
  c <| conn_score := score_failure now (conn_score c) |>
    <| failed_requests := wrap32 (failed_requests c + 1) |>.

Definition lower_compliance (s : PeerScore) : PeerScore :=
  s <| protocol_compliance := f64_max (f64_mul (protocol_compliance s) (f64_lit 9 10)) (f64_of_Z 0) |>.

Definition conn_record_violation (c : PeerConnection) : PeerConnection :=
  c <| protocol_violations := wrap32 (protocol_violations c + 1) |>
    <| conn_score := lower_compliance (conn_score c) |>.

(** * The manager *)

Record PeerManager : Type := mkPeerManager {
  peers : gmap PeerId PeerConnection;
  max_outbound_connections : Z;
  max_inbound_connections : Z;
  max_inv_per_second : Z;
  max_getheaders_per_second : Z;
  max_blockrequest_per_second : Z;
  max_proofrequest_per_second : Z;
  blacklisted_peers : gset PeerId;
}.

Definition PeerManager_new (max_outbound max_inbound : Z) : PeerManager :=
  mkPeerManager ∅ max_outbound max_inbound 10 5 2 1 ∅.

Definition is_blacklisted (id : PeerId) (m : PeerManager) : bool := bool_decide (id ∈ blacklisted_peers m).

Definition blacklist_peer (id : PeerId) (m : PeerManager) : PeerManager :=
  m <| blacklisted_peers ::= union {[ id ]} |> <| peers ::= delete id |>.

(** [peers.values().filter(..).count()] for one direction. *)
Definition count_direction (outbound : bool) (ps : gmap PeerId PeerConnection) : Z :=
  Z.of_nat (size (filter (fun ic => conn_is_outbound ic.2 = outbound) ps)).

#[global] Arguments count_direction : simpl never.

Definition outbound_count (m : PeerManager) : Z := count_direction true (peers m).
Definition inbound_count (m : PeerManager) : Z := count_direction false (peers m).
Definition total_count (m : PeerManager) : Z := Z.of_nat (size (peers m)).

Definition can_accept_outbound (m : PeerManager) : bool := outbound_count m <? max_outbound_connections m.
Definition can_accept_inbound (m : PeerManager) : bool := inbound_count m <? max_inbound_connections m.

Definition add_peer (now : Z) (id : PeerId) (outbound : bool) (ip : option IpAddr) (m : PeerManager) :
    PeerManager * bool :=
  if is_blacklisted id m then (m, false)
  else if bool_decide (is_Some (peers m !! id)) then (m, true)
  else if outbound && negb (can_accept_outbound m) then (m, false)
  else if negb outbound && negb (can_accept_inbound m) then (m, false)
  else (m <| peers ::= <[id := PeerConnection_new now id outbound ip]> |>, true).

Definition remove_peer (id : PeerId) (m : PeerManager) : PeerManager := m <| peers ::= delete id |>.

Definition get_peer (id : PeerId) (m : PeerManager) : option PeerConnection := peers m !! id.

Definition get_peer_ids (iter_conns : gmap PeerId PeerConnection -> list (PeerId * PeerConnection)) (m : PeerManager) :
    list PeerId := (iter_conns (peers m)).*1.

(** The rate limit of a connected peer; the message of another is refused. *)
Definition check_peer (check : Z -> Z -> PeerRateLimit -> PeerRateLimit * bool) (max_per_second now : Z) (id : PeerId)
    (m : PeerManager) : PeerManager * bool :=
  match peers m !! id with
  | Some c =>
      let '(r, ok) := check max_per_second now (rate_limit c) in
      (m <| peers ::= <[id := c <| rate_limit := r |>]> |>, ok)
  | None => (m, false)
  end.

Definition manager_check_inv (now : Z) (id : PeerId) (m : PeerManager) : PeerManager * bool :=
  check_peer check_inv_rate_limit (max_inv_per_second m) now id m.

Definition manager_check_getheaders (now : Z) (id : PeerId) (m : PeerManager) : PeerManager * bool :=
  check_peer check_getheaders_rate_limit (max_getheaders_per_second m) now id m.

Definition manager_check_blockrequest (now : Z) (id : PeerId) (m : PeerManager) : PeerManager * bool :=
  check_peer check_blockrequest_rate_limit (max_blockrequest_per_second m) now id m.

Definition manager_check_proofrequest (now : Z) (id : PeerId) (m : PeerManager) : PeerManager * bool :=
  check_peer check_proofrequest_rate_limit (max_proofrequest_per_second m) now id m.

Definition peer_record_success (now response_time : Z) (id : PeerId) (m : PeerManager) : PeerManager :=
  match peers m !! id with
  | Some c => m <| peers ::= <[id := conn_record_success now response_time c]> |>
  | None => m
  end.

Definition peer_record_failure (now : Z) (id : PeerId) (m : PeerManager) : PeerManager :=
  match peers m !! id with
  | Some c =>
      let c := conn_record_failure now c in
      let m := m <| peers ::= <[id := c]> |> in
      if (20 <? failed_requests c) && (reputation (conn_score c) <? -50) then blacklist_peer id m else m
  | None => m
  end.

Definition record_violation (id : PeerId) (m : PeerManager) : PeerManager :=
  match peers m !! id with
  | Some c =>
      let c := conn_record_violation c in
      let m := m <| peers ::= <[id := c]> |> in
      if 10 <? protocol_violations c then blacklist_peer id m else m
  | None => m
  end.

Definition is_stale (now max_idle_time : Z) (c : PeerConnection) : bool :=
  max_idle_time <? duration_since now (last_seen (conn_score c)).

Definition cleanup_stale_peers (iter_conns : gmap PeerId PeerConnection -> list (PeerId * PeerConnection))
    (now max_idle_time : Z) (m : PeerManager) : PeerManager :=
  foldl (fun m id => remove_peer id m) m (filter (fun ic => is_stale now max_idle_time ic.2) (iter_conns (peers m))).*1.

Definition metadata_of (c : PeerConnection) : PeerMetadata :=
  let ip := default (V4 127 0 0 1) (conn_ip_address c) in
  mkPeerMetadata (conn_peer_id c) ip (conn_score c) (classify_geographic_region ip) (classify_network_provider ip) 1
    (conn_is_outbound c) (conn_connected_at c).

Definition get_peer_metadata (iter_conns : gmap PeerId PeerConnection -> list (PeerId * PeerConnection))
    (m : PeerManager) : list PeerMetadata := metadata_of <$> (iter_conns (peers m)).*2.

(** * The rate of messages *)

Inductive LimitedKind : Type := LimitInv | LimitGetHeaders | LimitBlockRequest | LimitProofRequest.

#[export] Instance LimitedKind_eq_dec : EqDecision LimitedKind.
Proof. solve_decision. Defined.

Definition check_limit (k : LimitedKind) : Z -> Z -> PeerRateLimit -> PeerRateLimit * bool :=
  match k with
  | LimitInv => check_inv_rate_limit
  | LimitGetHeaders => check_getheaders_rate_limit
  | LimitBlockRequest => check_blockrequest_rate_limit
  | LimitProofRequest => check_proofrequest_rate_limit
  end.

Definition count_of (k : LimitedKind) (r : PeerRateLimit) : Z :=
  match k with
  | LimitInv => inv_message_count r
  | LimitGetHeaders => getheaders_message_count r
  | LimitBlockRequest => blockrequest_message_count r
  | LimitProofRequest => proofrequest_message_count r
  end.

(** The four checks are one: the window is shared, the counters are not. *)
Lemma check_limit_spec k limit now r r' ok :
  check_limit k limit now r = (r', ok) ->
  let c := if window_over now r then 0 else count_of k r in
  ok = (c <? limit) /\
  count_of k r' = (if ok then wrap32 (c + 1) else c) /\
  window_start r' = (if window_over now r then now else window_start r) /\
  forall j, j <> k -> count_of j r' = count_of j r.
Proof.
  intros H. cbv zeta.
  destruct r, k; cbn [check_limit count_of] in *;
    unfold check_inv_rate_limit, check_getheaders_rate_limit, check_blockrequest_rate_limit,
      check_proofrequest_rate_limit in H;
    destruct (window_over _ _) eqn:Hw; cbn in H;
    match type of H with (if ?a <=? ?b then _ else _) = _ => destruct (Z.leb_spec a b) end;
    injection H as <- <-; cbn; unfold RecordSetters.constant in *;
    (split_and!; [symmetry; first [apply Z.ltb_lt; lia|apply Z.ltb_ge; lia]|done|done|by intros []]).
Qed.

(** The number of messages of kind [k] let through in a series of messages. *)
Fixpoint messages_allowed (k : LimitedKind) (limits : LimitedKind -> Z) (r : PeerRateLimit) (msgs : list (LimitedKind * Z)) : Z :=
  match msgs with
  | [] => 0
  | (j, now) :: msgs =>
      let '(r', ok) := check_limit j (limits j) now r in
      (if ok && bool_decide (j = k) then 1 else 0) + messages_allowed k limits r' msgs
  end.

Definition seconds_left (t : Z) (r : PeerRateLimit) : Z := Z.max 0 ((t - window_start r) / SECOND).

(** Each window admits at most the limit, and a new window takes a second. *)
Lemma allowed_bound k limits t msgs : forall r,
  Forall (fun m => m.2 <= t) msgs -> 0 <= limits k <= u32_max -> 0 <= count_of k r <= limits k ->
  messages_allowed k limits r msgs <= limits k - count_of k r + limits k * seconds_left t r.
Proof.
  induction msgs as [|[j now] msgs IH]; intros r Ht Hl Hc; cbn [messages_allowed].
  { unfold seconds_left. nia. }
  inversion_clear Ht as [|? ? Hnow Ht']. cbn in Hnow.
  destruct (check_limit j (limits j) now r) as [r' ok] eqn:Hk. apply check_limit_spec in Hk as (Hok & Hcnt & Hws & Hoth).
  assert (Hsec : seconds_left t r' <= seconds_left t r /\ (window_over now r = true -> seconds_left t r' + 1 <= seconds_left t r)).
  { unfold seconds_left. rewrite Hws. unfold window_over, duration_since in *. destruct (Z.leb_spec SECOND (Z.max 0 (now - window_start r))) as [Ho|Ho].
    - assert ((t - now) / SECOND + 1 <= (t - window_start r) / SECOND); [|pose proof (Z.div_pos (t - now) SECOND ltac:(lia) ltac:(unfold SECOND; lia));
        split; [lia|intros _; lia]].
      rewrite <- Z.div_add by (unfold SECOND; lia). apply Z.div_le_mono; unfold SECOND in *; lia.
    - split; [lia|done]. }
  destruct Hsec as [Hsec Hsec'].
  destruct (decide (j = k)) as [->|Hne].
  - rewrite (bool_decide_eq_true_2 (k = k)) by done. rewrite andb_true_r.
    destruct (window_over now r); subst ok.
    + destruct (Z.ltb_spec 0 (limits k)) as [Hp|Hp].
      * change (wrap32 (0 + 1)) with 1 in Hcnt. specialize (IH r' Ht' Hl ltac:(lia)). specialize (Hsec' eq_refl). nia.
      * specialize (IH r' Ht' Hl ltac:(lia)). nia.
    + destruct (Z.ltb_spec (count_of k r) (limits k)) as [Hp|Hp].
      * rewrite wrap32_small in Hcnt by lia. specialize (IH r' Ht' Hl ltac:(lia)). nia.
      * specialize (IH r' Ht' Hl ltac:(lia)). nia.
  - rewrite (bool_decide_eq_false_2 (j = k)) by done. rewrite andb_false_r.
    rewrite <- (Hoth k) in Hc |- * by done. specialize (IH r' Ht' Hl Hc). nia.
Qed.

(** A connection made at [t0] gets at most the limit of each kind, and as much
    again for each second that has passed, whatever it sends. *)
Theorem rate_is_limited k limits t0 t msgs :
  0 <= limits k <= u32_max -> t0 <= t -> Forall (fun m => m.2 <= t) msgs ->
  messages_allowed k limits (PeerRateLimit_new t0) msgs <= limits k * (1 + (t - t0) / SECOND).
Proof.
  intros Hl Ht Hm. pose proof (allowed_bound k limits t msgs (PeerRateLimit_new t0) Hm Hl) as Hb.
  assert (Hc : count_of k (PeerRateLimit_new t0) = 0) by (by destruct k). rewrite Hc in Hb. specialize (Hb ltac:(lia)).
  unfold seconds_left in Hb. cbn [window_start PeerRateLimit_new] in Hb.
  rewrite Z.max_r in Hb by (apply Z.div_pos; unfold SECOND; lia). lia.
Qed.

(** Once a second a message of kind [j], and [d] later one of kind [k]. *)
Fixpoint alternating (j k : LimitedKind) (t d : Z) (n : nat) : list (LimitedKind * Z) :=
  match n with
  | O => []
  | S n => (j, t) :: (k, t + d) :: alternating j k (t + SECOND) d n
  end.

(** A kind whose counter is at the limit is refused for as long as messages of
    another kind open the windows, at one message a second too. *)
Theorem shared_window_starves j k limits d n : forall r t,
  j <> k -> 0 <= d < SECOND -> limits k <= count_of k r -> window_start r + SECOND <= t ->
  messages_allowed k limits r (alternating j k t d n) = 0.
Proof.
  induction n as [|n IH]; intros r t Hjk Hd Hc Ht; [done|]. cbn [alternating messages_allowed].
  destruct (check_limit j (limits j) t r) as [r1 ok1] eqn:H1. apply check_limit_spec in H1 as (_ & _ & Hw1 & Ho1).
  destruct (check_limit k (limits k) (t + d) r1) as [r2 ok2] eqn:H2. apply check_limit_spec in H2 as (Hok2 & Hc2 & Hw2 & _).
  assert (Hover : window_over t r = true).
  { unfold window_over, duration_since. apply Z.leb_le. unfold SECOND in *. lia. }
  rewrite Hover in Hw1.
  assert (Hin : window_over (t + d) r1 = false).
  { unfold window_over, duration_since. rewrite Hw1. apply Z.leb_gt. unfold SECOND in *. lia. }
  rewrite Hin in Hok2, Hc2, Hw2. rewrite (Ho1 k) in Hok2, Hc2 by done.
  assert (Hf : ok2 = false) by (subst ok2; by apply Z.ltb_ge). rewrite Hf in *.
  rewrite (bool_decide_eq_false_2 (j = k)) by done. rewrite andb_false_r. cbn [andb].
  rewrite IH; [done..|lia|lia].
Qed.

(** * The manager over its life *)

Definition limit_of (m : PeerManager) (k : LimitedKind) : Z :=
  match k with
  | LimitInv => max_inv_per_second m
  | LimitGetHeaders => max_getheaders_per_second m
  | LimitBlockRequest => max_blockrequest_per_second m
  | LimitProofRequest => max_proofrequest_per_second m
  end.

Definition manager_check (k : LimitedKind) (now : Z) (id : PeerId) (m : PeerManager) : PeerManager * bool :=
  match k with
  | LimitInv => manager_check_inv now id m
  | LimitGetHeaders => manager_check_getheaders now id m
  | LimitBlockRequest => manager_check_blockrequest now id m
  | LimitProofRequest => manager_check_proofrequest now id m
  end.

Inductive PeerOp : Type :=
| OpBlacklist (id : PeerId)
| OpAdd (now : Z) (id : PeerId) (outbound : bool) (ip : option IpAddr)
| OpRemovePeer (id : PeerId)
| OpMessage (k : LimitedKind) (now : Z) (id : PeerId)
| OpSuccess (now response_time : Z) (id : PeerId)
| OpFailure (now : Z) (id : PeerId)
| OpViolation (id : PeerId)
| OpCleanup (now max_idle_time : Z).

Definition peer_exec (op : PeerOp) (m : PeerManager) : PeerManager :=
  match op with
  | OpBlacklist id => blacklist_peer id m
  | OpAdd now id outbound ip => fst (add_peer now id outbound ip m)
  | OpRemovePeer id => remove_peer id m
  | OpMessage k now id => fst (manager_check k now id m)
  | OpSuccess now d id => peer_record_success now d id m
  | OpFailure now id => peer_record_failure now id m
  | OpViolation id => record_violation id m
  | OpCleanup now idle => cleanup_stale_peers map_to_list now idle m
  end.

Definition peer_run (m : PeerManager) (ops : list PeerOp) : PeerManager := foldl (fun m op => peer_exec op m) m ops.

Definition conn_ok (limits : LimitedKind -> Z) (id : PeerId) (c : PeerConnection) : Prop :=
  conn_peer_id c = id /\
  -100 <= reputation (conn_score c) <= 100 /\
  0 <= protocol_violations c <= 10 /\
  (failed_requests c <= 20 \/ -50 <= reputation (conn_score c)) /\
  forall k, 0 <= count_of k (rate_limit c) <= limits k.

Definition peers_ok (m : PeerManager) : Prop :=
  map_Forall (conn_ok (limit_of m)) (peers m) /\
  outbound_count m <= max_outbound_connections m /\
  inbound_count m <= max_inbound_connections m /\
  (forall id, id ∈ blacklisted_peers m -> peers m !! id = None) /\
  (forall k, 0 <= limit_of m k <= u32_max).

Lemma count_direction_le b m m' :
  (forall id c', m' !! id = Some c' -> exists c, m !! id = Some c /\ conn_is_outbound c = conn_is_outbound c') ->
  count_direction b m' <= count_direction b m.
Proof.
  intros H. unfold count_direction. rewrite <- !size_dom. apply inj_le, subseteq_size. intros id.
  rewrite !elem_of_dom. intros [c' [Hc' Hb]%map_lookup_filter_Some]. destruct (H id c' Hc') as (c & Hc & Hd).
  exists c. apply map_lookup_filter_Some. cbn in *. split; congruence.
Qed.

Lemma count_direction_insert b id c m :
  m !! id = None -> count_direction b (<[id := c]> m) = count_direction b m + (if decide (conn_is_outbound c = b) then 1 else 0).
Proof.
  intros Hm. unfold count_direction. destruct (decide (conn_is_outbound c = b)) as [Hb|Hb].
  - rewrite map_filter_insert_True by done. rewrite map_size_insert_None; [lia|]. apply map_lookup_filter_None. by left.
  - rewrite map_filter_insert_False by done. rewrite delete_id by done. lia.
Qed.

(** An operation that changes one connection in place. *)
Lemma manager_ok_update id c c' m :
  peers_ok m -> peers m !! id = Some c -> conn_is_outbound c' = conn_is_outbound c ->
  conn_ok (limit_of m) id c' -> peers_ok (m <| peers ::= <[id := c']> |>).
Proof.
  intros (Hf & Hout & Hin & Hbl & Hlim) Hc Hdir Hok.
  assert (Hle : forall b, count_direction b (<[id := c']> (peers m)) <= count_direction b (peers m)).
  { intros b. apply count_direction_le. intros j d. rewrite lookup_insert_Some.
    intros [[<- <-]|[_ Hd]]; [exists c; split; [done|by rewrite Hdir]|eauto]. }
  destruct m as [ps mo mi l1 l2 l3 l4 bl]. unfold peers_ok, outbound_count, inbound_count in *. cbn in *. split_and!.
  - by apply map_Forall_insert_2.
  - specialize (Hle true). lia.
  - specialize (Hle false). lia.
  - intros j Hj. rewrite lookup_insert_ne by (intros <-; specialize (Hbl _ Hj); congruence). auto.
  - done.
Qed.

Lemma manager_ok_delete id m : peers_ok m -> peers_ok (m <| peers ::= delete id |>).
Proof.
  intros (Hf & Hout & Hin & Hbl & Hlim).
  assert (Hle : forall b, count_direction b (delete id (peers m)) <= count_direction b (peers m)).
  { intros b. apply count_direction_le. intros j d. rewrite lookup_delete_Some. intros [_ Hd]. eauto. }
  destruct m as [ps mo mi l1 l2 l3 l4 bl]. unfold peers_ok, outbound_count, inbound_count in *. cbn in *. split_and!.
  - by apply map_Forall_delete.
  - specialize (Hle true). lia.
  - specialize (Hle false). lia.
  - intros j Hj. apply lookup_delete_None. auto.
  - done.
Qed.

Lemma manager_ok_blacklist id m : peers_ok m -> peers_ok (blacklist_peer id m).
Proof.
  intros Hm. apply (manager_ok_delete id) in Hm as (Hf & Hout & Hin & Hbl & Hlim).
  destruct m as [ps mo mi l1 l2 l3 l4 bl]. split_and!; [done..| |done].
  intros j [Hj|Hj]%elem_of_union; [|by apply Hbl]. apply elem_of_singleton in Hj as ->. apply lookup_delete_eq.
Qed.

Lemma wrap_i32_small z : -2147483648 <= z <= 2147483647 -> wrap_i32 z = z.
Proof. intros Hz. unfold wrap_i32. rewrite Z.mod_small; lia. Qed.

Lemma check_conn_ok limits k now id c r ok :
  (forall j, 0 <= limits j <= u32_max) -> conn_ok limits id c -> check_limit k (limits k) now (rate_limit c) = (r, ok) ->
  conn_ok limits id (c <| rate_limit := r |>).
Proof.
  intros Hl (Hid & Hr & Hv & Hf & Hk) Hc. apply check_limit_spec in Hc as (Hok & Hcnt & _ & Ho).
  assert (Hr' : forall j, 0 <= count_of j r <= limits j).
  { intros j. destruct (decide (j = k)) as [->|Hne]; [|by rewrite Ho]. specialize (Hk k). specialize (Hl k).
    rewrite Hcnt. subst ok. set (n := if window_over _ _ then _ else _) in *.
    assert (0 <= n <= limits k) by (unfold n; destruct (window_over _ _); lia).
    destruct (Z.ltb_spec n (limits k)); [rewrite wrap32_small|]; lia. }
  by destruct c.
Qed.

Lemma success_conn_ok limits now d id c : conn_ok limits id c -> conn_ok limits id (conn_record_success now d c).
Proof.
  intros (Hid & Hr & Hv & Hf & Hk). destruct c as [i ip o at_ [] r v f s]. cbn in *. unfold conn_ok, RecordSetters.constant. cbn.
  unfold RecordSetters.constant in *. rewrite wrap_i32_small by lia. split_and!; [done|lia|lia|lia|lia|lia|done].
Qed.

Lemma failure_conn_ok limits now id c :
  conn_ok limits id c ->
  (20 <? failed_requests (conn_record_failure now c)) && (reputation (conn_score (conn_record_failure now c)) <? -50) = false ->
  conn_ok limits id (conn_record_failure now c).
Proof.
  intros (Hid & Hr & Hv & Hf & Hk). destruct c as [i ip o at_ [] r v f s]. cbn in *. unfold conn_ok, RecordSetters.constant. cbn.
  unfold RecordSetters.constant in *. rewrite wrap_i32_small by lia. intros Hc.
  apply andb_false_iff in Hc. rewrite Z.ltb_ge, Z.ltb_ge in Hc. split_and!; [done|lia|lia|lia|lia|lia|done].
Qed.

Lemma violation_conn_ok limits id c :
  conn_ok limits id c -> (10 <? protocol_violations (conn_record_violation c)) = false ->
  conn_ok limits id (conn_record_violation c).
Proof.
  intros (Hid & Hr & Hv & Hf & Hk). destruct c as [i ip o at_ [] r v f s]. cbn in *. unfold conn_ok, RecordSetters.constant. cbn.
  unfold RecordSetters.constant in *. rewrite wrap32_small by (unfold u32_max; lia). intros Hc%Z.ltb_ge.
  split_and!; [done|lia|lia|lia|lia|lia|done].
Qed.

Lemma add_peer_ok now id outbound ip m : peers_ok m -> peers_ok (fst (add_peer now id outbound ip m)).
Proof.
  intros Hm. unfold add_peer, is_blacklisted. case_bool_decide as Hbl; [done|]. case_bool_decide as Hin; [done|].
  apply eq_None_not_Some in Hin. destruct (outbound && _) eqn:Ho; [done|]. destruct (negb outbound && _) eqn:Hi; [done|].
  destruct Hm as (Hf & Hout & Hinb & Hb & Hlim).
  assert (Hn : forall k, count_of k (PeerRateLimit_new now) = 0) by (by intros []).
  pose proof (count_direction_insert true id (PeerConnection_new now id outbound ip) (peers m) Hin) as Ht.
  pose proof (count_direction_insert false id (PeerConnection_new now id outbound ip) (peers m) Hin) as Hff.
  unfold can_accept_outbound, can_accept_inbound in *.
  destruct m as [ps mo mi l1 l2 l3 l4 bl]. unfold peers_ok, outbound_count, inbound_count in *. cbn in *.
  split_and!; [|destruct outbound; cbn in *; repeat case_decide; try congruence; lia..| |done].
  - apply map_Forall_insert_2; [|done]. split_and!; cbn; try lia; try done. intros k. rewrite Hn.
    specialize (Hlim k). destruct k; cbn in *; lia.
  - intros j Hj. rewrite lookup_insert_ne by (by intros <-). auto.
Qed.

Lemma manager_check_ok k now id m : peers_ok m -> peers_ok (fst (manager_check k now id m)).
Proof.
  intros Hm.
  assert (Heq : manager_check k now id m = check_peer (check_limit k) (limit_of m k) now id m) by (by destruct k).
  rewrite Heq. unfold check_peer. destruct (peers m !! id) as [c|] eqn:Hc; [|done].
  destruct (check_limit k _ now (rate_limit c)) as [r ok] eqn:Hr. cbn [fst].
  apply (manager_ok_update id c); [done..|by destruct c|]. destruct Hm as (Hf & _ & _ & _ & Hl).
  by eapply check_conn_ok; [|apply Hf|].
Qed.

Lemma record_failure_ok now id m : peers_ok m -> peers_ok (peer_record_failure now id m).
Proof.
  intros Hm. unfold peer_record_failure. destruct (peers m !! id) as [c|] eqn:Hc; [|done]. cbv zeta.
  destruct (_ && _) eqn:Hb.
  - replace (blacklist_peer id _) with (blacklist_peer id m); [by apply manager_ok_blacklist|].
    destruct m. unfold blacklist_peer. cbn. f_equal. symmetry. apply delete_insert_eq.
  - apply (manager_ok_update id c); [done..|by destruct c|]. destruct Hm as (Hf & _). by apply failure_conn_ok; [apply Hf|].
Qed.

Lemma record_violation_ok id m : peers_ok m -> peers_ok (record_violation id m).
Proof.
  intros Hm. unfold record_violation. destruct (peers m !! id) as [c|] eqn:Hc; [|done]. cbv zeta.
  destruct (10 <? _) eqn:Hb.
  - replace (blacklist_peer id _) with (blacklist_peer id m); [by apply manager_ok_blacklist|].
    destruct m. unfold blacklist_peer. cbn. f_equal. symmetry. apply delete_insert_eq.
  - apply (manager_ok_update id c); [done..|by destruct c|]. destruct Hm as (Hf & _). by apply violation_conn_ok; [apply Hf|].
Qed.

Lemma removes_ok ids : forall m, peers_ok m -> peers_ok (foldl (fun m id => remove_peer id m) m ids).
Proof. induction ids as [|id ids IH]; intros m Hm; [done|]. by apply IH, manager_ok_delete. Qed.

Lemma peer_exec_ok op m : peers_ok m -> peers_ok (peer_exec op m).
Proof.
  intros Hm. destruct op; cbn [peer_exec].
  - by apply manager_ok_blacklist.
  - by apply add_peer_ok.
  - by apply manager_ok_delete.
  - by apply manager_check_ok.
  - unfold peer_record_success. destruct (peers m !! id) as [c|] eqn:Hc; [|done].
    apply (manager_ok_update id c); [done..|by destruct c|]. destruct Hm as (Hf & _). by apply success_conn_ok, Hf.
  - by apply record_failure_ok.
  - by apply record_violation_ok.
  - by apply removes_ok.
Qed.

Lemma peer_run_ok max_outbound max_inbound ops :
  0 <= max_outbound -> 0 <= max_inbound -> peers_ok (peer_run (PeerManager_new max_outbound max_inbound) ops).
Proof.
  intros Ho Hi. assert (Hm : peers_ok (PeerManager_new max_outbound max_inbound)).
  { split_and!; [apply map_Forall_empty|done|done|done|]. by intros []. }
  revert Hm. generalize (PeerManager_new max_outbound max_inbound).
  induction ops as [|op ops IH]; intros m Hm; [done|]. by apply IH, peer_exec_ok.
Qed.

(** C37. In every state a manager gets into, connections are within their limits in
    both directions, none is blacklisted, no counter is above its rate, every
    reputation is between -100 and 100, and no peer is connected that has more
    than ten violations or more than twenty failures and a reputation below
    -50. *)
Theorem peer_manager_invariant max_outbound max_inbound ops :
  0 <= max_outbound -> 0 <= max_inbound -> peers_ok (peer_run (PeerManager_new max_outbound max_inbound) ops).
Proof. apply peer_run_ok. Qed.

(** A cleanup removes exactly the peers that were silent for too long. *)
Theorem cleanup_removes_stale iter_conns now idle m id c :
  (forall ps, iter_conns ps ≡ₚ map_to_list ps) ->
  peers (cleanup_stale_peers iter_conns now idle m) !! id = Some c <->
  peers m !! id = Some c /\ is_stale now idle c = false.
Proof.
  intros Hp. unfold cleanup_stale_peers. set (ids := (filter _ _).*1).
  assert (Heq : peers (foldl (fun m id => remove_peer id m) m ids) = foldl (fun m id => delete id m) (peers m) ids).
  { clearbody ids. revert m. induction ids as [|j ids IH]; intros m; [done|]. cbn. rewrite IH. by destruct m. }
  rewrite Heq, deletes_lookup.
  assert (Hids : forall c, peers m !! id = Some c -> id ∈ ids <-> is_stale now idle c = true).
  { intros d Hd. unfold ids. rewrite list_elem_of_fmap. split.
    - intros ([j e] & -> & [Hs Hin]%list_elem_of_filter). rewrite Hp, elem_of_map_to_list in Hin. cbn in *.
      rewrite Hd in Hin. injection Hin as <-. by apply Is_true_true.
    - intros Hs. exists (id, d). split; [done|]. apply list_elem_of_filter. cbn. rewrite Hs. split; [done|].
      by rewrite Hp, elem_of_map_to_list. }
  case_bool_decide as Hin; split.
  - done.
  - intros [Hc Hs]. apply (Hids c Hc) in Hin. congruence.
  - intros Hc. split; [done|]. apply not_true_is_false. intros Hs. apply Hin. by apply (Hids c Hc).
  - by intros [].
Qed.

(** * The blacklist *)

(** A blacklisted peer stays blacklisted. *)
Lemma peer_exec_blacklist op m : blacklisted_peers m ⊆ blacklisted_peers (peer_exec op m).
Proof.
  destruct op; cbn [peer_exec].
  - destruct m. cbn. set_solver.
  - unfold add_peer. repeat (destruct (_ : bool); [done|]). by destruct m.
  - by destruct m.
  - assert (Heq : manager_check k now id m = check_peer (check_limit k) (limit_of m k) now id m) by (by destruct k).
    rewrite Heq. unfold check_peer. destruct (peers m !! id); [|done]. destruct (check_limit _ _ _ _). by destruct m.
  - unfold peer_record_success. destruct (peers m !! id); [|done]. by destruct m.
  - unfold peer_record_failure. destruct (peers m !! id); [|done]. cbv zeta. destruct (_ && _); destruct m; cbn; set_solver.
  - unfold record_violation. destruct (peers m !! id); [|done]. cbv zeta. destruct (10 <? _); destruct m; cbn; set_solver.
  - unfold cleanup_stale_peers. set (ids := (filter _ _).*1). clearbody ids. revert m.
    induction ids as [|j ids IH]; intros m; [done|]. cbn. by rewrite <- IH; destruct m.
Qed.

(** Whatever happens after a peer is blacklisted, it is not connected again and
    its connections are refused. *)
Theorem blacklisted_for_good max_outbound max_inbound ops ops' id now outbound ip :
  0 <= max_outbound -> 0 <= max_inbound ->
  let m := peer_run (PeerManager_new max_outbound max_inbound) ops in
  let m' := peer_run m ops' in
  id ∈ blacklisted_peers m -> peers m' !! id = None /\ add_peer now id outbound ip m' = (m', false).
Proof.
  intros Ho Hi m m' Hid.
  assert (Hin : id ∈ blacklisted_peers m').
  { unfold m'. clearbody m. clear m'. revert m Hid. induction ops' as [|op ops' IH]; intros m Hid; [done|].
    apply IH. by apply peer_exec_blacklist. }
  assert (Hok : peers_ok m').
  { unfold m', m, peer_run. rewrite <- foldl_app. by apply peer_run_ok. }
  split; [by apply Hok|]. unfold add_peer, is_blacklisted. by rewrite bool_decide_eq_true_2.
Qed.

Lemma violations_count id n : forall m c,
  peers m !! id = Some c -> 0 <= protocol_violations c -> protocol_violations c + Z.of_nat n <= 10 ->
  exists c', let m' := Nat.iter n (record_violation id) m in
    peers m' = <[id := c']> (peers m) /\ protocol_violations c' = protocol_violations c + Z.of_nat n /\
    conn_is_outbound c' = conn_is_outbound c /\ blacklisted_peers m' = blacklisted_peers m /\
    max_outbound_connections m' = max_outbound_connections m /\ max_inbound_connections m' = max_inbound_connections m.
Proof.
  induction n as [|n IH]; intros m c Hc H0 Hn.
  - exists c. cbn. rewrite insert_id by done. split_and!; [done|lia|done..].
  - destruct (IH m c Hc H0 ltac:(lia)) as (c' & Hp & Hv & Hd & Hb & Hx & Hy). cbv zeta in *. rewrite Nat.iter_succ.
    set (m1 := Nat.iter n _ m) in *. exists (conn_record_violation c'). unfold record_violation. rewrite Hp, lookup_insert_eq.
    assert (Hv' : protocol_violations (conn_record_violation c') = protocol_violations c' + 1).
    { destruct c' as [? ? ? ? [] ? ? ? ?]. cbn in *. unfold RecordSetters.constant. apply wrap32_small. unfold u32_max. lia. }
    rewrite Hv'. replace (10 <? _) with false by (symmetry; apply Z.ltb_ge; lia).
    destruct m1 as [ps mo mi l1 l2 l3 l4 bl]. cbn in *. rewrite Hp, insert_insert_eq.
    split_and!; [done|lia|by destruct c'|done..].
Qed.

(** The eleventh violation of a connection, and no earlier one, ends it for
    good. *)
Theorem violations_blacklist id m c n :
  peers m !! id = Some c -> protocol_violations c = 0 -> id ∉ blacklisted_peers m ->
  is_blacklisted id (Nat.iter n (record_violation id) m) = (10 <? Z.of_nat n).
Proof.
  intros Hc Hv Hb. unfold is_blacklisted. destruct (Z.ltb_spec 10 (Z.of_nat n)) as [Hn|Hn].
  - apply bool_decide_eq_true_2. replace n with ((n - 11) + S 10)%nat by lia. rewrite Nat.iter_add, Nat.iter_succ.
    destruct (violations_count id 10 m c Hc ltac:(lia) ltac:(lia)) as (c' & Hp & Hv' & _).
    revert Hp. generalize (Nat.iter 10 (record_violation id) m). intros m10 Hp.
    assert (H11 : id ∈ blacklisted_peers (record_violation id m10)).
    { unfold record_violation. rewrite Hp, lookup_insert_eq.
      replace (10 <? _) with true; [destruct m10; cbn; set_solver|]. symmetry. apply Z.ltb_lt.
      destruct c' as [? ? ? ? [] ? ? ? ?]. cbn in *. unfold RecordSetters.constant. rewrite wrap32_small; unfold u32_max; lia. }
    revert H11. generalize (record_violation id m10). intros m11 H11. induction (n - 11)%nat as [|k IH]; [done|]. rewrite Nat.iter_succ.
    by apply (peer_exec_blacklist (OpViolation id)).
  - apply bool_decide_eq_false_2.
    destruct (violations_count id n m c Hc ltac:(lia) ltac:(lia)) as (c' & _ & _ & _ & -> & _). done.
Qed.

(** Ten violations and a new connection. *)
Definition offend_and_reconnect (now : Z) (id : PeerId) (outbound : bool) (ip : option IpAddr) (m : PeerManager) : PeerManager :=
  fst (add_peer now id outbound ip (remove_peer id (Nat.iter 10 (record_violation id) m))).

Definition clean_connection (id : PeerId) (outbound : bool) (m : PeerManager) : Prop :=
  peers_ok m /\ exists c, peers m !! id = Some c /\ conn_is_outbound c = outbound /\ protocol_violations c = 0.

Lemma violations_ok id n m : peers_ok m -> peers_ok (Nat.iter n (record_violation id) m).
Proof. intros Hm. induction n as [|n IH]; [done|]. rewrite Nat.iter_succ. by apply record_violation_ok. Qed.

Lemma offend_step now id outbound ip m :
  clean_connection id outbound m -> clean_connection id outbound (offend_and_reconnect now id outbound ip m).
Proof.
  intros (Hm & c & Hc & Hd & Hv).
  destruct (violations_count id 10 m c Hc ltac:(lia) ltac:(lia)) as (c' & Hp & _ & Hd' & Hb & Hx & Hy). cbv zeta in *.
  unfold offend_and_reconnect. pose proof (violations_ok id 10 m Hm) as Hm1.
  revert Hp Hb Hx Hy Hm1. generalize (Nat.iter 10 (record_violation id) m). intros m1 Hp Hb Hx Hy Hm1.
  split; [by apply add_peer_ok, manager_ok_delete|].
  assert (Hroom : count_direction outbound (delete id (peers m1)) < (if outbound then max_outbound_connections m1 else max_inbound_connections m1)).
  { pose proof (count_direction_insert outbound id c' (delete id (peers m1)) (lookup_delete_eq _ _)) as Hins.
    rewrite insert_delete_eq, Hp, insert_insert_eq, <- Hp, decide_True in Hins by congruence.
    destruct Hm1 as (_ & Ho & Hi & _). unfold outbound_count, inbound_count in *. destruct outbound; lia. }
  assert (Hnb : id ∉ blacklisted_peers m1).
  { rewrite Hb. intros Hin. destruct Hm as (_ & _ & _ & Hbl & _). specialize (Hbl id Hin). congruence. }
  unfold add_peer, is_blacklisted. destruct m1 as [ps mo mi l1 l2 l3 l4 bl]. cbn in *.
  rewrite bool_decide_eq_false_2 by done. rewrite lookup_delete_eq, bool_decide_eq_false_2 by (by intros [? ?]).
  unfold can_accept_outbound, can_accept_inbound, outbound_count, inbound_count. cbn.
  exists (PeerConnection_new now id outbound ip).
  destruct outbound; cbn; replace (count_direction _ _ <? _) with true by (symmetry; by apply Z.ltb_lt); cbn;
    by rewrite lookup_insert_eq.
Qed.

(** The count is that of the connection: a peer that reconnects after every
    tenth violation is never blacklisted. *)
Theorem reconnecting_evades now id outbound ip m n :
  clean_connection id outbound m ->
  let m' := Nat.iter n (offend_and_reconnect now id outbound ip) m in
  is_blacklisted id m' = false /\ is_Some (peers m' !! id).
Proof.
  intros Hm. cbv zeta. assert (Hn : clean_connection id outbound (Nat.iter n (offend_and_reconnect now id outbound ip) m)).
  { induction n as [|n IH]; [done|]. rewrite Nat.iter_succ. by apply offend_step. }
  destruct Hn as ((_ & _ & _ & Hb & _) & c & Hc & _). split; [|eauto]. apply bool_decide_eq_false_2. intros Hin.
  specialize (Hb _ Hin). congruence.
Qed.

Lemma failures_count now id n : forall m c,
  peers m !! id = Some c -> failed_requests c = 0 -> reputation (conn_score c) = 0 -> Z.of_nat n <= 20 ->
  exists c', let m' := Nat.iter n (peer_record_failure now id) m in
    peers m' = <[id := c']> (peers m) /\ failed_requests c' = Z.of_nat n /\
    reputation (conn_score c') = Z.max (-100) (-5 * Z.of_nat n) /\ blacklisted_peers m' = blacklisted_peers m.
Proof.
  induction n as [|n IH]; intros m c Hc Hf Hr Hn.
  - exists c. cbn. rewrite insert_id by done. split_and!; [done|lia|lia|done].
  - destruct (IH m c Hc Hf Hr ltac:(lia)) as (c' & Hp & Hf' & Hr' & Hb). cbv zeta in *. rewrite Nat.iter_succ.
    set (m1 := Nat.iter n _ m) in *. exists (conn_record_failure now c'). unfold peer_record_failure. rewrite Hp, lookup_insert_eq.
    assert (Hcf : failed_requests (conn_record_failure now c') = Z.of_nat (S n) /\
      reputation (conn_score (conn_record_failure now c')) = Z.max (-100) (-5 * Z.of_nat (S n))).
    { destruct c' as [? ? ? ? [] ? ? ? ?]. cbn in Hf', Hr'. subst.
      cbn -[wrap32 wrap_i32 Z.of_nat]. unfold RecordSetters.constant.
      rewrite wrap32_small, wrap_i32_small by (unfold u32_max; lia). lia. }
    destruct Hcf as [Hcf Hcr]. cbv zeta. rewrite Hcf. replace (20 <? _) with false by (symmetry; apply Z.ltb_ge; lia).
    cbn [andb]. destruct m1 as [ps mo mi l1 l2 l3 l4 bl]. cbn in Hp, Hb |- *. rewrite Hp, insert_insert_eq. done.
Qed.

(** A new connection is blacklisted by its twenty-first failure in a row, and
    by no earlier one. *)
Theorem failures_blacklist now t0 id outbound ip m n :
  peers m !! id = Some (PeerConnection_new t0 id outbound ip) -> id ∉ blacklisted_peers m ->
  is_blacklisted id (Nat.iter n (peer_record_failure now id) m) = (20 <? Z.of_nat n).
Proof.
  intros Hc Hb. unfold is_blacklisted. destruct (Z.ltb_spec 20 (Z.of_nat n)) as [Hn|Hn].
  - apply bool_decide_eq_true_2. replace n with ((n - 21) + S 20)%nat by lia. rewrite Nat.iter_add, Nat.iter_succ.
    destruct (failures_count now id 20 m _ Hc eq_refl eq_refl ltac:(lia)) as (c' & Hp & Hf & Hr & _).
    revert Hp. generalize (Nat.iter 20 (peer_record_failure now id) m). intros m20 Hp.
    assert (H21 : id ∈ blacklisted_peers (peer_record_failure now id m20)).
    { unfold peer_record_failure. rewrite Hp, lookup_insert_eq. cbv zeta.
      replace ((20 <? _) && _) with true; [destruct m20; cbn; set_solver|]. symmetry.
      destruct c' as [? ? ? ? [] ? ? ? ?]. cbn in Hf, Hr. subst. reflexivity. }
    revert H21. generalize (peer_record_failure now id m20). intros m21 H21.
    induction (n - 21)%nat as [|k IH]; [done|]. rewrite Nat.iter_succ. by apply (peer_exec_blacklist (OpFailure now id)).
  - apply bool_decide_eq_false_2.
    destruct (failures_count now id n m _ Hc eq_refl eq_refl ltac:(lia)) as (c' & _ & _ & _ & ->). done.
Qed.

(** * Selecting among the connected peers *)

(** A selector over the connected peers. *)
Definition selector_of (iter_conns : gmap PeerId PeerConnection -> list (PeerId * PeerConnection)) (st : SelectionStrategy)
    (n : Z) (m : PeerManager) : PeerSelector :=
  foldr selector_add_peer (PeerSelector_new st n) (get_peer_metadata iter_conns m).

Lemma selector_of_classified iter_conns st n m :
  map_Forall (fun _ p => provider p = classify_network_provider (ip_address p)) (selector_peers (selector_of iter_conns st n m)) /\
  diversity_targets (selector_of iter_conns st n m) = DiversityTargets_default.
Proof.
  unfold selector_of, get_peer_metadata. induction (iter_conns (peers m)).*2 as [|c l [IH1 IH2]].
  - split; [apply map_Forall_empty|done].
  - rewrite fmap_cons. cbn [foldr]. destruct (foldr _ _ _) as [ps s k t]. cbn in *. split; [|done].
    by apply map_Forall_insert_2.
Qed.

(** However many peers are connected, a request for a hundred diverse ones
    returns at most 93. *)
Theorem connected_diversity_capped iter_conns iter_peers n m l :
  (forall ps, iter_peers ps ≡ₚ map_to_list ps) ->
  select_diversity_focused iter_peers (selector_of iter_conns DiversityFocused n m) 100 = Ok l -> len l <= 93.
Proof.
  intros Hp Hl. destruct (selector_of_classified iter_conns DiversityFocused n m) as [Hc Ht].
  pose proof (diversity_capped iter_peers Hp _ 100 l Hc ltac:(lia) Hl) as Hb. rewrite Ht, share_of_hundred in Hb. lia.
Qed.

(** * Witnesses *)

Definition sample_peer_ops : list PeerOp :=
  [OpAdd 0 1 true None; OpAdd 0 2 false (Some (V4 10 0 0 1)); OpMessage LimitInv 5 1; OpSuccess 7 1000000 1;
   OpFailure 9 2; OpViolation 2; OpBlacklist 2; OpAdd 10 2 true None; OpCleanup 20 100].

Lemma peer_manager_invariant_witness :
  0 <= 1 /\ peers_ok (peer_run (PeerManager_new 1 1) sample_peer_ops).
Proof. split; [lia|]. apply peer_manager_invariant; lia. Defined.

(** Limits of a new manager, and a peer that sends three block requests at
    once and one a second later. *)
Definition sample_messages : list (LimitedKind * Z) :=
  [(LimitBlockRequest, 1); (LimitBlockRequest, 2); (LimitBlockRequest, 3); (LimitBlockRequest, 1000000001)].

Lemma rate_is_limited_witness :
  messages_allowed LimitBlockRequest (limit_of (PeerManager_new 8 8)) (PeerRateLimit_new 0) sample_messages = 3 /\
  3 <= 2 * (1 + 1500000000 / SECOND).
Proof.
  assert (Ha : messages_allowed LimitBlockRequest (limit_of (PeerManager_new 8 8)) (PeerRateLimit_new 0) sample_messages = 3)
    by (vm_compute; reflexivity).
  split; [exact Ha|]. rewrite <- Ha.
  apply (rate_is_limited LimitBlockRequest (limit_of (PeerManager_new 8 8)) 0 1500000000 sample_messages).
  - split; vm_compute; discriminate.
  - lia.
  - apply (bool_decide_eq_true_1 (Forall (fun m : LimitedKind * Z => m.2 <= 1500000000) sample_messages)). vm_compute. reflexivity.
Defined.

Lemma violations_blacklist_witness :
  is_blacklisted 7 (Nat.iter 11 (record_violation 7) (fst (add_peer 0 7 true None (PeerManager_new 8 8)))) = true.
Proof.
  assert (Hc : peers (fst (add_peer 0 7 true None (PeerManager_new 8 8))) !! 7 = Some (PeerConnection_new 0 7 true None))
    by reflexivity.
  rewrite (violations_blacklist 7 _ _ 11 Hc eq_refl); [reflexivity|]. apply not_elem_of_empty.
Defined.

Lemma shared_window_starves_witness :
  messages_allowed LimitProofRequest (limit_of (PeerManager_new 8 8))
    (fst (check_limit LimitProofRequest 1 0 (PeerRateLimit_new 0))) (alternating LimitInv LimitProofRequest SECOND 10 100) = 0.
Proof. apply shared_window_starves; [done|unfold SECOND; lia|vm_compute; discriminate|vm_compute; discriminate]. Defined.
