(* ===== verification/SyncParts.v ===== *)
(** The parts of network synchronisation (src/rusty-core/src/network/sync.rs,
    first half): the tracker of progress, the peers with their reliability, the
    persistent state, the retries with exponential backoff, the memory budget
    and the performance samples.

    Instants and durations are nanoseconds.  [iter_metrics] stands for the
    iteration order of the map of peers.  Log messages are left out. *)

From Stdlib Require Import ZArith Lia List SpecFloat.
From stdpp Require Import base option list numbers strings gmap sorting.
From coqutil Require Import Datatypes.RecordSetters.
From S2P Require Import Prelude F64 PeerSelection.

Import TriangleBracketNotations.
#[local] Open Scope Z_scope.

(** * Progress *)

Record SyncProgressTracker : Type := mkSyncProgressTracker {
  start_time : option Z;
  tracked_height : Z;
  tracked_target : Z;
  downloaded_headers : Z;
  downloaded_blocks : Z;
  validated_blocks : Z;
  failed_downloads : Z;
  total_bytes_downloaded : Z;
  blocks_per_second : f64;
  headers_per_second : f64;
}.

Definition SyncProgressTracker_new : SyncProgressTracker :=
  mkSyncProgressTracker None 0 0 0 0 0 0 0 (f64_of_Z 0) (f64_of_Z 0).

Definition tracker_start_sync (now target_height : Z) (t : SyncProgressTracker) : SyncProgressTracker :=
  t <| start_time := Some now |> <| tracked_target := target_height |>.

Definition update_progress (now current_height blocks headers bytes : Z) (t : SyncProgressTracker) : SyncProgressTracker :=
  let t := t <| tracked_height := current_height |>
             <| downloaded_blocks := u64_add (downloaded_blocks t) blocks |>
             <| downloaded_headers := u64_add (downloaded_headers t) headers |>
             <| total_bytes_downloaded := u64_add (total_bytes_downloaded t) bytes |> in
  match start_time t with
  | Some start =>
      let secs := duration_since now start / SECOND in
      if 0 <? secs then
        t <| blocks_per_second := f64_div (f64_of_Z (downloaded_blocks t)) (f64_of_Z secs) |>
          <| headers_per_second := f64_div (f64_of_Z (downloaded_headers t)) (f64_of_Z secs) |>
      else t
  | None => t
  end.

Definition record_failed_download (t : SyncProgressTracker) : SyncProgressTracker :=
  t <| failed_downloads := u64_add (failed_downloads t) 1 |>.

Definition get_progress_percentage (t : SyncProgressTracker) : f64 :=
  if tracked_target t =? 0 then f64_of_Z 100
  else f64_mul (f64_div (f64_of_Z (tracked_height t)) (f64_of_Z (tracked_target t))) (f64_of_Z 100).

(** The number behind the text of [get_sync_speed]. *)
Inductive SyncSpeed : Type :=
| BlocksPerSec (rate : f64)
| HeadersPerSec (rate : f64)
| NoSpeed.

Definition get_sync_speed (t : SyncProgressTracker) : SyncSpeed :=
  if f64_gt (blocks_per_second t) (f64_of_Z 0) then BlocksPerSec (blocks_per_second t)
  else if f64_gt (headers_per_second t) (f64_of_Z 0) then HeadersPerSec (headers_per_second t)
  else NoSpeed.

Definition get_estimated_time_remaining (t : SyncProgressTracker) : option Z :=
  if f64_gt (blocks_per_second t) (f64_of_Z 0) then
    let remaining_blocks := u64_saturating_sub (tracked_target t) (tracked_height t) in
    Some (f64_to_u64 (f64_div (f64_of_Z remaining_blocks) (blocks_per_second t)) * SECOND)
  else None.

(** * Peers *)

Record PeerMetrics : Type := mkPeerMetrics {
  metrics_id : string;
  metrics_height : Z;
  reliability_score : f64;
  response_time : Z;
  success_count : Z;
  failure_count : Z;
  last_used : Z;
  metrics_blocks : Z;
  metrics_headers : Z;
}.

(** [PeerManager] of the module. *)
Record SyncPeers : Type := mkSyncPeers {
  sync_peers : gmap string PeerMetrics;
  sync_blacklist : gset string;
  sync_max_peers : Z;
}.

Definition SyncPeers_new (max_peers : Z) : SyncPeers := mkSyncPeers ∅ ∅ max_peers.

Definition add_or_update_peer (now : Z) (id : string) (height response : Z) (p : SyncPeers) : SyncPeers :=
  if bool_decide (id ∈ sync_blacklist p) then p
  else
    let m := default (mkPeerMetrics id 0 (f64_of_Z 1) response 0 0 now 0 0) (sync_peers p !! id) in
    p <| sync_peers ::= <[id := m <| metrics_height := height |> <| response_time := response |> <| last_used := now |>]> |>.

(** [successes as f64 / (successes + failures) as f64] *)
Definition success_rate (successes failures : Z) : f64 :=
  f64_div (f64_of_Z successes) (f64_of_Z (wrap32 (successes + failures))).

Definition metrics_success (items_downloaded : Z) (m : PeerMetrics) : PeerMetrics :=
  let successes := wrap32 (success_count m + 1) in
  let failures := Z.max (Z.max 0 (failure_count m - 1)) 0 in
  let m := m <| success_count := successes |> <| failure_count := failures |>
             <| reliability_score := f64_min (success_rate successes failures) (f64_of_Z 1) |> in
  if 0 <? items_downloaded then
    if items_downloaded <=? 100 then m <| metrics_blocks := wrap32 (metrics_blocks m + items_downloaded) |>
    else m <| metrics_headers := wrap32 (metrics_headers m + items_downloaded) |>
  else m.

Definition peers_record_success (id : string) (items_downloaded : Z) (p : SyncPeers) : SyncPeers :=
  match sync_peers p !! id with
  | Some m => p <| sync_peers ::= <[id := metrics_success items_downloaded m]> |>
  | None => p
  end.

Definition metrics_failure (m : PeerMetrics) : PeerMetrics :=
  let failures := wrap32 (failure_count m + 1) in
  m <| failure_count := failures |>
    <| reliability_score := f64_max (success_rate (success_count m) failures) (f64_lit 1 10) |>.

Definition peers_record_failure (id : string) (p : SyncPeers) : SyncPeers :=
  match sync_peers p !! id with
  | Some m =>
      let m := metrics_failure m in
      let p := p <| sync_peers ::= <[id := m]> |> in
      if (10 <? failure_count m) && f64_lt (reliability_score m) (f64_lit 5 10)
      then p <| sync_blacklist ::= union {[ id ]} |> else p
  | None => p
  end.

(** [Iterator::max_by]: of equal elements the last. *)
Definition max_by {A} (cmp : A -> A -> comparison) (l : list A) : option A :=
  match l with
  | [] => None
  | x :: l => Some (foldl (fun x y => match cmp x y with Gt => x | _ => y end) x l)
  end.

Definition peer_score (m : PeerMetrics) : f64 :=
  f64_mul (f64_mul (f64_of_Z (metrics_height m)) (reliability_score m))
    (f64_sub (f64_of_Z 1) (f64_min (f64_div (f64_of_Z (response_time m / 1000000)) (f64_of_Z 10000)) (f64_of_Z 1))).

Definition score_cmp (a b : PeerMetrics) : comparison := default Eq (SFcompare (peer_score a) (peer_score b)).

(** The peers that may be asked, in the order of the map. *)
Definition usable_peers (iter_metrics : gmap string PeerMetrics -> list (string * PeerMetrics)) (p : SyncPeers) :
    list PeerMetrics :=
  filter (fun m => metrics_id m ∉ sync_blacklist p) (iter_metrics (sync_peers p)).*2.

Definition peers_select_best (iter_metrics : gmap string PeerMetrics -> list (string * PeerMetrics)) (p : SyncPeers) :
    option string := metrics_id <$> max_by score_cmp (usable_peers iter_metrics p).

Definition peers_remove (id : string) (p : SyncPeers) : SyncPeers :=
  p <| sync_peers ::= delete id |> <| sync_blacklist ::= (fun b => b ∖ {[ id ]}) |>.

Definition get_peer_count (p : SyncPeers) : Z := Z.of_nat (size (sync_peers p)).

(** * State of the synchronisation *)

Inductive SyncType : Type := InitialBlockDownload | HeaderFirstSync | CatchupSync | ReorgSync.

Record SyncState : Type := mkSyncState {
  is_syncing : bool;
  sync_height : Z;
  sync_target : Z;
  sync_type : SyncType;
  last_checkpoint : Z;
  reorg_detected : bool;
  reorg_depth : Z;
}.

Definition SyncState_default : SyncState := mkSyncState false 0 0 InitialBlockDownload 0 false 0.

(** * Retries *)

Record ErrorRecovery : Type := mkErrorRecovery {
  retry_counts : gmap string Z;
  max_retries : Z;
  base_delay : Z;
}.

Definition MILLISECOND : Z := 1000000.

Definition ErrorRecovery_new : ErrorRecovery := mkErrorRecovery ∅ 5 (100 * MILLISECOND).

Definition retry_count (operation : string) (r : ErrorRecovery) : Z := default 0 (retry_counts r !! operation).

(** [entry(..).or_insert(0)] adds the entry. *)
Definition should_retry (operation : string) (r : ErrorRecovery) : ErrorRecovery * bool :=
  let count := retry_count operation r in
  (r <| retry_counts ::= <[operation := count]> |>, count <? max_retries r).

Definition get_retry_delay (operation : string) (r : ErrorRecovery) : ErrorRecovery * Z :=
  let count := wrap32 (retry_count operation r + 1) in
  (r <| retry_counts ::= <[operation := count]> |>,
   Z.min (base_delay r * wrap32 (2 ^ wrap32 (count - 1))) (30 * SECOND)).

Definition reset_operation (operation : string) (r : ErrorRecovery) : ErrorRecovery :=
  r <| retry_counts ::= delete operation |>.

Definition clear_all (r : ErrorRecovery) : ErrorRecovery := r <| retry_counts := ∅ |>.

(** * Memory *)

Record MemoryManager : Type := mkMemoryManager {
  max_memory_usage : Z;
  current_usage : Z;
  cleanup_threshold : f64;
}.

Definition MemoryManager_new (max_memory_usage : Z) : MemoryManager :=
  mkMemoryManager max_memory_usage 0 (f64_lit 8 10).

Definition allocate (size : Z) (m : MemoryManager) : MemoryManager * bool :=
  if u64_add (current_usage m) size <=? max_memory_usage m
  then (m <| current_usage := u64_add (current_usage m) size |>, true) else (m, false).

Definition deallocate (size : Z) (m : MemoryManager) : MemoryManager :=
  m <| current_usage := u64_saturating_sub (current_usage m) size |>.

Definition should_cleanup (m : MemoryManager) : bool :=
  f64_gt (f64_of_Z (current_usage m)) (f64_mul (f64_of_Z (max_memory_usage m)) (cleanup_threshold m)).

Definition get_memory_usage_percentage (m : MemoryManager) : f64 :=
  f64_div (f64_of_Z (current_usage m)) (f64_of_Z (max_memory_usage m)).

(** * Performance *)

Record PerformanceMonitor : Type := mkPerformanceMonitor {
  download_times : list Z;
  validation_times : list Z;
  network_latency : list Z;
  max_samples : Z;
}.

Definition PerformanceMonitor_new (max_samples : Z) : PerformanceMonitor := mkPerformanceMonitor [] [] [] max_samples.

(** [push_back], then [pop_front] if there are too many. *)
Definition push_sample (max_samples d : Z) (l : list Z) : list Z :=
  let l := l ++ [d] in if max_samples <? len l then drop 1 l else l.

Definition record_download_time (d : Z) (m : PerformanceMonitor) : PerformanceMonitor :=
  m <| download_times := push_sample (max_samples m) d (download_times m) |>.

Definition record_validation_time (d : Z) (m : PerformanceMonitor) : PerformanceMonitor :=
  m <| validation_times := push_sample (max_samples m) d (validation_times m) |>.

Definition record_network_latency (d : Z) (m : PerformanceMonitor) : PerformanceMonitor :=
  m <| network_latency := push_sample (max_samples m) d (network_latency m) |>.

Definition average (l : list Z) : option Z :=
  match l with
  | [] => None
  | _ => Some (foldr Z.add 0 l / len l)
  end.

Definition get_average_download_time (m : PerformanceMonitor) : option Z := average (download_times m).
Definition get_average_validation_time (m : PerformanceMonitor) : option Z := average (validation_times m).
Definition get_average_network_latency (m : PerformanceMonitor) : option Z := average (network_latency m).

(** * The best peer *)

Lemma score_cmp_gt a b :
  f64_is_nan (peer_score a) = false -> f64_is_nan (peer_score b) = false ->
  (score_cmp a b = Gt -> rank_le (peer_score b) (peer_score a)) /\
  (score_cmp a b <> Gt -> rank_le (peer_score a) (peer_score b)).
Proof.
  intros Ha Hb. pose proof (compare_rank (peer_score a) (peer_score b) Ha Hb) as Hc. unfold score_cmp in *. split.
  - intros Hgt. rewrite Hgt in Hc. symmetry in Hc. apply bool_decide_eq_false in Hc.
    destruct (rank_le_total (peer_score a) (peer_score b)); done.
  - intros Hn. destruct (default Eq _) eqn:He; [..|done]; symmetry in Hc; by apply bool_decide_eq_true in Hc.
Qed.

(** The fold keeps an element of the list that none exceeds. *)
Lemma max_by_best l : forall x,
  Forall (fun m => f64_is_nan (peer_score m) = false) (x :: l) ->
  let b := foldl (fun x y => match score_cmp x y with Gt => x | _ => y end) x l in
  b ∈ x :: l /\ Forall (fun m => rank_le (peer_score m) (peer_score b)) (x :: l).
Proof.
  induction l as [|y l IH]; intros x Hn; cbn [foldl].
  - split; [left|]. repeat constructor. destruct (rank_le_total (peer_score x) (peer_score x)); done.
  - inversion_clear Hn as [|? ? Hx Hn']. inversion_clear Hn' as [|? ? Hy Hl].
    destruct (score_cmp_gt x y Hx Hy) as [Hgt Hle].
    set (z := match score_cmp x y with Gt => x | _ => y end).
    assert (Hz : (z = x \/ z = y) /\ rank_le (peer_score x) (peer_score z) /\ rank_le (peer_score y) (peer_score z)).
    { assert (Hr : forall s, rank_le s s) by (intros s; destruct (rank_le_total s s); done).
      unfold z. destruct (score_cmp x y) eqn:Hc; split_and!; auto; first [by apply Hle|by apply Hgt]. }
    destruct Hz as (Hz & Hxz & Hyz).
    destruct (IH z) as [Hin Hall]; [constructor; [by destruct Hz as [->| ->]|done]|]. cbv zeta in *. fold z.
    set (b := foldl _ z l) in *. inversion_clear Hall as [|? ? Hzb Hlb]. split.
    + apply elem_of_cons in Hin as [->|Hin]; [destruct Hz as [->| ->]; set_solver|set_solver].
    + repeat constructor; [by trans (peer_score z)|by trans (peer_score z)|done].
Qed.

(** A selected peer is known, not blacklisted, and none that may be asked
    scores higher. *)
Theorem best_peer_spec iter_metrics p id :
  (forall m, iter_metrics m ≡ₚ map_to_list m) ->
  map_Forall (fun i m => metrics_id m = i /\ f64_is_nan (peer_score m) = false) (sync_peers p) ->
  peers_select_best iter_metrics p = Some id ->
  exists m, sync_peers p !! id = Some m /\ id ∉ sync_blacklist p /\
    forall j m', sync_peers p !! j = Some m' -> j ∉ sync_blacklist p -> f64_ge (peer_score m) (peer_score m') = true.
Proof.
  intros Hp Hwf. unfold peers_select_best.
  assert (Hu : forall m, m ∈ usable_peers iter_metrics p <->
    sync_peers p !! metrics_id m = Some m /\ metrics_id m ∉ sync_blacklist p).
  { intros m. unfold usable_peers. rewrite list_elem_of_filter, list_elem_of_fmap. split.
    - intros (Hb & [i m'] & -> & Hin). rewrite Hp, elem_of_map_to_list in Hin. destruct (Hwf _ _ Hin) as [<- _]. done.
    - intros [Hm Hb]. split; [done|]. exists (metrics_id m, m). split; [done|]. by rewrite Hp, elem_of_map_to_list. }
  destruct (usable_peers iter_metrics p) as [|x l] eqn:Hl; [done|]. cbn [max_by fmap option_fmap option_map].
  assert (Hn : Forall (fun m => f64_is_nan (peer_score m) = false) (x :: l)).
  { apply Forall_forall. intros m Hm. apply Hu in Hm as [Hm _]. by apply (Hwf _ _ Hm). }
  destruct (max_by_best l x Hn) as [Hin Hall]. cbv zeta in *. set (b := foldl _ x l) in *. intros [= <-].
  apply Hu in Hin as Hb. destruct Hb as [Hb Hnb]. exists b. split_and!; [done..|].
  intros j m' Hm' Hj. destruct (Hwf _ _ Hm') as [Hid Hnm].
  rewrite Forall_forall in Hall, Hn. apply leb_rank; [done|by apply Hn|]. apply Hall, Hu. by rewrite Hid.
Qed.

(** * Retries *)

(** How often a retry was granted. *)
Definition retry (operation : string) (r : ErrorRecovery) : ErrorRecovery :=
  fst (get_retry_delay operation (fst (should_retry operation r))).

Lemma retry_counts_up operation n : 
  Z.of_nat n <= 5 -> retry_count operation (Nat.iter n (retry operation) ErrorRecovery_new) = Z.of_nat n /\
  max_retries (Nat.iter n (retry operation) ErrorRecovery_new) = 5 /\
  base_delay (Nat.iter n (retry operation) ErrorRecovery_new) = 100 * MILLISECOND.
Proof.
  induction n as [|n IH]; intros Hn; [done|]. destruct (IH ltac:(lia)) as (Hc & Hm & Hb). rewrite Nat.iter_succ.
  revert Hc Hm Hb. generalize (Nat.iter n (retry operation) ErrorRecovery_new). intros r Hc Hm Hb.
  unfold retry, get_retry_delay, should_retry. destruct r as [c m b]. unfold retry_count in *. cbn in Hc, Hm, Hb |- *.
  rewrite !lookup_insert_eq. cbn. rewrite Hc, wrap32_small by (unfold u32_max; lia). split_and!; [lia|done..].
Qed.

(** Five retries are granted, after 100, 200, 400, 800 and 1600 milliseconds;
    the cap of 30 seconds is never reached. *)
Theorem retries_back_off operation n :
  Z.of_nat n <= 5 ->
  let r := Nat.iter n (retry operation) ErrorRecovery_new in
  snd (should_retry operation r) = (Z.of_nat n <? 5) /\
  (Z.of_nat n < 5 -> snd (get_retry_delay operation (fst (should_retry operation r))) = 100 * MILLISECOND * 2 ^ Z.of_nat n).
Proof.
  intros Hn. cbv zeta. destruct (retry_counts_up operation n Hn) as (Hc & Hm & Hb). revert Hc Hm Hb.
  generalize (Nat.iter n (retry operation) ErrorRecovery_new). intros r Hc Hm Hb. split.
  - unfold should_retry. cbn [snd]. by rewrite Hc, Hm.
  - intros Hlt. unfold get_retry_delay, should_retry. destruct r as [c m b]. unfold retry_count in *. cbn in Hc, Hm, Hb |- *.
    rewrite lookup_insert_eq. cbn. rewrite Hc, Hb, (wrap32_small (Z.of_nat n + 1)) by (unfold u32_max; lia).
    replace (Z.of_nat n + 1 - 1) with (Z.of_nat n) by lia. rewrite (wrap32_small (Z.of_nat n)) by (unfold u32_max; lia).
    assert (Hcase : Z.of_nat n = 0 \/ Z.of_nat n = 1 \/ Z.of_nat n = 2 \/ Z.of_nat n = 3 \/ Z.of_nat n = 4) by lia.
    destruct Hcase as [->|[->|[->|[->| ->]]]]; reflexivity.
Qed.

(** * Memory and samples *)

(** The budget is kept by every sequence of allocations and releases. *)
Lemma allocate_within size m : is_u64 size -> 0 <= current_usage m <= max_memory_usage m ->
  0 <= current_usage (fst (allocate size m)) <= max_memory_usage (fst (allocate size m)).
Proof.
  intros Hs Hm. unfold allocate. destruct (Z.leb_spec (u64_add (current_usage m) size) (max_memory_usage m)) as [Hle|Hle]; [|done].
  destruct m. cbn in *. unfold RecordSetters.constant. pose proof (wrap64_range (current_usage0 + size)) as [? _].
  unfold u64_add in *. lia.
Qed.

Lemma deallocate_within size m : is_u64 size -> 0 <= current_usage m <= max_memory_usage m ->
  0 <= current_usage (deallocate size m) <= max_memory_usage (deallocate size m).
Proof.
  intros [Hs _] Hm. destruct m. cbn in *. unfold RecordSetters.constant, u64_saturating_sub. lia.
Qed.

(** No more than the asked number of samples, the newest. *)
Lemma push_sample_newest n d l :
  0 < n -> len l <= n -> len (push_sample n d l) <= n /\ exists k, push_sample n d l = drop k (l ++ [d]) /\ last (push_sample n d l) = Some d.
Proof.
  intros Hn Hl. unfold push_sample. rewrite len_app, len_cons, len_nil.
  destruct (Z.ltb_spec n (len l + (0 + 1))) as [Hlt|Hge].
  - unfold len in *. rewrite length_drop, length_app. cbn. split; [lia|]. exists 1%nat. split; [done|].
    destruct l as [|x l]; [cbn in *; lia|]. change (last (l ++ [d]) = Some d). by rewrite last_snoc.
  - rewrite len_app, len_cons, len_nil. split; [lia|]. exists 0%nat. split; [done|]. by rewrite last_snoc.
Qed.
