(* ===== verification/NetworkSync.v ===== *)
(** Network synchronisation (src/rusty-core/src/network/sync.rs, second half):
    the heights of peers, headers first, then blocks, each batch from the best
    peer, with retries.

    The network ([P2PNetwork] of network/mod.rs) is an argument: its answers may
    depend on how many times the outside was consulted before, which [ns_calls]
    counts; so may the clocks.  The futures under [timeout] contain no point at
    which they wait, so they complete when first polled and the timeouts do not
    fire.  The loops carry fuel; waiting for a permit of an empty semaphore,
    which never ends, is [OutOfFuel].  [iter_metrics] is the iteration order of
    the map of peers.  Delays, log messages and the formatted parts of error
    messages are left out. *)

From Stdlib Require Import ZArith Lia List SpecFloat.
From stdpp Require Import base option list numbers strings gmap.
From coqutil Require Import Datatypes.RecordSetters.
From S2P Require Import Prelude Types Errors Transaction SamplePrimitives UtxoSet U256 Masternodes LiveTickets GovernanceState.
From S2P Require Import Merkle ChainState Trie Mempool Params Blockchain BlockchainProps F64 PeerSelection SyncParts.

Import TriangleBracketNotations.
#[local] Open Scope Z_scope.

(** * Data *)

Record PeerInfo : Type := mkPeerInfo {
  info_peer_id : string;
  info_address : string;
  info_last_seen : Z;
  blocks_in_flight : Z;
  transactions_in_flight : Z;
}.

Record GetHeaders : Type := mkGetHeaders { locator_hashes : list Hash; stop_hash : Hash }.
Record BlockRequest : Type := mkBlockRequest { request_start : Z; request_end : Z }.

(** [P2PNetwork] and the clocks. *)
Record SyncNet : Type := mkSyncNet {
  get_connected_peers : list string;
  get_peer_info : string -> option PeerInfo;
  request_headers : nat -> string -> GetHeaders -> option (list BlockHeader);
  request_blocks : nat -> string -> BlockRequest -> option (list Block);
  clock : nat -> Z;
  unix_time : nat -> Z;
}.

Record NetworkSync : Type := mkNetworkSync {
  blockchain : Blockchain;
  progress_tracker : SyncProgressTracker;
  peer_manager : SyncPeers;
  download_permits : Z;
  sync_state : SyncState;
  error_recovery : ErrorRecovery;
  memory_manager : MemoryManager;
  performance_monitor : PerformanceMonitor;
  ns_calls : nat;
}.

Definition NetworkSync_new (b : Blockchain) (max_concurrent_downloads max_memory_usage : Z) : NetworkSync :=
  mkNetworkSync b SyncProgressTracker_new (SyncPeers_new 8) max_concurrent_downloads SyncState_default ErrorRecovery_new
    (MemoryManager_new max_memory_usage) (PerformanceMonitor_new 100) 0.

Abbreviation netM := (stM NetworkSync CE.ConsensusError).

(** * Reading the outside *)

Definition tick : netM nat :=
  n ← gets ns_calls; modify (fun s => s <| ns_calls ::= S |>);; mret n.

Definition instant_now (net : SyncNet) : netM Z := n ← tick; mret (clock net n).

Definition elapsed (net : SyncNet) (start : Z) : netM Z := now ← instant_now net; mret (duration_since now start).

(** A method of the block chain, under its lock. *)
Definition on_chain {A} (err : CE.ConsensusError -> CE.ConsensusError) (m : bcM A) : netM A := fun s =>
  match m (blockchain s) with (b, r) => (s <| blockchain := b |>, map_err err r) end.

(** [match m { Ok(..) => .., Err(..) => .. }]; a panic unwinds. *)
Definition attempt {A} (m : netM A) : netM (outcome CE.ConsensusError A) := fun s =>
  match m s with
  | (s, Ok a) => (s, Ok (Ok a))
  | (s, Err e) => (s, Ok (Err e))
  | (s, Panic) => (s, Panic)
  | (s, OutOfFuel) => (s, OutOfFuel)
  end.

Definition never_returns {A} : netM A := fun s => (s, OutOfFuel).

(** How many elements of the list the body accepts. *)
Fixpoint count_ok {A} (body : A -> netM unit) (l : list A) (n : Z) : netM Z :=
  match l with
  | [] => mret n
  | x :: l =>
      r ← attempt (body x);
      count_ok body l (if is_ok r then wrap32 (n + 1) else n)
  end.

Section Sync.
  Context `{Primitives, TicketCodec, StoreCodec, TrieCodec, ChainCodec, U256}.
  Context (iter_metrics : gmap string PeerMetrics -> list (string * PeerMetrics)) (net : SyncNet).

Definition stored_height (b : Blockchain) : Z :=
  match get_current_block_height (state b) with Ok h => h | _ => 0 end.

(** * Heights of peers *)

Definition do_query_peer_height (id : string) : outcome CE.ConsensusError Z :=
  match get_peer_info net id with
  | Some info => Ok (u64_add (info_last_seen info mod 10000) (u64_mul (blocks_in_flight info) 100))
  | None => Err (CE.NetworkError "Peer not found in peer list")
  end.

Definition query_peer_height (id : string) : outcome CE.ConsensusError Z := do_query_peer_height id.

Fixpoint discover_loop (ids : list string) (heights : gmap string Z) : netM (gmap string Z) :=
  match ids with
  | [] => mret heights
  | id :: ids =>
      start ← instant_now net;
      match query_peer_height id with
      | Ok height =>
          response ← elapsed net start;
          now ← instant_now net;
          modify (fun s => s <| peer_manager ::= add_or_update_peer now id height response |>);;
          discover_loop ids (<[id := height]> heights)
      | _ =>
          modify (fun s => s <| peer_manager ::= peers_record_failure id |>);;
          discover_loop ids heights
      end
  end.

Definition discover_peer_heights : netM (gmap string Z) :=
  match get_connected_peers net with
  | [] => throw (CE.NetworkError "No peers available for height discovery")
  | ids => discover_loop ids ∅
  end.

(** [values().max()] *)
Definition max_height (heights : gmap string Z) : option Z :=
  match (map_to_list heights).*2 with
  | [] => None
  | h :: hs => Some (foldr Z.max h hs)
  end.

(** * Headers *)

(** The walk back with doubling steps; [fuel] bounds the rounds. *)
Fixpoint locator_loop (fuel : nat) (s : BlockchainState) (height step : Z) (acc : list Hash) : list Hash :=
  match fuel with
  | O => acc
  | S fuel =>
      if (0 <? height) && (len acc <? 10) then
        let acc := match get_block_hash s height with Ok (Some hash) => acc ++ [hash] | _ => acc end in
        if height <? step then acc
        else locator_loop fuel s (u64_saturating_sub height step) (Z.min u64_max (step * 2)) acc
      else acc
  end.

Definition build_locator_hashes (start_height : Z) (s : BlockchainState) : list Hash :=
  let l := locator_loop 65 s start_height 1 [] in
  if bool_decide (last l = Some zero_hash) then l else l ++ [zero_hash].

Definition MAX_SYNC_TIME_DRIFT : Z := 24 * 60 * 60.

Definition validate_block_header_enhanced (now : Z) (h : BlockHeader) (b : Blockchain) : outcome CE.ConsensusError unit :=
  if negb (header_version h =? 1) then Err (CE.BlockValidation "Invalid block version: ")
  else if u64_add now MAX_SYNC_TIME_DRIFT <? timestamp h then Err (CE.BlockValidation "Block timestamp is too far in the future")
  else if u64_add (stored_height b) 10000 <? header_height h
  then Err (CE.BlockValidation "Header height is too far ahead of current height ")
  else if (0 <? header_height h) && bool_decide (previous_block_hash h = zero_hash)
  then Err (CE.BlockValidation "Non-genesis block cannot have zero previous block hash")
  else Ok tt.

Definition validate_header_chain_continuity (h : BlockHeader) (b : Blockchain) : outcome CE.ConsensusError unit :=
  if header_height h =? 0 then
    if negb (bool_decide (previous_block_hash h = zero_hash))
    then Err (CE.BlockValidation "Genesis block must have zero previous block hash") else Ok tt
  else
    expected_prev_hash ← map_err internal (get_block_hash (state b) (header_height h - 1));
    match expected_prev_hash with
    | Some expected_hash =>
        if negb (bool_decide (previous_block_hash h = expected_hash))
        then Err (CE.BlockValidation "Header chain discontinuity: expected previous hash") else Ok tt
    | None => Ok tt
    end.

(** The hash is entered under the height, and the tip follows a higher
    header. *)
Definition store_header (h : BlockHeader) : bcM unit :=
  hash ← lift (header_hash h);
  on_state (fun e => e) (put_block_hash (header_height h) hash);;
  b ← gets (fun b : Blockchain => b);
  if stored_height b <? header_height h
  then on_state (fun e => e) (modify (update_tip hash (header_height h)))
  else mret tt.

Definition validate_and_store_header_enhanced (h : BlockHeader) : netM unit :=
  validation_start ← instant_now net;
  n ← tick;
  b ← gets blockchain;
  _ ← lift (validate_block_header_enhanced (unix_time net n) h b);
  _ ← lift (validate_header_chain_continuity h b);
  m ← gets memory_manager;
  (if should_cleanup m then mret tt else on_chain (fun e => e) (store_header h));;
  validation_time ← elapsed net validation_start;
  modify (fun s => s <| performance_monitor ::= record_validation_time validation_time |>).

Definition select_sync_peer (err : string) : netM string :=
  peers ← gets peer_manager;
  lift (ok_or (peers_select_best iter_metrics peers) (CE.NetworkError err)).

Definition download_header_batch (start_height end_height : Z) : netM unit :=
  selected_peer ← select_sync_peer "No suitable peer found for header download";
  b ← gets blockchain;
  let request := mkGetHeaders (build_locator_hashes start_height (state b)) zero_hash in
  n ← tick;
  headers ← lift (ok_or (request_headers net n selected_peer request) (CE.NetworkError "No Headers response from peer "));
  headers_validated ← count_ok validate_and_store_header_enhanced headers 0;
  modify (fun s => s <| peer_manager ::= peers_record_success selected_peer headers_validated |>).

Definition detect_reorg (e : CE.ConsensusError) : bool :=
  match e with
  | CE.BlockValidation msg =>
      contains "chain discontinuity" msg || contains "previous block hash mismatch" msg || contains "height" msg
  | _ => false
  end.

Definition handle_reorg_simple : netM unit :=
  modify (fun s => s <| sync_state ::= (fun t => t <| reorg_detected := true |> <| sync_type := ReorgSync |>) |>);;
  modify (fun s => s <| error_recovery ::= clear_all |>).

(** Whether an operation is tried again: the count goes up, or it is reset. *)
Definition retry_or_give_up (operation : string) (e : CE.ConsensusError) (again : netM unit) : netM unit :=
  r ← gets error_recovery;
  let '(r, granted) := should_retry operation r in
  modify (fun s => s <| error_recovery := r |>);;
  if granted then modify (fun s => s <| error_recovery ::= (fun r => fst (get_retry_delay operation r)) |>);; again
  else modify (fun s => s <| error_recovery ::= reset_operation operation |>);; throw e.

Fixpoint header_loop (fuel : nat) (target_height h : Z) : netM unit :=
  if h <? target_height then
    match fuel with
    | O => never_returns
    | S fuel =>
        let end_height := Z.min (u64_add h 2000) target_height in
        download_start ← instant_now net;
        r ← attempt (download_header_batch h end_height);
        match r with
        | Err e =>
            if detect_reorg e then handle_reorg_simple
            else
              modify (fun s => s <| progress_tracker ::= record_failed_download |>);;
              retry_or_give_up "header_download" e (header_loop fuel target_height h)
        | _ =>
            download_time ← elapsed net download_start;
            modify (fun s => s <| performance_monitor ::= record_download_time download_time |>);;
            let n := wrap64 (end_height - h) in
            now ← instant_now net;
            modify (fun s => s <| progress_tracker ::= update_progress now h 0 n (u64_mul n 80) |>);;
            header_loop fuel target_height end_height
        end
    end
  else mret tt.

Definition sync_request_block_headers (fuel : nat) (current_height target_height : Z) : netM unit :=
  header_loop fuel target_height current_height.

(** * Blocks *)

Definition validate_block_header_comprehensive (now : Z) (h : BlockHeader) : outcome CE.ConsensusError unit :=
  if negb (header_version h =? 1) then Err (CE.BlockValidation "Invalid block version: ")
  else if (header_height h =? 0) && negb (bool_decide (previous_block_hash h = zero_hash))
  then Err (CE.BlockValidation "Genesis block must have zero previous block hash")
  else if negb (header_height h =? 0) && bool_decide (previous_block_hash h = zero_hash)
  then Err (CE.BlockValidation "Non-genesis block cannot have zero previous block hash")
  else if u64_add now (2 * 60 * 60) <? timestamp h then Err (CE.BlockValidation "Block timestamp is too far in the future")
  else Ok tt.

(** Every branch of [validate_transaction_comprehensive] accepts. *)
Definition sync_validate_transaction (tx : Transaction) (is_coinbase : bool) : outcome CE.ConsensusError unit := Ok tt.

Fixpoint validate_each (i : nat) (txs : list Transaction) : outcome CE.ConsensusError unit :=
  match txs with
  | [] => Ok tt
  | tx :: txs => _ ← sync_validate_transaction tx (bool_decide (i = 0%nat)); validate_each (S i) txs
  end.

Fixpoint no_duplicate_txids (seen : list Hash) (txs : list Transaction) : outcome CE.ConsensusError unit :=
  match txs with
  | [] => Ok tt
  | tx :: txs =>
      id ← tx_txid tx;
      if bool_decide (id ∈ seen) then Err (CE.BlockValidation "Duplicate transaction found: ")
      else no_duplicate_txids (id :: seen) txs
  end.

Definition validate_block_transactions_comprehensive (txs : list Transaction) : outcome CE.ConsensusError unit :=
  match txs with
  | [] => Err (CE.BlockValidation "Block must contain at least one transaction")
  | first :: rest =>
      match first with
      | Coinbase _ _ _ _ _ => _ ← validate_each 0 txs; no_duplicate_txids [] txs
      | _ => Err (CE.BlockValidation "First transaction in block must be coinbase")
      end
  end.

Definition calculate_merkle_root_comprehensive (txs : list Transaction) : outcome CE.ConsensusError Hash :=
  match txs with
  | [] => Err (CE.BlockValidation "Cannot calculate merkle root for empty transaction list")
  | _ =>
      tx_hashes ← mapM tx_txid txs;
      level ← merkle_loop (length tx_hashes) (next_level combined_hash) tx_hashes;
      unwrap (level !! 0%nat)
  end.

Definition validate_merkle_root_comprehensive (b : Block) : outcome CE.ConsensusError unit :=
  calculated ← calculate_merkle_root_comprehensive (transactions b);
  if negb (bool_decide (merkle_root (header b) = calculated)) then Err (CE.BlockValidation "Merkle root mismatch: ") else Ok tt.

Definition vote_counts (h : BlockHeader) (v : TicketVote) : bool :=
  negb (bool_decide (vote_ticket_id v = zero_hash)) && bool_decide (vote_block_hash v = previous_block_hash h).

Definition validate_ticket_votes_comprehensive (votes : list TicketVote) (h : BlockHeader) : outcome CE.ConsensusError unit :=
  if negb (len votes =? 5) then Err (CE.BlockValidation "Invalid ticket_votes count: ")
  else if len (filter (vote_counts h) votes) <? 3 then Err (CE.BlockValidation "Insufficient valid votes: ")
  else Ok tt.

Definition validate_block_size_comprehensive (b : Block) : outcome CE.ConsensusError unit :=
  if 4000000 <? len (default [] (bincode_block b)) then Err (CE.BlockValidation "Block size exceeds maximum ") else Ok tt.

Definition verify_block_comprehensive (now : Z) (b : Block) : outcome CE.ConsensusError unit :=
  _ ← validate_block_header_comprehensive now (header b);
  _ ← validate_block_transactions_comprehensive (transactions b);
  _ ← validate_merkle_root_comprehensive b;
  _ ← validate_ticket_votes_comprehensive (ticket_votes b) (header b);
  validate_block_size_comprehensive b.

Definition validate_and_store_block_enhanced (b : Block) : netM unit :=
  n ← tick;
  _ ← lift (verify_block_comprehensive (unix_time net n) b);
  on_chain internal (add_block b).

Definition download_block_batch_enhanced (start_height end_height : Z) : netM Z :=
  selected_peer ← select_sync_peer "No suitable peer found for block download";
  download_start ← instant_now net;
  n ← tick;
  blocks ← lift (ok_or (request_blocks net n selected_peer (mkBlockRequest (wrap32 start_height) (wrap32 end_height)))
    (CE.NetworkError "No BlockResponse from peer "));
  download_time ← elapsed net download_start;
  modify (fun s => s <| performance_monitor ::= record_download_time download_time |>);;
  blocks_validated ← count_ok validate_and_store_block_enhanced blocks 0;
  modify (fun s => s <| peer_manager ::= peers_record_success selected_peer blocks_validated |>);;
  now ← instant_now net;
  modify (fun s => s <| progress_tracker ::= update_progress now end_height blocks_validated 0 (u64_mul (len blocks) 1000) |>);;
  mret blocks_validated.

Fixpoint block_loop (fuel : nat) (target_height h : Z) : netM unit :=
  if h <? target_height then
    match fuel with
    | O => never_returns
    | S fuel =>
        permits ← gets download_permits;
        if permits <=? 0 then never_returns
        else
          let end_height := Z.min (u64_add h 100) target_height in
          r ← attempt (download_block_batch_enhanced h end_height);
          match r with
          | Err e =>
              modify (fun s => s <| progress_tracker ::= record_failed_download |>);;
              retry_or_give_up "block_download" e (block_loop fuel target_height h)
          | _ => block_loop fuel target_height end_height
          end
    end
  else mret tt.

Definition download_blocks_enhanced (fuel : nat) (current_height target_height : Z) : netM unit :=
  block_loop fuel target_height current_height.

(** * The synchronisation *)

Definition begin_sync (current_height target_height : Z) (t : SyncState) : SyncState :=
  t <| is_syncing := true |> <| sync_height := current_height |> <| sync_target := target_height |>
    <| sync_type := InitialBlockDownload |>.

Definition start_sync (fuel : nat) : netM unit :=
  b ← gets blockchain;
  current_height ← lift (map_err internal (get_current_block_height (state b)));
  peer_heights ← discover_peer_heights;
  let max_peer_height := default current_height (max_height peer_heights) in
  if max_peer_height <=? current_height then mret tt
  else
    modify (fun s => s <| sync_state ::= begin_sync current_height max_peer_height |>);;
    now ← instant_now net;
    modify (fun s => s <| progress_tracker ::= tracker_start_sync now max_peer_height |>);;
    sync_request_block_headers fuel current_height max_peer_height;;
    download_blocks_enhanced fuel current_height max_peer_height;;
    modify (fun s => s <| sync_state ::= (fun t => t <| is_syncing := false |> <| sync_height := max_peer_height |>) |>).

Definition synchronize_blockchain (fuel : nat) : netM unit :=
  modify (fun s => s <| error_recovery ::= clear_all |>);;
  start_sync fuel.

End Sync.

Record SyncProgressInfo : Type := mkSyncProgressInfo {
  progress_is_syncing : bool;
  progress_height : Z;
  progress_target : Z;
  progress_percentage : f64;
  progress_speed : SyncSpeed;
  progress_remaining : option Z;
  progress_peer_count : Z;
  progress_download_time : option Z;
  progress_validation_time : option Z;
  progress_latency : option Z;
  progress_failed : Z;
  progress_reorg : bool;
}.

Definition get_sync_progress (s : NetworkSync) : SyncProgressInfo :=
  mkSyncProgressInfo (is_syncing (sync_state s)) (sync_height (sync_state s)) (sync_target (sync_state s))
    (get_progress_percentage (progress_tracker s)) (get_sync_speed (progress_tracker s))
    (get_estimated_time_remaining (progress_tracker s)) (get_peer_count (peer_manager s))
    (get_average_download_time (performance_monitor s)) (get_average_validation_time (performance_monitor s))
    (get_average_network_latency (performance_monitor s)) (failed_downloads (progress_tracker s))
    (reorg_detected (sync_state s)).

Definition is_sync_complete (s : NetworkSync) : bool :=
  negb (is_syncing (sync_state s)) && (sync_target (sync_state s) <=? sync_height (sync_state s)).
