(* ===== verification/NetworkSyncProps.v ===== *)
(** Theorems about network synchronisation (NetworkSync.v): what it keeps of the
    block chain, which headers and blocks it takes, when it returns, and what
    it reports. *)

From Stdlib Require Import ZArith Lia List SpecFloat.
From stdpp Require Import base option list numbers strings gmap.
From coqutil Require Import Datatypes.RecordSetters.
From S2P Require Import Prelude Types Errors Transaction SamplePrimitives UtxoSet U256 Masternodes LiveTickets GovernanceState.
From S2P Require Import Merkle ChainState Trie Mempool Params Blockchain BlockchainProps F64 PeerSelection SyncParts NetworkSync.

Import TriangleBracketNotations.
#[local] Open Scope Z_scope.

(** * Readings *)

Lemma tick_run s : tick s = (s <| ns_calls ::= S |>, Ok (ns_calls s)).
Proof. reflexivity. Qed.

Lemma now_run net s : instant_now net s = (s <| ns_calls ::= S |>, Ok (clock net (ns_calls s))).
Proof. reflexivity. Qed.

Lemma elapsed_run net start s :
  elapsed net start s = (s <| ns_calls ::= S |>, Ok (duration_since (clock net (ns_calls s)) start)).
Proof. reflexivity. Qed.

(** * Invariants of computations *)

Lemma preserves_attempt {A} (I : NetworkSync -> Prop) (m : netM A) : preserves I m -> preserves I (attempt m).
Proof. intros Hm s Hs. specialize (Hm s Hs). unfold attempt. by destruct (m s) as [s' []]. Qed.

Lemma preserves_count_ok {A} (I : NetworkSync -> Prop) (body : A -> netM unit) l :
  (forall x, preserves I (body x)) -> forall n, preserves I (count_ok body l n).
Proof.
  intros Hb. induction l as [|x l IH]; intros n; cbn [count_ok]; [apply preserves_ret|].
  apply preserves_bind; [by apply preserves_attempt|]. intros r. apply IH.
Qed.

Lemma preserves_never {A} (I : NetworkSync -> Prop) : preserves I (never_returns : netM A).
Proof. by intros s Hs. Qed.

(** An invariant that reads nothing but the block chain. *)
Lemma preserves_on_chain {A} (J : Blockchain -> Prop) err (m : bcM A) :
  preserves J m -> preserves (fun s => J (blockchain s)) (on_chain err m).
Proof.
  intros Hm s Hs. specialize (Hm _ Hs). unfold on_chain. destruct (m (blockchain s)) as [b r].
  destruct s. by destruct r.
Qed.

(** An operation that leaves the field alone keeps a claim about it. *)
Ltac keeps_field := apply preserves_modify; let s := fresh "s" in intros s Hs; by destruct s.

Section Keeps.
  Context `{Primitives, TicketCodec, StoreCodec, TrieCodec, ChainCodec, U256}.
  Context (iter_metrics : gmap string PeerMetrics -> list (string * PeerMetrics)) (net : SyncNet).

(** A count of successes fails for no element. *)
Lemma count_ok_no_error {A} (body : A -> netM unit) l : forall n s s' e, count_ok body l n s <> (s', Err e).
Proof.
  induction l as [|x l IH]; intros n s s' e; cbn [count_ok]; [done|]. rewrite stM_bind_run. unfold attempt.
  destruct (body x s) as [s1 [a|e1| |]]; try done; apply IH.
Qed.

(** The only errors of a batch of headers are those of the network. *)
Lemma header_batch_errors a b s s' e :
  download_header_batch iter_metrics net a b s = (s', Err e) -> exists msg, e = CE.NetworkError msg.
Proof.
  unfold download_header_batch, select_sync_peer. rewrite !stM_bind_run. cbn [gets lift].
  destruct (peers_select_best _ _) as [peer|]; [|intros [= _ <-]; eauto]. cbn [ok_or].
  rewrite !stM_bind_run. cbn [gets]. rewrite !stM_bind_run, tick_run, !stM_bind_run. cbn [lift].
  destruct (request_headers _ _ _ _) as [hs|]; cbn [ok_or]; [|intros [= _ <-]; eauto].
  rewrite stM_bind_run.
  match goal with |- context [count_ok ?f ?l ?n ?st] => destruct (count_ok f l n st) as [s2 [n2|e2| |]] eqn:Hc end; try done.
  by apply count_ok_no_error in Hc.
Qed.

(** So no error is taken for a reorganisation. *)
Lemma header_batch_no_reorg a b s s' e :
  download_header_batch iter_metrics net a b s = (s', Err e) -> detect_reorg e = false.
Proof. intros [msg ->]%header_batch_errors. done. Qed.

(** What the loops keep, given what they do to the struct. *)
Section Generic.
  Variable I : NetworkSync -> Prop.
  Hypothesis I_calls : forall s f, I s -> I (s <| ns_calls ::= f |>).
  Hypothesis I_peers : forall s f, I s -> I (s <| peer_manager ::= f |>).
  Hypothesis I_progress : forall s f, I s -> I (s <| progress_tracker ::= f |>).
  Hypothesis I_monitor : forall s f, I s -> I (s <| performance_monitor ::= f |>).
  Hypothesis I_recovery : forall s f, I s -> I (s <| error_recovery ::= f |>).
  Hypothesis I_recovery' : forall s r, I s -> I (s <| error_recovery := r |>).
  Hypothesis I_header : forall h, preserves I (on_chain (fun e => e) (store_header h)).

#[local] Hint Resolve I_calls I_peers I_progress I_monitor I_recovery I_recovery' I_header : keep.
#[local] Hint Resolve preserves_attempt preserves_count_ok preserves_never : keep.

Lemma keeps_tick : preserves I tick.
Proof using I_calls. unfold tick. keep. auto with keep. Qed.
#[local] Hint Resolve keeps_tick : keep.

Lemma keeps_now : preserves I (instant_now net).
Proof using I_calls. unfold instant_now. keep. Qed.
#[local] Hint Resolve keeps_now : keep.

Lemma keeps_elapsed start : preserves I (elapsed net start).
Proof using I_calls. unfold elapsed. keep. Qed.
#[local] Hint Resolve keeps_elapsed : keep.

Lemma keeps_validate_header h : preserves I (validate_and_store_header_enhanced net h).
Proof using I_calls I_monitor I_header. unfold validate_and_store_header_enhanced. keep. auto with keep. Qed.
#[local] Hint Resolve keeps_validate_header : keep.

Lemma keeps_sync_peer err : preserves I (select_sync_peer iter_metrics err).
Proof. unfold select_sync_peer. keep. Qed.
#[local] Hint Resolve keeps_sync_peer : keep.

Lemma keeps_header_batch a b : preserves I (download_header_batch iter_metrics net a b).
Proof using I_calls I_monitor I_header I_peers. unfold download_header_batch. keep. auto with keep. Qed.
#[local] Hint Resolve keeps_header_batch : keep.

Lemma keeps_retry op e again : preserves I again -> preserves I (retry_or_give_up op e again).
Proof using I_recovery I_recovery'.
  intros Ha. unfold retry_or_give_up. apply preserves_bind; [auto with keep|]. intros r.
  destruct (should_retry op r) as [r' g]. keep; auto with keep.
Qed.

Lemma keeps_discover ids : forall m, preserves I (discover_loop net ids m).
Proof using I_calls I_peers.
  induction ids as [|id ids IH]; intros m; cbn [discover_loop]; [auto with keep|].
  apply preserves_bind; [auto with keep|]. intros start. destruct (query_peer_height net id); keep; auto with keep.
Qed.

Lemma keeps_header_loop fuel target : forall h, preserves I (header_loop iter_metrics net fuel target h).
Proof using I_calls I_peers I_progress I_monitor I_recovery I_recovery' I_header.
  induction fuel as [|fuel IH]; intros h; cbn [header_loop]; [destruct (h <? target); auto with keep|].
  destruct (h <? target); [|auto with keep]. apply preserves_bind; [by apply keeps_now|]. intros start.
  apply (triple_bind _ (fun r s => I s /\ forall e, r = Err e -> detect_reorg e = false)).
  { intros s Hs. pose proof (keeps_header_batch h (Z.min (u64_add h 2000) target) s Hs) as Hk. unfold attempt.
    destruct (download_header_batch _ _ _ _ s) as [s1 [a|e1| |]] eqn:Hd; try done.
    split; [done|]. intros e [= <-]. by eapply header_batch_no_reorg. }
  intros r. apply triple_pure. intros Hr.
  assert (Hnext : forall h', preserves I (
    download_time ← elapsed net start;
    modify (fun s => s <| performance_monitor ::= record_download_time download_time |>);;
    now ← instant_now net;
    modify (fun s => s <| progress_tracker ::= update_progress now h 0 (wrap64 (h' - h)) (u64_mul (wrap64 (h' - h)) 80) |>);;
    header_loop iter_metrics net fuel target h')).
  { intros h'. apply preserves_bind; [by apply keeps_elapsed|]. intros d. apply preserves_bind; [keep; auto|]. intros _.
    apply preserves_bind; [by apply keeps_now|]. intros now. apply preserves_bind; [keep; auto|]. intros _. apply IH. }
  destruct r as [[]|e| |]; [apply Hnext| |apply Hnext..].
  rewrite (Hr e eq_refl). apply preserves_bind; [keep; auto|]. intros _. by apply keeps_retry.
Qed.

  Hypothesis I_block : forall b, preserves I (on_chain internal (add_block b)).

Lemma keeps_block_batch a b : preserves I (download_block_batch_enhanced iter_metrics net a b).
Proof using I_calls I_peers I_progress I_monitor I_block.
  unfold download_block_batch_enhanced.
  apply preserves_bind; [auto with keep|]. intros peer. apply preserves_bind; [by apply keeps_now|]. intros start.
  apply preserves_bind; [by apply keeps_tick|]. intros n. apply preserves_bind; [auto with keep|]. intros blocks.
  apply preserves_bind; [by apply keeps_elapsed|]. intros d. apply preserves_bind; [keep; auto|]. intros _.
  apply preserves_bind.
  { apply preserves_count_ok. intros blk. unfold validate_and_store_block_enhanced.
    apply preserves_bind; [by apply keeps_tick|]. intros t. keep. }
  intros k. apply preserves_bind; [keep; auto|]. intros _. apply preserves_bind; [by apply keeps_now|]. intros now.
  keep. auto.
Qed.

Lemma keeps_block_loop fuel target : forall h, preserves I (block_loop iter_metrics net fuel target h).
Proof using I_calls I_peers I_progress I_monitor I_recovery I_recovery' I_block.
  induction fuel as [|fuel IH]; intros h; cbn [block_loop]; [destruct (h <? target); auto with keep|].
  destruct (h <? target); [|auto with keep]. apply preserves_bind; [auto with keep|]. intros permits.
  destruct (permits <=? 0); [auto with keep|].
  apply preserves_bind; [by apply preserves_attempt, keeps_block_batch|]. intros [n|e| |]; try apply IH.
  apply preserves_bind; [keep; auto|]. intros _. by apply keeps_retry.
Qed.

End Generic.
End Keeps.

(** * What synchronisation keeps *)

Section Kept.
  Context `{HL : HashLaws, TicketCodec, StoreCodec, TrieCodec, ChainCodec, U256}.
  Context (iter_metrics : gmap string PeerMetrics -> list (string * PeerMetrics)) (net : SyncNet).

Lemma store_header_inv h : preserves chain_inv (store_header h).
Proof.
  unfold store_header. keep.
  - apply inv_on_state. unfold put_block_hash. keep.
    match goal with Hs : db ?s !! _ = None |- _ => change (<[height_key (header_height h) := a0]> (db s) !! string_bytes "current_height" = None) end.
    rewrite lookup_insert_ne; [done|]. pose proof (current_height_not_key (header_height h)). congruence.
  - apply inv_on_state. by apply preserves_modify.
Qed.

Lemma start_sync_keeps (I : NetworkSync -> Prop) fuel :
  (forall s f, I s -> I (s <| ns_calls ::= f |>)) -> (forall s f, I s -> I (s <| peer_manager ::= f |>)) ->
  (forall s f, I s -> I (s <| progress_tracker ::= f |>)) -> (forall s f, I s -> I (s <| performance_monitor ::= f |>)) ->
  (forall s f, I s -> I (s <| error_recovery ::= f |>)) -> (forall s r, I s -> I (s <| error_recovery := r |>)) ->
  (forall h, preserves I (on_chain (fun e => e) (store_header h))) ->
  (forall b, preserves I (on_chain internal (add_block b))) ->
  (forall s a b, I s -> I (s <| sync_state ::= begin_sync a b |>)) ->
  (forall s h, I s -> I (s <| sync_state ::= (fun t => t <| is_syncing := false |> <| sync_height := h |>) |>)) ->
  preserves I (synchronize_blockchain iter_metrics net fuel).
Proof.
  intros H1' H2' H3' H4' H5' H6' H7' H8' H9' H10'. unfold synchronize_blockchain, start_sync, discover_peer_heights.
  apply preserves_bind; [keep; auto|]. intros _. apply preserves_bind; [auto with keep|]. intros b.
  apply preserves_bind; [auto with keep|]. intros cur. apply preserves_bind.
  { destruct (get_connected_peers net) as [|id ids]; [auto with keep|]. by apply keeps_discover. }
  intros hs. destruct (_ <=? cur); [auto with keep|].
  apply preserves_bind; [keep; auto|]. intros _. apply preserves_bind; [by apply keeps_now|]. intros now.
  apply preserves_bind; [keep; auto|]. intros _.
  apply preserves_bind; [by apply keeps_header_loop|]. intros _.
  apply preserves_bind; [by apply keeps_block_loop|]. intros _. keep. auto.
Qed.

Lemma sync_chain_inv fuel :
  preserves (fun s => chain_inv (blockchain s)) (synchronize_blockchain iter_metrics net fuel).
Proof using HL.
  apply start_sync_keeps; try (intros []; done).
  - intros h. apply preserves_on_chain, store_header_inv.
  - intros b. apply preserves_on_chain, inv_add_block.
Qed.

(** Synchronisation does not tell the node its height either: from a reachable
    chain it ends, with or without an error, in one whose stored height is zero,
    and [add_block] checks the link of no block it downloads. *)
Theorem synced_blocks_unlinked fuel s s' r :
  reachable (blockchain s) -> synchronize_blockchain iter_metrics net fuel s = (s', r) ->
  get_current_block_height (state (blockchain s')) = Ok 0 /\
  forall block, check_previous_block (blockchain s') block 0 = Ok tt.
Proof using HL.
  intros Hr Hs. pose proof (preserves_fst _ _ _ (sync_chain_inv fuel) (reachable_inv _ Hr)) as Hi. rewrite Hs in Hi. cbn in Hi.
  destruct Hi as [Hh _ _ _ _]. split; [|done]. unfold get_current_block_height. by rewrite Hh.
Qed.

(** A reorganisation is never detected: the errors it is recognised by are
    swallowed with the headers that cause them. *)
Theorem reorg_never_detected fuel s s' r :
  reorg_detected (sync_state s) = false -> synchronize_blockchain iter_metrics net fuel s = (s', r) ->
  reorg_detected (sync_state s') = false.
Proof.
  intros Hr Hs.
  assert (Hk : preserves (fun s => reorg_detected (sync_state s) = false) (synchronize_blockchain iter_metrics net fuel)).
  { assert (Hc : forall A err (m : bcM A), preserves (fun s => reorg_detected (sync_state s) = false) (on_chain err m)).
    { intros A err m st Hst. unfold on_chain. destruct (m (blockchain st)) as [b o]. destruct st. by destruct o. }
    apply start_sync_keeps; try (intros []; done); intros; apply Hc. }
  pose proof (preserves_fst _ _ _ Hk Hr) as Hi. by rewrite Hs in Hi.
Qed.

End Kept.

(** * Headers *)

Section Headers.
  Context `{Primitives, TicketCodec, StoreCodec, TrieCodec, ChainCodec, U256}.
  Context (iter_metrics : gmap string PeerMetrics -> list (string * PeerMetrics)) (net : SyncNet).

(** What is checked of a header; the target and the nonce are not. *)
Definition header_plausible (now : Z) (h : BlockHeader) (b : Blockchain) : Prop :=
  header_version h = 1 /\ timestamp h <= u64_add now MAX_SYNC_TIME_DRIFT /\
  0 < header_height h <= 10000 /\ previous_block_hash h <> zero_hash /\
  (get_block_hash (state b) (header_height h - 1) = Ok None \/
   get_block_hash (state b) (header_height h - 1) = Ok (Some (previous_block_hash h))).

Lemma store_header_run h b hash enc :
  get_current_block_height (state b) = Ok 0 -> 0 < header_height h ->
  header_hash (E := CE.ConsensusError) h = Ok hash -> bincode_hash hash = Some enc ->
  store_header h b = (b <| state ::= (fun st => update_tip hash (header_height h) (db_insert (height_key (header_height h)) enc st)) |>, Ok tt).
Proof.
  intros Hz Hh Hhash Henc. unfold store_header. rewrite stM_bind_run. unfold lift. rewrite Hhash, stM_bind_run.
  unfold on_state at 1, zoom at 1, put_block_hash. rewrite stM_bind_run. unfold lift. rewrite Henc. cbn [ok_or modify map_err].
  rewrite stM_bind_run. cbn [gets]. unfold stored_height.
  assert (Hsame : get_current_block_height (state (b <| state := db_insert (height_key (header_height h)) enc (state b) |>)) = Ok 0).
  { rewrite <- Hz. destruct b as [? ? ? ? [] ? ? ?]. unfold get_current_block_height. cbn.
    rewrite lookup_insert_ne; [done|]. exact (not_eq_sym (current_height_not_key _)). }
  rewrite Hsame. replace (0 <? header_height h) with true by (symmetry; by apply Z.ltb_lt).
  by destruct b as [? ? ? ? [] ? ? ?].
Qed.

(** Where the stored height is zero, as in every reachable state, every
    plausible header becomes the tip, whatever work went into it and whether
    its height is above that of the tip or below. *)
Theorem any_header_becomes_tip h s hash enc :
  get_current_block_height (state (blockchain s)) = Ok 0 -> should_cleanup (memory_manager s) = false ->
  header_plausible (unix_time net (S (ns_calls s))) h (blockchain s) ->
  header_hash (E := CE.ConsensusError) h = Ok hash -> bincode_hash hash = Some enc ->
  exists s', validate_and_store_header_enhanced net h s = (s', Ok tt) /\
    state_tip (state (blockchain s')) = hash /\ current_height (state (blockchain s')) = header_height h /\
    db (state (blockchain s')) = <[height_key (header_height h) := enc]> (db (state (blockchain s))) /\
    utxo_set (blockchain s') = utxo_set (blockchain s).
Proof.
  intros Hz Hm (Hv & Ht & Hh & Hp & Hprev) Hhash Henc. unfold validate_and_store_header_enhanced.
  rewrite stM_bind_run, now_run, stM_bind_run, tick_run, stM_bind_run. cbn [gets]. rewrite stM_bind_run.
  destruct s as [b pt pm dp ss er mm perf n]. cbn in Hz, Hm, Ht, Hprev |- *.
  assert (Hchk : validate_block_header_enhanced (unix_time net (S n)) h b = Ok tt).
  { unfold validate_block_header_enhanced, stored_height. rewrite Hz, Hv. cbn [Z.eqb negb].
    change (Pos.eqb 1 1) with true. cbn [negb].
    replace (_ <? timestamp h) with false by (symmetry; apply Z.ltb_ge; lia).
    change (u64_add 0 10000) with 10000. replace (10000 <? _) with false by (symmetry; apply Z.ltb_ge; lia).
    rewrite bool_decide_eq_false_2 by done. by rewrite andb_false_r. }
  assert (Hcont : validate_header_chain_continuity h b = Ok tt).
  { unfold validate_header_chain_continuity. replace (header_height h =? 0) with false by (symmetry; apply Z.eqb_neq; lia).
    destruct Hprev as [-> | ->]; cbn; [done|]. by rewrite bool_decide_eq_true_2. }
  unfold lift. rewrite Hchk, stM_bind_run, Hcont, stM_bind_run. cbn [gets memory_manager]. rewrite stM_bind_run, Hm.
  unfold on_chain. cbn [blockchain]. rewrite (store_header_run h b hash enc) by (done || lia). cbn [map_err].
  rewrite stM_bind_run, elapsed_run. eexists. split; [reflexivity|]. by destruct b.
Qed.

(** The same block chain, up to the entries under heights and the tip. *)
Definition indexed_from (b b' : Blockchain) : Prop :=
  b' = b <| state := state b' |> /\
  state_utxo_set (state b') = state_utxo_set (state b) /\
  state_live_tickets (state b') = state_live_tickets (state b) /\
  state_active_proposals (state b') = state_active_proposals (state b) /\
  forall k, (forall h, k <> height_key h) -> db (state b') !! k = db (state b) !! k.

Lemma store_header_indexed b h : preserves (indexed_from b) (store_header h).
Proof.
  unfold store_header. keep.
  - intros b' Hb. unfold on_state, zoom, put_block_hash. rewrite stM_bind_run. unfold lift.
    destruct (bincode_hash a) as [enc|]; cbn [ok_or]; [|by destruct b'].
    destruct b as [? ? ? ? [] ? ? ?], b' as [? ? ? ? [] ? ? ?], Hb as (Hb & Hu & Hl & Hp & Hk). cbn in *.
    injection Hb as -> -> -> -> -> -> ->. split_and!; try done. intros k Hkey. cbn. rewrite lookup_insert_ne by done. by apply Hk.
  - intros b' Hb. unfold on_state, zoom. cbn [modify map_err].
    destruct b as [? ? ? ? [] ? ? ?], b' as [? ? ? ? [] ? ? ?], Hb as (Hb & Hu & Hl & Hp & Hk). cbn in *.
    injection Hb as -> -> -> -> -> -> ->. by split_and!.
Qed.

(** Headers first: whatever peers send, the header phase changes no output, no
    ticket, no masternode, no proposal and no transaction of the pool; of the
    store it touches the entries under heights. *)
Theorem headers_touch_only_the_index fuel target h s s' r :
  header_loop iter_metrics net fuel target h s = (s', r) -> indexed_from (blockchain s) (blockchain s').
Proof.
  intros Hs.
  assert (Hk : preserves (fun t => indexed_from (blockchain s) (blockchain t)) (header_loop iter_metrics net fuel target h)).
  { apply keeps_header_loop; try (intros []; done). intros hd. apply preserves_on_chain, store_header_indexed. }
  assert (H0s : indexed_from (blockchain s) (blockchain s)) by (by destruct s as [[] ? ? ? ? ? ? ? ?]).
  pose proof (preserves_fst _ _ _ Hk H0s) as Hi. by rewrite Hs in Hi.
Qed.

End Headers.

(** * Termination *)

(** A computation that comes to an end. *)
Definition returns {S E A} (m : stM S E A) : Prop := forall s s', m s <> (s', OutOfFuel).

Lemma returns_bind {S E A B} (m : stM S E A) (f : A -> stM S E B) : returns m -> (forall a, returns (f a)) -> returns (m ≫= f).
Proof.
  intros Hm Hf s s'. rewrite stM_bind_run. destruct (m s) as [s1 [a|e| |]] eqn:He; try done; [by apply Hf|].
  by apply Hm in He.
Qed.

Lemma returns_lift {S E A} (o : outcome E A) : o <> OutOfFuel -> returns (lift o : stM S E A).
Proof. intros Ho s s' [= _ H]. done. Qed.

Lemma returns_attempt {A} (m : netM A) : returns m -> returns (attempt m).
Proof. intros Hm s s'. unfold attempt. destruct (m s) as [s1 [a|e| |]] eqn:He; try done. by apply Hm in He. Qed.

Lemma returns_count_ok {A} (body : A -> netM unit) l : (forall x, returns (body x)) -> forall n, returns (count_ok body l n).
Proof.
  intros Hb. induction l as [|x l IH]; intros n; cbn [count_ok]; [done|].
  apply returns_bind; [by apply returns_attempt|]. intros r. apply IH.
Qed.

Lemma returns_on_chain {A} err (m : bcM A) : returns m -> returns (on_chain err m).
Proof. intros Hm s s'. unfold on_chain. destruct (m (blockchain s)) as [b [a|e| |]] eqn:He; try done. by apply Hm in He. Qed.

Lemma returns_on_state {A} err (m : stateM A) : returns m -> returns (on_state err m).
Proof. intros Hm s s'. unfold on_state, zoom. destruct (m (state s)) as [b [a|e| |]] eqn:He; try done. by apply Hm in He. Qed.

Section Terminates.
  Context `{Primitives, TicketCodec, StoreCodec, TrieCodec, ChainCodec, U256}.
  Context (iter_metrics : gmap string PeerMetrics -> list (string * PeerMetrics)) (net : SyncNet).

Lemma returns_validate_header h : returns (validate_and_store_header_enhanced net h).
Proof.
  unfold validate_and_store_header_enhanced.
  apply returns_bind; [done|]. intros start. apply returns_bind; [done|]. intros n. apply returns_bind; [done|]. intros b.
  apply returns_bind.
  { apply returns_lift. unfold validate_block_header_enhanced. destruct (negb _); [done|].
    destruct (_ <? timestamp h); [done|]. destruct (_ <? header_height h); [done|]. by destruct (_ && _). }
  intros _. apply returns_bind.
  { apply returns_lift. unfold validate_header_chain_continuity. destruct (_ =? 0); [by destruct (negb _)|].
    unfold get_block_hash. destruct (_ !! _) as [v|]; [|done]. destruct (decode_hash v); cbn; [by destruct (negb _)|done]. }
  intros _. apply returns_bind; [done|]. intros m. apply returns_bind; [|done]. destruct (should_cleanup m); [done|].
  apply returns_on_chain. unfold store_header. apply returns_bind.
  { apply returns_lift. unfold header_hash. by destruct (bincode_header h). }
  intros hash. apply returns_bind.
  { apply returns_on_state. unfold put_block_hash. apply returns_bind; [|done]. apply returns_lift. by destruct (bincode_hash hash). }
  intros _. apply returns_bind; [done|]. intros b'. by destruct (_ <? _).
Qed.

Lemma returns_header_batch a b : returns (download_header_batch iter_metrics net a b).
Proof.
  unfold download_header_batch, select_sync_peer. apply returns_bind.
  { apply returns_bind; [done|]. intros p. apply returns_lift. by destruct (peers_select_best _ _). }
  intros peer. apply returns_bind; [done|]. intros bc. apply returns_bind; [done|]. intros n. apply returns_bind.
  { apply returns_lift. by destruct (request_headers _ _ _ _). }
  intros hs. apply returns_bind; [|done]. apply returns_count_ok, returns_validate_header.
Qed.

(** Batches that are left, and retries. *)
Definition rounds_left (op : string) (size target h : Z) (r : ErrorRecovery) : Z :=
  (target - h + (size - 1)) / size + (5 - retry_count op r).

Lemma rounds_advance op size target h r :
  0 < size -> h < target -> rounds_left op size target (Z.min (h + size) target) r + 1 <= rounds_left op size target h r.
Proof.
  intros Hs Hh. unfold rounds_left.
  assert ((target - Z.min (h + size) target + (size - 1)) / size + 1 <= (target - h + (size - 1)) / size); [|lia].
  destruct (Z.le_gt_cases (h + size) target) as [Hle|Hgt].
  - rewrite <- Z.div_add by lia. apply Z.div_le_mono; lia.
  - rewrite Z.min_r by lia. replace (target - target + (size - 1)) with (size - 1) by lia.
    rewrite (Z.div_small (size - 1)) by lia. apply Z.div_le_lower_bound; lia.
Qed.

Lemma rounds_some op size target h r : 0 < size -> h < target -> retry_count op r <= 5 -> 1 <= rounds_left op size target h r.
Proof.
  intros Hs Hh Hr. unfold rounds_left. assert (1 <= (target - h + (size - 1)) / size); [|lia].
  apply Z.div_le_lower_bound; lia.
Qed.

(** A count within the five retries. *)
Definition few_retries (op : string) (r : ErrorRecovery) : Prop := max_retries r = 5 /\ 0 <= retry_count op r <= 5.

(** Either the operation is tried again with one retry less, or given up. *)
Lemma retry_cases op e again s :
  few_retries op (error_recovery s) ->
  (exists r, retry_or_give_up op e again s = again (s <| error_recovery := r |>) /\ few_retries op r /\
     retry_count op r = retry_count op (error_recovery s) + 1) \/
  exists s', retry_or_give_up op e again s = (s', Err e).
Proof.
  intros [Hm Hc]. unfold retry_or_give_up. rewrite stM_bind_run. cbn [gets].
  destruct (should_retry op (error_recovery s)) as [r g] eqn:Hr. rewrite stM_bind_run. cbn [modify].
  unfold should_retry in Hr. injection Hr as <- <-. rewrite Hm.
  destruct (Z.ltb_spec (retry_count op (error_recovery s)) 5) as [Hlt|Hge].
  - left. rewrite stM_bind_run. cbn [modify]. eexists. split; [by destruct s|].
    destruct s as [? ? ? ? ? [c m b] ? ? ?]. unfold few_retries, retry_count, get_retry_delay in *. cbn in *.
    unfold retry_count. cbn. rewrite !lookup_insert_eq. cbn. unfold RecordSetters.constant in *. rewrite wrap32_small by (unfold u32_max; lia). lia.
  - right. rewrite stM_bind_run. cbn [modify throw]. eauto.
Qed.

Lemma header_loop_returns target fuel : forall h s s',
  target + 2000 <= u64_max -> 0 <= h -> few_retries "header_download" (error_recovery s) ->
  rounds_left "header_download" 2000 target h (error_recovery s) <= Z.of_nat fuel ->
  header_loop iter_metrics net fuel target h s <> (s', OutOfFuel).
Proof.
  induction fuel as [|fuel IH]; intros h s s' Ht Hh Hr Hf; cbn [header_loop];
    destruct (Z.ltb_spec h target) as [Hlt|Hge]; try done.
  { destruct Hr as [_ Hr]. pose proof (rounds_some "header_download" 2000 target h _ ltac:(lia) Hlt (proj2 Hr)). lia. }
  rewrite stM_bind_run, now_run, stM_bind_run. set (s1 := s <| ns_calls ::= S |>). unfold attempt.
  assert (Hk : preserves (fun t => error_recovery t = error_recovery s)
    (download_header_batch iter_metrics net h (Z.min (u64_add h 2000) target))).
  { apply keeps_header_batch; try (intros []; done). intros hd t Ht'. unfold on_chain.
    destruct (store_header hd (blockchain t)) as [b o]. destruct t. by destruct o. }
  specialize (Hk s1 ltac:(by destruct s)).
  destruct (download_header_batch _ _ _ _ s1) as [s2 [[]|e| |]] eqn:Hb; try done; cbn in Hk.
  - rewrite stM_bind_run, elapsed_run, stM_bind_run. cbn [modify]. rewrite stM_bind_run, now_run, stM_bind_run. cbn [modify].
    apply IH; [done| | |].
    + unfold u64_add. rewrite wrap64_small by lia. lia.
    + destruct s2. cbn in *. by rewrite Hk.
    + replace (error_recovery _) with (error_recovery s) by (by destruct s2).
      unfold u64_add. rewrite wrap64_small by lia.
      pose proof (rounds_advance "header_download" 2000 target h (error_recovery s) ltac:(lia) Hlt). lia.
  - rewrite (header_batch_no_reorg _ _ _ _ _ _ _ Hb), stM_bind_run. cbn [modify].
    set (s3 := s2 <| progress_tracker ::= record_failed_download |>).
    assert (Hs3 : error_recovery s3 = error_recovery s) by (by destruct s2).
    destruct (retry_cases "header_download" e (header_loop iter_metrics net fuel target h) s3) as [(r & -> & Hr' & Hc)|(s4 & ->)];
      [by rewrite Hs3| |done].
    assert (He : error_recovery (s3 <| error_recovery := r |>) = r) by (by destruct s3).
    apply IH; [done..| |]; rewrite He; [done|]. unfold rounds_left in *. rewrite Hc, Hs3. lia.
  - by apply returns_header_batch in Hb.
Qed.

End Terminates.

(** * What is reported *)

Section Reported.
  Context `{Primitives, TicketCodec, StoreCodec, TrieCodec, ChainCodec, U256}.
  Context (iter_metrics : gmap string PeerMetrics -> list (string * PeerMetrics)) (net : SyncNet).

(** C33. The header phase ends: at most one round for each batch of 2000 and five
    retries. *)
Theorem header_phase_terminates fuel current target s :
  target + 2000 <= u64_max -> 0 <= current -> few_retries "header_download" (error_recovery s) ->
  rounds_left "header_download" 2000 target current (error_recovery s) <= Z.of_nat fuel ->
  exists s' r, sync_request_block_headers iter_metrics net fuel current target s = (s', r) /\ r <> OutOfFuel.
Proof.
  intros Ht Hc Hr Hf. unfold sync_request_block_headers.
  destruct (header_loop iter_metrics net fuel target current s) as [s' r] eqn:He. exists s', r. split; [done|].
  intros ->. by apply (header_loop_returns iter_metrics net target fuel current s s') in He.
Qed.

Lemma loops_keep_sync_state st fuel target h :
  preserves (fun s => sync_state s = st) (header_loop iter_metrics net fuel target h) /\
  preserves (fun s => sync_state s = st) (block_loop iter_metrics net fuel target h) /\
  forall ids m, preserves (fun s => sync_state s = st) (discover_loop net ids m).
Proof.
  assert (Hc : forall A err (m : bcM A), preserves (fun s => sync_state s = st) (on_chain err m)).
  { intros A err m t Ht. unfold on_chain. destruct (m (blockchain t)) as [b o]. destruct t. by destruct o. }
  split_and!; [apply keeps_header_loop|apply keeps_block_loop|intros ids m; apply keeps_discover];
    try (intros []; done); intros; apply Hc.
Qed.

(** A synchronisation either ends before it starts, and reports what was
    reported before, or reports completion when it returns normally, and goes on
    reporting that it is under way when it does not. *)
Theorem sync_status fuel s s' r :
  start_sync iter_metrics net fuel s = (s', r) ->
  sync_state s' = sync_state s \/
  (r = Ok tt /\ is_sync_complete s' = true) \/
  (r <> Ok tt /\ is_syncing (sync_state s') = true /\ is_sync_complete s' = false).
Proof.
  unfold start_sync. rewrite stM_bind_run. cbn [gets]. rewrite stM_bind_run. cbn [lift].
  destruct (map_err _ _) as [cur|e| |]; [|intros [= <- _]; by left..]. rewrite stM_bind_run.
  assert (Hd : forall s1 o, discover_peer_heights net s = (s1, o) -> sync_state s1 = sync_state s).
  { intros s1 o. unfold discover_peer_heights. destruct (get_connected_peers net) as [|id ids]; [by intros [= <- _]|].
    intros Hd. destruct (loops_keep_sync_state (sync_state s) 0 0 0) as (_ & _ & Hk).
    pose proof (preserves_fst _ _ _ (Hk (id :: ids) ∅) (eq_refl (sync_state s))) as Hs. by rewrite Hd in Hs. }
  destruct (discover_peer_heights net s) as [s1 [hs|e| |]]; specialize (Hd _ _ eq_refl); [|intros [= <- _]; by left..].
  set (target := default cur (max_height hs)). destruct (Z.leb_spec target cur) as [Hle|Hgt]; [intros [= <- _]; by left|].
  rewrite stM_bind_run. cbn [modify]. rewrite stM_bind_run, now_run, stM_bind_run. cbn [modify]. rewrite stM_bind_run.
  set (st := begin_sync cur target (sync_state s1)).
  destruct (loops_keep_sync_state st fuel target cur) as (Hh & Hb & _). unfold sync_request_block_headers, download_blocks_enhanced.
  match goal with |- context [header_loop _ _ _ _ _ ?t] => set (s2 := t) end.
  assert (Hs2 : sync_state s2 = st) by (by destruct s1). pose proof (Hh _ Hs2) as H3s. clearbody s2.
  assert (Hst : is_syncing st = true /\ sync_target st = target) by (by destruct (sync_state s1)). clearbody st.
  destruct (header_loop _ _ _ _ _ s2) as [s3 [u|e| |]]; cbn in H3s;
    [|intros [= <- <-]; right; right; unfold is_sync_complete; rewrite H3s, (proj1 Hst); done..].
  rewrite stM_bind_run. pose proof (Hb _ H3s) as H4s.
  destruct (block_loop _ _ _ _ _ s3) as [s4 [v|e| |]]; cbn in H4s;
    [|intros [= <- <-]; right; right; unfold is_sync_complete; rewrite H4s, (proj1 Hst); done..].
  cbn [modify]. intros [= <- <-]. right. left. split; [done|]. destruct s4 as [b4 p4 m4 d4 st4 r4 mm4 pf4 c4].
  cbn in H4s. subst st4. destruct st as [syn hgt tgt ty cp rd rdep]. cbn in Hst. destruct Hst as [_ ->].
  unfold is_sync_complete. cbn. apply Z.leb_refl.
Qed.

End Reported.

(** * Empty answers *)

Section Empty.
  Context `{Primitives, TicketCodec, StoreCodec, TrieCodec, ChainCodec, U256}.
  Context (iter_metrics : gmap string PeerMetrics -> list (string * PeerMetrics)) (net : SyncNet).
  Hypothesis iter_perm : forall m, iter_metrics m ≡ₚ map_to_list m.
  Hypothesis no_headers : forall n p q, request_headers net n p q = Some [].
  Hypothesis no_blocks : forall n p q, request_blocks net n p q = Some [].

(** A known peer that is not blacklisted. *)
Definition can_ask (id : string) (p : SyncPeers) : Prop :=
  id ∉ sync_blacklist p /\ exists m, sync_peers p !! id = Some m /\ metrics_id m = id.

Lemma can_ask_selects id p : can_ask id p -> exists best, peers_select_best iter_metrics p = Some best.
Proof using iter_perm.
  intros (Hb & m & Hm & Hid). unfold peers_select_best.
  assert (Hin : m ∈ usable_peers iter_metrics p).
  { unfold usable_peers. apply list_elem_of_filter. rewrite Hid. split; [done|]. apply list_elem_of_fmap.
    exists (id, m). split; [done|]. by rewrite iter_perm, elem_of_map_to_list. }
  destruct (usable_peers iter_metrics p) as [|x l]; [by apply not_elem_of_nil in Hin|]. cbn. eauto.
Qed.

Lemma can_ask_success id p best n : can_ask id p -> can_ask id (peers_record_success best n p).
Proof.
  intros (Hb & m & Hm & Hid). unfold peers_record_success. destruct (sync_peers p !! best) as [m'|] eqn:Hbest.
  - destruct p as [ps bl mx]. cbn in *. split; [done|]. destruct (decide (best = id)) as [->|Hne].
    + exists (metrics_success n m'). cbn. rewrite lookup_insert_eq. split; [done|]. rewrite Hm in Hbest. injection Hbest as <-.
      unfold metrics_success. destruct m. cbn in *. by destruct (0 <? n); [destruct (n <=? 100)|].
    + exists m. cbn. by rewrite lookup_insert_ne.
  - split; [done|]. eauto.
Qed.

Lemma can_ask_added now id height response p :
  id ∉ sync_blacklist p -> sync_peers p !! id = None -> can_ask id (add_or_update_peer now id height response p).
Proof.
  intros Hb Hn. unfold add_or_update_peer. rewrite bool_decide_eq_false_2 by done. rewrite Hn. destruct p. cbn in *.
  split; [done|]. eexists. cbn. rewrite lookup_insert_eq. by split.
Qed.

Definition quiet_state (id : string) (b : Blockchain) (st : SyncState) (s : NetworkSync) : Prop :=
  blockchain s = b /\ sync_state s = st /\ 0 < download_permits s /\ can_ask id (peer_manager s).

Lemma empty_header_batch id b st x y s :
  quiet_state id b st s -> exists s', download_header_batch iter_metrics net x y s = (s', Ok tt) /\ quiet_state id b st s'.
Proof using iter_perm no_headers.
  intros (Hb & Hs & Hd & Hp). destruct (can_ask_selects _ _ Hp) as [best Hbest].
  unfold download_header_batch, select_sync_peer. rewrite !stM_bind_run. cbn [gets lift]. rewrite Hbest. cbn [ok_or].
  rewrite !stM_bind_run. cbn [gets]. rewrite !stM_bind_run, tick_run, !stM_bind_run. cbn [lift]. rewrite no_headers. cbn [ok_or].
  rewrite stM_bind_run. cbn [count_ok modify]. eexists. split; [reflexivity|]. destruct s. cbn in *.
  split_and!; [done..|]. by apply can_ask_success.
Qed.

Lemma empty_header_loop id b st target fuel : forall h s,
  target + 2000 <= u64_max -> 0 <= h -> quiet_state id b st s -> target - h <= 2000 * Z.of_nat fuel ->
  exists s', header_loop iter_metrics net fuel target h s = (s', Ok tt) /\ quiet_state id b st s'.
Proof using iter_perm no_headers.
  induction fuel as [|fuel IH]; intros h s Ht Hh Hi Hf; cbn [header_loop];
    destruct (Z.ltb_spec h target) as [Hlt|Hge]; try (by exists s); [lia|].
  rewrite stM_bind_run, now_run, stM_bind_run. unfold attempt.
  destruct (empty_header_batch id b st h (Z.min (u64_add h 2000) target) (s <| ns_calls ::= S |>)) as (s2 & -> & Hi2);
    [by destruct s|].
  rewrite stM_bind_run, elapsed_run, stM_bind_run. cbn [modify]. rewrite stM_bind_run, now_run, stM_bind_run. cbn [modify].
  unfold u64_add. rewrite wrap64_small by lia. apply IH; [done|lia|by destruct s2|lia].
Qed.

Lemma empty_block_batch id b st x y s :
  quiet_state id b st s -> exists s', download_block_batch_enhanced iter_metrics net x y s = (s', Ok 0) /\ quiet_state id b st s'.
Proof using iter_perm no_blocks.
  intros (Hb & Hs & Hd & Hp). destruct (can_ask_selects _ _ Hp) as [best Hbest].
  unfold download_block_batch_enhanced, select_sync_peer. rewrite !stM_bind_run. cbn [gets lift]. rewrite Hbest. cbn [ok_or].
  rewrite !stM_bind_run, now_run, !stM_bind_run, tick_run, !stM_bind_run. cbn [lift]. rewrite no_blocks. cbn [ok_or].
  rewrite stM_bind_run, elapsed_run, stM_bind_run. cbn [modify].
  eexists. split; [reflexivity|]. destruct s. cbn in *. split_and!; [done..|]. by apply can_ask_success.
Qed.

Lemma empty_block_loop id b st target fuel : forall h s,
  target + 2000 <= u64_max -> 0 <= h -> quiet_state id b st s -> target - h <= 100 * Z.of_nat fuel ->
  exists s', block_loop iter_metrics net fuel target h s = (s', Ok tt) /\ quiet_state id b st s'.
Proof using iter_perm no_blocks.
  induction fuel as [|fuel IH]; intros h s Ht Hh Hi Hf; cbn [block_loop];
    destruct (Z.ltb_spec h target) as [Hlt|Hge]; try (by exists s); [lia|].
  rewrite stM_bind_run. cbn [gets]. pose proof Hi as (_ & _ & Hd & _).
  replace (download_permits s <=? 0) with false by (symmetry; apply Z.leb_gt; lia). rewrite stM_bind_run. unfold attempt.
  destruct (empty_block_batch id b st h (Z.min (u64_add h 100) target) s Hi) as (s2 & -> & Hi2).
  unfold u64_add. rewrite wrap64_small by lia. apply IH; [done|lia|done|lia].
Qed.

(** One connected peer whose every answer is empty is enough for the node to
    report that it is synchronised, at the height derived from when the peer was
    last seen, with its block chain as it was. *)
Theorem empty_answers_complete_sync fuel id info b permits memory :
  get_connected_peers net = [id] -> get_peer_info net id = Some info ->
  is_u64 (info_last_seen info) -> is_u32 (blocks_in_flight info) ->
  get_current_block_height (state b) = Ok 0 -> 0 < permits ->
  let claimed := info_last_seen info mod 10000 + 100 * blocks_in_flight info in
  0 < claimed <= 100 * Z.of_nat fuel ->
  exists s', synchronize_blockchain iter_metrics net fuel (NetworkSync_new b permits memory) = (s', Ok tt) /\
    blockchain s' = b /\ is_sync_complete s' = true /\ sync_height (sync_state s') = claimed.
Proof using iter_perm no_headers no_blocks.
  intros Hids Hinfo Hl Hu Hz Hp claimed Hc.
  assert (Hq : query_peer_height net id = Ok claimed).
  { unfold query_peer_height, do_query_peer_height. rewrite Hinfo. f_equal. unfold u64_add, u64_mul, claimed.
    pose proof (Z.mod_pos_bound (info_last_seen info) 10000 ltac:(lia)). unfold is_u32, u32_max in Hu.
    rewrite (wrap64_small (_ * 100)) by (unfold u64_max; lia). rewrite wrap64_small by (unfold u64_max; lia). lia. }
  assert (Hmax : claimed + 2000 <= u64_max).
  { pose proof (Z.mod_pos_bound (info_last_seen info) 10000 ltac:(lia)). unfold claimed, is_u32, u32_max, u64_max in *. lia. }
  unfold synchronize_blockchain. rewrite stM_bind_run. cbn [modify]. unfold start_sync. rewrite stM_bind_run. cbn [gets].
  rewrite stM_bind_run. cbn [lift]. cbn [blockchain NetworkSync_new]. 
  assert (Hb0 : forall f, blockchain ((NetworkSync_new b permits memory) <| error_recovery ::= f |>) = b) by done.
  rewrite Hb0, Hz. cbn [map_err]. rewrite stM_bind_run. unfold discover_peer_heights. rewrite Hids. cbn [discover_loop].
  rewrite stM_bind_run, now_run, Hq, stM_bind_run, elapsed_run, stM_bind_run, now_run, stM_bind_run. cbn [modify].
  assert (Hm : max_height (<[id := claimed]> ∅) = Some claimed).
  { unfold max_height. by rewrite insert_empty, map_to_list_singleton. }
  cbn [mret stM_ret]. rewrite Hm. cbn [default]. unfold Datatypes.id. replace (claimed <=? 0) with false by (symmetry; apply Z.leb_gt; lia).
  rewrite stM_bind_run. cbn [modify]. rewrite stM_bind_run, now_run, stM_bind_run. cbn [modify]. rewrite stM_bind_run.
  match goal with |- context [sync_request_block_headers _ _ _ _ _ ?t] => set (s2 := t) end.
  assert (Hi : quiet_state id b (begin_sync 0 claimed SyncState_default) s2).
  { unfold quiet_state. split_and!; [done|done|done|]. by apply can_ask_added. }
  clearbody s2. unfold sync_request_block_headers.
  destruct (empty_header_loop id b _ claimed fuel 0 s2 Hmax ltac:(lia) Hi ltac:(lia)) as (s3 & -> & Hi3).
  rewrite stM_bind_run. unfold download_blocks_enhanced.
  destruct (empty_block_loop id b _ claimed fuel 0 s3 Hmax ltac:(lia) Hi3 ltac:(lia)) as (s4 & -> & (Hb4 & Hs4 & _)).
  cbn [modify]. eexists. split; [reflexivity|]. destruct s4. cbn in Hb4, Hs4. subst. cbn. split_and!; [done| |done].
  unfold is_sync_complete. cbn. apply Z.leb_refl.
Qed.

End Empty.

(** * Blocks *)

Section Blocks.
  Context `{Primitives, TicketCodec, StoreCodec, TrieCodec, ChainCodec, U256}.

(** The ids of the transactions, if all can be computed. *)
Definition txids (txs : list Transaction) (ids : list Hash) : Prop :=
  Forall2 (fun tx id => tx_txid (E := CE.ConsensusError) tx = Ok id) txs ids.

Lemma mapM_txids txs ids : mapM (M := outcome CE.ConsensusError) tx_txid txs = Ok ids <-> txids txs ids.
Proof.
  unfold txids. revert ids. induction txs as [|tx txs IH]; intros ids; cbn [mapM].
  - split; [intros [= <-]; constructor|by inversion 1].
  - destruct (tx_txid tx) as [id|e| |] eqn:Hid; cbn; try (split; [done|inversion 1; congruence]).
    destruct (mapM tx_txid txs) as [l|e| |] eqn:Hm; cbn; split; try done.
    + intros [= <-]. constructor; [done|]. by apply IH.
    + inversion 1 as [|? ? ? ? Ht Hl]; subst. apply IH in Hl. injection Hl as <-. rewrite Hid in Ht. by injection Ht as <-.
    + inversion 1 as [|? ? ? ? Ht Hl]; subst. apply IH in Hl. congruence.
    + inversion 1 as [|? ? ? ? Ht Hl]; subst. apply IH in Hl. congruence.
    + inversion 1 as [|? ? ? ? Ht Hl]; subst. apply IH in Hl. congruence.
Qed.

Lemma no_duplicates_iff txs : forall seen,
  no_duplicate_txids seen txs = Ok tt <-> exists ids, txids txs ids /\ NoDup ids /\ forall id, id ∈ ids -> id ∉ seen.
Proof.
  induction txs as [|tx txs IH]; intros seen; cbn [no_duplicate_txids].
  - split; [|done]. intros _. exists []. split_and!; [constructor|constructor|set_solver].
  - destruct (tx_txid tx) as [id|e| |] eqn:Hid; cbn.
    2-4: split; [done|]; intros (ids & Ht & _); inversion Ht; congruence.
    case_bool_decide as Hin.
    + split; [done|]. intros (ids & Ht & Hn & Hs). inversion Ht as [|? id' ? l Hid' Hl]; subst. exfalso.
      assert (id' = id) by congruence. subst. apply (Hs id); [left|done].
    + rewrite IH. split.
      * intros (l & Hl & Hn & Hs). exists (id :: l). split_and!; [by constructor| |].
        -- constructor; [|done]. intros Hc. apply (Hs _ Hc). left.
        -- intros x [->|Hx]%elem_of_cons; [done|]. intros Hc. apply (Hs x Hx). by right.
      * intros (ids & Ht & Hn & Hs). inversion Ht as [|? id' ? l Hid' Hl]; subst.
        assert (id' = id) by congruence. subst. inversion Hn as [|? ? Hnot Hn']; subst. exists l. split_and!; [done..|].
        intros x Hx [->|Hc]%elem_of_cons; [done|]. apply (Hs x); [by right|done].
Qed.

(** The root that synchronisation computes is the one of rusty-shared-types
    over the ids of the transactions. *)
Theorem sync_merkle_root txs ids :
  txs <> [] -> txids txs ids -> calculate_merkle_root_comprehensive txs = calculate_merkle_root_from_hashes ids.
Proof.
  intros Hne Ht. assert (Hn : ids <> []) by (destruct Ht; done). apply mapM_txids in Ht.
  unfold calculate_merkle_root_comprehensive. destruct txs; [done|]. rewrite Ht. cbn [mbind outcome_bind].
  by rewrite from_hashes_loop.
Qed.

(** What [verify_block_comprehensive] requires of a block. *)
Definition block_requirements (now : Z) (b : Block) : Prop :=
  header_version (header b) = 1 /\
  (header_height (header b) = 0 <-> previous_block_hash (header b) = zero_hash) /\
  timestamp (header b) <= u64_add now 7200 /\
  (exists v i o l w rest, transactions b = Coinbase v i o l w :: rest) /\
  (exists ids, txids (transactions b) ids /\ NoDup ids /\
     calculate_merkle_root_from_hashes (E := CE.ConsensusError) ids = Ok (merkle_root (header b))) /\
  len (ticket_votes b) = 5 /\ 3 <= len (filter (vote_counts (header b)) (ticket_votes b)) /\
  len (default [] (bincode_block b)) <= 4000000.

Lemma header_check_iff now h :
  validate_block_header_comprehensive now h = Ok tt <->
  header_version h = 1 /\ (header_height h = 0 <-> previous_block_hash h = zero_hash) /\ timestamp h <= u64_add now 7200.
Proof.
  unfold validate_block_header_comprehensive. change (2 * 60 * 60) with 7200.
  destruct (Z.eqb_spec (header_version h) 1); cbn [negb]; [|split; [done|tauto]].
  destruct (Z.eqb_spec (header_height h) 0), (bool_decide_reflect (previous_block_hash h = zero_hash)); cbn [negb andb];
    try (split; [done|tauto]);
    (destruct (Z.ltb_spec (u64_add now 7200) (timestamp h)); split; [done|intros (_ & _ & ?); lia|done|done]).
Qed.

Lemma each_accepted i txs : validate_each i txs = Ok tt.
Proof. revert i. induction txs as [|tx txs IH]; intros i; [done|]. apply IH. Qed.

Lemma transactions_check_iff txs :
  validate_block_transactions_comprehensive txs = Ok tt <->
  (exists v i o l w rest, txs = Coinbase v i o l w :: rest) /\ exists ids, txids txs ids /\ NoDup ids.
Proof.
  unfold validate_block_transactions_comprehensive. destruct txs as [|first rest]; [split; [done|by intros [(?&?&?&?&?&?&?) _]]|].
  destruct first; try (split; [done|by intros [(?&?&?&?&?&?&?) _]]).
  rewrite each_accepted. cbn [mbind outcome_bind]. rewrite no_duplicates_iff. split.
  - intros (ids & Ht & Hn & _). split; [eauto 10|]. eauto.
  - intros [_ (ids & Ht & Hn)]. exists ids. split_and!; [done..|]. intros id _. apply not_elem_of_nil.
Qed.

(** A downloaded block passes exactly if it meets the requirements: the scripts
    and amounts of its transactions, its work and the signatures of its votes
    are not among them. *)
Theorem verify_block_iff now b : verify_block_comprehensive now b = Ok tt <-> block_requirements now b.
Proof.
  unfold verify_block_comprehensive, block_requirements, validate_merkle_root_comprehensive,
    validate_ticket_votes_comprehensive, validate_block_size_comprehensive. split.
  - destruct (validate_block_header_comprehensive now (header b)) as [[]| | |] eqn:Hh; try done. apply header_check_iff in Hh.
    destruct (validate_block_transactions_comprehensive (transactions b)) as [[]| | |] eqn:Ht; try done.
    apply transactions_check_iff in Ht as (Hcb & ids & Ht & Hn). cbn [mbind outcome_bind].
    rewrite (sync_merkle_root _ ids) by (done || by destruct Hcb as (?&?&?&?&?&?&->)).
    destruct (calculate_merkle_root_from_hashes ids) as [root| | |] eqn:Hr; try done. cbn [mbind outcome_bind].
    case_bool_decide as Hroot; try done. cbn [negb mbind outcome_bind]. destruct (Z.eqb_spec (len (ticket_votes b)) 5); try done. cbn [negb mbind outcome_bind].
    destruct (Z.ltb_spec (len (filter (vote_counts (header b)) (ticket_votes b))) 3); try done.
    destruct (Z.ltb_spec 4000000 (len (default [] (bincode_block b)))); try done. intros _.
    destruct Hh as (? & ? & ?). split_and!; try done. exists ids. by rewrite Hroot.
  - intros (Hv & Hg & Hts & Hcb & (ids & Ht & Hn & Hr) & H5v & H3v & Hsz).
    rewrite (proj2 (header_check_iff now (header b))) by done.
    rewrite (proj2 (transactions_check_iff (transactions b))) by eauto. cbn [mbind outcome_bind].
    rewrite (sync_merkle_root _ ids) by (done || by destruct Hcb as (?&?&?&?&?&?&->)). rewrite Hr. cbn [mbind outcome_bind].
    rewrite bool_decide_eq_true_2 by done. cbn [negb]. rewrite (proj2 (Z.eqb_eq _ _) H5v). cbn [negb].
    replace (_ <? 3) with false by (symmetry; by apply Z.ltb_ge).
    by replace (4000000 <? _) with false by (symmetry; by apply Z.ltb_ge).
Qed.

End Blocks.

(** * Locators *)

Section Locators.
  Context `{Primitives, TicketCodec, StoreCodec, TrieCodec, ChainCodec, U256}.

(** After [i] rounds the height is at most [2 ^ 64 - 2 ^ i], so the walk is over
    before the fuel is. *)
Lemma locator_fuel s fuel : forall k i height acc,
  0 <= i <= 64 -> 64 - i < Z.of_nat fuel -> 0 <= height <= 2 ^ 64 - 2 ^ i ->
  locator_loop (fuel + k) s height (Z.min u64_max (2 ^ i)) acc = locator_loop fuel s height (Z.min u64_max (2 ^ i)) acc.
Proof.
  induction fuel as [|fuel IH]; intros k i height acc Hi Hf Hh; [lia|]. cbn [Nat.add locator_loop].
  destruct ((0 <? height) && (len acc <? 10)) eqn:Hc; [|done]. apply andb_true_iff in Hc as [Hpos%Z.ltb_lt _].
  assert (Hlt : i < 64).
  { destruct (Z.eq_dec i 64) as [->|]; [change (2 ^ 64 - 2 ^ 64) with 0 in Hh; lia|lia]. }
  assert (Hp : 0 < 2 ^ i) by (apply Z.pow_pos_nonneg; lia).
  assert (Hs : 2 ^ (i + 1) = 2 * 2 ^ i) by (rewrite Z.pow_add_r by lia; lia).
  assert (Hle : 2 ^ i <= 2 ^ 63) by (apply Z.pow_le_mono_r; lia).
  change (2 ^ 63) with 9223372036854775808 in Hle. change (2 ^ 64) with 18446744073709551616 in *.
  rewrite (Z.min_r u64_max (2 ^ i)) by (unfold u64_max; lia).
  destruct (Z.ltb_spec height (2 ^ i)) as [Hb|Hb]; [done|].
  replace (2 ^ i * 2) with (2 ^ (i + 1)) by lia. unfold u64_saturating_sub. rewrite Z.max_r by lia.
  apply IH; [lia|lia|]. change (2 ^ 64) with 18446744073709551616. lia.
Qed.

Lemma locator_stored s fuel : forall height step acc,
  len acc <= 10 ->
  (forall x, x ∈ acc -> exists h, get_block_hash s h = Ok (Some x)) ->
  let l := locator_loop fuel s height step acc in
  len l <= 10 /\ forall x, x ∈ l -> exists h, get_block_hash s h = Ok (Some x).
Proof.
  induction fuel as [|fuel IH]; intros height step acc Hl Hs; cbn [locator_loop]; [done|].
  destruct ((0 <? height) && (len acc <? 10)) eqn:Hc; [|done]. apply andb_true_iff in Hc as [_ Hc%Z.ltb_lt].
  set (acc' := match get_block_hash s height with Ok (Some x) => acc ++ [x] | _ => acc end).
  assert (Ha : len acc' <= 10 /\ forall x, x ∈ acc' -> exists h, get_block_hash s h = Ok (Some x)).
  { unfold acc'. destruct (get_block_hash s height) as [[x|]| | |] eqn:Hg; try done. rewrite len_app, len_cons, len_nil.
    split; [lia|]. intros y [Hy|Hy]%elem_of_app; [auto|]. apply list_elem_of_singleton in Hy as ->. eauto. }
  destruct Ha as [Ha1 Ha2]. destruct (height <? step); [done|]. by apply IH.
Qed.

(** A locator is short: at most ten stored hashes, and the zero hash last.  The
    bound on the rounds of the model is not reached. *)
Theorem locator_spec s start :
  is_u64 start ->
  (exists l, build_locator_hashes start s = l ++ [zero_hash] /\ len l <= 10 /\
     forall x, x ∈ l -> exists h, get_block_hash s h = Ok (Some x)) /\
  forall k, locator_loop (65 + k) s start 1 [] = locator_loop 65 s start 1 [].
Proof.
  intros Hs. split.
  - unfold build_locator_hashes. destruct (locator_stored s 65 start 1 []) as [Hl Hst];
      [done|intros x Hx; by apply not_elem_of_nil in Hx|]. cbv zeta in *.
    revert Hl Hst. generalize (locator_loop 65 s start 1 []). intros l Hl Hst. case_bool_decide as Hz.
    + apply last_Some in Hz as [l' Hl']. exists l'. rewrite Hl' in *. rewrite len_app, len_cons, len_nil in Hl.
      split_and!; [done|lia|]. intros x Hx. apply Hst, elem_of_app. by left.
    + exists l. done.
  - intros k. apply (locator_fuel s 65 k 0 start []); [lia|lia|]. unfold is_u64, u64_max in Hs. cbn. lia.
Qed.

End Locators.

(** * Witnesses *)

(** A peer last seen at second 1234 with no blocks in flight, whose answers are
    empty, and one that does not answer at all. *)
Definition quiet_net : SyncNet :=
  mkSyncNet ["peer"%string] (fun id => Some (mkPeerInfo id "" 1234 0 0)) (fun _ _ _ => Some []) (fun _ _ _ => Some [])
    (fun n => Z.of_nat n) (fun _ => 1700000000).

Definition mute_net : SyncNet :=
  mkSyncNet ["peer"%string] (fun id => Some (mkPeerInfo id "" 1234 0 0)) (fun _ _ _ => None) (fun _ _ _ => None)
    (fun n => Z.of_nat n) (fun _ => 1700000000).

Definition fresh_sync : NetworkSync := NetworkSync_new Blockchain_new 4 1000000.

Lemma header_phase_terminates_witness :
  exists s' r, sync_request_block_headers map_to_list mute_net 10 0 5000 fresh_sync = (s', r) /\ r <> OutOfFuel.
Proof.
  apply (header_phase_terminates map_to_list mute_net 10 0 5000 fresh_sync).
  - vm_compute. discriminate.
  - lia.
  - split; [reflexivity|]. change (retry_count "header_download" (error_recovery fresh_sync)) with 0. lia.
  - vm_compute. discriminate.
Defined.

Lemma empty_answers_complete_sync_witness :
  exists s', synchronize_blockchain map_to_list quiet_net 20 fresh_sync = (s', Ok tt) /\
    blockchain s' = Blockchain_new /\ is_sync_complete s' = true /\ sync_height (sync_state s') = 1234.
Proof.
  apply (empty_answers_complete_sync map_to_list quiet_net (fun m => Permutation_refl (map_to_list m))
    (fun _ _ _ => eq_refl) (fun _ _ _ => eq_refl) 20 "peer" (mkPeerInfo "peer" "" 1234 0 0) Blockchain_new 4 1000000);
    try reflexivity; try (split; vm_compute; discriminate); try lia.
  split; vm_compute; [reflexivity|discriminate].
Defined.

(** The peer that does not answer is asked six times; the synchronisation then
    fails and goes on reporting that it is under way. *)
Example mute_peer :
  let s := fst (synchronize_blockchain map_to_list mute_net 20 fresh_sync) in
  failed_downloads (progress_tracker s) = 6 /\ is_syncing (sync_state s) = true /\
  success_count <$> (sync_peers (peer_manager s) !! "peer"%string) = Some 0 /\
  failure_count <$> (sync_peers (peer_manager s) !! "peer"%string) = Some 0.
Proof. vm_compute. auto. Qed.
