(* ===== verification/RpcAuth.v ===== *)
(** Access to the RPC servers: API keys and permissions
    (src/rusty-rpc/src/auth.rs), the middleware that finds the key of a request
    (middleware.rs), the guards of the methods and the submission of
    transactions (server.rs); keys, permissions and rate limits of
    src/rusty-jsonrpc/src/auth.rs and rate_limiter.rs.

    The mutex around the keys is part of the state: a panic while it is held
    poisons it, and [lock().unwrap()] panics from then on.  Texts are strings of
    UTF-8 bytes; header names are ASCII.  The environment variable, the clock,
    the order of the map of keys and random keys are arguments.  Instants are
    nanoseconds.  The hexadecimal text of a transaction id is left out; the JSON
    rate limiter is a file its crate does not include.  Of the RPC methods that return fixed texts only the guard is
    modelled. *)

From Stdlib Require Import ZArith Lia List Ascii String.
From stdpp Require Import base option list numbers strings gmap.
From coqutil Require Import Datatypes.RecordSetters.
From S2P Require Import Prelude Types Errors Transaction SamplePrimitives ChainState Mempool PeerSelection.

Import TriangleBracketNotations.
#[local] Open Scope Z_scope.

(** * Permissions *)

Inductive PermissionLevel : Type := ReadOnly | StandardLevel | Admin | SuperAdmin.

#[export] Instance PermissionLevel_eq_dec : EqDecision PermissionLevel.
Proof. solve_decision. Defined.

Record ApiKey : Type := mkApiKey {
  api_key : string;
  permission_level : PermissionLevel;
  key_description : string;
  enabled : bool;
}.

Definition has_permission (user_level required_level : PermissionLevel) : bool :=
  match required_level with
  | ReadOnly => true
  | StandardLevel => match user_level with StandardLevel | Admin | SuperAdmin => true | _ => false end
  | Admin => match user_level with Admin | SuperAdmin => true | _ => false end
  | SuperAdmin => match user_level with SuperAdmin => true | _ => false end
  end.

(** [ErrorObjectOwned]: code and text. *)
Record RpcError : Type := mkRpcError { error_code : Z; error_text : string }.

(** * Keys *)

Record AuthManager : Type := mkAuthManager {
  api_keys : gmap string ApiKey;
  keys_poisoned : bool;
  method_permissions : gmap string PermissionLevel;
}.

Abbreviation authM := (stM AuthManager RpcError).

(** [self.api_keys.lock().unwrap()] and the use of the guard. *)
Definition with_keys {A} (m : authM A) : authM A := fun s =>
  if keys_poisoned s then (s, Panic)
  else match m s with
       | (s, Panic) => (s <| keys_poisoned := true |>, Panic)
       | r => r
       end.

Definition read_only_methods : list string :=
  ["rusty_coin_get_block_count"; "rusty_coin_get_block_hash"; "rusty_coin_get_block"; "rusty_coin_get_transaction";
   "rusty_coin_get_blockchain_info"; "rusty_coin_get_mempool_info"; "rusty_coin_get_peer_info"; "rusty_coin_get_network_info";
   "rusty_coin_get_governance_info"; "rusty_coin_list_proposals"; "rusty_coin_get_masternode_status";
   "rusty_coin_list_masternodes"]%string.

Definition standard_methods : list string :=
  ["rusty_coin_send_raw_transaction"; "rusty_coin_create_raw_transaction"; "rusty_coin_sign_raw_transaction";
   "rusty_coin_estimate_fee"; "rusty_coin_list_unspent"; "rusty_coin_get_balance"]%string.

Definition admin_methods : list string :=
  ["rusty_coin_start_mining"; "rusty_coin_stop_mining"; "rusty_coin_set_mining_address"; "rusty_coin_add_peer";
   "rusty_coin_remove_peer"; "rusty_coin_ban_peer"; "rusty_coin_unban_peer"; "rusty_coin_invalidate_block";
   "rusty_coin_reconsider_block"; "rusty_coin_submit_proposal"; "rusty_coin_vote_proposal"; "rusty_coin_start_masternode";
   "rusty_coin_stop_masternode"]%string.

Definition super_admin_methods : list string :=
  ["rusty_coin_shutdown"; "rusty_coin_debug_level"; "rusty_coin_generate_blocks"; "rusty_coin_reset_blockchain";
   "rusty_coin_export_private_key"; "rusty_coin_import_private_key"]%string.

Definition permissions_of (level : PermissionLevel) (methods : list string) : list (string * PermissionLevel) :=
  (fun name => (name, level)) <$> methods.

Definition default_permissions : gmap string PermissionLevel :=
  list_to_map (permissions_of ReadOnly read_only_methods ++ permissions_of StandardLevel standard_methods ++
    permissions_of Admin admin_methods ++ permissions_of SuperAdmin super_admin_methods).

Definition default_keys : list ApiKey :=
  [mkApiKey "readonly_test_key_12345" ReadOnly "Test read-only API key" true;
   mkApiKey "standard_test_key_67890" StandardLevel "Test standard API key" true;
   mkApiKey "admin_test_key_abcdef" Admin "Test admin API key" true;
   mkApiKey "superadmin_test_key_xyz789" SuperAdmin "Test super admin API key" true].

Definition AuthManager_new : AuthManager :=
  mkAuthManager (list_to_map ((fun k => (api_key k, k)) <$> default_keys)) false default_permissions.

Definition add_api_key (k : ApiKey) : authM unit :=
  with_keys (modify (fun s => s <| api_keys ::= <[api_key k := k]> |>)).

(** [random_key] are the 32 characters drawn. *)
Definition create_api_key (random_key : string) (level : PermissionLevel) (description : string) : authM string :=
  add_api_key (mkApiKey random_key level description true);;
  mret random_key.

Definition remove_api_key (key : string) : authM bool :=
  with_keys (
    s ← gets (fun s => s);
    modify (fun s => s <| api_keys ::= delete key |>);;
    mret (bool_decide (is_Some (api_keys s !! key)))).

Definition set_api_key_enabled (key : string) (on : bool) : authM bool :=
  with_keys (
    s ← gets (fun s => s);
    match api_keys s !! key with
    | Some k => modify (fun s => s <| api_keys ::= <[key := k <| enabled := on |>]> |>);; mret true
    | None => mret false
    end).

(** ** Listing *)

(** A continuation byte of UTF-8 does not start a character. *)
Definition starts_char (c : ascii) : bool := negb ((128 <=? N_of_ascii c)%N && (N_of_ascii c <? 192)%N).

(** [&s[..n]] for [n] within the length: panics inside a character. *)
Definition str_prefix (n : nat) (s : string) : outcome RpcError string :=
  match String.get n s with
  | Some c => if starts_char c then Ok (String.substring 0 n s) else Panic
  | None => Ok (String.substring 0 n s)
  end.

Definition mask_key (k : ApiKey) : outcome RpcError (string * PermissionLevel * string * bool) :=
  shown ← str_prefix (Nat.min 4 (String.length (api_key k))) (api_key k);
  mret ((shown +:+ "***")%string, permission_level k, key_description k, enabled k).

Definition list_api_keys (iter_keys : gmap string ApiKey -> list (string * ApiKey)) :
    authM (list (string * PermissionLevel * string * bool)) :=
  with_keys (
    s ← gets (fun s => s);
    lift (mapM mask_key (iter_keys (api_keys s)).*2)).

(** ** Authorization *)

Definition required_permission (method : string) (s : AuthManager) : PermissionLevel :=
  default SuperAdmin (method_permissions s !! method).

Definition get_method_permission (s : AuthManager) (method : string) : PermissionLevel := required_permission method s.

Definition authenticate_and_authorize (key : option string) (method : string) : authM PermissionLevel :=
  s ← gets (fun s => s);
  let required := required_permission method s in
  match key with
  | None => throw (mkRpcError (-32001) "Authentication required: API key missing")
  | Some key =>
      with_keys (
        match api_keys s !! key with
        | None => throw (mkRpcError (-32001) "Authentication failed: Invalid API key")
        | Some info =>
            if negb (enabled info) then throw (mkRpcError (-32001) "Authentication failed: API key disabled")
            else if negb (has_permission (permission_level info) required)
            then throw (mkRpcError (-32002) "Authorization failed: Method requires permission")
            else mret (permission_level info)
        end)
  end.

Definition check_permission (method : string) (key : option string) : authM PermissionLevel :=
  authenticate_and_authorize key method.

(** ** Headers *)

Definition lower_char (c : ascii) : ascii :=
  let n := N_of_ascii c in if ((65 <=? n) && (n <=? 90))%N then ascii_of_N (n + 32) else c.

Fixpoint to_lowercase (s : string) : string :=
  match s with
  | EmptyString => EmptyString
  | String c s => String (lower_char c) (to_lowercase s)
  end.

(** [&value[7..]] *)
Definition after_scheme (value : string) : string := String.substring 7 (String.length value - 7) value.

Fixpoint extract_api_key_from_headers (headers : list (string * string)) : option string :=
  match headers with
  | [] => None
  | (name, value) :: headers =>
      let name := to_lowercase name in
      if bool_decide (name = "x-api-key"%string) then Some value
      else if bool_decide (name = "authorization"%string) then
        if String.prefix "Bearer " value then Some (after_scheme value)
        else if String.prefix "ApiKey " value then Some (after_scheme value)
        else extract_api_key_from_headers headers
      else extract_api_key_from_headers headers
  end.

(** * Rate limits

    [RateLimiter::allow] of both crates: a counter per address and the start of
    its window. *)
Definition allow (window limit : Z) (now : Z) (addr : string) (requests : gmap string (Z * Z)) : gmap string (Z * Z) * bool :=
  let '(count, last_reset) := default (0, now) (requests !! addr) in
  let '(count, last_reset) := if window <=? duration_since now last_reset then (0, now) else (count, last_reset) in
  if count <? limit then (<[addr := (count + 1, last_reset)]> requests, true)
  else (<[addr := (count, last_reset)]> requests, false).

(** 60 requests a minute; 50 a second. *)
Definition rpc_allow : Z -> string -> gmap string (Z * Z) -> gmap string (Z * Z) * bool := allow (60 * SECOND) 60.
Definition jsonrpc_allow : Z -> string -> gmap string (Z * Z) -> gmap string (Z * Z) * bool := allow (1 * SECOND) 50.

(** * The server *)

Record RpcServer : Type := mkRpcServer {
  rate_limiter : gmap string (Z * Z);
  auth_manager : AuthManager;
  request_api_key : option string;
  rpc_state : option BlockchainState;
  rpc_mempool : option Mempool;
}.

Abbreviation rpcM := (stM RpcServer RpcError).

Definition on_auth {A} (m : authM A) : rpcM A := fun s =>
  match m (auth_manager s) with (a, r) => (s <| auth_manager := a |>, r) end.

(** [.is_ok()] of a call: an error is a [false], a panic unwinds. *)
Definition call_succeeds {A} (m : rpcM A) : rpcM bool := fun s =>
  match m s with
  | (s, Ok _) => (s, Ok true)
  | (s, Err _) => (s, Ok false)
  | (s, Panic) => (s, Panic)
  | (s, OutOfFuel) => (s, OutOfFuel)
  end.

Section Server.
  Context (iter_keys : gmap string ApiKey -> list (string * ApiKey)) (env_key : option string).

(** [std::env::var("RUSTY_RPC_API_KEY")], if not empty. *)
Definition configured_key : option string :=
  match env_key with Some k => if bool_decide (k = ""%string) then None else Some k | None => None end.

Definition set_request_api_key (key : string) : rpcM unit := modify (fun s => s <| request_api_key := Some key |>).
Definition clear_request_api_key : rpcM unit := modify (fun s => s <| request_api_key := None |>).

(** The first enabled key whose shown part authenticates by itself. *)
Fixpoint usable_mask (listed : list (string * PermissionLevel * string * bool)) : rpcM (option string) :=
  match listed with
  | [] => mret None
  | (masked, _, _, on) :: listed =>
      if (on : bool) && (4 <? Z.of_nat (String.length masked)) && String.prefix "***" (String.substring (String.length masked - 3) 3 masked) then
        let actual_key := String.substring 0 (String.length masked - 3) masked in
        ok ← call_succeeds (on_auth (authenticate_and_authorize (Some actual_key) "rusty_coin_get_block_count"));
        if ok : bool then mret (Some actual_key) else usable_mask listed
      else usable_mask listed
  end.

Definition fallback_key : rpcM (option string) :=
  listed ← on_auth (list_api_keys iter_keys);
  usable_mask listed.

Definition extract_api_key_from_context : rpcM string :=
  s ← gets (fun s => s);
  match request_api_key s with
  | Some key => mret key
  | None =>
      match configured_key with
      | Some key => mret key
      | None =>
          found ← fallback_key;
          lift (ok_or found (mkRpcError (-32001) "Authentication required: No API key available"))
      end
  end.

(** Whether the key of the headers is known, enabled and allowed to read. *)
Definition valid_header_key (key : option string) : rpcM bool :=
  match key with
  | Some k => call_succeeds (on_auth (authenticate_and_authorize (Some k) "rusty_coin_get_block_count"))
  | None => mret false
  end.

Definition process_request (headers : list (string * string)) : rpcM unit :=
  let key := extract_api_key_from_headers headers in
  valid ← valid_header_key key;
  match key, (valid : bool) with
  | Some k, true => set_request_api_key k
  | _, _ =>
      match configured_key with
      | Some k => set_request_api_key k
      | None =>
          found ← fallback_key;
          match found with
          | Some k => set_request_api_key k
          | None => throw (mkRpcError (-32001) "Authentication required: No valid API key provided")
          end
      end
  end.

Definition check_auth (method : string) (key : option string) : rpcM unit := fun s =>
  match on_auth (check_permission method key) s with
  | (s, Ok _) => (s, Ok tt)
  | (s, Err _) => (s, Err (mkRpcError (-32001) "Authentication failed: "))
  | (s, Panic) => (s, Panic)
  | (s, OutOfFuel) => (s, OutOfFuel)
  end.

(** All requests are counted for one address. *)
Definition check_rate_limit (now : Z) : rpcM unit :=
  s ← gets (fun s => s);
  let '(requests, ok) := rpc_allow now "127.0.0.1:0" (rate_limiter s) in
  modify (fun s => s <| rate_limiter := requests |>);;
  if ok then mret tt else throw (mkRpcError (-32002) "Rate limit exceeded").

(** What every method does first. *)
Definition guard (now : Z) (method : string) : rpcM unit :=
  check_rate_limit now;;
  key ← extract_api_key_from_context;
  check_auth method (Some key).

(** ** Methods *)

Context `{Primitives, StoreCodec}.
Context (hex_decode : string -> option bytes) (decode_transaction : bytes -> option Transaction).

Definition rpc_get_block_count (now : Z) : rpcM Z :=
  guard now "rusty_coin_get_block_count";;
  s ← gets (fun s => s);
  match rpc_state s with
  | Some st => lift (map_err (fun _ => mkRpcError (-32603) "Failed to get block count: ") (get_current_block_height st))
  | None => mret 12345
  end.

Fixpoint check_raw_outputs (outputs : list TxOutput) : outcome RpcError unit :=
  match outputs with
  | [] => Ok tt
  | o :: outputs =>
      if value o =? 0 then Err (mkRpcError (-32600) "Transaction contains zero-value output")
      else if value o <? 546 then Err (mkRpcError (-32600) "Transaction output below dust limit")
      else check_raw_outputs outputs
  end.

Definition check_raw_transaction (tx_bytes : bytes) (tx : Transaction) : outcome RpcError unit :=
  if is_coinbase tx then Err (mkRpcError (-32600) "Cannot add coinbase transaction to mempool")
  else if bool_decide (get_inputs tx = []) then Err (mkRpcError (-32600) "Transaction has no inputs")
  else if bool_decide (get_outputs tx = []) then Err (mkRpcError (-32600) "Transaction has no outputs")
  else if 100000 <? len tx_bytes then Err (mkRpcError (-32600) "Transaction too large")
  else check_raw_outputs (get_outputs tx).

Definition send_raw_transaction (now : Z) (tx_hex : string) : rpcM Hash :=
  guard now "rusty_coin_send_raw_transaction";;
  tx_bytes ← lift (ok_or (hex_decode tx_hex) (mkRpcError (-32602) "Invalid hex transaction: "));
  tx ← lift (ok_or (decode_transaction tx_bytes) (mkRpcError (-32602) "Invalid transaction format: "));
  _ ← lift (check_raw_transaction tx_bytes tx);
  txid ← lift (tx_txid tx);
  s ← gets (fun s => s);
  match rpc_mempool s with
  | Some pool =>
      let '(pool, r) := add_transaction tx pool in
      modify (fun s => s <| rpc_mempool := Some pool |>);;
      _ ← lift (map_err (fun _ => mkRpcError (-32600) "Failed to add transaction to mempool: ") r);
      mret txid
  | None => mret txid
  end.

End Server.

(** [RustyRpcServerImpl::new] of [run_rpc_server]: the default keys, no state,
    no pool, and no middleware that would set the key of a request. *)
Definition run_rpc_server : RpcServer := mkRpcServer ∅ AuthManager_new None None None.

(** * rusty-jsonrpc *)

Record JsonApiKey : Type := mkJsonApiKey {
  json_key : string;
  json_permissions : PermissionLevel;
  json_name : string;
}.

Abbreviation ApiKeyManager := (gmap string JsonApiKey).

Definition ApiKeyManager_new : ApiKeyManager :=
  list_to_map ((fun k => (json_key k, k)) <$>
    [mkJsonApiKey "readonly_key_123" ReadOnly "Read-only client"; mkJsonApiKey "standard_key_456" StandardLevel "Standard client";
     mkJsonApiKey "admin_key_789" Admin "Admin client"; mkJsonApiKey "superadmin_key_000" SuperAdmin "Super admin client"]).

Definition validate_api_key (m : ApiKeyManager) (key : string) : option JsonApiKey := m !! key.

Definition json_read_only : list string :=
  ["get_block_count"; "get_block_hash"; "get_block"; "get_transaction"; "get_utxo_set"; "get_governance_proposals";
   "get_governance_votes"; "get_mining_info"; "get_masternode_status"; "get_masternode_list"; "get_ticket_pool_info";
   "get_active_tickets"; "get_proposal_status"; "list_governance_proposals"; "get_governance_proposal"; "get_proposal_votes";
   "get_governance_params"; "get_treasury_balance"; "get_treasury_history"; "get_ticket_info"; "getbalance"; "listunspent";
   "getwalletinfo"]%string.

Definition json_standard : list string :=
  ["send_raw_transaction"; "generate"; "submit_block"; "mine_block"; "purchase_tickets"; "vote_on_block"]%string.

Definition json_admin : list string :=
  ["register_masternode"; "masternode_ping"; "create_governance_proposal"; "vote_on_proposal"; "finalize_proposal"]%string.

Definition get_required_permission (method : string) : PermissionLevel :=
  if bool_decide (method ∈ json_read_only) then ReadOnly
  else if bool_decide (method ∈ json_standard) then StandardLevel
  else if bool_decide (method ∈ json_admin) then Admin
  else SuperAdmin.

Definition json_check_permission (user required : PermissionLevel) : bool :=
  match user, required with
  | SuperAdmin, _ => true
  | Admin, SuperAdmin => false
  | Admin, _ => true
  | StandardLevel, (Admin | SuperAdmin) => false
  | StandardLevel, _ => true
  | ReadOnly, ReadOnly => true
  | ReadOnly, _ => false
  end.

Definition json_has_permission (m : ApiKeyManager) (key method : string) : bool :=
  match validate_api_key m key with
  | Some info => json_check_permission (json_permissions info) (get_required_permission method)
  | None => false
  end.

Definition json_add_api_key (key : string) (level : PermissionLevel) (name : string) (m : ApiKeyManager) : ApiKeyManager :=
  <[key := mkJsonApiKey key level name]> m.

Definition json_remove_api_key (key : string) (m : ApiKeyManager) : ApiKeyManager * bool :=
  (delete key m, bool_decide (is_Some (m !! key))).

(** Values of the two headers, where present and readable as text. *)
Definition extract_api_key (authorization x_api_key : option string) : option string :=
  match authorization with
  | Some value => if String.prefix "Bearer " value then Some (after_scheme value) else x_api_key
  | None => x_api_key
  end.

Inductive RequestAction : Type := Respond (status code : Z) | Proceed.

Definition on_request (m : ApiKeyManager) (authorization x_api_key : option string) : RequestAction :=
  match extract_api_key authorization x_api_key with
  | None => Respond 401 (-32001)
  | Some key => match validate_api_key m key with None => Respond 401 (-32002) | Some _ => Proceed end
  end.

(** * Permissions are ordered *)

Definition level_rank (l : PermissionLevel) : Z :=
  match l with ReadOnly => 0 | StandardLevel => 1 | Admin => 2 | SuperAdmin => 3 end.

(** Both servers compare levels in the same way. *)
Theorem permissions_agree user required :
  has_permission user required = json_check_permission user required /\
  has_permission user required = (level_rank required <=? level_rank user).
Proof. by destruct user, required. Qed.

(** * Authorization *)

(** A key authorizes a method exactly if it is known, enabled and of at least
    the level of the method, which for an unknown method is the highest; the
    call changes nothing. *)
Theorem authorized_iff key method s l :
  keys_poisoned s = false ->
  authenticate_and_authorize (Some key) method s = (s, Ok l) <->
  exists info, api_keys s !! key = Some info /\ enabled info = true /\ permission_level info = l /\
    level_rank (required_permission method s) <= level_rank l.
Proof.
  intros Hp. unfold authenticate_and_authorize. rewrite stM_bind_run. cbn [gets]. unfold with_keys. rewrite Hp.
  destruct (api_keys s !! key) as [info|]; [|split; [done|by intros (? & ? & _)]].
  destruct (enabled info) eqn:He; cbn [negb]; [|split; [done|intros (? & [= <-] & He' & _); congruence]].
  destruct (permissions_agree (permission_level info) (required_permission method s)) as [_ Hr]. rewrite Hr.
  destruct (Z.leb_spec (level_rank (required_permission method s)) (level_rank (permission_level info))) as [Hle|Hgt]; cbn [negb].
  - split; [intros [= <-]; eauto|]. intros (? & [= <-] & _ & -> & _). done.
  - split; [done|]. intros (? & [= <-] & _ & <- & ?). lia.
Qed.

Lemma authenticate_keeps key method s : fst (authenticate_and_authorize key method s) = s \/ snd (authenticate_and_authorize key method s) = Panic.
Proof.
  unfold authenticate_and_authorize. rewrite stM_bind_run. cbn [gets]. destruct key as [key|]; [|by left].
  unfold with_keys. destruct (keys_poisoned s); [by right|]. destruct (api_keys s !! key) as [info|]; [|by left].
  destruct (negb (enabled info)); [by left|]. destruct (negb (has_permission _ _)); by left.
Qed.

Lemma authenticate_unknown key method s :
  keys_poisoned s = false -> api_keys s !! key = None ->
  authenticate_and_authorize (Some key) method s = (s, Err (mkRpcError (-32001) "Authentication failed: Invalid API key")).
Proof.
  intros Hp Hk. unfold authenticate_and_authorize. rewrite stM_bind_run. cbn [gets]. unfold with_keys. by rewrite Hp, Hk.
Qed.

(** ** Revocation *)

Inductive AuthOp : Type :=
| AuthAdd (k : ApiKey)
| AuthCreate (random_key : string) (level : PermissionLevel) (description : string)
| AuthRemove (key : string)
| AuthSetEnabled (key : string) (on : bool)
| AuthList
| AuthCheck (key : option string) (method : string).

Definition auth_exec (iter_keys : gmap string ApiKey -> list (string * ApiKey)) (op : AuthOp) (s : AuthManager) : AuthManager :=
  match op with
  | AuthAdd k => fst (add_api_key k s)
  | AuthCreate r level d => fst (create_api_key r level d s)
  | AuthRemove key => fst (remove_api_key key s)
  | AuthSetEnabled key on => fst (set_api_key_enabled key on s)
  | AuthList => fst (list_api_keys iter_keys s)
  | AuthCheck key method => fst (authenticate_and_authorize key method s)
  end.

(** Operations that let a key in again. *)
Definition readmits (key : string) (op : AuthOp) : bool :=
  match op with
  | AuthAdd k => bool_decide (api_key k = key)
  | AuthCreate r _ _ => bool_decide (r = key)
  | AuthSetEnabled k on => bool_decide (k = key) && on
  | _ => false
  end.

Definition revoked (key : string) (s : AuthManager) : Prop :=
  match api_keys s !! key with Some k => enabled k = false | None => True end.

Lemma with_keys_keeps {A} (J : AuthManager -> Prop) (m : authM A) :
  (forall s, J s -> J (s <| keys_poisoned := true |>)) -> preserves J m -> preserves J (with_keys m).
Proof.
  intros Hp Hm s Hs. unfold with_keys. destruct (keys_poisoned s); [done|]. specialize (Hm s Hs).
  destruct (m s) as [s' [a|e| |]]; try done. by apply Hp.
Qed.

Lemma revoked_insert key k v s : k <> key -> revoked key s -> revoked key (s <| api_keys ::= <[k := v]> |>).
Proof. destruct s. unfold revoked. cbn. intros Hk. by rewrite lookup_insert_ne. Qed.

Lemma revoked_poison key s : revoked key s -> revoked key (s <| keys_poisoned := true |>).
Proof. by destruct s. Qed.
#[local] Hint Resolve revoked_insert revoked_poison : keep.

Lemma auth_exec_revoked iter_keys key op s : readmits key op = false -> revoked key s -> revoked key (auth_exec iter_keys op s).
Proof.
  intros Hr Hs. assert (Hadd : forall k, api_key k <> key -> preserves (revoked key) (add_api_key k)).
  { intros k Hk. apply with_keys_keeps; [auto with keep|]. apply preserves_modify. auto with keep. }
  destruct op as [k|r level d|k|k on| |k method]; cbn [auth_exec readmits] in *.
  - apply bool_decide_eq_false in Hr. by apply (preserves_fst _ _ _ (Hadd k Hr)).
  - apply bool_decide_eq_false in Hr. apply (preserves_fst _ (create_api_key r level d)); [|done].
    unfold create_api_key. apply preserves_bind; [by apply Hadd|auto with keep].
  - apply (preserves_fst _ (remove_api_key k)); [|done]. apply with_keys_keeps; [auto with keep|]. keep.
    match goal with Hx : revoked key ?t |- _ => destruct t end. unfold revoked in *. cbn in *.
    destruct (decide (k = key)) as [->|Hne]; [by rewrite lookup_delete_eq|by rewrite lookup_delete_ne].
  - apply (preserves_fst _ (set_api_key_enabled k on)); [|done]. apply with_keys_keeps; [auto with keep|].
    intros t Ht. rewrite stM_bind_run. cbn [gets]. destruct (api_keys t !! k) as [info|] eqn:Hk; [|done].
    rewrite stM_bind_run. cbn [modify]. unfold revoked in *. destruct t. cbn in *.
    destruct (decide (k = key)) as [->|Hne]; [|by rewrite lookup_insert_ne]. rewrite lookup_insert_eq.
    rewrite bool_decide_eq_true_2 in Hr by done. by destruct info.
  - apply (preserves_fst _ (list_api_keys iter_keys)); [|done]. apply with_keys_keeps; [auto with keep|]. keep.
  - apply (preserves_fst _ (authenticate_and_authorize k method)); [|done]. unfold authenticate_and_authorize.
    apply preserves_bind; [auto with keep|]. intros t. destruct k as [k|]; [|auto with keep].
    apply with_keys_keeps; [auto with keep|]. keep.
Qed.

(** A key that was disabled or removed is refused for every method, through
    every sequence of operations that neither adds nor enables it. *)
Theorem revoked_stays_revoked iter_keys key method s ops :
  revoked key s -> Forall (fun op => readmits key op = false) ops ->
  is_ok (snd (authenticate_and_authorize (Some key) method (foldl (fun s op => auth_exec iter_keys op s) s ops))) = false.
Proof.
  intros Hs Hops. assert (Hr : revoked key (foldl (fun s op => auth_exec iter_keys op s) s ops)).
  { revert s Hs. induction Hops as [|op ops Hop _ IH]; intros s Hs; [done|]. by apply IH, auth_exec_revoked. }
  revert Hr. generalize (foldl (fun s op => auth_exec iter_keys op s) s ops). intros t Ht.
  unfold authenticate_and_authorize. rewrite stM_bind_run. cbn [gets]. unfold with_keys. destruct (keys_poisoned t); [done|].
  unfold revoked in Ht. destruct (api_keys t !! key) as [info|]; [|done]. by rewrite Ht.
Qed.

(** ** A listing can lock everybody out *)

(** A listing that panics poisons the mutex of the keys, and every later check
    of a key panics with it. *)
Theorem failed_listing_locks_out iter_keys s s' key method :
  list_api_keys iter_keys s = (s', Panic) -> authenticate_and_authorize (Some key) method s' = (s', Panic).
Proof.
  unfold list_api_keys, with_keys. destruct (keys_poisoned s) eqn:Hp.
  - intros [= <-]. unfold authenticate_and_authorize. rewrite stM_bind_run. cbn [gets]. unfold with_keys. by rewrite Hp.
  - rewrite stM_bind_run. cbn [gets lift]. destruct (mapM _ _) as [l|e| |]; try done. intros [= <-].
    unfold authenticate_and_authorize. rewrite stM_bind_run. cbn [gets]. unfold with_keys. by destruct s.
Qed.

(** * Requests without a key *)

Lemma mapM_outcome_ok {E A B} (f : A -> outcome E B) (g : A -> B) l :
  (forall x, x ∈ l -> f x = Ok (g x)) -> mapM (M := outcome E) f l = Ok (g <$> l).
Proof.
  induction l as [|x l IH]; intros Hl; [done|]. cbn [mapM]. rewrite (Hl x) by left. cbn [mbind outcome_bind].
  rewrite IH by (intros y Hy; apply Hl; by right). done.
Qed.

(** What a listing shows of a key. *)
Definition shown_part (k : ApiKey) : string := String.substring 0 4 (api_key k).

Definition masked (k : ApiKey) : string * PermissionLevel * string * bool :=
  ((shown_part k +:+ "***")%string, permission_level k, key_description k, enabled k).

Section Requests.
  Context (iter_keys : gmap string ApiKey -> list (string * ApiKey)) (env_key : option string).
  Hypothesis iter_perm : forall m, iter_keys m ≡ₚ map_to_list m.

Lemma default_keys_cases k : k ∈ (iter_keys (api_keys AuthManager_new)).*2 -> k ∈ default_keys.
Proof using iter_perm.
  rewrite iter_perm. cbn [api_keys AuthManager_new]. intros Hk. apply list_elem_of_fmap in Hk as ([i k'] & -> & Hin).
  apply elem_of_map_to_list in Hin. apply elem_of_list_to_map_2 in Hin. apply list_elem_of_fmap in Hin as (k & [= -> ->] & Hin). done.
Qed.

Lemma default_listing s :
  auth_manager s = AuthManager_new ->
  on_auth (list_api_keys iter_keys) s = (s, Ok (masked <$> (iter_keys (api_keys AuthManager_new)).*2)).
Proof using iter_perm.
  intros Hs. unfold on_auth, list_api_keys, with_keys. rewrite Hs. cbn [keys_poisoned AuthManager_new].
  rewrite stM_bind_run. cbn [gets lift]. rewrite (mapM_outcome_ok _ masked).
  - destruct s. cbn in Hs. by subst.
  - intros k Hk%default_keys_cases. unfold default_keys in Hk. rewrite !elem_of_cons, elem_of_nil in Hk.
    destruct Hk as [->|[->|[->|[->|[]]]]]; reflexivity.
Qed.

Lemma on_auth_unknown key method s :
  keys_poisoned (auth_manager s) = false -> api_keys (auth_manager s) !! key = None ->
  call_succeeds (on_auth (authenticate_and_authorize (Some key) method)) s = (s, Ok false).
Proof.
  intros Hp Hk. unfold call_succeeds, on_auth. rewrite authenticate_unknown by done. by destruct s.
Qed.

(** No shown part is a key: nothing is found. *)
Lemma usable_mask_none ks s :
  keys_poisoned (auth_manager s) = false ->
  Forall (fun k => String.length (shown_part k) = 4%nat /\ api_keys (auth_manager s) !! shown_part k = None) ks ->
  usable_mask (masked <$> ks) s = (s, Ok None).
Proof.
  intros Hp Hks. induction Hks as [|k ks [Hlen Hk] Hks IH]; [done|]. rewrite fmap_cons. unfold masked at 1. cbn [usable_mask].
  destruct (_ && _); [|done]. rewrite stM_bind_run.
  assert (Hact : String.substring 0 (String.length (shown_part k +:+ "***") - 3) (shown_part k +:+ "***") = shown_part k).
  { revert Hlen. generalize (shown_part k). intros p Hlen.
    destruct p as [|c1 [|c2 [|c3 [|c4 [|c5 p]]]]]; try discriminate Hlen. reflexivity. }
  rewrite Hact, on_auth_unknown by done. apply IH.
Qed.

Lemma default_fallback s : auth_manager s = AuthManager_new -> fallback_key iter_keys s = (s, Ok None).
Proof using iter_perm.
  intros Hs. unfold fallback_key. rewrite stM_bind_run, default_listing by done. apply usable_mask_none; [by rewrite Hs|].
  apply Forall_forall. intros k Hk%default_keys_cases. unfold default_keys in Hk. rewrite !elem_of_cons, elem_of_nil in Hk.
  rewrite Hs. destruct Hk as [->|[->|[->|[->|[]]]]]; split; reflexivity.
Qed.

(** A server without middleware, as [run_rpc_server] starts it. *)
Definition bare (s : RpcServer) : Prop := auth_manager s = AuthManager_new /\ request_api_key s = None.

(** The server as it is started answers no request: without the environment
    variable every call of every method is refused, now and after any other
    calls. *)
Theorem bare_server_refuses now method s :
  bare s -> configured_key env_key = None ->
  is_ok (snd (guard iter_keys env_key now method s)) = false /\ bare (fst (guard iter_keys env_key now method s)).
Proof using iter_perm.
  intros [Ha Hr] He. unfold guard. rewrite stM_bind_run. unfold check_rate_limit. rewrite stM_bind_run. cbn [gets].
  destruct (rpc_allow now _ _) as [rq ok]. rewrite stM_bind_run. cbn [modify].
  set (s1 := s <| rate_limiter := rq |>). assert (Hb : bare s1) by (destruct s; by split).
  destruct ok; [|by cbn]. cbn [mret stM_ret]. rewrite stM_bind_run. unfold extract_api_key_from_context. rewrite stM_bind_run.
  cbn [gets]. destruct Hb as [Ha1 Hr1]. rewrite Hr1, He, stM_bind_run, default_fallback by done. cbn. done.
Qed.

End Requests.

(** With the variable set, its key answers for everybody: a request needs none
    of its own. *)
Theorem configured_key_serves_all iter_keys key info now method s :
  key <> ""%string -> keys_poisoned (auth_manager s) = false -> request_api_key s = None ->
  api_keys (auth_manager s) !! key = Some info -> enabled info = true ->
  level_rank (required_permission method (auth_manager s)) <= level_rank (permission_level info) ->
  snd (rpc_allow now "127.0.0.1:0" (rate_limiter s)) = true ->
  snd (guard iter_keys (Some key) now method s) = Ok tt.
Proof.
  intros Hk Hp Hr Hi He Hl Hrate. unfold guard. rewrite stM_bind_run. unfold check_rate_limit. rewrite stM_bind_run. cbn [gets].
  destruct (rpc_allow now _ _) as [rq ok]. cbn in Hrate. subst ok. rewrite stM_bind_run. cbn [modify].
  set (s1 := s <| rate_limiter := rq |>). assert (Hs1 : request_api_key s1 = None /\ auth_manager s1 = auth_manager s) by (by destruct s).
  cbn [mret stM_ret]. rewrite stM_bind_run. unfold extract_api_key_from_context. rewrite stM_bind_run. cbn [gets].
  rewrite (proj1 Hs1). unfold configured_key. rewrite bool_decide_eq_false_2 by done. cbn [mret stM_ret].
  unfold check_auth, check_permission, on_auth. rewrite (proj2 Hs1).
  assert (Ha : authenticate_and_authorize (Some key) method (auth_manager s) = (auth_manager s, Ok (permission_level info)))
    by (apply authorized_iff; [done|eauto]).
  by rewrite Ha.
Qed.

(** A refused request leaves the key of an earlier one in place. *)
Theorem refused_request_keeps_key iter_keys env_key headers s s' e :
  process_request iter_keys env_key headers s = (s', Err e) -> request_api_key s' = request_api_key s.
Proof.
  assert (Hon : forall A (m : authM A) t t' r, on_auth m t = (t', r) -> request_api_key t' = request_api_key t).
  { intros A m t t' r. unfold on_auth. destruct (m (auth_manager t)) as [a r0]. intros [= <- _]. by destruct t. }
  assert (Hcall : forall A (m : authM A) t t' r, call_succeeds (on_auth m) t = (t', r) -> request_api_key t' = request_api_key t).
  { intros A m t t' r. unfold call_succeeds. destruct (on_auth m t) as [t1 r1] eqn:Ho. apply Hon in Ho.
    destruct r1; intros [= <- _]; done. }
  assert (Hmask : forall listed t t' r, usable_mask listed t = (t', r) -> request_api_key t' = request_api_key t).
  { induction listed as [|[[[mk l] d] on] listed IH]; intros t t' r; cbn [usable_mask]; [by intros [= <- _]|].
    destruct (_ && _); [|apply IH]. rewrite stM_bind_run. destruct (call_succeeds _ t) as [t1 r1] eqn:Hc. apply Hcall in Hc.
    destruct r1 as [[]|e1| |]; [by intros [= <- _]| |by intros [= <- _]..]. intros Hi. apply IH in Hi. congruence. }
  unfold process_request. rewrite stM_bind_run.
  destruct (valid_header_key (extract_api_key_from_headers headers) s) as [s1 v] eqn:Hv. unfold valid_header_key in Hv.
  assert (H1 : request_api_key s1 = request_api_key s).
  { destruct (extract_api_key_from_headers headers) as [k|]; [by apply Hcall in Hv|by injection Hv as <- _]. }
  rewrite <- H1. clear Hv H1 s. destruct v as [v|e1| |]; [|by intros [= <- _]|done|done].
  assert (Hrest : match configured_key env_key with
      | Some k => set_request_api_key k
      | None => found ← fallback_key iter_keys;
          match found with Some k => set_request_api_key k
          | None => throw (mkRpcError (-32001) "Authentication required: No valid API key provided") end end s1 = (s', Err e) ->
    request_api_key s' = request_api_key s1).
  { destruct (configured_key env_key); [done|]. rewrite stM_bind_run. unfold fallback_key. rewrite stM_bind_run.
    destruct (on_auth (list_api_keys iter_keys) s1) as [s2 [l|e2| |]] eqn:Hl; apply Hon in Hl; [|by intros [= <- _]|done|done].
    destruct (usable_mask l s2) as [s3 [o|e3| |]] eqn:Hu; apply Hmask in Hu; [|intros [= <- _]; congruence|done|done].
    destruct o; [done|]. intros [= <- _]. congruence. }
  destruct (extract_api_key_from_headers headers), v; done || exact Hrest.
Qed.

(** * Keys in headers *)

Lemma substring_all s : String.substring 0 (String.length s) s = s.
Proof. induction s as [|c s IH]; [done|]. cbn. by rewrite IH. Qed.

(** A key put into a header, in any of the supported forms and whatever the
    case of the name, is the key that is found. *)
Theorem header_roundtrip key :
  extract_api_key_from_headers [("X-API-Key"%string, key)] = Some key /\
  extract_api_key_from_headers [("Authorization"%string, ("Bearer " +:+ key)%string)] = Some key /\
  extract_api_key_from_headers [("Authorization"%string, ("ApiKey " +:+ key)%string)] = Some key /\
  extract_api_key (Some ("Bearer " +:+ key)%string) None = Some key /\ extract_api_key None (Some key) = Some key.
Proof.
  assert (Hb : after_scheme ("Bearer " +:+ key) = key)
    by (change (String.substring 0 (String.length key - 0) key = key); rewrite Nat.sub_0_r; apply substring_all).
  assert (Ha : after_scheme ("ApiKey " +:+ key) = key)
    by (change (String.substring 0 (String.length key - 0) key = key); rewrite Nat.sub_0_r; apply substring_all).
  assert (Hp : String.prefix "Bearer " ("Bearer " +:+ key) = true) by (by destruct key).
  assert (Hq : String.prefix "ApiKey " ("ApiKey " +:+ key) = true) by (by destruct key).
  assert (Hn : String.prefix "Bearer " ("ApiKey " +:+ key) = false) by done.
  unfold extract_api_key. cbn [extract_api_key_from_headers].
  change (to_lowercase "X-API-Key") with "x-api-key"%string. change (to_lowercase "Authorization") with "authorization"%string.
  rewrite Hp, Hn, Hq, Hb, Ha. rewrite !bool_decide_eq_true_2 by done. rewrite !bool_decide_eq_false_2 by done. done.
Qed.

(** The JSON-RPC middleware lets every known key through: neither the method of
    the request nor the level of the key plays a part. *)
Theorem json_levels_ignored m key x_api_key :
  on_request m (Some ("Bearer " +:+ key)%string) x_api_key = Proceed <-> is_Some (m !! key).
Proof.
  destruct (header_roundtrip key) as (_ & _ & _ & Hk & _). revert Hk. unfold on_request, extract_api_key, validate_api_key.
  destruct (String.prefix _ _); [|done]. intros [= ->]. destruct (m !! key); split; try done; by intros [].
Qed.

(** * Rates *)

(** How many of the requests of one address at these times pass. *)
Fixpoint passed (window limit : Z) (addr : string) (times : list Z) (requests : gmap string (Z * Z)) : Z :=
  match times with
  | [] => 0
  | now :: times =>
      let '(requests, ok) := allow window limit now addr requests in
      (if ok then 1 else 0) + passed window limit addr times requests
  end.

Lemma passed_bound window limit addr t times : forall requests count start,
  0 < window -> 0 <= limit -> Forall (fun now => now <= t) times ->
  requests !! addr = Some (count, start) -> 0 <= count <= limit ->
  passed window limit addr times requests <= limit - count + limit * Z.max 0 ((t - start) / window).
Proof.
  induction times as [|now times IH]; intros requests count start Hw Hl Ht Hr Hc; cbn [passed]; [nia|].
  inversion_clear Ht as [|? ? Hnow Ht']. unfold allow. rewrite Hr. cbn [default]. unfold Datatypes.id.
  destruct (Z.leb_spec window (duration_since now start)) as [Ho|Ho].
  - assert (Hadv : Z.max 0 ((t - now) / window) + 1 <= Z.max 0 ((t - start) / window)).
    { assert ((t - now) / window + 1 <= (t - start) / window).
      { rewrite <- Z.div_add by lia. apply Z.div_le_mono; unfold duration_since in *; lia. }
      pose proof (Z.div_pos (t - now) window ltac:(lia) Hw). lia. }
    destruct (Z.ltb_spec 0 limit) as [Hp|Hp].
    + specialize (IH (<[addr := (0 + 1, now)]> requests) (0 + 1) now Hw Hl Ht' (lookup_insert_eq _ _ _) ltac:(lia)). nia.
    + specialize (IH (<[addr := (0, now)]> requests) 0 now Hw Hl Ht' (lookup_insert_eq _ _ _) ltac:(lia)). nia.
  - destruct (Z.ltb_spec count limit) as [Hp|Hp].
    + specialize (IH (<[addr := (count + 1, start)]> requests) (count + 1) start Hw Hl Ht' (lookup_insert_eq _ _ _) ltac:(lia)). nia.
    + specialize (IH (<[addr := (count, start)]> requests) count start Hw Hl Ht' (lookup_insert_eq _ _ _) ltac:(lia)). nia.
Qed.

(** From the first request on, an address gets at most the limit, and as much
    again for each window that has passed.  The RPC server counts everybody
    under one address. *)
Theorem requests_are_limited window limit addr first t times requests :
  0 < window -> 0 <= limit -> requests !! addr = None -> first <= t -> Forall (fun now => now <= t) times ->
  passed window limit addr (first :: times) requests <= limit * (1 + (t - first) / window).
Proof.
  intros Hw Hl Hr Hf Ht. cbn [passed]. unfold allow. rewrite Hr. cbn [default]. unfold duration_since. rewrite Z.sub_diag.
  replace (window <=? Z.max 0 0) with false by (symmetry; apply Z.leb_gt; lia).
  assert (Hd : Z.max 0 ((t - first) / window) = (t - first) / window) by (apply Z.max_r, Z.div_pos; lia).
  destruct (Z.ltb_spec 0 limit) as [Hp|Hp].
  - pose proof (passed_bound window limit addr t times (<[addr := (0 + 1, first)]> requests) (0 + 1) first Hw Hl Ht
      (lookup_insert_eq _ _ _) ltac:(lia)). lia.
  - pose proof (passed_bound window limit addr t times (<[addr := (0, first)]> requests) 0 first Hw Hl Ht
      (lookup_insert_eq _ _ _) ltac:(lia)). lia.
Qed.

(** * Submitted transactions *)

Section Submission.
  Context `{Primitives, StoreCodec}.
  Context (iter_keys : gmap string ApiKey -> list (string * ApiKey)) (env_key : option string).
  Context (hex_decode : string -> option bytes) (decode_transaction : bytes -> option Transaction).

Lemma outputs_checked outputs : check_raw_outputs outputs = Ok tt -> Forall (fun o => 546 <= value o) outputs.
Proof.
  induction outputs as [|o outputs IH]; cbn [check_raw_outputs]; [constructor|].
  destruct (Z.eqb_spec (value o) 0); [done|]. destruct (Z.ltb_spec (value o) 546); [done|]. intros Ho. constructor; [done|auto].
Qed.

(** Adding a transaction always leaves it in the pool under its id. *)
Lemma pool_takes tx id pool :
  tx_txid (E := RpcError) tx = Ok id ->
  exists added : bool, add_transaction tx pool = (if added then <[id := tx]> pool else pool, Ok added) /\
    (added = false <-> is_Some (pool !! id)).
Proof.
  intros Hid. assert (Hid' : tx_txid (E := CE.ConsensusError) tx = Ok id).
  { revert Hid. unfold tx_txid. destruct (bincode_transaction tx); [by intros [= <-]|done]. }
  unfold add_transaction. rewrite stM_bind_run. cbn [lift]. rewrite Hid', stM_bind_run. cbn [gets].
  unfold contains_transaction. destruct (bool_decide (is_Some (pool !! id))) eqn:Hk.
  - exists false. split; [done|]. apply bool_decide_eq_true in Hk. done.
  - exists true. split; [done|]. apply bool_decide_eq_false in Hk. done.
Qed.

(** A transaction that is taken has passed the guard and the checks of its
    shape, and is in the pool: its inputs, scripts and fee are not looked at. *)
Theorem submission_spec now tx_hex s s' id :
  send_raw_transaction iter_keys env_key hex_decode decode_transaction now tx_hex s = (s', Ok id) ->
  exists s1 tx_bytes tx, guard iter_keys env_key now "rusty_coin_send_raw_transaction" s = (s1, Ok tt) /\
    hex_decode tx_hex = Some tx_bytes /\ decode_transaction tx_bytes = Some tx /\ tx_txid (E := RpcError) tx = Ok id /\
    is_coinbase tx = false /\ get_inputs tx <> [] /\ get_outputs tx <> [] /\ len tx_bytes <= 100000 /\
    Forall (fun o => 546 <= value o) (get_outputs tx) /\
    forall pool, rpc_mempool s1 = Some pool ->
      rpc_mempool s' = Some (if decide (is_Some (pool !! id)) then pool else <[id := tx]> pool).
Proof.
  intros Hs. unfold send_raw_transaction in Hs. apply stM_bind_ok in Hs as (s1 & [] & Hg & Hs). exists s1.
  apply stM_bind_ok in Hs as (s2 & tx_bytes & Hhex & Hs). unfold lift in Hhex.
  destruct (hex_decode tx_hex) as [b|]; [|done]. injection Hhex as <- <-.
  apply stM_bind_ok in Hs as (s3 & tx & Htx & Hs). unfold lift in Htx. destruct (decode_transaction b) as [tx'|] eqn:Hd; [|done].
  injection Htx as <- <-. apply stM_bind_ok in Hs as (s4 & [] & Hc & Hs). unfold lift in Hc. injection Hc as <- Hc.
  apply stM_bind_ok in Hs as (s5 & txid & Hid & Hs). unfold lift in Hid. injection Hid as <- Hid.
  rewrite stM_bind_run in Hs. cbn [gets] in Hs. exists b, tx'.
  unfold check_raw_transaction in Hc. destruct (is_coinbase tx') eqn:Hcb; [done|].
  case_bool_decide as Hin; [done|]. case_bool_decide as Hout; [done|]. destruct (Z.ltb_spec 100000 (len b)); [done|].
  assert (Hi : txid = id).
  { destruct (rpc_mempool s1) as [pool|]; [|by injection Hs]. destruct (add_transaction tx' pool) as [pool' r].
    rewrite stM_bind_run in Hs. cbn [modify] in Hs. apply stM_bind_ok in Hs as (s6 & a & _ & Hs). by injection Hs. }
  subst txid. split_and!; try done; [by apply outputs_checked|]. intros pool Hp. rewrite Hp in Hs.
  destruct (pool_takes tx' id pool Hid) as (added & Hadd & Hin'). rewrite Hadd, stM_bind_run in Hs. cbn in Hs.
  injection Hs as <-. destruct s1. cbn. destruct (decide _) as [Hk|Hk], added; try done; exfalso.
  - apply Hin' in Hk. done.
  - apply Hk, Hin'. done.
Qed.

End Submission.

(** * Examples *)

(** A key whose fourth byte is inside a character: once it is added, a listing
    panics and no key is accepted any more. *)
Definition split_key : string :=
  ("abc" +:+ String (ascii_of_N 195) (String (ascii_of_N 169) "key"))%string.

Definition split_manager : AuthManager :=
  fst (add_api_key (mkApiKey split_key ReadOnly "accented" true) AuthManager_new).

Lemma split_key_locks_out :
  snd (authenticate_and_authorize (Some "superadmin_test_key_xyz789"%string) "rusty_coin_shutdown" AuthManager_new) = Ok SuperAdmin /\
  snd (list_api_keys map_to_list split_manager) = Panic /\
  authenticate_and_authorize (Some "superadmin_test_key_xyz789"%string) "rusty_coin_shutdown" (fst (list_api_keys map_to_list split_manager)) =
    (fst (list_api_keys map_to_list split_manager), Panic).
Proof.
  assert (Hp : snd (list_api_keys map_to_list split_manager) = Panic) by (vm_compute; reflexivity).
  split; [vm_compute; reflexivity|]. split; [done|]. apply (failed_listing_locks_out map_to_list split_manager).
  rewrite <- Hp. apply surjective_pairing.
Qed.

(** A disabled key stays out through a listing and a check, until it is
    enabled. *)
Lemma disabled_key_example :
  let s := fst (set_api_key_enabled "admin_test_key_abcdef" false AuthManager_new) in
  is_ok (snd (authenticate_and_authorize (Some "admin_test_key_abcdef"%string) "rusty_coin_get_block_count"
    (foldl (fun s op => auth_exec map_to_list op s) s [AuthList; AuthCheck None "x"]))) = false /\
  snd (authenticate_and_authorize (Some "admin_test_key_abcdef"%string) "rusty_coin_get_block_count"
    (auth_exec map_to_list (AuthSetEnabled "admin_test_key_abcdef" true) s)) = Ok Admin.
Proof.
  cbn zeta. split; [|vm_compute; reflexivity]. apply revoked_stays_revoked; [|by repeat constructor].
  unfold revoked.
  assert (Hk : (enabled <$> api_keys (fst (set_api_key_enabled "admin_test_key_abcdef" false AuthManager_new)) !! "admin_test_key_abcdef"%string) = Some false)
    by (vm_compute; reflexivity).
  destruct (_ !! _); [by injection Hk|done].
Qed.

(** 61 requests in a minute: one is refused; a minute later it passes. *)
Lemma rate_limit_example :
  passed (60 * SECOND) 60 "a" (repeat 0 61) ∅ = 60 /\ passed (60 * SECOND) 60 "a" (repeat 0 61 ++ [60 * SECOND]) ∅ = 61.
Proof. split; vm_compute; reflexivity. Qed.

(** The server as it is started, and with the key of the variable. *)
Lemma started_server_example :
  is_ok (snd (guard map_to_list None 0 "rusty_coin_get_block_count" run_rpc_server)) = false /\
  snd (guard map_to_list (Some "readonly_test_key_12345"%string) 0 "rusty_coin_get_block_count" run_rpc_server) = Ok tt.
Proof.
  split; [by apply (bare_server_refuses map_to_list None)|].
  apply (configured_key_serves_all map_to_list _ (mkApiKey "readonly_test_key_12345" ReadOnly "Test read-only API key" true));
    try done; vm_compute; reflexivity || discriminate.
Qed.
